(* ===== verification/_CoqProject ===== *)
-Q . S2P
Prelude.v
GoStrings.v
Sorting.v
CanonicalBytes.v
Graphs.v
EffectGraph.v
FixedDecimal.v
MoneyValues.v
CivilTime.v
Intervals.v
Zoned.v
LifecycleRules.v
LifecycleProfile.v
LifecycleMachine.v
WorkflowPlan.v
Frontier.v
FrontierFacts.v
FrontierRuns.v
FrontierExamples.v
WorkflowGraph.v
WorkflowGraphFacts.v
WorkflowCycles.v
WorkflowDominators.v
WorkflowTerminal.v
WorkflowCompile.v
DecimalAmounts.v
GarnishmentOrder.v
GarnishmentLimit.v
GarnishmentPriority.v
GarnishmentLedger.v
GarnishmentRecon.v
GarnishmentRemittance.v
BalanceEntries.v
BalanceAsOf.v
BalanceRules.v
BalancePlans.v
BalanceCommit.v
BalanceTransfer.v
BalanceLifecycle.v
BalanceReconcile.v
BalanceCorrection.v
BalanceExplain.v
TimeUnits.v
TimeRules.v
TimeCalendar.v
TimeClassify.v
TimeZones.v
TimeResult.v
TimePay.v
TimePremium.v
TimeCalculate.v
TimeGolden.v
TimePayFacts.v
TimeCalcFacts.v
TimePayLines.v
TimeSound.v
TimeOrder.v
RuleValues.v
DecisionTables.v
PromotionRules.v
Expression.v
ExpressionEval.v
ExpressionParse.v
ExpressionGrammar.v
ExpressionLexing.v
ExpressionText.v
ExpressionLower.v
ExpressionArtifact.v
ExpressionTree.v
ExpressionSound.v
ExpressionFacts.v
ExpressionExamples.v
LeaseTable.v
LeaseManager.v
LeaseSteps.v
LeaseFacts.v
LeaseHistory.v
LeaseExamples.v
