(* ===== verification/Prelude.v ===== *)
(** Verification of the human-capital-management suite: kernel values, the
    intent lifecycle, the workflow compiler and runtime, the effect graph, the
    rules engine, the time calculation, garnishments and balances.

    * The program

    The suite is a Go system for human resources.  Business code of every
    domain computes with the kernel values ([internal/kernel/values]): exact
    decimals, money with currencies, civil and zoned time, intervals.  Changes
    are intents whose lifecycle is a tuple of five states
    ([internal/intent/lifecycle]): rules say which tuples are legal, profiles
    which edges exist, and a machine applies transitions and records them.
    The time calculation ([internal/domains/timecalc]) turns worked intervals
    into regular, overtime and double time under a jurisdiction's rule set, and
    prices them: straight time, differentials, the regular rate, premiums,
    on-call time and guarantees, in a result with a digest.
    Garnishments ([internal/domains/garnishment]) are orders to withhold part
    of a wage: an order is received, verified, activated, amended and ended;
    disposable earnings and their legal limit say how much of it may be
    withheld, a rule pack which of several orders comes first; a ledger holds
    what has been withheld and remitted, reconciliation compares it with
    payroll and the recipient, and a remittance pays it out under the
    authorization of two persons.
    Balances ([internal/domains/balance]) are accounts of leave, hours or
    money: entries are appended to a store, the authorized balance is derived
    from those recorded, authorized and effective at a date, rules adjust it,
    a posting is planned against it and committed once by a transaction, value
    is transferred between accounts, expires or is carried over at the end of a
    period, is reconciled with an external source, corrected retroactively and
    explained to a caller who may not see everything.
    Intents are carried out by workflows ([internal/workflow]): a definition
    of typed steps and routes is analysed as a graph, its ENDs are held against
    the lifecycle rules, and the result is an immutable plan; the frontier
    ([internal/workflow/frontier]) advances an instance of a plan by one
    completed step at a time.  A worker holds an instance, a node, a work item
    or a queue by a lease ([internal/workflow/lease]): a row of the table
    [workflow_lease] behind [internal/data/runtimestate], with a fencing token
    that orders its holders, and a fenced advancement checks the worker's lease
    in the transaction that advances.  External effects are ordered by the effect graph
    ([internal/effectgraph]).
    Policies are decision tables and expressions of the rules engine
    ([internal/engines/rules]): tables are validated, digested and evaluated
    row by row, expressions are compiled to a linear program with a published
    cost and evaluated on facts that may be missing; promotions are approved
    and re-approved by two such tables.  What is digested is first written as
    a canonical byte stream ([internal/engines/canonicalbytes]).
    Values call nothing else of the suite; the rules engine uses decimals and
    dates; the lifecycle uses instants for its records; garnishments compute
    with decimals and seal what they store with canonical byte streams, and so
    do balances; the time calculation uses the rounding modes and instants of
    the values; the workflow compiler calls the lifecycle's [Check]; the frontier
    reads the compiled plan.

    * The files, in dependency order

    - [Prelude]: Go results ([outcome]: a value, an error or a panic) with
      their bind, machine integers and their wrap-around, Go strings and byte
      encodings, decimal numerals, and the tactics ([ok_inv], [div_lia])
      shared by all files.
    - [GoStrings]: what the suite uses of [strings] and [strconv] beyond the
      prelude: case mapping, folding, trimming, decimal text.
    - [Sorting]: [sort.Strings], [sort.Slice] by a key, [sort.Search], and
      slices kept sorted by a key.
    - [CanonicalBytes]: [canonicalbytes.go]: the writer of tagged fields with
      its sticky error, and the list of fields a stream stands for.  SHA-256 is
      the class [Sha256].
    - [Graphs]: the two depth-first searches and Kahn's algorithm as the suite
      writes them, characterised by paths.
    - [EffectGraph]: [effectgraph/graph.go]: validation of effects, collection
      of dependencies, ordering compatibility, [topo], [Compile], [Verify].
    - [FixedDecimal]: [decimal.go].  [Decimal] with its sign, unscaled
      magnitude, scale and rounding mode; the fixed-width fast path of
      [Quantize], the text path and the path through the decimal library.
      That library is not in the repository: it is the class
      [DecimalBackend], its documented contract is the hypothesis of the
      quantization theorem, and [apd_model] is an instance that shows the
      contract can hold.
    - [MoneyValues]: [money.go]: currencies, money, quantities and rates.
    - [CivilTime]: [time.go] up to local times: instants, dates and times of
      day; the Gregorian calendar of the standard library as day numbers.
    - [Intervals]: [time.go]: zones, calendars, half-open effective intervals,
      pay periods, business days.  The zone database is the class [Tzdb].
    - [Zoned]: [time.go] and [timer.go]: zoned date-times, resolution of
      repeated and skipped wall-clock times, timer replay.
    - [LifecycleRules]: [dimensions.go] and [rules.go]: the five state types
      with their names, and [Check] with its six rules.
    - [LifecycleProfile]: [profile.go]: profiles, their validation with its
      reachability search, narrowing, the five kernel profiles.
    - [LifecycleMachine]: [History] of [profile.go] and [machine.go]:
      [NewMachine], [Apply] and [Replay] as state passing; the relation [Run]
      is the machines a caller can hold.
    - [WorkflowPlan]: [workflow/steptype.go] and the fields of definitions,
      terminals and plans the runtime reads.
    - [Frontier]: [workflow/frontier]: the state of an instance, [Seed],
      [Advance] with its validation, routing, joins, skips, retries and ENDs.
      [FrontierFacts] holds the lemmas of its steps, [FrontierRuns] its
      theorems (the relation [reached] is the states a caller can hold),
      [FrontierExamples] concrete plans.
    - [WorkflowGraph]: [workflow/graph.go]: the analysis of a definition.
      [WorkflowGraphFacts] proves its adjacency maps, reachability and
      termination, [WorkflowCycles] back edges, order and depth,
      [WorkflowDominators] the dominator fixpoint.
    - [WorkflowTerminal]: [workflow/terminal.go]: terminal profiles, completion
      mappings and [checkEnd].
    - [WorkflowCompile]: the terminals of [Compile] and the nodes and edges of
      [normalize] in [workflow/compile.go], and what the passes guarantee to
      the frontier.
    - [LeaseTable]: the table [workflow_lease] of the migration with its
      constraints, and [LeaseStore] of [runtimestate/scheduling.go] as state
      passing.  The precision of the timestamp column is the class
      [TimestampCodec].
    - [LeaseManager]: [workflow/lease]: resources, holders, fences, evidence
      and [Manager]; [AdvanceFenced] of [workflow/runtime/fenced.go] with an
      optional verifier, the advancement it runs being a parameter.  Texts and digests are the class
      [LeaseText].
    - [LeaseSteps]: the relation of what concurrent transactions do to the
      table: an acquire reads first and writes later, every other operation is
      one row-locked update; other transactions commit in between.
      [LeaseFacts] has the invariant and the fencing theorems, [LeaseHistory]
      the exact behaviour of each operation and of the history,
      [LeaseExamples] concrete tables.
    - [DecimalAmounts]: decimals of one scale as integers ([amount]): what
      [Add], [Sub], [Cmp], [Sign] and [Validate] do to them.
    - [GarnishmentOrder]: [garnishment/order.go] and [lifecycle006.go]: orders
      with their evidence and versions, effective-dated transitions and their
      receipts, [IsDeductible].
    - [GarnishmentLimit]: [disposable003.go] and [garn003_serving.go]:
      disposable earnings, the legal cap, the protected floor and the trace.
    - [GarnishmentPriority]: [priority002.go]: rule packs, [ComposePriority]
      and the verification of a composition.
    - [GarnishmentLedger]: [balance004.go]: [OpenBalance] and
      [ApplyLedgerEntry]; a ledger is the list of its postings.
    - [GarnishmentRecon]: [reconcile007.go]: the comparison of every worker,
      order and period, and the repair case.
    - [GarnishmentRemittance]: [garnishment.go]: batches, settlement
      instructions, step-up proofs, [Authorize] and [ValidateFor]; of
      [trust.Principal] the tenant, the subject and the fingerprint.
    - [BalanceEntries]: [balance/definition.go] and [entries.go]: accumulator
      definitions, entries with their canonical bytes, [EntryStore] as state
      passing.  [BalanceAsOf]: [asof.go], the authorized balance.
      [BalanceRules]: [rules.go], thresholds, floors and caps over a ledger.
      [BalancePlans]: [posting_plan.go].  [BalanceCommit]: [posting.go] and the
      transfer plans of [transfer.go]; [tx_reached] is the transactions a
      caller can hold.  [BalanceTransfer]: the move of a posted entry in
      [transfer.go].  [BalanceLifecycle]: [lifecycle.go].  [BalanceReconcile]:
      [reconcile.go].  [BalanceCorrection]: [correction.go].
      [BalanceExplain]: [explain.go].
    - [TimeUnits]: [timecalc/units.go] and the errors of [contract.go]:
      seconds, money and factors in ten-thousandths, 128-bit rounding
      division, wrap-around included.
    - [TimeRules]: [timecalc/ruleset.go] and [input.go]: rule sets, overrides
      and requests, with every check of their validation.
    - [TimeCalendar]: [timecalc/calendar.go]: ordering of intervals, refusal
      of double booking, the binary search for a workday, segments.
    - [TimeClassify]: [timecalc/classify.go], the buckets of [result.go] and
      [engine.classify] of [calculate.go]: day plans, the classification loop
      and compensatory time.
    - [TimeZones]: [newCalendar], [dateOf] and [windowOverlap] of
      [timecalc/calendar.go], on the zone database of [Intervals].
    - [TimeResult]: [timecalc/result.go]: pay lines, results, their rendering,
      digest, [Validate] and wage hours.
    - [TimePay]: [timecalc/pay.go] and the [engine] of [calculate.go], passed
      from step to step; [TimePremium]: [premium.go]; [TimeCalculate]: the
      steps in the order of [Calculate].  [TimeGolden] renders the fixtures of
      the package's tests to the golden files of [testdata].
    - [TimePayFacts] proves that the pricing steps do not panic and what they
      keep, [TimeCalcFacts] the same of preparation, on-call time and
      classification, [TimePayLines] what the lines of a period say.
      [TimeSound] and [TimeOrder] hold the theorems about whole calculations.

    - [RuleValues]: [rules/rules.go] and [value_json.go]: kinds and values, their
      validation, order, canonical bytes and JSON form.
    - [DecisionTables]: [rules.go]: columns, conditions, tables, [Validate],
      [Canonical] and [Evaluate].
    - [PromotionRules]: [promotion.go] and [reevaluate.go]: the two promotion
      tables, approved plans and their re-evaluation.
    - [Expression]: [expression.go], [expression_library.go] and
      [expression_compile.go]: trees, the function library, [lower], the
      compiled artifact and its validation.
    - [ExpressionParse]: [expression.go]: the lexer with [strconv.Unquote],
      the parser and the canonical encodings.  [ExpressionGrammar] has the
      grammar as a syntax tree with a printer and proves the parser against
      it, [ExpressionLexing] the lexer; [ExpressionText] holds the theorems.
    - [ExpressionEval]: [expression_eval.go]: operators, functions and
      [evaluateNode] with its cache, trace and running cost.
    - [ExpressionLower] proves what [lower] produces, [ExpressionArtifact] that
      the result passes its validation, [ExpressionTree] that evaluating it
      computes the tree; [ExpressionSound] is about types and panics,
      [ExpressionFacts] about cost and missing facts and holds the theorems;
      [ExpressionExamples] has concrete expressions.

    A Go method [T.m] is the definition [T_m]; a function keeps its name.  A
    function that returns a value and an error is a function into [outcome]; a
    method that changes its receiver returns the new one beside its result.
    An error carries the sentinel that [errors.Is] finds, not its text.

    * What the theorems show

    - Lifecycle: every machine a caller can hold stands at a legal tuple with
      a chained, numbered and governed history; [Apply] is all or nothing;
      terminal request states absorb; replaying a history ends where the
      machine stands and accepts nothing a live machine would not do; [Check]
      decides legality and names the failed rules; profile validation accepts
      exactly the publishable profiles; a narrowed machine is simulated by its
      base.  One theorem exhibits a narrowing that drops a governance flag.
    - Workflow compiler: reachability and termination are paths; back edges are
      what closes cycles, and accepted ones are declared, bounded and guarded;
      the order is topological and the depth limit bounds every path; the
      dominator fixpoint is domination on every walk; an END is accepted
      exactly when its tuple is legal, in its profile and honest about
      obligations, degraded routes and repairs.
    - Workflow runtime: advancing keeps the state well formed and changes only
      what the transition reports; on plans of the step types a release
      implements (PARALLEL, JOIN and SUBWORKFLOW are gated behind the
      structural phase) advancement moves one token as the outcome of its node
      says; a node that was settled and not reopened is refused any further
      outcome.  Composed with the compiler: an instance of an accepted
      definition of released step types always has a next step, and without
      back edges and failure routes its settling runs are bounded by the
      declared depth.  Two theorems collect the cases where
      joins, skips, fan-out and failure routes depart from their documentation.
    - Leases: through every interleaving of transactions tokens count the
      leases of a resource and at most one row is held, its last; accepted
      fences never go back and a superseded one is refused for ever; acquire,
      renewal, release, expiry and the history are stated on every branch;
      [AdvanceFenced] is the advancement exactly under a fence that protects
      the requested instance, and one refusal otherwise.  One theorem collects a live lease lost to a racing
      acquire and evidence that is not reconstructed as it was.
    - Effect graph: [Compile] accepts exactly the publishable graphs, its order
      takes at every position the least effect that is free, and the result does not depend on how
      the graph is listed.  One theorem shows edges lost to a key collision.
    - Time calculation: the classification loop refines a closed form of the
      hours owed per workday and period, without counting a second twice;
      segments tile the worked time; double booking is refused exactly; the
      compensatory balance respects its cap; an accepted override can only
      favour the worker, in its parameters and in the hours it yields;
      prices and rates are rounded once.  A whole calculation never panics, its
      result passes its own recheck and holds those hours; prices of its
      lines are their rates times their hours; on-call time is counted to the
      second, standby for on-call periods that do not overlap, and so are night
      windows; the result does not depend on the order of
      the intervals.  Two theorems collect inputs on which units and sums wrap,
      malformed text is accepted, and input order or double counting shows.
    - Garnishments: every order a caller can hold is sealed, has its evidence
      once active and starts a version only by amendment, linked to the one
      before; transitions are accepted exactly under their conditions, end
      deduction, and their receipts correct exactly the exposed window; a limit is returned exactly on complete
      inputs, its disposable earnings are exact, its cap is the share of them
      rounded once per operation and never breaks the floor; a composition
      ranks and groups orders by precedence, whatever the order they come in;
      the totals of a ledger are the sums of its entries within the cap;
      reconciliation compares every cell once; a batch adds up to the payroll
      total, and its authorization is bound to the exact batch, instruction
      and proof.  Five theorems exhibit a closed order made active again, a
      cap above the legal share, a ledger with more remitted than withheld,
      differences reported in one direction only, and one person as requester
      and approver.
    - Balances: the store of entries numbers, seals and never rewrites what it
      holds, and accepts a post exactly on the current head; the authorized
      balance is the opening plus the rounded amounts of exactly the entries
      that count; rules account for every movement, and a plan exists exactly
      for an admissible request; a transaction commits a posting or a linked
      pair once or not at all, and transfers conserve value; expiry and
      carryover take no more than the balance; a reconciliation matches exactly
      when everything agrees, and so never without a counted entry; impacts of a correction are ordered by what they
      depend on; an explanation adds up whatever it masks.  Five lemmas exhibit
      an order of entries without a total, a plan above its cap, a plan
      committed late, a reissue left out of its balance, and keys an
      explanation does not mask.
    - Rules engine: a canonical stream determines its fields; [Equal] and [Cmp]
      are an equivalence and an order; a table whose operands have no commas and
      bars is evaluated exactly when it is well typed, has no two rows of the
      same conditions and the inputs fit, and every table to exactly the rows
      whose conditions hold; the
      promotion tables decide like the documented policy, and a plan is
      confirmed exactly when nothing it depends on has changed.  The parser
      inverts a printer with the fewest parentheses, yields nothing outside the
      grammar and never panics.  A compiled
      expression passes the validation of its artifact, its evaluation equals
      a direct evaluation of the tree, never panics, respects its static type
      and its budget, and known answers are stable under further facts.  Three
      theorems collect tables that share their bytes, texts the parser reads
      unexpectedly, and expressions that depart from the documentation.
    - Values: decimal division, quantization and multiplication round once by
      the declared mode ([rounds] states each mode without an algorithm);
      addition is exact; text and canonical encodings are read back or tell
      values apart; money never mixes currencies; dates are exactly the
      Gregorian ones; interval overlap is having a common point; a local time
      is resolved to exactly the UTC times that show it, and a gap to its
      transition second.

    * Fuel and bounds

    - The profile search visits each state at most once; its fuel is the
      number of declared states, and validation is proved exact with it.
    - A depth-first search takes at most one turn per start node and edge;
      Kahn's algorithm one turn per node; the cycle walk enters a node once;
      every pass of the dominator iteration but the last removes an element of
      one of the sets, so the square of the number of nodes is enough.
    - The gap search halves its range; [gap_fuel] covers the range it starts
      from.
    - [sort.Search] halves its range; the number of candidates is enough.
    - A worked interval is split at most once per workday boundary, and so is
      standby time per overtime period; the number of boundaries is enough.
    - [windowOverlap] takes one turn per day of its span and at most six more;
      split shifts one turn per segment.
    - A segment crosses at most three thresholds; four pieces are enough.
    - The lexer consumes a byte per turn and the parser a token per call and
      per turn of a loop; their lengths are enough.
    - [evaluateNode] goes from a node to nodes before it; one more than the
      number of nodes is enough.
    The theorems are stated without fuel, so each of them shows that its fuel
    is enough.
    - Compensatory time: the cap is assumed at most 2^50 seconds and the
      accrual factor an int64, which keeps the quotient of the 128-bit
      division in range; the units' theorems state the same kind of bound.

    * What is not modelled

    Error texts and display strings ([Explain]); case mapping outside ASCII,
    which is the class [CaseMapping]; [time.Format] and [time.Parse] of
    instants; the zone database, which is the class [Tzdb], with the theorems
    about calculations assuming offsets within a day and within a day of each
    other; the order in which [sort.Slice] leaves on-call periods and shifts
    with equal start and identifier, which is the given one in the model;
    SHA-256 and canonical
    JSON, which are parameters of the effect graph, the plan and the
    transitions; the passes of the workflow compiler over schemas, mappings,
    references, effects, governance and concurrency, the other stores of
    [scheduling.go], connection failures and telemetry, and the compiler's alias and
    simulation rewrites (the composed theorems speak of the definition after
    them); clones, since the model has no aliasing to cut; the other packages
    of the suite (stores, transport, agents, user interface, the services
    around the workflow runtime, generated code and the business domains
    other than time calculation, garnishments and balances).  The three observed totals
    of a reconciled period are checked in one order, where the code ranges
    over a map: only the field a rejection names depends on it.

    What would come next: the concurrency pass of the workflow compiler, the
    invalidation of balances, the hash chain of the ledger. *)

From Stdlib Require Export Ascii String ZArith Lia.
From stdpp Require Export base list strings numbers sets gmap.

Local Open Scope Z_scope.

#[global] Arguments String.append !s1 s2 / : simpl nomatch.

(** * Go results

    A Go function [f(...) (T, error)] becomes a function into
    [outcome E T]: [Ok v] is [v, nil], [Err e] is an error that [errors.Is]
    matches with the sentinel [e] (messages are not modelled), and [Panic] is
    a run-time panic.  [x ← m; k] is [x, err := m; if err != nil { return err }]. *)

Inductive outcome (E A : Type) : Type :=
  | Ok (a : A)
  | Err (e : E)
  | Panic.
Arguments Ok {E A} a.
Arguments Err {E A} e.
Arguments Panic {E A}.

#[export] Instance outcome_ret {E} : MRet (outcome E) := fun A a => Ok a.
#[export] Instance outcome_bind {E} : MBind (outcome E) := fun A B k m =>
  match m with
  | Ok a => k a
  | Err e => Err e
  | Panic => Panic
  end.

Definition is_ok {E A} (m : outcome E A) : bool :=
  match m with Ok _ => true | _ => false end.

(** The errors of a callee seen through another package's sentinels. *)
Definition map_err {E F A} (f : E -> F) (m : outcome E A) : outcome F A :=
  match m with
  | Ok a => Ok a
  | Err e => Err (f e)
  | Panic => Panic
  end.

(** Any error of a callee is replaced by one error. *)
Definition or_reject {E F A} (m : outcome E A) (e : F) : outcome F A := map_err (fun _ => e) m.

(** [if cond { return err }] followed by the rest of the body. *)
Definition fail_if {E} (b : bool) (e : E) : outcome E unit :=
  if b then Err e else Ok tt.

Lemma bind_ok_inv {E A B} (m : outcome E A) (k : A -> outcome E B) b :
  (m ≫= k) = Ok b -> exists a, m = Ok a /\ k a = Ok b.
Proof. destruct m; cbn; intros H; try discriminate; eauto. Qed.

Lemma fail_if_ok {E} b (e : E) u : fail_if b e = Ok u -> b = false.
Proof. destruct b; [discriminate | reflexivity]. Qed.

Lemma fail_if_ok_iff {E} b (e : E) : fail_if b e = Ok tt <-> b = false.
Proof. by destruct b. Qed.

(** A check followed by the rest: both succeed. *)
Lemma if_err_ok {E A} (b : bool) (e : E) (m : outcome E A) a : (if b then Err e else m) = Ok a <-> b = false /\ m = Ok a.
Proof. destruct b; naive_solver. Qed.

Lemma bind_unit_ok {E B} (m : outcome E unit) (k : outcome E B) b : (m ≫= fun _ => k) = Ok b <-> m = Ok tt /\ k = Ok b.
Proof. destruct m as [[]| |]; cbn; naive_solver. Qed.

Lemma is_ok_true {E A} (m : outcome E A) : is_ok m = true <-> exists a, m = Ok a.
Proof. destruct m; cbn; split; try discriminate; eauto; intros [? [=]]. Qed.

(** Where the error of a sequence comes from. *)
Lemma bind_err_inv {E A B} (m : outcome E A) (k : A -> outcome E B) e :
  (m ≫= k) = Err e -> m = Err e \/ exists a, m = Ok a /\ k a = Err e.
Proof. destruct m; cbn; naive_solver. Qed.

Lemma fail_if_err {E} b (e f : E) : fail_if b e = Err f -> f = e.
Proof. destruct b; cbn; congruence. Qed.

Lemma or_reject_err {E F A} (m : outcome E A) (e f : F) : or_reject m e = Err f -> f = e.
Proof. destruct m; cbn; congruence. Qed.

(** A sequence of steps that do not panic does not panic. *)
Lemma bind_no_panic {E A B} (m : outcome E A) (k : A -> outcome E B) :
  m <> Panic -> (forall a, m = Ok a -> k a <> Panic) -> (m ≫= k) <> Panic.
Proof. destruct m; cbn; auto; discriminate. Qed.

Lemma fail_if_no_panic {E} b (e : E) : fail_if b e <> Panic.
Proof. by destruct b. Qed.

Lemma map_err_no_panic {E F A} (f : E -> F) (m : outcome E A) : m <> Panic -> map_err f m <> Panic.
Proof. by destruct m. Qed.

Lemma map_err_ok {E F A} (f : E -> F) (m : outcome E A) a : map_err f m = Ok a -> m = Ok a.
Proof. destruct m; cbn; [by intros [= ->] | done..]. Qed.

Lemma or_reject_ok {E F A} (m : outcome E A) (e : F) a : or_reject m e = Ok a <-> m = Ok a.
Proof. destruct m; cbn; naive_solver. Qed.

Lemma or_reject_no_panic {E F A} (m : outcome E A) (e : F) : m <> Panic -> or_reject m e <> Panic.
Proof. apply map_err_no_panic. Qed.

Lemma ok_no_panic {E A} (a : A) : @Ok E A a <> Panic.
Proof. done. Qed.

Lemma err_no_panic {E A} (e : E) : @Err E A e <> Panic.
Proof. done. Qed.

Create HintDb panics.
#[export] Hint Resolve fail_if_no_panic map_err_no_panic or_reject_no_panic ok_no_panic err_no_panic : panics.

(** Proves [m <> Panic] for a sequence of steps, by cases of its tests. *)
Ltac no_panic :=
  repeat first
    [ apply bind_no_panic; [|intros ? ?]
    | solve [eauto with panics]
    | case_match ].

(** Inverts every [_ = Ok _] hypothesis about a sequence of checked steps. *)
Ltac ok_inv :=
  repeat match goal with
  | H : (_ ≫= _) = Ok _ |- _ =>
      let a := fresh "a" in let H1 := fresh "Hok" in
      apply bind_ok_inv in H as (a & H1 & H)
  | H : fail_if _ _ = Ok _ |- _ => apply fail_if_ok in H
  | H : Ok _ = Ok _ |- _ => injection H as H
  | H : mret _ = Ok _ |- _ => injection H as H
  | H : Err _ = Ok _ |- _ => discriminate H
  | H : Panic = Ok _ |- _ => discriminate H
  | u : unit |- _ => destruct u
  end.

(** Linear arithmetic with division and remainder by constants. *)
Ltac div_lia := Z.to_euclidean_division_equations; lia.

(** Splits a list equation without reducing the tails. *)
Lemma cons_eq_inv {A} (x y : A) l k : x :: l = y :: k -> x = y /\ l = k.
Proof. by intros [= -> ->]. Qed.

(** ** Lists with distinct keys *)

(** Distinct keys, none of which has been seen: one step of a duplicate check. *)
Lemma fresh_keys {A K} `{Countable K} (key : A -> K) (x : A) (seen : gset K) (l : list A) :
  Forall (fun y => key y ∉ {[key x]} ∪ seen) l <-> (key x ∉ (key <$> l)) /\ Forall (fun y => key y ∉ seen) l.
Proof.
  rewrite !Forall_forall, list_elem_of_fmap. split.
  - intros Hl. split; [intros (y & E & Hy); specialize (Hl y Hy); set_solver|intros y Hy; specialize (Hl y Hy); set_solver].
  - intros [H1 H2] y Hy. specialize (H2 y Hy). rewrite elem_of_union, elem_of_singleton. intros [E|E]; [|done].
    apply H1. by exists y.
Qed.

Lemma existsb_false {A} (f : A -> bool) l : existsb f l = false <-> Forall (fun x => f x = false) l.
Proof. induction l as [|x l IH]; cbn; [done|]. by rewrite orb_false_iff, Forall_cons, IH. Qed.

Lemma filter_length_le {A} (P Q : A -> Prop) `{!forall x, Decision (P x), !forall x, Decision (Q x)} (l : list A) :
  (forall x, P x -> Q x) -> (length (filter P l) <= length (filter Q l))%nat.
Proof.
  intros HPQ. induction l as [|x l IH]; [done|]. rewrite !filter_cons.
  destruct (decide (P x)) as [Hp|Hp]; [rewrite decide_True by auto; cbn; lia|case_decide; cbn; lia].
Qed.

Lemma fmap_NoDup_inj {A B} (f : A -> B) l x y : NoDup (f <$> l) -> x ∈ l -> y ∈ l -> f x = f y -> x = y.
Proof.
  intros Hnd [i Hi]%list_elem_of_lookup [j Hj]%list_elem_of_lookup E.
  assert (i = j) as ->; [|congruence].
  eapply (NoDup_lookup _ i j (f x) Hnd); rewrite list_lookup_fmap; [by rewrite Hi|by rewrite Hj, E].
Qed.

(** * Machine integers *)

Definition min_int64 : Z := - 2 ^ 63.
Definition max_int64 : Z := 2 ^ 63 - 1.

(** Conversion of an integer to a two's-complement width. *)
Definition to_int32 (z : Z) : Z := (z + 2 ^ 31) mod 2 ^ 32 - 2 ^ 31.
Definition to_int64 (z : Z) : Z := (z + 2 ^ 63) mod 2 ^ 64 - 2 ^ 63.
Definition to_uint64 (z : Z) : Z := z mod 2 ^ 64.
Definition to_uint32 (z : Z) : Z := z mod 2 ^ 32.

Lemma to_int32_small z : - 2 ^ 31 <= z < 2 ^ 31 -> to_int32 z = z.
Proof. intros H. unfold to_int32. rewrite Z.mod_small; lia. Qed.

Lemma to_int64_small z : min_int64 <= z <= max_int64 -> to_int64 z = z.
Proof. unfold min_int64, max_int64, to_int64. intros H. rewrite Z.mod_small; lia. Qed.

Lemma to_uint64_small z : 0 <= z < 2 ^ 64 -> to_uint64 z = z.
Proof. intros H. unfold to_uint64. apply Z.mod_small. lia. Qed.

(** * Go strings

    A Go string is a sequence of bytes, modelled by [string] (eight-bit
    [ascii] characters); a [[]byte] is a [list Z] of values in [0, 255]. *)

Definition byte_of (c : ascii) : Z := Z.of_N (N_of_ascii c).
Definition char_of (b : Z) : ascii := ascii_of_N (Z.to_N b).

Definition len (s : string) : Z := Z.of_nat (String.length s).

(** [strings.Cut(s, sep)] for a one-byte separator. *)
Fixpoint str_cut (sep : ascii) (s : string) : string * string * bool :=
  match s with
  | EmptyString => (EmptyString, EmptyString, false)
  | String c s' =>
      if Ascii.eqb c sep then (EmptyString, s', true)
      else let '(a, b, found) := str_cut sep s' in (String c a, b, found)
  end.

(** [strings.CutPrefix(s, prefix)]. *)
Fixpoint cut_prefix (p s : string) : option string :=
  match p, s with
  | EmptyString, _ => Some s
  | String a p', String c s' => if Ascii.eqb a c then cut_prefix p' s' else None
  | String _ _, EmptyString => None
  end.

(** [strings.Contains(s, c)] for a one-byte needle. *)
Fixpoint str_contains (c : ascii) (s : string) : bool :=
  match s with
  | EmptyString => false
  | String d s' => Ascii.eqb d c || str_contains c s'
  end.

(** [strings.Split(s, sep)] for a one-byte separator: never empty. *)
Fixpoint str_split (sep : ascii) (s : string) : list string :=
  match s with
  | EmptyString => [EmptyString]
  | String c s' =>
      if Ascii.eqb c sep then EmptyString :: str_split sep s'
      else match str_split sep s' with
           | [] => [String c EmptyString]
           | h :: t => String c h :: t
           end
  end.

(** [strings.Repeat(c, n)] for a one-byte string; a negative count panics. *)
Fixpoint str_repeat (c : ascii) (n : nat) : string :=
  match n with O => EmptyString | S n' => String c (str_repeat c n') end.
Definition go_repeat {E} (c : ascii) (n : Z) : outcome E string :=
  if n <? 0 then Panic else Ok (str_repeat c (Z.to_nat n)).

(** [s[:i]] and [s[i:]]; an index outside the string panics. *)
Fixpoint str_take (n : nat) (s : string) : string :=
  match n, s with
  | S n', String c s' => String c (str_take n' s')
  | _, _ => EmptyString
  end.
Fixpoint str_drop (n : nat) (s : string) : string :=
  match n, s with
  | S n', String _ s' => str_drop n' s'
  | _, _ => s
  end.

Fixpoint str_forall (p : ascii -> bool) (s : string) : bool :=
  match s with
  | EmptyString => true
  | String c s' => p c && str_forall p s'
  end.

Definition in_range (lo hi : ascii) (c : ascii) : bool :=
  (byte_of lo <=? byte_of c) && (byte_of c <=? byte_of hi).

Definition is_digit (c : ascii) : bool := in_range "0" "9" c.
Definition is_upper (c : ascii) : bool := in_range "A" "Z" c.
Definition is_lower (c : ascii) : bool := in_range "a" "z" c.

(** [strings.ToLower] as far as ASCII results go: [A..Z] and U+0130 (bytes C4
    B0), whose simple lower case is [i].  Every other non-ASCII character
    lowers to non-ASCII text and is left unchanged here; U+212A, which lowers
    to [k], occurs in no comparison of the modelled code. *)
Definition to_lower_char (c : ascii) : ascii :=
  if is_upper c then char_of (byte_of c + 32) else c.
Fixpoint str_to_lower (s : string) : string :=
  match s with
  | EmptyString => EmptyString
  | String c s' =>
      match s' with
      | String c' s'' =>
          if (byte_of c =? 196) && (byte_of c' =? 176)
          then String "i" (str_to_lower s'')
          else String (to_lower_char c) (str_to_lower s')
      | EmptyString => String (to_lower_char c) EmptyString
      end
  end.

(** [strings.TrimSpace(s) == ""]: [s] is a sequence of UTF-8 encoded white
    space ([unicode.IsSpace]). *)
Definition ascii_space (b : Z) : bool := (b =? 32) || ((9 <=? b) && (b <=? 13)).
Definition space2 (b c : Z) : bool := (b =? 194) && ((c =? 133) || (c =? 160)).
Definition space3 (b c d : Z) : bool :=
  (b =? 225) && (c =? 154) && (d =? 128)
  || (b =? 226) && (c =? 128) && (((128 <=? d) && (d <=? 138)) || (d =? 168) || (d =? 169) || (d =? 175))
  || (b =? 226) && (c =? 129) && (d =? 159)
  || (b =? 227) && (c =? 128) && (d =? 128).
Fixpoint is_blank (s : string) : bool :=
  match s with
  | EmptyString => true
  | String b s1 =>
      if ascii_space (byte_of b) then is_blank s1
      else match s1 with
           | EmptyString => false
           | String c s2 =>
               if space2 (byte_of b) (byte_of c) then is_blank s2
               else match s2 with
                    | EmptyString => false
                    | String d s3 => space3 (byte_of b) (byte_of c) (byte_of d) && is_blank s3
                    end
           end
  end.

Fixpoint str_bytes (s : string) : list Z :=
  match s with
  | EmptyString => []
  | String c s' => byte_of c :: str_bytes s'
  end.

(** [strings.TrimSpace(s) == s] of a string that is not empty. *)
Definition starts_with_space (s : string) : bool :=
  match str_bytes s with
  | b :: c :: d :: _ => ascii_space b || space2 b c || space3 b c d
  | [b; c] => ascii_space b || space2 b c
  | [b] => ascii_space b
  | [] => false
  end.
Definition ends_with_space (s : string) : bool :=
  match rev (str_bytes s) with
  | d :: c :: b :: _ => ascii_space d || space2 c d || space3 b c d
  | [c; b] => ascii_space c || space2 b c
  | [b] => ascii_space b
  | [] => false
  end.
Definition is_trimmed (s : string) : bool := negb (starts_with_space s) && negb (ends_with_space s).

(** [binary.BigEndian.AppendUintN]: the [n] low bytes, most significant first. *)
Fixpoint be_bytes (n : nat) (z : Z) : list Z :=
  match n with
  | O => []
  | S n' => be_bytes n' (z / 256) ++ [z mod 256]
  end.

(** [big.Int.Bytes]: the minimal big-endian bytes of a magnitude. *)
Definition mag_bytes (z : Z) : list Z :=
  if z =? 0 then [] else be_bytes (S (Z.to_nat (Z.log2 z / 8))) z.

Fixpoint be_value (bs : list Z) (acc : Z) : Z :=
  match bs with
  | [] => acc
  | b :: bs' => be_value bs' (acc * 256 + b)
  end.

(** * Decimal numerals *)

Definition digit_char (d : Z) : ascii := char_of (48 + d).
Definition digit_value (c : ascii) : Z := byte_of c - 48.

(** [big.Int.String] of a non-negative integer, least significant digit last. *)
Fixpoint dec_loop (fuel : nat) (n : Z) (acc : string) : string :=
  match fuel with
  | O => acc
  | S f =>
      let acc' := String (digit_char (n mod 10)) acc in
      if n <? 10 then acc' else dec_loop f (n / 10) acc'
  end.
Definition dec_string (n : Z) : string := dec_loop (S (Z.to_nat (Z.log2 n))) n EmptyString.

(** The value of a digit string, most significant digit first. *)
Fixpoint dec_value (s : string) (acc : Z) : Z :=
  match s with
  | EmptyString => acc
  | String c s' => dec_value s' (acc * 10 + digit_value c)
  end.

(** ** Lemmas on strings *)

Lemma byte_of_range c : 0 <= byte_of c < 256.
Proof.
  unfold byte_of. pose proof (N_ascii_bounded c). lia.
Qed.

Lemma char_of_byte_of c : char_of (byte_of c) = c.
Proof. unfold char_of, byte_of. rewrite N2Z.id. apply ascii_N_embedding. Qed.

Lemma byte_of_char_of b : 0 <= b < 256 -> byte_of (char_of b) = b.
Proof.
  intros H. unfold byte_of, char_of. rewrite N_ascii_embedding; lia.
Qed.

Lemma byte_of_inj c d : byte_of c = byte_of d -> c = d.
Proof. intros H. rewrite <- (char_of_byte_of c), <- (char_of_byte_of d). by rewrite H. Qed.

Lemma append_nil_r s : (s +:+ EmptyString) = s.
Proof. induction s; cbn; congruence. Qed.

Lemma append_assoc s t u : ((s +:+ t) +:+ u) = (s +:+ (t +:+ u)).
Proof. induction s; cbn; congruence. Qed.

Lemma append_length s t :
  String.length (s +:+ t) = (String.length s + String.length t)%nat.
Proof. induction s; cbn; congruence. Qed.

Lemma len_nonneg s : 0 <= len s.
Proof. unfold len. lia. Qed.

Lemma len_append s t : len (s +:+ t) = len s + len t.
Proof. unfold len. rewrite append_length. lia. Qed.

Lemma str_repeat_length c n : String.length (str_repeat c n) = n.
Proof. induction n; cbn; congruence. Qed.

Lemma str_take_append s t : str_take (String.length s) (s +:+ t) = s.
Proof. induction s; cbn; congruence. Qed.

Lemma str_drop_append s t : str_drop (String.length s) (s +:+ t) = t.
Proof. induction s; cbn; [by destruct t | done]. Qed.

Lemma str_take_drop n s : (str_take n s +:+ str_drop n s) = s.
Proof. revert s. induction n; intros [|c s]; cbn; congruence. Qed.

Lemma str_take_length n s : (n <= String.length s)%nat -> String.length (str_take n s) = n.
Proof. revert s. induction n; intros [|c s]; cbn; intros; try lia. rewrite IHn; lia. Qed.

Lemma str_drop_length n s : String.length (str_drop n s) = (String.length s - n)%nat.
Proof. revert s. induction n; intros [|c s]; cbn; try lia. by rewrite IHn. Qed.

Lemma append_inj_length s1 s2 t1 t2 :
  String.length s1 = String.length s2 ->
  (s1 +:+ t1) = (s2 +:+ t2) -> s1 = s2 /\ t1 = t2.
Proof.
  revert s2. induction s1 as [|c s1 IH]; intros [|d s2] Hl H; cbn in *; try lia.
  - done.
  - injection H as -> H. injection Hl as Hl. destruct (IH _ Hl H). by subst.
Qed.

Lemma str_bytes_app s t : str_bytes (s +:+ t) = str_bytes s ++ str_bytes t.
Proof. induction s; cbn; congruence. Qed.

Lemma str_bytes_length s : length (str_bytes s) = String.length s.
Proof. induction s; cbn; congruence. Qed.

Lemma str_bytes_inj s t : str_bytes s = str_bytes t -> s = t.
Proof.
  revert t. induction s as [|c s IH]; intros [|d t]; cbn; try discriminate; [done|].
  intros [= H1 H2]. f_equal; [by apply byte_of_inj | by apply IH].
Qed.

Lemma str_forall_app p s t : str_forall p (s +:+ t) = str_forall p s && str_forall p t.
Proof. induction s; cbn; [done|]. rewrite IHs. by rewrite andb_assoc. Qed.

Lemma str_forall_repeat p c n : p c = true -> str_forall p (str_repeat c n) = true.
Proof. intros H. induction n; cbn; [done|]. by rewrite H. Qed.

Lemma str_forall_impl (p q : ascii -> bool) s :
  (forall c, p c = true -> q c = true) -> str_forall p s = true -> str_forall q s = true.
Proof.
  intros Hpq. induction s as [|c s IH]; cbn; [done|].
  rewrite !andb_true_iff. intros [H1 H2]; split; [by apply Hpq | by apply IH].
Qed.

Lemma str_contains_forall c s :
  str_contains c s = false <-> str_forall (fun d => negb (Ascii.eqb d c)) s = true.
Proof.
  induction s as [|d s IH]; cbn; [done|].
  destruct (Ascii.eqb d c); cbn; [split; discriminate | exact IH].
Qed.

Lemma str_contains_app c s t : str_contains c (s +:+ t) = str_contains c s || str_contains c t.
Proof. induction s as [|d s IH]; cbn; [done|]. by rewrite IH, orb_assoc. Qed.

Lemma str_cut_here sep s t :
  str_contains sep s = false -> str_cut sep (s +:+ String sep t) = (s, t, true).
Proof.
  induction s as [|c s IH]; cbn; [by rewrite Ascii.eqb_refl|].
  intros H. apply orb_false_iff in H as [Hc H]. by rewrite Hc, IH.
Qed.

Lemma str_cut_none sep s :
  str_contains sep s = false -> str_cut sep s = (s, EmptyString, false).
Proof.
  induction s as [|c s IH]; cbn; [done|].
  intros H. apply orb_false_iff in H as [Hc H]. by rewrite Hc, IH.
Qed.

Lemma cut_prefix_app p s : cut_prefix p (p +:+ s) = Some s.
Proof. induction p as [|c p IH]; cbn; [by destruct s|]. by rewrite Ascii.eqb_refl. Qed.

Lemma str_split_none sep s : str_contains sep s = false -> str_split sep s = [s].
Proof.
  induction s as [|c s IH]; cbn; [done|].
  intros H. apply orb_false_iff in H as [Hc H]. by rewrite Hc, IH.
Qed.

Lemma str_split_app sep s t :
  str_contains sep s = false -> str_split sep (s +:+ String sep t) = s :: str_split sep t.
Proof.
  induction s as [|c s IH]; cbn; [by rewrite Ascii.eqb_refl|].
  intros H. apply orb_false_iff in H as [Hc H]. by rewrite Hc, IH.
Qed.

(** ** Lemmas on numerals and big-endian encodings *)

Lemma is_digit_range c : is_digit c = true <-> 0 <= digit_value c <= 9.
Proof.
  unfold is_digit, in_range, digit_value.
  change (byte_of "0") with 48. change (byte_of "9") with 57.
  rewrite andb_true_iff, !Z.leb_le. lia.
Qed.

Lemma digit_value_char d : 0 <= d <= 9 -> digit_value (digit_char d) = d.
Proof. intros H. unfold digit_value, digit_char. rewrite byte_of_char_of; lia. Qed.

Lemma is_digit_char d : 0 <= d <= 9 -> is_digit (digit_char d) = true.
Proof. intros H. apply is_digit_range. rewrite digit_value_char; lia. Qed.

Lemma digit_char_value c : is_digit c = true -> digit_char (digit_value c) = c.
Proof.
  intros H. unfold digit_char, digit_value.
  replace (48 + (byte_of c - 48)) with (byte_of c) by lia. apply char_of_byte_of.
Qed.

Lemma dec_value_acc s acc : dec_value s acc = acc * 10 ^ len s + dec_value s 0.
Proof.
  revert acc. induction s as [|c s IH]; intros acc; cbn [dec_value].
  - unfold len. cbn. lia.
  - rewrite (IH (acc * 10 + _)), (IH (0 * 10 + _)).
    replace (len (String c s)) with (1 + len s) by (unfold len; cbn [String.length]; lia).
    rewrite Z.pow_add_r by (unfold len; lia). lia.
Qed.

Lemma dec_value_app s t acc : dec_value (s +:+ t) acc = dec_value t (dec_value s acc).
Proof. revert acc. induction s; intros acc; cbn; [done|]. apply IHs. Qed.

Lemma dec_value_repeat0 n acc : dec_value (str_repeat "0" n) acc = acc * 10 ^ Z.of_nat n.
Proof.
  rewrite dec_value_acc. replace (len (str_repeat "0" n)) with (Z.of_nat n)
    by (unfold len; by rewrite str_repeat_length).
  replace (dec_value (str_repeat "0" n) 0) with 0; [lia|].
  induction n; cbn; [done|]. exact IHn.
Qed.

Lemma dec_value_bound s : str_forall is_digit s = true -> 0 <= dec_value s 0 < 10 ^ len s.
Proof.
  induction s as [|c s IH]; cbn [str_forall dec_value].
  - intros _. unfold len. cbn. lia.
  - rewrite andb_true_iff. intros [Hc Hs]. apply is_digit_range in Hc. specialize (IH Hs).
    rewrite dec_value_acc.
    replace (len (String c s)) with (1 + len s) by (unfold len; cbn [String.length]; lia).
    rewrite Z.pow_add_r by (unfold len; lia). nia.
Qed.

Lemma dec_loop_spec fuel n acc :
  0 <= n < 2 ^ Z.of_nat fuel ->
  exists d, dec_loop fuel n acc = (d +:+ acc) /\ dec_value d 0 = n
    /\ str_forall is_digit d = true
    /\ (fuel <> O -> (d <> EmptyString /\ (10 <= n -> 10 ^ (len d - 1) <= n)
                      /\ (n < 10 -> len d = 1))).
Proof.
  revert n acc. induction fuel as [|f IH]; intros n acc Hn; cbn [dec_loop].
  - exists EmptyString. cbn in *. repeat split; lia || congruence.
  - set (c := digit_char (n mod 10)).
    assert (Hm : 0 <= n mod 10 <= 9) by (pose proof (Z.mod_pos_bound n 10); lia).
    destruct (Z.ltb_spec n 10) as [Hlt|Hge].
    + exists (String c EmptyString). cbn [dec_value str_forall String.append].
      unfold c. rewrite digit_value_char, is_digit_char by done.
      rewrite Z.mod_small by lia. repeat split; try done; lia.
    + rewrite Nat2Z.inj_succ, Z.pow_succ_r in Hn by lia.
      destruct (IH (n / 10) (String c acc)) as (d & -> & Hv & Hd & Hf).
      { pose proof (Z.div_mod n 10). lia. }
      assert (f <> O) as Hf0.
      { intros ->. cbn in Hn. lia. }
      destruct (Hf Hf0) as (Hne & Hlow & Hsm).
      exists (d +:+ String c EmptyString). split; [by rewrite append_assoc|].
      assert (Hl : len (d +:+ String c EmptyString) = len d + 1) by (by rewrite len_append).
      rewrite dec_value_app, str_forall_app, Hv, Hd. cbn [dec_value str_forall].
      unfold c. rewrite digit_value_char, is_digit_char by done.
      split; [pose proof (Z.div_mod n 10); lia|]. split; [done|]. intros _. split; [|split; [|lia]].
      * destruct d; cbn; congruence.
      * intros _. change (digit_char (n mod 10)) with c. rewrite Hl.
        replace (len d + 1 - 1) with (len d) by lia.
        assert (1 <= len d) by (destruct d; [done|]; unfold len; cbn [String.length]; lia).
        replace (len d) with (1 + (len d - 1)) by lia. rewrite Z.pow_add_r by lia.
        destruct (Z.ltb_spec (n / 10) 10).
        -- rewrite Hsm by lia. replace (1 - 1) with 0 by lia.
           pose proof (Z.div_mod n 10). lia.
        -- specialize (Hlow ltac:(lia)). pose proof (Z.div_mod n 10). lia.
Qed.

Lemma dec_string_spec n :
  0 <= n ->
  dec_value (dec_string n) 0 = n /\ str_forall is_digit (dec_string n) = true
  /\ dec_string n <> EmptyString
  /\ (10 <= n -> 10 ^ (len (dec_string n) - 1) <= n) /\ (n < 10 -> len (dec_string n) = 1).
Proof.
  intros Hn. unfold dec_string.
  destruct (dec_loop_spec (S (Z.to_nat (Z.log2 n))) n EmptyString) as (d & -> & Hv & Hd & Hf).
  { rewrite Nat2Z.inj_succ, Z2Nat.id by apply Z.log2_nonneg.
    destruct (Z.eq_dec n 0) as [->|]; [cbn; lia|].
    pose proof (Z.log2_spec n). lia. }
  rewrite append_nil_r. specialize (Hf ltac:(done)). tauto.
Qed.

Lemma dec_string_value n : 0 <= n -> dec_value (dec_string n) 0 = n.
Proof. intros H. by apply dec_string_spec. Qed.

Lemma dec_string_digits n : 0 <= n -> str_forall is_digit (dec_string n) = true.
Proof. intros H. by apply dec_string_spec. Qed.

Lemma dec_string_nonempty n : 0 <= n -> dec_string n <> EmptyString.
Proof. intros H. by apply dec_string_spec. Qed.

(** The number of digits printed is the number of significant digits. *)
Lemma dec_string_len_le n k : 0 <= n -> 1 <= k -> (len (dec_string n) <= k <-> n < 10 ^ k).
Proof.
  intros Hn Hk. destruct (dec_string_spec n Hn) as (Hv & Hd & Hne & Hlow & Hsm).
  split; intros H.
  - pose proof (dec_value_bound _ Hd) as Hb. rewrite Hv in Hb.
    pose proof (Z.pow_le_mono_r 10 (len (dec_string n)) k). lia.
  - destruct (Z.lt_ge_cases n 10) as [Hc|Hc]; [rewrite Hsm; lia|].
    specialize (Hlow Hc). destruct (Z.le_gt_cases (len (dec_string n)) k); [done|].
    pose proof (Z.pow_le_mono_r 10 k (len (dec_string n) - 1)). lia.
Qed.

Lemma be_bytes_length n z : length (be_bytes n z) = n.
Proof. revert z. induction n; intros z; cbn; [done|]. rewrite length_app, IHn. cbn. lia. Qed.

Lemma be_value_app bs cs acc : be_value (bs ++ cs) acc = be_value cs (be_value bs acc).
Proof. revert acc. induction bs; intros acc; cbn; [done|]. apply IHbs. Qed.

Lemma be_value_bytes n z acc :
  be_value (be_bytes n z) acc = acc * 256 ^ Z.of_nat n + z mod 256 ^ Z.of_nat n.
Proof.
  revert z acc. induction n as [|n IH]; intros z acc; cbn [be_bytes be_value].
  - cbn. rewrite Z.mod_1_r. lia.
  - rewrite be_value_app, IH. cbn [be_value].
    rewrite Nat2Z.inj_succ, Z.pow_succ_r by lia.
    rewrite (Z.mul_comm 256 (256 ^ Z.of_nat n)).
    assert (0 < 256 ^ Z.of_nat n) by (apply Z.pow_pos_nonneg; lia).
    rewrite (Z.mul_comm (256 ^ _) 256), Z.rem_mul_r by lia. lia.
Qed.

Lemma be_bytes_inj n z z' :
  0 <= z < 256 ^ Z.of_nat n -> 0 <= z' < 256 ^ Z.of_nat n ->
  be_bytes n z = be_bytes n z' -> z = z'.
Proof.
  intros H H' E. apply (f_equal (fun b => be_value b 0)) in E.
  rewrite !be_value_bytes, !Z.mod_small in E by lia. lia.
Qed.

Lemma mag_bytes_inj z z' : 0 <= z -> 0 <= z' -> mag_bytes z = mag_bytes z' -> z = z'.
Proof.
  assert (Hb : forall n, 0 <= n -> be_value (mag_bytes n) 0 = n).
  { intros n Hn. unfold mag_bytes. destruct (Z.eqb_spec n 0) as [->|]; [done|].
    rewrite be_value_bytes, Z.mod_small; [lia|]. split; [done|].
    rewrite Nat2Z.inj_succ, Z2Nat.id by (apply Z.div_pos; [apply Z.log2_nonneg | lia]).
    change 256 with (2 ^ 8).
    assert (0 <= Z.log2 n / 8) by (apply Z.div_pos; [apply Z.log2_nonneg | lia]).
    rewrite <- Z.pow_mul_r by lia.
    pose proof (Z.log2_spec n). pose proof (Z.div_mod (Z.log2 n) 8).
    pose proof (Z.mod_pos_bound (Z.log2 n) 8).
    pose proof (Z.pow_le_mono_r 2 (Z.succ (Z.log2 n)) (8 * Z.succ (Z.log2 n / 8))). lia. }
  intros H H' E. rewrite <- (Hb z), <- (Hb z') by done. by rewrite E.
Qed.

Lemma be_bytes_inj_mod n z z' :
  be_bytes n z = be_bytes n z' -> z mod 256 ^ Z.of_nat n = z' mod 256 ^ Z.of_nat n.
Proof.
  intros E. apply (f_equal (fun b => be_value b 0)) in E. by rewrite !be_value_bytes in E.
Qed.
