(* ===== verification/GoStrings.v ===== *)
(** What the source uses of the packages [strings] and [strconv]: case mapping,
    trimming, comparison under folding, and decimal text.  Case mapping and
    folding of strings that are not ASCII are the classes [CaseMapping] and
    [CaseFolding]. *)

From S2P Require Import Prelude.

Local Open Scope Z_scope.

(** * Case and parts *)

(** [unicode.ToLower] and [unicode.ToUpper] on strings that are not ASCII. *)
Class CaseMapping : Type := { unicode_lower : string -> string; unicode_upper : string -> string }.

Definition is_ascii (c : ascii) : bool := byte_of c <? 128.
Definition to_upper_char (c : ascii) : ascii := if is_lower c then char_of (byte_of c - 32) else c.
Fixpoint str_to_upper (s : string) : string :=
  match s with EmptyString => EmptyString | String c r => String (to_upper_char c) (str_to_upper r) end.
Definition strings_ToLower `{CaseMapping} (s : string) : string :=
  if str_forall is_ascii s then str_to_lower s else unicode_lower s.
Definition strings_ToUpper `{CaseMapping} (s : string) : string :=
  if str_forall is_ascii s then str_to_upper s else unicode_upper s.

Definition has_prefix (p s : string) : bool := match cut_prefix p s with Some _ => true | None => false end.
(** [strings.Contains]. *)
Fixpoint has_sub (sub s : string) : bool :=
  has_prefix sub s || match s with EmptyString => false | String _ r => has_sub sub r end.
Definition has_suffix (suf s : string) : bool :=
  (String.length suf <=? String.length s)%nat && String.eqb (str_drop (String.length s - String.length suf) s) suf.

(** [strings.EqualFold]. *)
Class CaseFolding : Type := { unicode_equal_fold : string -> string -> bool }.
Definition strings_EqualFold `{CaseFolding} (s t : string) : bool :=
  if str_forall is_ascii s && str_forall is_ascii t then String.eqb (str_to_lower s) (str_to_lower t)
  else unicode_equal_fold s t.

(** * Trimming *)

(** [strings.TrimLeftFunc(s, unicode.IsSpace)]. *)
Fixpoint trim_left (s : string) : string :=
  match s with
  | EmptyString => EmptyString
  | String b s1 =>
      if ascii_space (byte_of b) then trim_left s1
      else match s1 with
           | EmptyString => s
           | String c s2 =>
               if space2 (byte_of b) (byte_of c) then trim_left s2
               else match s2 with
                    | EmptyString => s
                    | String d s3 => if space3 (byte_of b) (byte_of c) (byte_of d) then trim_left s3 else s
                    end
           end
  end.

(** The same from the last byte on, of the reversed string. *)
Fixpoint trim_reversed (s : string) : string :=
  match s with
  | EmptyString => EmptyString
  | String d s1 =>
      if ascii_space (byte_of d) then trim_reversed s1
      else match s1 with
           | EmptyString => s
           | String c s2 =>
               if space2 (byte_of c) (byte_of d) then trim_reversed s2
               else match s2 with
                    | EmptyString => s
                    | String b s3 => if space3 (byte_of b) (byte_of c) (byte_of d) then trim_reversed s3 else s
                    end
           end
  end.
Definition str_reverse (s : string) : string := string_of_list_ascii (rev (list_ascii_of_string s)).

Definition strings_TrimSpace (s : string) : string := str_reverse (trim_reversed (str_reverse (trim_left s))).

(** * Numbers *)

(** [strconv.Itoa], [%d]. *)
Definition itoa (z : Z) : string := if z <? 0 then "-" +:+ dec_string (- z) else dec_string z.

Lemma trim_left_blank s : is_blank s = true <-> trim_left s = EmptyString.
Proof.
  induction s as [s IH] using (induction_ltof1 _ String.length). unfold ltof in IH.
  destruct s as [|b [|c [|d s]]]; cbn [is_blank trim_left]; [done| | |].
  - by destruct (ascii_space (byte_of b)).
  - destruct (ascii_space (byte_of b)); [apply (IH (String c EmptyString)); cbn; lia|].
    by destruct (space2 _ _).
  - destruct (ascii_space (byte_of b)); [apply (IH (String c (String d s))); cbn; lia|].
    destruct (space2 _ _); [apply (IH (String d s)); cbn; lia|].
    destruct (space3 _ _ _); cbn [andb]; [apply IH; cbn; lia|done].
Qed.
