(* ===== verification/Sorting.v ===== *)
(** The [sort] package of Go as the suite uses it: [sort.Search], the order of
    strings, [sort.Strings] and [sort.Slice] by a string key, and slices kept
    sorted by a key, read by binary search and written in place. *)

From stdpp Require Import sorting.
From S2P Require Import Prelude.

Local Open Scope Z_scope.

(** [sort.Search] on [[i, j)]: [n] halvings are enough for [n] candidates. *)
Fixpoint search_loop (fuel : nat) (f : Z -> bool) (i j : Z) : Z :=
  match fuel with
  | O => i
  | S n =>
      if i <? j then
        let h := Z.shiftr (i + j) 1 in
        if negb (f h) then search_loop n f (h + 1) j else search_loop n f i h
      else i
  end.
Definition sort_Search (n : nat) (f : Z -> bool) : Z := search_loop n f 0 (Z.of_nat n).

(** [sort.Slice] with [less] comparing string keys: no element stands before
    one with a smaller key.  The sort used here is a merge sort. *)
Definition key_le {A} (key : A -> string) (x y : A) : Prop := String.le (key x) (key y).
#[export] Instance key_le_dec {A} (key : A -> string) : RelDecision (key_le key).
Proof. intros x y. unfold key_le. apply _. Defined.
#[export] Instance key_le_total {A} (key : A -> string) : Total (key_le key).
Proof. intros x y. unfold key_le. apply (total String.le). Qed.
#[export] Instance key_le_trans {A} (key : A -> string) : Transitive (key_le key).
Proof. intros x y z. unfold key_le. apply transitivity. Qed.

Definition sort_by {A} (key : A -> string) (l : list A) : list A := merge_sort (key_le key) l.
Definition sort_Strings (l : list string) : list string := merge_sort String.le l.

(** A slice sorted by a key without repetition: [find_key] and [set_key] are
    the binary search of the code followed by its test, its replacement and
    its insertion. *)
Section keyed.
Context {A : Type} (key : A -> string).

Definition key_index (k : string) (l : list A) : nat :=
  Z.to_nat (sort_Search (length l) (fun i => from_option (fun x => String.leb k (key x)) true (l !! Z.to_nat i))).

Definition find_key (k : string) (l : list A) : option A :=
  match l !! key_index k l with
  | Some x => if decide (key x = k) then Some x else None
  | None => None
  end.

Definition set_key (x : A) (l : list A) : list A :=
  let i := key_index (key x) l in
  match find_key (key x) l with
  | Some _ => <[i := x]> l
  | None => take i l ++ x :: drop i l
  end.

End keyed.

(** * Lemmas *)

Lemma search_loop_spec fuel f lo hi i j : lo <= i <= j -> j <= hi -> 0 <= lo -> j - i <= Z.of_nat fuel ->
  (forall a b, lo <= a <= b -> b < hi -> f a = true -> f b = true) ->
  let r := search_loop fuel f i j in
  i <= r <= j /\ (forall k, i <= k < r -> f k = false) /\ (r < j -> f r = true).
Proof.
  intros Hij Hj Hlo Hf Hm. revert i j Hij Hj Hf. induction fuel as [|n IH]; intros i j Hij Hj Hf; cbn [search_loop].
  { split; [lia|]. split; lia. }
  destruct (Z.ltb_spec i j); [|split; [lia|]; split; lia].
  set (h := Z.shiftr (i + j) 1). assert (Hh : i <= h < j).
  { unfold h. rewrite Z.shiftr_div_pow2 by lia. change (2 ^ 1) with 2. div_lia. }
  destruct (f h) eqn:E; cbn [negb].
  - destruct (IH i h ltac:(lia) ltac:(lia) ltac:(lia)) as (R1 & R2 & R3). cbv zeta in *. split; [lia|]. split; [done|].
    intros _. destruct (Z.eq_dec (search_loop n f i h) h) as [->|]; [done|]. apply R3. lia.
  - destruct (IH (h + 1) j ltac:(lia) ltac:(lia) ltac:(lia)) as (R1 & R2 & R3). cbv zeta in *. split; [lia|]. split; [|done].
    intros k Hk. destruct (Z.le_gt_cases k h); [|apply R2; lia].
    destruct (f k) eqn:Ek; [|done]. rewrite (Hm k h ltac:(lia) ltac:(lia) Ek) in E. done.
Qed.

(** ** The order of strings *)

Lemma string_le_leb s t : String.le s t <-> String.leb s t = true.
Proof. apply Is_true_true. Qed.

Lemma string_compare_refl s : String.compare s s = Eq.
Proof. pose proof (String.compare_antisym s s) as H. destruct (String.compare s s); cbn in H; congruence. Qed.

Lemma string_ltb_lt s t : String.ltb s t = true <-> String.le s t /\ s <> t.
Proof.
  rewrite string_le_leb. unfold String.ltb, String.leb. destruct (String.compare s t) eqn:E.
  - apply String.compare_eq_iff in E. split; [done|]. by intros [_ []].
  - split; [|done]. intros _. split; [done|]. intros ->. by rewrite string_compare_refl in E.
  - split; [done|]. by intros [].
Qed.

Lemma string_ltb_ge s t : String.ltb s t = false <-> String.le t s.
Proof.
  rewrite string_le_leb. unfold String.ltb, String.leb. rewrite (String.compare_antisym s t).
  by destruct (String.compare t s).
Qed.

Lemma sort_by_Permutation {A} (key : A -> string) l : sort_by key l ≡ₚ l.
Proof. apply merge_sort_Permutation. Qed.

Lemma sort_by_sorted {A} (key : A -> string) l : StronglySorted (key_le key) (sort_by key l).
Proof. apply StronglySorted_merge_sort; apply _. Qed.

(** Distinct keys leave a sort no choice. *)
Lemma sort_by_canonical {A} (key : A -> string) l l' : NoDup (key <$> l) -> l ≡ₚ l' ->
  sort_by key l = sort_by key l'.
Proof.
  intros Hnd HP. apply (StronglySorted_unique_strong (key_le key)).
  - intros x y Hx Hy Hxy Hyx. rewrite sort_by_Permutation in Hx. rewrite sort_by_Permutation, <- HP in Hy.
    assert (key x = key y) as E by (by apply (anti_symm String.le)).
    apply list_elem_of_lookup in Hx as [i Hi], Hy as [j Hj].
    assert (i = j) as ->; [|congruence].
    eapply (NoDup_lookup (key <$> l)); [done| |]; rewrite list_lookup_fmap; [by rewrite Hi|by rewrite Hj, E].
  - apply sort_by_sorted.
  - apply sort_by_sorted.
  - by rewrite !sort_by_Permutation.
Qed.

Lemma sort_by_id {A} (key : A -> string) l : NoDup (key <$> l) -> StronglySorted (key_le key) l ->
  sort_by key l = l.
Proof.
  intros Hnd Hs. apply (StronglySorted_unique_strong (key_le key)); [|apply sort_by_sorted|done|apply sort_by_Permutation].
  intros x y Hx Hy Hxy Hyx. rewrite sort_by_Permutation in Hx.
  assert (key x = key y) as E by (by apply (anti_symm String.le)).
  apply list_elem_of_lookup in Hx as [i Hi], Hy as [j Hj].
  assert (i = j) as ->; [|congruence].
  eapply (NoDup_lookup (key <$> l)); [done| |]; rewrite list_lookup_fmap; [by rewrite Hi|by rewrite Hj, E].
Qed.

Lemma sort_by_strict {A} (key : A -> string) l : NoDup (key <$> l) ->
  StronglySorted (fun x y => String.ltb (key x) (key y) = true) (sort_by key l).
Proof.
  intros Hnd. assert (Hnd' : NoDup (key <$> sort_by key l)) by (by rewrite sort_by_Permutation).
  pose proof (sort_by_sorted key l) as Hs. induction Hs as [|x k Hs IH Hall]; constructor.
  - apply IH. by inversion Hnd'.
  - cbn in Hnd'. apply NoDup_cons in Hnd' as [Hx _]. rewrite Forall_forall in Hall |- *. intros y Hy. apply string_ltb_lt.
    split; [by apply Hall|]. intros E. apply Hx. rewrite E. by apply list_elem_of_fmap_2.
Qed.

Lemma sort_Strings_Permutation l : sort_Strings l ≡ₚ l.
Proof. apply merge_sort_Permutation. Qed.

Lemma sort_Strings_sorted l : StronglySorted String.le (sort_Strings l).
Proof. apply StronglySorted_merge_sort; apply _. Qed.

Lemma sort_Strings_canonical l l' : l ≡ₚ l' -> sort_Strings l = sort_Strings l'.
Proof.
  intros HP. apply (StronglySorted_unique String.le); [apply sort_Strings_sorted..|].
  by rewrite !sort_Strings_Permutation.
Qed.

Lemma sort_Strings_id l : StronglySorted String.le l -> sort_Strings l = l.
Proof.
  intros H. apply (StronglySorted_unique String.le); [apply sort_Strings_sorted|done|apply sort_Strings_Permutation].
Qed.

Lemma elem_of_sort_Strings x l : x ∈ sort_Strings l <-> x ∈ l.
Proof. by rewrite sort_Strings_Permutation. Qed.

(** ** Keyed slices *)

Section keyed_lemmas.
Context {A : Type} (key : A -> string).

Definition key_lt (x y : A) : Prop := String.ltb (key x) (key y) = true.
Abbreviation ordered := (StronglySorted key_lt).

Lemma ordered_lookup l i j x y : ordered l -> l !! i = Some x -> l !! j = Some y -> (i < j)%nat -> key_lt x y.
Proof.
  intros Hs. revert i j. induction Hs as [|z l Hs IH Hall]; intros i j Hi Hj Hij; [done|].
  destruct i as [|i], j as [|j]; cbn in *; try lia; simplify_eq.
  - rewrite Forall_forall in Hall. by eapply Hall, list_elem_of_lookup_2.
  - eapply IH; eauto; lia.
Qed.

Lemma ordered_NoDup l : ordered l -> NoDup (key <$> l).
Proof.
  induction 1 as [|x l Hs IH Hall]; cbn; constructor; [|done].
  rewrite list_elem_of_fmap. intros (y & E & Hy). rewrite Forall_forall in Hall.
  specialize (Hall y Hy). unfold key_lt in Hall. apply string_ltb_lt in Hall as [_ Hne]. by rewrite E in Hne.
Qed.

(** The index splits the slice into smaller keys and the rest. *)
Lemma key_index_spec k l : ordered l ->
  (key_index key k l <= length l)%nat /\
  (forall i x, l !! i = Some x -> (i < key_index key k l)%nat <-> String.ltb (key x) k = true).
Proof.
  intros Hs. unfold key_index, sort_Search.
  set (f := fun i => from_option _ true (l !! Z.to_nat i)). set (n := Z.of_nat (length l)).
  destruct (search_loop_spec (length l) f 0 n 0 n ltac:(lia) ltac:(lia) ltac:(lia) ltac:(lia)) as (R1 & R2 & R3).
  { intros a b Hab Hb. unfold f. destruct (lookup_lt_is_Some_2 l (Z.to_nat a)) as [x Hx]; [lia|].
    destruct (lookup_lt_is_Some_2 l (Z.to_nat b)) as [y Hy]; [lia|]. rewrite Hx, Hy; cbn.
    destruct (Z.eq_dec a b) as [->|]; [congruence|]. rewrite <- !string_le_leb. intros Hk. transitivity (key x); [done|].
    by apply string_ltb_lt, (ordered_lookup l (Z.to_nat a) (Z.to_nat b)); [| | |lia]. }
  cbv zeta in *. set (r := search_loop _ f 0 n) in *. clearbody r. split; [lia|].
  intros i x Hi. assert (Hlen := lookup_lt_Some _ _ _ Hi).
  assert (Hf : f (Z.of_nat i) = String.leb k (key x)). { unfold f. by rewrite Nat2Z.id, Hi. }
  split; intros H.
  - specialize (R2 (Z.of_nat i) ltac:(lia)). rewrite Hf in R2.
    destruct (String.ltb (key x) k) eqn:E; [done|]. apply string_ltb_ge, string_le_leb in E. congruence.
  - destruct (Nat.lt_ge_cases i (Z.to_nat r)) as [|Hge]; [done|]. exfalso.
    assert (Hr : f r = true) by (apply R3; lia).
    destruct (lookup_lt_is_Some_2 l (Z.to_nat r)) as [y Hy]; [lia|].
    unfold f in Hr. rewrite Hy in Hr. cbn in Hr. apply string_le_leb in Hr. apply string_ltb_lt in H as [Hle Hne].
    assert (String.le (key y) (key x)).
    { destruct (Nat.eq_dec (Z.to_nat r) i) as [E|]; [rewrite E in Hy; by simplify_eq|].
      by apply string_ltb_lt, (ordered_lookup l (Z.to_nat r) i); [| | |lia]. }
    apply Hne, (anti_symm String.le); [done|]. by transitivity (key y).
Qed.

Lemma find_key_Some k l x : ordered l -> find_key key k l = Some x <-> x ∈ l /\ key x = k.
Proof.
  intros Hs. destruct (key_index_spec k l Hs) as [Hle Hi]. unfold find_key. split.
  - destruct (l !! _) as [y|] eqn:E; [|done]. destruct (decide _); [|done]. intros [= ->].
    split; [by eapply list_elem_of_lookup_2|done].
  - intros [(i & Hx)%list_elem_of_lookup Hk].
    assert (i = key_index key k l) as <-; [|rewrite Hx; by rewrite decide_True].
    destruct (Nat.lt_trichotomy i (key_index key k l)) as [H|[H|H]]; [|done|].
    + apply (Hi i x Hx) in H. apply string_ltb_lt in H as [_ H]. done.
    + destruct (lookup_lt_is_Some_2 l (key_index key k l)) as [y Hy]; [apply lookup_lt_Some in Hx; lia|].
      pose proof (ordered_lookup _ _ _ _ _ Hs Hy Hx H) as Hlt. unfold key_lt in Hlt. rewrite Hk in Hlt.
      apply (Hi _ _ Hy) in Hlt. lia.
Qed.

Lemma find_key_None k l : ordered l -> find_key key k l = None <-> (k ∉ (key <$> l)).
Proof.
  intros Hs. rewrite list_elem_of_fmap. split.
  - intros Hn (x & -> & Hx). by rewrite (proj2 (find_key_Some (key x) l x Hs)) in Hn.
  - intros Hn. destruct (find_key key k l) eqn:E; [|done]. apply find_key_Some in E as [? <-]; [|done].
    destruct Hn. eauto.
Qed.

(** Writing is exact: the written key holds the new element, every other key
    what it held. *)
Lemma set_key_elem l x y : ordered l -> y ∈ set_key key x l <-> y = x \/ (y ∈ l /\ key y <> key x).
Proof.
  intros Hs. unfold set_key. destruct (key_index_spec (key x) l Hs) as [Hle Hi].
  destruct (find_key key (key x) l) as [z|] eqn:E.
  - unfold find_key in E. destruct (l !! key_index key (key x) l) as [z'|] eqn:Ez; [|done].
    destruct (decide (key z' = key x)) as [Ek|]; [|done].
    assert (Hlt := lookup_lt_Some _ _ _ Ez). rewrite !list_elem_of_lookup. split.
    + intros [i Hy]. rewrite list_lookup_insert in Hy. case_decide as Hd; [naive_solver|].
      right. split; [eauto|]. intros Eky. destruct Hd. split; [|done].
      pose proof (ordered_NoDup l Hs) as Hnd.
      apply (NoDup_lookup (key <$> l) _ _ (key x)); [done| |]; rewrite list_lookup_fmap; [by rewrite Ez; cbn; rewrite Ek|by rewrite Hy; cbn; rewrite Eky].
    + intros [->|[[i Hy] Hne]].
      * exists (key_index key (key x) l). by rewrite list_lookup_insert_eq.
      * exists i. rewrite list_lookup_insert_ne; [done|]. intros <-. naive_solver.
  - apply find_key_None in E; [|done].
    assert (Hnk : forall y, y ∈ l -> key y <> key x). { intros w Hw Hk. apply E. rewrite <- Hk. by apply list_elem_of_fmap_2. }
    rewrite elem_of_app, elem_of_cons.
    assert (Hsplit : y ∈ l <-> y ∈ take (key_index key (key x) l) l \/ y ∈ drop (key_index key (key x) l) l).
    { by rewrite <- elem_of_app, take_drop. }
    specialize (Hnk y). tauto.
Qed.

Lemma key_lt_trans : Transitive key_lt.
Proof.
  intros x y z. unfold key_lt. rewrite !string_ltb_lt. intros [H1 N1] [H2 N2]. split; [by transitivity (key y)|].
  intros E. apply N1. apply (anti_symm String.le); [done|]. by rewrite E.
Qed.

Lemma ordered_from_lookup l : (forall i j x y, l !! i = Some x -> l !! j = Some y -> (i < j)%nat -> key_lt x y) -> ordered l.
Proof.
  induction l as [|z l IH]; intros H; constructor.
  - apply IH. intros i j x y Hx Hy Hij. apply (H (S i) (S j)); [done|done|lia].
  - apply Forall_forall. intros y (j & Hj)%list_elem_of_lookup. apply (H 0%nat (S j)); [done|done|lia].
Qed.

Lemma set_key_ordered l x : ordered l -> ordered (set_key key x l).
Proof.
  intros Hs. unfold set_key. destruct (key_index_spec (key x) l Hs) as [Hle Hi].
  destruct (find_key key (key x) l) as [z|] eqn:E.
  - unfold find_key in E. destruct (l !! key_index key (key x) l) as [z'|] eqn:Ez; [|done].
    destruct (decide (key z' = key x)) as [Ek|]; [|done].
    apply ordered_from_lookup. intros i j a b Ha Hb Hij. rewrite list_lookup_insert in Ha, Hb.
    unfold key_lt. case_decide as Hd1; case_decide as Hd2; simplify_eq; try lia.
    + destruct Hd1 as [<- _]. rewrite <- Ek. by eapply ordered_lookup.
    + destruct Hd2 as [<- _]. rewrite <- Ek. by eapply ordered_lookup.
    + by eapply (ordered_lookup l).
  - apply find_key_None in E; [|done]. apply StronglySorted_app. split; [|split].
    + intros a b (i & Ha)%list_elem_of_lookup Hb. rewrite lookup_take in Ha. case_decide; [|done].
      assert (Hax : key_lt a x) by (by apply (Hi i a Ha)).
      apply elem_of_cons in Hb as [->|(j & Hb)%list_elem_of_lookup]; [done|]. rewrite lookup_drop in Hb.
      eapply (ordered_lookup l); [done|done|done|lia].
    + rewrite <- (take_drop (key_index key (key x) l) l) in Hs. by eapply StronglySorted_app_1_l.
    + constructor; [rewrite <- (take_drop (key_index key (key x) l) l) in Hs; by eapply StronglySorted_app_1_r|].
      apply Forall_forall. intros b (j & Hb)%list_elem_of_lookup. rewrite lookup_drop in Hb. unfold key_lt.
      destruct (String.ltb (key x) (key b)) eqn:Eb; [done|]. exfalso. apply string_ltb_ge in Eb.
      assert (Hkb : key b <> key x). { intros Ek. apply E. rewrite <- Ek. by eapply list_elem_of_fmap_2, list_elem_of_lookup_2. }
      assert (String.ltb (key b) (key x) = true) as Hlt by (by apply string_ltb_lt).
      apply (Hi _ _ Hb) in Hlt. lia.
Qed.

Lemma find_set_key l x k : ordered l ->
  find_key key k (set_key key x l) = if decide (key x = k) then Some x else find_key key k l.
Proof.
  intros Hs. pose proof (set_key_ordered l x Hs) as Hs'. apply option_eq. intros y.
  rewrite find_key_Some, set_key_elem by done. case_decide as Hd.
  - split; [intros [[->|[_ Hne]] Hk]; [done|congruence]|intros [= <-]; auto].
  - rewrite find_key_Some by done. split; [intros [[->|[? _]] Hk]; [done|done]|].
    intros [Hy Hk]. split; [right; split; congruence|done].
Qed.

End keyed_lemmas.

#[export] Hint Resolve sort_by_sorted sort_Strings_sorted set_key_ordered : core.

(** What a sorted list says of two positions. *)
Lemma sorted_pairs {A} (R : A -> A -> Prop) l i j a b : StronglySorted R l -> (i < j)%nat -> l !! i = Some a -> l !! j = Some b -> R a b.
Proof.
  intros H. revert i j. induction H as [|x l Hl IH Hx]; intros [|i] [|j] Hij Ha Hb; cbn in *; try lia; try done.
  - injection Ha as ->. rewrite Forall_forall in Hx. by apply Hx, (list_elem_of_lookup_2 _ j).
  - apply (IH i j); [lia|done|done].
Qed.
