(* ===== verification/CanonicalBytes.v ===== *)
(** The canonical byte stream of the pure engines:
    [internal/engines/canonicalbytes/canonicalbytes.go].

    A [Writer] is its buffer and its first error; each method returns the
    writer it leaves.  SHA-256 is the class [Sha256].  [frame] is the
    specification: the stream of a list of fields.  The theorems show that a
    writer without error holds exactly the frame of the fields written, that a
    frame determines its fields, and that sets are written independently of
    their order. *)

From S2P Require Import Prelude Sorting.

Local Open Scope Z_scope.

(** * The writer *)

Inductive canon_err : Type := ErrSchemaRequired | ErrUnencodable | ErrTagRequired.

#[export] Instance canon_err_eq_dec : EqDecision canon_err.
Proof. solve_decision. Defined.

Definition DigestAlgorithm : string := "sha256".
Definition contractVersion : Z := 1.
Definition Version : Z := contractVersion.

Record Writer : Type := mkWriter { w_buf : list Z; w_err : option canon_err }.

(** [binary.AppendUvarint] of a [uint64]: ten bytes are enough. *)
Fixpoint uvarint_loop (fuel : nat) (x : Z) : list Z :=
  match fuel with
  | O => [x]
  | S n => if 128 <=? x then Z.lor (Z.land x 127) 128 :: uvarint_loop n (Z.shiftr x 7) else [x]
  end.
Definition AppendUvarint (buf : list Z) (x : Z) : list Z := buf ++ uvarint_loop 9 x.

Definition Writer_fail (w : Writer) (e : canon_err) : Writer :=
  match w_err w with None => mkWriter (w_buf w) (Some e) | Some _ => w end.

Definition Writer_Field (tag : string) (payload : list Z) (w : Writer) : Writer :=
  match w_err w with
  | Some _ => w
  | None =>
      if String.eqb tag "" then Writer_fail w ErrTagRequired
      else
        let b1 := AppendUvarint (w_buf w) (to_uint64 (len tag)) in
        let b2 := b1 ++ str_bytes tag in
        let b3 := AppendUvarint b2 (to_uint64 (Z.of_nat (length payload))) in
        mkWriter (b3 ++ payload) None
  end.

Definition Writer_String (tag v : string) (w : Writer) : Writer := Writer_Field tag (str_bytes v) w.

Definition Writer_Bool (tag : string) (v : bool) (w : Writer) : Writer :=
  Writer_Field tag [if v then 1 else 0] w.

(** [uint64(v<<1) ^ uint64(v>>63)] of an [int64]. *)
Definition zigzag (v : Z) : Z :=
  Z.lxor (to_uint64 (to_int64 (Z.shiftl v 1))) (to_uint64 (Z.shiftr v 63)).

Definition Writer_Int (tag : string) (v : Z) (w : Writer) : Writer :=
  Writer_Field tag (AppendUvarint [] (zigzag v)) w.

(** A [Canonicalizer] is passed as the result of its [Canonical] method: [None]
    is nil. *)
Definition Writer_Value (tag : string) (c : option (list Z)) (w : Writer) : Writer :=
  match w_err w with
  | Some _ => w
  | None => match c with None => Writer_fail w ErrUnencodable | Some payload => Writer_Field tag payload w end
  end.

Definition Writer_Optional (tag : string) (present : bool) (c : option (list Z)) (w : Writer) : Writer :=
  match w_err w with
  | Some _ => w
  | None =>
      let w1 := Writer_Bool (tag +:+ "?") present w in
      if present then Writer_Value tag c w1 else w1
  end.

Definition Writer_Bytes (w : Writer) : outcome canon_err (list Z) :=
  match w_err w with Some e => Err e | None => Ok (w_buf w) end.

Definition Writer_Nested (tag : string) (n w : Writer) : Writer :=
  match w_err w with
  | Some _ => w
  | None =>
      match Writer_Bytes n with
      | Ok payload => Writer_Field tag payload w
      | Err e => Writer_fail w e
      | Panic => w
      end
  end.

Definition Writer_Count (tag : string) (n : Z) (w : Writer) : Writer := Writer_Int (tag +:+ "#") n w.

Definition Writer_SortedStrings (tag : string) (values : list string) (w : Writer) : Writer :=
  match w_err w with
  | Some _ => w
  | None =>
      let sorted := sort_Strings values in
      let w1 := Writer_Int (tag +:+ "#") (Z.of_nat (length sorted)) w in
      fold_left (fun w v => Writer_String tag v w) sorted w1
  end.

Definition New (schema : string) (version : Z) : Writer :=
  let w := mkWriter [] None in
  if String.eqb schema "" then mkWriter [] (Some ErrSchemaRequired)
  else Writer_Int "$schema_version" version (Writer_String "$schema" schema w).

(** SHA-256, of which only the result is used. *)
Class Sha256 : Type := { sha256_Sum256 : list Z -> list Z }.

Definition hex_digit (d : Z) : ascii := if d <? 10 then char_of (48 + d) else char_of (87 + d).
Fixpoint hex_EncodeToString (bs : list Z) : string :=
  match bs with
  | [] => ""
  | b :: r => String (hex_digit (b / 16)) (String (hex_digit (b mod 16)) (hex_EncodeToString r))
  end.

Definition Digest `{Sha256} (raw : list Z) : string :=
  DigestAlgorithm +:+ ":" +:+ hex_EncodeToString (sha256_Sum256 raw).

Definition Writer_Digest `{Sha256} (w : Writer) : outcome canon_err string :=
  raw ← Writer_Bytes w; Ok (Digest raw).

(** * Specification: the frame of a list of fields *)

Definition field : Type := string * list Z.

Definition uvarint (x : Z) : list Z := uvarint_loop 9 x.

Definition frame_field (f : field) : list Z :=
  uvarint (len f.1) ++ str_bytes f.1 ++ uvarint (Z.of_nat (length f.2)) ++ f.2.
Fixpoint frame (fs : list field) : list Z :=
  match fs with [] => [] | f :: r => frame_field f ++ frame r end.

(** A field whose tag is not empty and whose lengths are machine integers. *)
Definition field_ok (f : field) : Prop :=
  f.1 <> "" /\ len f.1 < 2 ^ 63 /\ Z.of_nat (length f.2) < 2 ^ 63.

(** [w] holds exactly the fields [fs]. *)
Definition holds (w : Writer) (fs : list field) : Prop := w_err w = None /\ w_buf w = frame fs.

(** * Lemmas *)

Lemma uvarint_byte x : Z.lor (Z.land x 127) 128 = x mod 128 + 128.
Proof.
  change 127 with (Z.ones 7). rewrite Z.land_ones by lia. change (2 ^ 7) with 128.
  assert (H : Z.land (x mod 2 ^ 7) 128 = 0).
  { apply Z.bits_inj'. intros n Hn. rewrite Z.land_spec, Z.bits_0. change 128 with (2 ^ 7).
    destruct (Z.lt_ge_cases n 7).
    - rewrite Z.pow2_bits_false by lia. apply andb_false_r.
    - rewrite Z.mod_pow2_bits_high by lia. done. }
  change (2 ^ 7) with 128 in *. by rewrite Z.add_nocarry_lxor, Z.lxor_lor.
Qed.

Lemma uvarint_loop_S n x : uvarint_loop (S n) x =
  if 128 <=? x then (x mod 128 + 128) :: uvarint_loop n (x / 128) else [x].
Proof. cbn [uvarint_loop]. rewrite uvarint_byte, Z.shiftr_div_pow2 by lia. reflexivity. Qed.

(** A variable-length integer is read back, whatever follows it. *)
Lemma uvarint_loop_inj n x y r s : 0 <= x < 2 ^ (7 * Z.of_nat n + 1) -> 0 <= y < 2 ^ (7 * Z.of_nat n + 1) ->
  uvarint_loop n x ++ r = uvarint_loop n y ++ s -> x = y /\ r = s.
Proof.
  revert x y. induction n as [|n IH]; intros x y Hx Hy.
  { cbn. intros [= -> ->]. done. }
  rewrite !uvarint_loop_S.
  replace (7 * Z.of_nat (S n) + 1) with (7 * Z.of_nat n + 1 + 7) in * by lia.
  rewrite Z.pow_add_r in Hx, Hy by lia. change (2 ^ 7) with 128 in *.
  destruct (128 <=? x) eqn:Ex, (128 <=? y) eqn:Ey; cbn -[Z.mul Z.add uvarint_loop];
    intros [H0 H1]%cons_eq_inv.
  - apply IH in H1 as [H1 ->]; [|div_lia..]. split; [div_lia|done].
  - exfalso. div_lia.
  - exfalso. div_lia.
  - done.
Qed.

Lemma uvarint_inj x y r s : 0 <= x < 2 ^ 64 -> 0 <= y < 2 ^ 64 -> uvarint x ++ r = uvarint y ++ s -> x = y /\ r = s.
Proof. apply (uvarint_loop_inj 9). Qed.

Lemma uvarint_nonempty x : uvarint x <> [].
Proof. unfold uvarint. rewrite (uvarint_loop_S 8). case_match; done. Qed.

Lemma zigzag_spec v : min_int64 <= v <= max_int64 -> zigzag v = if 0 <=? v then 2 * v else -2 * v - 1.
Proof.
  unfold zigzag, min_int64, max_int64. intros Hv.
  rewrite Z.shiftl_mul_pow2, Z.shiftr_div_pow2 by lia. change (2 ^ 1) with 2.
  destruct (0 <=? v) eqn:E.
  - replace (v / 2 ^ 63) with 0 by div_lia. unfold to_uint64 at 2. rewrite Z.mod_0_l, Z.lxor_0_r by lia.
    unfold to_uint64, to_int64. div_lia.
  - replace (v / 2 ^ 63) with (-1) by div_lia.
    replace (to_uint64 (-1)) with (Z.ones 64) by reflexivity.
    replace (to_uint64 (to_int64 (v * 2))) with (v * 2 + 2 ^ 64) by (unfold to_uint64, to_int64; div_lia).
    assert (Hs : Z.lxor (v * 2 + 2 ^ 64) (Z.ones 64) + (v * 2 + 2 ^ 64) = Z.ones 64).
    { set (a := v * 2 + 2 ^ 64). rewrite (Z.add_nocarry_lxor).
      - rewrite (Z.lxor_comm a), Z.lxor_assoc, Z.lxor_nilpotent, Z.lxor_0_r. done.
      - assert (Ha : Z.land a (Z.ones 64) = a).
        { rewrite Z.land_ones, Z.mod_small by lia. done. }
        apply Z.bits_inj'. intros n Hn. rewrite Z.land_spec, Z.lxor_spec, Z.bits_0.
        rewrite <- Ha, Z.land_spec. destruct (Z.testbit a n), (Z.testbit (Z.ones 64) n); done. }
    change (Z.ones 64) with (2 ^ 64 - 1) in *. lia.
Qed.

Lemma zigzag_inj v w : min_int64 <= v <= max_int64 -> min_int64 <= w <= max_int64 -> zigzag v = zigzag w -> v = w.
Proof. intros Hv Hw. rewrite !zigzag_spec by done. repeat case_match; lia. Qed.

Lemma zigzag_range v : min_int64 <= v <= max_int64 -> 0 <= zigzag v < 2 ^ 64.
Proof. intros Hv. rewrite zigzag_spec by done. unfold min_int64, max_int64 in Hv. case_match; lia. Qed.

Lemma frame_app fs gs : frame (fs ++ gs) = frame fs ++ frame gs.
Proof. induction fs as [|f fs IH]; [done|]. cbn. by rewrite IH, app_assoc. Qed.

Lemma frame_field_inj f g r s : field_ok f -> field_ok g ->
  frame_field f ++ r = frame_field g ++ s -> f = g /\ r = s.
Proof.
  destruct f as [t p], g as [u q]. unfold field_ok, frame_field; cbn [fst snd].
  intros (_ & Ht & Hp) (_ & Hu & Hq) H. rewrite <- !app_assoc in H.
  pose proof (len_nonneg t). pose proof (len_nonneg u).
  apply uvarint_inj in H as [Hl H]; [|lia..].
  apply app_inj_1 in H as [Htu H]; [|rewrite !str_bytes_length; unfold len in Hl; lia].
  apply str_bytes_inj in Htu as ->.
  apply uvarint_inj in H as [Hl2 H]; [|lia..].
  apply app_inj_1 in H as [-> ->]; [done|lia].
Qed.

Lemma frame_inj fs gs : Forall field_ok fs -> Forall field_ok gs -> frame fs = frame gs -> fs = gs.
Proof.
  intros Hf. revert gs. induction Hf as [|f fs Hf _ IH]; intros gs Hg; destruct Hg as [|g gs Hg Hgs]; cbn.
  - done.
  - unfold frame_field. intros H. symmetry in H. apply app_eq_nil in H as [H _].
    by apply app_eq_nil in H as [?%uvarint_nonempty _].
  - unfold frame_field. intros H. apply app_eq_nil in H as [H _].
    by apply app_eq_nil in H as [?%uvarint_nonempty _].
  - intros [-> H]%frame_field_inj; [|done..]. f_equal. auto.
Qed.

(** Each method appends its fields. *)
Lemma Field_holds tag p w fs : field_ok (tag, p) -> holds w fs -> holds (Writer_Field tag p w) (fs ++ [(tag, p)]).
Proof.
  intros (Ht & Hl & Hp) [He Hb]. unfold holds, Writer_Field. cbn [fst snd] in *. rewrite He.
  destruct (String.eqb_spec tag ""); [done|]. cbn. split; [done|].
  unfold AppendUvarint. pose proof (len_nonneg tag).
  rewrite !to_uint64_small, Hb, frame_app by lia. cbn. unfold frame_field, uvarint. cbn [fst snd].
  by rewrite app_nil_r, <- !app_assoc.
Qed.

Lemma fail_sticky w e tag p : w_err w = Some e -> Writer_Field tag p w = w.
Proof. unfold Writer_Field. by intros ->. Qed.

(** * Programs over a writer

    [op] is one call on a writer, [op_run] its effect and [op_fields] the
    fields it is meant to contribute: [None] when it must abandon the stream. *)

Inductive op : Type :=
  | WField (tag : string) (payload : list Z)
  | WString (tag v : string)
  | WBool (tag : string) (v : bool)
  | WInt (tag : string) (v : Z)
  | WCount (tag : string) (n : Z)
  | WValue (tag : string) (c : option (list Z))
  | WOptional (tag : string) (present : bool) (c : option (list Z))
  | WSortedStrings (tag : string) (values : list string).

Definition op_run (o : op) (w : Writer) : Writer :=
  match o with
  | WField t p => Writer_Field t p w
  | WString t v => Writer_String t v w
  | WBool t v => Writer_Bool t v w
  | WInt t v => Writer_Int t v w
  | WCount t n => Writer_Count t n w
  | WValue t c => Writer_Value t c w
  | WOptional t b c => Writer_Optional t b c w
  | WSortedStrings t vs => Writer_SortedStrings t vs w
  end.

Definition tagged (tag : string) (payload : list Z) : option (list field) :=
  if String.eqb tag "" then None else Some [(tag, payload)].

Definition op_fields (o : op) : option (list field) :=
  match o with
  | WField t p => tagged t p
  | WString t v => tagged t (str_bytes v)
  | WBool t v => tagged t [if v then 1 else 0]
  | WInt t v => tagged t (uvarint (zigzag v))
  | WCount t n => tagged (t +:+ "#") (uvarint (zigzag n))
  | WValue t c => p ← c; tagged t p
  | WOptional t true c => p ← c; q ← tagged t p; Some (((t +:+ "?"), [1]) :: q)
  | WOptional t false c => Some [((t +:+ "?"), [0])]
  | WSortedStrings t vs =>
      if String.eqb t "" && negb (bool_decide (vs = [])) then None
      else Some (((t +:+ "#"), uvarint (zigzag (Z.of_nat (length vs)))) ::
                 ((fun v => (t, str_bytes v)) <$> sort_Strings vs))
  end.

Fixpoint ops_fields (os : list op) : option (list field) :=
  match os with
  | [] => Some []
  | o :: r => f ← op_fields o; g ← ops_fields r; Some (f ++ g)
  end.

Definition ops_run (os : list op) (w : Writer) : Writer := fold_left (fun w o => op_run o w) os w.

(** Lengths are machine integers. *)
Definition bytes_fit (p : list Z) : Prop := Z.of_nat (length p) < 2 ^ 63.
Definition op_fits (o : op) : Prop :=
  match o with
  | WField t p => len t < 2 ^ 62 /\ bytes_fit p
  | WString t v => len t < 2 ^ 62 /\ len v < 2 ^ 63
  | WBool t _ | WInt t _ | WCount t _ => len t < 2 ^ 62
  | WValue t c | WOptional t _ c => len t < 2 ^ 62 /\ (forall p, c = Some p -> bytes_fit p)
  | WSortedStrings t vs => len t < 2 ^ 62 /\ Forall (fun v => len v < 2 ^ 63) vs
  end.

Lemma tag_suffix_ok t c : (t +:+ String c "") <> "".
Proof. destruct t; done. Qed.

Lemma tag_suffix_len t c : len t < 2 ^ 62 -> len (t +:+ String c "") < 2 ^ 63.
Proof. intros H. rewrite len_append. change (len (String c "")) with 1. lia. Qed.

Lemma uvarint_length x : Z.of_nat (length (uvarint x)) < 2 ^ 63.
Proof.
  assert (H : forall n x, (length (uvarint_loop n x) <= S n)%nat).
  { induction n as [|n IH]; intros y; [cbn; lia|]. rewrite uvarint_loop_S. case_match; cbn [length]; [specialize (IH (y / 128)); lia|lia]. }
  specialize (H 9%nat x). unfold uvarint. lia.
Qed.

Lemma str_payload_fits v : len v < 2 ^ 63 -> bytes_fit (str_bytes v).
Proof. unfold bytes_fit. by rewrite str_bytes_length. Qed.

Create HintDb canon.
#[local] Hint Resolve tag_suffix_ok tag_suffix_len uvarint_length str_payload_fits : canon.

(** What a call leaves: its fields appended, or the stream abandoned. *)
Definition leaves (w w' : Writer) (fs : list field) (out : option (list field)) : Prop :=
  match out with
  | Some gs => holds w' (fs ++ gs) /\ Forall field_ok gs
  | None => w_err w' <> None
  end.

Lemma Field_leaves t p w fs : len t < 2 ^ 63 -> bytes_fit p -> holds w fs ->
  leaves w (Writer_Field t p w) fs (tagged t p).
Proof.
  intros Ht Hp Hw. unfold tagged. destruct (String.eqb_spec t "") as [->|Hn]; cbn.
  - destruct Hw as [He _]. unfold Writer_Field. rewrite He. cbn. unfold Writer_fail. by rewrite He.
  - assert (Hok : field_ok (t, p)) by (repeat split; done).
    split; [by apply Field_holds|]. by repeat constructor.
Qed.

Lemma strings_leave t vs w fs : t <> "" -> len t < 2 ^ 63 -> Forall (fun v => len v < 2 ^ 63) vs -> holds w fs ->
  leaves w (fold_left (fun w v => Writer_String t v w) vs w) fs (Some ((fun v => (t, str_bytes v)) <$> vs)).
Proof.
  intros Hn Ht Hvs. revert w fs. induction Hvs as [|v vs Hv _ IH]; intros w fs Hw; cbn.
  - rewrite app_nil_r. by split.
  - assert (Hok : field_ok (t, str_bytes v)) by (split_and!; [done|done|by apply str_payload_fits]).
    destruct (IH (Writer_String t v w) (fs ++ [(t, str_bytes v)])) as [H1 H2]; [by apply Field_holds|].
    rewrite <- app_assoc in H1. split; [done|by constructor].
Qed.

Lemma tagged_suffix t c p : tagged (t +:+ String c "") p = Some [(t +:+ String c "", p)].
Proof. unfold tagged. destruct (String.eqb_spec (t +:+ String c "") ""); [by destruct t|done]. Qed.

Lemma op_leaves o w fs : op_fits o -> holds w fs -> leaves w (op_run o w) fs (op_fields o).
Proof.
  intros Hf Hw. pose proof (proj1 Hw) as He.
  destruct o as [t p|t v|t v|t v|t n|t c|t [] c|t vs]; cbn in Hf |- *.
  - apply Field_leaves; [lia|tauto|done].
  - apply Field_leaves; [lia|apply str_payload_fits; tauto|done].
  - apply Field_leaves; [lia|unfold bytes_fit; cbn; lia|done].
  - apply Field_leaves; [lia|apply uvarint_length|done].
  - apply Field_leaves; [auto with canon|apply uvarint_length|done].
  - unfold Writer_Value. rewrite He. destruct c as [p|]; cbn.
    + apply Field_leaves; [lia|apply Hf; done|done].
    + unfold Writer_fail. by rewrite He.
  - unfold Writer_Optional. rewrite He.
    pose proof (Field_leaves (t +:+ "?") [1] w fs ltac:(apply tag_suffix_len; tauto) ltac:(unfold bytes_fit; cbn; lia) Hw) as H1.
    rewrite tagged_suffix in H1. destruct H1 as [H1 Hok]. unfold Writer_Value.
    change (Writer_Bool (t +:+ "?") true w) with (Writer_Field (t +:+ "?") [1] w). rewrite (proj1 H1).
    destruct c as [p|]; cbn; [|unfold Writer_fail; by rewrite (proj1 H1)].
    pose proof (Field_leaves t p _ _ ltac:(lia) ltac:(apply Hf; done) H1) as H2.
    destruct (tagged t p) as [q|]; cbn in H2 |- *; [|done].
    destruct H2 as [H2 H3]. rewrite <- app_assoc in H2. split; [done|]. constructor; [by inversion Hok|done].
  - unfold Writer_Optional. rewrite He.
    pose proof (Field_leaves (t +:+ "?") [0] w fs ltac:(apply tag_suffix_len; tauto) ltac:(unfold bytes_fit; cbn; lia) Hw) as H1.
    by rewrite tagged_suffix in H1.
  - unfold Writer_SortedStrings. rewrite He.
    pose proof (Field_leaves (t +:+ "#") (uvarint (zigzag (Z.of_nat (length (sort_Strings vs))))) w fs
      ltac:(apply tag_suffix_len; tauto) (uvarint_length _) Hw) as H1.
    rewrite tagged_suffix in H1. destruct H1 as [H1 Hok].
    rewrite (Permutation_length (sort_Strings_Permutation vs)) in *.
    change (Writer_Int (t +:+ "#") (Z.of_nat (length vs)) w)
      with (Writer_Field (t +:+ "#") (uvarint (zigzag (Z.of_nat (length vs)))) w).
    set (w1 := Writer_Field _ _ w) in *.
    destruct (String.eqb_spec t "") as [->|Hn]; cbn [andb].
    + destruct (bool_decide_reflect (vs = [])) as [->|Hvs]; cbn; [done|].
      assert (Hs : sort_Strings vs <> []).
      { intros E. apply Hvs. apply Permutation_nil_r. by rewrite <- (sort_Strings_Permutation vs), E. }
      destruct (sort_Strings vs) as [|v r]; [done|]. cbn.
      assert (Hstuck : forall w, w_err w <> None -> w_err (fold_left (fun w v => Writer_String "" v w) r w) <> None).
      { clear. induction r as [|v r IH]; cbn; [done|]. intros w Hw. apply IH.
        unfold Writer_String. destruct (w_err w) eqn:E; [|done]. unfold Writer_Field. by rewrite E, E. }
      apply Hstuck. unfold Writer_String, Writer_Field, Writer_fail. by rewrite (proj1 H1).
    + assert (Hvs : Forall (fun v => len v < 2 ^ 63) (sort_Strings vs)).
      { destruct Hf as [_ Hf]. rewrite Forall_forall in Hf |- *. intros v Hv. exact (Hf v (proj1 (elem_of_sort_Strings _ _) Hv)). }
      destruct (strings_leave t (sort_Strings vs) w1 _ Hn ltac:(lia) Hvs H1) as [H2 H3].
      cbn. rewrite <- app_assoc in H2. split; [done|]. constructor; [by inversion Hok|done].
Qed.

Lemma op_sticky o w : w_err w <> None -> op_run o w = w.
Proof.
  intros Hw. destruct (w_err w) as [e|] eqn:E; [|done].
  destruct o; cbn; unfold Writer_String, Writer_Bool, Writer_Int, Writer_Count, Writer_Value, Writer_Optional,
    Writer_SortedStrings, Writer_Int, Writer_Field; by rewrite E.
Qed.

Lemma ops_sticky os w : w_err w <> None -> ops_run os w = w.
Proof.
  intros Hw. unfold ops_run. induction os as [|o os IH]; cbn; [done|]. by rewrite op_sticky.
Qed.

Lemma ops_leave os w fs : Forall op_fits os -> holds w fs -> leaves w (ops_run os w) fs (ops_fields os).
Proof.
  intros Hos. revert w fs. induction Hos as [|o os Ho _ IH]; intros w fs Hw; cbn.
  { rewrite app_nil_r. by split. }
  pose proof (op_leaves o w fs Ho Hw) as H1. unfold ops_run in *. cbn.
  destruct (op_fields o) as [f|]; cbn in H1 |- *.
  - destruct H1 as [H1 Hf]. specialize (IH _ _ H1).
    destruct (ops_fields os) as [g|]; cbn in IH |- *; [|done].
    destruct IH as [H2 Hg]. rewrite <- app_assoc in H2. split; [done|by apply Forall_app_2].
  - pose proof (ops_sticky os _ H1) as E. unfold ops_run in E. by rewrite E.
Qed.

Lemma New_holds schema v : schema <> "" -> len schema < 2 ^ 63 ->
  let fs := [("$schema", str_bytes schema); ("$schema_version", uvarint (zigzag v))] in
  holds (New schema v) fs /\ Forall field_ok fs.
Proof.
  intros Hn Hl fs. unfold New. destruct (String.eqb_spec schema ""); [done|].
  assert (H1 : field_ok ("$schema", str_bytes schema)) by (split_and!; [done|done|by apply str_payload_fits]).
  assert (H2 : field_ok ("$schema_version", uvarint (zigzag v))) by (split_and!; [done|done|apply uvarint_length]).
  split; [|by constructor; [|constructor]].
  apply (Field_holds _ _ _ [("$schema", str_bytes schema)] H2). by apply (Field_holds _ _ _ [] H1).
Qed.

(** The stream of a whole program: schema, version, and the fields of its calls. *)
Definition stream_fields (schema : string) (v : Z) (os : list op) : option (list field) :=
  if String.eqb schema "" then None
  else fs ← ops_fields os; Some (("$schema", str_bytes schema) :: ("$schema_version", uvarint (zigzag v)) :: fs).

Lemma stream_spec schema v os : len schema < 2 ^ 63 -> Forall op_fits os ->
  match stream_fields schema v os with
  | Some fs => Writer_Bytes (ops_run os (New schema v)) = Ok (frame fs) /\ Forall field_ok fs
  | None => exists e, Writer_Bytes (ops_run os (New schema v)) = Err e
  end.
Proof.
  intros Hl Hos. unfold stream_fields. destruct (String.eqb_spec schema "") as [->|Hn].
  { exists ErrSchemaRequired. rewrite ops_sticky by done. done. }
  destruct (New_holds schema v Hn Hl) as [Hw Hok]. pose proof (ops_leave os _ _ Hos Hw) as H.
  destruct (ops_fields os) as [fs|]; cbn in H |- *.
  - destruct H as [[He Hb] Hf]. unfold Writer_Bytes. rewrite He, Hb. split; [done|]. by apply (Forall_app_2 _ _ _ Hok).
  - unfold Writer_Bytes. destruct (w_err _) as [e|]; [by exists e|done].
Qed.

(** * Theorems *)

(** C39: a program over a fresh writer ends in an error exactly when its schema
    or a tag is empty or one of its values has no encoding; otherwise its bytes
    are the frame of the fields of its calls, and two programs that end with
    the same bytes have written the same fields. *)
Theorem canonical_stream_injective schema v os schema' v' os'
    (Hs : len schema < 2 ^ 63) (Hs' : len schema' < 2 ^ 63) (Hos : Forall op_fits os) (Hos' : Forall op_fits os') :
  (is_ok (Writer_Bytes (ops_run os (New schema v))) = true <-> stream_fields schema v os <> None) /\
  (forall b, Writer_Bytes (ops_run os (New schema v)) = Ok b ->
     exists fs, stream_fields schema v os = Some fs /\ b = frame fs /\
       (Writer_Bytes (ops_run os' (New schema' v')) = Ok b -> stream_fields schema' v' os' = Some fs)).
Proof.
  pose proof (stream_spec schema v os Hs Hos) as H. pose proof (stream_spec schema' v' os' Hs' Hos') as H'.
  destruct (stream_fields schema v os) as [fs|].
  - destruct H as [E Hf]. rewrite E. split; [done|]. intros b [= <-]. exists fs. repeat split; [done..|].
    intros E'. destruct (stream_fields schema' v' os') as [gs|].
    + destruct H' as [E2 Hg]. rewrite E2 in E'. injection E' as E'. by rewrite (frame_inj gs fs Hg Hf E').
    + destruct H' as [e E2]. congruence.
  - destruct H as [e E]. rewrite E. split; [split; done|]. discriminate.
Qed.

Lemma canonical_stream_injective_witness :
  let os := [WString "k" "ab"; WString "k" "c"; WSortedStrings "s" ["b"; "a"]]%string in
  exists fs, stream_fields "test" 1 os = Some fs /\
    stream_fields "test" 1 [WString "k" "ab"; WString "k" "c"; WSortedStrings "s" ["a"; "b"]]%string = Some fs.
Proof.
  intros os.
  assert (Hf : Forall op_fits os) by (repeat constructor).
  destruct (canonical_stream_injective "test" 1 os "test" 1
    [WString "k" "ab"; WString "k" "c"; WSortedStrings "s" ["a"; "b"]]%string) as [_ H];
    [reflexivity|reflexivity|exact Hf|repeat constructor|].
  destruct (H _ eq_refl) as (fs & H1 & _ & H2). exists fs. split; [exact H1|]. apply H2. vm_compute. reflexivity.
Defined.

(** * Digests always exist *)

Definition op_encodable (o : op) : Prop :=
  match o with
  | WField t _ | WString t _ | WBool t _ | WInt t _ | WSortedStrings t _ => t <> ""
  | WCount _ _ => True
  | WValue t c => t <> "" /\ c <> None
  | WOptional t present c => t <> "" /\ (present = true -> c <> None)
  end.

Lemma Field_no_error t p w : t <> "" -> w_err w = None -> w_err (Writer_Field t p w) = None.
Proof. intros Ht Hw. unfold Writer_Field. rewrite Hw. by destruct (String.eqb_spec t ""). Qed.

Lemma fields_no_error t vs w : t <> "" -> w_err w = None ->
  w_err (fold_left (fun w v => Writer_String t v w) vs w) = None.
Proof. intros Ht. revert w. induction vs as [|v vs IH]; cbn; intros w Hw; [done|]. apply IH. by apply Field_no_error. Qed.

Lemma op_no_error o w : op_encodable o -> w_err w = None -> w_err (op_run o w) = None.
Proof.
  destruct o as [t p|t v|t b|t v|t n|t c|t b c|t vs]; cbn; intros Ho Hw; try by apply Field_no_error.
  - apply Field_no_error; [apply tag_suffix_ok|done].
  - unfold Writer_Value. rewrite Hw. destruct Ho as [Ht Hc]. destruct c; [by apply Field_no_error|done].
  - destruct Ho as [Ht Hc]. unfold Writer_Optional. rewrite Hw.
    assert (H1 : w_err (Writer_Bool (t +:+ "?") b w) = None) by (apply Field_no_error; [apply tag_suffix_ok|done]).
    destruct b; [|done]. unfold Writer_Value. rewrite H1. specialize (Hc eq_refl). destruct c; [by apply Field_no_error|done].
  - unfold Writer_SortedStrings. rewrite Hw. apply fields_no_error; [done|].
    apply Field_no_error; [apply tag_suffix_ok|done].
Qed.

Lemma ops_no_error os w : Forall op_encodable os -> w_err w = None -> w_err (ops_run os w) = None.
Proof.
  intros Hos. revert w. induction Hos as [|o os Ho _ IH]; intros w Hw; [done|].
  change (ops_run (o :: os) w) with (ops_run os (op_run o w)). apply IH. by apply op_no_error.
Qed.

Lemma New_no_error schema v : schema <> "" -> w_err (New schema v) = None.
Proof.
  intros H. unfold New. destruct (String.eqb_spec schema ""); [done|]. by repeat (apply Field_no_error; [done|]).
Qed.

Section digests.
Context `{SHA : Sha256}.

(** A digest, or the empty string when the stream is in error. *)
Definition digest_or_empty (w : Writer) : string :=
  match Writer_Digest w with Ok digest => digest | _ => EmptyString end.

(** The digest of an encodable stream; it is not blank. *)
Lemma stream_digest schema v os : schema <> "" -> Forall op_encodable os ->
  Writer_Digest (ops_run os (New schema v)) = Ok (Digest (w_buf (ops_run os (New schema v)))).
Proof.
  intros Hs Hos. unfold Writer_Digest, Writer_Bytes.
  by rewrite (ops_no_error os _ Hos (New_no_error schema v Hs)).
Qed.

Lemma Digest_not_blank raw : is_blank (Digest raw) = false.
Proof. reflexivity. Qed.

Lemma stream_digest_or_empty schema v os : schema <> "" -> Forall op_encodable os ->
  digest_or_empty (ops_run os (New schema v)) = Digest (w_buf (ops_run os (New schema v))).
Proof. intros Hs Hos. unfold digest_or_empty. by rewrite stream_digest. Qed.

End digests.
