(* ===== verification/Graphs.v ===== *)
(** Searches of finite graphs, shared by the effect graph and the workflow
    packages: the two forms of depth-first search the suite writes (marking a
    node when it is popped, or when it is pushed), and Kahn's algorithm.  Each
    is characterised without reference to its order of visits. *)

From stdpp Require Import sorting relations.
From S2P Require Import Prelude.

(** * Depth-first search

    The stack is a list whose head is the top, so the successors pushed one
    after the other end up in reverse.  Fuel: the length of the stack and the
    number of edges. *)
Section dfs.
Context {A : Type} `{Countable A} (succ : A -> list A).

(** Marks a node when it leaves the stack. *)
Fixpoint dfs_pop (fuel : nat) (stack : list A) (seen : gset A) : gset A :=
  match fuel, stack with
  | S n, x :: rest =>
      if decide (x ∈ seen) then dfs_pop n rest seen
      else dfs_pop n (rev (succ x) ++ rest) ({[x]} ∪ seen)
  | _, _ => seen
  end.

(** Marks a node when it enters the stack. *)
Fixpoint push_unseen (ys : list A) (stack : list A) (seen : gset A) : list A * gset A :=
  match ys with
  | [] => (stack, seen)
  | y :: ys' =>
      if decide (y ∈ seen) then push_unseen ys' stack seen
      else push_unseen ys' (y :: stack) ({[y]} ∪ seen)
  end.
Fixpoint dfs_push (fuel : nat) (stack : list A) (seen : gset A) : gset A :=
  match fuel, stack with
  | S n, x :: rest =>
      let '(stack', seen') := push_unseen (succ x) rest seen in dfs_push n stack' seen'
  | _, _ => seen
  end.

End dfs.

(** * Kahn's algorithm

    [ins] puts a node that has lost its last predecessor into the queue. *)
Section kahn.
Context {A : Type} `{Countable A} (succ : A -> list A) (ins : A -> list A -> list A).

Definition degree (indeg : gmap A Z) (x : A) : Z := default 0%Z (indeg !! x).

(** [indeg[e.To]++] along the edges. *)
Definition count_in (targets : list A) (indeg : gmap A Z) : gmap A Z :=
  foldl (fun m y => <[y := (degree m y + 1)%Z]> m) indeg targets.

Fixpoint kahn_visit (ys : list A) (indeg : gmap A Z) (q : list A) : gmap A Z * list A :=
  match ys with
  | [] => (indeg, q)
  | y :: ys' =>
      let d := (degree indeg y - 1)%Z in
      kahn_visit ys' (<[y := d]> indeg) (if (d =? 0)%Z then ins y q else q)
  end.
Fixpoint kahn_loop (fuel : nat) (indeg : gmap A Z) (q order : list A) : list A :=
  match fuel, q with
  | S n, x :: q' =>
      let '(indeg', q'') := kahn_visit (succ x) indeg q' in
      kahn_loop n indeg' q'' (order ++ [x])
  | _, _ => order
  end.

End kahn.

(** * Lemmas *)

Lemma elem_of_rev {A} (x : A) l : x ∈ rev l <-> x ∈ l.
Proof. by rewrite !list_elem_of_In, <- in_rev. Qed.

(** The graph of a successor function. *)
Definition step {A} (succ : A -> list A) (x y : A) : Prop := y ∈ succ x.
Definition reachable_from {A} (succ : A -> list A) (from : list A) (y : A) : Prop :=
  exists x, x ∈ from /\ rtc (step succ) x y.

Lemma reachable_closed {A} (succ : A -> list A) from (P : A -> Prop) :
  (forall x, x ∈ from -> P x) -> (forall x y, P x -> y ∈ succ x -> P y) ->
  forall y, reachable_from succ from y -> P y.
Proof.
  intros Hf Hs y (x & Hx & Hr). apply Hf in Hx. clear Hf. induction Hr as [x|x z y Hxz Hr IH]; [done|].
  apply IH. by apply (Hs x).
Qed.

Lemma reachable_start {A} (succ : A -> list A) from x : x ∈ from -> reachable_from succ from x.
Proof. intros Hx. exists x. split; [done|constructor]. Qed.

Lemma reachable_next {A} (succ : A -> list A) from x y :
  reachable_from succ from x -> y ∈ succ x -> reachable_from succ from y.
Proof. intros (s & Hs & Hr) Hy. exists s. split; [done|]. by eapply rtc_r. Qed.

Section dfs_lemmas.
Context {A : Type} `{Countable A} (succ : A -> list A) (es : list (A * A)).
(** The edges leaving a node are those of an edge list. *)
Hypothesis succ_edges : forall x, length (succ x) = length (filter (fun e => e.1 = x) es) /\
  (forall y, y ∈ succ x -> (x, y) ∈ es).

Definition edges_out_of (seen : gset A) : nat := length (filter (fun e => (e.1 ∉ seen)) es).
Definition edges_into (seen : gset A) : nat := length (filter (fun e => (e.2 ∉ seen)) es).

Lemma edges_out_of_mark seen x : (x ∉ seen) ->
  (edges_out_of ({[x]} ∪ seen) + length (succ x) = edges_out_of seen)%nat.
Proof using succ_edges.
  intros Hx. rewrite (proj1 (succ_edges x)). unfold edges_out_of. clear succ_edges.
  induction es as [|[u v] l IH]; [done|]. rewrite !filter_cons; cbn [fst].
  destruct (decide (u = x)) as [->|Hne].
  - rewrite (decide_False (P := (x ∉ {[x]} ∪ seen))) by set_solver. rewrite (decide_True (P := (x ∉ seen))) by done.
    cbn [length]. lia.
  - destruct (decide (u ∉ seen)) as [Hu|Hu].
    + rewrite (decide_True (P := (u ∉ {[x]} ∪ seen))) by set_solver. cbn [length]. lia.
    + rewrite (decide_False (P := (u ∉ {[x]} ∪ seen))) by set_solver. lia.
Qed.

Lemma dfs_pop_spec fuel stack seen : (length stack + edges_out_of seen <= fuel)%nat ->
  (forall x y, x ∈ seen -> y ∈ succ x -> y ∈ seen \/ y ∈ stack) ->
  let r := dfs_pop succ fuel stack seen in
  seen ⊆ r /\ (forall x, x ∈ stack -> x ∈ r) /\ (forall x y, x ∈ r -> y ∈ succ x -> y ∈ r) /\
  (forall x, x ∈ r -> x ∈ seen \/ reachable_from succ stack x).
Proof using succ_edges.
  revert stack seen. induction fuel as [|n IH]; intros stack seen Hf Hc; cbn [dfs_pop].
  { destruct stack; [|cbn in Hf; lia]. split_and!; [done|by intros x Hx%elem_of_nil| |by left].
    intros x y Hx Hy. destruct (Hc x y Hx Hy) as [|Hn]; [done|by apply elem_of_nil in Hn]. }
  destruct stack as [|x rest].
  { split_and!; [done|by intros x Hx%elem_of_nil| |by left]. intros x y Hx Hy. destruct (Hc x y Hx Hy) as [|Hn]; [done|by apply elem_of_nil in Hn]. }
  destruct (decide (x ∈ seen)) as [Hx|Hx].
  - cbn [length] in Hf. destruct (IH rest seen ltac:(lia)) as (R1 & R2 & R3 & R4).
    { intros u v Hu Hv. destruct (Hc u v Hu Hv) as [|[->|]%elem_of_cons]; auto. }
    cbv zeta in *. split_and!; [done| |done|].
    + intros y [->|Hy]%elem_of_cons; [by apply R1|auto].
    + intros y Hy. destruct (R4 y Hy) as [|(s & Hs & Hr)]; [by left|right]. exists s. split; [by right|done].
  - cbn [length] in Hf. pose proof (edges_out_of_mark seen x Hx) as Hm.
    destruct (IH (rev (succ x) ++ rest) ({[x]} ∪ seen)) as (R1 & R2 & R3 & R4).
    { rewrite length_app, length_rev. lia. }
    { intros u v Hu Hv. rewrite elem_of_union, elem_of_singleton in Hu. rewrite elem_of_app, elem_of_rev.
      destruct Hu as [->|Hu]; [auto|]. destruct (Hc u v Hu Hv) as [|[->|]%elem_of_cons]; [set_solver..|auto]. }
    cbv zeta in *. split_and!; [set_solver| |done|].
    + intros y [->|Hy]%elem_of_cons; [set_solver|]. apply R2, elem_of_app. auto.
    + intros y Hy. assert (Hxr : reachable_from succ (x :: rest) x) by (apply reachable_start; left).
      destruct (R4 y Hy) as [Hy'|(s & Hs & Hr)]; [rewrite elem_of_union, elem_of_singleton in Hy'; destruct Hy' as [->|]; auto|].
      right. rewrite elem_of_app, elem_of_rev in Hs.
      destruct Hs as [Hs|Hs]; [exists x; split; [left|by eapply rtc_l]|exists s; split; [by right|done]].
Qed.

(** The set found by marking on pop is the set reachable from the stack. *)
Lemma dfs_pop_exact fuel stack x : (length stack + length es <= fuel)%nat ->
  x ∈ dfs_pop succ fuel stack ∅ <-> reachable_from succ stack x.
Proof using succ_edges.
  intros Hf. destruct (dfs_pop_spec fuel stack ∅) as (_ & R2 & R3 & R4).
  { etrans; [|exact Hf]. apply Nat.add_le_mono_l, length_filter. }
  { set_solver. }
  split; [intros Hx; destruct (R4 x Hx); [set_solver|done]|].
  by apply (reachable_closed succ stack (fun y => y ∈ dfs_pop succ fuel stack ∅)).
Qed.

Lemma edges_into_mark seen x : (x ∉ seen) -> x ∈ snd <$> es ->
  (edges_into ({[x]} ∪ seen) < edges_into seen)%nat.
Proof using.
  intros Hx (e & -> & He)%list_elem_of_fmap. unfold edges_into. clear succ_edges.
  assert (Hle : forall l, (length (filter (fun d : A * A => (d.2 ∉ {[e.2]} ∪ seen)) l)
                 <= length (filter (fun d : A * A => (d.2 ∉ seen)) l))%nat).
  { intros l. induction l as [|d l IH]; [done|]. rewrite !filter_cons.
    destruct (decide (d.2 ∉ {[e.2]} ∪ seen)) as [Hd|Hd].
    - rewrite (decide_True (P := (d.2 ∉ seen))) by set_solver. cbn [length]. lia.
    - case_decide; cbn [length]; lia. }
  induction es as [|d l IH]; [by apply elem_of_nil in He|]. rewrite !filter_cons.
  apply elem_of_cons in He as [<-|He].
  - rewrite (decide_False (P := (e.2 ∉ {[e.2]} ∪ seen))) by set_solver. rewrite (decide_True (P := (e.2 ∉ seen))) by done.
    cbn [length]. specialize (Hle l). lia.
  - specialize (IH He). destruct (decide (d.2 ∉ {[e.2]} ∪ seen)) as [Hd|Hd].
    + rewrite (decide_True (P := (d.2 ∉ seen))) by set_solver. cbn [length]. lia.
    + case_decide; cbn [length]; lia.
Qed.

Lemma push_unseen_spec ys stack seen :
  let '(stack', seen') := push_unseen ys stack seen in
  exists new, stack' = new ++ stack /\ (forall y, y ∈ seen' <-> y ∈ seen \/ y ∈ new) /\
    (forall y, y ∈ ys -> y ∈ seen') /\ (forall y, y ∈ new -> y ∈ ys) /\
    ((forall y, y ∈ ys -> y ∈ snd <$> es) -> (length new + edges_into seen' <= edges_into seen)%nat).
Proof using succ.
  clear succ_edges. revert stack seen. induction ys as [|y ys IH]; intros stack seen; cbn [push_unseen].
  { exists []. split_and!; [done|set_solver|set_solver|set_solver|cbn; lia]. }
  destruct (decide (y ∈ seen)) as [Hy|Hy].
  - specialize (IH stack seen). destruct (push_unseen _ _ _) as [st se]. destruct IH as (new & -> & I1 & I2 & I3 & I4).
    exists new. split_and!; [done|done|set_solver|set_solver|]. intros Hin. apply I4. set_solver.
  - specialize (IH (y :: stack) ({[y]} ∪ seen)). destruct (push_unseen _ _ _) as [st se].
    destruct IH as (new & -> & I1 & I2 & I3 & I4).
    exists (new ++ [y]). rewrite <- app_assoc. split_and!; [done|set_solver|set_solver|set_solver|].
    intros Hin. specialize (I4 ltac:(set_solver)). rewrite length_app. cbn [length].
    pose proof (edges_into_mark seen y Hy ltac:(set_solver)). lia.
Qed.

Lemma dfs_push_spec fuel stack seen : (length stack + edges_into seen <= fuel)%nat ->
  (forall x, x ∈ stack -> x ∈ seen) ->
  (forall x y, x ∈ seen -> y ∈ succ x -> x ∈ stack \/ y ∈ seen) ->
  let r := dfs_push succ fuel stack seen in
  seen ⊆ r /\ (forall x y, x ∈ r -> y ∈ succ x -> y ∈ r) /\
  (forall x, x ∈ r -> x ∈ seen \/ reachable_from succ stack x).
Proof using succ_edges.
  revert stack seen. induction fuel as [|n IH]; intros stack seen Hf Hst Hc; cbn [dfs_push].
  { destruct stack; [|cbn in Hf; lia]. split_and!; [done| |by left].
    intros x y Hx Hy. destruct (Hc x y Hx Hy) as [Hn|]; [by apply elem_of_nil in Hn|done]. }
  destruct stack as [|x rest].
  { split_and!; [done| |by left]. intros x y Hx Hy. destruct (Hc x y Hx Hy) as [Hn|]; [by apply elem_of_nil in Hn|done]. }
  cbn [length] in Hf. pose proof (push_unseen_spec (succ x) rest seen) as Hp.
  destruct (push_unseen _ _ _) as [st se]. destruct Hp as (new & -> & P1 & P2 & P3 & P4).
  assert (Hin : forall y, y ∈ succ x -> y ∈ snd <$> es).
  { intros y Hy. apply list_elem_of_fmap. exists (x, y). split; [done|]. by apply succ_edges. }
  specialize (P4 Hin).
  destruct (IH (new ++ rest) se) as (R1 & R2 & R3).
  { rewrite length_app. lia. }
  { intros y [Hy|Hy]%elem_of_app; apply P1; [by right|left]. apply Hst. by right. }
  { intros u v Hu Hv. rewrite elem_of_app. apply P1 in Hu as [Hu|Hu]; [|by left; left].
    destruct (Hc u v Hu Hv) as [[->|Hr]%elem_of_cons|Hs]; [right; by apply P2|by left; right|right; apply P1; by left]. }
  cbv zeta in *. split_and!; [|done|].
  - intros y Hy. apply R1, P1. by left.
  - intros y Hy. destruct (R3 y Hy) as [Hs|(s & Hs & Hr)].
    + apply P1 in Hs as [|Hs]; [by left|right]. eapply reachable_next; [apply reachable_start; left|by apply P3].
    + right. apply elem_of_app in Hs as [Hs|Hs]; [exists x; split; [left|]; eapply rtc_l; [by apply P3|done]|].
      exists s. split; [by right|done].
Qed.

(** The set found by marking on push is the set reachable from the start. *)
Lemma dfs_push_exact fuel from x : (length from + length es <= fuel)%nat ->
  x ∈ dfs_push succ fuel from (list_to_set from) <-> reachable_from succ from x.
Proof using succ_edges.
  intros Hf. destruct (dfs_push_spec fuel from (list_to_set from)) as (R1 & R2 & R3).
  { etrans; [|exact Hf]. apply Nat.add_le_mono_l, length_filter. }
  { intros y Hy. by apply elem_of_list_to_set. }
  { intros y z Hy _. left. by apply elem_of_list_to_set in Hy. }
  cbv zeta in *. split.
  - intros Hx. destruct (R3 x Hx) as [Hs|]; [|done]. apply reachable_start. by apply elem_of_list_to_set in Hs.
  - apply (reachable_closed succ from (fun y => y ∈ dfs_push succ fuel from (list_to_set from))); [|done].
    intros y Hy. by apply R1, elem_of_list_to_set.
Qed.

End dfs_lemmas.

(** ** Cycles *)

Lemma StronglySorted_dup {A} `{EqDecision A} (R : A -> A -> Prop) l :
  StronglySorted R l -> NoDup l \/ exists x, x ∈ l /\ R x x.
Proof.
  induction 1 as [|x l Hs IH Hall]; [left; constructor|].
  destruct (decide (x ∈ l)) as [Hx|Hx].
  - right. exists x. split; [left|]. rewrite Forall_forall in Hall. by apply Hall.
  - destruct IH as [IH|(y & Hy & Hr)]; [left; by constructor|right]. exists y. split; [by right|done].
Qed.

(** A finite set in which everything has a predecessor holds a cycle. *)
Lemma pred_cycle {A} `{EqDecision A} (R : A -> A -> Prop) (S : list A) :
  S <> [] -> (forall v, v ∈ S -> exists u, u ∈ S /\ R u v) -> exists x, x ∈ S /\ tc R x x.
Proof.
  intros Hne Hp.
  assert (Hchain : forall n, exists l, length l = Datatypes.S n /\ l ⊆ S /\ StronglySorted (tc R) l).
  { induction n as [|n (l & Hl & Hin & Hs)].
    - destruct S as [|x S]; [done|]. exists [x]. split_and!; [done|set_solver|repeat constructor].
    - destruct l as [|h t]; [done|]. destruct (Hp h) as (u & Hu & Hr); [set_solver|].
      exists (u :: h :: t). split_and!; [cbn in *; lia|set_solver|]. constructor; [done|].
      apply StronglySorted_inv in Hs as [_ Hall]. constructor; [by apply tc_once|].
      eapply Forall_impl; [exact Hall|]. intros y Hy. by eapply tc_l. }
  destruct (Hchain (length S)) as (l & Hl & Hin & Hs).
  destruct (StronglySorted_dup _ _ Hs) as [Hnd|(x & Hx & Hr)].
  - pose proof (submseteq_length l S (NoDup_submseteq l S Hnd Hin)). lia.
  - exists x. split; [by apply Hin|done].
Qed.

(** ** Kahn's algorithm *)

Section kahn_lemmas.
Context {A : Type} `{Countable A} (succ : A -> list A) (ins : A -> list A -> list A) (V : list A).
Hypothesis ins_perm : forall x q, ins x q ≡ₚ x :: q.
Hypothesis V_nodup : NoDup V.
Hypothesis V_closed : forall x y, x ∈ V -> y ∈ succ x -> y ∈ V.

Definition occ (v : A) (l : list A) : nat := length (filter (fun x => x = v) l).

Lemma occ_cons v x l : occ v (x :: l) = ((if decide (x = v) then 1 else 0) + occ v l)%nat.
Proof. unfold occ. rewrite filter_cons. case_decide; cbn [length]; lia. Qed.

Lemma occ_app v l k : occ v (l ++ k) = (occ v l + occ v k)%nat.
Proof. unfold occ. by rewrite filter_app, length_app. Qed.

Lemma occ_zero v l : occ v l = 0%nat <-> (v ∉ l).
Proof.
  unfold occ. rewrite length_zero_iff_nil. split.
  - intros Hn Hv. assert (v ∈ filter (fun x => x = v) l) as Hf by (by apply list_elem_of_filter). rewrite Hn in Hf. by apply elem_of_nil in Hf.
  - intros Hv. destruct (filter _ l) as [|x k] eqn:E; [done|]. exfalso. apply Hv.
    assert (x ∈ filter (fun x => x = v) l) as [-> Hx]%list_elem_of_filter by (rewrite E; left). done.
Qed.

Lemma filter_ext_in (P Q : A -> Prop) `{forall x, Decision (P x)} `{forall x, Decision (Q x)} (l : list A) :
  (forall x, x ∈ l -> P x <-> Q x) -> filter P l = filter Q l.
Proof using.
  induction l as [|x l IH]; intros HPQ; [done|]. rewrite !filter_cons. rewrite IH by (intros; apply HPQ; by right).
  assert (P x <-> Q x) by (apply HPQ; left). case_decide; case_decide; tauto.
Qed.

(** The edges into [v] from the nodes of [V] not yet in the order. *)
Definition pending (order : list A) (v : A) : nat :=
  sum_list_with (fun u => occ v (succ u)) (filter (fun u => (u ∉ order)) V).

Lemma pending_zero order v : pending order v = 0%nat <-> (forall u, u ∈ V -> v ∈ succ u -> u ∈ order).
Proof using.
  unfold pending. split.
  - intros Hz u Hu Hv. destruct (decide (u ∈ order)) as [|Hn]; [done|exfalso].
    assert (occ v (succ u) <= 0)%nat as Ho.
    { rewrite <- Hz. apply (sum_list_with_in u (fun u => occ v (succ u))). by apply list_elem_of_filter. }
    assert (occ v (succ u) = 0%nat) as Ho0 by lia. by apply occ_zero in Ho0.
  - intros Hall. clear V_nodup V_closed. induction V as [|u l IH]; [done|]. rewrite filter_cons. case_decide as Hu.
    + cbn. rewrite IH; [|intros; apply Hall; [by right|done]]. assert (occ v (succ u) = 0%nat) as ->; [|done].
      apply occ_zero. intros Hv. apply Hu, Hall; [left|done].
    + apply IH. intros; apply Hall; [by right|done].
Qed.

Lemma pending_mark order x v : x ∈ V -> (x ∉ order) ->
  (pending (order ++ [x]) v + occ v (succ x) = pending order v)%nat.
Proof using V_nodup.
  intros Hx Ho. unfold pending. clear V_closed ins_perm ins. revert V_nodup Hx. induction V as [|u l IH]; intros Hnd Hx; [by apply elem_of_nil in Hx|].
  apply NoDup_cons in Hnd as [Hu Hnd]. rewrite !filter_cons. apply elem_of_cons in Hx as [<-|Hx].
  - rewrite (decide_False (P := (x ∉ order ++ [x]))) by set_solver. rewrite (decide_True (P := (x ∉ order))) by done.
    cbn. replace (filter (fun u => (u ∉ order ++ [x])) l) with (filter (fun u => (u ∉ order)) l); [lia|].
    apply filter_ext_in. intros w Hw. assert (w <> x) by (by intros ->). set_solver.
  - specialize (IH Hnd Hx). destruct (decide (u ∉ order)) as [Hd|Hd].
    + rewrite (decide_True (P := (u ∉ order ++ [x]))) by set_solver. cbn. lia.
    + rewrite (decide_False (P := (u ∉ order ++ [x]))) by set_solver. lia.
Qed.

(** The invariant of the loop; [rest] are the edges of the last node of the
    order that are still to be counted down. *)
Record kahn_inv (rest : list A) (indeg : gmap A Z) (q order : list A) : Prop := {
  ki_nodup : NoDup (order ++ q);
  ki_in : forall x, x ∈ order ++ q -> x ∈ V;
  ki_degree : forall v, v ∈ V -> degree indeg v = Z.of_nat (pending order v + occ v rest);
  ki_free : forall v, v ∈ V -> v ∈ order ++ q <-> degree indeg v = 0%Z;
  ki_before : forall o1 v o2, order = o1 ++ v :: o2 -> forall u, u ∈ V -> v ∈ succ u -> u ∈ o1
}.

Lemma degree_insert (m : gmap A Z) x d y : degree (<[x := d]> m) y = if decide (x = y) then d else degree m y.
Proof. unfold degree. rewrite lookup_insert. by case_decide. Qed.

Lemma kahn_visit_inv ys indeg q order : (forall y, y ∈ ys -> y ∈ V) -> kahn_inv ys indeg q order ->
  let '(indeg', q') := kahn_visit ins ys indeg q in kahn_inv [] indeg' q' order.
Proof using ins_perm V_nodup V_closed.
  revert indeg q. induction ys as [|y ys IH]; intros indeg q Hin Hk; cbn [kahn_visit]; [done|].
  assert (Hy : y ∈ V) by (apply Hin; left).
  assert (Hd : degree indeg y = (Z.of_nat (pending order y + occ y ys) + 1)%Z).
  { rewrite (ki_degree _ _ _ _ Hk y Hy), occ_cons, decide_True by done. lia. }
  assert (Hnew : (y ∉ order ++ q)). { rewrite (ki_free _ _ _ _ Hk y Hy). lia. }
  apply IH; [intros z Hz; apply Hin; by right|].
  set (q' := if (degree indeg y - 1 =? 0)%Z then ins y q else q).
  assert (Hq' : forall v, v ∈ order ++ q' <-> v ∈ order ++ q \/ (v = y /\ degree indeg y = 1%Z)).
  { intros v. unfold q'. rewrite !elem_of_app. destruct (Z.eqb_spec (degree indeg y - 1) 0).
    - rewrite ins_perm, elem_of_cons. split; [|]; intuition lia.
    - intuition lia. }
  constructor.
  - unfold q'. destruct (Z.eqb_spec (degree indeg y - 1) 0); [|apply Hk]. rewrite ins_perm.
    rewrite (Permutation_app_comm order (y :: q)). cbn. constructor; [set_solver|]. rewrite (Permutation_app_comm q order). apply Hk.
  - intros x [Hx|[-> _]]%Hq'; [by apply Hk|done].
  - intros v Hv. rewrite degree_insert. case_decide as E; [subst v; lia|].
    rewrite (ki_degree _ _ _ _ Hk v Hv), occ_cons, decide_False by done. lia.
  - intros v Hv. rewrite Hq', degree_insert. case_decide as E; [subst v; split|].
    + intros [|[_ Ho]]; [done|lia].
    + intros Hz. right. split; [done|lia].
    + rewrite (ki_free _ _ _ _ Hk v Hv). split; [intros [|[-> _]]; done|by left].
  - apply Hk.
Qed.

Lemma kahn_pop_inv indeg x q order : kahn_inv [] indeg (x :: q) order -> kahn_inv (succ x) indeg q (order ++ [x]).
Proof using ins_perm V_nodup V_closed.
  intros Hk. assert (Hx : x ∈ V) by (apply (ki_in _ _ _ _ Hk); set_solver).
  assert (Hxo : (x ∉ order)).
  { pose proof (ki_nodup _ _ _ _ Hk) as Hnd. apply NoDup_app in Hnd as (_ & Hd & _). intros Ho. apply (Hd x Ho). left. }
  assert (Eq : (order ++ [x]) ++ q = order ++ x :: q) by (by rewrite <- app_assoc).
  constructor; rewrite ?Eq; try apply Hk.
  - intros v Hv. rewrite pending_mark by done. rewrite (ki_degree _ _ _ _ Hk v Hv). unfold occ. cbn. lia.
  - intros o1 v o2 E u Hu Hv. destruct o2 as [|z o2 _] using rev_ind.
    + apply app_inj_tail in E as [<- <-]. assert (degree indeg x = 0%Z) as Hz.
      { apply (ki_free _ _ _ _ Hk x Hx). set_solver. }
      rewrite (ki_degree _ _ _ _ Hk x Hx) in Hz. by apply (pending_zero order x); [lia|..].
    + rewrite app_comm_cons, app_assoc in E. apply app_inj_tail in E as [E _]. by eapply (ki_before _ _ _ _ Hk).
Qed.

(** What the loop returns: everything that can be ordered, in order. *)
Record kahn_result (order : list A) : Prop := {
  kr_nodup : NoDup order;
  kr_in : forall x, x ∈ order -> x ∈ V;
  kr_before : forall o1 v o2, order = o1 ++ v :: o2 -> forall u, u ∈ V -> v ∈ succ u -> u ∈ o1;
  kr_stuck : forall v, v ∈ V -> (v ∉ order) -> exists u, u ∈ V /\ (u ∉ order) /\ v ∈ succ u
}.

Lemma kahn_done indeg order : kahn_inv [] indeg [] order -> kahn_result order.
Proof using.
  intros Hk. constructor.
  - rewrite <- (app_nil_r order). apply Hk.
  - intros x Hx. apply (ki_in _ _ _ _ Hk). by rewrite app_nil_r.
  - apply Hk.
  - intros v Hv Ho. rewrite <- (app_nil_r order) in Ho. rewrite (ki_free _ _ _ _ Hk v Hv), (ki_degree _ _ _ _ Hk v Hv) in Ho.
    destruct (decide (Exists (fun u => (u ∉ order) /\ v ∈ succ u) V)) as [He|Hn].
    + apply Exists_exists in He as (u & Hu & Hno & Hs). eauto.
    + exfalso. apply Ho. assert (pending order v = 0%nat) as ->; [|done]. apply pending_zero. intros u Hu Hs.
      destruct (decide (u ∈ order)); [done|]. exfalso. apply Hn, Exists_exists. eauto.
Qed.

Lemma kahn_loop_result fuel indeg q order : (length V <= fuel + length order)%nat ->
  kahn_inv [] indeg q order -> kahn_result (kahn_loop succ ins fuel indeg q order).
Proof using ins_perm V_nodup V_closed.
  revert indeg q order. induction fuel as [|n IH]; intros indeg q order Hf Hk; cbn [kahn_loop].
  - assert (q = []) as ->.
    { pose proof (submseteq_length _ _ (NoDup_submseteq _ V (ki_nodup _ _ _ _ Hk) (ki_in _ _ _ _ Hk))) as Hl.
      rewrite length_app in Hl. destruct q; [done|cbn in Hl; lia]. }
    by apply (kahn_done indeg).
  - destruct q as [|x q]; [by apply (kahn_done indeg)|].
    pose proof (kahn_visit_inv (succ x) indeg q (order ++ [x])) as Hv. destruct (kahn_visit _ _ _ _) as [indeg' q'].
    apply IH; [rewrite length_app; cbn; lia|]. apply Hv; [|by apply kahn_pop_inv].
    intros y Hy. eapply V_closed; [|exact Hy]. apply (ki_in _ _ _ _ Hk). set_solver.
Qed.

(** The start of the loop: every node without a predecessor is queued. *)
Lemma kahn_start indeg q :
  (forall v, v ∈ V -> degree indeg v = Z.of_nat (pending [] v)) ->
  q ≡ₚ filter (fun v => degree indeg v = 0%Z) V -> kahn_inv [] indeg q [].
Proof using V_nodup.
  intros Hd Hq. constructor; cbn [app].
  - rewrite Hq. by apply NoDup_filter.
  - intros x. rewrite Hq, list_elem_of_filter. tauto.
  - intros v Hv. rewrite (Hd v Hv). unfold occ. cbn. lia.
  - intros v Hv. rewrite Hq, list_elem_of_filter. tauto.
  - intros o1 v o2 E. by destruct o1.
Qed.

(** When a node is left out, there is a cycle. *)
Lemma kahn_stuck_cycle order : kahn_result order -> length order <> length V ->
  exists x, x ∈ V /\ tc (step succ) x x.
Proof using V_nodup EqDecision0.
  intros [Hnd Hin _ Hst] Hlen.
  destruct (pred_cycle (step succ) (filter (fun v => (v ∉ order)) V)) as (x & Hx & Hc).
  - intros E. apply Hlen, Permutation_length, (anti_symm submseteq); apply NoDup_submseteq; [done|done|done|].
    intros v Hv. destruct (decide (v ∈ order)) as [|Hn]; [done|].
    assert (v ∈ filter (fun v => (v ∉ order)) V) as Hf by (by apply list_elem_of_filter). rewrite E in Hf. by apply elem_of_nil in Hf.
  - intros v (Hv & HvV)%list_elem_of_filter. destruct (Hst v HvV Hv) as (u & Hu & Huo & Hs).
    exists u. split; [by apply list_elem_of_filter|done].
  - apply list_elem_of_filter in Hx as [_ Hx]. eauto.
Qed.

(** A node is left out exactly when the graph has a cycle. *)
Lemma kahn_complete order : kahn_result order ->
  (length order = length V <-> ~ exists x, x ∈ V /\ tc (step succ) x x).
Proof using V_nodup V_closed EqDecision0.
  intros [Hnd Hin Hbef Hst].
  pose proof (NoDup_submseteq _ V Hnd Hin) as Hsub. split.
  - intros Hlen (x & Hx & Hc).
    assert (HP : order ≡ₚ V) by (apply submseteq_length_Permutation; [done|lia]).
    assert (Hpre : forall y, tc (step succ) y x -> forall o1 o2, order = o1 ++ x :: o2 -> y ∈ V -> y ∈ o1).
    { intros y Hy o1 o2 E. clear Hc HP. revert o1 o2 E.
      induction Hy as [y x Hyx|y z x Hyz Hzx IH]; intros o1 o2 E HyV; [by eapply Hbef|].
      assert (Hz : z ∈ o1) by (eapply (IH Hx); [exact E|by eapply V_closed]).
      apply list_elem_of_split in Hz as (p1 & p2 & ->). rewrite <- app_assoc in E. cbn in E.
      apply elem_of_app. left. by eapply Hbef. }
    assert (Ho : x ∈ order) by (by rewrite HP). apply list_elem_of_split in Ho as (o1 & o2 & E).
    pose proof (Hpre x Hc o1 o2 E Hx) as Hxo. rewrite E in Hnd. apply NoDup_app in Hnd as (_ & Hd & _).
    apply (Hd x Hxo). left.
  - intros Hno. destruct (decide (length order = length V)) as [|Hlen]; [done|]. by destruct Hno; apply kahn_stuck_cycle with (order := order).
Qed.

(** At every position stands the least, by [R], of the nodes not yet ordered
    whose predecessors are. *)
Definition least_first (R : A -> A -> Prop) (order : list A) : Prop :=
  forall o1 v o2, order = o1 ++ v :: o2 -> forall w, w ∈ V -> (w ∉ o1) -> (forall u, u ∈ V -> w ∈ succ u -> u ∈ o1) -> R v w.

Lemma kahn_visit_sorted (R : A -> A -> Prop) ys : (forall x q, StronglySorted R q -> StronglySorted R (ins x q)) ->
  forall indeg q, StronglySorted R q -> StronglySorted R (kahn_visit ins ys indeg q).2.
Proof using.
  intros Hins. induction ys as [|y ys IH]; intros indeg q Hq; cbn [kahn_visit]; [done|]. apply IH. destruct (_ =? 0)%Z; [by apply Hins|done].
Qed.

(** A queue kept sorted makes the loop choose the least. *)
Lemma kahn_loop_least (R : A -> A -> Prop) fuel : (forall x, R x x) -> (forall x q, StronglySorted R q -> StronglySorted R (ins x q)) ->
  forall indeg q order, kahn_inv [] indeg q order -> StronglySorted R q -> least_first R order ->
  least_first R (kahn_loop succ ins fuel indeg q order).
Proof using ins_perm V_nodup V_closed.
  intros Hrefl Hins. induction fuel as [|n IH]; intros indeg q order Hk Hq Hl; cbn [kahn_loop]; [done|].
  destruct q as [|x q]; [done|]. pose proof (kahn_visit_inv (succ x) indeg q (order ++ [x])) as Hv.
  apply StronglySorted_inv in Hq as [Hq Hx]. pose proof (kahn_visit_sorted R (succ x) Hins indeg q Hq) as Hs.
  destruct (kahn_visit _ _ _ _) as [indeg' q'] eqn:Ev. cbn [snd] in Hs.
  assert (HxV : x ∈ V) by (apply (ki_in _ _ _ _ Hk); set_solver).
  apply IH; [|done|].
  - apply Hv; [|by apply kahn_pop_inv]. intros y Hy. by eapply V_closed.
  - intros o1 v o2 E w Hw Hwo Hfree. destruct o2 as [|z o2 _] using rev_ind.
    + apply app_inj_tail in E as [<- <-].
      assert (Hq0 : w ∈ order ++ x :: q).
      { apply (ki_free _ _ _ _ Hk w Hw). rewrite (ki_degree _ _ _ _ Hk w Hw). unfold occ. cbn.
        rewrite (proj2 (pending_zero order w) Hfree). done. }
      apply elem_of_app in Hq0 as [?|[-> |Hwq]%elem_of_cons]; [done|apply Hrefl|]. rewrite Forall_forall in Hx. by apply Hx.
    + rewrite app_comm_cons, app_assoc in E. apply app_inj_tail in E as [E _]. by eapply Hl.
Qed.

End kahn_lemmas.

Lemma count_in_degree {A} `{Countable A} (targets : list A) m v :
  degree (count_in targets m) v = (degree m v + Z.of_nat (occ v targets))%Z.
Proof.
  unfold count_in. revert m. induction targets as [|y l IH]; intros m; cbn [foldl].
  - unfold occ. cbn. lia.
  - rewrite IH, degree_insert, occ_cons. case_decide; [subst|]; lia.
Qed.

(** The edges of a graph are counted once each at their source. *)
Lemma pending_edges {A} `{Countable A} (succ : A -> list A) (V : list A) (es : list (A * A)) v :
  NoDup V -> (forall u, u ∈ V -> succ u ≡ₚ snd <$> filter (fun e => e.1 = u) es) ->
  (forall e, e ∈ es -> e.1 ∈ V) -> pending succ V [] v = occ v (snd <$> es).
Proof.
  intros Hnd Hs Hin. unfold pending.
  rewrite (filter_ext_in _ (fun _ => True)) by set_solver.
  assert (Hf : forall l : list A, filter (fun _ => True) l = l).
  { induction l as [|x l IH]; [done|]. by rewrite filter_cons_True, IH. }
  rewrite Hf. clear Hf.
  assert (Ho : forall u, u ∈ V -> occ v (succ u) = occ v (snd <$> filter (fun e => e.1 = u) es)).
  { intros u Hu. unfold occ. by rewrite (Hs u Hu). }
  assert (Hsum : sum_list_with (fun u => occ v (succ u)) V
                 = sum_list_with (fun u => occ v (snd <$> filter (fun e => e.1 = u) es)) V).
  { clear Hnd Hs Hin. induction V as [|u l IH]; [done|]. cbn. rewrite Ho by left. rewrite IH; [done|]. intros; apply Ho; by right. }
  rewrite Hsum. clear Hsum Ho Hs. induction es as [|[a b] l IH]; cbn [fmap list_fmap].
  - clear. induction V as [|u l IH]; [done|]. cbn in *. done.
  - rewrite occ_cons, <- IH by (intros; apply Hin; by right). cbn [snd].
    assert (Ha : a ∈ V) by (apply (Hin (a, b)); left). clear IH Hin. revert Hnd Ha.
    induction V as [|u k IH]; intros Hnd Ha; [by apply elem_of_nil in Ha|]. apply NoDup_cons in Hnd as [Hu Hnd].
    cbn [sum_list_with]. rewrite filter_cons. cbn [fst]. apply elem_of_cons in Ha as [<-|Ha].
    + rewrite decide_True by done. cbn [fmap list_fmap snd]. rewrite occ_cons.
      replace (sum_list_with (fun u => occ v (snd <$> filter (fun e => e.1 = u) ((a, b) :: l))) k)
        with (sum_list_with (fun u => occ v (snd <$> filter (fun e => e.1 = u) l)) k); [lia|].
      clear IH Hnd. induction k as [|w k IHk]; [done|]. cbn [sum_list_with]. rewrite filter_cons. cbn [fst].
      rewrite (decide_False (P := (a = w))) by set_solver. rewrite IHk by set_solver. done.
    + rewrite (decide_False (P := (a = u))) by congruence. rewrite IH by done. lia.
Qed.
