(* ===== verification/EffectGraph.v ===== *)
(** The dependency graph of external effects: [internal/effectgraph/graph.go].
    [Compile] validates the nodes, merges prerequisites with explicit edges,
    refuses incompatible orderings and cycles, and orders the effects; [Verify]
    compiles again and compares digests.  The text of a diagnostic is not
    modelled, its code and node are. *)

From stdpp Require Import sorting relations.
From S2P Require Import Prelude Sorting Graphs.

Local Open Scope Z_scope.

Definition OrderingClass : Type := string.
Definition Strict : OrderingClass := "STRICT".
Definition Commutative : OrderingClass := "COMMUTATIVE".
Definition Independent : OrderingClass := "INDEPENDENT".
Definition ProviderConditional : OrderingClass := "PROVIDER_CONDITIONAL".

Record ObservationContract : Type := mkObservation { o_Required : bool; o_Profile : string }.

Record EffectNode : Type := mkEffect {
  n_ID : string;
  n_ProposalRef : string;
  n_TransactionRef : string;
  n_CapabilityRef : string;
  n_Prerequisites : list string;
  n_ResourceKey : string;
  n_OrderingKey : string;
  n_ExpectedVersion : string;
  n_Ordering : OrderingClass;
  n_IdempotencyKey : string;
  n_Critical : bool;
  n_Irreversible : bool;
  n_DispatchCondition : string;
  n_Observation : ObservationContract;
  n_Deadline : string;
  n_FailurePolicy : string;
  n_CompensationPolicy : string;
  n_RepairPolicy : string;
  n_TerminalContribution : string
}.

Record Edge : Type := mkEdge { e_From : string; e_To : string }.
#[export] Instance Edge_eq_dec : EqDecision Edge.
Proof. solve_decision. Defined.

Record Graph : Type := mkGraph { g_Nodes : list EffectNode; g_Edges : list Edge }.

Record Diagnostic : Type := mkDiagnostic { d_NodeID : string; d_Code : string }.

Inductive sentinel : Type := ErrInvalidGraph | ErrCycle.
Definition Diagnostic_Unwrap (d : Diagnostic) : sentinel :=
  if String.eqb (d_Code d) "CYCLE" then ErrCycle else ErrInvalidGraph.

Record CompiledGraph : Type := mkCompiled {
  c_Nodes : list EffectNode;
  c_Edges : list Edge;
  c_Order : list string;
  c_Digest : string
}.

Definition empty (s : string) : bool := String.eqb s "".

Definition validOrdering (o : OrderingClass) : bool :=
  String.eqb o Strict || String.eqb o Commutative || String.eqb o Independent || String.eqb o ProviderConditional.

(** One turn of the validation loop: the ids and idempotency keys seen so far. *)
Definition check_node (ids : gset string) (idempotency : gmap string string) (n : EffectNode)
    : outcome Diagnostic (gset string * gmap string string) :=
  _ ← fail_if (empty (n_ID n)) (mkDiagnostic "" "MISSING_NODE_ID");
  _ ← fail_if (bool_decide (n_ID n ∈ ids)) (mkDiagnostic (n_ID n) "DUPLICATE_NODE");
  _ ← fail_if (empty (n_ProposalRef n) || empty (n_TransactionRef n) || empty (n_CapabilityRef n))
        (mkDiagnostic (n_ID n) "MISSING_LINEAGE");
  _ ← fail_if (empty (n_ResourceKey n)) (mkDiagnostic (n_ID n) "MISSING_RESOURCE_KEY");
  _ ← fail_if (empty (n_IdempotencyKey n)) (mkDiagnostic (n_ID n) "MISSING_IDEMPOTENCY");
  _ ← fail_if (bool_decide (is_Some (idempotency !! n_IdempotencyKey n)))
        (mkDiagnostic (n_ID n) "DUPLICATE_EFFECT_KEY");
  _ ← fail_if (empty (n_DispatchCondition n) || empty (n_Deadline n) || empty (n_FailurePolicy n)
               || empty (n_CompensationPolicy n) || empty (n_RepairPolicy n) || empty (n_TerminalContribution n))
        (mkDiagnostic (n_ID n) "INCOMPLETE_POLICY");
  _ ← fail_if (negb (validOrdering (n_Ordering n))) (mkDiagnostic (n_ID n) "INVALID_ORDERING");
  _ ← fail_if (String.eqb (n_Ordering n) Strict && empty (n_OrderingKey n))
        (mkDiagnostic (n_ID n) "MISSING_ORDERING_KEY");
  _ ← fail_if (String.eqb (n_Ordering n) ProviderConditional && (empty (n_OrderingKey n) || empty (n_ExpectedVersion n)))
        (mkDiagnostic (n_ID n) "MISSING_PROVIDER_PRECONDITION");
  _ ← fail_if (negb (o_Required (n_Observation n)) || empty (o_Profile (n_Observation n)))
        (mkDiagnostic (n_ID n) (if n_Irreversible n then "IRREVERSIBLE_NEEDS_OBSERVATION" else "MISSING_OBSERVATION"));
  _ ← fail_if (n_Irreversible n && String.eqb (n_RepairPolicy n) "NONE")
        (mkDiagnostic (n_ID n) "IRREVERSIBLE_NEEDS_REPAIR");
  Ok ({[n_ID n]} ∪ ids, <[n_IdempotencyKey n := n_ID n]> idempotency).

Fixpoint check_nodes (ids : gset string) (idempotency : gmap string string) (ns : list EffectNode)
    : outcome Diagnostic (gset string) :=
  match ns with
  | [] => Ok ids
  | n :: ns' =>
      st ← check_node ids idempotency n;
      check_nodes st.1 st.2 ns'
  end.

(** The map [seenEdge] is keyed by the two ids around a NUL byte. *)
Definition edge_key (e : Edge) : string := (e_From e +:+ String Ascii.zero (e_To e)).

Definition add_edge (e : Edge) (st : list Edge * gset string) : list Edge * gset string :=
  if decide (edge_key e ∈ st.2) then st else (st.1 ++ [e], {[edge_key e]} ∪ st.2).

Fixpoint add_prerequisites (ids : gset string) (n : EffectNode) (ps : list string) (st : list Edge * gset string)
    : outcome Diagnostic (list Edge * gset string) :=
  match ps with
  | [] => Ok st
  | p :: ps' =>
      _ ← fail_if (negb (bool_decide (p ∈ ids))) (mkDiagnostic (n_ID n) "UNDECLARED_DEPENDENCY");
      add_prerequisites ids n ps' (add_edge (mkEdge p (n_ID n)) st)
  end.

Fixpoint add_dependencies (ids : gset string) (ns : list EffectNode) (st : list Edge * gset string)
    : outcome Diagnostic (list Edge * gset string) :=
  match ns with
  | [] => Ok st
  | n :: ns' => st ← add_prerequisites ids n (n_Prerequisites n) st; add_dependencies ids ns' st
  end.

Fixpoint add_explicit (ids : gset string) (es : list Edge) (st : list Edge * gset string)
    : outcome Diagnostic (list Edge * gset string) :=
  match es with
  | [] => Ok st
  | e :: es' =>
      _ ← fail_if (negb (bool_decide (e_From e ∈ ids)) || negb (bool_decide (e_To e ∈ ids)))
            (mkDiagnostic "" "UNDECLARED_EDGE");
      add_explicit ids es' (add_edge e st)
  end.

(** The three refusals of one pair of [checkOrdering]. *)
Definition check_pair (a b : EffectNode) : outcome Diagnostic unit :=
  let same := String.eqb (n_ResourceKey a) (n_ResourceKey b) in
  _ ← fail_if (same && (String.eqb (n_Ordering a) Independent || String.eqb (n_Ordering b) Independent)
               && negb (String.eqb (n_Ordering a) (n_Ordering b)))
        (mkDiagnostic (n_ID b) "INCOMPATIBLE_ORDERING");
  _ ← fail_if (same && String.eqb (n_Ordering a) Strict && String.eqb (n_Ordering b) Strict
               && negb (empty (n_OrderingKey a)) && negb (empty (n_OrderingKey b))
               && negb (String.eqb (n_OrderingKey a) (n_OrderingKey b)))
        (mkDiagnostic (n_ID b) "INCOMPATIBLE_ORDERING_KEY");
  fail_if (same && String.eqb (n_Ordering a) ProviderConditional && String.eqb (n_Ordering b) ProviderConditional
           && String.eqb (n_IdempotencyKey a) (n_IdempotencyKey b))
        (mkDiagnostic (n_ID b) "DUPLICATE_EFFECT_KEY").

Fixpoint check_pairs (a : EffectNode) (bs : list EffectNode) : outcome Diagnostic unit :=
  match bs with
  | [] => Ok tt
  | b :: bs' => _ ← check_pair a b; check_pairs a bs'
  end.
Fixpoint checkOrdering (ns : list EffectNode) : outcome Diagnostic unit :=
  match ns with
  | [] => Ok tt
  | a :: bs => _ ← check_pairs a bs; checkOrdering bs
  end.

(** The [less] of the edges. *)
Definition edge_less (a b : Edge) : bool :=
  if String.eqb (e_From a) (e_From b) then String.ltb (e_To a) (e_To b) else String.ltb (e_From a) (e_From b).
Definition edge_le (a b : Edge) : Prop := edge_less b a = false.
#[export] Instance edge_le_dec : RelDecision edge_le.
Proof. intros a b. unfold edge_le. apply _. Defined.

Definition out_of (es : list Edge) (id : string) : list string :=
  e_To <$> filter (fun e => e_From e = id) es.
Definition indegrees (ns : list EffectNode) (es : list Edge) : gmap string Z :=
  count_in (e_To <$> es) (foldl (fun m n => <[n_ID n := 0]> m) ∅ ns).
Definition enqueue (x : string) (q : list string) : list string := sort_Strings (q ++ [x]).

(** Every turn settles one node; the number of nodes is enough fuel. *)
Definition topo (ns : list EffectNode) (es : list Edge) : outcome Diagnostic (list string) :=
  let indeg := indegrees ns es in
  let q := sort_Strings (fst <$> filter (fun kd => kd.2 = 0) (map_to_list indeg)) in
  let order := kahn_loop (out_of es) enqueue (length ns) indeg q [] in
  _ ← fail_if (negb (Nat.eqb (length order) (length ns))) (mkDiagnostic "" "CYCLE");
  Ok order.

Section compile.
(** The digest of the canonical JSON of nodes, edges and order. *)
Context (digest : list EffectNode -> list Edge -> list string -> string).

Definition Compile (g : Graph) : outcome Diagnostic CompiledGraph :=
  _ ← fail_if (Nat.eqb (length (g_Nodes g)) 0) (mkDiagnostic "" "EMPTY_GRAPH");
  ids ← check_nodes ∅ ∅ (g_Nodes g);
  st ← add_dependencies ids (g_Nodes g) ([], ∅);
  st ← add_explicit ids (g_Edges g) st;
  _ ← checkOrdering (g_Nodes g);
  let nodes := sort_by n_ID (g_Nodes g) in
  let edges := merge_sort edge_le st.1 in
  order ← topo nodes edges;
  Ok (mkCompiled nodes edges order (digest nodes edges order)).

Definition CompiledGraph_Verify (c : CompiledGraph) : outcome Diagnostic unit :=
  got ← Compile (mkGraph (c_Nodes c) (c_Edges c));
  fail_if (negb (String.eqb (c_Digest got) (c_Digest c))) (mkDiagnostic "" "DIGEST_MISMATCH").

End compile.

(** * Specification *)

Record node_ok (n : EffectNode) : Prop := {
  ok_id : n_ID n <> "";
  ok_lineage : n_ProposalRef n <> "" /\ n_TransactionRef n <> "" /\ n_CapabilityRef n <> "";
  ok_keys : n_ResourceKey n <> "" /\ n_IdempotencyKey n <> "";
  ok_policies : (n_DispatchCondition n <> "" /\ n_Deadline n <> "" /\ n_FailurePolicy n <> "") /\
    (n_CompensationPolicy n <> "" /\ n_RepairPolicy n <> "" /\ n_TerminalContribution n <> "");
  ok_ordering : n_Ordering n = Strict \/ n_Ordering n = Commutative \/ n_Ordering n = Independent \/ n_Ordering n = ProviderConditional;
  ok_strict : n_Ordering n = Strict -> n_OrderingKey n <> "";
  ok_provider : n_Ordering n = ProviderConditional -> n_OrderingKey n <> "" /\ n_ExpectedVersion n <> "";
  ok_observed : o_Required (n_Observation n) = true /\ o_Profile (n_Observation n) <> "";
  ok_repair : n_Irreversible n = true -> n_RepairPolicy n <> "NONE"
}.

(** Two effects on one resource: both independent or neither, and strict ones
    under one ordering key. *)
Definition compatible (a b : EffectNode) : Prop :=
  n_ResourceKey a = n_ResourceKey b ->
  (n_Ordering a = Independent <-> n_Ordering b = Independent) /\
  (n_Ordering a = Strict -> n_Ordering b = Strict -> n_OrderingKey a = n_OrderingKey b).

(** An edge is declared explicitly or as a prerequisite. *)
Definition declared (g : Graph) (e : Edge) : Prop :=
  e ∈ g_Edges g \/ exists n, n ∈ g_Nodes g /\ e_From e ∈ n_Prerequisites n /\ e_To e = n_ID n.

Record publishable (g : Graph) : Prop := {
  pub_nonempty : g_Nodes g <> [];
  pub_nodes : Forall node_ok (g_Nodes g);
  pub_ids : NoDup (n_ID <$> g_Nodes g);
  pub_keys : NoDup (n_IdempotencyKey <$> g_Nodes g);
  pub_edges : forall e, declared g e -> e_From e ∈ n_ID <$> g_Nodes g /\ e_To e ∈ n_ID <$> g_Nodes g;
  pub_compatible : forall a b, a ∈ g_Nodes g -> b ∈ g_Nodes g -> compatible a b
}.

Definition depends (g : Graph) (x y : string) : Prop := declared g (mkEdge x y).
Definition cyclic (g : Graph) : Prop := exists x, tc (depends g) x x.

(** No id contains the NUL byte that separates the two ids of an edge key. *)
Definition plain_ids (g : Graph) : Prop := forall n, n ∈ g_Nodes g -> str_contains Ascii.zero (n_ID n) = false.

(** * Lemmas *)

Lemma fail_if_bind {E B} b (e : E) (k : unit -> outcome E B) v :
  (fail_if b e ≫= k) = Ok v <-> b = false /\ k tt = Ok v.
Proof. destruct b; cbn; intuition discriminate. Qed.

Lemma empty_false s : empty s = false <-> s <> "".
Proof. unfold empty. apply String.eqb_neq. Qed.

Lemma check_node_ok ids idem n st : check_node ids idem n = Ok st <->
  node_ok n /\ (n_ID n ∉ ids) /\ idem !! n_IdempotencyKey n = None /\
  st = ({[n_ID n]} ∪ ids, <[n_IdempotencyKey n := n_ID n]> idem).
Proof.
  unfold check_node, validOrdering. rewrite !fail_if_bind, !orb_false_iff, !negb_false_iff, !andb_false_iff, !orb_false_iff,
    !orb_true_iff, !empty_false, !String.eqb_eq, !String.eqb_neq, !bool_decide_eq_false, <- eq_None_not_Some.
  split.
  - intros (H1 & H2 & H3 & H4 & H5 & H6 & H7 & H8 & H9 & H10 & H11 & H12 & [= <-]).
    split_and!; [|done..]. constructor; try tauto.
    + intros E. destruct H12 as [H|H]; [congruence|done].
  - intros ([] & Hid & Hkey & ->). repeat split; try tauto.
    + destruct (decide (n_Ordering n = Strict)); tauto.
    + destruct (decide (n_Ordering n = ProviderConditional)); tauto.
    + destruct (n_Irreversible n); auto.
Qed.

Lemma check_nodes_ok ids idem ns ids' : check_nodes ids idem ns = Ok ids' <->
  (Forall node_ok ns /\ NoDup (n_ID <$> ns) /\ NoDup (n_IdempotencyKey <$> ns)) /\
  (forall n, n ∈ ns -> (n_ID n ∉ ids) /\ idem !! n_IdempotencyKey n = None) /\
  ids' = list_to_set (n_ID <$> ns) ∪ ids.
Proof.
  revert ids idem. induction ns as [|n ns IH]; intros ids idem; cbn [check_nodes].
  { cbn. rewrite (left_id_L ∅ (∪)). split; [intros [= <-]|intros (_ & _ & ->); done].
    split_and!; [constructor..| |done]. by intros n Hn%elem_of_nil. }
  split.
  - intros H. apply bind_ok_inv in H as (st & Hn & H). apply check_node_ok in Hn as (Hn & Hid & Hk & ->).
    apply IH in H as ((Hok & Hnd & Hndk) & Hf & ->). cbn [fst snd] in Hf.
    split_and!; cbn [fmap list_fmap].
    + by constructor.
    + constructor; [|done]. intros (m & E & Hm)%list_elem_of_fmap. destruct (Hf m Hm) as [Hm1 _]. set_solver.
    + constructor; [|done]. intros (m & E & Hm)%list_elem_of_fmap. destruct (Hf m Hm) as [_ Hm2].
      by rewrite E, lookup_insert_eq in Hm2.
    + intros m [->|Hm]%elem_of_cons; [done|]. destruct (Hf m Hm) as [Hm1 Hm2]. split; [set_solver|].
      by apply lookup_insert_None in Hm2 as [? _].
    + cbn. set_solver.
  - intros ((Hok & Hnd & Hndk) & Hf & ->). cbn [fmap list_fmap] in *. apply Forall_cons in Hok as [Hn Hok].
    apply NoDup_cons in Hnd as [Hx Hnd], Hndk as [Hy Hndk]. destruct (Hf n) as [Hid Hk]; [left|].
    rewrite (proj2 (check_node_ok ids idem n _)) by (split_and!; done). cbn [mbind outcome_bind fst snd].
    apply IH. split_and!; [done..| |set_solver]. intros m Hm. destruct (Hf m) as [Hm1 Hm2]; [by right|]. split.
    + apply not_elem_of_union. split; [|done]. apply not_elem_of_singleton. intros E. apply Hx. rewrite <- E. by apply list_elem_of_fmap_2.
    + apply lookup_insert_None. split; [done|]. intros E. apply Hy. rewrite E. by apply list_elem_of_fmap_2.
Qed.

(** ** Merging the edges *)

Definition requested (ns : list EffectNode) (es : list Edge) : list Edge :=
  (n ← ns; (fun p => mkEdge p (n_ID n)) <$> n_Prerequisites n) ++ es.
Definition gather (l : list Edge) (st : list Edge * gset string) : list Edge * gset string :=
  foldl (fun st e => add_edge e st) st l.
Definition endpoints_in (ids : gset string) (e : Edge) : Prop := e_From e ∈ ids /\ e_To e ∈ ids.

Lemma gather_app l k st : gather (l ++ k) st = gather k (gather l st).
Proof. apply foldl_app. Qed.

Lemma add_prerequisites_ok ids n ps st st' : n_ID n ∈ ids ->
  add_prerequisites ids n ps st = Ok st' <->
  Forall (endpoints_in ids) ((fun p => mkEdge p (n_ID n)) <$> ps) /\ st' = gather ((fun p => mkEdge p (n_ID n)) <$> ps) st.
Proof.
  intros Hn. revert st. induction ps as [|p ps IH]; intros st; cbn [add_prerequisites fmap list_fmap].
  { cbn. split; [intros [= <-]; split; [constructor|done]|by intros [_ ->]]. }
  rewrite fail_if_bind, IH, Forall_cons, negb_false_iff, bool_decide_eq_true. unfold endpoints_in at 2. cbn. tauto.
Qed.

Lemma add_dependencies_ok ids ns st st' : (forall n, n ∈ ns -> n_ID n ∈ ids) ->
  add_dependencies ids ns st = Ok st' <->
  Forall (endpoints_in ids) (requested ns []) /\ st' = gather (requested ns []) st.
Proof.
  unfold requested. rewrite app_nil_r. revert st. induction ns as [|n ns IH]; intros st Hin; cbn [add_dependencies].
  { cbn. split; [intros [= <-]; split; [constructor|done]|by intros [_ ->]]. }
  cbn [mbind list_bind]. rewrite Forall_app, gather_app. specialize (IH (gather ((fun p => mkEdge p (n_ID n)) <$> n_Prerequisites n) st)).
  split.
  - intros H. apply bind_ok_inv in H as (s & H1 & H). apply add_prerequisites_ok in H1 as [H1 ->]; [|apply Hin; left].
    apply IH in H as [H2 ->]; [|intros; apply Hin; by right]. done.
  - intros [[H1 H2] ->]. rewrite (proj2 (add_prerequisites_ok ids n _ st _ ltac:(apply Hin; left))) by done.
    cbn [mbind outcome_bind]. apply IH; [intros; apply Hin; by right|done].
Qed.

Lemma add_explicit_ok ids es st st' : add_explicit ids es st = Ok st' <->
  Forall (endpoints_in ids) es /\ st' = gather es st.
Proof.
  revert st. induction es as [|e es IH]; intros st; cbn [add_explicit].
  { cbn. split; [intros [= <-]; split; [constructor|done]|by intros [_ ->]]. }
  rewrite fail_if_bind, IH, Forall_cons, orb_false_iff, !negb_false_iff, !bool_decide_eq_true.
  unfold endpoints_in at 2. cbn. tauto.
Qed.

Lemma requested_app ns es : requested ns es = requested ns [] ++ es.
Proof. unfold requested. by rewrite app_nil_r. Qed.

Lemma elem_of_requested g e : e ∈ requested (g_Nodes g) (g_Edges g) <-> declared g e.
Proof.
  unfold requested, declared. rewrite elem_of_app, list_elem_of_bind. destruct e as [a b]; cbn. split.
  - intros [(n & Hp & Hn)|H]; [right|by left]. apply list_elem_of_fmap in Hp as (p & [= -> ->] & Hp). eauto.
  - intros [H|(n & Hn & Hp & ->)]; [by right|left]. exists n. split; [|done]. by apply (list_elem_of_fmap_2 (fun p => mkEdge p (n_ID n))).
Qed.

Definition plain (e : Edge) : Prop := str_contains Ascii.zero (e_From e) = false.

Lemma edge_key_inj e f : plain e -> plain f -> edge_key e = edge_key f -> e = f.
Proof.
  unfold plain, edge_key. destruct e as [a b], f as [c d]; cbn. intros Ha Hc E.
  pose proof (str_cut_here Ascii.zero a b Ha) as H1. rewrite E, (str_cut_here Ascii.zero c d Hc) in H1. by simplify_eq.
Qed.

(** With plain ids the merge keeps every edge once. *)
Lemma gather_spec l st : Forall plain (st.1 ++ l) -> NoDup st.1 ->
  (forall k, k ∈ st.2 <-> exists e, e ∈ st.1 /\ edge_key e = k) ->
  NoDup (gather l st).1 /\ (forall e, e ∈ (gather l st).1 <-> e ∈ st.1 \/ e ∈ l).
Proof.
  revert st. induction l as [|x l IH]; intros st Hp Hnd Hk; [cbn; set_solver|].
  change (gather (x :: l) st) with (gather l (add_edge x st)).
  assert (Hx : edge_key x ∈ st.2 <-> x ∈ st.1).
  { rewrite Hk. split; [|eauto]. intros (e & He & E). rewrite Forall_forall in Hp.
    by rewrite <- (edge_key_inj e x (Hp e ltac:(set_solver)) (Hp x ltac:(set_solver)) E). }
  unfold add_edge at 1 2. destruct (decide (edge_key x ∈ st.2)) as [Hin|Hin].
  - destruct (IH st) as [I1 I2]; [|done..|].
    { rewrite Forall_app, Forall_cons in Hp. apply Forall_app. tauto. }
    split; [done|]. intros e. rewrite I2, elem_of_cons. naive_solver.
  - destruct (IH (st.1 ++ [x], {[edge_key x]} ∪ st.2)) as [I1 I2]; cbn [fst snd].
    + by rewrite <- app_assoc.
    + apply NoDup_app. split_and!; [done| |apply NoDup_singleton]. intros e He ->%list_elem_of_singleton. tauto.
    + intros k. rewrite elem_of_union, elem_of_singleton, Hk. split.
      * intros [->|(e & He & E)]; [exists x|exists e]; set_solver.
      * intros (e & [He| ->%list_elem_of_singleton]%elem_of_app & E); [right; eauto|by left].
    + split; [done|]. intros e. rewrite I2. cbn [fst]. rewrite elem_of_app, list_elem_of_singleton, elem_of_cons. tauto.
Qed.

(** ** The order of the edges *)

#[export] Instance edge_le_total : Total edge_le.
Proof.
  intros a b. unfold edge_le, edge_less. rewrite (String.eqb_sym (e_From b)).
  destruct (String.eqb_spec (e_From a) (e_From b)) as [_|_]; rewrite !string_ltb_ge; apply (total String.le).
Qed.

Lemma edge_le_iff a b : edge_le a b <->
  (e_From a <> e_From b /\ String.le (e_From a) (e_From b)) \/ (e_From a = e_From b /\ String.le (e_To a) (e_To b)).
Proof.
  unfold edge_le, edge_less. destruct (String.eqb_spec (e_From b) (e_From a)) as [->|]; rewrite string_ltb_ge; intuition congruence.
Qed.

#[export] Instance edge_le_trans : Transitive edge_le.
Proof.
  intros a b c. rewrite !edge_le_iff. intros [[N1 H1]|[E1 H1]] [[N2 H2]|[E2 H2]].
  - left. split; [|by transitivity (e_From b)]. intros E. apply N1, (anti_symm String.le); [done|]. by rewrite E.
  - left. by rewrite <- E2.
  - left. by rewrite E1.
  - right. split; [by rewrite E1|by transitivity (e_To b)].
Qed.

#[export] Instance edge_le_antisym : AntiSymm (=) edge_le.
Proof.
  intros [a b] [c d]. rewrite !edge_le_iff. cbn. intros [[N1 H1]|[E1 H1]] [[N2 H2]|[E2 H2]]; try congruence.
  - destruct N1. by apply (anti_symm String.le).
  - subst. f_equal. by apply (anti_symm String.le).
Qed.

Lemma sorted_edges_unique l k : l ≡ₚ k -> merge_sort edge_le l = merge_sort edge_le k.
Proof.
  intros HP. apply (StronglySorted_unique edge_le); [apply StronglySorted_merge_sort; apply _..|].
  by rewrite !merge_sort_Permutation.
Qed.

(** ** Ordering classes *)

Lemma check_pair_ok a b : node_ok a -> node_ok b -> n_IdempotencyKey a <> n_IdempotencyKey b ->
  check_pair a b = Ok tt <-> compatible a b.
Proof.
  intros Ha Hb Hk. pose proof (ok_strict a Ha). pose proof (ok_strict b Hb). unfold check_pair, compatible.
  assert (Hlast : fail_if (String.eqb (n_ResourceKey a) (n_ResourceKey b) && String.eqb (n_Ordering a) ProviderConditional
    && String.eqb (n_Ordering b) ProviderConditional && String.eqb (n_IdempotencyKey a) (n_IdempotencyKey b))
    (mkDiagnostic (n_ID b) "DUPLICATE_EFFECT_KEY") = Ok tt).
  { apply String.eqb_neq in Hk. by rewrite Hk, andb_false_r. }
  rewrite !fail_if_bind, Hlast, !andb_false_iff, !orb_false_iff, !negb_false_iff, !String.eqb_eq, !String.eqb_neq. unfold empty. rewrite !String.eqb_eq.
  destruct (decide (n_ResourceKey a = n_ResourceKey b)); [|tauto].
  destruct (decide (n_Ordering a = Independent)) as [E1|], (decide (n_Ordering b = Independent)) as [E2|];
    rewrite ?E1, ?E2; try (unfold Independent, Strict; intuition congruence).
  destruct (decide (n_OrderingKey a = n_OrderingKey b)); [tauto|].
  destruct (decide (n_Ordering a = Strict)), (decide (n_Ordering b = Strict)); tauto.
Qed.

Lemma compatible_sym a b : compatible a b -> compatible b a.
Proof. unfold compatible. intros H E. destruct (H (eq_sym E)) as [H1 H2]. split; [tauto|]. intros. symmetry. auto. Qed.

Lemma check_pairs_ok a bs : check_pairs a bs = Ok tt <-> Forall (fun b => check_pair a b = Ok tt) bs.
Proof.
  induction bs as [|b bs IH]; cbn [check_pairs]; [by split|]. rewrite Forall_cons, <- IH. split.
  - intros H. apply bind_ok_inv in H as ([] & H1 & H2). done.
  - intros [-> H]. done.
Qed.

Lemma checkOrdering_ok ns : Forall node_ok ns -> NoDup (n_IdempotencyKey <$> ns) ->
  checkOrdering ns = Ok tt <-> (forall a b, a ∈ ns -> b ∈ ns -> compatible a b).
Proof.
  induction ns as [|a ns IH]; intros Hok Hnd; cbn [checkOrdering fmap list_fmap] in *.
  { split; [|done]. by intros _ a b Ha%elem_of_nil. }
  apply Forall_cons in Hok as [Ha Hok]. apply NoDup_cons in Hnd as [Hk Hnd]. specialize (IH Hok Hnd).
  assert (Hp : check_pairs a ns = Ok tt <-> forall b, b ∈ ns -> compatible a b).
  { rewrite check_pairs_ok, Forall_forall. rewrite Forall_forall in Hok. split; intros H b Hb.
    - apply check_pair_ok; auto. intros E. apply Hk. rewrite E. by apply list_elem_of_fmap_2.
    - apply check_pair_ok; auto. intros E. apply Hk. rewrite E. by apply list_elem_of_fmap_2. }
  split.
  - intros H. apply bind_ok_inv in H as ([] & H1 & H2). rewrite Hp in H1. rewrite IH in H2.
    intros x y [->|Hx]%elem_of_cons [->|Hy]%elem_of_cons; auto; [|by apply compatible_sym, H1].
    intros _. split; [done|auto].
  - intros H. rewrite (proj2 Hp); cbn [mbind outcome_bind]; [|intros; apply H; [left|by right]].
    apply IH. intros; apply H; by right.
Qed.

(** ** The topological order *)

Section order.
Context (ns : list EffectNode) (es : list Edge).
Hypothesis ids_nodup : NoDup (n_ID <$> ns).
Hypothesis es_in : forall e, e ∈ es -> e_From e ∈ n_ID <$> ns /\ e_To e ∈ n_ID <$> ns.

Lemma step_out_of x y : step (out_of es) x y <-> mkEdge x y ∈ es.
Proof using.
  unfold step, out_of. rewrite list_elem_of_fmap. split.
  - intros ([a b] & -> & [<- He]%list_elem_of_filter). done.
  - intros He. exists (mkEdge x y). split; [done|]. by apply list_elem_of_filter.
Qed.

Lemma zero_degrees v : degree (foldl (fun m n => <[n_ID n := 0]> m) ∅ ns) v = 0.
Proof using.
  clear. assert (H : forall m, degree m v = 0 -> degree (foldl (fun m n => <[n_ID n := 0]> m) m ns) v = 0).
  { induction ns as [|n l IH]; intros m Hm; [done|]. cbn. apply IH. rewrite degree_insert. by case_decide. }
  apply H. unfold degree. by rewrite lookup_empty.
Qed.

Lemma indegrees_pending v : degree (indegrees ns es) v = Z.of_nat (pending (out_of es) (n_ID <$> ns) [] v).
Proof using ids_nodup es_in.
  unfold indegrees. rewrite count_in_degree, zero_degrees.
  rewrite (pending_edges (out_of es) (n_ID <$> ns) ((fun e => (e_From e, e_To e)) <$> es) v ids_nodup).
  - by rewrite <- list_fmap_compose.
  - intros u Hu. unfold out_of. clear. induction es as [|e l IH]; [done|]. cbn [fmap list_fmap]. rewrite !filter_cons. cbn [fst].
    case_decide; cbn [fmap list_fmap snd]; by rewrite IH.
  - intros [a b] (e & [= -> ->] & He)%list_elem_of_fmap. by apply es_in.
Qed.

Lemma indegrees_keys v : is_Some (indegrees ns es !! v) <-> v ∈ n_ID <$> ns.
Proof using es_in.
  unfold indegrees, count_in.
  assert (H1 : forall (m : gmap string Z) k, is_Some (foldl (fun m n => <[n_ID n := 0]> m) m ns !! k) <-> k ∈ n_ID <$> ns \/ is_Some (m !! k)).
  { clear. induction ns as [|n l IH]; intros m v; cbn; [set_solver|]. rewrite IH, elem_of_cons, lookup_insert_is_Some. destruct (decide (v = n_ID n)); intuition congruence. }
  assert (H2 : forall m : gmap string Z, (forall y, y ∈ e_To <$> es -> is_Some (m !! y)) ->
    is_Some (foldl (fun m y => <[y := degree m y + 1]> m) m (e_To <$> es) !! v) <-> is_Some (m !! v)).
  { clear. induction es as [|e l IH]; intros m Hm; [done|]. cbn [fmap list_fmap foldl]. rewrite IH.
    - rewrite lookup_insert_is_Some. specialize (Hm v). split; [intros [<-|[_ ?]]; [apply Hm; left|done]|].
      intros Hv. destruct (decide (e_To e = v)); auto.
    - intros y Hy. apply lookup_insert_is_Some. destruct (decide (e_To e = y)); [by left|right]. split; [done|]. apply Hm. by right. }
  rewrite H2.
  - rewrite H1, lookup_empty. split; [intros [|[? ?]]; done|by left].
  - intros y (e & -> & He)%list_elem_of_fmap.
    apply H1. left. by apply es_in.
Qed.

Lemma initial_queue :
  sort_Strings (fst <$> filter (fun kd => kd.2 = 0) (map_to_list (indegrees ns es)))
  ≡ₚ filter (fun v => degree (indegrees ns es) v = 0) (n_ID <$> ns).
Proof using ids_nodup es_in.
  rewrite sort_Strings_Permutation. apply NoDup_Permutation.
  - apply (NoDup_fmap_fst (A := string)); [|apply NoDup_filter, NoDup_map_to_list].
    intros k d1 d2 [_ H1]%list_elem_of_filter [_ H2]%list_elem_of_filter.
    apply elem_of_map_to_list in H1, H2. congruence.
  - by apply NoDup_filter.
  - intros v. rewrite list_elem_of_filter, list_elem_of_fmap, <- indegrees_keys. split.
    + intros ([k d] & -> & [Hd Hk]%list_elem_of_filter). apply elem_of_map_to_list in Hk. cbn in *. unfold degree. rewrite Hk. cbn. eauto.
    + intros [Hd [d Hk]]. exists (v, d). split; [done|]. apply list_elem_of_filter. split; [|by apply elem_of_map_to_list].
      unfold degree in Hd. by rewrite Hk in Hd.
Qed.

Lemma out_of_closed x y : x ∈ n_ID <$> ns -> y ∈ out_of es x -> y ∈ n_ID <$> ns.
Proof using es_in. intros _ Hy. apply step_out_of in Hy. by apply es_in in Hy as [_ Hy]. Qed.

Lemma enqueue_perm x q : enqueue x q ≡ₚ x :: q.
Proof using. unfold enqueue. by rewrite sort_Strings_Permutation, Permutation_app_comm. Qed.

Lemma topo_result : kahn_result (out_of es) (n_ID <$> ns) (kahn_loop (out_of es) enqueue (length ns) (indegrees ns es)
  (sort_Strings (fst <$> filter (fun kd => kd.2 = 0) (map_to_list (indegrees ns es)))) []).
Proof using ids_nodup es_in.
  apply kahn_loop_result; [apply enqueue_perm|done|apply out_of_closed|rewrite length_fmap; cbn; lia|].
  apply kahn_start; [done|by intros; apply indegrees_pending|apply initial_queue].
Qed.

Lemma topo_least : least_first (out_of es) (n_ID <$> ns) String.le (kahn_loop (out_of es) enqueue (length ns) (indegrees ns es)
  (sort_Strings (fst <$> filter (fun kd => kd.2 = 0) (map_to_list (indegrees ns es)))) []).
Proof using ids_nodup es_in.
  apply kahn_loop_least; [apply enqueue_perm|done|apply out_of_closed|intros x; reflexivity|intros; apply sort_Strings_sorted| |apply sort_Strings_sorted|].
  - apply kahn_start; [done|by intros; apply indegrees_pending|apply initial_queue].
  - intros o1 v o2 E. by destruct o1.
Qed.

(** At every position of an order stands the least of the effects not yet
    listed whose dependencies all are. *)
Definition smallest_first (ids : list string) (deps : Edge -> Prop) (order : list string) : Prop :=
  forall o1 v o2, order = o1 ++ v :: o2 -> forall w, w ∈ ids -> (w ∉ o1) -> (forall u, deps (mkEdge u w) -> u ∈ o1) -> String.le v w.

(** [topo] returns every node after its dependencies, or reports a cycle. *)
Lemma topo_spec :
  (exists order, topo ns es = Ok order /\ order ≡ₚ n_ID <$> ns /\
     (forall o1 v o2, order = o1 ++ v :: o2 -> forall u, mkEdge u v ∈ es -> u ∈ o1) /\
     smallest_first (n_ID <$> ns) (fun e => e ∈ es) order /\
     ~ exists x, tc (fun x y => mkEdge x y ∈ es) x x)
  \/ (topo ns es = Err (mkDiagnostic "" "CYCLE") /\ exists x, tc (fun x y => mkEdge x y ∈ es) x x).
Proof using ids_nodup es_in.
  pose proof topo_result as Hr. pose proof topo_least as Hleast. unfold topo. set (order := kahn_loop _ _ _ _ _ _) in *. clearbody order.
  pose proof (kahn_complete _ _ ids_nodup out_of_closed order Hr) as Hc.
  assert (Hrel : (exists x, x ∈ n_ID <$> ns /\ tc (step (out_of es)) x x) <-> exists x, tc (fun x y => mkEdge x y ∈ es) x x).
  { split; intros (x & Hx).
    - exists x. eapply (tc_congruence id); [|apply Hx]. intros a b. apply step_out_of.
    - assert (Hin : forall a b, tc (fun x y => mkEdge x y ∈ es) a b -> a ∈ n_ID <$> ns).
      { intros a b [c d Hcd|c d e Hcd _]; apply (proj1 (es_in _ Hcd)). }
      exists x. split; [by apply (Hin x x)|]. eapply (tc_congruence id); [|exact Hx]. intros a b. apply step_out_of. }
  rewrite Hrel, length_fmap in Hc. destruct (Nat.eqb_spec (length order) (length ns)) as [E|E]; cbn.
  - left. exists order. destruct Hr as [Hnd Hin Hbef _]. split_and!; [done| | | |tauto].
    + apply submseteq_length_Permutation; [by apply NoDup_submseteq|]. rewrite length_fmap. lia.
    + intros o1 v o2 Eo u Hu. eapply Hbef; [exact Eo|by apply (es_in _ Hu)|by apply step_out_of].
    + intros o1 v o2 Eo w Hw Hwo Hf. apply (Hleast o1 v o2 Eo w Hw Hwo). intros u _ Hu. by apply Hf, step_out_of.
  - right. split; [done|]. apply Hrel, (kahn_stuck_cycle _ _ ids_nodup order Hr). by rewrite length_fmap.
Qed.

End order.

(** ** Compilation *)

(** Every refusal before the topological order is malformed input. *)
Definition tame {A} (m : outcome Diagnostic A) : Prop :=
  match m with Ok _ => True | Err d => Diagnostic_Unwrap d = ErrInvalidGraph | Panic => False end.

Lemma tame_bind {A B} (m : outcome Diagnostic A) (k : A -> outcome Diagnostic B) :
  tame m -> (forall a, tame (k a)) -> tame (m ≫= k).
Proof. destruct m; cbn; auto. Qed.

Lemma tame_fail_if b id code : String.eqb code "CYCLE" = false -> tame (fail_if b (mkDiagnostic id code)).
Proof. intros H. destruct b; cbn; [|done]. unfold Diagnostic_Unwrap. cbn. by rewrite H. Qed.

Ltac tame :=
  repeat first [ apply tame_bind; [|intros ?] | apply tame_fail_if; try (destruct (n_Irreversible _)); reflexivity | done ].

Lemma check_nodes_tame ids idem ns : tame (check_nodes ids idem ns).
Proof.
  revert ids idem. induction ns as [|n ns IH]; intros ids idem; cbn [check_nodes]; [done|].
  apply tame_bind; [|intros a; apply IH]. unfold check_node. tame.
Qed.

Lemma add_prerequisites_tame ids n ps st : tame (add_prerequisites ids n ps st).
Proof. revert st. induction ps as [|p ps IH]; intros st; cbn [add_prerequisites]; tame. Qed.

Lemma add_dependencies_tame ids ns st : tame (add_dependencies ids ns st).
Proof.
  revert st. induction ns as [|n ns IH]; intros st; cbn [add_dependencies]; [done|].
  apply tame_bind; [apply add_prerequisites_tame|intros a; apply IH].
Qed.

Lemma add_explicit_tame ids es st : tame (add_explicit ids es st).
Proof. revert st. induction es as [|e es IH]; intros st; cbn [add_explicit]; tame. Qed.

Lemma checkOrdering_tame ns : tame (checkOrdering ns).
Proof.
  induction ns as [|a ns IH]; cbn [checkOrdering]; [done|]. apply tame_bind; [|done].
  clear IH. induction ns as [|b ns IH]; cbn [check_pairs]; [done|]. apply tame_bind; [|done]. unfold check_pair. tame.
Qed.

Section compile_lemmas.
Context (digest : list EffectNode -> list Edge -> list string -> string).

Lemma ids_set ns x : x ∈ (list_to_set (n_ID <$> ns) ∪ ∅ : gset string) <-> x ∈ n_ID <$> ns.
Proof using. clear digest. rewrite elem_of_union, elem_of_list_to_set. set_solver. Qed.

Lemma endpoints_declared g : Forall (endpoints_in (list_to_set (n_ID <$> g_Nodes g) ∪ ∅)) (requested (g_Nodes g) (g_Edges g)) <->
  (forall e, declared g e -> e_From e ∈ n_ID <$> g_Nodes g /\ e_To e ∈ n_ID <$> g_Nodes g).
Proof using.
  clear digest.
  rewrite Forall_forall. unfold endpoints_in.
  split; intros H e He; specialize (H e); rewrite elem_of_requested, !ids_set in *; auto.
Qed.

(** On publishable input, compilation is sorting and ordering. *)
Lemma Compile_publishable g : plain_ids g -> publishable g -> exists edges,
  NoDup edges /\ (forall e, e ∈ edges <-> declared g e) /\
  Compile digest g = (order ← topo (sort_by n_ID (g_Nodes g)) (merge_sort edge_le edges);
    Ok (mkCompiled (sort_by n_ID (g_Nodes g)) (merge_sort edge_le edges) order
          (digest (sort_by n_ID (g_Nodes g)) (merge_sort edge_le edges) order))).
Proof using.
  intros Hpl [Hne Hok Hid Hk He Hc]. exists (gather (requested (g_Nodes g) (g_Edges g)) ([], ∅)).1.
  destruct (gather_spec (requested (g_Nodes g) (g_Edges g)) ([], ∅)) as [G1 G2]; cbn [fst snd app].
  { apply Forall_forall. intros e Hr. rewrite elem_of_requested in Hr. apply He in Hr as [(n & E & Hn)%list_elem_of_fmap _].
    unfold plain. rewrite E. by apply Hpl. }
  { constructor. }
  { set_solver. }
  split; [done|]. split; [intros e; rewrite G2, elem_of_requested; set_solver|].
  unfold Compile. destruct (Nat.eqb_spec (length (g_Nodes g)) 0) as [E|_]; [by apply length_zero_iff_nil in E|].
  cbn [fail_if mbind outcome_bind].
  rewrite (proj2 (check_nodes_ok ∅ ∅ (g_Nodes g) _)) by (split_and!; [done..|split; [set_solver|apply lookup_empty]|reflexivity]).
  cbn [mbind outcome_bind].
  rewrite <- (endpoints_declared g), requested_app, Forall_app in He. destruct He as [He1 He2].
  rewrite (proj2 (add_dependencies_ok _ (g_Nodes g) ([], ∅) _ ltac:(intros n Hn; apply ids_set; by apply list_elem_of_fmap_2))) by (split; [exact He1|reflexivity]).
  cbn [mbind outcome_bind].
  rewrite (proj2 (add_explicit_ok _ _ _ _)) by (split; [exact He2|reflexivity]).
  cbn [mbind outcome_bind].
  rewrite (proj2 (checkOrdering_ok (g_Nodes g) Hok Hk) Hc). by rewrite <- gather_app, <- requested_app.
Qed.

Lemma Compile_publishable_or g : publishable g \/
  exists d, Compile digest g = Err d /\ Diagnostic_Unwrap d = ErrInvalidGraph.
Proof using.
  unfold Compile. destruct (Nat.eqb_spec (length (g_Nodes g)) 0) as [|Hne]; [right; eauto|]. cbn [fail_if mbind outcome_bind].
  pose proof (check_nodes_tame ∅ ∅ (g_Nodes g)) as T1. destruct (check_nodes _ _ _) as [ids|d|] eqn:E1; cbn [mbind outcome_bind]; [|right; eauto|done].
  pose proof (add_dependencies_tame ids (g_Nodes g) ([], ∅)) as T2. destruct (add_dependencies _ _ _) as [st|d|] eqn:E2; cbn [mbind outcome_bind]; [|right; eauto|done].
  pose proof (add_explicit_tame ids (g_Edges g) st) as T3. destruct (add_explicit _ _ _) as [st'|d|] eqn:E3; cbn [mbind outcome_bind]; [|right; eauto|done].
  pose proof (checkOrdering_tame (g_Nodes g)) as T4. destruct (checkOrdering _) as [[]|d|] eqn:E4; cbn [mbind outcome_bind]; [|right; eauto|done].
  left. clear T1 T2 T3 T4. apply check_nodes_ok in E1 as ((Hok & Hid & Hk) & _ & ->).
  apply add_dependencies_ok in E2 as [He1 ->]; [|intros n Hn; apply ids_set; by apply list_elem_of_fmap_2].
  apply add_explicit_ok in E3 as [He2 ->].
  constructor; [|done..| |].
  - intros E. by rewrite E in Hne.
  - apply endpoints_declared. rewrite requested_app. by apply Forall_app.
  - by apply checkOrdering_ok.
Qed.

(** The order of a publishable graph, or its cycle. *)
Lemma Compile_topo g edges : publishable g -> NoDup edges -> (forall e, e ∈ edges <-> declared g e) ->
  (exists order, topo (sort_by n_ID (g_Nodes g)) (merge_sort edge_le edges) = Ok order /\
     order ≡ₚ n_ID <$> g_Nodes g /\
     (forall o1 v o2, order = o1 ++ v :: o2 -> forall u, declared g (mkEdge u v) -> u ∈ o1) /\
     smallest_first (n_ID <$> g_Nodes g) (declared g) order /\ ~ cyclic g)
  \/ (topo (sort_by n_ID (g_Nodes g)) (merge_sort edge_le edges) = Err (mkDiagnostic "" "CYCLE") /\ cyclic g).
Proof using.
  clear digest.
  intros Hp _ Hd.
  assert (HP : n_ID <$> sort_by n_ID (g_Nodes g) ≡ₚ n_ID <$> g_Nodes g) by (by rewrite sort_by_Permutation).
  assert (Hm : forall e, e ∈ merge_sort edge_le edges <-> declared g e) by (intros e; by rewrite merge_sort_Permutation).
  assert (Hcy : (exists x, tc (fun x y => mkEdge x y ∈ merge_sort edge_le edges) x x) <-> cyclic g).
  { unfold cyclic, depends. split; intros (x & Hx); exists x; (eapply (tc_congruence id); [|exact Hx]); intros a b; apply Hm. }
  destruct (topo_spec (sort_by n_ID (g_Nodes g)) (merge_sort edge_le edges)) as [(order & H1 & H2 & H3 & H5 & H4)|[H1 H2]].
  - rewrite HP. apply Hp.
  - intros e He%Hm. rewrite !HP. by apply Hp.
  - left. exists order. split_and!; [done|by rewrite H2| | |by rewrite <- Hcy].
    + intros o1 v o2 E u Hu. eapply H3; [exact E|by apply Hm].
    + intros o1 v o2 E w Hw Hwo Hf. apply (H5 o1 v o2 E w); [by rewrite HP|done|]. intros u Hu%Hm. by apply Hf.
  - right. split; [done|]. by apply Hcy.
Qed.

Lemma compiled_parts g c : plain_ids g -> Compile digest g = Ok c ->
  c_Nodes c ≡ₚ g_Nodes g /\ (forall e, e ∈ c_Edges c <-> declared g e).
Proof using.
  intros Hplain Hc. destruct (Compile_publishable_or g) as [Hp|(d & E & Hd)]; [|congruence].
  destruct (Compile_publishable g Hplain Hp) as (edges & Hnd & Hd & E). rewrite E in Hc. ok_inv. subst c. cbn.
  split; [apply sort_by_Permutation|]. intros e. by rewrite merge_sort_Permutation.
Qed.

Lemma publishable_same g g' : g_Nodes g' ≡ₚ g_Nodes g -> (forall e, declared g' e <-> declared g e) ->
  publishable g -> publishable g'.
Proof using.
  clear digest.
  intros HN HE [Hne Hok Hid Hk He Hc]. constructor; rewrite ?HN; try done.
  - intros E. rewrite E in HN. by apply Permutation_nil in HN.
  - intros e Hd. rewrite HN. by apply He, HE.
  - intros a b. rewrite HN. apply Hc.
Qed.

End compile_lemmas.

(** * Properties *)

Section properties.
Context (digest : list EffectNode -> list Edge -> list string -> string).

(** C32: [Compile] accepts exactly the publishable graphs without a dependency
    cycle, reports a cycle exactly for publishable graphs that have one, and
    never panics. *)
Theorem effect_compile_exact (g : Graph) (Hplain : plain_ids g) :
  (is_ok (Compile digest g) = true <-> publishable g /\ ~ cyclic g) /\
  ((exists d, Compile digest g = Err d /\ Diagnostic_Unwrap d = ErrCycle) <-> publishable g /\ cyclic g) /\
  Compile digest g <> Panic.
Proof using.
  destruct (Compile_publishable_or digest g) as [Hp|(d & E & Hd)].
  - destruct (Compile_publishable digest g Hplain Hp) as (edges & Hnd & Hd & E).
    destruct (Compile_topo g edges Hp Hnd Hd) as [(order & Ht & _ & _ & _ & Hc)|[Ht Hc]]; rewrite E, Ht; cbn [mbind outcome_bind is_ok].
    + split_and!; [tauto|split; [intros (? & ? & _); done|tauto]|done].
    + split_and!; [split; [done|tauto]|split; [tauto|eauto]|done].
  - assert (Hn : ~ publishable g).
    { intros Hp. destruct (Compile_publishable digest g Hplain Hp) as (edges & Hnd & Hde & E').
      destruct (Compile_topo g edges Hp Hnd Hde) as [(order & Ht & _)|[Ht _]]; rewrite E', Ht in E; cbn in E; [done|].
      injection E as <-. done. }
    rewrite E; cbn [is_ok]. split_and!; [split; [done|tauto]|split; [|tauto]|done].
    intros (d' & [= <-] & Hd'). congruence.
Qed.

(** C27: A compiled graph keeps the nodes and exactly the declared dependencies,
    and its order lists every effect once, after everything it depends on; at
    every position stands the least id of the effects not yet listed whose
    dependencies all are. *)
Theorem effect_order_exact (g : Graph) (c : CompiledGraph) (Hplain : plain_ids g) (Hc : Compile digest g = Ok c) :
  c_Nodes c ≡ₚ g_Nodes g /\ StronglySorted (key_lt n_ID) (c_Nodes c) /\
  (forall e, e ∈ c_Edges c <-> declared g e) /\
  c_Order c ≡ₚ n_ID <$> g_Nodes g /\
  (forall e o1 o2, declared g e -> c_Order c = o1 ++ e_To e :: o2 -> e_From e ∈ o1) /\
  smallest_first (n_ID <$> g_Nodes g) (declared g) (c_Order c).
Proof using.
  destruct (Compile_publishable_or digest g) as [Hp|(d & E & Hd)]; [|congruence].
  destruct (Compile_publishable digest g Hplain Hp) as (edges & Hnd & Hd & E). rewrite E in Hc.
  destruct (Compile_topo g edges Hp Hnd Hd) as [(order & Ht & Hperm & Hbef & Hleast & _)|[Ht _]]; rewrite Ht in Hc; cbn in Hc; [|done].
  injection Hc as <-. cbn. split_and!.
  - apply sort_by_Permutation.
  - apply sort_by_strict, Hp.
  - intros e. by rewrite merge_sort_Permutation.
  - done.
  - intros [u v] o1 o2 He Eo. by eapply Hbef.
  - exact Hleast.
Qed.

(** Compilation is canonical: graphs with the same effects and the same
    dependencies, in whatever order and however declared, compile to the same
    graph, and a compiled graph passes its own verification. *)
Theorem effect_compile_canonical (g : Graph) (c : CompiledGraph) (Hplain : plain_ids g) (Hc : Compile digest g = Ok c) :
  CompiledGraph_Verify digest c = Ok tt /\
  (forall g', g_Nodes g' ≡ₚ g_Nodes g -> (forall e, declared g' e <-> declared g e) -> Compile digest g' = Ok c).
Proof using.
  assert (Hcanon : forall g', g_Nodes g' ≡ₚ g_Nodes g -> (forall e, declared g' e <-> declared g e) -> Compile digest g' = Ok c).
  { intros g' HN HE. destruct (Compile_publishable_or digest g) as [Hp|(d & E & Hd)]; [|congruence].
    assert (Hp' : publishable g') by (by apply (publishable_same g)).
    assert (Hplain' : plain_ids g') by (intros n Hn; apply Hplain; by rewrite <- HN).
    destruct (Compile_publishable digest g Hplain Hp) as (edges & Hnd & Hd & E).
    destruct (Compile_publishable digest g' Hplain' Hp') as (edges' & Hnd' & Hd' & E').
    rewrite E', <- Hc, E. rewrite (sort_by_canonical n_ID (g_Nodes g') (g_Nodes g)); [|apply Hp'|done].
    rewrite (sorted_edges_unique edges' edges); [done|]. apply NoDup_Permutation; [done..|].
    intros e. by rewrite Hd, Hd'. }
  split; [|done]. unfold CompiledGraph_Verify.
  destruct (compiled_parts digest g c Hplain Hc) as (HN & HE). rewrite (Hcanon (mkGraph (c_Nodes c) (c_Edges c))); cbn [mbind outcome_bind].
  - by rewrite String.eqb_refl.
  - done.
  - intros e. unfold declared; cbn. rewrite HE. split; [|by left]. intros [He|(n & Hn & Hpre & Hto)]; [done|].
    right. exists n. by rewrite <- HN.
Qed.

End properties.

(** * Examples *)

Definition sample_digest (ns : list EffectNode) (es : list Edge) (order : list string) : string :=
  foldl (fun acc s => (acc +:+ s)) "" (order ++ (e_From <$> es)).

Definition sample_effect (id : string) (prerequisites : list string) : EffectNode := {|
  n_ID := id; n_ProposalRef := "proposal"; n_TransactionRef := "transaction"; n_CapabilityRef := "capability";
  n_Prerequisites := prerequisites; n_ResourceKey := id; n_OrderingKey := ""; n_ExpectedVersion := "";
  n_Ordering := Independent; n_IdempotencyKey := id; n_Critical := false; n_Irreversible := false;
  n_DispatchCondition := "always"; n_Observation := mkObservation true "read-back"; n_Deadline := "P1D";
  n_FailurePolicy := "retry"; n_CompensationPolicy := "none"; n_RepairPolicy := "manual"; n_TerminalContribution := "required" |}.

Definition payroll_graph : Graph :=
  mkGraph [sample_effect "post" ["calculate"; "approve"]; sample_effect "calculate" []; sample_effect "approve" ["calculate"]]
          [mkEdge "calculate" "post"].
Definition payroll_compiled : CompiledGraph :=
  match Compile sample_digest payroll_graph with Ok c => c | _ => mkCompiled [] [] [] "" end.

Lemma payroll_plain : plain_ids payroll_graph.
Proof. intros n Hn. repeat (apply elem_of_cons in Hn as [->|Hn]; [reflexivity|]). by apply elem_of_nil in Hn. Qed.

Lemma effect_compile_exact_witness : publishable payroll_graph /\ ~ cyclic payroll_graph.
Proof. apply (effect_compile_exact sample_digest payroll_graph payroll_plain). vm_compute. reflexivity. Defined.

Lemma effect_order_exact_witness : c_Order payroll_compiled = ["calculate"; "approve"; "post"] /\
  c_Order payroll_compiled ≡ₚ n_ID <$> g_Nodes payroll_graph.
Proof.
  split; [vm_compute; reflexivity|].
  assert (Hc : Compile sample_digest payroll_graph = Ok payroll_compiled) by (vm_compute; reflexivity).
  destruct (effect_order_exact sample_digest payroll_graph payroll_compiled payroll_plain Hc) as (_ & _ & _ & H & _). exact H.
Defined.

Lemma effect_compile_canonical_witness : CompiledGraph_Verify sample_digest payroll_compiled = Ok tt.
Proof.
  assert (Hc : Compile sample_digest payroll_graph = Ok payroll_compiled) by (vm_compute; reflexivity).
  exact (proj1 (effect_compile_canonical sample_digest payroll_graph payroll_compiled payroll_plain Hc)).
Defined.

(** Two distinct dependencies whose ids run together around the NUL byte. *)
Definition nul : string := String Ascii.zero "".
Definition colliding_graph : Graph :=
  mkGraph [sample_effect "z" []; sample_effect (nul +:+ "a") ["z"]; sample_effect ("z" +:+ nul) []; sample_effect "a" ["z" +:+ nul]] [].

(** Ids with a NUL byte make two dependencies share a key: the second is
    dropped, and the effect runs before the one it declared as prerequisite.
    Verification does not read the stored order, so a reordered compiled graph
    still passes. *)
Theorem effect_graph_edge_cases :
  (exists c, Compile sample_digest colliding_graph = Ok c /\
     declared colliding_graph (mkEdge ("z" +:+ nul) "a") /\ (mkEdge ("z" +:+ nul) "a" ∉ c_Edges c) /\
     exists o1 o2, c_Order c = o1 ++ "a" :: o2 /\ ("z" +:+ nul) ∈ o2) /\
  CompiledGraph_Verify sample_digest
    (mkCompiled (c_Nodes payroll_compiled) (c_Edges payroll_compiled) ["post"; "approve"; "calculate"] (c_Digest payroll_compiled)) = Ok tt.
Proof.
  split; [|vm_compute; reflexivity].
  eexists. split; [vm_compute; reflexivity|]. split; [|split].
  - right. exists (sample_effect "a" ["z" +:+ nul]). cbn. split; [|split; [left|done]]. by do 3 right; left.
  - cbn. rewrite list_elem_of_singleton. discriminate.
  - exists [], ["z"; nul +:+ "a"; "z" +:+ nul]. split; [reflexivity|]. do 2 right. left.
Qed.
