(* ===== verification/FixedDecimal.v ===== *)
(** Fixed-precision decimals: [internal/kernel/values/decimal.go].

    [Decimal] is the struct with its nil pointer, [NewDecimal] ... [Quantize]
    are the operations in source order.  The decimal library that the nearest
    rounding modes call (cockroachdb/apd) is the class [DecimalBackend]; what
    the code relies on is [DecimalBackendLaws], which [apd_model] satisfies.

    The theorems at the end relate [Div], [Mul] and [Quantize] to [rounds], a
    specification of the eight rounding modes on rationals that determines
    its result, and give the text round trip, the order of [Cmp] and the
    injectivity of [Canonical]. *)

From S2P Require Import Prelude.

Local Open Scope Z_scope.

(** * Errors of package values (the sentinels of decimal.go and of the files
    that build on it) *)

Inductive values_err : Type :=
  | ErrDecimalUnset | ErrDecimalSyntax | ErrNotFinite | ErrNegativeZero
  | ErrExcessScale | ErrScaleRange | ErrPrecisionOverflow
  | ErrRoundingUnspecified | ErrRoundingMode | ErrInexact | ErrScaleMismatch
  | ErrDivideByZero
  | ErrInternalMagnitude   (* "values: internal: ..." *)
  | ErrBackend             (* "values: decimal backend rejected", "values: quantize" *)
  | ErrCurrencyCode | ErrCurrencyMismatch | ErrUnitCode | ErrUnitMismatch
  | ErrRateKind | ErrMoneyUnset | ErrQuantityUnset | ErrRateUnset
  | ErrPercentageUnset.

#[export] Instance values_err_eq_dec : EqDecision values_err.
Proof. solve_decision. Defined.

(** * Rounding modes *)

Definition MaxScale : Z := 18.
Definition MaxPrecision : Z := 38.

(** [RoundingMode] is a [uint8]; [RoundingUndeclared v] is any value past the
    declared constants. *)
Inductive RoundingMode : Type :=
  | RoundingUnspecified
  | RoundingHalfEven
  | RoundingHalfUp
  | RoundingHalfAwayFromZero
  | RoundingFloor
  | RoundingCeiling
  | RoundingTowardZero
  | RoundingAwayFromZero
  | RoundingExactRequired
  | RoundingUndeclared (v : Z).

#[export] Instance RoundingMode_eq_dec : EqDecision RoundingMode.
Proof. solve_decision. Defined.

Definition mode_is (m n : RoundingMode) : bool := bool_decide (m = n).

Definition roundingWire : list (RoundingMode * string) :=
  [ (RoundingHalfEven, "HALF_EVEN");
    (RoundingHalfUp, "HALF_UP");
    (RoundingHalfAwayFromZero, "HALF_AWAY_FROM_ZERO");
    (RoundingFloor, "FLOOR");
    (RoundingCeiling, "CEILING");
    (RoundingTowardZero, "TOWARD_ZERO");
    (RoundingAwayFromZero, "AWAY_FROM_ZERO");
    (RoundingExactRequired, "EXACT_REQUIRED") ]%string.

Fixpoint wire_of (table : list (RoundingMode * string)) (m : RoundingMode) : option string :=
  match table with
  | [] => None
  | (k, w) :: rest => if mode_is k m then Some w else wire_of rest m
  end.

Definition RoundingMode_String (m : RoundingMode) : string :=
  match wire_of roundingWire m with
  | Some w => w
  | None => "ROUNDING_UNSPECIFIED"
  end.

Definition RoundingMode_Valid (m : RoundingMode) : bool :=
  match wire_of roundingWire m with Some _ => true | None => false end.

(** The source ranges over a Go map, whose order is unspecified: the table is
    an argument, and [parse_mode_order] shows that its order is irrelevant. *)
Fixpoint parse_mode_in (table : list (RoundingMode * string)) (token : string)
    : outcome values_err RoundingMode :=
  match table with
  | [] => Err ErrRoundingMode
  | (mode, wire) :: rest => if String.eqb wire token then Ok mode else parse_mode_in rest token
  end.
Definition ParseRoundingMode (token : string) : outcome values_err RoundingMode :=
  parse_mode_in roundingWire token.

(** * The decimal backend (third-party package apd) *)

Inductive Rounder : Type :=
  | RoundHalfEven | RoundHalfUp | RoundFloor | RoundCeiling | RoundDown | RoundUp.

Definition apdRounder (m : RoundingMode) : Rounder :=
  match m with
  | RoundingHalfEven => RoundHalfEven
  | RoundingHalfUp | RoundingHalfAwayFromZero => RoundHalfUp
  | RoundingFloor => RoundFloor
  | RoundingCeiling => RoundCeiling
  | RoundingTowardZero => RoundDown
  | RoundingAwayFromZero => RoundUp
  | _ => RoundHalfEven
  end.

(** A finite [apd.Decimal] has a sign, a coefficient and an exponent;
    [Quantize ctx-precision ctx-rounding x exp] is [Context.Quantize]. *)
Class DecimalBackend : Type := {
  apd_Decimal : Type;
  apd_Negative : apd_Decimal -> bool;
  apd_Coeff : apd_Decimal -> Z;
  apd_Exponent : apd_Decimal -> Z;
  apd_NewFromString : string -> option apd_Decimal;
  apd_Quantize : Z -> Rounder -> apd_Decimal -> Z -> option apd_Decimal;
  apd_Text : apd_Decimal -> string
}.

(** [newDecimalContext]: a fresh context with ten guard digits. *)
Record Context : Type := mkContext { ctx_Precision : Z; ctx_Rounding : Rounder }.
Definition newDecimalContext (m : RoundingMode) : Context :=
  mkContext (MaxPrecision + 10) (apdRounder m).

(** * Decimal *)

Record Decimal : Type := mkDecimal {
  d_set : bool;
  d_neg : bool;
  d_unscaled : option Z;   (* the *big.Int, nil as None *)
  d_scale : Z;
  d_round : RoundingMode
}.

#[export] Instance Decimal_eq_dec : EqDecision Decimal.
Proof. solve_decision. Defined.

(** [Decimal{}]. *)
Definition Decimal_zero_value : Decimal := mkDecimal false false None 0 RoundingUnspecified.

Definition checkScale (scale : Z) : outcome values_err unit :=
  fail_if ((scale <? 0) || (MaxScale <? scale)) ErrScaleRange.

Definition checkMode (mode : RoundingMode) : outcome values_err unit :=
  if mode_is mode RoundingUnspecified then Err ErrRoundingUnspecified
  else fail_if (negb (RoundingMode_Valid mode)) ErrRoundingMode.

Definition nonFiniteTokens : list string := ["nan"; "snan"; "qnan"; "inf"; "infinity"]%string.

(** The result is [(neg, intPart, fracPart)]. *)
Definition parseFixedText (text : string) : outcome values_err (bool * string * string) :=
  let '(neg, body) := match cut_prefix "-" text with
                      | Some rest => (true, rest)
                      | None => (false, text)
                      end in
  if existsb (String.eqb (str_to_lower body)) nonFiniteTokens then Err ErrNotFinite
  else if String.eqb body "" then Err ErrDecimalSyntax
  else
    let '(intPart, fracPart, hasPoint) := str_cut "." body in
    if String.eqb intPart "" || (hasPoint && String.eqb fracPart "") then Err ErrDecimalSyntax
    else if str_forall is_digit intPart && str_forall is_digit fracPart
    then Ok (neg, intPart, fracPart)
    else Err ErrDecimalSyntax.

(** [new(big.Int).SetString(digits, 10)] on unsigned text. *)
Definition big_SetString (digits : string) : option Z :=
  if String.eqb digits "" then None
  else if str_forall is_digit digits then Some (dec_value digits 0) else None.

Definition newDecimal (neg : bool) (unscaled scale : Z) (mode : RoundingMode)
    : outcome values_err Decimal :=
  if unscaled <? 0 then Err ErrInternalMagnitude
  else if MaxPrecision <? len (dec_string unscaled) then Err ErrPrecisionOverflow
  else Ok (mkDecimal true (if unscaled =? 0 then false else neg) (Some unscaled) scale mode).

Definition NewDecimal (text : string) (scale : Z) (mode : RoundingMode)
    : outcome values_err Decimal :=
  _ ← checkScale scale;
  _ ← checkMode mode;
  p ← parseFixedText text;
  let '(neg, intPart, fracPart) := p in
  if scale <? to_int32 (len fracPart) then Err ErrExcessScale
  else
    zeros ← go_repeat "0" (scale - len fracPart);
    match big_SetString (intPart +:+ fracPart +:+ zeros) with
    | None => Err ErrDecimalSyntax
    | Some unscaled =>
        if neg && (unscaled =? 0) then Err ErrNegativeZero
        else newDecimal (neg && negb (unscaled =? 0)) unscaled scale mode
    end.

(** [MustDecimal] panics on a bad literal. *)
Definition MustDecimal (text : string) (scale : Z) (mode : RoundingMode)
    : outcome values_err Decimal :=
  match NewDecimal text scale mode with
  | Ok d => Ok d
  | _ => Panic
  end.

Definition fromSigned (signed scale : Z) (mode : RoundingMode) : outcome values_err Decimal :=
  newDecimal (signed <? 0) (Z.abs signed) scale mode.

Definition Decimal_Validate (d : Decimal) : outcome values_err unit :=
  match d_set d, d_unscaled d with
  | true, Some u =>
      _ ← checkScale (d_scale d);
      _ ← checkMode (d_round d);
      _ ← fail_if (u <? 0) ErrInternalMagnitude;
      _ ← fail_if (d_neg d && (u =? 0)) ErrNegativeZero;
      fail_if (MaxPrecision <? len (dec_string u)) ErrPrecisionOverflow
  | _, _ => Err ErrDecimalUnset
  end.

Definition Decimal_Unscaled (d : Decimal) : Z :=
  match d_unscaled d with None => 0 | Some u => u end.

Definition Decimal_Sign (d : Decimal) : Z :=
  match d_unscaled d with
  | None => 0
  | Some u => if u =? 0 then 0 else if d_neg d then -1 else 1
  end.

Definition Decimal_IsZero (d : Decimal) : bool := Decimal_Sign d =? 0.

Definition Decimal_signed (d : Decimal) : Z :=
  let v := Decimal_Unscaled d in if d_neg d then - v else v.

Definition Decimal_WithRounding (d : Decimal) (mode : RoundingMode) : outcome values_err Decimal :=
  _ ← Decimal_Validate d;
  _ ← checkMode mode;
  Ok (mkDecimal (d_set d) (d_neg d) (Some (Decimal_Unscaled d)) (d_scale d) mode).

Definition formatFixed (mag : Z) (neg : bool) (scale : Z) : string :=
  let digits := dec_string mag in
  let digits := if len digits <=? scale
                then str_repeat "0" (Z.to_nat (scale - len digits + 1)) +:+ digits
                else digits in
  let split := Z.to_nat (len digits - scale) in
  (if neg && negb (mag =? 0) then "-" else "") +:+ str_take split digits +:+
  (if 0 <? scale then String "." (str_drop split digits) else "").

Definition Decimal_String (d : Decimal) : string :=
  if is_ok (Decimal_Validate d) then formatFixed (Decimal_Unscaled d) (d_neg d) (d_scale d)
  else "".

(** [None] is the nil slice of an invalid value. *)
Definition Decimal_Canonical (d : Decimal) : option (list Z) :=
  if is_ok (Decimal_Validate d) then
    let mag := mag_bytes (Decimal_Unscaled d) in
    let tag := if Decimal_Sign d =? 0 then 0 else if Decimal_Sign d =? 1 then 1 else 2 in
    Some (tag :: be_bytes 4 (to_uint32 (d_scale d))
            ++ be_bytes 4 (to_uint32 (Z.of_nat (length mag))) ++ mag)
  else None.

Definition Decimal_MarshalText (d : Decimal) : outcome values_err string :=
  _ ← Decimal_Validate d;
  Ok (Decimal_String d +:+ "/" +:+ RoundingMode_String (d_round d)).

(** The receiver is zeroed first; the result is its value on success. *)
Definition Decimal_UnmarshalText (text : string) : outcome values_err Decimal :=
  let '(number, modeToken, ok) := str_cut "/" text in
  if negb ok then Err ErrDecimalSyntax
  else
    mode ← ParseRoundingMode modeToken;
    p ← parseFixedText number;
    NewDecimal number (to_int32 (len (snd p))) mode.

Definition pow10 (n : Z) : Z := 10 ^ n.

(** [big.Int.Cmp]. *)
Definition big_cmp (a b : Z) : Z :=
  match a ?= b with Lt => -1 | Eq => 0 | Gt => 1 end.

Definition Decimal_Cmp (d o : Decimal) : Z :=
  if negb (is_ok (Decimal_Validate d)) || negb (is_ok (Decimal_Validate o)) then
    if is_ok (Decimal_Validate d) then 1
    else if is_ok (Decimal_Validate o) then -1
    else 0
  else
    let a := Decimal_signed d in
    let b := Decimal_signed o in
    if d_scale d <? d_scale o then big_cmp (a * pow10 (d_scale o - d_scale d)) b
    else if d_scale o <? d_scale d then big_cmp a (b * pow10 (d_scale d - d_scale o))
    else big_cmp a b.

Definition Decimal_Equal (d o : Decimal) : bool := Decimal_Cmp d o =? 0.

Definition Decimal_Add (d o : Decimal) : outcome values_err Decimal :=
  _ ← Decimal_Validate d;
  _ ← Decimal_Validate o;
  _ ← fail_if (negb (d_scale d =? d_scale o)) ErrScaleMismatch;
  fromSigned (Decimal_signed d + Decimal_signed o) (d_scale d) (d_round d).

Definition Decimal_Sub (d o : Decimal) : outcome values_err Decimal :=
  _ ← Decimal_Validate d;
  _ ← Decimal_Validate o;
  _ ← fail_if (negb (d_scale d =? d_scale o)) ErrScaleMismatch;
  fromSigned (Decimal_signed d - Decimal_signed o) (d_scale d) (d_round d).

Definition Decimal_Neg (d : Decimal) : outcome values_err Decimal :=
  _ ← Decimal_Validate d;
  fromSigned (- Decimal_signed d) (d_scale d) (d_round d).

Definition Decimal_Abs (d : Decimal) : outcome values_err Decimal :=
  _ ← Decimal_Validate d;
  newDecimal false (Decimal_Unscaled d) (d_scale d) (d_round d).

Definition directedRounding (mode : RoundingMode) : bool :=
  mode_is mode RoundingFloor || mode_is mode RoundingCeiling
  || mode_is mode RoundingTowardZero || mode_is mode RoundingAwayFromZero.

Definition nearestRounding (mode : RoundingMode) : bool :=
  mode_is mode RoundingHalfEven || mode_is mode RoundingHalfUp
  || mode_is mode RoundingHalfAwayFromZero.

Fixpoint all_zero_loop (s : string) (seen : bool) : bool :=
  match s with
  | EmptyString => seen
  | String c s' =>
      if Ascii.eqb c "." then all_zero_loop s' seen
      else if is_digit c then (if Ascii.eqb c "0" then all_zero_loop s' true else false)
      else false
  end.
Definition isAllZeroDigits (s : string) : bool := all_zero_loop s false.

Definition decimalFromBackendText (text : string) (scale : Z) (mode : RoundingMode)
    : outcome values_err Decimal :=
  let text' := match cut_prefix "-" text with
               | Some stripped => if isAllZeroDigits stripped then stripped else text
               | None => text
               end in
  NewDecimal text' scale mode.

(** The rounding decision of [Div] once the remainder is non-zero. *)
Definition div_increment (mode : RoundingMode) (negative : bool)
    (quotient remainder denominator : Z) : bool :=
  if nearestRounding mode then
    let comparison := big_cmp (Z.shiftl remainder 1) denominator in
    (0 <? comparison)
    || ((comparison =? 0) && (negb (mode_is mode RoundingHalfEven) || Z.odd quotient))
  else
    mode_is mode RoundingAwayFromZero
    || (mode_is mode RoundingFloor && negative)
    || (mode_is mode RoundingCeiling && negb negative).

Definition Decimal_Div (d o : Decimal) (scale : Z) (mode : RoundingMode)
    : outcome values_err Decimal :=
  _ ← Decimal_Validate d;
  _ ← Decimal_Validate o;
  _ ← fail_if (Decimal_IsZero o) ErrDivideByZero;
  _ ← checkScale scale;
  _ ← checkMode mode;
  let shift := d_scale o + scale - d_scale d in
  let numerator := if 0 <=? shift then Decimal_Unscaled d * pow10 shift else Decimal_Unscaled d in
  let denominator := if 0 <=? shift then Decimal_Unscaled o
                     else Decimal_Unscaled o * pow10 (- shift) in
  let quotient := Z.quot numerator denominator in
  let remainder := Z.rem numerator denominator in
  let negative := negb (Decimal_Sign d =? Decimal_Sign o) in
  if negb (remainder =? 0) && mode_is mode RoundingExactRequired then Err ErrInexact
  else
    let quotient' := if negb (remainder =? 0) && div_increment mode negative quotient remainder denominator
                     then quotient + 1 else quotient in
    fromSigned (if negative then - quotient' else quotient') scale mode.

Section Backend.

Context `{B : DecimalBackend}.

(** Narrowing by the directed modes, on integers. *)
Definition quantize_directed (signed divisor : Z) (mode : RoundingMode) : Z :=
  let magnitude := Z.quot (Z.abs signed) divisor in
  let remainder := Z.rem (Z.abs signed) divisor in
  let magnitude' :=
    if negb (remainder =? 0)
       && (mode_is mode RoundingAwayFromZero
           || (mode_is mode RoundingFloor && (signed <? 0))
           || (mode_is mode RoundingCeiling && (0 <? signed)))
    then magnitude + 1 else magnitude in
  if signed <? 0 then - magnitude' else magnitude'.

(** Narrowing by the backend: print, parse, quantize, print, parse. *)
Definition quantize_backend (signed fromScale toScale : Z) (mode : RoundingMode)
    : outcome values_err Decimal :=
  match apd_NewFromString (formatFixed (Z.abs signed) (signed <? 0) fromScale) with
  | None => Err ErrBackend
  | Some x =>
      let ctx := newDecimalContext mode in
      match apd_Quantize (ctx_Precision ctx) (ctx_Rounding ctx) x (- toScale) with
      | None => Err ErrBackend
      | Some out => decimalFromBackendText (apd_Text out) toScale mode
      end
  end.

Definition quantizeSigned (signed fromScale toScale : Z) (mode : RoundingMode)
    : outcome values_err Decimal :=
  _ ← checkScale toScale;
  _ ← checkMode mode;
  if fromScale <=? toScale then fromSigned (signed * pow10 (toScale - fromScale)) toScale mode
  else if mode_is mode RoundingExactRequired
          && negb (Z.abs signed mod pow10 (fromScale - toScale) =? 0) then Err ErrInexact
  else if directedRounding mode
  then fromSigned (quantize_directed signed (pow10 (fromScale - toScale)) mode) toScale mode
  else quantize_backend signed fromScale toScale mode.

Definition Decimal_Mul (d o : Decimal) (scale : Z) (mode : RoundingMode)
    : outcome values_err Decimal :=
  _ ← Decimal_Validate d;
  _ ← Decimal_Validate o;
  quantizeSigned (Decimal_signed d * Decimal_signed o) (d_scale d + d_scale o) scale mode.

Definition Decimal_Quantize (d : Decimal) (scale : Z) (mode : RoundingMode)
    : outcome values_err Decimal :=
  _ ← Decimal_Validate d;
  quantizeSigned (Decimal_signed d) (d_scale d) scale mode.

End Backend.

(** * Specification *)

(** [rounds mode n d q]: the integer [q] is the value of the rational [n / d]
    ([d > 0]) rounded by [mode]. *)
Definition rounds (mode : RoundingMode) (n d q : Z) : Prop :=
  match mode with
  | RoundingFloor => q * d <= n < (q + 1) * d
  | RoundingCeiling => (q - 1) * d < n <= q * d
  | RoundingTowardZero =>
      Z.abs q * d <= Z.abs n < (Z.abs q + 1) * d /\ (0 <= n -> 0 <= q) /\ (n <= 0 -> q <= 0)
  | RoundingAwayFromZero =>
      (Z.abs q - 1) * d < Z.abs n <= Z.abs q * d /\ (0 <= n -> 0 <= q) /\ (n <= 0 -> q <= 0)
  | RoundingHalfEven =>
      2 * Z.abs (q * d - n) <= d /\ (2 * Z.abs (q * d - n) = d -> Z.odd q = false)
  | RoundingHalfUp | RoundingHalfAwayFromZero =>
      2 * Z.abs (q * d - n) <= d /\ (2 * Z.abs (q * d - n) = d -> Z.abs n <= Z.abs (q * d))
  | RoundingExactRequired => q * d = n
  | RoundingUnspecified | RoundingUndeclared _ => False
  end.

(** The valid decimal with a given signed unscaled integer. *)
Definition dec_of (q scale : Z) (mode : RoundingMode) : Decimal :=
  mkDecimal true (q <? 0) (Some (Z.abs q)) scale mode.

(** The invariant [Validate] checks. *)
Definition dec_wf (d : Decimal) : Prop :=
  exists q s m, d = dec_of q s m
    /\ Z.abs q < 10 ^ MaxPrecision /\ 0 <= s <= MaxScale /\ RoundingMode_Valid m = true.

(** What the code relies on of apd: parsing and printing of plain fixed-point
    text, and correct rounding of [Quantize] in the two nearest modes, with an
    error exactly when the result needs more digits than the context has. *)
Definition nearest_mag (r : Rounder) (c p : Z) : Z :=
  let q := c / p in
  let rem := c mod p in
  if (p <? 2 * rem)
     || ((2 * rem =? p) && match r with RoundHalfUp => true | _ => Z.odd q end)
  then q + 1 else q.

Definition sign_text (neg : bool) : string := if neg then "-" else "".
Definition plain_text (i f : string) : string :=
  i +:+ match f with EmptyString => "" | _ => String "." f end.
Definition plain_digits (i f : string) : Prop :=
  i <> EmptyString /\ str_forall is_digit i = true /\ str_forall is_digit f = true.

Class DecimalBackendLaws (B : DecimalBackend) : Prop := {
  apd_parse neg i f :
    plain_digits i f ->
    exists x, apd_NewFromString (sign_text neg +:+ plain_text i f) = Some x
      /\ apd_Negative x = neg /\ apd_Coeff x = dec_value (i +:+ f) 0
      /\ apd_Exponent x = - len f;
  apd_quantize_nearest prec r x exp :
    0 < prec -> r = RoundHalfEven \/ r = RoundHalfUp ->
    0 <= apd_Coeff x -> apd_Exponent x <= exp <= 0 ->
    let q := nearest_mag r (apd_Coeff x) (10 ^ (exp - apd_Exponent x)) in
    if q <? 10 ^ prec
    then exists y, apd_Quantize prec r x exp = Some y
           /\ apd_Negative y = apd_Negative x /\ apd_Coeff y = q /\ apd_Exponent y = exp
    else apd_Quantize prec r x exp = None;
  apd_print y :
    0 <= apd_Coeff y -> apd_Exponent y <= 0 ->
    exists i f, apd_Text y = (sign_text (apd_Negative y) +:+ plain_text i f)
      /\ plain_digits i f /\ dec_value (i +:+ f) 0 = apd_Coeff y /\ len f = - apd_Exponent y
}.

(** * Lemmas *)

Lemma mode_is_true m n : mode_is m n = true <-> m = n.
Proof. unfold mode_is. apply bool_decide_eq_true. Qed.

Lemma mode_is_false m n : mode_is m n = false <-> m <> n.
Proof. unfold mode_is. apply bool_decide_eq_false. Qed.

Lemma checkScale_ok s : checkScale s = Ok tt <-> 0 <= s <= MaxScale.
Proof.
  unfold checkScale, fail_if, MaxScale.
  destruct (Z.ltb_spec s 0), (Z.ltb_spec 18 s); cbn; split; try discriminate; try done; lia.
Qed.

Lemma checkMode_ok m : checkMode m = Ok tt <-> RoundingMode_Valid m = true.
Proof. destruct m; vm_compute; split; congruence. Qed.

Lemma valid_mode_cases m : RoundingMode_Valid m = true ->
  m = RoundingHalfEven \/ m = RoundingHalfUp \/ m = RoundingHalfAwayFromZero \/ m = RoundingFloor
  \/ m = RoundingCeiling \/ m = RoundingTowardZero \/ m = RoundingAwayFromZero
  \/ m = RoundingExactRequired.
Proof. destruct m; vm_compute; intros; try discriminate; tauto. Qed.

Lemma checkScale_inv s u : checkScale s = Ok u -> 0 <= s <= MaxScale.
Proof. destruct u. apply checkScale_ok. Qed.

Lemma checkMode_inv m u : checkMode m = Ok u -> RoundingMode_Valid m = true.
Proof. destruct u. apply checkMode_ok. Qed.

Lemma Decimal_signed_dec_of q s m : Decimal_signed (dec_of q s m) = q.
Proof. unfold Decimal_signed, Decimal_Unscaled, dec_of. cbn. destruct (Z.ltb_spec q 0); lia. Qed.

Lemma Decimal_Sign_dec_of q s m : Decimal_Sign (dec_of q s m) = Z.sgn q.
Proof.
  unfold Decimal_Sign, dec_of. cbn.
  destruct (Z.eqb_spec (Z.abs q) 0), (Z.ltb_spec q 0); lia.
Qed.

Lemma precision_check u : 0 <= u -> (MaxPrecision <? len (dec_string u)) = negb (u <? 10 ^ MaxPrecision).
Proof.
  intros Hu. unfold MaxPrecision. pose proof (dec_string_len_le u 38 Hu ltac:(lia)) as H.
  destruct (Z.ltb_spec 38 (len (dec_string u))), (Z.ltb_spec u (10 ^ 38)); cbn; try done; lia.
Qed.

Lemma newDecimal_spec neg u s m : 0 <= u ->
  newDecimal neg u s m =
    if u <? 10 ^ MaxPrecision then Ok (dec_of (if neg then - u else u) s m)
    else Err ErrPrecisionOverflow.
Proof.
  intros Hu. unfold newDecimal. rewrite precision_check by done.
  destruct (Z.ltb_spec u 0); [lia|]. destruct (Z.ltb_spec u (10 ^ MaxPrecision)); cbn [negb]; [|done].
  unfold dec_of. f_equal. f_equal.
  - destruct (Z.eqb_spec u 0), neg, (Z.ltb_spec (- u) 0), (Z.ltb_spec u 0); try done; lia.
  - f_equal. destruct neg; lia.
Qed.

Lemma fromSigned_spec q s m :
  fromSigned q s m = if Z.abs q <? 10 ^ MaxPrecision then Ok (dec_of q s m)
                     else Err ErrPrecisionOverflow.
Proof.
  unfold fromSigned. rewrite newDecimal_spec by lia.
  destruct (Z.abs q <? 10 ^ MaxPrecision); [|done]. do 2 f_equal.
  destruct (Z.ltb_spec q 0); lia.
Qed.

Lemma Decimal_Validate_ok d : Decimal_Validate d = Ok tt <-> dec_wf d.
Proof.
  unfold Decimal_Validate, dec_wf. split.
  - destruct d as [[] neg [u|] s m]; cbn [d_set d_neg d_unscaled d_scale d_round]; try discriminate.
    intros H. ok_inv. apply checkScale_inv in Hok. apply checkMode_inv in Hok0.
    apply Z.ltb_ge in Hok1. rewrite precision_check in H by done.
    apply negb_false_iff, Z.ltb_lt in H. apply andb_false_iff in Hok2.
    exists (if neg then - u else u), s, m. unfold dec_of. split; [|split; [|done]].
    + f_equal.
      * destruct neg, (Z.ltb_spec (- u) 0), (Z.ltb_spec u 0); try done; try lia.
      * f_equal. destruct neg; lia.
    + destruct neg; lia.
  - intros (q & s & m & -> & Hq & Hs & Hm). cbn [d_set d_neg d_unscaled d_scale d_round dec_of].
    rewrite (proj2 (checkScale_ok _) Hs), (proj2 (checkMode_ok _) Hm). cbn [mbind outcome_bind fail_if].
    rewrite (proj2 (Z.ltb_ge (Z.abs q) 0)) by lia. cbn [mbind outcome_bind fail_if]. rewrite precision_check by lia.
    rewrite (proj2 (Z.ltb_lt _ _) Hq). cbn [mbind outcome_bind fail_if].
    destruct (Z.ltb_spec q 0), (Z.eqb_spec (Z.abs q) 0); try done; lia.
Qed.

Lemma Decimal_Validate_inv d u : Decimal_Validate d = Ok u -> dec_wf d.
Proof. destruct u. apply Decimal_Validate_ok. Qed.

Lemma dec_wf_valid d : dec_wf d -> is_ok (Decimal_Validate d) = true.
Proof. intros H. by rewrite (proj2 (Decimal_Validate_ok d) H). Qed.

Lemma dec_wf_dec_of q s m :
  Z.abs q < 10 ^ MaxPrecision -> 0 <= s <= MaxScale -> RoundingMode_Valid m = true ->
  dec_wf (dec_of q s m).
Proof. intros. by exists q, s, m. Qed.

Lemma dec_wf_eta d : dec_wf d -> d = dec_of (Decimal_signed d) (d_scale d) (d_round d).
Proof. intros (q & s & m & -> & _). by rewrite Decimal_signed_dec_of. Qed.

Lemma dec_wf_bound d : dec_wf d -> Z.abs (Decimal_signed d) < 10 ^ MaxPrecision.
Proof. intros (q & s & m & -> & H & _). by rewrite Decimal_signed_dec_of. Qed.

Lemma fromSigned_ok q s m d :
  0 <= s <= MaxScale -> RoundingMode_Valid m = true ->
  fromSigned q s m = Ok d -> dec_wf d /\ Decimal_signed d = q /\ d_scale d = s /\ d_round d = m.
Proof.
  intros Hs Hm. rewrite fromSigned_spec.
  destruct (Z.ltb_spec (Z.abs q) (10 ^ MaxPrecision)); [|discriminate].
  intros [= <-]. rewrite Decimal_signed_dec_of. split; [by apply dec_wf_dec_of | done].
Qed.

(** ** Rounding *)

Lemma rounds_scale mode n d q k : 0 < k -> rounds mode (n * k) (d * k) q <-> rounds mode n d q.
Proof.
  intros Hk.
  assert (Ha : Z.abs (n * k) = Z.abs n * k) by (rewrite Z.abs_mul, (Z.abs_eq k); lia).
  assert (Hm : forall a b, a * k <= b * k <-> a <= b) by (intros; nia).
  assert (Hl : forall a b, a * k < b * k <-> a < b) by (intros; nia).
  assert (He : forall a b, a * k = b * k <-> a = b) by (intros; nia).
  assert (H0 : 0 <= n * k <-> 0 <= n) by nia. assert (H1 : n * k <= 0 <-> n <= 0) by nia.
  destruct mode; unfold rounds; try done; rewrite ?Ha, ?H0, ?H1;
    try (replace (q * (d * k) - n * k) with ((q * d - n) * k) by lia);
    rewrite ?Z.abs_mul, ?(Z.abs_eq k), ?Z.mul_assoc by lia; rewrite ?Hm, ?Hl, ?He; done.
Qed.

Lemma odd_succ_even q : Z.odd q = false -> Z.odd (q + 1) = true.
Proof. intros H. change (q + 1) with (Z.succ q). by rewrite Z.odd_succ, <- Z.negb_odd, H. Qed.

Lemma odd_neighbours q p : Z.odd q = false -> Z.odd p = false -> q - p = 1 \/ p - q = 1 -> False.
Proof.
  intros Hq Hp [H|H].
  - apply odd_succ_even in Hp. replace (p + 1) with q in Hp by lia. congruence.
  - apply odd_succ_even in Hq. replace (q + 1) with p in Hq by lia. congruence.
Qed.

(** Two candidates within half a unit are equal or the two ends of a tie. *)
Lemma near_neighbours n d q q' :
  0 < d -> 2 * Z.abs (q * d - n) <= d -> 2 * Z.abs (q' * d - n) <= d ->
  q = q'
  \/ (q - q' = 1 /\ 2 * (q * d - n) = d /\ 2 * (n - q' * d) = d)
  \/ (q' - q = 1 /\ 2 * (q' * d - n) = d /\ 2 * (n - q * d) = d).
Proof.
  intros Hd H H'. destruct (Z.lt_trichotomy q q') as [Hlt|[->|Hgt]]; [|by left|].
  - right; right. assert ((q' - q) * d <= d) by lia. assert (q' - q = 1) by nia.
    replace q' with (q + 1) in * by lia. lia.
  - right; left. assert ((q - q') * d <= d) by lia. assert (q - q' = 1) by nia.
    replace q with (q' + 1) in * by lia. lia.
Qed.

Lemma tie_away n d q : 0 < d -> 2 * (q * d - n) = d ->
  Z.abs n <= Z.abs (q * d) -> Z.abs n <= Z.abs ((q - 1) * d) -> False.
Proof.
  intros Hd E H H'. destruct (Z.le_gt_cases q 0);
    [assert (q * d <= 0) by nia | assert (d <= q * d) by nia]; lia.
Qed.

(** The specification determines the rounded value. *)
Lemma rounds_unique mode n d q q' : 0 < d -> rounds mode n d q -> rounds mode n d q' -> q = q'.
Proof.
  intros Hd. destruct mode; unfold rounds; intros H H'; try done; try nia;
    destruct H as [H He], H' as [H' He'];
    destruct (near_neighbours n d q q' Hd H H') as [|[(Hn & E & E')|(Hn & E & E')]]; try done; exfalso.
  - eapply (odd_neighbours q q'); [apply He; lia | apply He'; lia | lia].
  - eapply (odd_neighbours q q'); [apply He; lia | apply He'; lia | lia].
  - replace q' with (q - 1) in * by lia. eapply (tie_away n d q); [lia.. | apply He | apply He']; lia.
  - replace q with (q' - 1) in * by lia. eapply (tie_away n d q'); [lia.. | apply He' | apply He]; lia.
  - replace q' with (q - 1) in * by lia. eapply (tie_away n d q); [lia.. | apply He | apply He']; lia.
  - replace q with (q' - 1) in * by lia. eapply (tie_away n d q'); [lia.. | apply He' | apply He]; lia.
Qed.

(** Magnitude rounding with the decision of [Div], on [Z.div] and [Z.modulo]. *)
Definition round_mag (mode : RoundingMode) (neg : bool) (num den : Z) : Z :=
  if negb (num mod den =? 0) && div_increment mode neg (num / den) (num mod den) den
  then num / den + 1 else num / den.

Lemma big_cmp_double r den :
  big_cmp (Z.shiftl r 1) den = match 2 * r ?= den with Lt => -1 | Eq => 0 | Gt => 1 end.
Proof. unfold big_cmp. rewrite Z.shiftl_mul_pow2 by lia. by rewrite Z.mul_comm. Qed.

Lemma div_increment_nearest mode neg q r den : nearestRounding mode = true ->
  div_increment mode neg q r den
  = (den <? 2 * r) || ((2 * r =? den) && (negb (mode_is mode RoundingHalfEven) || Z.odd q)).
Proof.
  intros H. unfold div_increment. rewrite H, big_cmp_double.
  destruct (Z.compare_spec (2 * r) den), (Z.ltb_spec den (2 * r)), (Z.eqb_spec (2 * r) den);
    cbn; try done; lia.
Qed.

(** Solves the bounds of [rounds] once the quotient is known. *)
Ltac rounds_lia :=
  unfold rounds; rewrite ?Z.mul_opp_l, ?Z.mul_add_distr_r, ?Z.mul_1_l; split_and?; intros; try lia.

Lemma round_mag_half_even (neg : bool) q r den :
  0 <= q -> 0 < r < den ->
  let q' := if div_increment RoundingHalfEven neg q r den then q + 1 else q in
  rounds RoundingHalfEven (if neg then - (q * den + r) else q * den + r) den
    (if neg then - q' else q').
Proof.
  intros Hq Hr. cbv zeta. rewrite div_increment_nearest by done.
  change (negb (mode_is RoundingHalfEven RoundingHalfEven)) with false. cbn [orb].
  assert (0 <= q * den) by nia.
  destruct (Z.ltb_spec den (2 * r)); cbn [orb]; [destruct neg; rounds_lia|].
  destruct (Z.eqb_spec (2 * r) den); cbn [andb]; [|destruct neg; rounds_lia].
  destruct (Z.odd q) eqn:Ho; destruct neg; rounds_lia; rewrite ?Z.odd_opp; try done;
    change (q + 1) with (Z.succ q); by rewrite Z.odd_succ, <- Z.negb_odd, Ho.
Qed.

Lemma round_mag_half_up (neg : bool) mode q r den :
  mode = RoundingHalfUp \/ mode = RoundingHalfAwayFromZero ->
  0 <= q -> 0 < r < den ->
  let q' := if div_increment mode neg q r den then q + 1 else q in
  rounds mode (if neg then - (q * den + r) else q * den + r) den (if neg then - q' else q').
Proof.
  intros Hmode Hq Hr. cbv zeta. assert (0 <= q * den) by nia.
  destruct Hmode as [-> | ->]; rewrite div_increment_nearest by done;
    (change (negb (mode_is _ RoundingHalfEven)) with true; cbn [orb]; rewrite andb_true_r;
     destruct (Z.ltb_spec den (2 * r)), (Z.eqb_spec (2 * r) den); cbn [orb]; destruct neg; rounds_lia).
Qed.

Lemma round_mag_rounds mode (neg : bool) num den :
  0 <= num -> 0 < den -> RoundingMode_Valid mode = true ->
  (mode = RoundingExactRequired -> num mod den = 0) ->
  rounds mode (if neg then - num else num) den
    (if neg then - round_mag mode neg num den else round_mag mode neg num den).
Proof.
  intros Hn Hd Hv Hex. unfold round_mag.
  pose proof (Z.div_mod num den ltac:(lia)) as Hdm. pose proof (Z.mod_pos_bound num den Hd) as Hm.
  pose proof (Z.div_pos num den Hn Hd) as Hq.
  set (q := num / den) in *. set (r := num mod den) in *. clearbody q r.
  assert (num = q * den + r) as -> by lia. assert (0 <= q * den) by nia. clear Hdm.
  destruct (Z.eqb_spec r 0) as [->|Hr]; cbn [negb andb].
  - destruct (valid_mode_cases mode Hv) as [-> | [-> | [-> | [-> | [-> | [-> | [-> | ->]]]]]]];
      destruct neg; rounds_lia.
  - destruct (valid_mode_cases mode Hv) as [-> | [-> | [-> | [-> | [-> | [-> | [-> | ->]]]]]]].
    + apply round_mag_half_even; lia.
    + apply round_mag_half_up; [by left | lia..].
    + apply round_mag_half_up; [by right | lia..].
    + destruct neg; [change (div_increment _ _ _ _ _) with true | change (div_increment _ _ _ _ _) with false];
        rounds_lia.
    + destruct neg; [change (div_increment _ _ _ _ _) with false | change (div_increment _ _ _ _ _) with true];
        rounds_lia.
    + destruct neg; [change (div_increment _ _ _ _ _) with false | change (div_increment _ _ _ _ _) with false];
        rounds_lia.
    + destruct neg; [change (div_increment _ _ _ _ _) with true | change (div_increment _ _ _ _ _) with true];
        rounds_lia.
    + by specialize (Hex eq_refl).
Qed.

(** ** Text *)

Lemma digit_neq c x : is_digit c = true -> is_digit x = false -> Ascii.eqb c x = false.
Proof. intros Hc Hx. destruct (Ascii.eqb_spec c x) as [->|]; congruence. Qed.

Lemma to_lower_digit c : is_digit c = true -> to_lower_char c = c.
Proof.
  intros Hc. apply is_digit_range in Hc. unfold digit_value in Hc.
  unfold to_lower_char, is_upper, in_range. change (byte_of "A") with 65.
  destruct (Z.leb_spec 65 (byte_of c)); [lia | done].
Qed.

Lemma lower_digit_head c s : is_digit c = true ->
  exists t, str_to_lower (String c s) = String c t.
Proof.
  intros Hc. cbn [str_to_lower]. rewrite (to_lower_digit c Hc).
  destruct s as [|c' s]; [eauto|].
  apply is_digit_range in Hc. unfold digit_value in Hc.
  destruct (Z.eqb_spec (byte_of c) 196); [lia|]. cbn [andb]. eauto.
Qed.

Lemma digit_head_finite c s : is_digit c = true ->
  existsb (String.eqb (str_to_lower (String c s))) nonFiniteTokens = false.
Proof.
  intros Hc. destruct (lower_digit_head c s Hc) as [t ->].
  unfold nonFiniteTokens. cbn [existsb String.eqb].
  rewrite (digit_neq c "n" Hc eq_refl), (digit_neq c "s" Hc eq_refl),
    (digit_neq c "q" Hc eq_refl), (digit_neq c "i" Hc eq_refl).
  done.
Qed.

Lemma digits_contain c s : is_digit c = false ->
  str_forall is_digit s = true -> str_contains c s = false.
Proof.
  intros Hc Hs. apply str_contains_forall. eapply str_forall_impl; [|exact Hs].
  intros d Hd. by rewrite (digit_neq d c Hd Hc).
Qed.

Lemma digit_no_minus c s : is_digit c = true -> cut_prefix "-" (String c s) = None.
Proof.
  intros Hc. cbn [cut_prefix]. rewrite Ascii.eqb_sym.
  by rewrite (digit_neq c "-" Hc eq_refl).
Qed.

Lemma parse_body c s i f : plain_digits i f -> plain_text i f = String c s ->
  let '(a, b, hasPoint) := str_cut "." (String c s) in
  a = i /\ b = f /\ (hasPoint = true -> f <> EmptyString).
Proof.
  intros (Hne & Hi & Hf) <-. unfold plain_text.
  pose proof (digits_contain "." i eq_refl Hi) as Hc.
  destruct f as [|c' f].
  - rewrite append_nil_r, str_cut_none by done. done.
  - by rewrite str_cut_here by done.
Qed.

Lemma parse_plain neg i f : plain_digits i f ->
  parseFixedText (sign_text neg +:+ plain_text i f) = Ok (neg, i, f).
Proof.
  intros Hp. pose proof Hp as (Hne & Hi & Hf).
  destruct i as [|c i]; [done|]. cbn in Hi. apply andb_true_iff in Hi as [Hc Hi].
  assert (Hpt : exists s, plain_text (String c i) f = String c s) by (unfold plain_text; cbn; eauto).
  destruct Hpt as [s Hs]. pose proof (parse_body c s _ f Hp Hs) as Hcut.
  unfold parseFixedText. rewrite Hs.
  assert (Hsgn : match cut_prefix "-" (sign_text neg +:+ String c s) with
                 | Some rest => (true, rest)
                 | None => (false, sign_text neg +:+ String c s)
                 end = (neg, String c s)).
  { destruct neg; cbn [sign_text String.append].
    - by destruct s.
    - by rewrite digit_no_minus. }
  rewrite Hsgn, digit_head_finite by done. cbn [String.eqb].
  destruct (str_cut "." (String c s)) as [[a b] hasPoint]. destruct Hcut as (-> & -> & Hpoint).
  cbn [String.eqb orb]. destruct hasPoint; cbn [andb].
  - specialize (Hpoint eq_refl). destruct f; [done|]. cbn [String.eqb str_forall].
    rewrite Hc, Hi. cbn [andb]. cbn in Hf. by rewrite Hf.
  - cbn [str_forall]. by rewrite Hc, Hi, Hf.
Qed.

Lemma NewDecimal_plain neg i f scale mode :
  plain_digits i f -> len f <= scale -> 0 <= scale <= MaxScale -> RoundingMode_Valid mode = true ->
  NewDecimal (sign_text neg +:+ plain_text i f) scale mode =
    let u := dec_value (i +:+ f) 0 * 10 ^ (scale - len f) in
    if neg && (u =? 0) then Err ErrNegativeZero
    else if u <? 10 ^ MaxPrecision then Ok (dec_of (if neg then - u else u) scale mode)
    else Err ErrPrecisionOverflow.
Proof.
  intros Hp Hl Hs Hm. unfold NewDecimal.
  rewrite (proj2 (checkScale_ok _) Hs), (proj2 (checkMode_ok _) Hm), (parse_plain neg i f Hp).
  cbn [mbind outcome_bind]. pose proof (len_nonneg f).
  rewrite to_int32_small by (unfold MaxScale in Hs; lia).
  rewrite (proj2 (Z.ltb_ge scale (len f))) by lia.
  unfold go_repeat. rewrite (proj2 (Z.ltb_ge (scale - len f) 0)) by lia. cbn [mbind outcome_bind].
  destruct Hp as (Hne & Hi & Hf).
  assert (Hd : str_forall is_digit (i +:+ f +:+ str_repeat "0" (Z.to_nat (scale - len f))) = true).
  { rewrite !str_forall_app, Hi, Hf. by rewrite str_forall_repeat. }
  unfold big_SetString. rewrite Hd.
  assert (Hnil : String.eqb (i +:+ f +:+ str_repeat "0" (Z.to_nat (scale - len f))) "" = false)
    by (destruct i; done).
  rewrite Hnil. cbv zeta.
  assert (Hv : dec_value (i +:+ f +:+ str_repeat "0" (Z.to_nat (scale - len f))) 0
               = dec_value (i +:+ f) 0 * 10 ^ (scale - len f)).
  { rewrite <- append_assoc, dec_value_app, dec_value_repeat0, Z2Nat.id by lia. done. }
  rewrite Hv. set (u := dec_value (i +:+ f) 0 * 10 ^ (scale - len f)).
  assert (0 <= u).
  { apply Z.mul_nonneg_nonneg; [|apply Z.pow_nonneg; lia].
    apply dec_value_bound. by rewrite str_forall_app, Hi, Hf. }
  destruct (neg && (u =? 0)) eqn:E; [done|].
  rewrite newDecimal_spec by done. destruct (u <? 10 ^ MaxPrecision); [|done].
  do 2 f_equal. destruct neg; [|done]. cbn [andb] in *. by rewrite E.
Qed.

Lemma formatFixed_plain mag neg scale : 0 <= mag -> 0 <= scale ->
  exists i f, formatFixed mag neg scale = (sign_text (neg && negb (mag =? 0)) +:+ plain_text i f)
    /\ plain_digits i f /\ dec_value (i +:+ f) 0 = mag /\ len f = scale.
Proof.
  intros Hm Hs. unfold formatFixed.
  destruct (dec_string_spec mag Hm) as (Hv & Hd & Hne & _).
  set (digits := if _ <=? scale then _ else _).
  assert (Hdig : str_forall is_digit digits = true /\ dec_value digits 0 = mag /\ scale < len digits).
  { unfold digits. destruct (Z.leb_spec (len (dec_string mag)) scale); [|done].
    rewrite str_forall_app, str_forall_repeat, Hd by done.
    rewrite dec_value_app, dec_value_repeat0, Z.mul_0_l, len_append, Hv. split; [done|]. split; [done|].
    unfold len in *. rewrite str_repeat_length. lia. }
  clearbody digits. destruct Hdig as (Hall & Hval & Hlen). cbv zeta.
  set (split := Z.to_nat (len digits - scale)).
  assert (split <= String.length digits)%nat by (unfold split, len in *; lia).
  exists (str_take split digits), (str_drop split digits).
  pose proof (str_take_drop split digits) as Htd.
  assert (Hparts : str_forall is_digit (str_take split digits) = true
                   /\ str_forall is_digit (str_drop split digits) = true).
  { rewrite <- Htd, str_forall_app in Hall. by apply andb_true_iff in Hall. }
  assert (Hf : len (str_drop split digits) = scale).
  { unfold len. rewrite str_drop_length. unfold split, len in *. lia. }
  split; [|split; [|split]].
  - unfold sign_text, plain_text. f_equal. f_equal. destruct (Z.ltb_spec 0 scale).
    + destruct (str_drop split digits); [unfold len in Hf; cbn in Hf; lia | done].
    + destruct (str_drop split digits); [done | unfold len in Hf; cbn [String.length] in Hf; lia].
  - split; [|done]. intros E. apply (f_equal String.length) in E.
    rewrite str_take_length in E by done. cbn in E. unfold split, len in *. lia.
  - by rewrite Htd.
  - done.
Qed.

Lemma dec_value_cons_zero c s : is_digit c = true -> str_forall is_digit s = true ->
  (dec_value (String c s) 0 =? 0) = Ascii.eqb c "0" && (dec_value s 0 =? 0).
Proof.
  intros Hc Hs. cbn [dec_value]. rewrite dec_value_acc.
  apply is_digit_range in Hc. pose proof (dec_value_bound s Hs).
  assert (0 < 10 ^ len s) by (apply Z.pow_pos_nonneg; [lia | apply len_nonneg]).
  destruct (Ascii.eqb_spec c "0") as [->|Hne]; cbn [andb].
  - change (digit_value "0") with 0. f_equal.
  - apply Z.eqb_neq. assert (digit_value c <> 0); [|nia].
    intros E. apply Hne. apply byte_of_inj. unfold digit_value in E. change (byte_of "0") with 48. lia.
Qed.

Lemma all_zero_digits s t seen : str_forall is_digit s = true ->
  all_zero_loop (s +:+ t) seen
  = if dec_value s 0 =? 0 then all_zero_loop t (seen || negb (String.eqb s "")) else false.
Proof.
  revert seen. induction s as [|c s IH]; intros seen Hs.
  - cbn. by rewrite orb_false_r.
  - cbn in Hs. apply andb_true_iff in Hs as [Hc Hs].
    rewrite dec_value_cons_zero by done. cbn [all_zero_loop String.append String.eqb negb].
    rewrite (digit_neq c "." Hc eq_refl), Hc, orb_true_r.
    destruct (Ascii.eqb c "0"); cbn [andb]; [|done]. rewrite IH by done. done.
Qed.

Lemma isAllZeroDigits_plain i f : plain_digits i f ->
  isAllZeroDigits (plain_text i f) = (dec_value (i +:+ f) 0 =? 0).
Proof.
  intros (Hne & Hi & Hf). unfold isAllZeroDigits, plain_text.
  rewrite all_zero_digits, dec_value_app, (dec_value_acc f) by done.
  pose proof (dec_value_bound i Hi). pose proof (dec_value_bound f Hf).
  assert (0 < 10 ^ len f) by (apply Z.pow_pos_nonneg; [lia | apply len_nonneg]).
  destruct (Z.eqb_spec (dec_value i 0) 0) as [->|].
  - assert (Hn : (false || negb (String.eqb i "")) = true) by (by destruct i). rewrite Hn.
    destruct f as [|c f]; [done|]. rewrite Z.mul_0_l, Z.add_0_l.
    change (all_zero_loop (String "." (String c f)) true) with (all_zero_loop (String c f) true).
    rewrite <- (append_nil_r (String c f)), all_zero_digits by done. rewrite append_nil_r.
    by destruct (dec_value (String c f) 0 =? 0).
  - symmetry. apply Z.eqb_neq. nia.
Qed.

Lemma decimalFromBackendText_plain neg i f scale mode :
  plain_digits i f -> len f = scale -> 0 <= scale <= MaxScale -> RoundingMode_Valid mode = true ->
  decimalFromBackendText (sign_text neg +:+ plain_text i f) scale mode =
    let u := dec_value (i +:+ f) 0 in
    if u <? 10 ^ MaxPrecision then Ok (dec_of (if neg then - u else u) scale mode)
    else Err ErrPrecisionOverflow.
Proof.
  intros Hp Hl Hs Hm. unfold decimalFromBackendText. cbv zeta.
  assert (Hpow : forall u, u * 10 ^ (scale - len f) = u) by (intros; rewrite Hl, Z.sub_diag; lia).
  pose proof (NewDecimal_plain neg i f scale mode Hp ltac:(lia) Hs Hm) as HN.
  pose proof (NewDecimal_plain false i f scale mode Hp ltac:(lia) Hs Hm) as HF.
  cbv zeta in HN, HF. rewrite Hpow in HN, HF. cbn [andb] in HF.
  destruct neg; cbn [sign_text String.append] in *.
  - assert (Hc : cut_prefix "-" (String "-" (plain_text i f)) = Some (plain_text i f))
      by (by destruct (plain_text i f)).
    rewrite Hc, isAllZeroDigits_plain by done.
    destruct (Z.eqb_spec (dec_value (i +:+ f) 0) 0) as [E|Hnz]; [by rewrite HF, E|].
    by rewrite HN.
  - assert (Hc : cut_prefix "-" (plain_text i f) = None).
    { destruct Hp as (Hne & Hi & _). destruct i as [|c i]; [done|].
      cbn in Hi. apply andb_true_iff in Hi as [Hd _]. unfold plain_text. cbn [String.append].
      by apply digit_no_minus. }
    by rewrite Hc, HF.
Qed.

(** ** The three rounding operations *)

Lemma rounds_exact mode n d q :
  RoundingMode_Valid mode = true -> 0 < d -> n = q * d -> rounds mode n d q.
Proof.
  intros Hv Hd ->.
  destruct (valid_mode_cases mode Hv) as [-> | [-> | [-> | [-> | [-> | [-> | [-> | ->]]]]]]];
    unfold rounds; rewrite ?Z.sub_diag, ?Z.abs_mul, ?(Z.abs_eq d); try split; try nia.
Qed.

Lemma pow10_pos n : 0 <= n -> 0 < 10 ^ n.
Proof. intros. by apply Z.pow_pos_nonneg. Qed.

Lemma nearest_mag_round mode neg c p :
  RoundingMode_Valid mode = true -> directedRounding mode = false ->
  (mode = RoundingExactRequired -> c mod p = 0) -> 0 < p ->
  nearest_mag (apdRounder mode) c p = round_mag mode neg c p.
Proof.
  intros Hv Hdir Hex Hp. pose proof (Z.mod_pos_bound c p Hp) as Hm.
  unfold nearest_mag, round_mag. set (r := c mod p) in *. set (q := c / p) in *. clearbody r q.
  destruct (Z.eqb_spec r 0) as [->|Hr]; cbn [negb andb].
  { destruct (Z.ltb_spec p (2 * 0)); [lia|]. destruct (Z.eqb_spec (2 * 0) p); [lia|]. done. }
  destruct (valid_mode_cases mode Hv) as [-> | [-> | [-> | [-> | [-> | [-> | [-> | ->]]]]]]];
    try discriminate Hdir; try (by specialize (Hex eq_refl));
    rewrite div_increment_nearest by done; done.
Qed.

Lemma quantize_directed_round signed p mode :
  RoundingMode_Valid mode = true -> directedRounding mode = true -> 0 < p ->
  quantize_directed signed p mode
  = if signed <? 0 then - round_mag mode (signed <? 0) (Z.abs signed) p
    else round_mag mode (signed <? 0) (Z.abs signed) p.
Proof.
  intros Hv Hdir Hp. unfold quantize_directed, round_mag.
  rewrite Z.quot_div_nonneg, Z.rem_mod_nonneg by lia.
  destruct (Z.eqb_spec (Z.abs signed mod p) 0) as [->|Hr]; cbn [negb andb]; [done|].
  assert (signed <> 0) by (intros ->; rewrite Z.mod_0_l in Hr; lia).
  destruct (valid_mode_cases mode Hv) as [-> | [-> | [-> | [-> | [-> | [-> | [-> | ->]]]]]]];
    try discriminate Hdir;
    destruct (Z.ltb_spec signed 0), (Z.ltb_spec 0 signed); try lia; done.
Qed.

Section QuantizeSpec.

Context `{B : DecimalBackend} `{L : !DecimalBackendLaws B}.

Lemma quantize_backend_spec signed from to mode :
  0 <= to <= MaxScale -> to < from -> RoundingMode_Valid mode = true ->
  directedRounding mode = false ->
  (mode = RoundingExactRequired -> Z.abs signed mod 10 ^ (from - to) = 0) ->
  let m := round_mag mode (signed <? 0) (Z.abs signed) (10 ^ (from - to)) in
  let q := if signed <? 0 then - m else m in
  if Z.abs q <? 10 ^ MaxPrecision then quantize_backend signed from to mode = Ok (dec_of q to mode)
  else exists e, quantize_backend signed from to mode = Err e.
Proof.
  intros Hto Hft Hv Hdir Hex. cbv zeta.
  pose proof (pow10_pos (from - to) ltac:(lia)) as Hp.
  rewrite <- (nearest_mag_round mode (signed <? 0)) by done.
  set (m := nearest_mag _ _ _).
  assert (Hm0 : 0 <= m).
  { unfold m, nearest_mag. pose proof (Z.div_pos (Z.abs signed) _ ltac:(lia) Hp).
    case_match; lia. }
  assert (Habs : Z.abs (if signed <? 0 then - m else m) = m) by (destruct (signed <? 0); lia).
  rewrite Habs. unfold quantize_backend.
  destruct (formatFixed_plain (Z.abs signed) (signed <? 0) from ltac:(lia) ltac:(lia))
    as (i & f & -> & Hp1 & Hval & Hlf).
  assert (Hsg : (signed <? 0) && negb (Z.abs signed =? 0) = (signed <? 0)).
  { destruct (Z.ltb_spec signed 0), (Z.eqb_spec (Z.abs signed) 0); done || lia. }
  rewrite Hsg. destruct (apd_parse (signed <? 0) i f Hp1) as (x & -> & Hneg & Hco & Hexp).
  rewrite Hval in Hco. rewrite Hlf in Hexp.
  cbn [newDecimalContext ctx_Precision ctx_Rounding].
  pose proof (apd_quantize_nearest (MaxPrecision + 10) (apdRounder mode) x (- to)) as HQ.
  rewrite Hco, Hexp in HQ. replace (- to - - from) with (from - to) in HQ by lia. fold m in HQ.
  unfold MaxPrecision in *. specialize (HQ ltac:(lia)).
  assert (Hr : apdRounder mode = RoundHalfEven \/ apdRounder mode = RoundHalfUp).
  { destruct mode; try discriminate; cbn; tauto. }
  specialize (HQ Hr ltac:(lia) ltac:(lia)). cbv zeta in HQ.
  destruct (Z.ltb_spec m (10 ^ (38 + 10))) as [Hfit|Hbig].
  - destruct HQ as (y & -> & Hyn & Hyc & Hye).
    destruct (apd_print y ltac:(lia) ltac:(lia)) as (i' & f' & -> & Hp2 & Hv2 & Hl2).
    rewrite Hyn, Hneg, decimalFromBackendText_plain by (done || lia). cbv zeta.
    rewrite Hv2, Hyc. unfold MaxPrecision. destruct (m <? 10 ^ 38); eauto.
  - rewrite HQ. destruct (Z.ltb_spec m (10 ^ 38)); [|eauto].
    assert (10 ^ 38 < 10 ^ (38 + 10)) by (vm_compute; done). lia.
Qed.

(** [quantizeSigned] against the specification. *)
Lemma quantizeSigned_spec signed from to mode q :
  0 <= from -> 0 <= to <= MaxScale -> RoundingMode_Valid mode = true ->
  rounds mode (signed * 10 ^ to) (10 ^ from) q ->
  if Z.abs q <? 10 ^ MaxPrecision then quantizeSigned signed from to mode = Ok (dec_of q to mode)
  else exists e, quantizeSigned signed from to mode = Err e.
Proof.
  intros Hfrom Hto Hv HR. pose proof (pow10_pos from Hfrom) as Hpf. pose proof (pow10_pos to ltac:(lia)) as Hpt.
  unfold quantizeSigned. rewrite (proj2 (checkScale_ok _) Hto), (proj2 (checkMode_ok _) Hv).
  cbn [mbind outcome_bind]. unfold pow10.
  destruct (Z.leb_spec from to) as [Hle|Hgt].
  - assert (q = signed * 10 ^ (to - from)) as ->.
    { eapply rounds_unique; [exact Hpf | exact HR |]. apply rounds_exact; [done..|].
      rewrite <- Z.mul_assoc, <- Z.pow_add_r by lia. do 2 f_equal. lia. }
    rewrite fromSigned_spec. destruct (_ <? _); eauto.
  - pose proof (pow10_pos (from - to) ltac:(lia)) as Hp.
    replace (10 ^ from) with (10 ^ (from - to) * 10 ^ to) in HR
      by (rewrite <- Z.pow_add_r by lia; f_equal; lia).
    apply rounds_scale in HR; [|done].
    destruct (mode_is mode RoundingExactRequired && _) eqn:E.
    { apply andb_true_iff in E as [E Hr]. apply mode_is_true in E. subst mode.
      apply negb_true_iff, Z.eqb_neq in Hr. exfalso. apply Hr. cbn in HR. rewrite <- HR, Z.abs_mul.
      rewrite (Z.abs_eq (10 ^ _)) by lia. apply Z.mod_mul. lia. }
    assert (Hex : mode = RoundingExactRequired -> Z.abs signed mod 10 ^ (from - to) = 0).
    { intros ->. change (mode_is RoundingExactRequired RoundingExactRequired) with true in E.
      cbn [andb] in E. by apply negb_false_iff, Z.eqb_eq in E. }
    pose proof (round_mag_rounds mode (signed <? 0) (Z.abs signed) (10 ^ (from - to))
                  ltac:(lia) Hp Hv Hex) as HM.
    assert (Hs : (if signed <? 0 then - Z.abs signed else Z.abs signed) = signed)
      by (destruct (Z.ltb_spec signed 0); lia).
    rewrite Hs in HM. rewrite (rounds_unique _ _ _ _ _ Hp HR HM).
    destruct (directedRounding mode) eqn:Hd.
    + rewrite quantize_directed_round, fromSigned_spec by done. destruct (Z.abs _ <? _); eauto.
    + by apply quantize_backend_spec.
Qed.

Lemma quantizeSigned_inexact signed from to :
  0 <= from -> 0 <= to <= MaxScale ->
  (forall q, ~ rounds RoundingExactRequired (signed * 10 ^ to) (10 ^ from) q) ->
  quantizeSigned signed from to RoundingExactRequired = Err ErrInexact.
Proof.
  intros Hfrom Hto HR. unfold quantizeSigned, pow10.
  rewrite (proj2 (checkScale_ok _) Hto). cbn [mbind outcome_bind].
  change (checkMode RoundingExactRequired) with (@Ok values_err _ tt). cbn [mbind outcome_bind].
  pose proof (pow10_pos (from - to)) as Hp.
  destruct (Z.leb_spec from to) as [Hle|Hgt].
  - exfalso. apply (HR (signed * 10 ^ (to - from))). cbn.
    rewrite <- Z.mul_assoc, <- Z.pow_add_r by lia. do 2 f_equal. lia.
  - change (mode_is RoundingExactRequired RoundingExactRequired) with true. cbn [andb].
    destruct (Z.eqb_spec (Z.abs signed mod 10 ^ (from - to)) 0) as [E|]; [exfalso | done].
    apply Z.mod_divide in E as [k Hk]; [|lia].
    apply (HR (if signed <? 0 then - k else k)). cbn.
    replace (10 ^ from) with (10 ^ (from - to) * 10 ^ to)
      by (rewrite <- Z.pow_add_r by lia; f_equal; lia).
    rewrite Z.mul_assoc. f_equal. destruct (Z.ltb_spec signed 0); lia.
Qed.

End QuantizeSpec.

(** [Div] against the specification: the quotient of the two rationals. *)
Lemma Decimal_Div_spec d o scale mode q :
  dec_wf d -> dec_wf o -> Decimal_signed o <> 0 -> 0 <= scale <= MaxScale ->
  RoundingMode_Valid mode = true ->
  rounds mode (Z.sgn (Decimal_signed o) * Decimal_signed d * 10 ^ (d_scale o + scale))
    (Z.abs (Decimal_signed o) * 10 ^ d_scale d) q ->
  Decimal_Div d o scale mode =
    if Z.abs q <? 10 ^ MaxPrecision then Ok (dec_of q scale mode) else Err ErrPrecisionOverflow.
Proof.
  intros Hd Ho Hnz Hs Hm HR. unfold Decimal_Div.
  rewrite (proj2 (Decimal_Validate_ok d) Hd), (proj2 (Decimal_Validate_ok o) Ho).
  destruct Hd as (a & sa & ma & -> & Ha & Hsa & _), Ho as (b & sb & mb & -> & Hb & Hsb & _).
  rewrite !Decimal_signed_dec_of in *. cbn [mbind outcome_bind d_scale dec_of] in *.
  unfold Decimal_IsZero. rewrite !Decimal_Sign_dec_of.
  destruct (Z.eqb_spec (Z.sgn b) 0); [lia|]. cbn [fail_if mbind outcome_bind].
  rewrite (proj2 (checkScale_ok _) Hs), (proj2 (checkMode_ok _) Hm). cbn [mbind outcome_bind].
  change (Decimal_Unscaled (dec_of a sa ma)) with (Z.abs a).
  change (Decimal_Unscaled (dec_of b sb mb)) with (Z.abs b). unfold pow10.
  set (num := if 0 <=? _ then _ else Z.abs a). set (den := if 0 <=? _ then Z.abs b else _).
  set (neg := negb (Z.sgn a =? Z.sgn b)).
  assert (Hden : 0 < den).
  { unfold den. case_match; [lia|]. apply Z.mul_pos_pos; [lia|]. apply pow10_pos. lia. }
  assert (Hnum : 0 <= num).
  { unfold num. case_match; [|lia]. apply Z.mul_nonneg_nonneg; [lia|]. apply Z.pow_nonneg. lia. }
  assert (HR' : rounds mode (if neg then - num else num) den q).
  { assert (Hsign : (if neg then - num else num) = Z.sgn a * Z.sgn b * num).
    { unfold neg. destruct (Z.eqb_spec (Z.sgn a) (Z.sgn b)) as [E|E]; cbn [negb]; [lia|].
      assert (a = 0 \/ Z.sgn a * Z.sgn b = -1) as [-> | ->] by lia; [|lia].
      unfold num. case_match; cbn [Z.sgn]; lia. }
    rewrite Hsign. unfold num, den. clear num den Hden Hnum Hsign.
    destruct (Z.leb_spec 0 (sb + scale - sa)).
    - apply (rounds_scale _ _ _ _ (10 ^ sa)); [apply pow10_pos; lia|].
      replace (Z.sgn a * Z.sgn b * (Z.abs a * 10 ^ (sb + scale - sa)) * 10 ^ sa)
        with (Z.sgn b * a * 10 ^ (sb + scale)); [done|].
      replace (10 ^ (sb + scale)) with (10 ^ (sb + scale - sa) * 10 ^ sa)
        by (rewrite <- Z.pow_add_r by lia; f_equal; lia). nia.
    - apply (rounds_scale _ _ _ _ (10 ^ (sb + scale))); [apply pow10_pos; lia|].
      replace (Z.sgn a * Z.sgn b * Z.abs a * 10 ^ (sb + scale))
        with (Z.sgn b * a * 10 ^ (sb + scale)) by nia.
      replace (Z.abs b * 10 ^ (- (sb + scale - sa)) * 10 ^ (sb + scale))
        with (Z.abs b * 10 ^ sa); [done|].
      rewrite <- Z.mul_assoc, <- Z.pow_add_r by lia. do 2 f_equal. lia. }
  rewrite Z.quot_div_nonneg, Z.rem_mod_nonneg by lia.
  destruct (negb (num mod den =? 0) && mode_is mode RoundingExactRequired) eqn:E.
  { apply andb_true_iff in E as [E Em]. apply mode_is_true in Em. subst mode.
    apply negb_true_iff, Z.eqb_neq in E. exfalso. apply E. cbn in HR'.
    replace num with ((if neg then - q else q) * den) by (destruct neg; lia). apply Z.mod_mul. lia. }
  assert (Hex : mode = RoundingExactRequired -> num mod den = 0).
  { intros ->. change (mode_is RoundingExactRequired RoundingExactRequired) with true in E.
    rewrite andb_true_r in E. by apply negb_false_iff, Z.eqb_eq in E. }
  fold (round_mag mode neg num den).
  rewrite <- (rounds_unique _ _ _ _ _ Hden HR' (round_mag_rounds mode neg num den Hnum Hden Hm Hex)).
  apply fromSigned_spec.
Qed.

(** ** The invariant *)

Lemma newDecimal_wf neg u s m d :
  0 <= s <= MaxScale -> RoundingMode_Valid m = true ->
  newDecimal neg u s m = Ok d -> dec_wf d /\ d_scale d = s /\ d_round d = m.
Proof.
  intros Hs Hm H. assert (0 <= u) as Hu.
  { unfold newDecimal in H. destruct (Z.ltb_spec u 0); [discriminate | done]. }
  rewrite newDecimal_spec in H by done. destruct (Z.ltb_spec u (10 ^ MaxPrecision)); [|discriminate].
  injection H as <-. split; [|done]. apply dec_wf_dec_of; [destruct neg; lia | done..].
Qed.

Lemma NewDecimal_wf text s m d : NewDecimal text s m = Ok d -> dec_wf d /\ d_scale d = s /\ d_round d = m.
Proof.
  unfold NewDecimal. intros H. ok_inv. apply checkScale_inv in Hok. apply checkMode_inv in Hok0.
  destruct a1 as [[neg i] f]. destruct (_ <? _); [discriminate|]. ok_inv.
  destruct (big_SetString _) as [u|]; [|discriminate].
  destruct (neg && _); [discriminate|]. by eapply newDecimal_wf.
Qed.

Lemma fromSigned_wf q s m d :
  0 <= s <= MaxScale -> RoundingMode_Valid m = true ->
  fromSigned q s m = Ok d -> dec_wf d /\ d_scale d = s /\ d_round d = m.
Proof. intros Hs Hm H. apply (fromSigned_ok q s m d Hs Hm) in H. tauto. Qed.

Lemma quantizeSigned_wf `{B : DecimalBackend} x from s m d :
  quantizeSigned x from s m = Ok d -> dec_wf d /\ d_scale d = s /\ d_round d = m.
Proof.
  unfold quantizeSigned. intros H. ok_inv. apply checkScale_inv in Hok. apply checkMode_inv in Hok0.
  case_match; [by eapply fromSigned_wf|]. case_match; [discriminate|].
  case_match; [by eapply fromSigned_wf|]. unfold quantize_backend, decimalFromBackendText in H.
  case_match; [|discriminate]. case_match; [|discriminate]. by eapply NewDecimal_wf.
Qed.

Lemma Decimal_Div_wf d o s m r : Decimal_Div d o s m = Ok r -> dec_wf r /\ d_scale r = s /\ d_round r = m.
Proof.
  unfold Decimal_Div. intros H. ok_inv. apply checkScale_inv in Hok2. apply checkMode_inv in Hok3.
  case_match; [discriminate|]. by eapply fromSigned_wf.
Qed.

Lemma dec_wf_scale d : dec_wf d -> 0 <= d_scale d <= MaxScale /\ RoundingMode_Valid (d_round d) = true.
Proof. intros (q & s & m & -> & _ & H). done. Qed.

(** * A concrete backend *)

Record apd_dec : Type := mkApd { apd_neg : bool; apd_coeff : Z; apd_exp : Z }.

#[export] Instance apd_model : DecimalBackend := {
  apd_Decimal := apd_dec;
  apd_Negative := apd_neg;
  apd_Coeff := apd_coeff;
  apd_Exponent := apd_exp;
  apd_NewFromString := fun text =>
    match parseFixedText text with
    | Ok (neg, i, f) => Some (mkApd neg (dec_value (i +:+ f) 0) (- len f))
    | _ => None
    end;
  apd_Quantize := fun prec r x exp =>
    let q := nearest_mag r (apd_coeff x) (10 ^ (exp - apd_exp x)) in
    if q <? 10 ^ prec then Some (mkApd (apd_neg x) q exp) else None;
  apd_Text := fun y => sign_text (apd_neg y) +:+ formatFixed (apd_coeff y) false (- apd_exp y)
}.

#[export] Instance apd_model_laws : DecimalBackendLaws apd_model.
Proof.
  constructor.
  - intros neg i f Hp. cbn. rewrite (parse_plain neg i f Hp). eauto.
  - intros prec r x exp _ _ _ _. cbn. case_match; eauto.
  - intros y Hc He. cbn [apd_model apd_Text apd_Coeff apd_Exponent apd_Negative] in *.
    destruct (formatFixed_plain (apd_coeff y) false (- apd_exp y) Hc ltac:(lia))
      as (i & f & -> & Hp & Hv & Hl).
    exists i, f. cbn [andb sign_text String.append]. done.
Qed.

(** * Wire tokens *)

Lemma parse_mode_found table m w :
  NoDup (table.*2) -> (m, w) ∈ table -> parse_mode_in table w = Ok m.
Proof.
  induction table as [|[k v] table IH]; cbn; [intros _ H; by apply elem_of_nil in H|].
  rewrite list.NoDup_cons. intros [Hv Hnd] H. apply elem_of_cons in H as [[= -> ->]|H].
  - by rewrite String.eqb_refl.
  - destruct (String.eqb_spec v w) as [->|]; [|by apply IH].
    exfalso. apply Hv. apply (list_elem_of_fmap_2 snd) in H. exact H.
Qed.

Lemma parse_mode_missing table w : w ∉ table.*2 -> parse_mode_in table w = Err ErrRoundingMode.
Proof.
  induction table as [|[k v] table IH]; cbn; [done|]. rewrite not_elem_of_cons.
  intros [Hne H]. destruct (String.eqb_spec v w); [congruence | by apply IH].
Qed.

(** Go's map iteration order does not change what a token parses to. *)
Lemma parse_mode_order table w : table ≡ₚ roundingWire -> parse_mode_in table w = ParseRoundingMode w.
Proof.
  intros Hp. assert (Hnd : NoDup (roundingWire.*2)) by (apply (bool_decide_unpack _); vm_compute; exact I).
  assert (Hnd' : NoDup (table.*2)) by (by rewrite Hp). unfold ParseRoundingMode.
  destruct (decide (w ∈ roundingWire.*2)) as [Hin|Hout].
  - apply list_elem_of_fmap in Hin as ([m w'] & Hw & Hin). cbn in Hw. subst w'.
    rewrite (parse_mode_found roundingWire m w) by done. apply parse_mode_found; [done|]. by rewrite Hp.
  - rewrite (parse_mode_missing roundingWire) by done. apply parse_mode_missing. by rewrite Hp.
Qed.

Lemma parse_mode_wire m : RoundingMode_Valid m = true -> ParseRoundingMode (RoundingMode_String m) = Ok m.
Proof.
  intros H. by destruct (valid_mode_cases m H) as [-> | [-> | [-> | [-> | [-> | [-> | [-> | ->]]]]]]].
Qed.

(** * Canonical encoding *)

Lemma to_uint32_small z : 0 <= z < 2 ^ 32 -> to_uint32 z = z.
Proof. intros H. unfold to_uint32. apply Z.mod_small. lia. Qed.

Lemma mag_bytes_short u : 0 <= u < 10 ^ MaxPrecision -> Z.of_nat (length (mag_bytes u)) < 2 ^ 32.
Proof.
  intros Hu. unfold mag_bytes. destruct (Z.eqb_spec u 0); [cbn; lia|].
  rewrite be_bytes_length, Nat2Z.inj_succ.
  assert (Z.log2 u <= 128).
  { etransitivity; [apply Z.log2_le_mono; apply Z.lt_le_incl; apply Hu|]. vm_compute. discriminate. }
  pose proof (Z.log2_nonneg u).
  rewrite Z2Nat.id by (apply Z.div_pos; lia).
  pose proof (Z.div_le_mono (Z.log2 u) 128 8). change (128 / 8) with 16 in *. lia.
Qed.

(** The encoding is a prefix code: it determines its value and its own end. *)
Lemma Decimal_Canonical_prefix d o c1 c2 r1 r2 :
  Decimal_Canonical d = Some c1 -> Decimal_Canonical o = Some c2 -> c1 ++ r1 = c2 ++ r2 ->
  Decimal_signed d = Decimal_signed o /\ d_scale d = d_scale o /\ r1 = r2.
Proof.
  unfold Decimal_Canonical.
  destruct (Decimal_Validate d) as [u| |] eqn:Vd; cbn [is_ok]; try discriminate.
  destruct (Decimal_Validate o) as [u'| |] eqn:Vo; cbn [is_ok]; try discriminate.
  apply Decimal_Validate_inv in Vd as (a & sa & ma & -> & Ha & Hsa & _).
  apply Decimal_Validate_inv in Vo as (b & sb & mb & -> & Hb & Hsb & _).
  rewrite !Decimal_Sign_dec_of, !Decimal_signed_dec_of. cbn [d_scale dec_of]. unfold MaxScale in *.
  change (Decimal_Unscaled (dec_of a sa ma)) with (Z.abs a).
  change (Decimal_Unscaled (dec_of b sb mb)) with (Z.abs b).
  pose proof (mag_bytes_short (Z.abs a) ltac:(lia)). pose proof (mag_bytes_short (Z.abs b) ltac:(lia)).
  rewrite !(to_uint32_small sa), !(to_uint32_small sb), !to_uint32_small by lia.
  intros E1 E2 H1. apply (inj Some) in E1. apply (inj Some) in E2. subst c1 c2.
  rewrite <- !app_comm_cons in H1. apply cons_eq_inv in H1 as [Htag H1].
  rewrite <- !app_assoc in H1.
  apply app_inj_1 in H1 as [Hs H1]; [|by rewrite !be_bytes_length].
  apply app_inj_1 in H1 as [Hl H1]; [|by rewrite !be_bytes_length].
  apply be_bytes_inj in Hs; [|cbn; lia..]. apply be_bytes_inj in Hl; [|cbn; lia..].
  apply app_inj_1 in H1 as [Hm H1]; [|lia]. apply mag_bytes_inj in Hm; [|lia..].
  split; [|done].
  destruct (Z.eqb_spec (Z.sgn a) 0), (Z.eqb_spec (Z.sgn b) 0), (Z.eqb_spec (Z.sgn a) 1),
    (Z.eqb_spec (Z.sgn b) 1); try discriminate; lia.
Qed.

Lemma Decimal_Canonical_some d : dec_wf d -> exists c, Decimal_Canonical d = Some c.
Proof. intros H. unfold Decimal_Canonical. rewrite dec_wf_valid by done. eauto. Qed.

(** * Properties *)

(** whatever text, scale, mode and operands they are given, every
    operation that returns a decimal returns one that passes [Validate],
    under the scale and rounding mode the call declared. *)
Theorem decimal_ops_valid `{B : DecimalBackend} text scale mode d o :
  (forall r, NewDecimal text scale mode = Ok r ->
     Decimal_Validate r = Ok tt /\ d_scale r = scale /\ d_round r = mode)
  /\ (forall r, Decimal_UnmarshalText text = Ok r -> Decimal_Validate r = Ok tt)
  /\ (forall r, Decimal_Add d o = Ok r \/ Decimal_Sub d o = Ok r \/ Decimal_Neg d = Ok r
        \/ Decimal_Abs d = Ok r ->
        Decimal_Validate r = Ok tt /\ d_scale r = d_scale d /\ d_round r = d_round d)
  /\ (forall r, Decimal_Mul d o scale mode = Ok r \/ Decimal_Div d o scale mode = Ok r
        \/ Decimal_Quantize d scale mode = Ok r ->
        Decimal_Validate r = Ok tt /\ d_scale r = scale /\ d_round r = mode)
  /\ (forall r, Decimal_WithRounding d mode = Ok r ->
        Decimal_Validate r = Ok tt /\ Decimal_signed r = Decimal_signed d
        /\ d_scale r = d_scale d /\ d_round r = mode).
Proof.
  setoid_rewrite Decimal_Validate_ok. repeat split_and; intros r H.
  - by apply NewDecimal_wf in H.
  - unfold Decimal_UnmarshalText in H. destruct (str_cut "/" text) as [[n t] []]; cbn in H; [|done].
    ok_inv. by apply NewDecimal_wf in H as [? _].
  - destruct H as [H|[H|[H|H]]]; unfold Decimal_Add, Decimal_Sub, Decimal_Neg, Decimal_Abs in H; ok_inv;
      apply Decimal_Validate_inv, dec_wf_scale in Hok as [? ?];
      [by eapply fromSigned_wf.. | by eapply newDecimal_wf].
  - destruct H as [H|[H|H]].
    + unfold Decimal_Mul in H. ok_inv. by eapply quantizeSigned_wf.
    + by apply Decimal_Div_wf in H.
    + unfold Decimal_Quantize in H. ok_inv. by eapply quantizeSigned_wf.
  - unfold Decimal_WithRounding in H. ok_inv.
    apply Decimal_Validate_inv in Hok as (q & s & m & -> & Hq & Hs & _).
    apply checkMode_inv in Hok0. subst r. cbn.
    change (mkDecimal true (q <? 0) (Some (Z.abs q)) s mode) with (dec_of q s mode).
    rewrite !Decimal_signed_dec_of. split; [by apply dec_wf_dec_of | done].
Qed.

(** [Div] rounds the exact quotient once, by the declared mode: when the
    quotient of two valid decimals, in units of the declared scale, rounds to
    [q], the result is the decimal [q] at that scale, or a precision error
    when [q] needs more than 38 digits. *)
Theorem div_rounds_once d o scale mode q :
  Decimal_Validate d = Ok tt -> Decimal_Validate o = Ok tt -> Decimal_Sign o <> 0 ->
  checkScale scale = Ok tt -> checkMode mode = Ok tt ->
  rounds mode (Z.sgn (Decimal_signed o) * Decimal_signed d * 10 ^ (d_scale o + scale))
    (Z.abs (Decimal_signed o) * 10 ^ d_scale d) q ->
  Decimal_Div d o scale mode =
    if Z.abs q <? 10 ^ MaxPrecision then Ok (dec_of q scale mode) else Err ErrPrecisionOverflow.
Proof.
  rewrite !Decimal_Validate_ok, checkScale_ok, checkMode_ok. intros Hd Ho Hz Hs Hm HR.
  apply Decimal_Div_spec; try done. intros E. apply Hz.
  destruct Ho as (b & sb & mb & -> & _). rewrite Decimal_signed_dec_of in E. subst b. done.
Qed.

Definition dec_10 : Decimal := dec_of 1000 2 RoundingHalfEven.
Definition dec_3 : Decimal := dec_of (-3) 0 RoundingHalfUp.

(** 10.00 / -3 at two decimals, floor: -3.34. *)
Lemma div_rounds_once_witness :
  Decimal_Div dec_10 dec_3 2 RoundingFloor = Ok (dec_of (-334) 2 RoundingFloor).
Proof.
  apply (div_rounds_once dec_10 dec_3 2 RoundingFloor (-334));
    [reflexivity | reflexivity | discriminate | reflexivity | reflexivity | vm_compute; split; congruence].
Defined.

(** C40: [Quantize] and [Mul] return the correctly rounded value at the declared
    scale, for every rounding mode, whether the code narrows on integers
    (directed modes), through the decimal backend (nearest modes) or widens;
    a value that needs more than 38 digits is an error, never a wrapped one. *)
Theorem quantize_mul_correct `{B : DecimalBackend} `{L : !DecimalBackendLaws B} d o scale mode :
  Decimal_Validate d = Ok tt -> Decimal_Validate o = Ok tt ->
  checkScale scale = Ok tt -> checkMode mode = Ok tt ->
  (forall q, rounds mode (Decimal_signed d * 10 ^ scale) (10 ^ d_scale d) q ->
     if Z.abs q <? 10 ^ MaxPrecision then Decimal_Quantize d scale mode = Ok (dec_of q scale mode)
     else exists e, Decimal_Quantize d scale mode = Err e)
  /\ (forall q, rounds mode (Decimal_signed d * Decimal_signed o * 10 ^ scale)
                  (10 ^ (d_scale d + d_scale o)) q ->
     if Z.abs q <? 10 ^ MaxPrecision then Decimal_Mul d o scale mode = Ok (dec_of q scale mode)
     else exists e, Decimal_Mul d o scale mode = Err e).
Proof.
  rewrite !Decimal_Validate_ok, checkScale_ok, checkMode_ok. intros Hd Ho Hs Hm.
  pose proof (proj1 (dec_wf_scale d Hd)). pose proof (proj1 (dec_wf_scale o Ho)).
  unfold Decimal_Quantize, Decimal_Mul.
  rewrite (proj2 (Decimal_Validate_ok d) Hd), (proj2 (Decimal_Validate_ok o) Ho).
  cbn [mbind outcome_bind]. split; intros q HR; apply quantizeSigned_spec; try done; lia.
Qed.

(** 10.005 half-even to cents is 10.00; 10.00 * -3 half-up at scale 1 is -30.0. *)
Lemma quantize_mul_correct_witness :
  Decimal_Quantize (dec_of 10005 3 RoundingHalfUp) 2 RoundingHalfEven
    = Ok (dec_of 1000 2 RoundingHalfEven)
  /\ Decimal_Mul dec_10 dec_3 1 RoundingHalfUp = Ok (dec_of (-300) 1 RoundingHalfUp).
Proof.
  split.
  - apply (proj1 (quantize_mul_correct (dec_of 10005 3 RoundingHalfUp) dec_3 2 RoundingHalfEven
                    eq_refl eq_refl eq_refl eq_refl) 1000). vm_compute. split; congruence.
  - apply (proj2 (quantize_mul_correct dec_10 dec_3 1 RoundingHalfUp
                    eq_refl eq_refl eq_refl eq_refl) (-300)). vm_compute. split; congruence.
Defined.

(** ** Text round trip *)

Lemma plain_no_slash neg i f : plain_digits i f ->
  str_contains "/" (sign_text neg +:+ plain_text i f) = false.
Proof.
  intros (_ & Hi & Hf). apply str_contains_forall. unfold plain_text.
  assert (Hd : forall s, str_forall is_digit s = true ->
            str_forall (fun d => negb (Ascii.eqb d "/")) s = true).
  { intros s Hs. apply str_contains_forall. by apply digits_contain. }
  rewrite !str_forall_app, (Hd i Hi). destruct f as [|c f]; [by destruct neg|].
  change (str_forall ?p (String "." (String c f))) with (p "."%char && str_forall p (String c f)).
  rewrite (Hd _ Hf). by destruct neg.
Qed.

Lemma Decimal_String_plain d : dec_wf d ->
  exists i f, Decimal_String d = (sign_text (Decimal_signed d <? 0) +:+ plain_text i f)
    /\ plain_digits i f /\ dec_value (i +:+ f) 0 = Z.abs (Decimal_signed d) /\ len f = d_scale d.
Proof.
  intros H. unfold Decimal_String. rewrite dec_wf_valid by done.
  destruct H as (q & s & m & -> & Hq & Hs & Hm). rewrite Decimal_signed_dec_of.
  change (Decimal_Unscaled (dec_of q s m)) with (Z.abs q). cbn [d_neg d_scale dec_of].
  destruct (formatFixed_plain (Z.abs q) (q <? 0) s ltac:(lia) ltac:(lia)) as (i & f & -> & Hp & Hv & Hl).
  exists i, f. split; [|done]. f_equal. f_equal.
  destruct (Z.ltb_spec q 0), (Z.eqb_spec (Z.abs q) 0); done || lia.
Qed.

Lemma NewDecimal_String d m : dec_wf d -> RoundingMode_Valid m = true ->
  NewDecimal (Decimal_String d) (d_scale d) m = Ok (dec_of (Decimal_signed d) (d_scale d) m).
Proof.
  intros H Hm. destruct (Decimal_String_plain d H) as (i & f & -> & Hp & Hv & Hl).
  pose proof (dec_wf_bound d H). pose proof (proj1 (dec_wf_scale d H)).
  rewrite NewDecimal_plain by (done || lia). cbv zeta. rewrite Hv, Hl, Z.sub_diag, Z.mul_1_r.
  destruct (Z.ltb_spec (Decimal_signed d) 0), (Z.eqb_spec (Z.abs (Decimal_signed d)) 0); cbn [andb]; try lia;
    rewrite (proj2 (Z.ltb_lt _ _)) by lia; do 2 f_equal; lia.
Qed.

(** decoding an encoded decimal gives it back unchanged: number, declared
    scale and declared rounding mode; and re-parsing the printed number at the
    decimal's own scale gives the same number under any declared mode. *)
Theorem decimal_text_roundtrip d :
  Decimal_Validate d = Ok tt ->
  (text ← Decimal_MarshalText d; Decimal_UnmarshalText text) = Ok d
  /\ forall m, checkMode m = Ok tt ->
       NewDecimal (Decimal_String d) (d_scale d) m = Decimal_WithRounding d m.
Proof.
  rewrite Decimal_Validate_ok. intros H. split.
  - unfold Decimal_MarshalText. rewrite (proj2 (Decimal_Validate_ok d) H). cbn [mbind outcome_bind].
    pose proof (NewDecimal_String d (d_round d) H (proj2 (dec_wf_scale d H))) as HN.
    destruct (Decimal_String_plain d H) as (i & f & Hs & Hp & Hv & Hl). rewrite Hs in *.
    unfold Decimal_UnmarshalText. cbn [String.append].
    change (?s +:+ "/" +:+ ?t) with (s +:+ String "/" t).
    rewrite str_cut_here by (by apply plain_no_slash). cbn [negb].
    rewrite parse_mode_wire by (by apply dec_wf_scale). cbn [mbind outcome_bind].
    rewrite parse_plain by done. cbn [mbind outcome_bind snd].
    pose proof (proj1 (dec_wf_scale d H)). unfold MaxScale in *.
    rewrite Hl, to_int32_small by lia. rewrite HN. by rewrite <- dec_wf_eta.
  - intros m Hm. rewrite NewDecimal_String by (done || by apply checkMode_ok).
    unfold Decimal_WithRounding. rewrite (proj2 (Decimal_Validate_ok d) H), Hm. cbn [mbind outcome_bind].
    destruct H as (q & s & m0 & -> & _). by rewrite Decimal_signed_dec_of.
Qed.

Lemma decimal_text_roundtrip_witness :
  Decimal_MarshalText dec_10 = Ok "10.00/HALF_EVEN"%string
  /\ (text ← Decimal_MarshalText dec_10; Decimal_UnmarshalText text) = Ok dec_10.
Proof. split; [reflexivity | apply (decimal_text_roundtrip dec_10); reflexivity]. Defined.

(** the canonical bytes of two valid decimals are equal exactly when the
    decimals have the same number and the same declared scale. *)
Theorem decimal_canonical_injective d o :
  Decimal_Validate d = Ok tt -> Decimal_Validate o = Ok tt ->
  Decimal_Canonical d = Decimal_Canonical o
  <-> Decimal_signed d = Decimal_signed o /\ d_scale d = d_scale o.
Proof.
  rewrite !Decimal_Validate_ok. intros Hd Ho. split.
  - destruct (Decimal_Canonical_some d Hd) as [c Hc]. rewrite Hc. intros E. symmetry in E.
    destruct (Decimal_Canonical_prefix d o c c [] [] Hc E eq_refl) as (? & ? & _). done.
  - intros [Hv Hs]. unfold Decimal_Canonical. rewrite !dec_wf_valid by done.
    destruct Hd as (a & sa & ma & -> & _), Ho as (b & sb & mb & -> & _).
    rewrite !Decimal_signed_dec_of in Hv. rewrite !Decimal_Sign_dec_of. cbn in Hs. by subst.
Qed.

Lemma decimal_canonical_injective_witness :
  Decimal_Canonical dec_10 <> Decimal_Canonical (dec_of 100 1 RoundingHalfEven).
Proof.
  intros E. apply (decimal_canonical_injective dec_10 (dec_of 100 1 RoundingHalfEven)) in E;
    [|reflexivity..]. destruct E as [E _]. discriminate E.
Defined.

(** ** Order and exact arithmetic *)

Lemma big_cmp_lt a b : big_cmp a b < 0 <-> a < b.
Proof. unfold big_cmp. destruct (Z.compare_spec a b); lia. Qed.

Lemma big_cmp_eq a b : big_cmp a b = 0 <-> a = b.
Proof. unfold big_cmp. destruct (Z.compare_spec a b); lia. Qed.

(** [Cmp] orders valid decimals by their rational values, whatever their
    declared scales: it is negative, zero or positive as
    [signed d / 10^scale d] is below, equal to or above that of [o]; an
    invalid operand is below every valid one. *)
Theorem cmp_orders_values d o :
  Decimal_Validate d = Ok tt ->
  (Decimal_Validate o = Ok tt ->
     (Decimal_Cmp d o < 0 <->
        Decimal_signed d * 10 ^ d_scale o < Decimal_signed o * 10 ^ d_scale d)
     /\ (Decimal_Equal d o = true <->
        Decimal_signed d * 10 ^ d_scale o = Decimal_signed o * 10 ^ d_scale d)
     /\ Decimal_Cmp o d = - Decimal_Cmp d o)
  /\ (is_ok (Decimal_Validate o) = false -> Decimal_Cmp d o = 1 /\ Decimal_Cmp o d = -1).
Proof.
  intros Vd. split.
  - intros Vo. unfold Decimal_Equal, Decimal_Cmp. rewrite Vd, Vo. cbn [is_ok negb orb].
    apply Decimal_Validate_ok, dec_wf_scale in Vd as [Hd _].
    apply Decimal_Validate_ok, dec_wf_scale in Vo as [Ho _].
    set (a := Decimal_signed d). set (b := Decimal_signed o). unfold pow10.
    set (s := d_scale d) in *. set (t := d_scale o) in *. clearbody s t a b.
    rewrite Z.eqb_eq. assert (Hsym : forall x y, big_cmp y x = - big_cmp x y).
    { intros x y. unfold big_cmp. rewrite (Z.compare_antisym x y). by destruct (x ?= y). }
    assert (Hp : forall e, 0 <= e -> 0 < 10 ^ e) by (intros; by apply pow10_pos).
    destruct (Z.ltb_spec s t), (Z.ltb_spec t s); try lia; rewrite big_cmp_lt, big_cmp_eq, Hsym.
    + replace (10 ^ t) with (10 ^ (t - s) * 10 ^ s)
        by (rewrite <- Z.pow_add_r by lia; f_equal; lia).
      pose proof (Hp s ltac:(lia)). split; [nia | split; [nia | done]].
    + replace (10 ^ s) with (10 ^ (s - t) * 10 ^ t)
        by (rewrite <- Z.pow_add_r by lia; f_equal; lia).
      pose proof (Hp t ltac:(lia)). split; [nia | split; [nia | done]].
    + assert (s = t) as -> by lia. pose proof (Hp t ltac:(lia)). split; [nia | split; [nia | done]].
  - intros Vo. unfold Decimal_Cmp. rewrite Vd, Vo. done.
Qed.

Lemma cmp_orders_values_witness :
  Decimal_Equal dec_10 (dec_of 10 0 RoundingFloor) = true /\ Decimal_Cmp dec_3 Decimal_zero_value = 1.
Proof.
  split.
  - apply (proj1 (cmp_orders_values dec_10 (dec_of 10 0 RoundingFloor) eq_refl) eq_refl). reflexivity.
  - apply (proj2 (cmp_orders_values dec_3 Decimal_zero_value eq_refl) eq_refl).
Defined.

(** addition and subtraction at one scale are exact: they return the
    decimal whose unscaled integer is the exact sum (difference), fail with a
    precision error when it does not fit 38 digits, refuse operands of
    different scales, and [Sub] undoes [Add]. *)
Theorem add_sub_exact d o :
  Decimal_Validate d = Ok tt -> Decimal_Validate o = Ok tt ->
  (d_scale d = d_scale o ->
     Decimal_Add d o = (if Z.abs (Decimal_signed d + Decimal_signed o) <? 10 ^ MaxPrecision
                        then Ok (dec_of (Decimal_signed d + Decimal_signed o) (d_scale d) (d_round d))
                        else Err ErrPrecisionOverflow)
     /\ Decimal_Sub d o = (if Z.abs (Decimal_signed d - Decimal_signed o) <? 10 ^ MaxPrecision
                        then Ok (dec_of (Decimal_signed d - Decimal_signed o) (d_scale d) (d_round d))
                        else Err ErrPrecisionOverflow)
     /\ (forall r, Decimal_Add d o = Ok r -> Decimal_Sub r o = Ok d))
  /\ (d_scale d <> d_scale o ->
        Decimal_Add d o = Err ErrScaleMismatch /\ Decimal_Sub d o = Err ErrScaleMismatch).
Proof.
  intros Vd Vo. pose proof (proj1 (Decimal_Validate_ok d) Vd) as Hd.
  assert (Hadd : d_scale d = d_scale o ->
            Decimal_Add d o = fromSigned (Decimal_signed d + Decimal_signed o) (d_scale d) (d_round d)).
  { intros E. unfold Decimal_Add. rewrite Vd, Vo, E, Z.eqb_refl. done. }
  split.
  - intros E. split_and!.
    + by rewrite Hadd, fromSigned_spec.
    + unfold Decimal_Sub. rewrite Vd, Vo, E, Z.eqb_refl. apply fromSigned_spec.
    + intros r. rewrite Hadd by done. intros Hr. destruct (dec_wf_scale d Hd) as [Hs Hm].
      destruct (fromSigned_ok _ _ _ _ Hs Hm Hr) as (Hw & Hv & Hrs & Hrm).
      unfold Decimal_Sub. rewrite (proj2 (Decimal_Validate_ok r) Hw), Vo, Hrs, E, Z.eqb_refl, Hrm, Hv.
      cbn [negb fail_if mbind outcome_bind]. rewrite fromSigned_spec.
      replace (Decimal_signed d + Decimal_signed o - Decimal_signed o) with (Decimal_signed d) by lia.
      rewrite (proj2 (Z.ltb_lt _ _) (dec_wf_bound d Hd)), <- E. f_equal. symmetry. by apply dec_wf_eta.
  - intros E. unfold Decimal_Add, Decimal_Sub. rewrite Vd, Vo. cbn [mbind outcome_bind].
    by rewrite (proj2 (Z.eqb_neq _ _) E).
Qed.

Lemma add_sub_exact_witness :
  Decimal_Add dec_10 (dec_of 1 2 RoundingFloor) = Ok (dec_of 1001 2 RoundingHalfEven)
  /\ Decimal_Add dec_10 dec_3 = Err ErrScaleMismatch.
Proof.
  split.
  - apply (proj1 (add_sub_exact dec_10 (dec_of 1 2 RoundingFloor) eq_refl eq_refl) eq_refl).
  - apply (proj2 (add_sub_exact dec_10 dec_3 eq_refl eq_refl)). discriminate.
Defined.
