(* ===== verification/MoneyValues.v ===== *)
(** Money, percentages, quantities and rates:
    [internal/kernel/values/money.go].

    Each struct is a record over [Decimal]; the operations are in source
    order.  The theorems state that arithmetic never mixes currencies or
    units, that applying a rate is one correctly rounded multiplication, and
    which of the canonical encodings determine their value. *)

From S2P Require Import Prelude FixedDecimal.

Local Open Scope Z_scope.

(** * Codes *)

Definition validateCurrency (code : string) : outcome values_err unit :=
  if negb (len code =? 3) then Err ErrCurrencyCode
  else fail_if (negb (str_forall is_upper code)) ErrCurrencyCode.

(** The first byte of a unit is a letter, later bytes may be digits or [_]. *)
Definition unit_tail_char (c : ascii) : bool := is_upper c || (is_digit c || Ascii.eqb c "_").
Definition validateUnit (code : string) : outcome values_err unit :=
  match code with
  | EmptyString => Err ErrUnitCode
  | String c rest =>
      if 16 <? len code then Err ErrUnitCode
      else fail_if (negb (is_upper c && str_forall unit_tail_char rest)) ErrUnitCode
  end.

(** * Money *)

Record Money : Type := mkMoney { m_amount : Decimal; m_currency : string }.

Definition Money_Validate (m : Money) : outcome values_err unit :=
  if String.eqb (m_currency m) "" then Err ErrMoneyUnset
  else _ ← validateCurrency (m_currency m); Decimal_Validate (m_amount m).

Definition NewMoney (text currency : string) (scale : Z) (mode : RoundingMode)
    : outcome values_err Money :=
  _ ← validateCurrency currency;
  amount ← NewDecimal text scale mode;
  Ok (mkMoney amount currency).

Definition NewMoneyFromDecimal (amount : Decimal) (currency : string) : outcome values_err Money :=
  _ ← Decimal_Validate amount;
  _ ← validateCurrency currency;
  Ok (mkMoney amount currency).

Definition Money_String (m : Money) : string :=
  if is_ok (Money_Validate m) then Decimal_String (m_amount m) +:+ " " +:+ m_currency m else "".

Definition Money_Canonical (m : Money) : option (list Z) :=
  if is_ok (Money_Validate m)
  then Some (default [] (Decimal_Canonical (m_amount m)) ++ str_bytes (m_currency m))
  else None.

Definition Money_MarshalText (m : Money) : outcome values_err string :=
  _ ← Money_Validate m;
  text ← Decimal_MarshalText (m_amount m);
  Ok (text +:+ String " " (m_currency m)).

Definition Money_requireSameCurrency (m o : Money) : outcome values_err unit :=
  _ ← Money_Validate m;
  _ ← Money_Validate o;
  fail_if (negb (String.eqb (m_currency m) (m_currency o))) ErrCurrencyMismatch.

Definition Money_Add (m o : Money) : outcome values_err Money :=
  _ ← Money_requireSameCurrency m o;
  sum ← Decimal_Add (m_amount m) (m_amount o);
  Ok (mkMoney sum (m_currency m)).

Definition Money_Sub (m o : Money) : outcome values_err Money :=
  _ ← Money_requireSameCurrency m o;
  diff ← Decimal_Sub (m_amount m) (m_amount o);
  Ok (mkMoney diff (m_currency m)).

Definition Money_Cmp (m o : Money) : outcome values_err Z :=
  _ ← Money_requireSameCurrency m o;
  Ok (Decimal_Cmp (m_amount m) (m_amount o)).

Definition Money_Neg (m : Money) : outcome values_err Money :=
  _ ← Money_Validate m;
  neg ← Decimal_Neg (m_amount m);
  Ok (mkMoney neg (m_currency m)).

(** * Quantities *)

Record Quantity : Type := mkQuantity { q_value : Decimal; q_unit : string }.

Definition NewQuantity (text unit : string) (scale : Z) (mode : RoundingMode)
    : outcome values_err Quantity :=
  _ ← validateUnit unit;
  value ← NewDecimal text scale mode;
  Ok (mkQuantity value unit).

Definition Quantity_Validate (q : Quantity) : outcome values_err unit :=
  if String.eqb (q_unit q) "" then Err ErrQuantityUnset
  else _ ← validateUnit (q_unit q); Decimal_Validate (q_value q).

Definition Quantity_String (q : Quantity) : string :=
  if is_ok (Quantity_Validate q) then Decimal_String (q_value q) +:+ " " +:+ q_unit q else "".

Definition Quantity_Canonical (q : Quantity) : option (list Z) :=
  if is_ok (Quantity_Validate q)
  then Some (default [] (Decimal_Canonical (q_value q)) ++ str_bytes (q_unit q))
  else None.

Definition Quantity_requireSameUnit (q o : Quantity) : outcome values_err unit :=
  _ ← Quantity_Validate q;
  _ ← Quantity_Validate o;
  fail_if (negb (String.eqb (q_unit q) (q_unit o))) ErrUnitMismatch.

Definition Quantity_Add (q o : Quantity) : outcome values_err Quantity :=
  _ ← Quantity_requireSameUnit q o;
  sum ← Decimal_Add (q_value q) (q_value o);
  Ok (mkQuantity sum (q_unit q)).

Definition Quantity_Sub (q o : Quantity) : outcome values_err Quantity :=
  _ ← Quantity_requireSameUnit q o;
  diff ← Decimal_Sub (q_value q) (q_value o);
  Ok (mkQuantity diff (q_unit q)).

(** * Percentages *)

Record Percentage : Type := mkPercentage { p_fraction : Decimal }.

Definition NewPercentage (fractionText : string) (scale : Z) (mode : RoundingMode)
    : outcome values_err Percentage :=
  fraction ← NewDecimal fractionText scale mode;
  Ok (mkPercentage fraction).

Definition NewPercentageFromPercent (percentText : string) (scale : Z) (mode : RoundingMode)
    : outcome values_err Percentage :=
  percent ← NewDecimal percentText scale mode;
  hundred ← NewDecimal "100" 0 mode;
  fraction ← Decimal_Div percent hundred scale mode;
  Ok (mkPercentage fraction).

Definition Percentage_Validate (p : Percentage) : outcome values_err unit :=
  match Decimal_Validate (p_fraction p) with
  | Err ErrDecimalUnset => Err ErrPercentageUnset
  | r => r
  end.

Definition Percentage_Canonical (p : Percentage) : option (list Z) := Decimal_Canonical (p_fraction p).

(** * Rates *)

Inductive rateKind : Type := rateKindUnset | rateKindMoney | rateKindQuantity.

#[export] Instance rateKind_eq_dec : EqDecision rateKind.
Proof. solve_decision. Defined.

Definition Money_zero_value : Money := mkMoney Decimal_zero_value "".
Definition Quantity_zero_value : Quantity := mkQuantity Decimal_zero_value "".

Record Rate : Type := mkRate {
  r_kind : rateKind;
  r_money : Money;
  r_quantity : Quantity;
  r_perUnit : string
}.

Definition NewMoneyRate (amount : Money) (perUnit : string) : outcome values_err Rate :=
  _ ← Money_Validate amount;
  _ ← validateUnit perUnit;
  Ok (mkRate rateKindMoney amount Quantity_zero_value perUnit).

Definition NewQuantityRate (amount : Quantity) (perUnit : string) : outcome values_err Rate :=
  _ ← Quantity_Validate amount;
  _ ← validateUnit perUnit;
  Ok (mkRate rateKindQuantity Money_zero_value amount perUnit).

Definition Rate_Validate (r : Rate) : outcome values_err unit :=
  match r_kind r with
  | rateKindMoney => _ ← Money_Validate (r_money r); validateUnit (r_perUnit r)
  | rateKindQuantity => _ ← Quantity_Validate (r_quantity r); validateUnit (r_perUnit r)
  | rateKindUnset => Err ErrRateUnset
  end.

Definition Rate_String (r : Rate) : string :=
  if is_ok (Rate_Validate r) then
    match r_kind r with
    | rateKindMoney => Money_String (r_money r) +:+ "/" +:+ r_perUnit r
    | _ => Quantity_String (r_quantity r) +:+ "/" +:+ r_perUnit r
    end
  else "".

Definition Rate_Canonical (r : Rate) : option (list Z) :=
  if is_ok (Rate_Validate r) then
    match r_kind r with
    | rateKindMoney => Some (default [] (Money_Canonical (r_money r)) ++ str_bytes (r_perUnit r))
    | _ => Some (default [] (Quantity_Canonical (r_quantity r)) ++ str_bytes (r_perUnit r))
    end
  else None.

Section Scaling.

Context `{B : DecimalBackend}.

Definition Money_MulDecimal (m : Money) (d : Decimal) (scale : Z) (mode : RoundingMode)
    : outcome values_err Money :=
  _ ← Money_Validate m;
  product ← Decimal_Mul (m_amount m) d scale mode;
  Ok (mkMoney product (m_currency m)).

Definition Percentage_ApplyTo (p : Percentage) (m : Money) (scale : Z) (mode : RoundingMode)
    : outcome values_err Money :=
  _ ← Percentage_Validate p;
  Money_MulDecimal m (p_fraction p) scale mode.

Definition Rate_Apply (r : Rate) (q : Quantity) (scale : Z) (mode : RoundingMode)
    : outcome values_err Money :=
  _ ← Rate_Validate r;
  _ ← fail_if (negb (bool_decide (r_kind r = rateKindMoney))) ErrRateKind;
  _ ← Quantity_Validate q;
  _ ← fail_if (negb (String.eqb (q_unit q) (r_perUnit r))) ErrUnitMismatch;
  Money_MulDecimal (r_money r) (q_value q) scale mode.

Definition Rate_ApplyQuantity (r : Rate) (q : Quantity) (scale : Z) (mode : RoundingMode)
    : outcome values_err Quantity :=
  _ ← Rate_Validate r;
  _ ← fail_if (negb (bool_decide (r_kind r = rateKindQuantity))) ErrRateKind;
  _ ← Quantity_Validate q;
  _ ← fail_if (negb (String.eqb (q_unit q) (r_perUnit r))) ErrUnitMismatch;
  product ← Decimal_Mul (q_value (r_quantity r)) (q_value q) scale mode;
  Ok (mkQuantity product (q_unit (r_quantity r))).

End Scaling.

(** * Lemmas *)

Lemma validateCurrency_len c u : validateCurrency c = Ok u -> String.length c = 3%nat.
Proof.
  unfold validateCurrency, len. destruct (Z.eqb_spec (Z.of_nat (String.length c)) 3); [lia | discriminate].
Qed.

Lemma Money_Validate_inv m u : Money_Validate m = Ok u ->
  Decimal_Validate (m_amount m) = Ok tt /\ validateCurrency (m_currency m) = Ok tt
  /\ m_currency m <> ""%string.
Proof.
  unfold Money_Validate. destruct (String.eqb_spec (m_currency m) ""); [discriminate|].
  intros H. ok_inv. done.
Qed.

Lemma Money_Validate_intro d c :
  Decimal_Validate d = Ok tt -> validateCurrency c = Ok tt -> Money_Validate (mkMoney d c) = Ok tt.
Proof.
  intros Hd Hc. unfold Money_Validate. cbn. rewrite Hc. cbn.
  destruct (String.eqb_spec c "") as [->|]; [discriminate Hc | done].
Qed.

Lemma Quantity_Validate_inv q u : Quantity_Validate q = Ok u ->
  Decimal_Validate (q_value q) = Ok tt /\ validateUnit (q_unit q) = Ok tt.
Proof.
  unfold Quantity_Validate. destruct (String.eqb_spec (q_unit q) ""); [discriminate|].
  intros H. ok_inv. done.
Qed.

Lemma requireSameCurrency_ok m o u : Money_requireSameCurrency m o = Ok u ->
  Money_Validate m = Ok tt /\ Money_Validate o = Ok tt /\ m_currency m = m_currency o.
Proof.
  unfold Money_requireSameCurrency. intros H. ok_inv.
  apply negb_false_iff, String.eqb_eq in H. done.
Qed.

Lemma requireSameUnit_ok q o u : Quantity_requireSameUnit q o = Ok u ->
  Quantity_Validate q = Ok tt /\ Quantity_Validate o = Ok tt /\ q_unit q = q_unit o.
Proof.
  unfold Quantity_requireSameUnit. intros H. ok_inv.
  apply negb_false_iff, String.eqb_eq in H. done.
Qed.

Lemma Decimal_Add_Sub_wf d o r : Decimal_Add d o = Ok r \/ Decimal_Sub d o = Ok r ->
  Decimal_Validate r = Ok tt.
Proof.
  intros [H|H]; unfold Decimal_Add, Decimal_Sub in H; ok_inv;
    apply Decimal_Validate_inv, dec_wf_scale in Hok as [? ?];
    apply Decimal_Validate_ok; by eapply fromSigned_wf.
Qed.

Lemma Decimal_Sub_Add d o r : Decimal_Add d o = Ok r -> Decimal_Sub r o = Ok d.
Proof.
  unfold Decimal_Add. intros H. ok_inv. apply negb_false_iff, Z.eqb_eq in Hok1.
  apply Decimal_Validate_inv in Hok. destruct (dec_wf_scale d Hok) as [Hs Hm].
  destruct (fromSigned_ok _ _ _ _ Hs Hm H) as (Hw & Hv & Hrs & Hrm).
  unfold Decimal_Sub. rewrite (proj2 (Decimal_Validate_ok r) Hw), Hok0, Hrs, Hok1, Z.eqb_refl, Hrm, Hv.
  cbn [negb fail_if mbind outcome_bind]. rewrite fromSigned_spec.
  replace (Decimal_signed d + Decimal_signed o - Decimal_signed o) with (Decimal_signed d) by lia.
  rewrite (proj2 (Z.ltb_lt _ _) (dec_wf_bound d Hok)), <- Hok1. f_equal. symmetry. by apply dec_wf_eta.
Qed.

Lemma Decimal_Add_value d o r : Decimal_Add d o = Ok r ->
  Decimal_signed r = Decimal_signed d + Decimal_signed o.
Proof.
  unfold Decimal_Add. intros H. ok_inv. apply Decimal_Validate_inv, dec_wf_scale in Hok as [Hs Hm].
  by destruct (fromSigned_ok _ _ _ _ Hs Hm H) as (_ & ? & _).
Qed.

(** A canonical decimal followed by text determines both. *)
Lemma Decimal_Canonical_text d o s t :
  Decimal_Validate d = Ok tt -> Decimal_Validate o = Ok tt ->
  default [] (Decimal_Canonical d) ++ str_bytes s = default [] (Decimal_Canonical o) ++ str_bytes t ->
  Decimal_signed d = Decimal_signed o /\ d_scale d = d_scale o /\ s = t.
Proof.
  rewrite !Decimal_Validate_ok. intros Hd Ho.
  destruct (Decimal_Canonical_some d Hd) as [c Hc], (Decimal_Canonical_some o Ho) as [c' Hc'].
  rewrite Hc, Hc'. cbn [default]. intros E.
  destruct (Decimal_Canonical_prefix d o c c' _ _ Hc Hc' E) as (? & ? & Hr).
  by apply str_bytes_inj in Hr.
Qed.

(** * Properties *)

(** money arithmetic never mixes currencies.  A sum or difference exists
    only for two valid amounts in one currency, stays in that currency, is
    valid, and subtraction undoes addition; two valid amounts in different
    currencies are refused by [Add], [Sub] and [Cmp] alike. *)
Theorem money_currency_safety m o :
  (forall r, Money_Add m o = Ok r ->
     m_currency m = m_currency o /\ m_currency r = m_currency m /\ Money_Validate r = Ok tt
     /\ Decimal_signed (m_amount r) = Decimal_signed (m_amount m) + Decimal_signed (m_amount o)
     /\ Money_Sub r o = Ok m)
  /\ (forall r, Money_Sub m o = Ok r ->
     m_currency m = m_currency o /\ m_currency r = m_currency m /\ Money_Validate r = Ok tt)
  /\ (Money_Validate m = Ok tt -> Money_Validate o = Ok tt -> m_currency m <> m_currency o ->
      Money_Add m o = Err ErrCurrencyMismatch /\ Money_Sub m o = Err ErrCurrencyMismatch
      /\ Money_Cmp m o = Err ErrCurrencyMismatch).
Proof.
  split_and!.
  - intros r H. unfold Money_Add in H. ok_inv. subst r.
    apply requireSameCurrency_ok in Hok as (Vm & Vo & Hc).
    assert (Vr : Money_Validate (mkMoney a0 (m_currency m)) = Ok tt).
    { apply Money_Validate_intro; [eapply Decimal_Add_Sub_wf; eauto|].
      by apply Money_Validate_inv in Vm as (_ & ? & _). }
    split_and!; try done; [by apply Decimal_Add_value|].
    unfold Money_Sub, Money_requireSameCurrency. rewrite Vr, Vo. cbn [mbind outcome_bind m_currency m_amount].
    rewrite Hc, String.eqb_refl, (Decimal_Sub_Add _ _ _ Hok0). cbn [negb fail_if mbind outcome_bind].
    rewrite <- Hc. by destruct m.
  - intros r H. unfold Money_Sub in H. ok_inv. subst r.
    apply requireSameCurrency_ok in Hok as (Vm & Vo & Hc). split_and!; try done.
    apply Money_Validate_intro; [eapply Decimal_Add_Sub_wf; eauto|].
    by apply Money_Validate_inv in Vm as (_ & ? & _).
  - intros Vm Vo Hne. unfold Money_Add, Money_Sub, Money_Cmp, Money_requireSameCurrency.
    rewrite Vm, Vo. cbn [mbind outcome_bind].
    by rewrite (proj2 (String.eqb_neq _ _) Hne).
Qed.

Definition usd_10 : Money := mkMoney dec_10 "USD".
Definition eur_10 : Money := mkMoney dec_10 "EUR".

Lemma money_currency_safety_witness :
  Money_Add usd_10 eur_10 = Err ErrCurrencyMismatch
  /\ (exists r, Money_Add usd_10 usd_10 = Ok r /\ Money_Sub r usd_10 = Ok usd_10).
Proof.
  split.
  - apply (proj2 (proj2 (money_currency_safety usd_10 eur_10))); [reflexivity | reflexivity | discriminate].
  - eexists. split; [reflexivity|]. apply (proj1 (money_currency_safety usd_10 usd_10)). reflexivity.
Defined.

(** applying a money rate to a quantity in the rate's own unit is the
    product of the two decimals, rounded once by the declared mode, in the
    rate's currency; a quantity in another unit and a quantity-valued rate
    are refused. *)
Theorem rate_apply_correct `{B : DecimalBackend} `{L : !DecimalBackendLaws B} r q scale mode x :
  Rate_Validate r = Ok tt -> Quantity_Validate q = Ok tt ->
  checkScale scale = Ok tt -> checkMode mode = Ok tt ->
  (r_kind r <> rateKindMoney -> Rate_Apply r q scale mode = Err ErrRateKind)
  /\ (r_kind r = rateKindMoney -> q_unit q <> r_perUnit r ->
        Rate_Apply r q scale mode = Err ErrUnitMismatch)
  /\ (r_kind r = rateKindMoney -> q_unit q = r_perUnit r ->
      rounds mode (Decimal_signed (m_amount (r_money r)) * Decimal_signed (q_value q) * 10 ^ scale)
        (10 ^ (d_scale (m_amount (r_money r)) + d_scale (q_value q))) x ->
      Z.abs x < 10 ^ MaxPrecision ->
      Rate_Apply r q scale mode = Ok (mkMoney (dec_of x scale mode) (m_currency (r_money r)))).
Proof.
  intros Vr Vq Hs Hm. unfold Rate_Apply. rewrite Vr, Vq. cbn [mbind outcome_bind]. split_and!.
  - intros Hk. by rewrite bool_decide_eq_false_2.
  - intros Hk Hu. rewrite bool_decide_eq_true_2 by done. cbn [negb fail_if mbind outcome_bind].
    by rewrite (proj2 (String.eqb_neq _ _) Hu).
  - intros Hk Hu HR Hx. rewrite bool_decide_eq_true_2, Hu, String.eqb_refl by done.
    cbn [negb fail_if mbind outcome_bind].
    assert (Vm : Money_Validate (r_money r) = Ok tt).
    { unfold Rate_Validate in Vr. rewrite Hk in Vr. ok_inv. done. }
    unfold Money_MulDecimal, Decimal_Mul. rewrite Vm.
    apply Money_Validate_inv in Vm as (Va & _). apply Quantity_Validate_inv in Vq as (Vv & _).
    rewrite Va, Vv. cbn [mbind outcome_bind].
    rewrite Decimal_Validate_ok in Va, Vv. apply dec_wf_scale in Va, Vv.
    pose proof (quantizeSigned_spec _ (d_scale (m_amount (r_money r)) + d_scale (q_value q))
                  scale mode x ltac:(lia) (proj1 (checkScale_ok _) Hs)
                  (proj1 (checkMode_ok _) Hm) HR) as HQ.
    rewrite (proj2 (Z.ltb_lt _ _) Hx) in HQ. by rewrite HQ.
Qed.

Definition hourly_24 : Rate :=
  mkRate rateKindMoney (mkMoney (dec_of 2400 2 RoundingHalfUp) "USD") Quantity_zero_value "HOUR".
Definition hours_7_25 : Quantity := mkQuantity (dec_of 725 2 RoundingHalfUp) "HOUR".

(** 24.00 USD/HOUR for 7.25 HOUR is 174.00 USD. *)
Lemma rate_apply_correct_witness :
  Rate_Apply hourly_24 hours_7_25 2 RoundingHalfUp
  = Ok (mkMoney (dec_of 17400 2 RoundingHalfUp) "USD").
Proof.
  apply (rate_apply_correct hourly_24 hours_7_25 2 RoundingHalfUp 17400);
    try reflexivity. vm_compute. split; congruence.
Defined.

(** the canonical bytes of a money amount and of a quantity determine the
    value: equal bytes mean the same number, the same declared scale and the
    same currency (unit). *)
Theorem money_quantity_canonical_injective m o q p :
  (Money_Validate m = Ok tt -> Money_Validate o = Ok tt -> Money_Canonical m = Money_Canonical o ->
     Decimal_signed (m_amount m) = Decimal_signed (m_amount o)
     /\ d_scale (m_amount m) = d_scale (m_amount o) /\ m_currency m = m_currency o)
  /\ (Quantity_Validate q = Ok tt -> Quantity_Validate p = Ok tt ->
      Quantity_Canonical q = Quantity_Canonical p ->
     Decimal_signed (q_value q) = Decimal_signed (q_value p)
     /\ d_scale (q_value q) = d_scale (q_value p) /\ q_unit q = q_unit p).
Proof.
  split.
  - intros Vm Vo. unfold Money_Canonical. rewrite Vm, Vo. cbn [is_ok]. intros E. apply (inj Some) in E.
    apply Money_Validate_inv in Vm as (? & _), Vo as (? & _). by apply Decimal_Canonical_text in E.
  - intros Vm Vo. unfold Quantity_Canonical. rewrite Vm, Vo. cbn [is_ok]. intros E. apply (inj Some) in E.
    apply Quantity_Validate_inv in Vm as (? & _), Vo as (? & _). by apply Decimal_Canonical_text in E.
Qed.

Lemma money_quantity_canonical_injective_witness : Money_Canonical usd_10 <> Money_Canonical eur_10.
Proof.
  intros E. destruct (proj1 (money_quantity_canonical_injective usd_10 eur_10 hours_7_25 hours_7_25)
    eq_refl eq_refl E) as (_ & _ & H). discriminate H.
Defined.

(** the canonical bytes of a rate do not determine it: a quantity rate in
    DAY per HOUR and one in DAYH per OUR, and a money rate in USD per HOUR and
    a quantity rate in USD per HOUR, are valid, different, and encode to the
    same bytes. *)
Theorem rate_canonical_ambiguous :
  (exists r1 r2, NewQuantityRate (mkQuantity dec_10 "DAY") "HOUR" = Ok r1
     /\ NewQuantityRate (mkQuantity dec_10 "DAYH") "OUR" = Ok r2
     /\ q_unit (r_quantity r1) <> q_unit (r_quantity r2)
     /\ Rate_Canonical r1 = Rate_Canonical r2 /\ Rate_Canonical r1 <> None)
  /\ (exists r1 r2, NewMoneyRate usd_10 "HOUR" = Ok r1
     /\ NewQuantityRate (mkQuantity dec_10 "USD") "HOUR" = Ok r2
     /\ r_kind r1 <> r_kind r2
     /\ Rate_Canonical r1 = Rate_Canonical r2 /\ Rate_Canonical r1 <> None).
Proof.
  split; (eexists; eexists; split; [reflexivity|]; split; [reflexivity|];
    split; [discriminate|]; split; [vm_compute; reflexivity | vm_compute; discriminate]).
Qed.
