(* ===== verification/CivilTime.v ===== *)
(** Instants, calendar dates and times of day:
    [internal/kernel/values/time.go] up to [LocalTime].

    A [time.Time] is a count of UTC seconds and nanoseconds; what the source
    uses of package time (the normalisation of [time.Date], [AddDate], the
    calendar fields of a time) is the proleptic Gregorian calendar, given by
    [days_of_civil] and [civil_of_days], which are proved inverse. *)

From S2P Require Import Prelude.

Local Open Scope Z_scope.

(** * Errors and tags *)

Inductive time_err : Type :=
  | ErrInstantUnset | ErrInstantFormat | ErrInstantRange | ErrInvalidLocalDate
  | ErrInvalidLocalTime | ErrLocalDateUnset | ErrLocalTimeUnset | ErrZoneRequired
  | ErrTzdbVersionRequired | ErrUnknownZone | ErrDisambiguationRequired | ErrDisambiguation
  | ErrDSTGap | ErrDSTAmbiguous | ErrOffsetNotValid | ErrCalendarRequired
  | ErrCalendarVersionRequired | ErrIntervalUnset | ErrIntervalInverted | ErrIntervalEmpty
  | ErrIntervalKindMismatch | ErrFutureKnowledge | ErrPayPeriodUnset | ErrPayPeriodOpenEnded
  | ErrBusinessDayUnset.

#[export] Instance time_err_eq_dec : EqDecision time_err.
Proof. solve_decision. Defined.

Definition tagInstant : Z := 1.
Definition tagLocalDate : Z := 2.
Definition tagLocalTime : Z := 3.
Definition tagZoned : Z := 4.
Definition tagInterval : Z := 5.
Definition tagRecordedAt : Z := 6.
Definition tagKnownAt : Z := 7.
Definition tagPayPeriod : Z := 8.
Definition tagBusinessDay : Z := 9.

(** * Package time: the proleptic Gregorian calendar *)

Definition is_leap (y : Z) : bool :=
  (y mod 4 =? 0) && (negb (y mod 100 =? 0) || (y mod 400 =? 0)).

Definition days_in_month (y m : Z) : Z :=
  if m =? 2 then (if is_leap y then 29 else 28)
  else if (m =? 4) || (m =? 6) || (m =? 9) || (m =? 11) then 30 else 31.

(** Days since 1970-01-01; a day past the end of its month carries on into the
    following days, as in [time.Date]. *)
Definition month_start (mp : Z) : Z := (153 * mp + 2) / 5.
Definition year_start (yoe : Z) : Z := 365 * yoe + yoe / 4 - yoe / 100.
Definition days_of_civil (y m d : Z) : Z :=
  let y' := if m <=? 2 then y - 1 else y in
  (y' / 400) * 146097 + year_start (y' mod 400) + month_start ((m + 9) mod 12) + (d - 1) - 719468.

(** The year, month and day of a day number. *)
Definition civil_in_era (doe : Z) : Z * Z * Z :=
  let yoe := (doe - doe / 1460 + doe / 36524 - doe / 146096) / 365 in
  let doy := doe - year_start yoe in
  let mp := (5 * doy + 2) / 153 in
  let m := if mp <? 10 then mp + 3 else mp - 9 in
  (if m <=? 2 then yoe + 1 else yoe, m, doy - month_start mp + 1).
Definition civil_of_days (z : Z) : Z * Z * Z :=
  let '(y, m, d) := civil_in_era ((z + 719468) mod 146097) in
  (y + ((z + 719468) / 146097) * 400, m, d).

(** * Instant *)

Record Instant : Type := mkInstant { i_set : bool; i_sec : Z; i_nsec : Z }.

#[export] Instance Instant_eq_dec : EqDecision Instant.
Proof. solve_decision. Defined.

Definition Instant_zero_value : Instant := mkInstant false 0 0.

(** A [time.Time] as the source reads it: [Unix()] and [Nanosecond()]. *)
Record GoTime : Type := mkGoTime { t_unix : Z; t_nanosecond : Z }.

Definition NewInstant (t : GoTime) : Instant := mkInstant true (t_unix t) (t_nanosecond t).

Definition NewInstantFromUnix (sec nsec : Z) : outcome time_err Instant :=
  _ ← fail_if ((nsec <? 0) || (999999999 <? nsec)) ErrInstantRange;
  Ok (mkInstant true sec nsec).

Definition Instant_Validate (i : Instant) : outcome time_err unit :=
  if negb (i_set i) then Err ErrInstantUnset
  else fail_if ((i_nsec i <? 0) || (999999999 <? i_nsec i)) ErrInstantRange.

Definition Instant_Compare (i o : Instant) : Z :=
  if negb (i_sec i =? i_sec o) then (if i_sec i <? i_sec o then -1 else 1)
  else if negb (i_nsec i =? i_nsec o) then (if i_nsec i <? i_nsec o then -1 else 1)
  else 0.

Definition Instant_Before (i o : Instant) : bool := Instant_Compare i o <? 0.
Definition Instant_After (i o : Instant) : bool := 0 <? Instant_Compare i o.

Definition Instant_Canonical (i : Instant) : option (list Z) :=
  if is_ok (Instant_Validate i)
  then Some (tagInstant :: be_bytes 8 (to_uint64 (i_sec i)) ++ be_bytes 4 (to_uint32 (i_nsec i)))
  else None.

(** * LocalDate *)

Record LocalDate : Type := mkLocalDate { ld_set : bool; ld_year : Z; ld_month : Z; ld_day : Z }.

#[export] Instance LocalDate_eq_dec : EqDecision LocalDate.
Proof. solve_decision. Defined.

Definition LocalDate_zero_value : LocalDate := mkLocalDate false 0 0 0.

(** The probe is [time.Date(year, month, day, 0, 0, 0, 0, time.UTC)]. *)
Definition NewLocalDate (year month day : Z) : outcome time_err LocalDate :=
  _ ← fail_if ((year <? 1) || (9999 <? year)) ErrInvalidLocalDate;
  _ ← fail_if ((month <? 1) || (12 <? month)) ErrInvalidLocalDate;
  _ ← fail_if ((day <? 1) || (31 <? day)) ErrInvalidLocalDate;
  let '(py, pm, pd) := civil_of_days (days_of_civil year month day) in
  if negb (py =? year) || negb (pm =? month) || negb (pd =? day) then Err ErrInvalidLocalDate
  else Ok (mkLocalDate true year month day).

Fixpoint str_get (i : nat) (s : string) : option ascii :=
  match s with
  | EmptyString => None
  | String c s' => match i with O => Some c | S i' => str_get i' s' end
  end.
Definition char_is (i : nat) (c : ascii) (s : string) : bool :=
  match str_get i s with Some x => Ascii.eqb x c | None => false end.
Definition digit_at (s : string) (i : nat) : bool :=
  match str_get i s with Some x => is_digit x | None => false end.

(** [strconv.Atoi(s[i:i+n])] on digits already checked. *)
Definition atoi_slice (i n : nat) (s : string) : Z := dec_value (str_take n (str_drop i s)) 0.

Definition ParseLocalDate (s : string) : outcome time_err LocalDate :=
  if negb (len s =? 10) || negb (char_is 4 "-" s) || negb (char_is 7 "-" s)
  then Err ErrInvalidLocalDate
  else if forallb (digit_at s) [0; 1; 2; 3; 5; 6; 8; 9]%nat
  then NewLocalDate (atoi_slice 0 4 s) (atoi_slice 5 2 s) (atoi_slice 8 2 s)
  else Err ErrInvalidLocalDate.

Definition LocalDate_Validate (d : LocalDate) : outcome time_err unit :=
  if negb (ld_set d) then Err ErrLocalDateUnset
  else _ ← NewLocalDate (ld_year d) (ld_month d) (ld_day d); Ok tt.

(** [AddDate(0, 0, n)] on midnight UTC, then the fields of the result. *)
Definition LocalDate_AddDays (d : LocalDate) (n : Z) : LocalDate :=
  if is_ok (LocalDate_Validate d) then
    let '(y, m, dd) := civil_of_days (days_of_civil (ld_year d) (ld_month d) (ld_day d + n)) in
    match NewLocalDate y m dd with
    | Ok out => out
    | _ => LocalDate_zero_value
    end
  else LocalDate_zero_value.

Definition LocalDate_Compare (d o : LocalDate) : Z :=
  if negb (ld_year d =? ld_year o) then (if ld_year d <? ld_year o then -1 else 1)
  else if negb (ld_month d =? ld_month o) then (if ld_month d <? ld_month o then -1 else 1)
  else if negb (ld_day d =? ld_day o) then (if ld_day d <? ld_day o then -1 else 1)
  else 0.

(** [fmt.Sprintf("%0wd", n)] of a non-negative integer. *)
Definition pad (w : nat) (n : Z) : string :=
  str_repeat "0" (w - String.length (dec_string n)) +:+ dec_string n.

Definition LocalDate_String (d : LocalDate) : string :=
  if is_ok (LocalDate_Validate d)
  then pad 4 (ld_year d) +:+ "-" +:+ pad 2 (ld_month d) +:+ "-" +:+ pad 2 (ld_day d)
  else "".

Definition LocalDate_Canonical (d : LocalDate) : option (list Z) :=
  if is_ok (LocalDate_Validate d)
  then Some (tagLocalDate :: be_bytes 4 (to_uint32 (ld_year d)) ++ [ld_month d; ld_day d])
  else None.

Definition LocalDate_MarshalText (d : LocalDate) : outcome time_err string :=
  _ ← LocalDate_Validate d; Ok (LocalDate_String d).

Definition LocalDate_UnmarshalText (text : string) : outcome time_err LocalDate :=
  ParseLocalDate text.

(** * LocalTime *)

Record LocalTime : Type := mkLocalTime {
  lt_set : bool; lt_hour : Z; lt_minute : Z; lt_second : Z; lt_nanos : Z
}.

Definition LocalTime_zero_value : LocalTime := mkLocalTime false 0 0 0 0.

Definition NewLocalTime (hour minute second nanos : Z) : outcome time_err LocalTime :=
  if (hour <? 0) || (23 <? hour) then Err ErrInvalidLocalTime
  else if (minute <? 0) || (59 <? minute) then Err ErrInvalidLocalTime
  else if (second <? 0) || (59 <? second) then Err ErrInvalidLocalTime
  else if (nanos <? 0) || (999999999 <? nanos) then Err ErrInvalidLocalTime
  else Ok (mkLocalTime true hour minute second nanos).

Definition ParseLocalTime (s : string) : outcome time_err LocalTime :=
  let '(head, frac, hasFrac) := str_cut "." s in
  if negb (len head =? 8) || negb (char_is 2 ":" head) || negb (char_is 5 ":" head)
  then Err ErrInvalidLocalTime
  else if negb (forallb (digit_at head) [0; 1; 3; 4; 6; 7]%nat) then Err ErrInvalidLocalTime
  else
    nanos ← (if hasFrac then
               if negb (len frac =? 9) then Err ErrInvalidLocalTime
               else if negb (str_forall is_digit frac) then Err ErrInvalidLocalTime
               else if dec_value frac 0 =? 0 then Err ErrInvalidLocalTime
               else Ok (dec_value frac 0)
             else Ok 0);
    NewLocalTime (atoi_slice 0 2 head) (atoi_slice 3 2 head) (atoi_slice 6 2 head) nanos.

Definition LocalTime_Validate (v : LocalTime) : outcome time_err unit :=
  if negb (lt_set v) then Err ErrLocalTimeUnset
  else _ ← NewLocalTime (lt_hour v) (lt_minute v) (lt_second v) (lt_nanos v); Ok tt.

Definition LocalTime_String (v : LocalTime) : string :=
  if is_ok (LocalTime_Validate v) then
    let base := pad 2 (lt_hour v) +:+ ":" +:+ pad 2 (lt_minute v) +:+ ":" +:+ pad 2 (lt_second v) in
    if lt_nanos v =? 0 then base else base +:+ "." +:+ pad 9 (lt_nanos v)
  else "".

Definition LocalTime_Canonical (v : LocalTime) : option (list Z) :=
  if is_ok (LocalTime_Validate v)
  then Some (tagLocalTime :: lt_hour v :: lt_minute v :: lt_second v :: be_bytes 4 (to_uint32 (lt_nanos v)))
  else None.

Definition LocalTime_MarshalText (v : LocalTime) : outcome time_err string :=
  _ ← LocalTime_Validate v; Ok (LocalTime_String v).

Definition LocalTime_UnmarshalText (text : string) : outcome time_err LocalTime :=
  ParseLocalTime text.

(** * Lemmas on the calendar *)

Definition civil_ok (y m d : Z) : Prop := 1 <= m <= 12 /\ 1 <= d <= days_in_month y m.

Definition civil_okb (y m d : Z) : bool :=
  (1 <=? m) && (m <=? 12) && (1 <=? d) && (d <=? days_in_month y m).

Lemma civil_okb_spec y m d : civil_okb y m d = true <-> civil_ok y m d.
Proof. unfold civil_okb, civil_ok. rewrite !andb_true_iff, !Z.leb_le. tauto. Qed.

(** Closes [civil_ok] of a concrete date. *)
Ltac civil_now := apply civil_okb_spec; reflexivity.

(** Finite checks over a Z interval. *)
Fixpoint all_from (n : nat) (i : Z) (p : Z -> bool) : bool :=
  match n with O => true | S n' => if p i then all_from n' (i + 1) p else false end.

Lemma all_from_spec n i p z : all_from n i p = true -> i <= z < i + Z.of_nat n -> p z = true.
Proof.
  revert i. induction n as [|n IH]; intros i; cbn [all_from]; [lia|].
  destruct (p i) eqn:Hp; [|done]. intros Ha Hz.
  destruct (Z.eq_dec z i) as [->|]; [done|]. apply (IH (i + 1)); [done | lia].
Qed.

(** The year of era counts from March, so that the leap day ends it. *)
Definition year_estimate (doe : Z) : Z := doe - doe / 1460 + doe / 36524 - doe / 146096.
Definition year_len (yoe : Z) : Z := if is_leap (yoe + 1) then 366 else 365.
Definition month_of (mp : Z) : Z := if mp <? 10 then mp + 3 else mp - 9.

Lemma year_estimate_mono d1 d2 :
  0 <= d1 <= d2 -> d2 < 146097 -> year_estimate d1 <= year_estimate d2.
Proof.
  intros H1 H2. unfold year_estimate.
  destruct (Z.eq_dec d2 146096) as [->|]; [destruct (Z.eq_dec d1 146096) as [->|]; [done|]|].
  - change (146096 / 1460) with 100. change (146096 / 36524) with 4. change (146096 / 146096) with 1.
    rewrite (Z.div_small d1 146096) by lia. div_lia.
  - rewrite (Z.div_small d1 146096), (Z.div_small d2 146096) by lia. div_lia.
Qed.

Definition era_year_ok (yoe : Z) : bool :=
  (year_estimate (year_start yoe) / 365 =? yoe)
  && (year_estimate (year_start yoe + year_len yoe - 1) / 365 =? yoe)
  && (year_start yoe + year_len yoe =? (if yoe =? 399 then 146097 else year_start (yoe + 1))).

Lemma era_years_checked : all_from 400 0 era_year_ok = true.
Proof. vm_compute. reflexivity. Qed.

Lemma era_year yoe : 0 <= yoe < 400 ->
  year_estimate (year_start yoe) / 365 = yoe
  /\ year_estimate (year_start yoe + year_len yoe - 1) / 365 = yoe
  /\ year_start yoe + year_len yoe = (if yoe =? 399 then 146097 else year_start (yoe + 1)).
Proof.
  intros H. pose proof (all_from_spec _ _ _ yoe era_years_checked ltac:(lia)) as E.
  unfold era_year_ok in E. rewrite !andb_true_iff, !Z.eqb_eq in E. tauto.
Qed.

Lemma year_start_bounds yoe : 0 <= yoe < 400 -> 0 <= year_start yoe /\ year_start yoe + year_len yoe <= 146097.
Proof. intros H. unfold year_start, year_len. case_match; div_lia. Qed.

(** The estimate is exact on every day of a year. *)
Lemma year_estimate_exact yoe doy :
  0 <= yoe < 400 -> 0 <= doy < year_len yoe -> year_estimate (year_start yoe + doy) / 365 = yoe.
Proof.
  intros Hy Hd. destruct (era_year yoe Hy) as (H1 & H2 & _). destruct (year_start_bounds yoe Hy).
  pose proof (year_estimate_mono (year_start yoe) (year_start yoe + doy) ltac:(lia) ltac:(lia)).
  pose proof (year_estimate_mono (year_start yoe + doy) (year_start yoe + year_len yoe - 1)
                ltac:(lia) ltac:(lia)). div_lia.
Qed.

(** The years of an era tile its days. *)
Lemma era_day_split doe : 0 <= doe < 146097 ->
  exists yoe doy, 0 <= yoe < 400 /\ 0 <= doy < year_len yoe /\ doe = year_start yoe + doy.
Proof.
  intros H. assert (G : forall n : nat, (n <= 400)%nat ->
    (Z.of_nat n = 400 \/ doe < year_start (Z.of_nat n)) ->
    exists yoe doy, 0 <= yoe < 400 /\ 0 <= doy < year_len yoe /\ doe = year_start yoe + doy).
  { induction n as [|n IH]; intros Hn Hd; [change (year_start (Z.of_nat 0)) with 0 in Hd; lia|].
    destruct (era_year (Z.of_nat n) ltac:(lia)) as (_ & _ & E).
    destruct (Z.lt_ge_cases doe (year_start (Z.of_nat n))) as [|Hge]; [apply IH; lia|].
    exists (Z.of_nat n), (doe - year_start (Z.of_nat n)). split; [lia|]. split; [|lia].
    destruct (Z.eqb_spec (Z.of_nat n) 399); [lia|].
    rewrite Nat2Z.inj_succ in Hd. unfold Z.succ in Hd. lia. }
  apply (G 400%nat); [lia | by left].
Qed.

(** Days of a year and its months; only February depends on the year. *)
Definition doy_ok (doy : Z) : bool :=
  let mp := (5 * doy + 2) / 153 in let d := doy - month_start mp + 1 in
  (0 <=? mp) && (mp <=? 11) && (1 <=? d)
  && (d <=? days_in_month 2000 (month_of mp)) && ((365 <=? doy) || (d <=? days_in_month 2001 (month_of mp))).

Definition month_ok (mp : Z) : bool :=
  all_from 31 1 (fun d => negb (d <=? days_in_month 2000 (month_of mp)) ||
    (((5 * (month_start mp + d - 1) + 2) / 153 =? mp) && (month_start mp + d - 1 <? 366)
     && ((365 <=? month_start mp + d - 1) && (mp =? 11) && (d =? 29) || (d <=? days_in_month 2001 (month_of mp)) && (month_start mp + d - 1 <? 365)))).

Lemma doys_checked : all_from 366 0 doy_ok = true.
Proof. vm_compute. reflexivity. Qed.

Lemma months_checked : all_from 12 0 month_ok = true.
Proof. vm_compute. reflexivity. Qed.

Lemma days_in_month_leap y y' m : is_leap y = is_leap y' -> days_in_month y m = days_in_month y' m.
Proof. intros H. unfold days_in_month. by rewrite H. Qed.

Lemma days_in_month_not_feb y y' m : m <> 2 -> days_in_month y m = days_in_month y' m.
Proof. intros H. unfold days_in_month. by rewrite (proj2 (Z.eqb_neq m 2)). Qed.

Lemma days_in_month_bounds y m :
  28 <= days_in_month y m <= 31 /\ days_in_month 2001 m <= days_in_month 2000 m.
Proof.
  unfold days_in_month. change (is_leap 2001) with false. change (is_leap 2000) with true.
  destruct (m =? 2), (is_leap y); try lia; destruct (_ || _); lia.
Qed.

Lemma is_leap_shift y k : is_leap (y + k * 400) = is_leap y.
Proof.
  unfold is_leap.
  assert ((y + k * 400) mod 4 = y mod 4 /\ (y + k * 400) mod 100 = y mod 100
          /\ (y + k * 400) mod 400 = y mod 400) as (-> & -> & ->); [|done]. div_lia.
Qed.

Lemma days_in_month_shift y k m : days_in_month (y + k * 400) m = days_in_month y m.
Proof. unfold days_in_month. by rewrite is_leap_shift. Qed.

Lemma days_of_civil_shift y k m d :
  days_of_civil (y + k * 400) m d = days_of_civil y m d + k * 146097.
Proof.
  unfold days_of_civil. case_match; cbv zeta.
  - replace (y + k * 400 - 1) with (y - 1 + k * 400) by lia. rewrite Z.div_add, Z.mod_add by lia. lia.
  - rewrite Z.div_add, Z.mod_add by lia. lia.
Qed.

Lemma days_of_civil_day y m d n : days_of_civil y m (d + n) = days_of_civil y m d + n.
Proof. unfold days_of_civil. lia. Qed.

Lemma civil_of_days_shift z k : civil_of_days (z + k * 146097) =
  let '(y, m, d) := civil_of_days z in (y + k * 400, m, d).
Proof.
  unfold civil_of_days. replace (z + k * 146097 + 719468) with (z + 719468 + k * 146097) by lia.
  rewrite Z.div_add, Z.mod_add by lia. destruct (civil_in_era _) as [[y m] d]. do 2 f_equal. lia.
Qed.

Lemma month_of_spec mp : 0 <= mp <= 11 ->
  1 <= month_of mp <= 12 /\ (month_of mp + 9) mod 12 = mp /\ (month_of mp = 2 <-> mp = 11).
Proof.
  intros H. unfold month_of.
  destruct (Z.ltb_spec mp 10); (split; [lia|]; split; [|lia]).
  - replace (mp + 3 + 9) with (mp + 1 * 12) by lia. rewrite Z.mod_add by lia. apply Z.mod_small. lia.
  - replace (mp - 9 + 9) with mp by lia. apply Z.mod_small. lia.
Qed.

Lemma days_in_month_year yoe mp : 0 <= mp <= 11 ->
  days_in_month (if month_of mp <=? 2 then yoe + 1 else yoe) (month_of mp)
  = days_in_month (if is_leap (yoe + 1) then 2000 else 2001) (month_of mp).
Proof.
  intros H. destruct (month_of_spec mp H) as (Hm & _ & Hf).
  destruct (Z.eq_dec (month_of mp) 2) as [->|]; [|by apply days_in_month_not_feb].
  apply days_in_month_leap. cbn. by destruct (is_leap (yoe + 1)).
Qed.

Lemma days_of_civil_march yoe mp d : 0 <= yoe < 400 -> 0 <= mp <= 11 ->
  days_of_civil (if month_of mp <=? 2 then yoe + 1 else yoe) (month_of mp) d
  = year_start yoe + month_start mp + (d - 1) - 719468.
Proof.
  intros Hy H. destruct (month_of_spec mp H) as (Hm & E & _). unfold days_of_civil. rewrite E.
  replace (if month_of mp <=? 2 then (if month_of mp <=? 2 then yoe + 1 else yoe) - 1
           else if month_of mp <=? 2 then yoe + 1 else yoe) with yoe by (case_match; lia).
  rewrite Z.div_small, Z.mod_small by lia. lia.
Qed.

Lemma civil_in_era_eq yoe doy :
  0 <= yoe < 400 -> 0 <= doy < year_len yoe ->
  let mp := (5 * doy + 2) / 153 in
  civil_in_era (year_start yoe + doy)
  = (if month_of mp <=? 2 then yoe + 1 else yoe, month_of mp, doy - month_start mp + 1).
Proof.
  intros Hy Hd mp. unfold civil_in_era.
  pose proof (year_estimate_exact yoe doy Hy Hd) as E. unfold year_estimate in E. rewrite E.
  replace (year_start yoe + doy - year_start yoe) with doy by lia. reflexivity.
Qed.

(** Every day of an era is a real date, and [days_of_civil] recovers it. *)
Lemma civil_in_era_correct doe : 0 <= doe < 146097 ->
  let '(y, m, d) := civil_in_era doe in civil_ok y m d /\ days_of_civil y m d = doe - 719468.
Proof.
  intros H. destruct (era_day_split doe H) as (yoe & doy & Hy & Hd & ->).
  rewrite civil_in_era_eq by done. set (mp := (5 * doy + 2) / 153).
  assert (Hd' : 0 <= doy < 366) by (unfold year_len in Hd; case_match; lia).
  pose proof (all_from_spec _ _ _ doy doys_checked Hd') as E. unfold doy_ok in E. fold mp in E.
  rewrite !andb_true_iff, orb_true_iff, !Z.leb_le in E. destruct E as ((((E1 & E2) & E3) & E4) & E5).
  destruct (month_of_spec mp (conj E1 E2)) as (Hm & _ & _). unfold civil_ok.
  rewrite days_in_month_year, days_of_civil_march by lia. split; [|lia]. split; [done|]. split; [done|].
  unfold year_len in Hd. destruct (is_leap (yoe + 1)); [done | lia].
Qed.

(** Every day number is a real date, and [days_of_civil] recovers it. *)
Lemma civil_of_days_correct z :
  let '(y, m, d) := civil_of_days z in civil_ok y m d /\ days_of_civil y m d = z.
Proof.
  unfold civil_of_days. set (k := (z + 719468) / 146097). set (doe := (z + 719468) mod 146097).
  assert (Hz : z + 719468 = 146097 * k + doe) by (apply Z.div_mod; lia).
  pose proof (Z.mod_pos_bound (z + 719468) 146097 ltac:(lia)) as Hd. fold doe in Hd.
  pose proof (civil_in_era_correct doe Hd) as Hok. destruct (civil_in_era doe) as [[y m] d].
  unfold civil_ok in *. rewrite days_in_month_shift, days_of_civil_shift. split; [tauto | lia].
Qed.

Lemma year_split y : y = y mod 400 + (y / 400) * 400.
Proof. pose proof (Z.div_mod y 400). lia. Qed.

(** A date in March-based coordinates. *)
Lemma civil_ok_march y m d : civil_ok y m d ->
  exists k yoe mp, 0 <= yoe < 400 /\ 0 <= mp <= 11 /\ m = month_of mp
    /\ y = (if month_of mp <=? 2 then yoe + 1 else yoe) + k * 400.
Proof.
  intros [Hm _]. set (y' := if m <=? 2 then y - 1 else y). exists (y' / 400), (y' mod 400), ((m + 9) mod 12).
  split; [apply Z.mod_pos_bound; lia|]. split; [pose proof (Z.mod_pos_bound (m + 9) 12); lia|].
  assert (E : m = month_of ((m + 9) mod 12)).
  { unfold month_of. destruct (Z.leb_spec m 2).
    - rewrite Z.mod_small by lia. case_match; lia.
    - replace (m + 9) with (m - 3 + 1 * 12) by lia. rewrite Z.mod_add, Z.mod_small by lia. case_match; lia. }
  split; [done|]. rewrite <- E. pose proof (year_split y') as Hy. subst y'. case_match; lia.
Qed.

(** A real date is the date of its day number. *)
Lemma civil_of_days_of_civil y m d : civil_ok y m d -> civil_of_days (days_of_civil y m d) = (y, m, d).
Proof.
  intros H. destruct (civil_ok_march _ _ _ H) as (k & yoe & mp & Hy & Hmp & -> & ->).
  destruct H as [_ Hd]. rewrite days_in_month_shift, days_in_month_year in Hd by done.
  rewrite days_of_civil_shift, civil_of_days_shift, days_of_civil_march by done.
  pose proof (all_from_spec _ _ _ mp months_checked ltac:(lia)) as Hok. unfold month_ok in Hok.
  assert (Hd31 : d <= 31) by (etrans; [apply Hd | by apply days_in_month_bounds]).
  pose proof (all_from_spec _ _ _ d Hok ltac:(lia)) as E. cbv beta in E.
  assert (Hle : d <= days_in_month 2000 (month_of mp)).
  { destruct (is_leap (yoe + 1)); [lia|]. etrans; [apply Hd | by apply days_in_month_bounds]. }
  rewrite (proj2 (Z.leb_le _ _) Hle) in E. cbn [negb orb] in E.
  rewrite !andb_true_iff, orb_true_iff, !andb_true_iff, !Z.leb_le, !Z.eqb_eq, !Z.ltb_lt in E.
  destruct E as ((E1 & E2) & E3).
  assert (Hdoy : 0 <= month_start mp + d - 1 < year_len yoe).
  { split; [unfold month_start; div_lia|]. unfold year_len. destruct (is_leap (yoe + 1)); [done|].
    destruct E3 as [((E3 & ->) & ->)|E3]; [change (days_in_month 2001 (month_of 11)) with 28 in Hd; lia | lia]. }
  unfold civil_of_days.
  replace (year_start yoe + month_start mp + (d - 1) - 719468 + 719468)
    with (year_start yoe + (month_start mp + d - 1)) by lia.
  destruct (year_start_bounds yoe Hy). rewrite Z.div_small, Z.mod_small by lia.
  rewrite civil_in_era_eq by done. rewrite E1. do 2 f_equal; [f_equal|]; lia.
Qed.

(** ** Order of the day numbers *)

Definition month_lengths_ok (y : Z) : bool :=
  all_from 11 1 (fun m => days_of_civil y (m + 1) 1 =? days_of_civil y m 1 + days_in_month y m)
  && (days_of_civil (y + 1) 1 1 =? days_of_civil y 12 1 + 31).

Lemma month_lengths_checked : all_from 400 0 month_lengths_ok = true.
Proof. vm_compute. reflexivity. Qed.

Lemma month_lengths y :
  (forall m, 1 <= m < 12 -> days_of_civil y (m + 1) 1 = days_of_civil y m 1 + days_in_month y m)
  /\ days_of_civil (y + 1) 1 1 = days_of_civil y 12 1 + 31.
Proof.
  pose proof (Z.mod_pos_bound y 400 ltac:(lia)) as Hy.
  pose proof (all_from_spec _ _ _ (y mod 400) month_lengths_checked ltac:(lia)) as Hok.
  unfold month_lengths_ok in Hok. apply andb_true_iff in Hok as [Hok Hlast]. apply Z.eqb_eq in Hlast. split.
  - intros m Hm. pose proof (all_from_spec _ _ _ m Hok ltac:(lia)) as H. cbv beta in H. apply Z.eqb_eq in H.
    rewrite (year_split y), !days_of_civil_shift, days_in_month_shift. lia.
  - rewrite (year_split y).
    replace (y mod 400 + y / 400 * 400 + 1) with (y mod 400 + 1 + y / 400 * 400) by lia.
    rewrite !days_of_civil_shift. lia.
Qed.

Lemma month_mono y m m' :
  1 <= m < m' -> m' <= 12 -> days_of_civil y m 1 + days_in_month y m <= days_of_civil y m' 1.
Proof.
  intros Hm. replace m' with (m + 1 + Z.of_nat (Z.to_nat (m' - m - 1))) by lia.
  induction (Z.to_nat (m' - m - 1)) as [|k IH]; intros H12.
  - rewrite Z.add_0_r. rewrite (proj1 (month_lengths y)); lia.
  - pose proof (proj1 (month_lengths y) (m + 1 + Z.of_nat k) ltac:(lia)) as E.
    pose proof (days_in_month_bounds y (m + 1 + Z.of_nat k)).
    replace (m + 1 + Z.of_nat (S k)) with (m + 1 + Z.of_nat k + 1) by lia. lia.
Qed.

Lemma year_mono y y' : y < y' -> days_of_civil y 12 1 + 31 <= days_of_civil y' 1 1.
Proof.
  intros Hy. replace y' with (y + 1 + Z.of_nat (Z.to_nat (y' - y - 1))) by lia.
  induction (Z.to_nat (y' - y - 1)) as [|k IH].
  - rewrite Z.add_0_r, (proj2 (month_lengths y)). lia.
  - set (z := y + 1 + Z.of_nat k) in *. replace (y + 1 + Z.of_nat (S k)) with (z + 1) by lia.
    rewrite (proj2 (month_lengths z)). pose proof (month_mono z 1 12 ltac:(lia) ltac:(lia)).
    pose proof (days_in_month_bounds z 1). lia.
Qed.

Lemma days_of_civil_first y m d : days_of_civil y m d = days_of_civil y m 1 + (d - 1).
Proof. replace d with (1 + (d - 1)) at 1 by lia. apply days_of_civil_day. Qed.

Lemma days_in_december y : days_in_month y 12 = 31.
Proof. reflexivity. Qed.

(** A date lies within its own year. *)
Lemma civil_in_year y m d : civil_ok y m d ->
  days_of_civil y 1 1 <= days_of_civil y m d <= days_of_civil y 12 31.
Proof.
  intros [Hm Hd]. rewrite (days_of_civil_first y m d), (days_of_civil_first y 12 31).
  pose proof (days_in_month_bounds y 1). pose proof (days_in_december y). split.
  - destruct (Z.eq_dec m 1) as [->|]; [lia|]. pose proof (month_mono y 1 m). lia.
  - destruct (Z.eq_dec m 12) as [->|]; [lia|]. pose proof (month_mono y m 12). lia.
Qed.

(** The order on (year, month, day) is the order of the day numbers. *)
Lemma civil_lex_lt y m d y' m' d' :
  civil_ok y m d -> civil_ok y' m' d' ->
  y < y' \/ y = y' /\ (m < m' \/ m = m' /\ d < d') ->
  days_of_civil y m d < days_of_civil y' m' d'.
Proof.
  intros H H' [Hy|[<- [Hm|[<- Hd]]]].
  - pose proof (civil_in_year _ _ _ H). pose proof (civil_in_year _ _ _ H').
    pose proof (year_mono y y' Hy). rewrite (days_of_civil_first y 12 31) in *. lia.
  - destruct H as [? ?], H' as [? ?]. pose proof (month_mono y m m' ltac:(lia) ltac:(lia)).
    rewrite (days_of_civil_first y m d), (days_of_civil_first y m' d'). lia.
  - rewrite (days_of_civil_first y m d), (days_of_civil_first y m d'). lia.
Qed.

(** ** Valid dates *)

Definition ordinal (d : LocalDate) : Z := days_of_civil (ld_year d) (ld_month d) (ld_day d).

Definition date_ok (d : LocalDate) : Prop :=
  ld_set d = true /\ 1 <= ld_year d <= 9999 /\ civil_ok (ld_year d) (ld_month d) (ld_day d).

Definition first_ordinal : Z := days_of_civil 1 1 1.
Definition last_ordinal : Z := days_of_civil 9999 12 31.

Lemma NewLocalDate_ok y m d :
  1 <= y <= 9999 -> civil_ok y m d -> NewLocalDate y m d = Ok (mkLocalDate true y m d).
Proof.
  intros Hy H. unfold NewLocalDate. rewrite civil_of_days_of_civil by done. destruct H as [Hm Hd].
  pose proof (days_in_month_bounds y m).
  replace ((y <? 1) || (9999 <? y)) with false by lia. replace ((m <? 1) || (12 <? m)) with false by lia.
  replace ((d <? 1) || (31 <? d)) with false by lia. cbn [mbind outcome_bind fail_if].
  by rewrite !Z.eqb_refl.
Qed.

Lemma NewLocalDate_inv y m d x : NewLocalDate y m d = Ok x ->
  x = mkLocalDate true y m d /\ 1 <= y <= 9999 /\ civil_ok y m d.
Proof.
  unfold NewLocalDate. intros H. ok_inv. pose proof (civil_of_days_correct (days_of_civil y m d)) as Hc.
  destruct (civil_of_days _) as [[py pm] pd]. case_match; ok_inv.
  rewrite !orb_false_iff, !negb_false_iff, !Z.eqb_eq in *. destruct_and!. subst.
  rewrite !Z.ltb_ge in *. split; [done|]. split; [lia | tauto].
Qed.

Lemma NewLocalDate_err y m d e : NewLocalDate y m d = Err e -> e = ErrInvalidLocalDate.
Proof.
  unfold NewLocalDate. destruct (civil_of_days _) as [[py pm] pd].
  destruct ((y <? 1) || _), ((m <? 1) || _), ((d <? 1) || _), (negb _ || _ || _);
    cbn [mbind outcome_bind fail_if]; congruence.
Qed.

Lemma NewLocalDate_no_panic y m d : NewLocalDate y m d <> Panic.
Proof.
  unfold NewLocalDate. destruct (civil_of_days _) as [[py pm] pd].
  destruct ((y <? 1) || _), ((m <? 1) || _), ((d <? 1) || _), (negb _ || _ || _);
    cbn [mbind outcome_bind fail_if]; congruence.
Qed.

Lemma LocalDate_Validate_ok d : LocalDate_Validate d = Ok tt <-> date_ok d.
Proof.
  unfold LocalDate_Validate, date_ok. destruct d as [[] y m dd]; cbn [ld_set ld_year ld_month ld_day negb].
  - split.
    + intros H. ok_inv. apply NewLocalDate_inv in Hok. tauto.
    + intros (_ & Hy & Hc). by rewrite NewLocalDate_ok.
  - split; [done | by intros [? _]].
Qed.

Lemma LocalDate_is_ok d : is_ok (LocalDate_Validate d) = true <-> date_ok d.
Proof.
  rewrite is_ok_true, <- LocalDate_Validate_ok. split; [intros [[] H]; done | eauto].
Qed.

Lemma date_ok_range d : date_ok d -> first_ordinal <= ordinal d <= last_ordinal.
Proof.
  intros (_ & Hy & Hc). pose proof (civil_in_year _ _ _ Hc) as H. unfold first_ordinal, last_ordinal, ordinal.
  rewrite (days_of_civil_first (ld_year d) 12 31) in H. rewrite (days_of_civil_first 9999 12 31). split.
  - destruct (Z.eq_dec (ld_year d) 1) as [E|]; [rewrite E in *; lia|].
    pose proof (year_mono 1 (ld_year d) ltac:(lia)). pose proof (civil_in_year 1 12 1 ltac:(civil_now)). lia.
  - destruct (Z.eq_dec (ld_year d) 9999) as [E|]; [rewrite E in *; lia|].
    pose proof (year_mono (ld_year d) 9999 ltac:(lia)). pose proof (civil_in_year 9999 12 1 ltac:(civil_now)). lia.
Qed.

Lemma civil_of_days_year z :
  let '(y, _, _) := civil_of_days z in 1 <= y <= 9999 <-> first_ordinal <= z <= last_ordinal.
Proof.
  pose proof (civil_of_days_correct z) as Hc. destruct (civil_of_days z) as [[y m] d].
  destruct Hc as [Hc <-]. split; intros H.
  - apply (date_ok_range (mkLocalDate true y m d)). done.
  - unfold first_ordinal, last_ordinal in H. destruct (Z.lt_trichotomy y 1) as [Hy|[->|Hy]]; [|lia|].
    + pose proof (civil_lex_lt y m d 1 1 1 Hc ltac:(civil_now) (or_introl Hy)). lia.
    + destruct (Z.le_gt_cases y 9999) as [|Hy']; [lia|].
      pose proof (civil_lex_lt 9999 12 31 y m d ltac:(civil_now) Hc). lia.
Qed.

Lemma AddDays_spec d n : date_ok d ->
  (first_ordinal <= ordinal d + n <= last_ordinal ->
     date_ok (LocalDate_AddDays d n) /\ ordinal (LocalDate_AddDays d n) = ordinal d + n)
  /\ (~ (first_ordinal <= ordinal d + n <= last_ordinal) -> LocalDate_AddDays d n = LocalDate_zero_value).
Proof.
  intros Hd. unfold LocalDate_AddDays. rewrite (proj2 (LocalDate_is_ok d) Hd), days_of_civil_day.
  fold (ordinal d). pose proof (civil_of_days_correct (ordinal d + n)) as Hc.
  pose proof (civil_of_days_year (ordinal d + n)) as Hy. destruct (civil_of_days _) as [[y m] dd].
  destruct Hc as [Hc E]. split; intros H.
  - rewrite NewLocalDate_ok by tauto. unfold date_ok, ordinal. cbn [ld_set ld_year ld_month ld_day]. tauto.
  - destruct (NewLocalDate y m dd) eqn:En; try done. apply NewLocalDate_inv in En. tauto.
Qed.

Lemma ordinal_inj d d' : date_ok d -> date_ok d' -> ordinal d = ordinal d' -> d = d'.
Proof.
  intros (S1 & _ & H1) (S2 & _ & H2) E. apply civil_of_days_of_civil in H1, H2. unfold ordinal in E.
  rewrite E, H2 in H1. destruct d, d'; cbn in *. congruence.
Qed.

(** ** Padded numerals *)

Lemma dec_value_inj s t :
  String.length s = String.length t -> str_forall is_digit s = true -> str_forall is_digit t = true ->
  dec_value s 0 = dec_value t 0 -> s = t.
Proof.
  revert t. induction s as [|c s IH]; intros [|c' t] Hl Hs Ht E; try done.
  cbn [str_forall String.length dec_value] in *. apply andb_true_iff in Hs as [Hc Hs], Ht as [Hc' Ht].
  injection Hl as Hl. pose proof (dec_value_bound _ Hs). pose proof (dec_value_bound _ Ht).
  rewrite (dec_value_acc s), (dec_value_acc t) in E.
  assert (Hlen : len s = len t) by (unfold len; by rewrite Hl). rewrite Hlen in *.
  assert (digit_value c = digit_value c') by nia.
  rewrite <- (digit_char_value c), <- (digit_char_value c') by done. f_equal; [congruence|].
  apply IH; [done..|]. nia.
Qed.

Lemma pad_spec w n : (1 <= w)%nat -> 0 <= n < 10 ^ Z.of_nat w ->
  String.length (pad w n) = w /\ str_forall is_digit (pad w n) = true /\ dec_value (pad w n) 0 = n.
Proof.
  intros Hw Hn. unfold pad.
  assert (Hl : (String.length (dec_string n) <= w)%nat).
  { pose proof (proj2 (dec_string_len_le n (Z.of_nat w) ltac:(lia) ltac:(lia)) ltac:(lia)) as H.
    unfold len in H. lia. }
  rewrite append_length, str_repeat_length, str_forall_app, str_forall_repeat, dec_string_digits by (done || lia).
  split; [lia|]. split; [done|].
  rewrite dec_value_app, dec_value_repeat0. by rewrite dec_string_value by lia.
Qed.

Lemma pad_value w s : String.length s = w -> (1 <= w)%nat -> str_forall is_digit s = true ->
  pad w (dec_value s 0) = s.
Proof.
  intros Hl Hw Hs. pose proof (dec_value_bound s Hs) as Hb. unfold len in Hb. rewrite Hl in Hb.
  destruct (pad_spec w (dec_value s 0) Hw Hb) as (H1 & H2 & H3).
  apply dec_value_inj; [congruence | done | done | done].
Qed.

(** A string of known length, character by character. *)
Ltac str_chars s :=
  repeat (let c := fresh "c" in destruct s as [|c s]; cbn [String.length] in *; try lia; try discriminate).

Ltac digits_split :=
  cbn [str_forall] in *; rewrite ?andb_true_iff in *; destruct_and!.

Lemma ParseLocalDate_parts a b c :
  String.length a = 4%nat -> String.length b = 2%nat -> String.length c = 2%nat ->
  str_forall is_digit a = true -> str_forall is_digit b = true -> str_forall is_digit c = true ->
  ParseLocalDate (a +:+ "-" +:+ b +:+ "-" +:+ c)
  = NewLocalDate (dec_value a 0) (dec_value b 0) (dec_value c 0).
Proof.
  intros Ha Hb Hc Da Db Dc. str_chars a. str_chars b. str_chars c. digits_split.
  unfold ParseLocalDate, len, atoi_slice, char_is, digit_at.
  cbn [String.append String.length str_get Ascii.eqb negb orb forallb str_take str_drop].
  repeat match goal with H : is_digit ?x = true |- context [is_digit ?x] => rewrite H end. reflexivity.
Qed.

Lemma ParseLocalDate_inv s d : ParseLocalDate s = Ok d ->
  exists a b c, s = (a +:+ "-" +:+ b +:+ "-" +:+ c)
    /\ String.length a = 4%nat /\ String.length b = 2%nat /\ String.length c = 2%nat
    /\ str_forall is_digit a = true /\ str_forall is_digit b = true /\ str_forall is_digit c = true
    /\ NewLocalDate (dec_value a 0) (dec_value b 0) (dec_value c 0) = Ok d.
Proof.
  intros H. assert (E : len s = 10 /\ char_is 4 "-" s = true /\ char_is 7 "-" s = true
    /\ forallb (digit_at s) [0; 1; 2; 3; 5; 6; 8; 9]%nat = true
    /\ NewLocalDate (atoi_slice 0 4 s) (atoi_slice 5 2 s) (atoi_slice 8 2 s) = Ok d).
  { unfold ParseLocalDate in H. case_match eqn:E; [done|].
    rewrite !orb_false_iff, !negb_false_iff, Z.eqb_eq in E. destruct (forallb _ _); [tauto | done]. }
  clear H. destruct E as (Hl & H4 & H7 & Hd & Hn). unfold len in Hl.
  str_chars s. unfold char_is, digit_at in *. cbn [str_get forallb] in *.
  apply Ascii.eqb_eq in H4, H7. subst. rewrite !andb_true_iff in Hd. destruct_and!.
  exists (String c (String c0 (String c1 (String c2 "")))), (String c4 (String c5 "")), (String c7 (String c8 "")).
  cbn [str_forall String.length]. rewrite !andb_true_iff. repeat split; done.
Qed.

Lemma date_fields_bound d : date_ok d ->
  0 <= ld_year d < 10 ^ Z.of_nat 4 /\ 0 <= ld_month d < 10 ^ Z.of_nat 2 /\ 0 <= ld_day d < 10 ^ Z.of_nat 2.
Proof.
  intros (_ & Hy & Hm & Hd). pose proof (days_in_month_bounds (ld_year d) (ld_month d)).
  change (10 ^ Z.of_nat 4) with 10000. change (10 ^ Z.of_nat 2) with 100. lia.
Qed.

Lemma parse_date_string d : date_ok d -> ParseLocalDate (LocalDate_String d) = Ok d.
Proof.
  intros Hd. unfold LocalDate_String. rewrite (proj2 (LocalDate_is_ok d) Hd).
  destruct (date_fields_bound d Hd) as (Hy & Hm & Hdd).
  destruct (pad_spec 4 (ld_year d) ltac:(lia) Hy) as (L1 & D1 & V1).
  destruct (pad_spec 2 (ld_month d) ltac:(lia) Hm) as (L2 & D2 & V2).
  destruct (pad_spec 2 (ld_day d) ltac:(lia) Hdd) as (L3 & D3 & V3).
  rewrite ParseLocalDate_parts by done. rewrite V1, V2, V3.
  destruct Hd as (S & ? & ?). rewrite NewLocalDate_ok by done. destruct d; cbn in *; by subst.
Qed.

Lemma parse_date_unique s d : ParseLocalDate s = Ok d -> date_ok d /\ LocalDate_String d = s.
Proof.
  intros H. apply ParseLocalDate_inv in H as (a & b & c & -> & La & Lb & Lc & Da & Db & Dc & H).
  apply NewLocalDate_inv in H as (-> & Hy & Hc).
  assert (Hd : date_ok (mkLocalDate true (dec_value a 0) (dec_value b 0) (dec_value c 0))) by done.
  split; [done|]. unfold LocalDate_String. rewrite (proj2 (LocalDate_is_ok _) Hd).
  cbn [ld_year ld_month ld_day]. by rewrite !pad_value by (done || lia).
Qed.

(** ** Times of day *)

Definition time_ok (v : LocalTime) : Prop :=
  lt_set v = true /\ 0 <= lt_hour v <= 23 /\ 0 <= lt_minute v <= 59 /\ 0 <= lt_second v <= 59
  /\ 0 <= lt_nanos v <= 999999999.

Lemma NewLocalTime_inv h m s n v : NewLocalTime h m s n = Ok v ->
  v = mkLocalTime true h m s n /\ time_ok v.
Proof.
  unfold NewLocalTime. repeat case_match; try done. intros [= <-]. split; [done|].
  unfold time_ok. cbn [lt_set lt_hour lt_minute lt_second lt_nanos]. split; [done|]. lia.
Qed.

Lemma NewLocalTime_ok v : time_ok v -> NewLocalTime (lt_hour v) (lt_minute v) (lt_second v) (lt_nanos v) = Ok v.
Proof.
  destruct v as [st h m s n]. unfold time_ok, NewLocalTime. cbn. intros (-> & ? & ? & ? & ?).
  repeat (case_match; [lia|]). done.
Qed.

Lemma LocalTime_is_ok v : is_ok (LocalTime_Validate v) = true <-> time_ok v.
Proof.
  unfold LocalTime_Validate. split.
  - destruct (lt_set v) eqn:E; cbn [negb]; [|done].
    destruct (NewLocalTime _ _ _ _) eqn:En; cbn; try done. intros _. apply NewLocalTime_inv in En as [-> H].
    unfold time_ok in *. tauto.
  - intros H. rewrite NewLocalTime_ok by done. destruct H as (-> & _). done.
Qed.

Definition clock_text (a b c : string) : string := a +:+ ":" +:+ b +:+ ":" +:+ c.

(** The fraction of the text form. *)
Definition parse_fraction (frac : string) : outcome time_err Z :=
  if negb (len frac =? 9) then Err ErrInvalidLocalTime
  else if negb (str_forall is_digit frac) then Err ErrInvalidLocalTime
  else if dec_value frac 0 =? 0 then Err ErrInvalidLocalTime
  else Ok (dec_value frac 0).

Lemma parse_clock_parts a b c frac hasFrac s :
  String.length a = 2%nat -> String.length b = 2%nat -> String.length c = 2%nat ->
  str_forall is_digit a = true -> str_forall is_digit b = true -> str_forall is_digit c = true ->
  str_cut "." s = (clock_text a b c, frac, hasFrac) ->
  ParseLocalTime s
  = (nanos ← (if hasFrac then parse_fraction frac else Ok 0);
     NewLocalTime (dec_value a 0) (dec_value b 0) (dec_value c 0) nanos).
Proof.
  intros Ha Hb Hc Da Db Dc Hs. unfold ParseLocalTime. rewrite Hs. clear Hs.
  str_chars a. str_chars b. str_chars c. digits_split.
  unfold clock_text, len, atoi_slice, char_is, digit_at.
  cbn [String.append String.length str_get Ascii.eqb negb orb forallb str_take str_drop].
  repeat match goal with H : is_digit ?x = true |- context [is_digit ?x] => rewrite H end. reflexivity.
Qed.

Lemma digits_no_sep sep s : is_digit sep = false -> str_forall is_digit s = true -> str_contains sep s = false.
Proof.
  intros Hsep. induction s as [|c s IH]; cbn; [done|]. rewrite andb_true_iff. intros [Hc Hs].
  rewrite IH by done. rewrite orb_false_r. apply Ascii.eqb_neq. congruence.
Qed.

Lemma clock_no_dot a b c :
  str_forall is_digit a = true -> str_forall is_digit b = true -> str_forall is_digit c = true ->
  str_contains "." (clock_text a b c) = false.
Proof.
  intros Ha Hb Hc. unfold clock_text. rewrite !str_contains_app. by rewrite (digits_no_sep _ a), (digits_no_sep _ b), (digits_no_sep _ c) by done.
Qed.

Lemma time_fields_bound v : time_ok v ->
  0 <= lt_hour v < 10 ^ Z.of_nat 2 /\ 0 <= lt_minute v < 10 ^ Z.of_nat 2
  /\ 0 <= lt_second v < 10 ^ Z.of_nat 2 /\ 0 <= lt_nanos v < 10 ^ Z.of_nat 9.
Proof.
  intros (_ & ? & ? & ? & ?). change (10 ^ Z.of_nat 2) with 100. change (10 ^ Z.of_nat 9) with 1000000000. lia.
Qed.

Lemma parse_fraction_pad n : 0 < n < 10 ^ Z.of_nat 9 -> parse_fraction (pad 9 n) = Ok n.
Proof.
  intros H. destruct (pad_spec 9 n ltac:(lia) ltac:(lia)) as (L & D & V).
  unfold parse_fraction, len. rewrite L, D, V. cbn [negb Z.of_nat Pos.of_succ_nat Pos.succ Z.eqb Pos.eqb].
  by rewrite (proj2 (Z.eqb_neq n 0)) by lia.
Qed.

Lemma parse_fraction_inv f n : parse_fraction f = Ok n ->
  String.length f = 9%nat /\ str_forall is_digit f = true /\ dec_value f 0 = n /\ n <> 0.
Proof.
  unfold parse_fraction, len. repeat case_match; try done. intros [= <-].
  rewrite negb_false_iff in *. split; [lia|]. split; [done|]. split; [done|]. lia.
Qed.

Lemma parse_time_string v : time_ok v -> ParseLocalTime (LocalTime_String v) = Ok v.
Proof.
  intros Hv. unfold LocalTime_String. rewrite (proj2 (LocalTime_is_ok v) Hv).
  destruct (time_fields_bound v Hv) as (Hh & Hm & Hs & Hn).
  destruct (pad_spec 2 (lt_hour v) ltac:(lia) Hh) as (L1 & D1 & V1).
  destruct (pad_spec 2 (lt_minute v) ltac:(lia) Hm) as (L2 & D2 & V2).
  destruct (pad_spec 2 (lt_second v) ltac:(lia) Hs) as (L3 & D3 & V3).
  pose proof (clock_no_dot _ _ _ D1 D2 D3) as Hdot. fold (clock_text (pad 2 (lt_hour v)) (pad 2 (lt_minute v)) (pad 2 (lt_second v))).
  rewrite <- (NewLocalTime_ok v Hv). cbv zeta. destruct (Z.eqb_spec (lt_nanos v) 0) as [E|E].
  - erewrite parse_clock_parts; [|exact L1 | exact L2 | exact L3 | done | done | done | by apply str_cut_none].
    rewrite V1, V2, V3, E. reflexivity.
  - erewrite parse_clock_parts; [|exact L1 | exact L2 | exact L3 | done | done | done | by apply str_cut_here].
    rewrite parse_fraction_pad by lia. rewrite V1, V2, V3. reflexivity.
Qed.

Lemma str_cut_inv sep s a b f : str_cut sep s = (a, b, f) ->
  str_contains sep a = false /\ (if f then s = (a +:+ String sep b) else s = a /\ b = EmptyString).
Proof.
  revert a b f. induction s as [|c s IH]; intros a b f; cbn [str_cut]; [by intros [= <- <- <-]|].
  destruct (Ascii.eqb_spec c sep) as [->|Hc]; [by intros [= <- <- <-]|].
  destruct (str_cut sep s) as [[a' b'] f']. intros [= <- <- <-].
  destruct (IH _ _ _ eq_refl) as [H1 H2]. split.
  - cbn. by rewrite (proj2 (Ascii.eqb_neq c sep)).
  - destruct f'; [cbn; congruence | destruct H2; split; congruence].
Qed.

Lemma ParseLocalTime_inv s v : ParseLocalTime s = Ok v ->
  exists a b c frac hasFrac nanos, str_cut "." s = (clock_text a b c, frac, hasFrac)
    /\ String.length a = 2%nat /\ String.length b = 2%nat /\ String.length c = 2%nat
    /\ str_forall is_digit a = true /\ str_forall is_digit b = true /\ str_forall is_digit c = true
    /\ (if hasFrac then parse_fraction frac else Ok 0) = Ok nanos
    /\ NewLocalTime (dec_value a 0) (dec_value b 0) (dec_value c 0) nanos = Ok v.
Proof.
  unfold ParseLocalTime. destruct (str_cut "." s) as [[hd fr] hf]. fold (parse_fraction fr).
  case_match eqn:E; [done|]. rewrite !orb_false_iff, !negb_false_iff, Z.eqb_eq in E. destruct E as ((Hl & H2) & H5).
  destruct (forallb _ _) eqn:Hd; cbn [negb]; [|done]. intros H. ok_inv. rename a into nanos.
  unfold len in Hl. str_chars hd. unfold char_is, digit_at in *. cbn [str_get forallb] in *.
  apply Ascii.eqb_eq in H2, H5. subst. rewrite !andb_true_iff in Hd. destruct_and!.
  exists (String c (String c0 "")), (String c2 (String c3 "")), (String c5 (String c6 "")), fr, hf, nanos.
  cbn [str_forall String.length]. rewrite !andb_true_iff. repeat split; done.
Qed.

Lemma parse_time_unique s v : ParseLocalTime s = Ok v -> time_ok v /\ LocalTime_String v = s.
Proof.
  intros H. apply ParseLocalTime_inv in H as (a & b & c & fr & hf & n & Hs & La & Lb & Lc & Da & Db & Dc & Hn & H).
  apply NewLocalTime_inv in H as [-> Hv]. split; [done|].
  unfold LocalTime_String. rewrite (proj2 (LocalTime_is_ok _) Hv). cbn [lt_hour lt_minute lt_second lt_nanos].
  rewrite (pad_value 2 a), (pad_value 2 b), (pad_value 2 c) by (done || lia). cbv zeta. fold (clock_text a b c).
  apply str_cut_inv in Hs as [_ Hs]. destruct hf.
  - apply parse_fraction_inv in Hn as (Lf & Df & <- & Hne). rewrite (proj2 (Z.eqb_neq _ _) Hne).
    rewrite pad_value by (done || lia). by rewrite Hs.
  - injection Hn as <-. by destruct Hs as [-> _].
Qed.

(** ** Encodings *)

Definition instant_ok (i : Instant) : Prop :=
  i_set i = true /\ min_int64 <= i_sec i <= max_int64 /\ 0 <= i_nsec i <= 999999999.

Lemma Instant_is_ok i : min_int64 <= i_sec i <= max_int64 ->
  is_ok (Instant_Validate i) = true <-> instant_ok i.
Proof.
  intros Hs. unfold Instant_Validate, instant_ok. destruct (i_set i); cbn [negb].
  - unfold fail_if. destruct (_ || _) eqn:E; cbn [is_ok]; split; try done; lia.
  - split; [done | by intros [? _]].
Qed.

Lemma to_uint64_inj a b : min_int64 <= a <= max_int64 -> min_int64 <= b <= max_int64 ->
  to_uint64 a = to_uint64 b -> a = b.
Proof. unfold min_int64, max_int64, to_uint64. intros Ha Hb H. div_lia. Qed.

Lemma Instant_Canonical_inj i j : instant_ok i -> instant_ok j ->
  Instant_Canonical i = Instant_Canonical j -> i = j.
Proof.
  intros Hi Hj. unfold Instant_Canonical.
  rewrite (proj2 (Instant_is_ok i (proj1 (proj2 Hi))) Hi), (proj2 (Instant_is_ok j (proj1 (proj2 Hj))) Hj).
  intros E. apply (inj Some) in E. apply cons_eq_inv in E as [_ E].
  apply app_inj_1 in E as [E1 E2]; [|by rewrite !be_bytes_length].
  destruct Hi as (Si & Hi & Ni), Hj as (Sj & Hj & Nj).
  apply be_bytes_inj in E1; [|apply Z.mod_pos_bound; lia..]. apply to_uint64_inj in E1; [|done..].
  apply be_bytes_inj in E2; [|apply Z.mod_pos_bound; lia..].
  unfold to_uint32 in E2. rewrite !Z.mod_small in E2 by lia. destruct i, j; cbn in *. congruence.
Qed.

Lemma LocalDate_Canonical_inj d d' : date_ok d -> date_ok d' ->
  LocalDate_Canonical d = LocalDate_Canonical d' -> d = d'.
Proof.
  intros Hd Hd'. unfold LocalDate_Canonical.
  rewrite (proj2 (LocalDate_is_ok d) Hd), (proj2 (LocalDate_is_ok d') Hd').
  intros E. apply (inj Some) in E. apply cons_eq_inv in E as [_ E].
  apply app_inj_1 in E as [E1 E2]; [|by rewrite !be_bytes_length].
  destruct Hd as (S1 & Y1 & _), Hd' as (S2 & Y2 & _).
  apply be_bytes_inj in E1; [|apply Z.mod_pos_bound; lia..].
  unfold to_uint32 in E1. rewrite !Z.mod_small in E1 by lia. destruct d, d'; cbn in *. congruence.
Qed.

Lemma LocalTime_Canonical_inj v v' : time_ok v -> time_ok v' ->
  LocalTime_Canonical v = LocalTime_Canonical v' -> v = v'.
Proof.
  intros Hv Hv'. unfold LocalTime_Canonical.
  rewrite (proj2 (LocalTime_is_ok v) Hv), (proj2 (LocalTime_is_ok v') Hv').
  intros E. apply (inj Some) in E. do 4 (apply cons_eq_inv in E as [? E]).
  destruct Hv as (S1 & ? & ? & ? & N1), Hv' as (S2 & ? & ? & ? & N2).
  apply be_bytes_inj in E; [|apply Z.mod_pos_bound; lia..].
  unfold to_uint32 in E. rewrite !Z.mod_small in E by lia. destruct v, v'; cbn in *. congruence.
Qed.

(** The sign convention of [Compare]. *)
Definition cmp_sign (c : comparison) : Z := match c with Lt => -1 | Eq => 0 | Gt => 1 end.

Lemma LocalDate_Compare_ordinal d o : date_ok d -> date_ok o ->
  LocalDate_Compare d o = cmp_sign (ordinal d ?= ordinal o).
Proof.
  intros (_ & _ & Hd) (_ & _ & Ho). pose proof (civil_lex_lt _ _ _ _ _ _ Hd Ho) as H1.
  pose proof (civil_lex_lt _ _ _ _ _ _ Ho Hd) as H2. unfold LocalDate_Compare. fold (ordinal d) (ordinal o) in *.
  destruct (Z.eqb_spec (ld_year d) (ld_year o)) as [Ey|]; cbn [negb].
  - destruct (Z.eqb_spec (ld_month d) (ld_month o)) as [Em|]; cbn [negb].
    + destruct (Z.eqb_spec (ld_day d) (ld_day o)) as [Ed|]; cbn [negb].
      * unfold ordinal. rewrite Ey, Em, Ed, Z.compare_refl. done.
      * destruct (Z.ltb_spec (ld_day d) (ld_day o)); destruct (Z.compare_spec (ordinal d) (ordinal o)); cbn [cmp_sign]; lia.
    + destruct (Z.ltb_spec (ld_month d) (ld_month o)); destruct (Z.compare_spec (ordinal d) (ordinal o)); cbn [cmp_sign]; lia.
  - destruct (Z.ltb_spec (ld_year d) (ld_year o)); destruct (Z.compare_spec (ordinal d) (ordinal o)); cbn [cmp_sign]; lia.
Qed.

(** Nanoseconds since 1970. *)
Definition nanos_of (i : Instant) : Z := i_sec i * 1000000000 + i_nsec i.

Lemma Instant_Validate_ok i :
  Instant_Validate i = Ok tt <-> i_set i = true /\ 0 <= i_nsec i <= 999999999.
Proof.
  unfold Instant_Validate. destruct (i_set i); cbn [negb]; [|by split; [|intros [? _]]].
  unfold fail_if. destruct (_ || _) eqn:E; split; try done; lia.
Qed.

Lemma instant_ok_valid i : instant_ok i -> Instant_Validate i = Ok tt.
Proof. intros (? & ? & ?). by apply Instant_Validate_ok. Qed.

Lemma Instant_Compare_nanos i o : Instant_Validate i = Ok tt -> Instant_Validate o = Ok tt ->
  Instant_Compare i o = cmp_sign (nanos_of i ?= nanos_of o).
Proof.
  rewrite !Instant_Validate_ok. intros (_ & Hi) (_ & Ho). unfold Instant_Compare, nanos_of.
  destruct (Z.compare_spec (i_sec i * 1000000000 + i_nsec i) (i_sec o * 1000000000 + i_nsec o));
    cbn [cmp_sign]; repeat case_match; lia.
Qed.

(** * Properties *)

(** [NewLocalDate] accepts exactly the real Gregorian dates of the years 1
    to 9999: it returns the date whose fields are its arguments when the month
    is 1..12 and the day exists in that month of that year (29 February only
    in leap years), and [ErrInvalidLocalDate], never a panic or a normalised
    date, otherwise. *)
Theorem local_date_exact (y m d : Z) :
  NewLocalDate y m d
  = if (1 <=? y) && (y <=? 9999) && (1 <=? m) && (m <=? 12) && (1 <=? d) && (d <=? days_in_month y m)
    then Ok (mkLocalDate true y m d) else Err ErrInvalidLocalDate.
Proof.
  case_match eqn:E.
  - rewrite !andb_true_iff, !Z.leb_le in E. apply NewLocalDate_ok; [lia | unfold civil_ok; lia].
  - destruct (NewLocalDate y m d) as [x|e|] eqn:H.
    + apply NewLocalDate_inv in H as (_ & Hy & Hm & Hd). lia.
    + apply NewLocalDate_err in H. congruence.
    + by apply NewLocalDate_no_panic in H.
Qed.

(** [AddDays] moves a valid date by exactly [n] days: the day number
    grows by [n], the result is valid and adding [-n] returns the original
    date; outside the years 1 to 9999 the result is the unset date.  (The bound
    on [n] keeps [AddDate] within 64-bit seconds.) *)
Theorem add_days_exact (d : LocalDate) (n : Z) :
  LocalDate_Validate d = Ok tt -> Z.abs n <= 10 ^ 12 ->
  let d' := LocalDate_AddDays d n in
  if (first_ordinal <=? ordinal d + n) && (ordinal d + n <=? last_ordinal)
  then LocalDate_Validate d' = Ok tt /\ ordinal d' = ordinal d + n /\ LocalDate_AddDays d' (- n) = d
  else d' = LocalDate_zero_value.
Proof.
  intros Hd _ d'. apply LocalDate_Validate_ok in Hd. destruct (AddDays_spec d n Hd) as [H1 H2]. fold d' in H1, H2.
  destruct (_ && _) eqn:E; [|apply H2; lia].
  destruct H1 as [Hok Ho]; [lia|]. rewrite LocalDate_Validate_ok. split; [done|]. split; [done|].
  pose proof (date_ok_range d Hd). destruct (AddDays_spec d' (- n) Hok) as [[H3 H4] _]; [lia|].
  apply ordinal_inj; [done..|lia].
Qed.

Lemma add_days_exact_witness :
  LocalDate_AddDays (mkLocalDate true 2024 2 28) 2 = mkLocalDate true 2024 3 1
  /\ LocalDate_AddDays (LocalDate_AddDays (mkLocalDate true 2024 2 28) 2) (- 2) = mkLocalDate true 2024 2 28.
Proof.
  split; [reflexivity|].
  exact (proj2 (proj2 (add_days_exact (mkLocalDate true 2024 2 28) 2 eq_refl ltac:(vm_compute; discriminate)))).
Defined.

(** [Compare] on valid dates is the order of their day numbers and, on
    valid instants, the order of their nanoseconds since 1970; two valid dates
    or instants that compare equal are the same value. *)
Theorem compare_chronological (d o : LocalDate) (i j : Instant) :
  LocalDate_Validate d = Ok tt -> LocalDate_Validate o = Ok tt -> instant_ok i -> instant_ok j ->
  LocalDate_Compare d o = cmp_sign (ordinal d ?= ordinal o)
  /\ (LocalDate_Compare d o = 0 <-> d = o)
  /\ Instant_Compare i j = cmp_sign (nanos_of i ?= nanos_of j)
  /\ (Instant_Compare i j = 0 <-> i = j).
Proof.
  rewrite !LocalDate_Validate_ok. intros Hd Ho Hi Hj.
  rewrite LocalDate_Compare_ordinal, Instant_Compare_nanos by (done || by apply instant_ok_valid).
  destruct (Z.compare_spec (ordinal d) (ordinal o)) as [E| |]; cbn [cmp_sign];
  destruct (Z.compare_spec (nanos_of i) (nanos_of j)) as [E'| |]; cbn [cmp_sign];
  (split; [done|]; split; [split; [try done; intros _; by apply ordinal_inj | intros ->; lia]|]; split; [done|];
   split; [try done; intros _ | intros ->; lia]).
  all: destruct Hi as (Si & _ & Ni), Hj as (Sj & _ & Nj), i, j; unfold nanos_of in *; cbn in *; subst; f_equal; lia.
Qed.

Lemma compare_chronological_witness :
  LocalDate_Compare (mkLocalDate true 2023 12 31) (mkLocalDate true 2024 1 1)
  = cmp_sign (ordinal (mkLocalDate true 2023 12 31) ?= ordinal (mkLocalDate true 2024 1 1)).
Proof.
  apply (compare_chronological (mkLocalDate true 2023 12 31) (mkLocalDate true 2024 1 1)
           (mkInstant true 0 0) (mkInstant true 0 1)); try reflexivity; repeat split; vm_compute; discriminate.
Defined.

(** the text forms of dates and times of day are canonical: a valid value
    unmarshals from the text it marshals to, and any text that unmarshals at
    all is the marshalled text of the (valid) value it gives, so a value has
    exactly one accepted spelling. *)
Theorem date_time_text_canonical (d : LocalDate) (v : LocalTime) (s : string) :
  (LocalDate_Validate d = Ok tt ->
     exists t, LocalDate_MarshalText d = Ok t /\ LocalDate_UnmarshalText t = Ok d)
  /\ (LocalDate_UnmarshalText s = Ok d -> LocalDate_MarshalText d = Ok s)
  /\ (LocalTime_Validate v = Ok tt ->
     exists t, LocalTime_MarshalText v = Ok t /\ LocalTime_UnmarshalText t = Ok v)
  /\ (LocalTime_UnmarshalText s = Ok v -> LocalTime_MarshalText v = Ok s).
Proof.
  unfold LocalDate_MarshalText, LocalTime_MarshalText, LocalDate_UnmarshalText, LocalTime_UnmarshalText.
  split; [|split; [|split]].
  - intros H. rewrite H. exists (LocalDate_String d). split; [done|].
    by apply parse_date_string, LocalDate_Validate_ok.
  - intros H. apply parse_date_unique in H as [H <-]. apply LocalDate_Validate_ok in H. by rewrite H.
  - intros H. rewrite H. exists (LocalTime_String v). split; [done|].
    apply parse_time_string, LocalTime_is_ok. by rewrite H.
  - intros H. apply parse_time_unique in H as [H <-]. apply LocalTime_is_ok in H.
    destruct (LocalTime_Validate v); try done.
Qed.

Lemma date_time_text_canonical_witness :
  LocalDate_MarshalText (mkLocalDate true 2024 2 29) = Ok "2024-02-29".
Proof.
  apply (proj1 (proj2 (date_time_text_canonical (mkLocalDate true 2024 2 29) LocalTime_zero_value "2024-02-29"))).
  reflexivity.
Defined.

(** The canonical bytes of instants, dates and times of day determine the
    value, and the leading tag keeps the three kinds apart. *)
Theorem time_canonical_injective (i j : Instant) (d d' : LocalDate) (v v' : LocalTime) :
  instant_ok i -> instant_ok j -> date_ok d -> date_ok d' -> time_ok v -> time_ok v' ->
  (Instant_Canonical i = Instant_Canonical j -> i = j)
  /\ (LocalDate_Canonical d = LocalDate_Canonical d' -> d = d')
  /\ (LocalTime_Canonical v = LocalTime_Canonical v' -> v = v')
  /\ Instant_Canonical i <> LocalDate_Canonical d /\ Instant_Canonical i <> LocalTime_Canonical v
  /\ LocalDate_Canonical d <> LocalTime_Canonical v.
Proof.
  intros Hi Hj Hd Hd' Hv Hv'.
  split; [by apply Instant_Canonical_inj|]. split; [by apply LocalDate_Canonical_inj|].
  split; [by apply LocalTime_Canonical_inj|].
  unfold Instant_Canonical, LocalDate_Canonical, LocalTime_Canonical.
  rewrite (proj2 (Instant_is_ok i (proj1 (proj2 Hi))) Hi), (proj2 (LocalDate_is_ok d) Hd), (proj2 (LocalTime_is_ok v) Hv).
  repeat split; intros [=].
Qed.

Lemma time_canonical_injective_witness :
  Instant_Canonical (mkInstant true 5 6) <> LocalDate_Canonical (mkLocalDate true 2024 2 29).
Proof.
  apply (time_canonical_injective (mkInstant true 5 6) (mkInstant true 5 6) (mkLocalDate true 2024 2 29)
           (mkLocalDate true 2024 2 29) (mkLocalTime true 1 2 3 0) (mkLocalTime true 1 2 3 0));
    repeat split; vm_compute; discriminate.
Defined.
