(* ===== verification/Intervals.v ===== *)
(** Zone and calendar references, disambiguation policies, half-open effective
    intervals, knowledge times, pay periods and business days: the second half
    of [internal/kernel/values/time.go].  [time.LoadLocation] and the time-zone
    database behind it are the class [Tzdb]. *)

From S2P Require Import Prelude CivilTime.

Local Open Scope Z_scope.

(** * Zones, calendars and policies *)

(** The time-zone database: which zone names load, and for a zone and a UTC
    second the offset in force with the half-open span of seconds it holds for. *)
Record ZoneSpan : Type := mkZoneSpan { zs_offset : Z; zs_start : Z; zs_end : Z }.

Class Tzdb : Type := {
  LoadLocation : string -> bool;
  tz_lookup : string -> Z -> ZoneSpan
}.

Record ZoneRef : Type := mkZoneRef { z_ID : string; z_TzdbVersion : string }.
Record CalendarRef : Type := mkCalendarRef { c_Ref : string; c_Version : string }.

#[export] Instance ZoneRef_eq_dec : EqDecision ZoneRef.
Proof. solve_decision. Defined.
#[export] Instance CalendarRef_eq_dec : EqDecision CalendarRef.
Proof. solve_decision. Defined.

Definition ZoneRef_Validate `{Tzdb} (z : ZoneRef) : outcome time_err unit :=
  _ ← fail_if (bool_decide (z_ID z = "")) ErrZoneRequired;
  _ ← fail_if (bool_decide (z_TzdbVersion z = "")) ErrTzdbVersionRequired;
  fail_if (negb (LoadLocation (z_ID z))) ErrUnknownZone.

(** The location is named by the zone's identifier. *)
Definition ZoneRef_Location `{Tzdb} (z : ZoneRef) : outcome time_err string :=
  _ ← ZoneRef_Validate z; Ok (z_ID z).

Definition ZoneRef_String (z : ZoneRef) : string :=
  if bool_decide (z_ID z = "") && bool_decide (z_TzdbVersion z = "") then ""
  else z_ID z +:+ "@" +:+ z_TzdbVersion z.

Definition CalendarRef_Validate (c : CalendarRef) : outcome time_err unit :=
  _ ← fail_if (bool_decide (c_Ref c = "")) ErrCalendarRequired;
  fail_if (bool_decide (c_Version c = "")) ErrCalendarVersionRequired.

Definition CalendarRef_String (c : CalendarRef) : string :=
  if bool_decide (c_Ref c = "") && bool_decide (c_Version c = "") then ""
  else c_Ref c +:+ "@" +:+ c_Version c.

(** [Disambiguation] is a [uint8]; [DisambiguationUndeclared b] is any value
    past the declared constants. *)
Inductive Disambiguation : Type :=
  | DisambiguationUnspecified | DisambiguationRejectGap | DisambiguationEarlier
  | DisambiguationLater | DisambiguationExplicitOffset | DisambiguationUndeclared (b : Z).

#[export] Instance Disambiguation_eq_dec : EqDecision Disambiguation.
Proof. solve_decision. Defined.

Definition disambiguationWire : list (Disambiguation * string) :=
  [(DisambiguationRejectGap, "REJECT_GAP"); (DisambiguationEarlier, "EARLIER");
   (DisambiguationLater, "LATER"); (DisambiguationExplicitOffset, "EXPLICIT_OFFSET")].

Definition Disambiguation_wire (d : Disambiguation) : option string :=
  snd <$> List.find (fun kv => bool_decide (kv.1 = d)) disambiguationWire.

Definition Disambiguation_String (d : Disambiguation) : string :=
  default "DISAMBIGUATION_UNSPECIFIED" (Disambiguation_wire d).

Definition Disambiguation_Valid (d : Disambiguation) : bool :=
  match Disambiguation_wire d with Some _ => true | None => false end.

Definition ParseDisambiguation (token : string) : outcome time_err Disambiguation :=
  match List.find (fun kv => bool_decide (kv.2 = token)) disambiguationWire with
  | Some kv => Ok kv.1
  | None => Err ErrDisambiguation
  end.

Definition Disambiguation_byte (d : Disambiguation) : Z :=
  match d with
  | DisambiguationUnspecified => 0 | DisambiguationRejectGap => 1 | DisambiguationEarlier => 2
  | DisambiguationLater => 3 | DisambiguationExplicitOffset => 4 | DisambiguationUndeclared b => b
  end.

(** * Effective intervals *)

Inductive IntervalKind : Type := IntervalKindUnspecified | IntervalKindLocalDate | IntervalKindInstant.

#[export] Instance IntervalKind_eq_dec : EqDecision IntervalKind.
Proof. solve_decision. Defined.

Definition IntervalKind_byte (k : IntervalKind) : Z :=
  match k with IntervalKindUnspecified => 0 | IntervalKindLocalDate => 1 | IntervalKindInstant => 2 end.

Record EffectiveInterval : Type := mkInterval {
  iv_kind : IntervalKind;
  iv_startDate : LocalDate;
  iv_endDate : LocalDate;
  iv_startInstant : Instant;
  iv_endInstant : Instant;
  iv_hasEnd : bool;
  iv_calendar : CalendarRef;
  iv_zone : ZoneRef;
  iv_disambiguation : Disambiguation
}.

#[export] Instance EffectiveInterval_eq_dec : EqDecision EffectiveInterval.
Proof. solve_decision. Defined.

Definition no_calendar : CalendarRef := mkCalendarRef "" "".
Definition no_zone : ZoneRef := mkZoneRef "" "".

Definition NewOpenLocalDateInterval (start : LocalDate) (calendar : CalendarRef)
    : outcome time_err EffectiveInterval :=
  _ ← LocalDate_Validate start;
  _ ← CalendarRef_Validate calendar;
  Ok (mkInterval IntervalKindLocalDate start LocalDate_zero_value Instant_zero_value Instant_zero_value
        false calendar no_zone DisambiguationUnspecified).

Definition NewLocalDateInterval (start end_ : LocalDate) (calendar : CalendarRef)
    : outcome time_err EffectiveInterval :=
  iv ← NewOpenLocalDateInterval start calendar;
  _ ← LocalDate_Validate end_;
  if LocalDate_Compare start end_ =? 1 then Err ErrIntervalInverted
  else if LocalDate_Compare start end_ =? 0 then Err ErrIntervalEmpty
  else Ok (mkInterval (iv_kind iv) (iv_startDate iv) end_ (iv_startInstant iv) (iv_endInstant iv)
             true (iv_calendar iv) (iv_zone iv) (iv_disambiguation iv)).

Definition NewOpenInstantInterval (start : Instant) : outcome time_err EffectiveInterval :=
  _ ← Instant_Validate start;
  Ok (mkInterval IntervalKindInstant LocalDate_zero_value LocalDate_zero_value start Instant_zero_value
        false no_calendar no_zone DisambiguationUnspecified).

Definition NewInstantInterval (start end_ : Instant) : outcome time_err EffectiveInterval :=
  iv ← NewOpenInstantInterval start;
  _ ← Instant_Validate end_;
  if Instant_Compare start end_ =? 1 then Err ErrIntervalInverted
  else if Instant_Compare start end_ =? 0 then Err ErrIntervalEmpty
  else Ok (mkInterval (iv_kind iv) (iv_startDate iv) (iv_endDate iv) (iv_startInstant iv) end_
             true (iv_calendar iv) (iv_zone iv) (iv_disambiguation iv)).

Definition EffectiveInterval_Validate (iv : EffectiveInterval) : outcome time_err unit :=
  match iv_kind iv with
  | IntervalKindLocalDate =>
      _ ← LocalDate_Validate (iv_startDate iv);
      _ ← CalendarRef_Validate (iv_calendar iv);
      if iv_hasEnd iv then
        _ ← LocalDate_Validate (iv_endDate iv);
        fail_if (0 <=? LocalDate_Compare (iv_startDate iv) (iv_endDate iv)) ErrIntervalInverted
      else Ok tt
  | IntervalKindInstant =>
      _ ← Instant_Validate (iv_startInstant iv);
      if iv_hasEnd iv then
        _ ← Instant_Validate (iv_endInstant iv);
        fail_if (0 <=? Instant_Compare (iv_startInstant iv) (iv_endInstant iv)) ErrIntervalInverted
      else Ok tt
  | IntervalKindUnspecified => Err ErrIntervalUnset
  end.

Definition EffectiveInterval_WithZone `{Tzdb} (iv : EffectiveInterval) (zone : ZoneRef)
    (disambiguation : Disambiguation) : outcome time_err EffectiveInterval :=
  _ ← EffectiveInterval_Validate iv;
  _ ← ZoneRef_Validate zone;
  _ ← fail_if (negb (Disambiguation_Valid disambiguation)) ErrDisambiguationRequired;
  Ok (mkInterval (iv_kind iv) (iv_startDate iv) (iv_endDate iv) (iv_startInstant iv) (iv_endInstant iv)
        (iv_hasEnd iv) (iv_calendar iv) zone disambiguation).

Definition EffectiveInterval_ContainsDate (iv : EffectiveInterval) (d : LocalDate) : outcome time_err bool :=
  _ ← EffectiveInterval_Validate iv;
  _ ← fail_if (negb (bool_decide (iv_kind iv = IntervalKindLocalDate))) ErrIntervalKindMismatch;
  _ ← LocalDate_Validate d;
  if LocalDate_Compare d (iv_startDate iv) <? 0 then Ok false
  else if iv_hasEnd iv && (0 <=? LocalDate_Compare d (iv_endDate iv)) then Ok false
  else Ok true.

Definition EffectiveInterval_ContainsInstant (iv : EffectiveInterval) (i : Instant) : outcome time_err bool :=
  _ ← EffectiveInterval_Validate iv;
  _ ← fail_if (negb (bool_decide (iv_kind iv = IntervalKindInstant))) ErrIntervalKindMismatch;
  _ ← Instant_Validate i;
  if Instant_Compare i (iv_startInstant iv) <? 0 then Ok false
  else if iv_hasEnd iv && (0 <=? Instant_Compare i (iv_endInstant iv)) then Ok false
  else Ok true.

Definition EffectiveInterval_Overlaps (iv other : EffectiveInterval) : outcome time_err bool :=
  _ ← EffectiveInterval_Validate iv;
  _ ← EffectiveInterval_Validate other;
  _ ← fail_if (negb (bool_decide (iv_kind iv = iv_kind other))) ErrIntervalKindMismatch;
  if bool_decide (iv_kind iv = IntervalKindLocalDate) then
    if iv_hasEnd iv && (LocalDate_Compare (iv_endDate iv) (iv_startDate other) <=? 0) then Ok false
    else if iv_hasEnd other && (LocalDate_Compare (iv_endDate other) (iv_startDate iv) <=? 0) then Ok false
    else Ok true
  else
    if iv_hasEnd iv && (Instant_Compare (iv_endInstant iv) (iv_startInstant other) <=? 0) then Ok false
    else if iv_hasEnd other && (Instant_Compare (iv_endInstant other) (iv_startInstant iv) <=? 0) then Ok false
    else Ok true.

Definition appendLengthPrefixed (dst : list Z) (s : string) : list Z :=
  dst ++ be_bytes 4 (to_uint32 (len s)) ++ str_bytes s.

(** [append(out, x.Canonical()...)]: nil appends nothing. *)
Definition canonical_bytes (c : option (list Z)) : list Z := default [] c.

Definition EffectiveInterval_Canonical (iv : EffectiveInterval) : option (list Z) :=
  if is_ok (EffectiveInterval_Validate iv) then
    let out := [tagInterval; IntervalKind_byte (iv_kind iv)] in
    let out := out ++ (if iv_hasEnd iv then [1] else [0]) in
    let out :=
      if bool_decide (iv_kind iv = IntervalKindLocalDate) then
        let out := out ++ canonical_bytes (LocalDate_Canonical (iv_startDate iv)) in
        if iv_hasEnd iv then out ++ canonical_bytes (LocalDate_Canonical (iv_endDate iv)) else out
      else
        let out := out ++ canonical_bytes (Instant_Canonical (iv_startInstant iv)) in
        if iv_hasEnd iv then out ++ canonical_bytes (Instant_Canonical (iv_endInstant iv)) else out in
    let out := appendLengthPrefixed out (c_Ref (iv_calendar iv)) in
    let out := appendLengthPrefixed out (c_Version (iv_calendar iv)) in
    let out := appendLengthPrefixed out (z_ID (iv_zone iv)) in
    let out := appendLengthPrefixed out (z_TzdbVersion (iv_zone iv)) in
    Some (out ++ [Disambiguation_byte (iv_disambiguation iv)])
  else None.

(** * Knowledge times *)

Record RecordedAt : Type := mkRecordedAt { r_at : Instant }.
Record KnownAt : Type := mkKnownAt { k_at : Instant }.

Definition NewRecordedAt (at_ : Instant) : outcome time_err RecordedAt :=
  _ ← Instant_Validate at_; Ok (mkRecordedAt at_).
Definition NewKnownAt (at_ : Instant) : outcome time_err KnownAt :=
  _ ← Instant_Validate at_; Ok (mkKnownAt at_).

Definition RecordedAt_Canonical (r : RecordedAt) : option (list Z) :=
  if is_ok (Instant_Validate (r_at r))
  then Some (tagRecordedAt :: canonical_bytes (Instant_Canonical (r_at r))) else None.
Definition KnownAt_Canonical (k : KnownAt) : option (list Z) :=
  if is_ok (Instant_Validate (k_at k))
  then Some (tagKnownAt :: canonical_bytes (Instant_Canonical (k_at k))) else None.

Definition ValidateKnowledgeOrder (known : KnownAt) (recorded : RecordedAt) (futureKnowledgeClaim : bool)
    : outcome time_err unit :=
  _ ← Instant_Validate (k_at known);
  _ ← Instant_Validate (r_at recorded);
  fail_if (Instant_After (k_at known) (r_at recorded) && negb futureKnowledgeClaim) ErrFutureKnowledge.

(** * Pay periods and business days *)

Record PayPeriod : Type := mkPayPeriod {
  pp_set : bool; pp_id : string; pp_interval : EffectiveInterval; pp_ordinal : Z
}.

Definition NewPayPeriod (id : string) (interval : EffectiveInterval) (ordinal : Z)
    : outcome time_err PayPeriod :=
  _ ← fail_if (bool_decide (id = "")) ErrPayPeriodUnset;
  _ ← EffectiveInterval_Validate interval;
  _ ← fail_if (negb (bool_decide (iv_kind interval = IntervalKindLocalDate))) ErrIntervalKindMismatch;
  _ ← fail_if (negb (iv_hasEnd interval)) ErrPayPeriodOpenEnded;
  _ ← fail_if (ordinal <? 1) ErrPayPeriodUnset;
  Ok (mkPayPeriod true id interval ordinal).

Definition PayPeriod_Validate (p : PayPeriod) : outcome time_err unit :=
  if negb (pp_set p) then Err ErrPayPeriodUnset else EffectiveInterval_Validate (pp_interval p).

Definition PayPeriod_Canonical (p : PayPeriod) : option (list Z) :=
  if is_ok (PayPeriod_Validate p) then
    let out := appendLengthPrefixed [tagPayPeriod] (pp_id p) in
    let out := out ++ be_bytes 4 (to_uint32 (pp_ordinal p)) in
    Some (out ++ canonical_bytes (EffectiveInterval_Canonical (pp_interval p)))
  else None.

Record BusinessDay : Type := mkBusinessDay {
  bd_set : bool; bd_date : LocalDate; bd_calendar : CalendarRef; bd_working : bool
}.

Definition NewBusinessDay (date : LocalDate) (calendar : CalendarRef) (working : bool)
    : outcome time_err BusinessDay :=
  _ ← LocalDate_Validate date;
  _ ← CalendarRef_Validate calendar;
  Ok (mkBusinessDay true date calendar working).

Definition BusinessDay_Validate (b : BusinessDay) : outcome time_err unit :=
  if negb (bd_set b) then Err ErrBusinessDayUnset
  else _ ← LocalDate_Validate (bd_date b); CalendarRef_Validate (bd_calendar b).

Definition BusinessDay_String (b : BusinessDay) : string :=
  if is_ok (BusinessDay_Validate b) then
    LocalDate_String (bd_date b) +:+ "@" +:+ CalendarRef_String (bd_calendar b) +:+ " "
      +:+ (if bd_working b then "WORKING" else "NON_WORKING")
  else "".

Definition BusinessDay_Canonical (b : BusinessDay) : option (list Z) :=
  if is_ok (BusinessDay_Validate b) then
    let out := tagBusinessDay :: canonical_bytes (LocalDate_Canonical (bd_date b)) in
    let out := appendLengthPrefixed out (c_Ref (bd_calendar b)) in
    let out := appendLengthPrefixed out (c_Version (bd_calendar b)) in
    Some (out ++ [if bd_working b then 1 else 0])
  else None.

(** * Lemmas *)

Lemma cmp_sign_neg a b : (cmp_sign (a ?= b) <? 0) = (a <? b).
Proof. destruct (Z.compare_spec a b); cbn [cmp_sign]; lia. Qed.
Lemma cmp_sign_nonneg a b : (0 <=? cmp_sign (a ?= b)) = (b <=? a).
Proof. destruct (Z.compare_spec a b); cbn [cmp_sign]; lia. Qed.
Lemma cmp_sign_nonpos a b : (cmp_sign (a ?= b) <=? 0) = (a <=? b).
Proof. destruct (Z.compare_spec a b); cbn [cmp_sign]; lia. Qed.
Lemma cmp_sign_one a b : (cmp_sign (a ?= b) =? 1) = (b <? a).
Proof. destruct (Z.compare_spec a b); cbn [cmp_sign]; lia. Qed.
Lemma cmp_sign_zero a b : (cmp_sign (a ?= b) =? 0) = (a =? b).
Proof. destruct (Z.compare_spec a b); cbn [cmp_sign]; lia. Qed.

Create Rewrite HintDb cmp.
#[export] Hint Rewrite cmp_sign_neg cmp_sign_nonneg cmp_sign_nonpos cmp_sign_one cmp_sign_zero : cmp.

(** ** Intervals as sets of positions

    A date is the position of its day, an instant that of its nanosecond. *)

Definition iv_lo (iv : EffectiveInterval) : Z :=
  match iv_kind iv with
  | IntervalKindLocalDate => ordinal (iv_startDate iv)
  | _ => nanos_of (iv_startInstant iv)
  end.
Definition iv_hi (iv : EffectiveInterval) : Z :=
  match iv_kind iv with
  | IntervalKindLocalDate => ordinal (iv_endDate iv)
  | _ => nanos_of (iv_endInstant iv)
  end.
Definition in_span (iv : EffectiveInterval) (z : Z) : bool :=
  (iv_lo iv <=? z) && (negb (iv_hasEnd iv) || (z <? iv_hi iv)).

Lemma LocalDate_Compare_valid d o : LocalDate_Validate d = Ok tt -> LocalDate_Validate o = Ok tt ->
  LocalDate_Compare d o = cmp_sign (ordinal d ?= ordinal o).
Proof. rewrite !LocalDate_Validate_ok. apply LocalDate_Compare_ordinal. Qed.

Lemma interval_valid_inv iv : EffectiveInterval_Validate iv = Ok tt ->
  (iv_kind iv = IntervalKindLocalDate /\ LocalDate_Validate (iv_startDate iv) = Ok tt
     /\ CalendarRef_Validate (iv_calendar iv) = Ok tt
     /\ (iv_hasEnd iv = true -> LocalDate_Validate (iv_endDate iv) = Ok tt)
   \/ iv_kind iv = IntervalKindInstant /\ Instant_Validate (iv_startInstant iv) = Ok tt
     /\ (iv_hasEnd iv = true -> Instant_Validate (iv_endInstant iv) = Ok tt))
  /\ (iv_hasEnd iv = true -> iv_lo iv < iv_hi iv).
Proof.
  unfold EffectiveInterval_Validate, iv_lo, iv_hi. destruct (iv_kind iv); [done| |]; intros H; ok_inv.
  - destruct (iv_hasEnd iv).
    + ok_inv. rewrite LocalDate_Compare_valid, cmp_sign_nonneg in H by done. split; [by left | lia].
    + split; [left; by repeat split | done].
  - destruct (iv_hasEnd iv).
    + ok_inv. rewrite Instant_Compare_nanos, cmp_sign_nonneg in H by done. split; [by right | lia].
    + split; [right; by repeat split | done].
Qed.

Lemma contains_date_span iv d b : EffectiveInterval_ContainsDate iv d = Ok b ->
  EffectiveInterval_Validate iv = Ok tt /\ iv_kind iv = IntervalKindLocalDate
  /\ LocalDate_Validate d = Ok tt /\ b = in_span iv (ordinal d).
Proof.
  unfold EffectiveInterval_ContainsDate. intros H. ok_inv. rewrite negb_false_iff, bool_decide_eq_true in Hok0.
  destruct (interval_valid_inv iv Hok) as [[(Hk & Hs & _ & He)|(Hk & _)] Hlt]; [|congruence].
  repeat split; try done. unfold in_span, iv_lo, iv_hi. rewrite Hk.
  destruct (iv_hasEnd iv); cbn [negb orb andb] in *.
  - rewrite !LocalDate_Compare_valid in H by auto. autorewrite with cmp in H.
    repeat case_match; ok_inv; subst; symmetry; lia.
  - rewrite LocalDate_Compare_valid in H by auto. autorewrite with cmp in H.
    repeat case_match; ok_inv; subst; symmetry; lia.
Qed.

Lemma contains_instant_span iv i b : EffectiveInterval_ContainsInstant iv i = Ok b ->
  EffectiveInterval_Validate iv = Ok tt /\ iv_kind iv = IntervalKindInstant
  /\ Instant_Validate i = Ok tt /\ b = in_span iv (nanos_of i).
Proof.
  unfold EffectiveInterval_ContainsInstant. intros H. ok_inv. rewrite negb_false_iff, bool_decide_eq_true in Hok0.
  destruct (interval_valid_inv iv Hok) as [[(Hk & _)|(Hk & Hs & He)] Hlt]; [congruence|].
  repeat split; try done. unfold in_span, iv_lo, iv_hi. rewrite Hk.
  destruct (iv_hasEnd iv); cbn [negb orb andb] in *.
  - rewrite !Instant_Compare_nanos in H by auto. autorewrite with cmp in H.
    repeat case_match; ok_inv; subst; symmetry; lia.
  - rewrite Instant_Compare_nanos in H by auto. autorewrite with cmp in H.
    repeat case_match; ok_inv; subst; symmetry; lia.
Qed.

Lemma contains_date_ok iv d :
  EffectiveInterval_Validate iv = Ok tt -> iv_kind iv = IntervalKindLocalDate -> LocalDate_Validate d = Ok tt ->
  EffectiveInterval_ContainsDate iv d = Ok (in_span iv (ordinal d)).
Proof.
  intros Hv Hk Hd. destruct (EffectiveInterval_ContainsDate iv d) as [b| |] eqn:E.
  - apply contains_date_span in E as (_ & _ & _ & ->). done.
  - unfold EffectiveInterval_ContainsDate in E. rewrite Hv, Hd, bool_decide_eq_true_2 in E by done.
    cbn [mbind outcome_bind fail_if negb] in E. by repeat case_match.
  - unfold EffectiveInterval_ContainsDate in E. rewrite Hv, Hd, bool_decide_eq_true_2 in E by done.
    cbn [mbind outcome_bind fail_if negb] in E. by repeat case_match.
Qed.

Lemma contains_instant_ok iv i :
  EffectiveInterval_Validate iv = Ok tt -> iv_kind iv = IntervalKindInstant -> Instant_Validate i = Ok tt ->
  EffectiveInterval_ContainsInstant iv i = Ok (in_span iv (nanos_of i)).
Proof.
  intros Hv Hk Hd. destruct (EffectiveInterval_ContainsInstant iv i) as [b| |] eqn:E.
  - apply contains_instant_span in E as (_ & _ & _ & ->). done.
  - unfold EffectiveInterval_ContainsInstant in E. rewrite Hv, Hd, bool_decide_eq_true_2 in E by done.
    cbn [mbind outcome_bind fail_if negb] in E. by repeat case_match.
  - unfold EffectiveInterval_ContainsInstant in E. rewrite Hv, Hd, bool_decide_eq_true_2 in E by done.
    cbn [mbind outcome_bind fail_if negb] in E. by repeat case_match.
Qed.

(** The answer of [Overlaps] as an inequality of positions. *)
Definition spans_meet (iv other : EffectiveInterval) : bool :=
  (negb (iv_hasEnd iv) || (iv_lo other <? iv_hi iv)) && (negb (iv_hasEnd other) || (iv_lo iv <? iv_hi other)).

Lemma overlaps_spans iv other :
  EffectiveInterval_Validate iv = Ok tt -> EffectiveInterval_Validate other = Ok tt ->
  iv_kind iv = iv_kind other -> EffectiveInterval_Overlaps iv other = Ok (spans_meet iv other).
Proof.
  intros Hv Ho Hk. unfold EffectiveInterval_Overlaps, spans_meet, iv_lo, iv_hi.
  rewrite Hv, Ho, (bool_decide_eq_true_2 (_ = _) Hk). cbn [mbind outcome_bind fail_if negb]. rewrite <- Hk.
  destruct (interval_valid_inv iv Hv) as [[(K & Hs & _ & He)|(K & Hs & He)] _];
  destruct (interval_valid_inv other Ho) as [[(K' & Hs' & _ & He')|(K' & Hs' & He')] _]; try congruence; rewrite K.
  - rewrite bool_decide_eq_true_2 by done.
    destruct (iv_hasEnd iv), (iv_hasEnd other); cbn [andb negb orb];
      rewrite ?LocalDate_Compare_valid by auto; autorewrite with cmp;
      repeat case_match; f_equal; symmetry; lia.
  - rewrite bool_decide_eq_false_2 by done.
    destruct (iv_hasEnd iv), (iv_hasEnd other); cbn [andb negb orb];
      rewrite ?Instant_Compare_nanos by auto; autorewrite with cmp;
      repeat case_match; f_equal; symmetry; lia.
Qed.

(** Spans that meet share the later of their two starts. *)
Lemma spans_meet_iff iv other :
  (iv_hasEnd iv = true -> iv_lo iv < iv_hi iv) -> (iv_hasEnd other = true -> iv_lo other < iv_hi other) ->
  spans_meet iv other = true <->
  in_span iv (Z.max (iv_lo iv) (iv_lo other)) = true /\ in_span other (Z.max (iv_lo iv) (iv_lo other)) = true.
Proof.
  intros H H'. unfold spans_meet, in_span. destruct (iv_hasEnd iv), (iv_hasEnd other); cbn [negb orb];
    rewrite ?andb_true_r; lia.
Qed.

Lemma in_span_meet iv other z : in_span iv z = true -> in_span other z = true -> spans_meet iv other = true.
Proof. unfold spans_meet, in_span. destruct (iv_hasEnd iv), (iv_hasEnd other); cbn [negb orb]; lia. Qed.

(** ** Intervals the package hands out *)

Inductive Built `{Tzdb} : EffectiveInterval -> Prop :=
  | built_open_date s c iv : NewOpenLocalDateInterval s c = Ok iv -> Built iv
  | built_date s e c iv : NewLocalDateInterval s e c = Ok iv -> Built iv
  | built_open_instant s iv : NewOpenInstantInterval s = Ok iv -> Built iv
  | built_instant s e iv : NewInstantInterval s e = Ok iv -> Built iv
  | built_zone iv0 z d iv : Built iv0 -> EffectiveInterval_WithZone iv0 z d = Ok iv -> Built iv.

(** The fields a kind does not use keep their zero values. *)
Definition unused_zero (iv : EffectiveInterval) : Prop :=
  match iv_kind iv with
  | IntervalKindLocalDate =>
      iv_startInstant iv = Instant_zero_value /\ iv_endInstant iv = Instant_zero_value
      /\ (iv_hasEnd iv = false -> iv_endDate iv = LocalDate_zero_value)
  | IntervalKindInstant =>
      iv_startDate iv = LocalDate_zero_value /\ iv_endDate iv = LocalDate_zero_value
      /\ iv_calendar iv = no_calendar /\ (iv_hasEnd iv = false -> iv_endInstant iv = Instant_zero_value)
  | IntervalKindUnspecified => False
  end
  /\ (iv_disambiguation iv = DisambiguationUnspecified \/ Disambiguation_Valid (iv_disambiguation iv) = true).

Definition built_ok (iv : EffectiveInterval) : Prop :=
  EffectiveInterval_Validate iv = Ok tt /\ unused_zero iv.

Lemma new_open_date_ok s c iv : NewOpenLocalDateInterval s c = Ok iv -> built_ok iv.
Proof.
  unfold NewOpenLocalDateInterval. intros H. ok_inv. subst. split.
  - unfold EffectiveInterval_Validate. cbn [iv_kind iv_startDate iv_calendar iv_hasEnd]. by rewrite Hok, Hok0.
  - split; [done | by left].
Qed.

Lemma new_date_ok s e c iv : NewLocalDateInterval s e c = Ok iv -> built_ok iv.
Proof.
  unfold NewLocalDateInterval, NewOpenLocalDateInterval. intros H. ok_inv. subst.
  cbn [iv_kind iv_startDate iv_startInstant iv_endInstant iv_calendar iv_zone iv_disambiguation] in H.
  rewrite LocalDate_Compare_valid in H by done. autorewrite with cmp in H.
  repeat case_match; ok_inv; subst. split; [|split; [done | by left]].
  unfold EffectiveInterval_Validate. cbn [iv_kind iv_startDate iv_endDate iv_calendar iv_hasEnd].
  rewrite Hok0, Hok1, Hok2. cbn [mbind outcome_bind]. rewrite LocalDate_Compare_valid, cmp_sign_nonneg by done.
  unfold fail_if. case_match; [lia | done].
Qed.

Lemma new_open_instant_ok s iv : NewOpenInstantInterval s = Ok iv -> built_ok iv.
Proof.
  unfold NewOpenInstantInterval. intros H. ok_inv. subst. split.
  - unfold EffectiveInterval_Validate. cbn [iv_kind iv_startInstant iv_hasEnd]. by rewrite Hok.
  - split; [done | by left].
Qed.

Lemma new_instant_ok s e iv : NewInstantInterval s e = Ok iv -> built_ok iv.
Proof.
  unfold NewInstantInterval, NewOpenInstantInterval. intros H. ok_inv. subst.
  cbn [iv_kind iv_startDate iv_endDate iv_startInstant iv_calendar iv_zone iv_disambiguation] in H.
  rewrite Instant_Compare_nanos in H by done. autorewrite with cmp in H.
  repeat case_match; ok_inv; subst. split; [|split; [done | by left]].
  unfold EffectiveInterval_Validate. cbn [iv_kind iv_startInstant iv_endInstant iv_hasEnd].
  rewrite Hok0, Hok1. cbn [mbind outcome_bind]. rewrite Instant_Compare_nanos, cmp_sign_nonneg by done.
  unfold fail_if. case_match; [lia | done].
Qed.

Lemma new_date_eq s e c :
  LocalDate_Validate s = Ok tt -> LocalDate_Validate e = Ok tt -> CalendarRef_Validate c = Ok tt ->
  NewLocalDateInterval s e c =
  if ordinal e <? ordinal s then Err ErrIntervalInverted
  else if ordinal s =? ordinal e then Err ErrIntervalEmpty
  else Ok (mkInterval IntervalKindLocalDate s e Instant_zero_value Instant_zero_value true c no_zone
             DisambiguationUnspecified).
Proof.
  intros Hs He Hc. unfold NewLocalDateInterval, NewOpenLocalDateInterval. rewrite Hs, Hc, He.
  cbn [mbind outcome_bind]. rewrite LocalDate_Compare_valid by done. by autorewrite with cmp.
Qed.

Lemma new_instant_eq s e : Instant_Validate s = Ok tt -> Instant_Validate e = Ok tt ->
  NewInstantInterval s e =
  if nanos_of e <? nanos_of s then Err ErrIntervalInverted
  else if nanos_of s =? nanos_of e then Err ErrIntervalEmpty
  else Ok (mkInterval IntervalKindInstant LocalDate_zero_value LocalDate_zero_value s e true no_calendar no_zone
             DisambiguationUnspecified).
Proof.
  intros Hs He. unfold NewInstantInterval, NewOpenInstantInterval. rewrite Hs, He.
  cbn [mbind outcome_bind]. rewrite Instant_Compare_nanos by done. by autorewrite with cmp.
Qed.

Lemma with_zone_ok `{Tzdb} iv0 z d iv : built_ok iv0 -> EffectiveInterval_WithZone iv0 z d = Ok iv -> built_ok iv.
Proof.
  unfold EffectiveInterval_WithZone. intros [Hv Hu] E. ok_inv. subst.
  rewrite negb_false_iff in Hok1. destruct iv0; unfold built_ok, unused_zero, EffectiveInterval_Validate in *.
  cbn in *. split; [done|]. split; [apply Hu | by right].
Qed.

Lemma Built_ok `{Tzdb} iv : Built iv -> built_ok iv.
Proof.
  induction 1; eauto using new_open_date_ok, new_date_ok, new_open_instant_ok, new_instant_ok, with_zone_ok.
Qed.

(** ** Encodings *)

(** A string with its length in front. *)
Definition length_prefixed (s : string) : list Z := be_bytes 4 (to_uint32 (len s)) ++ str_bytes s.

Lemma appendLengthPrefixed_eq dst s : appendLengthPrefixed dst s = dst ++ length_prefixed s.
Proof. reflexivity. Qed.

Lemma length_prefixed_inj s t r r' : len s < 2 ^ 32 -> len t < 2 ^ 32 ->
  length_prefixed s ++ r = length_prefixed t ++ r' -> s = t /\ r = r'.
Proof.
  intros Hs Ht. unfold length_prefixed. rewrite <- !app_assoc. intros E.
  apply app_inj_1 in E as [E1 E2]; [|by rewrite !be_bytes_length].
  apply be_bytes_inj in E1; [|apply Z.mod_pos_bound; lia..].
  unfold to_uint32 in E1. pose proof (len_nonneg s). pose proof (len_nonneg t).
  rewrite !Z.mod_small in E1 by lia. unfold len in E1.
  apply app_inj_1 in E2 as [E2 ->]; [|rewrite !str_bytes_length; lia]. apply str_bytes_inj in E2 as ->. done.
Qed.

Definition ref_small (c : CalendarRef) : Prop := len (c_Ref c) < 2 ^ 32 /\ len (c_Version c) < 2 ^ 32.
Definition zone_small (z : ZoneRef) : Prop := len (z_ID z) < 2 ^ 32 /\ len (z_TzdbVersion z) < 2 ^ 32.

Definition refs_bytes (iv : EffectiveInterval) : list Z :=
  length_prefixed (c_Ref (iv_calendar iv)) ++
  (length_prefixed (c_Version (iv_calendar iv)) ++
  (length_prefixed (z_ID (iv_zone iv)) ++
  (length_prefixed (z_TzdbVersion (iv_zone iv)) ++ [Disambiguation_byte (iv_disambiguation iv)]))).

Lemma refs_bytes_inj iv iv' : ref_small (iv_calendar iv) -> zone_small (iv_zone iv) ->
  ref_small (iv_calendar iv') -> zone_small (iv_zone iv') -> refs_bytes iv = refs_bytes iv' ->
  iv_calendar iv = iv_calendar iv' /\ iv_zone iv = iv_zone iv'
  /\ Disambiguation_byte (iv_disambiguation iv) = Disambiguation_byte (iv_disambiguation iv').
Proof.
  intros [C1 C2] [Z1 Z2] [C1' C2'] [Z1' Z2'] E. unfold refs_bytes in E.
  do 4 (apply length_prefixed_inj in E as [? E]; [|done..]). apply cons_eq_inv in E as [E _].
  destruct (iv_calendar iv), (iv_calendar iv'), (iv_zone iv), (iv_zone iv'); cbn in *. by subst.
Qed.

Lemma disambiguation_byte_inj a b :
  a = DisambiguationUnspecified \/ Disambiguation_Valid a = true ->
  b = DisambiguationUnspecified \/ Disambiguation_Valid b = true ->
  Disambiguation_byte a = Disambiguation_byte b -> a = b.
Proof. intros [->|Ha] [->|Hb]; try destruct a; try destruct b; done. Qed.

Definition bound_bytes (iv : EffectiveInterval) : list Z :=
  if bool_decide (iv_kind iv = IntervalKindLocalDate) then
    canonical_bytes (LocalDate_Canonical (iv_startDate iv))
      ++ (if iv_hasEnd iv then canonical_bytes (LocalDate_Canonical (iv_endDate iv)) else [])
  else canonical_bytes (Instant_Canonical (iv_startInstant iv))
      ++ (if iv_hasEnd iv then canonical_bytes (Instant_Canonical (iv_endInstant iv)) else []).

Lemma EffectiveInterval_Canonical_eq iv : EffectiveInterval_Validate iv = Ok tt ->
  EffectiveInterval_Canonical iv
  = Some (tagInterval :: IntervalKind_byte (iv_kind iv) :: (if iv_hasEnd iv then 1 else 0)
            :: (bound_bytes iv ++ refs_bytes iv)).
Proof.
  intros Hv. unfold EffectiveInterval_Canonical, bound_bytes, refs_bytes. rewrite Hv. cbn [is_ok].
  f_equal. rewrite !appendLengthPrefixed_eq.
  destruct (bool_decide _), (iv_hasEnd iv); cbn [app]; rewrite <- ?app_assoc; cbn [app]; by rewrite ?app_nil_r.
Qed.

Lemma date_bytes d : LocalDate_Validate d = Ok tt -> LocalDate_Canonical d = Some (canonical_bytes (LocalDate_Canonical d))
  /\ length (canonical_bytes (LocalDate_Canonical d)) = 7%nat.
Proof. intros H. unfold LocalDate_Canonical. rewrite H. done. Qed.

Lemma instant_bytes i : Instant_Validate i = Ok tt -> Instant_Canonical i = Some (canonical_bytes (Instant_Canonical i))
  /\ length (canonical_bytes (Instant_Canonical i)) = 13%nat.
Proof. intros H. unfold Instant_Canonical. rewrite H. done. Qed.

Lemma date_bytes_inj d d' : LocalDate_Validate d = Ok tt -> LocalDate_Validate d' = Ok tt ->
  canonical_bytes (LocalDate_Canonical d) = canonical_bytes (LocalDate_Canonical d') -> d = d'.
Proof.
  intros H H' E. destruct (date_bytes d H) as [Ed _], (date_bytes d' H') as [Ed' _].
  apply LocalDate_Canonical_inj; [by apply LocalDate_Validate_ok..|]. congruence.
Qed.

Definition int64_instant (i : Instant) : Prop := min_int64 <= i_sec i <= max_int64.

Lemma instant_bytes_inj i j : int64_instant i -> int64_instant j ->
  Instant_Validate i = Ok tt -> Instant_Validate j = Ok tt ->
  canonical_bytes (Instant_Canonical i) = canonical_bytes (Instant_Canonical j) -> i = j.
Proof.
  intros Wi Wj H H' E. destruct (instant_bytes i H) as [Ei _], (instant_bytes j H') as [Ej _].
  apply Instant_Validate_ok in H as [? ?], H' as [? ?].
  apply Instant_Canonical_inj; [done..|]. congruence.
Qed.

(** Fields fit their machine types. *)
Definition machine_sized (iv : EffectiveInterval) : Prop :=
  int64_instant (iv_startInstant iv) /\ int64_instant (iv_endInstant iv)
  /\ ref_small (iv_calendar iv) /\ zone_small (iv_zone iv).

Lemma interval_bytes_inj iv iv' : built_ok iv -> built_ok iv' -> machine_sized iv -> machine_sized iv' ->
  EffectiveInterval_Canonical iv = EffectiveInterval_Canonical iv' -> iv = iv'.
Proof.
  intros [Hv [Hu Hd]] [Hv' [Hu' Hd']] (W1 & W2 & W3 & W4) (W1' & W2' & W3' & W4').
  rewrite !EffectiveInterval_Canonical_eq by done. intros E. apply (inj Some) in E.
  do 3 (apply cons_eq_inv in E as [? E]).
  assert (Hk : iv_kind iv = iv_kind iv') by (destruct (iv_kind iv), (iv_kind iv'); done).
  assert (Hh : iv_hasEnd iv = iv_hasEnd iv') by (destruct (iv_hasEnd iv), (iv_hasEnd iv'); done).
  unfold bound_bytes in E. rewrite <- Hk, <- Hh in *.
  destruct (interval_valid_inv iv Hv) as [[(K & Hs & _ & He)|(K & Hs & He)] _];
  destruct (interval_valid_inv iv' Hv') as [[(K' & Hs' & _ & He')|(K' & Hs' & He')] _]; try congruence;
  rewrite K in *; cbn [bool_decide] in E.
  - rewrite bool_decide_eq_true_2, <- !app_assoc in E by done.
    apply app_inj_1 in E as [E1 E]; [|by rewrite (proj2 (date_bytes _ Hs)), (proj2 (date_bytes _ Hs'))].
    apply date_bytes_inj in E1; [|done..]. destruct Hu as (U1 & U2 & U3), Hu' as (U1' & U2' & U3').
    rewrite <- Hh in *. destruct (iv_hasEnd iv) eqn:Eh.
    + specialize (He eq_refl). specialize (He' eq_refl).
      apply app_inj_1 in E as [E2 E]; [|by rewrite (proj2 (date_bytes _ He)), (proj2 (date_bytes _ He'))].
      apply date_bytes_inj in E2; [|done..]. apply refs_bytes_inj in E as (? & ? & E); [|done..].
      apply disambiguation_byte_inj in E; [|done..]. destruct iv, iv'; cbn in *; congruence.
    + specialize (U3 eq_refl). specialize (U3' eq_refl). apply refs_bytes_inj in E as (? & ? & E); [|done..].
      apply disambiguation_byte_inj in E; [|done..]. destruct iv, iv'; cbn in *; congruence.
  - rewrite bool_decide_eq_false_2, <- !app_assoc in E by done.
    apply app_inj_1 in E as [E1 E]; [|by rewrite (proj2 (instant_bytes _ Hs)), (proj2 (instant_bytes _ Hs'))].
    apply instant_bytes_inj in E1; [|done..].
    destruct Hu as (U1 & U2 & U3 & U4), Hu' as (U1' & U2' & U3' & U4').
    rewrite <- Hh in *. destruct (iv_hasEnd iv) eqn:Eh.
    + specialize (He eq_refl). specialize (He' eq_refl).
      apply app_inj_1 in E as [E2 E]; [|by rewrite (proj2 (instant_bytes _ He)), (proj2 (instant_bytes _ He'))].
      apply instant_bytes_inj in E2; [|done..]. apply refs_bytes_inj in E as (? & ? & E); [|done..].
      apply disambiguation_byte_inj in E; [|done..]. destruct iv, iv'; cbn in *; congruence.
    + specialize (U4 eq_refl). specialize (U4' eq_refl). apply refs_bytes_inj in E as (? & ? & E); [|done..].
      apply disambiguation_byte_inj in E; [|done..]. destruct iv, iv'; cbn in *; congruence.
Qed.

(** A database that knows UTC alone. *)
Definition utc_database : Tzdb := {|
  LoadLocation := fun id => bool_decide (id = "UTC");
  tz_lookup := fun _ _ => mkZoneSpan 0 min_int64 max_int64
|}.

(** * Properties *)

(** on valid ends and a complete calendar the interval constructors decide
    by the order of the ends: the same end is [ErrIntervalEmpty], an earlier
    one [ErrIntervalInverted], and otherwise the result is a valid interval
    that contains exactly the dates (the instants) from the start, included, to
    the end, excluded. *)
Theorem interval_constructors_exact (s e : LocalDate) (c : CalendarRef) (si ei : Instant) :
  LocalDate_Validate s = Ok tt -> LocalDate_Validate e = Ok tt -> CalendarRef_Validate c = Ok tt ->
  Instant_Validate si = Ok tt -> Instant_Validate ei = Ok tt ->
  match NewLocalDateInterval s e c with
  | Ok iv => ordinal s < ordinal e /\ EffectiveInterval_Validate iv = Ok tt
      /\ forall d, LocalDate_Validate d = Ok tt ->
         EffectiveInterval_ContainsDate iv d = Ok ((ordinal s <=? ordinal d) && (ordinal d <? ordinal e))
  | Err ErrIntervalEmpty => s = e
  | Err ErrIntervalInverted => ordinal e < ordinal s
  | _ => False
  end
  /\ match NewInstantInterval si ei with
  | Ok iv => nanos_of si < nanos_of ei /\ EffectiveInterval_Validate iv = Ok tt
      /\ forall i, Instant_Validate i = Ok tt ->
         EffectiveInterval_ContainsInstant iv i = Ok ((nanos_of si <=? nanos_of i) && (nanos_of i <? nanos_of ei))
  | Err ErrIntervalEmpty => nanos_of si = nanos_of ei
  | Err ErrIntervalInverted => nanos_of ei < nanos_of si
  | _ => False
  end.
Proof.
  intros Hs He Hc Hsi Hei. split.
  - pose proof (new_date_ok s e c) as Hb. rewrite new_date_eq in * by done.
    destruct (Z.ltb_spec (ordinal e) (ordinal s)); [done|].
    destruct (Z.eqb_spec (ordinal s) (ordinal e)); [apply ordinal_inj; by try apply LocalDate_Validate_ok|].
    destruct (Hb _ eq_refl) as [Hv _]. split; [lia|]. split; [done|]. intros d Hd. by rewrite contains_date_ok.
  - pose proof (new_instant_ok si ei) as Hb. rewrite new_instant_eq in * by done.
    destruct (Z.ltb_spec (nanos_of ei) (nanos_of si)); [done|].
    destruct (Z.eqb_spec (nanos_of si) (nanos_of ei)); [done|].
    destruct (Hb _ eq_refl) as [Hv _]. split; [lia|]. split; [done|]. intros i Hi. by rewrite contains_instant_ok.
Qed.

Lemma interval_constructors_exact_witness :
  is_ok (NewLocalDateInterval (mkLocalDate true 2024 2 28) (mkLocalDate true 2024 3 1) (mkCalendarRef "us" "1")) = true
  /\ ordinal (mkLocalDate true 2024 2 28) < ordinal (mkLocalDate true 2024 3 1).
Proof.
  split; [reflexivity|].
  exact (proj1 (proj1 (interval_constructors_exact (mkLocalDate true 2024 2 28) (mkLocalDate true 2024 3 1)
    (mkCalendarRef "us" "1") (mkInstant true 0 0) (mkInstant true 1 0) eq_refl eq_refl eq_refl eq_refl eq_refl))).
Defined.

(** [Overlaps] answers whether two intervals share a point: for two valid
    intervals of one kind it returns an answer, the same in both argument
    orders, and it is true exactly when some date (instant) is contained in
    both by [ContainsDate] ([ContainsInstant]); valid intervals of different
    kinds are [ErrIntervalKindMismatch]. *)
Theorem overlaps_iff_common_point (iv other : EffectiveInterval) :
  EffectiveInterval_Validate iv = Ok tt -> EffectiveInterval_Validate other = Ok tt ->
  if bool_decide (iv_kind iv = iv_kind other) then
    exists b, EffectiveInterval_Overlaps iv other = Ok b /\ EffectiveInterval_Overlaps other iv = Ok b
      /\ (b = true <->
          (exists d, EffectiveInterval_ContainsDate iv d = Ok true /\ EffectiveInterval_ContainsDate other d = Ok true)
          \/ (exists i, EffectiveInterval_ContainsInstant iv i = Ok true
                        /\ EffectiveInterval_ContainsInstant other i = Ok true))
  else EffectiveInterval_Overlaps iv other = Err ErrIntervalKindMismatch.
Proof.
  intros Hv Ho. case_bool_decide as Hk.
  - exists (spans_meet iv other). split; [by apply overlaps_spans|].
    split; [rewrite overlaps_spans by done; unfold spans_meet; by rewrite andb_comm|].
    destruct (interval_valid_inv iv Hv) as [Hi Hlt], (interval_valid_inv other Ho) as [Hi' Hlt']. split.
    + intros Hm. apply (spans_meet_iff _ _ Hlt Hlt') in Hm as [M1 M2].
      assert (Hz : Z.max (iv_lo iv) (iv_lo other) = iv_lo iv \/ Z.max (iv_lo iv) (iv_lo other) = iv_lo other) by lia.
      destruct Hi as [(K & Hs & _)|(K & Hs & _)]; destruct Hi' as [(K' & Hs' & _)|(K' & Hs' & _)]; try congruence;
        unfold iv_lo in Hz at 3 6; rewrite K, K' in Hz; [left|right]; destruct Hz as [Hz|Hz]; rewrite Hz in *.
      1: exists (iv_startDate iv). 2: exists (iv_startDate other).
      3: exists (iv_startInstant iv). 4: exists (iv_startInstant other).
      1, 2: rewrite !contains_date_ok by done; split; congruence.
      all: rewrite !contains_instant_ok by done; split; congruence.
    + intros [(d & H1 & H2)|(i & H1 & H2)].
      * apply contains_date_span in H1 as (_ & _ & _ & H1), H2 as (_ & _ & _ & H2). by eapply in_span_meet.
      * apply contains_instant_span in H1 as (_ & _ & _ & H1), H2 as (_ & _ & _ & H2). by eapply in_span_meet.
  - unfold EffectiveInterval_Overlaps. rewrite Hv, Ho. cbn [mbind outcome_bind].
    rewrite (bool_decide_eq_false_2 _ Hk). done.
Qed.

Definition january : EffectiveInterval :=
  mkInterval IntervalKindLocalDate (mkLocalDate true 2024 1 1) (mkLocalDate true 2024 2 1)
    Instant_zero_value Instant_zero_value true (mkCalendarRef "us" "1") no_zone DisambiguationUnspecified.
Definition from_february : EffectiveInterval :=
  mkInterval IntervalKindLocalDate (mkLocalDate true 2024 2 1) LocalDate_zero_value
    Instant_zero_value Instant_zero_value false (mkCalendarRef "us" "1") no_zone DisambiguationUnspecified.

Lemma overlaps_iff_common_point_witness :
  exists b, EffectiveInterval_Overlaps january from_february = Ok b /\ b = false.
Proof.
  destruct (overlaps_iff_common_point january from_february eq_refl eq_refl) as (b & H & _).
  exists b. split; [exact H|]. vm_compute in H. congruence.
Defined.

(** the canonical bytes of an interval built by the constructors and
    [WithZone] determine it: two built intervals with the same bytes have the
    same kind, bounds, calendar, zone and policy.  The same holds of the pay
    periods and business days built on them (strings shorter than 2^32 bytes). *)
Theorem interval_canonical_injective `{Tzdb} (iv iv' : EffectiveInterval) (p p' : PayPeriod) (b b' : BusinessDay)
    (id id' : string) (n n' : Z) (d d' : LocalDate) (c c' : CalendarRef) (w w' : bool) :
  Built iv -> Built iv' -> machine_sized iv -> machine_sized iv' ->
  (EffectiveInterval_Canonical iv = EffectiveInterval_Canonical iv' -> iv = iv')
  /\ (NewPayPeriod id iv n = Ok p -> NewPayPeriod id' iv' n' = Ok p' ->
      len id < 2 ^ 32 -> len id' < 2 ^ 32 -> n < 2 ^ 31 -> n' < 2 ^ 31 ->
      PayPeriod_Canonical p = PayPeriod_Canonical p' -> p = p')
  /\ (NewBusinessDay d c w = Ok b -> NewBusinessDay d' c' w' = Ok b' -> ref_small c -> ref_small c' ->
      BusinessDay_Canonical b = BusinessDay_Canonical b' -> b = b').
Proof.
  intros Hb Hb' W W'. apply Built_ok in Hb, Hb'. split; [by apply interval_bytes_inj|]. split.
  - unfold NewPayPeriod. intros Hp Hp' L L' N N'. ok_inv. subst.
    unfold PayPeriod_Canonical, PayPeriod_Validate. cbn [pp_set pp_interval pp_id pp_ordinal negb].
    rewrite (proj1 Hb), (proj1 Hb'). cbn [is_ok]. rewrite !appendLengthPrefixed_eq, <- !app_assoc.
    intros E. apply (inj Some) in E. apply cons_eq_inv in E as [_ E].
    apply length_prefixed_inj in E as [-> E]; [|done..].
    apply app_inj_1 in E as [E1 E2]; [|by rewrite !be_bytes_length].
    apply be_bytes_inj in E1; [|apply Z.mod_pos_bound; lia..]. unfold to_uint32 in E1.
    rewrite !Z.mod_small in E1 by lia. subst. f_equal. apply interval_bytes_inj; try done.
    rewrite !EffectiveInterval_Canonical_eq in * by apply Hb || apply Hb'. f_equal. exact E2.
  - unfold NewBusinessDay. intros Hd Hd' [L1 L2] [L1' L2']. ok_inv. subst.
    unfold BusinessDay_Canonical, BusinessDay_Validate. cbn [bd_set bd_date bd_calendar bd_working negb].
    rewrite Hok, Hok0, Hok1, Hok2. cbn [is_ok mbind outcome_bind]. rewrite !appendLengthPrefixed_eq.
    cbn [app]. rewrite <- !app_assoc. intros E. apply (inj Some) in E. apply cons_eq_inv in E as [_ E].
    apply app_inj_1 in E as [E1 E]; [|by rewrite (proj2 (date_bytes d ltac:(done))), (proj2 (date_bytes d' ltac:(done)))].
    apply date_bytes_inj in E1; [|done..]. apply length_prefixed_inj in E as [? E]; [|done..].
    apply length_prefixed_inj in E as [? E]; [|done..]. apply cons_eq_inv in E as [E _].
    destruct c, c'; cbn in *; subst. by destruct w, w'.
Qed.

Lemma interval_canonical_injective_witness :
  EffectiveInterval_Canonical january = EffectiveInterval_Canonical january /\ january = january.
Proof.
  assert (Hb : @Built utc_database january)
    by (by apply (built_date (mkLocalDate true 2024 1 1) (mkLocalDate true 2024 2 1) (mkCalendarRef "us" "1"))).
  assert (Hw : machine_sized january) by (repeat split; vm_compute; first [reflexivity | discriminate]).
  split; [reflexivity|].
  exact (proj1 (@interval_canonical_injective utc_database january january
    (mkPayPeriod false "" january 0) (mkPayPeriod false "" january 0)
    (mkBusinessDay false LocalDate_zero_value no_calendar false) (mkBusinessDay false LocalDate_zero_value no_calendar false)
    "" "" 0 0 LocalDate_zero_value LocalDate_zero_value no_calendar no_calendar false false Hb Hb Hw Hw) eq_refl).
Defined.
