(* ===== verification/Zoned.v ===== *)
(** Local times in a zone, and the replay of timers:
    [ZonedDateTime] of [internal/kernel/values/time.go] and
    [internal/kernel/values/timer.go].

    A [time.Time] is its number of nanoseconds since 1970 UTC; the zone data
    is the class [Tzdb] of [Intervals]. *)

From S2P Require Import Prelude CivilTime Intervals.

Local Open Scope Z_scope.

(** * Package time in a location *)

Definition nano : Z := 1000000000.

Section Location.
  Context `{Tzdb}.

(** [t.In(loc).Zone()] of a time given in nanoseconds. *)
Definition offset_at (loc : string) (t : Z) : Z := zs_offset (tz_lookup loc (t / nano)).

(** [time.Date] with UTC: seconds since 1970 of the wall clock. *)
Definition wall_seconds (date : LocalDate) (tod : LocalTime) : Z :=
  days_of_civil (ld_year date) (ld_month date) (ld_day date) * 86400
  + lt_hour tod * 3600 + lt_minute tod * 60 + lt_second tod.

(** [time.Date] with a location: the offset found for the wall clock read as
    UTC, or, when that offset's span does not cover the result, the offset at
    the result. *)
Definition date_in (loc : string) (unix : Z) : Z :=
  let z := tz_lookup loc unix in
  if zs_offset z =? 0 then unix
  else
    let utc := unix - zs_offset z in
    if (utc <? zs_start z) || (zs_end z <=? utc)
    then unix - zs_offset (tz_lookup loc utc) else utc.

(** [t.Truncate(time.Second)]. *)
Definition truncate_second (t : Z) : Z := t - t mod nano.

(** * ZonedDateTime *)

Definition naive_time (date : LocalDate) (tod : LocalTime) : Z :=
  wall_seconds date tod * nano + lt_nanos tod.
Definition probe_time (date : LocalDate) (tod : LocalTime) (loc : string) : Z :=
  date_in loc (wall_seconds date tod) * nano + lt_nanos tod.

Definition dedupeOffsets (a b : Z) : list Z := if a =? b then [a] else [a; b].

(** The fields of [t.In(loc)] against the requested date and time. *)
Definition sameWallClock (loc : string) (t : Z) (date : LocalDate) (tod : LocalTime) : bool :=
  let local := t / nano + offset_at loc t in
  let '(y, m, d) := civil_of_days (local / 86400) in
  let s := local mod 86400 in
  (y =? ld_year date) && (m =? ld_month date) && (d =? ld_day date)
  && (s / 3600 =? lt_hour tod) && (s mod 3600 / 60 =? lt_minute tod) && (s mod 60 =? lt_second tod)
  && (t mod nano =? lt_nanos tod).

Definition resolveLocal (date : LocalDate) (tod : LocalTime) (loc : string) : list Z :=
  let naive := naive_time date tod in
  let probe := probe_time date tod loc in
  let offBefore := offset_at loc (probe - 86400 * nano) in
  let offAfter := offset_at loc (probe + 86400 * nano) in
  let out := List.filter (fun c => sameWallClock loc c date tod)
               (List.map (fun off => naive - off * nano) (dedupeOffsets offBefore offAfter)) in
  match out with
  | [x; y] => if y <? x then [y; x] else [x; y]
  | _ => out
  end.

(** The loop of [gapTransition]: [hi] is the first second known to have the
    target offset. *)
Fixpoint gap_search (fuel : nat) (loc : string) (target lo hi : Z) : option Z :=
  match fuel with
  | O => None
  | S f =>
      if nano <? hi - lo then
        let mid := truncate_second (lo + (hi - lo) / 2) in
        if mid <=? lo then Some hi
        else if offset_at loc mid =? target then gap_search f loc target lo mid
        else gap_search f loc target mid hi
      else Some hi
  end.

Definition gap_fuel (lo hi : Z) : nat := S (Z.to_nat (hi / nano - lo / nano)).

Definition gapTransition (date : LocalDate) (tod : LocalTime) (loc : string) : outcome time_err Z :=
  let naive := naive_time date tod in
  let probe := probe_time date tod loc in
  let offBefore := offset_at loc (probe - 86400 * nano) in
  let offAfter := offset_at loc (probe + 86400 * nano) in
  if offBefore =? offAfter then Err ErrDSTGap
  else
    let lo := naive - offBefore * nano in
    let hi := naive - offAfter * nano in
    let '(lo, hi) := if hi <? lo then (hi, lo) else (lo, hi) in
    match gap_search (gap_fuel lo hi) loc (offset_at loc hi) lo hi with
    | Some t => Ok (truncate_second t)
    | None => Panic
    end.

Record ZonedDateTime : Type := mkZoned {
  zd_set : bool; zd_date : LocalDate; zd_tod : LocalTime; zd_zone : ZoneRef;
  zd_disambiguation : Disambiguation; zd_offsetSeconds : Z; zd_instant : Instant
}.

Definition buildZoned (date : LocalDate) (tod : LocalTime) (zone : ZoneRef) (d : Disambiguation)
    (at_ : Z) (loc : string) : ZonedDateTime :=
  mkZoned true date tod zone d (to_int32 (offset_at loc at_))
    (NewInstant (mkGoTime (at_ / nano) (at_ mod nano))).

Definition NewZonedDateTime (date : LocalDate) (tod : LocalTime) (zone : ZoneRef)
    (disambiguation : Disambiguation) : outcome time_err ZonedDateTime :=
  _ ← LocalDate_Validate date;
  _ ← LocalTime_Validate tod;
  _ ← ZoneRef_Validate zone;
  _ ← fail_if (bool_decide (disambiguation = DisambiguationUnspecified)) ErrDisambiguationRequired;
  _ ← fail_if (negb (Disambiguation_Valid disambiguation)) ErrDisambiguation;
  _ ← fail_if (bool_decide (disambiguation = DisambiguationExplicitOffset)) ErrDisambiguationRequired;
  loc ← ZoneRef_Location zone;
  match resolveLocal date tod loc with
  | [c] => Ok (buildZoned date tod zone disambiguation c loc)
  | [c0; c1] =>
      if bool_decide (disambiguation = DisambiguationRejectGap) then Err ErrDSTAmbiguous
      else
        let pick := if bool_decide (disambiguation = DisambiguationLater) then c1 else c0 in
        Ok (buildZoned date tod zone disambiguation pick loc)
  | _ =>
      if bool_decide (disambiguation = DisambiguationRejectGap) then Err ErrDSTGap
      else
        transition ← gapTransition date tod loc;
        Ok (buildZoned date tod zone disambiguation transition loc)
  end.

Definition NewZonedDateTimeAtOffset (date : LocalDate) (tod : LocalTime) (zone : ZoneRef)
    (offsetSeconds : Z) : outcome time_err ZonedDateTime :=
  _ ← LocalDate_Validate date;
  _ ← LocalTime_Validate tod;
  _ ← ZoneRef_Validate zone;
  loc ← ZoneRef_Location zone;
  match List.find (fun c => offset_at loc c =? offsetSeconds) (resolveLocal date tod loc) with
  | Some c => Ok (buildZoned date tod zone DisambiguationExplicitOffset c loc)
  | None => Err ErrOffsetNotValid
  end.

Definition LocalDate_AtStartOfDay (d : LocalDate) (zone : ZoneRef) (disambiguation : Disambiguation)
    : outcome time_err ZonedDateTime :=
  midnight ← NewLocalTime 0 0 0 0;
  NewZonedDateTime d midnight zone disambiguation.

Definition ZonedDateTime_Validate (z : ZonedDateTime) : outcome time_err unit :=
  if negb (zd_set z) then Err ErrIntervalUnset
  else
    _ ← LocalDate_Validate (zd_date z);
    _ ← LocalTime_Validate (zd_tod z);
    _ ← ZoneRef_Validate (zd_zone z);
    _ ← fail_if (negb (Disambiguation_Valid (zd_disambiguation z))) ErrDisambiguationRequired;
    Instant_Validate (zd_instant z).

Definition ZonedDateTime_Canonical (z : ZonedDateTime) : option (list Z) :=
  if is_ok (ZonedDateTime_Validate z) then
    let out := tagZoned :: canonical_bytes (LocalDate_Canonical (zd_date z)) in
    let out := out ++ canonical_bytes (LocalTime_Canonical (zd_tod z)) in
    let out := out ++ be_bytes 4 (to_uint32 (zd_offsetSeconds z)) in
    let out := out ++ [Disambiguation_byte (zd_disambiguation z)] in
    let out := appendLengthPrefixed out (z_ID (zd_zone z)) in
    let out := appendLengthPrefixed out (z_TzdbVersion (zd_zone z)) in
    Some (out ++ canonical_bytes (Instant_Canonical (zd_instant z)))
  else None.

(** * Lemmas *)

Definition time_fields (v : LocalTime) : Z := lt_hour v * 3600 + lt_minute v * 60 + lt_second v.

(** The calendar fields of a wall-clock second match exactly one second. *)
Lemma wall_fields date tod local n :
  date_ok date -> time_ok tod ->
  (let '(y, m, d) := civil_of_days (local / 86400) in
   let s := local mod 86400 in
   (y =? ld_year date) && (m =? ld_month date) && (d =? ld_day date)
   && (s / 3600 =? lt_hour tod) && (s mod 3600 / 60 =? lt_minute tod) && (s mod 60 =? lt_second tod)
   && (n =? lt_nanos tod)) = true
  <-> local = wall_seconds date tod /\ n = lt_nanos tod.
Proof.
  intros (_ & _ & Hd) (_ & Hh & Hm & Hs & _). unfold wall_seconds.
  assert (Hdate : forall z, civil_of_days z = (ld_year date, ld_month date, ld_day date)
                            <-> z = days_of_civil (ld_year date) (ld_month date) (ld_day date)).
  { intros z. split; [|intros ->; by apply civil_of_days_of_civil].
    intros E. pose proof (civil_of_days_correct z) as Hc. rewrite E in Hc. symmetry. apply Hc. }
  specialize (Hdate (local / 86400)). destruct (civil_of_days _) as [[y m] d].
  rewrite !andb_true_iff, !Z.eqb_eq. split.
  - intros ((((((-> & ->) & ->) & Eh) & Em) & Es) & ->). split; [|done].
    rewrite <- (proj1 Hdate eq_refl). revert Eh Em Es. clear. intros. div_lia.
  - intros [-> ->].
    assert (E : (days_of_civil (ld_year date) (ld_month date) (ld_day date) * 86400 + lt_hour tod * 3600
              + lt_minute tod * 60 + lt_second tod) / 86400
            = days_of_civil (ld_year date) (ld_month date) (ld_day date)) by div_lia.
    apply Hdate in E. injection E as -> -> ->. repeat split; div_lia.
Qed.

Lemma same_wall_clock loc t date tod : date_ok date -> time_ok tod ->
  sameWallClock loc t date tod = true <-> t + offset_at loc t * nano = naive_time date tod.
Proof.
  intros Hd Ht. unfold sameWallClock. rewrite wall_fields by done. unfold naive_time.
  destruct Ht as (_ & _ & _ & _ & Hn). unfold nano in *. split.
  - intros [E1 E2]. pose proof (Z.div_mod t 1000000000). lia.
  - intros E. generalize dependent (offset_at loc t). intros o E. generalize dependent (wall_seconds date tod).
    intros w E. div_lia.
Qed.

Lemma naive_div date tod k : time_ok tod ->
  (naive_time date tod + k * nano) / nano = wall_seconds date tod + k.
Proof.
  intros (_ & _ & _ & _ & Hn). unfold naive_time.
  replace (wall_seconds date tod * nano + lt_nanos tod + k * nano)
    with (lt_nanos tod + (wall_seconds date tod + k) * nano) by lia.
  rewrite Z.div_add by done. rewrite Z.div_small by (unfold nano; lia). lia.
Qed.

Lemma lookup_offset loc u : zs_offset (tz_lookup loc u) = offset_at loc (u * nano).
Proof. unfold offset_at. by rewrite Z.div_mul by done. Qed.

(** ** One transition around the requested time

    Offsets stay within a day, and for three days either side of the wall
    clock read as UTC the zone uses [a] before second [T] and [b] from then
    on; the two may be equal (no transition). *)
Record one_transition (loc : string) (date : LocalDate) (tod : LocalTime) (T a b : Z) : Prop := {
  ot_bound : forall t, Z.abs (offset_at loc t) <= 86400;
  ot_near : forall t, Z.abs (t - naive_time date tod) <= 3 * 86400 * nano ->
    offset_at loc t = if t / nano <? T then a else b;
  ot_step : Z.abs (a - b) <= 86400
}.

Section Near.
  Variables (loc : string) (date : LocalDate) (tod : LocalTime) (T a b : Z).
  Hypothesis Hdate : date_ok date.
  Hypothesis Htod : time_ok tod.
  Hypothesis Hone : one_transition loc date tod T a b.

Abbreviation naive := (naive_time date tod).
Abbreviation W := (wall_seconds date tod).

(** The offset of a time a whole number of seconds from the wall clock. *)
Lemma offset_near k : Z.abs k <= 3 * 86400 ->
  offset_at loc (naive + k * nano) = if W + k <? T then a else b.
Proof.
  intros Hk. rewrite (ot_near _ _ _ _ _ _ Hone) by (unfold nano; lia). by rewrite naive_div.
Qed.

Lemma offset_in k : Z.abs k <= 3 * 86400 ->
  (W + k < T /\ offset_at loc (naive + k * nano) = a /\ Z.abs a <= 86400)
  \/ (T <= W + k /\ offset_at loc (naive + k * nano) = b /\ Z.abs b <= 86400).
Proof.
  intros Hk. pose proof (offset_near k Hk) as E. pose proof (ot_bound _ _ _ _ _ _ Hone (naive + k * nano)) as Hb.
  rewrite E in *. destruct (Z.ltb_spec (W + k) T); [left | right]; split; done.
Qed.

Lemma near_offset_lookup u : Z.abs (u - W) <= 2 * 86400 ->
  Z.abs (zs_offset (tz_lookup loc u)) <= 86400
  /\ (zs_offset (tz_lookup loc u) = a \/ zs_offset (tz_lookup loc u) = b).
Proof.
  intros Hu. rewrite lookup_offset. pose proof (ot_bound _ _ _ _ _ _ Hone (u * nano)) as Hb.
  split; [done|]. pose proof Htod as (_ & _ & _ & _ & Hn).
  rewrite (ot_near _ _ _ _ _ _ Hone) by (unfold naive_time, nano; lia). case_match; auto.
Qed.

(** The probe is the wall clock shifted by one of the two offsets. *)
Lemma probe_offset : exists p, (p = a \/ p = b) /\ Z.abs p <= 86400
  /\ probe_time date tod loc = naive + (- p) * nano.
Proof.
  destruct (near_offset_lookup W ltac:(lia)) as [Hb Hab]. unfold probe_time, date_in.
  set (o := zs_offset (tz_lookup loc W)) in *.
  destruct (Z.eqb_spec o 0) as [E0|_].
  - exists o. split; [done|]. split; [done|]. unfold naive_time. lia.
  - case_match.
    + destruct (near_offset_lookup (W - o) ltac:(lia)) as [Hb' Hab'].
      eexists. split; [exact Hab'|]. split; [done|]. unfold naive_time. lia.
    + exists o. split; [done|]. split; [done|]. unfold naive_time. lia.
Qed.

(** The two offsets probed a day before and a day after. *)
Lemma probed_offsets : exists p, (p = a \/ p = b) /\ Z.abs p <= 86400
  /\ offset_at loc (probe_time date tod loc - 86400 * nano) = (if W - p - 86400 <? T then a else b)
  /\ offset_at loc (probe_time date tod loc + 86400 * nano) = (if W - p + 86400 <? T then a else b).
Proof.
  destruct probe_offset as (p & Hp & Hb & ->). exists p. split; [done|]. split; [done|].
  replace (naive + - p * nano - 86400 * nano) with (naive + (- p - 86400) * nano) by lia.
  replace (naive + - p * nano + 86400 * nano) with (naive + (- p + 86400) * nano) by lia.
  rewrite !offset_near by lia. rewrite <- !Z.add_opp_r, !Z.add_assoc. done.
Qed.

(** A time shows the wall clock exactly when it is the wall clock shifted by
    an offset in force there. *)
Lemma wall_times t : t + offset_at loc t * nano = naive <->
  (t = naive + (- a) * nano /\ W - a < T /\ Z.abs a <= 86400)
  \/ (t = naive + (- b) * nano /\ T <= W - b /\ Z.abs b <= 86400).
Proof.
  split.
  - intros E. pose proof (ot_bound _ _ _ _ _ _ Hone t) as Hb.
    assert (Et : t = naive + (- offset_at loc t) * nano) by lia.
    destruct (offset_in (- offset_at loc t) ltac:(lia)) as [(H1 & H2 & H3)|(H1 & H2 & H3)];
      rewrite <- Et in H2; [left | right]; rewrite H2 in *; split; lia.
  - intros [(-> & H1 & H2)|(-> & H1 & H2)].
    + destruct (offset_in (- a) ltac:(lia)) as [(_ & -> & _)|(? & _)]; lia.
    + destruct (offset_in (- b) ltac:(lia)) as [(? & _)|(_ & -> & _)]; lia.
Qed.

Definition is_wall (t : Z) : bool := sameWallClock loc t date tod.

Lemma is_wall_iff t : is_wall t = true <-> t + offset_at loc t * nano = naive.
Proof. exact (same_wall_clock loc t date tod Hdate Htod). Qed.

(** The candidates, before sorting: those of the probed offsets that show the
    wall clock are all the times that do. *)
Lemma candidate_offsets t :
  t + offset_at loc t * nano = naive ->
  In t (List.map (fun off => naive - off * nano)
          (dedupeOffsets (offset_at loc (probe_time date tod loc - 86400 * nano))
                         (offset_at loc (probe_time date tod loc + 86400 * nano)))).
Proof.
  intros Ht. apply wall_times in Ht. destruct probed_offsets as (p & Hp & Hb & -> & ->).
  pose proof (ot_step _ _ _ _ _ _ Hone) as Hs. unfold dedupeOffsets. apply in_map_iff.
  destruct Ht as [(-> & H1 & H2)|(-> & H1 & H2)]; [exists a | exists b]; (split; [lia|]);
    destruct (Z.ltb_spec (W - p - 86400) T), (Z.ltb_spec (W - p + 86400) T); case_match; cbn [In]; lia.
Qed.

Lemma resolve_members t : In t (resolveLocal date tod loc) <-> t + offset_at loc t * nano = naive.
Proof.
  rewrite <- is_wall_iff. unfold resolveLocal. cbv zeta.
  set (l := List.map _ _).
  assert (Hf : In t (List.filter (fun c => sameWallClock loc c date tod) l) <-> is_wall t = true).
  { rewrite filter_In. split; [by intros [_ E]|]. intros E. split; [|done].
    apply is_wall_iff in E. by apply candidate_offsets. }
  rewrite <- Hf. destruct (List.filter _ l) as [|x [|y [|]]]; try done. case_match; cbn [In]; tauto.
Qed.

Lemma resolve_ascending : match resolveLocal date tod loc with
  | [] | [_] => True | [x; y] => x < y | _ => False end.
Proof.
  unfold resolveLocal. cbv zeta. set (f := fun c => sameWallClock loc c date tod). unfold dedupeOffsets.
  generalize (offset_at loc (probe_time date tod loc - 86400 * nano)) as A.
  generalize (offset_at loc (probe_time date tod loc + 86400 * nano)) as B. intros B A.
  destruct (Z.eqb_spec A B) as [E|E]; cbn [List.map List.filter].
  - by destruct (f (naive - A * nano)).
  - destruct (f (naive - A * nano)), (f (naive - B * nano)); try done.
    destruct (Z.ltb_spec (naive - B * nano) (naive - A * nano)); unfold nano in *; lia.
Qed.

(** ** The transition of a gap *)

Lemma gap_shape : resolveLocal date tod loc = [] -> a < b /\ W - b < T /\ T <= W - a
  /\ Z.abs a <= 86400 /\ Z.abs b <= 86400.
Proof.
  intros E.
  assert (Hno : forall t, t + offset_at loc t * nano <> naive).
  { intros t Ht. apply resolve_members in Ht. by rewrite E in Ht. }
  assert (Ha : forall k, Z.abs k <= 86400 -> W + k < T -> k <> - a).
  { intros k Hk Hlt ->. apply (Hno (naive + - a * nano)). apply wall_times. left. lia. }
  assert (Hb : forall k, Z.abs k <= 86400 -> T <= W + k -> k <> - b).
  { intros k Hk Hlt ->. apply (Hno (naive + - b * nano)). apply wall_times. right. lia. }
  destruct probed_offsets as (p & Hp & Hpb & _).
  pose proof (ot_step _ _ _ _ _ _ Hone) as Hs.
  destruct (offset_in (- 2 * 86400) ltac:(lia)) as [(L1 & _ & L2)|(L1 & _ & L2)];
  destruct (offset_in (2 * 86400) ltac:(lia)) as [(R1 & _ & R2)|(R1 & _ & R2)].
  - exfalso. apply (Ha (- a)); lia.
  - destruct (Z.lt_ge_cases (W - a) T); [exfalso; apply (Ha (- a)); lia|].
    destruct (Z.lt_ge_cases (W - b) T); [lia|]. exfalso. apply (Hb (- b)); lia.
  - lia.
  - exfalso. apply (Hb (- b)); lia.
Qed.

(** The search keeps [lo] before the transition and [hi] at or after it, and
    ends with [hi] in the transition's own second. *)
Lemma gap_search_finds fuel lo hi :
  a <> b -> lo / nano < T <= hi / nano -> hi / nano - lo / nano < Z.of_nat fuel ->
  (forall t, lo <= t <= hi -> offset_at loc t = if t / nano <? T then a else b) ->
  exists t, gap_search fuel loc b lo hi = Some t /\ t / nano = T.
Proof.
  intros Hab. revert lo hi. induction fuel as [|f IH]; intros lo hi HT Hf Hoff; [lia|].
  cbn [gap_search]. set (mid := truncate_second (lo + (hi - lo) / 2)).
  assert (Hmid : mid = mid / nano * nano /\ mid / nano = (lo + (hi - lo) / 2) / nano).
  { unfold mid, truncate_second, nano. div_lia. }
  clearbody mid. destruct Hmid as [Hm1 Hm2].
  set (x := lo / nano) in *. set (y := hi / nano) in *. set (m := mid / nano) in *.
  assert (Hlo : x * nano <= lo < (x + 1) * nano) by (unfold x, nano; div_lia).
  assert (Hhi : y * nano <= hi < (y + 1) * nano) by (unfold y, nano; div_lia).
  assert (Hm : m * nano <= (lo + hi) / 2 < (m + 1) * nano).
  { rewrite Hm2. replace (lo + (hi - lo) / 2) with ((lo + hi) / 2) by div_lia. unfold nano. div_lia. }
  assert (Hm' : 2 * (m * nano) <= lo + hi < 2 * ((m + 1) * nano)) by div_lia. clear Hm.
  clearbody x y m. unfold nano in *.
  destruct (Z.ltb_spec 1000000000 (hi - lo)) as [Hw|Hw]; [|exists hi; split; [done | unfold nano; div_lia]].
  destruct (Z.leb_spec mid lo) as [Hml|Hml]; [exists hi; split; [done | unfold nano; div_lia]|].
  rewrite Hoff by lia. replace (mid / 1000000000) with m by div_lia.
  destruct (Z.ltb_spec m T) as [HmT|HmT].
  - rewrite (proj2 (Z.eqb_neq a b) Hab). apply IH; [unfold nano; div_lia.. | intros t Ht; apply Hoff; lia].
  - rewrite Z.eqb_refl. destruct (Z.eq_dec y (x + 1)) as [->|Hy].
    + destruct f as [|f]; [lia|]. exists mid. cbn [gap_search].
      unfold nano. replace (1000000000 <? mid - lo) with false by lia. split; [done | unfold nano; div_lia].
    + apply IH; [unfold nano; div_lia.. | intros t Ht; apply Hoff; lia].
Qed.

Lemma gap_transition_found : resolveLocal date tod loc = [] -> gapTransition date tod loc = Ok (T * nano).
Proof.
  intros Hgap. destruct (gap_shape Hgap) as (Hab & H1 & H2 & Ba & Bb). unfold gapTransition. cbv zeta.
  destruct probed_offsets as (p & Hp & Hpb & -> & ->). pose proof (ot_step _ _ _ _ _ _ Hone) as Hs.
  replace (W - p - 86400 <? T) with true by lia. replace (W - p + 86400 <? T) with false by lia.
  replace (a =? b) with false by lia.
  assert (Hlt : naive - b * nano < naive - a * nano) by (unfold nano; lia). rewrite (proj2 (Z.ltb_lt _ _) Hlt).
  assert (Ehi : offset_at loc (naive - a * nano) = b).
  { replace (naive - a * nano) with (naive + - a * nano) by lia. rewrite offset_near by lia.
    replace (W + - a <? T) with false by lia. done. }
  rewrite Ehi.
  assert (Dlo : (naive - b * nano) / nano = W - b).
  { replace (naive - b * nano) with (naive + - b * nano) by lia. by rewrite naive_div. }
  assert (Dhi : (naive - a * nano) / nano = W - a).
  { replace (naive - a * nano) with (naive + - a * nano) by lia. by rewrite naive_div. }
  destruct (gap_search_finds (gap_fuel (naive - b * nano) (naive - a * nano)) (naive - b * nano) (naive - a * nano))
    as (t & -> & Ht).
  - lia.
  - rewrite Dlo, Dhi. lia.
  - unfold gap_fuel. rewrite Dlo, Dhi. lia.
  - intros t Ht. apply (ot_near _ _ _ _ _ _ Hone). unfold nano in *. lia.
  - f_equal. unfold truncate_second. pose proof (Z.div_mod t nano). unfold nano in *. lia.
Qed.
End Near.

(** The instant of a time in nanoseconds. *)
Definition instant_of (t : Z) : Instant := mkInstant true (t / nano) (t mod nano).

(** The times at which the zone shows the requested wall clock. *)
Definition shows (loc : string) (date : LocalDate) (tod : LocalTime) (t : Z) : Prop :=
  t + offset_at loc t * nano = naive_time date tod.

Lemma resolve_list loc date tod T a b : date_ok date -> time_ok tod -> one_transition loc date tod T a b ->
  ((forall t, ~ shows loc date tod t) /\ resolveLocal date tod loc = [])
  \/ (exists t0, (forall t, shows loc date tod t <-> t = t0) /\ resolveLocal date tod loc = [t0])
  \/ (exists t0 t1, t0 < t1 /\ (forall t, shows loc date tod t <-> t = t0 \/ t = t1)
        /\ resolveLocal date tod loc = [t0; t1]).
Proof.
  intros Hd Ht Ho. pose proof (fun t => resolve_members loc date tod T a b Hd Ht Ho t) as Hm.
  pose proof (resolve_ascending loc date tod) as Hs. unfold shows.
  destruct (resolveLocal date tod loc) as [|x [|y [|]]]; try done.
  - left. split; [|done]. intros t E. by apply Hm in E.
  - right; left. exists x. split; [|done]. intros t. rewrite <- Hm. cbn [In]. intuition.
  - right; right. exists x, y. split; [done|]. split; [|done]. intros t. rewrite <- Hm. cbn [In]. intuition.
Qed.

Lemma NewZonedDateTime_eq date tod zone d :
  LocalDate_Validate date = Ok tt -> LocalTime_Validate tod = Ok tt -> ZoneRef_Validate zone = Ok tt ->
  In d [DisambiguationRejectGap; DisambiguationEarlier; DisambiguationLater] ->
  NewZonedDateTime date tod zone d =
  match resolveLocal date tod (z_ID zone) with
  | [c] => Ok (buildZoned date tod zone d c (z_ID zone))
  | [c0; c1] =>
      if bool_decide (d = DisambiguationRejectGap) then Err ErrDSTAmbiguous
      else Ok (buildZoned date tod zone d (if bool_decide (d = DisambiguationLater) then c1 else c0) (z_ID zone))
  | _ =>
      if bool_decide (d = DisambiguationRejectGap) then Err ErrDSTGap
      else transition ← gapTransition date tod (z_ID zone); Ok (buildZoned date tod zone d transition (z_ID zone))
  end.
Proof.
  intros Hd Ht Hz Hin. unfold NewZonedDateTime, ZoneRef_Location. rewrite Hd, Ht, Hz.
  by destruct Hin as [<-|[<-|[<-|[]]]].
Qed.

Lemma time_validate_ok v : LocalTime_Validate v = Ok tt <-> time_ok v.
Proof.
  rewrite <- LocalTime_is_ok, is_ok_true. split; [eauto|]. by intros [[] ?].
Qed.
End Location.

(** * Timers *)

(** [ReferenceUpdatePolicy] is a [uint8]; [ReferenceUpdateUndeclared b] is any
    value past the declared constants. *)
Inductive ReferenceUpdatePolicy : Type :=
  | ReferenceUpdateUnspecified | ReferenceUpdatePin | ReferenceUpdateRecalculate
  | ReferenceUpdateReviewRequired | ReferenceUpdateUndeclared (b : Z).

#[export] Instance ReferenceUpdatePolicy_eq_dec : EqDecision ReferenceUpdatePolicy.
Proof. solve_decision. Defined.

Inductive timer_err : Type :=
  | TimerValue (e : time_err)
  | ErrReferenceUpdatePolicyRequired | ErrReferenceUpdatePolicy
  | ErrDatasetVersionRequired | ErrResolverRequired
  | ResolverFailed (message : string).

Definition referenceUpdateWire : list (ReferenceUpdatePolicy * string) :=
  [(ReferenceUpdatePin, "PIN"); (ReferenceUpdateRecalculate, "RECALCULATE");
   (ReferenceUpdateReviewRequired, "REVIEW_REQUIRED")].

Definition ReferenceUpdatePolicy_Valid (p : ReferenceUpdatePolicy) : bool :=
  match List.find (fun kv => bool_decide (kv.1 = p)) referenceUpdateWire with Some _ => true | None => false end.

Definition ParseReferenceUpdatePolicy (token : string) : outcome timer_err ReferenceUpdatePolicy :=
  match List.find (fun kv => bool_decide (kv.2 = token)) referenceUpdateWire with
  | Some kv => Ok kv.1
  | None => Err ErrReferenceUpdatePolicy
  end.

Record DatasetVersions : Type := mkDataset { ds_TzdbVersion : string; ds_CalendarVersion : string }.

#[export] Instance DatasetVersions_eq_dec : EqDecision DatasetVersions.
Proof. solve_decision. Defined.

Definition DatasetVersions_Validate (d : DatasetVersions) : outcome timer_err unit :=
  _ ← fail_if (bool_decide (ds_TzdbVersion d = "")) ErrDatasetVersionRequired;
  fail_if (bool_decide (ds_CalendarVersion d = "")) ErrDatasetVersionRequired.

Record TimerReference : Type := mkTimerReference {
  tr_Zone : ZoneRef; tr_Calendar : CalendarRef; tr_Policy : ReferenceUpdatePolicy
}.

Definition TimerReference_Validate `{Tzdb} (r : TimerReference) : outcome timer_err unit :=
  _ ← map_err TimerValue (ZoneRef_Validate (tr_Zone r));
  _ ← map_err TimerValue (CalendarRef_Validate (tr_Calendar r));
  _ ← fail_if (bool_decide (tr_Policy r = ReferenceUpdateUnspecified)) ErrReferenceUpdatePolicyRequired;
  fail_if (negb (ReferenceUpdatePolicy_Valid (tr_Policy r))) ErrReferenceUpdatePolicy.

Definition TimerReference_HistoricalDataset (r : TimerReference) : DatasetVersions :=
  mkDataset (z_TzdbVersion (tr_Zone r)) (c_Version (tr_Calendar r)).

(** A resolver returns an instant or an error with its message. *)
Definition TimerResolver : Type := DatasetVersions -> outcome string Instant.

Record TimerReplayEvidence : Type := mkEvidence {
  ev_Zone : ZoneRef;
  ev_Calendar : CalendarRef;
  ev_Policy : ReferenceUpdatePolicy;
  ev_HistoricalDataset : DatasetVersions;
  ev_CurrentDataset : DatasetVersions;
  ev_Pinned : Instant;
  ev_Recomputed : Instant;
  ev_RecomputeError : string;
  ev_Effective : Instant;
  ev_DatasetChanged : bool;
  ev_WouldChange : bool;
  ev_ReviewRequired : bool
}.

Record TimerReplayOutcome : Type := mkReplay {
  ro_Policy : ReferenceUpdatePolicy;
  ro_Effective : Instant;
  ro_DatasetChanged : bool;
  ro_WouldChange : bool;
  ro_ReviewRequired : bool;
  ro_Evidence : TimerReplayEvidence
}.

(** What the policy switch leaves in [effective] and in the evidence fields
    [Recomputed], [RecomputeError], [WouldChange] and [ReviewRequired]. *)
Record ReplayDecision : Type := mkDecision {
  rd_effective : Instant; rd_recomputed : Instant; rd_error : string;
  rd_wouldChange : bool; rd_review : bool
}.

Definition replay_policy (policy : ReferenceUpdatePolicy) (pinned : Instant)
    (historical current : DatasetVersions) (resolve : TimerResolver) : outcome timer_err ReplayDecision :=
  let changed (recomputed : Instant) := negb (Instant_Compare recomputed pinned =? 0) in
  match policy with
  | ReferenceUpdatePin =>
      historicalDue ← map_err ResolverFailed (resolve historical);
      _ ← map_err TimerValue (Instant_Validate historicalDue);
      match resolve current with
      | Ok recomputed => Ok (mkDecision historicalDue recomputed "" (changed recomputed) false)
      | Err e => Ok (mkDecision historicalDue Instant_zero_value e false false)
      | Panic => Panic
      end
  | ReferenceUpdateRecalculate =>
      recomputed ← map_err ResolverFailed (resolve current);
      _ ← map_err TimerValue (Instant_Validate recomputed);
      Ok (mkDecision recomputed recomputed "" (changed recomputed) false)
  | _ =>
      match resolve current with
      | Ok recomputed => Ok (mkDecision pinned recomputed "" (changed recomputed) (changed recomputed))
      | Err e => Ok (mkDecision pinned Instant_zero_value e false true)
      | Panic => Panic
      end
  end.

Definition ReplayTimer `{Tzdb} (ref : TimerReference) (pinned : Instant) (current : DatasetVersions)
    (resolve : option TimerResolver) : outcome timer_err TimerReplayOutcome :=
  _ ← TimerReference_Validate ref;
  _ ← map_err TimerValue (Instant_Validate pinned);
  _ ← DatasetVersions_Validate current;
  match resolve with
  | None => Err ErrResolverRequired
  | Some resolve =>
      let historical := TimerReference_HistoricalDataset ref in
      _ ← DatasetVersions_Validate historical;
      d ← replay_policy (tr_Policy ref) pinned historical current resolve;
      let changed := negb (bool_decide (historical = current)) in
      let evidence := mkEvidence (tr_Zone ref) (tr_Calendar ref) (tr_Policy ref) historical current pinned
        (rd_recomputed d) (rd_error d) (rd_effective d) changed (rd_wouldChange d) (rd_review d) in
      Ok (mkReplay (tr_Policy ref) (rd_effective d) changed (rd_wouldChange d) (rd_review d) evidence)
  end.

Definition tagTimerReference : Z := 10.
Definition tagTimerEvidence : Z := 11.

Definition ReferenceUpdatePolicy_byte (p : ReferenceUpdatePolicy) : Z :=
  match p with
  | ReferenceUpdateUnspecified => 0 | ReferenceUpdatePin => 1 | ReferenceUpdateRecalculate => 2
  | ReferenceUpdateReviewRequired => 3 | ReferenceUpdateUndeclared b => b
  end.

Definition boolByte (b : bool) : Z := if b then 1 else 0.

Definition appendOptionalInstant (dst : list Z) (i : Instant) : list Z :=
  let canon := canonical_bytes (Instant_Canonical i) in
  dst ++ be_bytes 4 (to_uint32 (Z.of_nat (length canon))) ++ canon.

Definition TimerReference_Canonical `{Tzdb} (r : TimerReference) : option (list Z) :=
  if is_ok (TimerReference_Validate r) then
    let out := appendLengthPrefixed [tagTimerReference] (z_ID (tr_Zone r)) in
    let out := appendLengthPrefixed out (z_TzdbVersion (tr_Zone r)) in
    let out := appendLengthPrefixed out (c_Ref (tr_Calendar r)) in
    let out := appendLengthPrefixed out (c_Version (tr_Calendar r)) in
    Some (out ++ [ReferenceUpdatePolicy_byte (tr_Policy r)])
  else None.

Definition TimerReplayEvidence_Canonical (e : TimerReplayEvidence) : list Z :=
  let out := appendLengthPrefixed [tagTimerEvidence] (z_ID (ev_Zone e)) in
  let out := appendLengthPrefixed out (z_TzdbVersion (ev_Zone e)) in
  let out := appendLengthPrefixed out (c_Ref (ev_Calendar e)) in
  let out := appendLengthPrefixed out (c_Version (ev_Calendar e)) in
  let out := out ++ [ReferenceUpdatePolicy_byte (ev_Policy e)] in
  let out := appendLengthPrefixed out (ds_TzdbVersion (ev_HistoricalDataset e)) in
  let out := appendLengthPrefixed out (ds_CalendarVersion (ev_HistoricalDataset e)) in
  let out := appendLengthPrefixed out (ds_TzdbVersion (ev_CurrentDataset e)) in
  let out := appendLengthPrefixed out (ds_CalendarVersion (ev_CurrentDataset e)) in
  let out := appendOptionalInstant out (ev_Pinned e) in
  let out := appendOptionalInstant out (ev_Recomputed e) in
  let out := appendOptionalInstant out (ev_Effective e) in
  let out := appendLengthPrefixed out (ev_RecomputeError e) in
  out ++ [boolByte (ev_DatasetChanged e); boolByte (ev_WouldChange e); boolByte (ev_ReviewRequired e)].

(** ** Evidence bytes *)

Definition optional_instant (i : Instant) : list Z :=
  be_bytes 4 (to_uint32 (Z.of_nat (length (canonical_bytes (Instant_Canonical i)))))
  ++ canonical_bytes (Instant_Canonical i).

(** An instant field of the evidence is a 64-bit instant, or unset. *)
Definition evidence_instant (i : Instant) : Prop := i = Instant_zero_value \/ instant_ok i.

Lemma optional_instant_inj i j r r' : evidence_instant i -> evidence_instant j ->
  optional_instant i ++ r = optional_instant j ++ r' -> i = j /\ r = r'.
Proof.
  intros Hi Hj. unfold optional_instant. rewrite <- !app_assoc. intros E.
  apply app_inj_1 in E as [E1 E]; [|by rewrite !be_bytes_length].
  assert (Hlen : forall k, evidence_instant k ->
    length (canonical_bytes (Instant_Canonical k)) = (if i_set k then 13%nat else 0%nat)).
  { intros k [->|Hk]; [done|]. rewrite (proj2 (instant_bytes k (instant_ok_valid k Hk))).
    by destruct Hk as (-> & _). }
  apply be_bytes_inj in E1; [|apply Z.mod_pos_bound; lia..].
  rewrite (Hlen i Hi), (Hlen j Hj) in E1.
  assert (Es : i_set i = i_set j) by (destruct (i_set i), (i_set j); done).
  apply app_inj_1 in E as [E2 ->]; [|by rewrite (Hlen i Hi), (Hlen j Hj), Es]. split; [|done].
  destruct Hi as [->|Hi], Hj as [->|Hj]; [done | by destruct Hj as (? & _); cbn in *; congruence
    | by destruct Hi as (? & _); cbn in *; congruence |].
  apply instant_bytes_inj; [apply Hi | apply Hj | by apply instant_ok_valid.. | done].
Qed.

Definition dataset_small (d : DatasetVersions) : Prop :=
  len (ds_TzdbVersion d) < 2 ^ 32 /\ len (ds_CalendarVersion d) < 2 ^ 32.

Definition evidence_sized (e : TimerReplayEvidence) : Prop :=
  zone_small (ev_Zone e) /\ ref_small (ev_Calendar e) /\ dataset_small (ev_HistoricalDataset e)
  /\ dataset_small (ev_CurrentDataset e) /\ len (ev_RecomputeError e) < 2 ^ 32
  /\ evidence_instant (ev_Pinned e) /\ evidence_instant (ev_Recomputed e) /\ evidence_instant (ev_Effective e)
  /\ ReferenceUpdatePolicy_Valid (ev_Policy e) = true.

Lemma boolByte_inj x y : boolByte x = boolByte y -> x = y.
Proof. by destruct x, y. Qed.

Lemma policy_byte_inj p q : ReferenceUpdatePolicy_Valid p = true -> ReferenceUpdatePolicy_Valid q = true ->
  ReferenceUpdatePolicy_byte p = ReferenceUpdatePolicy_byte q -> p = q.
Proof. by destruct p, q. Qed.

Lemma evidence_bytes_inj e e' : evidence_sized e -> evidence_sized e' ->
  TimerReplayEvidence_Canonical e = TimerReplayEvidence_Canonical e' -> e = e'.
Proof.
  intros ([Z1 Z2] & [C1 C2] & [D1 D2] & [D3 D4] & L & I1 & I2 & I3 & P)
         ([Z1' Z2'] & [C1' C2'] & [D1' D2'] & [D3' D4'] & L' & I1' & I2' & I3' & P').
  unfold TimerReplayEvidence_Canonical, appendOptionalInstant. cbv zeta.
  fold (optional_instant (ev_Pinned e)) (optional_instant (ev_Recomputed e)) (optional_instant (ev_Effective e)).
  fold (optional_instant (ev_Pinned e')) (optional_instant (ev_Recomputed e')) (optional_instant (ev_Effective e')).
  rewrite !appendLengthPrefixed_eq, <- !app_assoc. cbn [app]. intros E. apply cons_eq_inv in E as [_ E].
  do 4 (apply length_prefixed_inj in E as [? E]; [|done..]). apply cons_eq_inv in E as [Ep E].
  do 4 (apply length_prefixed_inj in E as [? E]; [|done..]).
  do 3 (apply optional_instant_inj in E as [? E]; [|done..]).
  apply length_prefixed_inj in E as [? E]; [|done..].
  apply cons_eq_inv in E as [E1 E]. apply cons_eq_inv in E as [E2 E]. apply cons_eq_inv in E as [E3 _].
  apply boolByte_inj in E1, E2, E3. apply policy_byte_inj in Ep; [|done..].
  destruct e as [[] [] ? [] [] ? ? ? ? ? ? ?], e' as [[] [] ? [] [] ? ? ? ? ? ? ?]; cbn in *. by subst.
Qed.

(** ** Replay decisions *)

Lemma replay_inv `{Tzdb} ref pinned current resolve out :
  ReplayTimer ref pinned current (Some resolve) = Ok out ->
  Instant_Validate pinned = Ok tt /\ ReferenceUpdatePolicy_Valid (tr_Policy ref) = true
  /\ exists d, replay_policy (tr_Policy ref) pinned (TimerReference_HistoricalDataset ref) current resolve = Ok d
     /\ ro_Effective out = rd_effective d /\ ro_WouldChange out = rd_wouldChange d
     /\ ro_ReviewRequired out = rd_review d.
Proof.
  unfold ReplayTimer, TimerReference_Validate. intros E. ok_inv. subst. rewrite negb_false_iff in *.
  split; [by destruct (Instant_Validate pinned) as [[]| |]|]. split; [done|].
  eexists. by repeat split.
Qed.

(** The zone of New York around the change of 10 March 2024, and around that
    of 3 November 2024. *)
Definition new_york (T before after : Z) : Tzdb := {|
  LoadLocation := fun id => bool_decide (id = "America/New_York");
  tz_lookup := fun _ u => if u <? T then mkZoneSpan before min_int64 T else mkZoneSpan after T max_int64
|}.
Definition spring : Tzdb := new_york 1710054000 (-18000) (-14400).
Definition autumn : Tzdb := new_york 1730613600 (-14400) (-18000).
Definition ny : ZoneRef := mkZoneRef "America/New_York" "2024a".
Definition gap_date : LocalDate := mkLocalDate true 2024 3 10.
Definition fold_date : LocalDate := mkLocalDate true 2024 11 3.
Definition half_past (h : Z) : LocalTime := mkLocalTime true h 30 0 0.

Lemma new_york_transition loc date tod T a b : Z.abs a <= 86400 -> Z.abs b <= 86400 -> Z.abs (a - b) <= 86400 ->
  @one_transition (new_york T a b) loc date tod T a b.
Proof.
  intros Ha Hb Hab. split; [| |done].
  - intros t. unfold offset_at. cbn [tz_lookup new_york]. by case_match.
  - intros t _. unfold offset_at. cbn [tz_lookup new_york]. by case_match.
Qed.

Lemma spring_transition loc date tod : @one_transition spring loc date tod 1710054000 (-18000) (-14400).
Proof. apply new_york_transition; lia. Qed.

Lemma autumn_transition loc date tod : @one_transition autumn loc date tod 1730613600 (-14400) (-18000).
Proof. apply new_york_transition; lia. Qed.

(** * Properties *)

(** around at most one change of offset (offsets within a day, nothing
    else changing for three days either side), [resolveLocal] returns, in
    ascending order and without repetition, exactly the UTC times at which the
    zone's clock shows the requested date and time: none in a gap, two in a
    fold, one otherwise. *)
Theorem resolve_local_complete `{Tzdb} (loc : string) (date : LocalDate) (tod : LocalTime) (T a b : Z) :
  LocalDate_Validate date = Ok tt -> LocalTime_Validate tod = Ok tt -> one_transition loc date tod T a b ->
  (forall t, In t (resolveLocal date tod loc) <-> t + offset_at loc t * nano = naive_time date tod)
  /\ match resolveLocal date tod loc with [] | [_] => True | [x; y] => x < y | _ => False end.
Proof.
  rewrite LocalDate_Validate_ok, time_validate_ok. intros Hd Ht Ho. split; [|apply resolve_ascending].
  intros t. by apply (resolve_members loc date tod T a b).
Qed.

Lemma resolve_local_complete_witness :
  @resolveLocal autumn fold_date (half_past 1) "America/New_York" = [1730611800 * nano; 1730615400 * nano]
  /\ forall t, In t (@resolveLocal autumn fold_date (half_past 1) "America/New_York") <->
       t + @offset_at autumn "America/New_York" t * nano = naive_time fold_date (half_past 1).
Proof.
  split; [vm_compute; reflexivity|].
  destruct (@resolve_local_complete autumn "America/New_York" fold_date (half_past 1) 1730613600 (-14400) (-18000)
    ltac:(reflexivity) ltac:(reflexivity) (autumn_transition "America/New_York" fold_date (half_past 1))) as [Hw _].
  exact Hw.
Defined.

(** under the same hypothesis [NewZonedDateTime] resolves a local time by
    its policy: the only time that shows the wall clock under every policy; in
    a fold the earlier time for EARLIER, the later for LATER and
    [ErrDSTAmbiguous] for REJECT_GAP; in a gap [ErrDSTGap] for REJECT_GAP, and
    for both EARLIER and LATER the exact second of the transition, found by
    the search in [gapTransition] within its fuel, with the offset in force
    from then on (EARLIER records the same offset as LATER). *)
Theorem zoned_by_policy `{Tzdb} (zone : ZoneRef) (date : LocalDate) (tod : LocalTime) (T a b : Z) :
  LocalDate_Validate date = Ok tt -> LocalTime_Validate tod = Ok tt -> ZoneRef_Validate zone = Ok tt ->
  one_transition (z_ID zone) date tod T a b ->
  let z d t := buildZoned date tod zone d t (z_ID zone) in
  ((forall t, ~ shows (z_ID zone) date tod t)
    /\ NewZonedDateTime date tod zone DisambiguationRejectGap = Err ErrDSTGap
    /\ forall d, d = DisambiguationEarlier \/ d = DisambiguationLater ->
       NewZonedDateTime date tod zone d = Ok (z d (T * nano))
       /\ zd_instant (z d (T * nano)) = mkInstant true T 0 /\ zd_offsetSeconds (z d (T * nano)) = b)
  \/ (exists t0, (forall t, shows (z_ID zone) date tod t <-> t = t0)
      /\ forall d, In d [DisambiguationRejectGap; DisambiguationEarlier; DisambiguationLater] ->
         NewZonedDateTime date tod zone d = Ok (z d t0) /\ zd_instant (z d t0) = instant_of t0)
  \/ (exists t0 t1, t0 < t1 /\ (forall t, shows (z_ID zone) date tod t <-> t = t0 \/ t = t1)
      /\ NewZonedDateTime date tod zone DisambiguationRejectGap = Err ErrDSTAmbiguous
      /\ NewZonedDateTime date tod zone DisambiguationEarlier = Ok (z DisambiguationEarlier t0)
      /\ NewZonedDateTime date tod zone DisambiguationLater = Ok (z DisambiguationLater t1)).
Proof.
  intros Vd Vt Vz Ho z. pose proof (proj1 (LocalDate_Validate_ok _) Vd) as Hd.
  pose proof (proj1 (time_validate_ok _) Vt) as Ht. pose proof (NewZonedDateTime_eq date tod zone) as Heq.
  destruct (resolve_list (z_ID zone) date tod T a b Hd Ht Ho) as [[Hn E]|[(t0 & Hn & E)|(t0 & t1 & Hlt & Hn & E)]].
  - left. split; [done|]. rewrite E in Heq. split; [by rewrite Heq by (try done; cbn; intuition auto)|]. intros d Hin.
    pose proof (gap_transition_found _ _ _ _ _ _ Hd Ht Ho E) as Hg.
    destruct (gap_shape _ _ _ _ _ _ Hd Ht Ho E) as (Hab & H1 & H2 & Ba & Bb).
    assert (Eoff : offset_at (z_ID zone) (T * nano) = b).
    { rewrite (ot_near _ _ _ _ _ _ Ho).
      - rewrite Z.div_mul by done. by rewrite Z.ltb_irrefl.
      - unfold naive_time, nano. destruct Ht as (_ & _ & _ & _ & Hn'). lia. }
    split; [|split].
    + rewrite Heq by (try done; cbn; intuition auto). rewrite Hg. destruct Hin as [-> | ->]; done.
    + cbn [zd_instant z buildZoned]. unfold z, buildZoned, NewInstant. cbn [zd_instant t_unix t_nanosecond].
      by rewrite Z.div_mul, Z.mod_mul by done.
    + unfold z, buildZoned. cbn [zd_offsetSeconds]. rewrite Eoff. apply to_int32_small. lia.
  - right; left. exists t0. split; [done|]. rewrite E in Heq. intros d Hin. by rewrite Heq.
  - right; right. exists t0, t1. rewrite E in Heq. split; [done|]. split; [done|].
    by rewrite !Heq by (try done; cbn; intuition auto).
Qed.

Lemma zoned_by_policy_witness :
  @NewZonedDateTime spring gap_date (half_past 2) ny DisambiguationEarlier
  = Ok (mkZoned true gap_date (half_past 2) ny DisambiguationEarlier (-14400) (mkInstant true 1710054000 0)).
Proof.
  assert (Hr : @NewZonedDateTime spring gap_date (half_past 2) ny DisambiguationRejectGap = Err ErrDSTGap)
    by (vm_compute; reflexivity).
  destruct (@zoned_by_policy spring ny gap_date (half_past 2) 1710054000 (-18000) (-14400) 
    ltac:(reflexivity) ltac:(reflexivity) ltac:(reflexivity) (spring_transition "America/New_York" gap_date (half_past 2)))
    as [(_ & _ & Hp)|[(t0 & Ht & Hp)|(t0 & t1 & _ & Ht & Hp & _)]].
  - destruct (Hp DisambiguationEarlier (or_introl eq_refl)) as (E & _).
    etransitivity; [exact E | vm_compute; reflexivity].
  - destruct (Hp DisambiguationRejectGap (or_introl eq_refl)) as [E _]. rewrite Hr in E. discriminate E.
  - rewrite Hr in Hp. discriminate Hp.
Defined.

(** [NewZonedDateTimeAtOffset] accepts an offset exactly when the zone uses
    it at some time that shows the requested wall clock, and the value it
    builds is that time with that offset. *)
Theorem zoned_at_offset_sound `{Tzdb} (zone : ZoneRef) (date : LocalDate) (tod : LocalTime) (T a b off : Z) :
  LocalDate_Validate date = Ok tt -> LocalTime_Validate tod = Ok tt -> ZoneRef_Validate zone = Ok tt ->
  one_transition (z_ID zone) date tod T a b ->
  match NewZonedDateTimeAtOffset date tod zone off with
  | Ok z => exists t, shows (z_ID zone) date tod t /\ offset_at (z_ID zone) t = off
      /\ zd_instant z = instant_of t /\ zd_offsetSeconds z = off
      /\ zd_disambiguation z = DisambiguationExplicitOffset
  | Err e => e = ErrOffsetNotValid /\ forall t, shows (z_ID zone) date tod t -> offset_at (z_ID zone) t <> off
  | Panic => False
  end.
Proof.
  intros Vd Vt Vz Ho. pose proof (proj1 (LocalDate_Validate_ok _) Vd) as Hd.
  pose proof (proj1 (time_validate_ok _) Vt) as Ht. unfold NewZonedDateTimeAtOffset, ZoneRef_Location.
  rewrite Vd, Vt, Vz. cbn [mbind outcome_bind].
  pose proof (fun t => resolve_members _ _ _ _ _ _ Hd Ht Ho t) as Hm.
  destruct (List.find _ _) as [c|] eqn:E.
  - apply find_some in E as [Hin E]. apply Hm in Hin. apply Z.eqb_eq in E. exists c.
    repeat split; [done | done |]. cbn [buildZoned zd_offsetSeconds]. rewrite E.
    apply to_int32_small. pose proof (ot_bound _ _ _ _ _ _ Ho c). lia.
  - split; [done|]. intros t Hs Hoff. apply Hm in Hs. pose proof (find_none _ _ E t Hs) as Hf. cbn in Hf. lia.
Qed.

Lemma zoned_at_offset_sound_witness :
  exists z, @NewZonedDateTimeAtOffset autumn fold_date (half_past 1) ny (-18000) = Ok z
    /\ zd_offsetSeconds z = -18000.
Proof.
  pose proof (@zoned_at_offset_sound autumn ny fold_date (half_past 1) 1730613600 (-14400) (-18000) (-18000)
    eq_refl ltac:(reflexivity) ltac:(reflexivity)
    (autumn_transition "America/New_York" fold_date (half_past 1))) as Hw.
  destruct (@NewZonedDateTimeAtOffset autumn fold_date (half_past 1) ny (-18000)) as [z| |] eqn:E;
    [|vm_compute in E; discriminate E..].
  exists z. split; [reflexivity|]. destruct Hw as (t & _ & _ & _ & Hoff & _). exact Hoff.
Defined.

(** What a replay decides, by policy.  Under REVIEW_REQUIRED the pinned
    deadline always stands, and the timer is flagged exactly when the current
    dataset gives another instant or none.  Under RECALCULATE the deadline is
    what the current dataset gives.  Under PIN it is what the historical
    dataset gives, whatever the current dataset does, and no review is asked
    for; when the historical dataset reproduces the pinned deadline it
    therefore stands.  Every effective deadline is a valid instant. *)
Theorem replay_timer_policy `{Tzdb} (ref : TimerReference) (pinned : Instant) (current : DatasetVersions)
    (resolve : TimerResolver) (out : TimerReplayOutcome) :
  ReplayTimer ref pinned current (Some resolve) = Ok out ->
  Instant_Validate (ro_Effective out) = Ok tt /\
  match tr_Policy ref with
  | ReferenceUpdateReviewRequired =>
      ro_Effective out = pinned
      /\ (ro_ReviewRequired out = true <->
          match resolve current with Ok i => Instant_Compare i pinned <> 0 | _ => True end)
  | ReferenceUpdateRecalculate => resolve current = Ok (ro_Effective out) /\ ro_ReviewRequired out = false
  | ReferenceUpdatePin =>
      resolve (TimerReference_HistoricalDataset ref) = Ok (ro_Effective out) /\ ro_ReviewRequired out = false
  | _ => False
  end.
Proof.
  intros E. apply replay_inv in E as (Hp & Hv & d & E & -> & _ & ->). unfold replay_policy in E.
  assert (Hval : forall i u, map_err TimerValue (Instant_Validate i) = Ok u -> Instant_Validate i = Ok tt).
  { intros i u Hi. destruct (Instant_Validate i) as [[]| |]; done. }
  destruct (tr_Policy ref); try done.
  - ok_inv. destruct (resolve (TimerReference_HistoricalDataset ref)) as [i| |]; try done.
    injection Hok as <-. repeat case_match; ok_inv; subst; cbn [rd_effective rd_review]; eauto.
  - ok_inv. subst. destruct (resolve current) as [i| |]; try done. injection Hok as <-.
    cbn [rd_effective rd_review]. eauto.
  - destruct (resolve current) as [i|e|]; ok_inv; subst; cbn [rd_effective rd_review]; (split; [done|]; split; [done|]).
    + rewrite negb_true_iff, Z.eqb_neq. done.
    + done.
Qed.

Definition review_timer : outcome timer_err TimerReplayOutcome :=
  @ReplayTimer spring (mkTimerReference ny (mkCalendarRef "us" "1") ReferenceUpdateReviewRequired)
    (mkInstant true 100 0) (mkDataset "2024b" "2") (Some (fun _ => Ok (mkInstant true 200 0))).

Lemma replay_timer_policy_witness :
  exists out, review_timer = Ok out /\ ro_Effective out = mkInstant true 100 0.
Proof.
  destruct review_timer as [out| |] eqn:E; [|vm_compute in E; discriminate E..].
  exists out. split; [reflexivity|]. exact (proj1 (proj2 (replay_timer_policy _ _ _ _ out E))).
Defined.

(** the evidence bytes of a replay determine the evidence: zone, calendar,
    policy, both datasets, the three instants, the error text and the flags
    (strings shorter than 2^32 bytes, instants unset or within 64 bits). *)
Theorem timer_evidence_injective (e e' : TimerReplayEvidence) :
  evidence_sized e -> evidence_sized e' ->
  TimerReplayEvidence_Canonical e = TimerReplayEvidence_Canonical e' -> e = e'.
Proof. apply evidence_bytes_inj. Qed.

Definition sample_evidence : TimerReplayEvidence :=
  mkEvidence ny (mkCalendarRef "us" "1") ReferenceUpdatePin (mkDataset "2024a" "1") (mkDataset "2024b" "1")
    (mkInstant true 100 0) Instant_zero_value "no data" (mkInstant true 100 0) true false false.

Lemma timer_evidence_injective_witness :
  evidence_sized sample_evidence /\ sample_evidence = sample_evidence.
Proof.
  assert (Hs : evidence_sized sample_evidence).
  { repeat split; try reflexivity; [right | left; reflexivity | right]; repeat split; vm_compute; discriminate. }
  split; [exact Hs | exact (timer_evidence_injective sample_evidence sample_evidence Hs Hs eq_refl)].
Defined.

(** Under PIN a resolver that no longer reproduces the pinned instant moves the
    deadline, with neither [WouldChange] nor [ReviewRequired] set. *)
Lemma pin_moves_deadline :
  exists out, @ReplayTimer spring (mkTimerReference ny (mkCalendarRef "us" "1") ReferenceUpdatePin)
    (mkInstant true 100 0) (mkDataset "2024b" "1")
    (Some (fun d => Ok (mkInstant true (if bool_decide (ds_TzdbVersion d = "2024a") then 200 else 100) 0))) = Ok out
  /\ ro_Effective out = mkInstant true 200 0 /\ ro_WouldChange out = false /\ ro_ReviewRequired out = false.
Proof. eexists. split; [reflexivity | done]. Qed.
