(* ===== verification/LifecycleRules.v ===== *)
(** The five lifecycle dimensions of an intent and the six legality rules:
    [internal/intent/lifecycle/dimensions.go] and [rules.go]. *)

From S2P Require Import Prelude.

Local Open Scope Z_scope.

(** * Dimensions *)

Definition StateID : Type := string.
Definition Dimension : Type := string.

Definition DimensionRequest : Dimension := "RequestState".
Definition DimensionExecution : Dimension := "ExecutionState".
Definition DimensionBusiness : Dimension := "BusinessState".
Definition DimensionConsistency : Dimension := "ConsistencyState".
Definition DimensionObligation : Dimension := "ObligationState".

Definition AllDimensions : list Dimension :=
  [DimensionRequest; DimensionExecution; DimensionBusiness; DimensionConsistency; DimensionObligation].

(** Each state type is a [uint8]; the last constructor is any value outside
    the declared set. *)
Inductive RequestState : Type :=
  | RequestUnspecified | RequestDraft | RequestPreflighted | RequestSimulated | RequestSubmitted
  | RequestApproved | RequestRejected | RequestWithdrawn | RequestCancelled | RequestSuperseded
  | RequestClosed | RequestReopened | RequestUndeclared (v : Z).
Inductive ExecutionState : Type :=
  | ExecutionUnspecified | ExecutionNotPlanned | ExecutionScheduled | ExecutionRevalidating
  | ExecutionExecuting | ExecutionCommitted | ExecutionBlocked | ExecutionRepairRequired
  | ExecutionUndeclared (v : Z).
Inductive BusinessState : Type :=
  | BusinessUnspecified | BusinessNotStarted | BusinessInProgress | BusinessCompleted
  | BusinessNotAchieved | BusinessCorrected | BusinessUnknown | BusinessUndeclared (v : Z).
Inductive ConsistencyState : Type :=
  | ConsistencyUnspecified | ConsistencyNotApplicable | ConsistencyPendingObservation
  | ConsistencyConsistent | ConsistencyDegraded | ConsistencyRepairing | ConsistencyUnknown
  | ConsistencyUndeclared (v : Z).
Inductive ObligationState : Type :=
  | ObligationUnspecified | ObligationNotApplicable | ObligationPending | ObligationSatisfied
  | ObligationOverdue | ObligationWaived | ObligationUnknown | ObligationUndeclared (v : Z).

#[export] Instance RequestState_eq_dec : EqDecision RequestState.
Proof. solve_decision. Defined.
#[export] Instance ExecutionState_eq_dec : EqDecision ExecutionState.
Proof. solve_decision. Defined.
#[export] Instance BusinessState_eq_dec : EqDecision BusinessState.
Proof. solve_decision. Defined.
#[export] Instance ConsistencyState_eq_dec : EqDecision ConsistencyState.
Proof. solve_decision. Defined.
#[export] Instance ObligationState_eq_dec : EqDecision ObligationState.
Proof. solve_decision. Defined.

Definition requestNames : list (RequestState * StateID) :=
  [(RequestUnspecified, "UNSPECIFIED"); (RequestDraft, "DRAFT"); (RequestPreflighted, "PREFLIGHTED");
   (RequestSimulated, "SIMULATED"); (RequestSubmitted, "SUBMITTED"); (RequestApproved, "APPROVED");
   (RequestRejected, "REJECTED"); (RequestWithdrawn, "WITHDRAWN"); (RequestCancelled, "CANCELLED");
   (RequestSuperseded, "SUPERSEDED"); (RequestClosed, "CLOSED"); (RequestReopened, "REOPENED")].
Definition executionNames : list (ExecutionState * StateID) :=
  [(ExecutionUnspecified, "UNSPECIFIED"); (ExecutionNotPlanned, "NOT_PLANNED");
   (ExecutionScheduled, "SCHEDULED"); (ExecutionRevalidating, "REVALIDATING");
   (ExecutionExecuting, "EXECUTING"); (ExecutionCommitted, "COMMITTED"); (ExecutionBlocked, "BLOCKED");
   (ExecutionRepairRequired, "REPAIR_REQUIRED")].
Definition businessNames : list (BusinessState * StateID) :=
  [(BusinessUnspecified, "UNSPECIFIED"); (BusinessNotStarted, "NOT_STARTED");
   (BusinessInProgress, "IN_PROGRESS"); (BusinessCompleted, "COMPLETED");
   (BusinessNotAchieved, "NOT_ACHIEVED"); (BusinessCorrected, "CORRECTED"); (BusinessUnknown, "UNKNOWN")].
Definition consistencyNames : list (ConsistencyState * StateID) :=
  [(ConsistencyUnspecified, "UNSPECIFIED"); (ConsistencyNotApplicable, "NOT_APPLICABLE");
   (ConsistencyPendingObservation, "PENDING_OBSERVATION"); (ConsistencyConsistent, "CONSISTENT");
   (ConsistencyDegraded, "DEGRADED"); (ConsistencyRepairing, "REPAIRING"); (ConsistencyUnknown, "UNKNOWN")].
Definition obligationNames : list (ObligationState * StateID) :=
  [(ObligationUnspecified, "UNSPECIFIED"); (ObligationNotApplicable, "NOT_APPLICABLE");
   (ObligationPending, "PENDING"); (ObligationSatisfied, "SATISFIED"); (ObligationOverdue, "OVERDUE");
   (ObligationWaived, "WAIVED"); (ObligationUnknown, "UNKNOWN")].

Inductive Rule : Type :=
  | RuleTerminalCannotExecute | RuleApprovedRequiresBinding | RuleMaterialRevisionInvalidatesApproval
  | RuleCommittedRequiresReceipt | RuleClosureRequiresObligations | RuleUnspecifiedInvalid.

#[export] Instance Rule_eq_dec : EqDecision Rule.
Proof. solve_decision. Defined.

(** A violation names its rule and dimension; the detail text is not modelled. *)
Record Violation : Type := mkViolation { v_Rule : Rule; v_Dimension : Dimension }.

Inductive lifecycle_err : Type :=
  | ErrUnknownState
  | ErrDimensionLoss
  | ErrUndeclaredTransition
  | ErrIllegalTuple (violations : list Violation)
  | ErrInvalidProfile
  | ErrProfileWiden
  | ErrHistoryImmutable
  | ErrGovernanceBypassed.

(** [table[s]] of a name table: the empty string for a missing key. *)
Section Tables.
  Context {T : Type} `{EqDecision T}.

Definition name_in (table : list (T * StateID)) (s : T) : option StateID :=
  snd <$> List.find (fun kv => bool_decide (kv.1 = s)) table.
Definition parseState (table : list (T * StateID)) (id : StateID) : outcome lifecycle_err T :=
  match List.find (fun kv => bool_decide (kv.2 = id)) table with
  | Some kv => Ok kv.1
  | None => Err ErrUnknownState
  end.
End Tables.

Definition ParseRequestState (id : StateID) : outcome lifecycle_err RequestState := parseState requestNames id.
Definition ParseExecutionState (id : StateID) : outcome lifecycle_err ExecutionState := parseState executionNames id.
Definition ParseBusinessState (id : StateID) : outcome lifecycle_err BusinessState := parseState businessNames id.
Definition ParseConsistencyState (id : StateID) : outcome lifecycle_err ConsistencyState := parseState consistencyNames id.
Definition ParseObligationState (id : StateID) : outcome lifecycle_err ObligationState := parseState obligationNames id.

(** [sort.Slice] on distinct ids, ascending. *)
Fixpoint insert_id (x : StateID) (l : list StateID) : list StateID :=
  match l with
  | [] => [x]
  | y :: l' => match String.compare x y with Gt => y :: insert_id x l' | _ => x :: l end
  end.
Definition statesOf {T : Type} (table : list (T * StateID)) : list StateID :=
  List.fold_right (fun kv acc => insert_id kv.2 acc) [] table.
Definition StatesOf (d : Dimension) : list StateID :=
  if bool_decide (d = DimensionRequest) then statesOf requestNames
  else if bool_decide (d = DimensionExecution) then statesOf executionNames
  else if bool_decide (d = DimensionBusiness) then statesOf businessNames
  else if bool_decide (d = DimensionConsistency) then statesOf consistencyNames
  else if bool_decide (d = DimensionObligation) then statesOf obligationNames
  else [].

Definition RequestState_Valid (s : RequestState) : bool := bool_decide (is_Some (name_in requestNames s)).
Definition RequestState_StateID (s : RequestState) : StateID := default "" (name_in requestNames s).
Definition ExecutionState_Valid (s : ExecutionState) : bool := bool_decide (is_Some (name_in executionNames s)).
Definition ExecutionState_StateID (s : ExecutionState) : StateID := default "" (name_in executionNames s).
Definition BusinessState_Valid (s : BusinessState) : bool := bool_decide (is_Some (name_in businessNames s)).
Definition BusinessState_StateID (s : BusinessState) : StateID := default "" (name_in businessNames s).
Definition ConsistencyState_Valid (s : ConsistencyState) : bool := bool_decide (is_Some (name_in consistencyNames s)).
Definition ConsistencyState_StateID (s : ConsistencyState) : StateID := default "" (name_in consistencyNames s).
Definition ObligationState_Valid (s : ObligationState) : bool := bool_decide (is_Some (name_in obligationNames s)).
Definition ObligationState_StateID (s : ObligationState) : StateID := default "" (name_in obligationNames s).

Record Dimensions : Type := mkDimensions {
  Request : RequestState;
  Execution : ExecutionState;
  Business : BusinessState;
  Consistency : ConsistencyState;
  Obligation : ObligationState
}.

#[export] Instance Dimensions_eq_dec : EqDecision Dimensions.
Proof. solve_decision. Defined.

Definition Dimensions_State (d : Dimensions) (dim : Dimension) : StateID :=
  if bool_decide (dim = DimensionRequest) then RequestState_StateID (Request d)
  else if bool_decide (dim = DimensionExecution) then ExecutionState_StateID (Execution d)
  else if bool_decide (dim = DimensionBusiness) then BusinessState_StateID (Business d)
  else if bool_decide (dim = DimensionConsistency) then ConsistencyState_StateID (Consistency d)
  else if bool_decide (dim = DimensionObligation) then ObligationState_StateID (Obligation d)
  else "".

(** * Rules *)

Definition Dimensions_Validate (d : Dimensions) : outcome lifecycle_err unit :=
  _ ← fail_if (negb (RequestState_Valid (Request d))) ErrUnknownState;
  _ ← fail_if (negb (ExecutionState_Valid (Execution d))) ErrUnknownState;
  _ ← fail_if (negb (BusinessState_Valid (Business d))) ErrUnknownState;
  _ ← fail_if (negb (ConsistencyState_Valid (Consistency d))) ErrUnknownState;
  fail_if (negb (ObligationState_Valid (Obligation d))) ErrUnknownState.

Record ApprovalBindingState : Type := mkBinding {
  RequirementID : string;
  RequirementLevel : bool;
  ApprovedProposalDigest : string;
  Approved : bool;
  Invalidated : bool
}.

Record Context : Type := mkContext {
  ApprovalRequired : bool;
  CurrentMaterialDigest : string;
  Bindings : list ApprovalBindingState;
  CommitReceiptRef : string;
  RepairRef : string;
  ClosurePolicyPermitsOpenRepair : bool;
  Persisted : bool
}.

Definition emptyContext : Context := mkContext false "" [] "" "" false false.

Definition hasCurrentApproval (c : Context) : bool :=
  if bool_decide (CurrentMaterialDigest c = "") then false
  else List.existsb (fun b => RequirementLevel b && Approved b && negb (Invalidated b)
         && bool_decide (ApprovedProposalDigest b = CurrentMaterialDigest c)) (Bindings c).

(** One violation when the condition holds. *)
Definition violation_if (b : bool) (r : Rule) (dim : Dimension) : list Violation :=
  if b then [mkViolation r dim] else [].

Definition terminal_request (r : RequestState) : bool :=
  match r with
  | RequestCancelled | RequestSuperseded | RequestRejected | RequestWithdrawn => true
  | _ => false
  end.

Definition check_unspecified (d : Dimensions) (c : Context) : list Violation :=
  if Persisted c then
    List.flat_map (fun dim => violation_if (bool_decide (Dimensions_State d dim = "UNSPECIFIED"))
                      RuleUnspecifiedInvalid dim) AllDimensions
  else [].

Definition check_terminal (d : Dimensions) : list Violation :=
  violation_if (bool_decide (Execution d = ExecutionExecuting) && terminal_request (Request d))
    RuleTerminalCannotExecute DimensionExecution.

Definition check_approved (d : Dimensions) (c : Context) : list Violation :=
  violation_if (bool_decide (Request d = RequestApproved) && ApprovalRequired c && negb (hasCurrentApproval c))
    RuleApprovedRequiresBinding DimensionRequest.

Definition check_material (c : Context) : list Violation :=
  if bool_decide (CurrentMaterialDigest c = "") then []
  else List.flat_map (fun b => violation_if
         (negb (bool_decide (ApprovedProposalDigest b = CurrentMaterialDigest c)) && negb (Invalidated b))
         RuleMaterialRevisionInvalidatesApproval DimensionRequest) (Bindings c).

Definition check_committed (d : Dimensions) (c : Context) : list Violation :=
  violation_if (bool_decide (Execution d = ExecutionCommitted) && bool_decide (CommitReceiptRef c = ""))
    RuleCommittedRequiresReceipt DimensionExecution
  ++ violation_if (bool_decide (Execution d = ExecutionRepairRequired) && bool_decide (RepairRef c = ""))
    RuleCommittedRequiresReceipt DimensionExecution.

Definition check_closure (d : Dimensions) (c : Context) : list Violation :=
  if bool_decide (Request d = RequestClosed) then
    violation_if (match Obligation d with
                  | ObligationSatisfied | ObligationWaived | ObligationNotApplicable => false
                  | _ => true
                  end) RuleClosureRequiresObligations DimensionObligation
    ++ violation_if (match Consistency d with
                     | ConsistencyPendingObservation | ConsistencyRepairing =>
                         negb (ClosurePolicyPermitsOpenRepair c)
                     | _ => false
                     end) RuleClosureRequiresObligations DimensionConsistency
  else [].

Definition Check (d : Dimensions) (c : Context) : outcome lifecycle_err unit :=
  match Dimensions_Validate d with
  | Ok _ =>
      let vs := check_unspecified d c ++ check_terminal d ++ check_approved d c ++ check_material c
                ++ check_committed d c ++ check_closure d c in
      match vs with
      | [] => Ok tt
      | _ => Err (ErrIllegalTuple vs)
      end
  | _ => Err (ErrIllegalTuple [mkViolation RuleUnspecifiedInvalid DimensionRequest])
  end.

Definition ViolationSet_Has (vs : list Violation) (r : Rule) : bool :=
  List.existsb (fun v => bool_decide (v_Rule v = r)) vs.

Fixpoint preserves_in (dims : list Dimension) (from to : Dimensions) : outcome lifecycle_err unit :=
  match dims with
  | [] => Ok tt
  | dim :: rest =>
      if negb (bool_decide (Dimensions_State from dim = "UNSPECIFIED"))
         && bool_decide (Dimensions_State to dim = "UNSPECIFIED")
      then Err ErrDimensionLoss else preserves_in rest from to
  end.
Definition Preserves (from to : Dimensions) : outcome lifecycle_err unit :=
  preserves_in AllDimensions from to.

(** * Lemmas *)

(** A tuple whose five values are all declared. *)
Definition declared (d : Dimensions) : bool :=
  RequestState_Valid (Request d) && ExecutionState_Valid (Execution d) && BusinessState_Valid (Business d)
  && ConsistencyState_Valid (Consistency d) && ObligationState_Valid (Obligation d).

Lemma Dimensions_Validate_declared d :
  Dimensions_Validate d = if declared d then Ok tt else Err ErrUnknownState.
Proof.
  unfold Dimensions_Validate, declared.
  destruct (RequestState_Valid _), (ExecutionState_Valid _), (BusinessState_Valid _),
    (ConsistencyState_Valid _), (ObligationState_Valid _); reflexivity.
Qed.

(** A declared state is parsed back from its name. *)
Lemma parse_request s : RequestState_Valid s = true -> ParseRequestState (RequestState_StateID s) = Ok s.
Proof. by destruct s. Qed.
Lemma parse_execution s : ExecutionState_Valid s = true -> ParseExecutionState (ExecutionState_StateID s) = Ok s.
Proof. by destruct s. Qed.
Lemma parse_business s : BusinessState_Valid s = true -> ParseBusinessState (BusinessState_StateID s) = Ok s.
Proof. by destruct s. Qed.
Lemma parse_consistency s :
  ConsistencyState_Valid s = true -> ParseConsistencyState (ConsistencyState_StateID s) = Ok s.
Proof. by destruct s. Qed.
Lemma parse_obligation s : ObligationState_Valid s = true -> ParseObligationState (ObligationState_StateID s) = Ok s.
Proof. by destruct s. Qed.

Lemma declared_inv d : declared d = true ->
  RequestState_Valid (Request d) = true /\ ExecutionState_Valid (Execution d) = true
  /\ BusinessState_Valid (Business d) = true /\ ConsistencyState_Valid (Consistency d) = true
  /\ ObligationState_Valid (Obligation d) = true.
Proof. unfold declared. rewrite !andb_true_iff. tauto. Qed.

(** The five state names determine a declared tuple. *)
Lemma state_names_determine d d' : declared d = true -> declared d' = true ->
  (forall dim, In dim AllDimensions -> Dimensions_State d dim = Dimensions_State d' dim) -> d = d'.
Proof.
  intros (V1 & V2 & V3 & V4 & V5)%declared_inv (W1 & W2 & W3 & W4 & W5)%declared_inv H.
  apply parse_request in V1, W1. apply parse_execution in V2, W2. apply parse_business in V3, W3.
  apply parse_consistency in V4, W4. apply parse_obligation in V5, W5.
  pose proof (H DimensionRequest ltac:(cbn; auto)) as H1. pose proof (H DimensionExecution ltac:(cbn; auto)) as H2.
  pose proof (H DimensionBusiness ltac:(cbn; auto)) as H3. pose proof (H DimensionConsistency ltac:(cbn; auto)) as H4.
  pose proof (H DimensionObligation ltac:(cbn; auto 6)) as H5. clear H.
  change (Dimensions_State ?x DimensionRequest) with (RequestState_StateID (Request x)) in H1.
  change (Dimensions_State ?x DimensionExecution) with (ExecutionState_StateID (Execution x)) in H2.
  change (Dimensions_State ?x DimensionBusiness) with (BusinessState_StateID (Business x)) in H3.
  change (Dimensions_State ?x DimensionConsistency) with (ConsistencyState_StateID (Consistency x)) in H4.
  change (Dimensions_State ?x DimensionObligation) with (ObligationState_StateID (Obligation x)) in H5.
  destruct d, d'. cbn [Request Execution Business Consistency Obligation] in *. f_equal; congruence.
Qed.

(** ** The rules as propositions *)

Definition rule_holds (r : Rule) (d : Dimensions) (c : Context) : Prop :=
  match r with
  | RuleTerminalCannotExecute =>
      Execution d = ExecutionExecuting ->
      Request d <> RequestCancelled /\ Request d <> RequestSuperseded
      /\ Request d <> RequestRejected /\ Request d <> RequestWithdrawn
  | RuleApprovedRequiresBinding =>
      Request d = RequestApproved -> ApprovalRequired c = true ->
      CurrentMaterialDigest c <> "" /\
      exists b, In b (Bindings c) /\ RequirementLevel b = true /\ Approved b = true /\ Invalidated b = false
        /\ ApprovedProposalDigest b = CurrentMaterialDigest c
  | RuleMaterialRevisionInvalidatesApproval =>
      CurrentMaterialDigest c <> "" -> forall b, In b (Bindings c) ->
      ApprovedProposalDigest b <> CurrentMaterialDigest c -> Invalidated b = true
  | RuleCommittedRequiresReceipt =>
      (Execution d = ExecutionCommitted -> CommitReceiptRef c <> "")
      /\ (Execution d = ExecutionRepairRequired -> RepairRef c <> "")
  | RuleClosureRequiresObligations =>
      Request d = RequestClosed ->
      (Obligation d = ObligationSatisfied \/ Obligation d = ObligationWaived \/ Obligation d = ObligationNotApplicable)
      /\ (Consistency d = ConsistencyPendingObservation \/ Consistency d = ConsistencyRepairing ->
          ClosurePolicyPermitsOpenRepair c = true)
  | RuleUnspecifiedInvalid =>
      Persisted c = true ->
      Request d <> RequestUnspecified /\ Execution d <> ExecutionUnspecified /\ Business d <> BusinessUnspecified
      /\ Consistency d <> ConsistencyUnspecified /\ Obligation d <> ObligationUnspecified
  end.

Lemma has_app vs ws r : ViolationSet_Has (vs ++ ws) r = ViolationSet_Has vs r || ViolationSet_Has ws r.
Proof. apply existsb_app. Qed.

Lemma has_violation_if b r r' dim : ViolationSet_Has (violation_if b r dim) r' = b && bool_decide (r = r').
Proof. destruct b; cbn; [by rewrite orb_false_r | done]. Qed.

Lemma has_flat_map {A} (p : A -> bool) r r' (dim : A -> Dimension) l :
  ViolationSet_Has (List.flat_map (fun x => violation_if (p x) r (dim x)) l) r'
  = List.existsb p l && bool_decide (r = r').
Proof.
  induction l as [|x l IH]; cbn [List.flat_map List.existsb]; [done|].
  rewrite has_app, IH, has_violation_if. by destruct (p x), (List.existsb p l), (bool_decide (r = r')).
Qed.

Lemma unspecified_name d : declared d = true ->
  List.existsb (fun dim => bool_decide (Dimensions_State d dim = "UNSPECIFIED")) AllDimensions = false <->
  Request d <> RequestUnspecified /\ Execution d <> ExecutionUnspecified /\ Business d <> BusinessUnspecified
  /\ Consistency d <> ConsistencyUnspecified /\ Obligation d <> ObligationUnspecified.
Proof.
  intros _. destruct d as [r e b c o]. cbn [List.existsb AllDimensions].
  change (Dimensions_State _ DimensionRequest) with (RequestState_StateID r).
  change (Dimensions_State _ DimensionExecution) with (ExecutionState_StateID e).
  change (Dimensions_State _ DimensionBusiness) with (BusinessState_StateID b).
  change (Dimensions_State _ DimensionConsistency) with (ConsistencyState_StateID c).
  change (Dimensions_State _ DimensionObligation) with (ObligationState_StateID o).
  cbn [Request Execution Business Consistency Obligation].
  rewrite !orb_false_iff, !bool_decide_eq_false.
  assert (R : RequestState_StateID r = "UNSPECIFIED" <-> r = RequestUnspecified) by (destruct r; done).
  assert (E : ExecutionState_StateID e = "UNSPECIFIED" <-> e = ExecutionUnspecified) by (destruct e; done).
  assert (B : BusinessState_StateID b = "UNSPECIFIED" <-> b = BusinessUnspecified) by (destruct b; done).
  assert (C : ConsistencyState_StateID c = "UNSPECIFIED" <-> c = ConsistencyUnspecified) by (destruct c; done).
  assert (O : ObligationState_StateID o = "UNSPECIFIED" <-> o = ObligationUnspecified) by (destruct o; done).
  tauto.
Qed.

(** Each check reports its own rule, and reports it exactly when it fails. *)
Lemma check_terminal_has d r : ViolationSet_Has (check_terminal d) r = true <->
  r = RuleTerminalCannotExecute /\ ~ rule_holds RuleTerminalCannotExecute d emptyContext.
Proof.
  unfold check_terminal. rewrite has_violation_if, !andb_true_iff, !bool_decide_eq_true. cbn [rule_holds].
  split.
  - intros [[He Ht] <-]. split; [done|]. intros H. specialize (H He). destruct (Request d); cbn in Ht; naive_solver.
  - intros [-> H]. split; [|done]. destruct (decide (Execution d = ExecutionExecuting)) as [He|]; [|naive_solver].
    split; [done|]. destruct (Request d) eqn:E; try done; exfalso; apply H; done.
Qed.

Lemma has_current_approval c : hasCurrentApproval c = true <->
  CurrentMaterialDigest c <> "" /\
  exists b, In b (Bindings c) /\ RequirementLevel b = true /\ Approved b = true /\ Invalidated b = false
    /\ ApprovedProposalDigest b = CurrentMaterialDigest c.
Proof.
  unfold hasCurrentApproval. case_bool_decide; [naive_solver|]. rewrite existsb_exists. split.
  - intros (b & Hin & Hb). split; [done|]. exists b.
    rewrite !andb_true_iff, negb_true_iff, bool_decide_eq_true in Hb. tauto.
  - intros (_ & b & Hin & Hb). exists b. split; [done|].
    rewrite !andb_true_iff, negb_true_iff, bool_decide_eq_true. tauto.
Qed.

Lemma check_approved_has d c r : ViolationSet_Has (check_approved d c) r = true <->
  r = RuleApprovedRequiresBinding /\ ~ rule_holds RuleApprovedRequiresBinding d c.
Proof.
  unfold check_approved. rewrite has_violation_if, !andb_true_iff, negb_true_iff, !bool_decide_eq_true.
  cbn [rule_holds]. rewrite <- has_current_approval.
  destruct (hasCurrentApproval c), (ApprovalRequired c), (decide (Request d = RequestApproved)); naive_solver.
Qed.

Lemma check_material_has c r : ViolationSet_Has (check_material c) r = true <->
  r = RuleMaterialRevisionInvalidatesApproval
  /\ CurrentMaterialDigest c <> "" /\ exists b, In b (Bindings c)
     /\ ApprovedProposalDigest b <> CurrentMaterialDigest c /\ Invalidated b = false.
Proof.
  unfold check_material. case_bool_decide; [split; [done | naive_solver]|].
  rewrite has_flat_map, andb_true_iff, existsb_exists, bool_decide_eq_true.
  setoid_rewrite andb_true_iff. setoid_rewrite negb_true_iff. setoid_rewrite bool_decide_eq_false. naive_solver.
Qed.

Lemma check_committed_has d c r : ViolationSet_Has (check_committed d c) r = true <->
  r = RuleCommittedRequiresReceipt /\ ~ rule_holds RuleCommittedRequiresReceipt d c.
Proof.
  unfold check_committed. rewrite has_app, !has_violation_if. cbn [rule_holds].
  rewrite orb_true_iff, !andb_true_iff, !bool_decide_eq_true.
  destruct (decide (Execution d = ExecutionCommitted)), (decide (Execution d = ExecutionRepairRequired)),
    (decide (CommitReceiptRef c = "")), (decide (RepairRef c = "")); naive_solver.
Qed.

Lemma check_closure_has d c r : ViolationSet_Has (check_closure d c) r = true <->
  r = RuleClosureRequiresObligations /\ ~ rule_holds RuleClosureRequiresObligations d c.
Proof.
  unfold check_closure. cbn [rule_holds]. case_bool_decide as Hr; [|split; [done | naive_solver]].
  rewrite has_app, !has_violation_if, orb_true_iff, !andb_true_iff, !bool_decide_eq_true.
  set (o := match Obligation d with ObligationSatisfied => false | _ => _ end).
  set (k := match Consistency d with ConsistencyPendingObservation => _ | _ => _ end).
  assert (Ho : o = false <-> Obligation d = ObligationSatisfied \/ Obligation d = ObligationWaived
                             \/ Obligation d = ObligationNotApplicable)
    by (subst o; destruct (Obligation d); intuition congruence).
  assert (Hk : k = false <-> (Consistency d = ConsistencyPendingObservation \/ Consistency d = ConsistencyRepairing ->
                              ClosurePolicyPermitsOpenRepair c = true))
    by (subst k; destruct (Consistency d), (ClosurePolicyPermitsOpenRepair c); naive_solver).
  clearbody o k. rewrite <- Ho, <- Hk. destruct o, k; intuition congruence.
Qed.

Lemma check_unspecified_has d c r : declared d = true ->
  ViolationSet_Has (check_unspecified d c) r = true <->
  r = RuleUnspecifiedInvalid /\ ~ rule_holds RuleUnspecifiedInvalid d c.
Proof.
  intros Hd. unfold check_unspecified. cbn [rule_holds]. rewrite <- (unspecified_name d Hd).
  destruct (Persisted c); [|split; [done | intros [_ []]; discriminate]].
  rewrite has_flat_map, andb_true_iff, bool_decide_eq_true. destruct (List.existsb _ _); intuition congruence.
Qed.

Lemma check_material_fails d c r : ViolationSet_Has (check_material c) r = true <->
  r = RuleMaterialRevisionInvalidatesApproval /\ ~ rule_holds RuleMaterialRevisionInvalidatesApproval d c.
Proof.
  cbn [rule_holds]. split.
  - intros H. apply check_material_has in H as (-> & Hd & b & Hin & Hb & Hi). split; [done|].
    intros H. specialize (H Hd b Hin Hb). congruence.
  - intros [-> H]. apply not_false_is_true. intros Hf. apply H. intros Hd b Hin Hb.
    apply not_false_is_true. intros Hi. assert (E : ViolationSet_Has (check_material c) RuleMaterialRevisionInvalidatesApproval = true).
    { apply check_material_has. eauto 6. }
    congruence.
Qed.

Definition all_violations (d : Dimensions) (c : Context) : list Violation :=
  check_unspecified d c ++ check_terminal d ++ check_approved d c ++ check_material c
  ++ check_committed d c ++ check_closure d c.

Lemma all_violations_has d c r : declared d = true ->
  ViolationSet_Has (all_violations d c) r = true <-> ~ rule_holds r d c.
Proof.
  intros Hd. unfold all_violations. rewrite !has_app, !orb_true_iff.
  rewrite check_unspecified_has, check_terminal_has, check_approved_has, (check_material_fails d),
    check_committed_has, check_closure_has by done.
  change (rule_holds RuleTerminalCannotExecute d emptyContext) with (rule_holds RuleTerminalCannotExecute d c).
  destruct r; intuition discriminate.
Qed.

Lemma Check_eq d c : Check d c =
  if declared d then match all_violations d c with [] => Ok tt | vs => Err (ErrIllegalTuple vs) end
  else Err (ErrIllegalTuple [mkViolation RuleUnspecifiedInvalid DimensionRequest]).
Proof.
  unfold Check. rewrite Dimensions_Validate_declared. destruct (declared d); [|done].
  fold (all_violations d c). cbv zeta. by destruct (all_violations d c).
Qed.

Lemma has_some vs v : In v vs -> ViolationSet_Has vs (v_Rule v) = true.
Proof. intros H. apply existsb_exists. exists v. split; [done | by apply bool_decide_eq_true]. Qed.

Lemma rule_holds_stable r d c : declared d = true -> ~ ~ rule_holds r d c -> rule_holds r d c.
Proof.
  intros _ H. destruct r; cbn [rule_holds] in *.
  - intros He. destruct (Request d); try done; exfalso; apply H; intros H'; by destruct (H' He) as (? & ? & ? & ?).
  - intros Hr Ha. rewrite <- has_current_approval in *. destruct (hasCurrentApproval c); [done|].
    exfalso. apply H. intros H'. by specialize (H' Hr Ha).
  - intros Hd b Hin Hb. apply not_false_is_true. intros Hi. apply H. intros H'. specialize (H' Hd b Hin Hb). congruence.
  - split; intros He Hx; apply H; intros [H1 H2]; [by apply H1 | by apply H2].
  - intros Hr. split.
    + destruct (Obligation d); auto; exfalso; apply H; intros H'; destruct (H' Hr) as [? _]; intuition discriminate.
    + intros Hc. apply not_false_is_true. intros Hp. apply H. intros H'. destruct (H' Hr) as [_ H2].
      rewrite H2 in Hp by done. discriminate.
  - intros Hp. repeat split; intros E; apply H; intros H'; destruct (H' Hp) as (? & ? & ? & ? & ?); done.
Qed.

(** A legal tuple: declared values that satisfy every rule. *)
Definition legal (d : Dimensions) (c : Context) : Prop :=
  declared d = true /\ forall r, rule_holds r d c.

Lemma Check_ok d c : Check d c = Ok tt <-> legal d c.
Proof.
  rewrite Check_eq. unfold legal. destruct (declared d) eqn:Hd; [|split; [done | by intros [? _]]].
  destruct (all_violations d c) as [|v vs] eqn:E.
  - split; [|done]. intros _. split; [done|]. intros r. apply rule_holds_stable; [done|].
    intros Hn. apply (all_violations_has d c r Hd) in Hn. by rewrite E in Hn.
  - split; [done|]. intros [_ H]. exfalso.
    apply (proj1 (all_violations_has d c (v_Rule v) Hd)); [|by apply H].
    apply has_some. rewrite E. by left.
Qed.

(** * Properties *)

(** [Check] decides legality exactly: it returns nil if and only if all
    five values are declared and the six rules hold, and on a declared tuple
    the violations it returns name a rule if and only if that rule fails. *)
Theorem check_decides_legality (d : Dimensions) (c : Context) :
  (Check d c = Ok tt <-> declared d = true /\ forall r, rule_holds r d c)
  /\ (Check d c <> Ok tt -> exists vs, Check d c = Err (ErrIllegalTuple vs) /\ vs <> []
      /\ (declared d = true -> forall r, ViolationSet_Has vs r = true <-> ~ rule_holds r d c)).
Proof.
  split; [apply Check_ok|]. rewrite Check_eq. destruct (declared d) eqn:Hd.
  - destruct (all_violations d c) as [|v vs] eqn:E; [done|]. intros _. exists (v :: vs). split; [done|].
    split; [done|]. intros _ r. rewrite <- E. by apply all_violations_has.
  - intros _. eexists. split; [done|]. split; done.
Qed.

Definition approved_request : Dimensions :=
  mkDimensions RequestApproved ExecutionNotPlanned BusinessNotStarted ConsistencyNotApplicable ObligationNotApplicable.

Lemma check_decides_legality_witness :
  exists vs, Check approved_request (mkContext true "d1" [] "" "" false true) = Err (ErrIllegalTuple vs) /\ vs <> [].
Proof.
  destruct (proj2 (check_decides_legality approved_request (mkContext true "d1" [] "" "" false true)))
    as (vs & E & Hne & _); [vm_compute; discriminate|].
  exists vs. split; [exact E | exact Hne].
Defined.

(** The wire names of the five dimensions round-trip and tell tuples apart:
    every declared state is parsed back from its name, and two declared tuples
    with the same name in each dimension are equal. *)
Theorem state_names_roundtrip (d d' : Dimensions) :
  declared d = true -> declared d' = true ->
  (ParseRequestState (Dimensions_State d DimensionRequest) = Ok (Request d)
   /\ ParseExecutionState (Dimensions_State d DimensionExecution) = Ok (Execution d)
   /\ ParseBusinessState (Dimensions_State d DimensionBusiness) = Ok (Business d)
   /\ ParseConsistencyState (Dimensions_State d DimensionConsistency) = Ok (Consistency d)
   /\ ParseObligationState (Dimensions_State d DimensionObligation) = Ok (Obligation d))
  /\ ((forall dim, In dim AllDimensions -> Dimensions_State d dim = Dimensions_State d' dim) -> d = d').
Proof.
  intros Hd Hd'. split; [|by apply state_names_determine].
  destruct (declared_inv d Hd) as (V1 & V2 & V3 & V4 & V5).
  repeat split; [by apply parse_request | by apply parse_execution | by apply parse_business
    | by apply parse_consistency | by apply parse_obligation].
Qed.

Lemma state_names_roundtrip_witness :
  ParseRequestState (Dimensions_State approved_request DimensionRequest) = Ok RequestApproved.
Proof. exact (proj1 (proj1 (state_names_roundtrip approved_request approved_request eq_refl eq_refl))). Defined.
