(* ===== verification/LifecycleProfile.v ===== *)
(** Lifecycle profiles: the declared states and transitions of one dimension,
    their validation with its reachability search, narrowing, and the five
    kernel profiles: [internal/intent/lifecycle/profile.go]. *)

From S2P Require Import Prelude LifecycleRules.

Local Open Scope Z_scope.

Record TransitionRule : Type := mkEdge {
  e_From : StateID; e_To : StateID; e_RequiresGovernance : bool; e_RetentionClass : string
}.

#[export] Instance TransitionRule_eq_dec : EqDecision TransitionRule.
Proof. solve_decision. Defined.

Record Profile : Type := mkProfile {
  p_ID : string;
  p_Dimension : Dimension;
  p_States : list StateID;
  p_Initial : StateID;
  p_Terminal : list StateID;
  p_Transitions : list TransitionRule
}.

(** * Validation *)

(** The loop over [States]. *)
Fixpoint declare_states (states : list StateID) (decl : gset StateID) : outcome lifecycle_err (gset StateID) :=
  match states with
  | [] => Ok decl
  | s :: rest =>
      if bool_decide (s = "") then Err ErrInvalidProfile
      else if bool_decide (s ∈ decl) then Err ErrInvalidProfile
      else declare_states rest ({[s]} ∪ decl)
  end.

(** The loop over [Terminal]. *)
Fixpoint declare_terminal (decl : gset StateID) (terms : list StateID) (acc : gset StateID)
    : outcome lifecycle_err (gset StateID) :=
  match terms with
  | [] => Ok acc
  | s :: rest =>
      if bool_decide (s ∈ decl) then declare_terminal decl rest ({[s]} ∪ acc) else Err ErrInvalidProfile
  end.

(** The loop over [Transitions], building the adjacency lists. *)
Fixpoint check_edges (decl terminal : gset StateID) (ts : list TransitionRule)
    (seen : gset (StateID * StateID)) (adjacency : gmap StateID (list StateID))
    : outcome lifecycle_err (gmap StateID (list StateID)) :=
  match ts with
  | [] => Ok adjacency
  | t :: rest =>
      if negb (bool_decide (e_From t ∈ decl)) then Err ErrInvalidProfile
      else if negb (bool_decide (e_To t ∈ decl)) then Err ErrInvalidProfile
      else if bool_decide (e_From t ∈ terminal) then Err ErrInvalidProfile
      else if bool_decide (e_RetentionClass t = "") then Err ErrInvalidProfile
      else if bool_decide ((e_From t, e_To t) ∈ seen) then Err ErrInvalidProfile
      else check_edges decl terminal rest ({[(e_From t, e_To t)]} ∪ seen)
             (<[e_From t := default [] (adjacency !! e_From t) ++ [e_To t]]> adjacency)
  end.

(** The inner loop of the reachability search: unvisited successors are marked
    and queued. *)
Fixpoint visit (nexts : list StateID) (reachable : gset StateID) (queue : list StateID)
    : gset StateID * list StateID :=
  match nexts with
  | [] => (reachable, queue)
  | next :: rest =>
      if bool_decide (next ∈ reachable) then visit rest reachable queue
      else visit rest ({[next]} ∪ reachable) (queue ++ [next])
  end.

Fixpoint search (fuel : nat) (adjacency : gmap StateID (list StateID)) (queue : list StateID)
    (reachable : gset StateID) : option (gset StateID) :=
  match queue with
  | [] => Some reachable
  | cur :: queue' =>
      match fuel with
      | O => None
      | S f =>
          let '(reachable, queue) := visit (default [] (adjacency !! cur)) reachable queue' in
          search f adjacency queue reachable
      end
  end.

Definition Profile_Validate (p : Profile) : outcome lifecycle_err unit :=
  _ ← fail_if (bool_decide (p_ID p = "")) ErrInvalidProfile;
  _ ← fail_if (bool_decide (p_Dimension p = "")) ErrInvalidProfile;
  decl ← declare_states (p_States p) ∅;
  _ ← fail_if (bool_decide (decl = ∅)) ErrInvalidProfile;
  _ ← fail_if (negb (bool_decide (p_Initial p ∈ decl))) ErrInvalidProfile;
  terminal ← declare_terminal decl (p_Terminal p) ∅;
  adjacency ← check_edges decl terminal (p_Transitions p) ∅ ∅;
  match search (size decl) adjacency [p_Initial p] {[p_Initial p]} with
  | None => Panic
  | Some reachable => fail_if (negb (bool_decide (decl ∖ reachable = ∅))) ErrInvalidProfile
  end.

Definition Profile_Rule (p : Profile) (from to : StateID) : option TransitionRule :=
  List.find (fun t => bool_decide (e_From t = from) && bool_decide (e_To t = to)) (p_Transitions p).

Definition Profile_Narrows (p base : Profile) : outcome lifecycle_err unit :=
  _ ← fail_if (negb (bool_decide (p_Dimension p = p_Dimension base))) ErrProfileWiden;
  _ ← fail_if (negb (List.forallb (fun s => bool_decide (s ∈ (list_to_set (p_States base) : gset StateID)))
                 (p_States p))) ErrProfileWiden;
  fail_if (negb (List.forallb (fun t => match Profile_Rule base (e_From t) (e_To t) with
                                        | Some _ => true | None => false end)
                   (p_Transitions p))) ErrProfileWiden.

(** * The kernel profiles *)

Definition retentionIntentLifecycle : string := "INTENT_LIFECYCLE".
Definition retentionBusinessOutcome : string := "BUSINESS_OUTCOME".
Definition retentionReconciliation : string := "RECONCILIATION_EVIDENCE".
Definition retentionObligation : string := "OBLIGATION_EVIDENCE".

Definition edges (retention : string) (requiresGovernance : gset string) (pairs : list (StateID * StateID))
    : list TransitionRule :=
  List.map (fun p => mkEdge p.1 p.2 (bool_decide ((p.1 +:+ "->" +:+ p.2) ∈ requiresGovernance)) retention) pairs.

Definition requestProfile : Profile := {|
  p_ID := "hcmnext.lifecycle.request/v1";
  p_Dimension := DimensionRequest;
  p_States := ["UNSPECIFIED"; "DRAFT"; "PREFLIGHTED"; "SIMULATED"; "SUBMITTED"; "APPROVED";
               "REJECTED"; "WITHDRAWN"; "CANCELLED"; "SUPERSEDED"; "CLOSED"; "REOPENED"];
  p_Initial := "UNSPECIFIED";
  p_Terminal := ["REJECTED"; "WITHDRAWN"; "CANCELLED"; "SUPERSEDED"];
  p_Transitions := edges retentionIntentLifecycle
    {["SUBMITTED->APPROVED"; "SUBMITTED->REJECTED"; "SIMULATED->CANCELLED"; "APPROVED->CANCELLED";
      "APPROVED->CLOSED"; "CLOSED->REOPENED"]}
    [("UNSPECIFIED", "DRAFT"); ("DRAFT", "PREFLIGHTED"); ("DRAFT", "WITHDRAWN"); ("DRAFT", "CANCELLED");
     ("PREFLIGHTED", "DRAFT"); ("PREFLIGHTED", "SIMULATED"); ("PREFLIGHTED", "WITHDRAWN");
     ("PREFLIGHTED", "CANCELLED"); ("SIMULATED", "SIMULATED"); ("SIMULATED", "SUBMITTED");
     ("SIMULATED", "WITHDRAWN"); ("SIMULATED", "CANCELLED"); ("SIMULATED", "SUPERSEDED");
     ("SUBMITTED", "APPROVED"); ("SUBMITTED", "REJECTED"); ("SUBMITTED", "SIMULATED");
     ("SUBMITTED", "WITHDRAWN"); ("SUBMITTED", "CANCELLED"); ("SUBMITTED", "SUPERSEDED");
     ("SUBMITTED", "CLOSED"); ("APPROVED", "SIMULATED"); ("APPROVED", "CANCELLED");
     ("APPROVED", "SUPERSEDED"); ("APPROVED", "CLOSED"); ("REOPENED", "SIMULATED");
     ("REOPENED", "CLOSED"); ("CLOSED", "REOPENED")]
|}.

Definition executionProfile : Profile := {|
  p_ID := "hcmnext.lifecycle.execution/v1";
  p_Dimension := DimensionExecution;
  p_States := ["UNSPECIFIED"; "NOT_PLANNED"; "SCHEDULED"; "REVALIDATING"; "EXECUTING"; "COMMITTED";
               "BLOCKED"; "REPAIR_REQUIRED"];
  p_Initial := "UNSPECIFIED";
  p_Terminal := [];
  p_Transitions := edges retentionIntentLifecycle {["REVALIDATING->EXECUTING"]}
    [("UNSPECIFIED", "NOT_PLANNED"); ("NOT_PLANNED", "SCHEDULED"); ("NOT_PLANNED", "BLOCKED");
     ("SCHEDULED", "REVALIDATING"); ("SCHEDULED", "NOT_PLANNED"); ("SCHEDULED", "BLOCKED");
     ("REVALIDATING", "EXECUTING"); ("REVALIDATING", "NOT_PLANNED"); ("REVALIDATING", "BLOCKED");
     ("EXECUTING", "COMMITTED"); ("EXECUTING", "BLOCKED"); ("EXECUTING", "REPAIR_REQUIRED");
     ("COMMITTED", "REPAIR_REQUIRED"); ("BLOCKED", "SCHEDULED"); ("BLOCKED", "NOT_PLANNED");
     ("REPAIR_REQUIRED", "SCHEDULED"); ("REPAIR_REQUIRED", "COMMITTED")]
|}.

Definition businessProfile : Profile := {|
  p_ID := "hcmnext.lifecycle.business/v1";
  p_Dimension := DimensionBusiness;
  p_States := ["UNSPECIFIED"; "NOT_STARTED"; "IN_PROGRESS"; "COMPLETED"; "NOT_ACHIEVED"; "CORRECTED"; "UNKNOWN"];
  p_Initial := "UNSPECIFIED";
  p_Terminal := [];
  p_Transitions := edges retentionBusinessOutcome ∅
    [("UNSPECIFIED", "NOT_STARTED"); ("NOT_STARTED", "IN_PROGRESS"); ("NOT_STARTED", "NOT_ACHIEVED");
     ("NOT_STARTED", "UNKNOWN"); ("IN_PROGRESS", "COMPLETED"); ("IN_PROGRESS", "NOT_ACHIEVED");
     ("IN_PROGRESS", "UNKNOWN"); ("COMPLETED", "CORRECTED"); ("COMPLETED", "UNKNOWN");
     ("NOT_ACHIEVED", "IN_PROGRESS"); ("CORRECTED", "UNKNOWN"); ("UNKNOWN", "IN_PROGRESS");
     ("UNKNOWN", "COMPLETED"); ("UNKNOWN", "NOT_ACHIEVED")]
|}.

Definition consistencyProfile : Profile := {|
  p_ID := "hcmnext.lifecycle.consistency/v1";
  p_Dimension := DimensionConsistency;
  p_States := ["UNSPECIFIED"; "NOT_APPLICABLE"; "PENDING_OBSERVATION"; "CONSISTENT"; "DEGRADED";
               "REPAIRING"; "UNKNOWN"];
  p_Initial := "UNSPECIFIED";
  p_Terminal := [];
  p_Transitions := edges retentionReconciliation ∅
    [("UNSPECIFIED", "NOT_APPLICABLE"); ("UNSPECIFIED", "PENDING_OBSERVATION");
     ("NOT_APPLICABLE", "PENDING_OBSERVATION"); ("PENDING_OBSERVATION", "CONSISTENT");
     ("PENDING_OBSERVATION", "DEGRADED"); ("PENDING_OBSERVATION", "UNKNOWN"); ("CONSISTENT", "DEGRADED");
     ("CONSISTENT", "UNKNOWN"); ("DEGRADED", "REPAIRING"); ("DEGRADED", "UNKNOWN");
     ("REPAIRING", "CONSISTENT"); ("REPAIRING", "DEGRADED"); ("REPAIRING", "UNKNOWN");
     ("UNKNOWN", "PENDING_OBSERVATION"); ("UNKNOWN", "CONSISTENT"); ("UNKNOWN", "DEGRADED")]
|}.

Definition obligationProfile : Profile := {|
  p_ID := "hcmnext.lifecycle.obligation/v1";
  p_Dimension := DimensionObligation;
  p_States := ["UNSPECIFIED"; "NOT_APPLICABLE"; "PENDING"; "SATISFIED"; "OVERDUE"; "WAIVED"; "UNKNOWN"];
  p_Initial := "UNSPECIFIED";
  p_Terminal := [];
  p_Transitions := edges retentionObligation {["PENDING->WAIVED"; "OVERDUE->WAIVED"]}
    [("UNSPECIFIED", "NOT_APPLICABLE"); ("UNSPECIFIED", "PENDING"); ("NOT_APPLICABLE", "PENDING");
     ("PENDING", "SATISFIED"); ("PENDING", "OVERDUE"); ("PENDING", "WAIVED"); ("PENDING", "UNKNOWN");
     ("OVERDUE", "SATISFIED"); ("OVERDUE", "WAIVED"); ("OVERDUE", "UNKNOWN"); ("SATISFIED", "UNKNOWN");
     ("WAIVED", "UNKNOWN"); ("UNKNOWN", "PENDING"); ("UNKNOWN", "SATISFIED"); ("UNKNOWN", "OVERDUE")]
|}.

Definition KernelProfiles : gmap Dimension Profile :=
  list_to_map [(DimensionRequest, requestProfile); (DimensionExecution, executionProfile);
               (DimensionBusiness, businessProfile); (DimensionConsistency, consistencyProfile);
               (DimensionObligation, obligationProfile)].

(** * Lemmas *)

(** ** What validation demands *)

Definition edge (ts : list TransitionRule) (x y : StateID) : Prop :=
  exists t, t ∈ ts /\ e_From t = x /\ e_To t = y.

Definition edge_ok (decl terminal : gset StateID) (t : TransitionRule) : Prop :=
  e_From t ∈ decl /\ e_To t ∈ decl /\ (e_From t ∉ terminal) /\ e_RetentionClass t <> "".

Definition edge_pair (t : TransitionRule) : StateID * StateID := (e_From t, e_To t).

Lemma declare_states_ok ss decl d : declare_states ss decl = Ok d <->
  ("" ∉ ss) /\ NoDup ss /\ (forall s, s ∈ ss -> s ∉ decl) /\ d = list_to_set ss ∪ decl.
Proof.
  revert decl. induction ss as [|s ss IH]; intros decl; cbn [declare_states list_to_set].
  - split; [intros [= <-] | intros (_ & _ & _ & ->); f_equal; set_solver].
    split; [set_solver|]. split; [constructor|]. split; set_solver.
  - case_bool_decide as Hs; [subst; split; [done | set_solver]|].
    case_bool_decide as Hd; [split; [done | set_solver]|].
    rewrite IH, list.NoDup_cons. split.
    + intros (H1 & H2 & H3 & ->). split; [set_solver|]. split; [set_solver|]. split; set_solver.
    + intros (H1 & [H2 H2'] & H3 & ->). split; [set_solver|]. split; [done|]. split; set_solver.
Qed.

Lemma declare_states_err ss decl : is_ok (declare_states ss decl) = false ->
  declare_states ss decl = Err ErrInvalidProfile.
Proof.
  revert decl. induction ss as [|s ss IH]; intros decl; cbn [declare_states]; [done|].
  repeat case_bool_decide; auto.
Qed.

Lemma declare_terminal_ok decl ss acc d : declare_terminal decl ss acc = Ok d <->
  (forall s, s ∈ ss -> s ∈ decl) /\ d = list_to_set ss ∪ acc.
Proof.
  revert acc. induction ss as [|s ss IH]; intros acc; cbn [declare_terminal list_to_set].
  - split; [intros [= <-]; split; set_solver | intros [_ ->]; f_equal; set_solver].
  - case_bool_decide as Hs; [|split; [done | set_solver]]. rewrite IH. split; intros [H ->]; split; set_solver.
Qed.

Lemma declare_terminal_err decl ss acc : is_ok (declare_terminal decl ss acc) = false ->
  declare_terminal decl ss acc = Err ErrInvalidProfile.
Proof.
  revert acc. induction ss as [|s ss IH]; intros acc; cbn [declare_terminal]; [done|].
  repeat case_bool_decide; auto.
Qed.

Definition adjacent (adj : gmap StateID (list StateID)) (x y : StateID) : Prop := y ∈ default [] (adj !! x).

Lemma adjacent_insert adj x y a b :
  adjacent (<[x := default [] (adj !! x) ++ [y]]> adj) a b <-> adjacent adj a b \/ (a = x /\ b = y).
Proof.
  unfold adjacent. destruct (decide (a = x)) as [->|Hne].
  - rewrite lookup_insert_eq. cbn. set_solver.
  - rewrite lookup_insert_ne by done. naive_solver.
Qed.

Lemma check_edges_ok decl terminal ts seen adj :
  (exists adj', check_edges decl terminal ts seen adj = Ok adj') <->
  Forall (edge_ok decl terminal) ts /\ NoDup (edge_pair <$> ts) /\ (forall t, t ∈ ts -> edge_pair t ∉ seen).
Proof.
  revert seen adj. induction ts as [|t ts IH]; intros seen adj; cbn [check_edges fmap list_fmap].
  - split; [|eauto]. intros _. split; [constructor|]. split; [constructor | set_solver].
  - rewrite Forall_cons, list.NoDup_cons. unfold edge_ok at 1. fold (edge_pair t).
    case_bool_decide as H1; cbn [negb]; [|by split; [intros [? ?] | intros (((? & ? & ? & ?) & _) & _)]].
    case_bool_decide as H2; cbn [negb]; [|by split; [intros [? ?] | intros (((? & ? & ? & ?) & _) & _)]].
    case_bool_decide as H3; [by split; [intros [? ?] | intros (((? & ? & ? & ?) & _) & _)]|].
    case_bool_decide as H4; [by split; [intros [? ?] | intros (((? & ? & ? & ?) & _) & _)]|].
    case_bool_decide as H5; [split; [by intros [? ?] | intros (_ & _ & H6); by destruct (H6 t ltac:(left))]|].
    rewrite IH. split.
    + intros (F & N & S). split; [done|]. split; [split; [|done]|].
      * intros (t' & E & Hin)%list_elem_of_fmap. apply (S t' Hin). rewrite <- E. set_solver.
      * intros t' Hin. apply elem_of_cons in Hin as [->|Hin]; [done|]. specialize (S t' Hin). set_solver.
    + intros ([_ F] & [Nin N] & S). split; [done|]. split; [done|]. intros t' Hin.
      assert (edge_pair t' <> edge_pair t) by (intros E; apply Nin, list_elem_of_fmap; eauto).
      pose proof (S t' ltac:(by right)). set_solver.
Qed.

Lemma check_edges_adjacent decl terminal ts seen adj adj' :
  check_edges decl terminal ts seen adj = Ok adj' ->
  forall x y, adjacent adj' x y <-> adjacent adj x y \/ edge ts x y.
Proof.
  revert seen adj. induction ts as [|t ts IH]; intros seen adj; cbn [check_edges].
  - intros [= <-] x y. unfold edge. set_solver.
  - repeat case_bool_decide; cbn [negb]; try done. intros Hc x y. rewrite (IH _ _ Hc), adjacent_insert.
    unfold edge. set_solver.
Qed.

Lemma check_edges_err decl terminal ts seen adj : is_ok (check_edges decl terminal ts seen adj) = false ->
  check_edges decl terminal ts seen adj = Err ErrInvalidProfile.
Proof.
  revert seen adj. induction ts as [|t ts IH]; intros seen adj; cbn [check_edges]; [done|].
  repeat case_bool_decide; cbn [negb]; auto.
Qed.

(** ** The reachability search *)

(** What one visit adds: distinct, unvisited successors. *)
Lemma visit_spec nexts reach queue :
  exists added, visit nexts reach queue = (list_to_set added ∪ reach, queue ++ added)
    /\ NoDup added /\ (forall x, x ∈ added <-> x ∈ nexts /\ (x ∉ reach)).
Proof.
  revert reach queue. induction nexts as [|n nexts IH]; intros reach queue; cbn [visit].
  - exists []. split; [f_equal; [set_solver | by rewrite app_nil_r]|]. split; [constructor | set_solver].
  - case_bool_decide as Hn.
    + destruct (IH reach queue) as (added & -> & Hnd & Hin). exists added. split; [done|]. split; [done|].
      intros x. rewrite Hin, elem_of_cons. naive_solver.
    + destruct (IH ({[n]} ∪ reach) (queue ++ [n])) as (added & -> & Hnd & Hin). exists (n :: added).
      split; [f_equal; [set_solver | by rewrite <- app_assoc]|].
      split; [apply list.NoDup_cons; split; [rewrite Hin; set_solver | done]|].
      intros x. rewrite !elem_of_cons, Hin. destruct (decide (x = n)); set_solver.
Qed.

Section Search.
  Variables (adj : gmap StateID (list StateID)) (decl : gset StateID) (initial : StateID).
  Hypothesis Hclosed : forall x y, adjacent adj x y -> y ∈ decl.

(** The search invariant: everything marked is declared and reachable, and the
    successors of whatever has left the queue are marked. *)
Record searching (queue : list StateID) (reach : gset StateID) : Prop := {
  sr_initial : initial ∈ reach;
  sr_declared : reach ⊆ decl;
  sr_sound : forall x, x ∈ reach -> rtc (adjacent adj) initial x;
  sr_queue : forall x, x ∈ queue -> x ∈ reach;
  sr_closed : forall x y, x ∈ reach -> x ∉ queue -> adjacent adj x y -> y ∈ reach
}.

Lemma searching_step cur queue reach added :
  searching (cur :: queue) reach ->
  (forall x, x ∈ added <-> x ∈ default [] (adj !! cur) /\ (x ∉ reach)) ->
  searching (queue ++ added) (list_to_set added ∪ reach).
Proof.
  intros [Hi Hd Hs Hq Hc] Hadd. split.
  - set_solver.
  - intros x Hx. apply elem_of_union in Hx as [Hx|Hx]; [|by apply Hd].
    apply elem_of_list_to_set, Hadd in Hx as [Hx _]. by apply (Hclosed cur).
  - intros x Hx. apply elem_of_union in Hx as [Hx|Hx]; [|by apply Hs].
    apply elem_of_list_to_set, Hadd in Hx as [Hx _]. eapply rtc_r; [apply Hs, Hq; left | exact Hx].
  - intros x Hx. apply elem_of_app in Hx as [Hx|Hx]; [apply elem_of_union_r, Hq; by right | set_solver].
  - intros x y Hx Hnq Hxy. apply elem_of_union in Hx as [Hx|Hx]; [set_solver|].
    destruct (decide (y ∈ reach)) as [|Hy]; [set_solver|].
    destruct (decide (x = cur)) as [->|Hne]; [apply elem_of_union_l, elem_of_list_to_set, Hadd; by split|].
    exfalso. apply Hy, (Hc x y Hx); [|done]. rewrite elem_of_cons. intros [?|?]; [done | set_solver].
Qed.

Lemma searching_done reach : searching [] reach -> forall x, rtc (adjacent adj) initial x -> x ∈ reach.
Proof.
  intros Hinv. apply rtc_ind_r; [apply (sr_initial _ _ Hinv)|]. intros y z _ Hyz Hy.
  apply (sr_closed _ _ Hinv y z Hy); [set_solver | done].
Qed.

(** With fuel for the queue and the unmarked states the search ends, and marks
    exactly the reachable states. *)
Lemma search_complete fuel queue reach :
  searching queue reach -> (length queue + size (decl ∖ reach) <= fuel)%nat ->
  exists r, search fuel adj queue reach = Some r /\ forall x, x ∈ r <-> rtc (adjacent adj) initial x.
Proof.
  revert queue reach. induction fuel as [|f IH]; intros [|cur queue] reach Hinv Hfuel; cbn [search length] in *;
    try lia.
  1, 2: exists reach; split; [done|]; intros x; split; [apply (sr_sound _ _ Hinv) | by apply searching_done].
  destruct (visit_spec (default [] (adj !! cur)) reach queue) as (added & -> & Hnd & Hadd).
  pose proof (searching_step _ _ _ _ Hinv Hadd) as Hinv'. apply IH; [done|].
  rewrite length_app. assert (Hsz : size (list_to_set added : gset StateID) = length added) by by apply size_list_to_set.
  assert (Hsub : (list_to_set added : gset StateID) ⊆ decl ∖ reach).
  { intros x Hx. apply elem_of_difference. apply elem_of_list_to_set, Hadd in Hx as [Hx Hr].
    split; [by apply (Hclosed cur) | done]. }
  replace (decl ∖ (list_to_set added ∪ reach)) with ((decl ∖ reach) ∖ list_to_set added) by set_solver.
  rewrite size_difference by done. pose proof (subseteq_size _ _ Hsub). lia.
Qed.
End Search.

(** ** Validation, exactly *)

(** A profile that can be published. *)
Record publishable (p : Profile) : Prop := {
  pub_id : p_ID p <> "";
  pub_dimension : p_Dimension p <> "";
  pub_nonempty : p_States p <> [];
  pub_named : "" ∉ p_States p;
  pub_distinct : NoDup (p_States p);
  pub_initial : p_Initial p ∈ p_States p;
  pub_terminal : forall s, s ∈ p_Terminal p -> s ∈ p_States p;
  pub_edges : forall t, t ∈ p_Transitions p -> e_From t ∈ p_States p /\ e_To t ∈ p_States p
    /\ (e_From t ∉ p_Terminal p) /\ e_RetentionClass t <> "";
  pub_single : NoDup (edge_pair <$> p_Transitions p);
  pub_reachable : forall s, s ∈ p_States p -> rtc (edge (p_Transitions p)) (p_Initial p) s
}.

Lemma search_valid p (decl : gset StateID) adj :
  (forall x y, adjacent adj x y <-> edge (p_Transitions p) x y) ->
  (forall t, t ∈ p_Transitions p -> e_To t ∈ decl) -> p_Initial p ∈ decl ->
  exists r, search (size decl) adj [p_Initial p] {[p_Initial p]} = Some r
    /\ forall x, x ∈ r <-> rtc (edge (p_Transitions p)) (p_Initial p) x.
Proof.
  intros Hadj Hdecl Hi. destruct (search_complete adj decl (p_Initial p)) with (fuel := size decl)
    (queue := [p_Initial p]) (reach := ({[p_Initial p]} : gset StateID)) as (r & Hr & Hx).
  - intros x y Hxy. apply Hadj in Hxy as (t & Ht & _ & <-). by apply Hdecl.
  - split; set_solver.
  - rewrite size_difference, size_singleton by set_solver.
    assert (0 < size decl)%nat by (apply Nat.neq_0_lt_0; intros E; apply size_empty_inv in E; set_solver).
    cbn [length]. lia.
  - exists r. split; [done|]. intros x. rewrite Hx. split; apply rtc_subrel; intros a b; apply Hadj.
Qed.

Lemma empty_adjacent x y (P : Prop) : adjacent ∅ x y \/ P <-> P.
Proof. unfold adjacent. rewrite lookup_empty. set_solver. Qed.

Lemma Profile_Validate_sound p : Profile_Validate p = Ok tt -> publishable p.
Proof.
  unfold Profile_Validate.
  intros H. ok_inv. rename a1 into decl, a4 into terminal, a5 into adj.
    rewrite negb_false_iff in Hok3. apply bool_decide_eq_false in Hok, Hok0, Hok2. apply bool_decide_eq_true in Hok3.
    apply declare_states_ok in Hok1 as (H1 & H2 & _ & ->). rewrite union_empty_r_L in *.
    apply declare_terminal_ok in Hok4 as (H4 & ->). rewrite union_empty_r_L in *.
    pose proof (check_edges_adjacent _ _ _ _ _ _ Hok5) as Hadj.
    assert (Hc : exists a', check_edges (list_to_set (p_States p)) (list_to_set (p_Terminal p)) (p_Transitions p) ∅ ∅ = Ok a')
      by eauto. apply check_edges_ok in Hc as (F & N & _). rewrite Forall_forall in F. unfold edge_ok in F.
    setoid_rewrite elem_of_list_to_set in F. setoid_rewrite elem_of_list_to_set in H4.
    rewrite elem_of_list_to_set in Hok3.
    destruct (search_valid p (list_to_set (p_States p)) adj) as (r & Hr & Hx).
    + intros x y. rewrite Hadj. apply empty_adjacent.
    + intros t Ht. apply elem_of_list_to_set. by apply F.
    + by apply elem_of_list_to_set.
    + rewrite Hr in H. ok_inv. rewrite negb_false_iff, bool_decide_eq_true in H.
      split; try done; [by intros E; rewrite E in Hok2|]. intros s Hs. apply Hx. set_solver.
Qed.

Lemma Profile_Validate_complete p : publishable p -> Profile_Validate p = Ok tt.
Proof.
  unfold Profile_Validate.
  intros [P1 P2 P3 P4 P5 P6 P7 P8 P9 P10].
    rewrite (bool_decide_eq_false_2 _ P1), (bool_decide_eq_false_2 _ P2). cbn [mbind outcome_bind fail_if].
    assert (E1 : declare_states (p_States p) ∅ = Ok (list_to_set (p_States p)))
      by (apply declare_states_ok; split; [done|]; split; [done|]; split; set_solver).
    assert (E2 : declare_terminal (list_to_set (p_States p)) (p_Terminal p) ∅ = Ok (list_to_set (p_Terminal p)))
      by (apply declare_terminal_ok; split; set_solver).
    destruct (proj2 (check_edges_ok (list_to_set (p_States p)) (list_to_set (p_Terminal p)) (p_Transitions p) ∅ ∅))
      as [adj E3].
    { split; [|split; [done | set_solver]]. apply Forall_forall. intros t Ht. unfold edge_ok.
      rewrite !elem_of_list_to_set. by apply P8. }
    pose proof (check_edges_adjacent _ _ _ _ _ _ E3) as Hadj.
    rewrite E1. cbn [mbind outcome_bind fail_if].
    rewrite (bool_decide_eq_false_2 (list_to_set (p_States p) = (∅ : gset StateID))).
    2:{ intros E. pose proof (proj2 (elem_of_list_to_set (C := gset StateID) (p_Initial p) (p_States p)) P6) as Hi.
        rewrite E in Hi. by apply not_elem_of_empty in Hi. }
    rewrite (bool_decide_eq_true_2 (p_Initial p ∈ (list_to_set (p_States p) : gset StateID)))
      by (by apply elem_of_list_to_set). cbn [mbind outcome_bind fail_if negb].
    rewrite E2. cbn [mbind outcome_bind]. rewrite E3. cbn [mbind outcome_bind].
    destruct (search_valid p (list_to_set (p_States p)) adj) as (r & -> & Hx).
    + intros x y. rewrite Hadj. apply empty_adjacent.
    + intros t Ht. apply elem_of_list_to_set. by apply P8.
    + by apply elem_of_list_to_set.
    + rewrite bool_decide_eq_true_2; [done|]. apply set_eq. intros x. rewrite elem_of_difference, elem_of_list_to_set, Hx.
      split; [|by intros ?%not_elem_of_empty]. intros [Hs Hn]. exfalso. by apply Hn, P10.
Qed.

Lemma Profile_Validate_total p : Profile_Validate p = Ok tt \/ Profile_Validate p = Err ErrInvalidProfile.
Proof.
  unfold Profile_Validate.
  destruct (bool_decide (p_ID p = "")); [by right|]. destruct (bool_decide (p_Dimension p = "")); [by right|].
  cbn [mbind outcome_bind fail_if].
  destruct (declare_states (p_States p) ∅) as [decl|e|] eqn:E1;
    [|right; pose proof (declare_states_err (p_States p) ∅) as Hx; rewrite E1 in Hx; specialize (Hx eq_refl); by simplify_eq..].
  cbn [mbind outcome_bind]. destruct (bool_decide (decl = ∅)); [by right|]. cbn [mbind outcome_bind fail_if].
  case_bool_decide as Hi; [|by right]. cbn [mbind outcome_bind fail_if negb].
  destruct (declare_terminal decl (p_Terminal p) ∅) as [term|e|] eqn:E2;
    [|right; pose proof (declare_terminal_err decl (p_Terminal p) ∅) as Hx; rewrite E2 in Hx; specialize (Hx eq_refl); by simplify_eq..].
  cbn [mbind outcome_bind].
  destruct (check_edges decl term (p_Transitions p) ∅ ∅) as [adj|e|] eqn:E3;
    [|right; pose proof (check_edges_err decl term (p_Transitions p) ∅ ∅) as Hx; rewrite E3 in Hx; specialize (Hx eq_refl); by simplify_eq..].
  cbn [mbind outcome_bind]. destruct (search_valid p decl adj) as (r & -> & _).
  - intros x y. rewrite (check_edges_adjacent _ _ _ _ _ _ E3). apply empty_adjacent.
  - assert (Hc : exists a', check_edges decl term (p_Transitions p) ∅ ∅ = Ok a') by eauto.
    apply check_edges_ok in Hc as (F & _). rewrite Forall_forall in F. intros t Ht. by apply F.
  - done.
  - unfold fail_if. case_match; auto.
Qed.

(** ** Declared edges *)

Lemma Profile_Rule_edge p from to t : Profile_Rule p from to = Some t ->
  t ∈ p_Transitions p /\ e_From t = from /\ e_To t = to.
Proof.
  intros H. apply find_some in H as [Hin H]. apply andb_true_iff in H as [H1 H2].
  rewrite bool_decide_eq_true in H1, H2. split; [by apply list_elem_of_In | done].
Qed.

Lemma Profile_Rule_some p t : t ∈ p_Transitions p -> exists t', Profile_Rule p (e_From t) (e_To t) = Some t'.
Proof.
  intros Hin. destruct (Profile_Rule p (e_From t) (e_To t)) as [t'|] eqn:E; [eauto|].
  apply list_elem_of_In in Hin. pose proof (find_none _ _ E t Hin) as Hf. cbn in Hf.
  by rewrite !bool_decide_eq_true_2 in Hf.
Qed.

Lemma narrows_rule p base from to t : Profile_Narrows p base = Ok tt -> Profile_Rule p from to = Some t ->
  exists t', Profile_Rule base from to = Some t'.
Proof.
  unfold Profile_Narrows. intros H Ht. ok_inv. apply Profile_Rule_edge in Ht as (Hin & <- & <-).
  rewrite negb_false_iff, forallb_forall in H. apply list_elem_of_In in Hin. specialize (H t Hin). cbv beta in H.
  destruct (Profile_Rule base (e_From t) (e_To t)); [eauto | done].
Qed.

(** * Properties *)

(** [Profile.Validate] accepts exactly the publishable profiles: named, with
    distinct non-empty states, declared initial and terminal states, declared
    edge ends, no edge out of a terminal state, a retention class on every
    edge, no repeated edge, and every state reachable from the initial one
    along declared edges.  Anything else is [ErrInvalidProfile], and the
    reachability search always ends. *)
Theorem profile_validate_exact (p : Profile) :
  (Profile_Validate p = Ok tt <-> publishable p)
  /\ (Profile_Validate p = Ok tt \/ Profile_Validate p = Err ErrInvalidProfile).
Proof.
  split; [|apply Profile_Validate_total].
  split; [apply Profile_Validate_sound | apply Profile_Validate_complete].
Qed.

(** The profile of a dimension has that dimension's declared states. *)
Definition profile_matches (dim : Dimension) : bool :=
  match KernelProfiles !! dim with
  | Some p =>
      is_ok (Profile_Validate p) && bool_decide (p_Dimension p = dim) && bool_decide (p_Initial p = "UNSPECIFIED")
      && bool_decide ((list_to_set (p_States p) : gset StateID) = list_to_set (StatesOf dim))
  | None => false
  end.

(** the five kernel profiles are publishable, are assigned to their own
    dimension, start at UNSPECIFIED and declare exactly the states that the
    dimension's name table declares; and the request profile's terminal
    states are the four for which execution is forbidden. *)
Theorem kernel_profiles_valid :
  forallb profile_matches AllDimensions = true
  /\ forall r, RequestState_Valid r = true ->
     (RequestState_StateID r ∈ p_Terminal requestProfile <-> terminal_request r = true).
Proof.
  split; [vm_compute; reflexivity|]. intros r Hr.
  rewrite <- (bool_decide_eq_true (RequestState_StateID r ∈ p_Terminal requestProfile)).
  destruct r; vm_compute; done.
Qed.

(** A profile that [Narrows] a base declares no move of its own: whatever
    transition it resolves, the base resolves too. *)
Theorem narrows_never_widens (p base : Profile) (from to : StateID) (t : TransitionRule) :
  Profile_Narrows p base = Ok tt -> Profile_Rule p from to = Some t ->
  p_Dimension p = p_Dimension base /\ exists t', Profile_Rule base from to = Some t'.
Proof.
  intros H Ht. split; [|by eapply narrows_rule]. unfold Profile_Narrows in H. ok_inv.
  rewrite negb_false_iff, bool_decide_eq_true in Hok. done.
Qed.

(** A request profile that stops at approval. *)
Definition short_request : Profile := {|
  p_ID := "domain.request/v1"; p_Dimension := DimensionRequest;
  p_States := ["UNSPECIFIED"; "DRAFT"]; p_Initial := "UNSPECIFIED"; p_Terminal := ["DRAFT"];
  p_Transitions := [mkEdge "UNSPECIFIED" "DRAFT" false "DOMAIN"]
|}.

Lemma narrows_never_widens_witness :
  exists t', Profile_Rule requestProfile "UNSPECIFIED" "DRAFT" = Some t'.
Proof.
  exact (proj2 (narrows_never_widens short_request requestProfile "UNSPECIFIED" "DRAFT"
    (mkEdge "UNSPECIFIED" "DRAFT" false "DOMAIN") ltac:(vm_compute; reflexivity) ltac:(vm_compute; reflexivity))).
Defined.
