(* ===== verification/LifecycleMachine.v ===== *)
(** The lifecycle machine: history, guarded transitions and replay.
    [History] of [internal/intent/lifecycle/profile.go] and
    [internal/intent/lifecycle/machine.go]. *)

From S2P Require Import Prelude CivilTime LifecycleRules LifecycleProfile.

Local Open Scope Z_scope.

Record TransitionRecord : Type := mkRecord {
  r_Sequence : Z;
  r_From : Dimensions;
  r_To : Dimensions;
  r_At : Instant;
  r_Actor : string;
  r_ReasonRef : string;
  r_GovernanceDecisionRef : string;
  r_RetentionClass : string
}.

(** The records of a [History], oldest first. *)
Definition History : Type := list TransitionRecord.

Definition History_Latest (h : History) : option TransitionRecord := last h.

(** [Append] checks the record and only then extends the slice. *)
Definition History_Append (h : History) (rec : TransitionRecord) : History * outcome lifecycle_err unit :=
  if negb (r_Sequence rec =? Z.of_nat (length h) + 1) then (h, Err ErrHistoryImmutable)
  else if match History_Latest h with
          | Some l => negb (bool_decide (r_To l = r_From rec))
          | None => false
          end then (h, Err ErrHistoryImmutable)
  else if negb (i_set (r_At rec)) then (h, Err ErrHistoryImmutable)
  else if bool_decide (r_RetentionClass rec = "") then (h, Err ErrGovernanceBypassed)
  else (h ++ [rec], Ok tt).

Record Machine : Type := mkMachine {
  m_profiles : gmap Dimension Profile;
  m_current : Dimensions;
  m_history : History
}.

Fixpoint check_profiles (dims : list Dimension) (profiles : gmap Dimension Profile) : outcome lifecycle_err unit :=
  match dims with
  | [] => Ok tt
  | dim :: rest =>
      match profiles !! dim with
      | None => Err ErrInvalidProfile
      | Some p =>
          _ ← Profile_Validate p;
          _ ← fail_if (negb (bool_decide (p_Dimension p = dim))) ErrInvalidProfile;
          check_profiles rest profiles
      end
  end.

(** [None] is the nil map. *)
Definition NewMachine (profiles : option (gmap Dimension Profile)) (initial : Dimensions) (ctx : Context)
    : outcome lifecycle_err Machine :=
  let profiles := default KernelProfiles profiles in
  _ ← check_profiles AllDimensions profiles;
  _ ← Check initial ctx;
  Ok (mkMachine profiles initial []).

Definition empty_profile : Profile := mkProfile "" "" [] "" [] [].

Fixpoint declared_in (dims : list Dimension) (profiles : gmap Dimension Profile) (from to : Dimensions)
    : outcome lifecycle_err (list TransitionRule) :=
  match dims with
  | [] => Ok []
  | dim :: rest =>
      let fromState := Dimensions_State from dim in
      let toState := Dimensions_State to dim in
      if bool_decide (fromState = toState) then declared_in rest profiles from to
      else
        match Profile_Rule (default empty_profile (profiles !! dim)) fromState toState with
        | None => Err ErrUndeclaredTransition
        | Some rule => rules ← declared_in rest profiles from to; Ok (rule :: rules)
        end
  end.
Definition Machine_declaredEdges (m : Machine) (from to : Dimensions)
    : outcome lifecycle_err (list TransitionRule) :=
  declared_in AllDimensions (m_profiles m) from to.

(** A failed step returns with the machine as it stands. *)
Definition attempt {A} (m : Machine) (o : outcome lifecycle_err A)
    (k : A -> Machine * outcome lifecycle_err unit) : Machine * outcome lifecycle_err unit :=
  match o with
  | Ok a => k a
  | Err e => (m, Err e)
  | Panic => (m, Panic)
  end.

(** The record as [Apply] completes it. *)
Definition complete_record (m : Machine) (next : Dimensions) (rules : list TransitionRule)
    (rec : TransitionRecord) : TransitionRecord :=
  mkRecord (Z.of_nat (length (m_history m)) + 1) (m_current m) next (r_At rec) (r_Actor rec) (r_ReasonRef rec)
    (r_GovernanceDecisionRef rec)
    (if bool_decide (r_RetentionClass rec = "") then
       match rules with r :: _ => e_RetentionClass r | [] => r_RetentionClass rec end
     else r_RetentionClass rec).

Definition Machine_Apply (m : Machine) (next : Dimensions) (ctx : Context) (rec : TransitionRecord)
    : Machine * outcome lifecycle_err unit :=
  attempt m (Preserves (m_current m) next) (fun _ =>
  attempt m (Machine_declaredEdges m (m_current m) next) (fun rules =>
  attempt m (Check next ctx) (fun _ =>
  attempt m (fail_if (List.existsb (fun r => e_RequiresGovernance r
                        && bool_decide (r_GovernanceDecisionRef rec = "")) rules) ErrGovernanceBypassed) (fun _ =>
  let '(history, appended) := History_Append (m_history m) (complete_record m next rules rec) in
  let m1 := mkMachine (m_profiles m) (m_current m) history in
  attempt m1 appended (fun _ => (mkMachine (m_profiles m1) next (m_history m1), Ok tt)))))).

Definition zero_dimensions : Dimensions :=
  mkDimensions RequestUnspecified ExecutionUnspecified BusinessUnspecified ConsistencyUnspecified ObligationUnspecified.
Definition seed_record (initial : Dimensions) : TransitionRecord :=
  mkRecord 0 zero_dimensions initial Instant_zero_value "" "" "" "".

Definition ContextAt : Type := TransitionRecord -> Context.

Fixpoint replay_records (m : Machine) (records : list TransitionRecord) (at_ : ContextAt)
    : outcome lifecycle_err Dimensions :=
  match records with
  | [] => Ok (m_current m)
  | rec :: rest =>
      if negb (bool_decide (r_From rec = m_current m)) then Err ErrHistoryImmutable
      else match Machine_Apply m (r_To rec) (at_ rec) rec with
           | (m', Ok _) => replay_records m' rest at_
           | (_, Err e) => Err e
           | (_, Panic) => Panic
           end
  end.

Definition Replay (profiles : option (gmap Dimension Profile)) (initial : Dimensions)
    (records : list TransitionRecord) (at_ : option ContextAt) : outcome lifecycle_err Dimensions :=
  let at_ := default (fun _ => emptyContext) at_ in
  m ← NewMachine profiles initial (at_ (seed_record initial));
  replay_records m records at_.

(** * Runs *)

(** The machines a caller can hold: a new machine, and what successful and
    failed applications leave; the contexts used are listed latest first. *)
Inductive Run (profiles : option (gmap Dimension Profile)) (initial : Dimensions) : list Context -> Machine -> Prop :=
  | run_new ctx m : NewMachine profiles initial ctx = Ok m -> Run profiles initial [ctx] m
  | run_apply ctxs m next ctx rec m' :
      Run profiles initial ctxs m -> Machine_Apply m next ctx rec = (m', Ok tt) ->
      Run profiles initial (ctx :: ctxs) m'
  | run_fail ctxs m next ctx rec m' e :
      Run profiles initial ctxs m -> Machine_Apply m next ctx rec = (m', Err e) ->
      Run profiles initial ctxs m'.

(** A record whose transition was allowed. *)
Record allowed (profiles : gmap Dimension Profile) (rec : TransitionRecord) : Prop := {
  al_time : i_set (r_At rec) = true;
  al_retention : r_RetentionClass rec <> "";
  al_preserves : Preserves (r_From rec) (r_To rec) = Ok tt;
  al_edges : exists rules, declared_in AllDimensions profiles (r_From rec) (r_To rec) = Ok rules
    /\ forall r, In r rules -> e_RequiresGovernance r = true -> r_GovernanceDecisionRef rec <> ""
}.

(** Records numbered from [n] that lead from [d] to [cur]. *)
Fixpoint chained (n : Z) (d : Dimensions) (h : History) (cur : Dimensions) : Prop :=
  match h with
  | [] => cur = d
  | rec :: rest => r_Sequence rec = n /\ r_From rec = d /\ chained (n + 1) (r_To rec) rest cur
  end.

(** * Lemmas *)

Lemma chained_snoc n d h cur rec :
  chained n d h cur -> r_Sequence rec = n + Z.of_nat (length h) -> r_From rec = cur ->
  chained n d (h ++ [rec]) (r_To rec).
Proof.
  revert n d. induction h as [|x h IH]; intros n d; cbn [chained app length].
  - intros -> Hs Hf. split; [lia | done].
  - intros (H1 & H2 & H3) Hs Hf. split; [done|]. split; [done|]. apply IH; [done | lia | done].
Qed.

Lemma chained_last n d h cur : chained n d h cur -> cur = match last h with Some r => r_To r | None => d end.
Proof.
  revert n d. induction h as [|x h IH]; intros n d; cbn [chained]; [done|].
  intros (_ & _ & H). apply IH in H. destruct h as [|y h]; [done|]. rewrite last_cons_cons.
  destruct (last (y :: h)) eqn:E; [done|]. by apply last_None in E.
Qed.

Lemma append_ok h rec h' : History_Append h rec = (h', Ok tt) ->
  h' = h ++ [rec] /\ r_Sequence rec = Z.of_nat (length h) + 1 /\ i_set (r_At rec) = true /\ r_RetentionClass rec <> "".
Proof.
  unfold History_Append. destruct (negb _) eqn:E1; [done|]. destruct (match History_Latest h with Some _ => _ | _ => _ end); [done|].
  destruct (i_set (r_At rec)); cbn [negb]; [|done]. case_bool_decide as E4; [done|]. intros [= <-].
  rewrite negb_false_iff in E1. split; [done|]. split; [lia | done].
Qed.

Lemma append_err h rec h' o : History_Append h rec = (h', o) -> o <> Ok tt -> h' = h /\ o <> Panic.
Proof. unfold History_Append. repeat case_match; by intros [= <- <-]. Qed.

Lemma declared_in_no_panic dims profiles from to : declared_in dims profiles from to <> Panic.
Proof.
  induction dims as [|dim dims IH]; cbn [declared_in]; [done|].
  repeat case_match; try done. destruct (declared_in dims profiles from to); done.
Qed.

Lemma preserves_no_panic dims from to : preserves_in dims from to <> Panic.
Proof. induction dims; cbn [preserves_in]; [done|]. by case_match. Qed.

Lemma Check_no_panic d c : Check d c <> Panic.
Proof. rewrite Check_eq. repeat case_match; done. Qed.

(** What a successful application went through. *)
Lemma apply_inv m next ctx rec m' : Machine_Apply m next ctx rec = (m', Ok tt) ->
  exists rules, Preserves (m_current m) next = Ok tt /\ Machine_declaredEdges m (m_current m) next = Ok rules
    /\ Check next ctx = Ok tt
    /\ (forall r, In r rules -> e_RequiresGovernance r = true -> r_GovernanceDecisionRef rec <> "")
    /\ i_set (r_At rec) = true /\ r_RetentionClass (complete_record m next rules rec) <> ""
    /\ m' = mkMachine (m_profiles m) next (m_history m ++ [complete_record m next rules rec]).
Proof.
  unfold Machine_Apply. destruct (Preserves _ _) as [[]| |] eqn:E1; cbn [attempt]; try done.
  destruct (Machine_declaredEdges _ _ _) as [rules| |] eqn:E2; cbn [attempt]; try done.
  destruct (Check next ctx) as [[]| |] eqn:E3; cbn [attempt]; try done.
  destruct (List.existsb _ rules) eqn:E4; cbn [fail_if attempt]; try done.
  destruct (History_Append _ _) as [h [[]| |]] eqn:E5; cbn [attempt]; try done. intros [= <-].
  apply append_ok in E5 as (-> & _ & E5 & E6). exists rules. repeat split; try done.
  intros r Hin Hg Href. assert (Hx : List.existsb (fun r => e_RequiresGovernance r
    && bool_decide (r_GovernanceDecisionRef rec = "")) rules = true).
  { apply existsb_exists. exists r. split; [done|]. by rewrite Hg, bool_decide_eq_true_2. }
  congruence.
Qed.

(** What is enough for an application to succeed. *)
Lemma apply_intro m next ctx rec rules :
  Preserves (m_current m) next = Ok tt -> Machine_declaredEdges m (m_current m) next = Ok rules ->
  Check next ctx = Ok tt ->
  (forall r, In r rules -> e_RequiresGovernance r = true -> r_GovernanceDecisionRef rec <> "") ->
  i_set (r_At rec) = true -> r_RetentionClass (complete_record m next rules rec) <> "" ->
  match last (m_history m) with Some r => r_To r = m_current m | None => True end ->
  Machine_Apply m next ctx rec
  = (mkMachine (m_profiles m) next (m_history m ++ [complete_record m next rules rec]), Ok tt).
Proof.
  intros E1 E2 E3 E4 E5 E6 E7. unfold Machine_Apply. rewrite E1, E2, E3. cbn [attempt].
  destruct (List.existsb _ rules) eqn:Ex.
  { apply existsb_exists in Ex as (r & Hin & Hr). apply andb_true_iff in Hr as [Hg Href].
    rewrite bool_decide_eq_true in Href. by destruct (E4 r Hin Hg). }
  cbn [fail_if attempt]. unfold History_Append, History_Latest.
  cbn [complete_record r_Sequence r_From r_At]. rewrite Z.eqb_refl. cbn [negb].
  assert (El : match last (m_history m) with
               | Some l => negb (bool_decide (r_To l = m_current m)) | None => false end = false).
  { destruct (last (m_history m)); [|done]. by rewrite bool_decide_eq_true_2. }
  rewrite El, E5. cbn [negb]. rewrite bool_decide_eq_false_2 by done. done.
Qed.

(** A failed application changes nothing, and nothing panics. *)
Lemma apply_fail m next ctx rec m' o : Machine_Apply m next ctx rec = (m', o) -> o <> Ok tt -> m' = m /\ o <> Panic.
Proof.
  unfold Machine_Apply. destruct (Preserves _ _) as [[]| |] eqn:E1; cbn [attempt]; [|by intros [= <- <-]|].
  2:{ by destruct (preserves_no_panic AllDimensions (m_current m) next). }
  destruct (Machine_declaredEdges _ _ _) as [rules| |] eqn:E2; cbn [attempt]; [|by intros [= <- <-]|].
  2:{ by destruct (declared_in_no_panic AllDimensions (m_profiles m) (m_current m) next). }
  destruct (Check next ctx) as [[]| |] eqn:E3; cbn [attempt]; [|by intros [= <- <-]|].
  2:{ by destruct (Check_no_panic next ctx). }
  destruct (List.existsb _ rules) eqn:E4; cbn [fail_if attempt]; [by intros [= <- <-]|].
  destruct (History_Append _ _) as [h o'] eqn:E5. destruct o' as [[]| |]; cbn [attempt]; intros [= <- <-] Hne; [done|..].
  - apply append_err in E5 as [-> _]; [|done]. by destruct m.
  - by apply append_err in E5 as [_ ?].
Qed.

Record machine_ok (profiles : option (gmap Dimension Profile)) (initial : Dimensions) (ctx : Context) (m : Machine)
    : Prop := {
  mo_profiles : m_profiles m = default KernelProfiles profiles;
  mo_assigned : forall dim, In dim AllDimensions ->
    exists p, m_profiles m !! dim = Some p /\ Profile_Validate p = Ok tt /\ p_Dimension p = dim;
  mo_chained : chained 1 initial (m_history m) (m_current m);
  mo_allowed : Forall (allowed (m_profiles m)) (m_history m);
  mo_legal : Check (m_current m) ctx = Ok tt
}.

Lemma check_profiles_ok dims profiles : check_profiles dims profiles = Ok tt ->
  forall dim, In dim dims -> exists p, profiles !! dim = Some p /\ Profile_Validate p = Ok tt /\ p_Dimension p = dim.
Proof.
  induction dims as [|x dims IH]; cbn [check_profiles]; [done|].
  destruct (profiles !! x) as [p|] eqn:E; [|done]. intros H dim Hin. ok_inv.
  rewrite negb_false_iff, bool_decide_eq_true in Hok0. destruct Hin as [<-|Hin]; [eauto | by apply IH].
Qed.

Lemma new_machine_ok profiles initial ctx m : NewMachine profiles initial ctx = Ok m ->
  machine_ok profiles initial ctx m /\ m_history m = [] /\ m_current m = initial.
Proof.
  unfold NewMachine. intros H. ok_inv. subst. split; [|done].
  split; cbn [m_profiles m_current m_history chained]; [done | by apply check_profiles_ok | done | constructor | done].
Qed.

(** The latest record ends where the machine stands. *)
Lemma machine_last profiles initial ctx m : machine_ok profiles initial ctx m ->
  match last (m_history m) with Some r => r_To r = m_current m | None => True end.
Proof.
  intros Hm. pose proof (chained_last _ _ _ _ (mo_chained _ _ _ _ Hm)) as E. by destruct (last (m_history m)).
Qed.

Lemma apply_machine_ok profiles initial ctx0 m next ctx rec m' :
  machine_ok profiles initial ctx0 m -> Machine_Apply m next ctx rec = (m', Ok tt) -> machine_ok profiles initial ctx m'.
Proof.
  intros [H1 H2 H3 H4 H5] Ha. apply apply_inv in Ha as (rules & E1 & E2 & E3 & E4 & E5 & E6 & ->).
  split; cbn [m_profiles m_current m_history]; [done | done | | | done].
  - apply (chained_snoc 1 initial (m_history m) (m_current m)); [done| |done]. cbn [complete_record r_Sequence]. lia.
  - apply Forall_app. split; [done|]. apply Forall_singleton. split; try done. exists rules. by split.
Qed.

Lemma run_ok profiles initial ctxs m : Run profiles initial ctxs m ->
  length ctxs = S (length (m_history m)) /\ exists ctx rest, ctxs = ctx :: rest /\ machine_ok profiles initial ctx m.
Proof.
  induction 1 as [ctx m Hn | ctxs m next ctx rec m' _ [IHl (ctx0 & rest & -> & IH)] Ha
                 | ctxs m next ctx rec m' e _ IH Ha].
  - destruct (new_machine_ok _ _ _ _ Hn) as (Hm & -> & _). split; [done|]. by exists ctx, [].
  - split; [|by eexists _, _; split; [|eapply apply_machine_ok]].
    apply apply_inv in Ha as (rules & _ & _ & _ & _ & _ & _ & ->). cbn [m_history length].
    rewrite length_app. cbn [length] in *. lia.
  - apply apply_fail in Ha as [-> _]; [exact IH | done].
Qed.

(** ** Terminal request states *)

Lemma declared_in_edge dims profiles from to rules dim : declared_in dims profiles from to = Ok rules ->
  In dim dims -> Dimensions_State from dim <> Dimensions_State to dim ->
  exists r, Profile_Rule (default empty_profile (profiles !! dim)) (Dimensions_State from dim) (Dimensions_State to dim)
            = Some r /\ In r rules.
Proof.
  revert rules. induction dims as [|x dims IH]; intros rules; cbn [declared_in In]; [done|].
  intros H [->|Hin] Hne.
  - rewrite bool_decide_eq_false_2 in H by done. destruct (Profile_Rule _ _ _) as [r|]; [|done].
    ok_inv. subst. exists r. split; [done | by left].
  - case_bool_decide; [by apply IH|].
    destruct (Profile_Rule _ (Dimensions_State from x) _) as [r|] eqn:Er; [|done].
    ok_inv. subst. destruct (IH _ Hok Hin Hne) as (r' & Hr' & Hin'). exists r'. split; [done | by right].
Qed.

Lemma request_state_name d : Dimensions_State d DimensionRequest = RequestState_StateID (Request d).
Proof. reflexivity. Qed.

Lemma request_names_inj r r' : RequestState_Valid r = true -> RequestState_Valid r' = true ->
  RequestState_StateID r = RequestState_StateID r' -> r = r'.
Proof. intros H H' E. apply parse_request in H, H'. congruence. Qed.

Lemma kernel_request : KernelProfiles !! DimensionRequest = Some requestProfile.
Proof. reflexivity. Qed.

(** No declared edge leaves a terminal request state. *)
Lemma terminal_no_edge r to : terminal_request r = true ->
  Profile_Rule requestProfile (RequestState_StateID r) to = None.
Proof.
  intros Hr. destruct (Profile_Rule requestProfile (RequestState_StateID r) to) as [t|] eqn:E; [|done].
  apply Profile_Rule_edge in E as (Hin & Hf & _).
  assert (Hall : forallb (fun t => negb (bool_decide (e_From t ∈ p_Terminal requestProfile))) (p_Transitions requestProfile) = true)
    by (vm_compute; reflexivity).
  rewrite forallb_forall in Hall. apply list_elem_of_In in Hin. specialize (Hall t Hin). cbv beta in Hall.
  rewrite Hf in Hall. by destruct r.
Qed.

Lemma terminal_stays m next ctx rec m' :
  m_profiles m = KernelProfiles -> declared (m_current m) = true ->
  terminal_request (Request (m_current m)) = true -> Machine_Apply m next ctx rec = (m', Ok tt) ->
  Request next = Request (m_current m).
Proof.
  intros Hp Hd Ht Ha. apply apply_inv in Ha as (rules & _ & E2 & E3 & _).
  apply Check_ok in E3 as [Hdn _].
  destruct (declared_inv _ Hd) as (V & _). destruct (declared_inv _ Hdn) as (V' & _).
  destruct (decide (Dimensions_State (m_current m) DimensionRequest = Dimensions_State next DimensionRequest)) as [E|Hne].
  - rewrite !request_state_name in E. symmetry. by apply request_names_inj.
  - destruct (declared_in_edge _ _ _ _ _ DimensionRequest E2 ltac:(by left) Hne) as (r & Hr & _).
    rewrite Hp, kernel_request in Hr. cbn [default from_option id] in Hr. rewrite request_state_name in Hr.
    by rewrite terminal_no_edge in Hr.
Qed.

Lemma run_terminal initial ctxs m : Run None initial ctxs m ->
  forall rec, In rec (m_history m) -> terminal_request (Request (r_To rec)) = true ->
  Request (m_current m) = Request (r_To rec).
Proof.
  induction 1 as [ctx m Hn | ctxs m next ctx rec m' Hrun IH Ha | ctxs m next ctx rec m' e _ IH Ha].
  - destruct (new_machine_ok _ _ _ _ Hn) as (_ & -> & _). intros rec [].
  - destruct (run_ok _ _ _ _ Hrun) as (_ & ctx0 & rest & -> & Hm).
    pose proof (terminal_stays m next ctx rec m' (mo_profiles _ _ _ _ Hm)) as Hstay.
    pose proof (proj1 (Check_ok _ _) (mo_legal _ _ _ _ Hm)) as [Hd _]. specialize (Hstay Hd).
    pose proof Ha as Ha'. apply apply_inv in Ha' as (rules & _ & _ & _ & _ & _ & _ & ->).
    cbn [m_history m_current]. intros rec0 Hin Ht. apply in_app_iff in Hin as [Hin|[<-|[]]]; [|reflexivity].
    specialize (IH rec0 Hin Ht). rewrite <- IH in Ht. rewrite (Hstay Ht Ha). exact IH.
  - apply apply_fail in Ha as [-> _]; [exact IH | done].
Qed.

(** ** Replay *)

(** A recorded transition applies again, to the same machine. *)
Lemma complete_again m rules rec next :
  let rec' := complete_record m next rules rec in
  r_RetentionClass rec' <> "" -> complete_record m next rules rec' = rec'.
Proof.
  intros rec' Hr. unfold rec' at 1 2. unfold complete_record at 1. cbn [r_At r_Actor r_ReasonRef r_GovernanceDecisionRef].
  fold rec'. rewrite (bool_decide_eq_false_2 (r_RetentionClass rec' = "")) by done. reflexivity.
Qed.

Lemma reapply profiles initial ctx0 m next ctx rec m' rules :
  machine_ok profiles initial ctx0 m -> Machine_Apply m next ctx rec = (m', Ok tt) ->
  Machine_declaredEdges m (m_current m) next = Ok rules ->
  let rec' := complete_record m next rules rec in
  m' = mkMachine (m_profiles m) next (m_history m ++ [rec']) /\ Machine_Apply m next ctx rec' = (m', Ok tt).
Proof.
  intros Hm Ha Er rec'. pose proof Ha as Ha'.
  apply apply_inv in Ha' as (rules' & E1 & E2 & E3 & E4 & E5 & E6 & ->). rewrite Er in E2. injection E2 as <-.
  split; [done|]. pose proof (complete_again m rules rec next E6) as Ec. fold rec' in Ec.
  rewrite (apply_intro m next ctx rec' rules); try done.
  - by rewrite Ec.
  - by rewrite Ec.
  - by apply (machine_last profiles initial ctx0).
Qed.

Lemma run_replay profiles initial at_ ctxs m : Run profiles initial ctxs m ->
  Forall2 (fun ctx rec => at_ rec = ctx) (rev ctxs) (seed_record initial :: m_history m) ->
  exists m0, NewMachine profiles initial (at_ (seed_record initial)) = Ok m0
    /\ forall tail, replay_records m0 (m_history m ++ tail) at_ = replay_records m tail at_.
Proof.
  induction 1 as [ctx m Hn | ctxs m next ctx rec m' Hrun IH Ha | ctxs m next ctx rec m' e _ IH Ha]; intros Hctx.
  - cbn [rev app] in Hctx. apply Forall2_cons_1 in Hctx as [-> _]. exists m. split; [exact Hn|].
    destruct (new_machine_ok _ _ _ _ Hn) as (_ & -> & _). reflexivity.
  - destruct (run_ok _ _ _ _ Hrun) as (_ & ctx0 & rest & Hc & Hm). pose proof Ha as Ha'.
    apply apply_inv in Ha' as (rules & _ & Er & _).
    destruct (reapply _ _ _ _ _ _ _ _ _ Hm Ha Er) as [-> Hre].
    set (rec' := complete_record m next rules rec) in *. cbn [m_history] in *. cbn [rev] in Hctx.
    rewrite app_comm_cons in Hctx. apply Forall2_app_inv in Hctx as [Hctx Hlast].
    2:{ pose proof (run_ok _ _ _ _ Hrun) as [Hl _]. rewrite length_rev. exact Hl. }
    apply Forall2_cons_1 in Hlast as [Hat _]. destruct (IH Hctx) as (m0 & Hn & Hrep).
    exists m0. split; [exact Hn|]. intros tail. rewrite <- app_assoc, Hrep. cbn [app replay_records].
    rewrite (bool_decide_eq_true_2 (r_From rec' = m_current m)) by reflexivity. cbn [negb].
    rewrite Hat. change (r_To rec') with next. rewrite Hre. reflexivity.
  - apply apply_fail in Ha as [-> _]; [by apply IH | done].
Qed.

Definition ends (rec : TransitionRecord) : Dimensions * Dimensions := (r_From rec, r_To rec).

Lemma replay_run profiles initial at_ records ctxs m d : Run profiles initial ctxs m ->
  replay_records m records at_ = Ok d ->
  exists ctxs' m', Run profiles initial ctxs' m' /\ m_current m' = d
    /\ map ends (m_history m') = map ends (m_history m) ++ map ends records.
Proof.
  revert ctxs m. induction records as [|rec records IH]; intros ctxs m Hrun; cbn [replay_records map].
  - intros [= <-]. exists ctxs, m. split; [exact Hrun|]. split; [reflexivity | by rewrite app_nil_r].
  - case_bool_decide as Hf; cbn [negb]; [|discriminate].
    destruct (Machine_Apply m (r_To rec) (at_ rec) rec) as [m' [[]|e|]] eqn:Ha; try discriminate. intros Hr.
    destruct (IH _ m' (run_apply _ _ _ _ _ _ _ _ Hrun Ha) Hr) as (ctxs' & m'' & Hrun' & Hc & Hh).
    exists ctxs', m''. split; [exact Hrun'|]. split; [exact Hc|]. rewrite Hh.
    apply apply_inv in Ha as (rules & _ & _ & _ & _ & _ & _ & ->). cbn [m_history].
    rewrite map_app, <- app_assoc. cbn [map app]. unfold ends at 2. cbn [complete_record r_From r_To].
    by rewrite <- Hf.
Qed.

(** ** Narrowed profiles *)

Definition narrowed (profiles base : gmap Dimension Profile) : Prop :=
  forall dim, In dim AllDimensions -> exists p b, profiles !! dim = Some p /\ base !! dim = Some b
    /\ Profile_Narrows p b = Ok tt.

Lemma declared_in_narrowed dims profiles base from to rules :
  (forall dim, In dim dims -> exists p b, profiles !! dim = Some p /\ base !! dim = Some b
     /\ Profile_Narrows p b = Ok tt /\ Profile_Validate b = Ok tt) ->
  declared_in dims profiles from to = Ok rules ->
  exists rules', declared_in dims base from to = Ok rules' /\ length rules' = length rules
    /\ forall r, In r rules' -> e_RetentionClass r <> "".
Proof.
  revert rules. induction dims as [|dim dims IH]; intros rules Hn; cbn [declared_in].
  - intros [= <-]. by exists [].
  - case_bool_decide; [apply IH; intros d Hd; apply Hn; by right|].
    destruct (Hn dim (or_introl eq_refl)) as (p & b & -> & -> & Hnar & Hv). cbn [default from_option id].
    destruct (Profile_Rule p _ _) as [t|] eqn:Et; [|discriminate]. intros Hr. ok_inv. subst.
    destruct (narrows_rule _ _ _ _ _ Hnar Et) as [t' Et']. rewrite Et'.
    destruct (IH _ (fun d Hd => Hn d (or_intror Hd)) Hok) as (rules' & -> & Hl & Hret).
    exists (t' :: rules'). split; [reflexivity|]. split; [cbn [length]; by rewrite Hl|].
    intros r [<-|Hin]; [|by apply Hret]. apply Profile_Validate_sound in Hv.
    apply Profile_Rule_edge in Et' as (Hin & _). by apply (pub_edges _ Hv).
Qed.

Lemma narrowed_apply profiles initial ctx0 m base next ctx rec m' :
  machine_ok profiles initial ctx0 m -> narrowed (m_profiles m) base ->
  (forall dim, In dim AllDimensions -> exists b, base !! dim = Some b /\ Profile_Validate b = Ok tt) ->
  Machine_Apply m next ctx rec = (m', Ok tt) -> r_GovernanceDecisionRef rec <> "" ->
  exists mb, Machine_Apply (mkMachine base (m_current m) (m_history m)) next ctx rec = (mb, Ok tt)
    /\ m_current mb = m_current m' /\ length (m_history mb) = length (m_history m').
Proof.
  intros Hm Hn Hb Ha Hg. pose proof Ha as Ha'.
  apply apply_inv in Ha' as (rules & E1 & E2 & E3 & _ & E5 & E6 & ->).
  destruct (declared_in_narrowed AllDimensions (m_profiles m) base (m_current m) next rules) as (rules' & Er & Hl & Hret).
  - intros dim Hin. destruct (Hn dim Hin) as (p & b & H1 & H2 & H3). destruct (Hb dim Hin) as (b' & H4 & H5).
    exists p, b. rewrite H2 in H4. injection H4 as <-. done.
  - exact E2.
  - eexists. split; [apply (apply_intro _ _ _ _ rules')|]; cbn [m_current m_history m_profiles]; try done.
    + cbn [complete_record r_RetentionClass] in *. case_bool_decide as Hr; [|done].
      destruct rules' as [|r' rules']; [|apply Hret; by left]. by destruct rules.
    + by apply (machine_last profiles initial ctx0).
    + split; [done|]. by rewrite !length_app.
Qed.

(** * A sample run *)

Definition draft_of (r : RequestState) : Dimensions :=
  mkDimensions r ExecutionNotPlanned BusinessNotStarted ConsistencyNotApplicable ObligationNotApplicable.
Definition live : Context := mkContext false "" [] "" "" false true.
Definition at_noon (gov : string) : TransitionRecord :=
  mkRecord 0 zero_dimensions zero_dimensions (mkInstant true 43200 0) "user" "reason" gov "".
Definition step_of (m : Machine) (r : RequestState) (gov : string) : Machine * outcome lifecycle_err unit :=
  Machine_Apply m (draft_of r) live (at_noon gov).

Definition fresh : Machine := mkMachine KernelProfiles (draft_of RequestDraft) [].
Definition withdrawn : Machine := (step_of fresh RequestWithdrawn "").1.

Lemma fresh_new : NewMachine None (draft_of RequestDraft) live = Ok fresh.
Proof. vm_compute. reflexivity. Qed.

Lemma withdrawn_step : step_of fresh RequestWithdrawn "" = (withdrawn, Ok tt).
Proof. vm_compute. reflexivity. Qed.

Lemma withdrawn_run : Run None (draft_of RequestDraft) [live; live] withdrawn.
Proof.
  eapply run_apply; [apply run_new; exact fresh_new | exact withdrawn_step].
Qed.

(** * Properties *)

(** C33: a transition is all or nothing: [Apply] either succeeds, moves the
    machine to the requested tuple and appends one record, numbered next and
    running from the old tuple to the new one, or returns an error and leaves
    the machine and its history exactly as they were; it never panics. *)
Theorem apply_all_or_nothing (m m' : Machine) (next : Dimensions) (ctx : Context) (rec : TransitionRecord)
    (o : outcome lifecycle_err unit) :
  Machine_Apply m next ctx rec = (m', o) ->
  (o = Ok tt /\ m_profiles m' = m_profiles m /\ m_current m' = next
    /\ exists rec', m_history m' = m_history m ++ [rec'] /\ r_Sequence rec' = Z.of_nat (length (m_history m)) + 1
       /\ r_From rec' = m_current m /\ r_To rec' = next /\ r_At rec' = r_At rec)
  \/ (exists e, o = Err e /\ m' = m).
Proof.
  intros Ha. destruct o as [[]|e|].
  - left. apply apply_inv in Ha as (rules & _ & _ & _ & _ & _ & _ & ->). split; [reflexivity|].
    split; [reflexivity|]. split; [reflexivity|]. eexists. split; [reflexivity|]. repeat split.
  - right. exists e. split; [reflexivity|]. by apply apply_fail in Ha as [-> _].
  - by apply apply_fail in Ha as [_ ?].
Qed.

Lemma apply_all_or_nothing_witness :
  exists e, step_of fresh RequestApproved "" = (fresh, Err e).
Proof.
  destruct (step_of fresh RequestApproved "") as [m' o] eqn:E.
  destruct (apply_all_or_nothing fresh m' _ _ _ o E) as [(-> & _)|(e & -> & ->)].
  - vm_compute in E. discriminate E.
  - exists e. reflexivity.
Defined.

(** C2: every machine a caller can hold is sound: it stands at a legal tuple
    under the latest context it was checked in, and its history is a chain of
    records numbered 1, 2, 3, ... that leads from the initial tuple to the
    current one, each with a timestamp, a retention class, no lost dimension,
    a declared edge for every dimension that moved and a governance reference
    wherever such an edge demands one. *)
Theorem machine_invariant (profiles : option (gmap Dimension Profile)) (initial : Dimensions)
    (ctxs : list Context) (m : Machine) :
  Run profiles initial ctxs m ->
  exists ctx rest, ctxs = ctx :: rest /\ legal (m_current m) ctx
    /\ chained 1 initial (m_history m) (m_current m)
    /\ Forall (allowed (default KernelProfiles profiles)) (m_history m)
    /\ length rest = length (m_history m).
Proof.
  intros Hrun. destruct (run_ok _ _ _ _ Hrun) as (Hl & ctx & rest & -> & [H1 H2 H3 H4 H5]).
  exists ctx, rest. split; [reflexivity|]. split; [by apply Check_ok|]. split; [exact H3|].
  rewrite <- H1. split; [exact H4 | cbn [length] in Hl; lia].
Qed.

Lemma machine_invariant_witness :
  chained 1 (draft_of RequestDraft) (m_history withdrawn) (m_current withdrawn).
Proof.
  destruct (machine_invariant None (draft_of RequestDraft) [live; live] withdrawn withdrawn_run)
    as (ctx & rest & _ & _ & Hc & _).
  exact Hc.
Defined.

(** under the kernel profiles a terminal request state is final: once a
    recorded transition has entered REJECTED, WITHDRAWN, CANCELLED or
    SUPERSEDED, the machine's request state stays there whatever is applied
    afterwards, and it is never EXECUTING. *)
Theorem terminal_absorbing (initial : Dimensions) (ctxs : list Context) (m : Machine) (rec : TransitionRecord) :
  Run None initial ctxs m -> In rec (m_history m) -> terminal_request (Request (r_To rec)) = true ->
  Request (m_current m) = Request (r_To rec) /\ Execution (m_current m) <> ExecutionExecuting.
Proof.
  intros Hrun Hin Ht. pose proof (run_terminal _ _ _ Hrun rec Hin Ht) as Hr. split; [exact Hr|].
  destruct (run_ok _ _ _ _ Hrun) as (_ & ctx & rest & _ & Hm).
  pose proof (proj1 (Check_ok _ _) (mo_legal _ _ _ _ Hm)) as [_ Hl].
  intros He. pose proof (Hl RuleTerminalCannotExecute He) as Hne. rewrite Hr in Hne.
  destruct (Request (r_To rec)); try discriminate; destruct Hne as (? & ? & ? & ?); congruence.
Qed.

Lemma terminal_absorbing_witness : Execution (m_current withdrawn) <> ExecutionExecuting.
Proof.
  destruct (m_history withdrawn) as [|rec h] eqn:E; [vm_compute in E; discriminate E|].
  apply (terminal_absorbing (draft_of RequestDraft) [live; live] withdrawn rec withdrawn_run).
  - rewrite E. left. reflexivity.
  - vm_compute in E. injection E as <- _. reflexivity.
Defined.

(** C19: replay reproduces live work: the recorded history of any run, replayed
    from the initial tuple with the contexts that were in force, is accepted
    and ends at the tuple where the machine stands. *)
Theorem replay_reproduces (profiles : option (gmap Dimension Profile)) (initial : Dimensions)
    (ctxs : list Context) (m : Machine) (at_ : ContextAt) :
  Run profiles initial ctxs m ->
  Forall2 (fun ctx rec => at_ rec = ctx) (rev ctxs) (seed_record initial :: m_history m) ->
  Replay profiles initial (m_history m) (Some at_) = Ok (m_current m).
Proof.
  intros Hrun Hat. destruct (run_replay _ _ _ _ _ Hrun Hat) as (m0 & Hn & Hrep).
  unfold Replay. cbn [default from_option id]. rewrite Hn. cbn [mbind outcome_bind].
  specialize (Hrep []). rewrite app_nil_r in Hrep. rewrite Hrep. reflexivity.
Qed.

Lemma replay_reproduces_witness :
  Replay None (draft_of RequestDraft) (m_history withdrawn) (Some (fun _ => live)) = Ok (m_current withdrawn).
Proof.
  apply (replay_reproduces None (draft_of RequestDraft) [live; live] withdrawn (fun _ => live) withdrawn_run).
  cbn [rev app]. constructor; [reflexivity|]. vm_compute m_history. constructor; [reflexivity | constructor].
Defined.

(** replay accepts nothing a live machine would refuse: if it accepts a list
    of records and ends at a tuple, then some run of the machine makes the same
    moves, record by record, and stands at that tuple. *)
Theorem replay_sound (profiles : option (gmap Dimension Profile)) (initial d : Dimensions)
    (records : list TransitionRecord) (at_ : option ContextAt) :
  Replay profiles initial records at_ = Ok d ->
  exists ctxs m, Run profiles initial ctxs m /\ m_current m = d
    /\ map (fun r => (r_From r, r_To r)) (m_history m) = map (fun r => (r_From r, r_To r)) records.
Proof.
  unfold Replay. intros H. apply bind_ok_inv in H as (m0 & Hn & Hr).
  destruct (replay_run _ _ _ _ _ _ _ (run_new _ _ _ _ Hn) Hr) as (ctxs & m & Hrun & Hc & Hh).
  exists ctxs, m. split; [exact Hrun|]. split; [exact Hc|].
  destruct (new_machine_ok _ _ _ _ Hn) as (_ & Hh0 & _). rewrite Hh0 in Hh. exact Hh.
Qed.

Lemma replay_sound_witness :
  exists ctxs m, Run None (draft_of RequestDraft) ctxs m /\ m_current m = m_current withdrawn.
Proof.
  destruct (replay_sound None (draft_of RequestDraft) (m_current withdrawn) (m_history withdrawn)
    (Some (fun _ => live))) as (ctxs & m & Hrun & Hc & _); [vm_compute; reflexivity|].
  exists ctxs, m. split; [exact Hrun | exact Hc].
Defined.

(** C37: a domain machine is simulated by the kernel's: when its profiles narrow
    valid base profiles, every transition it accepts with a governance
    reference is also accepted by the machine that has the base profiles, and
    leads to the same tuple. *)
Theorem narrowed_simulated (profiles : option (gmap Dimension Profile)) (initial : Dimensions)
    (ctxs : list Context) (m m' : Machine) (base : gmap Dimension Profile) (next : Dimensions) (ctx : Context)
    (rec : TransitionRecord) :
  Run profiles initial ctxs m -> narrowed (m_profiles m) base ->
  (forall dim, In dim AllDimensions -> exists b, base !! dim = Some b /\ Profile_Validate b = Ok tt) ->
  Machine_Apply m next ctx rec = (m', Ok tt) -> r_GovernanceDecisionRef rec <> "" ->
  exists mb, Machine_Apply (mkMachine base (m_current m) (m_history m)) next ctx rec = (mb, Ok tt)
    /\ m_current mb = m_current m' /\ length (m_history mb) = length (m_history m').
Proof.
  intros Hrun. destruct (run_ok _ _ _ _ Hrun) as (_ & ctx0 & rest & _ & Hm).
  by apply (narrowed_apply profiles initial ctx0).
Qed.

(** The kernel request profile with the governance flags dropped. *)
Definition ungoverned : Profile :=
  mkProfile "domain.request/v1" DimensionRequest (p_States requestProfile) (p_Initial requestProfile)
    (p_Terminal requestProfile)
    (List.map (fun t => mkEdge (e_From t) (e_To t) false (e_RetentionClass t)) (p_Transitions requestProfile)).
Definition ungoverned_profiles : gmap Dimension Profile := <[DimensionRequest := ungoverned]> KernelProfiles.
Definition submitted : Machine := mkMachine ungoverned_profiles (draft_of RequestSubmitted) [].

Lemma ungoverned_narrows : narrowed ungoverned_profiles KernelProfiles.
Proof.
  intros dim Hin. repeat destruct Hin as [<-|Hin]; [..|destruct Hin];
    do 2 eexists; (split; [vm_compute; reflexivity|]); (split; [vm_compute; reflexivity|]); vm_compute; reflexivity.
Qed.

Lemma kernel_assigned dim : In dim AllDimensions ->
  exists b, KernelProfiles !! dim = Some b /\ Profile_Validate b = Ok tt.
Proof.
  intros Hin. repeat destruct Hin as [<-|Hin]; [..|destruct Hin];
    eexists; (split; [vm_compute; reflexivity|]); vm_compute; reflexivity.
Qed.

Lemma submitted_run : Run (Some ungoverned_profiles) (draft_of RequestSubmitted) [live] submitted.
Proof. apply run_new. vm_compute. reflexivity. Qed.

Definition approved_submitted : Machine := (step_of submitted RequestApproved "decision-1").1.

Lemma narrowed_simulated_witness :
  exists mb, step_of (mkMachine KernelProfiles (draft_of RequestSubmitted) []) RequestApproved "decision-1" = (mb, Ok tt).
Proof.
  destruct (narrowed_simulated (Some ungoverned_profiles) (draft_of RequestSubmitted) [live] submitted
    approved_submitted KernelProfiles (draft_of RequestApproved) live (at_noon "decision-1")
    submitted_run ungoverned_narrows kernel_assigned) as (mb & E & _).
  - vm_compute. reflexivity.
  - discriminate.
  - exists mb. exact E.
Defined.

(** narrowing does not protect governance: a profile that passes [Validate]
    and [Narrows] the kernel request profile may drop the governance flag of an
    edge, and its machine then approves a submitted request with no governance
    decision, which the kernel's machine refuses. *)
Theorem narrowing_drops_governance :
  Profile_Validate ungoverned = Ok tt /\ Profile_Narrows ungoverned requestProfile = Ok tt
  /\ (exists m', step_of submitted RequestApproved "" = (m', Ok tt) /\ Request (m_current m') = RequestApproved)
  /\ step_of (mkMachine KernelProfiles (draft_of RequestSubmitted) []) RequestApproved ""
     = (mkMachine KernelProfiles (draft_of RequestSubmitted) [], Err ErrGovernanceBypassed).
Proof.
  split; [vm_compute; reflexivity|]. split; [vm_compute; reflexivity|]. split.
  - exists (step_of submitted RequestApproved "").1. split; vm_compute; reflexivity.
  - vm_compute. reflexivity.
Qed.
