(* ===== verification/WorkflowPlan.v ===== *)
(** The vocabulary of workflows and the compiled plan the runtime reads:
    [internal/workflow/steptype.go], the edges, retry policies and runtime
    statuses of [definition.go], the terminal of [terminal.go], and the plan of
    [compile.go] as far as the runtime reads it.  Step types, phases, outcomes
    and statuses are Go strings, so a value outside the declared ones exists. *)

From S2P Require Import Prelude Sorting LifecycleRules.

Local Open Scope Z_scope.

(** * Step types *)

Definition StepType : Type := string.
Definition StepCapability : StepType := "CAPABILITY".
Definition StepDecision : StepType := "DECISION".
Definition StepTransform : StepType := "TRANSFORM".
Definition StepObserve : StepType := "OBSERVE".
Definition StepEnd : StepType := "END".
Definition StepApproval : StepType := "APPROVAL".
Definition StepTask : StepType := "TASK".
Definition StepWait : StepType := "WAIT".
Definition StepSignal : StepType := "SIGNAL".
Definition StepCompensate : StepType := "COMPENSATE".
Definition StepParallel : StepType := "PARALLEL".
Definition StepJoin : StepType := "JOIN".
Definition StepSubworkflow : StepType := "SUBWORKFLOW".

Definition Phase : Type := string.
Definition PhaseP1A : Phase := "P1A".
Definition PhaseP1B : Phase := "P1B".
Definition PhaseStructural : Phase := "STRUCTURAL".

Definition Outcome : Type := string.
Definition OutcomeSucceeded : Outcome := "SUCCEEDED".
Definition OutcomeRejected : Outcome := "REJECTED".
Definition OutcomeUnknown : Outcome := "UNKNOWN".
Definition OutcomeAmbiguous : Outcome := "AMBIGUOUS".
Definition OutcomeFailed : Outcome := "FAILED".
Definition OutcomePass : Outcome := "PASS".
Definition OutcomeFail : Outcome := "FAIL".
Definition OutcomePartial : Outcome := "PARTIAL".

Record Conformance : Type := mkConformance {
  cf_Type : StepType;
  cf_Phase : Phase;
  cf_Outcomes : list Outcome;
  cf_AuthorRoutes : bool;
  cf_Terminal : bool;
  cf_RequiresCapability : bool;
  cf_MayCarryEffect : bool;
  cf_FanOutRoute : Outcome
}.

Definition conformanceTable : list (StepType * Conformance) :=
  (fun c => (cf_Type c, c)) <$> [
    mkConformance StepCapability PhaseP1A [OutcomeSucceeded; OutcomeRejected; OutcomeUnknown; OutcomeAmbiguous] false false true true "";
    mkConformance StepDecision PhaseP1A [OutcomeUnknown] true false false false "";
    mkConformance StepTransform PhaseP1A [OutcomeSucceeded; OutcomeFailed] false false false false "";
    mkConformance StepObserve PhaseP1A [OutcomePass; OutcomeFail; OutcomeUnknown; OutcomePartial] false false true false "";
    mkConformance StepEnd PhaseP1A [] false true false false "";
    mkConformance StepApproval PhaseP1B ["APPROVED"; OutcomeRejected; "INVALIDATED"; "EXPIRED"; "CANCELLED"] false false false false "";
    mkConformance StepTask PhaseP1B [OutcomeSucceeded; OutcomeRejected; "EXPIRED"; "CANCELLED"] false false false false "";
    mkConformance StepWait PhaseP1B [OutcomeSucceeded; "LATE"; "CANCELLED"] false false false false "";
    mkConformance StepSignal PhaseP1B [OutcomeSucceeded; "TIMED_OUT"; "CANCELLED"] false false false false "";
    mkConformance StepCompensate PhaseP1B ["COMPENSATED"; OutcomePartial; OutcomeFailed; "REPAIR_REQUIRED"] false false true true "";
    mkConformance StepParallel PhaseStructural [OutcomeSucceeded; OutcomeFailed] false false false false OutcomeSucceeded;
    mkConformance StepJoin PhaseStructural [OutcomeSucceeded; OutcomePartial; OutcomeFailed] false false false false "";
    mkConformance StepSubworkflow PhaseStructural
      [OutcomeSucceeded; OutcomeRejected; "CANCELLED"; "COMPENSATED"; "ALREADY_COMPLETED"; "CANNOT_CANCEL"] false false false true ""
  ].

(** The first entry of an association list with the key. *)
Fixpoint assoc {A} (k : string) (l : list (string * A)) : option A :=
  match l with
  | [] => None
  | (k', a) :: l' => if String.eqb k' k then Some a else assoc k l'
  end.

Definition ConformanceFor (t : StepType) : option Conformance := assoc t conformanceTable.

Definition StepTypes : list StepType := sort_Strings (fst <$> conformanceTable).

Definition StepType_Valid (t : StepType) : bool := bool_decide (is_Some (ConformanceFor t)).

Definition Phase_rank (p : Phase) : Z :=
  if String.eqb p PhaseP1A then 0
  else if String.eqb p PhaseP1B then 1
  else if String.eqb p PhaseStructural then 2
  else -1.

Definition Phase_admits (p : Phase) (t : StepType) : bool :=
  match ConformanceFor t with
  | None => false
  | Some c => Phase_rank (cf_Phase c) <=? Phase_rank p
  end.

Definition ExecutionMode : Type := string.
Definition ExecutionMode_Valid (m : ExecutionMode) : bool :=
  bool_decide (m ∈ ["SIMULATE"; "EXECUTE"; "REPLAY"; "REPAIR"; "SHADOW"]).

(** * The compiled plan *)

Record Edge : Type := mkEdge { e_From : string; e_To : string; e_RouteKey : string }.
#[export] Instance Edge_eq_dec : EqDecision Edge.
Proof. solve_decision. Defined.

Definition RuntimeStatus : Type := string.
Definition RuntimeCompleted : RuntimeStatus := "COMPLETED".
Definition RuntimeStatus_Valid (s : RuntimeStatus) : bool :=
  bool_decide (s ∈ [RuntimeCompleted; "CANCELLED"; "BLOCKED"; "REPAIR_REQUIRED"; "QUARANTINED"; "SUPERSEDED"]).

Record Terminal : Type := mkTerminal {
  tm_NodeID : string;
  tm_TerminalCode : string;
  tm_RuntimeStatus : RuntimeStatus;
  tm_Dimensions : Dimensions;
  tm_OutstandingObligationRefs : list string;
  tm_RepairRefs : list string;
  tm_IncidentRefs : list string
}.

Record DecisionRoute : Type := mkRoute { dr_Key : string; dr_Predicate : string; dr_Precedence : Z }.
Record RetryPolicy : Type := mkRetry { rp_MaxAttempts : Z; rp_BackoffRef : string }.

(** The fields of a DECISION the runtime reads. *)
Record CompiledDecision : Type := mkDecision { cd_Routes : list DecisionRoute; cd_DefaultRoute : string }.

(** The fields of a compiled node the runtime reads: schemas, mappings,
    bindings and governance are carried through unread. *)
Record CompiledNode : Type := mkNode {
  cn_ID : string;
  cn_Type : StepType;
  cn_Decision : option CompiledDecision;
  cn_Terminal : option Terminal;
  cn_Retry : option RetryPolicy;
  cn_FailureRoute : string
}.

(** The fields of a plan the runtime reads, with the digest minted for it. *)
Record CompiledWorkflow : Type := mkPlan {
  cw_WorkflowID : string;
  cw_Version : Z;
  cw_StartNodeID : string;
  cw_Nodes : list CompiledNode;
  cw_Edges : list Edge;
  cw_digest : string
}.

Definition CompiledWorkflow_Digest (p : CompiledWorkflow) : string := cw_digest p.

Fixpoint find_node (id : string) (ns : list CompiledNode) : option CompiledNode :=
  match ns with
  | [] => None
  | n :: ns' => if String.eqb (cn_ID n) id then Some n else find_node id ns'
  end.
Definition CompiledWorkflow_Node (p : CompiledWorkflow) (id : string) : option CompiledNode := find_node id (cw_Nodes p).

(** * Lemmas *)

Lemma find_node_ID id ns n : find_node id ns = Some n -> cn_ID n = id /\ n ∈ ns.
Proof.
  induction ns as [|m ns IH]; cbn; [done|]. destruct (String.eqb_spec (cn_ID m) id); [intros [= <-]; split; [done|left]|].
  intros H. destruct (IH H). split; [done|by right].
Qed.

(** Every table entry is reached by its own type. *)
Lemma conformance_types : forall c, c ∈ conformanceTable -> ConformanceFor (fst c) = Some (snd c) /\ cf_Type (snd c) = fst c.
Proof. apply Forall_forall. repeat constructor. Qed.

Lemma assoc_elem {A} k (l : list (string * A)) a : assoc k l = Some a -> (k, a) ∈ l.
Proof.
  induction l as [|[k' b] l IH]; cbn; [done|]. destruct (String.eqb_spec k' k) as [->|]; [intros [= ->]; left|].
  intros H. right. by apply IH.
Qed.

(** Every step type but END produces an outcome. *)
Lemma conformance_outcomes t c : ConformanceFor t = Some c -> t <> StepEnd -> cf_Outcomes c <> [].
Proof.
  intros H%assoc_elem. revert H. assert (Hall : Forall (fun tc => fst tc <> StepEnd -> cf_Outcomes (snd tc) <> []) conformanceTable).
  { repeat constructor; cbn; done. }
  rewrite Forall_forall in Hall. intros H. exact (Hall _ H).
Qed.
