(* ===== verification/Frontier.v ===== *)
(** Advancement of a workflow instance: [internal/workflow/frontier].  The
    state of an instance is a value; [Advance] computes what follows from one
    node outcome.  A method of [*advance] is a function on the working set
    [advance]; the digest of a transition's canonical JSON is a parameter.  The
    detail text of a refusal is not modelled, its code and node are. *)

From S2P Require Import Prelude Sorting Graphs LifecycleRules WorkflowPlan.

Local Open Scope Z_scope.

(** * Refusals: [errors.go] *)

Record Error : Type := mkError { er_Code : string; er_NodeID : string }.
Definition CodeInvalidPlan : string := "INVALID_PLAN".
Definition CodePlanMismatch : string := "PLAN_MISMATCH".
Definition CodeUnknownNode : string := "UNKNOWN_NODE".
Definition CodeNodeNotActive : string := "NODE_NOT_ACTIVE".
Definition CodeAlreadyComplete : string := "ALREADY_COMPLETE".
Definition CodeUnknownOutcome : string := "UNKNOWN_OUTCOME".
Definition CodeMissingRoute : string := "MISSING_ROUTE".
Definition CodeNoMatchingRoute : string := "NO_MATCHING_ROUTE".
Definition CodeNoFailureRoute : string := "NO_FAILURE_ROUTE".
Definition CodeAwaitNotAdmitted : string := "AWAIT_NOT_ADMITTED".
Definition CodeJoinNotDeclared : string := "JOIN_NOT_DECLARED".
Definition CodeInvalidJoinDeclaration : string := "INVALID_JOIN_DECLARATION".
Definition CodeMissingTerminal : string := "MISSING_TERMINAL".
Definition CodeTerminalMismatch : string := "TERMINAL_MISMATCH".
Definition CodeTerminalFrontierRemains : string := "TERMINAL_FRONTIER_REMAINS".
Definition CodeInvalidState : string := "INVALID_STATE".

Definition refuse {A} (code node : string) : outcome Error A := Err (mkError code node).

(** * Instance states: [state.go] *)

Definition NodeState : Type := string.
Definition NodeReady : NodeState := "READY".
Definition NodeRunning : NodeState := "RUNNING".
Definition NodeWaiting : NodeState := "WAITING".
Definition NodeRetrying : NodeState := "RETRYING".
Definition NodeSucceeded : NodeState := "SUCCEEDED".
Definition NodeFailed : NodeState := "FAILED".
Definition NodeSkipped : NodeState := "SKIPPED".
Definition NodeOverridden : NodeState := "OVERRIDDEN".
Definition NodeCompensated : NodeState := "COMPENSATED".
Definition NodeCancelled : NodeState := "CANCELLED".

Definition NodeState_Active (s : NodeState) : bool :=
  bool_decide (s ∈ [NodeReady; NodeRunning; NodeWaiting; NodeRetrying]).
Definition NodeState_Valid (s : NodeState) : bool :=
  bool_decide (s ∈ [NodeReady; NodeRunning; NodeWaiting; NodeRetrying; NodeSucceeded; NodeFailed; NodeSkipped;
                    NodeOverridden; NodeCompensated; NodeCancelled]).

Record NodeStatus : Type := mkStatus {
  ns_NodeID : string;
  ns_State : NodeState;
  ns_Attempts : Z;
  ns_RouteKey : string;
  ns_OutputDigest : string
}.

Definition JoinStrategy : Type := string.
Definition JoinAll : JoinStrategy := "ALL".
Definition JoinAny : JoinStrategy := "ANY".
Definition JoinQuorum : JoinStrategy := "QUORUM".
Definition JoinRequiredSet : JoinStrategy := "REQUIRED_SET".
Definition JoinBestEffort : JoinStrategy := "BEST_EFFORT".
Definition JoinStrategy_Valid (s : JoinStrategy) : bool :=
  bool_decide (s ∈ [JoinAll; JoinAny; JoinQuorum; JoinRequiredSet; JoinBestEffort]).

Record JoinDeclaration : Type := mkDeclaration {
  jd_NodeID : string;
  jd_Strategy : JoinStrategy;
  jd_RequiredCount : Z;
  jd_RequiredBranches : list string
}.

Record JoinCounter : Type := mkCounter {
  jc_NodeID : string;
  jc_Strategy : JoinStrategy;
  jc_Required : Z;
  jc_RequiredBranches : list string;
  jc_Branches : list string;
  jc_Arrived : list string;
  jc_Satisfied : list string;
  jc_Skipped : list string;
  jc_Activated : bool;
  jc_Blocked : bool
}.

Record LifecycleState : Type := mkLifecycle {
  ls_RequestState : string;
  ls_ExecutionState : string;
  ls_BusinessState : string;
  ls_ConsistencyState : string;
  ls_ObligationState : string
}.
#[export] Instance LifecycleState_eq_dec : EqDecision LifecycleState.
Proof. solve_decision. Defined.

Definition lifecycleStateOf (d : Dimensions) : LifecycleState :=
  mkLifecycle (Dimensions_State d DimensionRequest) (Dimensions_State d DimensionExecution)
    (Dimensions_State d DimensionBusiness) (Dimensions_State d DimensionConsistency)
    (Dimensions_State d DimensionObligation).

Record TerminalRecord : Type := mkRecord {
  tr_NodeID : string;
  tr_TerminalCode : string;
  tr_RuntimeStatus : RuntimeStatus;
  tr_Lifecycle : LifecycleState;
  tr_OutstandingObligationRefs : list string;
  tr_RepairRefs : list string;
  tr_IncidentRefs : list string
}.
Definition zero_record : TerminalRecord := mkRecord "" "" "" (mkLifecycle "" "" "" "" "") [] [] [].

Definition terminalRecordOf (t : Terminal) : TerminalRecord :=
  mkRecord (tm_NodeID t) (tm_TerminalCode t) (tm_RuntimeStatus t) (lifecycleStateOf (tm_Dimensions t))
    (tm_OutstandingObligationRefs t) (tm_RepairRefs t) (tm_IncidentRefs t).

Record InstanceState : Type := mkState {
  s_InstanceID : string;
  s_WorkflowID : string;
  s_Version : Z;
  s_PlanDigest : string;
  s_Sequence : Z;
  s_Frontier : list string;
  s_Nodes : list NodeStatus;
  s_Joins : list JoinCounter;
  s_Completed : bool;
  s_Terminal : TerminalRecord
}.

Definition set_s_Sequence (v : Z) (s : InstanceState) : InstanceState :=
  mkState (s_InstanceID s) (s_WorkflowID s) (s_Version s) (s_PlanDigest s) v (s_Frontier s) (s_Nodes s) (s_Joins s) (s_Completed s) (s_Terminal s).
Definition set_s_Frontier (v : list string) (s : InstanceState) : InstanceState :=
  mkState (s_InstanceID s) (s_WorkflowID s) (s_Version s) (s_PlanDigest s) (s_Sequence s) v (s_Nodes s) (s_Joins s) (s_Completed s) (s_Terminal s).
Definition set_s_Nodes (v : list NodeStatus) (s : InstanceState) : InstanceState :=
  mkState (s_InstanceID s) (s_WorkflowID s) (s_Version s) (s_PlanDigest s) (s_Sequence s) (s_Frontier s) v (s_Joins s) (s_Completed s) (s_Terminal s).
Definition set_s_Joins (v : list JoinCounter) (s : InstanceState) : InstanceState :=
  mkState (s_InstanceID s) (s_WorkflowID s) (s_Version s) (s_PlanDigest s) (s_Sequence s) (s_Frontier s) (s_Nodes s) v (s_Completed s) (s_Terminal s).
Definition set_s_Completed (v : bool) (s : InstanceState) : InstanceState :=
  mkState (s_InstanceID s) (s_WorkflowID s) (s_Version s) (s_PlanDigest s) (s_Sequence s) (s_Frontier s) (s_Nodes s) (s_Joins s) v (s_Terminal s).
Definition set_s_Terminal (v : TerminalRecord) (s : InstanceState) : InstanceState :=
  mkState (s_InstanceID s) (s_WorkflowID s) (s_Version s) (s_PlanDigest s) (s_Sequence s) (s_Frontier s) (s_Nodes s) (s_Joins s) (s_Completed s) v.

Definition InstanceState_Node (s : InstanceState) (id : string) : option NodeStatus := find_key ns_NodeID id (s_Nodes s).
Definition InstanceState_Join (s : InstanceState) (id : string) : option JoinCounter := find_key jc_NodeID id (s_Joins s).
Definition setNode (st : NodeStatus) (s : InstanceState) : InstanceState := set_s_Nodes (set_key ns_NodeID st (s_Nodes s)) s.
Definition setJoin (j : JoinCounter) (s : InstanceState) : InstanceState := set_s_Joins (set_key jc_NodeID j (s_Joins s)) s.

Definition active_ids (ns : list NodeStatus) : list string :=
  ns_NodeID <$> filter (fun n => NodeState_Active (ns_State n) = true) ns.
Definition recomputeFrontier (s : InstanceState) : InstanceState := set_s_Frontier (sort_Strings (active_ids (s_Nodes s))) s.

Definition contains (l : list string) (s : string) : bool := List.existsb (String.eqb s) l.
Definition insertSorted (l : list string) (s : string) : list string :=
  if contains l s then l else sort_Strings (l ++ [s]).

(** The distinct sources of the edges into a node. *)
Fixpoint incoming_loop (es : list Edge) (id : string) (seen out : list string) : list string :=
  match es with
  | [] => out
  | e :: es' =>
      if negb (String.eqb (e_To e) id) || contains seen (e_From e) then incoming_loop es' id seen out
      else incoming_loop es' id (e_From e :: seen) (out ++ [e_From e])
  end.
Definition incomingBranches (plan : CompiledWorkflow) (id : string) : list string :=
  sort_Strings (incoming_loop (cw_Edges plan) id [] []).

Definition newJoinCounter (d : JoinDeclaration) (branches : list string) : outcome Error JoinCounter :=
  let counter required set := mkCounter (jd_NodeID d) (jd_Strategy d) required set branches [] [] [] false false in
  let count := Z.of_nat (length branches) in
  if String.eqb (jd_Strategy d) JoinAll then Ok (counter (to_uint32 count) [])
  else if String.eqb (jd_Strategy d) JoinAny then
    if count =? 0 then refuse CodeInvalidJoinDeclaration (jd_NodeID d) else Ok (counter 1 [])
  else if String.eqb (jd_Strategy d) JoinQuorum then
    if (jd_RequiredCount d =? 0) || (count <? jd_RequiredCount d) then refuse CodeInvalidJoinDeclaration (jd_NodeID d)
    else Ok (counter (jd_RequiredCount d) [])
  else if String.eqb (jd_Strategy d) JoinRequiredSet then
    if Nat.eqb (length (jd_RequiredBranches d)) 0 then refuse CodeInvalidJoinDeclaration (jd_NodeID d)
    else
      let set := sort_Strings (jd_RequiredBranches d) in
      if List.existsb (fun b => negb (contains branches b)) set then refuse CodeInvalidJoinDeclaration (jd_NodeID d)
      else Ok (counter (to_uint32 (Z.of_nat (length set))) set)
  else if String.eqb (jd_Strategy d) JoinBestEffort then Ok (counter 0 [])
  else Ok (counter 0 []).

Fixpoint declare_joins (plan : CompiledWorkflow) (decls : list JoinDeclaration) (declared : list (string * JoinDeclaration))
    : outcome Error (list (string * JoinDeclaration)) :=
  match decls with
  | [] => Ok declared
  | d :: decls' =>
      match CompiledWorkflow_Node plan (jd_NodeID d) with
      | None => refuse CodeInvalidJoinDeclaration (jd_NodeID d)
      | Some node =>
          if negb (String.eqb (cn_Type node) StepJoin) then refuse CodeInvalidJoinDeclaration (jd_NodeID d)
          else if bool_decide (is_Some (assoc (jd_NodeID d) declared)) then refuse CodeInvalidJoinDeclaration (jd_NodeID d)
          else if negb (JoinStrategy_Valid (jd_Strategy d)) then refuse CodeInvalidJoinDeclaration (jd_NodeID d)
          else declare_joins plan decls' ((jd_NodeID d, d) :: declared)
      end
  end.

Fixpoint build_counters (plan : CompiledWorkflow) (declared : list (string * JoinDeclaration)) (ns : list CompiledNode)
    : outcome Error (list JoinCounter) :=
  match ns with
  | [] => Ok []
  | node :: ns' =>
      if negb (String.eqb (cn_Type node) StepJoin) then build_counters plan declared ns'
      else
        let decl := default (mkDeclaration (cn_ID node) JoinAll 0 []) (assoc (cn_ID node) declared) in
        counter ← newJoinCounter decl (incomingBranches plan (cn_ID node));
        rest ← build_counters plan declared ns';
        Ok (counter :: rest)
  end.

Definition seedJoins (plan : CompiledWorkflow) (decls : list JoinDeclaration) : outcome Error (list JoinCounter) :=
  declared ← declare_joins plan decls [];
  out ← build_counters plan declared (cw_Nodes plan);
  Ok (sort_by jc_NodeID out).

(** A nil plan is [None]. *)
Definition Seed (plan : option CompiledWorkflow) (instanceID : string) (decls : list JoinDeclaration) : outcome Error InstanceState :=
  match plan with
  | None => refuse CodeInvalidPlan ""
  | Some plan =>
      match CompiledWorkflow_Node plan (cw_StartNodeID plan) with
      | None => refuse CodeInvalidPlan (cw_StartNodeID plan)
      | Some start =>
          joins ← seedJoins plan decls;
          Ok (recomputeFrontier
                (mkState instanceID (cw_WorkflowID plan) (cw_Version plan) (CompiledWorkflow_Digest plan) 0 []
                   [mkStatus (cn_ID start) NodeReady 0 "" ""] joins false zero_record))
      end
  end.

(** * Outcomes: [outcome.go] *)

Definition AwaitKind : Type := string.
Definition AwaitNone : AwaitKind := "".
Definition AwaitWorkItem : AwaitKind := "WORK_ITEM".
Definition AwaitSignal : AwaitKind := "SIGNAL".
Definition AwaitTimer : AwaitKind := "TIMER".

Record TerminalResult : Type := mkResult {
  rs_TerminalCode : string;
  rs_RuntimeStatus : RuntimeStatus;
  rs_Dimensions : Dimensions;
  rs_Asserted : bool
}.

(** The typed output document is never read here. *)
Record NodeOutcome : Type := mkOutcome {
  no_NodeID : string;
  no_Outcome : Outcome;
  no_OutputDigest : string;
  no_Await : AwaitKind;
  no_AwaitRef : string;
  no_Failed : bool;
  no_ErrorClass : string;
  no_RetryTerminal : bool;
  no_Terminal : TerminalResult
}.

Definition IntentKind : Type := string.
Definition IntentReady : IntentKind := "READY".
Definition IntentWorkItemRequired : IntentKind := "WORK_ITEM_REQUIRED".
Definition IntentSignalSubscriptionRequired : IntentKind := "SIGNAL_SUBSCRIPTION_REQUIRED".
Definition IntentTimerRequired : IntentKind := "TIMER_REQUIRED".
Definition IntentComplete : IntentKind := "COMPLETE".
Definition IntentKind_Valid (k : IntentKind) : bool :=
  bool_decide (k ∈ [IntentReady; IntentWorkItemRequired; IntentSignalSubscriptionRequired; IntentTimerRequired; IntentComplete]).

Definition awaitAdmitted (t : StepType) (kind : AwaitKind) : bool :=
  if String.eqb kind AwaitWorkItem then String.eqb t StepApproval || String.eqb t StepTask
  else if String.eqb kind AwaitSignal then String.eqb t StepSignal
  else if String.eqb kind AwaitTimer then String.eqb t StepWait
  else false.

Definition intentForAwait (kind : AwaitKind) : IntentKind :=
  if String.eqb kind AwaitWorkItem then IntentWorkItemRequired
  else if String.eqb kind AwaitSignal then IntentSignalSubscriptionRequired
  else if String.eqb kind AwaitTimer then IntentTimerRequired
  else "".

Definition activationFor (t : StepType) : NodeState * IntentKind :=
  if String.eqb t StepApproval || String.eqb t StepTask then (NodeWaiting, IntentWorkItemRequired)
  else if String.eqb t StepSignal then (NodeWaiting, IntentSignalSubscriptionRequired)
  else if String.eqb t StepWait then (NodeWaiting, IntentTimerRequired)
  else (NodeReady, IntentReady).

(** * Transitions: [transition.go] *)

Record Intent : Type := mkIntent {
  in_Kind : IntentKind;
  in_NodeID : string;
  in_Type : StepType;
  in_RouteKey : string;
  in_Ref : string;
  in_TerminalCode : string
}.

Record Successor : Type := mkSuccessor {
  su_NodeID : string;
  su_Type : StepType;
  su_State : NodeState;
  su_RouteKey : string;
  su_ViaDefault : bool;
  su_ViaFailure : bool;
  su_JoinPending : bool
}.

Record Transition : Type := mkTransition {
  t_InstanceID : string;
  t_WorkflowID : string;
  t_Version : Z;
  t_PlanDigest : string;
  t_Sequence : Z;
  t_CompletedNodeID : string;
  t_CompletedType : StepType;
  t_CompletedState : NodeState;
  t_RouteKey : string;
  t_OutputDigest : string;
  t_Successors : list Successor;
  t_Skipped : list string;
  t_Joins : list JoinCounter;
  t_Complete : bool;
  t_Terminal : TerminalRecord;
  t_Intents : list Intent;
  t_Frontier : list string;
  t_Next : InstanceState;
  t_digest : string
}.

Definition set_t_CompletedState (v : NodeState) (t : Transition) : Transition :=
  mkTransition (t_InstanceID t) (t_WorkflowID t) (t_Version t) (t_PlanDigest t) (t_Sequence t) (t_CompletedNodeID t) (t_CompletedType t) v (t_RouteKey t) (t_OutputDigest t) (t_Successors t) (t_Skipped t) (t_Joins t) (t_Complete t) (t_Terminal t) (t_Intents t) (t_Frontier t) (t_Next t) (t_digest t).
Definition set_t_RouteKey (v : string) (t : Transition) : Transition :=
  mkTransition (t_InstanceID t) (t_WorkflowID t) (t_Version t) (t_PlanDigest t) (t_Sequence t) (t_CompletedNodeID t) (t_CompletedType t) (t_CompletedState t) v (t_OutputDigest t) (t_Successors t) (t_Skipped t) (t_Joins t) (t_Complete t) (t_Terminal t) (t_Intents t) (t_Frontier t) (t_Next t) (t_digest t).
Definition set_t_Successors (v : list Successor) (t : Transition) : Transition :=
  mkTransition (t_InstanceID t) (t_WorkflowID t) (t_Version t) (t_PlanDigest t) (t_Sequence t) (t_CompletedNodeID t) (t_CompletedType t) (t_CompletedState t) (t_RouteKey t) (t_OutputDigest t) v (t_Skipped t) (t_Joins t) (t_Complete t) (t_Terminal t) (t_Intents t) (t_Frontier t) (t_Next t) (t_digest t).
Definition set_t_Skipped (v : list string) (t : Transition) : Transition :=
  mkTransition (t_InstanceID t) (t_WorkflowID t) (t_Version t) (t_PlanDigest t) (t_Sequence t) (t_CompletedNodeID t) (t_CompletedType t) (t_CompletedState t) (t_RouteKey t) (t_OutputDigest t) (t_Successors t) v (t_Joins t) (t_Complete t) (t_Terminal t) (t_Intents t) (t_Frontier t) (t_Next t) (t_digest t).
Definition set_t_Joins (v : list JoinCounter) (t : Transition) : Transition :=
  mkTransition (t_InstanceID t) (t_WorkflowID t) (t_Version t) (t_PlanDigest t) (t_Sequence t) (t_CompletedNodeID t) (t_CompletedType t) (t_CompletedState t) (t_RouteKey t) (t_OutputDigest t) (t_Successors t) (t_Skipped t) v (t_Complete t) (t_Terminal t) (t_Intents t) (t_Frontier t) (t_Next t) (t_digest t).
Definition set_t_Complete (v : bool) (t : Transition) : Transition :=
  mkTransition (t_InstanceID t) (t_WorkflowID t) (t_Version t) (t_PlanDigest t) (t_Sequence t) (t_CompletedNodeID t) (t_CompletedType t) (t_CompletedState t) (t_RouteKey t) (t_OutputDigest t) (t_Successors t) (t_Skipped t) (t_Joins t) v (t_Terminal t) (t_Intents t) (t_Frontier t) (t_Next t) (t_digest t).
Definition set_t_Terminal (v : TerminalRecord) (t : Transition) : Transition :=
  mkTransition (t_InstanceID t) (t_WorkflowID t) (t_Version t) (t_PlanDigest t) (t_Sequence t) (t_CompletedNodeID t) (t_CompletedType t) (t_CompletedState t) (t_RouteKey t) (t_OutputDigest t) (t_Successors t) (t_Skipped t) (t_Joins t) (t_Complete t) v (t_Intents t) (t_Frontier t) (t_Next t) (t_digest t).
Definition set_t_Intents (v : list Intent) (t : Transition) : Transition :=
  mkTransition (t_InstanceID t) (t_WorkflowID t) (t_Version t) (t_PlanDigest t) (t_Sequence t) (t_CompletedNodeID t) (t_CompletedType t) (t_CompletedState t) (t_RouteKey t) (t_OutputDigest t) (t_Successors t) (t_Skipped t) (t_Joins t) (t_Complete t) (t_Terminal t) v (t_Frontier t) (t_Next t) (t_digest t).
Definition set_t_Frontier (v : list string) (t : Transition) : Transition :=
  mkTransition (t_InstanceID t) (t_WorkflowID t) (t_Version t) (t_PlanDigest t) (t_Sequence t) (t_CompletedNodeID t) (t_CompletedType t) (t_CompletedState t) (t_RouteKey t) (t_OutputDigest t) (t_Successors t) (t_Skipped t) (t_Joins t) (t_Complete t) (t_Terminal t) (t_Intents t) v (t_Next t) (t_digest t).
Definition set_t_Next (v : InstanceState) (t : Transition) : Transition :=
  mkTransition (t_InstanceID t) (t_WorkflowID t) (t_Version t) (t_PlanDigest t) (t_Sequence t) (t_CompletedNodeID t) (t_CompletedType t) (t_CompletedState t) (t_RouteKey t) (t_OutputDigest t) (t_Successors t) (t_Skipped t) (t_Joins t) (t_Complete t) (t_Terminal t) (t_Intents t) (t_Frontier t) v (t_digest t).
Definition set_t_digest (v : string) (t : Transition) : Transition :=
  mkTransition (t_InstanceID t) (t_WorkflowID t) (t_Version t) (t_PlanDigest t) (t_Sequence t) (t_CompletedNodeID t) (t_CompletedType t) (t_CompletedState t) (t_RouteKey t) (t_OutputDigest t) (t_Successors t) (t_Skipped t) (t_Joins t) (t_Complete t) (t_Terminal t) (t_Intents t) (t_Frontier t) (t_Next t) v.

Definition Transition_SuccessorIDs (t : Transition) : list string := su_NodeID <$> t_Successors t.
Definition Transition_Intent (t : Transition) (nodeID : string) : option Intent :=
  List.find (fun i => String.eqb (in_NodeID i) nodeID) (t_Intents t).

(** [sort.SliceStable] by kind and then node. *)
Definition intent_less (a b : Intent) : bool :=
  if negb (String.eqb (in_Kind a) (in_Kind b)) then String.ltb (in_Kind a) (in_Kind b)
  else String.ltb (in_NodeID a) (in_NodeID b).
Fixpoint insert_intent (x : Intent) (l : list Intent) : list Intent :=
  match l with
  | [] => [x]
  | y :: l' => if intent_less y x then y :: insert_intent x l' else x :: l
  end.
Definition sortIntents (l : list Intent) : list Intent := foldr insert_intent [] l.
Fixpoint insert_successor (x : Successor) (l : list Successor) : list Successor :=
  match l with
  | [] => [x]
  | y :: l' => if String.ltb (su_NodeID y) (su_NodeID x) then y :: insert_successor x l' else x :: l
  end.
Definition sortSuccessors (l : list Successor) : list Successor := foldr insert_successor [] l.

(** * Advancement: [advance.go] *)

Record advance : Type := mkAdvance {
  a_plan : CompiledWorkflow;
  a_node : CompiledNode;
  a_status : NodeStatus;
  a_outcome : NodeOutcome;
  a_next : InstanceState;
  a_t : Transition
}.
Definition on_next (f : InstanceState -> InstanceState) (a : advance) : advance :=
  mkAdvance (a_plan a) (a_node a) (a_status a) (a_outcome a) (f (a_next a)) (a_t a).
Definition on_t (f : Transition -> Transition) (a : advance) : advance :=
  mkAdvance (a_plan a) (a_node a) (a_status a) (a_outcome a) (a_next a) (f (a_t a)).
Definition set_status (st : NodeStatus) (a : advance) : advance :=
  mkAdvance (a_plan a) (a_node a) st (a_outcome a) (a_next a) (a_t a).

(** [strings.Join] with commas. *)
Fixpoint comma_join (l : list string) : string :=
  match l with
  | [] => ""
  | [s] => s
  | s :: l' => (s +:+ "," +:+ comma_join l')
  end.

Fixpoint validate_nodes (plan : CompiledWorkflow) (prev : option string) (ns : list NodeStatus) : outcome Error unit :=
  match ns with
  | [] => Ok tt
  | n :: ns' =>
      match CompiledWorkflow_Node plan (ns_NodeID n) with
      | None => refuse CodeInvalidState (ns_NodeID n)
      | Some _ =>
          if negb (NodeState_Valid (ns_State n)) then refuse CodeInvalidState (ns_NodeID n)
          else if from_option (fun p => String.leb (ns_NodeID n) p) false prev then refuse CodeInvalidState (ns_NodeID n)
          else validate_nodes plan (Some (ns_NodeID n)) ns'
      end
  end.
Fixpoint validate_joins (plan : CompiledWorkflow) (prev : option string) (js : list JoinCounter) : outcome Error unit :=
  match js with
  | [] => Ok tt
  | j :: js' =>
      match CompiledWorkflow_Node plan (jc_NodeID j) with
      | None => refuse CodeInvalidState (jc_NodeID j)
      | Some _ =>
          if negb (JoinStrategy_Valid (jc_Strategy j)) then refuse CodeInvalidState (jc_NodeID j)
          else if from_option (fun p => String.leb (jc_NodeID j) p) false prev then refuse CodeInvalidState (jc_NodeID j)
          else validate_joins plan (Some (jc_NodeID j)) js'
      end
  end.
Definition validateState (plan : CompiledWorkflow) (state : InstanceState) : outcome Error unit :=
  _ ← validate_nodes plan None (s_Nodes state);
  let derived := recomputeFrontier state in
  _ ← fail_if (negb (String.eqb (comma_join (s_Frontier derived)) (comma_join (s_Frontier state))))
        (mkError CodeInvalidState "");
  validate_joins plan None (s_Joins state).

Definition zero_transition : Transition :=
  mkTransition "" "" 0 "" 0 "" "" "" "" "" [] [] [] false zero_record [] []
    (mkState "" "" 0 "" 0 [] [] [] false zero_record) "".

Definition newAdvance (plan : option CompiledWorkflow) (state : InstanceState) (completed : NodeOutcome) : outcome Error advance :=
  match plan with
  | None => refuse CodeInvalidPlan ""
  | Some plan =>
      _ ← fail_if (negb (String.eqb (s_PlanDigest state) (CompiledWorkflow_Digest plan))) (mkError CodePlanMismatch "");
      _ ← fail_if (s_Completed state) (mkError CodeAlreadyComplete (tr_NodeID (s_Terminal state)));
      _ ← validateState plan state;
      match CompiledWorkflow_Node plan (no_NodeID completed) with
      | None => refuse CodeUnknownNode (no_NodeID completed)
      | Some node =>
          match InstanceState_Node state (no_NodeID completed) with
          | None => refuse CodeNodeNotActive (no_NodeID completed)
          | Some status =>
              _ ← fail_if (negb (NodeState_Active (ns_State status))) (mkError CodeNodeNotActive (no_NodeID completed));
              _ ← fail_if (negb (String.eqb (no_Await completed) AwaitNone) && no_Failed completed)
                    (mkError CodeAwaitNotAdmitted (no_NodeID completed));
              Ok (mkAdvance plan node status completed
                    (set_s_Sequence (to_uint64 (s_Sequence state + 1)) state) zero_transition)
          end
      end
  end.

(** ** Joins *)

Definition settleJoin (c : JoinCounter) : JoinCounter :=
  let accounted := Nat.leb (length (jc_Branches c)) (length (jc_Arrived c) + length (jc_Skipped c)) in
  let activated :=
    if String.eqb (jc_Strategy c) JoinAll || String.eqb (jc_Strategy c) JoinAny || String.eqb (jc_Strategy c) JoinQuorum then
      jc_Activated c || (jc_Required c <=? to_uint32 (Z.of_nat (length (jc_Satisfied c))))
    else if String.eqb (jc_Strategy c) JoinRequiredSet then
      jc_Activated c || List.forallb (contains (jc_Satisfied c)) (jc_RequiredBranches c)
    else if String.eqb (jc_Strategy c) JoinBestEffort then jc_Activated c || accounted
    else jc_Activated c in
  mkCounter (jc_NodeID c) (jc_Strategy c) (jc_Required c) (jc_RequiredBranches c) (jc_Branches c)
    (jc_Arrived c) (jc_Satisfied c) (jc_Skipped c) activated (negb activated && accounted).

(** The counter with one more arrival, and with one more skipped branch. *)
Definition arrive (branch : string) (c : JoinCounter) : JoinCounter :=
  settleJoin (mkCounter (jc_NodeID c) (jc_Strategy c) (jc_Required c) (jc_RequiredBranches c) (jc_Branches c)
    (insertSorted (jc_Arrived c) branch) (insertSorted (jc_Satisfied c) branch) (jc_Skipped c) (jc_Activated c) (jc_Blocked c)).
Definition skip (branch : string) (c : JoinCounter) : JoinCounter :=
  settleJoin (mkCounter (jc_NodeID c) (jc_Strategy c) (jc_Required c) (jc_RequiredBranches c) (jc_Branches c)
    (jc_Arrived c) (jc_Satisfied c) (insertSorted (jc_Skipped c) branch) (jc_Activated c) (jc_Blocked c)).

Fixpoint appendJoin (l : list JoinCounter) (c : JoinCounter) : list JoinCounter :=
  match l with
  | [] => [c]
  | d :: l' => if String.eqb (jc_NodeID d) (jc_NodeID c) then c :: l' else d :: appendJoin l' c
  end.

Definition add_successor (s : Successor) (t : Transition) : Transition := set_t_Successors (t_Successors t ++ [s]) t.
Definition add_intent (i : Intent) (t : Transition) : Transition := set_t_Intents (t_Intents t ++ [i]) t.

Definition activateJoin (target : CompiledNode) (routeKey : string) (viaDefault viaFailure : bool) (a : advance) : outcome Error advance :=
  match InstanceState_Join (a_next a) (cn_ID target) with
  | None => refuse CodeJoinNotDeclared (cn_ID target)
  | Some counter =>
      if negb (contains (jc_Branches counter) (cn_ID (a_node a))) then refuse CodeInvalidState (cn_ID target)
      else
        let counter := arrive (cn_ID (a_node a)) counter in
        let pending := negb (jc_Activated counter) in
        let state := if jc_Activated counter then NodeReady else NodeWaiting in
        let a := on_next (setNode (mkStatus (cn_ID target) state 0 "" "")) a in
        let a := on_next (setJoin counter) a in
        let a := on_t (fun t => set_t_Joins (t_Joins t ++ [counter]) t) a in
        let a := on_t (add_successor (mkSuccessor (cn_ID target) (cn_Type target) state routeKey viaDefault viaFailure pending)) a in
        Ok (if pending then a
            else on_t (add_intent (mkIntent IntentReady (cn_ID target) (cn_Type target) routeKey "" "")) a)
  end.

Definition activate (targetID routeKey : string) (viaDefault viaFailure : bool) (a : advance) : outcome Error advance :=
  match CompiledWorkflow_Node (a_plan a) targetID with
  | None => refuse CodeUnknownNode targetID
  | Some target =>
      if String.eqb (cn_Type target) StepJoin then activateJoin target routeKey viaDefault viaFailure a
      else
        let '(state, intent) := activationFor (cn_Type target) in
        let a := on_next (setNode (mkStatus (cn_ID target) state 0 "" "")) a in
        let a := on_t (add_successor (mkSuccessor (cn_ID target) (cn_Type target) state routeKey viaDefault viaFailure false)) a in
        Ok (on_t (add_intent (mkIntent intent (cn_ID target) (cn_Type target) routeKey "" "")) a)
  end.

(** ** The four dispatches *)

Definition await (a : advance) : outcome Error advance :=
  _ ← fail_if (negb (String.eqb (no_Outcome (a_outcome a)) "")) (mkError CodeAwaitNotAdmitted (cn_ID (a_node a)));
  _ ← fail_if (negb (awaitAdmitted (cn_Type (a_node a)) (no_Await (a_outcome a))))
        (mkError CodeAwaitNotAdmitted (cn_ID (a_node a)));
  let st := a_status a in
  let a := set_status (mkStatus (ns_NodeID st) NodeWaiting (ns_Attempts st) (ns_RouteKey st) (ns_OutputDigest st)) a in
  let a := on_next (setNode (a_status a)) a in
  let a := on_t (set_t_CompletedState NodeWaiting) a in
  Ok (on_t (add_intent (mkIntent (intentForAwait (no_Await (a_outcome a))) (cn_ID (a_node a)) (cn_Type (a_node a)) ""
                          (no_AwaitRef (a_outcome a)) "")) a).

Definition fail (a : advance) : outcome Error advance :=
  let st := a_status a in
  let attempts := to_uint32 (ns_Attempts st + 1) in
  let budget := from_option rp_MaxAttempts 0 (cn_Retry (a_node a)) in
  if (attempts <? budget) && negb (no_RetryTerminal (a_outcome a)) then
    let a := set_status (mkStatus (ns_NodeID st) NodeRetrying attempts (ns_RouteKey st) (ns_OutputDigest st)) a in
    let a := on_next (setNode (a_status a)) a in
    let a := on_t (set_t_CompletedState NodeRetrying) a in
    Ok (on_t (add_intent (mkIntent IntentReady (cn_ID (a_node a)) (cn_Type (a_node a)) "" (no_ErrorClass (a_outcome a)) "")) a)
  else if String.eqb (cn_FailureRoute (a_node a)) "" then refuse CodeNoFailureRoute (cn_ID (a_node a))
  else
    let a := set_status (mkStatus (ns_NodeID st) NodeFailed attempts (ns_RouteKey st) (ns_OutputDigest st)) a in
    let a := on_next (setNode (a_status a)) a in
    let a := on_t (set_t_CompletedState NodeFailed) a in
    activate (cn_FailureRoute (a_node a)) "" false true a.

Definition checkAssertedTerminal (want : TerminalRecord) (a : advance) : outcome Error unit :=
  let got := no_Terminal (a_outcome a) in
  _ ← fail_if (negb (String.eqb (rs_TerminalCode got) "") && negb (String.eqb (rs_TerminalCode got) (tr_TerminalCode want)))
        (mkError CodeTerminalMismatch (cn_ID (a_node a)));
  _ ← fail_if (negb (String.eqb (rs_RuntimeStatus got) "") && negb (String.eqb (rs_RuntimeStatus got) (tr_RuntimeStatus want)))
        (mkError CodeTerminalMismatch (cn_ID (a_node a)));
  fail_if (rs_Asserted got && negb (bool_decide (lifecycleStateOf (rs_Dimensions got) = tr_Lifecycle want)))
        (mkError CodeTerminalMismatch (cn_ID (a_node a))).

Definition end_ (a : advance) : outcome Error advance :=
  match cn_Terminal (a_node a) with
  | None => refuse CodeMissingTerminal (cn_ID (a_node a))
  | Some terminal =>
      let record := terminalRecordOf terminal in
      _ ← checkAssertedTerminal record a;
      let st := a_status a in
      let a := set_status (mkStatus (ns_NodeID st) NodeSucceeded (ns_Attempts st) (ns_RouteKey st) (no_OutputDigest (a_outcome a))) a in
      let a := on_next (setNode (a_status a)) a in
      let a := on_t (set_t_CompletedState NodeSucceeded) a in
      let a := on_next recomputeFrontier a in
      _ ← fail_if (negb (Nat.eqb (length (s_Frontier (a_next a))) 0)) (mkError CodeTerminalFrontierRemains (cn_ID (a_node a)));
      let a := on_next (fun s => set_s_Terminal record (set_s_Completed true s)) a in
      let a := on_t (fun t => set_t_Terminal record (set_t_Complete true t)) a in
      Ok (on_t (add_intent (mkIntent IntentComplete (cn_ID (a_node a)) (cn_Type (a_node a)) "" "" (tr_TerminalCode record))) a)
  end.

Definition declares (a : advance) (key : string) : bool :=
  from_option (fun conf => contains (cf_Outcomes conf) key) false (ConformanceFor (cn_Type (a_node a)))
  || from_option (fun d => contains (dr_Key <$> cd_Routes d) key) false (cn_Decision (a_node a)).

(** The first edge of the node with the route key. *)
Fixpoint edge_loop (es : list Edge) (id key : string) : option string :=
  match es with
  | [] => None
  | e :: es' => if String.eqb (e_From e) id && String.eqb (e_RouteKey e) key then Some (e_To e) else edge_loop es' id key
  end.
Definition edge (a : advance) (key : string) : option string := edge_loop (cw_Edges (a_plan a)) (cn_ID (a_node a)) key.

Definition targets (plan : CompiledWorkflow) (id : string) : list string :=
  e_To <$> filter (fun e => e_From e = id) (cw_Edges plan).
(** Every edge is pushed at most once, so the stack empties within the number
    of starting nodes and edges. *)
Definition reachableFrom (plan : CompiledWorkflow) (from : list string) : gset string :=
  dfs_push (targets plan) (length from + length (cw_Edges plan)) (rev from) (list_to_set from).

Fixpoint candidates_loop (es : list Edge) (id takenRoute takenTarget : string) (live : gset string) (next : InstanceState)
    (out : list string) : list string :=
  match es with
  | [] => out
  | e :: es' =>
      candidates_loop es' id takenRoute takenTarget live next
        (if negb (String.eqb (e_From e) id) || String.eqb (e_RouteKey e) takenRoute || String.eqb (e_To e) takenTarget then out
         else if bool_decide (e_To e ∈ live) then out
         else if bool_decide (is_Some (InstanceState_Node next (e_To e))) then out
         else insertSorted out (e_To e))
  end.

Fixpoint skip_joins (es : list Edge) (skipped : string) (a : advance) : advance :=
  match es with
  | [] => a
  | e :: es' =>
      skip_joins es' skipped
        (if negb (String.eqb (e_From e) skipped) then a
         else match InstanceState_Join (a_next a) (e_To e) with
              | None => a
              | Some counter =>
                  if negb (contains (jc_Branches counter) skipped) then a
                  else
                    let counter := skip skipped counter in
                    let a := on_next (setJoin counter) a in
                    on_t (fun t => set_t_Joins (appendJoin (t_Joins t) counter) t) a
              end)
  end.
Definition recordSkippedBranch (skipped : string) (a : advance) : advance := skip_joins (cw_Edges (a_plan a)) skipped a.

Fixpoint skip_candidates (ids : list string) (a : advance) : outcome Error advance :=
  match ids with
  | [] => Ok a
  | id :: ids' =>
      match CompiledWorkflow_Node (a_plan a) id with
      | None => refuse CodeUnknownNode id
      | Some _ =>
          let a := on_next (setNode (mkStatus id NodeSkipped 0 "" "")) a in
          let a := on_t (fun t => set_t_Skipped (insertSorted (t_Skipped t) id) t) a in
          skip_candidates ids' (recordSkippedBranch id a)
      end
  end.

Definition skipExcluded (takenRoute takenTarget : string) (a : advance) : outcome Error advance :=
  let a := on_next recomputeFrontier a in
  let live := reachableFrom (a_plan a) (s_Frontier (a_next a)) in
  skip_candidates
    (candidates_loop (cw_Edges (a_plan a)) (cn_ID (a_node a)) takenRoute takenTarget live (a_next a) []) a.

(** The route key an outcome takes, and whether it is the default. *)
Definition route_key (a : advance) : outcome Error (string * bool) :=
  let key := no_Outcome (a_outcome a) in
  if declares a key then Ok (key, false)
  else
    match cn_Decision (a_node a) with
    | Some d =>
        if negb (String.eqb (cn_Type (a_node a)) StepDecision) then refuse CodeUnknownOutcome (cn_ID (a_node a))
        else if String.eqb (cd_DefaultRoute d) "" then refuse CodeNoMatchingRoute (cn_ID (a_node a))
        else Ok (cd_DefaultRoute d, true)
    | None => refuse CodeUnknownOutcome (cn_ID (a_node a))
    end.

Definition route (a : advance) : outcome Error advance :=
  _ ← fail_if (String.eqb (no_Outcome (a_outcome a)) "") (mkError CodeUnknownOutcome (cn_ID (a_node a)));
  kd ← route_key a;
  match edge a kd.1 with
  | None => refuse CodeMissingRoute (cn_ID (a_node a))
  | Some target =>
      let st := a_status a in
      let a := set_status (mkStatus (ns_NodeID st) NodeSucceeded (ns_Attempts st) kd.1 (no_OutputDigest (a_outcome a))) a in
      let a := on_next (setNode (a_status a)) a in
      let a := on_t (set_t_CompletedState NodeSucceeded) a in
      let a := on_t (set_t_RouteKey kd.1) a in
      a ← activate target kd.1 kd.2 false a;
      skipExcluded kd.1 target a
  end.

Section advancement.
(** The digest of the canonical JSON of a transition, without its own digest. *)
Context (canonicalDigest : Transition -> string).

Definition computeTransitionDigest (t : Transition) : string := canonicalDigest (set_t_digest "" t).

Definition finish (a : advance) : Transition :=
  let a := on_next recomputeFrontier a in
  let a := on_t (fun t => set_t_Successors (sortSuccessors (t_Successors t)) t) a in
  let a := on_t (fun t => set_t_Intents (sortIntents (t_Intents t)) t) a in
  let a := on_t (fun t => set_t_Skipped (sort_Strings (t_Skipped t)) t) a in
  let a := on_t (fun t => set_t_Joins (sort_by jc_NodeID (t_Joins t)) t) a in
  let a := on_t (set_t_Frontier (s_Frontier (a_next a))) a in
  let a := on_t (set_t_Next (a_next a)) a in
  let a := on_t (fun t => set_t_digest (computeTransitionDigest t) t) a in
  a_t a.

Definition dispatch (a : advance) : outcome Error advance :=
  if negb (String.eqb (no_Await (a_outcome a)) AwaitNone) then await a
  else if no_Failed (a_outcome a) then fail a
  else if String.eqb (cn_Type (a_node a)) StepEnd then end_ a
  else route a.

Definition run (a : advance) : outcome Error Transition :=
  let a := on_t (fun _ =>
    mkTransition (s_InstanceID (a_next a)) (cw_WorkflowID (a_plan a)) (cw_Version (a_plan a)) (CompiledWorkflow_Digest (a_plan a))
      (s_Sequence (a_next a)) (cn_ID (a_node a)) (cn_Type (a_node a)) "" "" (no_OutputDigest (a_outcome a))
      [] [] [] false zero_record [] [] (t_Next zero_transition) "") a in
  a ← dispatch a;
  Ok (finish a).

Definition Advance (plan : option CompiledWorkflow) (state : InstanceState) (completed : NodeOutcome) : outcome Error Transition :=
  a ← newAdvance plan state completed;
  run a.

Definition Transition_Verify (t : Transition) : outcome Error unit :=
  fail_if (negb (String.eqb (computeTransitionDigest t) (t_digest t))) (mkError CodeInvalidState (t_CompletedNodeID t)).

End advancement.
