(* ===== verification/FrontierFacts.v ===== *)
(** Correctness of workflow advancement: what a transition changes, the
    invariant of instance states, join counters, the position of a running
    instance, progress and termination. *)

From stdpp Require Import sorting relations.
From S2P Require Import Prelude Sorting Graphs LifecycleRules WorkflowPlan Frontier.

Local Open Scope Z_scope.

(** * States that mean what they say *)

Definition in_plan (plan : CompiledWorkflow) (id : string) : Prop := is_Some (CompiledWorkflow_Node plan id).

Record core (plan : CompiledWorkflow) (s : InstanceState) : Prop := {
  core_nodes : StronglySorted (key_lt ns_NodeID) (s_Nodes s);
  core_joins : StronglySorted (key_lt jc_NodeID) (s_Joins s);
  core_states : forall n, n ∈ s_Nodes s -> in_plan plan (ns_NodeID n) /\ NodeState_Valid (ns_State n) = true;
  core_strategies : forall j, j ∈ s_Joins s -> in_plan plan (jc_NodeID j) /\ JoinStrategy_Valid (jc_Strategy j) = true
}.

Definition frontier_exact (s : InstanceState) : Prop := s_Frontier s = active_ids (s_Nodes s).

(** The shape of the two validation loops: every element acceptable, keys
    strictly increasing from the previous one. *)
Fixpoint chain {A} (key : A -> string) (ok : A -> bool) (prev : option string) (l : list A) : bool :=
  match l with
  | [] => true
  | x :: l' => ok x && negb (from_option (fun p => String.leb (key x) p) false prev) && chain key ok (Some (key x)) l'
  end.

Lemma chain_ok {A} (key : A -> string) ok prev l : chain key ok prev l = true <->
  StronglySorted (key_lt key) l /\
  (forall x, x ∈ l -> ok x = true /\ from_option (fun p => String.ltb p (key x)) true prev = true).
Proof.
  revert prev. induction l as [|x l IH]; intros prev; cbn [chain].
  { split; [|done]. split; [constructor|]. by intros n Hn%elem_of_nil. }
  assert (Hp : negb (from_option (fun p => String.leb (key x) p) false prev) = true
               <-> from_option (fun p => String.ltb p (key x)) true prev = true).
  { destruct prev as [p|]; cbn; [|done]. rewrite negb_true_iff, <- not_true_iff_false, <- string_le_leb, <- string_ltb_ge.
    by destruct (String.ltb _ _). }
  rewrite !andb_true_iff, Hp, IH. split.
  - intros [[Hx Hlt] [Hs Hall]]. split.
    + constructor; [done|]. apply Forall_forall. intros m Hm. by apply Hall in Hm as (_ & Hm).
    + intros m [->|Hm]%elem_of_cons; [done|]. destruct (Hall m Hm) as (H1 & H2). split; [done|].
      destruct prev as [p|]; [|done]. cbn in *. exact (key_lt_trans id p (key x) (key m) Hlt H2).
  - intros [Hs Hall]. destruct (Hall x) as [Hx Hlt]; [left|]. apply StronglySorted_inv in Hs as [Hs Hn].
    split_and!; [done..|]. intros m Hm. rewrite Forall_forall in Hn. split; [apply Hall; by right|by apply Hn].
Qed.

Lemma validate_nodes_chain plan prev ns : validate_nodes plan prev ns = Ok tt <->
  chain ns_NodeID (fun n => bool_decide (in_plan plan (ns_NodeID n)) && NodeState_Valid (ns_State n)) prev ns = true.
Proof.
  revert prev. induction ns as [|n ns IH]; intros prev; cbn [validate_nodes chain]; [done|]. unfold in_plan.
  destruct (CompiledWorkflow_Node plan (ns_NodeID n)); [|done]. rewrite bool_decide_true by eauto.
  destruct (NodeState_Valid _); cbn [andb negb]; [|done]. destruct (from_option _ _ _); [done|]. apply IH.
Qed.

Lemma validate_joins_chain plan prev js : validate_joins plan prev js = Ok tt <->
  chain jc_NodeID (fun j => bool_decide (in_plan plan (jc_NodeID j)) && JoinStrategy_Valid (jc_Strategy j)) prev js = true.
Proof.
  revert prev. induction js as [|n ns IH]; intros prev; cbn [validate_joins chain]; [done|]. unfold in_plan.
  destruct (CompiledWorkflow_Node plan (jc_NodeID n)); [|done]. rewrite bool_decide_true by eauto.
  destruct (JoinStrategy_Valid _); cbn [andb negb]; [|done]. destruct (from_option _ _ _); [done|]. apply IH.
Qed.

(** The active ids of ordered statuses are sorted already. *)
Lemma active_ids_sorted ns : StronglySorted (key_lt ns_NodeID) ns -> sort_Strings (active_ids ns) = active_ids ns.
Proof.
  intros Hs. apply sort_Strings_id. unfold active_ids. induction Hs as [|n ns Hs IH Hall]; [constructor|].
  rewrite filter_cons. case_decide; [|done]. cbn. constructor; [done|]. apply Forall_forall.
  intros x (m & -> & [_ Hm]%list_elem_of_filter)%list_elem_of_fmap. rewrite Forall_forall in Hall.
  by apply string_ltb_lt, Hall.
Qed.

Lemma validateState_ok plan s : validateState plan s = Ok tt <->
  core plan s /\ comma_join (active_ids (s_Nodes s)) = comma_join (s_Frontier s).
Proof.
  assert (Hn : validate_nodes plan None (s_Nodes s) = Ok tt <-> StronglySorted (key_lt ns_NodeID) (s_Nodes s) /\
    forall n, n ∈ s_Nodes s -> in_plan plan (ns_NodeID n) /\ NodeState_Valid (ns_State n) = true).
  { rewrite validate_nodes_chain, chain_ok. setoid_rewrite andb_true_iff. setoid_rewrite bool_decide_eq_true. naive_solver. }
  assert (Hj : validate_joins plan None (s_Joins s) = Ok tt <-> StronglySorted (key_lt jc_NodeID) (s_Joins s) /\
    forall j, j ∈ s_Joins s -> in_plan plan (jc_NodeID j) /\ JoinStrategy_Valid (jc_Strategy j) = true).
  { rewrite validate_joins_chain, chain_ok. setoid_rewrite andb_true_iff. setoid_rewrite bool_decide_eq_true. naive_solver. }
  unfold validateState. split.
  - intros H. ok_inv. apply Hn in Hok as [H1 H2]. apply Hj in H as [H3 H4].
    apply negb_false_iff, String.eqb_eq in Hok0. cbn in Hok0. rewrite active_ids_sorted in Hok0 by done. done.
  - intros [[H1 H2 H3 H4] E]. rewrite (proj2 Hn) by done.
    cbn [mbind outcome_bind recomputeFrontier set_s_Frontier s_Frontier]. rewrite active_ids_sorted by done.
    rewrite E, String.eqb_refl. cbn [negb fail_if]. by apply Hj.
Qed.

(** ** Writing nodes and joins *)

Section writes.
Context (plan : CompiledWorkflow).

Lemma Node_setNode s st id : core plan s ->
  InstanceState_Node (setNode st s) id = if decide (ns_NodeID st = id) then Some st else InstanceState_Node s id.
Proof using. intros Hc. unfold InstanceState_Node. cbn. by apply find_set_key, Hc. Qed.

Lemma Join_setJoin s j id : core plan s ->
  InstanceState_Join (setJoin j s) id = if decide (jc_NodeID j = id) then Some j else InstanceState_Join s id.
Proof using. intros Hc. unfold InstanceState_Join. cbn. by apply find_set_key, Hc. Qed.

Lemma core_setNode s st : core plan s -> in_plan plan (ns_NodeID st) -> NodeState_Valid (ns_State st) = true ->
  core plan (setNode st s).
Proof using.
  intros [H1 H2 H3 H4] Hp Hv. constructor; cbn; auto.
  intros n [->|[Hn _]]%set_key_elem; auto.
Qed.

Lemma core_setJoin s j : core plan s -> in_plan plan (jc_NodeID j) -> JoinStrategy_Valid (jc_Strategy j) = true ->
  core plan (setJoin j s).
Proof using.
  intros [H1 H2 H3 H4] Hp Hv. constructor; cbn; auto.
  intros n [->|[Hn _]]%set_key_elem; auto.
Qed.

Lemma core_recompute s : core plan s -> core plan (recomputeFrontier s).
Proof using. by intros []. Qed.

Lemma Join_elem s id j : core plan s -> InstanceState_Join s id = Some j <-> j ∈ s_Joins s /\ jc_NodeID j = id.
Proof using. intros Hc. apply find_key_Some, Hc. Qed.

Lemma Node_elem s id n : core plan s -> InstanceState_Node s id = Some n <-> n ∈ s_Nodes s /\ ns_NodeID n = id.
Proof using. intros Hc. apply find_key_Some, Hc. Qed.

(** The active ids, by lookup. *)
Lemma elem_of_active s id : core plan s -> id ∈ active_ids (s_Nodes s) <->
  exists n, InstanceState_Node s id = Some n /\ NodeState_Active (ns_State n) = true.
Proof using.
  intros Hc. unfold active_ids. rewrite list_elem_of_fmap. split.
  - intros (n & -> & [Ha Hn]%list_elem_of_filter). exists n. split; [by apply Node_elem|done].
  - intros (n & Hn & Ha). apply Node_elem in Hn as [Hn <-]; [|done]. exists n. split; [done|]. by apply list_elem_of_filter.
Qed.

End writes.

Lemma contains_elem l x : contains l x = true <-> x ∈ l.
Proof.
  unfold contains. rewrite existsb_exists, list_elem_of_In. split.
  - intros (y & Hy & ->%String.eqb_eq). done.
  - intros Hx. exists x. split; [done|apply String.eqb_refl].
Qed.

Lemma elem_of_insertSorted l x y : y ∈ insertSorted l x <-> y ∈ l \/ y = x.
Proof.
  unfold insertSorted. destruct (contains l x) eqn:E.
  - apply contains_elem in E. split; [by left|]. intros [?| ->]; done.
  - rewrite elem_of_sort_Strings, elem_of_app, list_elem_of_singleton. done.
Qed.

Lemma insertSorted_NoDup l x : NoDup l -> NoDup (insertSorted l x).
Proof.
  intros Hl. unfold insertSorted. destruct (contains l x) eqn:E; [done|].
  rewrite sort_Strings_Permutation. apply NoDup_app. split_and!; [done| |apply NoDup_singleton].
  intros y Hy ->%list_elem_of_singleton. apply contains_elem in Hy. congruence.
Qed.

(** * What each step of an advancement changes *)

(** A state without what an advancement rewrites. *)
Definition erase (s : InstanceState) : InstanceState := set_s_Frontier [] (set_s_Nodes [] (set_s_Joins [] s)).

(** The inputs of the evaluation stay as they are. *)
Definition same_inputs (a a' : advance) : Prop :=
  a_plan a' = a_plan a /\ a_node a' = a_node a /\ a_outcome a' = a_outcome a.

Definition all_joins (P : JoinCounter -> Prop) (s : InstanceState) : Prop := forall j, j ∈ s_Joins s -> P j.

Lemma all_joins_setJoin plan P s j : core plan s -> all_joins P s -> P j -> all_joins P (setJoin j s).
Proof. intros Hc HP Hj i. cbn. rewrite set_key_elem by apply Hc. intros [->|[Hi _]]; auto. Qed.

(** Counters are never dropped and keep their branches. *)
Definition keeps_branches (s s' : InstanceState) : Prop :=
  forall id c, InstanceState_Join s id = Some c -> exists c', InstanceState_Join s' id = Some c' /\ jc_Branches c' = jc_Branches c.

Lemma keeps_refl s s' : s_Joins s' = s_Joins s -> keeps_branches s s'.
Proof. intros E id c H. exists c. unfold InstanceState_Join in *. by rewrite E. Qed.

Lemma keeps_trans s1 s2 s3 : keeps_branches s1 s2 -> keeps_branches s2 s3 -> keeps_branches s1 s3.
Proof. intros H1 H2 id c H. destruct (H1 id c H) as (c' & H' & <-). by apply H2. Qed.

Lemma keeps_setJoin plan s c c' : core plan s -> InstanceState_Join s (jc_NodeID c') = Some c ->
  jc_Branches c' = jc_Branches c -> keeps_branches s (setJoin c' s).
Proof.
  intros Hc Hj Hb id d Hd. rewrite (Join_setJoin plan) by done. destruct (decide (jc_NodeID c' = id)) as [<-|]; [|eauto].
  exists c'. split; [done|]. congruence.
Qed.

(** ** Skipping *)

Record skipped_joins (plan : CompiledWorkflow) (x : string) (a a' : advance) : Prop := {
  sj_inputs : same_inputs a a';
  sj_core : core plan (a_next a');
  sj_state : set_s_Joins [] (a_next a') = set_s_Joins [] (a_next a);
  sj_t : set_t_Joins [] (a_t a') = set_t_Joins [] (a_t a);
  sj_keeps : keeps_branches (a_next a) (a_next a');
  sj_joins : forall P, (forall c, P c -> x ∈ jc_Branches c -> P (skip x c)) ->
    all_joins P (a_next a) -> all_joins P (a_next a')
}.

Lemma skip_joins_spec plan es x a : core plan (a_next a) -> skipped_joins plan x a (skip_joins es x a).
Proof.
  revert a. induction es as [|e es IH]; intros a Hc; cbn [skip_joins]; [by constructor; try apply keeps_refl|].
  destruct (String.eqb (e_From e) x); cbn [negb]; [|by apply IH].
  destruct (InstanceState_Join (a_next a) (e_To e)) as [c|] eqn:Ej; [|by apply IH].
  destruct (contains (jc_Branches c) x) eqn:Eb; cbn [negb]; [|by apply IH]. apply contains_elem in Eb.
  pose proof Ej as Ej'. apply (Join_elem plan) in Ej as [Hj Hid]; [|done].
  assert (Hc' : core plan (setJoin (skip x c) (a_next a))) by (apply core_setJoin; [done|exact (proj1 (core_strategies _ _ Hc c Hj))|exact (proj2 (core_strategies _ _ Hc c Hj))]).
  destruct (IH (on_t (fun t => set_t_Joins (appendJoin (t_Joins t) (skip x c)) t) (on_next (setJoin (skip x c)) a)) Hc') as [I1 I2 I3 I4 I5 I6].
  constructor; [done|done|done|done|eapply keeps_trans; [|exact I5]; apply (keeps_setJoin plan _ c); [done|cbn; rewrite Hid; exact Ej'|done]|]. intros P HP Ha. apply I6; [done|]. apply (all_joins_setJoin plan); auto.
Qed.

Record skipped_all (plan : CompiledWorkflow) (ids : list string) (a a' : advance) : Prop := {
  sa_inputs : same_inputs a a';
  sa_core : core plan (a_next a');
  sa_node : forall id, InstanceState_Node (a_next a') id =
    if decide (id ∈ ids) then Some (mkStatus id NodeSkipped 0 "" "") else InstanceState_Node (a_next a) id;
  sa_state : erase (a_next a') = erase (a_next a);
  sa_t : set_t_Skipped [] (set_t_Joins [] (a_t a')) = set_t_Skipped [] (set_t_Joins [] (a_t a));
  sa_skipped : forall id, id ∈ t_Skipped (a_t a') <-> id ∈ t_Skipped (a_t a) \/ id ∈ ids;
  sa_keeps : keeps_branches (a_next a) (a_next a');
  sa_joins : forall P, (forall c x, P c -> x ∈ jc_Branches c -> P (skip x c)) ->
    all_joins P (a_next a) -> all_joins P (a_next a')
}.

Lemma skip_candidates_spec ids a a' : core (a_plan a) (a_next a) -> skip_candidates ids a = Ok a' ->
  skipped_all (a_plan a) ids a a'.
Proof.
  revert a. induction ids as [|x ids IH]; intros a Hc; cbn [skip_candidates].
  { intros [= <-]. constructor; try apply keeps_refl; try done; set_solver. }
  destruct (CompiledWorkflow_Node (a_plan a) x) as [n|] eqn:En; [|done].
  set (a1 := on_t _ (on_next _ a)). intros H.
  assert (Hc1 : core (a_plan a) (a_next a1)) by (apply core_setNode; [done|by exists n|done]).
  destruct (skip_joins_spec (a_plan a) (cw_Edges (a_plan a1)) x a1 Hc1) as [(J1 & J1' & J1'') J2 J3 J4 JK J5].
  change (skip_joins (cw_Edges (a_plan a1)) x a1) with (recordSkippedBranch x a1) in *.
  destruct (IH (recordSkippedBranch x a1)) as [(I1 & I1' & I1'') I2 I3 I4 I5 I6 IK I7]; [by rewrite J1|done|]. rewrite J1 in *.
  assert (Hn : s_Nodes (a_next (recordSkippedBranch x a1)) = s_Nodes (a_next a1)) by (by injection J3).
  constructor.
  - repeat split; [by rewrite I1|by rewrite I1'|by rewrite I1''].
  - done.
  - intros id. rewrite I3. unfold InstanceState_Node at 1. rewrite Hn. fold (InstanceState_Node (a_next a1) id).
    unfold a1. cbn [on_t on_next a_next]. rewrite (Node_setNode (a_plan a)) by done. cbn [ns_NodeID].
    destruct (decide (id ∈ ids)); [by rewrite decide_True by (by right)|].
    destruct (decide (x = id)) as [->|Hne]; [by rewrite decide_True by left|].
    rewrite decide_False; [done|]. set_solver.
  - rewrite I4. unfold erase. rewrite J3. done.
  - rewrite I5, J4. done.
  - intros id. rewrite I6, elem_of_cons. assert (Hs : t_Skipped (a_t (recordSkippedBranch x a1)) = t_Skipped (a_t a1)) by (by injection J4).
    rewrite Hs. cbn. rewrite elem_of_insertSorted. tauto.
  - eapply keeps_trans; [|exact IK]. eapply keeps_trans; [|exact JK]. by apply keeps_refl.
  - intros P HP Ha. apply I7; [done|]. apply J5; [intros c; apply HP|done].
Qed.

Lemma candidates_spec es id key target live next out x :
  x ∈ candidates_loop es id key target live next out ->
  x ∈ out \/ (x <> target /\ (x ∉ live) /\ InstanceState_Node next x = None /\
              exists e, e ∈ es /\ e_From e = id /\ e_To e = x /\ e_RouteKey e <> key).
Proof.
  revert out. induction es as [|e es IH]; intros out; cbn [candidates_loop]; [by left|].
  intros Hx. apply IH in Hx as [Hx|(H1 & H2 & H3 & d & Hd & H4)].
  - destruct (String.eqb_spec (e_From e) id), (String.eqb_spec (e_RouteKey e) key), (String.eqb_spec (e_To e) target);
      cbn [negb orb] in Hx; try by left.
    case_bool_decide; [by left|]. case_bool_decide as Hs; [by left|]. apply elem_of_insertSorted in Hx as [?| ->]; [by left|right].
    split_and!; [done|done|by apply eq_None_not_Some|]. exists e. split; [left|done].
  - right. split_and!; [done..|]. exists d. split; [by right|done].
Qed.

(** ** Activating a successor *)

Definition arrival_state (st : NodeState) : Prop := st = NodeReady \/ st = NodeWaiting.

Record activated (target key : string) (viaDefault viaFailure : bool) (a a' : advance) : Prop := {
  ac_inputs : same_inputs a a';
  ac_core : core (a_plan a) (a_next a');
  ac_node : exists node st pending, CompiledWorkflow_Node (a_plan a) target = Some node /\ arrival_state st /\
    (forall id, InstanceState_Node (a_next a') id =
       if decide (target = id) then Some (mkStatus target st 0 "" "") else InstanceState_Node (a_next a) id) /\
    t_Successors (a_t a') = t_Successors (a_t a) ++ [mkSuccessor target (cn_Type node) st key viaDefault viaFailure pending] /\
    (cn_Type node = StepJoin -> exists c, InstanceState_Join (a_next a) target = Some c /\
       InstanceState_Join (a_next a') target = Some (arrive (cn_ID (a_node a)) c) /\
       st = if jc_Activated (arrive (cn_ID (a_node a)) c) then NodeReady else NodeWaiting);
  ac_state : erase (a_next a') = erase (a_next a);
  ac_t : set_t_Successors [] (set_t_Intents [] (set_t_Joins [] (a_t a'))) = set_t_Successors [] (set_t_Intents [] (set_t_Joins [] (a_t a)));
  ac_keeps : keeps_branches (a_next a) (a_next a');
  ac_joins : forall P, (forall c, P c -> cn_ID (a_node a) ∈ jc_Branches c -> P (arrive (cn_ID (a_node a)) c)) ->
    all_joins P (a_next a) -> all_joins P (a_next a')
}.

Lemma activationFor_arrival t : arrival_state (activationFor t).1.
Proof. unfold activationFor, arrival_state. repeat case_match; cbn; auto. Qed.

Lemma arrival_valid st : arrival_state st -> NodeState_Valid st = true /\ NodeState_Active st = true.
Proof. intros [-> | ->]; done. Qed.

Lemma Ok_eq {E A} (x y : A) : Ok (E := E) x = Ok y -> x = y.
Proof. congruence. Qed.

Lemma activate_spec target key d f a a' : core (a_plan a) (a_next a) -> activate target key d f a = Ok a' ->
  activated target key d f a a'.
Proof.
  intros Hc. unfold activate. destruct (CompiledWorkflow_Node (a_plan a) target) as [node|] eqn:En; [|done].
  destruct (find_node_ID _ _ _ En) as [Hid _]. assert (Hin : in_plan (a_plan a) target) by (by exists node).
  destruct (String.eqb_spec (cn_Type node) StepJoin) as [Et|Et].
  - unfold activateJoin. rewrite Hid. destruct (InstanceState_Join (a_next a) target) as [c|] eqn:Ej; [|done].
    destruct (contains (jc_Branches c) _) eqn:Eb; cbn [negb]; [|done]. apply contains_elem in Eb. cbv zeta.
    pose proof Ej as Ej'. apply (Join_elem (a_plan a)) in Ej as [Hj Hjid]; [|done].
    set (c' := arrive (cn_ID (a_node a)) c). set (st := if jc_Activated c' then NodeReady else NodeWaiting).
    intros <-%Ok_eq.
    assert (Hst : arrival_state st) by (unfold st, arrival_state; destruct (jc_Activated c'); auto).
    assert (Hc1 : core (a_plan a) (setNode (mkStatus target st 0 "" "") (a_next a))) by (apply core_setNode; [done..|by apply arrival_valid]).
    assert (Hc2 : core (a_plan a) (setJoin c' (setNode (mkStatus target st 0 "" "") (a_next a)))).
    { apply core_setJoin; [done|exact (proj1 (core_strategies _ _ Hc c Hj))|exact (proj2 (core_strategies _ _ Hc c Hj))]. }
    constructor.
    + destruct (jc_Activated c'); done.
    + destruct (jc_Activated c'); done.
    + exists node, st, (negb (jc_Activated c')). split_and!; [done|done| |by destruct (jc_Activated c')|].
      2:{ intros _. exists c. split_and!; [by apply (Join_elem (a_plan a))| |done].
          pose proof (Join_setJoin (a_plan a) _ c' target Hc1) as HJ. rewrite decide_True in HJ by done.
          destruct (jc_Activated c'); exact HJ. }
      intros id. etransitivity; [|exact (Node_setNode (a_plan a) (a_next a) (mkStatus target st 0 "" "") id Hc)].
      destruct (jc_Activated c'); done.
    + destruct (jc_Activated c'); done.
    + destruct (jc_Activated c'); done.
    + assert (HK : keeps_branches (a_next a) (setJoin c' (setNode (mkStatus target st 0 "" "") (a_next a)))).
      { eapply keeps_trans; [by apply (keeps_refl _ (setNode (mkStatus target st 0 "" "") (a_next a)))|].
        apply (keeps_setJoin (a_plan a) _ c); [done|cbn; rewrite Hjid; exact Ej'|done]. }
      destruct (jc_Activated c'); exact HK.
    + intros P HP Ha. assert (all_joins P (setJoin c' (setNode (mkStatus target st 0 "" "") (a_next a)))) as Hall.
      { apply (all_joins_setJoin (a_plan a)); [done|done|]. apply HP; [by apply Ha|done]. }
      unfold st in *. destruct (jc_Activated c'); done.
  - pose proof (activationFor_arrival (cn_Type node)) as Hst. destruct (activationFor (cn_Type node)) as [st i]. cbn in Hst.
    rewrite Hid. intros [= <-]. constructor; try (by apply keeps_refl); try done.
    + apply core_setNode; [done..|by apply arrival_valid].
    + exists node, st, false. split_and!; [done|done| |done|done]. intros id. cbn [on_t on_next a_next]. by rewrite (Node_setNode (a_plan a)).
Qed.

(** ** The dispatches *)

(** What an evaluation starts from. *)
Record started (a : advance) : Prop := {
  st_core : core (a_plan a) (a_next a);
  st_node : CompiledWorkflow_Node (a_plan a) (cn_ID (a_node a)) = Some (a_node a);
  st_status : InstanceState_Node (a_next a) (cn_ID (a_node a)) = Some (a_status a);
  st_fresh : t_Successors (a_t a) = [] /\ t_Skipped (a_t a) = []
}.

(** Two nodes joined by a declared route: an edge with the route key, or the
    failure route, which carries no key. *)
Definition routed (plan : CompiledWorkflow) (n : CompiledNode) (key target : string) : Prop :=
  mkEdge (cn_ID n) target key ∈ cw_Edges plan \/ (key = "" /\ cn_FailureRoute n = target /\ target <> "").

(** The node stays, the instance moves on, or it ends. *)
Inductive shape (a a' : advance) : Prop :=
  | stays : t_Successors (a_t a') = [] -> t_Skipped (a_t a') = [] ->
      t_CompletedState (a_t a') ∈ [NodeWaiting; NodeRetrying] ->
      s_Completed (a_next a') = s_Completed (a_next a) -> shape a a'
  | moves su : t_Successors (a_t a') = [su] -> routed (a_plan a) (a_node a) (su_RouteKey su) (su_NodeID su) ->
      t_CompletedState (a_t a') ∈ [NodeSucceeded; NodeFailed] ->
      s_Completed (a_next a') = s_Completed (a_next a) -> shape a a'
  | ends : t_Successors (a_t a') = [] -> t_Skipped (a_t a') = [] -> cn_Type (a_node a) = StepEnd ->
      t_CompletedState (a_t a') = NodeSucceeded -> active_ids (s_Nodes (a_next a')) = [] ->
      s_Completed (a_next a') = true -> shape a a'.

Record dispatched (a a' : advance) : Prop := {
  ds_inputs : same_inputs a a';
  ds_core : core (a_plan a) (a_next a');
  ds_frame : forall id, id <> cn_ID (a_node a) -> (id ∉ Transition_SuccessorIDs (a_t a')) -> (id ∉ t_Skipped (a_t a')) ->
    InstanceState_Node (a_next a') id = InstanceState_Node (a_next a) id;
  ds_done : (cn_ID (a_node a) ∉ Transition_SuccessorIDs (a_t a')) ->
    exists st, InstanceState_Node (a_next a') (cn_ID (a_node a)) = Some st /\ ns_State st = t_CompletedState (a_t a');
  ds_successors : forall su, su ∈ t_Successors (a_t a') -> arrival_state (su_State su) /\
    exists st, InstanceState_Node (a_next a') (su_NodeID su) = Some st /\ ns_State st = su_State su;
  ds_skipped : forall id, id ∈ t_Skipped (a_t a') -> InstanceState_Node (a_next a) id = None /\
    exists st, InstanceState_Node (a_next a') id = Some st /\ ns_State st = NodeSkipped;
  ds_pinned : (s_InstanceID (a_next a') = s_InstanceID (a_next a) /\ s_WorkflowID (a_next a') = s_WorkflowID (a_next a) /\
    s_Version (a_next a') = s_Version (a_next a)) /\
    s_PlanDigest (a_next a') = s_PlanDigest (a_next a) /\ s_Sequence (a_next a') = s_Sequence (a_next a);
  ds_shape : shape a a';
  ds_ready : forall su, su ∈ t_Successors (a_t a') -> su_Type su = StepJoin -> su_State su = NodeReady ->
    exists c, InstanceState_Join (a_next a') (su_NodeID su) = Some c /\ jc_Activated c = true;
  ds_keeps : keeps_branches (a_next a) (a_next a');
  ds_joins : forall P, (forall c x, P c -> x ∈ jc_Branches c -> P (skip x c)) ->
    (forall c, P c -> cn_ID (a_node a) ∈ jc_Branches c -> P (arrive (cn_ID (a_node a)) c)) ->
    all_joins P (a_next a) -> all_joins P (a_next a')
}.

Lemma status_id a : started a -> ns_NodeID (a_status a) = cn_ID (a_node a).
Proof. intros Ha. apply (Node_elem (a_plan a) (a_next a)); [apply Ha|apply Ha]. Qed.

(** Rewriting the status of the node itself. *)
Lemma keep_status a st : started a -> ns_NodeID st = cn_ID (a_node a) -> NodeState_Valid (ns_State st) = true ->
  core (a_plan a) (setNode st (a_next a)) /\
  (forall id, InstanceState_Node (setNode st (a_next a)) id =
     if decide (cn_ID (a_node a) = id) then Some st else InstanceState_Node (a_next a) id).
Proof.
  intros Ha Hid Hv. split.
  - apply core_setNode; [apply Ha| |done]. rewrite Hid. eexists. apply Ha.
  - intros id. rewrite (Node_setNode (a_plan a)) by apply Ha. by rewrite Hid.
Qed.

Lemma await_spec a a' : started a -> await a = Ok a' -> dispatched a a'.
Proof.
  intros Ha H. unfold await in H. ok_inv. subst a'. pose proof (status_id a Ha) as Hid.
  set (st := mkStatus _ NodeWaiting _ _ _) in *. destruct (keep_status a st Ha Hid eq_refl) as [Hc Hn].
  destruct (st_fresh _ Ha) as [Hs Hk].
  constructor; cbn; rewrite ?Hs, ?Hk; try (by apply keeps_refl); try done.
  - intros id Hne _ _. rewrite Hn, decide_False by congruence. done.
  - intros _. exists st. by rewrite Hn, decide_True.
  - by intros su Hsu%elem_of_nil.
  - by intros id Hx%elem_of_nil.
  - apply stays; cbn; [done|done|left|done].
  - by intros su Hsu%elem_of_nil.
Qed.

Lemma edge_loop_some es id key target : edge_loop es id key = Some target -> mkEdge id target key ∈ es.
Proof.
  induction es as [|e es IH]; cbn; [done|]. destruct e as [f t k]; cbn.
  destruct (String.eqb_spec f id) as [->|], (String.eqb_spec k key) as [->|]; cbn; try (intros H; right; by apply IH).
  intros [= ->]. left.
Qed.

Lemma settle_keeps_activated c : jc_Activated c = true -> jc_Activated (settleJoin c) = true.
Proof. unfold settleJoin. cbn. intros ->. repeat case_match; done. Qed.

(** A settled status, then a successor, then the excluded branches. *)
Lemma move_spec a st a1 target key d f a2 ids a3 :
  started a -> ns_NodeID st = cn_ID (a_node a) -> ns_State st ∈ [NodeSucceeded; NodeFailed] ->
  same_inputs a a1 -> a_next a1 = setNode st (a_next a) ->
  t_Successors (a_t a1) = [] -> t_Skipped (a_t a1) = [] -> t_CompletedState (a_t a1) = ns_State st ->
  routed (a_plan a) (a_node a) key target ->
  activated target key d f a1 a2 -> skipped_all (a_plan a) ids a2 a3 ->
  (forall id, id ∈ ids -> InstanceState_Node (a_next a2) id = None) ->
  dispatched a a3.
Proof.
  intros Ha Hid Hst (E1 & E2 & E3) En Hs Hk Hcs Hr [A1 A2 (node & su & pending & Hn & Hsu & Hlook & Hsucc & Hjoin) A4 A5 AK A6] [S1 S2 S3 S4 S5 S6 SK S7] Hids.
  assert (Hv : NodeState_Valid (ns_State st) = true). { set_unfold in Hst. by destruct Hst as [->|[->|[]]]. }
  destruct (keep_status a st Ha Hid Hv) as [Hc Hkeep]. rewrite En in Hlook. rewrite Hs in Hsucc. cbn [app] in Hsucc.
  assert (T1 : t_Successors (a_t a3) = t_Successors (a_t a2)) by (by injection S5).
  assert (T2 : t_Skipped (a_t a2) = []) by (by injection A5 as; congruence).
  assert (T3 : t_CompletedState (a_t a3) = ns_State st). { rewrite <- Hcs. transitivity (t_CompletedState (a_t a2)); [by injection S5|by injection A5]. }
  assert (Hsk : forall id, id ∈ t_Skipped (a_t a3) <-> id ∈ ids). { intros id. rewrite S6, T2. set_solver. }
  assert (Hsuids : Transition_SuccessorIDs (a_t a3) = [target]). { unfold Transition_SuccessorIDs. by rewrite T1, Hsucc. }
  assert (Hmeta : erase (a_next a3) = erase (a_next a)) by (by rewrite S4, A4, En).
  assert (Ht : (target ∉ ids)). { intros Hin%Hids. by rewrite Hlook, decide_True in Hin. }
  assert (Hnode : forall id, InstanceState_Node (a_next a3) id = if decide (id ∈ ids) then Some (mkStatus id NodeSkipped 0 "" "")
    else if decide (target = id) then Some (mkStatus target su 0 "" "")
    else if decide (cn_ID (a_node a) = id) then Some st else InstanceState_Node (a_next a) id).
  { intros id. by rewrite S3, Hlook, Hkeep. }
  assert (Hni : target <> cn_ID (a_node a) -> (cn_ID (a_node a) ∉ ids)).
  { intros Hne Hin%Hids. by rewrite Hlook, decide_False, Hkeep, decide_True in Hin. }
  clear S3 S4 A4 A5 S5 S6.
  constructor.
  - destruct A1 as (B1 & B2 & B3), S1 as (C1 & C2 & C3). repeat split; congruence.
  - done.
  - intros id Hne Hsu' Hsk'. rewrite Hsk in Hsk'. rewrite Hsuids in Hsu'.
    rewrite Hnode, (decide_False (P := (id ∈ ids))) by done. rewrite !decide_False; [done|congruence|].
    intros ->. apply Hsu'. left.
  - rewrite Hsuids. intros Hne. exists st. assert (target <> cn_ID (a_node a)) by (intros E; apply Hne; rewrite <- E; left).
    rewrite Hnode, decide_False by auto. by rewrite decide_False, decide_True.
  - rewrite T1, Hsucc. intros x ->%list_elem_of_singleton. cbn. split; [done|].
    exists (mkStatus target su 0 "" ""). rewrite Hnode, decide_False by done. by rewrite decide_True.
  - intros id Hin%Hsk. pose proof (Hids id Hin) as Hnone. rewrite Hlook, Hkeep in Hnone.
    destruct (decide (target = id)); [done|]. destruct (decide (cn_ID (a_node a) = id)); [done|]. split; [done|].
    eexists. rewrite Hnode, decide_True by done. done.
  - by injection Hmeta.
  - eapply moves; [rewrite T1; exact Hsucc|exact Hr|by rewrite T3|by injection Hmeta].
  - rewrite T1, Hsucc. intros x ->%list_elem_of_singleton. cbn. intros Hty Hrd. rewrite E1 in A2.
    destruct (Hjoin Hty) as (c & Hc0 & Hc1 & Hst'). set (b := arrive (cn_ID (a_node a1)) c) in *.
    destruct (SK _ _ Hc1) as (c' & Hc' & _). exists c'. split; [done|].
    apply (S7 (fun c => jc_NodeID c = target -> jc_Activated c = true)).
    + intros e x He _ Hx. apply settle_keeps_activated, He, Hx.
    + intros j Hj Hjid. assert (j = b) as ->; [|destruct (jc_Activated b); [done|by rewrite Hst' in Hrd]].
      assert (InstanceState_Join (a_next a2) target = Some j) as Hj' by (by apply (Join_elem (a_plan a))). congruence.
    + by apply (Join_elem (a_plan a)) in Hc' as [? _].
    + by apply (Join_elem (a_plan a)) in Hc' as [_ ?].
  - eapply keeps_trans; [|exact SK]. eapply keeps_trans; [|exact AK]. rewrite En. by apply keeps_refl.
  - intros P HP1 HP2 Hall. apply S7; [done|]. rewrite E2, En in A6. by apply A6.
Qed.

Lemma skipped_none a : core (a_plan a) (a_next a) -> skipped_all (a_plan a) [] a a.
Proof. intros Hc. constructor; try apply keeps_refl; try done; set_solver. Qed.

Lemma fail_spec a a' : started a -> fail a = Ok a' -> dispatched a a'.
Proof.
  intros Ha. pose proof (status_id a Ha) as Hid. destruct (st_fresh _ Ha) as [Hs Hk]. unfold fail. cbv zeta.
  set (n := to_uint32 _). destruct (_ && _).
  - set (st := mkStatus _ NodeRetrying _ _ _). destruct (keep_status a st Ha Hid eq_refl) as [Hc Hn]. intros <-%Ok_eq.
    constructor; cbn; rewrite ?Hs, ?Hk; try (by apply keeps_refl); try done.
    + intros id Hne _ _. rewrite Hn, decide_False by congruence. done.
    + intros _. exists st. by rewrite Hn, decide_True.
    + by intros su Hsu%elem_of_nil.
    + by intros id Hx%elem_of_nil.
    + apply stays; cbn; [done|done|right; left|done].
    + by intros su Hsu%elem_of_nil.
  - destruct (String.eqb_spec (cn_FailureRoute (a_node a)) "") as [|Hf]; [done|].
    set (st := mkStatus _ NodeFailed _ _ _). set (a1 := on_t _ _). intros H.
    destruct (keep_status a st Ha Hid eq_refl) as [Hc _].
    pose proof (activate_spec _ _ _ _ a1 a' Hc H) as Hact.
    eapply (move_spec a st a1); try done; [by right; left|by right| |by intros id Hx%elem_of_nil].
    assert (Hp : a_plan a' = a_plan a) by (by destruct (ac_inputs _ _ _ _ _ _ Hact) as (-> & _)).
    rewrite <- Hp. apply skipped_none. rewrite Hp. apply Hact.
Qed.

Lemma end_spec a a' : started a -> cn_Type (a_node a) = StepEnd -> end_ a = Ok a' -> dispatched a a'.
Proof.
  intros Ha Ht H. pose proof (status_id a Ha) as Hid. destruct (st_fresh _ Ha) as [Hs Hk]. unfold end_ in H.
  destruct (cn_Terminal (a_node a)) as [tm|]; [|done]. cbv zeta in H. ok_inv. subst a'.
  set (st := mkStatus _ NodeSucceeded _ _ _) in *. destruct (keep_status a st Ha Hid eq_refl) as [Hc Hn].
  constructor; cbn; rewrite ?Hs, ?Hk; try (by apply keeps_refl); try done.
  - by destruct Hc.
  - intros id Hne _ _. etransitivity; [apply Hn|]. rewrite decide_False by congruence. done.
  - intros _. exists st. split; [|done]. etransitivity; [apply Hn|]. by rewrite decide_True.
  - by intros su Hsu%elem_of_nil.
  - by intros id Hx%elem_of_nil.
  - apply ends; cbn; try done. apply negb_false_iff, Nat.eqb_eq, length_zero_iff_nil in Hok0.
    change (sort_Strings (active_ids (s_Nodes (setNode st (a_next a)))) = []) in Hok0.
    by rewrite active_ids_sorted in Hok0 by apply (core_nodes _ _ Hc).
  - by intros su Hsu%elem_of_nil.
Qed.

Lemma route_spec a a' : started a -> route a = Ok a' -> dispatched a a'.
Proof.
  intros Ha H. pose proof (status_id a Ha) as Hid. destruct (st_fresh _ Ha) as [Hs Hk]. unfold route in H. ok_inv.
  destruct (edge a a1.1) as [target|] eqn:Ee; [|done]. cbv zeta in H. ok_inv.
  apply edge_loop_some in Ee. set (st := mkStatus _ NodeSucceeded _ _ _) in *.
  set (b := on_t (set_t_RouteKey a1.1) _) in *.
  destruct (keep_status a st Ha Hid eq_refl) as [Hc _].
  pose proof (activate_spec _ _ _ _ b a0 Hc Hok1) as Hact. unfold skipExcluded in H.
  set (ids := candidates_loop _ _ _ _ _ _ _) in *.
  assert (Hp : a_plan a0 = a_plan a) by (destruct (ac_inputs _ _ _ _ _ _ Hact) as (-> & _); done).
  assert (Hsk : skipped_all (a_plan a) ids a0 a').
  { rewrite <- Hp. destruct (skip_candidates_spec ids (on_next recomputeFrontier a0) a') as [S1 S2 S3 S4 S5 S6 SK S7]; [|done|].
    - cbn. rewrite Hp. apply core_recompute, Hact.
    - constructor; try done. }
  eapply (move_spec a st b); try done; [by left|by left|].
  intros id Hin. apply candidates_spec in Hin as [Hin|(_ & _ & Hin & _)]; [by apply elem_of_nil in Hin|done].
Qed.

Lemma dispatch_spec a a' : started a -> dispatch a = Ok a' -> dispatched a a'.
Proof.
  intros Ha. unfold dispatch. destruct (negb _); [by apply await_spec|]. destruct (no_Failed _); [by apply fail_spec|].
  destruct (String.eqb_spec (cn_Type (a_node a)) StepEnd); [by apply end_spec|by apply route_spec].
Qed.
