(* ===== verification/FrontierRuns.v ===== *)
(** Properties of advancement and of whole runs of an instance: the state
    invariant, the exact effect of a transition, join counters, the token an
    instance of released step types is, progress, termination and refusals. *)

From stdpp Require Import sorting relations.
From S2P Require Import Prelude Sorting Graphs LifecycleRules WorkflowPlan Frontier FrontierFacts.

Local Open Scope Z_scope.

(** A state that means what it says: what [validateState] checks, with the
    frontier compared as a list. *)
Record well_formed (plan : CompiledWorkflow) (s : InstanceState) : Prop := {
  wf_core : core plan s;
  wf_frontier : frontier_exact s
}.

(** * Join counters *)

(** The declared strategy is met by what has arrived. *)
Definition strategy_met (c : JoinCounter) : Prop :=
  (jc_Strategy c = JoinAll -> forall b, b ∈ jc_Branches c -> b ∈ jc_Satisfied c) /\
  (jc_Strategy c = JoinAny -> jc_Satisfied c <> []) /\
  (jc_Strategy c = JoinQuorum -> jc_Required c <= Z.of_nat (length (jc_Satisfied c))) /\
  (jc_Strategy c = JoinRequiredSet -> forall b, b ∈ jc_RequiredBranches c -> b ∈ jc_Satisfied c) /\
  (jc_Strategy c = JoinBestEffort -> (length (jc_Branches c) <= length (jc_Arrived c) + length (jc_Skipped c))%nat).

(** The arrivals and skips are declared branches, each counted once. *)
Record ledger (c : JoinCounter) : Prop := {
  ld_branches : NoDup (jc_Branches c) /\ Z.of_nat (length (jc_Branches c)) < 2 ^ 32;
  ld_arrived : NoDup (jc_Arrived c) /\ (forall b, b ∈ jc_Arrived c -> b ∈ jc_Branches c);
  ld_satisfied : NoDup (jc_Satisfied c) /\ (forall b, b ∈ jc_Satisfied c -> b ∈ jc_Arrived c);
  ld_skipped : NoDup (jc_Skipped c) /\ (forall b, b ∈ jc_Skipped c -> b ∈ jc_Branches c);
  ld_required : (jc_Strategy c = JoinAll -> jc_Required c = Z.of_nat (length (jc_Branches c))) /\
    (jc_Strategy c = JoinAny -> jc_Required c = 1) /\
    (jc_Strategy c = JoinQuorum -> 1 <= jc_Required c <= Z.of_nat (length (jc_Branches c)))
}.

Record counter_ok (c : JoinCounter) : Prop := {
  co_ledger : ledger c;
  co_met : jc_Activated c = true -> strategy_met c
}.

Lemma nodup_sub_length {A} (l k : list A) : NoDup l -> (forall x, x ∈ l -> x ∈ k) -> (length l <= length k)%nat.
Proof. intros H1 H2. by apply submseteq_length, NoDup_submseteq. Qed.

Lemma nodup_sub_all {A} (l k : list A) : NoDup l -> NoDup k -> (forall x, x ∈ l -> x ∈ k) -> (length k <= length l)%nat ->
  forall x, x ∈ k -> x ∈ l.
Proof.
  intros H1 H2 H3 H4 x. assert (l ≡ₚ k) as ->; [|done]. apply submseteq_length_Permutation; [by apply NoDup_submseteq|lia].
Qed.

Lemma satisfied_length c : ledger c -> to_uint32 (Z.of_nat (length (jc_Satisfied c))) = Z.of_nat (length (jc_Satisfied c)).
Proof.
  intros [[B1 B2] [A1 A2] [S1 S2] _ _]. unfold to_uint32. apply Z.mod_small.
  pose proof (nodup_sub_length _ _ S1 (fun x Hx => A2 x (S2 x Hx))). lia.
Qed.

(** Settling never activates a join whose strategy is not met. *)
Lemma settle_ok c : ledger c -> (jc_Activated c = true -> strategy_met c) -> counter_ok (settleJoin c).
Proof.
  intros Hl Hm. constructor; [by destruct Hl|]. pose proof (satisfied_length c Hl) as Hlen.
  destruct Hl as [[B1 B2] [A1 A2] [S1 S2] _ (R1 & R2 & R3)]. unfold settleJoin. cbn [jc_Activated].
  destruct (jc_Activated c) eqn:Ea.
  { intros _. destruct (Hm eq_refl) as (M1 & M2 & M3 & M4 & M5). done. }
  cbn [orb]. rewrite Hlen. intros Hact. unfold strategy_met. cbn.
  destruct (String.eqb_spec (jc_Strategy c) JoinAll) as [E|N1]; cbn [orb] in Hact.
  { rewrite E. split_and!; try done. intros _. apply nodup_sub_all; [done|done|auto|]. rewrite R1 in Hact by done. lia. }
  destruct (String.eqb_spec (jc_Strategy c) JoinAny) as [E|N2]; cbn [orb] in Hact.
  { rewrite E. split_and!; try done. intros _. rewrite R2 in Hact by done. by destruct (jc_Satisfied c). }
  destruct (String.eqb_spec (jc_Strategy c) JoinQuorum) as [E|N3].
  { rewrite E. split_and!; try done. intros _. lia. }
  destruct (String.eqb_spec (jc_Strategy c) JoinRequiredSet) as [E|N4].
  { rewrite E. split_and!; try done. intros _ b Hb. rewrite forallb_forall in Hact. apply contains_elem, Hact. by apply list_elem_of_In. }
  destruct (String.eqb_spec (jc_Strategy c) JoinBestEffort) as [E|N5]; [|done].
  rewrite E. split_and!; try done. intros _. by apply Nat.leb_le in Hact.
Qed.

Lemma insertSorted_length l x : (length l <= length (insertSorted l x))%nat.
Proof. unfold insertSorted. destruct (contains l x); [done|]. rewrite sort_Strings_Permutation, length_app. lia. Qed.

Lemma arrive_ok b c : counter_ok c -> b ∈ jc_Branches c -> counter_ok (arrive b c).
Proof.
  intros [[B [A1 A2] [S1 S2] K R] Hm] Hb. apply settle_ok.
  - constructor; cbn; try done.
    + split; [by apply insertSorted_NoDup|]. intros x. rewrite elem_of_insertSorted. intros [?| ->]; auto.
    + split; [by apply insertSorted_NoDup|]. intros x. rewrite !elem_of_insertSorted. intros [?| ->]; auto.
  - cbn. intros Hact. destruct (Hm Hact) as (M1 & M2 & M3 & M4 & M5).
    pose proof (insertSorted_length (jc_Satisfied c) b). pose proof (insertSorted_length (jc_Arrived c) b).
    split_and!; cbn; intros E.
    + intros x Hx. apply elem_of_insertSorted. auto.
    + intros E'. apply (f_equal length) in E'. cbn in E'. destruct (jc_Satisfied c); [by apply M2|cbn in *; lia].
    + specialize (M3 E). lia.
    + intros x Hx. apply elem_of_insertSorted. auto.
    + specialize (M5 E). lia.
Qed.

Lemma skip_ok b c : counter_ok c -> b ∈ jc_Branches c -> counter_ok (skip b c).
Proof.
  intros [[B A S [K1 K2] R] Hm] Hb. apply settle_ok.
  - constructor; cbn; try done. split; [by apply insertSorted_NoDup|]. intros x. rewrite elem_of_insertSorted. intros [?| ->]; auto.
  - cbn. intros Hact. destruct (Hm Hact) as (M1 & M2 & M3 & M4 & M5).
    pose proof (insertSorted_length (jc_Skipped c) b). split_and!; cbn; auto. intros E. specialize (M5 E). lia.
Qed.

(** ** Seeding *)

Lemma incoming_loop_spec es id seen out : (forall x, x ∈ seen <-> x ∈ out) -> NoDup out ->
  NoDup (incoming_loop es id seen out) /\
  (forall x, x ∈ incoming_loop es id seen out <-> x ∈ out \/ exists e, e ∈ es /\ e_To e = id /\ e_From e = x) /\
  (length (incoming_loop es id seen out) <= length out + length es)%nat.
Proof.
  revert seen out. induction es as [|e es IH]; intros seen out Hs Hnd; cbn [incoming_loop].
  { split_and!; [done|set_solver|cbn; lia]. }
  destruct (String.eqb_spec (e_To e) id) as [Et|Et]; cbn [negb orb].
  - destruct (contains seen (e_From e)) eqn:Ec.
    + apply contains_elem, Hs in Ec. destruct (IH seen out Hs Hnd) as (I1 & I2 & I3). split_and!; [done| |cbn; lia].
      intros x. rewrite I2. setoid_rewrite elem_of_cons. naive_solver.
    + assert (Hn : (e_From e ∉ out)). { rewrite <- Hs, <- contains_elem. congruence. }
      destruct (IH (e_From e :: seen) (out ++ [e_From e])) as (I1 & I2 & I3).
      * intros x. rewrite elem_of_cons, elem_of_app, list_elem_of_singleton, Hs. tauto.
      * apply NoDup_app. split_and!; [done| |apply NoDup_singleton]. by intros x Hx ->%list_elem_of_singleton.
      * split_and!; [done| |rewrite length_app in I3; cbn in *; lia].
        intros x. rewrite I2, elem_of_app, list_elem_of_singleton. setoid_rewrite elem_of_cons. naive_solver.
  - destruct (IH seen out Hs Hnd) as (I1 & I2 & I3). split_and!; [done| |cbn; lia].
    intros x. rewrite I2. setoid_rewrite elem_of_cons. naive_solver.
Qed.

Lemma incomingBranches_spec plan id : NoDup (incomingBranches plan id) /\
  (forall x, x ∈ incomingBranches plan id <-> exists e, e ∈ cw_Edges plan /\ e_To e = id /\ e_From e = x) /\
  (length (incomingBranches plan id) <= length (cw_Edges plan))%nat.
Proof.
  unfold incomingBranches. destruct (incoming_loop_spec (cw_Edges plan) id [] []) as (I1 & I2 & I3); [done|constructor|].
  rewrite sort_Strings_Permutation. split_and!; [done| |done]. intros x. rewrite sort_Strings_Permutation, I2. set_solver.
Qed.

Lemma newJoinCounter_ok d plan id c : (Z.of_nat (length (cw_Edges plan)) < 2 ^ 32) -> 0 <= jd_RequiredCount d ->
  JoinStrategy_Valid (jd_Strategy d) = true -> newJoinCounter d (incomingBranches plan id) = Ok c ->
  counter_ok c /\ jc_NodeID c = jd_NodeID d /\ jc_Strategy c = jd_Strategy d /\ jc_Branches c = incomingBranches plan id.
Proof.
  intros Hlen Hcount Hv H. destruct (incomingBranches_spec plan id) as (B1 & _ & B3). unfold newJoinCounter in H. cbv zeta in H.
  set (bs := incomingBranches plan id) in *. clearbody bs.
  assert (Hmk : forall required set,
    (jd_Strategy d = JoinAll -> required = Z.of_nat (length bs)) -> (jd_Strategy d = JoinAny -> required = 1) ->
    (jd_Strategy d = JoinQuorum -> 1 <= required <= Z.of_nat (length bs)) ->
    counter_ok (mkCounter (jd_NodeID d) (jd_Strategy d) required set bs [] [] [] false false)).
  { intros r set H1 H2 H3. constructor; [|done]. constructor; cbn; try (split; [constructor|by intros b Hb%elem_of_nil]); [split; [done|lia]|done]. }
  assert (Hu : to_uint32 (Z.of_nat (length bs)) = Z.of_nat (length bs)) by (apply Z.mod_small; lia).
  repeat match type of H with
  | (if String.eqb ?x ?y then _ else _) = _ => destruct (String.eqb_spec x y) as [E|]
  | (if ?b then _ else _) = _ => destruct b eqn:?
  end; try done; apply Ok_eq in H; subst c; (split; [|done]); apply Hmk; rewrite ?E; try done; lia.
Qed.

(** A plan as the compiler publishes it, as far as instance states depend on
    it: node ids are distinct and the edges fit in 32 bits. *)
Record sound_plan (plan : CompiledWorkflow) : Prop := {
  sp_ids : NoDup (cn_ID <$> cw_Nodes plan);
  sp_edges : Z.of_nat (length (cw_Edges plan)) < 2 ^ 32
}.

Definition unsigned (decls : list JoinDeclaration) : Prop := forall d, d ∈ decls -> 0 <= jd_RequiredCount d.

(** A counter seeded for a JOIN of the plan. *)
Record seeded (plan : CompiledWorkflow) (id : string) (c : JoinCounter) : Prop := {
  sd_ok : counter_ok c;
  sd_id : jc_NodeID c = id;
  sd_strategy : JoinStrategy_Valid (jc_Strategy c) = true;
  sd_branches : jc_Branches c = incomingBranches plan id
}.

Lemma declare_joins_ok plan decls acc declared : unsigned decls -> declare_joins plan decls acc = Ok declared ->
  (forall id d, assoc id acc = Some d -> jd_NodeID d = id /\ JoinStrategy_Valid (jd_Strategy d) = true /\ 0 <= jd_RequiredCount d) ->
  forall id d, assoc id declared = Some d -> jd_NodeID d = id /\ JoinStrategy_Valid (jd_Strategy d) = true /\ 0 <= jd_RequiredCount d.
Proof.
  revert acc. induction decls as [|d ds IH]; intros acc Hu; cbn [declare_joins]; [by intros [= <-]|].
  destruct (CompiledWorkflow_Node plan (jd_NodeID d)); [|done]. destruct (negb _); [done|].
  destruct (bool_decide _); [done|]. destruct (JoinStrategy_Valid (jd_Strategy d)) eqn:Ev; [|done]. cbn [negb]. intros H Hacc.
  eapply IH; [intros x Hx; apply Hu; by right|exact H|]. intros id e. cbn.
  destruct (String.eqb_spec (jd_NodeID d) id); [|apply Hacc]. intros [= <-]. split_and!; [done|done|]. apply Hu. left.
Qed.

Definition join_nodes (ns : list CompiledNode) : list CompiledNode := filter (fun n => cn_Type n = StepJoin) ns.

Lemma build_counters_ok plan declared ns out : Z.of_nat (length (cw_Edges plan)) < 2 ^ 32 ->
  (forall id d, assoc id declared = Some d -> jd_NodeID d = id /\ JoinStrategy_Valid (jd_Strategy d) = true /\ 0 <= jd_RequiredCount d) ->
  build_counters plan declared ns = Ok out ->
  Forall2 (fun n c => seeded plan (cn_ID n) c) (join_nodes ns) out.
Proof.
  intros Hlen Hd. unfold join_nodes. revert out. induction ns as [|n ns IH]; intros out; cbn [build_counters].
  { intros [= <-]. constructor. }
  rewrite filter_cons. destruct (String.eqb_spec (cn_Type n) StepJoin) as [Et|Et]; cbn [negb].
  - rewrite decide_True by done. cbv zeta. intros H. ok_inv. subst out. constructor; [|by apply IH].
    set (d := default _ _) in *.
    assert (Hdecl : jd_NodeID d = cn_ID n /\ JoinStrategy_Valid (jd_Strategy d) = true /\ 0 <= jd_RequiredCount d).
    { unfold d. destruct (assoc (cn_ID n) declared) as [d'|] eqn:Ea; [by apply Hd|done]. }
    destruct Hdecl as (D1 & D2 & D3). destruct (newJoinCounter_ok d plan (cn_ID n) a Hlen D3 D2 Hok) as (C1 & C2 & C3 & C4).
    constructor; [done|congruence|congruence|done].
  - rewrite decide_False by done. apply IH.
Qed.

Lemma seedJoins_ok plan decls joins : sound_plan plan -> unsigned decls -> seedJoins plan decls = Ok joins ->
  StronglySorted (key_lt jc_NodeID) joins /\
  (forall c, c ∈ joins -> exists n, n ∈ cw_Nodes plan /\ cn_Type n = StepJoin /\ seeded plan (cn_ID n) c) /\
  (forall n, n ∈ cw_Nodes plan -> cn_Type n = StepJoin -> exists c, c ∈ joins /\ seeded plan (cn_ID n) c).
Proof.
  intros [Hnd Hlen] Hu H. unfold seedJoins in H. ok_inv. subst joins.
  pose proof (declare_joins_ok plan decls [] a Hu Hok ltac:(done)) as Hd.
  pose proof (build_counters_ok plan a (cw_Nodes plan) a0 Hlen Hd Hok0) as HF.
  assert (Hids : jc_NodeID <$> a0 = cn_ID <$> join_nodes (cw_Nodes plan)).
  { clear -HF. induction HF as [|n c ns cs Hs HF IH]; [done|]. cbn. by rewrite (sd_id _ _ _ Hs), IH. }
  assert (Hndj : NoDup (jc_NodeID <$> a0)).
  { rewrite Hids. unfold join_nodes. clear -Hnd. induction (cw_Nodes plan) as [|n ns IH]; [constructor|]. cbn in Hnd.
    apply NoDup_cons in Hnd as [Hn Hnd]. rewrite filter_cons. case_decide; [|by apply IH]. cbn. constructor; [|by apply IH].
    intros (m & E & [_ Hm]%list_elem_of_filter)%list_elem_of_fmap. apply Hn. rewrite E. by apply list_elem_of_fmap_2. }
  split_and!; [by apply sort_by_strict| |].
  - intros c. rewrite sort_by_Permutation. intros (i & Hc)%list_elem_of_lookup.
    destruct (Forall2_lookup_r _ _ _ _ _ HF Hc) as (n & Hn & Hs). apply list_elem_of_lookup_2, list_elem_of_filter in Hn as [Ht Hn]. eauto.
  - intros n Hn Ht. assert (n ∈ join_nodes (cw_Nodes plan)) as (i & Hi)%list_elem_of_lookup by (by apply list_elem_of_filter).
    destruct (Forall2_lookup_l _ _ _ _ _ HF Hi) as (c & Hc & Hs). exists c. split; [|done].
    rewrite sort_by_Permutation. by eapply list_elem_of_lookup_2.
Qed.

Lemma find_node_elem plan n : NoDup (cn_ID <$> cw_Nodes plan) -> n ∈ cw_Nodes plan -> CompiledWorkflow_Node plan (cn_ID n) = Some n.
Proof.
  unfold CompiledWorkflow_Node. induction (cw_Nodes plan) as [|m ns IH]; intros Hnd Hn; [by apply elem_of_nil in Hn|]. cbn in *.
  apply NoDup_cons in Hnd as [Hm Hnd]. apply elem_of_cons in Hn as [->|Hn]; [by rewrite String.eqb_refl|].
  destruct (String.eqb_spec (cn_ID m) (cn_ID n)) as [E|]; [|by apply IH]. destruct Hm. rewrite E. by apply list_elem_of_fmap_2.
Qed.

(** Every JOIN of the plan has a counter with the branches of its edges. *)
Definition covers (plan : CompiledWorkflow) (s : InstanceState) : Prop :=
  forall n, n ∈ cw_Nodes plan -> cn_Type n = StepJoin ->
  exists c, InstanceState_Join s (cn_ID n) = Some c /\ jc_Branches c = incomingBranches plan (cn_ID n).

(** What holds of an instance from its start on. *)
Record instance_ok (plan : CompiledWorkflow) (s : InstanceState) : Prop := {
  io_wf : well_formed plan s;
  io_pinned : s_PlanDigest s = CompiledWorkflow_Digest plan;
  io_joins : all_joins counter_ok s;
  io_covers : covers plan s;
  io_token : if s_Completed s then s_Frontier s = [] else exists n, s_Frontier s = [n]
}.

Lemma seed_ok plan id decls s : sound_plan plan -> unsigned decls -> Seed (Some plan) id decls = Ok s ->
  instance_ok plan s /\ s_Completed s = false /\ s_Frontier s = [cw_StartNodeID plan] /\ s_Sequence s = 0.
Proof.
  intros Hp Hu H. unfold Seed in H. destruct (CompiledWorkflow_Node plan (cw_StartNodeID plan)) as [start|] eqn:Es; [|done].
  ok_inv. subst s. destruct (find_node_ID _ _ _ Es) as [Hid _]. destruct (seedJoins_ok plan decls a Hp Hu Hok) as (J1 & J2 & J3).
  assert (Hc : core plan (mkState id (cw_WorkflowID plan) (cw_Version plan) (CompiledWorkflow_Digest plan) 0
    [cw_StartNodeID plan] [mkStatus (cn_ID start) NodeReady 0 "" ""] a false zero_record)).
  { constructor; cbn.
    - repeat constructor.
    - done.
    - intros n ->%list_elem_of_singleton. cbn. rewrite Hid. split; [by exists start|done].
    - intros c Hc. destruct (J2 c Hc) as (n & Hn & Ht & [_ S2 S3 _]). rewrite S2. split; [|done]. exists n.
      apply find_node_elem; [apply Hp|done]. }
  assert (Hf : sort_Strings (active_ids [mkStatus (cn_ID start) NodeReady 0 "" ""]) = [cw_StartNodeID plan]).
  { rewrite active_ids_sorted by repeat constructor. cbn. by rewrite Hid. }
  split_and!; [|done|done|done]. constructor.
  - constructor; [by destruct Hc|]. unfold frontier_exact. cbn [recomputeFrontier set_s_Frontier s_Frontier s_Nodes].
    apply active_ids_sorted. repeat constructor.
  - done.
  - intros c Hin. destruct (J2 c Hin) as (n & _ & _ & []). done.
  - intros n Hn Ht. destruct (J3 n Hn Ht) as (c & Hin & [_ S2 _ S4]). exists c. split; [|done].
    apply (find_key_Some jc_NodeID); [done|]. done.
  - cbn [s_Completed]. eexists. cbn [recomputeFrontier set_s_Frontier s_Frontier s_Nodes]. exact Hf.
Qed.

Lemma active_NoDup ns : StronglySorted (key_lt ns_NodeID) ns -> NoDup (active_ids ns).
Proof.
  intros Hs. unfold active_ids. apply ordered_NoDup in Hs. induction ns as [|n ns IH]; [constructor|]. cbn in Hs.
  apply NoDup_cons in Hs as [Hn Hs]. rewrite filter_cons. case_decide; [|by apply IH]. cbn. constructor; [|by apply IH].
  intros (m & E & [_ Hm]%list_elem_of_filter)%list_elem_of_fmap. apply Hn. rewrite E. by apply list_elem_of_fmap_2.
Qed.

Lemma active_single plan s x : core plan s -> (forall id, id ∈ active_ids (s_Nodes s) <-> id = x) -> active_ids (s_Nodes s) = [x].
Proof.
  intros Hc H. apply Permutation_singleton_r, NoDup_Permutation; [apply active_NoDup, Hc|apply NoDup_singleton|].
  intros id. rewrite H. by rewrite list_elem_of_singleton.
Qed.

(** * The abstract token

    An instance of a plan with the primitives of the releases stands at one
    node, or has ended.  The rules say where the outcome of that node takes the
    token; at most one of them applies, so the outcome decides the move. *)

(** Every step type is one a release implements: no structural primitive. *)
Definition released (plan : CompiledWorkflow) : Prop :=
  forall n, n ∈ cw_Nodes plan -> Phase_admits PhaseP1B (cn_Type n) = true.

(** The node has the route key among its outcomes. *)
Definition expected (n : CompiledNode) (key : string) : Prop :=
  (exists conf, ConformanceFor (cn_Type n) = Some conf /\ key ∈ cf_Outcomes conf) \/
  (exists d, cn_Decision n = Some d /\ key ∈ dr_Key <$> cd_Routes d).

(** Another attempt is left after [attempts] counted ones. *)
Definition retry_left (n : CompiledNode) (attempts : Z) (o : NodeOutcome) : Prop :=
  no_RetryTerminal o = false /\ exists r, cn_Retry n = Some r /\ to_uint32 (attempts + 1) < rp_MaxAttempts r.

Lemma retry_left_dec n attempts o : retry_left n attempts o \/ ~ retry_left n attempts o.
Proof.
  unfold retry_left. destruct (no_RetryTerminal o); [right; by intros [? _]|]. destruct (cn_Retry n) as [r|]; [|right; by intros [_ (r & ? & _)]].
  destruct (decide (to_uint32 (attempts + 1) < rp_MaxAttempts r)); [left; eauto|right]. intros [_ (r' & [= <-] & ?)]. done.
Qed.

(** The key an outcome is routed by: the outcome itself, or at a DECISION
    that does not list it the default route. *)
Definition follows (n : CompiledNode) (outcome key : string) : Prop :=
  (expected n outcome /\ key = outcome) \/
  (~ expected n outcome /\ cn_Type n = StepDecision /\ key <> "" /\ exists d, cn_Decision n = Some d /\ cd_DefaultRoute d = key).

(** The first edge of the plan from the node with the key. *)
Definition leads (plan : CompiledWorkflow) (id key target : string) : Prop :=
  exists before behind : list Edge, cw_Edges plan = (before ++ mkEdge id target key :: behind)%list /\
    forall e, e ∈ before -> e_From e = id -> e_RouteKey e <> key.

Inductive token_step (plan : CompiledWorkflow) (n : CompiledNode) (attempts : Z) (o : NodeOutcome) : option string -> Prop :=
  | token_waits : no_Await o <> AwaitNone -> awaitAdmitted (cn_Type n) (no_Await o) = true ->
      token_step plan n attempts o (Some (cn_ID n))
  | token_retries : no_Await o = AwaitNone -> no_Failed o = true -> retry_left n attempts o ->
      token_step plan n attempts o (Some (cn_ID n))
  | token_fails : no_Await o = AwaitNone -> no_Failed o = true -> ~ retry_left n attempts o -> cn_FailureRoute n <> "" ->
      token_step plan n attempts o (Some (cn_FailureRoute n))
  | token_ends : no_Await o = AwaitNone -> no_Failed o = false -> cn_Type n = StepEnd ->
      token_step plan n attempts o None
  | token_moves key target : no_Await o = AwaitNone -> no_Failed o = false -> cn_Type n <> StepEnd ->
      follows n (no_Outcome o) key -> leads plan (cn_ID n) key target ->
      token_step plan n attempts o (Some target).

Lemma edge_loop_leads es id key target : edge_loop es id key = Some target ->
  exists before behind : list Edge, es = (before ++ mkEdge id target key :: behind)%list /\ forall e, e ∈ before -> e_From e = id -> e_RouteKey e <> key.
Proof.
  induction es as [|e es IH]; cbn [edge_loop]; [done|]. destruct e as [f t k]. cbn [e_From e_RouteKey e_To].
  destruct (String.eqb f id && String.eqb k key) eqn:E.
  - apply andb_true_iff in E as [->%String.eqb_eq ->%String.eqb_eq]. intros [= ->]. exists [], es. split; [done|]. by intros e He%elem_of_nil.
  - intros (before & behind & -> & H)%IH. exists (mkEdge f t k :: before), behind. split; [done|].
    intros e [->|He]%elem_of_cons; [|by apply H]. cbn. intros -> ->. by rewrite !String.eqb_refl in E.
Qed.

Lemma declares_expected a key : declares a key = true <-> expected (a_node a) key.
Proof.
  unfold declares, expected. rewrite orb_true_iff.
  destruct (ConformanceFor (cn_Type (a_node a))) as [conf|], (cn_Decision (a_node a)) as [d|]; cbn; rewrite ?contains_elem; naive_solver.
Qed.

Lemma route_key_follows a kd : route_key a = Ok kd -> follows (a_node a) (no_Outcome (a_outcome a)) kd.1.
Proof.
  unfold route_key. cbv zeta. destruct (declares a (no_Outcome (a_outcome a))) eqn:Ed.
  - intros <-%Ok_eq. left. split; [by apply declares_expected|done].
  - destruct (cn_Decision (a_node a)) as [d|] eqn:Ec; [|done].
    destruct (String.eqb_spec (cn_Type (a_node a)) StepDecision) as [Et|]; cbn [negb]; [|done].
    destruct (String.eqb_spec (cd_DefaultRoute d) "") as [|Hne]; [done|]. intros <-%Ok_eq. right. cbn.
    split_and!; [|done|done|eauto]. intros He%declares_expected. congruence.
Qed.

Lemma retry_left_true a : (to_uint32 (ns_Attempts (a_status a) + 1) <? from_option rp_MaxAttempts 0 (cn_Retry (a_node a)))
    && negb (no_RetryTerminal (a_outcome a)) = true <-> retry_left (a_node a) (ns_Attempts (a_status a)) (a_outcome a).
Proof.
  unfold retry_left. rewrite andb_true_iff, negb_true_iff, Z.ltb_lt.
  destruct (cn_Retry (a_node a)) as [r|]; cbn [from_option id].
  - split; [intros [H1 H2]; eauto|]. intros [H1 (r' & [= <-] & H2)]. done.
  - split; [|intros [_ (r & ? & _)]; done]. intros [H _]. unfold to_uint32 in H. pose proof (Z.mod_pos_bound (ns_Attempts (a_status a) + 1) (2 ^ 32)). lia.
Qed.

(** Where a dispatch leaves the token. *)
Definition position (a a' : advance) : option string :=
  match t_Successors (a_t a') with
  | su :: _ => Some (su_NodeID su)
  | [] => if s_Completed (a_next a') then None else Some (cn_ID (a_node a))
  end.

Lemma activate_position target key d f a b a' : core (a_plan b) (a_next b) -> t_Successors (a_t b) = [] ->
  activate target key d f b = Ok a' -> position a a' = Some target.
Proof.
  intros Hc Hs H. destruct (ac_node _ _ _ _ _ _ (activate_spec _ _ _ _ _ _ Hc H)) as (node & st & pending & _ & _ & _ & E & _).
  unfold position. by rewrite E, Hs.
Qed.

Lemma skip_position a key target b a' : core (a_plan b) (a_next b) -> skipExcluded key target b = Ok a' -> position a a' = position a b.
Proof.
  intros Hc H. unfold skipExcluded in H. cbv zeta in H.
  assert (Hr : core (a_plan (on_next recomputeFrontier b)) (a_next (on_next recomputeFrontier b))) by (by apply core_recompute).
  destruct (skip_candidates_spec _ _ _ Hr H) as [_ _ _ S4 S5 _ _ _].
  unfold position. assert (t_Successors (a_t a') = t_Successors (a_t b)) as -> by (by injection S5).
  assert (s_Completed (a_next a') = s_Completed (a_next b)) as -> by (by injection S4). done.
Qed.

(** A dispatch moves the token as the rules say. *)
Lemma dispatch_token a a' : started a -> s_Completed (a_next a) = false -> dispatch a = Ok a' ->
  token_step (a_plan a) (a_node a) (ns_Attempts (a_status a)) (a_outcome a) (position a a').
Proof.
  intros Ha Ho H. pose proof (status_id a Ha) as Hid. destruct (st_fresh _ Ha) as [Hs _]. unfold dispatch in H.
  destruct (String.eqb_spec (no_Await (a_outcome a)) AwaitNone) as [Ew|Ew]; cbn [negb] in H.
  2:{ unfold await in H. ok_inv. subst a'. apply negb_false_iff in Hok0.
      assert (position a _ = Some (cn_ID (a_node a))) as ->; [|by apply token_waits]. unfold position. cbn. by rewrite Hs, Ho. }
  destruct (no_Failed (a_outcome a)) eqn:Ef.
  - unfold fail in H. cbv zeta in H. destruct (_ && _) eqn:Er.
    + apply Ok_eq in H. subst a'. apply retry_left_true in Er.
      assert (position a _ = Some (cn_ID (a_node a))) as ->; [|by apply token_retries]. unfold position. cbn. by rewrite Hs, Ho.
    + destruct (String.eqb_spec (cn_FailureRoute (a_node a)) "") as [|Hf]; [done|].
      assert (~ retry_left (a_node a) (ns_Attempts (a_status a)) (a_outcome a)) as Hn by (rewrite <- retry_left_true; congruence).
      match type of H with activate _ _ _ _ ?x = _ => set (b := x) in * end.
      assert (Hc : core (a_plan b) (a_next b)) by (cbn; apply core_setNode; [apply Ha|cbn; rewrite Hid; eexists; apply Ha|done]).
      rewrite (activate_position _ _ _ _ a b a' Hc Hs H). by apply token_fails.
  - destruct (String.eqb_spec (cn_Type (a_node a)) StepEnd) as [Et|Et].
    + unfold end_ in H. destruct (cn_Terminal (a_node a)); [|done]. cbv zeta in H. ok_inv. subst a'.
      unfold position. cbn. rewrite Hs. by apply token_ends.
    + unfold route in H. ok_inv. destruct (edge a a1.1) as [target|] eqn:Ee; [|done]. cbv zeta in H. ok_inv.
      set (b := on_t (set_t_RouteKey a1.1) _) in *.
      assert (Hc : core (a_plan b) (a_next b)) by (cbn; apply core_setNode; [apply Ha|cbn; rewrite Hid; eexists; apply Ha|done]).
      pose proof (activate_spec _ _ _ _ b a0 Hc Hok1) as Hact.
      assert (Hc0 : core (a_plan a0) (a_next a0)) by (destruct (ac_inputs _ _ _ _ _ _ Hact) as (-> & _); apply Hact).
      rewrite (skip_position a _ _ a0 a' Hc0 H), (activate_position _ _ _ _ a b a0 Hc Hs Hok1).
      apply (token_moves _ _ _ _ a1.1); [done..|by apply route_key_follows|]. by apply edge_loop_leads.
Qed.

Definition standing (s : InstanceState) (pos : option string) : Prop :=
  match pos with
  | Some id => s_Completed s = false /\ s_Frontier s = [id]
  | None => s_Completed s = true /\ s_Frontier s = []
  end.

Section advancement.
Context (dg : Transition -> string).

(** One successful advancement, taken apart. *)
Record evaluation (plan : CompiledWorkflow) (s : InstanceState) (o : NodeOutcome) (t : Transition) (a a' : advance) : Prop := {
  ev_started : started a;
  ev_dispatched : dispatched a a';
  ev_dispatch : dispatch a = Ok a';
  ev_plan : a_plan a = plan;
  ev_node : cn_ID (a_node a) = no_NodeID o;
  ev_outcome : a_outcome a = o;
  ev_next : a_next a = set_s_Sequence (to_uint64 (s_Sequence s + 1)) s;
  ev_active : NodeState_Active (ns_State (a_status a)) = true;
  ev_result : t = finish dg a';
  ev_pinned : s_PlanDigest s = CompiledWorkflow_Digest plan;
  ev_open : s_Completed s = false;
  ev_core : core plan s
}.

Lemma advance_inv plan s o t : Advance dg (Some plan) s o = Ok t -> exists a a', evaluation plan s o t a a'.
Proof using.
  unfold Advance, newAdvance. intros H. ok_inv. rename a into b, Hok into Hnew. unfold run in H. ok_inv.
  rename a into a', Hok into Hrun. rewrite negb_false_iff, String.eqb_eq in Hok0. destruct (CompiledWorkflow_Node plan (no_NodeID o)) as [node|] eqn:En; [|done].
  destruct (InstanceState_Node s (no_NodeID o)) as [status|] eqn:Es; [|done]. ok_inv. subst b.
  apply negb_false_iff in Hok. apply validateState_ok in Hok2 as [Hc _]. destruct (find_node_ID _ _ _ En) as [Hid _].
  match type of Hrun with dispatch ?x = _ => set (a := x) in * end.
  assert (Ha : started a). { constructor; cbn; [by destruct Hc|by rewrite Hid|by rewrite Hid|done]. }
  exists a, a'. constructor; try done. by apply dispatch_spec.
Qed.

Lemma successors_sorted a a' : dispatched a a' -> t_Successors (finish dg a') = t_Successors (a_t a').
Proof using. intros Hd. cbn. by destruct (ds_shape _ _ Hd) as [-> | su -> | ->]. Qed.

Lemma finish_frontier plan a : core plan (a_next a) -> frontier_exact (t_Next (finish dg a)).
Proof using. intros Hc. unfold frontier_exact. cbn. apply active_ids_sorted, Hc. Qed.

Lemma Node_sequence v s id : InstanceState_Node (set_s_Sequence v s) id = InstanceState_Node s id.
Proof using. done. Qed.

Lemma skipped_elem a id : id ∈ t_Skipped (finish dg a) <-> id ∈ t_Skipped (a_t a).
Proof using. cbn. apply elem_of_sort_Strings. Qed.

Lemma advance_next_valid plan s o t : Advance dg (Some plan) s o = Ok t ->
  well_formed plan (t_Next t) /\ validateState plan (t_Next t) = Ok tt /\ s_PlanDigest (t_Next t) = CompiledWorkflow_Digest plan.
Proof using.
  intros H. destruct (advance_inv _ _ _ _ H) as (a & a' & []). subst t plan. pose proof (ds_core _ _ ev_dispatched0) as Hc.
  assert (Hwf : well_formed (a_plan a) (t_Next (finish dg a'))).
  { constructor; [by destruct Hc|by apply (finish_frontier (a_plan a))]. }
  split_and!; [done| |].
  - apply validateState_ok. split; [apply Hwf|]. by rewrite (wf_frontier _ _ Hwf).
  - destruct (ds_pinned _ _ ev_dispatched0) as (_ & P4 & _). cbn. by rewrite P4, ev_next0.
Qed.

(** C18: An advancement keeps an instance state well formed, pinned to its plan
    and numbered one further; an instance it completes has nothing left on the
    frontier. *)
Theorem advance_preserves_state (plan : CompiledWorkflow) (s : InstanceState) (o : NodeOutcome) (t : Transition)
    (H : Advance dg (Some plan) s o = Ok t) :
  well_formed plan (t_Next t) /\ validateState plan (t_Next t) = Ok tt /\ t_Frontier t = s_Frontier (t_Next t) /\
  s_PlanDigest (t_Next t) = s_PlanDigest s /\ s_InstanceID (t_Next t) = s_InstanceID s /\
  s_Sequence (t_Next t) = to_uint64 (s_Sequence s + 1) /\
  (s_Completed (t_Next t) = true -> s_Frontier (t_Next t) = []).
Proof using.
  destruct (advance_next_valid _ _ _ _ H) as (Hwf & Hv & _).
  destruct (advance_inv _ _ _ _ H) as (a & a' & []). subst t plan.
  destruct (ds_pinned _ _ ev_dispatched0) as ((P1 & P2 & P3) & P4 & P5). rewrite ev_next0 in *.
  split_and!; [done..|]. rewrite (wf_frontier _ _ Hwf). cbn.
  destruct (ds_shape _ _ ev_dispatched0) as [_ _ _ E|su _ _ _ E|]; [| |done]; rewrite E, ev_next0; cbn; congruence.
Qed.

(** A node of the instance is in a state. *)
Definition holds (s : InstanceState) (id : string) (state : NodeState) : Prop :=
  exists st, InstanceState_Node s id = Some st /\ ns_State st = state.

(** The transition settled its node: it did not suspend or retry it. *)
Definition settled (t : Transition) : Prop := t_CompletedState t ∈ [NodeSucceeded; NodeFailed].

(** The transition describes exactly what changed: the completed node and
    the successors hold the reported states, skipped nodes had no state before,
    and no other node moved. *)
Theorem advance_changes_exact (plan : CompiledWorkflow) (s : InstanceState) (o : NodeOutcome) (t : Transition)
    (H : Advance dg (Some plan) s o = Ok t) :
  (forall id, id <> no_NodeID o -> (id ∉ Transition_SuccessorIDs t) -> (id ∉ t_Skipped t) ->
     InstanceState_Node (t_Next t) id = InstanceState_Node s id) /\
  ((no_NodeID o ∉ Transition_SuccessorIDs t) ->
     holds (t_Next t) (no_NodeID o) (t_CompletedState t)) /\
  (forall su, su ∈ t_Successors t -> NodeState_Active (su_State su) = true /\ holds (t_Next t) (su_NodeID su) (su_State su)) /\
  (forall id, id ∈ t_Skipped t -> InstanceState_Node s id = None /\ holds (t_Next t) id NodeSkipped).
Proof using.
  destruct (advance_inv _ _ _ _ H) as (a & a' & []). subst t. rewrite <- ev_node0.
  assert (Hsu : Transition_SuccessorIDs (finish dg a') = Transition_SuccessorIDs (a_t a')).
  { unfold Transition_SuccessorIDs. by rewrite (successors_sorted _ _ ev_dispatched0). }
  rewrite Hsu, (successors_sorted _ _ ev_dispatched0).
  assert (Hnode : forall id, InstanceState_Node (a_next a) id = InstanceState_Node s id) by (intros id; by rewrite ev_next0).
  split_and!.
  - intros id. rewrite skipped_elem, <- Hnode. apply (ds_frame _ _ ev_dispatched0).
  - apply (ds_done _ _ ev_dispatched0).
  - intros su Hin. destruct (ds_successors _ _ ev_dispatched0 su Hin) as [Ha Hst]. split; [by apply arrival_valid|done].
  - intros id. rewrite skipped_elem, <- Hnode. apply (ds_skipped _ _ ev_dispatched0).
Qed.

(** A node that an advancement settled and did not itself reopen (through
    an edge or a failure route back to the node) is not advanced again: every
    further outcome for it is refused, with ALREADY_COMPLETE when the
    advancement completed the instance and with NODE_NOT_ACTIVE otherwise. *)
Theorem duplicate_delivery_refused (plan : CompiledWorkflow) (s : InstanceState) (o o' : NodeOutcome) (t : Transition)
    (H : Advance dg (Some plan) s o = Ok t) (Hsame : no_NodeID o' = no_NodeID o)
    (Hset : settled t) (Hback : (no_NodeID o ∉ Transition_SuccessorIDs t)) :
  Advance dg (Some plan) (t_Next t) o' = Err (if s_Completed (t_Next t)
    then mkError CodeAlreadyComplete (tr_NodeID (s_Terminal (t_Next t))) else mkError CodeNodeNotActive (no_NodeID o)).
Proof using.
  destruct (advance_next_valid _ _ _ _ H) as (_ & Hv & Hp).
  destruct (advance_inv _ _ _ _ H) as (a & a' & []).
  assert (exists st, InstanceState_Node (t_Next t) (no_NodeID o) = Some st /\ ns_State st = t_CompletedState t) as (st & Hst & Es).
  { subst t. unfold Transition_SuccessorIDs in Hback. rewrite (successors_sorted _ _ ev_dispatched0) in Hback.
    rewrite <- ev_node0 in *. by apply (ds_done _ _ ev_dispatched0). }
  unfold Advance, newAdvance. rewrite Hp, String.eqb_refl. cbn [negb fail_if mbind outcome_bind].
  destruct (s_Completed (t_Next t)); [done|]. cbn [fail_if mbind outcome_bind]. rewrite Hv. cbn [mbind outcome_bind].
  rewrite Hsame, <- ev_node0. destruct ev_started0 as [_ Hn _ _]. rewrite <- ev_plan0, Hn, ev_node0, Hst.
  assert (NodeState_Active (ns_State st) = false) as ->; [|done].
  rewrite Es. unfold settled in Hset. set_unfold in Hset. by destruct Hset as [->|[->|[]]].
Qed.

Lemma open_not_settled st : st ∈ [NodeWaiting; NodeRetrying] -> st ∈ [NodeSucceeded; NodeFailed] -> False.
Proof using.
  intros [->|[->|H]%elem_of_cons]%elem_of_cons H'; [| |by apply elem_of_nil in H];
    by apply elem_of_cons in H' as [?|[?|H']%elem_of_cons]; [..|apply elem_of_nil in H'].
Qed.

(** The active nodes after a dispatch from a single position. *)
Lemma dispatched_position plan s o t a a' : evaluation plan s o t a a' -> active_ids (s_Nodes s) = [no_NodeID o] ->
  let pos := position a a' in standing (t_Next t) pos /\
    (t_CompletedState t ∈ [NodeSucceeded; NodeFailed] ->
       pos = None \/ exists key target, routed plan (a_node a) key target /\ pos = Some target).
Proof using.
  intros [Ha Hd Hdd <- Hn <- Hnext Hact -> Hpin Hopen Hc] Htok. rewrite <- Hn in Htok.
  assert (Hs : forall id st, InstanceState_Node (a_next a) id = Some st -> NodeState_Active (ns_State st) = true -> id = cn_ID (a_node a)).
  { intros id st Hid Hst. rewrite Hnext, Node_sequence in Hid.
    assert (id ∈ active_ids (s_Nodes s)) as Hin by (apply (elem_of_active (a_plan a)); eauto).
    rewrite Htok in Hin. by apply list_elem_of_singleton in Hin. }
  assert (Hfin : forall x, (forall id, id ∈ active_ids (s_Nodes (a_next a')) <-> id = x) -> s_Frontier (t_Next (finish dg a')) = [x]).
  { intros x Hx. cbn. rewrite active_ids_sorted by apply (ds_core _ _ Hd). by apply (active_single (a_plan a)); [apply Hd|]. }
  pose proof (successors_sorted _ _ Hd) as Hsu. destruct (ds_shape _ _ Hd) as [E1 E2 E3 E4|su E1 E2 E3 E4|E1 E2 E3 E4 E5 E6].
  - unfold position. rewrite E1, E4, Hnext. cbn [set_s_Sequence s_Completed]. rewrite Hopen. split; [|intros Hset; by destruct (open_not_settled _ E3 Hset)].
    split; [cbn; by rewrite E4, Hnext|]. apply Hfin. intros id. rewrite (elem_of_active (a_plan a)) by apply Hd. split.
    + intros (st & Hst & Hact'). destruct (decide (id = cn_ID (a_node a))) as [|Hne]; [done|]. apply (Hs id st); [|done].
      rewrite <- Hst. symmetry. apply (ds_frame _ _ Hd); [done|unfold Transition_SuccessorIDs; rewrite E1|rewrite E2]; set_solver.
    + intros ->. destruct (ds_done _ _ Hd) as (st & Hst & Est); [unfold Transition_SuccessorIDs; rewrite E1; set_solver|].
      exists st. split; [done|]. rewrite Est. set_unfold in E3. by destruct E3 as [->|[->|[]]].
  - unfold position. rewrite E1. split; [|intros _; right; eauto].
    destruct (ds_successors _ _ Hd su) as [Harr (stt & Htar & Est)]; [rewrite E1; left|].
    split; [cbn; by rewrite E4, Hnext|]. apply Hfin. intros id. rewrite (elem_of_active (a_plan a)) by apply Hd. split.
    + intros (st & Hst & Hact'). destruct (decide (id = su_NodeID su)) as [|Hne]; [done|].
      assert (Hni : (id ∉ Transition_SuccessorIDs (a_t a'))) by (unfold Transition_SuccessorIDs; rewrite E1; set_solver).
      destruct (decide (id ∈ t_Skipped (a_t a'))) as [Hk|Hk].
      { destruct (ds_skipped _ _ Hd id Hk) as (_ & st' & Hst' & Ek). rewrite Hst in Hst'. injection Hst' as <-. by rewrite Ek in Hact'. }
      destruct (decide (id = cn_ID (a_node a))) as [->|Hna].
      * destruct (ds_done _ _ Hd Hni) as (st' & Hst' & Ek). rewrite Hst in Hst'. injection Hst' as <-. rewrite Ek in Hact'.
        exfalso. set_unfold in E3. destruct E3 as [E3|[E3|[]]]; by rewrite E3 in Hact'.
      * exfalso. apply Hna, (Hs id st); [|done]. rewrite <- Hst. symmetry. by apply (ds_frame _ _ Hd).
    + intros ->. exists stt. split; [done|]. rewrite Est. by apply arrival_valid.
  - unfold position. rewrite E1, E6. split; [|by left]. split; [cbn; by rewrite E6|].
    cbn. rewrite active_ids_sorted by apply (ds_core _ _ Hd). done.
Qed.

Lemma token_at plan s o t a a' : evaluation plan s o t a a' -> instance_ok plan s -> active_ids (s_Nodes s) = [no_NodeID o].
Proof using.
  intros [Ha Hd Hdd <- Hn <- Hnext Hact -> Hpin Hopen Hc] [[Hwc Hwf] _ _ _ Htok]. rewrite Hopen in Htok. destruct Htok as (n & Hn').
  rewrite Hwf in Hn'. assert (no_NodeID (a_outcome a) ∈ active_ids (s_Nodes s)) as Hin.
  { apply (elem_of_active (a_plan a)); [done|]. exists (a_status a). split; [|done]. rewrite <- Hn.
    rewrite <- (st_status _ Ha), Hnext. done. }
  rewrite Hn' in *. apply list_elem_of_singleton in Hin. by rewrite Hin.
Qed.

Lemma advance_instance_ok plan s o t : instance_ok plan s -> Advance dg (Some plan) s o = Ok t -> instance_ok plan (t_Next t).
Proof using.
  intros Hio H. destruct (advance_next_valid _ _ _ _ H) as (Hwf & _ & Hp).
  destruct (advance_inv _ _ _ _ H) as (a & a' & Hev).
  destruct (dispatched_position _ _ _ _ _ _ Hev (token_at _ _ _ _ _ _ Hev Hio)) as (Hst & _).
  destruct Hev as [Ha Hd Hdd <- Hn <- Hnext Hact -> Hpin Hopen Hc]. destruct Hio as [_ _ Hj Hcov _].
  constructor; [done|done| | |].
  - apply (ds_joins _ _ Hd counter_ok); [intros c x; apply skip_ok|intros c; apply arrive_ok|by rewrite Hnext].
  - intros n Hin Ht. destruct (Hcov n Hin Ht) as (c & Hc' & Hb). destruct (ds_keeps _ _ Hd (cn_ID n) c) as (c' & H1 & H2); [by rewrite Hnext|].
    exists c'. split; [done|congruence].
  - destruct (position a a'); destruct Hst as [E Hst]; rewrite E; [eauto|done].
Qed.

(** ** Runs *)

(** The states of an instance: seeded, then advanced. *)
Inductive reached (plan : CompiledWorkflow) : InstanceState -> Prop :=
  | reached_seed id decls s : unsigned decls -> Seed (Some plan) id decls = Ok s -> reached plan s
  | reached_step s o t : reached plan s -> Advance dg (Some plan) s o = Ok t -> reached plan (t_Next t).

Lemma reached_ok plan s : sound_plan plan -> reached plan s -> instance_ok plan s.
Proof using.
  intros Hp. induction 1 as [id decls s Hu Hs|s o t Hr IH Ha]; [|exact (advance_instance_ok plan s o t IH Ha)].
  exact (proj1 (seed_ok plan id decls s Hp Hu Hs)).
Qed.

(** C20: On a plan of released step types an advancement moves the token of
    the instance exactly as the outcome says: it waits at the node, retries it
    while an attempt is left and follows the failure route after that, ends at
    an END, and otherwise follows the first edge with the route key of the
    outcome, or with the default key of a DECISION that does not list it. *)
Theorem advance_refines_token (plan : CompiledWorkflow) (s : InstanceState) (o : NodeOutcome) (t : Transition)
    (Hp : sound_plan plan) (Hrel : released plan) (Hr : reached plan s) (H : Advance dg (Some plan) s o = Ok t) :
  exists n st pos, CompiledWorkflow_Node plan (no_NodeID o) = Some n /\ InstanceState_Node s (no_NodeID o) = Some st /\
    standing s (Some (no_NodeID o)) /\ token_step plan n (ns_Attempts st) o pos /\ standing (t_Next t) pos.
Proof using.
  pose proof (reached_ok _ _ Hp Hr) as Hio. destruct (advance_inv _ _ _ _ H) as (a & a' & Hev).
  pose proof (token_at _ _ _ _ _ _ Hev Hio) as Htok. destruct (dispatched_position _ _ _ _ _ _ Hev Htok) as [Hst _].
  exists (a_node a), (a_status a), (position a a'). destruct Hev as [Ha Hd Hdd <- Hn <- Hnext Hact -> Hpin Hopen Hc].
  rewrite <- Hn. split_and!; [apply Ha|rewrite <- (st_status _ Ha), Hnext; done| |apply dispatch_token; [done|by rewrite Hnext|done]|done].
  split; [done|]. rewrite Hn, <- Htok. apply Hio.
Qed.

(** A JOIN becomes ready only when its declared strategy is met by what
    has arrived, in any state whose counters are sound; seeding and advancing
    keep them sound. *)
Lemma join_ready_only_when_met (plan : CompiledWorkflow) (s : InstanceState) (o : NodeOutcome) (t : Transition)
    (Hj : all_joins counter_ok s) (H : Advance dg (Some plan) s o = Ok t) :
  all_joins counter_ok (t_Next t) /\
  (forall su, su ∈ t_Successors t -> su_Type su = StepJoin -> su_State su = NodeReady ->
     exists c, InstanceState_Join (t_Next t) (su_NodeID su) = Some c /\ jc_Activated c = true /\ strategy_met c).
Proof using.
  destruct (advance_inv _ _ _ _ H) as (a & a' & [Ha Hd Hdd <- Hn <- Hnext Hact -> Hpin Hopen Hc]).
  assert (Hj' : all_joins counter_ok (a_next a')).
  { apply (ds_joins _ _ Hd counter_ok); [intros c x; apply skip_ok|intros c; apply arrive_ok|by rewrite Hnext]. }
  split; [exact Hj'|]. rewrite (successors_sorted _ _ Hd). intros su Hin Ht Hr.
  destruct (ds_ready _ _ Hd su Hin Ht Hr) as (c & Hc' & Hact'). exists c. split_and!; [done|done|].
  apply Hj'; [|done]. by apply (Join_elem (a_plan a)) in Hc' as [? _]; [|apply Hd].
Qed.

(** ** Progress *)

(** What the compiler proves of a plan before publishing it: declared step
    types, every route target declared, every outcome routed, every END with
    its terminal. *)
Record routable (plan : CompiledWorkflow) : Prop := {
  rt_sound : sound_plan plan;
  rt_targets : forall e, e ∈ cw_Edges plan -> in_plan plan (e_To e);
  rt_types : forall n, n ∈ cw_Nodes plan -> StepType_Valid (cn_Type n) = true;
  rt_routes : forall n key, n ∈ cw_Nodes plan -> cn_Type n <> StepEnd -> expected n key ->
    exists target, mkEdge (cn_ID n) target key ∈ cw_Edges plan;
  rt_terminals : forall n, n ∈ cw_Nodes plan -> cn_Type n = StepEnd -> is_Some (cn_Terminal n)
}.

Lemma activate_inputs target key d f a a' : activate target key d f a = Ok a' -> same_inputs a a'.
Proof using.
  unfold activate. destruct (CompiledWorkflow_Node _ _); [|done]. destruct (String.eqb _ _).
  - unfold activateJoin. destruct (InstanceState_Join _ _); [|done]. destruct (negb (contains _ _)); [done|]. cbv zeta. intros <-%Ok_eq.
    by destruct (negb _).
  - destruct (activationFor _). by intros <-%Ok_eq.
Qed.

Lemma activate_total target key d f a : in_plan (a_plan a) target ->
  (forall n, CompiledWorkflow_Node (a_plan a) target = Some n -> cn_Type n = StepJoin ->
     exists c, InstanceState_Join (a_next a) target = Some c /\ cn_ID (a_node a) ∈ jc_Branches c) ->
  exists a', activate target key d f a = Ok a'.
Proof using.
  intros [n Hn] Hj. unfold activate. rewrite Hn. destruct (find_node_ID _ _ _ Hn) as [Hid _].
  destruct (String.eqb_spec (cn_Type n) StepJoin) as [Et|_].
  - destruct (Hj n Hn Et) as (c & Hc & Hb). unfold activateJoin. rewrite Hid, Hc. apply contains_elem in Hb. rewrite Hb. cbn [negb]. eauto.
  - destruct (activationFor _). eauto.
Qed.

Lemma skip_joins_plan es x a : a_plan (skip_joins es x a) = a_plan a.
Proof using.
  revert a. induction es as [|e es IH]; intros a; cbn; [done|]. rewrite IH. destruct (negb _); [done|].
  destruct (InstanceState_Join _ _); [|done]. by destruct (negb _).
Qed.

Lemma skip_candidates_total ids a : (forall id, id ∈ ids -> in_plan (a_plan a) id) -> exists a', skip_candidates ids a = Ok a'.
Proof using.
  revert a. induction ids as [|x ids IH]; intros a H; cbn [skip_candidates]; [eauto|].
  destruct (H x) as [n ->]; [left|]. apply IH. intros id Hid. unfold recordSkippedBranch. rewrite skip_joins_plan. cbn. apply H. by right.
Qed.

Lemma edge_loop_none es id key target : mkEdge id target key ∈ es -> exists target', edge_loop es id key = Some target'.
Proof using.
  induction es as [|e es IH]; intros H; [by apply elem_of_nil in H|]. cbn.
  apply elem_of_cons in H as [<-|H]; [cbn; rewrite !String.eqb_refl; eauto|]. destruct (_ && _); eauto.
Qed.

(** An open state accepts an outcome for the node it stands at. *)
Lemma newAdvance_ok plan s o n st : instance_ok plan s -> s_Completed s = false -> CompiledWorkflow_Node plan (no_NodeID o) = Some n ->
  InstanceState_Node s (no_NodeID o) = Some st -> NodeState_Active (ns_State st) = true -> no_Await o = AwaitNone ->
  newAdvance (Some plan) s o = Ok (mkAdvance plan n st o (set_s_Sequence (to_uint64 (s_Sequence s + 1)) s) zero_transition).
Proof using.
  intros [[Hc Hf] Hp _ _ _] Ho Hn Hst Ha Hw. unfold newAdvance. rewrite Hp, String.eqb_refl, Ho. cbn [negb fail_if mbind outcome_bind].
  rewrite (proj2 (validateState_ok plan s)) by (split; [done|]; by rewrite Hf). cbn [mbind outcome_bind].
  rewrite Hn, Hst, Ha, Hw. done.
Qed.

Lemma route_total plan s o n st t0 : routable plan -> instance_ok plan s -> CompiledWorkflow_Node plan (cn_ID n) = Some n ->
  cn_Type n <> StepEnd -> no_Outcome o <> "" -> expected n (no_Outcome o) ->
  exists a', route (mkAdvance plan n st o (set_s_Sequence (to_uint64 (s_Sequence s + 1)) s) t0) = Ok a'.
Proof using.
  intros Hr Hio Hn Hne Hk He. destruct (find_node_ID _ _ _ Hn) as [_ Hin]. unfold route. cbn [a_outcome a_node].
  destruct (String.eqb_spec (no_Outcome o) ""); [done|]. cbn [fail_if mbind outcome_bind].
  set (a := mkAdvance _ _ _ _ _ _). assert (Hd : declares a (no_Outcome o) = true) by (by apply declares_expected).
  unfold route_key. cbn [a_outcome a]. change (no_Outcome (a_outcome a)) with (no_Outcome o). rewrite Hd. cbn [mbind outcome_bind fst snd].
  destruct (rt_routes _ Hr n (no_Outcome o) Hin Hne He) as (tg & Htg). destruct (edge_loop_none _ _ _ _ Htg) as (target & Hedge).
  unfold edge. cbn [a_plan a_node a]. change (edge_loop _ _ _) with (edge_loop (cw_Edges plan) (cn_ID n) (no_Outcome o)). rewrite Hedge.
  apply edge_loop_some in Hedge. cbv zeta. match goal with |- context [activate _ _ _ _ ?b] => set (b1 := b) end.
  destruct (activate_total target (no_Outcome o) false false b1) as (a2 & E2).
  - exact (rt_targets _ Hr _ Hedge).
  - intros m Hm Ht. destruct (find_node_ID _ _ _ Hm) as [Hmid Hmin]. destruct (io_covers _ _ Hio m Hmin Ht) as (c & Hc & Hb).
    exists c. rewrite Hmid in *. split; [done|]. rewrite Hb. apply incomingBranches_spec. by exists (mkEdge (cn_ID n) target (no_Outcome o)).
  - rewrite E2. cbn [mbind outcome_bind]. unfold skipExcluded. cbv zeta. apply skip_candidates_total.
    assert (Hp2 : a_plan a2 = plan).
    { destruct (activate_inputs _ _ _ _ _ _ E2) as (-> & _). done. }
    cbn [on_next a_plan]. rewrite Hp2. intros id Hid. apply candidates_spec in Hid as [Hid|(_ & _ & _ & e & He' & _ & <- & _)]; [by apply elem_of_nil in Hid|].
    by apply (rt_targets _ Hr).
Qed.

Lemma end_total plan s o n st t0 : routable plan -> instance_ok plan s -> s_Frontier s = [cn_ID n] ->
  CompiledWorkflow_Node plan (cn_ID n) = Some n -> InstanceState_Node s (cn_ID n) = Some st -> cn_Type n = StepEnd ->
  rs_TerminalCode (no_Terminal o) = "" -> rs_RuntimeStatus (no_Terminal o) = "" -> rs_Asserted (no_Terminal o) = false ->
  exists a', end_ (mkAdvance plan n st o (set_s_Sequence (to_uint64 (s_Sequence s + 1)) s) t0) = Ok a' /\ s_Completed (a_next a') = true.
Proof using.
  intros Hr Hio Hf Hn Hst Ht H1 H2 H3. destruct (find_node_ID _ _ _ Hn) as [_ Hin]. destruct (rt_terminals _ Hr n Hin Ht) as [tm Htm].
  destruct Hio as [[Hc Hfe] _ _ _ _]. unfold end_. cbn [a_node]. rewrite Htm. cbv zeta. unfold checkAssertedTerminal. cbn [a_outcome].
  rewrite H1, H2, H3. cbn [String.eqb negb andb fail_if mbind outcome_bind].
  match goal with |- context [length ?l] => assert (E : l = []) end.
  { cbn. set (st' := mkStatus _ _ _ _ _). assert (Hid : ns_NodeID st' = cn_ID n) by (by apply (Node_elem plan) in Hst as [_ ?]).
    assert (Hc' : core plan (setNode st' s)) by (apply core_setNode; [done|rewrite Hid; by exists n|done]).
    transitivity (active_ids (s_Nodes (setNode st' s))); [apply active_ids_sorted, Hc'|].
    destruct (active_ids (s_Nodes (setNode st' s))) as [|x l] eqn:Ea; [done|exfalso].
    assert (x ∈ active_ids (s_Nodes (setNode st' s))) as Hx by (rewrite Ea; left).
    apply (elem_of_active plan) in Hx as (sx & Hx & Hact); [|done]. rewrite (Node_setNode plan), Hid in Hx by done.
    destruct (decide (cn_ID n = x)) as [<-|Hne]; [by injection Hx as <-|].
    assert (x ∈ active_ids (s_Nodes s)) as Hx' by (apply (elem_of_active plan); eauto).
    rewrite <- Hfe, Hf in Hx'. apply list_elem_of_singleton in Hx'. congruence. }
  rewrite E. cbn [length Nat.eqb negb fail_if mbind outcome_bind]. eauto.
Qed.

(** An outcome that completes the node, asserting nothing about a terminal. *)
Definition completing (n : CompiledNode) (o : NodeOutcome) : Prop :=
  no_NodeID o = cn_ID n /\ no_Await o = AwaitNone /\ no_Failed o = false /\
  (rs_TerminalCode (no_Terminal o) = "" /\ rs_RuntimeStatus (no_Terminal o) = "" /\ rs_Asserted (no_Terminal o) = false).

(** What an evaluation of an outcome for the node starts from. *)
Definition begun (plan : CompiledWorkflow) (s : InstanceState) (n : CompiledNode) (st : NodeStatus) (o : NodeOutcome) (t0 : Transition) : advance :=
  mkAdvance plan n st o (set_s_Sequence (to_uint64 (s_Sequence s + 1)) s) t0.

Lemma Advance_dispatch plan s o n st : instance_ok plan s -> s_Completed s = false -> CompiledWorkflow_Node plan (cn_ID n) = Some n ->
  InstanceState_Node s (cn_ID n) = Some st -> NodeState_Active (ns_State st) = true -> no_NodeID o = cn_ID n -> no_Await o = AwaitNone ->
  exists t0, Advance dg (Some plan) s o = (a ← dispatch (begun plan s n st o t0); Ok (finish dg a)).
Proof using.
  intros Hio Ho Hn Hst Ha C1 C2. unfold Advance. rewrite (newAdvance_ok plan s o n st); [|done|done|by rewrite C1|by rewrite C1|done|done].
  cbn [mbind outcome_bind]. unfold run. eexists. reflexivity.
Qed.

Lemma Advance_run plan s o n st : instance_ok plan s -> s_Completed s = false -> CompiledWorkflow_Node plan (cn_ID n) = Some n ->
  InstanceState_Node s (cn_ID n) = Some st -> NodeState_Active (ns_State st) = true -> completing n o ->
  exists t0, Advance dg (Some plan) s o =
    (a ← (if String.eqb (cn_Type n) StepEnd then end_ (begun plan s n st o t0) else route (begun plan s n st o t0)); Ok (finish dg a)).
Proof using.
  intros Hio Ho Hn Hst Ha (C1 & C2 & C3 & _). destruct (Advance_dispatch plan s o n st Hio Ho Hn Hst Ha C1 C2) as (t0 & ->).
  exists t0. unfold dispatch, begun. cbn [a_outcome a_node]. by rewrite C2, C3.
Qed.

(** An outcome that reports a failed attempt at the node. *)
Definition failed_attempt (n : CompiledNode) (o : NodeOutcome) : Prop :=
  no_NodeID o = cn_ID n /\ no_Await o = AwaitNone /\ no_Failed o = true.

(** A failed attempt is retried, or follows the failure route, or is refused
    when the node has none. *)
Lemma Advance_failed plan s o n st : instance_ok plan s -> s_Completed s = false -> CompiledWorkflow_Node plan (cn_ID n) = Some n ->
  InstanceState_Node s (cn_ID n) = Some st -> NodeState_Active (ns_State st) = true -> failed_attempt n o ->
  (retry_left n (ns_Attempts st) o -> exists t, Advance dg (Some plan) s o = Ok t) /\
  (~ retry_left n (ns_Attempts st) o -> cn_FailureRoute n = "" -> Advance dg (Some plan) s o = Err (mkError CodeNoFailureRoute (cn_ID n))) /\
  (~ retry_left n (ns_Attempts st) o -> cn_FailureRoute n <> "" ->
   (exists m, CompiledWorkflow_Node plan (cn_FailureRoute n) = Some m /\ cn_Type m <> StepJoin) -> exists t, Advance dg (Some plan) s o = Ok t).
Proof using.
  intros Hio Ho Hn Hst Ha (C1 & C2 & C3). destruct (Advance_dispatch plan s o n st Hio Ho Hn Hst Ha C1 C2) as (t0 & ->).
  pose proof (retry_left_true (begun plan s n st o t0)) as Hr. cbn [begun a_status a_node a_outcome] in Hr.
  unfold dispatch. cbn [begun a_outcome a_node]. rewrite C2, C3. cbn [String.eqb negb]. unfold fail. cbv zeta. cbn [begun a_status a_node a_outcome].
  split_and!.
  - intros ->%Hr. cbn [mbind outcome_bind]. eauto.
  - intros Hno Hf. destruct (_ && _); [destruct Hno; by apply Hr|]. by rewrite Hf.
  - intros Hno Hf (m & Hm & Hj). destruct (_ && _); [destruct Hno; by apply Hr|]. destruct (String.eqb_spec (cn_FailureRoute n) ""); [done|].
    match goal with |- context [activate ?x _ _ _ ?b] => destruct (activate_total x "" false true b) as (a' & ->) end; cbn [mbind outcome_bind]; eauto.
    + by exists m.
    + intros k Hk Ht. change (CompiledWorkflow_Node plan (cn_FailureRoute n) = Some k) in Hk. congruence.
Qed.

Lemma standing_node plan s : instance_ok plan s -> s_Completed s = false ->
  exists n st, CompiledWorkflow_Node plan (cn_ID n) = Some n /\ s_Frontier s = [cn_ID n] /\
    InstanceState_Node s (cn_ID n) = Some st /\ NodeState_Active (ns_State st) = true.
Proof using.
  intros [[Hc Hf] _ _ _ Ht] Ho. rewrite Ho in Ht. destruct Ht as (id & Hid).
  assert (id ∈ active_ids (s_Nodes s)) as Hin by (rewrite <- Hf, Hid; left).
  apply (elem_of_active plan) in Hin as (st & Hst & Ha); [|done]. pose proof Hst as Hst'.
  apply (Node_elem plan) in Hst' as [Hel <-]; [|done]. destruct (core_states _ _ Hc st Hel) as [[n Hn] _].
  destruct (find_node_ID _ _ _ Hn) as [Hnid _]. exists n, st. rewrite Hnid. done.
Qed.

(** An open instance of a routable plan accepts every plain completion of the
    node it stands at: at an END it ends, and at any other node every outcome of
    the step type or the decision is routed. *)
Lemma advance_progress (plan : CompiledWorkflow) (s : InstanceState) (Hp : routable plan) (Hr : reached plan s)
    (Hopen : s_Completed s = false) :
  exists n st, CompiledWorkflow_Node plan (cn_ID n) = Some n /\ s_Frontier s = [cn_ID n] /\
  InstanceState_Node s (cn_ID n) = Some st /\ NodeState_Active (ns_State st) = true /\
  (cn_Type n = StepEnd -> forall o, completing n o ->
     exists t, Advance dg (Some plan) s o = Ok t /\ s_Completed (t_Next t) = true) /\
  (cn_Type n <> StepEnd -> (exists key, expected n key) /\
     forall o, completing n o -> no_Outcome o <> "" -> expected n (no_Outcome o) ->
     exists t, Advance dg (Some plan) s o = Ok t).
Proof using.
  pose proof (reached_ok _ _ (rt_sound _ Hp) Hr) as Hio. destruct (standing_node _ _ Hio Hopen) as (n & st & Hn & Hf & Hst & Ha).
  destruct (find_node_ID _ _ _ Hn) as [_ Hin]. exists n, st. split_and!; [done..| |].
  - intros Ht o Ho. destruct (Advance_run plan s o n st Hio Hopen Hn Hst Ha Ho) as (t0 & ->).
    rewrite Ht, String.eqb_refl. destruct Ho as (_ & _ & _ & H1 & H2 & H3).
    destruct (end_total plan s o n st t0 Hp Hio Hf Hn Hst Ht H1 H2 H3) as (a' & E & Hcomp). unfold begun. rewrite E. cbn [mbind outcome_bind]. eauto.
  - intros Ht. split.
    + pose proof (rt_types _ Hp n Hin) as Hv. apply bool_decide_eq_true in Hv as [conf Hconf].
      pose proof (conformance_outcomes _ _ Hconf Ht) as Hne.
      destruct (cf_Outcomes conf) as [|k ks] eqn:Ek; [done|]. exists k. left. exists conf. rewrite Ek. split; [done|left].
    + intros o Ho Hk He. destruct (Advance_run plan s o n st Hio Hopen Hn Hst Ha Ho) as (t0 & ->).
      destruct (String.eqb_spec (cn_Type n) StepEnd); [done|].
      destruct (route_total plan s o n st t0 Hp Hio Hn Ht Hk He) as (a' & E). unfold begun. rewrite E. cbn [mbind outcome_bind]. eauto.
Qed.

(** ** Termination *)

(** A run: the transitions of successive advancements. *)
Inductive runs (plan : CompiledWorkflow) : InstanceState -> list Transition -> InstanceState -> Prop :=
  | runs_nil s : runs plan s [] s
  | runs_cons s o t ts s' : Advance dg (Some plan) s o = Ok t -> runs plan (t_Next t) ts s' -> runs plan s (t :: ts) s'.

(** Routes go down in [rank]: the plan has no cycle, failure routes included. *)
Definition ranked (plan : CompiledWorkflow) (rank : string -> nat) : Prop :=
  forall n key target, n ∈ cw_Nodes plan -> routed plan n key target -> (rank target < rank (cn_ID n))%nat.

Definition remaining (rank : string -> nat) (pos : option string) : nat := from_option (fun id => S (rank id)) 0%nat pos.

Lemma standing_unique s p q : standing s p -> standing s q -> p = q.
Proof using. destruct p, q; cbn; intros [H1 H2] [H3 H4]; congruence. Qed.

Lemma settled_decreases plan rank s o t pos : ranked plan rank -> instance_ok plan s -> standing s pos ->
  Advance dg (Some plan) s o = Ok t -> settled t ->
  exists pos', standing (t_Next t) pos' /\ (S (remaining rank pos') <= remaining rank pos)%nat.
Proof using.
  intros Hrank Hio Hpos H Hset. destruct (advance_inv _ _ _ _ H) as (a & a' & Hev).
  pose proof (token_at _ _ _ _ _ _ Hev Hio) as Htok.
  destruct (dispatched_position _ _ _ _ _ _ Hev Htok) as (Hst & Hmove). exists (position a a'). split; [done|].
  destruct Hev as [Ha Hd Hdd <- Hn <- Hnext Hact -> Hpin Hopen Hc].
  assert (pos = Some (cn_ID (a_node a))) as ->.
  { eapply standing_unique; [done|]. split; [done|]. rewrite Hn, <- Htok. apply Hio. }
  destruct (find_node_ID _ _ _ (st_node _ Ha)) as [_ Hin].
  destruct (Hmove Hset) as [->|(key & target & Hrt & ->)]; cbn; [lia|].
  specialize (Hrank (a_node a) key target Hin Hrt). lia.
Qed.

(** On a plan without cycles every run ends: from its start an instance
    settles at most one node per level of the plan, so at most [rank] of the
    start node plus one advancements complete a node. *)
Lemma runs_terminate (plan : CompiledWorkflow) (rank : string -> nat) (id : string) (decls : list JoinDeclaration)
    (s0 s : InstanceState) (ts : list Transition)
    (Hp : sound_plan plan) (Hrank : ranked plan rank) (Hu : unsigned decls)
    (Hseed : Seed (Some plan) id decls = Ok s0) (Hruns : runs plan s0 ts s) (Hset : Forall settled ts) :
  (length ts <= S (rank (cw_StartNodeID plan)))%nat.
Proof using.
  destruct (seed_ok plan id decls s0 Hp Hu Hseed) as (Hio & Ho & Hf & _).
  assert (Hgen : forall s ts s', runs plan s ts s' -> Forall settled ts -> instance_ok plan s ->
    forall pos, standing s pos -> (length ts <= remaining rank pos)%nat).
  { clear -Hrank. intros s ts s' Hruns. induction Hruns as [s|s o t ts s' Hadv Hruns IH]; intros Hset Hio pos Hpos; [cbn; lia|].
    apply Forall_cons in Hset as [Ht Hset]. destruct (settled_decreases plan rank s o t pos Hrank Hio Hpos Hadv Ht) as (pos' & Hst & Hlt).
    specialize (IH Hset (advance_instance_ok _ _ _ _ Hio Hadv) pos' Hst). cbn [length]. lia. }
  exact (Hgen s0 ts s Hruns Hset Hio (Some (cw_StartNodeID plan)) (conj Ho Hf)).
Qed.

End advancement.
