(* ===== verification/FrontierExamples.v ===== *)
(** Concrete plans and instances: the hypotheses of the theorems on advancement
    hold of an approval workflow, and the cases in which advancement does not
    do what its documentation says. *)

From stdpp Require Import sorting relations.
From S2P Require Import Prelude Sorting Graphs LifecycleRules WorkflowPlan Frontier FrontierFacts FrontierRuns.

Local Open Scope Z_scope.

Definition no_digest (t : Transition) : string := "".
Definition no_assertion : TerminalResult :=
  mkResult "" "" (mkDimensions RequestUnspecified ExecutionUnspecified BusinessUnspecified ConsistencyUnspecified ObligationUnspecified) false.

Definition succeed (id key : string) : NodeOutcome := mkOutcome id key "" AwaitNone "" false "" false no_assertion.
Definition failing (id : string) : NodeOutcome := mkOutcome id "" "" AwaitNone "" true "boom" false no_assertion.

Definition step_node (id : string) (type : StepType) : CompiledNode := mkNode id type None None None "".
Definition end_node (id : string) : CompiledNode :=
  mkNode id StepEnd None (Some (mkTerminal id "DONE" RuntimeCompleted
    (mkDimensions RequestClosed ExecutionCommitted BusinessCompleted ConsistencyConsistent ObligationSatisfied) [] [] [])) None "".

(** ** An approval workflow *)

Definition approval_plan : CompiledWorkflow :=
  mkPlan "leave" 1 "check"
    [step_node "approve" StepApproval;
     mkNode "check" StepDecision (Some (mkDecision [mkRoute "ask" "p" 0; mkRoute "refuse" "q" 0] "refuse")) None None "";
     end_node "done"; end_node "refused"]
    [mkEdge "approve" "done" "APPROVED"; mkEdge "approve" "refused" "CANCELLED"; mkEdge "approve" "refused" "EXPIRED";
     mkEdge "approve" "refused" "INVALIDATED"; mkEdge "approve" "refused" "REJECTED";
     mkEdge "check" "refused" "UNKNOWN"; mkEdge "check" "approve" "ask"; mkEdge "check" "refused" "refuse"]
    "digest-1".

Definition transition (plan : CompiledWorkflow) (s : InstanceState) (o : NodeOutcome) : Transition :=
  match Advance no_digest (Some plan) s o with Ok t => t | _ => zero_transition end.
Definition after (plan : CompiledWorkflow) (s : InstanceState) (o : NodeOutcome) : InstanceState := t_Next (transition plan s o).
Definition seeded_state (plan : CompiledWorkflow) (decls : list JoinDeclaration) : InstanceState :=
  match Seed (Some plan) "instance" decls with Ok s => s | _ => t_Next zero_transition end.

Definition approval_start : InstanceState := seeded_state approval_plan [].
Definition approval_asked : InstanceState := after approval_plan approval_start (succeed "check" "ask").

Lemma approval_sound : sound_plan approval_plan.
Proof. constructor; [|vm_compute; reflexivity]. apply (bool_decide_unpack _). vm_compute. exact I. Qed.

Lemma approval_seeded : Seed (Some approval_plan) "instance" [] = Ok approval_start.
Proof. vm_compute. reflexivity. Qed.

Lemma approval_asked_from_start :
  Advance no_digest (Some approval_plan) approval_start (succeed "check" "ask") = Ok (transition approval_plan approval_start (succeed "check" "ask")).
Proof. vm_compute. reflexivity. Qed.

Lemma approval_reached : reached no_digest approval_plan approval_asked.
Proof.
  apply (reached_step no_digest approval_plan approval_start (succeed "check" "ask") (transition approval_plan approval_start (succeed "check" "ask"))).
  - apply (reached_seed no_digest approval_plan "instance" []); [by intros d Hd%elem_of_nil|apply approval_seeded].
  - apply approval_asked_from_start.
Qed.

Lemma advance_preserves_state_witness :
  well_formed approval_plan (t_Next (transition approval_plan approval_start (succeed "check" "ask"))).
Proof. exact (proj1 (advance_preserves_state no_digest approval_plan _ _ _ approval_asked_from_start)). Defined.

Lemma advance_changes_exact_witness :
  InstanceState_Node approval_start "refused" = InstanceState_Node (t_Next (transition approval_plan approval_start (succeed "check" "ask"))) "refused".
Proof.
  symmetry. refine (proj1 (advance_changes_exact no_digest approval_plan _ _ _ approval_asked_from_start) "refused" _ _ _);
    [discriminate|apply (bool_decide_unpack _); vm_compute; exact I|apply (bool_decide_unpack _); vm_compute; exact I].
Defined.

Lemma duplicate_delivery_refused_witness :
  Advance no_digest (Some approval_plan) approval_asked (succeed "check" "refuse") = Err (mkError CodeNodeNotActive "check").
Proof.
  refine (duplicate_delivery_refused no_digest approval_plan _ _ (succeed "check" "refuse") _ approval_asked_from_start _ _ _);
    [reflexivity|left|apply (bool_decide_unpack _); vm_compute; exact I].
Defined.

Lemma approval_released : released approval_plan.
Proof. intros n Hn. repeat (apply elem_of_cons in Hn as [->|Hn]; [reflexivity|]). by apply elem_of_nil in Hn. Qed.

Lemma advance_refines_token_witness :
  exists n st pos, CompiledWorkflow_Node approval_plan "approve" = Some n /\ InstanceState_Node approval_asked "approve" = Some st /\
    standing approval_asked (Some "approve") /\ token_step approval_plan n (ns_Attempts st) (succeed "approve" "APPROVED") pos /\
    standing (after approval_plan approval_asked (succeed "approve" "APPROVED")) pos.
Proof.
  refine (advance_refines_token no_digest approval_plan approval_asked (succeed "approve" "APPROVED")
    (transition approval_plan approval_asked (succeed "approve" "APPROVED")) approval_sound approval_released approval_reached _).
  vm_compute. reflexivity.
Defined.

(** ** Joins *)

(** Two branches into one JOIN. *)
Definition join_plan : CompiledWorkflow :=
  mkPlan "join" 1 "fork"
    [mkNode "a" StepTransform None None None "meet"; step_node "b" StepTransform; end_node "done"; step_node "fork" StepParallel;
     step_node "meet" StepJoin]
    [mkEdge "a" "meet" "SUCCEEDED"; mkEdge "b" "meet" "SUCCEEDED"; mkEdge "fork" "a" "SUCCEEDED"; mkEdge "fork" "b" "SUCCEEDED";
     mkEdge "meet" "done" "SUCCEEDED"]
    "digest-2".

(** The state a runtime that opened both branches would hold. *)
Definition both_ready (plan : CompiledWorkflow) (decls : list JoinDeclaration) (open : list string) : InstanceState :=
  recomputeFrontier (set_s_Nodes ((fun id => mkStatus id NodeReady 0 "" "") <$> open) (seeded_state plan decls)).

Definition state_of (s : InstanceState) (id : string) : NodeState := from_option ns_State "" (InstanceState_Node s id).
Definition counter_of (s : InstanceState) (id : string) : JoinCounter :=
  default (mkCounter "" "" 0 [] [] [] [] [] false false) (InstanceState_Join s id).

Definition all_join (strategy : JoinStrategy) : list JoinDeclaration := [mkDeclaration "meet" strategy 1 []].
Definition any_state : InstanceState := both_ready join_plan (all_join JoinAny) ["a"; "b"].

(** ** Divergences *)

(** The ANY join has run; the second branch arrives. *)
Definition any_ran : InstanceState := after join_plan (after join_plan any_state (succeed "a" "SUCCEEDED")) (succeed "meet" "SUCCEEDED").
Definition late_arrival : Transition := transition join_plan any_ran (succeed "b" "SUCCEEDED").

(** The ALL join waits for the second branch. *)
Definition all_waiting : InstanceState := after join_plan (both_ready join_plan (all_join JoinAll) ["a"; "b"]) (succeed "a" "SUCCEEDED").

(** Both branches of a decision lead to a join; one branch has a failure route
    to the other. *)
Definition detour_plan : CompiledWorkflow :=
  mkPlan "detour" 1 "choose"
    [mkNode "a" StepTransform None None None "b"; step_node "b" StepTransform; step_node "c" StepTransform;
     mkNode "choose" StepDecision (Some (mkDecision [mkRoute "left" "p" 0; mkRoute "right" "q" 0] "")) None None "";
     end_node "done"; step_node "meet" StepJoin]
    [mkEdge "a" "done" "SUCCEEDED"; mkEdge "b" "meet" "SUCCEEDED"; mkEdge "c" "meet" "SUCCEEDED";
     mkEdge "choose" "a" "left"; mkEdge "choose" "b" "right"; mkEdge "meet" "done" "SUCCEEDED"]
    "digest-3".
Definition detour_chosen : InstanceState := after detour_plan (seeded_state detour_plan (all_join JoinBestEffort)) (succeed "choose" "left").
Definition detour_taken : InstanceState := after detour_plan (after detour_plan detour_chosen (failing "a")) (succeed "b" "SUCCEEDED").

(** The best-effort join waits for its second branch, which is then skipped. *)
Definition excluded : InstanceState :=
  after detour_plan (after detour_plan (both_ready detour_plan (all_join JoinBestEffort) ["c"; "choose"]) (succeed "c" "SUCCEEDED")) (succeed "choose" "left").

(** Where advancement departs from its documentation: a JOIN that already
    ran becomes ready again when another branch arrives; a JOIN still waiting
    for a branch can be completed; a branch that failed counts as satisfied; a
    node a failure route still reaches is skipped and then counted twice, so a
    BEST_EFFORT join activates without one of its branches; such a join
    activated by a skip stays waiting without any intent; a PARALLEL opens one
    branch only; and a frontier is compared after joining with commas. *)
Theorem frontier_divergences :
  (state_of any_ran "meet" = NodeSucceeded /\ state_of (t_Next late_arrival) "meet" = NodeReady /\
   in_NodeID <$> t_Intents late_arrival = ["meet"]) /\
  (jc_Activated (counter_of all_waiting "meet") = false /\
   is_ok (Advance no_digest (Some join_plan) all_waiting (succeed "meet" "SUCCEEDED")) = true) /\
  (let s := after join_plan (both_ready join_plan (all_join JoinAny) ["a"; "b"]) (failing "a") in
   state_of s "a" = NodeFailed /\ jc_Satisfied (counter_of s "meet") = ["a"] /\ state_of s "meet" = NodeReady) /\
  (state_of detour_chosen "b" = NodeSkipped /\ state_of detour_taken "b" = NodeSucceeded /\
   jc_Arrived (counter_of detour_taken "meet") = ["b"] /\ jc_Skipped (counter_of detour_taken "meet") = ["b"] /\
   jc_Branches (counter_of detour_taken "meet") = ["b"; "c"] /\ jc_Activated (counter_of detour_taken "meet") = true) /\
  (jc_Activated (counter_of excluded "meet") = true /\ state_of excluded "meet" = NodeWaiting /\
   in_NodeID <$> t_Intents (transition detour_plan
     (after detour_plan (both_ready detour_plan (all_join JoinBestEffort) ["c"; "choose"]) (succeed "c" "SUCCEEDED")) (succeed "choose" "left")) = ["a"]) /\
  (let s := after join_plan (seeded_state join_plan []) (succeed "fork" "SUCCEEDED") in
   s_Frontier s = ["a"] /\ InstanceState_Node s "b" = None) /\
  validateState join_plan (set_s_Frontier ["a,b"] any_state) = Ok tt.
Proof. vm_compute. repeat split. Qed.
