(* ===== verification/WorkflowGraph.v ===== *)
(** The graph analysis of the workflow compiler: [internal/workflow/graph.go],
    with the parts of a definition it reads ([definition.go]) and the
    diagnostics it collects ([errors.go]).  A pass that reports into the
    collector returns the diagnostics it adds, in order; their detail text is
    not modelled.  Go maps over node ids are finite maps. *)

From stdpp Require Import sorting relations.
From S2P Require Import Prelude Sorting Graphs LifecycleRules WorkflowPlan.

Local Open Scope Z_scope.

(** * Diagnostics *)

Record Location : Type := mkLocation {
  lo_NodeID : string;
  lo_EdgeFrom : string;
  lo_EdgeTo : string;
  lo_RouteKey : string;
  lo_Field : string;
  lo_Ref : string
}.
Definition at_node (id : string) : Location := mkLocation id "" "" "" "" "".
Definition at_field (id field : string) : Location := mkLocation id "" "" "" field "".
Definition at_ref (ref : string) : Location := mkLocation "" "" "" "" "" ref.
Definition at_node_ref (id ref : string) : Location := mkLocation id "" "" "" "" ref.
Definition at_route (id key : string) : Location := mkLocation id "" "" key "" "".
Definition at_edge (id : string) (e : Edge) : Location := mkLocation id (e_From e) (e_To e) (e_RouteKey e) "" "".

Record Diagnostic : Type := mkDiagnostic { dg_Code : string; dg_Location : Location }.

Definition CodeUnresolvedRef : string := "UNRESOLVED_REF".
Definition CodeUnreachableNode : string := "UNREACHABLE_NODE".
Definition CodeImplicitFirstEdge : string := "IMPLICIT_FIRST_EDGE".
Definition CodeMissingRoute : string := "MISSING_ROUTE".
Definition CodeDuplicateRoute : string := "DUPLICATE_ROUTE".
Definition CodeUnknownRoute : string := "UNKNOWN_ROUTE".
Definition CodeInvalidTerminalPath : string := "INVALID_TERMINAL_PATH".
Definition CodeUndeclaredCycle : string := "UNDECLARED_CYCLE".
Definition CodeUnboundedFanout : string := "UNBOUNDED_FANOUT".

Definition report_if (b : bool) (code : string) (loc : Location) : list Diagnostic :=
  if b then [mkDiagnostic code loc] else [].

(** * Definitions *)

Record EndSpec : Type := mkEnd {
  en_TerminalCode : string;
  en_RuntimeStatus : RuntimeStatus;
  en_CompletionMapping : gmap string string;
  en_OutstandingObligationRefs : list string;
  en_RepairRefs : list string;
  en_IncidentRefs : list string;
  en_CommitReceiptRef : string;
  en_ApprovalRequired : bool;
  en_ApprovedMaterialDigest : string;
  en_ClosurePolicyPermitsOpenRepair : bool
}.

(** The fields of a node the graph and terminal passes read. *)
Record Node : Type := mkNodeDef {
  nd_ID : string;
  nd_Type : StepType;
  nd_Decision : option CompiledDecision;
  nd_ObserveExhaustion : option string;
  nd_End : option EndSpec;
  nd_Retry : option RetryPolicy;
  nd_FailureRoute : string
}.

Record CycleDeclaration : Type := mkCycle { cy_EntryNodeID : string; cy_GuardNodeID : string; cy_MaxIterations : Z }.
Record Limits : Type := mkLimits { li_MaxFanOut : Z; li_MaxDepth : Z; li_MaxNodes : Z; li_DeclaredCycles : list CycleDeclaration }.

Record WorkflowDefinition : Type := mkDefinition {
  df_WorkflowID : string;
  df_Version : Z;
  df_TerminalProfile : string;
  df_StartNodeID : string;
  df_Nodes : list Node;
  df_Edges : list Edge;
  df_Limits : Limits
}.

Definition nodeIndex (def : WorkflowDefinition) : gmap string Node :=
  foldl (fun m n => <[nd_ID n := n]> m) ∅ (df_Nodes def).

(** * The graph *)

Definition degradedRoutes : list string :=
  [OutcomeUnknown; OutcomeAmbiguous; OutcomePartial; OutcomeFail; OutcomeFailed; OutcomeRejected].

Record graph : Type := mkGraph {
  gr_nodes : gmap string Node;
  gr_out : gmap string (list Edge);
  gr_in : gmap string (list Edge);
  gr_degradedEntry : gset string;
  gr_sound : bool
}.

Definition append_at (k : string) (e : Edge) (m : gmap string (list Edge)) : gmap string (list Edge) :=
  <[k := default [] (m !! k) ++ [e]]> m.

(** One edge of the first loop of [analyzeGraph]. *)
Definition add_edge (g : graph) (e : Edge) : graph * list Diagnostic :=
  match gr_nodes g !! e_From e, gr_nodes g !! e_To e with
  | None, _ | _, None =>
      (mkGraph (gr_nodes g) (gr_out g) (gr_in g) (gr_degradedEntry g) false,
       [mkDiagnostic CodeUnresolvedRef (at_edge (e_From e) e)])
  | Some _, Some _ =>
      (mkGraph (gr_nodes g) (append_at (e_From e) e (gr_out g)) (append_at (e_To e) e (gr_in g))
         (if bool_decide (e_RouteKey e ∈ degradedRoutes) then {[e_To e]} ∪ gr_degradedEntry g else gr_degradedEntry g)
         (gr_sound g), [])
  end.
Fixpoint add_edges (g : graph) (es : list Edge) : graph * list Diagnostic :=
  match es with
  | [] => (g, [])
  | e :: es' =>
      let '(g, d) := add_edge g e in
      let '(g, ds) := add_edges g es' in (g, d ++ ds)
  end.

Definition edges_from (g : graph) (id : string) : list Edge := default [] (gr_out g !! id).
Definition edges_to (g : graph) (id : string) : list Edge := default [] (gr_in g !! id).
Definition successors (g : graph) (id : string) : list string := e_To <$> edges_from g id.
Definition predecessors (g : graph) (id : string) : list string := e_From <$> edges_to g id.

Definition sortedNodeIDs (g : graph) : list string := sort_Strings (fst <$> map_to_list (gr_nodes g)).

(** ** Routes *)

Fixpoint add_routes (seen out : list string) (keys : list string) : list string * list string :=
  match keys with
  | [] => (seen, out)
  | k :: keys' =>
      if String.eqb k "" || bool_decide (k ∈ seen) then add_routes seen out keys'
      else add_routes (k :: seen) (out ++ [k]) keys'
  end.
Definition expectedRoutes (n : Node) : list string :=
  match ConformanceFor (nd_Type n) with
  | None => []
  | Some conf =>
      let '(seen, out) := add_routes [] [] (cf_Outcomes conf) in
      let '(_, out) := match nd_Decision n with
                       | Some d => if cf_AuthorRoutes conf then add_routes seen out (dr_Key <$> cd_Routes d) else (seen, out)
                       | None => (seen, out)
                       end in
      sort_Strings out
  end.

(** The edges of one node against its expected routes: [got] are the routes
    seen so far. *)
Fixpoint check_edges (id : string) (conf : Conformance) (want : list string) (got : gset string) (es : list Edge)
    : gset string * list Diagnostic :=
  match es with
  | [] => (got, [])
  | e :: es' =>
      if String.eqb (e_RouteKey e) "" then
        let '(g, ds) := check_edges id conf want got es' in (g, mkDiagnostic CodeImplicitFirstEdge (at_edge id e) :: ds)
      else if bool_decide (e_RouteKey e ∈ got) && negb (String.eqb (e_RouteKey e) (cf_FanOutRoute conf)) then
        let '(g, ds) := check_edges id conf want got es' in (g, mkDiagnostic CodeDuplicateRoute (at_edge id e) :: ds)
      else
        let '(g, ds) := check_edges id conf want ({[e_RouteKey e]} ∪ got) es' in
        (g, report_if (negb (bool_decide (e_RouteKey e ∈ want))) CodeUnknownRoute (at_edge id e) ++ ds)
  end.

Definition check_node_routes (g : graph) (id : string) (n : Node) : list Diagnostic :=
  match ConformanceFor (nd_Type n) with
  | None => []
  | Some conf =>
      let edges := edges_from g id in
      if cf_Terminal conf then (fun e => mkDiagnostic CodeInvalidTerminalPath (at_edge id e)) <$> edges
      else
        let want := expectedRoutes n in
        let '(got, ds) := check_edges id conf want ∅ edges in
        ds ++ (key ← want; report_if (negb (bool_decide (key ∈ got))) CodeMissingRoute (at_route id key))
        ++ report_if (negb (String.eqb (nd_FailureRoute n) "") && bool_decide (gr_nodes g !! nd_FailureRoute n = None))
             CodeUnresolvedRef (at_node_ref id (nd_FailureRoute n))
        ++ match nd_ObserveExhaustion n with
           | Some r => report_if (negb (String.eqb r "") && bool_decide (gr_nodes g !! r = None)) CodeUnresolvedRef (at_node_ref id r)
           | None => []
           end
  end.
Definition checkRoutes (g : graph) : list Diagnostic :=
  id ← sortedNodeIDs g; from_option (check_node_routes g id) [] (gr_nodes g !! id).

(** ** Reachability and termination *)

Definition edge_count (g : graph) : nat := length (m ← map_to_list (gr_out g); m.2).

Definition computeReachability (g : graph) (start : string) : gset string :=
  dfs_pop (successors g) (1 + edge_count g) [start] ∅.

(** The nodes from which the reverse search starts, in map order. *)
Definition end_nodes (g : graph) : list string :=
  fst <$> filter (fun kn => nd_Type kn.2 = StepEnd) (map_to_list (gr_nodes g)).
Definition in_count (g : graph) : nat := length (m ← map_to_list (gr_in g); m.2).
Definition computeTermination (g : graph) : gset string :=
  dfs_pop (predecessors g) (length (end_nodes g) + in_count g) (rev (end_nodes g)) ∅.

(** ** Cycles *)

Inductive colour : Type := white | grey | black.
Definition colour_of (st : gmap string colour) (id : string) : colour := default white (st !! id).

(** The recursion enters a node once, so its depth is at most the number of
    nodes. *)
Fixpoint walk (fuel : nat) (g : graph) (id : string) (st : gmap string colour) (back : list Edge)
    : gmap string colour * list Edge :=
  match fuel with
  | O => (st, back)
  | S n =>
      let '(st, back) := foldl (fun acc e =>
        match colour_of acc.1 (e_To e) with
        | white => walk n g (e_To e) acc.1 acc.2
        | grey => (acc.1, acc.2 ++ [e])
        | black => acc
        end) (<[id := grey]> st, back) (edges_from g id) in
      (<[id := black]> st, back)
  end.

Definition edge_less (a b : Edge) : bool :=
  if negb (String.eqb (e_From a) (e_From b)) then String.ltb (e_From a) (e_From b) else String.ltb (e_To a) (e_To b).
Fixpoint insert_edge (x : Edge) (l : list Edge) : list Edge :=
  match l with
  | [] => [x]
  | y :: l' => if edge_less y x then y :: insert_edge x l' else x :: l
  end.
(** [sort.SliceStable]. *)
Definition sort_edges (l : list Edge) : list Edge := foldr insert_edge [] l.

Definition back_edges (g : graph) (reachable : gset string) (start : string) : list Edge :=
  if bool_decide (start ∈ reachable) then sort_edges (walk (size (gr_nodes g)) g start ∅ []).2 else [].

Definition declaredCycle (def : WorkflowDefinition) (entry : string) : option CycleDeclaration :=
  List.find (fun d => String.eqb (cy_EntryNodeID d) entry) (li_DeclaredCycles (df_Limits def)).

(** The inner loop of [reaches]: [None] when the target is met. *)
Fixpoint reach_edges (to : string) (ys stack : list string) (seen : gset string) : option (list string * gset string) :=
  match ys with
  | [] => Some (stack, seen)
  | y :: ys' =>
      if String.eqb y to then None
      else if bool_decide (y ∈ seen) then reach_edges to ys' stack seen
      else reach_edges to ys' (y :: stack) ({[y]} ∪ seen)
  end.
Fixpoint reach_loop (fuel : nat) (g : graph) (to : string) (stack : list string) (seen : gset string) : bool :=
  match fuel, stack with
  | S n, x :: rest =>
      match reach_edges to (successors g x) rest seen with
      | None => true
      | Some (stack', seen') => reach_loop n g to stack' seen'
      end
  | _, _ => false
  end.
Definition reaches (g : graph) (from to : string) : bool :=
  if String.eqb from to then true else reach_loop (1 + edge_count g) g to [from] {[from]}.

Definition check_cycle (g : graph) (def : WorkflowDefinition) (e : Edge) : list Diagnostic :=
  match declaredCycle def (e_To e) with
  | None => [mkDiagnostic CodeUndeclaredCycle (at_edge (e_From e) e)]
  | Some decl =>
      report_if (cy_MaxIterations decl =? 0) CodeUndeclaredCycle (at_edge (e_From e) e)
      ++ match gr_nodes g !! cy_GuardNodeID decl with
         | None => [mkDiagnostic CodeUndeclaredCycle (at_edge (e_From e) e)]
         | Some guard =>
             if negb (String.eqb (nd_Type guard) StepDecision) then [mkDiagnostic CodeUndeclaredCycle (at_node (cy_GuardNodeID decl))]
             else report_if (negb (reaches g (e_To e) (cy_GuardNodeID decl)) || negb (reaches g (cy_GuardNodeID decl) (e_From e)))
                    CodeUndeclaredCycle (at_edge (e_From e) e)
         end
  end.
Definition checkCycles (g : graph) (def : WorkflowDefinition) (back : list Edge) : list Diagnostic := e ← back; check_cycle g def e.

(** ** Dominators *)

Definition sameSet (a b : gset string) : bool := Nat.eqb (size a) (size b) && bool_decide (set_Forall (fun k => k ∈ b) a).

(** The dominators common to the reachable predecessors. *)
Fixpoint meet (reachable : gset string) (doms : gmap string (gset string)) (es : list Edge) (next : option (gset string)) : option (gset string) :=
  match es with
  | [] => next
  | e :: es' =>
      if negb (bool_decide (e_From e ∈ reachable)) then meet reachable doms es' next
      else
        let pred := default ∅ (doms !! e_From e) in
        meet reachable doms es' (Some (match next with None => pred | Some s => s ∩ pred end))
  end.
Definition transfer (g : graph) (reachable : gset string) (doms : gmap string (gset string)) (id : string) : gset string :=
  {[id]} ∪ default ∅ (meet reachable doms (edges_to g id) None).

Fixpoint dominator_pass (g : graph) (reachable : gset string) (start : string) (ids : list string) (doms : gmap string (gset string))
    (changed : bool) : gmap string (gset string) * bool :=
  match ids with
  | [] => (doms, changed)
  | id :: ids' =>
      if String.eqb id start then dominator_pass g reachable start ids' doms changed
      else
        let next := transfer g reachable doms id in
        if negb (sameSet next (default ∅ (doms !! id))) then dominator_pass g reachable start ids' (<[id := next]> doms) true
        else dominator_pass g reachable start ids' doms changed
  end.

(** Every pass but the last removes an element of some set. *)
Fixpoint dominator_loop (fuel : nat) (g : graph) (reachable : gset string) (start : string) (ids : list string)
    (doms : gmap string (gset string)) : gmap string (gset string) :=
  match fuel with
  | O => doms
  | S n =>
      let '(doms, changed) := dominator_pass g reachable start ids doms false in
      if changed then dominator_loop n g reachable start ids doms else doms
  end.

Definition dominator_ids (g : graph) (reachable : gset string) : list string := filter (fun id => id ∈ reachable) (sortedNodeIDs g).
Definition initial_dominators (start : string) (ids : list string) : gmap string (gset string) :=
  foldl (fun m id => <[id := if String.eqb id start then {[start]} else list_to_set ids]> m) ∅ ids.
Definition computeDominators (g : graph) (reachable : gset string) (start : string) : gmap string (gset string) :=
  let ids := dominator_ids g reachable in
  dominator_loop (1 + length ids * length ids) g reachable start ids (initial_dominators start ids).

Definition dominates (doms : gmap string (gset string)) (ancestor node : string) : bool :=
  if String.eqb ancestor node then false
  else match doms !! node with Some s => bool_decide (ancestor ∈ s) | None => false end.

(** ** Depth *)

(** The edges of the acyclic skeleton out of a node. *)
Definition skeleton (g : graph) (reachable : gset string) (back : list Edge) (id : string) : list Edge :=
  filter (fun e => (e ∉ back) /\ e_To e ∈ reachable) (edges_from g id).

Definition depth_of (depth : gmap string Z) (id : string) : Z := default 0 (depth !! id).

Fixpoint depth_visit (id : string) (es : list Edge) (depth indeg : gmap string Z) (q : list string)
    : gmap string Z * gmap string Z * list string :=
  match es with
  | [] => (depth, indeg, q)
  | e :: es' =>
      let d := to_uint32 (depth_of depth id + 1) in
      let depth := if depth_of depth (e_To e) <? d then <[e_To e := d]> depth else depth in
      let k := degree indeg (e_To e) - 1 in
      depth_visit id es' depth (<[e_To e := k]> indeg) (if k =? 0 then q ++ [e_To e] else q)
  end.
(** Every turn settles one node. *)
Fixpoint depth_loop (fuel : nat) (g : graph) (reachable : gset string) (back : list Edge) (depth indeg : gmap string Z)
    (q order : list string) : gmap string Z * list string :=
  match fuel, q with
  | S n, id :: q' =>
      let '(depth, indeg, q) := depth_visit id (skeleton g reachable back id) depth indeg q' in
      depth_loop n g reachable back depth indeg q (order ++ [id])
  | _, _ => (depth, order)
  end.

Definition depth_indegrees (g : graph) (reachable : gset string) (back : list Edge) (ids : list string) : gmap string Z :=
  count_in (id ← ids; e_To <$> skeleton g reachable back id) (foldl (fun m id => <[id := 0]> m) ∅ ids).

Definition computeDepth (g : graph) (reachable : gset string) (back : list Edge) : gmap string Z * list string :=
  let ids := dominator_ids g reachable in
  let indeg := depth_indegrees g reachable back ids in
  depth_loop (length ids) g reachable back ∅ indeg (filter (fun id => degree indeg id = 0) ids) [].

Definition check_depth (def : WorkflowDefinition) (depth : gmap string Z) (order : list string) : list Diagnostic :=
  if 0 <? li_MaxDepth (df_Limits def) then
    id ← order; report_if (li_MaxDepth (df_Limits def) <? depth_of depth id) CodeUnboundedFanout (at_node id)
  else [].

Definition checkLimits (g : graph) (def : WorkflowDefinition) : list Diagnostic :=
  let root := at_ref (df_WorkflowID def) in
  let limits := df_Limits def in
  report_if (li_MaxFanOut limits =? 0) CodeUnboundedFanout root
  ++ report_if (li_MaxDepth limits =? 0) CodeUnboundedFanout root
  ++ (if li_MaxNodes limits =? 0 then [mkDiagnostic CodeUnboundedFanout root]
      else report_if (li_MaxNodes limits <? to_uint32 (Z.of_nat (length (df_Nodes def)))) CodeUnboundedFanout root)
  ++ (if li_MaxFanOut limits =? 0 then []
      else id ← sortedNodeIDs g;
           report_if (li_MaxFanOut limits <? to_uint32 (Z.of_nat (length (edges_from g id)))) CodeUnboundedFanout (at_node id)).

(** ** The analysis *)

Record analysis : Type := mkAnalysis {
  an_graph : graph;
  an_reachable : gset string;
  an_terminating : gset string;
  an_dominators : gmap string (gset string);
  an_order : list string;
  an_depth : gmap string Z;
  an_backEdges : list Edge
}.

(** The last loop of [analyzeGraph], for one node. *)
Definition check_paths (hasStart : bool) (reachable terminating : gset string) (id : string) (n : Node) : list Diagnostic :=
  report_if (hasStart && negb (bool_decide (id ∈ reachable))) CodeUnreachableNode (at_node id)
  ++ (if String.eqb (nd_Type n) StepEnd then []
      else report_if (hasStart && bool_decide (id ∈ reachable) && negb (bool_decide (id ∈ terminating)))
             CodeInvalidTerminalPath (at_node id)).

Definition analyzeGraph (def : WorkflowDefinition) : analysis * list Diagnostic :=
  let '(g, ds) := add_edges (mkGraph (nodeIndex def) ∅ ∅ ∅ true) (df_Edges def) in
  let start := gr_nodes g !! df_StartNodeID def in
  let hasStart := bool_decide (is_Some start) in
  let g := if hasStart then g else mkGraph (gr_nodes g) (gr_out g) (gr_in g) (gr_degradedEntry g) false in
  let ds := ds ++ report_if (negb hasStart) CodeUnresolvedRef (at_ref (df_StartNodeID def)) ++ checkRoutes g in
  let '(reachable, doms, order, depth, back, ds) :=
    match start with
    | None => (∅, ∅, [], ∅, [], ds)
    | Some n =>
        let reachable := computeReachability g (nd_ID n) in
        let back := back_edges g reachable (df_StartNodeID def) in
        let doms := computeDominators g reachable (nd_ID n) in
        let '(depth, order) := computeDepth g reachable back in
        (reachable, doms, order, depth, back, ds ++ checkLimits g def ++ checkCycles g def back ++ check_depth def depth order)
    end in
  let terminating := computeTermination g in
  (mkAnalysis g reachable terminating doms order depth back,
   ds ++ (id ← sortedNodeIDs g; from_option (check_paths hasStart reachable terminating id) [] (gr_nodes g !! id))).
