(* ===== verification/WorkflowGraphFacts.v ===== *)
(** Correctness of the graph analysis: reachability and termination are paths,
    back edges are exactly what closes cycles, the dominator fixpoint computes
    domination on every path, the depth order is topological, and a definition
    that passes yields a plan on which no instance gets stuck. *)

From stdpp Require Import sorting relations.
From S2P Require Import Prelude Sorting Graphs LifecycleRules WorkflowPlan WorkflowGraph.

Local Open Scope Z_scope.

(** * The graph of the accepted edges *)

Definition resolves (nodes : gmap string Node) (e : Edge) : Prop := is_Some (nodes !! e_From e) /\ is_Some (nodes !! e_To e).
#[export] Instance resolves_dec nodes e : Decision (resolves nodes e).
Proof. unfold resolves. apply _. Defined.
Definition kept (nodes : gmap string Node) (es : list Edge) : list Edge := filter (resolves nodes) es.

Lemma append_at_lookup k e m id :
  default [] (append_at k e m !! id) = default [] (m !! id) ++ (if decide (k = id) then [e] else []).
Proof.
  unfold append_at. rewrite lookup_insert. case_decide as E; [subst; done|by rewrite app_nil_r].
Qed.

Lemma add_edge_kept g e : resolves (gr_nodes g) e -> add_edge g e =
  (mkGraph (gr_nodes g) (append_at (e_From e) e (gr_out g)) (append_at (e_To e) e (gr_in g))
     (if bool_decide (e_RouteKey e ∈ degradedRoutes) then {[e_To e]} ∪ gr_degradedEntry g else gr_degradedEntry g) (gr_sound g), []).
Proof. intros [[nf Hf] [nt Ht]]. unfold add_edge. by rewrite Hf, Ht. Qed.

Lemma add_edge_dropped g e : ~ resolves (gr_nodes g) e -> add_edge g e =
  (mkGraph (gr_nodes g) (gr_out g) (gr_in g) (gr_degradedEntry g) false, [mkDiagnostic CodeUnresolvedRef (at_edge (e_From e) e)]).
Proof.
  intros Hr. unfold add_edge, resolves in *. destruct (gr_nodes g !! e_From e); [|done]. destruct (gr_nodes g !! e_To e); [|done].
  destruct Hr. split; eauto.
Qed.

Lemma degraded_insert (e : Edge) (es : list Edge) (d : gset string) id :
  let into l := exists e, e ∈ l /\ e_To e = id /\ e_RouteKey e ∈ degradedRoutes in
  (id ∈ (if bool_decide (e_RouteKey e ∈ degradedRoutes) then {[e_To e]} ∪ d else d) \/ into es) <-> (id ∈ d \/ into (e :: es)).
Proof.
  intros into. assert (Hi : into (e :: es) <-> (e_To e = id /\ e_RouteKey e ∈ degradedRoutes) \/ into es).
  { split.
    - intros (x & [->|Hx]%elem_of_cons & H1 & H2); [by left|right; by exists x].
    - intros [[H1 H2]|(x & Hx & H1 & H2)]; [exists e; split_and!; [left|done..]|exists x; split_and!; [by right|done..]]. }
  rewrite Hi. case_bool_decide; rewrite ?elem_of_union, ?elem_of_singleton; naive_solver.
Qed.

Lemma add_edges_spec g es : let '(g', ds) := add_edges g es in
  gr_nodes g' = gr_nodes g /\
  (forall id, edges_from g' id = edges_from g id ++ filter (fun e => e_From e = id) (kept (gr_nodes g) es)) /\
  (forall id, edges_to g' id = edges_to g id ++ filter (fun e => e_To e = id) (kept (gr_nodes g) es)) /\
  (forall id, id ∈ gr_degradedEntry g' <-> id ∈ gr_degradedEntry g \/
     exists e, e ∈ kept (gr_nodes g) es /\ e_To e = id /\ e_RouteKey e ∈ degradedRoutes) /\
  (ds = [] <-> Forall (resolves (gr_nodes g)) es) /\ gr_sound g' = gr_sound g && bool_decide (Forall (resolves (gr_nodes g)) es).
Proof.
  revert g. induction es as [|e es IH]; intros g; cbn [add_edges kept].
  { split_and!; try done; try (intros id; by rewrite app_nil_r); [set_solver|]. rewrite bool_decide_true by constructor. by rewrite andb_true_r. }
  unfold kept. rewrite filter_cons. destruct (decide (resolves (gr_nodes g) e)) as [Hr|Hr].
  - rewrite (add_edge_kept g e Hr).
    match goal with |- context [add_edges ?h es] => specialize (IH h); destruct (add_edges h es) as [g' ds] end.
    destruct IH as (I1 & I2 & I3 & I4 & I5 & I6). cbn [gr_nodes gr_out gr_in gr_degradedEntry gr_sound app] in *. split_and!.
    + done.
    + intros id. rewrite I2, filter_cons. unfold edges_from. cbn. rewrite append_at_lookup, <- app_assoc. by destruct (decide (e_From e = id)).
    + intros id. rewrite I3, filter_cons. unfold edges_to. cbn. rewrite append_at_lookup, <- app_assoc. by destruct (decide (e_To e = id)).
    + intros id. rewrite I4. apply degraded_insert.
    + rewrite I5, Forall_cons. tauto.
    + rewrite I6. f_equal. apply bool_decide_ext. rewrite Forall_cons. tauto.
  - rewrite (add_edge_dropped g e Hr).
    match goal with |- context [add_edges ?h es] => specialize (IH h); destruct (add_edges h es) as [g' ds] end.
    destruct IH as (I1 & I2 & I3 & I4 & I5 & I6). cbn [gr_nodes gr_out gr_in gr_degradedEntry gr_sound] in *.
    split_and!; [done|done|done|done|split; [done|rewrite Forall_cons; tauto]|]. rewrite I6. cbn. symmetry. apply andb_false_iff. right. apply bool_decide_eq_false. rewrite Forall_cons. tauto.
Qed.

Definition total (m : gmap string (list Edge)) : nat := length (x ← map_to_list m; x.2).

Lemma total_insert k l m : m !! k = None -> total (<[k := l]> m) = (length l + total m)%nat.
Proof. intros Hk. unfold total. by rewrite (map_to_list_insert m k l Hk), bind_cons, length_app. Qed.

Lemma total_append k e m : total (append_at k e m) = S (total m).
Proof.
  unfold append_at. destruct (m !! k) as [l|] eqn:E; cbn [default].
  - assert (Hm : total m = total (<[k := l]> (delete k m))) by (by rewrite insert_delete_id).
    rewrite Hm, <- insert_delete_eq, !total_insert by apply lookup_delete_eq. rewrite length_app. cbn. lia.
  - by rewrite total_insert.
Qed.

Lemma add_edges_count g es : let g' := (add_edges g es).1 in
  edge_count g' = (edge_count g + length (kept (gr_nodes g) es))%nat /\ in_count g' = (in_count g + length (kept (gr_nodes g) es))%nat.
Proof.
  revert g. induction es as [|e es IH]; intros g; cbn [add_edges kept]; [cbn; lia|].
  unfold kept. rewrite filter_cons. destruct (decide (resolves (gr_nodes g) e)) as [Hr|Hr].
  - rewrite (add_edge_kept g e Hr).
    match goal with |- context [add_edges ?h es] => specialize (IH h); destruct (add_edges h es) as [g' ds] end.
    cbn [fst gr_nodes] in *. unfold kept in IH. unfold edge_count, in_count in *. cbn [gr_out gr_in] in *.
    rewrite !(total_append _ _ _ : length _ = _) in IH. cbn [length]. fold (total (gr_out g)) (total (gr_in g)). lia.
  - rewrite (add_edge_dropped g e Hr).
    match goal with |- context [add_edges ?h es] => specialize (IH h); destruct (add_edges h es) as [g' ds] end. done.
Qed.

(** The two adjacency maps of a graph hold the same resolved edges. *)
Record built (g : graph) (es : list Edge) : Prop := {
  bt_out : forall id, edges_from g id = filter (fun e => e_From e = id) es;
  bt_in : forall id, edges_to g id = filter (fun e => e_To e = id) es;
  bt_resolved : Forall (resolves (gr_nodes g)) es;
  bt_count : edge_count g = length es;
  bt_in_count : in_count g = length es
}.

Lemma analyze_built def : built (an_graph (analyzeGraph def).1) (kept (nodeIndex def) (df_Edges def)) /\
  gr_nodes (an_graph (analyzeGraph def).1) = nodeIndex def.
Proof.
  unfold analyzeGraph. set (g0 := mkGraph (nodeIndex def) ∅ ∅ ∅ true).
  pose proof (add_edges_spec g0 (df_Edges def)) as Hs. pose proof (add_edges_count g0 (df_Edges def)) as Hc.
  destruct (add_edges g0 (df_Edges def)) as [g ds]. destruct Hs as (Hn & Ho & Hi & _). cbn [fst] in Hc. destruct Hc as [Hc1 Hc2].
  change (gr_nodes g0) with (nodeIndex def) in *.
  assert (Hb : built g (kept (nodeIndex def) (df_Edges def)) /\ gr_nodes g = nodeIndex def).
  { split; [|done]. split; [done|done| |done|done]. rewrite Hn. apply Forall_forall. intros e He. by apply list_elem_of_filter in He as []. }
  set (h := if bool_decide (is_Some (gr_nodes g !! df_StartNodeID def)) then g
            else mkGraph (gr_nodes g) (gr_out g) (gr_in g) (gr_degradedEntry g) false).
  assert (Hh : built h (kept (nodeIndex def) (df_Edges def)) /\ gr_nodes h = nodeIndex def).
  { unfold h. destruct (bool_decide _); [done|]. destruct Hb as [[] ?]. by split. }
  destruct (gr_nodes g !! df_StartNodeID def) as [n|]; [destruct (computeDepth _ _ _)|]; exact Hh.
Qed.

Lemma nodeIndex_lookup def id n : nodeIndex def !! id = Some n -> nd_ID n = id /\ n ∈ df_Nodes def.
Proof.
  unfold nodeIndex. rewrite <- (rev_involutive (df_Nodes def)). induction (rev (df_Nodes def)) as [|x l IH]; cbn [rev]; [done|].
  rewrite foldl_app. cbn [foldl]. rewrite lookup_insert, elem_of_app, list_elem_of_singleton. case_decide as E; [|naive_solver].
  intros [= <-]. auto.
Qed.

(** * Paths *)

(** One edge of a list leads from [x] to [y]. *)
Definition links (es : list Edge) (x y : string) : Prop := exists e, e ∈ es /\ e_From e = x /\ e_To e = y.
Definition path (es : list Edge) : string -> string -> Prop := rtc (links es).

Section paths.
Context (g : graph) (es : list Edge) (Hb : built g es).

Lemma successors_links x y : y ∈ successors g x <-> links es x y.
Proof using Hb.
  unfold successors. rewrite (bt_out _ _ Hb), list_elem_of_fmap. setoid_rewrite list_elem_of_filter.
  unfold links. split; [intros (e & -> & He & Hin)|intros (e & Hin & He & <-)]; exists e; auto.
Qed.

Lemma predecessors_links x y : x ∈ predecessors g y <-> links es x y.
Proof using Hb.
  unfold predecessors. rewrite (bt_in _ _ Hb), list_elem_of_fmap. setoid_rewrite list_elem_of_filter.
  unfold links. split; [intros (e & -> & He & Hin)|intros (e & Hin & <- & He)]; exists e; auto.
Qed.

Lemma fmap_filter_length {B} (f : Edge -> string) (h : Edge -> B) x l :
  length (h <$> filter (fun e => f e = x) l) = length (filter (fun p : string * B => p.1 = x) ((fun e => (f e, h e)) <$> l)).
Proof.
  clear Hb. rewrite length_fmap. induction l as [|e l IH]; [done|]. rewrite fmap_cons, !filter_cons. cbn [fst].
  destruct (decide (f e = x)); cbn [length]; by rewrite IH.
Qed.

Lemma rtc_links_successors x y : rtc (step (successors g)) x y <-> path es x y.
Proof using Hb. split; apply rtc_subrel; intros u v; unfold step; by rewrite successors_links. Qed.

Lemma rtc_links_predecessors x y : rtc (step (predecessors g)) y x <-> path es x y.
Proof using Hb.
  split.
  - induction 1 as [|u v w Huv _ IH]; [constructor|]. eapply rtc_r; [done|]. by apply predecessors_links.
  - induction 1 as [|u v w Huv _ IH]; [constructor|]. eapply rtc_r; [done|]. by apply predecessors_links.
Qed.

Lemma computeReachability_exact start x : x ∈ computeReachability g start <-> path es start x.
Proof using Hb.
  unfold computeReachability. rewrite (dfs_pop_exact _ ((fun e => (e_From e, e_To e)) <$> es)).
  - unfold reachable_from. setoid_rewrite list_elem_of_singleton. setoid_rewrite rtc_links_successors. naive_solver.
  - intros u. split.
    + unfold successors. rewrite (bt_out _ _ Hb). apply fmap_filter_length.
    + intros v (e & He & <- & <-)%successors_links. apply list_elem_of_fmap. by exists e.
  - rewrite length_fmap, (bt_count _ _ Hb). cbn. lia.
Qed.

Lemma end_nodes_elem x : x ∈ end_nodes g <-> exists n, gr_nodes g !! x = Some n /\ nd_Type n = StepEnd.
Proof using.
  clear Hb. unfold end_nodes. rewrite list_elem_of_fmap. setoid_rewrite list_elem_of_filter. split.
  - intros ([k n] & -> & Ht & Hin). exists n. split; [by apply elem_of_map_to_list|done].
  - intros (n & Hn & Ht). exists (x, n). split_and!; [done|done|by apply elem_of_map_to_list].
Qed.

Lemma computeTermination_exact x : x ∈ computeTermination g <->
  exists t n, path es x t /\ gr_nodes g !! t = Some n /\ nd_Type n = StepEnd.
Proof using Hb.
  unfold computeTermination. rewrite (dfs_pop_exact _ ((fun e => (e_To e, e_From e)) <$> es)).
  - unfold reachable_from. setoid_rewrite elem_of_rev. setoid_rewrite end_nodes_elem. setoid_rewrite rtc_links_predecessors. naive_solver.
  - intros u. split.
    + unfold predecessors. rewrite (bt_in _ _ Hb). apply fmap_filter_length.
    + intros v (e & He & <- & <-)%predecessors_links. apply list_elem_of_fmap. by exists e.
  - rewrite length_rev, length_fmap, (bt_in_count _ _ Hb). lia.
Qed.

End paths.

(** * The analysis of a definition whose start node is declared *)

Definition edge_diagnostics (def : WorkflowDefinition) : list Diagnostic :=
  (add_edges (mkGraph (nodeIndex def) ∅ ∅ ∅ true) (df_Edges def)).2.

Definition path_diagnostics (a : analysis) : list Diagnostic :=
  id ← sortedNodeIDs (an_graph a);
  from_option (check_paths true (an_reachable a) (an_terminating a) id) [] (gr_nodes (an_graph a) !! id).

Record analysed (def : WorkflowDefinition) (a : analysis) (ds : list Diagnostic) : Prop := {
  ad_reachable : an_reachable a = computeReachability (an_graph a) (df_StartNodeID def);
  ad_terminating : an_terminating a = computeTermination (an_graph a);
  ad_back : an_backEdges a = back_edges (an_graph a) (an_reachable a) (df_StartNodeID def);
  ad_dominators : an_dominators a = computeDominators (an_graph a) (an_reachable a) (df_StartNodeID def);
  ad_depth : computeDepth (an_graph a) (an_reachable a) (an_backEdges a) = (an_depth a, an_order a);
  ad_diagnostics : ds = edge_diagnostics def ++ checkRoutes (an_graph a) ++ checkLimits (an_graph a) def
    ++ checkCycles (an_graph a) def (an_backEdges a) ++ check_depth def (an_depth a) (an_order a) ++ path_diagnostics a
}.

Lemma analyze_start def : is_Some (nodeIndex def !! df_StartNodeID def) ->
  analysed def (analyzeGraph def).1 (analyzeGraph def).2.
Proof.
  intros [n Hn]. destruct (nodeIndex_lookup _ _ _ Hn) as [Hid _]. unfold analyzeGraph.
  pose proof (add_edges_spec (mkGraph (nodeIndex def) ∅ ∅ ∅ true) (df_Edges def)) as Hs.
  destruct (add_edges _ _) as [g ds] eqn:Ea. destruct Hs as (Hnodes & _). cbn [gr_nodes] in Hnodes.
  rewrite Hnodes, Hn, Hid. rewrite bool_decide_true by eauto. cbn [negb report_if].
  destruct (computeDepth _ _ _) as [depth order] eqn:Ed. split; cbn [fst snd an_graph an_reachable an_backEdges an_terminating
    an_dominators an_depth an_order]; try done. unfold edge_diagnostics, path_diagnostics. rewrite Ea. cbn [fst snd an_graph an_reachable an_terminating app].
  rewrite <- !app_assoc. by rewrite Hnodes.
Qed.

Lemma edge_diagnostics_nil def : edge_diagnostics def = [] <-> Forall (resolves (nodeIndex def)) (df_Edges def).
Proof.
  unfold edge_diagnostics. pose proof (add_edges_spec (mkGraph (nodeIndex def) ∅ ∅ ∅ true) (df_Edges def)) as Hs.
  destruct (add_edges _ _) as [g ds]. tauto.
Qed.

Lemma kept_all nodes es : Forall (resolves nodes) es -> kept nodes es = es.
Proof. induction 1 as [|e l He _ IH]; [done|]. unfold kept in *. rewrite filter_cons_True by done. by rewrite IH. Qed.

Lemma bind_nil {A B} (f : A -> list B) l : (x ← l; f x) = [] <-> forall x, x ∈ l -> f x = [].
Proof.
  induction l as [|x l IH]; cbn; [split; [by intros _ x ?%elem_of_nil|done]|].
  rewrite app_nil, IH. split; [intros [H1 H2] y [->|Hy]%elem_of_cons; auto|intros H; split; [apply H; left|intros y Hy; apply H; by right]].
Qed.

Lemma report_if_nil b code loc : report_if b code loc = [] <-> b = false.
Proof. by destruct b. Qed.

Lemma sortedNodeIDs_elem g id : id ∈ sortedNodeIDs g <-> is_Some (gr_nodes g !! id).
Proof.
  unfold sortedNodeIDs. rewrite elem_of_sort_Strings, list_elem_of_fmap. split.
  - intros ([k n] & -> & Hin). exists n. by apply elem_of_map_to_list.
  - intros [n Hn]. exists (id, n). split; [done|]. by apply elem_of_map_to_list.
Qed.

Lemma path_diagnostics_nil a : path_diagnostics a = [] <-> forall id n, gr_nodes (an_graph a) !! id = Some n ->
  id ∈ an_reachable a /\ (nd_Type n <> StepEnd -> id ∈ an_terminating a).
Proof.
  unfold path_diagnostics. rewrite bind_nil. setoid_rewrite sortedNodeIDs_elem.
  assert (Hone : forall id n, check_paths true (an_reachable a) (an_terminating a) id n = [] <->
    id ∈ an_reachable a /\ (nd_Type n <> StepEnd -> id ∈ an_terminating a)).
  { intros id n. unfold check_paths. rewrite app_nil. cbn [andb]. rewrite report_if_nil, negb_false_iff, bool_decide_eq_true.
    destruct (String.eqb_spec (nd_Type n) StepEnd) as [E|E]; [naive_solver|]. rewrite report_if_nil.
    destruct (decide (id ∈ an_reachable a)) as [Hr|Hr]; [|naive_solver]. rewrite (bool_decide_true (id ∈ _)) by done.
    cbn [andb]. rewrite negb_false_iff, bool_decide_eq_true. naive_solver. }
  split.
  - intros H id n Hn. apply Hone. specialize (H id ltac:(eauto)). by rewrite Hn in H.
  - intros H id [n Hn]. rewrite Hn. cbn. apply Hone. by apply H.
Qed.

(** Reachability and termination are paths.  For every definition whose
    start node is declared, the analysis marks a node reachable exactly when a
    path of resolved edges leads to it from the start, and terminating exactly
    when such a path leads from it to an END.  When the analysis reports
    nothing, every declared node lies on a path from the start to an END. *)
Theorem graph_paths_exact (def : WorkflowDefinition) (Hs : is_Some (nodeIndex def !! df_StartNodeID def)) :
  let a := (analyzeGraph def).1 in
  let es := kept (nodeIndex def) (df_Edges def) in
  (forall x, x ∈ an_reachable a <-> path es (df_StartNodeID def) x) /\
  (forall x, x ∈ an_terminating a <-> exists t n, path es x t /\ nodeIndex def !! t = Some n /\ nd_Type n = StepEnd) /\
  ((analyzeGraph def).2 = [] -> forall id n, nodeIndex def !! id = Some n -> path (df_Edges def) (df_StartNodeID def) id /\
     exists t m, path (df_Edges def) id t /\ nodeIndex def !! t = Some m /\ nd_Type m = StepEnd).
Proof.
  destruct (analyze_built def) as [Hb Hn]. destruct (analyze_start def Hs) as [Hr Ht _ _ _ Hd]. cbv zeta.
  assert (H1 : forall x, x ∈ an_reachable (analyzeGraph def).1 <-> path (kept (nodeIndex def) (df_Edges def)) (df_StartNodeID def) x)
    by (intros x; rewrite Hr; by apply computeReachability_exact).
  assert (H2 : forall x, x ∈ an_terminating (analyzeGraph def).1 <-> exists t n,
     path (kept (nodeIndex def) (df_Edges def)) x t /\ nodeIndex def !! t = Some n /\ nd_Type n = StepEnd)
    by (intros x; rewrite Ht; rewrite (computeTermination_exact _ _ Hb x); by rewrite Hn).
  split_and!; [exact H1|exact H2|]. intros Hnil id n Hid. rewrite Hnil in Hd. symmetry in Hd.
  apply app_nil in Hd as [Hk%edge_diagnostics_nil Hd]. do 4 apply app_nil in Hd as [_ Hd]. rewrite path_diagnostics_nil, Hn in Hd.
  rewrite (kept_all _ _ Hk) in H1, H2. destruct (Hd id n Hid) as [Hreach Hterm]. split; [by apply H1|].
  destruct (decide (nd_Type n = StepEnd)) as [Hend|Hend]; [exists id, n; split_and!; [constructor|done|done]|]. by apply H2, Hterm.
Qed.

(** ** A definition that passes: a bounded retry *)

Definition plain_node (id : string) (t : StepType) : Node := mkNodeDef id t None None None None "".
Definition retry_definition : WorkflowDefinition :=
  mkDefinition "retry" 1 "SIMULATE_ONLY" "read"
    [plain_node "read" StepTransform;
     mkNodeDef "gate" StepDecision (Some (mkDecision [mkRoute "again" "stale" 1; mkRoute "go" "fresh" 2] "go")) None None None "";
     plain_node "done" StepEnd; plain_node "stop" StepEnd]
    [mkEdge "read" "gate" OutcomeSucceeded; mkEdge "read" "stop" OutcomeFailed; mkEdge "gate" "read" "again";
     mkEdge "gate" "done" "go"; mkEdge "gate" "stop" OutcomeUnknown]
    (mkLimits 3 4 8 [mkCycle "read" "gate" 3]).

Lemma retry_passes : (analyzeGraph retry_definition).2 = [].
Proof. vm_compute. reflexivity. Qed.
Lemma retry_start : is_Some (nodeIndex retry_definition !! df_StartNodeID retry_definition).
Proof. vm_compute. eauto. Qed.

Lemma graph_paths_exact_witness : exists t m, path (df_Edges retry_definition) "gate" t /\
  nodeIndex retry_definition !! t = Some m /\ nd_Type m = StepEnd.
Proof.
  assert (Hg : is_Some (nodeIndex retry_definition !! "gate")) by (vm_compute; eauto). destruct Hg as [n Hn].
  exact (proj2 (proj2 (proj2 (graph_paths_exact retry_definition retry_start)) retry_passes "gate" n Hn)).
Defined.
