(* ===== verification/WorkflowCycles.v ===== *)
(** The cycle detection of the graph analysis ([checkCycles] of
    [internal/workflow/graph.go]): the edges its depth-first walk calls back
    edges each close a cycle, and without them the reachable graph is acyclic. *)

From stdpp Require Import sorting relations.
From S2P Require Import Prelude Sorting Graphs LifecycleRules WorkflowPlan WorkflowGraph WorkflowGraphFacts.

#[export] Instance colour_eq_dec : EqDecision colour.
Proof. solve_decision. Defined.

Lemma colour_of_insert st x y c : colour_of (<[x := c]> st) y = if decide (x = y) then c else colour_of st y.
Proof. unfold colour_of. rewrite lookup_insert. by case_decide. Qed.

(** [y] stands after [x] in a list without repetitions: it was finished
    before [x]. *)
Definition before (F : list string) (x y : string) : Prop := exists l1 l2, F = l1 ++ x :: l2 /\ y ∈ l2.

Lemma before_app l F x y : before F x y -> before (l ++ F) x y.
Proof. intros (l1 & l2 & -> & Hy). exists (l ++ l1), l2. by rewrite <- app_assoc. Qed.

Lemma before_trans F x y z : NoDup F -> before F x y -> before F y z -> before F x z.
Proof.
  intros Hnd (l1 & l2 & -> & Hy) (k1 & k2 & Heq & Hz). exists l1, l2. split; [done|].
  apply list_elem_of_split in Hy as (m1 & m2 & ->).
  assert (k1 = l1 ++ x :: m1 /\ k2 = m2) as [_ ->].
  { assert (Heq' : (l1 ++ x :: m1) ++ y :: m2 = k1 ++ y :: k2) by (by rewrite <- app_assoc). clear Heq.
    assert (Hnd' : NoDup ((l1 ++ x :: m1) ++ y :: m2)) by (by rewrite <- app_assoc). clear Hnd.
    revert k1 Heq' Hnd'. generalize (l1 ++ x :: m1) as a. induction a as [|u a IH]; intros [|v b]; cbn; intros Heq Hnd.
    - by injection Heq as ->.
    - injection Heq as <- ->. apply NoDup_cons in Hnd as [Hu _]. set_solver.
    - injection Heq as -> <-. apply NoDup_cons in Hnd as [Hu _]. set_solver.
    - injection Heq as <- Heq. apply NoDup_cons in Hnd as [_ Hnd]. destruct (IH b Heq Hnd) as [-> ->]. done. }
  set_solver.
Qed.

Lemma before_irrefl F x : NoDup F -> ~ before F x x.
Proof. intros Hnd (l1 & l2 & -> & Hx). apply NoDup_app in Hnd as (_ & _ & Hnd). by apply NoDup_cons in Hnd as [Hn _]. Qed.

Lemma filter_all {A} (P : A -> Prop) `{!forall x, Decision (P x)} (l : list A) : (forall x, x ∈ l -> P x) -> filter P l = l.
Proof.
  induction l as [|x l IH]; intros Hl; [done|]. rewrite filter_cons_True by (apply Hl; left). f_equal. apply IH. intros y Hy. apply Hl. by right.
Qed.

Section walk.
Context (g : graph) (es : list Edge) (Hb : built g es) (start : string).

(** [F] lists the black nodes, the last finished first. *)
Record walked (st : gmap string colour) (F : list string) (back : list Edge) : Prop := {
  wk_nodup : NoDup F;
  wk_black : forall x, x ∈ F <-> colour_of st x = black;
  wk_edges : forall e, e ∈ es -> e_From e ∈ F -> before F (e_From e) (e_To e) \/ (e ∈ back /\ colour_of st (e_To e) <> white);
  wk_back : forall e, e ∈ back -> e ∈ es /\ path es (e_To e) (e_From e) /\ colour_of st (e_From e) <> white;
  wk_reached : forall x, colour_of st x <> white -> path es start x /\ is_Some (gr_nodes g !! x)
}.

(** What a call of [walk] leaves alone. *)
Record onward (st st' : gmap string colour) (back back' : list Edge) : Prop := {
  ow_grey : forall x, colour_of st x = grey <-> colour_of st' x = grey;
  ow_black : forall x, colour_of st x = black -> colour_of st' x = black;
  ow_back : back ⊆ back'
}.

Lemma onward_refl st back : onward st st back back.
Proof. by split. Qed.
Lemma onward_trans st1 st2 st3 b1 b2 b3 : onward st1 st2 b1 b2 -> onward st2 st3 b2 b3 -> onward st1 st3 b1 b3.
Proof. intros [G1 B1 S1] [G2 B2 S2]. split; [intros x; by rewrite G1, G2|auto|by etrans]. Qed.
Lemma onward_visited st st' back back' x : onward st st' back back' -> colour_of st x <> white -> colour_of st' x <> white.
Proof.
  intros [G B _] Hx. destruct (colour_of st x) eqn:E; [done|apply G in E; by rewrite E|apply B in E; by rewrite E].
Qed.

Definition whites (st : gmap string colour) : nat :=
  length (filter (fun x => colour_of st x = white) (fst <$> map_to_list (gr_nodes g))).

Lemma filter_length_lt {A} (P Q : A -> Prop) `{!forall x, Decision (P x), !forall x, Decision (Q x)} (l : list A) z :
  (forall x, P x -> Q x) -> z ∈ l -> Q z -> ~ P z -> (length (filter P l) < length (filter Q l))%nat.
Proof.
  intros HPQ Hz Hq Hp. induction l as [|x l IH]; [by apply elem_of_nil in Hz|]. rewrite !filter_cons.
  apply elem_of_cons in Hz as [<-|Hz].
  - rewrite decide_False, decide_True by done. pose proof (filter_length_le P Q l HPQ). cbn. lia.
  - specialize (IH Hz). destruct (decide (P x)) as [Hp'|Hp']; [rewrite decide_True by auto; cbn; lia|case_decide; cbn; lia].
Qed.

Lemma whites_onward st st' back back' : onward st st' back back' -> (whites st' <= whites st)%nat.
Proof using.
  intros Ho. apply filter_length_le. intros x Hx. destruct (decide (colour_of st x = white)) as [|Hn]; [done|].
  by destruct (onward_visited _ _ _ _ x Ho Hn).
Qed.

Lemma whites_enter st x : colour_of st x = white -> is_Some (gr_nodes g !! x) -> (whites (<[x := grey]> st) < whites st)%nat.
Proof using.
  intros Hw [n Hn]. apply (filter_length_lt _ _ _ x).
  - intros y. rewrite colour_of_insert. by case_decide.
  - apply list_elem_of_fmap. exists (x, n). split; [done|]. by apply elem_of_map_to_list.
  - done.
  - rewrite colour_of_insert, decide_True by done. done.
Qed.

(** Entering a node. *)
Lemma walked_enter st F back x : walked st F back -> colour_of st x = white -> path es start x -> is_Some (gr_nodes g !! x) ->
  walked (<[x := grey]> st) F back.
Proof using.
  intros [W1 W2 W3 W4 W5] Hw Hp Hn. split.
  - done.
  - intros y. rewrite W2, colour_of_insert. case_decide as E; [subst; by rewrite Hw|done].
  - intros e He HF. destruct (W3 e He HF) as [|[Hk Hc]]; [by left|right]. split; [done|]. rewrite colour_of_insert. by case_decide.
  - intros e He. destruct (W4 e He) as (H1 & H2 & H3). split_and!; [done|done|]. rewrite colour_of_insert. by case_decide.
  - intros y. rewrite colour_of_insert. case_decide as E; [subst; done|apply W5].
Qed.

(** Leaving a node whose edges have all been handled. *)
Lemma walked_leave st F back x : walked st F back -> colour_of st x = grey ->
  (forall e, e ∈ edges_from g x -> e_To e ∈ F \/ (e ∈ back /\ colour_of st (e_To e) <> white)) ->
  walked (<[x := black]> st) (x :: F) back.
Proof using Hb.
  intros [W1 W2 W3 W4 W5] Hg Hd.
  assert (HxF : x ∉ F) by (rewrite W2, Hg; done). split.
  - by constructor.
  - intros y. rewrite elem_of_cons, W2, colour_of_insert. case_decide as E; [subst; split; auto|]. split; [intros [->|]; done|by right].
  - intros e He [Hfrom|HF]%elem_of_cons.
    + destruct (Hd e) as [HF|[Hk Hc]].
      { rewrite (bt_out _ _ Hb). by apply list_elem_of_filter. }
      * left. exists [], F. by rewrite Hfrom.
      * right. split; [done|]. rewrite colour_of_insert. by case_decide.
    + destruct (W3 e He HF) as [Hl|[Hk Hc]]; [left; by apply (before_app [x])|right]. split; [done|]. rewrite colour_of_insert. by case_decide.
  - intros e He. destruct (W4 e He) as (H1 & H2 & H3). split_and!; [done|done|]. rewrite colour_of_insert. by case_decide.
  - intros y. rewrite colour_of_insert. case_decide as E; [subst; intros _; apply W5; by rewrite Hg|apply W5].
Qed.

(** Recording a back edge. *)
Lemma walked_back st F back e : walked st F back -> e ∈ es -> path es (e_To e) (e_From e) -> colour_of st (e_From e) <> white ->
  walked st F (back ++ [e]).
Proof using.
  intros [W1 W2 W3 W4 W5] He Hp Hc. split; [done|done| | |done].
  - intros d Hd HF. destruct (W3 d Hd HF) as [|[Hk Hd']]; [by left|right; split; [|done]]. apply elem_of_app. by left.
  - intros d [Hd| ->%list_elem_of_singleton]%elem_of_app; [by apply W4|done].
Qed.

(** What a call of [walk] on a white node achieves. *)
Definition visited (st : gmap string colour) (F : list string) (back : list Edge) (x : string)
    (r : gmap string colour * list Edge) : Prop :=
  exists new, walked r.1 (new ++ F) r.2 /\ x ∈ new /\ onward st r.1 back r.2.

Definition walk_edge (n : nat) (acc : gmap string colour * list Edge) (e : Edge) : gmap string colour * list Edge :=
  match colour_of acc.1 (e_To e) with
  | white => walk n g (e_To e) acc.1 acc.2
  | grey => (acc.1, acc.2 ++ [e])
  | black => acc
  end.

Definition ready_at (fuel : nat) (st : gmap string colour) (F : list string) (back : list Edge) (x : string) : Prop :=
  walked st F back /\ colour_of st x = white /\ path es start x /\ is_Some (gr_nodes g !! x) /\
  (forall y, colour_of st y = grey -> path es y x) /\ (whites st <= fuel)%nat.

(** The loop over the edges of a grey node [x]. *)
Lemma walk_edges n x (IH : forall y st F back, ready_at n st F back y -> visited st F back y (walk n g y st back)) :
  forall l st F back, walked st F back -> colour_of st x = grey -> (forall y, colour_of st y = grey -> path es y x) ->
  (whites st <= n)%nat -> (forall e, e ∈ l -> e ∈ es /\ e_From e = x) ->
  let r := foldl (walk_edge n) (st, back) l in
  exists new, walked r.1 (new ++ F) r.2 /\ onward st r.1 back r.2 /\
    forall e, e ∈ l -> e_To e ∈ new ++ F \/ (e ∈ r.2 /\ colour_of r.1 (e_To e) <> white).
Proof using Hb.
  induction l as [|e l IHl]; intros st F back Hw Hx Hgrey Hn Hl; cbn [foldl].
  { exists []. split_and!; [done|apply onward_refl|by intros e He%elem_of_nil]. }
  destruct (Hl e) as [He Hfrom]; [left|].
  assert (Hstep : exists new1, let r := walk_edge n (st, back) e in walked r.1 (new1 ++ F) r.2 /\ onward st r.1 back r.2 /\
            (e_To e ∈ new1 ++ F \/ (e ∈ r.2 /\ colour_of r.1 (e_To e) <> white))).
  { unfold walk_edge. cbn [fst snd]. destruct (colour_of st (e_To e)) eqn:Hc.
    - assert (Hlink : links es x (e_To e)) by (by exists e).
      destruct (IH (e_To e) st F back) as (new & V1 & V2 & V3).
      { split_and!; [done|done| | | |done].
        - eapply rtc_r; [|exact Hlink]. apply (wk_reached _ _ _ Hw). by rewrite Hx.
        - pose proof (bt_resolved _ _ Hb) as Hr. rewrite Forall_forall in Hr. by apply Hr.
        - intros y Hy. eapply rtc_r; [by apply Hgrey|done]. }
      exists new. split_and!; [done|done|left; apply elem_of_app; by left].
    - exists []. cbn [fst snd app]. split_and!.
      + apply walked_back; [done|done|rewrite Hfrom; by apply Hgrey|by rewrite Hfrom, Hx].
      + split; [done|done|]. intros d Hd. apply elem_of_app. by left.
      + right. rewrite Hc. split; [apply elem_of_app; right; by left|done].
    - exists []. split_and!; [done|apply onward_refl|left]. by apply (wk_black _ _ _ Hw). }
  destruct Hstep as (new1 & W1 & O1 & E1). set (r1 := walk_edge n (st, back) e) in *.
  destruct (IHl r1.1 (new1 ++ F) r1.2) as (new2 & W2 & O2 & E2).
  { done. }
  { by apply (ow_grey _ _ _ _ O1). }
  { intros y Hy. apply Hgrey. by apply (ow_grey _ _ _ _ O1). }
  { pose proof (whites_onward _ _ _ _ O1). lia. }
  { intros d Hd. apply Hl. by right. }
  rewrite <- surjective_pairing in W2, O2, E2. exists (new2 ++ new1). rewrite <- app_assoc.
  split_and!; [done|by eapply onward_trans|]. intros d [->|Hd]%elem_of_cons; [|by apply E2].
  destruct E1 as [HF|[Hk Hc]]; [left; apply elem_of_app; by right|right].
  split; [by apply (ow_back _ _ _ _ O2)|by eapply onward_visited].
Qed.

Lemma walk_spec n : forall x st F back, ready_at n st F back x -> visited st F back x (walk n g x st back).
Proof using Hb.
  induction n as [|n IH]; intros x st F back (Hw & Hx & Hp & Hs & Hgrey & Hn).
  { pose proof (whites_enter st x Hx Hs). lia. }
  cbn [walk]. change (foldl _ (<[x := grey]> st, back) (edges_from g x)) with (foldl (walk_edge n) (<[x := grey]> st, back) (edges_from g x)).
  pose proof (whites_enter st x Hx Hs) as Hlt.
  destruct (walk_edges n x IH (edges_from g x) (<[x := grey]> st) F back) as (new & W & O & E).
  { by apply walked_enter. }
  { by rewrite colour_of_insert, decide_True. }
  { intros y. rewrite colour_of_insert. case_decide as Ey; [intros _; subst; constructor|apply Hgrey]. }
  { lia. }
  { intros e. rewrite (bt_out _ _ Hb), list_elem_of_filter. tauto. }
  destruct (foldl _ _ _) as [st' back']. cbn [fst snd] in *.
  assert (Hx' : colour_of st' x = grey) by (apply (ow_grey _ _ _ _ O); by rewrite colour_of_insert, decide_True).
  exists (x :: new). split_and!; [by apply walked_leave|left|]. destruct O as [OG OB OS]. split; cbn [fst snd]; [| |done].
  - intros y. rewrite colour_of_insert. specialize (OG y). rewrite colour_of_insert in OG. case_decide; [subst; rewrite Hx; done|done].
  - intros y Hy. rewrite colour_of_insert. case_decide; [done|]. apply OB. rewrite colour_of_insert. by rewrite decide_False.
Qed.

(** The walk from the start: every reachable node is finished. *)
Lemma walk_start : is_Some (gr_nodes g !! start) -> exists F, let back := (walk (size (gr_nodes g)) g start ∅ []).2 in
  NoDup F /\ (forall x, x ∈ F <-> path es start x) /\
  (forall e, e ∈ es -> e_From e ∈ F -> before F (e_From e) (e_To e) \/ e ∈ back) /\
  (forall e, e ∈ back -> e ∈ es /\ path es start (e_From e) /\ path es (e_To e) (e_From e)).
Proof using Hb.
  intros Hs. destruct (walk_spec (size (gr_nodes g)) start ∅ [] []) as (F & W & Hin & O).
  { split_and!; [|done|constructor|done|done|].
    - split; [constructor|intros x; split; [by intros ?%elem_of_nil|done]|by intros e _ ?%elem_of_nil|by intros e ?%elem_of_nil|done].
    - unfold whites. etrans; [apply length_filter|]. by rewrite length_fmap, length_map_to_list. }
  rewrite app_nil_r in W. destruct (walk _ g start ∅ []) as [st back]. cbn [fst snd] in *. destruct W as [W1 W2 W3 W4 W5].
  assert (Hblack : forall x, colour_of st x <> white -> x ∈ F).
  { intros x Hx. apply W2. destruct (colour_of st x) eqn:E; [done| |done]. apply (ow_grey _ _ _ _ O) in E. done. }
  exists F. split_and!; [done| | |].
  - intros x. split; [intros Hx; apply W5; apply W2 in Hx; by rewrite Hx|]. revert x. apply rtc_ind_r; [done|].
    intros u v _ (e & He & <- & <-) IH. destruct (W3 e He IH) as [(l1 & l2 & -> & Hy)|[_ Hc]]; [set_solver|by apply Hblack].
  - intros e He HF. destruct (W3 e He HF) as [|[]]; auto.
  - intros e He. destruct (W4 e He) as (H1 & H2 & H3). split_and!; [done|by apply W5|done].
Qed.

End walk.

(** * The declared contract *)

Lemma insert_edge_perm e l : insert_edge e l ≡ₚ e :: l.
Proof. induction l as [|y l IH]; cbn; [done|]. destruct (edge_less y e); [|done]. rewrite IH. constructor. Qed.

Lemma sort_edges_perm l : sort_edges l ≡ₚ l.
Proof. induction l as [|x l IH]; cbn; [done|]. by rewrite insert_edge_perm, IH. Qed.

(** The edges left after the back edges are removed. *)
Definition forward (es back : list Edge) : list Edge := filter (fun e => e ∉ back) es.

Lemma back_edges_spec g es start : built g es -> is_Some (gr_nodes g !! start) ->
  exists F, let back := back_edges g (computeReachability g start) start in
  NoDup F /\ (forall x, x ∈ F <-> path es start x) /\
  (forall e, e ∈ forward es back -> e_From e ∈ F -> before F (e_From e) (e_To e)) /\
  (forall e, e ∈ back -> e ∈ es /\ path es start (e_From e) /\ path es (e_To e) (e_From e)).
Proof.
  intros Hb Hs. destruct (walk_start g es Hb start Hs) as (F & H1 & H2 & H3 & H4). exists F. unfold back_edges.
  rewrite bool_decide_true by (apply (computeReachability_exact g es Hb); constructor). cbv zeta in *. split_and!; [done|done| |].
  - intros e [Hk He]%list_elem_of_filter HF. rewrite sort_edges_perm in Hk. destruct (H3 e He HF); done.
  - intros e. rewrite sort_edges_perm. apply H4.
Qed.

Lemma forward_acyclic es back F : NoDup F ->
  (forall e, e ∈ forward es back -> e_From e ∈ F -> before F (e_From e) (e_To e)) ->
  forall x y, tc (links (forward es back)) x y -> x ∈ F -> before F x y.
Proof.
  intros Hnd Hf. induction 1 as [x y (e & He & <- & <-)|x y z (e & He & <- & <-) _ IH]; intros HF; [by apply Hf|].
  assert (Hxy := Hf e He HF). eapply before_trans; [done|exact Hxy|apply IH]. destruct Hxy as (l1 & l2 & -> & Hy). set_solver.
Qed.

(** * The topological order and the depth *)

Local Open Scope Z_scope.

Section order.
Context (g : graph) (es : list Edge) (Hb : built g es) (start : string) (Hstart : is_Some (gr_nodes g !! start)).

Let reachable : gset string := computeReachability g start.
Let back : list Edge := back_edges g reachable start.
Let ids : list string := dominator_ids g reachable.
Let next (id : string) : list string := e_To <$> skeleton g reachable back id.
Let enqueue (x : string) (q : list string) : list string := q ++ [x].

Lemma ids_elem x : x ∈ ids <-> path es start x.
Proof using Hb Hstart.
  unfold ids, dominator_ids. rewrite list_elem_of_filter, sortedNodeIDs_elem. unfold reachable. rewrite (computeReachability_exact g es Hb).
  split; [tauto|]. intros Hp. split; [done|]. apply rtc_inv_r in Hp as [<-|(y & _ & e & He & _ & <-)]; [done|].
  pose proof (bt_resolved _ _ Hb) as Hr. rewrite Forall_forall in Hr. by apply Hr.
Qed.

Lemma ids_nodup : NoDup ids.
Proof using.
  clear Hb Hstart. apply NoDup_filter. unfold sortedNodeIDs. rewrite sort_Strings_Permutation. apply NoDup_fst_map_to_list.
Qed.

Lemma next_elem x y : x ∈ ids -> y ∈ next x <-> links (forward es back) x y.
Proof using Hb Hstart.
  intros Hx%ids_elem. unfold next, skeleton. rewrite (bt_out _ _ Hb), list_elem_of_fmap. unfold links, forward. split.
  - intros (e & -> & He). apply list_elem_of_filter in He as [[Hk _] He]. apply list_elem_of_filter in He as [Hf He].
    exists e. split_and!; [by apply list_elem_of_filter|done|done].
  - intros (e & He & Hf & <-). apply list_elem_of_filter in He as [Hk He]. exists e. split; [done|].
    apply list_elem_of_filter. split; [split; [done|]|by apply list_elem_of_filter].
    unfold reachable. apply (computeReachability_exact g es Hb). eapply rtc_r; [exact Hx|]. by exists e.
Qed.

Lemma next_closed x y : x ∈ ids -> y ∈ next x -> y ∈ ids.
Proof using Hb Hstart.
  intros Hx Hy. apply (next_elem x y Hx) in Hy as (e & He & Hf & Ht). apply list_elem_of_filter in He as [_ He].
  apply ids_elem in Hx. apply ids_elem. eapply rtc_r; [exact Hx|]. by exists e.
Qed.

Lemma next_acyclic : ~ exists x, x ∈ ids /\ tc (step next) x x.
Proof using Hb Hstart.
  intros (x & Hx & Hc). destruct (back_edges_spec g es start Hb Hstart) as (F & Hnd & HF & Hfwd & _). fold reachable in Hfwd. fold back in Hfwd.
  assert (Hc' : tc (links (forward es back)) x x).
  { assert (Hgen : forall u v, tc (step next) u v -> u ∈ ids -> tc (links (forward es back)) u v); [|by apply Hgen].
    induction 1 as [u v Huv|u v w Huv _ IH]; intros Hu; [constructor; by apply next_elem|].
    eapply tc_l; [by apply next_elem|]. apply IH. by eapply next_closed. }
  apply (before_irrefl F x Hnd). eapply forward_acyclic; [done|exact Hfwd|exact Hc'|]. apply HF. by apply ids_elem.
Qed.

Lemma occ_bind {A} `{EqDecision A} (f : string -> list A) (l : list string) v :
  occ v (x ← l; f x) = sum_list_with (fun u => occ v (f u)) l.
Proof. induction l as [|x l IH]; [done|]. rewrite bind_cons, occ_app, IH. done. Qed.

Lemma zeroes_degree (l : list string) m v : degree m v = 0 -> degree (foldl (fun m id => <[id := 0]> m) m l) v = 0.
Proof.
  revert m. induction l as [|x l IH]; intros m Hm; cbn [foldl]; [done|]. apply IH. rewrite degree_insert. by case_decide.
Qed.

Lemma depth_start : kahn_inv next ids [] (depth_indegrees g reachable back ids)
  (filter (fun id => degree (depth_indegrees g reachable back ids) id = 0) ids) [].
Proof using Hb Hstart.
  apply kahn_start; [apply ids_nodup| |done]. intros v Hv. unfold depth_indegrees.
  rewrite count_in_degree, zeroes_degree, occ_bind by done. unfold pending.
  by rewrite filter_all by (intros; apply not_elem_of_nil).
Qed.

(** Depths grow along the edges of the ordered nodes. *)
Record deepening (depth : gmap string Z) (order : list string) : Prop := {
  dp_edge : forall u v, u ∈ order -> v ∈ next u -> depth_of depth u + 1 <= depth_of depth v;
  dp_bound : forall x, 0 <= depth_of depth x <= Z.of_nat (length order)
}.

Lemma depth_of_insert (m : gmap string Z) x d y : depth_of (<[x := d]> m) y = if decide (x = y) then d else depth_of m y.
Proof. unfold depth_of. rewrite lookup_insert. by case_decide. Qed.

(** The edges of one node: its own depth stands, its targets are deeper, no
    depth falls, and the in-degrees and queue are Kahn's. *)
Lemma depth_visit_spec x l : (forall e, e ∈ l -> e_To e <> x) -> forall depth indeg q b, 0 <= depth_of depth x < b -> b < 2 ^ 32 ->
  (forall y, 0 <= depth_of depth y <= b) ->
  let '(depth', indeg', q') := depth_visit x l depth indeg q in
  (indeg', q') = kahn_visit enqueue (e_To <$> l) indeg q /\ depth_of depth' x = depth_of depth x /\
  (forall y, depth_of depth y <= depth_of depth' y <= b) /\ (forall y, y ∉ e_To <$> l -> depth_of depth' y = depth_of depth y) /\
  (forall e, e ∈ l -> depth_of depth x + 1 <= depth_of depth' (e_To e)).
Proof using.
  induction l as [|e l IH]; intros Hx depth indeg q b Hd Hb32 Hall; cbn [depth_visit fmap list_fmap kahn_visit].
  { split_and!; [done|done|intros y; specialize (Hall y); lia|done|by intros e ?%elem_of_nil]. }
  assert (Hw : to_uint32 (depth_of depth x + 1) = depth_of depth x + 1) by (apply Z.mod_small; lia). rewrite Hw.
  set (depth1 := if depth_of depth (e_To e) <? depth_of depth x + 1 then <[e_To e := depth_of depth x + 1]> depth else depth).
  assert (Hne : e_To e <> x) by (apply Hx; left).
  assert (H1 : forall y, depth_of depth1 y = if decide (e_To e = y) then Z.max (depth_of depth y) (depth_of depth x + 1) else depth_of depth y).
  { intros y. unfold depth1. destruct (Z.ltb_spec (depth_of depth (e_To e)) (depth_of depth x + 1)).
    - rewrite depth_of_insert. case_decide; [subst; lia|done].
    - case_decide; [subst; lia|done]. }
  assert (Hx1 : depth_of depth1 x = depth_of depth x) by (rewrite H1, decide_False; done).
  specialize (IH ltac:(intros d Hd'; apply Hx; by right) depth1 (<[e_To e := degree indeg (e_To e) - 1]> indeg)
    (if degree indeg (e_To e) - 1 =? 0 then q ++ [e_To e] else q) b ltac:(rewrite Hx1; lia) Hb32).
  destruct (depth_visit x l _ _ _) as [[depth' indeg'] q'].
  destruct IH as (I1 & I2 & I3 & I4 & I5).
  { intros y. rewrite H1. specialize (Hall y). case_decide; lia. }
  rewrite Hx1 in I2, I5. split_and!; [done|done| | |].
  - intros y. specialize (I3 y). rewrite H1 in I3. case_decide; lia.
  - intros y [Hy1 Hy2]%not_elem_of_cons. rewrite I4 by done. rewrite H1, decide_False by done. done.
  - intros d [->|Hd']%elem_of_cons; [|by apply I5]. specialize (I3 (e_To e)). rewrite H1, decide_True in I3 by done. lia.
Qed.

Lemma depth_loop_spec n : Z.of_nat (length ids) < 2 ^ 32 -> forall depth indeg q order, (length ids <= n + length order)%nat ->
  kahn_inv next ids [] indeg q order -> deepening depth order ->
  let '(d, o) := depth_loop n g reachable back depth indeg q order in deepening d o /\ o = kahn_loop next enqueue n indeg q order.
Proof using Hb Hstart.
  intros Hsmall. induction n as [|n IH]; intros depth indeg q order Hn Hk Hd; cbn [depth_loop kahn_loop]; [done|].
  destruct q as [|x q]; [done|].
  assert (Hx : x ∈ ids) by (apply (ki_in _ _ _ _ _ _ Hk); set_solver).
  assert (Hxo : x ∉ order).
  { pose proof (ki_nodup _ _ _ _ _ _ Hk) as Hnd. apply NoDup_app in Hnd as (_ & Hdis & _). intros Ho. apply (Hdis x Ho). left. }
  assert (Hlast : forall v, v ∈ order -> v ∉ next x).
  { intros v Hv Hs. apply list_elem_of_split in Hv as (o1 & o2 & E). apply Hxo. rewrite E. apply elem_of_app. left.
    exact (ki_before _ _ _ _ _ _ Hk o1 v o2 E x Hx Hs). }
  assert (Hself : x ∉ next x).
  { intros Hs. apply Hxo. assert (Hz : degree indeg x = 0) by (apply (ki_free _ _ _ _ _ _ Hk x Hx); set_solver).
    rewrite (ki_degree _ _ _ _ _ _ Hk x Hx) in Hz. by apply (pending_zero next ids order x); [lia|..]. }
  assert (Hlen : (length order + 1 <= length ids)%nat).
  { pose proof (submseteq_length _ _ (NoDup_submseteq _ ids (ki_nodup _ _ _ _ _ _ Hk) (ki_in _ _ _ _ _ _ Hk))) as Hl.
    rewrite length_app in Hl. cbn in Hl. lia. }
  assert (Hpop := kahn_pop_inv next enqueue ids ltac:(intros; unfold enqueue; by rewrite Permutation_app_comm) ids_nodup next_closed _ _ _ _ Hk).
  assert (Hins := kahn_visit_inv next enqueue ids ltac:(intros; unfold enqueue; by rewrite Permutation_app_comm) ids_nodup next_closed
    (next x) indeg q (order ++ [x]) ltac:(intros y Hy; by eapply next_closed) Hpop).
  pose proof (depth_visit_spec x (skeleton g reachable back x)
    ltac:(intros e He Ht; apply Hself; apply list_elem_of_fmap; by exists e) depth indeg q (Z.of_nat (length order) + 1)
    ltac:(pose proof (dp_bound _ _ Hd x); lia) ltac:(lia) ltac:(intros y; pose proof (dp_bound _ _ Hd y); lia)) as Hv.
  destruct (depth_visit x _ depth indeg q) as [[depth' indeg'] q']. destruct Hv as (V1 & V2 & V3 & V4 & V5).
  fold (next x) in V1. rewrite <- V1 in Hins |- *. apply IH; [rewrite length_app; cbn; lia|exact Hins|]. split.
  - intros u v [Hu| ->%list_elem_of_singleton]%elem_of_app Huv.
    + rewrite (V4 u) by (by apply Hlast). pose proof (dp_edge _ _ Hd u v Hu Huv). specialize (V3 v). lia.
    + rewrite V2. apply list_elem_of_fmap in Huv as (e & -> & He). by apply V5.
  - intros y. specialize (V3 y). pose proof (dp_bound _ _ Hd y). rewrite length_app. cbn. lia.
Qed.

(** The order is a topological order of the reachable nodes. *)
Lemma computeDepth_spec : Z.of_nat (length ids) < 2 ^ 32 ->
  let '(depth, order) := computeDepth g reachable back in
  kahn_result next ids order /\ (forall x, x ∈ order <-> path es start x) /\ deepening depth order.
Proof using Hb Hstart.
  intros Hsmall. unfold computeDepth. fold ids.
  pose proof (depth_loop_spec (length ids) Hsmall ∅ _ _ [] ltac:(cbn; lia) depth_start) as Hl.
  destruct (depth_loop _ g reachable back ∅ _ _ []) as [d o]. destruct Hl as [Hd Ho].
  { split; [by intros u v ?%elem_of_nil|]. intros x. unfold depth_of. rewrite lookup_empty. cbn. lia. }
  assert (Hr : kahn_result next ids o).
  { rewrite Ho. apply kahn_loop_result;
      [intros; unfold enqueue; by rewrite Permutation_app_comm|apply ids_nodup|apply next_closed|cbn; lia|apply depth_start]. }
  split_and!; [done| |done]. intros x. rewrite <- ids_elem. split; [apply (kr_in _ _ _ Hr)|].
  assert (HP : o ≡ₚ ids); [|by rewrite HP].
  apply submseteq_length_Permutation; [apply NoDup_submseteq; apply Hr|].
  rewrite (proj2 (kahn_complete _ _ ids_nodup next_closed o Hr) next_acyclic). done.
Qed.

End order.

(** * Declared cycles *)

Lemma reach_edges_spec to ys stack seen : reach_edges to ys stack seen =
  if decide (to ∈ ys) then None else Some (push_unseen ys stack seen).
Proof.
  revert stack seen. induction ys as [|y ys IH]; intros stack seen; cbn [reach_edges push_unseen].
  { by rewrite decide_False by apply not_elem_of_nil. }
  destruct (String.eqb_spec y to) as [->|Hne]; [by rewrite decide_True by left|].
  destruct (decide (to ∈ ys)) as [Ht|Ht].
  - rewrite decide_True by (by right). case_bool_decide; rewrite IH; by destruct (decide (to ∈ ys)).
  - rewrite decide_False by (apply not_elem_of_cons; auto).
    destruct (decide (y ∈ seen)); [rewrite bool_decide_true by done|rewrite bool_decide_false by done]; rewrite IH; by destruct (decide (to ∈ ys)).
Qed.

Lemma push_unseen_seen (ys stack : list string) seen y : y ∈ (push_unseen ys stack seen).2 <-> y ∈ seen \/ y ∈ ys.
Proof.
  revert stack seen. induction ys as [|z ys IH]; intros stack seen; cbn [push_unseen]; [set_solver|].
  destruct (decide (z ∈ seen)); rewrite IH; set_solver.
Qed.

Lemma dfs_push_mono (succ : string -> list string) n stack seen : seen ⊆ dfs_push succ n stack seen.
Proof.
  revert stack seen. induction n as [|n IH]; intros stack seen; [done|]. destruct stack as [|x rest]; [done|]. cbn [dfs_push].
  pose proof (push_unseen_seen (succ x) rest seen) as Hp. destruct (push_unseen _ _ _) as [st se]. etrans; [|apply IH].
  intros y Hy. apply Hp. by left.
Qed.

Lemma reach_loop_spec g to n stack seen : to ∉ seen ->
  reach_loop n g to stack seen = true <-> to ∈ dfs_push (successors g) n stack seen.
Proof.
  revert stack seen. induction n as [|n IH]; intros stack seen Hs; [done|]. destruct stack as [|x rest]; [done|].
  cbn [reach_loop dfs_push]. rewrite reach_edges_spec. pose proof (push_unseen_seen (successors g x) rest seen to) as Hp.
  destruct (push_unseen _ _ _) as [st se]. cbn [snd] in Hp. destruct (decide (to ∈ successors g x)) as [Ht|Ht].
  - split; [intros _|done]. apply dfs_push_mono. tauto.
  - apply IH. tauto.
Qed.

Lemma reaches_exact g es x y : built g es -> reaches g x y = true <-> path es x y.
Proof.
  intros Hb. unfold reaches. destruct (String.eqb_spec x y) as [->|Hne]; [split; [constructor|done]|].
  rewrite reach_loop_spec by set_solver.
  pose proof (dfs_push_exact (successors g) ((fun e => (e_From e, e_To e)) <$> es)) as He.
  assert (Hx : {[x]} = (list_to_set [x] : gset string)) by set_solver. rewrite Hx, He; clear He Hx.
  - unfold reachable_from. setoid_rewrite list_elem_of_singleton. setoid_rewrite (rtc_links_successors g es Hb). naive_solver.
  - intros u. split.
    + unfold successors. rewrite (bt_out _ _ Hb). apply fmap_filter_length.
    + intros v (e & He & <- & <-)%(successors_links g es Hb). apply list_elem_of_fmap. by exists e.
  - rewrite length_fmap, (bt_count _ _ Hb). cbn. lia.
Qed.

(** The declaration that admits a back edge. *)
Definition declared_loop (def : WorkflowDefinition) (es : list Edge) (e : Edge) : Prop :=
  exists decl guard, decl ∈ li_DeclaredCycles (df_Limits def) /\ cy_EntryNodeID decl = e_To e /\ cy_MaxIterations decl <> 0 /\
    nodeIndex def !! cy_GuardNodeID decl = Some guard /\ nd_Type guard = StepDecision /\
    path es (e_To e) (cy_GuardNodeID decl) /\ path es (cy_GuardNodeID decl) (e_From e).

Lemma check_cycle_declared g def es e : built g es -> gr_nodes g = nodeIndex def -> check_cycle g def e = [] -> declared_loop def es e.
Proof.
  intros Hb Hn. unfold check_cycle, declaredCycle. rewrite Hn. destruct (List.find _ _) as [decl|] eqn:Ef; [|done].
  apply find_some in Ef as [Hin He]. apply String.eqb_eq in He.
  intros [Hm%report_if_nil Hg]%app_nil. apply Z.eqb_neq in Hm. destruct (nodeIndex def !! _) as [guard|] eqn:Eg; [|done].
  destruct (String.eqb_spec (nd_Type guard) StepDecision) as [Ht|]; [|done]. cbn [negb] in Hg.
  apply report_if_nil, orb_false_iff in Hg as [H1%negb_false_iff H2%negb_false_iff].
  exists decl, guard. rewrite <- !(reaches_exact g es) by done. split_and!; try done. by apply list_elem_of_In.
Qed.

(** C28: Cycle detection is exact.  The edges the depth-first walk records as
    back edges each close a cycle reachable from the start, and once they are
    removed no reachable cycle is left; so there are none exactly when no
    cycle can be reached.  When the analysis reports nothing, every back edge
    belongs to a declared cycle with a positive iteration bound whose guard is
    a DECISION on that cycle. *)
Theorem cycles_exact (def : WorkflowDefinition) (Hs : is_Some (nodeIndex def !! df_StartNodeID def)) :
  let back := an_backEdges (analyzeGraph def).1 in
  let es := kept (nodeIndex def) (df_Edges def) in
  let start := df_StartNodeID def in
  (forall e, e ∈ back -> e ∈ es /\ path es start (e_From e) /\ path es (e_To e) (e_From e)) /\
  (~ exists x, path es start x /\ tc (links (forward es back)) x x) /\
  (back = [] <-> ~ exists x, path es start x /\ tc (links es) x x) /\
  ((analyzeGraph def).2 = [] -> forall e, e ∈ back -> declared_loop def es e).
Proof.
  destruct (analyze_built def) as [Hb Hn]. destruct (analyze_start def Hs) as [Hr _ Hk _ _ Hd]. cbv zeta.
  destruct (back_edges_spec (an_graph (analyzeGraph def).1) _ (df_StartNodeID def) Hb) as (F & Hnd & HF & Hfwd & Hback); [by rewrite Hn|].
  rewrite <- Hr, <- Hk in Hfwd, Hback.
  assert (Hacy : ~ exists x, path (kept (nodeIndex def) (df_Edges def)) (df_StartNodeID def) x /\
    tc (links (forward (kept (nodeIndex def) (df_Edges def)) (an_backEdges (analyzeGraph def).1))) x x).
  { intros (x & Hx & Hc). apply (before_irrefl F x Hnd). eapply forward_acyclic; [done|exact Hfwd|exact Hc|by apply HF]. }
  split_and!; [exact Hback|exact Hacy| |].
  - split.
    + intros E. rewrite E in Hacy. unfold forward in Hacy.
      by rewrite filter_all in Hacy by (intros; apply not_elem_of_nil).
    + intros Hno. destruct (an_backEdges (analyzeGraph def).1) as [|e l]; [done|]. exfalso. apply Hno.
      destruct (Hback e) as (He & Hp & Hc); [left|]. exists (e_From e). split; [done|].
      eapply tc_rtc_r; [|exact Hc]. apply tc_once. by exists e.
  - intros Hnil e He. rewrite Hnil in Hd. symmetry in Hd. do 3 apply app_nil in Hd as [_ Hd]. apply app_nil in Hd as [Hd _].
    unfold checkCycles in Hd. rewrite bind_nil in Hd. by eapply check_cycle_declared; [exact Hb|exact Hn|apply Hd].
Qed.

Lemma cycles_exact_witness : declared_loop retry_definition (kept (nodeIndex retry_definition) (df_Edges retry_definition)) (mkEdge "gate" "read" "again").
Proof.
  apply (proj2 (proj2 (proj2 (cycles_exact retry_definition retry_start))) retry_passes).
  vm_compute. left.
Defined.

Lemma checkDepth_bounds def depth order : check_depth def depth order = [] -> 0 < li_MaxDepth (df_Limits def) ->
  forall x, x ∈ order -> depth_of depth x <= li_MaxDepth (df_Limits def).
Proof.
  unfold check_depth. intros Hd Hm x Hx. rewrite (proj2 (Z.ltb_lt _ _) Hm), bind_nil in Hd. specialize (Hd x Hx).
  apply report_if_nil, Z.ltb_ge in Hd. lia.
Qed.

Lemma dominator_ids_length g r : (length (dominator_ids g r) <= size (gr_nodes g))%nat.
Proof.
  unfold dominator_ids, sortedNodeIDs. etrans; [apply length_filter|].
  by rewrite sort_Strings_Permutation, length_fmap, length_map_to_list.
Qed.

(** The depths of an analysed definition. *)
Lemma analysed_depth def : is_Some (nodeIndex def !! df_StartNodeID def) -> Z.of_nat (size (nodeIndex def)) < 2 ^ 32 ->
  let a := (analyzeGraph def).1 in
  let es := kept (nodeIndex def) (df_Edges def) in
  let start := df_StartNodeID def in
  NoDup (an_order a) /\ (forall x, x ∈ an_order a <-> path es start x) /\
  (forall o1 v o2, an_order a = o1 ++ v :: o2 -> forall u, path es start u -> links (forward es (an_backEdges a)) u v -> u ∈ o1) /\
  (forall u v, path es start u -> links (forward es (an_backEdges a)) u v -> depth_of (an_depth a) u + 1 <= depth_of (an_depth a) v) /\
  (forall x, 0 <= depth_of (an_depth a) x) /\
  (0 <= li_MaxDepth (df_Limits def) -> (analyzeGraph def).2 = [] ->
     forall x, path es start x -> depth_of (an_depth a) x <= li_MaxDepth (df_Limits def)).
Proof.
  intros Hs Hsize. destruct (analyze_built def) as [Hb Hn]. destruct (analyze_start def Hs) as [Hr _ Hk _ Ho Hd]. cbv zeta. rewrite <- Hn in Hs, Hsize.
  set (a := (analyzeGraph def).1) in *. set (g := an_graph a) in *.
  pose proof (computeDepth_spec g _ Hb (df_StartNodeID def) Hs) as Hspec. cbv zeta in Hspec. rewrite <- Hr, <- Hk, Ho in Hspec.
  destruct Hspec as (Hkahn & Hord & Hdeep). { pose proof (dominator_ids_length g (an_reachable a)). lia. }
  assert (Hids := ids_elem g _ Hb (df_StartNodeID def) Hs). assert (Hnext := next_elem g _ Hb (df_StartNodeID def) Hs).
  cbv zeta in Hids, Hnext. rewrite <- Hr in Hids, Hnext. rewrite <- Hk in Hnext. split_and!.
  - apply Hkahn.
  - exact Hord.
  - intros o1 v o2 E u Hu Huv. apply (kr_before _ _ _ Hkahn o1 v o2 E u); [by apply Hids|]. by apply Hnext; [apply Hids|].
  - intros u v Hu Huv. apply (dp_edge _ _ _ _ Hdeep); [by apply Hord|]. rewrite <- Hr, <- Hk. apply Hnext; [by apply Hids|done].
  - intros x. pose proof (dp_bound _ _ _ _ Hdeep x). lia.
  - intros Hmax Hnil x Hx. rewrite Hnil in Hd. symmetry in Hd. do 2 apply app_nil in Hd as [_ Hd]. apply app_nil in Hd as [Hlim Hd].
    apply app_nil in Hd as [_ Hd]. apply app_nil in Hd as [Hdepth _].
    unfold checkLimits in Hlim. apply app_nil in Hlim as [_ Hlim]. apply app_nil in Hlim as [Hz%report_if_nil%Z.eqb_neq _].
    apply (checkDepth_bounds def _ _ Hdepth ltac:(lia)). by apply Hord.
Qed.

(** The evaluation order is topological and the depth limit bounds every
    path.  The order lists each node reachable from the start once; the source
    of an edge that is not a back edge stands before its target.  When the
    analysis reports nothing, no sequence of such edges from the start is
    longer than the declared maximum depth. *)
Theorem depth_order_exact (def : WorkflowDefinition) (Hs : is_Some (nodeIndex def !! df_StartNodeID def))
    (Hsize : Z.of_nat (size (nodeIndex def)) < 2 ^ 32) (Hmax : 0 <= li_MaxDepth (df_Limits def)) :
  let a := (analyzeGraph def).1 in
  let es := kept (nodeIndex def) (df_Edges def) in
  let start := df_StartNodeID def in
  NoDup (an_order a) /\ (forall x, x ∈ an_order a <-> path es start x) /\
  (forall o1 v o2, an_order a = o1 ++ v :: o2 -> forall u, path es start u -> links (forward es (an_backEdges a)) u v -> u ∈ o1) /\
  ((analyzeGraph def).2 = [] -> forall k x, nsteps (links (forward es (an_backEdges a))) k start x ->
     Z.of_nat k <= li_MaxDepth (df_Limits def)).
Proof.
  destruct (analysed_depth def Hs Hsize) as (Hnd & Hord & Hbef & Hedge & Hpos & Hbound). cbv zeta in *. split_and!; [done|done|done|].
  intros Hnil k x Hk.
  assert (Hwalk : path (kept (nodeIndex def) (df_Edges def)) (df_StartNodeID def) x /\ Z.of_nat k <= depth_of (an_depth (analyzeGraph def).1) x).
  { clear Hnil. revert x Hk. induction k as [|k IH]; intros x Hk; [inversion_clear Hk; split; [constructor|apply Hpos]|].
    apply nsteps_inv_r in Hk as (y & Hk & Hyx). destruct (IH y Hk) as [Hp Hd]. specialize (Hedge y x Hp Hyx). split; [|lia].
    eapply rtc_r; [exact Hp|]. destruct Hyx as (e & He & Hl). exists e. split; [|done]. by apply list_elem_of_filter in He as []. }
  destruct Hwalk as [Hp Hd]. specialize (Hbound Hmax Hnil x Hp). lia.
Qed.

Lemma depth_order_exact_witness : Z.of_nat 1 <= 4.
Proof.
  refine (proj2 (proj2 (proj2 (depth_order_exact retry_definition retry_start _ _))) retry_passes 1%nat "gate" _).
  - vm_compute. reflexivity.
  - vm_compute. discriminate.
  - apply nsteps_once. exists (mkEdge "read" "gate" OutcomeSucceeded). split; [|split; reflexivity].
    apply list_elem_of_filter. split; [apply (bool_decide_unpack _)|apply (bool_decide_unpack _)]; vm_compute; exact I.
Defined.
