(* ===== verification/WorkflowDominators.v ===== *)
(** The dominator fixpoint of the graph analysis ([computeDominators] of
    [internal/workflow/graph.go]) computes domination on every path from the
    start.  The iteration starts from the full sets and shrinks them, so it
    stops within the square of the number of nodes. *)

From stdpp Require Import sorting relations.
From S2P Require Import Prelude Sorting Graphs LifecycleRules WorkflowPlan WorkflowGraph WorkflowGraphFacts WorkflowCycles.

(** A walk from [start] to [x], last node first. *)
Inductive walk_to (es : list Edge) (start : string) : string -> list string -> Prop :=
  | walk_here : walk_to es start start [start]
  | walk_on x y p : walk_to es start x p -> links es x y -> walk_to es start y (y :: p).

(** [d] lies on every walk from [start] to [x]. *)
Definition on_every_walk (es : list Edge) (start d x : string) : Prop := forall p, walk_to es start x p -> d ∈ p.

Lemma walk_exists es start x : path es start x -> exists p, walk_to es start x p.
Proof.
  revert x. apply rtc_ind_r; [eexists; constructor|]. intros y z _ Hyz [p Hp]. eexists. by econstructor.
Qed.

Lemma walk_path es start x p : walk_to es start x p -> path es start x /\ forall y, y ∈ p -> path es start y.
Proof.
  induction 1 as [|x y p Hw [IH1 IH2] Hl]; [split; [constructor|intros y ->%list_elem_of_singleton; constructor]|].
  assert (path es start y) by (by eapply rtc_r). split; [done|]. intros z [->|Hz]%elem_of_cons; auto.
Qed.

Definition doms_at (doms : gmap string (gset string)) (id : string) : gset string := default ∅ (doms !! id).

Lemma doms_at_insert doms x s y : doms_at (<[x := s]> doms) y = if decide (x = y) then s else doms_at doms y.
Proof. unfold doms_at. rewrite lookup_insert. by case_decide. Qed.

Lemma sameSet_eq (a b : gset string) : sameSet a b = true <-> a = b.
Proof.
  unfold sameSet. rewrite andb_true_iff, Nat.eqb_eq, bool_decide_eq_true. split.
  - intros [Hs Hf]. apply set_eq. assert (a ⊆ b) by (intros x Hx; by apply Hf). assert (a ≡ b); [|set_solver].
    apply set_subseteq_size_equiv; [done|lia].
  - intros ->. split; [done|]. by intros x Hx.
Qed.

Section dominators.
Context (g : graph) (es : list Edge) (Hb : built g es) (start : string) (Hstart : is_Some (gr_nodes g !! start)).

Let reachable : gset string := computeReachability g start.
Let ids : list string := dominator_ids g reachable.

(** The meet: what all reachable predecessors agree on. *)
Lemma meet_Some doms l s0 : exists s, meet reachable doms l (Some s0) = Some s /\
  forall d, d ∈ s <-> d ∈ s0 /\ forall e, e ∈ l -> e_From e ∈ reachable -> d ∈ doms_at doms (e_From e).
Proof using.
  clear Hb Hstart. revert s0. induction l as [|e l IH]; intros s0; cbn [meet].
  { exists s0. split; [done|]. intros d. split; [intros Hd; split; [done|by intros e ?%elem_of_nil]|tauto]. }
  destruct (decide (e_From e ∈ reachable)) as [Hr|Hr].
  - rewrite bool_decide_true by done. cbn [negb]. destruct (IH (s0 ∩ default ∅ (doms !! e_From e))) as (s & -> & Hs).
    exists s. split; [done|]. intros d. rewrite Hs, elem_of_intersection. fold (doms_at doms (e_From e)). split.
    + intros [[H1 H3] H2]. split; [done|]. intros d' [->|Hd']%elem_of_cons; auto.
    + intros [H1 H2]. split_and!; [done|by apply H2; [left|]|]. intros d' Hd'. apply H2. by right.
  - rewrite bool_decide_false by done. cbn [negb]. destruct (IH s0) as (s & -> & Hs). exists s. split; [done|]. intros d. rewrite Hs.
    split; intros [H1 H2]; (split; [done|]); intros d' Hd'; [|apply H2; by right]. apply elem_of_cons in Hd' as [->|Hd']; [done|by apply H2].
Qed.

Lemma meet_none doms l : (forall e, e ∈ l -> e_From e ∉ reachable) \/
  (exists e, e ∈ l /\ e_From e ∈ reachable) /\ forall d, d ∈ default ∅ (meet reachable doms l None) <->
    forall e, e ∈ l -> e_From e ∈ reachable -> d ∈ doms_at doms (e_From e).
Proof using.
  clear Hb Hstart. induction l as [|e l IH]; [left; by intros e ?%elem_of_nil|]. cbn [meet].
  destruct (decide (e_From e ∈ reachable)) as [Hr|Hr].
  - rewrite bool_decide_true by done. cbn [negb]. right. split; [exists e; split; [left|done]|]. intros d.
    destruct (meet_Some doms l (default ∅ (doms !! e_From e))) as (s & -> & Hm). cbn [default].
    rewrite Hm. fold (doms_at doms (e_From e)). split.
    + intros [H1 H2] d' [->|Hd']%elem_of_cons; auto.
    + intros H. split; [by apply H; [left|]|]. intros d' Hd'. apply H. by right.
  - rewrite bool_decide_false by done. cbn [negb]. destruct IH as [IH|[(d' & Hd' & Hr') IH]].
    + left. intros d' [->|Hd']%elem_of_cons; auto.
    + right. split; [exists d'; split; [by right|done]|]. intros d. rewrite IH. split; intros H d2 Hd2.
      * apply elem_of_cons in Hd2 as [->|Hd2]; [done|by apply H].
      * apply H. by right.
Qed.

(** The transfer function, for a reachable node other than the start. *)
Lemma transfer_elem doms x d : path es start x -> x <> start ->
  d ∈ transfer g reachable doms x <-> d = x \/ forall y, path es start y -> links es y x -> d ∈ doms_at doms y.
Proof using Hb.
  intros Hp Hne. unfold transfer. rewrite elem_of_union, elem_of_singleton. apply or_iff_compat_l.
  assert (Hin : forall e, e ∈ edges_to g x <-> e ∈ es /\ e_To e = x) by (intros e; rewrite (bt_in _ _ Hb), list_elem_of_filter; tauto).
  assert (Hreach : forall y, y ∈ reachable <-> path es start y) by (intros y; by apply computeReachability_exact).
  destruct (meet_none doms (edges_to g x)) as [Hnone|[_ Hm]].
  - exfalso. apply rtc_inv_r in Hp as [<-|(y & Hy & e & He & <- & <-)]; [done|]. apply (Hnone e); [by apply Hin|by apply Hreach].
  - rewrite Hm. split.
    + intros H y Hy (e & He & <- & <-). apply H; [by apply Hin|by apply Hreach].
    + intros H e [He <-]%Hin Hr%Hreach. apply H; [done|by exists e].
Qed.

Lemma ids_path x : x ∈ ids <-> path es start x.
Proof using Hb Hstart. by apply (ids_elem g es Hb start Hstart). Qed.

(** The iteration descends from above: every set contains the true dominators
    and its own transfer, and is a set of reachable nodes. *)
Record descending (doms : gmap string (gset string)) : Prop := {
  de_start : doms_at doms start = {[start]};
  de_ids : forall x, x ∈ ids -> doms_at doms x ⊆ list_to_set ids;
  de_above : forall x d, x ∈ ids -> on_every_walk es start d x -> d ∈ doms_at doms x;
  de_post : forall x, x ∈ ids -> x <> start -> transfer g reachable doms x ⊆ doms_at doms x
}.

Lemma on_every_walk_back d x y : on_every_walk es start d x -> d <> x -> links es y x -> on_every_walk es start d y.
Proof. intros Hd Hne Hl p Hp. specialize (Hd (x :: p) ltac:(by econstructor)). by apply elem_of_cons in Hd as [->|]. Qed.

(** Replacing a set by its transfer keeps the invariant. *)
Lemma descending_update doms x : x ∈ ids -> x <> start -> descending doms ->
  descending (<[x := transfer g reachable doms x]> doms).
Proof using Hb Hstart.
  intros Hx Hne [D1 D2 D3 D4]. assert (Hxp := proj1 (ids_path x) Hx). split.
  - by rewrite doms_at_insert, decide_False.
  - intros y Hy. rewrite doms_at_insert. case_decide as E; [subst; etrans; [by apply D4|by apply D2]|by apply D2].
  - intros y d Hy Hd. rewrite doms_at_insert. case_decide as E; [subst y|by apply D3]. apply transfer_elem; [done|done|].
    destruct (decide (d = x)) as [|Hdx]; [by left|right]. intros z Hz Hl. apply D3; [by apply ids_path|]. by eapply on_every_walk_back.
  - assert (Hmono : forall y, y ∈ ids -> y <> start ->
      transfer g reachable (<[x := transfer g reachable doms x]> doms) y ⊆ transfer g reachable doms y).
    { intros y Hy Hys d. rewrite !transfer_elem by (try apply ids_path; done). intros [->|Hd]; [by left|right].
      intros z Hz Hl. specialize (Hd z Hz Hl). rewrite doms_at_insert in Hd. case_decide; [subst; by apply D4|done]. }
    intros y Hy Hys. rewrite doms_at_insert. case_decide as E; [subst y; by apply Hmono|]. etrans; [by apply Hmono|by apply D4].
Qed.

Definition weight (doms : gmap string (gset string)) : nat := sum_list_with (fun id => size (doms_at doms id)) ids.

Lemma weight_update doms x s : x ∈ ids -> (size s < size (doms_at doms x))%nat -> (weight (<[x := s]> doms) < weight doms)%nat.
Proof using.
  unfold weight. pose proof (ids_nodup g start) as Hnd. cbv zeta in Hnd. fold reachable in Hnd. fold ids in Hnd. revert Hnd.
  clear Hb Hstart. intros Hnd Hx Hs. revert Hnd Hx. generalize ids as l. induction l as [|y l IH]; intros Hnd Hx; [by apply elem_of_nil in Hx|].
  apply NoDup_cons in Hnd as [Hy Hnd]. cbn [sum_list_with]. rewrite doms_at_insert. apply elem_of_cons in Hx as [<-|Hx].
  - rewrite decide_True by done.
    assert (Heq : sum_list_with (fun id => size (doms_at (<[x := s]> doms) id)) l = sum_list_with (fun id => size (doms_at doms id)) l).
    { clear IH Hnd. induction l as [|z l IHl]; [done|]. cbn. rewrite doms_at_insert, decide_False by set_solver. rewrite IHl by set_solver. done. }
    lia.
  - rewrite decide_False by (by intros ->). specialize (IH Hnd Hx). lia.
Qed.

Definition stable (doms : gmap string (gset string)) (l : list string) : Prop :=
  forall x, x ∈ l -> x <> start -> transfer g reachable doms x = doms_at doms x.

(** A pass keeps the invariant; it reports a change exactly when some set
    shrank. *)
Lemma dominator_pass_spec l : (forall x, x ∈ l -> x ∈ ids) -> forall doms changed, descending doms ->
  let '(doms', c) := dominator_pass g reachable start l doms changed in
  descending doms' /\ (weight doms' <= weight doms)%nat /\
  if c then changed = true \/ (weight doms' < weight doms)%nat else changed = false /\ doms' = doms /\ stable doms l.
Proof using Hb Hstart.
  induction l as [|x l IH]; intros Hl doms changed Hd; cbn [dominator_pass].
  { split_and!; [done|done|]. destruct changed; [by left|]. split_and!; [done|done|by intros x ?%elem_of_nil]. }
  assert (Hl' : forall y, y ∈ l -> y ∈ ids) by (intros y Hy; apply Hl; by right).
  destruct (String.eqb_spec x start) as [->|Hne].
  - specialize (IH Hl' doms changed Hd). destruct (dominator_pass _ _ _ _ _ _) as [d c]. destruct IH as (I1 & I2 & I3).
    split_and!; [done|done|]. destruct c; [done|]. destruct I3 as (-> & -> & Hst). split_and!; [done|done|].
    intros y [->|Hy]%elem_of_cons; [done|by apply Hst].
  - assert (Hx : x ∈ ids) by (apply Hl; left). fold (doms_at doms x).
    destruct (sameSet (transfer g reachable doms x) (doms_at doms x)) eqn:E; cbn [negb].
    + apply sameSet_eq in E. specialize (IH Hl' doms changed Hd). destruct (dominator_pass _ _ _ _ _ _) as [d c]. destruct IH as (I1 & I2 & I3).
      split_and!; [done|done|]. destruct c; [done|]. destruct I3 as (-> & -> & Hst). split_and!; [done|done|].
      intros y [->|Hy]%elem_of_cons; [done|by apply Hst].
    + specialize (IH Hl' (<[x := transfer g reachable doms x]> doms) true (descending_update _ _ Hx Hne Hd)).
      destruct (dominator_pass _ _ _ _ _ _) as [d c]. destruct IH as (I1 & I2 & I3).
      assert (Hlt : (weight (<[x := transfer g reachable doms x]> doms) < weight doms)%nat).
      { apply weight_update; [done|]. apply subset_size. split; [by apply Hd|]. intros Hsub.
        assert (Heq : transfer g reachable doms x = doms_at doms x) by (apply set_eq; pose proof (de_post _ Hd x Hx Hne); set_solver).
        apply sameSet_eq in Heq. congruence. }
      split_and!; [done|lia|]. destruct c; [right; lia|by destruct I3].
Qed.

Lemma dominator_loop_spec n : forall doms, (weight doms < n)%nat -> descending doms ->
  descending (dominator_loop n g reachable start ids doms) /\ stable (dominator_loop n g reachable start ids doms) ids.
Proof using Hb Hstart.
  induction n as [|n IH]; intros doms Hn Hd; [lia|]. cbn [dominator_loop].
  pose proof (dominator_pass_spec ids (fun _ H => H) doms false Hd) as Hp.
  destruct (dominator_pass _ _ _ _ _ _) as [d c]. destruct Hp as (P1 & P2 & P3). destruct c.
  - apply IH; [|done]. destruct P3 as [|]; [done|lia].
  - destruct P3 as (_ & -> & Hst). done.
Qed.

Lemma initial_lookup l (h : string -> gset string) m x :
  doms_at (foldl (fun m id => <[id := h id]> m) m l) x = if decide (x ∈ l) then h x else doms_at m x.
Proof.
  revert m. induction l as [|y l IH]; intros m; cbn [foldl]; [by rewrite decide_False by apply not_elem_of_nil|].
  rewrite IH, doms_at_insert. destruct (decide (x ∈ l)) as [Hx|Hx]; [by rewrite decide_True by (by right)|].
  case_decide as E; [subst; by rewrite decide_True by left|]. rewrite decide_False; [done|]. apply not_elem_of_cons. auto.
Qed.

Lemma initial_at x : x ∈ ids -> doms_at (initial_dominators start ids) x = if String.eqb x start then {[start]} else list_to_set ids.
Proof using. clear Hb Hstart. intros Hx. unfold initial_dominators. by rewrite initial_lookup, decide_True. Qed.

Lemma initial_descending : descending (initial_dominators start ids).
Proof using Hb Hstart.
  assert (Hs : start ∈ ids) by (apply ids_path; constructor).
  assert (Hsub : forall x, x ∈ ids -> doms_at (initial_dominators start ids) x ⊆ list_to_set ids).
  { intros x Hx. rewrite initial_at by done. destruct (String.eqb_spec x start); [|done].
    intros y ->%elem_of_singleton. by apply elem_of_list_to_set. }
  split.
  - by rewrite initial_at, String.eqb_refl.
  - exact Hsub.
  - intros x d Hx Hd. rewrite initial_at by done. destruct (String.eqb_spec x start) as [->|Hne].
    + specialize (Hd [start] (walk_here _ _)). apply elem_of_singleton. by apply list_elem_of_singleton in Hd.
    + apply elem_of_list_to_set, ids_path. apply ids_path in Hx as Hp. destruct (walk_exists _ _ _ Hp) as [p Hw].
      apply (walk_path _ _ _ _ Hw). by apply Hd.
  - intros x Hx Hne d. apply ids_path in Hx as Hp. rewrite (initial_at x Hx), (proj2 (String.eqb_neq x start) Hne).
    rewrite transfer_elem by done. intros [->|Hd]; [by apply elem_of_list_to_set|].
    apply rtc_inv_r in Hp as [<-|(y & Hy & Hl)]; [done|]. apply (Hsub y); [by apply ids_path|]. by apply Hd.
Qed.

Lemma initial_weight : (weight (initial_dominators start ids) <= length ids * length ids)%nat.
Proof using.
  clear Hb Hstart. unfold weight.
  assert (Hle : forall l, (forall x, x ∈ l -> x ∈ ids) ->
    (sum_list_with (fun id => size (doms_at (initial_dominators start ids) id)) l <= length l * length ids)%nat).
  { induction l as [|x l IH]; intros Hl; [done|]. cbn [sum_list_with length]. specialize (IH ltac:(intros y Hy; apply Hl; by right)).
    assert (Hx : x ∈ ids) by (apply Hl; left). assert (Hsz : (size (doms_at (initial_dominators start ids) x) <= length ids)%nat); [|lia].
    rewrite initial_at by done. destruct (String.eqb x start).
    - rewrite size_singleton. destruct ids; [by apply elem_of_nil in Hx|cbn; lia].
    - rewrite size_list_to_set; [done|apply (ids_nodup g start)]. }
  by apply Hle.
Qed.

(** At the fixpoint a set holds exactly the nodes on every walk. *)
Lemma stable_exact doms : descending doms -> stable doms ids -> forall x d, x ∈ ids -> d ∈ doms_at doms x <-> on_every_walk es start d x.
Proof using Hb Hstart.
  intros Hd Hst x d Hx. split; [|by apply (de_above _ Hd)]. intros Hin p Hw. revert Hin. clear Hx.
  induction Hw as [|x y p Hw IH Hl]; intros Hin.
  - rewrite (de_start _ Hd) in Hin. apply elem_of_singleton in Hin as ->. left.
  - destruct (walk_path _ _ _ _ Hw) as [Hp _]. assert (Hy : path es start y) by (by eapply rtc_r).
    destruct (decide (y = start)) as [->|Hne].
    + rewrite (de_start _ Hd) in Hin. apply elem_of_singleton in Hin as ->. left.
    + rewrite <- (Hst y) in Hin by (try apply ids_path; done). apply transfer_elem in Hin as [->|Hin]; [left| |done|done].
      right. apply IH. by apply Hin.
Qed.

Lemma computeDominators_exact x d : path es start x ->
  d ∈ doms_at (computeDominators g reachable start) x <-> on_every_walk es start d x.
Proof using Hb Hstart.
  intros Hx%ids_path. unfold computeDominators. fold ids. pose proof initial_weight.
  destruct (dominator_loop_spec (1 + length ids * length ids) (initial_dominators start ids) ltac:(lia) initial_descending) as [Hd Hst].
  by apply stable_exact.
Qed.

End dominators.

(** C15: The dominator fixpoint is exact.  For every node reachable from the
    declared start, the set the analysis stores holds exactly the nodes that
    lie on every walk from the start to it, and [dominates] answers whether a
    different node does; the iteration always reaches the fixpoint. *)
Theorem dominators_exact (def : WorkflowDefinition) (Hs : is_Some (nodeIndex def !! df_StartNodeID def)) (x : string)
    (Hx : path (kept (nodeIndex def) (df_Edges def)) (df_StartNodeID def) x) :
  let doms := an_dominators (analyzeGraph def).1 in
  let es := kept (nodeIndex def) (df_Edges def) in
  (forall d, d ∈ doms_at doms x <-> on_every_walk es (df_StartNodeID def) d x) /\
  (forall d, dominates doms d x = true <-> d <> x /\ on_every_walk es (df_StartNodeID def) d x).
Proof.
  destruct (analyze_built def) as [Hb Hn]. destruct (analyze_start def Hs) as [Hr _ _ Hd _ _]. cbv zeta. rewrite <- Hn in Hs.
  assert (He : forall d, d ∈ doms_at (an_dominators (analyzeGraph def).1) x <->
    on_every_walk (kept (nodeIndex def) (df_Edges def)) (df_StartNodeID def) d x).
  { intros d. rewrite Hd, Hr. by apply computeDominators_exact. }
  split; [exact He|]. intros d. rewrite <- He. unfold dominates, doms_at. destruct (String.eqb_spec d x) as [->|Hne]; [naive_solver|].
  destruct (an_dominators _ !! x); cbn [default]; [rewrite bool_decide_eq_true; naive_solver|]. split; [done|set_solver].
Qed.

Lemma dominators_exact_witness : on_every_walk (kept (nodeIndex retry_definition) (df_Edges retry_definition)) "read" "gate" "done".
Proof.
  refine (proj1 (proj1 (dominators_exact retry_definition retry_start "done" _) "gate") _).
  - apply (rtc_l _ "read" "gate"); [|apply rtc_once].
    + exists (mkEdge "read" "gate" OutcomeSucceeded). split; [vm_compute; left|done].
    + exists (mkEdge "gate" "done" "go"). split; [vm_compute; do 3 right; left|done].
  - apply (bool_decide_eq_true_1 ("gate" ∈ _)). vm_compute. reflexivity.
Defined.
