(* ===== verification/WorkflowTerminal.v ===== *)
(** The terminals of a workflow: [internal/workflow/terminal.go].  An END maps
    its result to the five lifecycle dimensions; the compiler parses the
    mapping, holds it against the lifecycle rules and the terminal profile,
    and refuses a result that hides an outstanding obligation or a degraded
    route.  A function that reports into the collector returns the diagnostics
    it adds. *)

From stdpp Require Import sorting relations.
From S2P Require Import Prelude Sorting Graphs LifecycleRules WorkflowPlan WorkflowGraph WorkflowGraphFacts.

Local Open Scope Z_scope.

Definition CodeInvalidDefinition : string := "INVALID_DEFINITION".
Definition CodeMissingDimension : string := "MISSING_DIMENSION".
Definition CodeSixthDimension : string := "SIXTH_DIMENSION".
Definition CodeIllegalTerminalTuple : string := "ILLEGAL_TERMINAL_TUPLE".
Definition CodeTerminalNotInProfile : string := "TERMINAL_NOT_IN_PROFILE".
Definition CodeObligationCollapsed : string := "OBLIGATION_COLLAPSED".
Definition CodeDegradedCollapsedToSuccess : string := "DEGRADED_COLLAPSED_TO_SUCCESS".

(** * Terminal profiles *)

Definition TerminalProfile : Type := string.
Definition TerminalProfileSimulateOnly : TerminalProfile := "SIMULATE_ONLY".
Definition TerminalProfileExecute : TerminalProfile := "EXECUTE".

(** The sets are the keys of the Go maps; [None] is the nil map. *)
Record terminalProfile : Type := mkTerminalProfile {
  tp_request : option (list RequestState);
  tp_execution : option (list ExecutionState);
  tp_business : option (list BusinessState);
  tp_consistency : option (list ConsistencyState);
  tp_obligation : option (list ObligationState)
}.

Definition terminalProfiles : list (TerminalProfile * terminalProfile) :=
  [(TerminalProfileSimulateOnly, mkTerminalProfile
      (Some [RequestPreflighted; RequestSimulated; RequestRejected; RequestWithdrawn; RequestCancelled; RequestSuperseded])
      (Some [ExecutionNotPlanned; ExecutionScheduled; ExecutionBlocked])
      (Some [BusinessNotStarted; BusinessNotAchieved; BusinessUnknown])
      (Some [ConsistencyNotApplicable; ConsistencyPendingObservation; ConsistencyUnknown])
      (Some [ObligationNotApplicable; ObligationPending; ObligationSatisfied; ObligationWaived; ObligationUnknown]));
   (TerminalProfileExecute, mkTerminalProfile None None None None None)].

Definition TerminalProfiles : list TerminalProfile := sort_Strings (fst <$> terminalProfiles).
Definition TerminalProfile_Valid (p : TerminalProfile) : bool := bool_decide (is_Some (assoc p terminalProfiles)).

Definition admits {T} `{EqDecision T} (allowed : option (list T)) (s : T) : bool :=
  match allowed with None => true | Some l => bool_decide (s ∈ l) end.

(** The dimension outside the profile, if any. *)
Definition inProfile (p : TerminalProfile) (d : Dimensions) : Dimension * bool :=
  match assoc p terminalProfiles with
  | None => ("", true)
  | Some prof =>
      if negb (admits (tp_request prof) (Request d)) then (DimensionRequest, false)
      else if negb (admits (tp_execution prof) (Execution d)) then (DimensionExecution, false)
      else if negb (admits (tp_business prof) (Business d)) then (DimensionBusiness, false)
      else if negb (admits (tp_consistency prof) (Consistency d)) then (DimensionConsistency, false)
      else if negb (admits (tp_obligation prof) (Obligation d)) then (DimensionObligation, false)
      else ("", true)
  end.

(** * The completion mapping *)

Definition dimensionNames : list string := AllDimensions.
Definition zero_dimensions : Dimensions :=
  mkDimensions RequestUnspecified ExecutionUnspecified BusinessUnspecified ConsistencyUnspecified ObligationUnspecified.

(** A failed parse assigns the zero value. *)
Definition parsed {T} (zero : T) (o : outcome lifecycle_err T) : T * bool :=
  match o with Ok s => (s, true) | _ => (zero, false) end.

(** The switch over the dimensions: the new value and whether it parsed. *)
Definition set_dimension (d : Dimensions) (dim : Dimension) (id : StateID) : Dimensions * bool :=
  if String.eqb dim DimensionRequest then
    let '(s, ok) := parsed RequestUnspecified (ParseRequestState id) in
    (mkDimensions s (Execution d) (Business d) (Consistency d) (Obligation d), ok)
  else if String.eqb dim DimensionExecution then
    let '(s, ok) := parsed ExecutionUnspecified (ParseExecutionState id) in
    (mkDimensions (Request d) s (Business d) (Consistency d) (Obligation d), ok)
  else if String.eqb dim DimensionBusiness then
    let '(s, ok) := parsed BusinessUnspecified (ParseBusinessState id) in
    (mkDimensions (Request d) (Execution d) s (Consistency d) (Obligation d), ok)
  else if String.eqb dim DimensionConsistency then
    let '(s, ok) := parsed ConsistencyUnspecified (ParseConsistencyState id) in
    (mkDimensions (Request d) (Execution d) (Business d) s (Obligation d), ok)
  else if String.eqb dim DimensionObligation then
    let '(s, ok) := parsed ObligationUnspecified (ParseObligationState id) in
    (mkDimensions (Request d) (Execution d) (Business d) (Consistency d) s, ok)
  else (d, true).

Fixpoint read_dimensions (m : gmap string string) (loc : Location) (dims : list Dimension) (d : Dimensions)
    : Dimensions * list Diagnostic :=
  match dims with
  | [] => (d, [])
  | dim :: dims' =>
      match m !! dim with
      | None | Some "" =>
          let '(r, ds) := read_dimensions m loc dims' d in (r, mkDiagnostic CodeMissingDimension loc :: ds)
      | Some raw =>
          let '(d, ok) := set_dimension d dim raw in
          let '(r, ds) := read_dimensions m loc dims' d in (r, report_if (negb ok) CodeUnresolvedRef loc ++ ds)
      end
  end.

(** [ok] is false as soon as something is reported. *)
Definition parseCompletionMapping (m : gmap string string) (loc : Location) : Dimensions * bool * list Diagnostic :=
  let extra := sort_Strings (filter (fun key => key ∉ AllDimensions) (fst <$> map_to_list m)) in
  let sixth := (fun _ => mkDiagnostic CodeSixthDimension loc) <$> extra in
  let '(d, ds) := read_dimensions m loc AllDimensions zero_dimensions in
  (d, bool_decide (sixth ++ ds = []), sixth ++ ds).

(** * END nodes *)

(** The lifecycle context an END declares. *)
Definition end_context (id : string) (e : EndSpec) : Context :=
  let repair := match en_RepairRefs e with
                | r :: _ => r
                | [] => match en_IncidentRefs e with r :: _ => r | [] => "" end
                end in
  let bindings := if en_ApprovalRequired e && negb (String.eqb (en_ApprovedMaterialDigest e) "")
                  then [mkBinding id true (en_ApprovedMaterialDigest e) true false] else [] in
  mkContext (en_ApprovalRequired e) (en_ApprovedMaterialDigest e) bindings (en_CommitReceiptRef e) repair
    (en_ClosurePolicyPermitsOpenRepair e) true.

Definition discharged (o : ObligationState) : bool :=
  match o with ObligationSatisfied | ObligationWaived | ObligationNotApplicable => true | _ => false end.

Definition illegal_tuple (id : string) (err : lifecycle_err) : list Diagnostic :=
  match err with
  | ErrIllegalTuple vs => (fun v => mkDiagnostic CodeIllegalTerminalTuple (at_field id (v_Dimension v))) <$> vs
  | _ => [mkDiagnostic CodeIllegalTerminalTuple (at_node id)]
  end.

Definition checkEnd (def : WorkflowDefinition) (n : Node) (degradedEntry : bool) : option Terminal * list Diagnostic :=
  let loc := at_node (nd_ID n) in
  match nd_End n with
  | None => (None, [mkDiagnostic CodeInvalidDefinition loc])
  | Some e =>
      let ds := report_if (String.eqb (en_TerminalCode e) "") CodeInvalidDefinition loc
                ++ report_if (negb (RuntimeStatus_Valid (en_RuntimeStatus e))) CodeInvalidDefinition loc in
      let '(dims, ok, pds) := parseCompletionMapping (en_CompletionMapping e) loc in
      let ds := ds ++ pds in
      if negb ok then (None, ds)
      else
        match Check dims (end_context (nd_ID n) e) with
        | Err err => (None, ds ++ illegal_tuple (nd_ID n) err)
        | _ =>
            let '(dim, within) := inProfile (df_TerminalProfile def) dims in
            (Some (mkTerminal (nd_ID n) (en_TerminalCode e) (en_RuntimeStatus e) dims (en_OutstandingObligationRefs e)
                     (en_RepairRefs e) (en_IncidentRefs e)),
             ds ++ report_if (negb within) CodeTerminalNotInProfile (at_field (nd_ID n) dim)
             ++ report_if (negb (bool_decide (en_OutstandingObligationRefs e = [])) && discharged (Obligation dims))
                  CodeObligationCollapsed (at_field (nd_ID n) DimensionObligation)
             ++ report_if (degradedEntry && bool_decide (Consistency dims = ConsistencyConsistent)
                           && bool_decide (Business dims = BusinessCompleted)) CodeDegradedCollapsedToSuccess loc
             ++ report_if (bool_decide (Execution dims = ExecutionRepairRequired) && String.eqb (en_RuntimeStatus e) RuntimeCompleted)
                  CodeDegradedCollapsedToSuccess loc)
        end
  end.

(** * Lemmas *)

(** A name table is read both ways. *)
Lemma parseState_exact {T} `{EqDecision T} (table : list (T * StateID)) id s :
  Forall (fun kv => name_in table kv.1 = Some kv.2 /\ kv.2 <> "") table -> parseState table id = Ok s ->
  name_in table s = Some id /\ id <> "".
Proof.
  intros Ht. unfold parseState. destruct (List.find _ table) as [kv|] eqn:E; [|done]. intros [= <-].
  apply find_some in E as [Hin Hid]. apply bool_decide_eq_true in Hid as <-. rewrite Forall_forall in Ht. apply Ht. by apply list_elem_of_In.
Qed.

Ltac table := repeat constructor; done.
Lemma parse_request_inv id s : ParseRequestState id = Ok s -> RequestState_Valid s = true /\ RequestState_StateID s = id /\ id <> "".
Proof. intros [Hn Hid]%parseState_exact; [|table]. unfold RequestState_Valid, RequestState_StateID. by rewrite Hn. Qed.
Lemma parse_execution_inv id s : ParseExecutionState id = Ok s -> ExecutionState_Valid s = true /\ ExecutionState_StateID s = id /\ id <> "".
Proof. intros [Hn Hid]%parseState_exact; [|table]. unfold ExecutionState_Valid, ExecutionState_StateID. by rewrite Hn. Qed.
Lemma parse_business_inv id s : ParseBusinessState id = Ok s -> BusinessState_Valid s = true /\ BusinessState_StateID s = id /\ id <> "".
Proof. intros [Hn Hid]%parseState_exact; [|table]. unfold BusinessState_Valid, BusinessState_StateID. by rewrite Hn. Qed.
Lemma parse_consistency_inv id s : ParseConsistencyState id = Ok s -> ConsistencyState_Valid s = true /\ ConsistencyState_StateID s = id /\ id <> "".
Proof. intros [Hn Hid]%parseState_exact; [|table]. unfold ConsistencyState_Valid, ConsistencyState_StateID. by rewrite Hn. Qed.
Lemma parse_obligation_inv id s : ParseObligationState id = Ok s -> ObligationState_Valid s = true /\ ObligationState_StateID s = id /\ id <> "".
Proof. intros [Hn Hid]%parseState_exact; [|table]. unfold ObligationState_Valid, ObligationState_StateID. by rewrite Hn. Qed.

Lemma read_dimensions_cons m loc dim dims d r : read_dimensions m loc (dim :: dims) d = (r, []) <->
  exists raw d', m !! dim = Some raw /\ raw <> "" /\ set_dimension d dim raw = (d', true) /\ read_dimensions m loc dims d' = (r, []).
Proof.
  cbn [read_dimensions]. destruct (m !! dim) as [raw|].
  - destruct raw as [|c raw].
    + destruct (read_dimensions _ _ _ _). split; [done|]. intros (raw & d' & [= <-] & Hne & _). done.
    + set (w := String c raw). destruct (set_dimension d dim w) as [d' ok] eqn:Es. destruct (read_dimensions m loc dims d') as [r' ds] eqn:Er. split.
      * intros [= -> Hn]. destruct ok; [|done]. exists w, d'. rewrite Er. cbn in Hn. by subst ds.
      * intros (raw' & d'' & [= <-] & _ & Hs & Hr). rewrite Es in Hs. injection Hs as -> ->. rewrite Er in Hr. by injection Hr as -> ->.
  - destruct (read_dimensions _ _ _ _). split; [done|]. by intros (? & ? & [=] & _).
Qed.

(** Decide which dimension a literal name is. *)
Ltac select_dimension := unfold set_dimension in *;
  cbn [String.eqb Ascii.eqb Bool.eqb DimensionRequest DimensionExecution DimensionBusiness DimensionConsistency DimensionObligation] in *.

Lemma read_dimensions_exact m loc r : read_dimensions m loc AllDimensions zero_dimensions = (r, []) <->
  declared r = true /\ forall dim, dim ∈ AllDimensions -> m !! dim = Some (Dimensions_State r dim).
Proof.
  unfold AllDimensions. rewrite read_dimensions_cons. split.
  - intros (raw1 & d1 & M1 & N1 & S1 & R1). apply read_dimensions_cons in R1 as (raw2 & d2 & M2 & N2 & S2 & R2).
    apply read_dimensions_cons in R2 as (raw3 & d3 & M3 & N3 & S3 & R3). apply read_dimensions_cons in R3 as (raw4 & d4 & M4 & N4 & S4 & R4).
    apply read_dimensions_cons in R4 as (raw5 & d5 & M5 & N5 & S5 & R5). injection R5 as <-.
    select_dimension. unfold parsed in *.
    destruct (ParseRequestState raw1) as [s1| |] eqn:P1; [|done|done]. destruct (ParseExecutionState raw2) as [s2| |] eqn:P2; [|done|done].
    destruct (ParseBusinessState raw3) as [s3| |] eqn:P3; [|done|done]. destruct (ParseConsistencyState raw4) as [s4| |] eqn:P4; [|done|done].
    destruct (ParseObligationState raw5) as [s5| |] eqn:P5; [|done|done].
    injection S1 as <-. injection S2 as <-. injection S3 as <-. injection S4 as <-. injection S5 as <-.
    apply parse_request_inv in P1 as (V1 & <- & _). apply parse_execution_inv in P2 as (V2 & <- & _). apply parse_business_inv in P3 as (V3 & <- & _).
    apply parse_consistency_inv in P4 as (V4 & <- & _). apply parse_obligation_inv in P5 as (V5 & <- & _).
    split; [unfold declared; cbn; by rewrite V1, V2, V3, V4, V5|]. intros dim Hd. repeat (apply elem_of_cons in Hd as [->|Hd]; [done|]). by apply elem_of_nil in Hd.
  - intros [(V1 & V2 & V3 & V4 & V5)%declared_inv Hm].
    apply parse_request in V1. apply parse_execution in V2. apply parse_business in V3. apply parse_consistency in V4. apply parse_obligation in V5.
    destruct (parse_request_inv _ _ V1) as (_ & _ & N1). destruct (parse_execution_inv _ _ V2) as (_ & _ & N2).
    destruct (parse_business_inv _ _ V3) as (_ & _ & N3). destruct (parse_consistency_inv _ _ V4) as (_ & _ & N4). destruct (parse_obligation_inv _ _ V5) as (_ & _ & N5).
    exists (RequestState_StateID (Request r)). eexists. split_and!; [apply Hm; set_solver|exact N1|select_dimension; by rewrite V1|]. rewrite read_dimensions_cons.
    exists (ExecutionState_StateID (Execution r)). eexists. split_and!; [apply Hm; set_solver|exact N2|select_dimension; by rewrite V2|]. rewrite read_dimensions_cons.
    exists (BusinessState_StateID (Business r)). eexists. split_and!; [apply Hm; set_solver|exact N3|select_dimension; by rewrite V3|]. rewrite read_dimensions_cons.
    exists (ConsistencyState_StateID (Consistency r)). eexists. split_and!; [apply Hm; set_solver|exact N4|select_dimension; by rewrite V4|]. rewrite read_dimensions_cons.
    exists (ObligationState_StateID (Obligation r)). eexists. split_and!; [apply Hm; set_solver|exact N5|select_dimension; by rewrite V5|]. by destruct r.
Qed.

(** The mapping that records a tuple under the names of its states. *)
Definition completion_mapping (d : Dimensions) : gmap string string :=
  list_to_map ((fun dim => (dim, Dimensions_State d dim)) <$> AllDimensions).

Lemma completion_mapping_lookup d key :
  completion_mapping d !! key = if decide (key ∈ AllDimensions) then Some (Dimensions_State d key) else None.
Proof.
  unfold completion_mapping. destruct (decide (key ∈ AllDimensions)) as [Hk|Hk].
  - apply elem_of_list_to_map_1; [repeat constructor; set_solver|]. apply list_elem_of_fmap. by exists key.
  - apply not_elem_of_list_to_map_1. rewrite <- list_fmap_compose. by rewrite list_fmap_id.
Qed.

Lemma parseCompletionMapping_ok m loc : let '(_, ok, ds) := parseCompletionMapping m loc in ok = bool_decide (ds = []).
Proof. unfold parseCompletionMapping. by destruct (read_dimensions _ _ _ _). Qed.

Lemma parseCompletionMapping_exact m loc d : parseCompletionMapping m loc = (d, true, []) <-> declared d = true /\ m = completion_mapping d.
Proof.
  unfold parseCompletionMapping. destruct (read_dimensions m loc AllDimensions zero_dimensions) as [r ds] eqn:Er.
  set (extra := filter (fun key => key ∉ AllDimensions) (fst <$> map_to_list m)).
  assert (Hextra : (fun _ => mkDiagnostic CodeSixthDimension loc) <$> sort_Strings extra = [] <-> forall key, is_Some (m !! key) -> key ∈ AllDimensions).
  { split.
    - intros Hn%fmap_nil_inv key [v Hv]. destruct (decide (key ∈ AllDimensions)) as [|Hk]; [done|].
      assert (Hin : key ∈ sort_Strings extra); [|rewrite Hn in Hin; by apply elem_of_nil in Hin]. apply elem_of_sort_Strings, list_elem_of_filter. split; [done|].
      apply list_elem_of_fmap. exists (key, v). split; [done|]. by apply elem_of_map_to_list.
    - intros Hk. destruct (sort_Strings extra) as [|key l] eqn:E; [done|].
      assert (Hin : key ∈ sort_Strings extra) by (rewrite E; left).
      apply elem_of_sort_Strings, list_elem_of_filter in Hin as [Hn ([k v] & -> & Hkv)%list_elem_of_fmap]. destruct Hn. apply Hk.
      exists v. by apply elem_of_map_to_list. }
  split.
  - intros [= -> Hb Hds]. apply app_nil in Hds as [Hx ->]. apply read_dimensions_exact in Er as [Hd Hm]. split; [done|].
    apply map_eq. intros key. rewrite completion_mapping_lookup. case_decide as Hk; [by apply Hm|].
    destruct (m !! key) eqn:E; [|done]. destruct Hk. apply Hextra; eauto.
  - intros [Hd ->]. assert (Hr : read_dimensions (completion_mapping d) loc AllDimensions zero_dimensions = (d, [])).
    { apply read_dimensions_exact. split; [done|]. intros dim Hdim. by rewrite completion_mapping_lookup, decide_True. }
    rewrite Hr in Er. injection Er as <- <-. assert (Hx := proj2 Hextra).
    rewrite Hx; [done|]. intros key. rewrite completion_mapping_lookup. case_decide; [done|]. by intros [? [=]].
Qed.

(** What a terminal profile admits. *)
Definition profile_admits (p : TerminalProfile) (d : Dimensions) : Prop :=
  forall prof, assoc p terminalProfiles = Some prof ->
    admits (tp_request prof) (Request d) = true /\ admits (tp_execution prof) (Execution d) = true /\
    admits (tp_business prof) (Business d) = true /\ admits (tp_consistency prof) (Consistency d) = true /\
    admits (tp_obligation prof) (Obligation d) = true.

Lemma inProfile_exact p d : (inProfile p d).2 = true <-> profile_admits p d.
Proof.
  unfold inProfile, profile_admits. destruct (assoc p terminalProfiles) as [prof|]; [|done].
  destruct (admits (tp_request prof) _) eqn:E1, (admits (tp_execution prof) _) eqn:E2, (admits (tp_business prof) _) eqn:E3,
    (admits (tp_consistency prof) _) eqn:E4, (admits (tp_obligation prof) _) eqn:E5; cbn [negb snd];
    (split; [intros H; try discriminate H; intros ? [= <-]; auto|
             intros H; try reflexivity; destruct (H prof eq_refl) as (H1 & H2 & H3 & H4 & H5); congruence]).
Qed.

Lemma simulate_only_admits d : profile_admits TerminalProfileSimulateOnly d ->
  Execution d <> ExecutionCommitted /\ Execution d <> ExecutionExecuting /\ Business d <> BusinessCompleted /\ Consistency d <> ConsistencyConsistent.
Proof.
  intros H. destruct (H _ eq_refl) as (_ & H2 & H3 & H4 & _). destruct d as [r e b c o]. cbn in *.
  split_and!; intros ->; done.
Qed.

(** A truthful END: what it must declare to be accepted. *)
Record truthful (def : WorkflowDefinition) (n : Node) (degraded : bool) (e : EndSpec) (d : Dimensions) : Prop := {
  tr_code : en_TerminalCode e <> "";
  tr_status : RuntimeStatus_Valid (en_RuntimeStatus e) = true;
  tr_mapping : en_CompletionMapping e = completion_mapping d;
  tr_legal : legal d (end_context (nd_ID n) e);
  tr_profile : profile_admits (df_TerminalProfile def) d;
  tr_obligations : en_OutstandingObligationRefs e <> [] -> discharged (Obligation d) = false;
  tr_degraded : degraded = true -> ~ (Consistency d = ConsistencyConsistent /\ Business d = BusinessCompleted);
  tr_repair : Execution d = ExecutionRepairRequired -> en_RuntimeStatus e <> RuntimeCompleted
}.

Definition terminal_of (n : Node) (e : EndSpec) (d : Dimensions) : Terminal :=
  mkTerminal (nd_ID n) (en_TerminalCode e) (en_RuntimeStatus e) d (en_OutstandingObligationRefs e) (en_RepairRefs e) (en_IncidentRefs e).

Lemma checkEnd_exact def n degraded t : checkEnd def n degraded = (Some t, []) <->
  exists e, nd_End n = Some e /\ t = terminal_of n e (tm_Dimensions t) /\ truthful def n degraded e (tm_Dimensions t).
Proof.
  unfold checkEnd. destruct (nd_End n) as [e|]; [|split; [done|by intros (e & [=] & _)]].
  pose proof (parseCompletionMapping_ok (en_CompletionMapping e) (at_node (nd_ID n))) as Hok.
  pose proof (parseCompletionMapping_exact (en_CompletionMapping e) (at_node (nd_ID n))) as Hex.
  destruct (parseCompletionMapping _ _) as [[d ok] pds]. rewrite Hok in *. clear Hok. split.
  - case_bool_decide as Hp; [|done]. subst pds. cbn [negb].
    destruct (proj1 (Hex d) eq_refl) as [Hd Hm]. destruct (Check d _) as [[]|err|] eqn:Ec; [|done|].
    2: { rewrite Check_eq in Ec. destruct (declared d); [|done]. by destruct (all_violations d _). }
    destruct (inProfile _ d) as [dim within] eqn:Ein. intros [= <- Hds].
    apply app_nil in Hds as [Hds Hrest]. apply app_nil in Hds as [Hds _]. apply app_nil in Hds as [H1%report_if_nil%String.eqb_neq H2%report_if_nil%negb_false_iff].
    apply app_nil in Hrest as [H3%report_if_nil%negb_false_iff Hrest]. apply app_nil in Hrest as [H4%report_if_nil Hrest].
    apply app_nil in Hrest as [H5%report_if_nil H6%report_if_nil].
    exists e. split_and!; [done|done|]. cbn [tm_Dimensions]. split; [done|done|done|by apply Check_ok| | | |].
    + apply inProfile_exact. by rewrite Ein.
    + intros Ho. rewrite bool_decide_false in H4 by done. done.
    + intros -> [Hc Hbz]. rewrite !bool_decide_true in H5 by done. done.
    + intros He Hs. rewrite He, Hs in H6. done.
  - intros (e' & [= <-] & Ht & [T1 T2 T3 T4 T5 T6 T7 T8]). set (d' := tm_Dimensions t) in *.
    assert (Hd : declared d' = true) by apply T4. injection (proj2 (Hex d') (conj Hd T3)) as -> _ ->. rewrite bool_decide_true by done.
    cbn [negb]. rewrite (proj2 (Check_ok _ _) T4).
    pose proof (proj2 (inProfile_exact (df_TerminalProfile def) d') T5) as Hin. destruct (inProfile _ d') as [dim within]. cbn [snd] in Hin. subst within.
    rewrite (proj2 (String.eqb_neq _ _) T1), T2. cbn [negb report_if app].
    f_equal; [by rewrite Ht|].
    assert (H4 : negb (bool_decide (en_OutstandingObligationRefs e = [])) && discharged (Obligation d') = false).
    { destruct (bool_decide_reflect (en_OutstandingObligationRefs e = [])) as [|Ho]; [done|]. by apply T6. }
    assert (H5 : degraded && bool_decide (Consistency d' = ConsistencyConsistent) && bool_decide (Business d' = BusinessCompleted) = false).
    { destruct degraded; [|done]. destruct (bool_decide_reflect (Consistency d' = ConsistencyConsistent)) as [Hc|]; [|done].
      destruct (bool_decide_reflect (Business d' = BusinessCompleted)) as [Hbz|]; [|done]. exfalso. by apply T7. }
    assert (H6 : bool_decide (Execution d' = ExecutionRepairRequired) && String.eqb (en_RuntimeStatus e) RuntimeCompleted = false).
    { destruct (bool_decide_reflect (Execution d' = ExecutionRepairRequired)) as [He|]; [|done]. apply String.eqb_neq. by apply T8. }
    by rewrite H4, H5, H6.
Qed.

(** C16: An END is accepted exactly when it tells the truth.  [checkEnd] returns
    a terminal and reports nothing if and only if the END has a code and a
    declared runtime status, its mapping names a declared state for exactly the
    five dimensions, the tuple is legal for the receipt, repair and approval it
    declares and lies in the terminal profile, no outstanding obligation is
    recorded as discharged, a terminal entered by a degraded route does not
    claim a consistent completed outcome, and a repair is not reported as
    completed; the terminal holds that tuple.  Under SIMULATE_ONLY no accepted
    terminal claims a commit or a completed outcome. *)
Theorem end_accepted_exact (def : WorkflowDefinition) (n : Node) (degraded : bool) (t : Terminal) :
  (checkEnd def n degraded = (Some t, []) <->
     exists e, nd_End n = Some e /\ t = terminal_of n e (tm_Dimensions t) /\ truthful def n degraded e (tm_Dimensions t)) /\
  (checkEnd def n degraded = (Some t, []) -> df_TerminalProfile def = TerminalProfileSimulateOnly ->
     Execution (tm_Dimensions t) <> ExecutionCommitted /\ Business (tm_Dimensions t) <> BusinessCompleted).
Proof.
  split; [apply checkEnd_exact|]. intros (e & _ & _ & Ht)%checkEnd_exact Hp. pose proof (tr_profile _ _ _ _ _ Ht) as Hadm.
  rewrite Hp in Hadm. apply simulate_only_admits in Hadm. tauto.
Qed.
