(* ===== verification/WorkflowCompile.v ===== *)
(** From a definition to a running instance: the terminals and the plan
    [Compile] and [normalize] of [internal/workflow/compile.go] build, as far as
    the runtime reads the plan, and what the passes guarantee to the runtime.
    A definition of released step types whose graph and terminals are accepted
    yields a plan on which every open instance has a next step, and without back
    edges and failure routes every settling run is bounded by the declared
    depth. *)

From stdpp Require Import sorting relations.
From S2P Require Import Prelude Sorting Graphs LifecycleRules WorkflowPlan Frontier FrontierFacts FrontierRuns FrontierExamples WorkflowGraph WorkflowGraphFacts WorkflowCycles WorkflowTerminal.

Local Open Scope Z_scope.

(** * The plan *)

(** The loop of [Compile] over the END nodes. *)
Fixpoint compile_terminals (def : WorkflowDefinition) (g : graph) (ns : list Node) (terminals : gmap string Terminal)
    : gmap string Terminal * list Diagnostic :=
  match ns with
  | [] => (terminals, [])
  | n :: ns' =>
      if negb (String.eqb (nd_Type n) StepEnd) then compile_terminals def g ns' terminals
      else
        let '(t, d) := checkEnd def n (bool_decide (nd_ID n ∈ gr_degradedEntry g)) in
        let terminals := match t with Some t => <[nd_ID n := t]> terminals | None => terminals end in
        let '(r, ds) := compile_terminals def g ns' terminals in (r, d ++ ds)
  end.

Definition compile_node (terminals : gmap string Terminal) (n : Node) : CompiledNode :=
  mkNode (nd_ID n) (nd_Type n) (nd_Decision n) (terminals !! nd_ID n) (nd_Retry n) (nd_FailureRoute n).

Definition plan_edge_less (a b : Edge) : bool :=
  if negb (String.eqb (e_From a) (e_From b)) then String.ltb (e_From a) (e_From b)
  else if negb (String.eqb (e_RouteKey a) (e_RouteKey b)) then String.ltb (e_RouteKey a) (e_RouteKey b)
  else String.ltb (e_To a) (e_To b).
Fixpoint insert_plan_edge (x : Edge) (l : list Edge) : list Edge :=
  match l with
  | [] => [x]
  | y :: l' => if plan_edge_less y x then y :: insert_plan_edge x l' else x :: l
  end.
(** [sort.SliceStable]. *)
Definition sort_plan_edges (l : list Edge) : list Edge := foldr insert_plan_edge [] l.

(** [computePlanDigest] hashes the whole plan; [digest] stands for it. *)
Definition normalize (digest : CompiledWorkflow -> string) (def : WorkflowDefinition) (g : graph) (terminals : gmap string Terminal)
    : CompiledWorkflow :=
  let nodes := id ← sortedNodeIDs g; from_option (fun n => [compile_node terminals n]) [] (gr_nodes g !! id) in
  let edges := sort_plan_edges (df_Edges def) in
  mkPlan (df_WorkflowID def) (df_Version def) (df_StartNodeID def) nodes edges
    (digest (mkPlan (df_WorkflowID def) (df_Version def) (df_StartNodeID def) nodes edges "")).

(** * Lemmas *)

Lemma sort_plan_edges_perm l : sort_plan_edges l ≡ₚ l.
Proof.
  assert (Hi : forall e k, insert_plan_edge e k ≡ₚ e :: k).
  { intros e k. induction k as [|y k IH]; cbn; [done|]. destruct (plan_edge_less y e); [|done]. rewrite IH. constructor. }
  induction l as [|x l IH]; cbn; [done|]. by rewrite Hi, IH.
Qed.

(** ** Terminals *)

Lemma compile_terminals_spec def g ns m r : compile_terminals def g ns m = (r, []) ->
  (forall id, is_Some (m !! id) -> is_Some (r !! id)) /\
  (forall n, n ∈ ns -> nd_Type n = StepEnd -> is_Some (r !! nd_ID n)) /\
  (forall id t, r !! id = Some t -> m !! id = Some t \/
     exists n, n ∈ ns /\ nd_ID n = id /\ nd_Type n = StepEnd /\ checkEnd def n (bool_decide (id ∈ gr_degradedEntry g)) = (Some t, [])).
Proof.
  revert m r. induction ns as [|n ns IH]; intros m r; cbn [compile_terminals].
  { intros [= ->]. split_and!; [done|by intros n ?%elem_of_nil|by left]. }
  destruct (String.eqb_spec (nd_Type n) StepEnd) as [Ht|Ht]; cbn [negb].
  - destruct (checkEnd def n _) as [t d] eqn:Ec.
    destruct (compile_terminals def g ns _) as [r' ds] eqn:Er. intros [= -> Hd]. apply app_nil in Hd as [-> ->].
    assert (Hsome : exists u, t = Some u).
    { unfold checkEnd in Ec. destruct (nd_End n) as [e|]; [|done].
      pose proof (parseCompletionMapping_ok (en_CompletionMapping e) (at_node (nd_ID n))) as Hok.
      destruct (parseCompletionMapping _ _) as [[d ok] pds]. case_bool_decide as Hp; subst ok; cbn [negb] in Ec.
      - destruct (Check d _) as [[]|err|] eqn:Echeck; [destruct (inProfile _ _); injection Ec as <- _; eauto| |].
        + rewrite Check_eq in Echeck. destruct (declared d); [destruct (all_violations d _)|]; [done| |]; injection Echeck as <-; injection Ec as _ Ec;
            apply app_nil in Ec as [_ Ec]; done.
        + destruct (inProfile _ _); injection Ec as <- _; eauto.
      - injection Ec as _ Ec. by apply app_nil in Ec as [_ ->]. }
    destruct Hsome as [u ->]. destruct (IH _ _ Er) as (I1 & I2 & I3). split_and!.
    + intros id Hid. apply I1. rewrite lookup_insert. destruct (decide (nd_ID n = id)); [by eexists|done].
    + intros k [->|Hk]%elem_of_cons Hkt; [apply I1; rewrite lookup_insert_eq; by eexists|by apply I2].
    + intros id v Hv. destruct (I3 id v Hv) as [Hm|(k & Hk & H1 & H2 & H3)].
      * rewrite lookup_insert in Hm. destruct (decide (nd_ID n = id)) as [E|E]; [|by left]. subst id. injection Hm as <-. right. exists n. split_and!; [left|done..].
      * right. exists k. split_and!; [by right|done..].
  - intros Hr. destruct (IH _ _ Hr) as (I1 & I2 & I3). split_and!; [done| |].
    + intros k [->|Hk]%elem_of_cons Hkt; [done|by apply I2].
    + intros id v Hv. destruct (I3 id v Hv) as [|(k & Hk & H)]; [by left|right]. exists k. split; [by right|done].
Qed.

(** ** Routes *)

Lemma add_routes_spec seen out keys : (forall x, x ∈ seen <-> x ∈ out) ->
  let '(seen', out') := add_routes seen out keys in
  (forall x, x ∈ seen' <-> x ∈ out') /\ (forall x, x ∈ out' <-> x ∈ out \/ (x ∈ keys /\ x <> "")).
Proof.
  revert seen out. induction keys as [|k keys IH]; intros seen out Hs; cbn [add_routes]; [split; [done|set_solver]|].
  destruct (String.eqb_spec k "") as [->|Hk]; cbn [orb].
  - specialize (IH seen out Hs). destruct (add_routes _ _ _). destruct IH as [I1 I2]. split; [done|]. intros x. rewrite I2, elem_of_cons. naive_solver.
  - destruct (decide (k ∈ seen)) as [Hin|Hin].
    + rewrite bool_decide_true by done. specialize (IH seen out Hs). destruct (add_routes _ _ _). destruct IH as [I1 I2]. split; [done|].
      intros x. rewrite I2, elem_of_cons. apply Hs in Hin. naive_solver.
    + rewrite bool_decide_false by done. specialize (IH (k :: seen) (out ++ [k]) ltac:(set_solver)). destruct (add_routes _ _ _).
      destruct IH as [I1 I2]. split; [done|]. intros x. rewrite I2, elem_of_app, list_elem_of_singleton, elem_of_cons. naive_solver.
Qed.

Lemma expectedRoutes_elem n conf key : ConformanceFor (nd_Type n) = Some conf -> key ∈ expectedRoutes n <-> key <> "" /\
  (key ∈ cf_Outcomes conf \/ exists d, nd_Decision n = Some d /\ cf_AuthorRoutes conf = true /\ key ∈ dr_Key <$> cd_Routes d).
Proof.
  intros Hc. unfold expectedRoutes. rewrite Hc. pose proof (add_routes_spec [] [] (cf_Outcomes conf) ltac:(done)) as H1.
  destruct (add_routes [] [] _) as [seen out]. destruct H1 as [S1 O1].
  assert (O1' : forall x, x ∈ out <-> x ∈ cf_Outcomes conf /\ x <> "") by (intros x; rewrite O1; set_solver).
  destruct (nd_Decision n) as [d|]; [destruct (cf_AuthorRoutes conf)|].
  - pose proof (add_routes_spec seen out (dr_Key <$> cd_Routes d) S1) as H2. destruct (add_routes seen out _) as [seen2 out2]. destruct H2 as [_ O2].
    rewrite elem_of_sort_Strings, O2, O1'. naive_solver.
  - rewrite elem_of_sort_Strings, O1'. naive_solver.
  - rewrite elem_of_sort_Strings, O1'. naive_solver.
Qed.

(** The routes found are those of the edges. *)
Lemma check_edges_got id conf want got es x : x ∈ (check_edges id conf want got es).1 -> x ∈ got \/ exists e, e ∈ es /\ e_RouteKey e = x.
Proof.
  revert got. induction es as [|e es IH]; intros got; cbn [check_edges]; [by left|].
  assert (Hlift : forall got', (x ∈ got' -> x ∈ got \/ e_RouteKey e = x) -> x ∈ (check_edges id conf want got' es).1 ->
    x ∈ got \/ exists d, d ∈ e :: es /\ e_RouteKey d = x).
  { intros got' Hg Hx. destruct (IH got' Hx) as [Hg'|(d & Hd & Hk)]; [destruct (Hg Hg'); [by left|right; exists e; split; [left|done]]|].
    right. exists d. split; [by right|done]. }
  destruct (String.eqb _ ""); [specialize (Hlift got); destruct (check_edges _ _ _ got es); apply Hlift; auto|].
  destruct (bool_decide _ && _); [specialize (Hlift got); destruct (check_edges _ _ _ got es); apply Hlift; auto|].
  specialize (Hlift ({[e_RouteKey e]} ∪ got)). destruct (check_edges _ _ _ _ es). apply Hlift. set_solver.
Qed.

Lemma conformance_shape t conf : ConformanceFor t = Some conf ->
  (t <> StepEnd -> cf_Terminal conf = false) /\ (t = StepDecision -> cf_AuthorRoutes conf = true) /\ ("" ∉ cf_Outcomes conf).
Proof.
  intros H%assoc_elem. revert H.
  assert (Hall : Forall (fun tc => (tc.1 <> StepEnd -> cf_Terminal tc.2 = false) /\ (tc.1 = StepDecision -> cf_AuthorRoutes tc.2 = true) /\
                           ("" ∉ cf_Outcomes tc.2)) conformanceTable).
  { repeat constructor; cbn; try done; apply (bool_decide_unpack _); vm_compute; exact I. }
  rewrite Forall_forall in Hall. intros H. exact (Hall _ H).
Qed.

Lemma routes_complete g id n conf key : check_node_routes g id n = [] -> ConformanceFor (nd_Type n) = Some conf -> nd_Type n <> StepEnd ->
  key ∈ expectedRoutes n -> exists e, e ∈ edges_from g id /\ e_RouteKey e = key.
Proof.
  unfold check_node_routes. intros Hnil Hc Ht Hk. rewrite Hc, (proj1 (conformance_shape _ _ Hc) Ht) in Hnil.
  pose proof (check_edges_got id conf (expectedRoutes n) ∅ (edges_from g id) key) as Hgot.
  destruct (check_edges _ _ _ _ _) as [got ds]. apply app_nil in Hnil as [_ Hnil]. apply app_nil in Hnil as [Hmiss _].
  rewrite bind_nil in Hmiss. specialize (Hmiss key Hk). apply report_if_nil, negb_false_iff, bool_decide_eq_true in Hmiss.
  destruct (Hgot Hmiss) as [|]; [set_solver|done].
Qed.

(** A failure route without a diagnostic names a declared node. *)
Lemma failure_resolved g id n conf : check_node_routes g id n = [] -> ConformanceFor (nd_Type n) = Some conf -> nd_Type n <> StepEnd ->
  nd_FailureRoute n <> "" -> is_Some (gr_nodes g !! nd_FailureRoute n).
Proof.
  unfold check_node_routes. intros Hnil Hc Ht Hf. rewrite Hc, (proj1 (conformance_shape _ _ Hc) Ht) in Hnil.
  destruct (check_edges _ _ _ _ _) as [got ds]. apply app_nil in Hnil as [_ Hnil]. apply app_nil in Hnil as [_ Hnil].
  apply app_nil in Hnil as [Hfail%report_if_nil _]. apply andb_false_iff in Hfail as [H|H].
  - by apply negb_false_iff, String.eqb_eq in H.
  - apply bool_decide_eq_false in H. by apply not_eq_None_Some.
Qed.

(** ** The nodes of the plan *)

(** What [validateShape] and the DECISION check require of the nodes. *)
Record shaped (def : WorkflowDefinition) : Prop := {
  sh_types : forall n, n ∈ df_Nodes def -> StepType_Valid (nd_Type n) = true;
  sh_decisions : forall n d, n ∈ df_Nodes def -> nd_Decision n = Some d -> nd_Type n = StepDecision /\ ("" ∉ dr_Key <$> cd_Routes d)
}.

Lemma sortedNodeIDs_nodup g : NoDup (sortedNodeIDs g).
Proof. unfold sortedNodeIDs. rewrite sort_Strings_Permutation. apply NoDup_fst_map_to_list. Qed.

Section plan.
Context (digest : CompiledWorkflow -> string) (def : WorkflowDefinition) (terminals : gmap string Terminal).
Let g : graph := an_graph (analyzeGraph def).1.
Let plan : CompiledWorkflow := normalize digest def g terminals.

Lemma plan_nodes m : m ∈ cw_Nodes plan <-> exists n, nodeIndex def !! nd_ID n = Some n /\ m = compile_node terminals n.
Proof using.
  destruct (analyze_built def) as [_ Hn]. fold g in Hn. unfold plan, normalize. cbn [cw_Nodes]. rewrite list_elem_of_bind. rewrite Hn. split.
  - intros (id & Hm & Hid). destruct (nodeIndex def !! id) as [n|] eqn:E; cbn in Hm; [|by apply elem_of_nil in Hm].
    apply list_elem_of_singleton in Hm as ->. destruct (nodeIndex_lookup _ _ _ E) as [<- _]. by exists n.
  - intros (n & Hl & ->). exists (nd_ID n). rewrite Hl. split; [by left|]. apply sortedNodeIDs_elem. rewrite Hn. by eexists.
Qed.

Lemma plan_ids_nodup : NoDup (cn_ID <$> cw_Nodes plan).
Proof using.
  destruct (analyze_built def) as [_ Hn]. fold g in Hn. unfold plan, normalize. cbn [cw_Nodes]. rewrite Hn.
  assert (Hids : cn_ID <$> (id ← sortedNodeIDs g; from_option (fun n => [compile_node terminals n]) [] (nodeIndex def !! id)) = sortedNodeIDs g);
    [|rewrite Hids; apply sortedNodeIDs_nodup].
  assert (Hall : forall l, (forall id, id ∈ l -> is_Some (nodeIndex def !! id)) ->
    cn_ID <$> (id ← l; from_option (fun n => [compile_node terminals n]) [] (nodeIndex def !! id)) = l).
  { induction l as [|id l IH]; intros Hl; [done|]. destruct (Hl id) as [n E]; [left|]. destruct (nodeIndex_lookup _ _ _ E) as [Hid _].
    rewrite bind_cons, E. cbn [from_option fmap list_fmap app compile_node cn_ID]. rewrite Hid, IH; [done|]. intros; apply Hl; by right. }
  apply Hall. intros id Hid. apply sortedNodeIDs_elem in Hid. by rewrite Hn in Hid.
Qed.

Lemma find_node_some id ns : id ∈ cn_ID <$> ns -> is_Some (find_node id ns).
Proof.
  induction ns as [|n ns IH]; cbn [find_node]; [by intros ?%elem_of_nil|]. rewrite fmap_cons, elem_of_cons.
  destruct (String.eqb_spec (cn_ID n) id) as [|Hne]; [by eexists|]. intros [->|H]; [done|by apply IH].
Qed.

Lemma plan_declares id : is_Some (nodeIndex def !! id) -> in_plan plan id.
Proof using.
  intros [n E]. destruct (nodeIndex_lookup _ _ _ E) as [Hid _]. apply find_node_some, list_elem_of_fmap. exists (compile_node terminals n).
  split; [done|]. apply plan_nodes. exists n. by rewrite Hid.
Qed.

(** What the passes guarantee to the runtime. *)
Lemma normalize_routable : shaped def -> Z.of_nat (length (df_Edges def)) < 2 ^ 32 ->
  is_Some (nodeIndex def !! df_StartNodeID def) -> (analyzeGraph def).2 = [] ->
  compile_terminals def g (df_Nodes def) ∅ = (terminals, []) -> routable plan.
Proof using.
  intros Hsh Hlen Hstart Hnil Hterm. destruct (analyze_built def) as [Hb Hn]. destruct (analyze_start def Hstart) as [_ _ _ _ _ Hd].
  fold g in Hb, Hn, Hd. rewrite Hnil in Hd. symmetry in Hd. apply app_nil in Hd as [Hedges%edge_diagnostics_nil Hd]. apply app_nil in Hd as [Hroutes _].
  rewrite (kept_all _ _ Hedges) in Hb. split.
  - split; [apply plan_ids_nodup|]. unfold plan, normalize. cbn [cw_Edges]. by rewrite sort_plan_edges_perm.
  - intros e He. unfold plan, normalize in He. cbn [cw_Edges] in He. rewrite sort_plan_edges_perm in He.
    apply plan_declares. rewrite Forall_forall in Hedges. by apply Hedges.
  - intros m (n & Hl & ->)%plan_nodes. apply (sh_types _ Hsh). by apply (nodeIndex_lookup _ _ _ Hl).
  - intros m key (n & Hl & ->)%plan_nodes Ht Hexp. cbn [compile_node cn_Type cn_ID] in *. destruct (nodeIndex_lookup _ _ _ Hl) as [_ Hin].
    pose proof (sh_types _ Hsh n Hin) as Hv. apply bool_decide_eq_true in Hv as [conf Hc]. destruct (conformance_shape _ _ Hc) as (_ & Ha & Hne).
    assert (Hkey : key ∈ expectedRoutes n).
    { apply (expectedRoutes_elem n conf key Hc). destruct Hexp as [(conf' & Hc' & Hk)|(d & Hdec & Hk)]; cbn [compile_node cn_Type cn_Decision] in *.
      - rewrite Hc in Hc'. injection Hc' as <-. split; [by intros ->|by left].
      - destruct (sh_decisions _ Hsh n d Hin Hdec) as [Hdt Hkeys]. split; [by intros ->|]. right. exists d. auto. }
    unfold checkRoutes in Hroutes. rewrite bind_nil in Hroutes.
    specialize (Hroutes (nd_ID n) ltac:(apply sortedNodeIDs_elem; rewrite Hn; by eexists)). rewrite Hn, Hl in Hroutes. cbn [from_option] in Hroutes.
    destruct (routes_complete g (nd_ID n) n conf key Hroutes Hc Ht Hkey) as (e & He & <-). rewrite (bt_out _ _ Hb) in He.
    apply list_elem_of_filter in He as [<- He]. exists (e_To e). unfold plan, normalize. cbn [cw_Edges]. rewrite sort_plan_edges_perm. by destruct e.
  - intros m (n & Hl & ->)%plan_nodes Ht. cbn [compile_node cn_Type cn_Terminal] in *. destruct (nodeIndex_lookup _ _ _ Hl) as [_ Hin].
    by apply (compile_terminals_spec _ _ _ _ _ Hterm).
Qed.

(** Every failure route of the plan leads to a node of it. *)
Lemma plan_failure_routes m : shaped def -> (analyzeGraph def).2 = [] -> is_Some (nodeIndex def !! df_StartNodeID def) ->
  m ∈ cw_Nodes plan -> cn_Type m <> StepEnd -> cn_FailureRoute m <> "" -> in_plan plan (cn_FailureRoute m).
Proof using.
  intros Hsh Hnil Hstart (n & Hl & ->)%plan_nodes Ht Hf. cbn [compile_node cn_Type cn_FailureRoute] in *.
  destruct (analyze_built def) as [_ Hn]. destruct (analyze_start def Hstart) as [_ _ _ _ _ Hd]. fold g in Hn, Hd.
  rewrite Hnil in Hd. symmetry in Hd. apply app_nil in Hd as [_ Hd]. apply app_nil in Hd as [Hroutes _].
  destruct (nodeIndex_lookup _ _ _ Hl) as [_ Hin]. pose proof (sh_types _ Hsh n Hin) as Hv. apply bool_decide_eq_true in Hv as [conf Hc].
  unfold checkRoutes in Hroutes. rewrite bind_nil in Hroutes.
  specialize (Hroutes (nd_ID n) ltac:(apply sortedNodeIDs_elem; rewrite Hn; by eexists)). rewrite Hn, Hl in Hroutes. cbn [from_option] in Hroutes.
  apply plan_declares. rewrite <- Hn. by apply (failure_resolved _ _ _ _ Hroutes Hc).
Qed.

Lemma plan_released : (forall n, n ∈ df_Nodes def -> Phase_admits PhaseP1B (nd_Type n) = true) -> released plan.
Proof using. intros H m (n & Hl & ->)%plan_nodes. apply H. by destruct (nodeIndex_lookup _ _ _ Hl). Qed.

End plan.

(** * Properties *)

(** The plan compiled from an accepted definition. *)
Definition compiled (digest : CompiledWorkflow -> string) (def : WorkflowDefinition) : CompiledWorkflow :=
  normalize digest def (an_graph (analyzeGraph def).1)
    (compile_terminals def (an_graph (analyzeGraph def).1) (df_Nodes def) ∅).1.

(** The passes report nothing. *)
Record accepted (def : WorkflowDefinition) : Prop := {
  ac_shaped : shaped def;
  ac_edges : Z.of_nat (length (df_Edges def)) < 2 ^ 32;
  ac_start : is_Some (nodeIndex def !! df_StartNodeID def);
  ac_graph : (analyzeGraph def).2 = [];
  ac_terminals : (compile_terminals def (an_graph (analyzeGraph def).1) (df_Nodes def) ∅).2 = []
}.

(** The definition uses only step types a release implements: PARALLEL, JOIN
    and SUBWORKFLOW are gated behind the structural phase. *)
Definition released_definition (def : WorkflowDefinition) : Prop :=
  forall n, n ∈ df_Nodes def -> Phase_admits PhaseP1B (nd_Type n) = true.

Lemma released_not_join plan m : released plan -> m ∈ cw_Nodes plan -> cn_Type m <> StepJoin.
Proof. intros H Hm E. specialize (H m Hm). by rewrite E in H. Qed.

Lemma accepted_routable digest def : accepted def -> routable (compiled digest def).
Proof.
  intros [H1 H2 H3 H4 H5]. unfold compiled. destruct (compile_terminals _ _ _ _) as [terminals ds] eqn:E. cbn [fst snd] in *. subst ds.
  by apply normalize_routable.
Qed.

(** The terminal of an END of the plan is one [checkEnd] accepted. *)
Lemma compiled_terminal digest def n : accepted def -> n ∈ cw_Nodes (compiled digest def) -> cn_Type n = StepEnd ->
  exists m e d degraded, m ∈ df_Nodes def /\ cn_Terminal n = Some (terminal_of m e d) /\ nd_ID m = cn_ID n /\ truthful def m degraded e d.
Proof.
  intros Ha Hn Ht. destruct (rt_terminals _ (accepted_routable digest def Ha) n Hn Ht) as [t Hterm]. destruct Ha as [_ _ _ _ H5].
  unfold compiled in Hn. destruct (compile_terminals _ _ _ _) as [terminals ds] eqn:E. cbn [fst snd] in *. subst ds.
  apply plan_nodes in Hn as (k & Hk & ->). cbn [compile_node cn_Terminal cn_ID] in *.
  destruct (proj2 (proj2 (compile_terminals_spec _ _ _ _ _ E)) _ _ Hterm) as [Hm|(m & Hm & Hid & _ & Hc)]; [by rewrite lookup_empty in Hm|].
  apply checkEnd_exact in Hc as (e & _ & Heq & Htr). exists m, e, (tm_Dimensions t), (bool_decide (nd_ID k ∈ gr_degradedEntry (an_graph (analyzeGraph def).1))).
  split_and!; [done|by rewrite Hterm, Heq at 1|done|done].
Qed.

(** C1: An instance of an accepted workflow of released step types always has
    a next step.  When the graph analysis and the terminal checks of a
    well-shaped definition report nothing, every open instance of the compiled
    plan, however it was reached, stands at one active node.  At an END every
    plain completion ends the instance under a terminal [checkEnd] found
    truthful.  At any other node there is an outcome to complete it with, and
    every outcome of the step type or the decision is routed; a failed attempt
    there is refused, with NO_FAILURE_ROUTE, exactly when no attempt is left
    and the node declares no failure route. *)
Theorem compiled_instances_progress (dg : Transition -> string) (digest : CompiledWorkflow -> string) (def : WorkflowDefinition)
    (s : InstanceState) (Ha : accepted def) (Hrel : released_definition def)
    (Hr : reached dg (compiled digest def) s) (Hopen : s_Completed s = false) :
  exists n st, CompiledWorkflow_Node (compiled digest def) (cn_ID n) = Some n /\ s_Frontier s = [cn_ID n] /\
  InstanceState_Node s (cn_ID n) = Some st /\ NodeState_Active (ns_State st) = true /\
  (cn_Type n = StepEnd ->
     (exists m e d degraded, m ∈ df_Nodes def /\ cn_Terminal n = Some (terminal_of m e d) /\ truthful def m degraded e d) /\
     forall o, completing n o -> exists t, Advance dg (Some (compiled digest def)) s o = Ok t /\ s_Completed (t_Next t) = true) /\
  (cn_Type n <> StepEnd ->
     (exists key, expected n key) /\
     (forall o, completing n o -> no_Outcome o <> "" -> expected n (no_Outcome o) ->
        exists t, Advance dg (Some (compiled digest def)) s o = Ok t) /\
     (forall o, failed_attempt n o -> retry_left n (ns_Attempts st) o \/ cn_FailureRoute n <> "" ->
        exists t, Advance dg (Some (compiled digest def)) s o = Ok t) /\
     (forall o, failed_attempt n o -> ~ retry_left n (ns_Attempts st) o -> cn_FailureRoute n = "" ->
        Advance dg (Some (compiled digest def)) s o = Err (mkError CodeNoFailureRoute (cn_ID n)))).
Proof.
  pose proof (accepted_routable digest def Ha) as Hrt.
  destruct (advance_progress dg _ s Hrt Hr Hopen) as (n & st & Hn & Hf & Hst & Hact & Hend & Hother).
  destruct (find_node_ID _ _ _ Hn) as [_ Hin]. exists n, st. split_and!; [done..| |].
  - intros Ht. split; [|by apply Hend].
    destruct (compiled_terminal digest def n Ha Hin Ht) as (m & e & d & degraded & Hm & Hterm & _ & Htr). by exists m, e, d, degraded.
  - intros Ht. destruct (Hother Ht) as [Hkey Hroute]. pose proof (reached_ok dg _ _ (rt_sound _ Hrt) Hr) as Hio.
    pose proof (fun o => Advance_failed dg _ s o n st Hio Hopen Hn Hst Hact) as Hfail. split_and!; [done|done| |].
    + intros o Ho Hor. destruct (Hfail o Ho) as (F1 & _ & F3). destruct (retry_left_dec n (ns_Attempts st) o) as [Hl|Hl]; [by apply F1|].
      destruct Hor as [|Hfr]; [done|]. apply F3; [done|done|].
      destruct (plan_failure_routes digest def _ n (ac_shaped _ Ha) (ac_graph _ Ha) (ac_start _ Ha) Hin Ht Hfr) as [m Hm].
      exists m. split; [exact Hm|]. destruct (find_node_ID _ _ _ Hm) as [_ Hmin].
      apply (released_not_join (compiled digest def)); [by apply plan_released|exact Hmin].
    + intros o Ho. by destruct (Hfail o Ho) as (_ & F2 & _).
Qed.

(** C34: Runs of an accepted workflow of released step types that cannot go
    back are bounded by its declared depth.  When the analysis found no back
    edge and no node declares a failure route, every sequence of advancements
    from the start, each settling its node (no wait, no retry), is at most one
    longer than the maximum depth of the definition. *)
Theorem compiled_runs_bounded (dg : Transition -> string) (digest : CompiledWorkflow -> string) (def : WorkflowDefinition)
    (id : string) (decls : list JoinDeclaration) (s0 s : InstanceState) (ts : list Transition)
    (Ha : accepted def) (Hrel : released_definition def) (Hsize : Z.of_nat (size (nodeIndex def)) < 2 ^ 32) (Hmax : 0 <= li_MaxDepth (df_Limits def))
    (Hacyclic : an_backEdges (analyzeGraph def).1 = []) (Hfail : forall n, n ∈ df_Nodes def -> nd_FailureRoute n = "")
    (Hu : unsigned decls) (Hseed : Seed (Some (compiled digest def)) id decls = Ok s0)
    (Hruns : runs dg (compiled digest def) s0 ts s) (Hset : Forall settled ts) :
  Z.of_nat (length ts) <= li_MaxDepth (df_Limits def) + 1.
Proof.
  pose proof (accepted_routable digest def Ha) as Hrt. destruct Ha as [_ _ Hstart Hgraph _].
  destruct (analysed_depth def Hstart Hsize) as (_ & _ & _ & Hedge & Hpos & Hbound). cbv zeta in *. specialize (Hbound Hmax Hgraph).
  destruct (analyze_start def Hstart) as [Hreach _ _ _ _ Hd]. rewrite Hgraph in Hd. symmetry in Hd. apply app_nil in Hd as [Hres%edge_diagnostics_nil Hd].
  do 4 apply app_nil in Hd as [_ Hd]. destruct (analyze_built def) as [Hb Hn].
  rewrite path_diagnostics_nil, Hn, Hreach in Hd. rewrite (kept_all _ _ Hres) in *.
  set (rank x := Z.to_nat (li_MaxDepth (df_Limits def) - depth_of (an_depth (analyzeGraph def).1) x)).
  assert (Hranked : ranked (compiled digest def) rank).
  { intros m key target (n & Hl & ->)%plan_nodes [He|(_ & Hf & Ht)]; cbn [compile_node cn_ID cn_FailureRoute] in *.
    - unfold compiled, normalize in He. cbn [cw_Edges] in He. rewrite sort_plan_edges_perm in He.
      destruct (Hd _ _ Hl) as [Hp _]. apply (computeReachability_exact _ _ Hb) in Hp.
      assert (Hlink : links (forward (df_Edges def) (an_backEdges (analyzeGraph def).1)) (nd_ID n) target).
      { exists (mkEdge (nd_ID n) target key). split; [|done]. rewrite Hacyclic. apply list_elem_of_filter. split; [apply not_elem_of_nil|exact He]. }
      assert (Hpt : path (df_Edges def) (df_StartNodeID def) target) by (eapply rtc_r; [exact Hp|by exists (mkEdge (nd_ID n) target key)]).
      specialize (Hedge _ _ Hp Hlink). specialize (Hbound _ Hpt). specialize (Hpos (nd_ID n)). unfold rank. lia.
    - rewrite (Hfail n) in Hf by (by apply (nodeIndex_lookup _ _ _ Hl)). congruence. }
  pose proof (runs_terminate dg _ rank id decls s0 s ts (rt_sound _ Hrt) Hranked Hu Hseed Hruns Hset) as Hlen.
  change (cw_StartNodeID (compiled digest def)) with (df_StartNodeID def) in Hlen.
  specialize (Hpos (df_StartNodeID def)). unfold rank in Hlen. lia.
Qed.

(** ** A simulated review *)

Definition simulated : Dimensions :=
  mkDimensions RequestSimulated ExecutionNotPlanned BusinessNotStarted ConsistencyNotApplicable ObligationNotApplicable.
Definition simulated_end (code : string) : EndSpec :=
  mkEnd code RuntimeCompleted (completion_mapping simulated) [] [] [] "" false "" false.
Definition ending (id code : string) : Node := mkNodeDef id StepEnd None None (Some (simulated_end code)) None "".
Definition review_definition (failure : string) : WorkflowDefinition :=
  mkDefinition "review" 1 TerminalProfileSimulateOnly "read"
    [mkNodeDef "read" StepTransform None None None None failure;
     mkNodeDef "gate" StepDecision (Some (mkDecision [mkRoute "ask" "open" 1] "ask")) None None None "";
     ending "done" "SIMULATED"; ending "stop" "STOPPED"]
    [mkEdge "read" "gate" OutcomeSucceeded; mkEdge "read" "stop" OutcomeFailed; mkEdge "gate" "done" "ask"; mkEdge "gate" "stop" OutcomeUnknown]
    (mkLimits 2 2 8 []).
Definition no_plan_digest (p : CompiledWorkflow) : string := "".
Definition review_plan (failure : string) : CompiledWorkflow := compiled no_plan_digest (review_definition failure).
Definition review_start (failure : string) : InstanceState := seeded_state (review_plan failure) [].

Lemma review_accepted failure : failure ∈ [""; "read"] -> accepted (review_definition failure).
Proof.
  intros Hf. split.
  - split; cbn [df_Nodes review_definition].
    + intros n Hn. repeat (apply elem_of_cons in Hn as [->|Hn]; [reflexivity|]). by apply elem_of_nil in Hn.
    + intros n d Hn Hd. repeat (apply elem_of_cons in Hn as [->|Hn]; [try discriminate Hd|]); [|by apply elem_of_nil in Hn].
      injection Hd as <-. split; [done|]. apply (bool_decide_unpack _). vm_compute. exact I.
  - reflexivity.
  - vm_compute. by eexists.
  - repeat (apply elem_of_cons in Hf as [->|Hf]; [vm_compute; reflexivity|]). by apply elem_of_nil in Hf.
  - repeat (apply elem_of_cons in Hf as [->|Hf]; [vm_compute; reflexivity|]). by apply elem_of_nil in Hf.
Qed.

Lemma review_released failure : released_definition (review_definition failure).
Proof. intros n Hn. repeat (apply elem_of_cons in Hn as [->|Hn]; [reflexivity|]). by apply elem_of_nil in Hn. Qed.

Lemma review_seeded : Seed (Some (review_plan "")) "instance" [] = Ok (review_start "").
Proof. vm_compute. reflexivity. Qed.
Lemma review_read : Advance no_digest (Some (review_plan "")) (review_start "") (succeed "read" OutcomeSucceeded)
  = Ok (transition (review_plan "") (review_start "") (succeed "read" OutcomeSucceeded)).
Proof. vm_compute. reflexivity. Qed.

Lemma compiled_instances_progress_witness : exists n, CompiledWorkflow_Node (review_plan "") (cn_ID n) = Some n /\
  s_Frontier (review_start "") = [cn_ID n].
Proof.
  destruct (compiled_instances_progress no_digest no_plan_digest (review_definition "") (review_start "")
    (review_accepted "" ltac:(left)) (review_released "")
    (reached_seed no_digest (review_plan "") "instance" [] (review_start "") ltac:(intros d Hd; apply elem_of_nil in Hd; destruct Hd) review_seeded)
    eq_refl) as (n & st & H1 & H2 & _).
  exists n. split; [exact H1|exact H2].
Defined.

Lemma compiled_runs_bounded_witness :
  Z.of_nat (length [transition (review_plan "") (review_start "") (succeed "read" OutcomeSucceeded)]) <= 3.
Proof.
  refine (compiled_runs_bounded no_digest no_plan_digest (review_definition "") "instance" [] (review_start "")
    (t_Next (transition (review_plan "") (review_start "") (succeed "read" OutcomeSucceeded))) _ (review_accepted "" ltac:(left)) (review_released "") _ _ _ _ _ review_seeded _ _).
  - vm_compute. reflexivity.
  - vm_compute. discriminate.
  - vm_compute. reflexivity.
  - intros n Hn. repeat (apply elem_of_cons in Hn as [->|Hn]; [reflexivity|]). apply elem_of_nil in Hn. destruct Hn.
  - intros d Hd. apply elem_of_nil in Hd. destruct Hd.
  - exact (runs_cons no_digest (review_plan "") (review_start "") (succeed "read" OutcomeSucceeded)
      (transition (review_plan "") (review_start "") (succeed "read" OutcomeSucceeded)) [] _ review_read (runs_nil no_digest (review_plan "") _)).
  - constructor; [left|constructor].
Defined.

(** Failure routes escape the cycle check.  With its first node as its own
    failure route the review is still accepted: the analysis reports no
    diagnostic, finds no back edge and no declared cycle bounds the loop.  At
    run time every failure of that node activates it again, so the instance
    after the failure stands where it stood, without end. *)
Theorem failure_route_cycle_unchecked :
  accepted (review_definition "read") /\ an_backEdges (analyzeGraph (review_definition "read")).1 = [] /\
  li_DeclaredCycles (df_Limits (review_definition "read")) = [] /\
  let s1 := after (review_plan "read") (review_start "read") (failing "read") in
  let s2 := after (review_plan "read") s1 (failing "read") in
  s_Frontier (review_start "read") = ["read"] /\ s_Frontier s1 = ["read"] /\ s_Frontier s2 = ["read"] /\
  s_Sequence s1 = 1 /\ s_Sequence s2 = 2.
Proof. split; [apply review_accepted; right; left|]. cbv zeta. split_and!; vm_compute; reflexivity. Qed.
