(* ===== verification/DecimalAmounts.v ===== *)
(** Decimals as amounts: what [Add], [Sub], [Cmp], [Equal] and [Sign] of
    [FixedDecimal] do to the signed unscaled integers, in the form the
    balances and limits of the garnishment domain use them. *)

From S2P Require Import Prelude CanonicalBytes FixedDecimal.

Local Open Scope Z_scope.

(** A valid decimal of value [q] cents, in units of [10^-s]. *)
Definition amount (d : Decimal) (s q : Z) : Prop := dec_wf d /\ d_scale d = s /\ Decimal_signed d = q.

Lemma amount_of d : dec_wf d -> amount d (d_scale d) (Decimal_signed d).
Proof. done. Qed.

Lemma Validate_amount d : is_ok (Decimal_Validate d) = true <-> dec_wf d.
Proof.
  rewrite is_ok_true. split; [intros [u H]; by eapply Decimal_Validate_inv|].
  intros H. exists tt. by apply Decimal_Validate_ok.
Qed.

Lemma Validate_not_amount d : is_ok (Decimal_Validate d) = false <-> ~ dec_wf d.
Proof. by rewrite <- not_true_iff_false, Validate_amount. Qed.

Lemma Sign_amount d : dec_wf d -> Decimal_Sign d = Z.sgn (Decimal_signed d).
Proof. intros (q & s & m & -> & _). by rewrite Decimal_Sign_dec_of, Decimal_signed_dec_of. Qed.

Lemma Sign_negative d : dec_wf d -> (Decimal_Sign d <? 0) = (Decimal_signed d <? 0).
Proof. intros H. rewrite (Sign_amount d H). lia. Qed.

Lemma amount_dec_of q s m : Z.abs q < 10 ^ MaxPrecision -> 0 <= s <= MaxScale -> RoundingMode_Valid m = true ->
  amount (dec_of q s m) s q.
Proof. intros. split; [by apply dec_wf_dec_of|]. by rewrite Decimal_signed_dec_of. Qed.

(** The sums are exact; they fail on different scales and beyond 38 digits. *)
Lemma Add_amount d o : dec_wf d -> dec_wf o ->
  Decimal_Add d o =
    if negb (d_scale d =? d_scale o) then Err ErrScaleMismatch
    else if Z.abs (Decimal_signed d + Decimal_signed o) <? 10 ^ MaxPrecision
    then Ok (dec_of (Decimal_signed d + Decimal_signed o) (d_scale d) (d_round d)) else Err ErrPrecisionOverflow.
Proof.
  intros Hd Ho. unfold Decimal_Add. rewrite (proj2 (Decimal_Validate_ok d) Hd), (proj2 (Decimal_Validate_ok o) Ho).
  destruct (d_scale d =? d_scale o); cbn; [apply fromSigned_spec|done].
Qed.

Lemma Sub_amount d o : dec_wf d -> dec_wf o ->
  Decimal_Sub d o =
    if negb (d_scale d =? d_scale o) then Err ErrScaleMismatch
    else if Z.abs (Decimal_signed d - Decimal_signed o) <? 10 ^ MaxPrecision
    then Ok (dec_of (Decimal_signed d - Decimal_signed o) (d_scale d) (d_round d)) else Err ErrPrecisionOverflow.
Proof.
  intros Hd Ho. unfold Decimal_Sub. rewrite (proj2 (Decimal_Validate_ok d) Hd), (proj2 (Decimal_Validate_ok o) Ho).
  destruct (d_scale d =? d_scale o); cbn; [apply fromSigned_spec|done].
Qed.

Lemma Add_ok_inv d o r : Decimal_Add d o = Ok r -> dec_wf d /\ dec_wf o /\ d_scale o = d_scale d /\
  amount r (d_scale d) (Decimal_signed d + Decimal_signed o).
Proof.
  unfold Decimal_Add. intros H. ok_inv.
  apply Decimal_Validate_inv in Hok, Hok0. apply negb_false_iff, Z.eqb_eq in Hok1.
  destruct (dec_wf_scale d Hok) as [Hs Hm]. destruct (fromSigned_ok _ _ _ _ Hs Hm H) as (? & ? & ? & ?). by split_and!.
Qed.

Lemma Sub_ok_inv d o r : Decimal_Sub d o = Ok r -> dec_wf d /\ dec_wf o /\ d_scale o = d_scale d /\
  amount r (d_scale d) (Decimal_signed d - Decimal_signed o).
Proof.
  unfold Decimal_Sub. intros H. ok_inv.
  apply Decimal_Validate_inv in Hok, Hok0. apply negb_false_iff, Z.eqb_eq in Hok1.
  destruct (dec_wf_scale d Hok) as [Hs Hm]. destruct (fromSigned_ok _ _ _ _ Hs Hm H) as (? & ? & ? & ?). by split_and!.
Qed.

Lemma Add_round d o r : Decimal_Add d o = Ok r -> d_round r = d_round d.
Proof.
  unfold Decimal_Add. intros H. ok_inv. apply Decimal_Validate_inv in Hok. destruct (dec_wf_scale d Hok) as [Hs Hm].
  by destruct (fromSigned_ok _ _ _ _ Hs Hm H) as (_ & _ & _ & ?).
Qed.

(** The arithmetic never panics. *)
Lemma Validate_no_panic d : Decimal_Validate d <> Panic.
Proof. unfold Decimal_Validate, checkScale, checkMode. no_panic. Qed.
#[export] Hint Resolve Validate_no_panic : panics.
Lemma Add_no_panic d o : Decimal_Add d o <> Panic.
Proof.
  unfold Decimal_Add, Decimal_Validate, checkScale, checkMode, fromSigned, newDecimal. no_panic.
Qed.
Lemma Sub_no_panic d o : Decimal_Sub d o <> Panic.
Proof.
  unfold Decimal_Sub, Decimal_Validate, checkScale, checkMode, fromSigned, newDecimal. no_panic.
Qed.
Lemma Neg_no_panic d : Decimal_Neg d <> Panic.
Proof. unfold Decimal_Neg, fromSigned, newDecimal. no_panic. Qed.
#[export] Hint Resolve Add_no_panic Sub_no_panic Neg_no_panic : panics.

(** [Cmp] compares the rational values. *)
Lemma Cmp_amount d o : dec_wf d -> dec_wf o ->
  Decimal_Cmp d o = big_cmp (Decimal_signed d * 10 ^ d_scale o) (Decimal_signed o * 10 ^ d_scale d).
Proof.
  intros Hd Ho. unfold Decimal_Cmp. rewrite (dec_wf_valid d Hd), (dec_wf_valid o Ho). cbn [negb orb].
  apply dec_wf_scale in Hd as [Hd _]. apply dec_wf_scale in Ho as [Ho _].
  set (a := Decimal_signed d). set (b := Decimal_signed o). unfold pow10.
  set (s := d_scale d) in *. set (t := d_scale o) in *. clearbody s t a b. clear d o.
  assert (Hc : forall x y k, 0 < k -> big_cmp x y = big_cmp (x * k) (y * k)).
  { intros x y k Hk. unfold big_cmp. by rewrite (Zmult_compare_compat_r x y k) by lia. }
  destruct (Z.ltb_spec s t) as [H|H]; [|destruct (Z.ltb_spec t s) as [H'|H']].
  - rewrite (Hc _ _ (10 ^ s)) by (apply pow10_pos; lia). f_equal. rewrite <- Z.mul_assoc, <- Z.pow_add_r by lia. do 2 f_equal; lia.
  - rewrite (Hc _ _ (10 ^ t)) by (apply pow10_pos; lia). f_equal. rewrite <- Z.mul_assoc, <- Z.pow_add_r by lia. do 2 f_equal; lia.
  - assert (s = t) as -> by lia. apply Hc, pow10_pos. lia.
Qed.

Lemma Cmp_greater d o : dec_wf d -> dec_wf o ->
  (0 <? Decimal_Cmp d o) = (Decimal_signed o * 10 ^ d_scale d <? Decimal_signed d * 10 ^ d_scale o).
Proof. intros Hd Ho. rewrite Cmp_amount by done. unfold big_cmp. destruct (Z.compare_spec (Decimal_signed d * 10 ^ d_scale o) (Decimal_signed o * 10 ^ d_scale d)); lia. Qed.

Lemma Cmp_greater_same d o : dec_wf d -> dec_wf o -> d_scale d = d_scale o ->
  (0 <? Decimal_Cmp d o) = (Decimal_signed o <? Decimal_signed d).
Proof.
  intros Hd Ho E. rewrite Cmp_greater by done. rewrite E.
  pose proof (pow10_pos (d_scale o) (proj1 (proj1 (dec_wf_scale o Ho)))).
  destruct (Z.ltb_spec (Decimal_signed o * 10 ^ d_scale o) (Decimal_signed d * 10 ^ d_scale o)),
    (Z.ltb_spec (Decimal_signed o) (Decimal_signed d)); nia.
Qed.

Lemma Equal_values d o : dec_wf d -> dec_wf o ->
  (Decimal_Equal d o = true <-> Decimal_signed d * 10 ^ d_scale o = Decimal_signed o * 10 ^ d_scale d).
Proof.
  intros Hd Ho. unfold Decimal_Equal. rewrite Cmp_amount by done. unfold big_cmp.
  destruct (Z.compare_spec (Decimal_signed d * 10 ^ d_scale o) (Decimal_signed o * 10 ^ d_scale d)); lia.
Qed.

Lemma Equal_amount d o : dec_wf d -> dec_wf o -> d_scale d = d_scale o ->
  Decimal_Equal d o = (Decimal_signed d =? Decimal_signed o).
Proof.
  intros Hd Ho E. unfold Decimal_Equal. rewrite Cmp_amount by done. rewrite E.
  pose proof (pow10_pos (d_scale o) (proj1 (proj1 (dec_wf_scale o Ho)))).
  unfold big_cmp. destruct (Z.compare_spec (Decimal_signed d * 10 ^ d_scale o) (Decimal_signed o * 10 ^ d_scale o)); nia.
Qed.

(** * Negation and quantization *)

Lemma Neg_amount d : dec_wf d -> Decimal_Neg d = Ok (dec_of (- Decimal_signed d) (d_scale d) (d_round d)).
Proof.
  intros H. unfold Decimal_Neg. rewrite (proj2 (Decimal_Validate_ok d) H). cbn [mbind outcome_bind].
  rewrite fromSigned_spec, Z.abs_opp. by rewrite (proj2 (Z.ltb_lt _ _) (dec_wf_bound d H)).
Qed.

Lemma amount_eta d s q : amount d s q -> d = dec_of q s (d_round d).
Proof. intros (H & <- & <-). by apply dec_wf_eta. Qed.

Section quantize.
Context `{B : DecimalBackend}.

(** At its own scale a decimal only takes the rounding mode. *)
Lemma Quantize_same d m : dec_wf d -> RoundingMode_Valid m = true ->
  Decimal_Quantize d (d_scale d) m = Ok (dec_of (Decimal_signed d) (d_scale d) m).
Proof.
  intros H Hm. unfold Decimal_Quantize. rewrite (proj2 (Decimal_Validate_ok d) H). cbn [mbind outcome_bind].
  unfold quantizeSigned. rewrite (proj2 (checkScale_ok _) (proj1 (dec_wf_scale d H))), (proj2 (checkMode_ok _) Hm). cbn [mbind outcome_bind].
  rewrite Z.leb_refl, Z.sub_diag. unfold pow10. rewrite Z.pow_0_r, Z.mul_1_r, fromSigned_spec.
  by rewrite (proj2 (Z.ltb_lt _ _) (dec_wf_bound d H)).
Qed.

Lemma Quantize_wf d s m r : Decimal_Quantize d s m = Ok r -> dec_wf d /\ dec_wf r /\ d_scale r = s /\ d_round r = m.
Proof.
  unfold Decimal_Quantize. intros H. apply bind_ok_inv in H as (u & H1 & H2). split; [by eapply Decimal_Validate_inv|].
  by eapply quantizeSigned_wf.
Qed.

Context `{L : !DecimalBackendLaws B}.

(** Every mode but [RoundingExactRequired] rounds everything. *)
Lemma rounds_or_inexact mode n d : 0 < d -> RoundingMode_Valid mode = true ->
  (exists q, rounds mode n d q) \/ (mode = RoundingExactRequired /\ forall q, ~ rounds RoundingExactRequired n d q).
Proof.
  intros Hd Hm. assert (Hs : (if n <? 0 then - Z.abs n else Z.abs n) = n) by (destruct (Z.ltb_spec n 0); lia).
  destruct (decide (mode = RoundingExactRequired /\ Z.abs n mod d <> 0)) as [[-> Hx]|Hx].
  - right. split; [done|]. intros q Hq. cbn in Hq. apply Hx. rewrite <- Hq, Z.abs_mul, (Z.abs_eq d) by lia. apply Z.mod_mul. lia.
  - left. pose proof (round_mag_rounds mode (n <? 0) (Z.abs n) d ltac:(lia) Hd Hm) as H. rewrite Hs in H. eexists. apply H.
    intros E. destruct (decide (Z.abs n mod d = 0)); [done|]. exfalso. by apply Hx.
Qed.

(** Quantization rounds once, by its mode. *)
Lemma Quantize_amount d s m r : dec_wf d -> 0 <= s <= MaxScale -> RoundingMode_Valid m = true ->
  Decimal_Quantize d s m = Ok r <->
  exists q, rounds m (Decimal_signed d * 10 ^ s) (10 ^ d_scale d) q /\ Z.abs q < 10 ^ MaxPrecision /\ r = dec_of q s m.
Proof.
  intros Hd Hs Hm. unfold Decimal_Quantize. rewrite (proj2 (Decimal_Validate_ok d) Hd). cbn [mbind outcome_bind].
  pose proof (proj1 (dec_wf_scale d Hd)) as Hsc. pose proof (pow10_pos (d_scale d) (proj1 Hsc)) as Hp.
  assert (Hspec : forall q, rounds m (Decimal_signed d * 10 ^ s) (10 ^ d_scale d) q ->
    quantizeSigned (Decimal_signed d) (d_scale d) s m = Ok r <-> Z.abs q < 10 ^ MaxPrecision /\ r = dec_of q s m).
  { intros q Hq. pose proof (quantizeSigned_spec (Decimal_signed d) (d_scale d) s m q (proj1 Hsc) Hs Hm Hq) as H.
    destruct (Z.ltb_spec (Z.abs q) (10 ^ MaxPrecision)); [rewrite H; naive_solver|]. destruct H as [e ->]. split; [done|lia]. }
  split.
  - intros H. destruct (rounds_or_inexact m (Decimal_signed d * 10 ^ s) (10 ^ d_scale d) Hp Hm) as [[q Hq]|[-> Hn]].
    + exists q. split; [done|]. by apply (Hspec q).
    + by rewrite quantizeSigned_inexact in H by (done || lia).
  - intros (q & Hq & Hb & ->). by apply (Hspec q).
Qed.

Lemma Quantize_no_panic d s m : Decimal_Quantize d s m <> Panic.
Proof.
  unfold Decimal_Quantize. destruct (Decimal_Validate d) as [u| |] eqn:Hv; [|done|by destruct (Validate_no_panic d)].
  apply Decimal_Validate_inv in Hv. cbn [mbind outcome_bind]. pose proof (proj1 (dec_wf_scale d Hv)) as Hsc.
  assert (Hn : (0 <= s <= MaxScale /\ RoundingMode_Valid m = true) \/ exists e, quantizeSigned (Decimal_signed d) (d_scale d) s m = Err e).
  { unfold quantizeSigned. destruct (checkScale s) as [[]|e|] eqn:E1; [|by right; exists e|unfold checkScale, fail_if in E1; by repeat case_match].
    destruct (checkMode m) as [[]|e|] eqn:E2; [|by right; exists e|unfold checkMode, fail_if in E2; by repeat case_match].
    left. by rewrite checkScale_ok in E1; rewrite checkMode_ok in E2. }
  destruct Hn as [[Hs Hm]|[e ->]]; [|done].
  destruct (rounds_or_inexact m (Decimal_signed d * 10 ^ s) (10 ^ d_scale d) (pow10_pos _ (proj1 Hsc)) Hm) as [[q Hq]|[-> Hx]].
  - pose proof (quantizeSigned_spec (Decimal_signed d) (d_scale d) s m q (proj1 Hsc) Hs Hm Hq) as H.
    destruct (_ <? _) in H; [by rewrite H|]. by destruct H as [e ->].
  - by rewrite quantizeSigned_inexact by (done || lia).
Qed.

End quantize.

#[export] Hint Resolve Quantize_no_panic : panics.

(** The literal zero of a scale and mode. *)
Lemma NewDecimal_zero s m : 0 <= s <= MaxScale -> RoundingMode_Valid m = true -> NewDecimal "0" s m = Ok (dec_of 0 s m).
Proof.
  intros Hs Hm. change "0"%string with (sign_text false +:+ plain_text "0" "").
  rewrite NewDecimal_plain; [|split_and!; done|apply Hs|done|done]. cbn [andb]. cbv zeta.
  change (dec_value ("0" +:+ "") 0) with 0. by rewrite Z.mul_0_l.
Qed.

(** * Checks of amounts *)

(** [err := d.Validate(); err != nil || d.Sign() < 0]. *)
Definition not_nonnegative (d : Decimal) : bool := negb (is_ok (Decimal_Validate d)) || (Decimal_Sign d <? 0).

(** [err := d.Validate(); err != nil] and the sign must be positive. *)
Definition not_positive (d : Decimal) : bool := negb (is_ok (Decimal_Validate d)) || (Decimal_Sign d <=? 0).

Lemma not_nonnegative_false d : not_nonnegative d = false <-> dec_wf d /\ 0 <= Decimal_signed d.
Proof.
  unfold not_nonnegative. rewrite orb_false_iff, negb_false_iff, Validate_amount.
  split; intros [H1 H2]; (split; [done|]); pose proof (Sign_negative d H1); lia.
Qed.

Lemma not_positive_false d : not_positive d = false <-> dec_wf d /\ 0 < Decimal_signed d.
Proof.
  unfold not_positive. rewrite orb_false_iff, negb_false_iff, Validate_amount.
  split; intros [H1 H2]; (split; [done|]); rewrite Sign_amount in * by done; lia.
Qed.

(** * Amounts in canonical streams *)

Lemma value_encodable tag d : tag <> "" -> dec_wf d -> op_encodable (WValue tag (Decimal_Canonical d)).
Proof. intros Ht Hd. destruct (Decimal_Canonical_some d Hd) as [c ->]. done. Qed.

(** Streams of strings, numbers and valid amounts. *)
Ltac encodable := repeat (constructor; [first [done | by apply value_encodable]|]); try (by constructor).
