(* ===== verification/GarnishmentOrder.v ===== *)
(** Wage-attachment orders and their effective-dated lifecycle:
    [internal/domains/garnishment/order.go] and [lifecycle006.go].

    An [AttachmentOrder] is the struct, its evidence map a [gmap]; a method
    that returns a new order is a function to an outcome.  A rejection carries
    the sentinel, field and state of the Go error ([Reason] is its text and is
    not modelled).  The theorems at the end are about the orders that can be
    obtained from [IntakeOrder] by the package's operations. *)

From S2P Require Import Prelude GoStrings Sorting CanonicalBytes FixedDecimal CivilTime.

Local Open Scope Z_scope.

(** * Package time: comparison, the zero time and the text of an instant *)

Definition time_Before (t u : GoTime) : bool :=
  (t_unix t <? t_unix u) || ((t_unix t =? t_unix u) && (t_nanosecond t <? t_nanosecond u)).
Definition time_Equal (t u : GoTime) : bool := (t_unix t =? t_unix u) && (t_nanosecond t =? t_nanosecond u).

(** [time.Time{}]: January 1, year 1, 00:00:00 UTC. *)
Definition time_zero : GoTime := mkGoTime (-62135596800) 0.
Definition time_IsZero (t : GoTime) : bool := time_Equal t time_zero.

#[export] Instance GoTime_eq_dec : EqDecision GoTime.
Proof. solve_decision. Defined.

(** [t.UTC().Format(layout)] for [time.RFC3339] and [time.RFC3339Nano]; the
    latter drops the trailing zeros of the fraction. *)
Fixpoint trim_zeros (s : string) : string :=
  match s with
  | EmptyString => EmptyString
  | String c s' =>
      match trim_zeros s' with
      | EmptyString => if Ascii.eqb c "0" then EmptyString else String c EmptyString
      | r => String c r
      end
  end.
Definition year_text (y : Z) : string := if y <? 0 then "-" +:+ pad 4 (- y) else pad 4 y.
Definition seconds_text (t : GoTime) : string :=
  let '(y, m, d) := civil_of_days (t_unix t / 86400) in
  let s := t_unix t mod 86400 in
  year_text y +:+ "-" +:+ pad 2 m +:+ "-" +:+ pad 2 d +:+ "T" +:+
  pad 2 (s / 3600) +:+ ":" +:+ pad 2 (s mod 3600 / 60) +:+ ":" +:+ pad 2 (s mod 60).
Definition Format_RFC3339 (t : GoTime) : string := seconds_text t +:+ "Z".
Definition Format_RFC3339Nano (t : GoTime) : string :=
  seconds_text t +:+
  (if t_nanosecond t =? 0 then "" else "." +:+ trim_zeros (pad 9 (t_nanosecond t))) +:+ "Z".

(** * Rejections *)

Inductive garn_sentinel : Type :=
  | ErrOrderRejected | ErrLifecycleRejected | ErrLimitBlocked | ErrCompositionReview
  | ErrBalanceRejected | ErrGarnReconRejected.

Record garn_err : Type := mkGarnErr { ge_is : garn_sentinel; ge_Field : string; ge_State : string }.

#[export] Instance garn_sentinel_eq_dec : EqDecision garn_sentinel.
Proof. solve_decision. Defined.
#[export] Instance garn_err_eq_dec : EqDecision garn_err.
Proof. solve_decision. Defined.

Definition orderReject (field state : string) : garn_err := mkGarnErr ErrOrderRejected field state.
Definition lifecycleReject (field state : string) : garn_err := mkGarnErr ErrLifecycleRejected field state.

(** * Orders *)

Definition OrderType : Type := string.
Definition OrderChildSupport : OrderType := "CHILD_SUPPORT".
Definition OrderTaxLevy : OrderType := "TAX_LEVY".
Definition OrderCreditor : OrderType := "CREDITOR".
Definition OrderStudentLoan : OrderType := "STUDENT_LOAN".

Definition OrderType_Valid (t : OrderType) : bool :=
  String.eqb t OrderChildSupport || String.eqb t OrderTaxLevy || String.eqb t OrderCreditor || String.eqb t OrderStudentLoan.

Definition OrderStatus : Type := string.
Definition OrderPendingVerification : OrderStatus := "PENDING_VERIFICATION".
Definition OrderActive : OrderStatus := "ACTIVE".
Definition OrderSuperseded : OrderStatus := "SUPERSEDED".
Definition OrderReleased : OrderStatus := "RELEASED".
Definition OrderTerminated : OrderStatus := "TERMINATED".

Definition RequiredEvidenceKeys : list string :=
  ["authority"; "jurisdiction"; "person"; "dates"; "balance"; "priority"; "remittance"]%string.

Record IntakeRequest : Type := mkIntake {
  in_TenantID : string; in_OrderID : string; in_OrderType : OrderType; in_Jurisdiction : string;
  in_PersonRef : string; in_IssuingAuthority : string; in_EffectiveFrom : GoTime; in_EffectiveTo : GoTime;
  in_ReceivedAt : GoTime; in_ClaimedBalance : Decimal; in_Priority : Z; in_RemittanceRef : string;
  in_DocumentDigest : string
}.

Record AmendRequest : Type := mkAmend { am_ClaimedBalance : Decimal; am_Reason : string; am_AmendedBy : string }.

Record AttachmentOrder : Type := mkOrder {
  o_TenantID : string; o_OrderID : string; o_Version : Z; o_OrderType : OrderType; o_Jurisdiction : string;
  o_PersonRef : string; o_IssuingAuthority : string; o_EffectiveFrom : GoTime; o_EffectiveTo : GoTime;
  o_ReceivedAt : GoTime; o_ClaimedBalance : Decimal; o_Priority : Z; o_RemittanceRef : string;
  o_DocumentDigest : string; o_Evidence : gmap string string; o_Status : OrderStatus; o_Supersedes : string;
  o_Digest : string
}.

(** [m[key]] of a map of strings. *)
Definition map_get (m : gmap string string) (key : string) : string := default EmptyString (m !! key).

(** The field assignments of the operations. *)
Definition with_Digest (d : string) (o : AttachmentOrder) : AttachmentOrder :=
  mkOrder (o_TenantID o) (o_OrderID o) (o_Version o) (o_OrderType o) (o_Jurisdiction o) (o_PersonRef o)
    (o_IssuingAuthority o) (o_EffectiveFrom o) (o_EffectiveTo o) (o_ReceivedAt o) (o_ClaimedBalance o)
    (o_Priority o) (o_RemittanceRef o) (o_DocumentDigest o) (o_Evidence o) (o_Status o) (o_Supersedes o) d.
Definition with_Status (s : OrderStatus) (o : AttachmentOrder) : AttachmentOrder :=
  mkOrder (o_TenantID o) (o_OrderID o) (o_Version o) (o_OrderType o) (o_Jurisdiction o) (o_PersonRef o)
    (o_IssuingAuthority o) (o_EffectiveFrom o) (o_EffectiveTo o) (o_ReceivedAt o) (o_ClaimedBalance o)
    (o_Priority o) (o_RemittanceRef o) (o_DocumentDigest o) (o_Evidence o) s (o_Supersedes o) (o_Digest o).
Definition with_Evidence (e : gmap string string) (o : AttachmentOrder) : AttachmentOrder :=
  mkOrder (o_TenantID o) (o_OrderID o) (o_Version o) (o_OrderType o) (o_Jurisdiction o) (o_PersonRef o)
    (o_IssuingAuthority o) (o_EffectiveFrom o) (o_EffectiveTo o) (o_ReceivedAt o) (o_ClaimedBalance o)
    (o_Priority o) (o_RemittanceRef o) (o_DocumentDigest o) e (o_Status o) (o_Supersedes o) (o_Digest o).

(** [next.Version, next.ClaimedBalance, ... ] of [Amend]. *)
Definition successor (balance : Decimal) (o : AttachmentOrder) : AttachmentOrder :=
  mkOrder (o_TenantID o) (o_OrderID o) (to_int64 (o_Version o + 1)) (o_OrderType o) (o_Jurisdiction o) (o_PersonRef o)
    (o_IssuingAuthority o) (o_EffectiveFrom o) (o_EffectiveTo o) (o_ReceivedAt o) balance
    (o_Priority o) (o_RemittanceRef o) (o_DocumentDigest o) ∅ OrderPendingVerification (o_Digest o) (o_Digest o).

Definition order_ops (o : AttachmentOrder) : list op :=
  [ WString "tenant" (o_TenantID o); WString "order" (o_OrderID o); WInt "version" (o_Version o);
    WString "type" (o_OrderType o); WString "jurisdiction" (o_Jurisdiction o); WString "person" (o_PersonRef o);
    WString "authority" (o_IssuingAuthority o);
    WString "effective_from" (Format_RFC3339Nano (o_EffectiveFrom o));
    WString "effective_to" (Format_RFC3339Nano (o_EffectiveTo o));
    WString "received_at" (Format_RFC3339Nano (o_ReceivedAt o));
    WString "balance" (Decimal_String (o_ClaimedBalance o)); WInt "priority" (o_Priority o);
    WString "remittance" (o_RemittanceRef o); WString "document" (o_DocumentDigest o);
    WString "status" (o_Status o); WString "supersedes" (o_Supersedes o) ]%string ++
  ((fun key => WString ("evidence." +:+ key) (map_get (o_Evidence o) key)) <$> RequiredEvidenceKeys).

Section orders.
Context `{SHA : Sha256}.

Definition orderDigest (o : AttachmentOrder) : string :=
  match Writer_Digest (ops_run (order_ops o) (New "hcmnext.domains.garnishment.AttachmentOrder" 1)) with
  | Ok digest => digest
  | _ => "sha256:" +:+ hex_EncodeToString (sha256_Sum256
           (str_bytes (o_TenantID o) ++ [0] ++ str_bytes (o_OrderID o) ++ [0] ++ str_bytes (itoa (o_Version o))))
  end.

(** [next.Digest = orderDigest(next)]. *)
Definition seal (o : AttachmentOrder) : AttachmentOrder := with_Digest (orderDigest o) o.

Definition IntakeOrder (req : IntakeRequest) : outcome garn_err AttachmentOrder :=
  _ ← fail_if (is_blank (in_TenantID req) || is_blank (in_OrderID req)) (orderReject "order.identity" "MISSING");
  _ ← fail_if (negb (OrderType_Valid (in_OrderType req))) (orderReject "order.type" "UNDECLARED");
  _ ← fail_if (is_blank (in_Jurisdiction req) || is_blank (in_PersonRef req) || is_blank (in_IssuingAuthority req))
        (orderReject "order.parties" "MISSING");
  _ ← fail_if (time_IsZero (in_EffectiveFrom req) || time_IsZero (in_ReceivedAt req)) (orderReject "order.dates" "MISSING");
  _ ← fail_if (negb (time_IsZero (in_EffectiveTo req)) && negb (time_Before (in_EffectiveFrom req) (in_EffectiveTo req)))
        (orderReject "order.dates" "INVALID");
  _ ← fail_if (negb (is_ok (Decimal_Validate (in_ClaimedBalance req)))) (orderReject "order.balance" "INVALID");
  _ ← fail_if ((in_Priority req <? 0) || is_blank (in_RemittanceRef req) || is_blank (in_DocumentDigest req))
        (orderReject "order.remittance" "MISSING");
  Ok (seal (mkOrder (in_TenantID req) (in_OrderID req) 1 (in_OrderType req) (in_Jurisdiction req) (in_PersonRef req)
              (in_IssuingAuthority req) (in_EffectiveFrom req) (in_EffectiveTo req) (in_ReceivedAt req)
              (in_ClaimedBalance req) (in_Priority req) (in_RemittanceRef req) (in_DocumentDigest req) ∅
              OrderPendingVerification "" "")).

(** The first required key that is not bound. *)
Fixpoint unbound (evidence : gmap string string) (keys : list string) : option string :=
  match keys with
  | [] => None
  | key :: rest => if is_blank (map_get evidence key) then Some key else unbound evidence rest
  end.

(** [("", true)] is [None]. *)
Definition AttachmentOrder_verified (o : AttachmentOrder) : option string := unbound (o_Evidence o) RequiredEvidenceKeys.

Definition AttachmentOrder_Verify (o : AttachmentOrder) (evidence : gmap string string) : outcome garn_err AttachmentOrder :=
  _ ← fail_if (negb (String.eqb (o_Status o) OrderPendingVerification)) (orderReject "order.status" "IMMUTABLE");
  match unbound evidence RequiredEvidenceKeys with
  | Some key => Err (orderReject ("evidence." +:+ key) "UNVERIFIED")
  | None => Ok (seal (with_Evidence evidence o))
  end.

Definition AttachmentOrder_ActivateFor (o : AttachmentOrder) (tenant person by_ : string) : outcome garn_err AttachmentOrder :=
  _ ← fail_if (negb (String.eqb tenant (o_TenantID o))) (orderReject "order.tenant" "MISMATCH");
  _ ← fail_if (negb (String.eqb person (o_PersonRef o))) (orderReject "order.person" "MISMATCH");
  _ ← fail_if (is_blank by_) (orderReject "order.activated_by" "MISSING");
  _ ← fail_if (negb (String.eqb (o_Status o) OrderPendingVerification)) (orderReject "order.status" "IMMUTABLE");
  match AttachmentOrder_verified o with
  | Some key => Err (orderReject ("evidence." +:+ key) "UNVERIFIED")
  | None => Ok (seal (with_Status OrderActive o))
  end.

Definition AttachmentOrder_Activate (o : AttachmentOrder) (by_ : string) : outcome garn_err AttachmentOrder :=
  AttachmentOrder_ActivateFor o (o_TenantID o) (o_PersonRef o) by_.

Definition AttachmentOrder_Amend (o : AttachmentOrder) (req : AmendRequest) : outcome garn_err AttachmentOrder :=
  _ ← fail_if (negb (is_ok (Decimal_Validate (am_ClaimedBalance req)))) (orderReject "order.balance" "INVALID");
  _ ← fail_if (is_blank (am_Reason req) || is_blank (am_AmendedBy req)) (orderReject "order.amendment" "MISSING");
  Ok (seal (successor (am_ClaimedBalance req) o)).

Definition AttachmentOrder_Release (o : AttachmentOrder) (by_ reason : string) : outcome garn_err AttachmentOrder :=
  _ ← fail_if (negb (String.eqb (o_Status o) OrderActive)) (orderReject "order.status" "IMMUTABLE");
  _ ← fail_if (is_blank by_ || is_blank reason) (orderReject "order.release" "MISSING");
  Ok (seal (with_Status OrderReleased o)).

(** * Effective-dated transitions *)

Definition TransitionKind : Type := string.
Definition TransitionAmend : TransitionKind := "AMEND".
Definition TransitionRelease : TransitionKind := "RELEASE".
Definition TransitionTerminate : TransitionKind := "TERMINATE".
Definition TransitionKind_valid (k : TransitionKind) : bool :=
  String.eqb k TransitionAmend || String.eqb k TransitionRelease || String.eqb k TransitionTerminate.

Record DatedNotice : Type := mkNotice { n_EffectiveAt : GoTime; n_NoticedAt : GoTime; n_Actor : string; n_Reason : string }.

Record CorrectionObligation : Type := mkCorrection { co_PeriodFrom : GoTime; co_PeriodTo : GoTime; co_Reason : string }.

Record LifecycleReceipt : Type := mkReceipt {
  r_OrderID : string; r_Version : Z; r_Kind : TransitionKind; r_PriorDigest : string; r_NewDigest : string;
  r_Status : OrderStatus; r_EffectiveAt : GoTime; r_NoticedAt : GoTime; r_LateNotice : bool;
  r_Correction : option CorrectionObligation; r_Actor : string; r_Reason : string; r_CanonicalDigest : string
}.

Definition validateTransition (order : AttachmentOrder) (notice : DatedNotice) : outcome garn_err unit :=
  _ ← fail_if (negb (String.eqb (o_Status order) OrderActive)) (lifecycleReject "order.status" "NOT_ACTIVE");
  _ ← fail_if (time_IsZero (n_EffectiveAt notice) || time_IsZero (n_NoticedAt notice)) (lifecycleReject "order.dates" "MISSING");
  _ ← fail_if (is_blank (n_Actor notice) || is_blank (n_Reason notice)) (lifecycleReject "order.notice" "MISSING");
  _ ← fail_if (time_Before (n_EffectiveAt notice) (o_EffectiveFrom order)) (lifecycleReject "order.validity" "PREMATURE");
  fail_if (negb (time_IsZero (o_EffectiveTo order)) && negb (time_Before (n_EffectiveAt notice) (o_EffectiveTo order)))
    (lifecycleReject "order.validity" "EXPIRED").

Definition receipt_ops (r : LifecycleReceipt) : list op :=
  [ WString "order" (r_OrderID r); WInt "version" (r_Version r); WString "kind" (r_Kind r);
    WString "prior_digest" (r_PriorDigest r); WString "new_digest" (r_NewDigest r); WString "status" (r_Status r);
    WString "effective_at" (Format_RFC3339Nano (r_EffectiveAt r));
    WString "noticed_at" (Format_RFC3339Nano (r_NoticedAt r));
    WBool "late_notice" (r_LateNotice r); WBool "has_correction" (bool_decide (is_Some (r_Correction r))) ]%string ++
  match r_Correction r with
  | Some c => [ WString "correction_from" (Format_RFC3339Nano (co_PeriodFrom c));
                WString "correction_to" (Format_RFC3339Nano (co_PeriodTo c));
                WString "correction_reason" (co_Reason c) ]%string
  | None => []
  end ++
  [ WString "actor" (r_Actor r); WString "reason" (r_Reason r) ]%string.

Definition LifecycleReceipt_computedDigest (r : LifecycleReceipt) : string :=
  digest_or_empty (ops_run (receipt_ops r) (New "hcmnext.domains.garnishment.LifecycleReceipt" 1)).

Definition receipt_with_digest (d : string) (r : LifecycleReceipt) : LifecycleReceipt :=
  mkReceipt (r_OrderID r) (r_Version r) (r_Kind r) (r_PriorDigest r) (r_NewDigest r) (r_Status r) (r_EffectiveAt r)
    (r_NoticedAt r) (r_LateNotice r) (r_Correction r) (r_Actor r) (r_Reason r) d.

Definition late_reason : string := "late notice: withholdings on or after the effective date must be corrected".

Definition sealReceipt (orderID : string) (version : Z) (kind : TransitionKind) (prior next : AttachmentOrder)
    (notice : DatedNotice) : LifecycleReceipt :=
  let late := time_Before (n_EffectiveAt notice) (n_NoticedAt notice) in
  let receipt := mkReceipt orderID version kind (o_Digest prior) (o_Digest next) (o_Status next)
    (n_EffectiveAt notice) (n_NoticedAt notice) late
    (if late then Some (mkCorrection (n_EffectiveAt notice) (n_NoticedAt notice) late_reason) else None)
    (n_Actor notice) (n_Reason notice) "" in
  receipt_with_digest (LifecycleReceipt_computedDigest receipt) receipt.

Definition ApplyRelease (order : AttachmentOrder) (notice : DatedNotice) : outcome garn_err (AttachmentOrder * LifecycleReceipt) :=
  _ ← validateTransition order notice;
  next ← AttachmentOrder_Release order (n_Actor notice) (n_Reason notice);
  Ok (next, sealReceipt (o_OrderID order) (o_Version next) TransitionRelease order next notice).

Definition ApplyAmendment (order : AttachmentOrder) (notice : DatedNotice) (req : AmendRequest)
    : outcome garn_err (AttachmentOrder * LifecycleReceipt) :=
  _ ← validateTransition order notice;
  next ← AttachmentOrder_Amend order req;
  Ok (next, sealReceipt (o_OrderID order) (o_Version next) TransitionAmend order next notice).

Definition ApplyTermination (order : AttachmentOrder) (notice : DatedNotice) : outcome garn_err (AttachmentOrder * LifecycleReceipt) :=
  _ ← validateTransition order notice;
  let next := seal (with_Status OrderTerminated order) in
  Ok (next, sealReceipt (o_OrderID order) (o_Version next) TransitionTerminate order next notice).

Definition IsDeductible (order : AttachmentOrder) (at_ : GoTime) : bool :=
  if negb (String.eqb (o_Status order) OrderActive) then false
  else if time_Before at_ (o_EffectiveFrom order) then false
  else if negb (time_IsZero (o_EffectiveTo order)) && negb (time_Before at_ (o_EffectiveTo order)) then false
  else true.

(** The status a kind of transition leaves. *)
Definition status_of_kind (k : TransitionKind) : OrderStatus :=
  if String.eqb k TransitionAmend then OrderPendingVerification
  else if String.eqb k TransitionRelease then OrderReleased
  else if String.eqb k TransitionTerminate then OrderTerminated else EmptyString.

Definition LifecycleReceipt_Verify (r : LifecycleReceipt) : outcome garn_err unit :=
  _ ← fail_if (is_blank (r_OrderID r) || (r_Version r <=? 0) || negb (TransitionKind_valid (r_Kind r)))
        (lifecycleReject "receipt.identity" "MISSING");
  _ ← fail_if (negb (String.eqb (r_Status r) (status_of_kind (r_Kind r)))) (lifecycleReject "receipt.status" "MISMATCH");
  _ ← fail_if (is_blank (r_PriorDigest r) || is_blank (r_NewDigest r) || String.eqb (r_PriorDigest r) (r_NewDigest r))
        (lifecycleReject "receipt.lineage" "BROKEN");
  _ ← fail_if (time_IsZero (r_EffectiveAt r) || time_IsZero (r_NoticedAt r) || is_blank (r_Actor r))
        (lifecycleReject "receipt.dates" "MISSING");
  _ ← fail_if (xorb (time_Before (r_EffectiveAt r) (r_NoticedAt r)) (r_LateNotice r)) (lifecycleReject "receipt.late_notice" "MISMATCH");
  _ ← (if negb (r_LateNotice r)
       then fail_if (bool_decide (is_Some (r_Correction r))) (lifecycleReject "receipt.correction" "MISMATCH")
       else match r_Correction r with
            | None => Err (lifecycleReject "receipt.correction" "MISSING")
            | Some c =>
                fail_if (negb (time_Equal (co_PeriodFrom c) (r_EffectiveAt r)) || negb (time_Equal (co_PeriodTo c) (r_NoticedAt r))
                         || is_blank (co_Reason c)) (lifecycleReject "receipt.correction" "MISMATCH")
            end);
  fail_if (String.eqb (r_CanonicalDigest r) "" || negb (String.eqb (LifecycleReceipt_computedDigest r) (r_CanonicalDigest r)))
    (lifecycleReject "receipt.seal" "MISMATCH").

End orders.

Section digests.
Context `{SHA : Sha256}.

Lemma order_ops_encodable o : Forall op_encodable (order_ops o).
Proof. unfold order_ops, RequiredEvidenceKeys. cbn [fmap list_fmap app]. repeat constructor; done. Qed.

Lemma orderDigest_eq o :
  orderDigest o = Digest (w_buf (ops_run (order_ops o) (New "hcmnext.domains.garnishment.AttachmentOrder" 1))).
Proof. unfold orderDigest. by rewrite stream_digest by (done || apply order_ops_encodable). Qed.

Lemma orderDigest_not_blank o : is_blank (orderDigest o) = false.
Proof. rewrite orderDigest_eq. apply Digest_not_blank. Qed.

(** The digest does not depend on the digest field. *)
Lemma orderDigest_with_Digest d o : orderDigest (with_Digest d o) = orderDigest o.
Proof. reflexivity. Qed.

Lemma seal_sealed o : o_Digest (seal o) = orderDigest (seal o).
Proof. reflexivity. Qed.

Lemma receipt_ops_encodable r : Forall op_encodable (receipt_ops r).
Proof. unfold receipt_ops. destruct (r_Correction r); cbn [app]; repeat constructor; done. Qed.

Lemma receipt_digest_eq r :
  LifecycleReceipt_computedDigest r = Digest (w_buf (ops_run (receipt_ops r) (New "hcmnext.domains.garnishment.LifecycleReceipt" 1))).
Proof. unfold LifecycleReceipt_computedDigest, digest_or_empty. by rewrite stream_digest by (done || apply receipt_ops_encodable). Qed.

End digests.

(** * Evidence *)

Lemma unbound_none evidence keys :
  unbound evidence keys = None <-> Forall (fun key => is_blank (map_get evidence key) = false) keys.
Proof.
  induction keys as [|k ks IH]; cbn; [done|]. rewrite Forall_cons.
  destruct (is_blank (map_get evidence k)); [split; [done|by intros [? _]]|]. rewrite IH. naive_solver.
Qed.

(** * Histories of an order *)

Section histories.
Context `{SHA : Sha256}.

(** One operation of the package on an order. *)
Inductive order_step (o : AttachmentOrder) : AttachmentOrder -> Prop :=
  | step_verify evidence o' : AttachmentOrder_Verify o evidence = Ok o' -> order_step o o'
  | step_activate tenant person by_ o' : AttachmentOrder_ActivateFor o tenant person by_ = Ok o' -> order_step o o'
  | step_amend req o' : AttachmentOrder_Amend o req = Ok o' -> order_step o o'
  | step_release by_ reason o' : AttachmentOrder_Release o by_ reason = Ok o' -> order_step o o'
  | step_apply_release notice o' r : ApplyRelease o notice = Ok (o', r) -> order_step o o'
  | step_apply_amendment notice req o' r : ApplyAmendment o notice req = Ok (o', r) -> order_step o o'
  | step_terminate notice o' r : ApplyTermination o notice = Ok (o', r) -> order_step o o'.

(** The versions and states of an order since its intake, the newest first. *)
Inductive order_history (req : IntakeRequest) : list AttachmentOrder -> Prop :=
  | history_intake o : IntakeOrder req = Ok o -> order_history req [o]
  | history_step o o' h : order_history req (o :: h) -> order_step o o' -> order_history req (o' :: o :: h).

(** What no operation changes. *)
Definition order_identity (o : AttachmentOrder) :=
  (o_TenantID o, o_OrderID o, o_OrderType o, o_Jurisdiction o, o_PersonRef o, o_IssuingAuthority o,
   (o_EffectiveFrom o, o_EffectiveTo o, o_ReceivedAt o), o_Priority o, o_RemittanceRef o, o_DocumentDigest o).
Definition intake_identity (r : IntakeRequest) :=
  (in_TenantID r, in_OrderID r, in_OrderType r, in_Jurisdiction r, in_PersonRef r, in_IssuingAuthority r,
   (in_EffectiveFrom r, in_EffectiveTo r, in_ReceivedAt r), in_Priority r, in_RemittanceRef r, in_DocumentDigest r).

(** The states an order moves through. *)
Definition moves (o o' : AttachmentOrder) : Prop :=
  (o_Status o = OrderPendingVerification /\ o_Status o' = OrderPendingVerification) \/
  (o_Status o = OrderPendingVerification /\ o_Status o' = OrderActive) \/
  (o_Status o = OrderActive /\ (o_Status o' = OrderReleased \/ o_Status o' = OrderTerminated)).

(** A step within a version, and the step to the next version. *)
Definition same_version (o o' : AttachmentOrder) : Prop :=
  o_Version o' = o_Version o /\ o_Supersedes o' = o_Supersedes o /\ o_ClaimedBalance o' = o_ClaimedBalance o /\ moves o o'.
Definition next_version (o o' : AttachmentOrder) : Prop :=
  o_Version o' = to_int64 (o_Version o + 1) /\ o_Supersedes o' = o_Digest o /\
  is_ok (Decimal_Validate (o_ClaimedBalance o')) = true /\
  o_Status o' = OrderPendingVerification /\ o_Evidence o' = ∅.

(** Every state: sealed, of the intake's identity, and not past pending
    without its evidence. *)
Definition order_ok (req : IntakeRequest) (o : AttachmentOrder) : Prop :=
  order_identity o = intake_identity req /\ o_Digest o = orderDigest o /\
  (o_Status o <> OrderPendingVerification -> AttachmentOrder_verified o = None) /\
  o_Status o ∈ [OrderPendingVerification; OrderActive; OrderReleased; OrderTerminated].

Ltac unstring :=
  repeat match goal with
  | H : negb _ = false |- _ => apply negb_false_iff in H
  | H : String.eqb _ _ = true |- _ => apply String.eqb_eq in H
  | H : (_ || _) = false |- _ => apply orb_false_iff in H as [? H]
  end.

Lemma Amend_inv o req o' : AttachmentOrder_Amend o req = Ok o' ->
  o' = seal (successor (am_ClaimedBalance req) o) /\ is_ok (Decimal_Validate (am_ClaimedBalance req)) = true.
Proof. unfold AttachmentOrder_Amend. intros H. ok_inv. unstring. by subst. Qed.

Lemma Release_inv o by_ reason o' : AttachmentOrder_Release o by_ reason = Ok o' ->
  o' = seal (with_Status OrderReleased o) /\ o_Status o = OrderActive.
Proof. unfold AttachmentOrder_Release. intros H. ok_inv. unstring. by subst. Qed.

Lemma validateTransition_active o n u : validateTransition o n = Ok u -> o_Status o = OrderActive.
Proof. unfold validateTransition. intros H. ok_inv. by unstring. Qed.

(** A step is one of four changes. *)
Lemma order_step_inv o o' : order_step o o' ->
  (exists evidence, unbound evidence RequiredEvidenceKeys = None /\ o_Status o = OrderPendingVerification /\
     o' = seal (with_Evidence evidence o)) \/
  (o_Status o = OrderPendingVerification /\ AttachmentOrder_verified o = None /\ o' = seal (with_Status OrderActive o)) \/
  (exists b, is_ok (Decimal_Validate b) = true /\ o' = seal (successor b o)) \/
  (exists s, (s = OrderReleased \/ s = OrderTerminated) /\ o_Status o = OrderActive /\ o' = seal (with_Status s o)).
Proof.
  intros [evidence o'' H|t p b o'' H|r o'' H|b re o'' H|n o'' r H|n r o'' rc H|n o'' r H].
  - left. unfold AttachmentOrder_Verify in H. ok_inv. unstring. destruct (unbound evidence _) eqn:E; [done|].
    injection H as <-. eauto.
  - right; left. unfold AttachmentOrder_ActivateFor in H. ok_inv. unstring.
    destruct (AttachmentOrder_verified o) eqn:E; [done|]. by injection H as <-.
  - apply Amend_inv in H as [-> H]. eauto 8.
  - apply Release_inv in H as [-> H]. eauto 10.
  - unfold ApplyRelease in H. ok_inv. subst. apply Release_inv in Hok0 as [-> H']. eauto 10.
  - unfold ApplyAmendment in H. ok_inv. subst. apply Amend_inv in Hok0 as [-> H']. eauto 8.
  - unfold ApplyTermination in H. ok_inv. subst. apply validateTransition_active in Hok. eauto 10.
Qed.

Lemma order_intake_ok req o : IntakeOrder req = Ok o -> order_ok req o /\ o_Status o = OrderPendingVerification /\
  o_Version o = 1 /\ o_Supersedes o = "".
Proof.
  unfold IntakeOrder. intros H. ok_inv. subst o. split_and!; [|done..]. split_and!; try done; cbn; set_solver.
Qed.

Lemma order_step_ok req o o' : order_ok req o -> order_step o o' -> order_ok req o' /\ (same_version o o' \/ next_version o o').
Proof.
  intros (Hid & Hd & Hv & Hs) [(ev & Hev & Hp & ->)|[(Hp & Hver & ->)|[(b & Hb & ->)|(s & Hs' & Ha & ->)]]]%order_step_inv.
  - split; [|left; split_and!; try done; left; done]. split_and!; try done; cbn; set_solver.
  - split; [|left; split_and!; try done; right; left; done]. split_and!; try done; cbn; set_solver.
  - split; [|right; split_and!; done]. split_and!; try done; cbn; set_solver.
  - split; [|left; split_and!; try done; right; right; done].
    split_and!; try done.
    + intros _. apply Hv. by rewrite Ha.
    + cbn. destruct Hs' as [-> | ->]; set_solver.
Qed.

Lemma order_history_ok req h : order_history req h -> Forall (order_ok req) h.
Proof.
  induction 1 as [o Ho|o o' h Hh IH Hst]; [constructor; [by apply order_intake_ok|constructor]|].
  constructor; [|done]. inversion IH; subst. by eapply order_step_ok.
Qed.

Lemma order_history_chain req h : order_history req h ->
  forall i newer older, h !! i = Some newer -> h !! S i = Some older -> same_version older newer \/ next_version older newer.
Proof.
  induction 1 as [o Ho|o o' h Hh IH Hst]; intros [|i] newer older Hn Ho'; cbn in *; try done.
  - injection Hn as <-. injection Ho' as <-. apply order_history_ok in Hh. inversion Hh; subst. by eapply order_step_ok.
  - by apply (IH i).
Qed.

Lemma order_history_last req h : order_history req h ->
  exists o, last h = Some o /\ IntakeOrder req = Ok o.
Proof. induction 1 as [o Ho|o o' h Hh IH Hst]; [by exists o|]. destruct IH as (o1 & H1 & H2). by exists o1. Qed.

(** What [IsDeductible] decides. *)
Definition in_validity (o : AttachmentOrder) (t : GoTime) : Prop :=
  time_Before t (o_EffectiveFrom o) = false /\ (o_EffectiveTo o <> time_zero -> time_Before t (o_EffectiveTo o) = true).

Lemma time_IsZero_true t : time_IsZero t = true <-> t = time_zero.
Proof.
  unfold time_IsZero, time_Equal. destruct t as [s n]. rewrite andb_true_iff, !Z.eqb_eq. cbn.
  split; [by intros [-> ->]|by intros [= -> ->]].
Qed.

Lemma IsDeductible_true o t : IsDeductible o t = true <-> o_Status o = OrderActive /\ in_validity o t.
Proof.
  unfold IsDeductible, in_validity. destruct (String.eqb_spec (o_Status o) OrderActive) as [E|E]; cbn; [|naive_solver].
  destruct (time_Before t (o_EffectiveFrom o)); [naive_solver|].
  destruct (time_IsZero (o_EffectiveTo o)) eqn:Z; cbn.
  - apply time_IsZero_true in Z. naive_solver.
  - assert (o_EffectiveTo o <> time_zero) by (intros H; apply time_IsZero_true in H; congruence).
    destruct (time_Before t (o_EffectiveTo o)); naive_solver.
Qed.

Lemma IsDeductible_inactive o t : o_Status o <> OrderActive -> IsDeductible o t = false.
Proof. intros H. apply not_true_iff_false. rewrite IsDeductible_true. naive_solver. Qed.

(** The three transitions of [lifecycle006.go]. *)
Inductive transition (o : AttachmentOrder) (n : DatedNotice) : TransitionKind -> AttachmentOrder -> LifecycleReceipt -> Prop :=
  | transition_release o' r : ApplyRelease o n = Ok (o', r) -> transition o n TransitionRelease o' r
  | transition_amend req o' r : ApplyAmendment o n req = Ok (o', r) -> transition o n TransitionAmend o' r
  | transition_terminate o' r : ApplyTermination o n = Ok (o', r) -> transition o n TransitionTerminate o' r.

Definition notice_ok (n : DatedNotice) : Prop :=
  n_EffectiveAt n <> time_zero /\ n_NoticedAt n <> time_zero /\ is_blank (n_Actor n) = false /\ is_blank (n_Reason n) = false.

Lemma validateTransition_ok o n : validateTransition o n = Ok tt <-> IsDeductible o (n_EffectiveAt n) = true /\ notice_ok n.
Proof.
  unfold validateTransition, notice_ok. rewrite IsDeductible_true. unfold in_validity.
  rewrite !bind_unit_ok, !fail_if_ok_iff, negb_false_iff, String.eqb_eq, !orb_false_iff, andb_false_iff, !negb_false_iff.
  rewrite <- !not_true_iff_false, !time_IsZero_true, !not_true_iff_false.
  destruct (decide (o_EffectiveTo o = time_zero)); naive_solver.
Qed.

Lemma transition_inv o n k o' r : transition o n k o' r ->
  IsDeductible o (n_EffectiveAt n) = true /\ notice_ok n /\ order_step o o' /\ TransitionKind_valid k = true /\
  o_Status o' = status_of_kind k /\ o_Digest o' = orderDigest o' /\ o_OrderID o' = o_OrderID o /\
  r = sealReceipt (o_OrderID o) (o_Version o') k o o' n.
Proof.
  intros [o'' r' H|req o'' r' H|o'' r' H].
  - pose proof (step_apply_release _ _ _ _ H) as Hs. unfold ApplyRelease in H. ok_inv. subst.
    apply validateTransition_ok in Hok as [Hd Hn]. apply Release_inv in Hok0 as [-> _]. by split_and!.
  - pose proof (step_apply_amendment _ _ _ _ _ H) as Hs. unfold ApplyAmendment in H. ok_inv. subst.
    apply validateTransition_ok in Hok as [Hd Hn]. apply Amend_inv in Hok0 as [-> _]. by split_and!.
  - pose proof (step_terminate _ _ _ _ H) as Hs. unfold ApplyTermination in H. ok_inv. subst.
    apply validateTransition_ok in Hok as [Hd Hn]. by split_and!.
Qed.

Lemma time_Equal_refl t : time_Equal t t = true.
Proof. unfold time_Equal. by rewrite !Z.eqb_refl. Qed.

(** The correction check of [Verify] on what [sealReceipt] writes. *)
Lemma correction_accepted (late : bool) f t e1 e2 e3 :
  (if negb late then fail_if (bool_decide (is_Some (if late then Some (mkCorrection f t late_reason) else None))) e1
   else match (if late then Some (mkCorrection f t late_reason) else None) with
        | None => Err e2
        | Some c => fail_if (negb (time_Equal (co_PeriodFrom c) f) || negb (time_Equal (co_PeriodTo c) t)
                             || is_blank (co_Reason c)) e3
        end) = Ok tt :> outcome garn_err unit.
Proof. destruct late; [|done]. cbn [negb co_PeriodFrom co_PeriodTo]. by rewrite !time_Equal_refl. Qed.

Lemma sealed_receipt_digest id v k o o' n :
  r_CanonicalDigest (sealReceipt id v k o o' n) = LifecycleReceipt_computedDigest (sealReceipt id v k o o' n).
Proof. reflexivity. Qed.

Lemma receipt_verifies o o' n k : order_step o o' -> notice_ok n -> TransitionKind_valid k = true ->
  o_Status o' = status_of_kind k -> is_blank (o_OrderID o) = false -> 0 < o_Version o' ->
  o_Digest o = orderDigest o -> o_Digest o' = orderDigest o' -> o_Digest o' <> o_Digest o ->
  LifecycleReceipt_Verify (sealReceipt (o_OrderID o) (o_Version o') k o o' n) = Ok tt.
Proof.
  intros Hs (He & Hn & Ha & Hr) Hk Hst Hid Hv Hd Hd' Hne. unfold LifecycleReceipt_Verify.
  rewrite !bind_unit_ok, !fail_if_ok_iff. rewrite sealed_receipt_digest, String.eqb_refl.
  unfold sealReceipt.
  cbn [receipt_with_digest r_OrderID r_Version r_Kind r_PriorDigest r_NewDigest r_Status r_EffectiveAt
       r_NoticedAt r_LateNotice r_Correction r_Actor].
  split_and!; [..|by rewrite receipt_digest_eq].
  - rewrite Hid, Hk. cbn. rewrite orb_false_r. lia.
  - by rewrite Hst, String.eqb_refl.
  - rewrite Hd, Hd' at 1. rewrite !orderDigest_not_blank. cbn. apply String.eqb_neq. congruence.
  - apply not_true_iff_false in Ha. rewrite <- !not_true_iff_false, !orb_true_iff, !time_IsZero_true. naive_solver.
  - by destruct (time_Before _ _).
  - apply correction_accepted.
Qed.

(** * Theorems *)

(** C8: in every history of an order made by the package's operations: no
    operation changes what the intake recorded (tenant, parties, dates,
    priority, remittance, document digest); every state carries its own
    digest; an order that has been active has all seven kinds of evidence, and
    it may be deducted from only while active and inside its validity; each
    step stays in its version and moves forward, or starts the next version,
    pending, without evidence and linked to the digest of the state it
    supersedes; and the first state is version 1, pending, superseding nothing. *)
Theorem order_history_governed req h (H : order_history req h) :
  (forall o, o ∈ h ->
     order_identity o = intake_identity req /\ o_Digest o = orderDigest o /\
     o_Status o ∈ [OrderPendingVerification; OrderActive; OrderReleased; OrderTerminated] /\
     (o_Status o <> OrderPendingVerification ->
        Forall (fun key => is_blank (map_get (o_Evidence o) key) = false) RequiredEvidenceKeys) /\
     (forall t, IsDeductible o t = true <-> o_Status o = OrderActive /\ in_validity o t)) /\
  (forall i newer older, h !! i = Some newer -> h !! S i = Some older -> same_version older newer \/ next_version older newer) /\
  (exists o, last h = Some o /\ IntakeOrder req = Ok o /\ o_Version o = 1 /\ o_Supersedes o = "" /\
     o_Status o = OrderPendingVerification).
Proof.
  split_and!.
  - intros o Ho. pose proof (order_history_ok req h H) as Hok. rewrite Forall_forall in Hok.
    destruct (Hok _ Ho) as (H1 & H2 & H3 & H4). split_and!; try done.
    + intros Hp. by apply unbound_none, H3.
    + intros t. apply IsDeductible_true.
  - by eapply order_history_chain.
  - destruct (order_history_last req h H) as (o & H1 & H2). exists o. by destruct (order_intake_ok _ _ H2) as (_ & H3 & H4 & H5).
Qed.

(** What an amendment has to carry. *)
Definition amendment_ok (am : AmendRequest) : Prop :=
  is_ok (Decimal_Validate (am_ClaimedBalance am)) = true /\ is_blank (am_Reason am) = false /\ is_blank (am_AmendedBy am) = false.

(** When the three transitions are accepted. *)
Definition transition_open (o : AttachmentOrder) (n : DatedNotice) : Prop :=
  o_Status o = OrderActive /\ in_validity o (n_EffectiveAt n) /\ notice_ok n.

Lemma transition_open_iff o n : validateTransition o n = Ok tt <-> transition_open o n.
Proof. rewrite validateTransition_ok, IsDeductible_true. unfold transition_open. tauto. Qed.

Lemma release_accepted o n : is_ok (ApplyRelease o n) = true <-> transition_open o n.
Proof.
  rewrite <- transition_open_iff. unfold ApplyRelease. destruct (validateTransition o n) as [[]| |] eqn:E; [|done..].
  split; [done|intros _]. apply transition_open_iff in E as (Ha & _ & _ & _ & H1 & H2). unfold AttachmentOrder_Release.
  rewrite Ha, H1, H2. done.
Qed.

Lemma termination_accepted o n : is_ok (ApplyTermination o n) = true <-> transition_open o n.
Proof. rewrite <- transition_open_iff. unfold ApplyTermination. by destruct (validateTransition o n) as [[]| |]. Qed.

Lemma amendment_accepted o n am : is_ok (ApplyAmendment o n am) = true <-> transition_open o n /\ amendment_ok am.
Proof.
  rewrite <- transition_open_iff. unfold ApplyAmendment, AttachmentOrder_Amend, amendment_ok.
  destruct (validateTransition o n) as [[]| |]; cbn [mbind outcome_bind]; [|by split; [|intros [? _]]..].
  destruct (is_ok (Decimal_Validate _)), (is_blank (am_Reason am)), (is_blank (am_AmendedBy am)); cbn; naive_solver.
Qed.


(** a released or terminated order is changed by amendment only; but an
    amendment is accepted, and with fresh evidence the order becomes active
    and deductible again, although the package states that such orders never
    reactivate. *)
Theorem closed_order_reactivates o (H : o_Status o = OrderReleased \/ o_Status o = OrderTerminated) :
  (forall o', order_step o o' -> exists req, AttachmentOrder_Amend o req = Ok o') /\
  (forall req evidence by_, is_ok (Decimal_Validate (am_ClaimedBalance req)) = true ->
     is_blank (am_Reason req) = false -> is_blank (am_AmendedBy req) = false ->
     unbound evidence RequiredEvidenceKeys = None -> is_blank by_ = false ->
     exists o1 o2 o3, AttachmentOrder_Amend o req = Ok o1 /\ AttachmentOrder_Verify o1 evidence = Ok o2 /\
       AttachmentOrder_Activate o2 by_ = Ok o3 /\ o_OrderID o3 = o_OrderID o /\
       (forall t, in_validity o t -> IsDeductible o3 t = true)).
Proof.
  split.
  - intros o' [(ev & _ & E & _)|[(E & _)|[(b & Hb & ->)|(s & _ & E & _)]]]%order_step_inv;
      [rewrite E in H; naive_solver..| |rewrite E in H; naive_solver].
    exists (mkAmend b "x" "x"). unfold AttachmentOrder_Amend. cbn. by rewrite Hb.
  - intros req ev by_ H1 H2 H3 H4 H5. eexists _, _, _.
    split_and!; [unfold AttachmentOrder_Amend; rewrite H1, H2, H3; reflexivity
                |unfold AttachmentOrder_Verify; cbn -[RequiredEvidenceKeys unbound]; rewrite H4; reflexivity
                |unfold AttachmentOrder_Activate, AttachmentOrder_ActivateFor, AttachmentOrder_verified;
                 cbn -[RequiredEvidenceKeys unbound]; rewrite !String.eqb_refl, H5; cbn -[RequiredEvidenceKeys unbound];
                 rewrite H4; reflexivity
                |done|].
    intros t Ht. by apply IsDeductible_true.
Qed.

End histories.

(** * A concrete order *)

Section sample_order.
#[local] Instance sample_order_sha : Sha256 := {| sha256_Sum256 := fun bs => [Z.of_nat (length bs) mod 256; foldr Z.add 0 bs mod 256] |}.

Definition new_year : GoTime := mkGoTime 1767225600 0.
Definition spring : GoTime := mkGoTime 1772323200 0.
Definition summer : GoTime := mkGoTime 1780272000 500.
Definition sample_intake : IntakeRequest :=
  mkIntake "tenant" "order-1" OrderChildSupport "US-CA" "worker" "court" new_year time_zero new_year
    (mkDecimal true false (Some 100000) 2 RoundingHalfUp) 1 "remit" "sha256:document".
Definition sample_evidence : gmap string string := list_to_map ((fun k => (k, "evidence:" +:+ k)) <$> RequiredEvidenceKeys).
Definition sample_notice : DatedNotice := mkNotice spring summer "clerk" "released by the court".
Definition sample_base : AttachmentOrder :=
  mkOrder "tenant" "order-1" 1 OrderChildSupport "US-CA" "worker" "court" new_year time_zero new_year
    (mkDecimal true false (Some 100000) 2 RoundingHalfUp) 1 "remit" "sha256:document" ∅ OrderPendingVerification "" "".
Definition sample_pending : AttachmentOrder := seal sample_base.
Definition sample_verified : AttachmentOrder := seal (with_Evidence sample_evidence sample_pending).
Definition sample_active : AttachmentOrder := seal (with_Status OrderActive sample_verified).
Definition sample_released : AttachmentOrder := seal (with_Status OrderReleased sample_active).

Lemma sample_history : order_history sample_intake [sample_released; sample_active; sample_verified; sample_pending].
Proof.
  apply history_step; [apply history_step; [apply history_step; [apply history_intake|]|]|].
  - vm_compute. reflexivity.
  - apply (step_verify _ sample_evidence). vm_compute. reflexivity.
  - apply (step_activate _ "tenant" "worker" "clerk"). vm_compute. reflexivity.
  - apply (step_release _ "clerk" "paid"). vm_compute. reflexivity.
Qed.

Lemma order_history_governed_witness :
  Forall (fun key => is_blank (map_get (o_Evidence sample_active) key) = false) RequiredEvidenceKeys /\
  IsDeductible sample_active spring = true.
Proof.
  destruct (order_history_governed sample_intake _ sample_history) as [H _].
  destruct (H sample_active) as (_ & _ & _ & H1 & H2); [right; left|].
  split; [apply H1; discriminate|apply H2]. split; [reflexivity|]. split; [reflexivity|]. intros E. by contradiction E.
Defined.


Lemma closed_order_reactivates_witness :
  exists o1 o2 o3,
    AttachmentOrder_Amend sample_released (mkAmend (mkDecimal true false (Some 1) 2 RoundingHalfUp) "again" "clerk") = Ok o1 /\
    AttachmentOrder_Verify o1 sample_evidence = Ok o2 /\ AttachmentOrder_Activate o2 "clerk" = Ok o3 /\
    IsDeductible o3 summer = true.
Proof.
  destruct (closed_order_reactivates sample_released (or_introl eq_refl)) as [_ H].
  destruct (H (mkAmend (mkDecimal true false (Some 1) 2 RoundingHalfUp) "again" "clerk") sample_evidence "clerk")
    as (o1 & o2 & o3 & H1 & H2 & H3 & _ & H4); [vm_compute; reflexivity..|].
  exists o1, o2, o3. split_and!; [exact H1|exact H2|exact H3|].
  apply H4. split; [reflexivity|]. intros E. by contradiction E.
Defined.

End sample_order.
