(* ===== verification/GarnishmentLimit.v ===== *)
(** Disposable earnings and the legal withholding limit:
    [internal/domains/garnishment/disposable003.go] and the serving contract
    of [garn003_serving.go].

    [ComputeWithholdingLimit] is the function with its trace and its seal; the
    decimal library behind the rounded product is the class [DecimalBackend].
    [limit_exact] gives the result in integers, without the decimals. *)

From S2P Require Import Prelude GoStrings Sorting CanonicalBytes FixedDecimal DecimalAmounts CivilTime GarnishmentOrder.

Local Open Scope Z_scope.

Definition limitBlocked (field state : string) : garn_err := mkGarnErr ErrLimitBlocked field state.

Record MandatoryDeduction : Type := mkDeduction { md_Kind : string; md_Amount : Decimal; md_BasisRef : string }.

Record EarningsInput : Type := mkEarnings {
  ei_Tenant : string; ei_WorkerRef : string; ei_OrderRef : string; ei_OrderType : OrderType;
  ei_Jurisdiction : string; ei_RulePackRef : string; ei_RulePackVersion : string; ei_RulePackDigest : string;
  ei_Gross : Decimal; ei_Deductions : list MandatoryDeduction; ei_LimitBps : Z; ei_ProtectedFloor : Decimal;
  ei_OrderedAmount : Decimal
}.

Record WithholdingLimit : Type := mkLimit {
  wl_Disposable : Decimal; wl_MaxWithholding : Decimal; wl_OrderedCapped : Decimal; wl_Trace : list string;
  wl_CanonicalDigest : string
}.

(** The fields of the deductions, numbered from [i]. *)
Fixpoint deduction_ops (i : Z) (ds : list MandatoryDeduction) : list op :=
  match ds with
  | [] => []
  | d :: rest =>
      WString ("deduction_" +:+ itoa i +:+ "_kind") (md_Kind d) ::
      WValue ("deduction_" +:+ itoa i +:+ "_amount") (Decimal_Canonical (md_Amount d)) ::
      WString ("deduction_" +:+ itoa i +:+ "_basis") (md_BasisRef d) :: deduction_ops (i + 1) rest
  end.

Definition limit_ops (disposable maxWithholding orderedCapped : Decimal) (i : EarningsInput) : list op :=
  [ WString "tenant" (ei_Tenant i); WString "worker_ref" (ei_WorkerRef i); WString "order_ref" (ei_OrderRef i);
    WString "order_type" (ei_OrderType i); WString "jurisdiction" (ei_Jurisdiction i);
    WString "rule_pack" (ei_RulePackRef i); WString "rule_version" (ei_RulePackVersion i);
    WString "rule_digest" (ei_RulePackDigest i);
    WValue "protected_floor" (Decimal_Canonical (ei_ProtectedFloor i)); WValue "gross" (Decimal_Canonical (ei_Gross i));
    WValue "ordered_amount" (Decimal_Canonical (ei_OrderedAmount i));
    WValue "disposable" (Decimal_Canonical disposable); WValue "max_withholding" (Decimal_Canonical maxWithholding);
    WValue "ordered_capped" (Decimal_Canonical orderedCapped); WInt "limit_bps" (ei_LimitBps i) ]%string ++
  deduction_ops 0 (ei_Deductions i).

(** A literal of the source: [values.MustDecimal]. *)
Definition must (text : string) : outcome garn_err Decimal :=
  match MustDecimal text 2 RoundingHalfUp with Ok d => Ok d | _ => Panic end.

Definition limitScale : outcome garn_err Decimal := must "10000.00".

(** The loop over the deductions: the running total and the trace. *)
Fixpoint deduct (i : Z) (ds : list MandatoryDeduction) (total : Decimal) (trace : list string)
    : outcome garn_err (Decimal * list string) :=
  match ds with
  | [] => Ok (total, trace)
  | d :: rest =>
      _ ← fail_if (is_blank (md_Kind d) || is_blank (md_BasisRef d))
            (limitBlocked ("earnings.deductions[" +:+ itoa i +:+ "]") "MISSING");
      _ ← fail_if (not_nonnegative (md_Amount d)) (limitBlocked ("earnings.deductions[" +:+ itoa i +:+ "].amount") "INVALID");
      next ← or_reject (Decimal_Sub total (md_Amount d)) (limitBlocked "earnings.disposable" "INEXACT");
      _ ← fail_if (Decimal_Sign next <? 0) (limitBlocked "earnings.disposable" "NEGATIVE");
      deduct (i + 1) rest next
        (trace ++ ["less " +:+ md_Kind d +:+ " " +:+ Decimal_String (md_Amount d) +:+ " (" +:+ md_BasisRef d +:+ ")"])
  end.

Section limit.
Context `{SHA : Sha256} `{B : DecimalBackend}.

Definition WithholdingLimit_computedDigest (disposable maxWithholding orderedCapped : Decimal) (i : EarningsInput) : string :=
  digest_or_empty (ops_run (limit_ops disposable maxWithholding orderedCapped i)
                     (New "hcmnext.domains.garnishment.WithholdingLimit" 1)).

(** The checks of the input before any amount is computed. *)
Definition earnings_checks (i : EarningsInput) : outcome garn_err unit :=
  _ ← fail_if (is_blank (ei_Tenant i)) (limitBlocked "earnings.tenant" "MISSING");
  _ ← fail_if (is_blank (ei_WorkerRef i)) (limitBlocked "earnings.worker_ref" "MISSING");
  _ ← fail_if (is_blank (ei_OrderRef i)) (limitBlocked "earnings.order_ref" "MISSING");
  _ ← fail_if (negb (OrderType_Valid (ei_OrderType i))) (limitBlocked "earnings.order_type" "UNDECLARED");
  _ ← fail_if (is_blank (ei_Jurisdiction i)) (limitBlocked "earnings.jurisdiction" "MISSING");
  _ ← fail_if (is_blank (ei_RulePackRef i) || is_blank (ei_RulePackVersion i) || is_blank (ei_RulePackDigest i))
        (limitBlocked "earnings.rule_pack" "MISSING");
  _ ← fail_if (not_nonnegative (ei_Gross i)) (limitBlocked "earnings.gross" "INVALID");
  _ ← fail_if (not_nonnegative (ei_OrderedAmount i)) (limitBlocked "earnings.ordered_amount" "INVALID");
  _ ← fail_if (not_nonnegative (ei_ProtectedFloor i)) (limitBlocked "earnings.protected_floor" "INVALID");
  fail_if ((ei_LimitBps i <=? 0) || (10000 <? ei_LimitBps i)) (limitBlocked "earnings.limit_bps" "OUT_OF_RANGE").

Definition limit_trace (i : EarningsInput) : list string :=
  [ "jurisdiction " +:+ ei_Jurisdiction i;
    "rule pack " +:+ ei_RulePackRef i +:+ " version " +:+ ei_RulePackVersion i +:+ " digest " +:+ ei_RulePackDigest i;
    "legal limit " +:+ itoa (ei_LimitBps i) +:+ " bps protected floor " +:+ Decimal_String (ei_ProtectedFloor i);
    "gross " +:+ Decimal_String (ei_Gross i) ]%string.

(** The cap before the protected floor: a rounded product, then a rounded quotient. *)
Definition legal_cap (i : EarningsInput) (disposable : Decimal) : outcome garn_err Decimal :=
  rate ← or_reject (NewDecimal (itoa (ei_LimitBps i) +:+ ".00") 2 RoundingHalfUp) (limitBlocked "earnings.limit_bps" "INVALID");
  scaled ← or_reject (Decimal_Mul disposable rate 2 RoundingHalfUp) (limitBlocked "earnings.max_withholding" "INEXACT");
  scale ← limitScale;
  or_reject (Decimal_Div scaled scale 2 RoundingHalfUp) (limitBlocked "earnings.max_withholding" "INEXACT").

(** The cap after the protected floor. *)
Definition floor_clamp (cap aboveFloor : Decimal) (trace : list string) : outcome garn_err (Decimal * list string) :=
  if Decimal_Sign aboveFloor <? 0 then
    zero ← must "0.00";
    Ok (zero, trace ++ ["disposable below protected floor: cap is zero"])
  else if 0 <? Decimal_Cmp cap aboveFloor
  then Ok (aboveFloor, trace ++ ["cap clamped to disposable above the protected floor"])
  else Ok (cap, trace).

(** The ordered amount under the cap. *)
Definition order_capped (ordered maxWithholding : Decimal) (trace : list string) : Decimal * list string :=
  if 0 <? Decimal_Cmp ordered maxWithholding
  then (maxWithholding,
        trace ++ ["ordered " +:+ Decimal_String ordered +:+ " capped to legal max " +:+ Decimal_String maxWithholding])
  else (ordered,
        trace ++ ["ordered " +:+ Decimal_String ordered +:+ " within legal max " +:+ Decimal_String maxWithholding]).

Definition ComputeWithholdingLimit (i : EarningsInput) : outcome garn_err WithholdingLimit :=
  _ ← earnings_checks i;
  deducted ← deduct 0 (ei_Deductions i) (ei_Gross i) (limit_trace i);
  let '(disposable, trace) := deducted in
  cap ← legal_cap i disposable;
  aboveFloor ← or_reject (Decimal_Sub disposable (ei_ProtectedFloor i)) (limitBlocked "earnings.protected_floor" "INEXACT");
  clamped ← floor_clamp cap aboveFloor trace;
  let '(maxWithholding, trace2) := clamped in
  let '(capped, trace3) := order_capped (ei_OrderedAmount i) maxWithholding trace2 in
  Ok (mkLimit disposable maxWithholding capped trace3 (WithholdingLimit_computedDigest disposable maxWithholding capped i)).

(** * The serving contract *)

(** [strings.Contains(trace, s)] of the joined trace. *)
Fixpoint has_substring (needle s : string) : bool :=
  bool_decide (is_Some (cut_prefix needle s)) ||
  match s with EmptyString => false | String _ s' => has_substring needle s' end.
Fixpoint join_lines (ls : list string) : string :=
  match ls with
  | [] => EmptyString
  | [l] => l
  | l :: rest => l +:+ String (char_of 10) (join_lines rest)
  end.

Definition serving_input (gross tax floor ordered : Decimal) (digest : string) : EarningsInput :=
  mkEarnings "tenant-serving" "worker-serving" "order-serving" OrderCreditor "US-CA" "rulepack:garnishment" "v1" digest
    gross [mkDeduction "FEDERAL_TAX" tax "statute:serving"] 2500 floor ordered.

(** [Ok true] is the nil error. *)
Definition ValidateServingContract : outcome garn_err bool :=
  gross ← must "1000.00";
  tax ← must "100.00";
  floor ← must "100.00";
  ordered ← must "300.00";
  let i := serving_input gross tax floor ordered "sha256:serving" in
  result ← ComputeWithholdingLimit i;
  if negb (String.eqb (Decimal_String (wl_Disposable result)) "900.00")
     || negb (String.eqb (Decimal_String (wl_MaxWithholding result)) "225.00")
     || negb (String.eqb (Decimal_String (wl_OrderedCapped result)) "225.00") then Ok false
  else if String.eqb (wl_CanonicalDigest result) "" || (length (wl_Trace result) <? 3)%nat then Ok false
  else
    let trace := join_lines (wl_Trace result) in
    if negb (has_substring (ei_Jurisdiction i) trace) || negb (has_substring (ei_RulePackRef i) trace)
       || negb (has_substring (ei_RulePackDigest i) trace) then Ok false
    else match ComputeWithholdingLimit (serving_input gross tax floor ordered "") with
         | Ok _ => Ok false
         | Err _ => Ok true
         | Panic => Panic
         end.

End limit.

(** * The amounts *)

(** The order of the rational values. *)
Definition at_most (d o : Decimal) : Prop := Decimal_signed d * 10 ^ d_scale o <= Decimal_signed o * 10 ^ d_scale d.

Lemma rounds_exists mode n d : 0 <= n -> 0 < d -> RoundingMode_Valid mode = true -> mode <> RoundingExactRequired ->
  exists q, rounds mode n d q /\ 0 <= q <= n / d + 1.
Proof.
  intros Hn Hd Hm Hx. pose proof (round_mag_rounds mode false n d Hn Hd Hm ltac:(done)) as H.
  exists (round_mag mode false n d). split; [exact H|].
  pose proof (Z.div_pos n d Hn Hd). unfold round_mag. cbv zeta. destruct (negb _ && _); cbn; lia.
Qed.

(** The literals. *)
Lemma limitScale_eq : limitScale = Ok (dec_of 1000000 2 RoundingHalfUp).
Proof. vm_compute. reflexivity. Qed.
Lemma zero_eq : must "0.00" = Ok (dec_of 0 2 RoundingHalfUp).
Proof. vm_compute. reflexivity. Qed.

Lemma rate_eq bps : 0 < bps <= 10000 ->
  NewDecimal (itoa bps +:+ ".00") 2 RoundingHalfUp = Ok (dec_of (bps * 100) 2 RoundingHalfUp).
Proof.
  intros H. unfold itoa. rewrite (proj2 (Z.ltb_ge bps 0)) by lia.
  change (dec_string bps +:+ ".00") with (sign_text false +:+ plain_text (dec_string bps) "00").
  rewrite NewDecimal_plain; [|split_and!; [by apply dec_string_nonempty; lia|by apply dec_string_digits; lia|done]|done|done|done].
  cbv zeta. rewrite dec_value_app, dec_string_value by lia.
  change (dec_value "00" ?x) with ((x * 10 + 0) * 10 + 0). change (len "00") with 2. cbn [andb Z.sub Z.pow].
  change (10 ^ (2 - 2)) with 1. replace (((bps * 10 + 0) * 10 + 0) * 1) with (bps * 100) by lia.
  rewrite (proj2 (Z.ltb_lt _ _)); [done|]. assert (1000000 < 10 ^ MaxPrecision) by (vm_compute; done). lia.
Qed.

(** The sum of the deductions, in the units of the gross. *)
Definition deducted (ds : list MandatoryDeduction) : Z := foldr (fun d sum => Decimal_signed (md_Amount d) + sum) 0 ds.

(** A deduction the loop accepts at scale [s]. *)
Definition deduction_ok (s : Z) (d : MandatoryDeduction) : Prop :=
  is_blank (md_Kind d) = false /\ is_blank (md_BasisRef d) = false /\
  dec_wf (md_Amount d) /\ d_scale (md_Amount d) = s /\ 0 <= Decimal_signed (md_Amount d).

Lemma deducted_nonneg s ds : Forall (deduction_ok s) ds -> 0 <= deducted ds.
Proof. induction 1 as [|d ds (_ & _ & _ & _ & H) _ IH]; [done|]. unfold deducted in *. cbn. lia. Qed.

Lemma deduct_ok ds : forall i total trace, dec_wf total -> 0 <= Decimal_signed total ->
  (Forall (deduction_ok (d_scale total)) ds /\ deducted ds <= Decimal_signed total ->
   exists d trace', deduct i ds total trace = Ok (d, trace')) /\
  (forall d trace', deduct i ds total trace = Ok (d, trace') ->
     Forall (deduction_ok (d_scale total)) ds /\ 0 <= Decimal_signed d /\ (exists more, trace' = trace ++ more) /\
     amount d (d_scale total) (Decimal_signed total - deducted ds)).
Proof.
  induction ds as [|x ds IH]; intros i total trace Hw Hn.
  { split; [by intros _; eexists _, _|]. intros d t' [= <- <-]. split_and!; try done.
    - exists []. by rewrite app_nil_r.
    - change (deducted []) with 0. by rewrite Z.sub_0_r. }
  split.
  - intros [Hall Hsum]. apply Forall_cons in Hall as [(Hk & Hb & Hx & Hs & Hpos) Hds].
    pose proof (deducted_nonneg _ _ Hds) as Hrest. unfold deducted in Hsum, Hrest. cbn in Hsum.
    cbn [deduct]. rewrite Hk, Hb. cbn [mbind outcome_bind fail_if or_reject map_err negb orb]. rewrite (proj2 (not_nonnegative_false _)) by done. cbn [mbind outcome_bind fail_if or_reject map_err negb orb].
    pose proof (dec_wf_bound total Hw) as Hb1.
    rewrite Sub_amount, Hs, Z.eqb_refl by done. cbn [mbind outcome_bind fail_if or_reject map_err negb orb]. rewrite (proj2 (Z.ltb_lt _ _)) by lia. cbn [mbind outcome_bind fail_if or_reject map_err negb orb].
    destruct (dec_wf_scale _ Hw) as [Hsc Hm].
    assert (Hnw : dec_wf (dec_of (Decimal_signed total - Decimal_signed (md_Amount x)) (d_scale total) (d_round total)))
      by (apply dec_wf_dec_of; lia || done).
    rewrite Sign_negative by done. rewrite Decimal_signed_dec_of. rewrite (proj2 (Z.ltb_ge _ _)) by lia. cbn [mbind outcome_bind fail_if or_reject map_err negb orb].
    apply IH; [done|rewrite Decimal_signed_dec_of; lia|]. rewrite Decimal_signed_dec_of. split; [done|].
    unfold deducted. lia.
  - intros d t' H. cbn [deduct] in H. ok_inv. apply orb_false_iff in Hok as [Hk Hb].
    apply not_nonnegative_false in Hok0 as [Hx Hpos]. apply or_reject_ok, Sub_ok_inv in Hok1 as (_ & _ & Hs & Ha & Has & Hav).
    rewrite Sign_negative in Hok2 by done. apply Z.ltb_ge in Hok2.
    destruct (IH (i + 1) a1 (trace ++ ["less " +:+ md_Kind x +:+ " " +:+ Decimal_String (md_Amount x) +:+ " (" +:+ md_BasisRef x +:+ ")"]) Ha Hok2) as [_ H'].
    destruct (H' _ _ H) as (Hds & Hd & (more & ->) & Hdw & Hdsc & Hdv). rewrite Has in *.
    split_and!; try done.
    + constructor; [|done]. by split_and!.
    + eexists. rewrite <- app_assoc. done.
    + unfold amount. split_and!; [done..|]. unfold deducted in *. cbn. lia.
Qed.

(** Either a value or a rejection of GARN-003, never a panic. *)
Definition guarded {A} (m : outcome garn_err A) : Prop :=
  match m with Ok _ => True | Err e => ge_is e = ErrLimitBlocked | Panic => False end.

Lemma guarded_bind {A C} (m : outcome garn_err A) (k : A -> outcome garn_err C) :
  guarded m -> (forall a, m = Ok a -> guarded (k a)) -> guarded (m ≫= k).
Proof. destruct m; cbn; auto. Qed.
Lemma guarded_fail b f st : guarded (fail_if b (limitBlocked f st)).
Proof. by destruct b. Qed.
Lemma guarded_reject {E A} (m : outcome E A) f st : m <> Panic -> guarded (or_reject m (limitBlocked f st)).
Proof. by destruct m. Qed.
Lemma guarded_ok {A} (a : A) : guarded (Ok a).
Proof. done. Qed.

Create HintDb guarded.
#[local] Hint Resolve guarded_fail guarded_reject guarded_ok Sub_no_panic : guarded.
Ltac guarded_steps := repeat first [ solve [eauto with guarded] | apply guarded_bind; [|intros ? ?] ].

Section limit_facts.
Context `{SHA : Sha256} `{B : DecimalBackend} `{L : !DecimalBackendLaws B}.

(** The cap: the exact product is rounded to cents, then its ten-thousandth is. *)
Lemma legal_cap_spec i d : 0 < ei_LimitBps i <= 10000 -> dec_wf d -> 0 <= Decimal_signed d ->
  exists m q, rounds RoundingHalfUp (Decimal_signed d * ei_LimitBps i * 100) (10 ^ d_scale d) m /\
    rounds RoundingHalfUp m 10000 q /\ 0 <= m <= Decimal_signed d * ei_LimitBps i * 100 / 10 ^ d_scale d + 1 /\ 0 <= q /\
    (if m <? 10 ^ MaxPrecision then legal_cap i d = Ok (dec_of q 2 RoundingHalfUp)
     else legal_cap i d = Err (limitBlocked "earnings.max_withholding" "INEXACT")).
Proof.
  intros Hb Hd Hn. destruct (dec_wf_scale d Hd) as [Hs _]. pose proof (pow10_pos (d_scale d) (proj1 Hs)) as Hp.
  destruct (rounds_exists RoundingHalfUp (Decimal_signed d * ei_LimitBps i * 100) (10 ^ d_scale d)) as (m & Hm & Hm0);
    [nia|done|done|done|].
  destruct (rounds_exists RoundingHalfUp m 10000) as (q & Hq & Hq0); [lia|done|done|done|].
  exists m, q. split; [done|]. split; [done|]. split; [done|]. split; [lia|].
  unfold legal_cap. rewrite rate_eq by done. cbn [or_reject map_err mbind outcome_bind].
  set (rate := dec_of (ei_LimitBps i * 100) 2 RoundingHalfUp).
  assert (Hr : dec_wf rate).
  { apply dec_wf_dec_of; [|done|done]. assert (1000000 < 10 ^ MaxPrecision) by (vm_compute; done). lia. }
  assert (HM : rounds RoundingHalfUp (Decimal_signed d * Decimal_signed rate * 10 ^ 2) (10 ^ (d_scale d + d_scale rate)) m).
  { unfold rate. rewrite Decimal_signed_dec_of. cbn [d_scale dec_of]. rewrite Z.pow_add_r by lia.
    replace (Decimal_signed d * (ei_LimitBps i * 100) * 10 ^ 2) with (Decimal_signed d * ei_LimitBps i * 100 * 10 ^ 2) by ring.
    by apply rounds_scale. }
  assert (Hfrom : 0 <= d_scale d + d_scale rate) by (unfold rate; cbn [d_scale dec_of]; lia).
  pose proof (quantizeSigned_spec _ _ 2 RoundingHalfUp m Hfrom ltac:(done) eq_refl HM) as HQ.
  unfold Decimal_Mul. rewrite (proj2 (Decimal_Validate_ok d) Hd), (proj2 (Decimal_Validate_ok rate) Hr).
  cbn [mbind outcome_bind]. rewrite Z.abs_eq in HQ by lia.
  destruct (Z.ltb_spec m (10 ^ MaxPrecision)) as [Hlt|Hge].
  - rewrite HQ, limitScale_eq. cbn [or_reject map_err mbind outcome_bind].
    rewrite (Decimal_Div_spec _ _ 2 RoundingHalfUp q); try done.
    + assert (1 < 10 ^ MaxPrecision) by (vm_compute; done). rewrite (proj2 (Z.ltb_lt _ _)); [done|].
      rewrite Z.abs_eq by lia. div_lia.
    + apply dec_wf_dec_of; [lia|done|done].
    + apply dec_wf_dec_of; done.
    + rewrite !Decimal_signed_dec_of. cbn [d_scale dec_of]. change (Z.sgn 1000000) with 1. change (Z.abs 1000000) with 1000000.
      change (10 ^ (2 + 2)) with 10000. replace (1 * m * 10000) with (m * 10000) by lia. change (1000000 * 10 ^ 2) with (10000 * 10000).
      by apply rounds_scale.
  - destruct HQ as [e ->]. done.
Qed.

Lemma floor_clamp_spec cap above trace : dec_wf cap -> dec_wf above -> 0 <= Decimal_signed cap ->
  exists mx trace', floor_clamp cap above trace = Ok (mx, trace') /\ (exists more, trace' = trace ++ more) /\
    dec_wf mx /\ 0 <= Decimal_signed mx /\ at_most mx cap /\
    (if Decimal_signed above <? 0 then mx = dec_of 0 2 RoundingHalfUp else at_most mx above /\ (mx = cap \/ mx = above)).
Proof.
  intros Hc Ha Hn. unfold floor_clamp. rewrite (Sign_negative above Ha).
  pose proof (pow10_pos (d_scale cap) (proj1 (proj1 (dec_wf_scale _ Hc)))).
  pose proof (pow10_pos (d_scale above) (proj1 (proj1 (dec_wf_scale _ Ha)))).
  destruct (Z.ltb_spec (Decimal_signed above) 0) as [Hneg|Hpos].
  - rewrite zero_eq. cbn [mbind outcome_bind]. eexists _, _. split; [done|].
    split; [by eexists|]. split; [apply dec_wf_dec_of; done|]. rewrite Decimal_signed_dec_of. split; [lia|]. split; [|done].
    unfold at_most. rewrite Decimal_signed_dec_of. cbn [d_scale dec_of]. change (10 ^ 2) with 100. nia.
  - rewrite Cmp_greater by done. destruct (Z.ltb_spec (Decimal_signed above * 10 ^ d_scale cap) (Decimal_signed cap * 10 ^ d_scale above)).
    + eexists _, _. split; [done|]. split; [by eexists|]. unfold at_most. split_and!; try done; try lia. by right.
    + eexists _, _. split; [done|]. split; [exists []; by rewrite app_nil_r|]. unfold at_most. split_and!; try done; try lia. by left.
Qed.

Lemma order_capped_spec o mx trace : dec_wf o -> dec_wf mx ->
  exists c trace', order_capped o mx trace = (c, trace') /\ (exists more, trace' = trace ++ more) /\
    dec_wf c /\ at_most c o /\ at_most c mx /\ (c = o \/ c = mx).
Proof.
  intros Ho Hm. unfold order_capped. rewrite Cmp_greater by done.
  destruct (Z.ltb_spec (Decimal_signed mx * 10 ^ d_scale o) (Decimal_signed o * 10 ^ d_scale mx));
    eexists _, _; (split; [done|]; split; [by eexists|]); unfold at_most; split_and!; try done; try lia; auto.
Qed.

(** What is accepted: the references are there, the amounts are valid, not
    negative and of one scale, and the deductions do not exceed the gross. *)
Definition earnings_ok (i : EarningsInput) : Prop :=
  earnings_checks i = Ok tt /\ Forall (deduction_ok (d_scale (ei_Gross i))) (ei_Deductions i) /\
  deducted (ei_Deductions i) <= Decimal_signed (ei_Gross i) /\ d_scale (ei_ProtectedFloor i) = d_scale (ei_Gross i).

Lemma earnings_checks_inv i : earnings_checks i = Ok tt ->
  is_blank (ei_Tenant i) = false /\ OrderType_Valid (ei_OrderType i) = true /\
  (dec_wf (ei_Gross i) /\ 0 <= Decimal_signed (ei_Gross i)) /\
  (dec_wf (ei_OrderedAmount i) /\ 0 <= Decimal_signed (ei_OrderedAmount i)) /\
  (dec_wf (ei_ProtectedFloor i) /\ 0 <= Decimal_signed (ei_ProtectedFloor i)) /\ 0 < ei_LimitBps i <= 10000.
Proof.
  unfold earnings_checks. intros H. ok_inv. apply negb_false_iff in Hok2. apply not_nonnegative_false in Hok5, Hok6, Hok7.
  apply orb_false_iff in H as [H1 H2]. split_and!; (done || lia || tauto).
Qed.

Lemma earnings_checks_guarded i : guarded (earnings_checks i).
Proof. unfold earnings_checks. guarded_steps. Qed.

Lemma deduct_guarded ds : forall i total trace, guarded (deduct i ds total trace).
Proof. induction ds as [|d ds IH]; intros i total trace; cbn [deduct]; guarded_steps. Qed.

(** An accepted calculation had an accepted input. *)
Lemma limit_requires i l : ComputeWithholdingLimit i = Ok l -> earnings_ok i.
Proof.
  unfold ComputeWithholdingLimit. intros H. apply bind_ok_inv in H as ([] & Hok & H). apply bind_ok_inv in H as ([d t1] & Hok0 & H).
  apply bind_ok_inv in H as (cap & _ & H). apply bind_ok_inv in H as (a0 & Hok2 & _).
  pose proof (earnings_checks_inv i Hok) as (_ & _ & [Hg Hg0] & _).
  destruct (deduct_ok (ei_Deductions i) 0 _ (limit_trace i) Hg Hg0) as [_ HD].
  destruct (HD _ _ Hok0) as (Hds & Hd0 & _ & _ & Hs & Hv). apply or_reject_ok, Sub_ok_inv in Hok2 as (_ & _ & Hfs & _).
  unfold earnings_ok. split_and!; [done|done|lia|congruence].
Qed.

(** * Theorems *)

(** C9: when a limit is returned, disposable earnings are the gross less every
    listed deduction, exactly; the legal cap is the share of [LimitBps] basis
    points, rounded half up to cents (after the product is); the maximum is
    zero when the floor exceeds disposable earnings, and otherwise the smaller
    of the cap and what is above the floor; what is withheld is the smaller of
    the ordered amount and the maximum, so it never breaks into the floor; and
    the trace starts with the jurisdiction, rule pack, limit and gross. *)
Theorem limit_exact i l (H : ComputeWithholdingLimit i = Ok l) :
  let s := d_scale (ei_Gross i) in
  let disposable := Decimal_signed (ei_Gross i) - deducted (ei_Deductions i) in
  let above := disposable - Decimal_signed (ei_ProtectedFloor i) in
  0 <= disposable /\ amount (wl_Disposable l) s disposable /\
  (exists m q, rounds RoundingHalfUp (disposable * ei_LimitBps i * 100) (10 ^ s) m /\ rounds RoundingHalfUp m 10000 q /\
     (if above <? 0 then wl_MaxWithholding l = dec_of 0 2 RoundingHalfUp
      else if above * 100 <? q * 10 ^ s then amount (wl_MaxWithholding l) s above
      else amount (wl_MaxWithholding l) 2 q)) /\
  at_most (wl_OrderedCapped l) (ei_OrderedAmount i) /\ at_most (wl_OrderedCapped l) (wl_MaxWithholding l) /\
  (wl_OrderedCapped l = ei_OrderedAmount i \/ wl_OrderedCapped l = wl_MaxWithholding l) /\
  (0 <= above -> Decimal_signed (wl_OrderedCapped l) * 10 ^ s <= above * 10 ^ d_scale (wl_OrderedCapped l)) /\
  (exists more, wl_Trace l = limit_trace i ++ more).
Proof.
  unfold ComputeWithholdingLimit in H. apply bind_ok_inv in H as ([] & Hok & H). apply bind_ok_inv in H as ([d t1] & Hok0 & H).
  apply bind_ok_inv in H as (cap & Hok1 & H). apply bind_ok_inv in H as (a0 & Hok2 & H). apply bind_ok_inv in H as ([mx t2] & Hok3 & H).
  pose proof (earnings_checks_inv i Hok) as (_ & _ & [Hg Hg0] & [Ho Ho0] & [Hf Hf0] & Hb).
  destruct (deduct_ok (ei_Deductions i) 0 _ (limit_trace i) Hg Hg0) as [_ HD].
  destruct (HD _ _ Hok0) as (Hds & Hd0 & (more & ->) & Hd & Hds' & Hdv).
  apply or_reject_ok, Sub_ok_inv in Hok2 as (_ & _ & Hfs & Ha & Has & Hav).
  destruct (legal_cap_spec i d Hb Hd Hd0) as (m & q & Hm & Hq & Hm0 & Hq0 & HC).
  rewrite Hok1 in HC. destruct (Z.ltb_spec m (10 ^ MaxPrecision)) as [Hlt|]; [|done]. injection HC as ->.
  assert (Hc : dec_wf (dec_of q 2 RoundingHalfUp)) by (apply dec_wf_dec_of; [cbn in Hq; lia|done|done]).
  destruct (floor_clamp_spec _ a0 (limit_trace i ++ more) Hc Ha) as (mx' & t2' & E & (more2 & ->) & Hmx & Hmx0 & _ & Hcl);
    [by rewrite Decimal_signed_dec_of|].
  assert (mx = mx' /\ t2 = (limit_trace i ++ more) ++ more2) as [-> ->] by (rewrite E in Hok3; clear -Hok3; split; congruence).
  destruct (order_capped_spec (ei_OrderedAmount i) mx' ((limit_trace i ++ more) ++ more2) Ho Hmx) as (c & t3 & Eo & (more3 & ->) & Hcw & Hco & Hcm & Hcc).
  rewrite Eo in H. ok_inv. subst l. cbn [wl_Disposable wl_MaxWithholding wl_OrderedCapped wl_Trace].
  rewrite Hdv, Hds' in *. cbv zeta.
  set (s := d_scale (ei_Gross i)) in *. set (D := Decimal_signed (ei_Gross i) - deducted (ei_Deductions i)) in *.
  set (F := Decimal_signed (ei_ProtectedFloor i)) in *.
  rewrite Hav in Hcl. split_and!; try done.
  - exists m, q. split; [done|]. split; [done|].
    destruct (Z.ltb_spec (D - F) 0); [by destruct Hcl|].
    unfold floor_clamp in E. rewrite Sign_negative, Hav in E by done. rewrite (proj2 (Z.ltb_ge (D - F) 0)) in E by lia.
    rewrite Cmp_greater, Hav, Has, Decimal_signed_dec_of in E by done. cbn [d_scale dec_of] in E. change (10 ^ 2) with 100 in E.
    destruct ((D - F) * 100 <? q * 10 ^ s); [replace mx' with a0 by congruence; by split_and!|replace mx' with (dec_of q 2 RoundingHalfUp) by congruence; apply amount_dec_of; [cbn in Hq; lia|done|done]].
  - intros Hpos. rewrite (proj2 (Z.ltb_ge (D - F) 0)) in Hcl by lia. destruct Hcl as [Hle _]. unfold at_most in Hle, Hcm.
    rewrite Hav, Has in Hle. pose proof (pow10_pos (d_scale mx') (proj1 (proj1 (dec_wf_scale _ Hmx)))).
    pose proof (pow10_pos (d_scale c) (proj1 (proj1 (dec_wf_scale _ Hcw)))).
    assert (0 < 10 ^ s) by (apply pow10_pos, (dec_wf_scale _ Hg)).
    apply (Z.mul_le_mono_pos_r _ _ (10 ^ d_scale mx')); [done|].
    transitivity (Decimal_signed mx' * 10 ^ d_scale c * 10 ^ s); nia.
  - eexists. rewrite <- !app_assoc. done.
Qed.

(** the calculation never panics: it returns a limit, or a rejection of
    GARN-003; and for a gross below 10^30 units it returns one exactly when
    the references are present, the type is declared, the amounts are valid,
    not negative and of one scale, the limit is within (0, 10000] and the
    deductions do not exceed the gross: no missing fact becomes a default. *)
Theorem limit_blocks_exactly i :
  guarded (ComputeWithholdingLimit i) /\
  (Decimal_signed (ei_Gross i) < 10 ^ 30 -> (exists l, ComputeWithholdingLimit i = Ok l) <-> earnings_ok i).
Proof.
  split.
  - unfold ComputeWithholdingLimit. apply guarded_bind; [apply earnings_checks_guarded|intros [] Hok].
    pose proof (earnings_checks_inv i Hok) as (_ & _ & [Hg Hg0] & [Ho Ho0] & [Hf Hf0] & Hb).
    apply guarded_bind; [apply deduct_guarded|intros [d t1] Hd].
    destruct (deduct_ok (ei_Deductions i) 0 _ (limit_trace i) Hg Hg0) as [_ HD].
    destruct (HD _ _ Hd) as (_ & Hd0 & _ & Hdw & _).
    destruct (legal_cap_spec i d Hb Hdw Hd0) as (m & q & _ & Hq & Hm0 & Hq0 & HC).
    apply guarded_bind; [by destruct (m <? _); rewrite HC|intros cap Hcap].
    destruct (Z.ltb_spec m (10 ^ MaxPrecision)); [|congruence]. rewrite HC in Hcap. injection Hcap as <-.
    apply guarded_bind; [apply guarded_reject, Sub_no_panic|intros above Ha].
    apply or_reject_ok, Sub_ok_inv in Ha as (_ & _ & _ & Ha & _).
    destruct (floor_clamp_spec (dec_of q 2 RoundingHalfUp) above t1) as (mx & t2 & -> & _); [|done|by rewrite Decimal_signed_dec_of|].
    { apply dec_wf_dec_of; [cbn in Hq; lia|done|done]. }
    cbn [mbind outcome_bind]. by destruct (order_capped _ _ _).
  - intros Hlt. split; [intros [l H]; by eapply limit_requires|]. intros (Hok & Hds & Hsum & Hfs).
    pose proof (earnings_checks_inv i Hok) as (_ & _ & [Hg Hg0] & [Ho Ho0] & [Hf Hf0] & Hb).
    unfold ComputeWithholdingLimit. rewrite Hok. cbn [mbind outcome_bind].
    destruct (deduct_ok (ei_Deductions i) 0 _ (limit_trace i) Hg Hg0) as [HD1 HD2].
    destruct HD1 as (d & t1 & Hd); [done|]. destruct (HD2 _ _ Hd) as (_ & Hd0 & _ & Hdw & Hdsc & Hdv).
    rewrite Hd. cbn [mbind outcome_bind].
    destruct (legal_cap_spec i d Hb Hdw Hd0) as (m & q & _ & Hq & Hm0 & Hq0 & HC).
    pose proof (deducted_nonneg _ _ Hds) as Hdn.
    assert (Hm : m < 10 ^ MaxPrecision).
    { pose proof (pow10_pos (d_scale d) (proj1 (proj1 (dec_wf_scale _ Hdw)))) as Hp.
      assert (Hx : 0 <= Decimal_signed d * ei_LimitBps i * 100 <= 10 ^ 30 * 1000000) by nia.
      set (x := Decimal_signed d * ei_LimitBps i * 100) in *.
      assert (x / 10 ^ d_scale d <= x) by (apply Z.div_le_upper_bound; nia).
      assert (10 ^ 30 * 1000000 + 1 < 10 ^ MaxPrecision) by (vm_compute; done). lia. }
    rewrite (proj2 (Z.ltb_lt _ _) Hm) in HC. rewrite HC. cbn [mbind outcome_bind].
    rewrite Sub_amount, Hdsc, Hfs, Z.eqb_refl by done. cbn [negb].
    pose proof (dec_wf_bound _ Hdw). pose proof (dec_wf_bound _ Hf). rewrite (proj2 (Z.ltb_lt _ _)) by lia.
    cbn [or_reject map_err mbind outcome_bind]. destruct (dec_wf_scale _ Hg) as [Hs _]. destruct (dec_wf_scale _ Hdw) as [_ Hmode].
    edestruct (floor_clamp_spec (dec_of q 2 RoundingHalfUp)) as (mx & t2 & -> & _);
      [apply dec_wf_dec_of; [cbn in Hq; lia|done|done]|apply dec_wf_dec_of; [lia|done|done]|by rewrite Decimal_signed_dec_of|].
    cbn [mbind outcome_bind]. destruct (order_capped _ _ _). by eexists.
Qed.

End limit_facts.

(** * Concrete calculations, with the model of the decimal library *)

Section sample_limit.
#[local] Instance sample_limit_sha : Sha256 := {| sha256_Sum256 := fun bs => [Z.of_nat (length bs) mod 256; foldr Z.add 0 bs mod 256] |}.

Definition cents (q : Z) : Decimal := dec_of q 2 RoundingHalfUp.
Definition sample_earnings : EarningsInput :=
  serving_input (cents 100000) (cents 10000) (cents 10000) (cents 30000) "sha256:serving".

(** The serving contract is met. *)
Example serving_contract_accepted : ValidateServingContract = Ok true.
Proof. vm_compute. reflexivity. Qed.

Lemma limit_exact_witness :
  exists l, ComputeWithholdingLimit sample_earnings = Ok l /\ amount (wl_Disposable l) 2 90000 /\
    wl_MaxWithholding l = cents 22500 /\ wl_OrderedCapped l = cents 22500.
Proof.
  destruct (ComputeWithholdingLimit sample_earnings) as [l| |] eqn:E; [|vm_compute in E; discriminate E..].
  exists l. split; [reflexivity|]. split; [apply (limit_exact _ _ E)|].
  vm_compute in E. injection E as <-. split; reflexivity.
Defined.

Lemma limit_blocks_exactly_witness : exists l, ComputeWithholdingLimit sample_earnings = Ok l.
Proof.
  apply (limit_blocks_exactly sample_earnings); [vm_compute; reflexivity|].
  split_and!; [vm_compute; reflexivity|repeat constructor; try reflexivity|vm_compute; discriminate|reflexivity].
  - exists 10000, 2, RoundingHalfUp. split_and!; (reflexivity || discriminate || (vm_compute; (reflexivity || discriminate))).
  - vm_compute. discriminate.
Defined.

(** the legal share can be exceeded: rounding half up takes a whole cent of
    a cent at fifty per cent, and the product is rounded before the quotient,
    so that two cents are withheld where the exact share rounds to one. *)
Theorem limit_exceeds_share :
  (exists l, ComputeWithholdingLimit
     (mkEarnings "t" "w" "o" OrderCreditor "j" "r" "v" "d" (cents 1) [] 5000 (cents 0) (cents 100)) = Ok l /\
     wl_OrderedCapped l = cents 1 /\ wl_Disposable l = cents 1) /\
  (exists l, ComputeWithholdingLimit
     (mkEarnings "t" "w" "o" OrderCreditor "j" "r" "v" "d" (dec_of 1499999 4 RoundingHalfUp) [] 1
        (dec_of 0 4 RoundingHalfUp) (cents 100)) = Ok l /\ wl_OrderedCapped l = cents 2 /\
     rounds RoundingHalfUp (1499999 * 1 * 100) (10 ^ 4 * 10000) 1).
Proof.
  split; eexists; (split; [vm_compute; reflexivity|]); vm_compute; split_and!; (reflexivity || discriminate).
Qed.

End sample_limit.
