(* ===== verification/GarnishmentPriority.v ===== *)
(** Precedence and concurrency of competing orders:
    [internal/domains/garnishment/priority002.go].

    [ComposePriority] is the function with its checks, its sort and its
    numbering; [sort.Slice] is a merge sort by the code's comparison, which is
    strict on distinct priorities, so that the result is the only one. *)

From stdpp Require Import sorting.
From S2P Require Import Prelude GoStrings Sorting CanonicalBytes FixedDecimal DecimalAmounts CivilTime GarnishmentOrder.

Local Open Scope Z_scope.

Definition compositionReview (field state : string) : garn_err := mkGarnErr ErrCompositionReview field state.

Record PriorityRulePack : Type := mkPack {
  pk_Ref : string; pk_Version : string; pk_Precedence : list OrderType; pk_CanonicalDigest : string
}.

Definition pack_ops (p : PriorityRulePack) : list op :=
  [ WString "ref" (pk_Ref p); WString "version" (pk_Version p); WCount "precedence" (Z.of_nat (length (pk_Precedence p))) ]%string ++
  (WString "type" <$> pk_Precedence p).

(** The loop of [validateShape] over the listed types. *)
Fixpoint precedence_ok (seen : gset string) (kinds : list OrderType) : outcome garn_err unit :=
  match kinds with
  | [] => Ok tt
  | kind :: rest =>
      _ ← fail_if (negb (OrderType_Valid kind)) (compositionReview "rulepack.precedence" "UNDECLARED");
      _ ← fail_if (bool_decide (kind ∈ seen)) (compositionReview "rulepack.precedence" "DUPLICATE");
      precedence_ok ({[kind]} ∪ seen) rest
  end.

Definition PriorityRulePack_validateShape (p : PriorityRulePack) : outcome garn_err unit :=
  _ ← fail_if (is_blank (pk_Ref p) || is_blank (pk_Version p)) (compositionReview "rulepack.identity" "MISSING");
  _ ← fail_if (length (pk_Precedence p) =? 0)%nat (compositionReview "rulepack.precedence" "MISSING");
  precedence_ok ∅ (pk_Precedence p).

(** [Band]: the position of a type, from 0. *)
Fixpoint band_from (i : Z) (kinds : list OrderType) (kind : OrderType) : option Z :=
  match kinds with
  | [] => None
  | candidate :: rest => if String.eqb candidate kind then Some i else band_from (i + 1) rest kind
  end.
Definition PriorityRulePack_Band (p : PriorityRulePack) (kind : OrderType) : option Z := band_from 0 (pk_Precedence p) kind.

(** [band, _ := pack.Band(kind)]. *)
Definition band_of (p : PriorityRulePack) (kind : OrderType) : Z := default 0 (PriorityRulePack_Band p kind).

Record PlacedOrder : Type := mkPlaced { pl_OrderID : string; pl_OrderType : OrderType; pl_Rank : Z; pl_RunGroup : Z }.

Record PriorityComposition : Type := mkComposition {
  pc_TenantID : string; pc_PersonRef : string; pc_RulePackRef : string; pc_RulePackVersion : string;
  pc_RulePackDigest : string; pc_Sequence : list PlacedOrder; pc_CanonicalDigest : string
}.

Definition composition_ops (c : PriorityComposition) : list op :=
  [ WString "tenant" (pc_TenantID c); WString "person" (pc_PersonRef c); WString "rulepack_ref" (pc_RulePackRef c);
    WString "rulepack_version" (pc_RulePackVersion c); WString "rulepack_digest" (pc_RulePackDigest c);
    WCount "sequence" (Z.of_nat (length (pc_Sequence c))) ]%string ++
  concat ((fun placed => [ WString "order" (pl_OrderID placed); WString "type" (pl_OrderType placed);
                           WInt "rank" (pl_Rank placed); WInt "run_group" (pl_RunGroup placed) ]%string) <$> pc_Sequence c).

(** The less function of the sort. *)
Definition ranked_less (p : PriorityRulePack) (a b : AttachmentOrder) : bool :=
  let bandI := band_of p (o_OrderType a) in
  let bandJ := band_of p (o_OrderType b) in
  if negb (bandI =? bandJ) then bandI <? bandJ
  else if negb (o_Priority a =? o_Priority b) then o_Priority a <? o_Priority b
  else if negb (time_Equal (o_EffectiveFrom a) (o_EffectiveFrom b)) then time_Before (o_EffectiveFrom a) (o_EffectiveFrom b)
  else String.ltb (o_OrderID a) (o_OrderID b).

Definition ranked_le (p : PriorityRulePack) (a b : AttachmentOrder) : Prop := ranked_less p b a = false.
#[export] Instance ranked_le_dec p a b : Decision (ranked_le p a b).
Proof. unfold ranked_le. apply _. Defined.

Definition ranked (p : PriorityRulePack) (orders : list AttachmentOrder) : list AttachmentOrder := merge_sort (ranked_le p) orders.

(** The loop that numbers the ranked orders: rank, group and previous band. *)
Fixpoint place_orders (p : PriorityRulePack) (i group previous : Z) (orders : list AttachmentOrder) : list PlacedOrder :=
  match orders with
  | [] => []
  | order :: rest =>
      let band := band_of p (o_OrderType order) in
      let fresh := (i =? 0) || negb (band =? previous) in
      let group' := if fresh then group + 1 else group in
      mkPlaced (o_OrderID order) (o_OrderType order) (i + 1) group' ::
      place_orders p (i + 1) group' (if fresh then band else previous) rest
  end.

(** The checks of every order, with the priorities claimed so far. *)
Definition order_field (order : AttachmentOrder) (suffix : string) : string := "order." +:+ o_OrderID order +:+ suffix.
Fixpoint compose_checks (p : PriorityRulePack) (tenant person : string) (seen : gset Z) (orders : list AttachmentOrder)
    : outcome garn_err unit :=
  match orders with
  | [] => Ok tt
  | order :: rest =>
      _ ← fail_if (negb (String.eqb (o_Status order) OrderActive)) (compositionReview (order_field order ".status") "NOT_ACTIVE");
      _ ← fail_if (negb (String.eqb (o_TenantID order) tenant)) (compositionReview (order_field order ".tenant") "MISMATCH");
      _ ← fail_if (negb (String.eqb (o_PersonRef order) person)) (compositionReview (order_field order ".person") "MISMATCH");
      _ ← fail_if (negb (OrderType_Valid (o_OrderType order))) (compositionReview (order_field order ".type") "UNDECLARED");
      _ ← fail_if (bool_decide (PriorityRulePack_Band p (o_OrderType order) = None)) (compositionReview (order_field order ".type") "UNCOVERED");
      _ ← fail_if (is_blank (o_Jurisdiction order)) (compositionReview (order_field order ".jurisdiction") "MISSING");
      _ ← fail_if (bool_decide (o_Priority order ∈ seen)) (compositionReview "order.priority" "AMBIGUOUS");
      compose_checks p tenant person ({[o_Priority order]} ∪ seen) rest
  end.

Section composition.
Context `{SHA : Sha256}.

Definition PriorityRulePack_computedDigest (p : PriorityRulePack) : string :=
  digest_or_empty (ops_run (pack_ops p) (New "hcmnext.domains.garnishment.PriorityRulePack" 1)).

Definition NewPriorityRulePack (ref version : string) (precedence : list OrderType) : outcome garn_err PriorityRulePack :=
  let pack := mkPack ref version precedence "" in
  _ ← PriorityRulePack_validateShape pack;
  Ok (mkPack ref version precedence (PriorityRulePack_computedDigest pack)).

Definition PriorityRulePack_Validate (p : PriorityRulePack) : outcome garn_err unit :=
  _ ← PriorityRulePack_validateShape p;
  fail_if (String.eqb (pk_CanonicalDigest p) "" || negb (String.eqb (pk_CanonicalDigest p) (PriorityRulePack_computedDigest p)))
    (compositionReview "rulepack.pack" "UNSEALED").

Definition PriorityComposition_computedDigest (c : PriorityComposition) : string :=
  digest_or_empty (ops_run (composition_ops c) (New "hcmnext.domains.garnishment.PriorityComposition" 1)).

Definition ComposePriority (tenant person : string) (pack : PriorityRulePack) (orders : list AttachmentOrder)
    : outcome garn_err PriorityComposition :=
  _ ← PriorityRulePack_Validate pack;
  _ ← fail_if (is_blank tenant || is_blank person) (compositionReview "composition.scope" "MISSING");
  _ ← compose_checks pack tenant person ∅ orders;
  let sequence := place_orders pack 0 0 (-1) (ranked pack orders) in
  let c := mkComposition tenant person (pk_Ref pack) (pk_Version pack) (pk_CanonicalDigest pack) sequence "" in
  Ok (mkComposition tenant person (pk_Ref pack) (pk_Version pack) (pk_CanonicalDigest pack) sequence
        (PriorityComposition_computedDigest c)).

(** The loop of [Verify]: position and the group of the previous placement. *)
Fixpoint verify_sequence (i previous : Z) (placed : list PlacedOrder) : outcome garn_err unit :=
  match placed with
  | [] => Ok tt
  | p :: rest =>
      _ ← fail_if (is_blank (pl_OrderID p) || negb (OrderType_Valid (pl_OrderType p))) (compositionReview "composition.sequence" "INVALID");
      _ ← fail_if (negb (pl_Rank p =? i + 1)) (compositionReview "composition.sequence" "MISMATCH");
      _ ← (if i =? 0 then fail_if (negb (pl_RunGroup p =? 1)) (compositionReview "composition.sequence" "MISMATCH")
           else fail_if (negb (pl_RunGroup p =? previous) && negb (pl_RunGroup p =? previous + 1))
                  (compositionReview "composition.sequence" "MISMATCH"));
      verify_sequence (i + 1) (pl_RunGroup p) rest
  end.

Definition PriorityComposition_Verify (c : PriorityComposition) : outcome garn_err unit :=
  _ ← fail_if (is_blank (pc_TenantID c) || is_blank (pc_PersonRef c)) (compositionReview "composition.scope" "MISSING");
  _ ← fail_if (is_blank (pc_RulePackDigest c) || String.eqb (pc_CanonicalDigest c) "") (compositionReview "composition.seal" "UNSEALED");
  _ ← verify_sequence 0 0 (pc_Sequence c);
  fail_if (negb (String.eqb (PriorityComposition_computedDigest c) (pc_CanonicalDigest c))) (compositionReview "composition.seal" "MISMATCH").

End composition.

(** * The order of the sequence *)

(** What makes an order composable. *)
Definition composable (p : PriorityRulePack) (tenant person : string) (o : AttachmentOrder) : Prop :=
  o_Status o = OrderActive /\ o_TenantID o = tenant /\ o_PersonRef o = person /\ OrderType_Valid (o_OrderType o) = true /\
  PriorityRulePack_Band p (o_OrderType o) <> None /\ is_blank (o_Jurisdiction o) = false.

Lemma compose_checks_ok p tenant person orders : forall seen,
  compose_checks p tenant person seen orders = Ok tt <->
  Forall (composable p tenant person) orders /\ NoDup (o_Priority <$> orders) /\ Forall (fun o => o_Priority o ∉ seen) orders.
Proof.
  induction orders as [|o orders IH]; intros seen; cbn [compose_checks].
  { split; [|done]. intros _. split_and!; [constructor| |constructor]. cbn. constructor. }
  rewrite !bind_unit_ok, !fail_if_ok_iff, !negb_false_iff, !String.eqb_eq, !bool_decide_eq_false, IH.
  rewrite !Forall_cons, fmap_cons, NoDup_cons, (fresh_keys o_Priority). unfold composable. tauto.
Qed.

(** The precedence key of an order, compared lexicographically. *)
Definition key_before (p : PriorityRulePack) (a b : AttachmentOrder) : Prop :=
  band_of p (o_OrderType a) < band_of p (o_OrderType b) \/
  (band_of p (o_OrderType a) = band_of p (o_OrderType b) /\ o_Priority a < o_Priority b).
Definition key_at_most (p : PriorityRulePack) (a b : AttachmentOrder) : Prop :=
  band_of p (o_OrderType a) < band_of p (o_OrderType b) \/
  (band_of p (o_OrderType a) = band_of p (o_OrderType b) /\ o_Priority a <= o_Priority b).

Lemma ranked_less_asym p a b : ranked_less p a b = true -> ranked_less p b a = false.
Proof.
  unfold ranked_less. rewrite (Z.eqb_sym (band_of p (o_OrderType b))), (Z.eqb_sym (o_Priority b)).
  destruct (Z.eqb_spec (band_of p (o_OrderType a)) (band_of p (o_OrderType b))); cbn; [|lia].
  destruct (Z.eqb_spec (o_Priority a) (o_Priority b)); cbn; [|lia].
  unfold time_Equal, time_Before.
  rewrite (Z.eqb_sym (t_unix (o_EffectiveFrom b))), (Z.eqb_sym (t_nanosecond (o_EffectiveFrom b))).
  destruct (Z.eqb_spec (t_unix (o_EffectiveFrom a)) (t_unix (o_EffectiveFrom b))); cbn; [|lia].
  destruct (Z.eqb_spec (t_nanosecond (o_EffectiveFrom a)) (t_nanosecond (o_EffectiveFrom b))); cbn; [|lia].
  intros H. apply string_ltb_ge. by apply string_ltb_lt in H as [H _].
Qed.

#[export] Instance ranked_le_total p : Total (ranked_le p).
Proof. intros a b. unfold ranked_le. destruct (ranked_less p b a) eqn:E; [right; by apply ranked_less_asym|by left]. Qed.

Lemma ranked_le_key p a b : ranked_le p a b -> key_at_most p a b.
Proof.
  unfold ranked_le, ranked_less, key_at_most.
  destruct (Z.eqb_spec (band_of p (o_OrderType b)) (band_of p (o_OrderType a))); cbn; [|lia].
  destruct (Z.eqb_spec (o_Priority b) (o_Priority a)); cbn; lia.
Qed.

Lemma key_at_most_trans p : Transitive (key_at_most p).
Proof. intros a b c. unfold key_at_most. lia. Qed.

Lemma ranked_permutation p orders : ranked p orders ≡ₚ orders.
Proof. apply merge_sort_Permutation. Qed.

Lemma ranked_sorted p orders : StronglySorted (key_at_most p) (ranked p orders).
Proof.
  apply Sorted_StronglySorted; [apply key_at_most_trans|].
  pose proof (Sorted_merge_sort (ranked_le p) orders) as H. revert H. fold (ranked p orders).
  induction 1 as [|a l Hs IH Hd]; constructor; [done|]. inversion Hd; constructor. by apply ranked_le_key.
Qed.

(** Distinct priorities determine the sequence. *)
Lemma ranked_canonical p orders orders' : NoDup (o_Priority <$> orders) -> orders ≡ₚ orders' -> ranked p orders = ranked p orders'.
Proof.
  intros Hnd Hp. apply (StronglySorted_unique_strong (key_at_most p)).
  - intros x y Hx Hy H1 H2. rewrite ranked_permutation in Hx. rewrite (ranked_permutation p orders'), <- Hp in Hy.
    apply (fmap_NoDup_inj o_Priority orders); try done. unfold key_at_most in *. lia.
  - apply ranked_sorted.
  - apply ranked_sorted.
  - by rewrite !ranked_permutation.
Qed.

(** * The numbering *)

Lemma place_orders_shape p orders : forall i group previous,
  (fun pl => (pl_OrderID pl, pl_OrderType pl)) <$> place_orders p i group previous orders =
  (fun o => (o_OrderID o, o_OrderType o)) <$> orders.
Proof. induction orders as [|o orders IH]; intros i g prev; cbn; [done|]. f_equal. apply IH. Qed.

Lemma place_orders_rank p orders : forall i group previous k pl,
  place_orders p i group previous orders !! k = Some pl -> pl_Rank pl = i + Z.of_nat k + 1.
Proof.
  induction orders as [|o orders IH]; intros i g prev [|k] pl H; cbn in H; try done.
  - injection H as <-. cbn. lia.
  - apply IH in H. lia.
Qed.

(** Over bands that do not decrease, the group counts the changes of band. *)
Lemma place_orders_group p orders : forall i group previous,
  0 < i -> StronglySorted (key_at_most p) orders -> Forall (fun o => previous <= band_of p (o_OrderType o)) orders ->
  Forall (fun pl => group <= pl_RunGroup pl /\ (pl_RunGroup pl = group <-> band_of p (pl_OrderType pl) = previous) /\
      previous <= band_of p (pl_OrderType pl))
    (place_orders p i group previous orders).
Proof.
  induction orders as [|o orders IH]; intros i g prev Hi Hs Hprev; cbn [place_orders]; [constructor|].
  apply StronglySorted_inv in Hs as [Hs Ho]. apply Forall_cons in Hprev as [Hp Hprev].
  assert (Hband : Forall (fun x => band_of p (o_OrderType o) <= band_of p (o_OrderType x)) orders)
    by (eapply Forall_impl; [exact Ho|]; unfold key_at_most; intros; lia).
  rewrite (proj2 (Z.eqb_neq i 0)) by lia. cbn [orb].
  destruct (Z.eqb_spec (band_of p (o_OrderType o)) prev) as [E|E]; cbn [negb]; constructor; cbn; [lia| |lia|].
  - apply IH; [lia|done|]. by rewrite <- E.
  - eapply Forall_impl; [apply IH; [lia|done|exact Hband]|]. cbn. intros pl (H1 & H2 & H3). lia.
Qed.

Lemma place_orders_pairs p orders : forall i group previous,
  0 <= i -> StronglySorted (key_at_most p) orders ->
  StronglySorted (fun a b => pl_RunGroup a <= pl_RunGroup b /\
    (pl_RunGroup a = pl_RunGroup b <-> band_of p (pl_OrderType a) = band_of p (pl_OrderType b)))
    (place_orders p i group previous orders).
Proof.
  induction orders as [|o orders IH]; intros i g prev Hi Hs; cbn [place_orders]; [constructor|].
  apply StronglySorted_inv in Hs as [Hs Ho].
  assert (Hband : Forall (fun x => band_of p (o_OrderType o) <= band_of p (o_OrderType x)) orders)
    by (eapply Forall_impl; [exact Ho|]; unfold key_at_most; intros; lia).
  constructor; [apply IH; [lia|done]|].
  set (fresh := (i =? 0) || negb (band_of p (o_OrderType o) =? prev)).
  replace (if fresh then band_of p (o_OrderType o) else prev) with (band_of p (o_OrderType o))
    by (subst fresh; destruct (i =? 0), (Z.eqb_spec (band_of p (o_OrderType o)) prev); cbn; congruence).
  eapply Forall_impl; [apply place_orders_group; [lia|done|exact Hband]|]. cbn. intros pl (H1 & H2 & H3). lia.
Qed.

Lemma band_from_range kinds kind : forall i b, band_from i kinds kind = Some b -> i <= b.
Proof.
  induction kinds as [|c kinds IH]; intros i b H; cbn in H; [done|].
  destruct (String.eqb c kind); [injection H as <-; lia|]. apply IH in H. lia.
Qed.

Lemma band_from_inj kinds k1 k2 : forall i b, band_from i kinds k1 = Some b -> band_from i kinds k2 = Some b -> k1 = k2.
Proof.
  induction kinds as [|c kinds IH]; intros i b H1 H2; cbn in H1, H2; [done|].
  destruct (String.eqb_spec c k1) as [E1|E1], (String.eqb_spec c k2) as [E2|E2].
  - by subst.
  - injection H1 as <-. apply band_from_range in H2. lia.
  - injection H2 as <-. apply band_from_range in H1. lia.
  - by apply (IH (i + 1) b).
Qed.

Lemma band_of_inj p k1 k2 : PriorityRulePack_Band p k1 <> None -> PriorityRulePack_Band p k2 <> None ->
  band_of p k1 = band_of p k2 <-> k1 = k2.
Proof.
  intros H1 H2. split; [|by intros ->]. unfold band_of.
  destruct (PriorityRulePack_Band p k1) as [b|] eqn:E1, (PriorityRulePack_Band p k2) as [b'|] eqn:E2; try done. cbn.
  intros ->. by eapply band_from_inj.
Qed.

(** [Verify] accepts the numbering exactly when every placement names an order. *)
Lemma verify_placed p orders : forall i group previous,
  0 <= i -> Forall (fun o => OrderType_Valid (o_OrderType o) = true) orders -> (i = 0 -> group = 0) ->
  verify_sequence i group (place_orders p i group previous orders) = Ok tt <->
  Forall (fun o => is_blank (o_OrderID o) = false) orders.
Proof.
  induction orders as [|o orders IH]; intros i g prev Hi Hv Hg; cbn [place_orders verify_sequence]; [by split|].
  apply Forall_cons in Hv as [Ho Hv]. set (fresh := (i =? 0) || _). cbn [pl_OrderID pl_OrderType pl_Rank pl_RunGroup].
  rewrite !bind_unit_ok, !fail_if_ok_iff, Forall_cons, IH by (done || lia). rewrite Ho, Z.eqb_refl. cbn [negb orb].
  rewrite orb_false_r.
  assert (Hgroup : (if i =? 0 then fail_if (negb ((if fresh then g + 1 else g) =? 1)) (compositionReview "composition.sequence" "MISMATCH")
     else fail_if (negb ((if fresh then g + 1 else g) =? g) && negb ((if fresh then g + 1 else g) =? g + 1))
            (compositionReview "composition.sequence" "MISMATCH")) = Ok tt).
  { destruct (Z.eqb_spec i 0) as [E|E]; rewrite fail_if_ok_iff; [|destruct fresh; lia].
    subst fresh. rewrite (Hg E). cbn [orb]. lia. }
  tauto.
Qed.

Section composition_facts.
Context `{SHA : Sha256}.

Lemma composition_digest c : PriorityComposition_computedDigest c =
  Digest (w_buf (ops_run (composition_ops c) (New "hcmnext.domains.garnishment.PriorityComposition" 1))).
Proof.
  unfold PriorityComposition_computedDigest, digest_or_empty. rewrite stream_digest; [done|done|].
  unfold composition_ops. apply Forall_app_2; [repeat constructor; done|].
  induction (pc_Sequence c) as [|x l IH]; cbn; [constructor|]. repeat (constructor; [done|]). exact IH.
Qed.

Lemma pack_digest p : PriorityRulePack_computedDigest p =
  Digest (w_buf (ops_run (pack_ops p) (New "hcmnext.domains.garnishment.PriorityRulePack" 1))).
Proof.
  unfold PriorityRulePack_computedDigest, digest_or_empty. rewrite stream_digest; [done|done|].
  unfold pack_ops. apply Forall_app_2; [repeat constructor; done|]. apply Forall_fmap, Forall_true. done.
Qed.

Lemma pack_digest_bound p : PriorityRulePack_Validate p = Ok tt -> is_blank (pk_CanonicalDigest p) = false.
Proof.
  unfold PriorityRulePack_Validate. rewrite bind_unit_ok, fail_if_ok_iff, orb_false_iff, negb_false_iff, String.eqb_eq.
  intros (_ & _ & ->). rewrite pack_digest. apply Digest_not_blank.
Qed.

(** A pack is accepted exactly when it names itself and lists declared types
    once each; what [NewPriorityRulePack] returns is accepted. *)
Lemma precedence_ok_iff kinds : forall seen, precedence_ok seen kinds = Ok tt <->
  Forall (fun k => OrderType_Valid k = true) kinds /\ NoDup kinds /\ Forall (fun k => k ∉ seen) kinds.
Proof.
  induction kinds as [|k kinds IH]; intros seen; cbn [precedence_ok].
  { split; [|done]. intros _. split_and!; constructor. }
  rewrite !bind_unit_ok, !fail_if_ok_iff, negb_false_iff, bool_decide_eq_false, IH, !Forall_cons, NoDup_cons, !Forall_forall.
  assert (Hset : (forall x, x ∈ kinds -> x ∉ {[k]} ∪ seen) <-> (k ∉ kinds) /\ (forall x, x ∈ kinds -> x ∉ seen)).
  { split; [intros H; split; [intros Hk; specialize (H k Hk); set_solver|intros x Hx; specialize (H x Hx); set_solver]|].
    intros [H1 H2] x Hx. specialize (H2 x Hx). rewrite elem_of_union, elem_of_singleton. intros [->|E]; done. }
  rewrite Hset. tauto.
Qed.

Lemma ComposePriority_ok tenant person pack orders c : ComposePriority tenant person pack orders = Ok c <->
  (PriorityRulePack_Validate pack = Ok tt /\ (is_blank tenant = false /\ is_blank person = false) /\
   Forall (composable pack tenant person) orders /\ NoDup (o_Priority <$> orders)) /\
  c = let c0 := mkComposition tenant person (pk_Ref pack) (pk_Version pack) (pk_CanonicalDigest pack)
                  (place_orders pack 0 0 (-1) (ranked pack orders)) "" in
      mkComposition tenant person (pk_Ref pack) (pk_Version pack) (pk_CanonicalDigest pack)
        (place_orders pack 0 0 (-1) (ranked pack orders)) (PriorityComposition_computedDigest c0).
Proof.
  unfold ComposePriority. rewrite !bind_unit_ok, fail_if_ok_iff, orb_false_iff, compose_checks_ok.
  assert (Hempty : Forall (fun o => o_Priority o ∉ (∅ : gset Z)) orders) by (apply Forall_forall; set_solver).
  split; [intros (H1 & H2 & (H3 & H4 & _) & [= <-]); done|]. intros ((H1 & H2 & H3 & H4) & ->). done.
Qed.

(** Ranks of strictly increasing keys. *)
Lemma ranked_strict pack orders : NoDup (o_Priority <$> orders) ->
  forall i j a b, (i < j)%nat -> ranked pack orders !! i = Some a -> ranked pack orders !! j = Some b -> key_before pack a b.
Proof.
  intros Hnd i j a b Hij Ha Hb.
  assert (Hne : o_Priority a <> o_Priority b).
  { intros E. assert (Hnd' : NoDup (o_Priority <$> ranked pack orders)) by (by rewrite ranked_permutation).
    assert (i = j); [|lia]. eapply (NoDup_lookup _ i j (o_Priority a) Hnd'); rewrite list_lookup_fmap; [by rewrite Ha|by rewrite Hb, E]. }
  pose proof (sorted_pairs _ _ i j a b (ranked_sorted pack orders) Hij Ha Hb) as Hs. unfold key_at_most, key_before in *. lia.
Qed.

(** C21: a composition is returned exactly when the pack is sealed and valid,
    the scope is named, every order is active, of this tenant and worker, of a
    covered type and with a jurisdiction, and no two orders claim a priority.
    Its sequence then is the orders ranked by precedence and priority, ranks
    1..n; groups start at 1, do not decrease, and two orders run concurrently
    exactly when they have the same type; it does not depend on the order in
    which the orders are listed; and it passes [Verify] exactly when every
    order has an identifier. *)
Theorem composition_exact tenant person pack orders :
  ((exists c, ComposePriority tenant person pack orders = Ok c) <->
     PriorityRulePack_Validate pack = Ok tt /\ (is_blank tenant = false /\ is_blank person = false) /\
     Forall (composable pack tenant person) orders /\ NoDup (o_Priority <$> orders)) /\
  (forall c, ComposePriority tenant person pack orders = Ok c ->
     (exists rk, rk ≡ₚ orders /\
        (forall i j a b, (i < j)%nat -> rk !! i = Some a -> rk !! j = Some b -> key_before pack a b) /\
        (fun pl => (pl_OrderID pl, pl_OrderType pl)) <$> pc_Sequence c = (fun o => (o_OrderID o, o_OrderType o)) <$> rk) /\
     (forall i pl, pc_Sequence c !! i = Some pl -> pl_Rank pl = Z.of_nat i + 1 /\ (i = 0%nat -> pl_RunGroup pl = 1)) /\
     (forall i j p q, (i < j)%nat -> pc_Sequence c !! i = Some p -> pc_Sequence c !! j = Some q ->
        pl_RunGroup p <= pl_RunGroup q /\ (pl_RunGroup p = pl_RunGroup q <-> pl_OrderType p = pl_OrderType q)) /\
     (forall orders', orders ≡ₚ orders' -> ComposePriority tenant person pack orders' = Ok c) /\
     (PriorityComposition_Verify c = Ok tt <-> Forall (fun o => is_blank (o_OrderID o) = false) orders)).
Proof.
  split.
  { split; [intros [c H]; by apply ComposePriority_ok in H as [H _]|].
    intros H. eexists. apply ComposePriority_ok. by split. }
  intros c H. pose proof H as Hc. apply ComposePriority_ok in Hc as ((Hv & Ht & Hall & Hnd) & ->). cbn [pc_Sequence].
  set (rk := ranked pack orders). assert (Hp : rk ≡ₚ orders) by apply ranked_permutation.
  split_and!.
  - exists rk. split; [done|]. split; [by apply ranked_strict|apply place_orders_shape].
  - intros i pl Hpl. pose proof (place_orders_rank _ _ _ _ _ _ _ Hpl) as Hr. split; [lia|]. intros ->.
    destruct rk; [done|]. cbn in Hpl. by injection Hpl as <-.
  - intros i j p q Hij Hi Hj.
    pose proof (place_orders_pairs pack rk 0 0 (-1) ltac:(lia) (ranked_sorted pack orders)) as Hs.
    apply (sorted_pairs _ _ i j p q) in Hs as [H1 H2]; [|done..]. split; [done|]. rewrite H2.
    assert (Hband : forall k x, place_orders pack 0 0 (-1) rk !! k = Some x -> PriorityRulePack_Band pack (pl_OrderType x) <> None).
    { intros k x Hx. pose proof (place_orders_shape pack rk 0 0 (-1)) as Hsh.
      apply (f_equal (fun l => l !! k)) in Hsh. rewrite !list_lookup_fmap, Hx in Hsh. cbn in Hsh.
      destruct (rk !! k) as [o|] eqn:E; [|done]. cbn in Hsh. injection Hsh as _ ->.
      apply (list_elem_of_lookup_2 _ _ _) in E. rewrite Hp in E. rewrite Forall_forall in Hall. by apply Hall in E as (_ & _ & _ & _ & E & _). }
    apply band_of_inj; by eapply Hband.
  - intros orders' Hp'. apply ComposePriority_ok. split; [|by rewrite <- (ranked_canonical pack orders orders')].
    rewrite <- Hp'. done.
  - unfold PriorityComposition_Verify. rewrite !bind_unit_ok, !fail_if_ok_iff.
    cbn [pc_TenantID pc_PersonRef pc_RulePackDigest pc_CanonicalDigest pc_Sequence].
    destruct Ht as [-> ->]. rewrite (pack_digest_bound pack Hv). cbn [orb].
    assert (Hids : Forall (fun o => is_blank (o_OrderID o) = false) rk <-> Forall (fun o => is_blank (o_OrderID o) = false) orders)
      by (by rewrite Hp).
    assert (Hvalid : Forall (fun o => OrderType_Valid (o_OrderType o) = true) rk).
    { apply (Permutation_Forall (symmetry Hp)). eapply Forall_impl; [exact Hall|]. by intros x (_ & _ & _ & Hx & _). }
    rewrite <- Hids, <- (verify_placed pack rk 0 0 (-1)) by (done || lia).
    rewrite composition_digest at 1. rewrite negb_false_iff, String.eqb_eq. split; [tauto|]. intros Hv'. by split_and!.
Qed.

(** What the constructor seals is valid, for exactly the lists of distinct
    declared types. *)
Lemma NewPriorityRulePack_valid ref version precedence p : NewPriorityRulePack ref version precedence = Ok p ->
  PriorityRulePack_Validate p = Ok tt /\ NoDup (pk_Precedence p) /\ pk_Precedence p = precedence.
Proof.
  unfold NewPriorityRulePack. intros H. apply bind_ok_inv in H as ([] & Hs & H). injection H as <-. split_and!; [|..|done].
  - unfold PriorityRulePack_Validate. rewrite bind_unit_ok, fail_if_ok_iff. split; [done|]. rewrite orb_false_iff, negb_false_iff, String.eqb_eq.
    cbn [pk_CanonicalDigest]. split; [by rewrite pack_digest|reflexivity].
  - unfold PriorityRulePack_validateShape in Hs. rewrite !bind_unit_ok, precedence_ok_iff in Hs. cbn [pk_Precedence] in *. tauto.
Qed.

End composition_facts.

(** * A concrete composition *)

Section sample_composition.
#[local] Instance sample_priority_sha : Sha256 := {| sha256_Sum256 := fun bs => [Z.of_nat (length bs) mod 256; foldr Z.add 0 bs mod 256] |}.

Definition sample_pack : PriorityRulePack :=
  let p := mkPack "pack" "v1" [OrderChildSupport; OrderTaxLevy; OrderCreditor] "" in
  mkPack "pack" "v1" [OrderChildSupport; OrderTaxLevy; OrderCreditor] (PriorityRulePack_computedDigest p).
Definition competing (id : string) (kind : OrderType) (priority : Z) : AttachmentOrder :=
  mkOrder "tenant" id 1 kind "US-CA" "worker" "court" new_year time_zero new_year
    (mkDecimal true false (Some 100000) 2 RoundingHalfUp) priority "remit" "sha256:document" ∅ OrderActive "" "sha256:x".
Definition competing_orders : list AttachmentOrder :=
  [competing "c" OrderCreditor 1; competing "b" OrderChildSupport 5; competing "a" OrderChildSupport 3].

Lemma composition_exact_witness :
  exists c, ComposePriority "tenant" "worker" sample_pack competing_orders = Ok c /\
    pc_Sequence c = [mkPlaced "a" OrderChildSupport 1 1; mkPlaced "b" OrderChildSupport 2 1; mkPlaced "c" OrderCreditor 3 2] /\
    PriorityComposition_Verify c = Ok tt.
Proof.
  destruct (ComposePriority "tenant" "worker" sample_pack competing_orders) as [c| |] eqn:E; [|vm_compute in E; discriminate E..].
  exists c. split; [reflexivity|].
  destruct (composition_exact "tenant" "worker" sample_pack competing_orders) as [_ H].
  destruct (H c E) as (_ & _ & _ & _ & Hv). split.
  - vm_compute in E. injection E as <-. reflexivity.
  - apply Hv. repeat constructor.
Defined.

End sample_composition.
