(* ===== verification/GarnishmentLedger.v ===== *)
(** The balance of one order as an append-only ledger:
    [internal/domains/garnishment/balance004.go].

    [ApplyLedgerEntry] returns the successor of a [BalanceState] it does not
    change.  [posted] is the specification: what the entries of a ledger add
    up to; the theorems relate every reachable state to it. *)

From S2P Require Import Prelude GoStrings Sorting CanonicalBytes FixedDecimal DecimalAmounts CivilTime GarnishmentOrder GarnishmentLimit.

Local Open Scope Z_scope.

Definition balanceReject (field state : string) : garn_err := mkGarnErr ErrBalanceRejected field state.

Definition LedgerEntryKind : Type := string.
Definition LedgerWithholding : LedgerEntryKind := "WITHHOLDING".
Definition LedgerRemittance : LedgerEntryKind := "REMITTANCE".
Definition LedgerRelease : LedgerEntryKind := "RELEASE".
Definition LedgerAmendment : LedgerEntryKind := "AMENDMENT".
Definition LedgerRetroCredit : LedgerEntryKind := "RETRO_CREDIT".
Definition LedgerRetroDebit : LedgerEntryKind := "RETRO_DEBIT".

(** The switch over the kinds: [None] is an undeclared one. *)
Inductive entry_class : Type := Withholds | Credits | Remits | Lifecycle.
Definition classify (k : LedgerEntryKind) : option entry_class :=
  if String.eqb k LedgerWithholding || String.eqb k LedgerRetroDebit then Some Withholds
  else if String.eqb k LedgerRetroCredit then Some Credits
  else if String.eqb k LedgerRemittance then Some Remits
  else if String.eqb k LedgerRelease || String.eqb k LedgerAmendment then Some Lifecycle
  else None.

Definition LedgerEntryKind_Valid (k : LedgerEntryKind) : bool :=
  String.eqb k LedgerWithholding || String.eqb k LedgerRemittance || String.eqb k LedgerRelease ||
  String.eqb k LedgerAmendment || String.eqb k LedgerRetroCredit || String.eqb k LedgerRetroDebit.

Record LedgerEntry : Type := mkEntry {
  e_Tenant : string; e_WorkerRef : string; e_OrderRef : string; e_Seq : Z; e_Kind : LedgerEntryKind;
  e_Amount : Decimal; e_EffectiveAt : GoTime; e_CorrectsSeq : Z; e_AuthorityRef : string; e_Digest : string
}.

Record BalanceState : Type := mkBalance {
  b_Tenant : string; b_WorkerRef : string; b_OrderRef : string; b_OrderCap : Decimal; b_Withheld : Decimal;
  b_Remitted : Decimal; b_Arrears : Decimal; b_Entries : list LedgerEntry; b_Explanation : list string; b_Digest : string
}.

Definition entry_ops (e : LedgerEntry) : list op :=
  [ WString "tenant" (e_Tenant e); WString "worker_ref" (e_WorkerRef e); WString "order_ref" (e_OrderRef e);
    WInt "seq" (to_int64 (e_Seq e)); WString "kind" (e_Kind e); WValue "amount" (Decimal_Canonical (e_Amount e));
    WString "effective_at" (Format_RFC3339 (e_EffectiveAt e)); WInt "corrects" (to_int64 (e_CorrectsSeq e));
    WString "authority" (e_AuthorityRef e) ]%string.

Definition state_ops (b : BalanceState) : list op :=
  [ WString "tenant" (b_Tenant b); WString "worker_ref" (b_WorkerRef b); WString "order_ref" (b_OrderRef b);
    WValue "withheld" (Decimal_Canonical (b_Withheld b)); WValue "remitted" (Decimal_Canonical (b_Remitted b));
    WValue "arrears" (Decimal_Canonical (b_Arrears b)); WInt "entries" (Z.of_nat (length (b_Entries b))) ]%string.

Definition entry_with_digest (d : string) (e : LedgerEntry) : LedgerEntry :=
  mkEntry (e_Tenant e) (e_WorkerRef e) (e_OrderRef e) (e_Seq e) (e_Kind e) (e_Amount e) (e_EffectiveAt e)
    (e_CorrectsSeq e) (e_AuthorityRef e) d.
Definition state_with_digest (d : string) (b : BalanceState) : BalanceState :=
  mkBalance (b_Tenant b) (b_WorkerRef b) (b_OrderRef b) (b_OrderCap b) (b_Withheld b) (b_Remitted b) (b_Arrears b)
    (b_Entries b) (b_Explanation b) d.

(** [zero2()]. *)
Definition zero2 : outcome garn_err Decimal := must "0.00".

Definition OpenBalance (tenant workerRef orderRef : string) (cap : Decimal) : outcome garn_err BalanceState :=
  _ ← fail_if (is_blank tenant || is_blank workerRef || is_blank orderRef) (balanceReject "balance.scope" "MISSING");
  _ ← fail_if (not_nonnegative cap) (balanceReject "balance.cap" "INVALID");
  withheld ← zero2;
  remitted ← zero2;
  Ok (mkBalance tenant workerRef orderRef cap withheld remitted cap [] [] "").

(** The checks of an entry against the ledger it is posted to. *)
Definition entry_checks (state : BalanceState) (e : LedgerEntry) : outcome garn_err unit :=
  let n := Z.of_nat (length (b_Entries state)) in
  _ ← fail_if (negb (LedgerEntryKind_Valid (e_Kind e))) (balanceReject "balance.kind" "UNDECLARED");
  _ ← fail_if (negb (String.eqb (e_Tenant e) (b_Tenant state)) || negb (String.eqb (e_WorkerRef e) (b_WorkerRef state))
               || negb (String.eqb (e_OrderRef e) (b_OrderRef state))) (balanceReject "balance.scope" "MISMATCH");
  _ ← fail_if (negb (e_Seq e =? to_uint64 (n + 1))) (balanceReject "balance.seq" "OUT_OF_SEQUENCE");
  _ ← fail_if (not_nonnegative (e_Amount e)) (balanceReject "balance.amount" "INVALID");
  _ ← fail_if (time_IsZero (e_EffectiveAt e)) (balanceReject "balance.effective_at" "MISSING");
  _ ← fail_if (is_blank (e_AuthorityRef e)) (balanceReject "balance.authority_ref" "MISSING");
  _ ← fail_if ((String.eqb (e_Kind e) LedgerRetroCredit || String.eqb (e_Kind e) LedgerRetroDebit) && (e_CorrectsSeq e =? 0))
        (balanceReject "balance.corrects_seq" "MISSING");
  fail_if (to_uint64 n <? e_CorrectsSeq e) (balanceReject "balance.corrects_seq" "DANGLING").

(** The switch: the totals after the entry. *)
Definition apply_amount (state : BalanceState) (e : LedgerEntry) : outcome garn_err (Decimal * Decimal) :=
  let inexact := balanceReject "balance.total" "INEXACT" in
  match classify (e_Kind e) with
  | Some Withholds =>
      withheld ← or_reject (Decimal_Add (b_Withheld state) (e_Amount e)) inexact;
      _ ← fail_if (0 <? Decimal_Cmp withheld (b_OrderCap state)) (balanceReject "balance.withheld" "OVER_CAP");
      Ok (withheld, b_Remitted state)
  | Some Credits =>
      withheld ← or_reject (Decimal_Sub (b_Withheld state) (e_Amount e)) inexact;
      _ ← fail_if (Decimal_Sign withheld <? 0) (balanceReject "balance.withheld" "NEGATIVE");
      Ok (withheld, b_Remitted state)
  | Some Remits =>
      remitted ← or_reject (Decimal_Add (b_Remitted state) (e_Amount e)) inexact;
      _ ← fail_if (0 <? Decimal_Cmp remitted (b_Withheld state)) (balanceReject "balance.remitted" "OVER_WITHHELD");
      Ok (b_Withheld state, remitted)
  | Some Lifecycle =>
      _ ← fail_if (negb (Decimal_IsZero (e_Amount e))) (balanceReject "balance.amount" "NONZERO_LIFECYCLE");
      Ok (b_Withheld state, b_Remitted state)
  | None => Ok (b_Withheld state, b_Remitted state)
  end.

Section ledger.
Context `{SHA : Sha256}.

Definition entryDigest (e : LedgerEntry) : string :=
  digest_or_empty (ops_run (entry_ops e) (New "hcmnext.domains.garnishment.LedgerEntry" 1)).

Definition ApplyLedgerEntry (state : BalanceState) (e : LedgerEntry) : outcome garn_err BalanceState :=
  _ ← entry_checks state e;
  let entry := entry_with_digest (entryDigest e) e in
  _ ← fail_if (String.eqb (e_Digest entry) "") (balanceReject "balance.digest" "UNENCODABLE");
  totals ← apply_amount state e;
  arrears ← or_reject (Decimal_Sub (b_OrderCap state) (fst totals)) (balanceReject "balance.arrears" "INEXACT");
  let next := mkBalance (b_Tenant state) (b_WorkerRef state) (b_OrderRef state) (b_OrderCap state) (fst totals) (snd totals)
    arrears (b_Entries state ++ [entry])
    (b_Explanation state ++ ["seq " +:+ itoa (e_Seq e) +:+ " " +:+ e_Kind e +:+ " " +:+ Decimal_String (e_Amount e)])
    (b_Digest state) in
  match Writer_Digest (ops_run (state_ops next) (New "hcmnext.domains.garnishment.BalanceState" 1)) with
  | Ok digest => Ok (state_with_digest digest next)
  | _ => Err (balanceReject "balance.digest" "UNENCODABLE")
  end.

(** The entries posted one after another. *)
Fixpoint post_all (state : BalanceState) (entries : list LedgerEntry) : outcome garn_err BalanceState :=
  match entries with
  | [] => Ok state
  | e :: rest => next ← ApplyLedgerEntry state e; post_all next rest
  end.

End ledger.

(** * What a ledger adds up to *)

(** The effect of an entry on what is withheld and what is remitted, in cents. *)
Definition withheld_by (e : LedgerEntry) : Z :=
  match classify (e_Kind e) with
  | Some Withholds => Decimal_signed (e_Amount e)
  | Some Credits => - Decimal_signed (e_Amount e)
  | _ => 0
  end.
Definition remitted_by (e : LedgerEntry) : Z :=
  match classify (e_Kind e) with Some Remits => Decimal_signed (e_Amount e) | _ => 0 end.
Definition posted (f : LedgerEntry -> Z) (es : list LedgerEntry) : Z := foldr (fun e sum => f e + sum) 0 es.

Lemma posted_app f es e : posted f (es ++ [e]) = posted f es + f e.
Proof. unfold posted. induction es as [|x es IH]; cbn in *; lia. Qed.

Lemma classify_valid k : LedgerEntryKind_Valid k = true <-> classify k <> None.
Proof.
  unfold LedgerEntryKind_Valid, classify.
  destruct (String.eqb k LedgerWithholding), (String.eqb k LedgerRemittance), (String.eqb k LedgerRelease),
    (String.eqb k LedgerAmendment), (String.eqb k LedgerRetroCredit), (String.eqb k LedgerRetroDebit); cbn; done.
Qed.

(** An entry's own digest field plays no part. *)
Lemma with_digest_effect d e :
  withheld_by (entry_with_digest d e) = withheld_by e /\ remitted_by (entry_with_digest d e) = remitted_by e.
Proof. done. Qed.

Section ledger_facts.
Context `{SHA : Sha256}.

(** The states of the ledger of one order under one cap. *)
Inductive ledger (tenant worker order : string) (cap : Decimal) : BalanceState -> Prop :=
  | ledger_open s : OpenBalance tenant worker order cap = Ok s -> ledger tenant worker order cap s
  | ledger_post s e s' : ledger tenant worker order cap s -> ApplyLedgerEntry s e = Ok s' -> ledger tenant worker order cap s'.

(** An entry at position [i] of the ledger of a scope. *)
Definition entry_sound (s : BalanceState) (i : nat) (e : LedgerEntry) : Prop :=
  e_Tenant e = b_Tenant s /\ e_WorkerRef e = b_WorkerRef s /\ e_OrderRef e = b_OrderRef s /\
  e_Seq e = to_uint64 (Z.of_nat i + 1) /\ e_CorrectsSeq e <= to_uint64 (Z.of_nat i) /\
  is_blank (e_AuthorityRef e) = false /\ e_EffectiveAt e <> time_zero /\
  dec_wf (e_Amount e) /\ 0 <= Decimal_signed (e_Amount e) /\ LedgerEntryKind_Valid (e_Kind e) = true /\
  e_Digest e = entryDigest e.

Definition balance_ok (s : BalanceState) : Prop :=
  (dec_wf (b_OrderCap s) /\ 0 <= Decimal_signed (b_OrderCap s)) /\
  amount (b_Withheld s) 2 (posted withheld_by (b_Entries s)) /\
  amount (b_Remitted s) 2 (posted remitted_by (b_Entries s)) /\
  0 <= posted withheld_by (b_Entries s) /\ at_most (b_Withheld s) (b_OrderCap s) /\ 0 <= posted remitted_by (b_Entries s) /\
  (if decide (b_Entries s = []) then b_Arrears s = b_OrderCap s
   else d_scale (b_OrderCap s) = 2 /\
        amount (b_Arrears s) 2 (Decimal_signed (b_OrderCap s) - posted withheld_by (b_Entries s))) /\
  (forall i e, b_Entries s !! i = Some e -> entry_sound s i e) /\
  length (b_Explanation s) = length (b_Entries s).

Lemma OpenBalance_inv tenant worker order cap s : OpenBalance tenant worker order cap = Ok s ->
  s = mkBalance tenant worker order cap (dec_of 0 2 RoundingHalfUp) (dec_of 0 2 RoundingHalfUp) cap [] [] "" /\
  dec_wf cap /\ 0 <= Decimal_signed cap.
Proof.
  unfold OpenBalance, zero2. rewrite zero_eq. cbn [mbind outcome_bind]. intros H. ok_inv.
  apply not_nonnegative_false in Hok0 as [? ?]. by subst.
Qed.

Lemma open_ok tenant worker order cap s : OpenBalance tenant worker order cap = Ok s -> balance_ok s.
Proof.
  intros (-> & Hw & Hn)%OpenBalance_inv. unfold balance_ok. cbn [b_OrderCap b_Withheld b_Remitted b_Arrears b_Entries b_Explanation posted foldr].
  pose proof (pow10_pos (d_scale cap) (proj1 (proj1 (dec_wf_scale _ Hw)))).
  split_and!; try done; try (by apply amount_dec_of); try (intros [|i] e H'; done).
  unfold at_most. rewrite Decimal_signed_dec_of. cbn [d_scale dec_of]. lia.
Qed.

(** The checks, read off. *)
Lemma entry_checks_ok s e : entry_checks s e = Ok tt <->
  LedgerEntryKind_Valid (e_Kind e) = true /\
  (e_Tenant e = b_Tenant s /\ e_WorkerRef e = b_WorkerRef s /\ e_OrderRef e = b_OrderRef s) /\
  e_Seq e = to_uint64 (Z.of_nat (length (b_Entries s)) + 1) /\ (dec_wf (e_Amount e) /\ 0 <= Decimal_signed (e_Amount e)) /\
  e_EffectiveAt e <> time_zero /\ is_blank (e_AuthorityRef e) = false /\
  ((e_Kind e = LedgerRetroCredit \/ e_Kind e = LedgerRetroDebit) -> e_CorrectsSeq e <> 0) /\
  e_CorrectsSeq e <= to_uint64 (Z.of_nat (length (b_Entries s))).
Proof.
  unfold entry_checks. rewrite !bind_unit_ok, !fail_if_ok_iff, !orb_false_iff, !negb_false_iff, !String.eqb_eq, Z.eqb_eq.
  rewrite not_nonnegative_false, Z.ltb_ge, andb_false_iff, orb_false_iff, !String.eqb_neq, Z.eqb_neq.
  assert (Hz : time_IsZero (e_EffectiveAt e) = false <-> e_EffectiveAt e <> time_zero)
    by (rewrite <- time_IsZero_true; by destruct (time_IsZero _)).
  rewrite Hz.
  assert (Hk : (e_Kind e <> LedgerRetroCredit /\ e_Kind e <> LedgerRetroDebit) \/ e_CorrectsSeq e <> 0 <->
    ((e_Kind e = LedgerRetroCredit \/ e_Kind e = LedgerRetroDebit) -> e_CorrectsSeq e <> 0)).
  { split; [tauto|]. intros H. destruct (decide (e_CorrectsSeq e = 0)); [left; split; intros E; apply H; auto|by right]. }
  rewrite Hk. tauto.
Qed.

(** The entry's effect is allowed: in cents, within the cap, what is withheld,
    what was withheld, or nothing. *)
Definition amount_allowed (s : BalanceState) (e : LedgerEntry) : Prop :=
  match classify (e_Kind e) with
  | Some Withholds => d_scale (e_Amount e) = 2 /\
      (Decimal_signed (b_Withheld s) + Decimal_signed (e_Amount e)) * 10 ^ d_scale (b_OrderCap s) <= Decimal_signed (b_OrderCap s) * 100
  | Some Credits => d_scale (e_Amount e) = 2 /\ Decimal_signed (e_Amount e) <= Decimal_signed (b_Withheld s)
  | Some Remits => d_scale (e_Amount e) = 2 /\
      Decimal_signed (b_Remitted s) + Decimal_signed (e_Amount e) <= Decimal_signed (b_Withheld s)
  | Some Lifecycle => Decimal_signed (e_Amount e) = 0
  | None => False
  end.


(** In cents, the cap bounds what is withheld. *)
Lemma withheld_cents s : balance_ok s -> d_scale (b_OrderCap s) = 2 ->
  0 <= Decimal_signed (b_Withheld s) <= Decimal_signed (b_OrderCap s) /\ Decimal_signed (b_OrderCap s) < 10 ^ MaxPrecision /\
  0 <= Decimal_signed (b_Remitted s).
Proof.
  intros ([Hw Hc] & (Hww & Hws & Hwv) & (Hrw & Hrs & Hrv) & Hp & Hle & Hr & _) E. unfold at_most in Hle. rewrite Hws, E in Hle.
  pose proof (dec_wf_bound _ Hw). change (10 ^ 2) with 100 in Hle. lia.
Qed.

Lemma apply_amount_inv s e w r : balance_ok s -> dec_wf (e_Amount e) -> LedgerEntryKind_Valid (e_Kind e) = true ->
  apply_amount s e = Ok (w, r) ->
  amount_allowed s e /\ amount w 2 (Decimal_signed (b_Withheld s) + withheld_by e) /\
  amount r 2 (Decimal_signed (b_Remitted s) + remitted_by e).
Proof.
  intros ([Hcw Hc] & (Hww & Hws & Hwv) & (Hrw & Hrs & Hrv) & _) He Hk H. unfold apply_amount in H. unfold amount_allowed, withheld_by, remitted_by.
  apply classify_valid in Hk. destruct (classify (e_Kind e)) as [[]|]; [..|done]; ok_inv; subst;
    try (apply or_reject_ok in Hok; first [apply Add_ok_inv in Hok as (_ & _ & Hs & Ha & Has & Hav)|apply Sub_ok_inv in Hok as (_ & _ & Hs & Ha & Has & Hav)]).
  - rewrite Cmp_greater, Has, Hav, Hws in Hok0 by done. change (10 ^ 2) with 100 in Hok0. rewrite Z.add_0_r.
    split_and!; try done; unfold amount; try split_and!; (done || lia || congruence).
  - rewrite Sign_negative, Hav in Hok0 by done. rewrite Z.add_0_r.
    split_and!; try done; unfold amount; try split_and!; (done || lia || congruence).
  - rewrite Cmp_greater_same, Hav in Hok0 by (done || congruence). rewrite Z.add_0_r.
    split_and!; try done; unfold amount; try split_and!; (done || lia || congruence).
  - apply negb_false_iff in Hok. unfold Decimal_IsZero in Hok. rewrite Sign_amount in Hok by done. rewrite !Z.add_0_r.
    split_and!; try done; unfold amount; try split_and!; (done || lia || congruence).
Qed.

Lemma apply_amount_total s e : balance_ok s -> d_scale (b_OrderCap s) = 2 -> dec_wf (e_Amount e) -> 0 <= Decimal_signed (e_Amount e) ->
  amount_allowed s e -> exists w r, apply_amount s e = Ok (w, r).
Proof.
  intros Hok E He Hpos Hall. destruct (withheld_cents s Hok E) as ([Hw0 Hw1] & Hcap & Hr0).
  destruct Hok as ([Hcw Hc] & (Hww & Hws & Hwv) & (Hrw & Hrs & Hrv) & _).
  unfold apply_amount, amount_allowed in *. destruct (classify (e_Kind e)) as [[]|]; [..|done].
  - destruct Hall as [Hs Hle]. rewrite E in Hle. change (10 ^ 2) with 100 in Hle.
    rewrite Add_amount, Hws, Hs by done. cbn [negb Z.eqb Pos.eqb]. rewrite (proj2 (Z.ltb_lt _ _)) by lia.
    cbn [or_reject map_err mbind outcome_bind]. destruct (dec_wf_scale _ Hww) as [Hs1 Hm].
    rewrite Cmp_greater_same; [|apply dec_wf_dec_of; (done || lia)|done|done].
    rewrite Decimal_signed_dec_of, (proj2 (Z.ltb_ge _ _)) by lia. by eexists _, _.
  - destruct Hall as [Hs Hle]. rewrite Sub_amount, Hws, Hs by done. cbn [negb Z.eqb Pos.eqb]. rewrite (proj2 (Z.ltb_lt _ _)) by lia.
    cbn [or_reject map_err mbind outcome_bind]. destruct (dec_wf_scale _ Hww) as [Hs1 Hm].
    rewrite Sign_negative; [|apply dec_wf_dec_of; (done || lia)].
    rewrite Decimal_signed_dec_of, (proj2 (Z.ltb_ge _ _)) by lia. by eexists _, _.
  - destruct Hall as [Hs Hle]. rewrite Add_amount, Hrs, Hs by done. cbn [negb Z.eqb Pos.eqb]. rewrite (proj2 (Z.ltb_lt _ _)) by lia.
    cbn [or_reject map_err mbind outcome_bind]. destruct (dec_wf_scale _ Hrw) as [Hs1 Hm].
    rewrite Cmp_greater_same; [|apply dec_wf_dec_of; (done || lia)|done|done].
    rewrite Decimal_signed_dec_of, (proj2 (Z.ltb_ge _ _)) by lia. by eexists _, _.
  - unfold Decimal_IsZero. rewrite Sign_amount, Hall by done. by eexists _, _.
Qed.

(** The digests exist: every amount in the streams is valid. *)
Lemma entry_digest e : dec_wf (e_Amount e) ->
  entryDigest e = Digest (w_buf (ops_run (entry_ops e) (New "hcmnext.domains.garnishment.LedgerEntry" 1))).
Proof.
  intros H. unfold entryDigest, digest_or_empty. rewrite stream_digest; [done|done|].
  destruct (Decimal_Canonical_some _ H) as [c Hc]. unfold entry_ops. rewrite Hc. repeat constructor; done.
Qed.

Lemma state_digest b : dec_wf (b_Withheld b) -> dec_wf (b_Remitted b) -> dec_wf (b_Arrears b) ->
  Writer_Digest (ops_run (state_ops b) (New "hcmnext.domains.garnishment.BalanceState" 1)) =
  Ok (Digest (w_buf (ops_run (state_ops b) (New "hcmnext.domains.garnishment.BalanceState" 1)))).
Proof.
  intros H1 H2 H3. apply stream_digest; [done|].
  destruct (Decimal_Canonical_some _ H1) as [c1 Hc1], (Decimal_Canonical_some _ H2) as [c2 Hc2], (Decimal_Canonical_some _ H3) as [c3 Hc3].
  unfold state_ops. rewrite Hc1, Hc2, Hc3. repeat constructor; done.
Qed.

(** A posting, read off: what it required and the state it leaves. *)
Lemma posting_inv s e s' : balance_ok s -> ApplyLedgerEntry s e = Ok s' ->
  entry_checks s e = Ok tt /\ amount_allowed s e /\ d_scale (b_OrderCap s) = 2 /\
  (b_Tenant s' = b_Tenant s /\ b_WorkerRef s' = b_WorkerRef s /\ b_OrderRef s' = b_OrderRef s /\ b_OrderCap s' = b_OrderCap s) /\
  b_Entries s' = b_Entries s ++ [entry_with_digest (entryDigest e) e] /\
  length (b_Explanation s') = S (length (b_Explanation s)) /\
  amount (b_Withheld s') 2 (Decimal_signed (b_Withheld s) + withheld_by e) /\
  amount (b_Remitted s') 2 (Decimal_signed (b_Remitted s) + remitted_by e) /\
  amount (b_Arrears s') 2 (Decimal_signed (b_OrderCap s) - (Decimal_signed (b_Withheld s) + withheld_by e)).
Proof.
  intros Hok H. unfold ApplyLedgerEntry in H. apply bind_ok_inv in H as ([] & Hc & H). apply bind_ok_inv in H as ([] & _ & H).
  apply bind_ok_inv in H as ([w r] & Ht & H). apply bind_ok_inv in H as (arr & Ha & H). cbn [fst snd] in Ha, H.
  pose proof Hc as (Hk & _ & _ & [He Hpos] & _)%entry_checks_ok.
  destruct (apply_amount_inv s e w r Hok He Hk Ht) as (Hall & Hw & Hr).
  apply or_reject_ok, Sub_ok_inv in Ha as (_ & _ & Hs & Ha & Has & Hav). destruct Hw as (Hww & Hws & Hwv).
  assert (Es : d_scale (b_OrderCap s) = 2) by congruence.
  rewrite state_digest in H by (done || apply Hr). injection H as <-. cbn. rewrite length_app. cbn.
  unfold amount. split_and!; try done; try apply Hr; try lia; congruence.
Qed.

Lemma posting_total s e : balance_ok s -> d_scale (b_OrderCap s) = 2 -> entry_checks s e = Ok tt -> amount_allowed s e ->
  exists s', ApplyLedgerEntry s e = Ok s'.
Proof.
  intros Hok Es Hc Hall. pose proof Hc as (Hk & _ & _ & [He Hpos] & _)%entry_checks_ok.
  destruct (apply_amount_total s e Hok Es He Hpos Hall) as (w & r & Ht).
  destruct (apply_amount_inv s e w r Hok He Hk Ht) as (_ & (Hww & Hws & Hwv) & (Hrw & Hrs & Hrv)).
  unfold ApplyLedgerEntry. rewrite Hc. cbn [mbind outcome_bind]. cbn [e_Digest entry_with_digest].
  assert (Hdig : String.eqb (entryDigest e) "" = false) by (by rewrite (entry_digest e He)).
  rewrite Hdig. cbn [fail_if mbind outcome_bind].
  rewrite Ht. cbn [mbind outcome_bind fst snd].
  destruct (withheld_cents s Hok Es) as ([Hw0 Hw1] & Hcap & Hr0). pose proof Hok as ([Hcw Hc0] & _).
  assert (Hw2 : 0 <= Decimal_signed w <= Decimal_signed (b_OrderCap s)).
  { rewrite Hwv. unfold amount_allowed, withheld_by in *. rewrite Es in Hall. change (10 ^ 2) with 100 in Hall.
    destruct (classify (e_Kind e)) as [[]|]; [lia..|done]. }
  rewrite Sub_amount, Es, Hws by done. cbn [negb Z.eqb Pos.eqb]. rewrite (proj2 (Z.ltb_lt _ _)) by lia.
  cbn [or_reject map_err mbind outcome_bind]. destruct (dec_wf_scale _ Hcw) as [Hs1 Hm].
  rewrite state_digest; [by eexists|done|done|]. apply dec_wf_dec_of; (done || lia).
Qed.

Lemma posting_ok s e s' : balance_ok s -> ApplyLedgerEntry s e = Ok s' -> balance_ok s'.
Proof.
  intros Hok H. destruct (posting_inv s e s' Hok H) as (Hc & Hall & Es & (Ht & Hwk & Hor & Hcap) & Hes & Hex & Hw & Hr & Ha).
  pose proof Hc as (Hk & (Hs1 & Hs2 & Hs3) & Hseq & [He Hpos] & Hat & Hau & _ & Hcs)%entry_checks_ok.
  destruct (withheld_cents s Hok Es) as ([Hw0 Hw1] & Hcb & Hr0).
  destruct Hok as ([Hcw Hc0] & (Hww & Hws & Hwv) & (Hrw & Hrs & Hrv) & Hp0 & Hle & Hp1 & _ & Hsound & Hexp).
  assert (Hwp : posted withheld_by (b_Entries s') = Decimal_signed (b_Withheld s) + withheld_by e)
    by (rewrite Hes, posted_app, Hwv; done).
  assert (Hrp : posted remitted_by (b_Entries s') = Decimal_signed (b_Remitted s) + remitted_by e)
    by (rewrite Hes, posted_app, Hrv; done).
  assert (Hb : 0 <= Decimal_signed (b_Withheld s) + withheld_by e <= Decimal_signed (b_OrderCap s) /\
               0 <= Decimal_signed (b_Remitted s) + remitted_by e).
  { unfold amount_allowed, withheld_by, remitted_by in *. rewrite Es in Hall. change (10 ^ 2) with 100 in Hall.
    destruct (classify (e_Kind e)) as [[]|]; [lia..|done]. }
  unfold balance_ok. rewrite Hwp, Hrp, Hcap. split_and!; try done; try lia.
  - destruct Hw as (Hww' & Hws' & Hwv'). unfold at_most. rewrite Hws', Hwv', Es. change (10 ^ 2) with 100. lia.
  - destruct (decide (b_Entries s' = [])) as [E|_]; [|done]. rewrite Hes in E. by destruct (b_Entries s).
  - intros i x Hx. rewrite Hes in Hx. apply lookup_app_Some in Hx as [Hx|[Hi Hx]].
    + unfold entry_sound. rewrite Ht, Hwk, Hor. by apply Hsound.
    + destruct (i - length (b_Entries s))%nat as [|k] eqn:Ei; [|done]. injection Hx as <-.
      assert (i = length (b_Entries s)) as -> by lia. unfold entry_sound. rewrite Ht, Hwk, Hor. by split_and!.
  - rewrite Hes, length_app, Hex, Hexp. cbn. lia.
Qed.

Lemma ledger_ok tenant worker order cap s : ledger tenant worker order cap s -> balance_ok s.
Proof. induction 1 as [s H|s e s' _ IH H]; [by eapply open_ok|by eapply posting_ok]. Qed.

Lemma ledger_scope tenant worker order cap s : ledger tenant worker order cap s ->
  b_Tenant s = tenant /\ b_WorkerRef s = worker /\ b_OrderRef s = order /\ b_OrderCap s = cap.
Proof.
  induction 1 as [s H|s e s' Hl IH H]; [by apply OpenBalance_inv in H as [-> _]|].
  apply ledger_ok in Hl. by destruct (posting_inv s e s' Hl H) as (_ & _ & _ & (-> & -> & -> & ->) & _).
Qed.

(** The stored entry posts like the one that was passed. *)
Lemma stored_posts_alike s e d : ApplyLedgerEntry s (entry_with_digest d e) = ApplyLedgerEntry s e.
Proof. reflexivity. Qed.

Lemma post_all_app s es e : post_all s (es ++ [e]) = next ← post_all s es; ApplyLedgerEntry next e.
Proof.
  revert s. induction es as [|x es IH]; intros s; cbn; [by destruct (ApplyLedgerEntry s e)|].
  destruct (ApplyLedgerEntry s x); cbn; [apply IH|done..].
Qed.

(** * Theorems on balances *)

(** C4: at every moment of a ledger what is withheld is the sum of its
    withholdings and debits less its credits, what is remitted is the sum of
    its remittances, and what is in arrears is the cap less what is withheld,
    to the cent; nothing is negative and the cap is never exceeded; entries
    are numbered 1..n in the ledger's scope, each with its authority, date and
    digest, and corrects only an earlier one; and the state is the one its
    entries, posted again from the start, produce. *)
Theorem ledger_balanced tenant worker order cap s (H : ledger tenant worker order cap s)
    (Hn : Z.of_nat (length (b_Entries s)) < 2 ^ 64) :
  amount (b_Withheld s) 2 (posted withheld_by (b_Entries s)) /\
  amount (b_Remitted s) 2 (posted remitted_by (b_Entries s)) /\
  0 <= posted withheld_by (b_Entries s) /\ 0 <= posted remitted_by (b_Entries s) /\ at_most (b_Withheld s) cap /\
  (b_Entries s <> [] -> d_scale cap = 2 /\
     amount (b_Arrears s) 2 (Decimal_signed cap - posted withheld_by (b_Entries s)) /\ 0 <= Decimal_signed (b_Arrears s)) /\
  (forall i e, b_Entries s !! i = Some e ->
     (e_Tenant e, e_WorkerRef e, e_OrderRef e) = (tenant, worker, order) /\ e_Seq e = Z.of_nat i + 1 /\
     e_CorrectsSeq e < e_Seq e /\ is_blank (e_AuthorityRef e) = false /\ e_EffectiveAt e <> time_zero /\
     0 <= Decimal_signed (e_Amount e) /\ e_Digest e = entryDigest e) /\
  (open ← OpenBalance tenant worker order cap; post_all open (b_Entries s)) = Ok s.
Proof.
  pose proof (ledger_ok _ _ _ _ _ H) as Hok. destruct (ledger_scope _ _ _ _ _ H) as (Ht & Hw & Ho & Hc).
  pose proof Hok as ([Hcw Hc0] & HW & HR & Hp0 & Hle & Hp1 & Ha & Hs & _). rewrite Hc in Hle, Hcw, Hc0. split_and!; try done.
  - intros Hne. destruct (decide (b_Entries s = [])); [done|]. rewrite Hc in Ha. destruct Ha as [Es Ha]. split_and!; try done; try apply Ha.
    destruct Ha as (_ & _ & ->). destruct (withheld_cents s Hok) as ([? ?] & _); [by rewrite Hc|].
    rewrite Hc in *. destruct HW as (_ & _ & HW). lia.
  - intros i e He. pose proof (lookup_lt_Some _ _ _ He) as Hi.
    destruct (Hs i e He) as (-> & -> & -> & Hseq & Hcs & H1 & H2 & _ & H3 & _ & H4). rewrite to_uint64_small in Hseq, Hcs by lia.
    split_and!; try done; try congruence. lia.
  - clear Hn Hok Ht Hw Ho Hc Hcw Hc0 HW HR Hp0 Hle Hp1 Ha Hs. induction H as [s H|s e s' Hl IH H].
    + rewrite H. cbn [mbind outcome_bind]. by apply OpenBalance_inv in H as [-> _].
    + pose proof (ledger_ok _ _ _ _ _ Hl) as Hok. destruct (posting_inv s e s' Hok H) as (_ & _ & _ & _ & -> & _).
      destruct (OpenBalance tenant worker order cap) as [o| |]; cbn [mbind outcome_bind] in *; [|done..].
      rewrite post_all_app, IH. cbn [mbind outcome_bind]. by rewrite stored_posts_alike.
Qed.

(** an entry is posted exactly when its kind is declared, it is in scope
    and in sequence, its amount valid and not negative, it is dated and
    authorised, a correction names an earlier entry, the cap is in cents, and
    its amount fits: under the cap, within what was withheld, or zero; the
    earlier entries are kept as they are, and the totals change by its amount. *)
Theorem posting_exact tenant worker order cap s e (H : ledger tenant worker order cap s) :
  ((exists s', ApplyLedgerEntry s e = Ok s') <-> entry_checks s e = Ok tt /\ amount_allowed s e /\ d_scale cap = 2) /\
  (forall s', ApplyLedgerEntry s e = Ok s' ->
     b_Entries s' = b_Entries s ++ [entry_with_digest (entryDigest e) e] /\
     Decimal_signed (b_Withheld s') = Decimal_signed (b_Withheld s) + withheld_by e /\
     Decimal_signed (b_Remitted s') = Decimal_signed (b_Remitted s) + remitted_by e /\ b_OrderCap s' = cap) /\
  (entry_checks s e = Ok tt -> d_scale (e_Amount e) = 2 -> d_scale cap = 2 ->
     match classify (e_Kind e) with
     | Some Withholds => Decimal_signed cap < Decimal_signed (b_Withheld s) + Decimal_signed (e_Amount e) ->
         Decimal_signed (b_Withheld s) + Decimal_signed (e_Amount e) < 10 ^ MaxPrecision ->
         ApplyLedgerEntry s e = Err (balanceReject "balance.withheld" "OVER_CAP")
     | Some Credits => Decimal_signed (b_Withheld s) < Decimal_signed (e_Amount e) ->
         ApplyLedgerEntry s e = Err (balanceReject "balance.withheld" "NEGATIVE")
     | _ => True
     end).
Proof.
  pose proof (ledger_ok _ _ _ _ _ H) as Hok. destruct (ledger_scope _ _ _ _ _ H) as (_ & _ & _ & Hc).
  split_and!.
  - rewrite <- Hc. split; [intros [s' H']; by destruct (posting_inv s e s' Hok H') as (? & ? & ? & _)|].
    intros (H1 & H2 & H3). by apply posting_total.
  - intros s' H'. destruct (posting_inv s e s' Hok H') as (_ & _ & _ & (_ & _ & _ & ->) & He & _ & (_ & _ & Hw) & (_ & _ & Hr) & _). done.
  - intros Hch Hs Hcap. pose proof Hch as (_ & _ & _ & [He Hpos] & _)%entry_checks_ok.
    assert (Hdig : String.eqb (e_Digest (entry_with_digest (entryDigest e) e)) "" = false) by (cbn; by rewrite (entry_digest e He)).
    assert (Es : d_scale (b_OrderCap s) = 2) by congruence.
    destruct (withheld_cents s Hok Es) as ([Hw0 Hw1] & Hcb & _). destruct Hok as ([Hcw _] & (Hww & Hws & _) & _).
    destruct (dec_wf_scale _ Hww) as [_ Hm]. pose proof (dec_wf_bound _ He) as Hb.
    destruct (classify (e_Kind e)) as [[]|] eqn:Ek; try done; intros Hover; try intros Hfit;
      unfold ApplyLedgerEntry; rewrite Hch; cbn [mbind outcome_bind]; rewrite Hdig; cbn [fail_if mbind outcome_bind];
      unfold apply_amount; rewrite Ek.
    + rewrite Add_amount, Hws, Hs by done. cbn [negb Z.eqb Pos.eqb]. rewrite (proj2 (Z.ltb_lt _ _)) by lia.
      cbn [or_reject map_err mbind outcome_bind]. rewrite Cmp_greater_same; [|apply dec_wf_dec_of; (done || lia)|done|done].
      rewrite Decimal_signed_dec_of, (proj2 (Z.ltb_lt _ _)) by (rewrite Hc; lia). done.
    + rewrite Sub_amount, Hws, Hs by done. cbn [negb Z.eqb Pos.eqb]. rewrite (proj2 (Z.ltb_lt _ _)) by lia.
      cbn [or_reject map_err mbind outcome_bind]. rewrite Sign_negative; [|apply dec_wf_dec_of; (done || lia)].
      rewrite Decimal_signed_dec_of, (proj2 (Z.ltb_lt _ _)) by lia. done.
Qed.

End ledger_facts.

(** * Concrete ledgers *)

Section sample_ledger.
#[local] Instance sample_ledger_sha : Sha256 := {| sha256_Sum256 := fun bs => [Z.of_nat (length bs) mod 256; foldr Z.add 0 bs mod 256] |}.

Definition sample_entry (seq : Z) (kind : LedgerEntryKind) (q corrects : Z) : LedgerEntry :=
  mkEntry "tenant" "worker" "order" seq kind (cents q) new_year corrects "authority" "".
Definition sample_open : BalanceState :=
  mkBalance "tenant" "worker" "order" (cents 10000) (cents 0) (cents 0) (cents 10000) [] [] "".
Definition sample_entries : list LedgerEntry :=
  [sample_entry 1 LedgerWithholding 5000 0; sample_entry 2 LedgerRemittance 5000 0; sample_entry 3 LedgerRetroCredit 2000 1].
Definition sample_balance : BalanceState :=
  match post_all sample_open sample_entries with Ok s => s | _ => sample_open end.

Lemma post_all_ledger tenant worker order cap es : forall s s',
  ledger tenant worker order cap s -> post_all s es = Ok s' -> ledger tenant worker order cap s'.
Proof.
  induction es as [|e es IH]; intros s s' Hs H; cbn in H; [by injection H as <-|].
  apply bind_ok_inv in H as (s1 & H1 & H). apply (IH s1); [|done]. by apply (ledger_post _ _ _ _ s e).
Qed.

Lemma sample_ledger_balance : ledger "tenant" "worker" "order" (cents 10000) sample_balance.
Proof.
  apply (post_all_ledger _ _ _ _ sample_entries sample_open); [|vm_compute; reflexivity].
  apply ledger_open. vm_compute. reflexivity.
Qed.

Lemma ledger_balanced_witness :
  amount (b_Withheld sample_balance) 2 3000 /\ amount (b_Arrears sample_balance) 2 7000.
Proof.
  destruct (ledger_balanced _ _ _ _ _ sample_ledger_balance) as (Hw & _ & _ & _ & _ & Ha & _); [vm_compute; reflexivity|].
  split; [exact Hw|]. apply Ha. vm_compute. discriminate.
Defined.

Lemma posting_exact_witness : exists s, ApplyLedgerEntry sample_balance (sample_entry 4 LedgerWithholding 7000 0) = Ok s.
Proof.
  destruct (posting_exact _ _ _ _ _ (sample_entry 4 LedgerWithholding 7000 0) sample_ledger_balance) as [H _].
  apply H. split_and!; [vm_compute; reflexivity|vm_compute; split; [reflexivity|discriminate]|reflexivity].
Defined.

(** a credit after a remittance leaves more remitted than withheld, which
    a remittance itself may not; and a ledger whose cap is not in cents is
    opened but accepts no entry at all. *)
Theorem ledger_edges :
  (ledger "tenant" "worker" "order" (cents 10000) sample_balance /\
   Decimal_signed (b_Withheld sample_balance) = 3000 /\ Decimal_signed (b_Remitted sample_balance) = 5000) /\
  (forall cap s, dec_wf cap -> 0 <= Decimal_signed cap -> d_scale cap <> 2 -> OpenBalance "tenant" "worker" "order" cap = Ok s ->
     forall e s', ApplyLedgerEntry s e <> Ok s').
Proof.
  split; [split; [exact sample_ledger_balance|by vm_compute]|].
  intros cap s Hw Hn Hsc Ho e s' H. pose proof (ledger_open _ _ _ _ _ Ho) as Hl.
  destruct (posting_inv s e s' (ledger_ok _ _ _ _ _ Hl) H) as (_ & _ & Es & _). by destruct (ledger_scope _ _ _ _ _ Hl) as (_ & _ & _ & <-).
Qed.
End sample_ledger.

