(* ===== verification/GarnishmentRecon.v ===== *)
(** Reconciliation of withheld and remitted amounts per period:
    [internal/domains/garnishment/reconcile007.go].

    [reconcile_cell] compares the four totals of one cell;
    [ReconcileWithholding] sorts the results and collects the repair case. *)

From stdpp Require Import sorting.
From S2P Require Import Prelude GoStrings Sorting CanonicalBytes FixedDecimal DecimalAmounts CivilTime GarnishmentOrder GarnishmentLimit GarnishmentLedger.

Local Open Scope Z_scope.

Definition garnReconReject (field state : string) : garn_err := mkGarnErr ErrGarnReconRejected field state.

Definition ReconCell : Type := string.
Definition CellMatch : ReconCell := "MATCH".
Definition CellShort : ReconCell := "SHORT".
Definition CellExcess : ReconCell := "EXCESS".
Definition CellUnknown : ReconCell := "UNKNOWN".

Record PeriodComparison : Type := mkPeriod {
  p_WorkerRef : string; p_OrderRef : string; p_Period : string; p_BalanceWithheld : Decimal; p_PayrollDeducted : Decimal;
  p_Remitted : Decimal; p_RecipientObserved : Decimal; p_RecipientUnknown : bool
}.

Record CellResult : Type := mkCell {
  c_WorkerRef : string; c_OrderRef : string; c_Period : string; c_Cell : ReconCell; c_Delta : Decimal; c_Detail : string
}.

Record GarnRepairCase : Type := mkRepair { rc_CaseID : string; rc_Scope : string; rc_Cells : list CellResult; rc_CreatedAt : GoTime }.

Record GarnReconResult : Type := mkRecon { rr_Cells : list CellResult; rr_Repair : option GarnRepairCase; rr_Digest : string }.

Definition nul : string := String (char_of 0) EmptyString.

Definition cell_line (c : CellResult) : string :=
  c_WorkerRef c +:+ nul +:+ c_OrderRef c +:+ nul +:+ c_Period c +:+ nul +:+ c_Cell c +:+ nul +:+ Decimal_String (c_Delta c).

(** The less function of the sort. *)
Definition cell_less (a b : CellResult) : bool :=
  if negb (String.eqb (c_WorkerRef a) (c_WorkerRef b)) then String.ltb (c_WorkerRef a) (c_WorkerRef b)
  else if negb (String.eqb (c_OrderRef a) (c_OrderRef b)) then String.ltb (c_OrderRef a) (c_OrderRef b)
  else String.ltb (c_Period a) (c_Period b).
Definition cell_le (a b : CellResult) : Prop := cell_less b a = false.
#[export] Instance cell_le_dec a b : Decision (cell_le a b).
Proof. unfold cell_le. apply _. Defined.

(** The key of a cell, as the source joins it. *)
Definition period_key (c : PeriodComparison) : string := p_WorkerRef c +:+ nul +:+ p_OrderRef c +:+ nul +:+ p_Period c.

(** The comparison of one cell.  The three observed totals are ranged over in
    map order: the model checks them in one order, which fixes only the field
    a rejection of two bad totals names. *)
Definition reconcile_cell (c : PeriodComparison) : outcome garn_err CellResult :=
  let delta a b := or_reject (Decimal_Sub a b) (garnReconReject "recon.delta" "INEXACT") in
  let out cell d detail := mkCell (p_WorkerRef c) (p_OrderRef c) (p_Period c) cell d detail in
  _ ← fail_if (not_nonnegative (p_BalanceWithheld c)) (garnReconReject "recon.balance" "INVALID");
  _ ← fail_if (not_nonnegative (p_PayrollDeducted c)) (garnReconReject "recon.payroll" "INVALID");
  _ ← fail_if (not_nonnegative (p_Remitted c)) (garnReconReject "recon.remitted" "INVALID");
  zero ← zero2;
  if p_RecipientUnknown c then Ok (out CellUnknown zero "recipient observation unknown: no claim made")
  else if negb (Decimal_Equal (p_BalanceWithheld c) (p_PayrollDeducted c)) then
    d ← delta (p_BalanceWithheld c) (p_PayrollDeducted c);
    Ok (out CellShort d "payroll deductions diverge from the order balance")
  else if negb (Decimal_Equal (p_PayrollDeducted c) (p_Remitted c)) then
    d ← delta (p_PayrollDeducted c) (p_Remitted c);
    Ok (out CellShort d "remittance trails payroll deductions")
  else if negb (Decimal_Equal (p_Remitted c) (p_RecipientObserved c)) then
    d ← delta (p_Remitted c) (p_RecipientObserved c);
    if 0 <? Decimal_Sign d then Ok (out CellShort d "recipient observes less than remitted")
    else Ok (out CellExcess d "recipient observes more than remitted")
  else Ok (out CellMatch zero "balance, payroll, remittance and recipient agree").

Fixpoint reconcile_cells (seen : gset string) (cells : list PeriodComparison) : outcome garn_err (list CellResult) :=
  match cells with
  | [] => Ok []
  | c :: rest =>
      _ ← fail_if (is_blank (p_WorkerRef c) || is_blank (p_OrderRef c) || is_blank (p_Period c)) (garnReconReject "recon.cell" "MISSING");
      _ ← fail_if (bool_decide (period_key c ∈ seen)) (garnReconReject "recon.cell" "DUPLICATE");
      out ← reconcile_cell c;
      results ← reconcile_cells ({[period_key c]} ∪ seen) rest;
      Ok (out :: results)
  end.

Section reconciliation.
Context `{SHA : Sha256}.

Definition GarnReconResult_computedDigest (cells : list CellResult) (tenant : string) : string :=
  digest_or_empty (ops_run [WString "tenant" tenant; WSortedStrings "cells" (sort_Strings (cell_line <$> cells))]
                     (New "hcmnext.domains.garnishment.ReconResult" 1)).

Definition ReconcileWithholding (tenant : string) (cells : list PeriodComparison) (now : GoTime) : outcome garn_err GarnReconResult :=
  _ ← fail_if (is_blank tenant) (garnReconReject "recon.tenant" "MISSING");
  _ ← fail_if (length cells =? 0)%nat (garnReconReject "recon.cells" "MISSING");
  _ ← fail_if (time_IsZero now) (garnReconReject "recon.now" "MISSING");
  results ← reconcile_cells ∅ cells;
  let sorted := merge_sort cell_le results in
  let open_ := filter (fun c => negb (String.eqb (c_Cell c) CellMatch)) sorted in
  let repair := if (0 <? length open_)%nat
                then Some (mkRepair ("repair:garnishment:" +:+ tenant) tenant open_ now) else None in
  Ok (mkRecon sorted repair (GarnReconResult_computedDigest sorted tenant)).

End reconciliation.
(** * Reconciliation *)

Definition same_value (d o : Decimal) : Prop := Decimal_signed d * 10 ^ d_scale o = Decimal_signed o * 10 ^ d_scale d.

Lemma Equal_value d o : dec_wf d -> Decimal_Equal d o = true <-> dec_wf o /\ same_value d o.
Proof.
  intros Hd. destruct (decide (is_ok (Decimal_Validate o) = true)) as [Ho|Ho].
  - apply Validate_amount in Ho. unfold Decimal_Equal, same_value. rewrite Cmp_amount, Z.eqb_eq, big_cmp_eq by done. tauto.
  - assert (Hno : ~ dec_wf o) by (by rewrite <- Validate_amount). apply not_true_iff_false in Ho.
    unfold Decimal_Equal, Decimal_Cmp. rewrite (dec_wf_valid d Hd), Ho. cbn. split; [done|tauto].
Qed.

(** Comparison of the keys, as a lexicographic order. *)
Definition key_of (c : CellResult) : string * string * string := (c_WorkerRef c, c_OrderRef c, c_Period c).
Definition cell_at_most (a b : CellResult) : Prop :=
  String.ltb (c_WorkerRef a) (c_WorkerRef b) = true \/ (c_WorkerRef a = c_WorkerRef b /\
    (String.ltb (c_OrderRef a) (c_OrderRef b) = true \/ (c_OrderRef a = c_OrderRef b /\ String.le (c_Period a) (c_Period b)))).

Lemma string_ltb_trans s t u : String.ltb s t = true -> String.ltb t u = true -> String.ltb s u = true.
Proof.
  rewrite !string_ltb_lt. intros [H1 H2] [H3 H4]. split; [by etrans|]. intros ->. apply H2. by apply (anti_symm String.le).
Qed.
Lemma string_ltb_total s t : s <> t -> String.ltb s t = false -> String.ltb t s = true.
Proof. rewrite string_ltb_ge, string_ltb_lt. intros Hne H. split; [done|congruence]. Qed.
Lemma string_ltb_irrefl s : String.ltb s s = false.
Proof. apply string_ltb_ge. reflexivity. Qed.

Lemma cell_le_at_most a b : cell_le a b <-> cell_at_most a b.
Proof.
  unfold cell_le, cell_less, cell_at_most. 
  destruct (String.eqb_spec (c_WorkerRef b) (c_WorkerRef a)) as [E1|N1]; cbn.
  2:{ split; [intros H; left; by apply string_ltb_total|]. intros [H|[E _]]; [|congruence].
      apply string_ltb_ge. by apply string_ltb_lt in H as [? _]. }
  destruct (String.eqb_spec (c_OrderRef b) (c_OrderRef a)) as [E2|N2]; cbn.
  2:{ split; [intros H; right; split; [done|]; left; by apply string_ltb_total|].
      intros [H|[_ [H|[E _]]]]; [by rewrite E1, string_ltb_irrefl in H| |congruence].
      apply string_ltb_ge. by apply string_ltb_lt in H as [? _]. }
  rewrite string_ltb_ge, E1, E2, !string_ltb_irrefl. naive_solver.
Qed.

Lemma cell_at_most_trans : Transitive cell_at_most.
Proof.
  intros a b c. unfold cell_at_most.
  intros [H1|[E1 [H1|[F1 H1]]]] [H2|[E2 [H2|[F2 H2]]]]; rewrite ?E1, ?E2, ?F1, ?F2 in *;
    first [left; by eapply string_ltb_trans|left; congruence|right; split; [congruence|]];
    first [left; by eapply string_ltb_trans|left; congruence|right; split; [congruence|by etrans]].
Qed.

#[export] Instance cell_le_total : Total cell_le.
Proof.
  intros a b. rewrite !cell_le_at_most. unfold cell_at_most.
  destruct (String.ltb (c_WorkerRef a) (c_WorkerRef b)) eqn:E1; [by left; left|].
  destruct (decide (c_WorkerRef a = c_WorkerRef b)) as [F1|F1]; [|right; left; by apply string_ltb_total].
  destruct (String.ltb (c_OrderRef a) (c_OrderRef b)) eqn:E2; [by left; right; split; [|left]|].
  destruct (decide (c_OrderRef a = c_OrderRef b)) as [F2|F2]; [|right; right; split; [done|]; left; by apply string_ltb_total].
  destruct (total String.le (c_Period a) (c_Period b)) as [H|H]; [left|right]; right; (split; [done|]; right; split; done).
Qed.
#[export] Instance cell_le_trans : Transitive cell_le.
Proof. intros a b c. rewrite !cell_le_at_most. apply cell_at_most_trans. Qed.

Lemma cell_le_antisym a b : cell_le a b -> cell_le b a -> key_of a = key_of b.
Proof.
  rewrite !cell_le_at_most. unfold cell_at_most, key_of.
  assert (Hasym : forall s t, String.ltb s t = true -> String.ltb t s = true -> False).
  { intros s t H1 H2. pose proof (string_ltb_trans _ _ _ H1 H2) as H. by rewrite string_ltb_irrefl in H. }
  intros HA HB.
  assert (E1 : c_WorkerRef a = c_WorkerRef b).
  { destruct HA as [HA|[E _]]; [|done]. destruct HB as [HB|[E _]]; [exfalso; by eapply Hasym|done]. }
  rewrite E1, string_ltb_irrefl in HA, HB. destruct HA as [|[_ HA]]; [done|]. destruct HB as [|[_ HB]]; [done|].
  assert (E2 : c_OrderRef a = c_OrderRef b).
  { destruct HA as [HA|[E _]]; [|done]. destruct HB as [HB|[E _]]; [exfalso; by eapply Hasym|done]. }
  rewrite E2, string_ltb_irrefl in HA, HB. destruct HA as [|[_ HA]]; [done|]. destruct HB as [|[_ HB]]; [done|].
  f_equal; [f_equal; done|]. by apply (anti_symm String.le).
Qed.

(** The cells the loop accepts, and what it returns for them. *)
Definition cell_value (c : PeriodComparison) : option CellResult :=
  match reconcile_cell c with Ok r => Some r | _ => None end.
Definition period_named (c : PeriodComparison) : Prop :=
  is_blank (p_WorkerRef c) = false /\ is_blank (p_OrderRef c) = false /\ is_blank (p_Period c) = false.

Lemma reconcile_cells_ok cells : forall seen rs, reconcile_cells seen cells = Ok rs <->
  (Forall period_named cells /\ NoDup (period_key <$> cells) /\ Forall (fun c => period_key c ∉ seen) cells /\
   Forall (fun c => is_Some (cell_value c)) cells) /\ rs = omap cell_value cells.
Proof.
  induction cells as [|c cells IH]; intros seen rs; cbn [reconcile_cells omap list_omap].
  { split; [intros [= <-]; split; [|done]; split_and!; try constructor|by intros [_ ->]]. }
  rewrite !bind_unit_ok, !fail_if_ok_iff, !orb_false_iff, bool_decide_eq_false. unfold period_named.
  rewrite !Forall_cons, fmap_cons, NoDup_cons. unfold cell_value at 1 3.
  destruct (reconcile_cell c) as [r| |]; cbn [mbind outcome_bind].
  - split.
    + intros (Hn & Hs & H). apply bind_ok_inv in H as (rs' & H1 & H2). injection H2 as <-.
      apply IH in H1 as ((H3 & H4 & H5 & H6) & ->). apply (fresh_keys period_key) in H5 as [H5 H7]. unfold period_named in H3. split; [|done].
      split_and!; try tauto. by eexists.
    + intros (((Hn & H3) & (H4 & H5) & (H6 & H7) & (_ & H8)) & ->). split; [tauto|]. split; [done|].
      rewrite (proj2 (IH _ (omap cell_value cells))); [done|]. split; [|done]. by rewrite (fresh_keys period_key).
  - split; [by intros (_ & _ & ?)|]. intros ((_ & _ & _ & [[? ?] _]) & _). done.
  - split; [by intros (_ & _ & ?)|]. intros ((_ & _ & _ & [[? ?] _]) & _). done.
Qed.

Lemma reconcile_cell_spec c r : reconcile_cell c = Ok r ->
  key_of r = (p_WorkerRef c, p_OrderRef c, p_Period c) /\
  (0 <= Decimal_signed (p_BalanceWithheld c) /\ 0 <= Decimal_signed (p_PayrollDeducted c) /\ 0 <= Decimal_signed (p_Remitted c)) /\
  (c_Cell r = CellUnknown <-> p_RecipientUnknown c = true) /\
  (c_Cell r = CellMatch <-> p_RecipientUnknown c = false /\ same_value (p_BalanceWithheld c) (p_PayrollDeducted c) /\
     same_value (p_PayrollDeducted c) (p_Remitted c) /\ dec_wf (p_RecipientObserved c) /\
     same_value (p_Remitted c) (p_RecipientObserved c)) /\
  (c_Cell r = CellExcess -> d_scale (p_RecipientObserved c) = d_scale (p_Remitted c) /\
     Decimal_signed (p_Remitted c) < Decimal_signed (p_RecipientObserved c)).
Proof.
  unfold reconcile_cell. intros H. apply bind_ok_inv in H as ([] & H1 & H). apply bind_ok_inv in H as ([] & H2 & H).
  apply bind_ok_inv in H as ([] & H3 & H). apply bind_ok_inv in H as (z & _ & H).
  apply fail_if_ok, not_nonnegative_false in H1 as [W1 N1], H2 as [W2 N2], H3 as [W3 N3].
  pose proof (Equal_value _ (p_PayrollDeducted c) W1) as E1. pose proof (Equal_value _ (p_Remitted c) W2) as E2.
  pose proof (Equal_value _ (p_RecipientObserved c) W3) as E3.
  destruct (p_RecipientUnknown c); [injection H as <-; cbn; split_and!; done || naive_solver|].
  destruct (Decimal_Equal (p_BalanceWithheld c) (p_PayrollDeducted c)); cbn [negb] in H.
  2:{ apply bind_ok_inv in H as (d & Hd & H). injection H as <-. cbn. split_and!; try done; naive_solver. }
  destruct (Decimal_Equal (p_PayrollDeducted c) (p_Remitted c)); cbn [negb] in H.
  2:{ apply bind_ok_inv in H as (d & Hd & H). injection H as <-. cbn. split_and!; try done; naive_solver. }
  destruct (Decimal_Equal (p_Remitted c) (p_RecipientObserved c)); cbn [negb] in H.
  { injection H as <-. cbn. split_and!; try done; naive_solver. }
  apply bind_ok_inv in H as (d & Hd & H). apply or_reject_ok, Sub_ok_inv in Hd as (_ & Hw & Hs & Ha & _ & Hv).
  rewrite (Sign_amount d Ha), Hv in H.
  assert (Hne : ~ same_value (p_Remitted c) (p_RecipientObserved c)) by (intros E; by assert (false = true) by (apply E3; done)).
  destruct (Z.ltb_spec 0 (Z.sgn (Decimal_signed (p_Remitted c) - Decimal_signed (p_RecipientObserved c)))) as [Hp|Hp];
    injection H as <-; cbn [c_Cell key_of c_WorkerRef c_OrderRef c_Period]; split_and!; try done;
    try (split; [discriminate|]; done || tauto).
  intros _. split; [done|]. unfold same_value in Hne. rewrite Hs in Hne.
  pose proof (pow10_pos (d_scale (p_Remitted c)) (proj1 (proj1 (dec_wf_scale _ W3)))). nia.
Qed.

Lemma omap_total {A B} (f : A -> option B) l : Forall (fun x => is_Some (f x)) l -> length (omap f l) = length l.
Proof. induction 1 as [|x l [y E] _ IH]; cbn; [done|]. rewrite E. cbn. by rewrite IH. Qed.

Section recon_facts.
Context `{SHA : Sha256}.

Lemma Reconcile_ok tenant cells now r : ReconcileWithholding tenant cells now = Ok r <->
  (is_blank tenant = false /\ cells <> [] /\ now <> time_zero /\ Forall period_named cells /\ NoDup (period_key <$> cells) /\
   Forall (fun c => is_Some (cell_value c)) cells) /\
  r = let sorted := merge_sort cell_le (omap cell_value cells) in
      let open_ := filter (fun c => negb (String.eqb (c_Cell c) CellMatch)) sorted in
      mkRecon sorted (if (0 <? length open_)%nat then Some (mkRepair ("repair:garnishment:" +:+ tenant) tenant open_ now) else None)
        (GarnReconResult_computedDigest sorted tenant).
Proof.
  unfold ReconcileWithholding. rewrite !bind_unit_ok, !fail_if_ok_iff.
  assert (Hl : (length cells =? 0)%nat = false <-> cells <> []) by (destruct cells; done).
  assert (Hz : time_IsZero now = false <-> now <> time_zero) by (rewrite <- time_IsZero_true; by destruct (time_IsZero now)).
  assert (Hempty : Forall (fun c => period_key c ∉ (∅ : gset string)) cells) by (apply Forall_forall; set_solver).
  rewrite Hl, Hz. split.
  - intros (H1 & H2 & H3 & H). apply bind_ok_inv in H as (rs & Hrs & H). apply reconcile_cells_ok in Hrs as ((H4 & H5 & _ & H6) & ->).
    injection H as <-. done.
  - intros ((H1 & H2 & H3 & H4 & H5 & H6) & ->). split_and!; try done.
    by rewrite (proj2 (reconcile_cells_ok cells ∅ (omap cell_value cells))).
Qed.

Lemma cell_elem c x (cells : list PeriodComparison) : c ∈ cells -> cell_value c = Some x -> x ∈ omap cell_value cells.
Proof. intros Hc Hx. apply list_elem_of_omap. by exists c. Qed.

(** the comparison is returned exactly when the tenant, the instant and
    every cell are named, no cell repeats and every cell can be compared; it
    has one result per cell, in the order of worker, order and period; a cell
    matches exactly when the recipient is known and the four totals are equal,
    and is unknown exactly when the recipient is; the repair case holds
    exactly the cells that do not match, and there is one exactly when some
    cell does not; and none of it depends on the order of the input. *)
Theorem recon_exact tenant cells now :
  ((exists r, ReconcileWithholding tenant cells now = Ok r) <->
     is_blank tenant = false /\ cells <> [] /\ now <> time_zero /\ Forall period_named cells /\
     NoDup (period_key <$> cells) /\ Forall (fun c => is_Some (cell_value c)) cells) /\
  (forall r, ReconcileWithholding tenant cells now = Ok r ->
     length (rr_Cells r) = length cells /\ StronglySorted cell_le (rr_Cells r) /\
     (forall c, c ∈ cells -> exists x, x ∈ rr_Cells r /\ key_of x = (p_WorkerRef c, p_OrderRef c, p_Period c) /\
        (c_Cell x = CellUnknown <-> p_RecipientUnknown c = true) /\
        (c_Cell x = CellMatch <-> p_RecipientUnknown c = false /\ same_value (p_BalanceWithheld c) (p_PayrollDeducted c) /\
           same_value (p_PayrollDeducted c) (p_Remitted c) /\ dec_wf (p_RecipientObserved c) /\
           same_value (p_Remitted c) (p_RecipientObserved c))) /\
     (rr_Repair r = None <-> Forall (fun x => c_Cell x = CellMatch) (rr_Cells r)) /\
     (forall rc, rr_Repair r = Some rc -> forall x, x ∈ rc_Cells rc <-> x ∈ rr_Cells r /\ c_Cell x <> CellMatch) /\
     (forall cells', cells ≡ₚ cells' -> ReconcileWithholding tenant cells' now = Ok r)).
Proof.
  split.
  { split; [intros [r H]; by apply Reconcile_ok in H as [H _]|]. intros H. eexists. apply Reconcile_ok. by split. }
  intros r H. apply Reconcile_ok in H as (Hok & ->). cbn [rr_Cells rr_Repair].
  pose proof Hok as (_ & _ & _ & _ & Hnd & Hsome). set (rs := omap cell_value cells).
  assert (Hp : merge_sort cell_le rs ≡ₚ rs) by apply merge_sort_Permutation.
  assert (Hfilter : forall x, x ∈ filter (fun c => negb (String.eqb (c_Cell c) CellMatch)) (merge_sort cell_le rs) <->
    x ∈ merge_sort cell_le rs /\ c_Cell x <> CellMatch).
  { intros x. rewrite list_elem_of_filter, Is_true_true, negb_true_iff, String.eqb_neq. tauto. }
  split_and!.
  - rewrite Hp. by apply omap_total.
  - apply (StronglySorted_merge_sort cell_le).
  - intros c Hc. rewrite Forall_forall in Hsome. destruct (Hsome c Hc) as [x Hx]. exists x.
    rewrite Hp. split; [by eapply cell_elem|]. unfold cell_value in Hx. destruct (reconcile_cell c) as [y| |] eqn:E; try done.
    injection Hx as ->. destruct (reconcile_cell_spec c x E) as (H1 & _ & H2 & H3 & _). done.
  - case_match eqn:E; [split; [done|]|split; [|done]].
    + intros Hall. apply Nat.ltb_lt in E. destruct (filter _ _) as [|x l]; [cbn in E; lia|].
      assert (Hx : x ∈ x :: l) by left. apply Hfilter in Hx as [Hx Hne]. rewrite Forall_forall in Hall. by apply Hall in Hx.
    + intros _. apply Nat.ltb_ge in E. apply Forall_forall. intros x Hx. destruct (decide (c_Cell x = CellMatch)); [done|].
      assert (Hin : x ∈ filter (fun c => negb (String.eqb (c_Cell c) CellMatch)) (merge_sort cell_le rs)) by (by apply Hfilter).
      destruct (filter _ _); [by apply elem_of_nil in Hin|cbn in E; lia].
  - intros rc Hrc. case_match; [|done]. injection Hrc as <-. apply Hfilter.
  - intros cells' Hp'. apply Reconcile_ok. destruct Hok as (H1 & H2 & H3 & H4 & H5 & H6). split.
    { split_and!; try done; [|by apply (Permutation_Forall Hp')|by rewrite <- Hp'|by apply (Permutation_Forall Hp')].
      intros ->. apply H2. by apply Permutation_nil_r. }
    clear H1 H2 H3 H4 H5 H6.
    assert (Hs : merge_sort cell_le rs = merge_sort cell_le (omap cell_value cells')); [|subst rs; by rewrite Hs].
    apply (StronglySorted_unique_strong cell_le); [|apply (StronglySorted_merge_sort cell_le)..|by rewrite !merge_sort_Permutation, <- Hp'].
    intros x y Hx Hy H1 H2. rewrite merge_sort_Permutation in Hx, Hy. rewrite <- Hp' in Hy.
    apply list_elem_of_omap in Hx as (c1 & Hc1 & Hx), Hy as (c2 & Hc2 & Hy).
    pose proof (cell_le_antisym _ _ H1 H2) as Hk. unfold cell_value in Hx, Hy.
    destruct (reconcile_cell c1) as [x'| |] eqn:E1; [|done..]. destruct (reconcile_cell c2) as [y'| |] eqn:E2; [|done..].
    injection Hx as ->. injection Hy as ->.
    destruct (reconcile_cell_spec _ _ E1) as (K1 & _), (reconcile_cell_spec _ _ E2) as (K2 & _).
    assert (c1 = c2) as ->; [|congruence]. apply (fmap_NoDup_inj period_key cells); try done.
    unfold period_key. rewrite K1, K2 in Hk. by injection Hk as -> -> ->.
Qed.

End recon_facts.

(** * A concrete reconciliation *)

Section sample_recon.
#[local] Instance sample_recon_sha : Sha256 := {| sha256_Sum256 := fun bs => [Z.of_nat (length bs) mod 256; foldr Z.add 0 bs mod 256] |}.

Definition sample_period (period : string) (withheld deducted_ remitted observed : Z) : PeriodComparison :=
  mkPeriod "worker" "order" period (cents withheld) (cents deducted_) (cents remitted) (cents observed) false.
Definition sample_periods : list PeriodComparison :=
  [sample_period "2026-02" 100 100 100 90; sample_period "2026-01" 100 100 100 100].

Lemma recon_exact_witness :
  exists r, ReconcileWithholding "tenant" sample_periods new_year = Ok r /\ length (rr_Cells r) = 2%nat /\ is_Some (rr_Repair r) /\
    ReconcileWithholding "tenant" (rev sample_periods) new_year = Ok r.
Proof.
  destruct (ReconcileWithholding "tenant" sample_periods new_year) as [r| |] eqn:E; [|vm_compute in E; discriminate E..].
  exists r. split; [reflexivity|]. destruct (recon_exact "tenant" sample_periods new_year) as [_ H].
  destruct (H r E) as (H1 & _ & _ & H2 & _ & H3). split; [exact H1|]. split.
  - vm_compute in E. injection E as <-. by eexists.
  - apply H3. cbn. apply Permutation_swap.
Defined.

(** the direction of a discrepancy is told only against the recipient:
    payroll that deducted more than the balance, and a remittance above the
    deductions, are reported SHORT, with a negative delta. *)
Theorem recon_direction :
  reconcile_cell (sample_period "2026-01" 100 150 150 150) =
    Ok (mkCell "worker" "order" "2026-01" CellShort (cents (-50)) "payroll deductions diverge from the order balance") /\
  reconcile_cell (sample_period "2026-01" 100 100 150 150) =
    Ok (mkCell "worker" "order" "2026-01" CellShort (cents (-50)) "remittance trails payroll deductions").
Proof. split; vm_compute; reflexivity. Qed.

End sample_recon.

