(* ===== verification/GarnishmentRemittance.v ===== *)
(** Remittance batches and their authorization:
    [internal/domains/garnishment/garnishment.go].

    [NewRemittance] builds a batch from payroll lines, [Authorize] binds it to
    a settlement instruction under dual control and a step-up proof, and
    [ValidateFor] rechecks the approval at execution.  An error is the list of
    the sentinels [errors.Is] finds in it.  Of [trust.Principal] the code reads
    the tenant, the subject and the fingerprint. *)

From stdpp Require Import sorting.
From S2P Require Import Prelude GoStrings Sorting CanonicalBytes FixedDecimal DecimalAmounts CivilTime GarnishmentOrder GarnishmentLimit.

Local Open Scope Z_scope.

Inductive rem_sentinel : Type :=
  | ErrInvalidRemittance | ErrRemittanceRejected | ErrWithholdingMismatch | ErrDestinationMismatch | ErrPayeeMismatch
  | ErrBatchChanged | ErrInstructionChanged | ErrDualControlRequired | ErrStepUpRequired | ErrStepUpProofInvalid
  | ErrAuthorizationInvalid
  | RemValues (e : values_err) | RemCanonical (e : canon_err).
Definition rem_err : Type := list rem_sentinel.

#[export] Instance rem_sentinel_eq_dec : EqDecision rem_sentinel.
Proof. solve_decision. Defined.

(** [reject(err)]. *)
Definition rem_reject {A} (m : outcome rem_err A) : outcome rem_err A := map_err (cons ErrRemittanceRejected) m.

(** * Lines and batches *)

Record Withholding : Type := mkWithholding {
  w_TenantID : string; w_ID : string; w_OrderRef : string; w_PayeeRef : string; w_DestinationRef : string;
  w_PayrollLineRef : string; w_Amount : Decimal; w_Currency : string
}.

Record RemittanceSpec : Type := mkSpec {
  sp_BatchID : string; sp_PayrollRunRef : string; sp_PayrollWithholdingDigest : string;
  sp_PayrollWithholdingTotal : Decimal; sp_Currency : string; sp_Lines : list Withholding
}.

Record RemittanceBatch : Type := mkBatch {
  rb_TenantID : string; rb_BatchID : string; rb_PayrollRunRef : string; rb_PayrollWithholdingDigest : string;
  rb_PayrollWithholdingTotal : Decimal; rb_Total : Decimal; rb_Currency : string; rb_PayeeRef : string;
  rb_DestinationRef : string; rb_Lines : list Withholding; rb_Revision : Z; rb_CanonicalDigest : string
}.

Definition withholdingKey (w : Withholding) : string :=
  let nul := String (char_of 0) EmptyString in
  w_OrderRef w +:+ nul +:+ w_PayeeRef w +:+ nul +:+ w_DestinationRef w +:+ nul +:+ w_ID w.

(** [MustDecimal("0", d.Scale(), d.Rounding())]. *)
Definition zeroLike (d : Decimal) : outcome rem_err Decimal :=
  match MustDecimal "0" (d_scale d) (d_round d) with Ok z => Ok z | _ => Panic end.

(** [v, err := m; err != nil] with the error of package values inside. *)
Definition rem_values {A} (m : outcome values_err A) : outcome rem_err A := map_err (fun e => [RemValues e]) m.

Definition Withholding_Validate (w : Withholding) (currency : string) : outcome rem_err unit :=
  _ ← fail_if (existsb is_blank [w_TenantID w; w_ID w; w_OrderRef w; w_PayeeRef w; w_DestinationRef w; w_PayrollLineRef w])
        [ErrInvalidRemittance];
  _ ← fail_if (not_positive (w_Amount w)) [ErrInvalidRemittance];
  fail_if (is_blank (w_Currency w) || negb (String.eqb (w_Currency w) currency)) [ErrInvalidRemittance].

Fixpoint validate_lines (currency : string) (seen : gset string) (lines : list Withholding) : outcome rem_err unit :=
  match lines with
  | [] => Ok tt
  | line :: rest =>
      _ ← Withholding_Validate line currency;
      _ ← fail_if (bool_decide (withholdingKey line ∈ seen)) [ErrInvalidRemittance];
      validate_lines currency ({[withholdingKey line]} ∪ seen) rest
  end.

Definition validateSpec (spec : RemittanceSpec) : outcome rem_err unit :=
  _ ← fail_if (is_blank (sp_BatchID spec) || is_blank (sp_PayrollRunRef spec) || is_blank (sp_PayrollWithholdingDigest spec))
        [ErrInvalidRemittance];
  _ ← fail_if (not_positive (sp_PayrollWithholdingTotal spec)) [ErrInvalidRemittance];
  _ ← fail_if (is_blank (sp_Currency spec)) [ErrInvalidRemittance];
  _ ← fail_if (length (sp_Lines spec) =? 0)%nat [ErrInvalidRemittance];
  validate_lines (sp_Currency spec) ∅ (sp_Lines spec).

(** The loop of [NewRemittance] over the sorted lines: one target, one tenant,
    and the running total. *)
Fixpoint sum_lines (first : Withholding) (total : Decimal) (lines : list Withholding) : outcome rem_err Decimal :=
  match lines with
  | [] => Ok total
  | line :: rest =>
      _ ← fail_if (negb (String.eqb (w_PayeeRef line) (w_PayeeRef first)) || negb (String.eqb (w_DestinationRef line) (w_DestinationRef first)))
            [ErrInvalidRemittance];
      _ ← fail_if (negb (String.eqb (w_TenantID line) (w_TenantID first))) [ErrInvalidRemittance];
      total' ← rem_values (Decimal_Add total (w_Amount line));
      sum_lines first total' rest
  end.

(** The loop of [Validate]: every error of the sum is a mismatch. *)
Fixpoint resum_lines (sum : Decimal) (lines : list Withholding) : outcome rem_err Decimal :=
  match lines with
  | [] => Ok sum
  | line :: rest =>
      sum' ← map_err (fun _ => [ErrInvalidRemittance; ErrWithholdingMismatch]) (Decimal_Add sum (w_Amount line));
      resum_lines sum' rest
  end.

Definition line_ops (line : Withholding) : list op :=
  [ WString "line.tenant_id" (w_TenantID line); WString "line.id" (w_ID line); WString "line.order_ref" (w_OrderRef line);
    WString "line.payee_ref" (w_PayeeRef line); WString "line.destination_ref" (w_DestinationRef line);
    WString "line.payroll_line_ref" (w_PayrollLineRef line); WValue "line.amount" (Decimal_Canonical (w_Amount line));
    WString "line.currency" (w_Currency line) ]%string.

Definition batch_ops (b : RemittanceBatch) : list op :=
  [ WString "tenant_id" (rb_TenantID b); WString "batch_id" (rb_BatchID b); WString "payroll_run_ref" (rb_PayrollRunRef b);
    WString "payroll_withholding_digest" (rb_PayrollWithholdingDigest b);
    WValue "payroll_withholding_total" (Decimal_Canonical (rb_PayrollWithholdingTotal b));
    WValue "total" (Decimal_Canonical (rb_Total b)); WString "currency" (rb_Currency b); WString "payee_ref" (rb_PayeeRef b);
    WString "destination_ref" (rb_DestinationRef b); WInt "revision" (to_int64 (rb_Revision b));
    WCount "lines" (Z.of_nat (length (rb_Lines b))) ]%string ++ concat (line_ops <$> rb_Lines b).

Definition batch_with_digest (d : string) (b : RemittanceBatch) : RemittanceBatch :=
  mkBatch (rb_TenantID b) (rb_BatchID b) (rb_PayrollRunRef b) (rb_PayrollWithholdingDigest b) (rb_PayrollWithholdingTotal b)
    (rb_Total b) (rb_Currency b) (rb_PayeeRef b) (rb_DestinationRef b) (rb_Lines b) (rb_Revision b) d.

(** * Instructions, proofs and authorizations *)

Definition SettlementInstructionInstructed : string := "INSTRUCTED".
Record SettlementInstruction : Type := mkInstruction {
  si_TenantID : string; si_InstructionID : string; si_PayrollRunRef : string; si_PayeeRef : string;
  si_DestinationRef : string; si_Amount : Decimal; si_Currency : string; si_State : string; si_CanonicalDigest : string
}.

Definition instruction_ops (i : SettlementInstruction) : list op :=
  [ WString "tenant_id" (si_TenantID i); WString "instruction_id" (si_InstructionID i);
    WString "payroll_run_ref" (si_PayrollRunRef i); WString "payee_ref" (si_PayeeRef i);
    WString "destination_ref" (si_DestinationRef i); WValue "amount" (Decimal_Canonical (si_Amount i));
    WString "currency" (si_Currency i); WString "state" (si_State i) ]%string.

(** [trust.Assurance]: a [uint8]. *)
Definition Assurance : Type := Z.
Definition AssuranceHigh : Assurance := 3.
Definition Assurance_AtLeast (a required : Assurance) : bool :=
  if (required =? 0) || (a =? 0) then false else required <=? a.
Definition Assurance_String (a : Assurance) : string :=
  if a =? 1 then "low" else if a =? 2 then "substantial" else if a =? 3 then "high" else if a =? 0 then "unspecified"
  else "invalid(" +:+ itoa a +:+ ")".

Record Principal : Type := mkPrincipal { pr_tenant : string; pr_subject : string; pr_fingerprint : string }.

Record StepUpProof : Type := mkProof {
  su_TenantID : string; su_Assurance : Assurance; su_Subject : string; su_BatchDigest : string;
  su_InstructionDigest : string; su_IssuedAt : GoTime; su_ExpiresAt : GoTime; su_Digest : string
}.

Definition UnixNano (t : GoTime) : Z := to_int64 (t_unix t * 1000000000 + t_nanosecond t).
Definition proof_ops (p : StepUpProof) : list op :=
  [ WString "tenant_id" (su_TenantID p); WString "assurance" (Assurance_String (su_Assurance p));
    WString "subject" (su_Subject p); WString "batch_digest" (su_BatchDigest p);
    WString "instruction_digest" (su_InstructionDigest p); WInt "issued_at" (UnixNano (su_IssuedAt p));
    WInt "expires_at" (UnixNano (su_ExpiresAt p)) ]%string.

Definition validDigest (value : string) : bool :=
  (len value =? len "sha256:" + 64) && bool_decide (is_Some (cut_prefix "sha256:" value)).

Definition StepUpProof_validateShape (p : StepUpProof) : outcome rem_err unit :=
  fail_if (is_blank (su_TenantID p) || is_blank (su_Subject p) || negb (validDigest (su_BatchDigest p))
           || negb (validDigest (su_InstructionDigest p)) || time_IsZero (su_IssuedAt p) || time_IsZero (su_ExpiresAt p)
           || negb (time_Before (su_IssuedAt p) (su_ExpiresAt p)) || negb (Assurance_AtLeast (su_Assurance p) AssuranceHigh))
    [ErrStepUpProofInvalid].

Record RemittanceAuthorization : Type := mkAuthorization {
  ra_TenantID : string; ra_BatchDigest : string; ra_InstructionDigest : string; ra_PayrollRunRef : string;
  ra_PayeeRef : string; ra_DestinationRef : string; ra_Total : Decimal; ra_Currency : string; ra_Requester : string;
  ra_Approver : string; ra_RequesterFingerprint : string; ra_ApproverFingerprint : string; ra_StepUpProofDigest : string;
  ra_AuthorizationRef : string; ra_Rule : string; ra_CanonicalDigest : string
}.

Definition authorizationRule : string := "garnishment.remittance.exact-batch-destination-dual-control".

Definition authorization_ops (a : RemittanceAuthorization) : list op :=
  [ WString "tenant_id" (ra_TenantID a); WString "batch_digest" (ra_BatchDigest a);
    WString "instruction_digest" (ra_InstructionDigest a); WString "payroll_run_ref" (ra_PayrollRunRef a);
    WString "payee_ref" (ra_PayeeRef a); WString "destination_ref" (ra_DestinationRef a);
    WValue "total" (Decimal_Canonical (ra_Total a)); WString "currency" (ra_Currency a);
    WString "requester" (ra_Requester a); WString "approver" (ra_Approver a);
    WString "requester_fingerprint" (ra_RequesterFingerprint a); WString "approver_fingerprint" (ra_ApproverFingerprint a);
    WString "step_up_proof_digest" (ra_StepUpProofDigest a); WString "authorization_ref" (ra_AuthorizationRef a);
    WString "rule" (ra_Rule a) ]%string.

Definition authorization_with_digest (d : string) (a : RemittanceAuthorization) : RemittanceAuthorization :=
  mkAuthorization (ra_TenantID a) (ra_BatchDigest a) (ra_InstructionDigest a) (ra_PayrollRunRef a) (ra_PayeeRef a)
    (ra_DestinationRef a) (ra_Total a) (ra_Currency a) (ra_Requester a) (ra_Approver a) (ra_RequesterFingerprint a)
    (ra_ApproverFingerprint a) (ra_StepUpProofDigest a) (ra_AuthorizationRef a) (ra_Rule a) d.

Record AuthorizationRequest : Type := mkRequest {
  rq_TenantID : string; rq_Instruction : SettlementInstruction; rq_Requester : option Principal; rq_Approver : option Principal;
  rq_StepUpProof : StepUpProof; rq_AuthorizationRef : string; rq_At : GoTime
}.

Section remittance.
Context `{SHA : Sha256}.

(** [w.Digest()], whose error a caller wraps. *)
Definition stream_result (schema : string) (ops : list op) : outcome rem_err string :=
  map_err (fun e => [RemCanonical e]) (Writer_Digest (ops_run ops (New schema 1))).

Definition RemittanceBatch_computedDigest (b : RemittanceBatch) : outcome rem_err string :=
  stream_result "hcmnext.domains.garnishment.RemittanceBatch" (batch_ops b).
Definition SettlementInstruction_computedDigest (i : SettlementInstruction) : outcome rem_err string :=
  stream_result "hcmnext.domains.garnishment.SettlementInstruction" (instruction_ops i).
Definition StepUpProof_computedDigest (p : StepUpProof) : outcome rem_err string :=
  stream_result "hcmnext.domains.garnishment.StepUpProof" (proof_ops p).
Definition RemittanceAuthorization_computedDigest (a : RemittanceAuthorization) : outcome rem_err string :=
  stream_result "hcmnext.domains.garnishment.RemittanceAuthorization" (authorization_ops a).

Definition NewRemittance (spec : RemittanceSpec) : outcome rem_err RemittanceBatch :=
  _ ← rem_reject (validateSpec spec);
  let lines := sort_by withholdingKey (sp_Lines spec) in
  match lines with
  | [] => Panic
  | first :: _ =>
      zero ← zeroLike (sp_PayrollWithholdingTotal spec);
      total ← rem_reject (sum_lines first zero lines);
      _ ← fail_if (negb (Decimal_Equal total (sp_PayrollWithholdingTotal spec))) [ErrRemittanceRejected; ErrWithholdingMismatch];
      let batch := mkBatch (w_TenantID first) (sp_BatchID spec) (sp_PayrollRunRef spec) (sp_PayrollWithholdingDigest spec)
        (sp_PayrollWithholdingTotal spec) total (sp_Currency spec) (w_PayeeRef first) (w_DestinationRef first) lines 1 "" in
      digest ← rem_reject (RemittanceBatch_computedDigest batch);
      Ok (batch_with_digest digest batch)
  end.

(** The comparison of a stored digest with the computed one. *)
Definition check_digest (stored : string) (computed : outcome rem_err string) (e : rem_sentinel) : outcome rem_err unit :=
  match computed with
  | Ok digest => fail_if (String.eqb stored "" || negb (String.eqb stored digest)) [e]
  | Err _ => Err [e]
  | Panic => Panic
  end.

Definition RemittanceBatch_Validate (b : RemittanceBatch) : outcome rem_err unit :=
  _ ← fail_if (is_blank (rb_BatchID b) || is_blank (rb_PayrollRunRef b) || is_blank (rb_PayrollWithholdingDigest b))
        [ErrInvalidRemittance];
  _ ← fail_if ((rb_Revision b =? 0) || is_blank (rb_TenantID b) || is_blank (rb_Currency b) || (length (rb_Lines b) =? 0)%nat)
        [ErrInvalidRemittance];
  _ ← fail_if (negb (is_ok (Decimal_Validate (rb_PayrollWithholdingTotal b)))) [ErrInvalidRemittance];
  _ ← fail_if (negb (is_ok (Decimal_Validate (rb_Total b)))) [ErrInvalidRemittance];
  _ ← fail_if (negb (Decimal_Equal (rb_Total b) (rb_PayrollWithholdingTotal b)) || (Decimal_Sign (rb_Total b) <=? 0))
        [ErrInvalidRemittance; ErrWithholdingMismatch];
  _ ← fail_if (is_blank (rb_PayeeRef b) || is_blank (rb_DestinationRef b)) [ErrInvalidRemittance];
  _ ← validateSpec (mkSpec (rb_BatchID b) (rb_PayrollRunRef b) (rb_PayrollWithholdingDigest b) (rb_PayrollWithholdingTotal b)
                      (rb_Currency b) (rb_Lines b));
  zero ← zeroLike (rb_PayrollWithholdingTotal b);
  sum ← resum_lines zero (rb_Lines b);
  _ ← fail_if (negb (Decimal_Equal sum (rb_Total b))) [ErrInvalidRemittance; ErrWithholdingMismatch];
  _ ← fail_if (existsb (fun line => negb (String.eqb (w_TenantID line) (rb_TenantID b)) || negb (String.eqb (w_PayeeRef line) (rb_PayeeRef b))
                                    || negb (String.eqb (w_DestinationRef line) (rb_DestinationRef b))) (rb_Lines b))
        [ErrInvalidRemittance];
  check_digest (rb_CanonicalDigest b) (RemittanceBatch_computedDigest b) ErrInvalidRemittance.

Definition RemittanceBatch_Digest (b : RemittanceBatch) : outcome rem_err string :=
  _ ← RemittanceBatch_Validate b; Ok (rb_CanonicalDigest b).

Definition SettlementInstruction_Validate (i : SettlementInstruction) : outcome rem_err unit :=
  _ ← fail_if (existsb is_blank [si_TenantID i; si_InstructionID i; si_PayrollRunRef i; si_PayeeRef i; si_DestinationRef i; si_Currency i])
        [ErrInvalidRemittance];
  _ ← fail_if (negb (String.eqb (si_State i) SettlementInstructionInstructed)) [ErrInvalidRemittance];
  _ ← fail_if (not_positive (si_Amount i)) [ErrInvalidRemittance];
  check_digest (si_CanonicalDigest i) (SettlementInstruction_computedDigest i) ErrInvalidRemittance.

Definition NewSettlementInstruction (tenantID id runRef payeeRef destinationRef : string) (amt : Decimal) (currency : string)
    : outcome rem_err SettlementInstruction :=
  let i := mkInstruction tenantID id runRef payeeRef destinationRef amt currency SettlementInstructionInstructed "" in
  _ ← fail_if (existsb is_blank [tenantID; id; runRef; payeeRef; destinationRef; currency] || not_positive amt) [ErrInvalidRemittance];
  digest ← map_err (fun _ => [ErrInvalidRemittance]) (SettlementInstruction_computedDigest i);
  Ok (mkInstruction tenantID id runRef payeeRef destinationRef amt currency SettlementInstructionInstructed digest).

Definition NewStepUpProof (tenantID : string) (assurance : Assurance) (subject batchDigest instructionDigest : string)
    (issuedAt expiresAt : GoTime) : outcome rem_err StepUpProof :=
  let p := mkProof tenantID assurance subject batchDigest instructionDigest issuedAt expiresAt "" in
  _ ← StepUpProof_validateShape p;
  digest ← StepUpProof_computedDigest p;
  Ok (mkProof tenantID assurance subject batchDigest instructionDigest issuedAt expiresAt digest).

Definition StepUpProof_Validate (p : StepUpProof) (at_ : GoTime) (tenantID subject batchDigest instructionDigest : string)
    : outcome rem_err unit :=
  _ ← StepUpProof_validateShape p;
  _ ← check_digest (su_Digest p) (StepUpProof_computedDigest p) ErrStepUpProofInvalid;
  _ ← fail_if (negb (String.eqb (su_TenantID p) tenantID) || negb (String.eqb (su_Subject p) subject)
               || negb (String.eqb (su_BatchDigest p) batchDigest) || negb (String.eqb (su_InstructionDigest p) instructionDigest))
        [ErrStepUpProofInvalid];
  fail_if (time_IsZero at_ || time_Before at_ (su_IssuedAt p) || negb (time_Before at_ (su_ExpiresAt p))) [ErrStepUpProofInvalid].

(** Both principals, when they are of the tenant and have different fingerprints. *)
Definition dual_control (req : AuthorizationRequest) : option (Principal * Principal) :=
  match rq_Requester req, rq_Approver req with
  | Some r, Some a =>
      if negb (String.eqb (pr_tenant r) (rq_TenantID req)) || negb (String.eqb (pr_tenant a) (rq_TenantID req))
         || String.eqb (pr_fingerprint r) (pr_fingerprint a) then None else Some (r, a)
  | _, _ => None
  end.

Definition Authorize (batch : RemittanceBatch) (req : AuthorizationRequest) : outcome rem_err RemittanceAuthorization :=
  let i := rq_Instruction req in
  _ ← rem_reject (RemittanceBatch_Validate batch);
  _ ← map_err (fun _ => [ErrRemittanceRejected; ErrInstructionChanged]) (SettlementInstruction_Validate i);
  _ ← fail_if (is_blank (rq_TenantID req) || negb (String.eqb (rb_TenantID batch) (rq_TenantID req))
               || negb (String.eqb (si_TenantID i) (rq_TenantID req))) [ErrRemittanceRejected; ErrAuthorizationInvalid];
  match dual_control req with
  | None => Err [ErrRemittanceRejected; ErrDualControlRequired]
  | Some (requester, approver) =>
      _ ← fail_if (negb (String.eqb (si_State i) SettlementInstructionInstructed)) [ErrRemittanceRejected; ErrInstructionChanged];
      _ ← fail_if (negb (String.eqb (si_PayrollRunRef i) (rb_PayrollRunRef batch)) || negb (Decimal_Equal (si_Amount i) (rb_Total batch))
                   || negb (String.eqb (si_Currency i) (rb_Currency batch))) [ErrRemittanceRejected; ErrWithholdingMismatch];
      _ ← fail_if (negb (String.eqb (si_PayeeRef i) (rb_PayeeRef batch))) [ErrRemittanceRejected; ErrPayeeMismatch];
      _ ← fail_if (negb (String.eqb (si_DestinationRef i) (rb_DestinationRef batch))) [ErrRemittanceRejected; ErrDestinationMismatch];
      _ ← map_err (fun _ => [ErrRemittanceRejected; ErrStepUpRequired])
            (StepUpProof_Validate (rq_StepUpProof req) (rq_At req) (rq_TenantID req) (pr_subject requester)
               (rb_CanonicalDigest batch) (si_CanonicalDigest i));
      let a := mkAuthorization (rq_TenantID req) (rb_CanonicalDigest batch) (si_CanonicalDigest i) (rb_PayrollRunRef batch)
        (rb_PayeeRef batch) (rb_DestinationRef batch) (rb_Total batch) (rb_Currency batch) (pr_subject requester)
        (pr_subject approver) (pr_fingerprint requester) (pr_fingerprint approver) (su_Digest (rq_StepUpProof req))
        (rq_AuthorizationRef req) authorizationRule "" in
      digest ← rem_reject (RemittanceAuthorization_computedDigest a);
      Ok (authorization_with_digest digest a)
  end.

Definition RemittanceAuthorization_Validate (a : RemittanceAuthorization) : outcome rem_err unit :=
  _ ← fail_if (existsb is_blank [ra_TenantID a; ra_BatchDigest a; ra_InstructionDigest a; ra_PayrollRunRef a; ra_PayeeRef a;
                  ra_DestinationRef a; ra_Currency a; ra_Requester a; ra_Approver a; ra_RequesterFingerprint a;
                  ra_ApproverFingerprint a; ra_StepUpProofDigest a; ra_Rule a]) [ErrAuthorizationInvalid];
  _ ← fail_if (String.eqb (ra_Requester a) (ra_Approver a)) [ErrAuthorizationInvalid; ErrDualControlRequired];
  _ ← fail_if (negb (is_ok (Decimal_Validate (ra_Total a)))) [ErrAuthorizationInvalid];
  check_digest (ra_CanonicalDigest a) (RemittanceAuthorization_computedDigest a) ErrAuthorizationInvalid.

Definition RemittanceAuthorization_ValidateFor (a : RemittanceAuthorization) (batch : RemittanceBatch) (i : SettlementInstruction)
    : outcome rem_err unit :=
  _ ← RemittanceAuthorization_Validate a;
  _ ← map_err (fun _ => [ErrBatchChanged]) (RemittanceBatch_Validate batch);
  _ ← map_err (fun _ => [ErrInstructionChanged]) (SettlementInstruction_Validate i);
  _ ← fail_if (negb (String.eqb (rb_TenantID batch) (ra_TenantID a)) || negb (String.eqb (si_TenantID i) (ra_TenantID a)))
        [ErrAuthorizationInvalid];
  _ ← fail_if (negb (String.eqb (rb_CanonicalDigest batch) (ra_BatchDigest a))) [ErrBatchChanged];
  _ ← fail_if (negb (String.eqb (si_CanonicalDigest i) (ra_InstructionDigest a))) [ErrInstructionChanged];
  _ ← fail_if (negb (String.eqb (si_DestinationRef i) (ra_DestinationRef a))) [ErrDestinationMismatch];
  _ ← fail_if (negb (String.eqb (si_PayeeRef i) (ra_PayeeRef a))) [ErrPayeeMismatch];
  fail_if (negb (String.eqb (si_PayrollRunRef i) (ra_PayrollRunRef a)) || negb (Decimal_Equal (si_Amount i) (ra_Total a))
           || negb (String.eqb (si_Currency i) (ra_Currency a))) [ErrWithholdingMismatch].

End remittance.

(** * Lines and sums *)

Definition line_valid (currency : string) (w : Withholding) : Prop :=
  Forall (fun s => is_blank s = false) [w_TenantID w; w_ID w; w_OrderRef w; w_PayeeRef w; w_DestinationRef w; w_PayrollLineRef w] /\
  (dec_wf (w_Amount w) /\ 0 < Decimal_signed (w_Amount w)) /\ is_blank (w_Currency w) = false /\ w_Currency w = currency.

Lemma existsb_blank l : existsb is_blank l = false <-> Forall (fun s => is_blank s = false) l.
Proof. induction l as [|s l IH]; cbn; [done|]. rewrite orb_false_iff, Forall_cons, IH. done. Qed.

Lemma Withholding_Validate_ok w currency : Withholding_Validate w currency = Ok tt <-> line_valid currency w.
Proof.
  unfold Withholding_Validate, line_valid.
  rewrite !bind_unit_ok, !fail_if_ok_iff, existsb_blank, not_positive_false, orb_false_iff, negb_false_iff, String.eqb_eq. done.
Qed.

Lemma validate_lines_ok currency lines : forall seen, validate_lines currency seen lines = Ok tt <->
  Forall (line_valid currency) lines /\ NoDup (withholdingKey <$> lines) /\ Forall (fun l => withholdingKey l ∉ seen) lines.
Proof.
  induction lines as [|l lines IH]; intros seen; cbn [validate_lines].
  { split; [|done]. intros _. split_and!; constructor. }
  rewrite !bind_unit_ok, fail_if_ok_iff, Withholding_Validate_ok, bool_decide_eq_false, IH, !Forall_cons, fmap_cons, NoDup_cons.
  rewrite (fresh_keys withholdingKey). tauto.
Qed.

Definition spec_valid (spec : RemittanceSpec) : Prop :=
  (is_blank (sp_BatchID spec) = false /\ is_blank (sp_PayrollRunRef spec) = false /\ is_blank (sp_PayrollWithholdingDigest spec) = false) /\
  (dec_wf (sp_PayrollWithholdingTotal spec) /\ 0 < Decimal_signed (sp_PayrollWithholdingTotal spec)) /\
  is_blank (sp_Currency spec) = false /\ sp_Lines spec <> [] /\ Forall (line_valid (sp_Currency spec)) (sp_Lines spec) /\
  NoDup (withholdingKey <$> sp_Lines spec).

Lemma validateSpec_ok spec : validateSpec spec = Ok tt <-> spec_valid spec.
Proof.
  unfold validateSpec, spec_valid. rewrite !bind_unit_ok, !fail_if_ok_iff, !orb_false_iff, not_positive_false, validate_lines_ok.
  assert (Hl : (length (sp_Lines spec) =? 0)%nat = false <-> sp_Lines spec <> []) by (by destruct (sp_Lines spec)).
  assert (He : Forall (fun l => withholdingKey l ∉ (∅ : gset string)) (sp_Lines spec)) by (apply Forall_forall; set_solver).
  rewrite Hl. tauto.
Qed.

(** The sum of the lines, in the units of the total. *)
Definition line_total (lines : list Withholding) : Z := foldr (fun l sum => Decimal_signed (w_Amount l) + sum) 0 lines.

Lemma line_total_perm l l' : l ≡ₚ l' -> line_total l = line_total l'.
Proof. unfold line_total. induction 1; cbn; lia. Qed.

Lemma line_total_nonneg currency lines : Forall (line_valid currency) lines -> 0 <= line_total lines.
Proof. unfold line_total. induction 1 as [|l ls (_ & [_ H] & _) _ IH]; cbn; lia. Qed.

(** Lines of one target, tenant and scale. *)
Definition same_target (tenant payee destination : string) (s : Z) (l : Withholding) : Prop :=
  w_TenantID l = tenant /\ w_PayeeRef l = payee /\ w_DestinationRef l = destination /\ d_scale (w_Amount l) = s.

Lemma sum_lines_ok first lines currency : Forall (line_valid currency) lines -> forall total, dec_wf total -> 0 <= Decimal_signed total ->
  (Forall (same_target (w_TenantID first) (w_PayeeRef first) (w_DestinationRef first) (d_scale total)) lines ->
   Decimal_signed total + line_total lines < 10 ^ MaxPrecision -> exists t, sum_lines first total lines = Ok t) /\
  (forall t, sum_lines first total lines = Ok t ->
     Forall (same_target (w_TenantID first) (w_PayeeRef first) (w_DestinationRef first) (d_scale total)) lines /\
     amount t (d_scale total) (Decimal_signed total + line_total lines) /\ d_round t = d_round total).
Proof.
  induction 1 as [|l lines Hl Hls IH]; intros total Hw Hn.
  { split; [by eexists|]. intros t [= <-]. split; [constructor|]. unfold amount, line_total. cbn. by rewrite Z.add_0_r. }
  pose proof (line_total_nonneg _ _ Hls) as Hrest. destruct Hl as (_ & [Hlw Hlp] & _).
  unfold line_total in *. cbn [foldr sum_lines] in *. split.
  - intros [(E1 & E2 & E3 & E4) Hsame]%Forall_cons Hb. rewrite E1, E2, E3, !String.eqb_refl. cbn [negb orb fail_if mbind outcome_bind].
    rewrite Add_amount, E4, Z.eqb_refl by done. cbn [negb]. rewrite (proj2 (Z.ltb_lt _ _)) by lia. cbn [rem_values map_err mbind outcome_bind].
    destruct (dec_wf_scale _ Hw). apply IH; [apply dec_wf_dec_of; (done || lia)|rewrite Decimal_signed_dec_of; lia|done|].
    rewrite Decimal_signed_dec_of. lia.
  - intros t H. apply bind_ok_inv in H as ([] & H1 & H). apply bind_ok_inv in H as ([] & H2 & H). apply bind_ok_inv in H as (total' & H3 & H).
    apply fail_if_ok in H1, H2. apply orb_false_iff in H1 as [H1 H1']. apply negb_false_iff, String.eqb_eq in H1, H1', H2.
    apply map_err_ok in H3. pose proof (Add_round _ _ _ H3) as Hr. apply Add_ok_inv in H3 as (_ & _ & Hs & Ha & Has & Hav).
    destruct (IH total' Ha ltac:(lia)) as [_ IH']. destruct (IH' t H) as (H4 & H5 & H6). rewrite Has, Hav in *. split; [|split].
    + constructor; [by split_and!|done].
    + by rewrite <- Z.add_assoc in H5.
    + congruence.
Qed.

Lemma resum_lines_ok lines currency : Forall (line_valid currency) lines -> forall total, dec_wf total -> 0 <= Decimal_signed total ->
  Forall (fun l => d_scale (w_Amount l) = d_scale total) lines -> Decimal_signed total + line_total lines < 10 ^ MaxPrecision ->
  exists t, resum_lines total lines = Ok t /\ amount t (d_scale total) (Decimal_signed total + line_total lines).
Proof.
  induction 1 as [|l lines Hl Hls IH]; intros total Hw Hn Hs Hb.
  { exists total. split; [done|]. unfold amount, line_total. cbn. by rewrite Z.add_0_r. }
  pose proof (line_total_nonneg _ _ Hls) as Hrest. destruct Hl as (_ & [Hlw Hlp] & _).
  apply Forall_cons in Hs as [E4 Hs]. unfold line_total in *. cbn [foldr resum_lines] in *.
  rewrite Add_amount, E4, Z.eqb_refl by done. cbn [negb]. rewrite (proj2 (Z.ltb_lt _ _)) by lia. cbn [map_err mbind outcome_bind].
  destruct (dec_wf_scale _ Hw). set (x := dec_of _ _ _).
  assert (Hx : dec_wf x) by (apply dec_wf_dec_of; (done || lia)).
  assert (Hxs : Decimal_signed x = Decimal_signed total + Decimal_signed (w_Amount l)) by apply Decimal_signed_dec_of.
  destruct (IH x) as (t & Ht & H1 & H2 & H3); [done|lia|done|lia|]. exists t. split; [done|].
  split_and!; [done|done|]. rewrite H3, Hxs. lia.
Qed.

Lemma zeroLike_eq d : dec_wf d -> zeroLike d = Ok (dec_of 0 (d_scale d) (d_round d)).
Proof.
  intros H. destruct (dec_wf_scale d H) as [Hs Hm]. unfold zeroLike, MustDecimal. by rewrite NewDecimal_zero.
Qed.

Section remittance_facts.
Context `{SHA : Sha256}.

Lemma stream_result_eq schema ops : schema <> "" -> Forall op_encodable ops ->
  stream_result schema ops = Ok (Digest (w_buf (ops_run ops (New schema 1)))).
Proof. intros Hs Ho. unfold stream_result. by rewrite stream_digest. Qed.

Lemma batch_encodable b : dec_wf (rb_PayrollWithholdingTotal b) -> dec_wf (rb_Total b) ->
  Forall (fun l => dec_wf (w_Amount l)) (rb_Lines b) -> Forall op_encodable (batch_ops b).
Proof.
  intros H1 H2 H3. unfold batch_ops. apply Forall_app_2; [encodable|].
  induction H3 as [|l ls Hl _ IH]; cbn; [constructor|]. encodable. exact IH.
Qed.

Lemma check_digest_ok stored computed e : check_digest stored computed e = Ok tt <-> computed = Ok stored /\ stored <> "".
Proof.
  unfold check_digest. destruct computed as [d| |]; [|split; [done|by intros [? _]]..].
  rewrite fail_if_ok_iff, orb_false_iff, negb_false_iff, String.eqb_eq, String.eqb_neq. split; [intros [H ->]; done|by intros [[= ->] H]].
Qed.

(** Every line of one tenant, payee and destination, in the scale of the total,
    and adding up to it. *)
Definition reconciled (spec : RemittanceSpec) : Prop :=
  (exists tenant payee destination,
     Forall (same_target tenant payee destination (d_scale (sp_PayrollWithholdingTotal spec))) (sp_Lines spec)) /\
  line_total (sp_Lines spec) = Decimal_signed (sp_PayrollWithholdingTotal spec).

Lemma batch_validates spec first rest t d :
  spec_valid spec -> first :: rest = sort_by withholdingKey (sp_Lines spec) ->
  Forall (same_target (w_TenantID first) (w_PayeeRef first) (w_DestinationRef first) (d_scale (sp_PayrollWithholdingTotal spec))) (first :: rest) ->
  line_total (first :: rest) = Decimal_signed (sp_PayrollWithholdingTotal spec) ->
  amount t (d_scale (sp_PayrollWithholdingTotal spec)) (Decimal_signed (sp_PayrollWithholdingTotal spec)) ->
  let b := mkBatch (w_TenantID first) (sp_BatchID spec) (sp_PayrollRunRef spec) (sp_PayrollWithholdingDigest spec)
        (sp_PayrollWithholdingTotal spec) t (sp_Currency spec) (w_PayeeRef first) (w_DestinationRef first) (first :: rest) 1 d in
  RemittanceBatch_computedDigest b = Ok d -> d <> "" -> RemittanceBatch_Validate b = Ok tt.
Proof.
  intros Hv Hsort Htarget Hsum (Ht & Hts & Htv) b Hd Hne. destruct Hv as ((B1 & B2 & B3) & [HT HTp] & Hcur & Hlines & Hvalid & Hnd).
  assert (Hp : first :: rest ≡ₚ sp_Lines spec) by (rewrite Hsort; apply sort_by_Permutation).
  assert (Hvalid' : Forall (line_valid (sp_Currency spec)) (first :: rest)) by (by apply (Permutation_Forall (symmetry Hp))).
  pose proof (Forall_inv Hvalid') as [HF _]. rewrite !Forall_cons in HF. destruct HF as (F1 & _ & _ & F4 & F5 & _).
  destruct (resum_lines_ok _ _ Hvalid' (dec_of 0 (d_scale (sp_PayrollWithholdingTotal spec)) (d_round (sp_PayrollWithholdingTotal spec))))
    as (sum & Hsm & Hsw & Hss & Hsv).
  { destruct (dec_wf_scale _ HT). apply dec_wf_dec_of; done. }
  { by rewrite Decimal_signed_dec_of. }
  { eapply Forall_impl; [exact Htarget|]. by intros x (_ & _ & _ & ?). }
  { rewrite Decimal_signed_dec_of, Hsum. pose proof (dec_wf_bound _ HT). lia. }
  rewrite Decimal_signed_dec_of, Hsum in Hsv. cbn [d_scale dec_of] in Hss.
  unfold RemittanceBatch_Validate. rewrite !bind_unit_ok, !fail_if_ok_iff.
  cbn [b rb_TenantID rb_BatchID rb_PayrollRunRef rb_PayrollWithholdingDigest rb_PayrollWithholdingTotal rb_Total rb_Currency rb_PayeeRef
       rb_DestinationRef rb_Lines rb_Revision rb_CanonicalDigest] in *.
  rewrite B1, B2, B3, Hcur, F1, F4, F5, (proj2 (Validate_amount _) HT), (proj2 (Validate_amount _) Ht), Sign_amount by done.
  rewrite Equal_amount by (done || congruence). rewrite Htv, Z.eqb_refl, zeroLike_eq by done. cbn [mbind outcome_bind].
  rewrite Hsm. cbn [mbind outcome_bind]. rewrite !bind_unit_ok, !fail_if_ok_iff, check_digest_ok.
  split_and!; try done; try lia.
  - apply validateSpec_ok. unfold spec_valid. cbn [sp_BatchID sp_PayrollRunRef sp_PayrollWithholdingDigest sp_PayrollWithholdingTotal sp_Currency sp_Lines]. split_and!; try done. by rewrite Hp.
  - rewrite Equal_amount, Hsv, Htv, Z.eqb_refl by (done || congruence). done.
  - apply not_true_iff_false. intros Hx. apply existsb_exists in Hx as (x & Hx & Hf).
    rewrite Forall_forall in Htarget. apply list_elem_of_In in Hx. destruct (Htarget x Hx) as (E1 & E2 & E3 & _).
    by rewrite E1, E2, E3, !String.eqb_refl in Hf.
Qed.

Lemma NewRemittance_inv spec b : NewRemittance spec = Ok b ->
  spec_valid spec /\ reconciled spec /\ RemittanceBatch_Validate b = Ok tt /\
  rb_Lines b = sort_by withholdingKey (sp_Lines spec) /\
  amount (rb_Total b) (d_scale (sp_PayrollWithholdingTotal spec)) (Decimal_signed (sp_PayrollWithholdingTotal spec)) /\
  Forall (same_target (rb_TenantID b) (rb_PayeeRef b) (rb_DestinationRef b) (d_scale (sp_PayrollWithholdingTotal spec))) (rb_Lines b).
Proof.
  intros H. unfold NewRemittance in H. apply bind_ok_inv in H as ([] & Hv & H). apply map_err_ok, validateSpec_ok in Hv.
  destruct (sort_by withholdingKey (sp_Lines spec)) as [|first rest] eqn:Hsort; [done|].
  pose proof Hv as (_ & [HT HTp] & _ & _ & Hvalid & _). rewrite zeroLike_eq in H by done. cbn [mbind outcome_bind] in H.
  apply bind_ok_inv in H as (t & Ht & H). apply bind_ok_inv in H as ([] & Heq & H). apply bind_ok_inv in H as (d & Hd & H). injection H as <-.
  apply map_err_ok in Ht, Hd. apply fail_if_ok, negb_false_iff in Heq. symmetry in Hsort.
  assert (Hp : first :: rest ≡ₚ sp_Lines spec) by (rewrite Hsort; apply sort_by_Permutation).
  assert (Hvalid' : Forall (line_valid (sp_Currency spec)) (first :: rest)) by (by apply (Permutation_Forall (symmetry Hp))).
  destruct (dec_wf_scale _ HT) as [Hs Hm].
  assert (Hz : dec_wf (dec_of 0 (d_scale (sp_PayrollWithholdingTotal spec)) (d_round (sp_PayrollWithholdingTotal spec)))) by (by apply dec_wf_dec_of).
  destruct (sum_lines_ok first _ _ Hvalid' _ Hz) as [_ Hsum]; [by rewrite Decimal_signed_dec_of|].
  destruct (Hsum t Ht) as (Htarget & Hamt & _). rewrite Decimal_signed_dec_of in Hamt. cbn [d_scale dec_of] in Htarget, Hamt.
  rewrite Z.add_0_l in Hamt. pose proof Hamt as (Hw & Hts & Htv).
  rewrite Equal_amount, Htv, Z.eqb_eq in Heq by (done || congruence). rewrite Heq in Hamt.
  split_and!; try done.
  - split; [exists (w_TenantID first), (w_PayeeRef first), (w_DestinationRef first); by apply (Permutation_Forall Hp)|].
    by rewrite <- (line_total_perm _ _ Hp).
  - apply (batch_validates spec first rest t d Hv Hsort Htarget Heq Hamt Hd).
    unfold RemittanceBatch_computedDigest, stream_result, Writer_Digest in Hd. apply map_err_ok in Hd. by ok_inv; subst.
Qed.

Lemma NewRemittance_total spec : spec_valid spec -> reconciled spec -> exists b, NewRemittance spec = Ok b.
Proof.
  intros Hv ((tenant & payee & dest & Hall) & Hsum). unfold NewRemittance. rewrite (proj2 (validateSpec_ok spec) Hv). cbn [rem_reject map_err mbind outcome_bind].
  pose proof (sort_by_Permutation withholdingKey (sp_Lines spec)) as Hp.
  destruct (sort_by withholdingKey (sp_Lines spec)) as [|first rest].
  { destruct Hv as (_ & _ & _ & Hne & _). by apply Permutation_nil_l in Hp. }
  pose proof Hv as (_ & [HT HTp] & _ & _ & Hvalid & _). rewrite zeroLike_eq by done. cbn [mbind outcome_bind].
  assert (Hvalid' : Forall (line_valid (sp_Currency spec)) (first :: rest)) by (by apply (Permutation_Forall (symmetry Hp))).
  assert (Hall' : Forall (same_target tenant payee dest (d_scale (sp_PayrollWithholdingTotal spec))) (first :: rest)) by (by apply (Permutation_Forall (symmetry Hp))).
  destruct (Forall_inv Hall') as (E1 & E2 & E3 & _). destruct (dec_wf_scale _ HT) as [Hs Hm].
  assert (Hz : dec_wf (dec_of 0 (d_scale (sp_PayrollWithholdingTotal spec)) (d_round (sp_PayrollWithholdingTotal spec)))) by (by apply dec_wf_dec_of).
  destruct (sum_lines_ok first _ _ Hvalid' _ Hz) as [Hex Hinv]; [by rewrite Decimal_signed_dec_of|].
  rewrite Decimal_signed_dec_of, (line_total_perm _ _ Hp), Hsum in Hex, Hinv. cbn [d_scale dec_of] in Hex, Hinv. rewrite E1, E2, E3 in Hex.
  destruct Hex as [t Ht]; [done|pose proof (dec_wf_bound _ HT); lia|]. rewrite Ht. destruct (Hinv t Ht) as (_ & (Hw & Hts & Htv) & _).
  cbn [rem_reject map_err mbind outcome_bind]. rewrite Equal_amount, Htv, Z.eqb_refl by (done || congruence). cbn [negb fail_if mbind outcome_bind].
  unfold RemittanceBatch_computedDigest. rewrite stream_result_eq; [by eexists|done|].
  apply batch_encodable; cbn; [done|done|]. eapply Forall_impl; [exact Hvalid'|]. by intros x (_ & [? _] & _).
Qed.

(** C29: a batch is generated exactly when its references, total, currency and
    lines are valid, no line repeats, the lines share one tenant, payee,
    destination and scale, and their amounts add up to the payroll total; the
    batch then passes its own [Validate], holds the given lines and no other,
    in the order of their keys, its total is the payroll total exactly, and it
    does not depend on the order in which the lines were given. *)
Theorem remittance_exact spec :
  ((exists b, NewRemittance spec = Ok b) <-> spec_valid spec /\ reconciled spec) /\
  (forall b, NewRemittance spec = Ok b ->
     RemittanceBatch_Validate b = Ok tt /\ rb_Lines b ≡ₚ sp_Lines spec /\ StronglySorted (key_le withholdingKey) (rb_Lines b) /\
     Decimal_signed (rb_Total b) = line_total (rb_Lines b) /\
     Decimal_signed (rb_Total b) = Decimal_signed (sp_PayrollWithholdingTotal spec) /\
     Forall (fun l => w_TenantID l = rb_TenantID b /\ w_PayeeRef l = rb_PayeeRef b /\ w_DestinationRef l = rb_DestinationRef b) (rb_Lines b) /\
     (forall lines, sp_Lines spec ≡ₚ lines ->
        NewRemittance (mkSpec (sp_BatchID spec) (sp_PayrollRunRef spec) (sp_PayrollWithholdingDigest spec)
          (sp_PayrollWithholdingTotal spec) (sp_Currency spec) lines) = Ok b)).
Proof.
  split; [split; [intros [b H]; by apply NewRemittance_inv in H as (? & ? & _)|intros [? ?]; by apply NewRemittance_total]|].
  intros b H. pose proof H as Hb. apply NewRemittance_inv in H as (Hv & Hr & Hval & Hl & (_ & _ & Ht) & Hall).
  assert (Hp : rb_Lines b ≡ₚ sp_Lines spec) by (rewrite Hl; apply sort_by_Permutation).
  split_and!; try done.
  - rewrite Hl. apply sort_by_sorted.
  - rewrite Ht, (line_total_perm _ _ Hp). symmetry. apply Hr.
  - eapply Forall_impl; [exact Hall|]. by intros x (? & ? & ? & _).
  - intros lines Hlines.
    assert (Hs : sort_by withholdingKey (sp_Lines spec) = sort_by withholdingKey lines).
    { apply sort_by_canonical; [apply Hv|done]. }
    destruct Hv as ((B1 & B2 & B3) & [T1 T2] & H3 & H4 & H5 & H6).
    assert (Hv1 : validateSpec spec = Ok tt) by (apply validateSpec_ok; by split_and!).
    assert (Hv2 : validateSpec (mkSpec (sp_BatchID spec) (sp_PayrollRunRef spec) (sp_PayrollWithholdingDigest spec)
          (sp_PayrollWithholdingTotal spec) (sp_Currency spec) lines) = Ok tt).
    { apply validateSpec_ok. unfold spec_valid. cbn [sp_BatchID sp_PayrollRunRef sp_PayrollWithholdingDigest sp_PayrollWithholdingTotal sp_Currency sp_Lines]. split_and!; try done; [|by apply (Permutation_Forall Hlines)|by rewrite <- Hlines].
      intros ->. apply H4. by apply Permutation_nil_r. }
    unfold NewRemittance in *. rewrite Hv1 in Hb. rewrite Hv2.
    cbn [sp_BatchID sp_PayrollRunRef sp_PayrollWithholdingDigest sp_PayrollWithholdingTotal sp_Currency sp_Lines]. by rewrite <- Hs.
Qed.

(** * Authorization *)

Lemma stored_digest_not_blank stored schema ops : stream_result schema ops = Ok stored -> is_blank stored = false.
Proof. unfold stream_result, Writer_Digest. intros H. apply map_err_ok in H. ok_inv. by subst. Qed.

#[local] Opaque stream_result.

Lemma batch_checked b : RemittanceBatch_Validate b = Ok tt ->
  is_blank (rb_TenantID b) = false /\ is_blank (rb_PayrollRunRef b) = false /\ is_blank (rb_PayeeRef b) = false /\
  is_blank (rb_DestinationRef b) = false /\ is_blank (rb_Currency b) = false /\ dec_wf (rb_Total b) /\
  is_blank (rb_CanonicalDigest b) = false.
Proof.
  unfold RemittanceBatch_Validate. rewrite !bind_unit_ok, !fail_if_ok_iff, !orb_false_iff, !negb_false_iff.
  intros (((_ & H1) & _) & (((_ & H2) & H3) & _) & _ & Hw & _ & (H4 & H5) & _ & H).
  apply bind_ok_inv in H as (z & _ & H). apply bind_ok_inv in H as (s & _ & H). rewrite !bind_unit_ok, check_digest_ok in H.
  destruct H as (_ & _ & Hd & _). apply Validate_amount in Hw. split_and!; try done. by eapply stored_digest_not_blank.
Qed.

Lemma instruction_checked i : SettlementInstruction_Validate i = Ok tt -> is_blank (si_CanonicalDigest i) = false.
Proof.
  unfold SettlementInstruction_Validate. rewrite !bind_unit_ok, check_digest_ok. intros (_ & _ & _ & Hd & _). by eapply stored_digest_not_blank.
Qed.

(** What an authorization requires, read off. *)
Lemma Authorize_inv batch req a : Authorize batch req = Ok a ->
  let i := rq_Instruction req in
  exists r ap, rq_Requester req = Some r /\ rq_Approver req = Some ap /\
  RemittanceBatch_Validate batch = Ok tt /\ SettlementInstruction_Validate i = Ok tt /\
  (is_blank (rq_TenantID req) = false /\ rb_TenantID batch = rq_TenantID req /\ si_TenantID i = rq_TenantID req /\
   pr_tenant r = rq_TenantID req /\ pr_tenant ap = rq_TenantID req /\ pr_fingerprint r <> pr_fingerprint ap) /\
  si_State i = SettlementInstructionInstructed /\
  (si_PayrollRunRef i = rb_PayrollRunRef batch /\ Decimal_Equal (si_Amount i) (rb_Total batch) = true /\
   si_Currency i = rb_Currency batch /\ si_PayeeRef i = rb_PayeeRef batch /\ si_DestinationRef i = rb_DestinationRef batch) /\
  StepUpProof_Validate (rq_StepUpProof req) (rq_At req) (rq_TenantID req) (pr_subject r) (rb_CanonicalDigest batch) (si_CanonicalDigest i) = Ok tt /\
  a = mkAuthorization (rq_TenantID req) (rb_CanonicalDigest batch) (si_CanonicalDigest i) (rb_PayrollRunRef batch)
        (rb_PayeeRef batch) (rb_DestinationRef batch) (rb_Total batch) (rb_Currency batch) (pr_subject r)
        (pr_subject ap) (pr_fingerprint r) (pr_fingerprint ap) (su_Digest (rq_StepUpProof req))
        (rq_AuthorizationRef req) authorizationRule (ra_CanonicalDigest a) /\
  RemittanceAuthorization_computedDigest a = Ok (ra_CanonicalDigest a).
Proof.
  intros H i. unfold Authorize in H. apply bind_ok_inv in H as ([] & H1 & H). apply bind_ok_inv in H as ([] & H2 & H).
  apply bind_ok_inv in H as ([] & H3 & H). apply map_err_ok in H1, H2. apply fail_if_ok in H3.
  unfold dual_control in H. destruct (rq_Requester req) as [r|], (rq_Approver req) as [ap|]; try done.
  destruct (negb (String.eqb (pr_tenant r) (rq_TenantID req)) || _ || _) eqn:E; [done|].
  apply bind_ok_inv in H as ([] & Hstate & H). apply bind_ok_inv in H as ([] & H4 & H). apply bind_ok_inv in H as ([] & H5 & H).
  apply bind_ok_inv in H as ([] & H6 & H). apply bind_ok_inv in H as ([] & H7 & H). apply bind_ok_inv in H as (d & H8 & H).
  apply map_err_ok in H7, H8. apply fail_if_ok in Hstate, H4, H5, H6. injection H as <-.
  rewrite !orb_false_iff, !negb_false_iff, !String.eqb_eq in *. rewrite String.eqb_neq in E. cbn [ra_CanonicalDigest authorization_with_digest].
  destruct E as [[? ?] ?], H3 as [[? ?] ?], H4 as [[? ?] ?]. exists r, ap. by split_and!.
Qed.

Lemma Authorization_valid a : RemittanceAuthorization_computedDigest a = Ok (ra_CanonicalDigest a) ->
  Forall (fun s => is_blank s = false) [ra_TenantID a; ra_BatchDigest a; ra_InstructionDigest a; ra_PayrollRunRef a; ra_PayeeRef a;
    ra_DestinationRef a; ra_Currency a; ra_Requester a; ra_Approver a; ra_RequesterFingerprint a;
    ra_ApproverFingerprint a; ra_StepUpProofDigest a; ra_Rule a] ->
  dec_wf (ra_Total a) ->
  RemittanceAuthorization_Validate a =
    if String.eqb (ra_Requester a) (ra_Approver a) then Err [ErrAuthorizationInvalid; ErrDualControlRequired] else Ok tt.
Proof.
  intros Hd Hb Hw. unfold RemittanceAuthorization_Validate. rewrite (proj2 (existsb_blank _) Hb). cbn [fail_if mbind outcome_bind].
  destruct (String.eqb (ra_Requester a) (ra_Approver a)); [done|]. cbn [fail_if mbind outcome_bind].
  rewrite (proj2 (Validate_amount _) Hw). cbn [negb fail_if mbind outcome_bind]. apply check_digest_ok. split; [done|].
  pose proof (stored_digest_not_blank _ _ _ Hd) as Hn. intros E. by rewrite E in Hn.
Qed.

(** C13: an authorization is given only for an intact batch and an intact,
    instructed instruction of one tenant, run, payee, destination, currency
    and amount, on an intact proof of high assurance by the requester, bound to
    both digests and valid at the instant, to two principals of the tenant; it
    records the tenant, the digests of the batch, of the instruction and of the
    proof, the batch's run, payee, destination, total and currency, and both
    principals, under its own seal; at execution [ValidateFor] accepts the
    approved pair exactly when requester and approver are different subjects,
    and whatever it accepts carries the approved digests, target, amount and
    currency. *)
Theorem authorization_bound batch req a (H : Authorize batch req = Ok a) :
  let i := rq_Instruction req in let p := rq_StepUpProof req in
  exists r ap, rq_Requester req = Some r /\ rq_Approver req = Some ap /\ pr_fingerprint r <> pr_fingerprint ap /\
  (pr_tenant r = rq_TenantID req /\ pr_tenant ap = rq_TenantID req) /\
  (RemittanceBatch_Validate batch = Ok tt /\ SettlementInstruction_Validate i = Ok tt /\ si_State i = SettlementInstructionInstructed /\
   rb_TenantID batch = rq_TenantID req /\ si_TenantID i = rq_TenantID req /\ si_PayrollRunRef i = rb_PayrollRunRef batch /\
   si_PayeeRef i = rb_PayeeRef batch /\ si_DestinationRef i = rb_DestinationRef batch /\ si_Currency i = rb_Currency batch /\
   Decimal_Equal (si_Amount i) (rb_Total batch) = true) /\
  (ra_TenantID a = rq_TenantID req /\ ra_BatchDigest a = rb_CanonicalDigest batch /\ ra_InstructionDigest a = si_CanonicalDigest i /\
   ra_StepUpProofDigest a = su_Digest p /\ ra_PayrollRunRef a = rb_PayrollRunRef batch /\ ra_PayeeRef a = rb_PayeeRef batch /\
   ra_DestinationRef a = rb_DestinationRef batch /\ ra_Total a = rb_Total batch /\ ra_Currency a = rb_Currency batch /\
   ra_Requester a = pr_subject r /\ ra_Approver a = pr_subject ap /\ ra_RequesterFingerprint a = pr_fingerprint r /\
   ra_ApproverFingerprint a = pr_fingerprint ap /\ RemittanceAuthorization_computedDigest a = Ok (ra_CanonicalDigest a)) /\
  (StepUpProof_computedDigest p = Ok (su_Digest p) /\ su_TenantID p = rq_TenantID req /\
   su_Subject p = pr_subject r /\ su_BatchDigest p = rb_CanonicalDigest batch /\ su_InstructionDigest p = si_CanonicalDigest i /\
   AssuranceHigh <= su_Assurance p /\ time_Before (rq_At req) (su_IssuedAt p) = false /\ time_Before (rq_At req) (su_ExpiresAt p) = true) /\
  (is_blank (pr_subject ap) = false -> is_blank (pr_fingerprint r) = false -> is_blank (pr_fingerprint ap) = false ->
     RemittanceAuthorization_ValidateFor a batch i =
       if String.eqb (pr_subject r) (pr_subject ap) then Err [ErrAuthorizationInvalid; ErrDualControlRequired] else Ok tt) /\
  (forall batch' i', RemittanceAuthorization_ValidateFor a batch' i' = Ok tt ->
     rb_CanonicalDigest batch' = rb_CanonicalDigest batch /\ si_CanonicalDigest i' = si_CanonicalDigest i /\
     si_DestinationRef i' = rb_DestinationRef batch /\ si_PayeeRef i' = rb_PayeeRef batch /\ si_PayrollRunRef i' = rb_PayrollRunRef batch /\
     si_Currency i' = rb_Currency batch /\ Decimal_Equal (si_Amount i') (rb_Total batch) = true /\ pr_subject r <> pr_subject ap).
Proof.
  intros i p. destruct (Authorize_inv _ _ _ H) as (r & ap & Hr & Hap & Hb & Hi & (Ht & Htb & Hti & Htr & Hta & Hf) & Hstate & (E1 & E2 & E3 & E4 & E5) & Hp & Ha & Hd).
  exists r, ap. destruct (batch_checked batch Hb) as (B1 & B2 & B3 & B4 & B5 & BW & BD). pose proof (instruction_checked _ Hi) as ID.
  pose proof Hp as Hp'. unfold StepUpProof_Validate, StepUpProof_validateShape in Hp'.
  rewrite !bind_unit_ok, !fail_if_ok_iff, check_digest_ok, !orb_false_iff, !negb_false_iff, !String.eqb_eq in Hp'.
  destruct Hp' as ((((((((_ & Hsub) & _) & _) & _) & _) & _) & Hhigh) & (Hsd & _) & (((P1 & P2) & P3) & P4) & ((_ & P5) & P6)).
  split; [done|]. split; [done|]. split; [done|]. split; [done|]. split; [by split_and!|]. split; [|split; [|split]].
  - rewrite Ha at 1 2 3 4 5 6 7 8 9 10 11 12 13. by split_and!.
  - split_and!; try done. unfold Assurance_AtLeast, AssuranceHigh in *. destruct (_ || _); [done|]. by apply Z.leb_le.
  - intros Hs2 Hf1 Hf2. unfold RemittanceAuthorization_ValidateFor. rewrite Authorization_valid; [|done|..].
    2:{ rewrite Ha. cbn. repeat (constructor; [first [done|by rewrite <- ?P2|by eapply stored_digest_not_blank]|]). constructor. }
    2:{ by rewrite Ha. }
    rewrite Ha. cbn [ra_Requester ra_Approver ra_TenantID ra_BatchDigest ra_InstructionDigest ra_PayrollRunRef ra_PayeeRef ra_DestinationRef ra_Total ra_Currency].
    destruct (String.eqb (pr_subject r) (pr_subject ap)); [done|]. cbn [mbind outcome_bind]. subst i. rewrite Hb, Hi. cbn [map_err mbind outcome_bind].
    rewrite Htb, Hti, E1, E2, E3, E4, E5, !String.eqb_refl. done.
  - intros batch' i' Hv. unfold RemittanceAuthorization_ValidateFor in Hv. rewrite !bind_unit_ok, !fail_if_ok_iff, !orb_false_iff, !negb_false_iff, !String.eqb_eq in Hv.
    destruct Hv as (Hv & _ & _ & _ & V1 & V2 & V3 & V4 & ((V5 & V6) & V7)). rewrite Ha in V1, V2, V3, V4, V5, V6, V7.
    split_and!; try done. unfold RemittanceAuthorization_Validate in Hv. rewrite !bind_unit_ok, !fail_if_ok_iff, String.eqb_neq in Hv.
    destruct Hv as (_ & Hv & _). by rewrite Ha in Hv.
Qed.

End remittance_facts.

(** * A concrete remittance *)

Section sample_remittance.
#[local] Instance sample_remittance_sha : Sha256 :=
  {| sha256_Sum256 := fun bs => replicate 31 (foldr Z.add 0 bs mod 256) ++ [Z.of_nat (length bs) mod 256] |}.

Definition sample_line (id : string) (q : Z) : Withholding :=
  mkWithholding "tenant" id "order" "payee" "destination" ("line-" +:+ id) (cents q) "USD".
Definition sample_spec : RemittanceSpec :=
  mkSpec "batch" "run" "sha256:payroll" (cents 300) "USD" [sample_line "b" 200; sample_line "a" 100].
Definition sample_batch : RemittanceBatch :=
  match NewRemittance sample_spec with Ok b => b | _ => mkBatch "" "" "" "" (cents 0) (cents 0) "" "" "" [] 0 "" end.
Definition sample_instruction : SettlementInstruction :=
  match NewSettlementInstruction "tenant" "instruction" "run" "payee" "destination" (cents 300) "USD" with
  | Ok i => i | _ => mkInstruction "" "" "" "" "" (cents 0) "" "" "" end.
Definition sample_proof : StepUpProof :=
  match NewStepUpProof "tenant" AssuranceHigh "alice" (rb_CanonicalDigest sample_batch) (si_CanonicalDigest sample_instruction) new_year summer with
  | Ok p => p | _ => mkProof "" 0 "" "" "" time_zero time_zero "" end.
Definition sample_request (approver : string) : AuthorizationRequest :=
  mkRequest "tenant" sample_instruction (Some (mkPrincipal "tenant" "alice" "f1")) (Some (mkPrincipal "tenant" approver "f2"))
    sample_proof "ref" spring.

Lemma remittance_exact_witness : exists b, NewRemittance sample_spec = Ok b /\ Decimal_signed (rb_Total b) = 300.
Proof.
  destruct (NewRemittance sample_spec) as [b| |] eqn:E; [|vm_compute in E; discriminate E..].
  exists b. split; [reflexivity|]. destruct (remittance_exact sample_spec) as [_ H]. destruct (H b E) as (_ & _ & _ & _ & H1 & _). exact H1.
Defined.

Lemma authorization_bound_witness :
  exists a, Authorize sample_batch (sample_request "bob") = Ok a /\
    RemittanceAuthorization_ValidateFor a sample_batch sample_instruction = Ok tt.
Proof.
  destruct (Authorize sample_batch (sample_request "bob")) as [a| |] eqn:E; [|vm_compute in E; discriminate E..].
  exists a. split; [reflexivity|].
  destruct (authorization_bound _ _ _ E) as (r & ap & Hr & Hap & _ & _ & _ & _ & _ & Hv & _).
  cbn [sample_request rq_Requester rq_Approver] in Hr, Hap. injection Hr as <-. injection Hap as <-.
  apply Hv; reflexivity.
Defined.

(** dual control compares the fingerprints of two sessions: one person
    signed in twice is requester and approver of the same remittance, and the
    authorization so given is refused at execution, for every batch and
    instruction. *)
Theorem self_approval_authorized :
  exists a, Authorize sample_batch (sample_request "alice") = Ok a /\ ra_Requester a = ra_Approver a /\
    forall batch i, RemittanceAuthorization_ValidateFor a batch i = Err [ErrAuthorizationInvalid; ErrDualControlRequired].
Proof.
  destruct (Authorize sample_batch (sample_request "alice")) as [a| |] eqn:E; [|vm_compute in E; discriminate E..].
  exists a. split; [done|]. vm_compute in E. injection E as <-. split; [done|]. intros batch i. reflexivity.
Qed.

End sample_remittance.
