(* ===== verification/BalanceEntries.v ===== *)
(** Accumulator definitions and the entries of balances:
    [internal/domains/balance/definition.go] and [entries.go].

    [EntryStore] is the append-only store of postings; its lock makes [Post]
    one step, so that a store passes through the states of a sequence of
    posts.  The clock is the argument [now] of a post.  A nil store, which
    refuses everything, is left out; maps and slices are values, so that the
    copies the code takes at its boundary are the identity here. *)

From S2P Require Import Prelude GoStrings Sorting CanonicalBytes FixedDecimal DecimalAmounts CivilTime.

Local Open Scope Z_scope.

(** * Vocabulary *)

Definition PeriodKind : Type := string.
Definition PeriodPayPeriod : PeriodKind := "PAY_PERIOD".
Definition PeriodCalendarYear : PeriodKind := "CALENDAR_YEAR".
Definition PeriodFiscalYear : PeriodKind := "FISCAL_YEAR".
Definition PeriodLifetime : PeriodKind := "LIFETIME".
(** The cases of the switch over a period. *)
Definition period_declared (p : PeriodKind) : bool :=
  String.eqb p PeriodPayPeriod || String.eqb p PeriodCalendarYear || String.eqb p PeriodFiscalYear || String.eqb p PeriodLifetime.

Definition RuleKind : Type := string.
Definition RuleNone : RuleKind := "NONE".
Definition RuleConfigured : RuleKind := "CONFIGURED".

Definition EntryKind : Type := string.
Definition Debit : EntryKind := "DEBIT".
Definition Credit : EntryKind := "CREDIT".

Definition BalanceRuleKind : Type := string.

(** The sentinels of the package; a definition error names its field, a
    refused plan its rule, a rejected explanation its field and state.
    [ErrCommit] are the errors of [posting.go] and [invalidation.go], which
    have no sentinel. *)
Inductive balance_err : Type :=
  | ErrDefinitionInvalid (field : string)
  | ErrPublicationRejected (field : string)
  | ErrEntryInvalid | ErrStaleHead | ErrIdempotencyConflict
  | ErrBalanceRequestInvalid | ErrRuleApplicationInvalid | ErrRuleInvalid
  | ErrPostingPlanInvalid
  | ErrPostingPlanRejected (rule version : string) (kind : BalanceRuleKind) (limit proposed : Decimal)
  | ErrInsufficientBalance | ErrTransferInvalid | ErrTransferConflict
  | ErrLifecycleInvalid | ErrPeriodInvalid | ErrCommit (what : string)
  | ErrReconciliationInvalid | ErrCorrectionInvalid | ErrCorrectionConflict
  | ErrExplanationRejected (field state version : string).

#[export] Instance balance_err_eq_dec : EqDecision balance_err.
Proof. solve_decision. Defined.

(** * Definitions *)

Record BalanceDimension : Type := mkDimension { dim_Name : string; dim_ValueType : string; dim_Required : bool }.
Record Authority : Type := mkAuthority { au_SourceID : string; au_Version : string }.
Record PolicyRule : Type := mkPolicy { po_Kind : RuleKind; po_Version : string; po_Value : string }.

Record AccumulatorDefinition : Type := mkAccumulator {
  ad_ID : string; ad_Version : string; ad_Name : string; ad_Unit : string; ad_Currency : string; ad_Subject : string;
  ad_Period : PeriodKind; ad_Dimensions : list BalanceDimension; ad_EntryTypes : list string; ad_Authority : Authority;
  ad_Floor : PolicyRule; ad_Cap : PolicyRule; ad_Expiry : PolicyRule; ad_Rollover : PolicyRule; ad_Correction : PolicyRule
}.

Record Publication : Type := mkPublication { pb_Definition : AccumulatorDefinition }.

Definition invalid (field : string) : balance_err := ErrDefinitionInvalid field.

Definition validateRule (field : string) (rule : PolicyRule) : outcome balance_err unit :=
  _ ← fail_if (negb (String.eqb (po_Kind rule) RuleNone) && negb (String.eqb (po_Kind rule) RuleConfigured)) (invalid (field +:+ ".kind"));
  _ ← fail_if (is_blank (po_Version rule)) (invalid (field +:+ ".version"));
  _ ← fail_if (String.eqb (po_Kind rule) RuleConfigured && is_blank (po_Value rule)) (invalid (field +:+ ".value"));
  fail_if (String.eqb (po_Kind rule) RuleNone && negb (is_blank (po_Value rule))) (invalid (field +:+ ".value")).

(** The first field of a table that is blank. *)
Fixpoint required_fields (fields : list (string * string)) : outcome balance_err unit :=
  match fields with
  | [] => Ok tt
  | (field, value) :: rest => _ ← fail_if (is_blank value) (invalid field); required_fields rest
  end.

Fixpoint policies_valid (rules : list (string * PolicyRule)) : outcome balance_err unit :=
  match rules with
  | [] => Ok tt
  | (field, rule) :: rest => _ ← validateRule field rule; policies_valid rest
  end.

(** The index in a field name: [fmt.Sprintf("name[%d]", i)]. *)
Definition indexed (name : string) (i : Z) : string := name +:+ "[" +:+ itoa i +:+ "]".

Section definition.
Context `{CM : CaseMapping}.

Definition dimension_key (d : BalanceDimension) : string := strings_ToLower (strings_TrimSpace (dim_Name d)).
Definition entry_type_key (t : string) : string := strings_ToUpper (strings_TrimSpace t).

Fixpoint dimensions_valid (i : Z) (seen : gset string) (ds : list BalanceDimension) : outcome balance_err unit :=
  match ds with
  | [] => Ok tt
  | d :: rest =>
      let prefix := indexed "dimensions" i in
      _ ← fail_if (is_blank (dim_Name d)) (invalid (prefix +:+ ".name"));
      _ ← fail_if (is_blank (dim_ValueType d)) (invalid (prefix +:+ ".value_type"));
      _ ← fail_if (bool_decide (dimension_key d ∈ seen)) (invalid (prefix +:+ ".name"));
      dimensions_valid (i + 1) ({[dimension_key d]} ∪ seen) rest
  end.

Fixpoint entry_types_valid (i : Z) (seen : gset string) (ts : list string) : outcome balance_err unit :=
  match ts with
  | [] => Ok tt
  | t :: rest =>
      _ ← fail_if (is_blank t) (invalid (indexed "entry_types" i));
      _ ← fail_if (bool_decide (entry_type_key t ∈ seen)) (invalid (indexed "entry_types" i));
      entry_types_valid (i + 1) ({[entry_type_key t]} ∪ seen) rest
  end.

Definition AccumulatorDefinition_Validate (d : AccumulatorDefinition) : outcome balance_err unit :=
  _ ← required_fields [("id", ad_ID d); ("version", ad_Version d); ("name", ad_Name d); ("unit", ad_Unit d);
                       ("currency", ad_Currency d); ("subject", ad_Subject d)]%string;
  _ ← fail_if (negb (period_declared (ad_Period d))) (invalid "period");
  _ ← fail_if (length (ad_Dimensions d) =? 0)%nat (invalid "dimensions");
  _ ← dimensions_valid 0 ∅ (ad_Dimensions d);
  _ ← fail_if (length (ad_EntryTypes d) =? 0)%nat (invalid "entry_types");
  _ ← entry_types_valid 0 ∅ (ad_EntryTypes d);
  _ ← fail_if (is_blank (au_SourceID (ad_Authority d))) (invalid "authority.source_id");
  _ ← fail_if (is_blank (au_Version (ad_Authority d))) (invalid "authority.version");
  policies_valid [("floor", ad_Floor d); ("cap", ad_Cap d); ("expiry", ad_Expiry d); ("rollover", ad_Rollover d);
                  ("correction", ad_Correction d)]%string.

Definition Publish (d : AccumulatorDefinition) : outcome balance_err Publication :=
  match AccumulatorDefinition_Validate d with
  | Ok _ => Ok (mkPublication d)
  | Err (ErrDefinitionInvalid field) => Err (ErrPublicationRejected field)
  | Err e => Err e
  | Panic => Panic
  end.

End definition.

(** * Entries *)

Record BalanceEntry : Type := mkEntry {
  e_AccountID : string; e_DefinitionID : string; e_DefinitionVersion : string; e_Unit : string; e_Currency : string;
  e_Subject : string; e_Period : string; e_Dimensions : gmap string string; e_Kind : EntryKind; e_Amount : Decimal;
  e_EntryType : string; e_SourceTransactionID : string; e_IdempotencyKey : string; e_EffectiveAt : Instant;
  e_RecordedAt : Instant; e_AuthorizedAt : Instant; e_SupersedesDigest : string
}.

Record PostRequest : Type := mkPostRequest { pq_Entry : BalanceEntry; pq_ExpectedHead : Z }.
Record PostReceipt : Type := mkPostReceipt { pr_Entry : BalanceEntry; pr_Head : Z; pr_Digest : string; pr_Replay : bool }.

(** [entry.RecordedAt = t] and [old.Replay = true]. *)
Definition with_RecordedAt (t : Instant) (e : BalanceEntry) : BalanceEntry :=
  mkEntry (e_AccountID e) (e_DefinitionID e) (e_DefinitionVersion e) (e_Unit e) (e_Currency e) (e_Subject e) (e_Period e)
    (e_Dimensions e) (e_Kind e) (e_Amount e) (e_EntryType e) (e_SourceTransactionID e) (e_IdempotencyKey e)
    (e_EffectiveAt e) t (e_AuthorizedAt e) (e_SupersedesDigest e).
Definition replayed (r : PostReceipt) : PostReceipt := mkPostReceipt (pr_Entry r) (pr_Head r) (pr_Digest r) true.

Section entries.
Context `{CF : CaseFolding} `{SHA : Sha256}.

Definition contains (xs : list string) (value : string) : bool :=
  existsb (fun x => strings_EqualFold (strings_TrimSpace x) (strings_TrimSpace value)) xs.

(** The loop over the definition's dimensions. *)
Definition dimension_missing (e : BalanceEntry) (d : BalanceDimension) : bool :=
  match e_Dimensions e !! dim_Name d with
  | None => true
  | Some v => dim_Required d && is_blank v
  end.

Definition BalanceEntry_Validate (e : BalanceEntry) (def : AccumulatorDefinition) : outcome balance_err unit :=
  _ ← fail_if (is_blank (e_AccountID e) || is_blank (e_DefinitionID e) || is_blank (e_DefinitionVersion e)) ErrEntryInvalid;
  _ ← fail_if (negb (String.eqb (e_DefinitionID e) (ad_ID def)) || negb (String.eqb (e_DefinitionVersion e) (ad_Version def))) ErrEntryInvalid;
  _ ← fail_if (negb (String.eqb (e_Unit e) (ad_Unit def)) || negb (String.eqb (e_Currency e) (ad_Currency def))) ErrEntryInvalid;
  _ ← fail_if (negb (String.eqb (e_Subject e) (ad_Subject def)) || negb (String.eqb (e_Period e) (ad_Period def))) ErrEntryInvalid;
  _ ← fail_if (negb (String.eqb (e_Kind e) Debit) && negb (String.eqb (e_Kind e) Credit)) ErrEntryInvalid;
  _ ← fail_if (is_blank (e_EntryType e) || negb (contains (ad_EntryTypes def) (e_EntryType e))) ErrEntryInvalid;
  _ ← fail_if (is_blank (e_SourceTransactionID e) || is_blank (e_IdempotencyKey e)) ErrEntryInvalid;
  _ ← or_reject (Decimal_Validate (e_Amount e)) ErrEntryInvalid;
  _ ← fail_if ((Decimal_Sign (e_Amount e) <? 0) || Decimal_IsZero (e_Amount e)) ErrEntryInvalid;
  _ ← fail_if (negb (size (e_Dimensions e) =? length (ad_Dimensions def))%nat) ErrEntryInvalid;
  fail_if (existsb (dimension_missing e) (ad_Dimensions def)) ErrEntryInvalid.

Definition dimension_ops (e : BalanceEntry) : list op :=
  (fun k => WString ("dimension." +:+ k) (default EmptyString (e_Dimensions e !! k)))
    <$> sort_Strings (elements (dom (e_Dimensions e))).
Definition instant_op (tag : string) (t : Instant) : list op :=
  if i_set t then [WValue tag (Instant_Canonical t)] else [].

Definition entry_ops (e : BalanceEntry) : list op :=
  [ WString "account_id" (e_AccountID e); WString "definition_id" (e_DefinitionID e);
    WString "definition_version" (e_DefinitionVersion e); WString "unit" (e_Unit e); WString "currency" (e_Currency e);
    WString "subject" (e_Subject e); WString "period" (e_Period e); WString "kind" (e_Kind e);
    WValue "amount" (Decimal_Canonical (e_Amount e)); WString "entry_type" (e_EntryType e);
    WString "source_transaction_id" (e_SourceTransactionID e); WString "idempotency_key" (e_IdempotencyKey e) ]%string ++
  dimension_ops e ++ instant_op "effective_at" (e_EffectiveAt e) ++ instant_op "authorized_at" (e_AuthorizedAt e) ++
  (if String.eqb (e_SupersedesDigest e) "" then [] else [WString "supersedes_digest" (e_SupersedesDigest e)]).

Definition BalanceEntry_Canonical (e : BalanceEntry) : option (list Z) :=
  match Writer_Bytes (ops_run (entry_ops e) (New "hcmnext.domains.balance.BalanceEntry" 1)) with Ok raw => Some raw | _ => None end.

Definition BalanceEntry_Digest (e : BalanceEntry) : string :=
  match BalanceEntry_Canonical e with None => EmptyString | Some raw => Digest raw end.

(** * The store *)

Record EntryStore : Type := mkStore { es_entries : gmap string (list PostReceipt); es_byKey : gmap string PostReceipt }.
Definition NewEntryStore : EntryStore := mkStore ∅ ∅.

Definition nul : string := String (char_of 0) EmptyString.
Definition idempotency_key (e : BalanceEntry) : string := e_AccountID e +:+ nul +:+ e_IdempotencyKey e.

(** [s.entries[account]]: nil when absent. *)
Definition stream (s : EntryStore) (account : string) : list PostReceipt := default [] (es_entries s !! account).

Definition EntryStore_Entries (s : EntryStore) (account : string) : list BalanceEntry := pr_Entry <$> stream s account.
Definition EntryStore_Head (s : EntryStore) (account : string) : Z := Z.of_nat (length (stream s account)).

(** The part of [Post] under the lock. *)
Definition post_locked (s : EntryStore) (now : GoTime) (req : PostRequest) : outcome balance_err PostReceipt * EntryStore :=
  let e := pq_Entry req in
  let d := BalanceEntry_Digest e in
  let key := idempotency_key e in
  match es_byKey s !! key with
  | Some old => if negb (String.eqb (pr_Digest old) d) then (Err ErrIdempotencyConflict, s) else (Ok (replayed old), s)
  | None =>
      let head := EntryStore_Head s (e_AccountID e) in
      if negb (pq_ExpectedHead req =? head) then (Err ErrStaleHead, s)
      else
        let r := mkPostReceipt (with_RecordedAt (NewInstant now) e) (head + 1) d false in
        (Ok r, mkStore (<[e_AccountID e := stream s (e_AccountID e) ++ [r]]> (es_entries s)) (<[key := r]> (es_byKey s)))
  end.

Definition EntryStore_Post (s : EntryStore) (now : GoTime) (req : PostRequest) (def : AccumulatorDefinition)
    : outcome balance_err PostReceipt * EntryStore :=
  match BalanceEntry_Validate (pq_Entry req) def with
  | Err e => (Err e, s)
  | Panic => (Panic, s)
  | Ok _ => if pq_ExpectedHead req <? 0 then (Err ErrEntryInvalid, s) else post_locked s now req
  end.

End entries.

(** * Definitions: what validation accepts *)

Lemma required_fields_ok fs : required_fields fs = Ok tt <-> Forall (fun f => is_blank f.2 = false) fs.
Proof.
  induction fs as [|[f v] fs IH]; cbn; [by split|].
  by rewrite bind_unit_ok, fail_if_ok_iff, Forall_cons, IH.
Qed.

Definition policy_complete (r : PolicyRule) : Prop :=
  is_blank (po_Version r) = false /\
  (po_Kind r = RuleNone /\ is_blank (po_Value r) = true \/ po_Kind r = RuleConfigured /\ is_blank (po_Value r) = false).

Lemma validateRule_ok field r : validateRule field r = Ok tt <-> policy_complete r.
Proof.
  unfold validateRule, policy_complete. rewrite !bind_unit_ok, !fail_if_ok_iff, !andb_false_iff, !negb_false_iff, !String.eqb_eq, !String.eqb_neq.
  assert (Hne : RuleNone <> RuleConfigured) by done. revert Hne. generalize RuleNone RuleConfigured. intros none conf Hne.
  destruct (decide (po_Kind r = none)) as [->|Hn]; [|destruct (decide (po_Kind r = conf)) as [->|Hc]];
    destruct (is_blank (po_Value r)); naive_solver.
Qed.

Lemma policies_valid_ok rs : policies_valid rs = Ok tt <-> Forall (fun f => policy_complete f.2) rs.
Proof.
  induction rs as [|[f v] rs IH]; cbn; [by split|].
  by rewrite bind_unit_ok, validateRule_ok, Forall_cons, IH.
Qed.

Section definition_facts.
Context `{CM : CaseMapping}.

Lemma dimensions_valid_ok i seen ds : dimensions_valid i seen ds = Ok tt <->
  Forall (fun d => is_blank (dim_Name d) = false /\ is_blank (dim_ValueType d) = false) ds /\
  NoDup (dimension_key <$> ds) /\ Forall (fun d => dimension_key d ∉ seen) ds.
Proof.
  revert i seen. induction ds as [|d ds IH]; intros i seen; cbn [dimensions_valid fmap list_fmap].
  { split; [|done]. by rewrite NoDup_nil. }
  rewrite !bind_unit_ok, !fail_if_ok_iff, bool_decide_eq_false, IH, (fresh_keys dimension_key), NoDup_cons, !Forall_cons. tauto.
Qed.

Lemma entry_types_valid_ok i seen ts : entry_types_valid i seen ts = Ok tt <->
  Forall (fun t => is_blank t = false) ts /\ NoDup (entry_type_key <$> ts) /\ Forall (fun t => entry_type_key t ∉ seen) ts.
Proof.
  revert i seen. induction ts as [|t ts IH]; intros i seen; cbn [entry_types_valid fmap list_fmap].
  { split; [|done]. by rewrite NoDup_nil. }
  rewrite !bind_unit_ok, !fail_if_ok_iff, bool_decide_eq_false, IH, (fresh_keys entry_type_key), NoDup_cons, !Forall_cons. tauto.
Qed.

(** A definition that can be published. *)
Definition complete (d : AccumulatorDefinition) : Prop :=
  Forall (fun v => is_blank v = false)
    [ad_ID d; ad_Version d; ad_Name d; ad_Unit d; ad_Currency d; ad_Subject d; au_SourceID (ad_Authority d); au_Version (ad_Authority d)] /\
  ad_Period d ∈ [PeriodPayPeriod; PeriodCalendarYear; PeriodFiscalYear; PeriodLifetime] /\
  (ad_Dimensions d <> [] /\ Forall (fun x => is_blank (dim_Name x) = false /\ is_blank (dim_ValueType x) = false) (ad_Dimensions d) /\
   NoDup (dimension_key <$> ad_Dimensions d)) /\
  (ad_EntryTypes d <> [] /\ Forall (fun t => is_blank t = false) (ad_EntryTypes d) /\ NoDup (entry_type_key <$> ad_EntryTypes d)) /\
  Forall policy_complete [ad_Floor d; ad_Cap d; ad_Expiry d; ad_Rollover d; ad_Correction d].

Lemma period_declared_iff p : period_declared p = true <-> p ∈ [PeriodPayPeriod; PeriodCalendarYear; PeriodFiscalYear; PeriodLifetime].
Proof. unfold period_declared. rewrite !orb_true_iff, !String.eqb_eq, !elem_of_cons, elem_of_nil. tauto. Qed.

Lemma none_seen {A} (key : A -> string) l : Forall (fun x => key x ∉ (∅ : gset string)) l.
Proof. apply Forall_forall. set_solver. Qed.

Lemma length_zero {A} (l : list A) : (length l =? 0)%nat = false <-> l <> [].
Proof. by destruct l. Qed.

Lemma definition_valid_iff d : AccumulatorDefinition_Validate d = Ok tt <-> complete d.
Proof.
  unfold AccumulatorDefinition_Validate, complete.
  rewrite !bind_unit_ok, required_fields_ok, !fail_if_ok_iff, negb_false_iff, period_declared_iff, !length_zero,
    dimensions_valid_ok, entry_types_valid_ok, policies_valid_ok, !Forall_cons. cbn [fst snd].
  pose proof (none_seen dimension_key (ad_Dimensions d)). pose proof (none_seen entry_type_key (ad_EntryTypes d)).
  rewrite !Forall_nil. tauto.
Qed.

Lemma definition_valid_total d : AccumulatorDefinition_Validate d <> Panic.
Proof.
  unfold AccumulatorDefinition_Validate.
  assert (H1 : forall fs, required_fields fs <> Panic) by (induction fs as [|[] fs IH]; cbn [required_fields]; no_panic).
  assert (H2 : forall ds i seen, dimensions_valid i seen ds <> Panic) by (induction ds; intros; cbn [dimensions_valid]; no_panic).
  assert (H3 : forall ts i seen, entry_types_valid i seen ts <> Panic) by (induction ts; intros; cbn [entry_types_valid]; no_panic).
  assert (H4 : forall rs, policies_valid rs <> Panic).
  { induction rs as [|[] rs IH]; cbn [policies_valid]; unfold validateRule; no_panic. }
  no_panic.
Qed.

End definition_facts.

(** * Entries: what validation accepts *)

Section entry_facts.
Context `{CF : CaseFolding} `{SHA : Sha256}.

(** An entry that fits a definition. *)
Definition fits (e : BalanceEntry) (def : AccumulatorDefinition) : Prop :=
  Forall (fun v => is_blank v = false)
    [e_AccountID e; e_DefinitionID e; e_DefinitionVersion e; e_EntryType e; e_SourceTransactionID e; e_IdempotencyKey e] /\
  (e_DefinitionID e = ad_ID def /\ e_DefinitionVersion e = ad_Version def /\ e_Unit e = ad_Unit def /\
   e_Currency e = ad_Currency def /\ e_Subject e = ad_Subject def /\ e_Period e = ad_Period def) /\
  (e_Kind e = Debit \/ e_Kind e = Credit) /\ contains (ad_EntryTypes def) (e_EntryType e) = true /\
  (dec_wf (e_Amount e) /\ 0 < Decimal_signed (e_Amount e)) /\
  size (e_Dimensions e) = length (ad_Dimensions def) /\
  Forall (fun d => exists v, e_Dimensions e !! dim_Name d = Some v /\ (dim_Required d = true -> is_blank v = false)) (ad_Dimensions def).

Lemma dimension_missing_false e d : dimension_missing e d = false <->
  exists v, e_Dimensions e !! dim_Name d = Some v /\ (dim_Required d = true -> is_blank v = false).
Proof.
  unfold dimension_missing. destruct (e_Dimensions e !! dim_Name d) as [v|].
  - rewrite andb_false_iff. split.
    + intros H. exists v. split; [done|]. destruct (dim_Required d); naive_solver.
    + intros (w & [= <-] & H). destruct (dim_Required d); [right; by apply H|by left].
  - by split; [|intros (v & ? & _)].
Qed.

Lemma amount_positive d : is_ok (Decimal_Validate d) = true -> (Decimal_Sign d <? 0) || Decimal_IsZero d = false <-> 0 < Decimal_signed d.
Proof. rewrite Validate_amount. intros H. unfold Decimal_IsZero. rewrite (Sign_amount d H). lia. Qed.

Lemma validate_reject_ok d (e : balance_err) : or_reject (Decimal_Validate d) e = Ok tt <-> dec_wf d.
Proof. rewrite or_reject_ok. apply Decimal_Validate_ok. Qed.

Lemma entry_valid_iff e def : BalanceEntry_Validate e def = Ok tt <-> fits e def.
Proof.
  unfold BalanceEntry_Validate, fits.
  rewrite !bind_unit_ok, validate_reject_ok, !fail_if_ok_iff, !orb_false_iff, andb_false_iff, !negb_false_iff, !String.eqb_eq, Nat.eqb_eq, existsb_false, !Forall_cons.
  assert (Hd : Forall (fun x => dimension_missing e x = false) (ad_Dimensions def) <->
    Forall (fun d => exists v, e_Dimensions e !! dim_Name d = Some v /\ (dim_Required d = true -> is_blank v = false)) (ad_Dimensions def)).
  { apply Forall_iff. intros d. apply dimension_missing_false. }
  rewrite Hd. rewrite Forall_nil. unfold Decimal_IsZero. split.
  - intros H. destruct_and!. rewrite Sign_amount in * by done. split_and!; try done; lia.
  - intros H. destruct_and!. rewrite Sign_amount in * by done. split_and!; try done; lia.
Qed.

Lemma entry_valid_total e def : BalanceEntry_Validate e def <> Panic.
Proof. unfold BalanceEntry_Validate. no_panic. Qed.

(** The recording time is no part of an entry's content. *)
Lemma with_RecordedAt_fits t e def : fits (with_RecordedAt t e) def <-> fits e def.
Proof. done. Qed.
Lemma with_RecordedAt_digest t e : BalanceEntry_Digest (with_RecordedAt t e) = BalanceEntry_Digest e.
Proof. done. Qed.

End entry_facts.

(** * The store through a sequence of posts *)

Section store_facts.
Context `{CF : CaseFolding} `{SHA : Sha256}.

(** A receipt at position [i] of the stream of an account. *)
Definition receipt_ok (s : EntryStore) (account : string) (i : nat) (r : PostReceipt) : Prop :=
  pr_Head r = Z.of_nat i + 1 /\ e_AccountID (pr_Entry r) = account /\ pr_Digest r = BalanceEntry_Digest (pr_Entry r) /\
  pr_Replay r = false /\ i_set (e_RecordedAt (pr_Entry r)) = true /\ (exists def, fits (pr_Entry r) def) /\
  es_byKey s !! idempotency_key (pr_Entry r) = Some r.

(** The streams are numbered from one and indexed by key, each key once. *)
Definition store_ok (s : EntryStore) : Prop :=
  (forall account i r, stream s account !! i = Some r -> receipt_ok s account i r) /\
  (forall k r, es_byKey s !! k = Some r ->
     k = idempotency_key (pr_Entry r) /\ exists i, stream s (e_AccountID (pr_Entry r)) !! i = Some r).

(** Any post of anybody, and the states a store passes through. *)
Inductive store_step : EntryStore -> EntryStore -> Prop :=
  | store_post s now req def : store_step s (snd (EntryStore_Post s now req def)).
Definition store_reached (s : EntryStore) : Prop := rtc store_step NewEntryStore s.

Definition appended (s : EntryStore) (now : GoTime) (req : PostRequest) : PostReceipt :=
  mkPostReceipt (with_RecordedAt (NewInstant now) (pq_Entry req)) (EntryStore_Head s (e_AccountID (pq_Entry req)) + 1)
    (BalanceEntry_Digest (pq_Entry req)) false.
Definition append (s : EntryStore) (r : PostReceipt) : EntryStore :=
  mkStore (<[e_AccountID (pr_Entry r) := stream s (e_AccountID (pr_Entry r)) ++ [r]]> (es_entries s))
    (<[idempotency_key (pr_Entry r) := r]> (es_byKey s)).

(** What a post does, by cases. *)
Inductive post_result (s : EntryStore) (now : GoTime) (req : PostRequest) (def : AccumulatorDefinition)
    : outcome balance_err PostReceipt * EntryStore -> Prop :=
  | post_refused err : err = ErrEntryInvalid \/ err = ErrStaleHead \/ err = ErrIdempotencyConflict ->
      ~ (fits (pq_Entry req) def /\ 0 <= pq_ExpectedHead req /\
         match es_byKey s !! idempotency_key (pq_Entry req) with
         | Some r => pr_Digest r = BalanceEntry_Digest (pq_Entry req)
         | None => pq_ExpectedHead req = EntryStore_Head s (e_AccountID (pq_Entry req))
         end) -> post_result s now req def (Err err, s)
  | post_again r : fits (pq_Entry req) def -> 0 <= pq_ExpectedHead req ->
      es_byKey s !! idempotency_key (pq_Entry req) = Some r -> pr_Digest r = BalanceEntry_Digest (pq_Entry req) ->
      post_result s now req def (Ok (replayed r), s)
  | post_new : fits (pq_Entry req) def -> 0 <= pq_ExpectedHead req ->
      es_byKey s !! idempotency_key (pq_Entry req) = None ->
      pq_ExpectedHead req = EntryStore_Head s (e_AccountID (pq_Entry req)) ->
      post_result s now req def (Ok (appended s now req), append s (appended s now req)).

Lemma validate_error e def err : BalanceEntry_Validate e def = Err err -> err = ErrEntryInvalid.
Proof.
  unfold BalanceEntry_Validate. intros H.
  repeat (apply bind_err_inv in H as [H|(? & _ & H)]; [by first [apply fail_if_err in H|apply or_reject_err in H]|]).
  by apply fail_if_err in H.
Qed.

Lemma post_spec s now req def : post_result s now req def (EntryStore_Post s now req def).
Proof.
  unfold EntryStore_Post. destruct (BalanceEntry_Validate (pq_Entry req) def) as [[]|e|] eqn:Hv.
  - apply entry_valid_iff in Hv. destruct (Z.ltb_spec (pq_ExpectedHead req) 0) as [Hn|Hn].
    { apply post_refused; [by left|]. lia. }
    unfold post_locked. destruct (es_byKey s !! _) as [old|] eqn:Hk.
    + destruct (String.eqb_spec (pr_Digest old) (BalanceEntry_Digest (pq_Entry req))) as [Hd|Hd]; cbn [negb].
      * by apply post_again.
      * apply post_refused; [by right; right|]. rewrite Hk. tauto.
    + destruct (Z.eqb_spec (pq_ExpectedHead req) (EntryStore_Head s (e_AccountID (pq_Entry req)))) as [Hh|Hh]; cbn [negb].
      * by apply post_new.
      * apply post_refused; [by right; left|]. rewrite Hk. tauto.
  - apply post_refused; [left; by eapply validate_error|]. rewrite <- entry_valid_iff. intros [H _]. congruence.
  - by destruct (entry_valid_total (pq_Entry req) def).
Qed.

Lemma stream_append s r a : stream (append s r) a = stream s a ++ (if decide (a = e_AccountID (pr_Entry r)) then [r] else []).
Proof.
  unfold append, stream at 1; cbn [es_entries]. destruct (decide (a = _)) as [->|Hn].
  - by rewrite lookup_insert_eq.
  - by rewrite lookup_insert_ne, app_nil_r by done.
Qed.

Lemma byKey_append s r k : es_byKey (append s r) !! k = if decide (k = idempotency_key (pr_Entry r)) then Some r else es_byKey s !! k.
Proof.
  unfold append; cbn [es_byKey]. destruct (decide _) as [->|Hn]; [by rewrite lookup_insert_eq|by rewrite lookup_insert_ne].
Qed.

Lemma ledger_append_ok s r : store_ok s -> es_byKey s !! idempotency_key (pr_Entry r) = None ->
  pr_Head r = EntryStore_Head s (e_AccountID (pr_Entry r)) + 1 -> pr_Digest r = BalanceEntry_Digest (pr_Entry r) ->
  pr_Replay r = false -> i_set (e_RecordedAt (pr_Entry r)) = true -> (exists def, fits (pr_Entry r) def) -> store_ok (append s r).
Proof.
  intros [Hs Hk] Hnew Hh Hd Hr Hi Hf. split.
  - intros a i x. rewrite stream_append. intros [Hx|[Hle Hx]]%lookup_app_Some.
    + destruct (Hs a i x Hx) as (H1 & H2 & H3 & H4 & H5 & H6 & H7). split_and!; try done.
      rewrite byKey_append. destruct (decide _) as [E|_]; [congruence|done].
    + destruct (decide (a = _)) as [->|]; [|done]. apply list_lookup_singleton_Some in Hx as [Hi0 <-].
      split_and!; try done; [|by rewrite byKey_append, decide_True].
      rewrite Hh. unfold EntryStore_Head. lia.
  - intros k x. rewrite byKey_append. destruct (decide _) as [->|Hn].
    + intros [= <-]. split; [done|]. exists (length (stream s (e_AccountID (pr_Entry r)))).
      rewrite stream_append, decide_True by done. by apply list_lookup_middle.
    + intros Hx. destruct (Hk k x Hx) as [-> [i Hi0]]. split; [done|]. exists i. rewrite stream_append. by apply lookup_app_l_Some.
Qed.

Lemma post_ok s now req def : store_ok s -> store_ok (snd (EntryStore_Post s now req def)).
Proof.
  intros Hs. destruct (post_spec s now req def) as [| |Hf H0 Hk Hh]; [done..|].
  apply ledger_append_ok; try done. by exists def.
Qed.

Lemma store_reached_ok s : store_reached s -> store_ok s.
Proof.
  apply (rtc_ind_r (fun s => store_ok s)).
  - split; [intros a i r H|done]. unfold stream in H; cbn in H. by rewrite lookup_empty in H.
  - intros x y _ [? now req def] Hx. by apply post_ok.
Qed.

(** What is posted stays: keys keep their receipts, streams only grow. *)
Definition store_extends (s t : EntryStore) : Prop :=
  (forall k r, es_byKey s !! k = Some r -> es_byKey t !! k = Some r) /\ (forall a, stream s a `prefix_of` stream t a).

#[export] Instance store_extends_preorder : PreOrder store_extends.
Proof.
  split; [by split|]. intros s t u [H1 H2] [H3 H4]. split; [auto|]. intros a. by trans (stream t a).
Qed.

Lemma append_extends s r : es_byKey s !! idempotency_key (pr_Entry r) = None -> store_extends s (append s r).
Proof.
  intros Hn. split.
  - intros k x Hx. rewrite byKey_append. destruct (decide _) as [->|]; [congruence|done].
  - intros a. rewrite stream_append. apply prefix_app_r. done.
Qed.

Lemma post_extends s now req def : store_extends s (snd (EntryStore_Post s now req def)).
Proof. destruct (post_spec s now req def); [done..|]. by apply append_extends. Qed.

Lemma steps_extend s t : rtc store_step s t -> store_extends s t.
Proof.
  induction 1 as [|s t u [? now req def] _ IH]; [done|]. etrans; [apply post_extends|done].
Qed.

Lemma head_mono s t a : store_extends s t -> EntryStore_Head s a <= EntryStore_Head t a.
Proof. intros [_ H]. specialize (H a). apply prefix_length in H. unfold EntryStore_Head. lia. Qed.

(** An accepted post leaves its key with its digest. *)
Lemma accepted_key s now req def r : fst (EntryStore_Post s now req def) = Ok r ->
  exists r0, es_byKey (snd (EntryStore_Post s now req def)) !! idempotency_key (pq_Entry req) = Some r0 /\
    pr_Digest r0 = BalanceEntry_Digest (pq_Entry req) /\ replayed r0 = replayed r.
Proof.
  destruct (post_spec s now req def) as [|r0 Hf H0 Hk Hd|Hf H0 Hk Hh]; cbn [fst snd]; [done|..]; intros [= <-].
  - by exists r0.
  - exists (appended s now req). rewrite byKey_append, decide_True by done. done.
Qed.

Lemma post_known s now req def r : es_byKey s !! idempotency_key (pq_Entry req) = Some r ->
  pr_Digest r = BalanceEntry_Digest (pq_Entry req) -> fits (pq_Entry req) def -> 0 <= pq_ExpectedHead req ->
  EntryStore_Post s now req def = (Ok (replayed r), s).
Proof.
  intros Hk Hd Hf H0. unfold EntryStore_Post. rewrite (proj2 (entry_valid_iff _ _) Hf).
  rewrite (proj2 (Z.ltb_ge _ _) H0). unfold post_locked. by rewrite Hk, Hd, String.eqb_refl.
Qed.

Lemma post_stale s now req def : es_byKey s !! idempotency_key (pq_Entry req) = None ->
  pq_ExpectedHead req <> EntryStore_Head s (e_AccountID (pq_Entry req)) -> fits (pq_Entry req) def -> 0 <= pq_ExpectedHead req ->
  EntryStore_Post s now req def = (Err ErrStaleHead, s).
Proof.
  intros Hk Hd Hf H0. unfold EntryStore_Post. rewrite (proj2 (entry_valid_iff _ _) Hf).
  rewrite (proj2 (Z.ltb_ge _ _) H0). unfold post_locked. rewrite Hk. by rewrite (proj2 (Z.eqb_neq _ _) Hd).
Qed.


End store_facts.

(** * The bytes of an entry *)

Section bytes.
Context `{SHA : Sha256}.

(** Strings of machine lengths, a valid amount, and instants that are valid
    or unset. *)
Definition instant_plain (t : Instant) : Prop := t = Instant_zero_value \/ instant_ok t.
Definition short (s : string) : Prop := len s < 2 ^ 61.
Definition entry_plain (e : BalanceEntry) : Prop :=
  Forall short
    [e_AccountID e; e_DefinitionID e; e_DefinitionVersion e; e_Unit e; e_Currency e; e_Subject e; e_Period e; e_Kind e;
     e_EntryType e; e_SourceTransactionID e; e_IdempotencyKey e; e_SupersedesDigest e] /\
  (forall k v, e_Dimensions e !! k = Some v -> short k /\ short v) /\ dec_wf (e_Amount e) /\
  instant_plain (e_EffectiveAt e) /\ instant_plain (e_AuthorizedAt e).

Definition dimension_keys (m : gmap string string) : list string := sort_Strings (elements (dom m)).

(** The fields after the first twelve. *)
Definition instant_field (tag : string) (t : Instant) : list field :=
  match Instant_Canonical t with Some c => [(tag, c)] | None => [] end.
Definition dimension_fields (m : gmap string string) : list field :=
  (fun k => ("dimension." +:+ k, str_bytes (default EmptyString (m !! k)))) <$> dimension_keys m.
Definition tail_fields (e : BalanceEntry) : list field :=
  dimension_fields (e_Dimensions e) ++ instant_field "effective_at" (e_EffectiveAt e) ++
  instant_field "authorized_at" (e_AuthorizedAt e) ++
  (if String.eqb (e_SupersedesDigest e) "" then [] else [("supersedes_digest", str_bytes (e_SupersedesDigest e))]).

Lemma ops_fields_app os ps : ops_fields (os ++ ps) = (f ← ops_fields os; g ← ops_fields ps; Some (f ++ g)).
Proof.
  induction os as [|o os IH]; cbn; [by destruct (ops_fields ps)|].
  destruct (op_fields o) as [f|]; cbn; [|done]. rewrite IH.
  destruct (ops_fields os) as [g|]; cbn; [|done]. destruct (ops_fields ps) as [h|]; cbn; [|done]. by rewrite app_assoc.
Qed.

Lemma tagged_string t v : t <> "" -> tagged t v = Some [(t, v)].
Proof. intros H. unfold tagged. by destruct (String.eqb_spec t ""). Qed.

Lemma dimension_ops_fields e : ops_fields (dimension_ops e) = Some (dimension_fields (e_Dimensions e)).
Proof.
  unfold dimension_ops, dimension_fields. fold (dimension_keys (e_Dimensions e)).
  induction (dimension_keys (e_Dimensions e)) as [|k ks IH]; [done|]. cbn [fmap list_fmap ops_fields op_fields].
  rewrite tagged_string by done. by rewrite IH.
Qed.

Lemma instant_plain_set t : instant_plain t ->
  if i_set t then exists c, Instant_Canonical t = Some c else Instant_Canonical t = None /\ t = Instant_zero_value.
Proof.
  intros [->|Ht]; [done|]. rewrite (proj1 Ht). unfold Instant_Canonical. rewrite (proj2 (Instant_is_ok t (proj1 (proj2 Ht))) Ht). eauto.
Qed.

Lemma instant_op_fields tag t : tag <> "" -> instant_plain t -> ops_fields (instant_op tag t) = Some (instant_field tag t).
Proof.
  intros Ht Hp. apply instant_plain_set in Hp. unfold instant_op, instant_field. destruct (i_set t).
  - destruct Hp as [c ->]. cbn. by rewrite tagged_string.
  - by destruct Hp as [-> _].
Qed.

Lemma entry_tail_fields e : entry_plain e -> exists head,
  ops_fields (entry_ops e) = Some (head ++ tail_fields e) /\
  exists c, Decimal_Canonical (e_Amount e) = Some c /\
  head = [("account_id", str_bytes (e_AccountID e)); ("definition_id", str_bytes (e_DefinitionID e));
          ("definition_version", str_bytes (e_DefinitionVersion e)); ("unit", str_bytes (e_Unit e));
          ("currency", str_bytes (e_Currency e)); ("subject", str_bytes (e_Subject e)); ("period", str_bytes (e_Period e));
          ("kind", str_bytes (e_Kind e)); ("amount", c); ("entry_type", str_bytes (e_EntryType e));
          ("source_transaction_id", str_bytes (e_SourceTransactionID e)); ("idempotency_key", str_bytes (e_IdempotencyKey e))]%string.
Proof.
  intros (_ & _ & Ha & He & Hau). destruct (Decimal_Canonical_some _ Ha) as [c Hc]. eexists. split; [|exists c; by split].
  unfold entry_ops. rewrite !ops_fields_app, dimension_ops_fields, !instant_op_fields by done.
  cbn [ops_fields op_fields mbind option_bind]. rewrite Hc. unfold tail_fields.
  destruct (String.eqb (e_SupersedesDigest e) ""); cbn; by rewrite ?app_nil_r.
Qed.

(** Optional fields under one tag are told apart from what follows them. *)
Lemma optional_field_inj (tag : string) (a b xs ys : list field) :
  (a = [] \/ exists p, a = [(tag, p)]) -> (b = [] \/ exists p, b = [(tag, p)]) ->
  (tag ∉ xs.*1) -> (tag ∉ ys.*1) -> a ++ xs = b ++ ys -> a = b /\ xs = ys.
Proof.
  intros [->|[p ->]] [->|[q ->]] Hx Hy; cbn; intros H; try done.
  - subst xs. cbn in Hx. rewrite elem_of_cons in Hx. tauto.
  - subst ys. cbn in Hy. rewrite elem_of_cons in Hy. tauto.
  - by injection H as -> ->.
Qed.

Lemma dimension_fields_inj (v w : string -> list Z) ks ls (xs ys : list field) :
  (forall k, ("dimension." +:+ k) ∉ xs.*1) -> (forall k, ("dimension." +:+ k) ∉ ys.*1) ->
  ((fun k => ("dimension." +:+ k, v k)) <$> ks) ++ xs = ((fun k => ("dimension." +:+ k, w k)) <$> ls) ++ ys ->
  ks = ls /\ Forall (fun k => v k = w k) ks /\ xs = ys.
Proof.
  intros Hx Hy. revert ls. induction ks as [|k ks IH]; intros [|l ls]; cbn [fmap list_fmap app]; intros H.
  - done.
  - subst xs. exfalso. apply (Hx l). cbn [fmap list_fmap fst]. by left.
  - subst ys. exfalso. apply (Hy k). cbn [fmap list_fmap fst]. by left.
  - apply cons_eq_inv in H as [H1 H2]. apply pair_equal_spec in H1 as [Hk Hv].
    assert (k = l) as <- by (cbn in Hk; congruence). destruct (IH ls H2) as (<- & Hall & Hxy).
    split_and!; [done|by constructor|done].
Qed.

Lemma dimensions_eq (m n : gmap string string) : dimension_keys m = dimension_keys n ->
  Forall (fun k => str_bytes (default EmptyString (m !! k)) = str_bytes (default EmptyString (n !! k))) (dimension_keys m) -> m = n.
Proof.
  intros Hk Hv. assert (Hm : forall (m : gmap string string) k, k ∈ dimension_keys m <-> is_Some (m !! k)).
  { intros x k. unfold dimension_keys. by rewrite elem_of_sort_Strings, elem_of_elements, elem_of_dom. }
  apply map_eq. intros k. rewrite Forall_forall in Hv. pose proof (Hm m k) as H1. pose proof (Hm n k) as H2. rewrite <- Hk in H2.
  destruct (m !! k) as [v|] eqn:E1, (n !! k) as [w|] eqn:E2.
  - specialize (Hv k (proj2 H1 (mk_is_Some _ _ eq_refl))). rewrite E1, E2 in Hv. f_equal. by apply str_bytes_inj.
  - by destruct (proj1 H2 (proj2 H1 (mk_is_Some _ _ eq_refl))).
  - by destruct (proj1 H1 (proj2 H2 (mk_is_Some _ _ eq_refl))).
  - done.
Qed.

Lemma instant_field_shape tag t : instant_field tag t = [] \/ exists p, instant_field tag t = [(tag, p)].
Proof. unfold instant_field. destruct (Instant_Canonical t); eauto. Qed.

Lemma instant_field_inj tag t u : instant_plain t -> instant_plain u -> instant_field tag t = instant_field tag u -> t = u.
Proof.
  intros Ht Hu. pose proof (instant_plain_set t Ht) as H1. pose proof (instant_plain_set u Hu) as H2. unfold instant_field.
  destruct (i_set t) eqn:E1, (i_set u) eqn:E2.
  - destruct H1 as [c Hc], H2 as [d Hd]. rewrite Hc, Hd. intros [= ->].
    apply Instant_Canonical_inj; [by destruct Ht as [->|]|by destruct Hu as [->|]|congruence].
  - destruct H1 as [c ->], H2 as [-> _]. done.
  - destruct H1 as [-> _], H2 as [d ->]. done.
  - by destruct H1 as [_ ->], H2 as [_ ->].
Qed.

(** A literal tag that is not in a list of literal fields. *)
Ltac absent_tag H :=
  cbn [fmap list_fmap fst] in H; repeat (apply elem_of_cons in H as [H|H]; [discriminate H|]); by apply elem_of_nil in H.

Lemma tail_fields_inj e f : entry_plain e -> entry_plain f -> tail_fields e = tail_fields f ->
  e_Dimensions e = e_Dimensions f /\ e_EffectiveAt e = e_EffectiveAt f /\ e_AuthorizedAt e = e_AuthorizedAt f /\
  e_SupersedesDigest e = e_SupersedesDigest f.
Proof.
  intros (_ & _ & _ & He & Ha) (_ & _ & _ & He' & Ha') H. unfold tail_fields, dimension_fields in H.
  assert (Htags : forall (tag : string) e, tag <> "effective_at" -> tag <> "authorized_at" -> tag <> "supersedes_digest" ->
    tag ∉ (instant_field "effective_at" (e_EffectiveAt e) ++ instant_field "authorized_at" (e_AuthorizedAt e) ++
           (if String.eqb (e_SupersedesDigest e) "" then [] else [("supersedes_digest", str_bytes (e_SupersedesDigest e))])).*1).
  { intros tag x H1 H2 H3. rewrite !fmap_app, !elem_of_app.
    destruct (instant_field_shape "effective_at" (e_EffectiveAt x)) as [->|[? ->]],
      (instant_field_shape "authorized_at" (e_AuthorizedAt x)) as [->|[? ->]], (String.eqb (e_SupersedesDigest x) "");
      cbn; rewrite ?elem_of_cons, ?elem_of_nil; tauto. }
  apply dimension_fields_inj in H as (Hk & Hv & H); [|intros k; by apply Htags..].
  apply (optional_field_inj "effective_at") in H as [H1 H]; [|apply instant_field_shape..| |].
  2,3: rewrite fmap_app, elem_of_app; match goal with |- context [instant_field _ ?t] =>
    destruct (instant_field_shape "authorized_at" t) as [->|[? ->]] end; match goal with |- context [String.eqb ?d ""] => destruct (String.eqb d "") end; intros [Hin|Hin]; absent_tag Hin.
  apply (optional_field_inj "authorized_at") in H as [H2 H]; [|apply instant_field_shape..| |].
  2,3: match goal with |- context [String.eqb ?d ""] => destruct (String.eqb d "") end; intros Hin; absent_tag Hin.
  split_and!; [by apply dimensions_eq|by eapply instant_field_inj|by eapply instant_field_inj|].
  destruct (String.eqb_spec (e_SupersedesDigest e) "") as [->|], (String.eqb_spec (e_SupersedesDigest f) "") as [->|]; [done..|].
  apply str_bytes_inj. congruence.
Qed.

(** The stored bytes are short enough for their length prefixes. *)
Lemma short_bytes s : short s -> len s < 2 ^ 63.
Proof. unfold short. lia. Qed.

Lemma entry_ops_fit e : entry_plain e -> Forall op_fits (entry_ops e).
Proof.
  intros (Hs & Hd & Ha & He & Hau). rewrite !Forall_cons in Hs. destruct_and!.
  assert (Hi : forall tag t, len tag < 2 ^ 62 -> Forall op_fits (instant_op tag t)).
  { intros tag t Ht. unfold instant_op. destruct (i_set t); [|by constructor]. constructor; [|by constructor].
    split; [done|]. unfold Instant_Canonical. intros p. destruct (is_ok _); [|done]. intros Hp%(inj Some). subst p.
    unfold bytes_fit. rewrite length_cons, length_app, !be_bytes_length. lia. }
  assert (Hamount : forall c, Decimal_Canonical (e_Amount e) = Some c -> bytes_fit c).
  { intros c Hc. unfold Decimal_Canonical in Hc. rewrite dec_wf_valid in Hc by done. apply (inj Some) in Hc. subst c.
    destruct Ha as (q & s & m & -> & Hq & _). pose proof (mag_bytes_short (Z.abs q) ltac:(lia)).
    unfold bytes_fit. rewrite length_cons, !length_app, !be_bytes_length. change (Decimal_Unscaled (dec_of q s m)) with (Z.abs q). lia. }
  unfold entry_ops. apply Forall_app_2; [|apply Forall_app_2; [|apply Forall_app_2; [|apply Forall_app_2]]].
  - repeat (constructor; [cbn; split; [vm_compute; reflexivity|first [by apply short_bytes|exact Hamount]]|]). constructor.
  - unfold dimension_ops. apply Forall_forall. intros o (k & -> & Hk)%list_elem_of_fmap.
    rewrite elem_of_sort_Strings, elem_of_elements, elem_of_dom in Hk. destruct Hk as [v Hv]. rewrite Hv. cbn [default].
    destruct (Hd k v Hv) as [Hk' Hv']. split; [|by apply short_bytes]. rewrite len_append. change (len "dimension.") with 10. unfold short in Hk'. lia.
  - by apply Hi.
  - by apply Hi.
  - case_match; [constructor|]. constructor; [|constructor]. split; [vm_compute; reflexivity|by apply short_bytes].
Qed.

(** The same entry but for its recording time and the rounding mode of its
    amount, neither of which is in the bytes. *)
Definition same_content (e f : BalanceEntry) : Prop :=
  (e_AccountID e = e_AccountID f /\ e_DefinitionID e = e_DefinitionID f /\ e_DefinitionVersion e = e_DefinitionVersion f /\
   e_Unit e = e_Unit f /\ e_Currency e = e_Currency f /\ e_Subject e = e_Subject f /\ e_Period e = e_Period f) /\
  (e_Dimensions e = e_Dimensions f /\ e_Kind e = e_Kind f /\ Decimal_signed (e_Amount e) = Decimal_signed (e_Amount f) /\
   d_scale (e_Amount e) = d_scale (e_Amount f) /\ e_EntryType e = e_EntryType f) /\
  (e_SourceTransactionID e = e_SourceTransactionID f /\ e_IdempotencyKey e = e_IdempotencyKey f /\
   e_EffectiveAt e = e_EffectiveAt f /\ e_AuthorizedAt e = e_AuthorizedAt f /\ e_SupersedesDigest e = e_SupersedesDigest f).

Lemma entry_canonical_fields e : entry_plain e -> exists fs,
  ops_fields (entry_ops e) = Some fs /\ Forall field_ok fs /\
  BalanceEntry_Canonical e = Some (frame (("$schema", str_bytes "hcmnext.domains.balance.BalanceEntry")
    :: ("$schema_version", uvarint (zigzag 1)) :: fs)).
Proof.
  intros He. pose proof (stream_spec "hcmnext.domains.balance.BalanceEntry" 1 (entry_ops e) ltac:(vm_compute; reflexivity) (entry_ops_fit e He)) as H.
  destruct (entry_tail_fields e He) as (head & Hf & _). unfold stream_fields in H. rewrite Hf in H. cbn [String.eqb mbind option_bind] in H.
  destruct H as [Hb Hok]. exists (head ++ tail_fields e). split; [done|]. split.
  - rewrite !Forall_cons in Hok. apply Hok.
  - unfold BalanceEntry_Canonical. by rewrite Hb.
Qed.

Lemma entry_content e f fs : entry_plain e -> entry_plain f ->
  ops_fields (entry_ops e) = Some fs -> ops_fields (entry_ops f) = Some fs -> same_content e f.
Proof.
  intros He Hf E F. destruct (entry_tail_fields e He) as (h1 & E1 & c1 & C1 & ->). destruct (entry_tail_fields f Hf) as (h2 & F1 & c2 & C2 & ->).
  rewrite E1 in E. rewrite F1 in F. rewrite <- F in E. clear E1 F1 F. apply (inj Some) in E.
  apply app_inj_1 in E as [Hh Ht]; [|done]. apply tail_fields_inj in Ht as (? & ? & ? & ?); [|done..].
  repeat (apply cons_eq_inv in Hh as [?%pair_equal_spec Hh]). destruct_and!.
  destruct (Decimal_Canonical_prefix _ _ _ _ [] [] C1 C2) as (? & ? & _); [congruence|].
  unfold same_content. split_and!; first [done|by apply str_bytes_inj].
Qed.

(** The canonical bytes of an entry determine it, up to its recording time
    and the rounding mode of its amount: the digest an idempotency key is
    checked with stands for the entry. *)
Theorem entry_bytes_injective (e f : BalanceEntry) : entry_plain e -> entry_plain f ->
  (exists raw, BalanceEntry_Canonical e = Some raw) /\
  (BalanceEntry_Canonical e = BalanceEntry_Canonical f <-> same_content e f).
Proof.
  intros He Hf. destruct (entry_canonical_fields e He) as (fs & E1 & E2 & E3). destruct (entry_canonical_fields f Hf) as (gs & F1 & F2 & F3).
  split; [by eexists|]. split.
  - rewrite E3, F3. intros H. apply (inj Some) in H. cbn [frame] in H. do 2 apply app_inv_head in H.
    apply frame_inj in H as <-; [|done..]. by apply (entry_content e f fs).
  - intros ((H1 & H2 & H3 & H4 & H5 & H6 & H7) & (H8 & H9 & H10 & H11 & H12) & H13 & H14 & H15 & H16 & H17).
    assert (Hc : Decimal_Canonical (e_Amount e) = Decimal_Canonical (e_Amount f)).
    { destruct He as (_ & _ & (q & s & m & Ea & Hq) & _), Hf as (_ & _ & (q' & s' & m' & Fa & Hq') & _).
      rewrite Ea, Fa in *. rewrite !Decimal_signed_dec_of in H10. cbn [d_scale dec_of] in H11. subst q' s'.
      unfold Decimal_Canonical. by rewrite !dec_wf_valid by (eexists _, _, _; by split). }
    unfold BalanceEntry_Canonical, entry_ops, dimension_ops. by rewrite Hc, H1, H2, H3, H4, H5, H6, H7, H8, H9, H12, H13, H14, H15, H16, H17.
Qed.

End bytes.

(** * Concrete stores *)

Section sample_store.
#[local] Instance sample_folding : CaseFolding := {| unicode_equal_fold := String.eqb |}.
#[local] Instance sample_balance_sha : Sha256 := {| sha256_Sum256 := fun bs => [Z.of_nat (length bs) mod 256; foldr Z.add 0 bs mod 256] |}.

Definition none_rule : PolicyRule := mkPolicy RuleNone "1" "".
Definition leave_definition : AccumulatorDefinition :=
  mkAccumulator "leave" "1" "Leave" "HOURS" "NONE" "worker" PeriodCalendarYear [mkDimension "worker_id" "worker" true]
    ["ACCRUAL"; "CORRECTION"] (mkAuthority "policy" "1") none_rule none_rule none_rule none_rule none_rule.
Definition leave_entry (account kind key : string) (q : Z) : BalanceEntry :=
  mkEntry account "leave" "1" "HOURS" "NONE" "worker" PeriodCalendarYear {["worker_id" := "w1"]} kind (dec_of q 2 RoundingHalfUp)
    "accrual" ("tx-" +:+ key) key (mkInstant true 100 0) Instant_zero_value (mkInstant true 100 0) "".
Definition leave_request (kind key : string) (q head : Z) : PostRequest := mkPostRequest (leave_entry "a" kind key q) head.
Definition leave_store : EntryStore := snd (EntryStore_Post NewEntryStore (mkGoTime 200 0) (leave_request Credit "k1" 800 0) leave_definition).

Lemma leave_store_reached : store_reached leave_store.
Proof. apply rtc_once. constructor. Qed.

Lemma leave_entry_fits kind key q : kind = Debit \/ kind = Credit -> is_blank key = false -> 0 < q < 10 ^ 38 ->
  fits (leave_entry "a" kind key q) leave_definition.
Proof.
  intros Hk Hb Hq. unfold fits. split_and!; try done.
  - repeat constructor; done.
  - apply dec_wf_dec_of; [unfold MaxPrecision; lia|unfold MaxScale; lia|done].
  - cbn [leave_entry e_Amount]. rewrite Decimal_signed_dec_of. lia.
  - constructor; [|constructor]. exists "w1". split; [done|]. by intros _.
Qed.


Lemma leave_entry_plain q : 0 < q < 10 ^ 38 -> entry_plain (leave_entry "a" Credit "k1" q).
Proof.
  intros Hq. unfold entry_plain, short. split_and!.
  - repeat (constructor; [vm_compute; reflexivity|]). constructor.
  - intros k v. cbn [leave_entry e_Dimensions]. intros [<- <-]%lookup_singleton_Some. split; vm_compute; reflexivity.
  - apply dec_wf_dec_of; [unfold MaxPrecision; lia|unfold MaxScale; lia|done].
  - right. repeat split; vm_compute; done.
  - right. repeat split; vm_compute; done.
Qed.

Lemma entry_bytes_injective_witness :
  BalanceEntry_Canonical (leave_entry "a" Credit "k1" 800) <> BalanceEntry_Canonical (leave_entry "a" Credit "k1" 801).
Proof.
  destruct (entry_bytes_injective (leave_entry "a" Credit "k1" 800) (leave_entry "a" Credit "k1" 801)) as [_ [H _]];
    [apply leave_entry_plain; lia..|].
  intros E. destruct (H E) as (_ & (_ & _ & Hq & _) & _). vm_compute in Hq. discriminate Hq.
Defined.

End sample_store.
