(* ===== verification/BalanceAsOf.v ===== *)
(** The authorized balance of an account, as of one instant and as known at
    another: [internal/domains/balance/asof.go].

    [CalculateAuthorizedBalance] is a pure function of a ledger.  The
    specification is the sum of the entries that count, each rounded once to
    the declared scale. *)

From S2P Require Import Prelude GoStrings Sorting CanonicalBytes FixedDecimal DecimalAmounts CivilTime BalanceEntries.

Local Open Scope Z_scope.

Definition AdjustmentEntryType : string := "CORRECTION".

Definition ExclusionReason : Type := string.
Definition ExcludedNotRecorded : ExclusionReason := "NOT_RECORDED_BY_KNOWN_AT".
Definition ExcludedNoEffectiveTime : ExclusionReason := "EFFECTIVE_AT_UNSET".
Definition ExcludedFutureEffective : ExclusionReason := "EFFECTIVE_AFTER_AS_OF".
Definition ExcludedNotAuthorized : ExclusionReason := "NOT_AUTHORIZED_BY_KNOWN_AT".

Record ExcludedEntry : Type := mkExcluded { x_Entry : BalanceEntry; x_Reason : ExclusionReason }.

Record AuthorizedBalanceRequest : Type := mkAsOf {
  aq_AccountID : string; aq_EffectiveAsOf : Instant; aq_KnownAt : Instant; aq_Opening : Decimal; aq_Scale : Z;
  aq_Rounding : RoundingMode
}.

Record AuthorizedBalance : Type := mkAuthorized {
  ab_AccountID : string; ab_EffectiveAsOf : Instant; ab_KnownAt : Instant; ab_Opening : Decimal;
  ab_Entries : list BalanceEntry; ab_Adjustments : list BalanceEntry; ab_Excluded : list ExcludedEntry;
  ab_Ending : Decimal; ab_Digest : string
}.

Definition AuthorizedBalanceRequest_validate (req : AuthorizedBalanceRequest) : outcome balance_err unit :=
  _ ← fail_if (is_blank (aq_AccountID req)) ErrBalanceRequestInvalid;
  _ ← fail_if (negb (i_set (aq_EffectiveAsOf req))) ErrBalanceRequestInvalid;
  _ ← fail_if (negb (i_set (aq_KnownAt req))) ErrBalanceRequestInvalid;
  _ ← or_reject (Decimal_Validate (aq_Opening req)) ErrBalanceRequestInvalid;
  _ ← fail_if (negb (d_scale (aq_Opening req) =? aq_Scale req)) ErrBalanceRequestInvalid;
  fail_if (mode_is (aq_Rounding req) RoundingUnspecified || negb (RoundingMode_Valid (aq_Rounding req))) ErrBalanceRequestInvalid.

(** [None] when the entry counts. *)
Definition exclusionReason (e : BalanceEntry) (req : AuthorizedBalanceRequest) : option ExclusionReason :=
  if negb (i_set (e_RecordedAt e)) || Instant_After (e_RecordedAt e) (aq_KnownAt req) then Some ExcludedNotRecorded
  else if negb (i_set (e_EffectiveAt e)) then Some ExcludedNoEffectiveTime
  else if Instant_After (e_EffectiveAt e) (aq_EffectiveAsOf req) then Some ExcludedFutureEffective
  else if negb (i_set (e_AuthorizedAt e)) || Instant_After (e_AuthorizedAt e) (aq_KnownAt req) then Some ExcludedNotAuthorized
  else None.

(** The switch over an entry's kind: the sign of an amount. *)
Definition signedContribution (kind : EntryKind) (amount : Decimal) (err : balance_err) : outcome balance_err Decimal :=
  if String.eqb kind Credit then Ok amount
  else if String.eqb kind Debit then or_reject (Decimal_Neg amount) err
  else Err err.

Section asof.
Context `{B : DecimalBackend} `{CF : CaseFolding} `{SHA : Sha256}.

Definition contribution (e : BalanceEntry) (scale : Z) (mode : RoundingMode) : outcome balance_err Decimal :=
  _ ← or_reject (Decimal_Validate (e_Amount e)) ErrBalanceRequestInvalid;
  amt ← (if negb (d_scale (e_Amount e) =? scale)
         then or_reject (Decimal_Quantize (e_Amount e) scale mode) ErrBalanceRequestInvalid
         else Ok (e_Amount e));
  signedContribution (e_Kind e) amt ErrBalanceRequestInvalid.

(** The running total and the three lists of the result. *)
Record tally : Type := mkTally {
  t_running : Decimal; t_entries : list BalanceEntry; t_adjustments : list BalanceEntry; t_excluded : list ExcludedEntry
}.

Definition is_adjustment (e : BalanceEntry) : bool := strings_EqualFold (e_EntryType e) AdjustmentEntryType.

(** One turn of the loop over the ledger. *)
Definition balance_step (req : AuthorizedBalanceRequest) (t : tally) (e : BalanceEntry) : outcome balance_err tally :=
  if negb (String.eqb (e_AccountID e) (aq_AccountID req)) then Ok t
  else match exclusionReason e req with
       | Some reason => Ok (mkTally (t_running t) (t_entries t) (t_adjustments t) (t_excluded t ++ [mkExcluded e reason]))
       | None =>
           delta ← contribution e (aq_Scale req) (aq_Rounding req);
           next ← or_reject (Decimal_Add (t_running t) delta) ErrBalanceRequestInvalid;
           Ok (if is_adjustment e then mkTally next (t_entries t) (t_adjustments t ++ [e]) (t_excluded t)
               else mkTally next (t_entries t ++ [e]) (t_adjustments t) (t_excluded t))
       end.

Fixpoint balance_loop (req : AuthorizedBalanceRequest) (t : tally) (entries : list BalanceEntry) : outcome balance_err tally :=
  match entries with
  | [] => Ok t
  | e :: rest => t' ← balance_step req t e; balance_loop req t' rest
  end.

Definition authorized_ops (r : AuthorizedBalance) : list op :=
  [ WString "account_id" (ab_AccountID r); WValue "effective_as_of" (Instant_Canonical (ab_EffectiveAsOf r));
    WValue "known_at" (Instant_Canonical (ab_KnownAt r)); WValue "opening" (Decimal_Canonical (ab_Opening r));
    WCount "entries" (Z.of_nat (length (ab_Entries r))) ]%string ++
  ((fun e => WString "entries.digest" (BalanceEntry_Digest e)) <$> ab_Entries r) ++
  [ WCount "adjustments" (Z.of_nat (length (ab_Adjustments r))) ] ++
  ((fun e => WString "adjustments.digest" (BalanceEntry_Digest e)) <$> ab_Adjustments r) ++
  [ WCount "excluded" (Z.of_nat (length (ab_Excluded r))) ] ++
  concat ((fun x => [ WString "excluded.digest" (BalanceEntry_Digest (x_Entry x)); WString "excluded.reason" (x_Reason x) ]) <$> ab_Excluded r) ++
  [ WValue "ending" (Decimal_Canonical (ab_Ending r)) ].

Definition AuthorizedBalance_canonicalDigest (r : AuthorizedBalance) : outcome canon_err string :=
  Writer_Digest (ops_run (authorized_ops r) (New "hcmnext.domains.balance.AuthorizedBalance" 1)).

Definition authorized_with_digest (d : string) (r : AuthorizedBalance) : AuthorizedBalance :=
  mkAuthorized (ab_AccountID r) (ab_EffectiveAsOf r) (ab_KnownAt r) (ab_Opening r) (ab_Entries r) (ab_Adjustments r)
    (ab_Excluded r) (ab_Ending r) d.

Definition CalculateAuthorizedBalance (req : AuthorizedBalanceRequest) (entries : list BalanceEntry) : outcome balance_err AuthorizedBalance :=
  _ ← AuthorizedBalanceRequest_validate req;
  t ← balance_loop req (mkTally (aq_Opening req) [] [] []) entries;
  ending ← or_reject (Decimal_Quantize (t_running t) (aq_Scale req) (aq_Rounding req)) ErrBalanceRequestInvalid;
  let result := mkAuthorized (aq_AccountID req) (aq_EffectiveAsOf req) (aq_KnownAt req) (aq_Opening req)
                  (t_entries t) (t_adjustments t) (t_excluded t) ending "" in
  digest ← or_reject (AuthorizedBalance_canonicalDigest result) ErrBalanceRequestInvalid;
  Ok (authorized_with_digest digest result).

End asof.

(** * What counts, and for how much *)

Section asof_facts.
Context `{B : DecimalBackend} `{L : !DecimalBackendLaws B} `{CF : CaseFolding} `{SHA : Sha256}.

Definition of_account (req : AuthorizedBalanceRequest) (e : BalanceEntry) : Prop := e_AccountID e = aq_AccountID req.
(** The entry is of the account, was recorded and authorized when the request
    knows, and is effective by its date. *)
Definition at_or_before (i o : Instant) : Prop := i_set i = true /\ Instant_Compare i o <= 0.
Definition counts (req : AuthorizedBalanceRequest) (e : BalanceEntry) : Prop :=
  of_account req e /\ at_or_before (e_RecordedAt e) (aq_KnownAt req) /\ at_or_before (e_EffectiveAt e) (aq_EffectiveAsOf req) /\
  at_or_before (e_AuthorizedAt e) (aq_KnownAt req).

#[export] Instance counts_dec req e : Decision (counts req e).
Proof. unfold counts, of_account, at_or_before. solve_decision. Defined.
#[export] Instance of_account_dec req e : Decision (of_account req e).
Proof. unfold of_account. solve_decision. Defined.

Lemma exclusionReason_None req e : exclusionReason e req = None <->
  at_or_before (e_RecordedAt e) (aq_KnownAt req) /\ at_or_before (e_EffectiveAt e) (aq_EffectiveAsOf req) /\
  at_or_before (e_AuthorizedAt e) (aq_KnownAt req).
Proof.
  unfold exclusionReason, at_or_before, Instant_After.
  destruct (i_set (e_RecordedAt e)), (i_set (e_EffectiveAt e)), (i_set (e_AuthorizedAt e)); cbn [negb orb];
    destruct (Z.ltb_spec 0 (Instant_Compare (e_RecordedAt e) (aq_KnownAt req)));
    destruct (Z.ltb_spec 0 (Instant_Compare (e_EffectiveAt e) (aq_EffectiveAsOf req)));
    destruct (Z.ltb_spec 0 (Instant_Compare (e_AuthorizedAt e) (aq_KnownAt req))); split; intros H9; try discriminate; try lia; try done.
Qed.

Lemma Instant_Compare_trans i j k : Instant_Compare i j <= 0 -> Instant_Compare j k <= 0 -> Instant_Compare i k <= 0.
Proof.
  unfold Instant_Compare.
  destruct (Z.eqb_spec (i_sec i) (i_sec j)), (Z.eqb_spec (i_sec j) (i_sec k)), (Z.eqb_spec (i_sec i) (i_sec k));
    destruct (Z.eqb_spec (i_nsec i) (i_nsec j)), (Z.eqb_spec (i_nsec j) (i_nsec k)), (Z.eqb_spec (i_nsec i) (i_nsec k)); cbn [negb];
    repeat match goal with |- context [?a <? ?b] => destruct (Z.ltb_spec a b) end; lia.
Qed.

(** A later date or a later knowledge counts no entry less. *)
Lemma counts_mono req req' e : aq_AccountID req = aq_AccountID req' ->
  Instant_Compare (aq_EffectiveAsOf req) (aq_EffectiveAsOf req') <= 0 -> Instant_Compare (aq_KnownAt req) (aq_KnownAt req') <= 0 ->
  counts req e -> counts req' e.
Proof.
  intros Ha He Hk (H1 & [H2 H3] & [H4 H5] & [H6 H7]). unfold counts, of_account, at_or_before in *.
  split_and!; try done; [congruence|..]; by eapply Instant_Compare_trans.
Qed.

(** The signed amount in units of the scale, rounded once. *)
Definition contributes (scale : Z) (mode : RoundingMode) (e : BalanceEntry) (v : Z) : Prop :=
  dec_wf (e_Amount e) /\ exists q, rounds mode (Decimal_signed (e_Amount e) * 10 ^ scale) (10 ^ d_scale (e_Amount e)) q /\
    Z.abs q < 10 ^ MaxPrecision /\ (e_Kind e = Credit /\ v = q \/ e_Kind e = Debit /\ v = - q).

Lemma signedContribution_ok kind amt err d : dec_wf amt -> signedContribution kind amt err = Ok d <->
  kind = Credit /\ d = amt \/ kind = Debit /\ d = dec_of (- Decimal_signed amt) (d_scale amt) (d_round amt).
Proof.
  intros Hw. unfold signedContribution. assert (Credit <> Debit) by done.
  destruct (String.eqb_spec kind Credit) as [->|Hc]; [naive_solver|].
  destruct (String.eqb_spec kind Debit) as [->|Hd]; [|naive_solver].
  rewrite Neg_amount by done. cbn. naive_solver.
Qed.

Lemma rounds_same mode n s q : 0 <= s -> RoundingMode_Valid mode = true -> rounds mode (n * 10 ^ s) (10 ^ s) q <-> q = n.
Proof.
  intros Hs Hm. pose proof (pow10_pos s Hs).
  assert (He : rounds mode (n * 10 ^ s) (10 ^ s) n) by (by apply rounds_exact).
  split; [|by intros ->]. intros H1. by eapply rounds_unique.
Qed.

Lemma contribution_ok e s m d : 0 <= s <= MaxScale -> RoundingMode_Valid m = true ->
  contribution e s m = Ok d -> exists v, contributes s m e v /\ amount d s v.
Proof.
  intros Hs Hm H. unfold contribution in H. apply bind_ok_inv in H as (u & Hv & H). destruct u. apply validate_reject_ok in Hv.
  apply bind_ok_inv in H as (amt & Ha & H).
  assert (Hq : exists q, rounds m (Decimal_signed (e_Amount e) * 10 ^ s) (10 ^ d_scale (e_Amount e)) q /\ Z.abs q < 10 ^ MaxPrecision /\ amount amt s q).
  { destruct (Z.eqb_spec (d_scale (e_Amount e)) s) as [E|E]; cbn [negb] in Ha.
    - injection Ha as <-. exists (Decimal_signed (e_Amount e)). rewrite E. split; [apply rounds_same; [lia|done|done]|].
      split; [by apply dec_wf_bound|by split].
    - apply or_reject_ok, Quantize_amount in Ha as (q & Hq & Hb & ->); [|done..]. exists q. split; [done|]. split; [done|].
      by apply amount_dec_of. }
  destruct Hq as (q & Hq & Hb & Hw & Hsc & Hsg). apply (signedContribution_ok _ _ _ _ Hw) in H as [[Hk ->]|[Hk ->]].
  - exists q. split; [|by split]. split; [done|]. exists q. auto.
  - exists (- q). split; [split; [done|]; exists q; auto|]. rewrite Hsg, Hsc. apply amount_dec_of; [lia|done|].
    by apply dec_wf_scale in Hw as [_ ?].
Qed.

Lemma contribution_complete e s m v : 0 <= s <= MaxScale -> RoundingMode_Valid m = true ->
  contributes s m e v -> exists d, contribution e s m = Ok d /\ amount d s v.
Proof.
  intros Hs Hm (Hv & q & Hq & Hb & Hk). unfold contribution. rewrite (proj2 (validate_reject_ok _ _) Hv). cbn [mbind outcome_bind].
  assert (Ha : exists amt, (if negb (d_scale (e_Amount e) =? s) then or_reject (Decimal_Quantize (e_Amount e) s m) ErrBalanceRequestInvalid
    else Ok (e_Amount e)) = Ok amt /\ amount amt s q).
  { destruct (Z.eqb_spec (d_scale (e_Amount e)) s) as [E|E]; cbn [negb].
    - exists (e_Amount e). split; [done|]. rewrite E in Hq. apply rounds_same in Hq as ->; [by split|lia|done].
    - exists (dec_of q s m). split; [|by apply amount_dec_of]. apply or_reject_ok, Quantize_amount; [done..|]. by exists q. }
  destruct Ha as (amt & -> & Hw & Hsc & Hsg). cbn [mbind outcome_bind].
  destruct Hk as [[Hk ->]|[Hk ->]].
  - exists amt. split; [|by split]. apply signedContribution_ok; [done|by left].
  - eexists. split; [apply signedContribution_ok; [done|by right]|]. rewrite Hsg, Hsc. apply amount_dec_of; [lia|done|].
    by apply dec_wf_scale in Hw as [_ ?].
Qed.

Lemma contributes_unique s m e v w : contributes s m e v -> contributes s m e w -> v = w.
Proof.
  intros (Hd & q & Hq & _ & Hk) (_ & q' & Hq' & _ & Hk'). pose proof (pow10_pos (d_scale (e_Amount e)) (proj1 (proj1 (dec_wf_scale _ Hd)))).
  assert (q = q') as <- by (by eapply rounds_unique). assert (Credit <> Debit) by done.
  destruct Hk as [[Hk ->]|[Hk ->]], Hk' as [[Hk' ->]|[Hk' ->]]; congruence.
Qed.

Definition sum (vs : list Z) : Z := foldr Z.add 0 vs.
(** Every partial sum fits a decimal. *)
Fixpoint sums_fit (q : Z) (vs : list Z) : Prop :=
  match vs with [] => True | v :: rest => Z.abs (q + v) < 10 ^ MaxPrecision /\ sums_fit (q + v) rest end.

Lemma signedContribution_no_panic kind d err : signedContribution kind d err <> Panic.
Proof. unfold signedContribution. no_panic. Qed.
#[local] Hint Resolve signedContribution_no_panic : panics.

Lemma contribution_no_panic e s m : contribution e s m <> Panic.
Proof. unfold contribution. no_panic. Qed.

Lemma balance_loop_no_panic req t es : balance_loop req t es <> Panic.
Proof.
  revert t. induction es as [|e es IH]; intros t; cbn [balance_loop]; [done|]. apply bind_no_panic; [|intros t' _; apply IH].
  unfold balance_step. case_match; [done|]. case_match; [done|]. apply bind_no_panic; [apply contribution_no_panic|intros d _].
  apply bind_no_panic; [auto with panics|done].
Qed.

(** What the loop leaves of a ledger. *)
Definition tally_of (req : AuthorizedBalanceRequest) (t : tally) (q : Z) (es : list BalanceEntry) : tally :=
  mkTally (dec_of q (aq_Scale req) (d_round (t_running t)))
    (t_entries t ++ filter (fun e => counts req e /\ is_adjustment e = false) es)
    (t_adjustments t ++ filter (fun e => counts req e /\ is_adjustment e = true) es)
    (t_excluded t ++ omap (fun e => if decide (of_account req e) then mkExcluded e <$> exclusionReason e req else None) es).

Lemma tally_skip req t q e es : ~ counts req e -> exclusionReason e req = None \/ ~ of_account req e -> tally_of req t q (e :: es) = tally_of req t q es.
Proof.
  intros Hn Hx. unfold tally_of. rewrite !filter_cons_False by tauto. cbn [omap list_omap].
  destruct (decide (of_account req e)) as [Ha|Ha]; [|done]. destruct Hx as [->|?]; done.
Qed.

Lemma tally_exclude req t q e es reason : of_account req e -> exclusionReason e req = Some reason ->
  tally_of req t q (e :: es) =
  tally_of req (mkTally (t_running t) (t_entries t) (t_adjustments t) (t_excluded t ++ [mkExcluded e reason])) q es.
Proof.
  intros Ha Hx. assert (Hn : ~ counts req e) by (intros [_ H]; apply exclusionReason_None in H; congruence).
  unfold tally_of. rewrite !filter_cons_False by tauto. cbn [omap list_omap t_entries t_adjustments t_excluded t_running].
  rewrite decide_True, Hx by done. cbn. by rewrite <- app_assoc.
Qed.

Lemma tally_count req t q e es next : counts req e -> d_round next = d_round (t_running t) ->
  tally_of req t q (e :: es) =
  tally_of req (if is_adjustment e then mkTally next (t_entries t) (t_adjustments t ++ [e]) (t_excluded t)
                else mkTally next (t_entries t ++ [e]) (t_adjustments t) (t_excluded t)) q es.
Proof.
  intros Hc Hr. assert (Hx : exclusionReason e req = None) by (apply exclusionReason_None, Hc).
  unfold tally_of. cbn [omap list_omap]. rewrite Hx. destruct (is_adjustment e) eqn:Ea.
  - rewrite filter_cons_False by (intros [_ ?]; congruence). rewrite filter_cons_True by done. cbn. rewrite Hr, <- app_assoc.
    by destruct (decide _).
  - rewrite filter_cons_True by done. rewrite filter_cons_False by (intros [_ ?]; congruence). cbn. rewrite Hr, <- app_assoc.
    by destruct (decide _).
Qed.

Definition counted (req : AuthorizedBalanceRequest) (es : list BalanceEntry) : list BalanceEntry := filter (fun e => counts req e) es.

Lemma balance_loop_exact req es : RoundingMode_Valid (aq_Rounding req) = true -> forall t t',
  dec_wf (t_running t) -> d_scale (t_running t) = aq_Scale req ->
  balance_loop req t es = Ok t' <->
  exists vs, Forall2 (contributes (aq_Scale req) (aq_Rounding req)) (counted req es) vs /\
    sums_fit (Decimal_signed (t_running t)) vs /\ t' = tally_of req t (Decimal_signed (t_running t) + sum vs) es.
Proof.
  intros Hm. induction es as [|e es IH]; intros t t' Hw Hs; cbn [balance_loop].
  { assert (Ht : tally_of req t (Decimal_signed (t_running t)) [] = t).
    { unfold tally_of. cbn. rewrite !app_nil_r, <- Hs, <- dec_wf_eta by done. by destruct t. }
    split.
    - intros [= <-]. exists []. cbn. by rewrite Z.add_0_r, Ht.
    - intros (vs & Hvs & _ & ->). inversion Hvs; subst. cbn. by rewrite Z.add_0_r, Ht. }
  pose proof (proj1 (dec_wf_scale _ Hw)) as Hsc. rewrite Hs in Hsc.
  unfold balance_step. destruct (String.eqb_spec (e_AccountID e) (aq_AccountID req)) as [Ha|Ha]; cbn [negb mbind outcome_bind].
  2:{ rewrite IH by done. assert (Hn : ~ counts req e) by (intros [? _]; done).
      unfold counted. rewrite filter_cons_False by done. by setoid_rewrite (tally_skip req t _ e es Hn (or_intror Ha)). }
  destruct (exclusionReason e req) as [reason|] eqn:Hx; cbn [mbind outcome_bind].
  { rewrite IH by done. assert (Hn : ~ counts req e) by (intros [_ H]; apply exclusionReason_None in H; congruence).
    unfold counted. rewrite filter_cons_False by done. by setoid_rewrite (tally_exclude req t _ e es reason Ha Hx). }
  assert (Hc : counts req e) by (split; [done|by apply exclusionReason_None]).
  unfold counted. rewrite filter_cons_True by done. fold (counted req es).
  split.
  - intros H. apply bind_ok_inv in H as (t1 & H1 & H). apply bind_ok_inv in H1 as (d & Hd & H1).
    apply contribution_ok in Hd as (v & Hv & Hdw & Hds & Hdv); [|done..]. apply bind_ok_inv in H1 as (next & Hn & H1).
    apply or_reject_ok in Hn. pose proof (Add_round _ _ _ Hn) as Hr. apply Add_ok_inv in Hn as (_ & _ & _ & Hnw & Hns & Hnv).
    injection H1 as H1. subst t1. apply IH in H as (vs & Hvs & Hfit & ->); [|by destruct (is_adjustment e)..|].
    2:{ destruct (is_adjustment e); cbn; congruence. }
    assert (Hrun : forall x y, Decimal_signed (t_running (if is_adjustment e then mkTally next (t_entries t) x (t_excluded t)
      else mkTally next y (t_adjustments t) (t_excluded t))) = Decimal_signed (t_running t) + v) by (intros; destruct (is_adjustment e); cbn; congruence).
    rewrite Hrun in *. exists (v :: vs). split; [by constructor|]. split.
    + split; [|done]. rewrite <- Hdv, <- Hnv. by apply dec_wf_bound.
    + cbn [sum foldr]. fold (sum vs). rewrite Z.add_assoc. by erewrite <- tally_count.
  - intros (vs0 & Hvs & Hfit & ->). inversion Hvs as [|? v ? vs Hv Hvs']; subst. destruct Hfit as [Hb Hfit].
    destruct (contribution_complete _ _ _ _ Hsc Hm Hv) as (d & Hd & Hdw & Hds & Hdv). rewrite Hd. cbn [mbind outcome_bind].
    rewrite (Add_amount _ _ Hw Hdw), Hs, Hds, Z.eqb_refl. cbn [negb]. rewrite Hdv, (proj2 (Z.ltb_lt _ _) Hb). cbn [or_reject map_err mbind outcome_bind].
    set (next := dec_of (Decimal_signed (t_running t) + v) (aq_Scale req) (d_round (t_running t))).
    assert (Hnext : amount next (aq_Scale req) (Decimal_signed (t_running t) + v)).
    { apply amount_dec_of; [done|done|]. by apply dec_wf_scale in Hw as [_ ?]. }
    destruct Hnext as (Hnw & Hns & Hnv). apply IH; [by destruct (is_adjustment e)..|]. exists vs.
    assert (Hrun : forall x y, Decimal_signed (t_running (if is_adjustment e then mkTally next (t_entries t) x (t_excluded t)
      else mkTally next y (t_adjustments t) (t_excluded t))) = Decimal_signed (t_running t) + v) by (intros; by destruct (is_adjustment e)).
    rewrite !Hrun. split; [done|]. split; [done|]. cbn [sum foldr]. fold (sum vs). rewrite Z.add_assoc. by apply tally_count.
Qed.

(** * The result *)

(** A request that can be calculated. *)
Definition request_ok (req : AuthorizedBalanceRequest) : Prop :=
  is_blank (aq_AccountID req) = false /\
  Instant_Validate (aq_EffectiveAsOf req) = Ok tt /\ Instant_Validate (aq_KnownAt req) = Ok tt /\
  dec_wf (aq_Opening req) /\ d_scale (aq_Opening req) = aq_Scale req /\ RoundingMode_Valid (aq_Rounding req) = true.

(** The derivation of a balance, before it is sealed. *)
Definition derived (req : AuthorizedBalanceRequest) (es : list BalanceEntry) (q : Z) : AuthorizedBalance :=
  mkAuthorized (aq_AccountID req) (aq_EffectiveAsOf req) (aq_KnownAt req) (aq_Opening req)
    (filter (fun e => counts req e /\ is_adjustment e = false) es)
    (filter (fun e => counts req e /\ is_adjustment e = true) es)
    (omap (fun e => if decide (of_account req e) then mkExcluded e <$> exclusionReason e req else None) es)
    (dec_of q (aq_Scale req) (aq_Rounding req)) "".

Lemma request_validate_ok req : AuthorizedBalanceRequest_validate req = Ok tt <->
  is_blank (aq_AccountID req) = false /\ i_set (aq_EffectiveAsOf req) = true /\ i_set (aq_KnownAt req) = true /\
  dec_wf (aq_Opening req) /\ d_scale (aq_Opening req) = aq_Scale req /\ RoundingMode_Valid (aq_Rounding req) = true.
Proof.
  unfold AuthorizedBalanceRequest_validate.
  rewrite !bind_unit_ok, validate_reject_ok, !fail_if_ok_iff, !negb_false_iff, Z.eqb_eq, orb_false_iff, negb_false_iff.
  assert (Hm : mode_is (aq_Rounding req) RoundingUnspecified = false /\ RoundingMode_Valid (aq_Rounding req) = true <->
    RoundingMode_Valid (aq_Rounding req) = true).
  { split; [by intros [_ ?]|]. intros H. split; [|done]. apply mode_is_false. intros E. by rewrite E in H. }
  rewrite Hm. tauto.
Qed.

(** A value without an encoding abandons the stream. *)
Lemma unencodable_digest schema v os t : WValue t None ∈ os -> forall d, Writer_Digest (ops_run os (New schema v)) <> Ok d.
Proof.
  intros (l1 & l2 & ->)%list_elem_of_split d. unfold ops_run. rewrite fold_left_app. cbn [fold_left].
  set (w := fold_left _ l1 _). assert (Hw : w_err (op_run (WValue t None) w) <> None).
  { cbn. unfold Writer_Value, Writer_fail. by destruct (w_err w) eqn:E; rewrite ?E. }
  pose proof (ops_sticky l2 _ Hw) as E. unfold ops_run in E. rewrite E. unfold Writer_Digest, Writer_Bytes.
  by destruct (w_err _).
Qed.

Lemma Instant_Canonical_ok t : is_Some (Instant_Canonical t) <-> Instant_Validate t = Ok tt.
Proof.
  unfold Instant_Canonical. destruct (Instant_Validate t) as [[]|e|]; cbn [is_ok].
  - split; [done|]. intros _. by eexists.
  - by split; [intros [? ?]|].
  - by split; [intros [? ?]|].
Qed.

Lemma derived_encodable req es q : request_ok req -> Z.abs q < 10 ^ MaxPrecision -> Forall op_encodable (authorized_ops (derived req es q)).
Proof.
  intros (_ & He%Instant_Canonical_ok & Hk%Instant_Canonical_ok & Ho & Hs & Hm) Hq.
  unfold authorized_ops, derived. cbn [ab_AccountID ab_EffectiveAsOf ab_KnownAt ab_Opening ab_Entries ab_Adjustments ab_Excluded ab_Ending].
  assert (Hstr : forall tag (l : list BalanceEntry), tag <> "" -> Forall op_encodable ((fun e => WString tag (BalanceEntry_Digest e)) <$> l)).
  { intros tag l Ht. apply Forall_fmap, Forall_forall. done. }
  repeat apply Forall_app_2.
  - constructor; [done|]. constructor; [split; [done|]; by apply not_eq_None_Some|]. constructor; [split; [done|]; by apply not_eq_None_Some|].
    constructor; [by apply value_encodable|]. by constructor.
  - by apply Hstr.
  - by constructor.
  - by apply Hstr.
  - by constructor.
  - apply Forall_concat, Forall_fmap, Forall_forall. intros x _. by repeat constructor.
  - constructor; [|constructor]. apply value_encodable; [done|]. apply dec_wf_dec_of; [done| |done]. rewrite <- Hs. by apply dec_wf_scale.
Qed.

Lemma sums_fit_last q vs : Z.abs q < 10 ^ MaxPrecision -> sums_fit q vs -> Z.abs (q + sum vs) < 10 ^ MaxPrecision.
Proof.
  revert q. induction vs as [|v vs IH]; intros q Hq H; cbn [sum foldr]; [by rewrite Z.add_0_r|].
  destruct H as [Hv H]. rewrite Z.add_assoc. by apply IH.
Qed.

Definition sealed (r : AuthorizedBalance) : AuthorizedBalance :=
  authorized_with_digest (Digest (w_buf (ops_run (authorized_ops r) (New "hcmnext.domains.balance.AuthorizedBalance" 1)))) r.

Lemma calculate_exact req es r : CalculateAuthorizedBalance req es = Ok r <->
  request_ok req /\ exists vs, Forall2 (contributes (aq_Scale req) (aq_Rounding req)) (counted req es) vs /\
    sums_fit (Decimal_signed (aq_Opening req)) vs /\ r = sealed (derived req es (Decimal_signed (aq_Opening req) + sum vs)).
Proof.
  assert (Hwalk : forall vs, dec_wf (aq_Opening req) -> d_scale (aq_Opening req) = aq_Scale req -> RoundingMode_Valid (aq_Rounding req) = true ->
    sums_fit (Decimal_signed (aq_Opening req)) vs ->
    let t := tally_of req (mkTally (aq_Opening req) [] [] []) (Decimal_signed (aq_Opening req) + sum vs) es in
    Decimal_Quantize (t_running t) (aq_Scale req) (aq_Rounding req) = Ok (dec_of (Decimal_signed (aq_Opening req) + sum vs) (aq_Scale req) (aq_Rounding req))).
  { intros vs Ho Hs Hm Hfit t. unfold t. cbn [tally_of t_running]. set (q := Decimal_signed (aq_Opening req) + sum vs).
    pose proof (Quantize_same (dec_of q (aq_Scale req) (d_round (aq_Opening req))) (aq_Rounding req)) as H.
    cbn [d_scale dec_of] in H. rewrite Decimal_signed_dec_of in H. apply H; [|done]. destruct (dec_wf_scale _ Ho) as [? ?].
    apply dec_wf_dec_of; [|congruence|done]. apply sums_fit_last; [by apply dec_wf_bound|done]. }
  unfold CalculateAuthorizedBalance. split.
  - intros H. apply bind_ok_inv in H as ([] & Hv & H). apply request_validate_ok in Hv as (Hb & He & Hk & Ho & Hs & Hm).
    apply bind_ok_inv in H as (t & Ht & H). apply balance_loop_exact in Ht as (vs & Hvs & Hfit & ->); [|done..]. cbn [t_running] in *.
    rewrite Hwalk in H by done. cbn [or_reject map_err mbind outcome_bind] in H. fold (derived req es (Decimal_signed (aq_Opening req) + sum vs)) in H.
    apply bind_ok_inv in H as (d & Hd & H). apply or_reject_ok in Hd.
    assert (Hreq : request_ok req).
    { unfold request_ok. unfold AuthorizedBalance_canonicalDigest in Hd. split_and!; try done; apply Instant_Canonical_ok, not_eq_None_Some; intros E.
      - revert Hd. apply (unencodable_digest _ _ _ "effective_as_of"). unfold authorized_ops, derived. cbn [ab_EffectiveAsOf]. rewrite E. set_solver.
      - revert Hd. apply (unencodable_digest _ _ _ "known_at"). unfold authorized_ops, derived. cbn [ab_KnownAt]. rewrite E. set_solver. }
    split; [done|]. exists vs. split; [done|]. split; [done|].
    unfold AuthorizedBalance_canonicalDigest in Hd. rewrite stream_digest in Hd; [|done|].
    2:{ apply derived_encodable; [done|]. apply sums_fit_last; [by apply dec_wf_bound|done]. }
    injection Hd as Hd. injection H as H. by rewrite <- H, <- Hd.
  - intros (Hreq & vs & Hvs & Hfit & ->). pose proof Hreq as (Hb & He & Hk & Ho & Hs & Hm).
    rewrite (proj2 (request_validate_ok req)); [cbn [mbind outcome_bind]|].
    2:{ apply Instant_Validate_ok in He as [? _], Hk as [? _]. by split_and!. }
    rewrite (proj2 (balance_loop_exact req es Hm (mkTally (aq_Opening req) [] [] []) _ Ho Hs) (ex_intro _ vs (conj Hvs (conj Hfit eq_refl)))).
    cbn [mbind outcome_bind t_running]. rewrite (Hwalk vs) by done. cbn [or_reject map_err mbind outcome_bind].
    fold (derived req es (Decimal_signed (aq_Opening req) + sum vs)). unfold AuthorizedBalance_canonicalDigest. rewrite stream_digest; [done|done|].
    apply derived_encodable; [done|]. apply sums_fit_last; [by apply dec_wf_bound|done].
Qed.

Lemma sum_Permutation vs ws : vs ≡ₚ ws -> sum vs = sum ws.
Proof. induction 1; cbn [sum foldr] in *; unfold sum in *; lia. Qed.

(** The contribution as a function. *)
Definition entry_value (s : Z) (m : RoundingMode) (e : BalanceEntry) : Z :=
  match contribution e s m with Ok d => Decimal_signed d | _ => 0 end.

Lemma contributes_value s m es vs : 0 <= s <= MaxScale -> RoundingMode_Valid m = true ->
  Forall2 (contributes s m) es vs -> vs = entry_value s m <$> es.
Proof.
  intros Hs Hm. induction 1 as [|e v es vs H _ IH]; [done|]. cbn [fmap list_fmap]. rewrite IH. f_equal.
  destruct (contribution_complete _ _ _ _ Hs Hm H) as (d & Hd & _ & _ & <-). unfold entry_value. by rewrite Hd.
Qed.

Lemma as_of_no_panic req es : CalculateAuthorizedBalance req es <> Panic.
Proof.
  unfold CalculateAuthorizedBalance, AuthorizedBalanceRequest_validate. apply bind_no_panic; [no_panic|intros _ _].
  apply bind_no_panic; [apply balance_loop_no_panic|intros t _]. apply bind_no_panic; [apply or_reject_no_panic, Quantize_no_panic|intros d _].
  apply bind_no_panic; [|done]. apply or_reject_no_panic. unfold AuthorizedBalance_canonicalDigest, Writer_Digest, Writer_Bytes. no_panic.
Qed.

(** C12: A calculation never panics.  It returns exactly for a complete request
    when every entry that counts contributes an amount that fits the scale and
    every partial sum fits a decimal; what it returns is the opening balance
    plus the signed amounts of the entries that count, each rounded once by
    the declared mode, with every entry of the account in exactly one of the
    three lists, in ledger order, under a seal.  The ending balance does not
    depend on the order of the ledger, and an entry that counts still counts
    at any later date and under any later knowledge. *)
Theorem authorized_balance_exact (req : AuthorizedBalanceRequest) (es : list BalanceEntry) :
  CalculateAuthorizedBalance req es <> Panic /\
  (forall r, CalculateAuthorizedBalance req es = Ok r <->
     request_ok req /\ exists vs, Forall2 (contributes (aq_Scale req) (aq_Rounding req)) (counted req es) vs /\
       sums_fit (Decimal_signed (aq_Opening req)) vs /\ r = sealed (derived req es (Decimal_signed (aq_Opening req) + sum vs))) /\
  (forall es' r r', es ≡ₚ es' -> CalculateAuthorizedBalance req es = Ok r -> CalculateAuthorizedBalance req es' = Ok r' ->
     ab_Ending r = ab_Ending r') /\
  (forall req' e, aq_AccountID req = aq_AccountID req' ->
     Instant_Compare (aq_EffectiveAsOf req) (aq_EffectiveAsOf req') <= 0 -> Instant_Compare (aq_KnownAt req) (aq_KnownAt req') <= 0 ->
     e ∈ counted req es -> e ∈ counted req' es).
Proof.
  split; [apply as_of_no_panic|split; [|split]].
  - intros r. apply calculate_exact.
  - intros es' r r' Hp (Hreq & vs & Hv & _ & ->)%calculate_exact (_ & ws & Hw & _ & ->)%calculate_exact.
    destruct Hreq as (_ & _ & _ & Ho & Hs & Hm). pose proof (proj1 (dec_wf_scale _ Ho)) as Hsc. rewrite Hs in Hsc.
    apply contributes_value in Hv as ->, Hw as ->; [|done..]. cbn [sealed authorized_with_digest derived ab_Ending]. do 2 f_equal.
    apply sum_Permutation, fmap_Permutation. unfold counted. by rewrite Hp.
  - intros req' e Ha He Hk [Hc Hin]%list_elem_of_filter. apply list_elem_of_filter. split; [|done]. by apply (counts_mono req).
Qed.

End asof_facts.

(** * A concrete ledger *)

Section sample_asof.
#[local] Instance sample_asof_folding : CaseFolding := {| unicode_equal_fold := String.eqb |}.
#[local] Instance sample_asof_sha : Sha256 := {| sha256_Sum256 := fun bs => [Z.of_nat (length bs) mod 256; foldr Z.add 0 bs mod 256] |}.

Definition posted_entry (kind key : string) (q recorded : Z) : BalanceEntry :=
  with_RecordedAt (mkInstant true recorded 0) (leave_entry "a" kind key q).
Definition sample_asof (opening known : Z) : AuthorizedBalanceRequest :=
  mkAsOf "a" (mkInstant true 1000 0) (mkInstant true known 0) (dec_of opening 2 RoundingHalfUp) 2 RoundingHalfUp.
Definition sample_ledger : list BalanceEntry :=
  [posted_entry Credit "k1" 800 200; posted_entry Debit "k2" 300 300; posted_entry Debit "k3" 100 900].

Lemma authorized_balance_exact_witness :
  exists r, CalculateAuthorizedBalance (sample_asof 1000 500) sample_ledger = Ok r /\ Decimal_signed (ab_Ending r) = 1500.
Proof.
  destruct (authorized_balance_exact (sample_asof 1000 500) sample_ledger) as (_ & H & _).
  destruct (CalculateAuthorizedBalance (sample_asof 1000 500) sample_ledger) as [r| |] eqn:E; [|vm_compute in E; discriminate E..].
  exists r. split; [reflexivity|]. destruct (H r) as [H1 _]. destruct (H1 eq_refl) as (_ & vs & Hv & _ & ->).
  cbn [sealed authorized_with_digest derived ab_Ending]. rewrite Decimal_signed_dec_of.
  apply contributes_value in Hv as ->; [vm_compute; reflexivity|vm_compute; split; discriminate|reflexivity].
Defined.

(** The order of a ledger decides whether its balance can be calculated: a
    partial sum of the one order does not fit 38 digits. *)
Lemma order_decides_overflow :
  let credit := posted_entry Credit "k1" (5 * 10 ^ 37) 200 in let debit := posted_entry Debit "k2" (5 * 10 ^ 37) 200 in
  let req := sample_asof (9 * 10 ^ 37) 500 in
  CalculateAuthorizedBalance req [credit; debit] = Err ErrBalanceRequestInvalid /\
  is_ok (CalculateAuthorizedBalance req [debit; credit]) = true.
Proof. split; vm_compute; reflexivity. Qed.

End sample_asof.
