(* ===== verification/BalanceRules.v ===== *)
(** Floors, caps and thresholds over a ledger:
    [internal/domains/balance/rules.go].

    [ApplyRules] walks a ledger in append order and, for each entry, the rules
    in declaration order.  The theorems relate its totals to the entries it
    accepts and the adjustments it generates. *)

From S2P Require Import Prelude GoStrings Sorting CanonicalBytes FixedDecimal DecimalAmounts CivilTime BalanceEntries BalanceAsOf.

Local Open Scope Z_scope.

Definition RuleApplicationEntryType : string := "BALANCE_POLICY_ADJUSTMENT".
Definition BalanceRuleFloor : BalanceRuleKind := "FLOOR".
Definition BalanceRuleCap : BalanceRuleKind := "CAP".
Definition BalanceRuleThreshold : BalanceRuleKind := "THRESHOLD".

Record BalanceRule : Type := mkRule {
  br_ID : string; br_Version : string; br_Kind : BalanceRuleKind; br_AppliesTo : EntryKind; br_Limit : Decimal
}.

Record RuleApplicationRequest : Type := mkRuleRequest {
  ra_AccountID : string; ra_Opening : Decimal; ra_Scale : Z; ra_Rounding : RoundingMode; ra_Rules : list BalanceRule
}.

Record RuleAdjustment : Type := mkAdjustment {
  rj_Entry : BalanceEntry; rj_RuleID : string; rj_RuleVersion : string; rj_RuleKind : BalanceRuleKind; rj_Reason : string;
  rj_SourceEntry : string
}.

Record RuleDecision : Type := mkDecision {
  rd_SourceEntry : string; rd_RuleID : string; rd_RuleVersion : string; rd_RuleKind : BalanceRuleKind; rd_Reason : string;
  rd_Accepted : Decimal; rd_Rejected : Decimal; rd_Overflow : Decimal; rd_ThresholdBreached : bool
}.

Record RuleEvent : Type := mkEvent {
  ev_Type : string; ev_RuleID : string; ev_RuleVersion : string; ev_SourceEntry : string; ev_Reason : string
}.

Record RuleApplicationResult : Type := mkApplied {
  rr_AccountID : string; rr_Opening : Decimal; rr_Ending : Decimal; rr_Accepted : Decimal; rr_Rejected : Decimal;
  rr_Overflow : Decimal; rr_Entries : list BalanceEntry; rr_Adjustments : list RuleAdjustment;
  rr_Decisions : list RuleDecision; rr_Events : list RuleEvent; rr_Digest : string
}.

(** The checks of one rule, and the duplicate check over all. *)
Definition rule_declared (kind : BalanceRuleKind) : bool :=
  String.eqb kind BalanceRuleFloor || String.eqb kind BalanceRuleCap || String.eqb kind BalanceRuleThreshold.
Definition rule_key (r : BalanceRule) : string := br_ID r +:+ nul +:+ br_Version r.

Fixpoint rules_valid (scale : Z) (seen : gset string) (rules : list BalanceRule) : outcome balance_err unit :=
  match rules with
  | [] => Ok tt
  | rule :: rest =>
      _ ← fail_if (is_blank (br_ID rule) || is_blank (br_Version rule)) ErrRuleInvalid;
      _ ← fail_if (negb (rule_declared (br_Kind rule))) ErrRuleInvalid;
      _ ← fail_if (negb (String.eqb (br_AppliesTo rule) "") && negb (String.eqb (br_AppliesTo rule) Debit)
                   && negb (String.eqb (br_AppliesTo rule) Credit)) ErrRuleInvalid;
      _ ← fail_if (not_nonnegative (br_Limit rule) || negb (d_scale (br_Limit rule) =? scale)) ErrRuleInvalid;
      _ ← fail_if (bool_decide (rule_key rule ∈ seen)) ErrRuleInvalid;
      rules_valid scale ({[rule_key rule]} ∪ seen) rest
  end.

Definition validateRuleApplication (req : RuleApplicationRequest) : outcome balance_err unit :=
  _ ← fail_if (is_blank (ra_AccountID req)) ErrRuleApplicationInvalid;
  _ ← fail_if (negb (is_ok (Decimal_Validate (ra_Opening req))) || negb (d_scale (ra_Opening req) =? ra_Scale req)) ErrRuleApplicationInvalid;
  _ ← fail_if (negb (RoundingMode_Valid (ra_Rounding req))) ErrRuleApplicationInvalid;
  rules_valid (ra_Scale req) ∅ (ra_Rules req).

(** [rule.AppliesTo != "" && rule.AppliesTo != kind] skips the rule. *)
Definition applies (rule : BalanceRule) (kind : EntryKind) : bool :=
  String.eqb (br_AppliesTo rule) "" || String.eqb (br_AppliesTo rule) kind.

(** [v, _ := f()]: the value of a call whose error is dropped. *)
Definition ignore_err {E} (m : outcome E Decimal) : Decimal := match m with Ok v => v | _ => Decimal_zero_value end.

Definition with_movement (kind : EntryKind) (amount : Decimal) (type source key : string) (e : BalanceEntry) : BalanceEntry :=
  mkEntry (e_AccountID e) (e_DefinitionID e) (e_DefinitionVersion e) (e_Unit e) (e_Currency e) (e_Subject e) (e_Period e)
    (e_Dimensions e) kind amount type source key (e_EffectiveAt e) (e_RecordedAt e) (e_AuthorizedAt e) (e_SupersedesDigest e).

Definition makeRuleAdjustment (source : BalanceEntry) (amount : Decimal) (kind : EntryKind) (rule : BalanceRule) (number : Z)
    (reason : string) : RuleAdjustment :=
  mkAdjustment
    (with_movement kind amount RuleApplicationEntryType ("BAL-004:" +:+ e_IdempotencyKey source +:+ ":" +:+ br_ID rule)
       ("BAL-004:" +:+ e_IdempotencyKey source +:+ ":" +:+ br_ID rule +:+ ":" +:+ itoa number) source)
    (br_ID rule) (br_Version rule) (br_Kind rule) reason (e_IdempotencyKey source).

(** One movement under the rules: what is accepted of it, the balance it leads
    to, and what it generates. *)
Record movement : Type := mkMovement {
  m_accepted : Decimal; m_candidate : Decimal; m_number : Z; m_adjustments : list RuleAdjustment;
  m_decisions : list RuleDecision; m_events : list RuleEvent
}.

Section rules.
Context `{B : DecimalBackend} `{CM : CaseMapping} `{SHA : Sha256}.

Definition reject_rules {E A} (m : outcome E A) : outcome balance_err A := or_reject m ErrRuleApplicationInvalid.

(** The fields of a decision of [rule] about [source]. *)
Definition decide_rule (source : BalanceEntry) (rule : BalanceRule) (reason : string) (accepted rejected overflow : Decimal)
    (breached : bool) : RuleDecision :=
  mkDecision (e_IdempotencyKey source) (br_ID rule) (br_Version rule) (br_Kind rule) reason accepted rejected overflow breached.
Definition event_of (type : string) (source : BalanceEntry) (rule : BalanceRule) (reason : string) : RuleEvent :=
  mkEvent type (br_ID rule) (br_Version rule) (e_IdempotencyKey source) reason.

(** The case of a threshold. *)
Definition apply_threshold (req : RuleApplicationRequest) (zero : Decimal) (source : BalanceEntry) (rule : BalanceRule) (m : movement)
    : outcome balance_err movement :=
  if 0 <? Decimal_Cmp (m_accepted m) (br_Limit rule) then
    let previous := m_accepted m in
    accepted ← reject_rules (Decimal_Quantize (br_Limit rule) (ra_Scale req) (ra_Rounding req));
    rejected ← reject_rules (Decimal_Sub previous accepted);
    let rejectedDelta := ignore_err (Decimal_Sub previous accepted) in
    let rejectedContribution := ignore_err (signedContribution (e_Kind source) rejectedDelta ErrRuleApplicationInvalid) in
    candidate ← reject_rules (Decimal_Sub (m_candidate m) rejectedContribution);
    Ok (mkMovement accepted candidate (m_number m) (m_adjustments m)
          (m_decisions m ++ [decide_rule source rule "THRESHOLD_EXCEEDED_REJECTED" accepted rejected zero true])
          (m_events m ++ [event_of "THRESHOLD_BREACHED" source rule "THRESHOLD_EXCEEDED_REJECTED"]))
  else if Decimal_Equal (m_accepted m) (br_Limit rule) then
    Ok (mkMovement (m_accepted m) (m_candidate m) (m_number m) (m_adjustments m)
          (m_decisions m ++ [decide_rule source rule "THRESHOLD_MET" (m_accepted m) zero zero true])
          (m_events m ++ [event_of "THRESHOLD_MET" source rule "THRESHOLD_MET"]))
  else
    Ok (mkMovement (m_accepted m) (m_candidate m) (m_number m) (m_adjustments m)
          (m_decisions m ++ [decide_rule source rule "THRESHOLD_NOT_MET" (m_accepted m) zero zero false]) (m_events m)).

(** The case of a floor or a cap. *)
Definition apply_bound (zero : Decimal) (source : BalanceEntry) (rule : BalanceRule) (m : movement) : outcome balance_err movement :=
  if String.eqb (br_Kind rule) BalanceRuleFloor && (Decimal_Cmp (m_candidate m) (br_Limit rule) <? 0) then
    adjustment ← reject_rules (Decimal_Sub (br_Limit rule) (m_candidate m));
    candidate ← reject_rules (Decimal_Add (m_candidate m) adjustment);
    Ok (mkMovement (m_accepted m) candidate (m_number m + 1)
          (m_adjustments m ++ [makeRuleAdjustment source adjustment Credit rule (m_number m + 1) "FLOOR_APPLIED"])
          (m_decisions m ++ [decide_rule source rule "FLOOR_APPLIED" (m_accepted m) zero zero false]) (m_events m))
  else if String.eqb (br_Kind rule) BalanceRuleCap && (0 <? Decimal_Cmp (m_candidate m) (br_Limit rule)) then
    overflow ← reject_rules (Decimal_Sub (m_candidate m) (br_Limit rule));
    candidate ← reject_rules (Decimal_Sub (m_candidate m) overflow);
    Ok (mkMovement (m_accepted m) candidate (m_number m + 1)
          (m_adjustments m ++ [makeRuleAdjustment source overflow Debit rule (m_number m + 1) "CAP_OVERFLOW_ADJUSTED"])
          (m_decisions m ++ [decide_rule source rule "CAP_OVERFLOW_ADJUSTED" (m_accepted m) zero overflow false]) (m_events m))
  else
    Ok (mkMovement (m_accepted m) (m_candidate m) (m_number m) (m_adjustments m)
          (m_decisions m ++ [decide_rule source rule (strings_ToUpper (br_Kind rule) +:+ "_NOT_TRIGGERED") (m_accepted m) zero zero false])
          (m_events m)).

(** One turn of the loop over the rules. *)
Definition apply_rule (req : RuleApplicationRequest) (zero : Decimal) (source : BalanceEntry) (rule : BalanceRule) (m : movement)
    : outcome balance_err movement :=
  if negb (applies rule (e_Kind source)) then Ok m
  else if String.eqb (br_Kind rule) BalanceRuleThreshold then apply_threshold req zero source rule m
  else if String.eqb (br_Kind rule) BalanceRuleFloor || String.eqb (br_Kind rule) BalanceRuleCap then apply_bound zero source rule m
  else Ok (mkMovement (m_accepted m) (m_candidate m) (m_number m) (m_adjustments m)
             (m_decisions m ++ [decide_rule source rule "" (m_accepted m) zero zero false]) (m_events m)).

Fixpoint apply_all (req : RuleApplicationRequest) (zero : Decimal) (source : BalanceEntry) (rules : list BalanceRule) (m : movement)
    : outcome balance_err movement :=
  match rules with
  | [] => Ok m
  | rule :: rest => m' ← apply_rule req zero source rule m; apply_all req zero source rest m'
  end.

(** The totals of the decisions. *)
Fixpoint add_decisions (rejected overflow : Decimal) (ds : list RuleDecision) : outcome balance_err (Decimal * Decimal) :=
  match ds with
  | [] => Ok (rejected, overflow)
  | d :: rest =>
      rejected' ← reject_rules (Decimal_Add rejected (rd_Rejected d));
      overflow' ← reject_rules (Decimal_Add overflow (rd_Overflow d));
      add_decisions rejected' overflow' rest
  end.

(** The state of the loop over the ledger: the running balance and the result
    so far; its ending and digest are filled in at the end. *)
Record application : Type := mkApplication { ap_running : Decimal; ap_number : Z; ap_result : RuleApplicationResult }.

Definition relevant (req : RuleApplicationRequest) (source : BalanceEntry) : bool :=
  String.eqb (e_AccountID source) (ra_AccountID req) && negb (String.eqb (e_EntryType source) RuleApplicationEntryType).

(** The movement of a source before any rule. *)
Definition start_movement (req : RuleApplicationRequest) (running : Decimal) (number : Z) (source : BalanceEntry)
    : outcome balance_err movement :=
  amount ← reject_rules (Decimal_Quantize (e_Amount source) (ra_Scale req) (ra_Rounding req));
  _ ← fail_if (Decimal_Sign amount <=? 0) ErrRuleApplicationInvalid;
  _ ← fail_if (negb (String.eqb (e_Kind source) Debit) && negb (String.eqb (e_Kind source) Credit)) ErrRuleApplicationInvalid;
  delta ← signedContribution (e_Kind source) amount ErrRuleApplicationInvalid;
  candidate ← reject_rules (Decimal_Add running delta);
  Ok (mkMovement amount candidate number [] [] []).

(** One turn of the loop over the ledger. *)
Definition apply_source (req : RuleApplicationRequest) (zero : Decimal) (a : application) (source : BalanceEntry)
    : outcome balance_err application :=
  if negb (relevant req source) then Ok a
  else
    m0 ← start_movement req (ap_running a) (ap_number a) source;
    m ← apply_all req zero source (ra_Rules req) m0;
    let r := ap_result a in
    accepted ← reject_rules (Decimal_Add (rr_Accepted r) (m_accepted m));
    totals ← add_decisions (rr_Rejected r) (rr_Overflow r) (m_decisions m);
    Ok (mkApplication (m_candidate m) (m_number m)
          (mkApplied (rr_AccountID r) (rr_Opening r) (rr_Ending r) accepted (fst totals) (snd totals) (rr_Entries r ++ [source])
             (rr_Adjustments r ++ m_adjustments m) (rr_Decisions r ++ m_decisions m) (rr_Events r ++ m_events m) (rr_Digest r))).

Fixpoint apply_ledger (req : RuleApplicationRequest) (zero : Decimal) (a : application) (ledger : list BalanceEntry)
    : outcome balance_err application :=
  match ledger with
  | [] => Ok a
  | source :: rest => a' ← apply_source req zero a source; apply_ledger req zero a' rest
  end.

Definition rule_ops (rule : BalanceRule) : list op :=
  [ WString "rule.id" (br_ID rule); WString "rule.version" (br_Version rule); WString "rule.kind" (br_Kind rule);
    WString "rule.applies_to" (br_AppliesTo rule); WValue "rule.limit" (Decimal_Canonical (br_Limit rule)) ]%string.

Definition result_ops (req : RuleApplicationRequest) (r : RuleApplicationResult) : list op :=
  [ WString "account_id" (ra_AccountID req); WValue "opening" (Decimal_Canonical (rr_Opening r));
    WValue "ending" (Decimal_Canonical (rr_Ending r)); WValue "accepted" (Decimal_Canonical (rr_Accepted r));
    WValue "rejected" (Decimal_Canonical (rr_Rejected r)); WValue "overflow" (Decimal_Canonical (rr_Overflow r));
    WCount "rules" (Z.of_nat (length (ra_Rules req))) ]%string ++ concat (rule_ops <$> ra_Rules req) ++
  WCount "entries" (Z.of_nat (length (rr_Entries r))) :: ((fun e => WString "entry" (BalanceEntry_Digest e)) <$> rr_Entries r) ++
  WCount "adjustments" (Z.of_nat (length (rr_Adjustments r))) ::
  concat ((fun j => [ WString "adjustment.entry" (BalanceEntry_Digest (rj_Entry j)); WString "adjustment.rule_id" (rj_RuleID j);
                      WString "adjustment.rule_version" (rj_RuleVersion j); WString "adjustment.kind" (rj_RuleKind j);
                      WString "adjustment.reason" (rj_Reason j); WString "adjustment.source" (rj_SourceEntry j) ]%string) <$> rr_Adjustments r) ++
  WCount "decisions" (Z.of_nat (length (rr_Decisions r))) ::
  concat ((fun d => [ WString "decision.source" (rd_SourceEntry d); WString "decision.rule_id" (rd_RuleID d);
                      WString "decision.rule_version" (rd_RuleVersion d); WString "decision.kind" (rd_RuleKind d);
                      WString "decision.reason" (rd_Reason d); WValue "decision.accepted" (Decimal_Canonical (rd_Accepted d));
                      WValue "decision.rejected" (Decimal_Canonical (rd_Rejected d)); WValue "decision.overflow" (Decimal_Canonical (rd_Overflow d));
                      WBool "decision.threshold_breached" (rd_ThresholdBreached d) ]%string) <$> rr_Decisions r) ++
  WCount "events" (Z.of_nat (length (rr_Events r))) ::
  concat ((fun e => [ WString "event.type" (ev_Type e); WString "event.rule_id" (ev_RuleID e);
                      WString "event.rule_version" (ev_RuleVersion e); WString "event.source" (ev_SourceEntry e);
                      WString "event.reason" (ev_Reason e) ]%string) <$> rr_Events r).

Definition ruleResultDigest (req : RuleApplicationRequest) (r : RuleApplicationResult) : outcome canon_err string :=
  Writer_Digest (ops_run (result_ops req r) (New "hcmnext.domains.balance.RuleApplicationResult" 1)).

Definition with_ending (ending : Decimal) (r : RuleApplicationResult) : RuleApplicationResult :=
  mkApplied (rr_AccountID r) (rr_Opening r) ending (rr_Accepted r) (rr_Rejected r) (rr_Overflow r) (rr_Entries r)
    (rr_Adjustments r) (rr_Decisions r) (rr_Events r) (rr_Digest r).
Definition with_result_digest (d : string) (r : RuleApplicationResult) : RuleApplicationResult :=
  mkApplied (rr_AccountID r) (rr_Opening r) (rr_Ending r) (rr_Accepted r) (rr_Rejected r) (rr_Overflow r) (rr_Entries r)
    (rr_Adjustments r) (rr_Decisions r) (rr_Events r) d.

Definition ApplyRules (req : RuleApplicationRequest) (ledger : list BalanceEntry) : outcome balance_err RuleApplicationResult :=
  _ ← validateRuleApplication req;
  zero ← reject_rules (NewDecimal "0" (ra_Scale req) (ra_Rounding req));
  let start := mkApplied (ra_AccountID req) (ra_Opening req) Decimal_zero_value zero zero zero [] [] [] [] "" in
  a ← apply_ledger req zero (mkApplication (ra_Opening req) 0 start) ledger;
  ending ← reject_rules (Decimal_Quantize (ap_running a) (ra_Scale req) (ra_Rounding req));
  let r := with_ending ending (ap_result a) in
  digest ← reject_rules (ruleResultDigest req r);
  Ok (with_result_digest digest r).

End rules.

(** * The values of a movement *)

(** The sign of a kind, the value of an adjustment, and sums over lists. *)
Definition direction (kind : EntryKind) : Z := if String.eqb kind Credit then 1 else -1.
Definition total {A} (f : A -> Z) (l : list A) : Z := foldr (fun x acc => f x + acc) 0 l.
Definition adjustment_value (j : RuleAdjustment) : Z := direction (e_Kind (rj_Entry j)) * Decimal_signed (e_Amount (rj_Entry j)).
Definition overflow_value (j : RuleAdjustment) : Z := if String.eqb (e_Kind (rj_Entry j)) Debit then Decimal_signed (e_Amount (rj_Entry j)) else 0.
Definition rejected_value (d : RuleDecision) : Z := Decimal_signed (rd_Rejected d).
Definition decided_overflow (d : RuleDecision) : Z := Decimal_signed (rd_Overflow d).

Lemma total_app {A} (f : A -> Z) l k : total f (l ++ k) = total f l + total f k.
Proof. induction l as [|x l IH]; cbn in *; [done|]. unfold total in *. lia. Qed.

(** What the thresholds accept of a movement. *)
Definition is_threshold (kind : EntryKind) (rule : BalanceRule) : bool := applies rule kind && String.eqb (br_Kind rule) BalanceRuleThreshold.
Definition accept (kind : EntryKind) (a : Z) (rule : BalanceRule) : Z :=
  if is_threshold kind rule then Z.min a (Decimal_signed (br_Limit rule)) else a.
Definition accepted_of (rules : list BalanceRule) (kind : EntryKind) (q : Z) : Z := fold_left (accept kind) rules q.

Definition rule_ok (scale : Z) (rule : BalanceRule) : Prop :=
  rule_declared (br_Kind rule) = true /\ dec_wf (br_Limit rule) /\ d_scale (br_Limit rule) = scale /\ 0 <= Decimal_signed (br_Limit rule).

Lemma rules_valid_inv scale seen rules : rules_valid scale seen rules = Ok tt -> Forall (rule_ok scale) rules.
Proof.
  revert seen. induction rules as [|r rules IH]; intros seen; cbn [rules_valid]; [constructor|].
  rewrite !bind_unit_ok, !fail_if_ok_iff, !orb_false_iff, !negb_false_iff, Z.eqb_eq, not_nonnegative_false. intros H. destruct_and!.
  constructor; [by split_and!|by eapply IH].
Qed.

Lemma accept_range kind a rule : 0 <= Decimal_signed (br_Limit rule) -> 0 <= a -> 0 <= accept kind a rule <= a.
Proof. intros. unfold accept. case_match; lia. Qed.

Lemma accepted_range scale rules kind q : Forall (rule_ok scale) rules -> 0 <= q -> 0 <= accepted_of rules kind q <= q.
Proof.
  intros Hr. revert q. induction Hr as [|rule rules (_ & _ & _ & Hl) _ IH]; intros q Hq; cbn [accepted_of fold_left]; [unfold accepted_of; cbn; lia|].
  pose proof (accept_range kind q rule Hl Hq) as H. specialize (IH (accept kind q rule) (proj1 H)). unfold accepted_of in *. lia.
Qed.

(** Scale, rounding and rules of a request that passed validation. *)
Definition applicable (req : RuleApplicationRequest) : Prop :=
  dec_wf (ra_Opening req) /\ d_scale (ra_Opening req) = ra_Scale req /\ RoundingMode_Valid (ra_Rounding req) = true /\
  Forall (rule_ok (ra_Scale req)) (ra_Rules req).

Lemma validate_applicable req : validateRuleApplication req = Ok tt -> applicable req.
Proof.
  unfold validateRuleApplication. rewrite !bind_unit_ok, !fail_if_ok_iff, !orb_false_iff, !negb_false_iff, Z.eqb_eq, Validate_amount.
  intros H. destruct_and!. split_and!; try done. by eapply rules_valid_inv.
Qed.

Lemma applicable_scale req : applicable req -> 0 <= ra_Scale req <= MaxScale.
Proof. intros (H & <- & _). by apply dec_wf_scale. Qed.

(** A valid decimal of a scale. *)
Definition amt (s : Z) (d : Decimal) : Prop := amount d s (Decimal_signed d).
Lemma amount_signed d s q : amount d s q -> amt s d /\ Decimal_signed d = q.
Proof. intros (H1 & H2 & H3). by split. Qed.
Definition decision_amounts (s : Z) (d : RuleDecision) : Prop := amt s (rd_Rejected d) /\ amt s (rd_Overflow d) /\ amt s (rd_Accepted d).

Section rules_facts.
Context `{B : DecimalBackend} `{CM : CaseMapping} `{SHA : Sha256}.

Lemma signed_direction kind x err d : dec_wf x -> signedContribution kind x err = Ok d ->
  (kind = Debit \/ kind = Credit) /\ amount d (d_scale x) (direction kind * Decimal_signed x).
Proof.
  intros Hw H. apply (signedContribution_ok _ _ _ _ Hw) in H as [[-> ->]|[-> ->]].
  - split; [by right|]. unfold direction. rewrite String.eqb_refl, Z.mul_1_l. by split.
  - split; [by left|]. change (direction Debit) with (-1). replace (-1 * Decimal_signed x) with (- Decimal_signed x) by lia.
    apply amount_dec_of; [rewrite Z.abs_opp; by apply dec_wf_bound|by apply dec_wf_scale..].
Qed.

Lemma signed_exists kind x err : dec_wf x -> kind = Debit \/ kind = Credit -> exists d, signedContribution kind x err = Ok d.
Proof.
  intros Hw [-> | ->]; eexists; apply (signedContribution_ok _ _ _ _ Hw); [by right|by left].
Qed.

(** What rules do to a movement, given what they generate: at most [n]
    decisions. *)
Definition step_values (s : Z) (source : BalanceEntry) (n : nat) (m m' : movement) (js : list RuleAdjustment) (ds : list RuleDecision) : Prop :=
  m_adjustments m' = m_adjustments m ++ js /\ m_decisions m' = m_decisions m ++ ds /\
  amount (m_candidate m') s (Decimal_signed (m_candidate m)
    - direction (e_Kind source) * (Decimal_signed (m_accepted m) - Decimal_signed (m_accepted m')) + total adjustment_value js) /\
  total rejected_value ds = Decimal_signed (m_accepted m) - Decimal_signed (m_accepted m') /\
  total decided_overflow ds = total overflow_value js /\
  Forall (fun d => amt s (rd_Rejected d) /\ 0 <= rejected_value d /\ amt s (rd_Overflow d) /\ 0 <= decided_overflow d /\ amt s (rd_Accepted d)) ds /\
  Forall (fun j => e_EntryType (rj_Entry j) = RuleApplicationEntryType /\ e_AccountID (rj_Entry j) = e_AccountID source /\
                   0 < Decimal_signed (e_Amount (rj_Entry j))) js /\
  (length ds <= n)%nat.

Record rule_effect (s : Z) (source : BalanceEntry) (rule : BalanceRule) (m m' : movement) : Prop := mkEffect {
  ef_accepted : amount (m_accepted m') s (accept (e_Kind source) (Decimal_signed (m_accepted m)) rule);
  ef_step : exists js ds, step_values s source 1 m m' js ds;
  ef_floor : applies rule (e_Kind source) = true -> br_Kind rule = BalanceRuleFloor -> Decimal_signed (br_Limit rule) <= Decimal_signed (m_candidate m');
  ef_cap : applies rule (e_Kind source) = true -> br_Kind rule = BalanceRuleCap -> Decimal_signed (m_candidate m') <= Decimal_signed (br_Limit rule)
}.

Lemma less_same d o : dec_wf d -> dec_wf o -> d_scale d = d_scale o -> (Decimal_Cmp d o <? 0) = (Decimal_signed d <? Decimal_signed o).
Proof.
  intros Hd Ho E. rewrite Cmp_amount, E by done. pose proof (pow10_pos (d_scale o) (proj1 (proj1 (dec_wf_scale o Ho)))).
  unfold big_cmp. destruct (Z.compare_spec (Decimal_signed d * 10 ^ d_scale o) (Decimal_signed o * 10 ^ d_scale o)),
    (Z.ltb_spec (Decimal_signed d) (Decimal_signed o)); nia.
Qed.

Context (req : RuleApplicationRequest) (zero : Decimal).
Context (Hreq : applicable req) (Hzero : amount zero (ra_Scale req) 0).

#[local] Abbreviation s := (ra_Scale req).

Lemma threshold_effect source rule m m' : rule_ok s rule -> amt s (m_accepted m) -> amt s (m_candidate m) ->
  is_threshold (e_Kind source) rule = true -> apply_threshold req zero source rule m = Ok m' -> rule_effect s source rule m m'.
Proof.
  intros (Hdecl & Hl & Hls & Hl0) (Ha & Has & _) (Hc & Hcs & _) Ht H. unfold apply_threshold in H.
  assert (Hnb : forall k, k <> BalanceRuleThreshold -> br_Kind rule <> k).
  { unfold is_threshold in Ht. apply andb_true_iff in Ht as [_ Ht%String.eqb_eq]. congruence. }
  assert (Hz : amt s zero /\ Decimal_signed zero = 0) by (by apply amount_signed). destruct Hz as [Hz Hz0].
  rewrite Cmp_greater_same in H by congruence. destruct (Z.ltb_spec (Decimal_signed (br_Limit rule)) (Decimal_signed (m_accepted m))) as [Hgt|Hle].
  - apply bind_ok_inv in H as (acc & Hacc & H). unfold reject_rules in Hacc. apply or_reject_ok in Hacc.
    rewrite <- Hls, Quantize_same in Hacc by apply Hreq || done. injection Hacc as <-.
    set (acc := dec_of (Decimal_signed (br_Limit rule)) (d_scale (br_Limit rule)) (ra_Rounding req)) in *.
    assert (Hacc : amount acc s (Decimal_signed (br_Limit rule))).
    { unfold acc. rewrite Hls. apply amount_dec_of; [by apply dec_wf_bound|by apply applicable_scale|apply Hreq]. }
    apply bind_ok_inv in H as (rej & Hr & H). apply or_reject_ok in Hr. rewrite Hr in H. cbn [ignore_err] in H.
    apply Sub_ok_inv in Hr as (_ & _ & _ & Hrej). rewrite Has in Hrej. destruct Hacc as (Haw & Hasc & Hav). rewrite Hav in Hrej.
    destruct Hrej as (Hrw & Hrs & Hrv). apply bind_ok_inv in H as (cand & Hcand & H). apply or_reject_ok in Hcand.
    apply Sub_ok_inv in Hcand as (_ & Hcw & Hcsc & Hcand). injection H as <-.
    destruct (signedContribution (e_Kind source) rej ErrRuleApplicationInvalid) as [x|e|] eqn:Hx; cbn [ignore_err] in *;
      [|by destruct Hcw as (q0 & s0 & m0 & E & _)..].
    apply signed_direction in Hx as [_ (Hxw & Hxs & Hxv)]; [|done]. rewrite Hcs, Hxv, Hrv in Hcand.
    constructor; cbn [m_accepted m_candidate m_adjustments m_decisions].
    + unfold accept. rewrite Ht, Z.min_r by lia. by split.
    + eexists [], [_]. unfold step_values. cbn [m_accepted m_candidate m_adjustments m_decisions]. rewrite app_nil_r. split; [done|]. split; [reflexivity|]. cbn [total foldr]. unfold rejected_value, decided_overflow.
      cbn [decide_rule rd_Rejected rd_Overflow rd_Accepted]. rewrite Hav, Hrv, Hz0. split; [|split; [lia|split; [done|split; [|by split; [constructor|cbn; lia]]]]].
      * destruct Hcand as (? & ? & Hv). split_and!; [done|done|]. rewrite Hv. lia.
      * constructor; [|constructor]. cbn. rewrite Hz0. split_and!; try done; lia.
    + intros _ E. by apply Hnb in E.
    + intros _ E. by apply Hnb in E.
  - assert (Hm : exists d, m' = mkMovement (m_accepted m) (m_candidate m) (m_number m) (m_adjustments m) (m_decisions m ++ [d]) (m_events m')
      /\ rd_Rejected d = zero /\ rd_Overflow d = zero /\ rd_Accepted d = m_accepted m).
    { destruct (Decimal_Equal _ _); injection H as <-; by eexists. }
    destruct Hm as (d & -> & Hd1 & Hd2 & Hd3). constructor; cbn [m_accepted m_candidate m_adjustments m_decisions].
    + unfold accept. rewrite Ht, Z.min_l by lia. by split.
    + exists [], [d]. unfold step_values. cbn [m_accepted m_candidate m_adjustments m_decisions]. rewrite app_nil_r. split; [done|]. split; [done|]. cbn [total foldr]. unfold rejected_value, decided_overflow. rewrite Hd1, Hd2, Hz0.
      split; [|split; [lia|split; [done|split; [|by split; [constructor|cbn; lia]]]]].
      * split_and!; [done|done|]. lia.
      * constructor; [|constructor]. rewrite Hd1, Hd2, Hd3, Hz0. by split_and!.
    + intros _ E. by apply Hnb in E.
    + intros _ E. by apply Hnb in E.
Qed.

(** A movement that only gains a decision. *)
Lemma noted_effect source rule m d : amt s (m_accepted m) -> amt s (m_candidate m) -> is_threshold (e_Kind source) rule = false ->
  rd_Rejected d = zero -> rd_Overflow d = zero -> rd_Accepted d = m_accepted m ->
  (applies rule (e_Kind source) = true -> br_Kind rule = BalanceRuleFloor -> Decimal_signed (br_Limit rule) <= Decimal_signed (m_candidate m)) ->
  (applies rule (e_Kind source) = true -> br_Kind rule = BalanceRuleCap -> Decimal_signed (m_candidate m) <= Decimal_signed (br_Limit rule)) ->
  rule_effect s source rule m (mkMovement (m_accepted m) (m_candidate m) (m_number m) (m_adjustments m) (m_decisions m ++ [d]) (m_events m)).
Proof.
  intros Ha (Hc & Hcs & _) Ht Hd1 Hd2 Hd3 Hf Hcap. assert (Hz : amt s zero /\ Decimal_signed zero = 0) by (by apply amount_signed). destruct Hz as [Hz Hz0].
  constructor; cbn [m_accepted m_candidate m_adjustments m_decisions]; [by unfold accept; rewrite Ht| |done|done].
  exists [], [d]. unfold step_values. cbn [m_accepted m_candidate m_adjustments m_decisions]. rewrite app_nil_r. split; [done|]. split; [done|]. cbn [total foldr]. unfold rejected_value, decided_overflow. rewrite Hd1, Hd2, Hz0.
  split; [split_and!; [done|done|lia]|]. split; [lia|]. split; [done|]. split; [|by split; [constructor|cbn; lia]].
  constructor; [|constructor]. rewrite Hd1, Hd2, Hd3, Hz0. by split_and!.
Qed.

(** A movement that is adjusted to the limit. *)
Lemma adjusted_effect source rule m d x cand kind reason n : amt s (m_accepted m) -> is_threshold (e_Kind source) rule = false ->
  amount x s (direction kind * (Decimal_signed (br_Limit rule) - Decimal_signed (m_candidate m))) -> 0 < Decimal_signed x ->
  amount cand s (Decimal_signed (br_Limit rule)) -> kind = Credit \/ kind = Debit ->
  rd_Rejected d = zero -> rd_Overflow d = (if String.eqb kind Debit then x else zero) -> rd_Accepted d = m_accepted m ->
  rule_effect s source rule m (mkMovement (m_accepted m) cand n
    (m_adjustments m ++ [makeRuleAdjustment source x kind rule n reason]) (m_decisions m ++ [d]) (m_events m)).
Proof.
  intros Ha Ht (Hxw & Hxs & Hxv) Hpos (Hcw & Hcs & Hcv) Hk Hd1 Hd2 Hd3. assert (Hz : amt s zero /\ Decimal_signed zero = 0) by (by apply amount_signed).
  destruct Hz as [Hz Hz0]. assert (Hdd : direction kind * direction kind = 1) by (by destruct Hk as [-> | ->]).
  constructor; cbn [m_accepted m_candidate m_adjustments m_decisions]; [by unfold accept; rewrite Ht| |lia|lia].
  exists [makeRuleAdjustment source x kind rule n reason], [d]. unfold step_values. cbn [m_accepted m_candidate m_adjustments m_decisions]. split; [done|]. split; [done|]. cbn [total foldr].
  unfold rejected_value, decided_overflow, adjustment_value, overflow_value. cbn [makeRuleAdjustment rj_Entry with_movement e_Kind e_Amount].
  rewrite Hd1, Hz0. split; [split_and!; [done|done|]|].
  { rewrite Hxv, Hcv, Z.mul_assoc, Hdd. lia. }
  split; [lia|]. split; [rewrite Hd2; destruct (String.eqb kind Debit); lia|]. split; [|split; [|cbn; lia]].
  - constructor; [|constructor]. rewrite Hd1, Hd2, Hd3, Hz0. split_and!; try done; destruct (String.eqb kind Debit); try done; lia.
  - constructor; [|constructor]. done.
Qed.

Lemma bound_effect source rule m m' : rule_ok s rule -> amt s (m_accepted m) -> amt s (m_candidate m) ->
  is_threshold (e_Kind source) rule = false -> apply_bound zero source rule m = Ok m' -> rule_effect s source rule m m'.
Proof.
  intros (Hdecl & Hl & Hls & Hl0) Ha (Hc & Hcs & _) Ht H. unfold apply_bound in H.
  rewrite less_same, Cmp_greater_same in H by congruence.
  destruct (String.eqb_spec (br_Kind rule) BalanceRuleFloor) as [Ef|Ef]; cbn [andb] in H.
  - destruct (Z.ltb_spec (Decimal_signed (m_candidate m)) (Decimal_signed (br_Limit rule))) as [Hlt|Hge].
    + apply bind_ok_inv in H as (x & Hx & H). apply or_reject_ok, Sub_ok_inv in Hx as (_ & _ & _ & Hx). rewrite Hls in Hx.
      apply bind_ok_inv in H as (cand & Hcand & H). apply or_reject_ok, Add_ok_inv in Hcand as (_ & _ & _ & Hcand). rewrite Hcs in Hcand.
      destruct Hx as (Hxw & Hxs & Hxv), Hcand as (Hcw & Hcsc & Hcv). injection H as <-.
      apply adjusted_effect; try done; [split_and!; [done|done|]|lia|split_and!; [done|done|]|by left].
      * rewrite Hxv. change (direction Credit) with 1. lia.
      * rewrite Hcv, Hxv. lia.
    + assert (Hcap : String.eqb (br_Kind rule) BalanceRuleCap = false) by (by rewrite Ef). rewrite Hcap in H. cbn [andb] in H. injection H as <-.
      apply noted_effect; try done; rewrite Ef; done.
  - destruct (String.eqb_spec (br_Kind rule) BalanceRuleCap) as [Ec|Ec]; cbn [andb] in H.
    2:{ injection H as <-. by apply noted_effect. }
    destruct (Z.ltb_spec (Decimal_signed (br_Limit rule)) (Decimal_signed (m_candidate m))) as [Hgt|Hle].
    + apply bind_ok_inv in H as (x & Hx & H). apply or_reject_ok, Sub_ok_inv in Hx as (_ & _ & _ & Hx). rewrite Hcs in Hx.
      apply bind_ok_inv in H as (cand & Hcand & H). apply or_reject_ok, Sub_ok_inv in Hcand as (_ & _ & _ & Hcand). rewrite Hcs in Hcand.
      destruct Hx as (Hxw & Hxs & Hxv), Hcand as (Hcw & Hcsc & Hcv). injection H as <-.
      apply adjusted_effect; try done; [split_and!; [done|done|]|lia|split_and!; [done|done|]|by right].
      * rewrite Hxv. change (direction Debit) with (-1). lia.
      * rewrite Hcv, Hxv. lia.
    + injection H as <-. by apply noted_effect.
Qed.

(** A rule that is skipped, and any rule. *)
Lemma skipped_effect source rule m : amt s (m_accepted m) -> amt s (m_candidate m) -> applies rule (e_Kind source) = false -> rule_effect s source rule m m.
Proof.
  intros Ha (Hc & Hcs & _) Hn. constructor.
  - unfold accept, is_threshold. by rewrite Hn.
  - exists [], []. unfold step_values. rewrite !app_nil_r. cbn [total foldr length]. do 2 (split; [done|]). split; [split_and!; [done|done|lia]|]. split_and!; try constructor; lia.
  - congruence.
  - congruence.
Qed.

Lemma apply_rule_effect source rule m m' : rule_ok s rule -> amt s (m_accepted m) -> amt s (m_candidate m) ->
  apply_rule req zero source rule m = Ok m' -> rule_effect s source rule m m'.
Proof.
  intros Hr Ha Hc H. unfold apply_rule in H. destruct (applies rule (e_Kind source)) eqn:Happ; cbn [negb] in H.
  2:{ injection H as <-. by apply skipped_effect. }
  destruct (String.eqb (br_Kind rule) BalanceRuleThreshold) eqn:Ht.
  { apply threshold_effect; try done. unfold is_threshold. by rewrite Happ, Ht. }
  assert (Hnt : is_threshold (e_Kind source) rule = false) by (unfold is_threshold; by rewrite Happ, Ht).
  destruct Hr as (Hdecl & Hr). unfold rule_declared in Hdecl. rewrite Ht, orb_false_r in Hdecl. rewrite Hdecl in H.
  apply bound_effect; try done. split; [|done]. unfold rule_declared. by rewrite Hdecl.
Qed.

(** * A whole movement *)

Lemma step_values_compose source n1 n2 m1 m2 m3 js1 js2 ds1 ds2 :
  step_values s source n1 m1 m2 js1 ds1 -> step_values s source n2 m2 m3 js2 ds2 ->
  step_values s source (n1 + n2) m1 m3 (js1 ++ js2) (ds1 ++ ds2).
Proof.
  intros (A1 & A2 & (A3 & A4 & A5) & A6 & A7 & A8 & A9 & A10) (B1 & B2 & (B3 & B4 & B5) & B6 & B7 & B8 & B9 & B10).
  unfold step_values. rewrite !total_app, length_app. split; [by rewrite B1, A1, app_assoc|]. split; [by rewrite B2, A2, app_assoc|].
  split; [split_and!; [done|done|rewrite B5, A5; ring]|]. split; [lia|]. split; [lia|].
  split; [by apply Forall_app_2|]. split; [by apply Forall_app_2|lia].
Qed.

Lemma apply_all_effect source rules m m' : Forall (rule_ok s) rules -> amt s (m_accepted m) -> amt s (m_candidate m) ->
  apply_all req zero source rules m = Ok m' ->
  amount (m_accepted m') s (accepted_of rules (e_Kind source) (Decimal_signed (m_accepted m))) /\
  (exists js ds, step_values s source (length rules) m m' js ds) /\
  (forall done_ last, rules = done_ ++ [last] -> applies last (e_Kind source) = true ->
     (br_Kind last = BalanceRuleFloor -> Decimal_signed (br_Limit last) <= Decimal_signed (m_candidate m')) /\
     (br_Kind last = BalanceRuleCap -> Decimal_signed (m_candidate m') <= Decimal_signed (br_Limit last))).
Proof.
  intros Hr. revert m. induction Hr as [|rule rules Hrule _ IH]; intros m Ha Hc H; cbn [apply_all] in H.
  { injection H as <-. split; [done|]. split; [|by intros [|] ? [=]]. destruct Hc as (Hc & Hcs & _).
    exists [], []. unfold step_values. rewrite !app_nil_r. cbn [total foldr length]. do 2 (split; [done|]). split; [split_and!; [done|done|lia]|].
    split_and!; try constructor; lia. }
  apply bind_ok_inv in H as (m1 & H1 & H). destruct (apply_rule_effect _ _ _ _ Hrule Ha Hc H1) as [E1 (js & ds & E2) E3 E4].
  destruct (amount_signed _ _ _ E1) as [Ha1 Hv1]. pose proof E2 as (_ & _ & Hc1 & _). apply amount_signed in Hc1 as [Hc1 _].
  destruct (IH m1 Ha1 Hc1 H) as (I1 & (js' & ds' & I2) & I3). split; [|split].
  - cbn [accepted_of fold_left]. by rewrite <- Hv1.
  - exists (js ++ js'), (ds ++ ds'). by apply (step_values_compose source 1 (length rules) m m1 m').
  - intros done_ last Hlast Happ. destruct done_ as [|r0 done_]; cbn in Hlast; injection Hlast as -> Hlast.
    + subst rules. cbn in H. injection H as <-. split; [by apply E3|by apply E4].
    + by apply (I3 done_).
Qed.

End rules_facts.

(** * A whole ledger *)

Section ledger_facts.
Context `{B : DecimalBackend} `{CM : CaseMapping} `{SHA : Sha256}.
Context (req : RuleApplicationRequest) (zero : Decimal).
Context (Hreq : applicable req) (Hzero : amount zero (ra_Scale req) 0).

#[local] Abbreviation s := (ra_Scale req).

(** The amount of a source at the scale of the request, and the part of it the
    thresholds accept. *)
Definition source_value (e : BalanceEntry) : Z :=
  match Decimal_Quantize (e_Amount e) (ra_Scale req) (ra_Rounding req) with Ok d => Decimal_signed d | _ => 0 end.
Definition accepted_value (e : BalanceEntry) : Z := accepted_of (ra_Rules req) (e_Kind e) (source_value e).
Definition sources (ledger : list BalanceEntry) : list BalanceEntry := filter (fun e => relevant req e = true) ledger.

(** A source that can be applied. *)
Definition source_ok (e : BalanceEntry) : Prop :=
  (exists d, Decimal_Quantize (e_Amount e) (ra_Scale req) (ra_Rounding req) = Ok d) /\ 0 < source_value e /\
  (e_Kind e = Debit \/ e_Kind e = Credit).

(** The last rule, when it applies to every kind, bounds the balance. *)
Definition last_rule_holds (q : Z) : Prop :=
  forall before last, ra_Rules req = before ++ [last] -> br_AppliesTo last = "" ->
    (br_Kind last = BalanceRuleFloor -> Decimal_signed (br_Limit last) <= q) /\
    (br_Kind last = BalanceRuleCap -> q <= Decimal_signed (br_Limit last)).

(** What the loop has derived from the sources so far. *)
Definition applied (es : list BalanceEntry) (a : application) : Prop :=
  let r := ap_result a in
  amount (ap_running a) s (Decimal_signed (ra_Opening req) + total (fun e => direction (e_Kind e) * accepted_value e) es
                           + total adjustment_value (rr_Adjustments r)) /\
  (rr_AccountID r = ra_AccountID req /\ rr_Opening r = ra_Opening req /\ rr_Entries r = es) /\
  amount (rr_Accepted r) s (total accepted_value es) /\
  amount (rr_Rejected r) s (total (fun e => source_value e - accepted_value e) es) /\
  amount (rr_Overflow r) s (total overflow_value (rr_Adjustments r)) /\
  Forall (fun j => e_EntryType (rj_Entry j) = RuleApplicationEntryType /\ e_AccountID (rj_Entry j) = ra_AccountID req /\
                   0 < Decimal_signed (e_Amount (rj_Entry j))) (rr_Adjustments r) /\
  Forall source_ok es /\ Forall (decision_amounts s) (rr_Decisions r) /\ (es <> [] -> last_rule_holds (Decimal_signed (ap_running a))).

Lemma start_movement_spec running number e m : dec_wf running -> d_scale running = s -> start_movement req running number e = Ok m ->
  source_ok e /\ amount (m_accepted m) s (source_value e) /\
  amount (m_candidate m) s (Decimal_signed running + direction (e_Kind e) * source_value e) /\
  m_adjustments m = [] /\ m_decisions m = [].
Proof.
  intros Hw Hs H. unfold start_movement in H. apply bind_ok_inv in H as (d & Hd & H). apply or_reject_ok in Hd.
  assert (Hv : source_value e = Decimal_signed d) by (unfold source_value; by rewrite Hd).
  pose proof (Quantize_wf _ _ _ _ Hd) as (_ & Hdw & Hds & _). rewrite Hv.
  apply bind_ok_inv in H as (u1 & Hpos%fail_if_ok & H). apply bind_ok_inv in H as (u2 & _ & H).
  apply bind_ok_inv in H as (x & Hx & H). apply bind_ok_inv in H as (c & Hc & H). injection H as <-.
  apply signed_direction in Hx as [Hk (Hxw & Hxs & Hxv)]; [|done]. apply or_reject_ok, Add_ok_inv in Hc as (_ & _ & _ & Hc).
  rewrite Hs, Hxv in Hc. rewrite (Sign_amount d Hdw) in Hpos. cbn [m_accepted m_candidate m_adjustments m_decisions].
  split; [|split; [by split|by split_and!]]. split; [by exists d|]. split; [rewrite Hv; lia|done].
Qed.

Lemma add_decisions_spec ds rejected overflow out : Forall (decision_amounts s) ds -> amt s rejected -> amt s overflow ->
  add_decisions rejected overflow ds = Ok out ->
  amount (fst out) s (Decimal_signed rejected + total rejected_value ds) /\
  amount (snd out) s (Decimal_signed overflow + total decided_overflow ds).
Proof.
  intros Hds. revert rejected overflow. induction Hds as [|d ds (Hr & Ho & _) _ IH]; intros rej ovf Hrej Hovf H; cbn [add_decisions] in H.
  { injection H as <-. cbn [fst snd total foldr]. by rewrite !Z.add_0_r. }
  apply bind_ok_inv in H as (rej' & H1 & H). apply bind_ok_inv in H as (ovf' & H2 & H).
  apply or_reject_ok, Add_ok_inv in H1 as (_ & _ & _ & H1). apply or_reject_ok, Add_ok_inv in H2 as (_ & _ & _ & H2).
  rewrite (proj1 (proj2 Hrej)) in H1. rewrite (proj1 (proj2 Hovf)) in H2.
  apply amount_signed in H1 as [H1 V1], H2 as [H2 V2]. destruct (IH _ _ H1 H2 H) as [E1 E2]. cbn [total foldr]. fold (total rejected_value ds) (total decided_overflow ds).
  unfold rejected_value at 1, decided_overflow at 1. by rewrite !Z.add_assoc, <- V1, <- V2.
Qed.

Lemma total_one {A} (f : A -> Z) x : total f [x] = f x.
Proof. cbn. lia. Qed.

Lemma apply_source_spec es a e a' : applied es a -> relevant req e = true -> apply_source req zero a e = Ok a' -> applied (es ++ [e]) a'.
Proof.
  intros (Hrun & (Hacc & Hop & Hes) & Ha & Hr & Ho & Hj & Hok & Hd & _) Hrel H. unfold apply_source in H. rewrite Hrel in H. cbn [negb] in H.
  apply bind_ok_inv in H as (m0 & H0 & H). apply bind_ok_inv in H as (m & Hm & H).
  destruct Hrun as (Hrw & Hrs & Hrv). apply start_movement_spec in H0 as (Hsrc & Hacc0 & Hc0 & Hj0 & Hd0); [|done..].
  apply amount_signed in Hacc0 as [Hacc0 Va0], Hc0 as [Hc0 Vc0].
  destruct (apply_all_effect req zero Hreq Hzero e _ _ _ (proj2 (proj2 (proj2 Hreq))) Hacc0 Hc0 Hm)
    as (Hacc1 & (js & ds & E1 & E2 & Hc1 & E4 & E5 & E6 & E7 & E8) & Hlast).
  rewrite Va0 in Hacc1. fold (accepted_value e) in Hacc1. pose proof (proj2 (proj2 Hacc1)) as Hv1.
  rewrite Hj0 in E1. rewrite Hd0 in E2. cbn [app] in E1, E2. rewrite Va0, Hv1 in *. rewrite Vc0, Hrv in Hc1.
  apply bind_ok_inv in H as (acc & Hadd & H). apply or_reject_ok, Add_ok_inv in Hadd as (_ & _ & _ & Hadd).
  rewrite (proj1 (proj2 Ha)), (proj2 (proj2 Ha)), Hv1 in Hadd. apply bind_ok_inv in H as (out & Hout & H).
  assert (Hds : Forall (decision_amounts s) ds).
  { eapply Forall_impl; [exact E6|]. intros d (D1 & _ & D2 & _ & D3). by split_and!. }
  apply amount_signed in Hr as [Hr Vr], Ho as [Ho Vo]. rewrite E2 in Hout.
  apply add_decisions_spec in Hout as [Hrej Hovf]; [|done..]. rewrite Vr, E4 in Hrej. rewrite Vo, E5 in Hovf. injection H as <-.
  unfold applied. cbn [ap_running ap_result rr_AccountID rr_Opening rr_Entries rr_Accepted rr_Rejected rr_Overflow rr_Adjustments rr_Decisions].
  rewrite E1, E2, !total_app, !total_one.
  split; [|split; [|split; [|split; [|split; [|split; [|split; [|split]]]]]]].
  - destruct Hc1 as (? & ? & Hv). split_and!; [done|done|rewrite Hv; ring].
  - split_and!; [done|done|by rewrite Hes].
  - done.
  - done.
  - done.
  - apply Forall_app_2; [done|]. eapply Forall_impl; [exact E7|]. intros j (J1 & J2 & J3). split_and!; [done| |done].
    rewrite J2. unfold relevant in Hrel. by apply andb_true_iff in Hrel as [->%String.eqb_eq _].
  - apply Forall_app_2; [done|by constructor].
  - by apply Forall_app_2.
  - intros _ before last Hbl Happ. apply (Hlast before last Hbl). unfold applies. by rewrite Happ.
Qed.

Lemma apply_ledger_spec ledger : forall es a a', applied es a -> apply_ledger req zero a ledger = Ok a' -> applied (es ++ sources ledger) a'.
Proof.
  induction ledger as [|e ledger IH]; intros es a a' Ha H; cbn [apply_ledger] in H.
  { injection H as <-. cbn. by rewrite app_nil_r. }
  apply bind_ok_inv in H as (a1 & H1 & H). unfold sources. destruct (relevant req e) eqn:Hrel.
  - rewrite filter_cons_True by done. fold (sources ledger). change (e :: sources ledger) with ([e] ++ sources ledger). rewrite app_assoc. apply (IH _ a1); [|done]. by apply (apply_source_spec es a).
  - rewrite filter_cons_False by congruence. fold (sources ledger). apply (IH _ a1); [|done].
    unfold apply_source in H1. rewrite Hrel in H1. cbn [negb] in H1. by injection H1 as <-.
Qed.

(** Only the sources of a ledger matter. *)
Lemma apply_ledger_sources ledger a : apply_ledger req zero a ledger = apply_ledger req zero a (sources ledger).
Proof.
  revert a. induction ledger as [|e ledger IH]; intros a; [done|]. cbn [apply_ledger]. unfold sources. destruct (relevant req e) eqn:Hrel.
  - rewrite filter_cons_True by done. fold (sources ledger). cbn [apply_ledger]. destruct (apply_source req zero a e); cbn; [apply IH|done|done].
  - rewrite filter_cons_False by congruence. fold (sources ledger). unfold apply_source. rewrite Hrel. cbn [negb mbind outcome_bind]. apply IH.
Qed.

(** ** The calculation returns when its amounts leave room *)

Lemma Add_returns d o : dec_wf d -> dec_wf o -> d_scale d = d_scale o -> Z.abs (Decimal_signed d + Decimal_signed o) < 10 ^ MaxPrecision ->
  exists r, Decimal_Add d o = Ok r.
Proof. intros Hd Ho E Hb. rewrite Add_amount, E, Z.eqb_refl, (proj2 (Z.ltb_lt _ _) Hb) by done. by eexists. Qed.
Lemma Sub_returns d o : dec_wf d -> dec_wf o -> d_scale d = d_scale o -> Z.abs (Decimal_signed d - Decimal_signed o) < 10 ^ MaxPrecision ->
  exists r, Decimal_Sub d o = Ok r.
Proof. intros Hd Ho E Hb. rewrite Sub_amount, E, Z.eqb_refl, (proj2 (Z.ltb_lt _ _) Hb) by done. by eexists. Qed.

Context (M : Z) (HM0 : 0 <= M) (HM : Forall (fun r => Decimal_signed (br_Limit r) <= M) (ra_Rules req)).

(** [K] bounds the candidate together with what is still accepted. *)
Definition room (K : Z) (m : movement) : Prop :=
  amt s (m_accepted m) /\ amt s (m_candidate m) /\ 0 <= Decimal_signed (m_accepted m) /\
  Z.abs (Decimal_signed (m_candidate m)) + Decimal_signed (m_accepted m) <= K /\ M + Decimal_signed (m_accepted m) <= K /\ M + K < 10 ^ MaxPrecision.

Definition overflows_within (K : Z) (m m' : movement) : Prop :=
  exists ds, m_decisions m' = m_decisions m ++ ds /\ total decided_overflow ds <= K.

Lemma apply_rule_returns K e rule m : rule_ok s rule -> Decimal_signed (br_Limit rule) <= M -> e_Kind e = Debit \/ e_Kind e = Credit ->
  room K m -> exists m', apply_rule req zero e rule m = Ok m' /\ overflows_within K m m' /\ room K m'.
Proof.
  intros (Hdecl & Hl & Hls & Hl0) HlM Hk Hroom. pose proof Hroom as ((Ha & Has & _) & (Hc & Hcs & _) & Ha0 & HK1 & HK2 & HK3).
  assert (Hn : forall d, rd_Overflow d = zero -> total decided_overflow [d] <= K).
  { intros d Hd. rewrite total_one. unfold decided_overflow. rewrite Hd. destruct Hzero as (_ & _ & ->). lia. }
  unfold apply_rule. destruct (applies rule (e_Kind e)); cbn [negb]; [|exists m; split; [done|]; split; [|done]; exists []; rewrite app_nil_r; split; [done|cbn; lia]].
  destruct (String.eqb (br_Kind rule) BalanceRuleThreshold).
  { unfold apply_threshold. rewrite Cmp_greater_same by congruence.
    destruct (Z.ltb_spec (Decimal_signed (br_Limit rule)) (Decimal_signed (m_accepted m))) as [Hgt|Hle].
    2:{ destruct (Decimal_Equal _ _); eexists; (split; [reflexivity|]); (split; [|exact Hroom]); eexists [_]; (split; [reflexivity|]); by apply Hn. }
    pose proof (Quantize_same (br_Limit rule) (ra_Rounding req) Hl (proj1 (proj2 (proj2 Hreq)))) as Hq. rewrite Hls in Hq. rewrite Hq.
    cbn [reject_rules or_reject map_err mbind outcome_bind]. set (acc := dec_of _ _ _).
    assert (Hacc : amount acc s (Decimal_signed (br_Limit rule))).
    { apply amount_dec_of; [by apply dec_wf_bound|by apply applicable_scale|apply Hreq]. } destruct Hacc as (Hw & Hsc & Hv).
    destruct (Sub_returns (m_accepted m) acc) as [rej Hrej]; [done|done|congruence|rewrite Hv; lia|]. rewrite Hrej.
    cbn [reject_rules or_reject map_err mbind outcome_bind ignore_err]. apply Sub_ok_inv in Hrej as (_ & _ & _ & Hrw & Hrs & Hrv).
    destruct (signed_exists (e_Kind e) rej ErrRuleApplicationInvalid Hrw Hk) as [x Hx]. rewrite Hx. cbn [ignore_err].
    apply signed_direction in Hx as [_ (Hxw & Hxs & Hxv)]; [|done].
    destruct (Sub_returns (m_candidate m) x) as [cand Hcand]; [done|done|congruence| |].
    { rewrite Hxv, Hrv, Hv. assert (direction (e_Kind e) = 1 \/ direction (e_Kind e) = -1) as [-> | ->] by (destruct Hk as [-> | ->]; auto); lia. }
    rewrite Hcand. apply Sub_ok_inv in Hcand as (_ & _ & _ & Hcw & Hcsc & Hcv). eexists. split; [reflexivity|]. split.
    { eexists [_]. split; [reflexivity|]. by apply Hn. }
    unfold room. cbn [m_accepted m_candidate]. rewrite Hv. split; [by split_and!|]. split; [split_and!; [done|congruence|done]|]. split; [lia|]. split; [|lia].
    rewrite Hcv, Hxv, Hrv, Hv. assert (direction (e_Kind e) = 1 \/ direction (e_Kind e) = -1) as [-> | ->] by (destruct Hk as [-> | ->]; auto); lia. }
  assert (Hb : exists m', apply_bound zero e rule m = Ok m' /\ overflows_within K m m' /\ room K m').
  { unfold apply_bound. rewrite less_same, Cmp_greater_same by congruence.
    destruct (String.eqb (br_Kind rule) BalanceRuleFloor && _) eqn:E1.
    - apply andb_true_iff in E1 as [_ E1%Z.ltb_lt]. destruct (Sub_returns (br_Limit rule) (m_candidate m)) as [x Hx]; [done|done|congruence|lia|].
      rewrite Hx. cbn [reject_rules or_reject map_err mbind outcome_bind]. apply Sub_ok_inv in Hx as (_ & _ & _ & Hxw & Hxs & Hxv).
      destruct (Add_returns (m_candidate m) x) as [cand Hcand]; [done|done|congruence|lia|]. rewrite Hcand.
      apply Add_ok_inv in Hcand as (_ & _ & _ & Hcw & Hcsc & Hcv). eexists. split; [reflexivity|]. split.
      { eexists [_]. split; [reflexivity|]. by apply Hn. }
      unfold room. cbn [m_accepted m_candidate]. split; [by split_and!|]. split; [split_and!; [done|congruence|done]|]. split; [lia|]. split; lia.
    - destruct (String.eqb (br_Kind rule) BalanceRuleCap && _) eqn:E2.
      + apply andb_true_iff in E2 as [_ E2%Z.ltb_lt]. destruct (Sub_returns (m_candidate m) (br_Limit rule)) as [x Hx]; [done|done|congruence|lia|].
        rewrite Hx. cbn [reject_rules or_reject map_err mbind outcome_bind]. apply Sub_ok_inv in Hx as (_ & _ & _ & Hxw & Hxs & Hxv).
        destruct (Sub_returns (m_candidate m) x) as [cand Hcand]; [done|done|congruence|lia|]. rewrite Hcand.
        apply Sub_ok_inv in Hcand as (_ & _ & _ & Hcw & Hcsc & Hcv). eexists. split; [reflexivity|]. split.
        { eexists [_]. split; [reflexivity|]. rewrite total_one. unfold decided_overflow. cbn [decide_rule rd_Overflow]. lia. }
        unfold room. cbn [m_accepted m_candidate]. split; [by split_and!|]. split; [split_and!; [done|congruence|done]|]. split; [lia|]. split; lia.
      + eexists. split; [reflexivity|]. split; [|exact Hroom]. eexists [_]. split; [reflexivity|]. by apply Hn. }
  destruct (String.eqb (br_Kind rule) BalanceRuleFloor || String.eqb (br_Kind rule) BalanceRuleCap); [done|].
  eexists. split; [reflexivity|]. split; [|exact Hroom]. eexists [_]. split; [reflexivity|]. by apply Hn.
Qed.

Lemma apply_all_returns K e rules m : Forall (rule_ok s) rules -> Forall (fun r => Decimal_signed (br_Limit r) <= M) rules ->
  e_Kind e = Debit \/ e_Kind e = Credit -> room K m ->
  exists m' ds, apply_all req zero e rules m = Ok m' /\ room K m' /\ m_decisions m' = m_decisions m ++ ds /\
    total decided_overflow ds <= Z.of_nat (length rules) * K.
Proof.
  intros Hr HlM Hk. revert m. induction rules as [|rule rules IH]; intros m Hroom; cbn [apply_all].
  { exists m, []. rewrite app_nil_r. by split_and!. }
  apply Forall_cons in Hr as [Hrule Hr], HlM as [Hlim HlM]. destruct (apply_rule_returns K e rule m Hrule Hlim Hk Hroom) as (m1 & H1 & (ds & E1 & Ho1) & Hroom1).
  rewrite H1. cbn [mbind outcome_bind]. destruct (IH Hr HlM m1 Hroom1) as (m' & ds' & H' & Hroom' & E' & Ho'). exists m', (ds ++ ds').
  split; [done|]. split; [done|]. split; [by rewrite E', E1, app_assoc|]. rewrite total_app. cbn [length]. lia.
Qed.

Lemma add_decisions_returns ds rejected overflow : Forall (decision_amounts s) ds -> Forall (fun d => 0 <= rejected_value d /\ 0 <= decided_overflow d) ds ->
  amt s rejected -> amt s overflow -> 0 <= Decimal_signed rejected -> 0 <= Decimal_signed overflow ->
  Decimal_signed rejected + total rejected_value ds < 10 ^ MaxPrecision -> Decimal_signed overflow + total decided_overflow ds < 10 ^ MaxPrecision ->
  exists out, add_decisions rejected overflow ds = Ok out.
Proof.
  intros Hds. revert rejected overflow. induction Hds as [|d ds (Hr & Ho & _) _ IH]; intros rej ovf Hn Hrej Hovf H0 H1 B1 B2; cbn [add_decisions]; [by eexists|].
  apply Forall_cons in Hn as [[N1 N2] Hn]. cbn [total foldr] in B1, B2. fold (total rejected_value ds) in B1. fold (total decided_overflow ds) in B2.
  unfold rejected_value at 1 in B1. unfold decided_overflow at 1 in B2. unfold rejected_value in N1. unfold decided_overflow in N2.
  assert (Hnn : 0 <= total rejected_value ds /\ 0 <= total decided_overflow ds).
  { clear -Hn. induction Hn as [|d ds [? ?] _ IH]; [done|]. cbn in *. unfold total in *. lia. }
  destruct Hr as (Hrw & Hrs & _), Ho as (How & Hos & _), Hrej as (Hjw & Hjs & _), Hovf as (Hvw & Hvs & _).
  destruct (Add_returns rej (rd_Rejected d)) as [r1 R1]; [done|done|congruence|lia|].
  destruct (Add_returns ovf (rd_Overflow d)) as [o1 O1]; [done|done|congruence|lia|].
  rewrite R1, O1. cbn [reject_rules or_reject map_err mbind outcome_bind].
  apply Add_ok_inv in R1 as (_ & _ & _ & R1w & R1s & R1v). apply Add_ok_inv in O1 as (_ & _ & _ & O1w & O1s & O1v).
  apply IH; try done; try lia; (split_and!; [done|congruence|done]).
Qed.

Lemma accepted_value_range e : source_ok e -> 0 <= accepted_value e <= source_value e.
Proof. intros (_ & Hq & _). apply (accepted_range s); [apply Hreq|lia]. Qed.

Lemma start_movement_returns running number e : dec_wf running -> d_scale running = s -> source_ok e ->
  Z.abs (Decimal_signed running) + source_value e < 10 ^ MaxPrecision -> exists m, start_movement req running number e = Ok m.
Proof.
  intros Hw Hs ((d & Hd) & Hq & Hk) Hb. unfold start_movement, reject_rules. rewrite Hd. cbn [or_reject map_err mbind outcome_bind].
  unfold source_value in Hq, Hb. rewrite Hd in Hq, Hb. pose proof (Quantize_wf _ _ _ _ Hd) as (_ & Hdw & Hds & _).
  rewrite (Sign_amount d Hdw), (proj2 (Z.leb_gt _ _)) by lia. cbn [fail_if mbind outcome_bind].
  assert (Hkind : negb (String.eqb (e_Kind e) Debit) && negb (String.eqb (e_Kind e) Credit) = false) by (by destruct Hk as [-> | ->]).
  rewrite Hkind. cbn [mbind outcome_bind]. destruct (signed_exists (e_Kind e) d ErrRuleApplicationInvalid Hdw Hk) as [x Hx]. rewrite Hx. cbn [mbind outcome_bind].
  apply signed_direction in Hx as [_ (Hxw & Hxs & Hxv)]; [|done].
  destruct (Add_returns running x) as [c Hc]; [done|done|congruence| |].
  { rewrite Hxv. assert (direction (e_Kind e) = 1 \/ direction (e_Kind e) = -1) as [-> | ->] by (destruct Hk as [-> | ->]; auto); lia. }
  rewrite Hc. by eexists.
Qed.

(** The room the rest of a ledger needs. *)
Definition ledger_room (R K W : Z) (n : Z) (a : application) : Prop :=
  Z.abs (Decimal_signed (ap_running a)) <= R /\ M <= R /\ R + 2 * W <= K /\ M + K < 10 ^ MaxPrecision /\
  Decimal_signed (rr_Accepted (ap_result a)) + W < 10 ^ MaxPrecision /\
  Decimal_signed (rr_Rejected (ap_result a)) + W < 10 ^ MaxPrecision /\
  Decimal_signed (rr_Overflow (ap_result a)) + n * Z.of_nat (length (ra_Rules req)) * K < 10 ^ MaxPrecision.

Lemma applied_nonneg es a : applied es a -> 0 <= Decimal_signed (rr_Accepted (ap_result a)) /\
  0 <= Decimal_signed (rr_Rejected (ap_result a)) /\ 0 <= Decimal_signed (rr_Overflow (ap_result a)).
Proof.
  intros (_ & _ & (_ & _ & ->) & (_ & _ & ->) & (_ & _ & ->) & Hj & Hok & _).
  assert (H : 0 <= total accepted_value es /\ 0 <= total (fun e => source_value e - accepted_value e) es).
  { clear Hj. induction Hok as [|e es He _ IH]; [done|]. pose proof (accepted_value_range e He). cbn in *. unfold total in *. lia. }
  split; [lia|]. split; [lia|]. induction Hj as [|j js (_ & _ & Hp) _ IH]; [done|]. cbn in *. unfold total, overflow_value in *. case_match; lia.
Qed.

Lemma apply_source_returns R K W n es a e : applied es a -> relevant req e = true -> source_ok e -> 0 <= W -> 0 <= n ->
  ledger_room R K (source_value e + W) (n + 1) a ->
  exists a', apply_source req zero a e = Ok a' /\ ledger_room (R + 2 * source_value e) K W n a'.
Proof.
  intros Happ Hrel Hok HW Hn (R1 & R2 & R3 & R4 & R5 & R6 & R7). pose proof (applied_nonneg _ _ Happ) as (N1 & N2 & N3).
  pose proof Happ as ((Hrw & Hrs & _) & _ & Ha & Hr & Ho & _). pose proof Hok as (_ & Hq & Hk).
  unfold apply_source. rewrite Hrel. cbn [negb].
  destruct (start_movement_returns (ap_running a) (ap_number a) e Hrw Hrs Hok) as [m0 H0]; [lia|]. rewrite H0. cbn [mbind outcome_bind].
  apply start_movement_spec in H0 as (_ & Hacc0 & Hc0 & Hj0 & Hd0); [|done..]. apply amount_signed in Hacc0 as [Hacc0 Va0], Hc0 as [Hc0 Vc0].
  set (K1 := R + 2 * source_value e).
  assert (Hroom : room K1 m0).
  { unfold room, K1. rewrite Va0, Vc0. split; [done|]. split; [done|]. split; [lia|]. split; [|lia].
    assert (direction (e_Kind e) = 1 \/ direction (e_Kind e) = -1) as [-> | ->] by (destruct Hk as [-> | ->]; auto); lia. }
  destruct (apply_all_returns K1 e (ra_Rules req) m0 (proj2 (proj2 (proj2 Hreq))) HM Hk Hroom) as (m & ds & Hm & (Hacc & Hc & Hacc_n & HK & _) & Hds & Hov).
  rewrite Hm. cbn [mbind outcome_bind].
  destruct (apply_all_effect req zero Hreq Hzero e _ _ _ (proj2 (proj2 (proj2 Hreq))) Hacc0 Hc0 Hm)
    as ((_ & _ & Hv1) & (js & ds' & _ & E2 & _ & E4 & _ & E6 & _) & _).
  rewrite Hd0 in Hds, E2. cbn [app] in Hds, E2. assert (ds' = ds) as -> by congruence. rewrite Va0 in Hv1, E4. fold (accepted_value e) in Hv1. rewrite Hv1 in E4.
  pose proof (accepted_value_range e Hok) as Hrange. destruct Ha as (Haw & Has & _), Hacc as (Hmw & Hms & _).
  destruct (Add_returns (rr_Accepted (ap_result a)) (m_accepted m)) as [acc Hacc']; [done|done|congruence|rewrite Hv1; lia|].
  rewrite Hacc'. cbn [reject_rules or_reject map_err mbind outcome_bind]. rewrite Hds.
  assert (Hdam : Forall (decision_amounts s) ds /\ Forall (fun d => 0 <= rejected_value d /\ 0 <= decided_overflow d) ds).
  { split; (eapply Forall_impl; [exact E6|]); intros d (D1 & D2 & D3 & D4 & D5); by split_and!. }
  destruct Hdam as [Hda Hdn]. assert (Hlen : 0 <= Z.of_nat (length (ra_Rules req)) * K1 <= Z.of_nat (length (ra_Rules req)) * K) by (unfold K1; nia).
  assert (Hnk : (n + 1) * Z.of_nat (length (ra_Rules req)) * K = n * Z.of_nat (length (ra_Rules req)) * K + Z.of_nat (length (ra_Rules req)) * K) by ring.
  assert (Hnn : 0 <= n * Z.of_nat (length (ra_Rules req)) * K) by nia.
  apply amount_signed in Hr as [Hr _], Ho as [Ho _].
  destruct (add_decisions_returns ds _ _ Hda Hdn Hr Ho N2 N3) as [out Hout]; [lia|lia|]. unfold reject_rules in *. rewrite Hout. cbn [mbind outcome_bind].
  eexists. split; [reflexivity|]. apply add_decisions_spec in Hout as [(_ & _ & Hrej) (_ & _ & Hovf)]; [|done..].
  apply Add_ok_inv in Hacc' as (_ & _ & _ & _ & _ & Hacc'). unfold ledger_room. cbn [ap_running ap_result rr_Accepted rr_Rejected rr_Overflow].
  fold K1. split; [lia|]. split; [unfold K1; lia|]. split; [unfold K1; lia|]. split; [done|]. split; [lia|]. split; lia.
Qed.

Lemma apply_ledger_returns ledger : forall R K es a, applied es a -> Forall source_ok (sources ledger) ->
  ledger_room R K (total source_value (sources ledger)) (Z.of_nat (length (sources ledger))) a -> exists a', apply_ledger req zero a (sources ledger) = Ok a'.
Proof.
  assert (Hrel : Forall (fun e => relevant req e = true) (sources ledger)).
  { apply Forall_forall. intros e He. unfold sources in He. by apply list_elem_of_filter in He as [? _]. }
  induction (sources ledger) as [|e l IH]; intros R K es a Ha Hok Hroom; cbn [apply_ledger]; [by eexists|].
  apply Forall_cons in Hok as [He Hok], Hrel as [Hr Hrel]. cbn [total foldr length] in Hroom. fold (total source_value l) in Hroom.
  assert (HW : 0 <= total source_value l).
  { clear -Hok. induction Hok as [|x l (_ & ? & _) _ IHl]; [done|]. cbn. unfold total in *. lia. }
  rewrite Nat2Z.inj_succ, <- Z.add_1_r in Hroom.
  destruct (apply_source_returns R K (total source_value l) (Z.of_nat (length l)) es a e Ha Hr He HW (Nat2Z.is_nonneg _) Hroom) as (a1 & H1 & Hroom1).
  rewrite H1. cbn [mbind outcome_bind]. apply (IH Hrel (R + 2 * source_value e) K (es ++ [e]) a1); [by apply (apply_source_spec es a)|done|done].
Qed.

End ledger_facts.

(** * The result *)

Section result.
Context `{B : DecimalBackend} `{L : !DecimalBackendLaws B} `{CM : CaseMapping} `{SHA : Sha256}.

(** Where balances can come from, and how far sources of a total [W] can move
    them. *)
Definition reach (req : RuleApplicationRequest) : Z :=
  foldr (fun rule m => Z.max (Decimal_signed (br_Limit rule)) m) (Z.abs (Decimal_signed (ra_Opening req))) (ra_Rules req).
Definition leaves_room (req : RuleApplicationRequest) (ledger : list BalanceEntry) : Prop :=
  let K := reach req + 2 * total (source_value req) (sources req ledger) in
  reach req + K < 10 ^ MaxPrecision /\
  Z.of_nat (length (sources req ledger)) * Z.of_nat (length (ra_Rules req)) * K < 10 ^ MaxPrecision.

Lemma reach_bounds req : Z.abs (Decimal_signed (ra_Opening req)) <= reach req /\
  Forall (fun rule => Decimal_signed (br_Limit rule) <= reach req) (ra_Rules req).
Proof.
  unfold reach. set (o := Z.abs _). induction (ra_Rules req) as [|r rs [IH1 IH2]]; cbn [foldr]; [split; [lia|constructor]|].
  split; [lia|]. constructor; [lia|]. eapply Forall_impl; [exact IH2|]. cbn. intros x Hx. lia.
Qed.

Definition start_application (req : RuleApplicationRequest) (zero : Decimal) : application :=
  mkApplication (ra_Opening req) 0 (mkApplied (ra_AccountID req) (ra_Opening req) Decimal_zero_value zero zero zero [] [] [] [] "").

Lemma start_applied req zero : applicable req -> amount zero (ra_Scale req) 0 -> applied req [] (start_application req zero).
Proof.
  intros (Ho & Hs & _) Hz. unfold applied, start_application. cbn [ap_running ap_result rr_AccountID rr_Opening rr_Entries rr_Accepted rr_Rejected rr_Overflow rr_Adjustments rr_Decisions total foldr].
  rewrite !Z.add_0_r. by split_and!.
Qed.

Lemma validate_cases req : (exists e, validateRuleApplication req = Err e) \/ validateRuleApplication req = Ok tt.
Proof.
  destruct (validateRuleApplication req) as [[]|e|] eqn:E; [by right|left; by eexists|]. exfalso. revert E. unfold validateRuleApplication.
  assert (Hr : forall scale rules seen, rules_valid scale seen rules <> Panic).
  { intros scale rules. induction rules as [|r rules IH]; intros seen; cbn [rules_valid]; [done|]. repeat (apply bind_no_panic; [auto with panics|intros _ _]). apply IH. }
  repeat (apply bind_no_panic; [auto with panics|intros _ _]). apply Hr.
Qed.

(** The zero of a request. *)
Definition zero_of (req : RuleApplicationRequest) : Decimal := dec_of 0 (ra_Scale req) (ra_Rounding req).
Lemma zero_amount req : applicable req -> amount (zero_of req) (ra_Scale req) 0.
Proof. intros H. apply amount_dec_of; [done|by apply applicable_scale|apply H]. Qed.
Lemma rule_zero_eq req : applicable req -> NewDecimal "0" (ra_Scale req) (ra_Rounding req) = Ok (zero_of req).
Proof. intros H. apply NewDecimal_zero; [by apply applicable_scale|apply H]. Qed.

Lemma amt_encodable s tag d : tag <> "" -> amt s d -> op_encodable (WValue tag (Decimal_Canonical d)).
Proof. intros Ht [Hd _]. by apply value_encodable. Qed.

Lemma result_encodable req es a ending : applicable req -> applied req es a -> dec_wf ending ->
  Forall op_encodable (result_ops req (with_ending ending (ap_result a))).
Proof.
  intros Hreq (_ & (_ & Hop & _) & (Ha & _) & (Hr & _) & (Ho & _) & _ & _ & Hd & _) He. unfold result_ops.
  assert (Hopening : dec_wf (rr_Opening (with_ending ending (ap_result a)))) by (cbn [with_ending rr_Opening]; rewrite Hop; apply Hreq).
  apply Forall_app_2; [by encodable|]. apply Forall_app_2.
  { apply Forall_concat, Forall_fmap, (Forall_impl _ _ _ (proj2 (proj2 (proj2 Hreq)))). intros rule (_ & Hl & _). unfold rule_ops; cbn. by encodable. }
  apply Forall_cons; split; [done|]. apply Forall_app_2; [apply Forall_fmap, Forall_forall; done|].
  apply Forall_cons; split; [done|]. apply Forall_app_2; [apply Forall_concat, Forall_fmap, Forall_forall; intros j _; cbn; by encodable|].
  apply Forall_cons; split; [done|]. apply Forall_app_2.
  { apply Forall_concat, Forall_fmap, (Forall_impl _ _ _ Hd). intros d ([? _] & [? _] & [? _]). cbn. by encodable. }
  apply Forall_cons; split; [done|]. apply Forall_concat, Forall_fmap, Forall_forall. intros x _. cbn. by encodable.
Qed.

Definition sealed_result (req : RuleApplicationRequest) (r : RuleApplicationResult) : RuleApplicationResult :=
  with_result_digest (Digest (w_buf (ops_run (result_ops req r) (New "hcmnext.domains.balance.RuleApplicationResult" 1)))) r.

Lemma applyRules_run req ledger : validateRuleApplication req = Ok tt ->
  ApplyRules req ledger =
  (a ← apply_ledger req (zero_of req) (start_application req (zero_of req)) (sources req ledger);
   Ok (sealed_result req (with_ending (dec_of (Decimal_signed (ap_running a)) (ra_Scale req) (ra_Rounding req)) (ap_result a)))).
Proof.
  intros Hv. pose proof (validate_applicable req Hv) as Hreq. unfold ApplyRules, reject_rules. rewrite Hv, (rule_zero_eq req Hreq).
  cbn [or_reject map_err mbind outcome_bind]. fold (start_application req (zero_of req)). rewrite apply_ledger_sources.
  destruct (apply_ledger req (zero_of req) (start_application req (zero_of req)) (sources req ledger)) as [a|e|] eqn:E; [|done..]. cbn [mbind outcome_bind].
  assert (Ha : applied req (sources req ledger) a).
  { rewrite <- apply_ledger_sources in E.
    apply (apply_ledger_spec req (zero_of req) Hreq (zero_amount req Hreq) ledger [] _ a (start_applied req _ Hreq (zero_amount req Hreq)) E). }
  pose proof Ha as ((Hrw & Hrs & _) & _). pose proof (Quantize_same (ap_running a) (ra_Rounding req) Hrw (proj1 (proj2 (proj2 Hreq)))) as Hq.
  rewrite Hrs in Hq. rewrite Hq. cbn [or_reject map_err mbind outcome_bind]. unfold ruleResultDigest. rewrite stream_digest; [done|done|].
  apply (result_encodable _ (sources req ledger)); [done|done|]. apply dec_wf_dec_of; [by apply dec_wf_bound|by apply applicable_scale|apply Hreq].
Qed.

(** ** No panics *)

Lemma apply_rule_no_panic req zero source rule m : apply_rule req zero source rule m <> Panic.
Proof. unfold apply_rule, apply_threshold, apply_bound, reject_rules. no_panic. Qed.

Lemma apply_all_no_panic req zero source rules m : apply_all req zero source rules m <> Panic.
Proof.
  revert m. induction rules as [|rule rules IH]; intros m; cbn [apply_all]; [done|].
  apply bind_no_panic; [apply apply_rule_no_panic|intros m' _; apply IH].
Qed.

Lemma add_decisions_no_panic ds : forall rejected overflow, add_decisions rejected overflow ds <> Panic.
Proof. induction ds as [|d ds IH]; intros r o; cbn [add_decisions]; unfold reject_rules; no_panic. Qed.

Lemma start_movement_no_panic req running n e : start_movement req running n e <> Panic.
Proof. unfold start_movement, reject_rules. pose proof signedContribution_no_panic. no_panic. Qed.

Lemma apply_ledger_no_panic req zero ledger a : apply_ledger req zero a ledger <> Panic.
Proof.
  revert a. induction ledger as [|e l IH]; intros a; cbn [apply_ledger]; [done|]. apply bind_no_panic; [|intros a' _; apply IH].
  unfold apply_source. case_match; [done|]. apply bind_no_panic; [apply start_movement_no_panic|intros m0 _].
  apply bind_no_panic; [apply apply_all_no_panic|intros m _]. apply bind_no_panic; [unfold reject_rules; no_panic|intros acc _].
  apply bind_no_panic; [apply add_decisions_no_panic|done].
Qed.

(** ** The result of a ledger *)

(** What a result says of the sources it was derived from. *)
Definition conserves (req : RuleApplicationRequest) (es : list BalanceEntry) (r : RuleApplicationResult) : Prop :=
  rr_Entries r = es /\ Forall (source_ok req) es /\
  amount (rr_Ending r) (ra_Scale req) (Decimal_signed (ra_Opening req) + total (fun e => direction (e_Kind e) * accepted_value req e) es
    + total adjustment_value (rr_Adjustments r)) /\
  amount (rr_Accepted r) (ra_Scale req) (total (accepted_value req) es) /\
  amount (rr_Rejected r) (ra_Scale req) (total (fun e => source_value req e - accepted_value req e) es) /\
  amount (rr_Overflow r) (ra_Scale req) (total overflow_value (rr_Adjustments r)) /\
  Forall (fun j => e_EntryType (rj_Entry j) = RuleApplicationEntryType /\ e_AccountID (rj_Entry j) = ra_AccountID req /\
                   0 < Decimal_signed (e_Amount (rj_Entry j))) (rr_Adjustments r) /\
  (es <> [] -> last_rule_holds req (Decimal_signed (rr_Ending r))).

Lemma applied_conserves req es a : applicable req -> applied req es a ->
  conserves req es (sealed_result req (with_ending (dec_of (Decimal_signed (ap_running a)) (ra_Scale req) (ra_Rounding req)) (ap_result a))).
Proof.
  intros Hreq ((Hw & Hs & Hv) & (_ & _ & Hes) & Ha & Hr & Ho & Hj & Hok & _ & Hlast). unfold conserves.
  cbn [sealed_result with_result_digest with_ending rr_Entries rr_Ending rr_Accepted rr_Rejected rr_Overflow rr_Adjustments].
  rewrite Decimal_signed_dec_of. split; [done|]. split; [done|]. split; [|by split_and!].
  rewrite Hv. apply amount_dec_of; [rewrite <- Hv; by apply dec_wf_bound|by apply applicable_scale|apply Hreq].
Qed.

(** Entries that rules generated are no sources. *)
Lemma sources_generated req ledger js : Forall (fun j => e_EntryType (rj_Entry j) = RuleApplicationEntryType) js ->
  sources req (ledger ++ (rj_Entry <$> js)) = sources req ledger.
Proof.
  intros Hj. unfold sources. rewrite filter_app. replace (filter _ (rj_Entry <$> js)) with (@nil BalanceEntry); [apply app_nil_r|].
  induction Hj as [|j js Hj _ IH]; [done|]. cbn [fmap list_fmap]. rewrite filter_cons_False; [done|].
  unfold relevant. rewrite Hj, String.eqb_refl, andb_false_r. done.
Qed.

Lemma ApplyRules_sources req l1 l2 : sources req l1 = sources req l2 -> ApplyRules req l1 = ApplyRules req l2.
Proof.
  intros E. destruct (validate_cases req) as [[e He]|Hv]; [unfold ApplyRules; by rewrite He|].
  by rewrite !applyRules_run, E.
Qed.

Lemma ApplyRules_derived req ledger r : ApplyRules req ledger = Ok r ->
  validateRuleApplication req = Ok tt /\ conserves req (sources req ledger) r /\ r = sealed_result req r.
Proof.
  intros H. destruct (validate_cases req) as [[e He]|Hv]; [unfold ApplyRules in H; by rewrite He in H|]. split; [done|].
  pose proof (validate_applicable req Hv) as Hreq. rewrite applyRules_run in H by done. apply bind_ok_inv in H as (a & Ha & H). injection H as <-.
  split; [|done]. apply applied_conserves; [done|]. rewrite <- apply_ledger_sources in Ha.
  by apply (apply_ledger_spec req (zero_of req) Hreq (zero_amount req Hreq) ledger [] _ a (start_applied req _ Hreq (zero_amount req Hreq))).
Qed.

Lemma ApplyRules_returns req ledger : validateRuleApplication req = Ok tt -> Forall (source_ok req) (sources req ledger) ->
  leaves_room req ledger -> exists r, ApplyRules req ledger = Ok r.
Proof.
  intros Hv Hok [Hk Ho]. pose proof (validate_applicable req Hv) as Hreq. pose proof (reach_bounds req) as [R1 R2].
  assert (HW : 0 <= total (source_value req) (sources req ledger)).
  { clear -Hok. induction Hok as [|x l (_ & ? & _) _ IHl]; [done|]. cbn. unfold total in *. lia. }
  rewrite applyRules_run by done.
  destruct (apply_ledger_returns req (zero_of req) Hreq (zero_amount req Hreq) (reach req) ltac:(lia) R2 ledger (reach req)
    (reach req + 2 * total (source_value req) (sources req ledger)) [] (start_application req (zero_of req))) as [a Ha]; [|done| |by rewrite Ha; eexists].
  - by apply start_applied, zero_amount.
  - destruct (zero_amount req Hreq) as (_ & _ & Hz). unfold ledger_room. cbn [start_application ap_running ap_result rr_Accepted rr_Rejected rr_Overflow].
    rewrite Hz. split_and!; lia.
Qed.

(** Applying rules to a ledger never panics.  A result has walked exactly
    the entries of the account that rules did not generate, each a positive
    debit or credit; the ending balance is the opening plus what the
    thresholds accept of each movement plus the generated adjustments, the
    accepted and rejected totals split every movement, and the overflow total
    is what caps took back; the adjustments are typed and positive, and a last
    rule that applies to every kind bounds the ending.  The seal is over these
    fields.  Applying the rules again to the ledger with the generated entries
    appended gives the same result.  A valid request whose movements are
    positive and leave room in a decimal always has one. *)
Theorem rules_conserve (req : RuleApplicationRequest) (ledger : list BalanceEntry) :
  ApplyRules req ledger <> Panic /\
  (forall r, ApplyRules req ledger = Ok r ->
     conserves req (sources req ledger) r /\ rr_Digest r = rr_Digest (sealed_result req r) /\
     ApplyRules req (ledger ++ (rj_Entry <$> rr_Adjustments r)) = Ok r) /\
  (validateRuleApplication req = Ok tt -> Forall (source_ok req) (sources req ledger) -> leaves_room req ledger ->
     exists r, ApplyRules req ledger = Ok r).
Proof.
  split; [|split].
  - destruct (validate_cases req) as [[e He]|Hv]; [unfold ApplyRules; by rewrite He|]. rewrite applyRules_run by done.
    apply bind_no_panic; [apply apply_ledger_no_panic|done].
  - intros r H. destruct (ApplyRules_derived req ledger r H) as (_ & Hc & Hs). split; [done|]. split; [by rewrite <- Hs|].
    rewrite <- H. apply ApplyRules_sources, sources_generated. destruct Hc as (_ & _ & _ & _ & _ & _ & Hj & _).
    eapply Forall_impl; [exact Hj|]. by intros j (? & _).
  - apply ApplyRules_returns.
Qed.

End result.

(** * Balances of a longer ledger *)

Section append.
Context `{B : DecimalBackend} `{L : !DecimalBackendLaws B} `{CF : CaseFolding} `{SHA : Sha256}.

Lemma entry_value_own e m : dec_wf (e_Amount e) -> e_Kind e = Debit \/ e_Kind e = Credit ->
  entry_value (d_scale (e_Amount e)) m e = direction (e_Kind e) * Decimal_signed (e_Amount e).
Proof.
  intros Hw Hk. unfold entry_value, contribution. rewrite (proj2 (validate_reject_ok _ _) Hw), Z.eqb_refl. cbn [negb mbind outcome_bind].
  destruct (signed_exists (e_Kind e) (e_Amount e) ErrBalanceRequestInvalid Hw Hk) as [d Hd]. rewrite Hd.
  by apply signed_direction in Hd as [_ (_ & _ & ->)].
Qed.

(** An entry appended to a ledger adds its signed amount exactly when it
    counts. *)
Lemma calculate_append req e ledger pre post : dec_wf (e_Amount e) -> e_Kind e = Debit \/ e_Kind e = Credit -> d_scale (e_Amount e) = aq_Scale req ->
  CalculateAuthorizedBalance req ledger = Ok pre -> CalculateAuthorizedBalance req (ledger ++ [e]) = Ok post ->
  Decimal_signed (ab_Ending post) = Decimal_signed (ab_Ending pre) +
    (if decide (counts req e) then direction (e_Kind e) * Decimal_signed (e_Amount e) else 0).
Proof.
  intros Hw Hk Hsc H1 H2. apply calculate_exact in H1 as (Hreq & vs & Hv & _ & ->), H2 as (_ & ws & Hws & _ & ->).
  pose proof Hreq as (_ & _ & _ & _ & _ & Hm). pose proof (proj1 (dec_wf_scale _ Hw)) as Hr. rewrite Hsc in Hr.
  apply contributes_value in Hv as ->, Hws as ->; [|done..].
  cbn [sealed authorized_with_digest derived ab_Ending]. rewrite !Decimal_signed_dec_of. unfold counted. rewrite filter_app, fmap_app.
  assert (Hsum : forall xs ys, sum (xs ++ ys) = sum xs + sum ys) by (intros xs ys; unfold sum; induction xs; cbn; lia).
  rewrite Hsum, Z.add_assoc. f_equal. destruct (decide (counts req e)) as [Hc|Hc].
  - rewrite filter_cons_True, filter_nil by done. unfold sum. cbn [fmap list_fmap foldr]. rewrite <- Hsc, entry_value_own by done. lia.
  - by rewrite filter_cons_False.
Qed.

(** The later of the recording and the authorization: what is known when an
    entry is posted. *)
Lemma later_known (r a known : Instant) : known = (if Instant_After a r then a else r) ->
  Instant_Compare r known <= 0 /\ Instant_Compare a known <= 0.
Proof.
  assert (Hself : forall i, Instant_Compare i i = 0) by (intros i; unfold Instant_Compare; by rewrite !Z.eqb_refl).
  assert (Hflip : forall i o, Instant_Compare i o = - Instant_Compare o i).
  { intros i o. unfold Instant_Compare. rewrite (Z.eqb_sym (i_sec o)), (Z.eqb_sym (i_nsec o)).
    destruct (Z.eqb_spec (i_sec i) (i_sec o)), (Z.eqb_spec (i_nsec i) (i_nsec o)); cbn [negb];
      repeat match goal with |- context [?x <? ?y] => destruct (Z.ltb_spec x y) end; lia. }
  intros ->. unfold Instant_After. destruct (Z.ltb_spec 0 (Instant_Compare a r)); rewrite Hself; [rewrite Hflip|]; lia.
Qed.

(** An entry counts at its own date, once it is recorded and authorized. *)
Lemma counts_itself req e : aq_AccountID req = e_AccountID e -> aq_EffectiveAsOf req = e_EffectiveAt e ->
  aq_KnownAt req = (if Instant_After (e_AuthorizedAt e) (e_RecordedAt e) then e_AuthorizedAt e else e_RecordedAt e) ->
  i_set (e_RecordedAt e) = true -> i_set (e_AuthorizedAt e) = true -> i_set (e_EffectiveAt e) = true -> counts req e.
Proof.
  intros Ha He Hk Hr Hau Hef. destruct (later_known _ _ _ Hk) as [H1 H2]. unfold counts, of_account, at_or_before. rewrite Ha, He.
  assert (Hself : Instant_Compare (e_EffectiveAt e) (e_EffectiveAt e) = 0) by (unfold Instant_Compare; by rewrite !Z.eqb_refl).
  rewrite Hself. by split_and!.
Qed.

End append.

(** * A concrete policy *)

Section sample_rules.
#[local] Instance sample_rules_case : CaseMapping := {| unicode_lower := fun s => s; unicode_upper := fun s => s |}.
#[local] Instance sample_rules_sha : Sha256 := {| sha256_Sum256 := fun bs => [Z.of_nat (length bs) mod 256; foldr Z.add 0 bs mod 256] |}.

Definition sample_rule (id : string) (kind : BalanceRuleKind) (limit : Z) : BalanceRule :=
  mkRule id "1" kind "" (dec_of limit 2 RoundingHalfUp).
Definition sample_policy : RuleApplicationRequest :=
  mkRuleRequest "a" (dec_of 1000 2 RoundingHalfUp) 2 RoundingHalfUp
    [sample_rule "accrual" BalanceRuleThreshold 600; sample_rule "cap" BalanceRuleCap 1500].
Definition policy_ledger : list BalanceEntry := [leave_entry "a" Credit "k1" 800; leave_entry "a" Debit "k2" 300].

Lemma rules_conserve_witness :
  exists r, ApplyRules sample_policy policy_ledger = Ok r /\ Decimal_signed (rr_Ending r) = 1200 /\
    Decimal_signed (rr_Rejected r) = 200 /\ Decimal_signed (rr_Overflow r) = 100.
Proof.
  destruct (rules_conserve sample_policy policy_ledger) as (_ & H & Hret).
  destruct Hret as [r E].
  - vm_compute. reflexivity.
  - change (sources sample_policy policy_ledger) with policy_ledger.
    constructor; [|constructor; [|constructor]]; (split; [by eexists; vm_compute|]); (split; [vm_compute; reflexivity|]); [by right|by left].
  - split; vm_compute; reflexivity.
  - exists r. split; [exact E|]. vm_compute in E. injection E as <-. split_and!; vm_compute; reflexivity.
Defined.

End sample_rules.
