(* ===== verification/BalancePlans.v ===== *)
(** Planning one posting: [internal/domains/balance/posting_plan.go].

    A plan is derived from an authorized balance, a requested entry and the
    rules, without a store.  The theorems say exactly when there is a plan and
    what it posts. *)

From S2P Require Import Prelude GoStrings Sorting CanonicalBytes FixedDecimal DecimalAmounts CivilTime BalanceEntries BalanceAsOf BalanceRules.

Local Open Scope Z_scope.

Record PostingPlanRequest : Type := mkPlanRequest {
  pp_Authorized : AuthorizedBalance; pp_Definition : AccumulatorDefinition; pp_ExpectedHead : Z; pp_Requested : BalanceEntry;
  pp_Rules : list BalanceRule
}.

Record PostingPlan : Type := mkPlan {
  pl_AccountID : string; pl_DefinitionID : string; pl_DefinitionVersion : string; pl_ExpectedHead : Z; pl_AuthorizedBalance : string;
  pl_Requested : BalanceEntry; pl_Entries : list BalanceEntry; pl_Opening : Decimal; pl_Accepted : Decimal; pl_Rejected : Decimal;
  pl_Remainder : Decimal; pl_Ending : Decimal; pl_Rules : list BalanceRule; pl_Decisions : list RuleDecision;
  pl_SourceProposalDigest : string; pl_Digest : string
}.

Definition plan_with_digest (d : string) (p : PostingPlan) : PostingPlan :=
  mkPlan (pl_AccountID p) (pl_DefinitionID p) (pl_DefinitionVersion p) (pl_ExpectedHead p) (pl_AuthorizedBalance p) (pl_Requested p)
    (pl_Entries p) (pl_Opening p) (pl_Accepted p) (pl_Rejected p) (pl_Remainder p) (pl_Ending p) (pl_Rules p) (pl_Decisions p)
    (pl_SourceProposalDigest p) d.

(** [entry.Amount = accepted; entry.RecordedAt = values.Instant{}]. *)
Definition with_accepted (accepted : Decimal) (e : BalanceEntry) : BalanceEntry :=
  with_RecordedAt Instant_zero_value (with_movement (e_Kind e) accepted (e_EntryType e) (e_SourceTransactionID e) (e_IdempotencyKey e) e).

Section plans.
Context `{B : DecimalBackend} `{CM : CaseMapping} `{CF : CaseFolding} `{SHA : Sha256}.

Definition rule_request (req : PostingPlanRequest) : RuleApplicationRequest :=
  let ending := ab_Ending (pp_Authorized req) in
  mkRuleRequest (ab_AccountID (pp_Authorized req)) ending (d_scale ending) (d_round ending) (pp_Rules req).

Definition validatePostingPlanRequest (req : PostingPlanRequest) : outcome balance_err unit :=
  let authorized := pp_Authorized req in
  _ ← fail_if (pp_ExpectedHead req <? 0) ErrPostingPlanInvalid;
  _ ← or_reject (AccumulatorDefinition_Validate (pp_Definition req)) ErrPostingPlanInvalid;
  _ ← fail_if (is_blank (ab_AccountID authorized) || negb (String.eqb (ab_AccountID authorized) (e_AccountID (pp_Requested req))))
        ErrPostingPlanInvalid;
  _ ← fail_if (is_blank (ab_Digest authorized)) ErrPostingPlanInvalid;
  _ ← or_reject (Decimal_Validate (ab_Ending authorized)) ErrPostingPlanInvalid;
  _ ← fail_if (d_scale (ab_Ending authorized) <=? 0) ErrPostingPlanInvalid;
  _ ← or_reject (BalanceEntry_Validate (pp_Requested req) (pp_Definition req)) ErrPostingPlanInvalid;
  _ ← fail_if (negb (d_scale (e_Amount (pp_Requested req)) =? d_scale (ab_Ending authorized))) ErrPostingPlanInvalid;
  _ ← fail_if (negb (RoundingMode_Valid (d_round (ab_Ending authorized)))) ErrPostingPlanInvalid;
  or_reject (validateRuleApplication (rule_request req)) ErrPostingPlanInvalid.

Definition postingCandidate (opening : Decimal) (kind : EntryKind) (amount : Decimal) : outcome balance_err Decimal :=
  delta ← signedContribution kind amount ErrPostingPlanInvalid;
  or_reject (Decimal_Add opening delta) ErrPostingPlanInvalid.

Record plan_state : Type := mkPlanState { ps_accepted : Decimal; ps_rejected : Decimal; ps_decisions : list RuleDecision }.

(** One turn of the loop over the rules. *)
Definition plan_rule (opening zero : Decimal) (source : BalanceEntry) (rule : BalanceRule) (st : plan_state)
    : outcome balance_err plan_state :=
  let kind := e_Kind source in
  let decided accepted rejected reason breached := ps_decisions st ++ [decide_rule source rule reason accepted rejected zero breached] in
  if negb (applies rule kind) then Ok st
  else if String.eqb (br_Kind rule) BalanceRuleThreshold then
    if 0 <? Decimal_Cmp (ps_accepted st) (br_Limit rule) then
      rejection ← or_reject (Decimal_Sub (ps_accepted st) (br_Limit rule)) ErrPostingPlanInvalid;
      rejected ← or_reject (Decimal_Add (ps_rejected st) rejection) ErrPostingPlanInvalid;
      Ok (mkPlanState (br_Limit rule) rejected (decided (br_Limit rule) rejection "THRESHOLD_EXCEEDED_REMAINDER" true))
    else if Decimal_Equal (ps_accepted st) (br_Limit rule) then
      Ok (mkPlanState (ps_accepted st) (ps_rejected st) (decided (ps_accepted st) zero "THRESHOLD_MET" true))
    else Ok (mkPlanState (ps_accepted st) (ps_rejected st) (decided (ps_accepted st) zero "THRESHOLD_NOT_MET" false))
  else if String.eqb (br_Kind rule) BalanceRuleFloor || String.eqb (br_Kind rule) BalanceRuleCap then
    candidate ← or_reject (postingCandidate opening kind (ps_accepted st)) ErrPostingPlanInvalid;
    _ ← fail_if (String.eqb (br_Kind rule) BalanceRuleFloor && (Decimal_Cmp candidate (br_Limit rule) <? 0))
          (ErrPostingPlanRejected (br_ID rule) (br_Version rule) (br_Kind rule) (br_Limit rule) candidate);
    _ ← fail_if (String.eqb (br_Kind rule) BalanceRuleCap && (0 <? Decimal_Cmp candidate (br_Limit rule)))
          (ErrPostingPlanRejected (br_ID rule) (br_Version rule) (br_Kind rule) (br_Limit rule) candidate);
    Ok (mkPlanState (ps_accepted st) (ps_rejected st) (decided (ps_accepted st) zero (strings_ToUpper (br_Kind rule) +:+ "_NOT_TRIGGERED") false))
  else Ok (mkPlanState (ps_accepted st) (ps_rejected st) (decided (ps_accepted st) zero "" false)).

Fixpoint plan_rules (opening zero : Decimal) (source : BalanceEntry) (rules : list BalanceRule) (st : plan_state)
    : outcome balance_err plan_state :=
  match rules with
  | [] => Ok st
  | rule :: rest => st' ← plan_rule opening zero source rule st; plan_rules opening zero source rest st'
  end.

Definition plan_ops (p : PostingPlan) : list op :=
  [ WString "account_id" (pl_AccountID p); WString "definition_id" (pl_DefinitionID p); WString "definition_version" (pl_DefinitionVersion p);
    WInt "expected_head" (pl_ExpectedHead p); WString "authorized_balance" (pl_AuthorizedBalance p);
    WString "source_proposal" (pl_SourceProposalDigest p); WValue "opening" (Decimal_Canonical (pl_Opening p));
    WValue "accepted" (Decimal_Canonical (pl_Accepted p)); WValue "rejected" (Decimal_Canonical (pl_Rejected p));
    WValue "remainder" (Decimal_Canonical (pl_Remainder p)); WValue "ending" (Decimal_Canonical (pl_Ending p));
    WString "requested" (BalanceEntry_Digest (pl_Requested p)); WCount "rules" (Z.of_nat (length (pl_Rules p))) ]%string ++
  concat (rule_ops <$> pl_Rules p) ++
  WCount "entries" (Z.of_nat (length (pl_Entries p))) :: ((fun e => WString "entry" (BalanceEntry_Digest e)) <$> pl_Entries p) ++
  WCount "decisions" (Z.of_nat (length (pl_Decisions p))) ::
  concat ((fun d => [ WString "decision.source" (rd_SourceEntry d); WString "decision.id" (rd_RuleID d);
                      WString "decision.version" (rd_RuleVersion d); WString "decision.kind" (rd_RuleKind d);
                      WString "decision.reason" (rd_Reason d); WValue "decision.accepted" (Decimal_Canonical (rd_Accepted d));
                      WValue "decision.rejected" (Decimal_Canonical (rd_Rejected d)); WValue "decision.overflow" (Decimal_Canonical (rd_Overflow d));
                      WBool "decision.threshold" (rd_ThresholdBreached d) ]%string) <$> pl_Decisions p).

Definition postingPlanDigest (p : PostingPlan) : outcome canon_err string :=
  Writer_Digest (ops_run (plan_ops p) (New "hcmnext.domains.balance.PostingPlan" 1)).

(** [PostingPlan.Verify]. *)
Definition PostingPlan_Verify (p : PostingPlan) : bool :=
  negb (String.eqb (pl_Digest p) "") &&
  match postingPlanDigest p with Ok digest => String.eqb digest (pl_Digest p) | _ => false end.

Definition PlanPosting (req : PostingPlanRequest) : outcome balance_err PostingPlan :=
  let authorized := pp_Authorized req in let requested := pp_Requested req in
  _ ← validatePostingPlanRequest req;
  zero ← or_reject (NewDecimal "0" (d_scale (ab_Ending authorized)) (d_round (ab_Ending authorized))) ErrPostingPlanInvalid;
  st ← plan_rules (ab_Ending authorized) zero requested (pp_Rules req) (mkPlanState (e_Amount requested) zero []);
  _ ← fail_if (String.eqb (e_Kind requested) Debit && (0 <? Decimal_Cmp (ps_accepted st) (ab_Ending authorized))) ErrInsufficientBalance;
  ending ← or_reject (postingCandidate (ab_Ending authorized) (e_Kind requested) (ps_accepted st)) ErrPostingPlanInvalid;
  let entries := if 0 <? Decimal_Sign (ps_accepted st) then [with_accepted (ps_accepted st) requested] else [] in
  let plan := mkPlan (ab_AccountID authorized) (ad_ID (pp_Definition req)) (ad_Version (pp_Definition req)) (pp_ExpectedHead req)
      (ab_Digest authorized) requested entries (ab_Ending authorized) (ps_accepted st) (ps_rejected st) (ps_rejected st) ending
      (pp_Rules req) (ps_decisions st) (BalanceEntry_Digest requested) "" in
  digest ← or_reject (postingPlanDigest plan) ErrPostingPlanInvalid;
  Ok (plan_with_digest digest plan).

End plans.

(** * What a plan accepts *)

(** The balance a movement of [a] leads to, in units of the scale. *)
Definition led_to (opening : Z) (kind : EntryKind) (a : Z) : Z := opening + direction kind * a.

(** A floor or cap that applies admits the movement as reduced so far. *)
Definition bound_admits (opening : Z) (kind : EntryKind) (a : Z) (rule : BalanceRule) : Prop :=
  applies rule kind = true -> br_Kind rule <> BalanceRuleThreshold ->
  Z.abs (led_to opening kind a) < 10 ^ MaxPrecision /\
  (br_Kind rule = BalanceRuleFloor -> Decimal_signed (br_Limit rule) <= led_to opening kind a) /\
  (br_Kind rule = BalanceRuleCap -> led_to opening kind a <= Decimal_signed (br_Limit rule)).

Fixpoint bounds_admit (opening : Z) (kind : EntryKind) (a : Z) (rules : list BalanceRule) : Prop :=
  match rules with
  | [] => True
  | rule :: rest => bound_admits opening kind a rule /\ bounds_admit opening kind (accept kind a rule) rest
  end.

(** The error of a rule that refuses a movement of [a]. *)
Definition refuses (opening : Z) (kind : EntryKind) (a : Z) (rule : BalanceRule) (e : balance_err) : Prop :=
  e = ErrPostingPlanInvalid \/
  exists proposed, e = ErrPostingPlanRejected (br_ID rule) (br_Version rule) (br_Kind rule) (br_Limit rule) proposed /\
    applies rule kind = true /\ Decimal_signed proposed = led_to opening kind a /\
    (br_Kind rule = BalanceRuleFloor /\ led_to opening kind a < Decimal_signed (br_Limit rule) \/
     br_Kind rule = BalanceRuleCap /\ Decimal_signed (br_Limit rule) < led_to opening kind a).

Section plan_facts.
Context `{B : DecimalBackend} `{L : !DecimalBackendLaws B} `{CM : CaseMapping} `{CF : CaseFolding} `{SHA : Sha256}.
Context (s : Z) (opening zero : Decimal) (source : BalanceEntry).
Context (Hopen : amt s opening) (Hzero : amount zero s 0) (Hkind : e_Kind source = Debit \/ e_Kind source = Credit).

#[local] Abbreviation kind := (e_Kind source).
#[local] Abbreviation open := (Decimal_signed opening).

Lemma candidate_spec a : amt s a ->
  (Z.abs (led_to open kind (Decimal_signed a)) < 10 ^ MaxPrecision /\
   exists c, postingCandidate opening kind a = Ok c /\ amount c s (led_to open kind (Decimal_signed a))) \/
  (~ Z.abs (led_to open kind (Decimal_signed a)) < 10 ^ MaxPrecision /\ postingCandidate opening kind a = Err ErrPostingPlanInvalid).
Proof.
  intros (Ha & Has & _). pose proof Hopen as (Ho & Hos & _). unfold postingCandidate.
  destruct (signed_exists kind a ErrPostingPlanInvalid Ha Hkind) as [x Hx]. rewrite Hx. cbn [mbind outcome_bind].
  apply signed_direction in Hx as [_ (Hxw & Hxs & Hxv)]; [|done].
  rewrite Add_amount, Hos, Hxs, Has, Z.eqb_refl, Hxv by done. cbn [negb]. fold (led_to open kind (Decimal_signed a)).
  destruct (Z.ltb_spec (Z.abs (led_to open kind (Decimal_signed a))) (10 ^ MaxPrecision)) as [Hlt|Hge]; [left|right].
  - split; [done|]. eexists. split; [reflexivity|]. destruct (dec_wf_scale _ Ho). rewrite Hos in *. by apply amount_dec_of.
  - split; [lia|done].
Qed.

(** What the loop keeps: a movement of [n] splits in an accepted and a
    rejected part, and its decisions can be sealed. *)
Definition plan_ok (n : Z) (st : plan_state) : Prop :=
  amt s (ps_accepted st) /\ amt s (ps_rejected st) /\ 0 <= Decimal_signed (ps_accepted st) /\ 0 <= Decimal_signed (ps_rejected st) /\
  Decimal_signed (ps_accepted st) + Decimal_signed (ps_rejected st) = n /\ Forall (decision_amounts s) (ps_decisions st).

Definition noted (n : Z) (rule : BalanceRule) (st st' : plan_state) : Prop :=
  plan_ok n st' /\ Decimal_signed (ps_accepted st') = accept kind (Decimal_signed (ps_accepted st)) rule.

Lemma zero_amt : amt s zero.
Proof. destruct Hzero as (? & ? & _). by split_and!. Qed.

(** A turn that only adds a decision. *)
Lemma note_decision n rule st d : plan_ok n st -> amt s (rd_Accepted d) -> amt s (rd_Rejected d) -> rd_Overflow d = zero ->
  accept kind (Decimal_signed (ps_accepted st)) rule = Decimal_signed (ps_accepted st) ->
  noted n rule st (mkPlanState (ps_accepted st) (ps_rejected st) (ps_decisions st ++ [d])).
Proof.
  intros (H1 & H2 & H3 & H4 & H5 & H6) Ha Hr Ho E. split; [|by rewrite E]. do 5 (split; [done|]).
  apply Forall_app_2; [done|]. constructor; [|constructor]. unfold decision_amounts. rewrite Ho. split; [done|]. split; [apply zero_amt|done].
Qed.

Lemma threshold_spec n rule st : rule_ok s rule -> plan_ok n st -> n < 10 ^ MaxPrecision -> applies rule kind = true ->
  br_Kind rule = BalanceRuleThreshold -> exists st', plan_rule opening zero source rule st = Ok st' /\ noted n rule st st'.
Proof.
  intros (_ & Hl & Hls & Hl0) Hok Hn Happ Ht. pose proof Hok as ((Ha & Has & _) & (Hr & Hrs & _) & Ha0 & Hr0 & Hsum & Hds).
  unfold plan_rule. rewrite Happ, Ht, String.eqb_refl. cbn [negb]. rewrite Cmp_greater_same by congruence.
  assert (Hacc : accept kind (Decimal_signed (ps_accepted st)) rule = Z.min (Decimal_signed (ps_accepted st)) (Decimal_signed (br_Limit rule))).
  { unfold accept, is_threshold. by rewrite Happ, Ht. }
  destruct (Z.ltb_spec (Decimal_signed (br_Limit rule)) (Decimal_signed (ps_accepted st))) as [Hlt|Hge].
  - destruct (Sub_returns (ps_accepted st) (br_Limit rule)) as [x Hx]; [done|done|congruence|lia|]. rewrite Hx. cbn [or_reject map_err mbind outcome_bind].
    apply Sub_ok_inv in Hx as (_ & _ & _ & (Hxw & Hxs & Hxv)). rewrite Has in Hxs.
    destruct (Add_returns (ps_rejected st) x) as [r Hr']; [done|done|congruence|lia|]. rewrite Hr'. cbn [or_reject map_err mbind outcome_bind].
    apply Add_ok_inv in Hr' as (_ & _ & _ & (Hrw & Hrs' & Hrv)). rewrite Hrs in Hrs'. eexists. split; [reflexivity|].
    split; [|rewrite Hacc; cbn [ps_accepted]; lia]. unfold plan_ok. cbn [ps_accepted ps_rejected ps_decisions].
    do 2 (split; [by split|]). do 3 (split; [lia|]). apply Forall_app_2; [done|]. constructor; [|constructor].
    split; [by split|]. split; [apply zero_amt|by split].
  - destruct (Decimal_Equal (ps_accepted st) (br_Limit rule)); eexists; (split; [reflexivity|]);
      (apply note_decision; [done|by split|apply zero_amt|done|rewrite Hacc; lia]).
Qed.

(** One rule: it is noted, or it refuses the movement. *)
Lemma plan_rule_spec n rule st : rule_ok s rule -> plan_ok n st -> n < 10 ^ MaxPrecision ->
  (bound_admits open kind (Decimal_signed (ps_accepted st)) rule /\
   exists st', plan_rule opening zero source rule st = Ok st' /\ noted n rule st st') \/
  (~ bound_admits open kind (Decimal_signed (ps_accepted st)) rule /\
   exists e, plan_rule opening zero source rule st = Err e /\ refuses open kind (Decimal_signed (ps_accepted st)) rule e).
Proof.
  intros Hr Hok Hn. destruct (applies rule kind) eqn:Happ.
  2:{ left. split; [intros H; congruence|]. exists st. unfold plan_rule. rewrite Happ. split; [done|]. split; [done|]. unfold accept, is_threshold. by rewrite Happ. }
  destruct (String.eqb_spec (br_Kind rule) BalanceRuleThreshold) as [Ht|Ht].
  { left. split; [intros _ H; congruence|]. by apply threshold_spec. }
  pose proof Hr as (Hdecl & Hl & Hls & Hl0). pose proof Hok as (Ha & _). set (a := Decimal_signed (ps_accepted st)) in *.
  assert (Ht' : String.eqb (br_Kind rule) BalanceRuleThreshold = false) by (by apply String.eqb_neq).
  unfold rule_declared in Hdecl. rewrite Ht', orb_false_r in Hdecl. unfold plan_rule, bound_admits, refuses. rewrite Happ, Ht', Hdecl. cbn [negb].
  destruct (candidate_spec (ps_accepted st) Ha) as [(Hfit & c & -> & (Hcw & Hcs & Hcv))|[Hfit ->]]; cbn [or_reject map_err mbind outcome_bind].
  2:{ right. split; [intros H; by apply Hfit, H|]. eexists. split; [reflexivity|by left]. }
  fold a in Hfit, Hcv. rewrite less_same, Cmp_greater_same, Hcv by congruence.
  destruct (String.eqb_spec (br_Kind rule) BalanceRuleFloor) as [Ef|Ef], (String.eqb_spec (br_Kind rule) BalanceRuleCap) as [Ec|Ec];
    [by rewrite Ef in Ec| | |done]; cbn [andb fail_if mbind outcome_bind].
  - destruct (Z.ltb_spec (led_to open kind a) (Decimal_signed (br_Limit rule))) as [Hlt|Hge]; cbn [fail_if mbind outcome_bind]; [right|left].
    + split; [intros H; destruct (H eq_refl Ht) as (_ & H1 & _); specialize (H1 Ef); lia|]. eexists. split; [reflexivity|].
      right. exists c. split_and!; try done. by left.
    + split; [intros _ _; split_and!; [done|done|congruence]|]. eexists. split; [reflexivity|].
      apply note_decision; [done|done|apply zero_amt|done|]. unfold accept, is_threshold. by rewrite Ht', andb_false_r.
  - destruct (Z.ltb_spec (Decimal_signed (br_Limit rule)) (led_to open kind a)) as [Hlt|Hge]; cbn [fail_if mbind outcome_bind]; [right|left].
    + split; [intros H; destruct (H eq_refl Ht) as (_ & _ & H1); specialize (H1 Ec); lia|]. eexists. split; [reflexivity|].
      right. exists c. split_and!; try done. by right.
    + split; [intros _ _; split_and!; [done|congruence|done]|]. eexists. split; [reflexivity|].
      apply note_decision; [done|done|apply zero_amt|done|]. unfold accept, is_threshold. by rewrite Ht', andb_false_r.
Qed.

(** The first rule that refuses ends the loop. *)
Lemma plan_rules_spec n rules : Forall (rule_ok s) rules -> n < 10 ^ MaxPrecision -> forall st, plan_ok n st ->
  let a := Decimal_signed (ps_accepted st) in
  (bounds_admit open kind a rules /\ exists st', plan_rules opening zero source rules st = Ok st' /\ plan_ok n st' /\
     Decimal_signed (ps_accepted st') = accepted_of rules kind a) \/
  (~ bounds_admit open kind a rules /\ exists e before rule after, plan_rules opening zero source rules st = Err e /\
     rules = before ++ rule :: after /\ refuses open kind (accepted_of before kind a) rule e).
Proof.
  intros Hr Hn. induction Hr as [|rule rules Hrule _ IH]; intros st Hok a; cbn [plan_rules bounds_admit].
  { left. split; [done|]. by exists st. }
  destruct (plan_rule_spec n rule st Hrule Hok Hn) as [(Hb & st1 & -> & Hok1 & Hv1)|(Hb & e & -> & He)]; cbn [mbind outcome_bind].
  2:{ right. split; [by intros [? _]|]. by exists e, [], rule, rules. }
  fold a in Hb, Hv1. destruct (IH st1 Hok1) as [(Hbs & st' & Hst & Hok' & Hv)|(Hbs & e & before & r & after & Hst & -> & He)]; rewrite Hv1 in *.
  - left. split; [done|]. by exists st'.
  - right. split; [by intros [_ ?]|]. by exists e, (rule :: before), r, after.
Qed.

End plan_facts.

(** * Plans *)

Section planning.
Context `{B : DecimalBackend} `{L : !DecimalBackendLaws B} `{CM : CaseMapping} `{CF : CaseFolding} `{SHA : Sha256}.

(** The opening balance, the kind and the size of a request. *)
Definition opening_of (req : PostingPlanRequest) : Z := Decimal_signed (ab_Ending (pp_Authorized req)).
Definition kind_of (req : PostingPlanRequest) : EntryKind := e_Kind (pp_Requested req).
Definition requested_of (req : PostingPlanRequest) : Z := Decimal_signed (e_Amount (pp_Requested req)).
Definition planned_of (req : PostingPlanRequest) : Z := accepted_of (pp_Rules req) (kind_of req) (requested_of req).

(** The rules admit the movement, a debit is covered, and the result fits. *)
Definition plannable (req : PostingPlanRequest) : Prop :=
  bounds_admit (opening_of req) (kind_of req) (requested_of req) (pp_Rules req) /\
  (kind_of req = Debit -> planned_of req <= opening_of req) /\
  Z.abs (led_to (opening_of req) (kind_of req) (planned_of req)) < 10 ^ MaxPrecision.

(** What a plan says. *)
Definition planned (req : PostingPlanRequest) (p : PostingPlan) : Prop :=
  let s := d_scale (ab_Ending (pp_Authorized req)) in
  PostingPlan_Verify p = true /\
  (pl_AccountID p = ab_AccountID (pp_Authorized req) /\ pl_Opening p = ab_Ending (pp_Authorized req) /\ pl_Requested p = pp_Requested req /\
   pl_ExpectedHead p = pp_ExpectedHead req /\ pl_AuthorizedBalance p = ab_Digest (pp_Authorized req)) /\
  amount (pl_Accepted p) s (planned_of req) /\ amount (pl_Rejected p) s (requested_of req - planned_of req) /\ pl_Remainder p = pl_Rejected p /\
  amount (pl_Ending p) s (led_to (opening_of req) (kind_of req) (planned_of req)) /\
  (kind_of req = Debit -> 0 <= Decimal_signed (pl_Ending p)) /\
  (planned_of req = 0 /\ pl_Entries p = [] \/
   0 < planned_of req /\ pl_Entries p = [with_accepted (pl_Accepted p) (pp_Requested req)] /\
   fits (with_accepted (pl_Accepted p) (pp_Requested req)) (pp_Definition req)).

(** What validation establishes. *)
Definition ready (req : PostingPlanRequest) : Prop :=
  let s := d_scale (ab_Ending (pp_Authorized req)) in
  amt s (ab_Ending (pp_Authorized req)) /\ fits (pp_Requested req) (pp_Definition req) /\ d_scale (e_Amount (pp_Requested req)) = s /\
  Forall (rule_ok s) (pp_Rules req) /\ ab_AccountID (pp_Authorized req) = e_AccountID (pp_Requested req).

Lemma validate_ready req : validatePostingPlanRequest req = Ok tt -> ready req.
Proof.
  unfold validatePostingPlanRequest.
  rewrite !bind_unit_ok, !fail_if_ok_iff, !or_reject_ok, entry_valid_iff, orb_false_iff, !negb_false_iff, Z.eqb_eq, String.eqb_eq.
  intros H. destruct_and!. unfold ready. match goal with H : Decimal_Validate _ = Ok _ |- _ => apply Decimal_Validate_ok in H end.
  split; [by split|]. do 2 (split; [done|]). split; [|done].
  match goal with H : validateRuleApplication _ = Ok _ |- _ => apply validate_applicable in H as (_ & _ & _ & ?) end. done.
Qed.

Lemma validate_outcome req : validatePostingPlanRequest req = Ok tt \/ validatePostingPlanRequest req = Err ErrPostingPlanInvalid.
Proof.
  destruct (validatePostingPlanRequest req) as [[]|e|] eqn:E; [by left|right|exfalso]; unfold validatePostingPlanRequest in E.
  - repeat (apply bind_err_inv in E as [E|(? & _ & E)]; [first [by apply fail_if_err in E as ->|by apply or_reject_err in E as ->]|]).
    by apply or_reject_err in E as ->.
  - revert E. assert (Hd : AccumulatorDefinition_Validate (pp_Definition req) <> Panic) by apply definition_valid_total.
    pose proof (entry_valid_total (pp_Requested req) (pp_Definition req)).
    assert (Hr : validateRuleApplication (rule_request req) <> Panic) by (by destruct (validate_cases (rule_request req)) as [[? ->]| ->]).
    no_panic.
Qed.

Lemma zero_of_spec opening s : amt s opening ->
  exists zero, NewDecimal "0" (d_scale opening) (d_round opening) = Ok zero /\ amount zero s 0.
Proof.
  intros (Hw & Hs & _). destruct (dec_wf_scale _ Hw) as [Hsc Hm]. eexists. split; [by apply NewDecimal_zero|].
  rewrite Hs in *. by apply amount_dec_of; [|done..].
Qed.

Lemma plan_encodable s p : amt s (pl_Opening p) -> amt s (pl_Accepted p) -> amt s (pl_Rejected p) -> amt s (pl_Remainder p) -> amt s (pl_Ending p) ->
  Forall (rule_ok s) (pl_Rules p) -> Forall (decision_amounts s) (pl_Decisions p) -> Forall op_encodable (plan_ops p).
Proof.
  intros [? _] [? _] [? _] [? _] [? _] Hr Hd. unfold plan_ops. apply Forall_app_2; [by encodable|]. apply Forall_app_2.
  { apply Forall_concat, Forall_fmap, (Forall_impl _ _ _ Hr). intros rule (_ & Hl & _). unfold rule_ops; cbn. by encodable. }
  apply Forall_cons; split; [done|]. apply Forall_app_2; [apply Forall_fmap, Forall_forall; done|]. apply Forall_cons; split; [done|].
  apply Forall_concat, Forall_fmap, (Forall_impl _ _ _ Hd). intros d ([? _] & [? _] & [? _]). cbn. by encodable.
Qed.

Lemma sealed_plan_verifies s p : amt s (pl_Opening p) -> amt s (pl_Accepted p) -> amt s (pl_Rejected p) -> amt s (pl_Remainder p) -> amt s (pl_Ending p) ->
  Forall (rule_ok s) (pl_Rules p) -> Forall (decision_amounts s) (pl_Decisions p) ->
  exists d, postingPlanDigest p = Ok d /\ PostingPlan_Verify (plan_with_digest d p) = true.
Proof.
  intros. assert (Hd : postingPlanDigest p = Ok (Digest (w_buf (ops_run (plan_ops p) (New "hcmnext.domains.balance.PostingPlan" 1))))).
  { apply stream_digest; [done|]. by apply (plan_encodable s). }
  eexists. split; [exact Hd|]. unfold PostingPlan_Verify. change (postingPlanDigest (plan_with_digest ?d p)) with (postingPlanDigest p).
  rewrite Hd. cbn [plan_with_digest pl_Digest]. by rewrite String.eqb_refl.
Qed.

Lemma accepted_fits req acc : fits (pp_Requested req) (pp_Definition req) -> dec_wf acc -> 0 < Decimal_signed acc ->
  fits (with_accepted acc (pp_Requested req)) (pp_Definition req).
Proof. intros (H1 & H2 & H3 & H4 & _ & H5) Hw Hp. do 4 (split; [done|]). by split; [split|]. Qed.

Lemma plan_cases req : validatePostingPlanRequest req = Ok tt ->
  (plannable req /\ exists p, PlanPosting req = Ok p /\ planned req p) \/
  (~ plannable req /\ exists e, PlanPosting req = Err e /\
     (e = ErrPostingPlanInvalid \/ e = ErrInsufficientBalance \/
      exists before rule after, pp_Rules req = before ++ rule :: after /\
        refuses (opening_of req) (kind_of req) (accepted_of before (kind_of req) (requested_of req)) rule e)).
Proof.
  intros Hv. destruct (validate_ready req Hv) as (Hopen & Hfits & Has & Hrules & Hacc). unfold PlanPosting. rewrite Hv. cbn [mbind outcome_bind].
  set (s := d_scale (ab_Ending (pp_Authorized req))) in *. destruct (zero_of_spec _ s Hopen) as (zero & Hz & Hzero).
  change (d_scale (ab_Ending (pp_Authorized req))) with s in Hz. rewrite Hz. cbn [or_reject map_err mbind outcome_bind].
  pose proof Hfits as (_ & _ & Hk & _ & (Haw & Hpos) & _). pose proof (dec_wf_bound _ Haw) as Hbound. rewrite Z.abs_eq in Hbound by lia.
  set (st0 := mkPlanState _ _ _). pose proof (proj2 (proj2 Hzero)) as Hz0.
  assert (H0 : plan_ok s (requested_of req) st0).
  { unfold plan_ok, st0. cbn [ps_accepted ps_rejected ps_decisions]. rewrite Hz0. split; [by split|]. split; [apply (zero_amt s zero Hzero)|].
    unfold requested_of. split_and!; try lia. constructor. }
  destruct (plan_rules_spec s _ zero (pp_Requested req) Hopen Hzero Hk _ _ Hrules Hbound st0 H0)
    as [(Hb & st & -> & Hok & Hacc')|(Hb & e & before & rule & after & -> & Hbr & He)]; cbn [mbind outcome_bind].
  2:{ right. split; [by intros [? _]|]. exists e. split; [done|]. right; right. by exists before, rule, after. }
  change (Decimal_signed (ps_accepted st) = planned_of req) in Hacc'. destruct Hok as (Ha & Hr & Ha0 & Hr0 & Hsum & Hds).
  pose proof Ha as (Hasw & Hass & _). pose proof Hopen as (Ho & Hos & _). rewrite Cmp_greater_same by congruence. rewrite Hacc'.
  fold (opening_of req) (kind_of req).
  destruct (String.eqb_spec (kind_of req) Debit) as [Hd|Hd], (Z.ltb_spec (opening_of req) (planned_of req)) as [Hlt|Hge]; cbn [andb fail_if mbind outcome_bind].
  { right. split; [intros (_ & H & _); specialize (H Hd); lia|]. exists ErrInsufficientBalance. split; [done|]. by right; left. }
  all: destruct (candidate_spec s _ (pp_Requested req) Hopen Hk (ps_accepted st) Ha) as [(Hfit & c & Hc & Hcv)|[Hfit Hc]]; unfold kind_of; rewrite Hc;
    rewrite Hacc' in Hfit; cbn [or_reject map_err mbind outcome_bind].
  all: try (right; split; [by intros (_ & _ & ?)|]; exists ErrPostingPlanInvalid; split; [done|by left]).
  all: rewrite Hacc' in Hcv; left; (split; [split; [done|]; split; [by intros|done]|]).
  all: pose proof (amount_signed _ _ _ Hcv) as [Hcamt Hcs].
  all: match goal with |- context [postingPlanDigest ?p] =>
         destruct (sealed_plan_verifies s p Hopen Ha Hr Hr Hcamt Hrules Hds) as (d & -> & Hver) end.
  all: eexists; split; [reflexivity|]; unfold planned; split; [exact Hver|]; cbn [plan_with_digest pl_AccountID pl_Opening pl_Requested pl_ExpectedHead pl_AuthorizedBalance pl_Accepted pl_Rejected pl_Remainder pl_Ending pl_Entries].
  all: split; [by split_and!|]; split; [by split|]; split; [destruct Hr as (? & ? & _); split_and!; [done|done|unfold requested_of; lia]|]; split; [done|]; split; [done|].
  all: (split; [intros Hd'; first [by destruct Hd|rewrite Hcs; unfold led_to; fold (kind_of req); rewrite Hd'; change (direction Debit) with (-1); unfold opening_of in *; lia]|]).
  all: rewrite (Sign_amount _ Hasw), Hacc'; destruct (Z.ltb_spec 0 (Z.sgn (planned_of req))) as [Hp|Hp]; [right|left; split; [lia|done]].
  all: split; [lia|]; split; [done|]; apply accepted_fits; [done|done|lia].
Qed.

(** A floor or cap bounds the planned balance when no threshold after it
    reduces the movement. *)
Definition bound_holds (req : PostingPlanRequest) (q : Z) : Prop :=
  forall before rule after, pp_Rules req = before ++ rule :: after -> applies rule (kind_of req) = true ->
    Forall (fun r => is_threshold (kind_of req) r = false) after ->
    (br_Kind rule = BalanceRuleFloor -> Decimal_signed (br_Limit rule) <= q) /\ (br_Kind rule = BalanceRuleCap -> q <= Decimal_signed (br_Limit rule)).

Lemma accepted_of_app l1 l2 kind q : accepted_of (l1 ++ l2) kind q = accepted_of l2 kind (accepted_of l1 kind q).
Proof. apply fold_left_app. Qed.

Lemma no_threshold_accepts kind rules q : Forall (fun r => is_threshold kind r = false) rules -> accepted_of rules kind q = q.
Proof. induction 1 as [|r rules Hr _ IH]; [done|]. cbn [accepted_of fold_left]. unfold accept at 2. by rewrite Hr. Qed.

Lemma bounds_admit_app opening kind l1 l2 q : bounds_admit opening kind q (l1 ++ l2) ->
  bounds_admit opening kind (accepted_of l1 kind q) l2.
Proof. revert q. induction l1 as [|r l1 IH]; intros q; [done|]. cbn [app bounds_admit]. intros [_ H]. by apply IH in H. Qed.

Lemma plannable_bounds req : plannable req -> bound_holds req (led_to (opening_of req) (kind_of req) (planned_of req)).
Proof.
  intros [Hb _] before rule after E Happ Hafter. unfold planned_of. rewrite E in *. apply bounds_admit_app in Hb as [Hb _].
  assert (Hk : forall k, k <> BalanceRuleThreshold -> br_Kind rule = k -> br_Kind rule <> BalanceRuleThreshold /\
    accepted_of (before ++ rule :: after) (kind_of req) (requested_of req) = accepted_of before (kind_of req) (requested_of req)).
  { intros k Hk Hkr. split; [congruence|]. rewrite accepted_of_app. apply (no_threshold_accepts _ (rule :: after)). constructor; [|done].
    unfold is_threshold. rewrite Happ. cbn [andb]. apply String.eqb_neq. congruence. }
  split; intros Hkr.
  - destruct (Hk BalanceRuleFloor ltac:(discriminate) Hkr) as [Hnt ->]. destruct (Hb Happ Hnt) as (_ & H & _). by apply H.
  - destruct (Hk BalanceRuleCap ltac:(discriminate) Hkr) as [Hnt ->]. destruct (Hb Happ Hnt) as (_ & _ & H). by apply H.
Qed.

Lemma plan_no_panic req : PlanPosting req <> Panic.
Proof.
  destruct (validate_outcome req) as [Hv|Hv]; [|unfold PlanPosting; by rewrite Hv].
  by destruct (plan_cases req Hv) as [(_ & p & -> & _)|(_ & e & -> & _)].
Qed.

(** Planning a posting never panics, and there is a plan exactly for a
    valid request whose floors and caps admit the movement as reduced by the
    thresholds before them, whose debit is covered by the authorized balance,
    and whose result fits a decimal.  The plan verifies; it accepts the least
    of the request and the thresholds and rejects the rest, its ending is the
    opening plus or minus what it accepts and never below zero after a debit,
    and it posts nothing or the one requested entry with the accepted amount,
    which fits the definition.  A floor or cap that no later threshold relaxes
    bounds the ending.  A refusal by a rule names a declared rule that the
    proposed balance breaks. *)
Theorem posting_plan_exact (req : PostingPlanRequest) :
  PlanPosting req <> Panic /\
  ((exists p, PlanPosting req = Ok p) <-> validatePostingPlanRequest req = Ok tt /\ plannable req) /\
  (forall p, PlanPosting req = Ok p -> planned req p /\ bound_holds req (Decimal_signed (pl_Ending p))) /\
  (forall id version kind limit proposed, PlanPosting req = Err (ErrPostingPlanRejected id version kind limit proposed) ->
     exists before rule after, pp_Rules req = before ++ rule :: after /\
       (id, version, kind, limit) = (br_ID rule, br_Version rule, br_Kind rule, br_Limit rule) /\ applies rule (kind_of req) = true /\
       Decimal_signed proposed = led_to (opening_of req) (kind_of req) (accepted_of before (kind_of req) (requested_of req)) /\
       (kind = BalanceRuleFloor /\ Decimal_signed proposed < Decimal_signed limit \/
        kind = BalanceRuleCap /\ Decimal_signed limit < Decimal_signed proposed)).
Proof.
  destruct (validate_outcome req) as [Hv|Hv].
  2:{ unfold PlanPosting. rewrite Hv. cbn [mbind outcome_bind]. split; [done|]. split; [by split; [intros [? [=]]|intros [[=] _]]|]. by split. }
  destruct (plan_cases req Hv) as [(Hp & p & E & Hpl)|(Hp & e & E & He)]; rewrite E.
  - split; [done|]. split; [split; [done|by exists p]|]. split; [|done]. intros p' [= <-]. split; [done|].
    pose proof Hpl as (_ & _ & _ & _ & _ & (_ & _ & ->) & _). by apply plannable_bounds.
  - split; [done|]. split; [by split; [intros [? [=]]|intros [_ ?]]|]. split; [done|].
    intros id version kind limit proposed [= ->]. destruct He as [[=]|[[=]|(before & rule & after & Hr & [[=]|(q & Eq & Happ & Hq & Hk)])]].
    exists before, rule, after. injection Eq as -> -> -> -> ->. by rewrite Hq.
Qed.

End planning.

(** * Concrete plans *)

Section sample_plans.
#[local] Instance sample_plan_case : CaseMapping := {| unicode_lower := fun s => s; unicode_upper := fun s => s |}.
#[local] Instance sample_plan_folding : CaseFolding := {| unicode_equal_fold := String.eqb |}.
#[local] Instance sample_plan_sha : Sha256 := {| sha256_Sum256 := fun bs => [Z.of_nat (length bs) mod 256; foldr Z.add 0 bs mod 256] |}.

Definition sample_authorized (account : string) (q : Z) : AuthorizedBalance :=
  mkAuthorized account (mkInstant true 100 0) (mkInstant true 100 0) (dec_of 0 2 RoundingHalfUp) [] [] [] (dec_of q 2 RoundingHalfUp) "sha256:1".
Definition sample_plan (kind : EntryKind) (q : Z) (rules : list BalanceRule) : PostingPlanRequest :=
  mkPlanRequest (sample_authorized "a" 10000) leave_definition 0 (leave_entry "a" kind "k1" q) rules.

Lemma posting_plan_exact_witness :
  exists p, PlanPosting (sample_plan Debit 1000 [sample_rule "limit" BalanceRuleThreshold 800; sample_rule "floor" BalanceRuleFloor 9000]) = Ok p /\
    Decimal_signed (pl_Ending p) = 9200 /\ Decimal_signed (pl_Rejected p) = 200.
Proof.
  set (req := sample_plan _ _ _). destruct (posting_plan_exact req) as (_ & [_ Hex] & Hpl & _). destruct Hex as [p E].
  - split; [vm_compute; reflexivity|]. vm_compute. repeat split; try congruence; intros; try discriminate; congruence.
  - exists p. split; [exact E|]. destruct (Hpl p E) as [(_ & _ & _ & (_ & _ & Hr) & _ & (_ & _ & He) & _) _].
    rewrite He, Hr. split; vm_compute; reflexivity.
Defined.

(** A threshold after a cap relaxes it: the plan leaves more than the cap. *)
Lemma later_threshold_breaks_cap :
  exists p, PlanPosting (sample_plan Debit 1000 [sample_rule "cap" BalanceRuleCap 9500; sample_rule "limit" BalanceRuleThreshold 200]) = Ok p /\
    9500 < Decimal_signed (pl_Ending p).
Proof. eexists. split; [vm_compute; reflexivity|]. vm_compute. reflexivity. Qed.

End sample_plans.
