(* ===== verification/BalanceCommit.v ===== *)
(** Committing planned postings and transfers:
    [internal/domains/balance/posting.go] and the planning half of
    [transfer.go].

    A [BusinessTransaction] keeps the head of every account and the receipt of
    every idempotency key.  The theorems say that a commit happens once or not
    at all, and that a transfer conserves the sum of its accounts. *)

From S2P Require Import Prelude GoStrings Sorting CanonicalBytes FixedDecimal DecimalAmounts CivilTime BalanceEntries BalanceAsOf BalanceRules BalancePlans.

Local Open Scope Z_scope.

Record PostingReceipt : Type := mkPostingReceipt {
  rc_PlanID : string; rc_OpeningHead : string; rc_EndingHead : string; rc_UnusedRemainder : string; rc_Entries : Z; rc_Digest : string
}.
Record TransferReceipt : Type := mkTransferReceipt { tr_Source : PostingReceipt; tr_Destination : PostingReceipt; tr_Digest : string }.

Record BusinessTransaction : Type := mkTransaction {
  bt_heads : gmap string string; bt_receipts : gmap string PostingReceipt; bt_transfers : gmap string TransferReceipt;
  bt_transferKeyOwners : gmap string string
}.

Definition NewBusinessTransaction : BusinessTransaction := mkTransaction ∅ ∅ ∅ ∅.

(** [SeedHead] and [Head], on a transaction that is not nil. *)
Definition BusinessTransaction_SeedHead (tx : BusinessTransaction) (account head : string) : BusinessTransaction :=
  mkTransaction (<[account := head]> (bt_heads tx)) (bt_receipts tx) (bt_transfers tx) (bt_transferKeyOwners tx).
Definition BusinessTransaction_Head (tx : BusinessTransaction) (account : string) : option string := bt_heads tx !! account.

(** The failpoint: it may fail at a step; production passes none. *)
Definition Injector : Type := option (string -> bool).
Definition fail (inject : Injector) (step what : string) : outcome balance_err unit :=
  match inject with None => Ok tt | Some f => fail_if (f step) (ErrCommit what) end.

(** The entries of a plan stay in its account. *)
Fixpoint entries_stay (account : string) (inject : Injector) (i : Z) (entries : list BalanceEntry) : outcome balance_err unit :=
  match entries with
  | [] => Ok tt
  | entry :: rest =>
      _ ← fail_if (negb (String.eqb (e_AccountID entry) account)) (ErrCommit "entry escapes account");
      _ ← fail inject ("entry:" +:+ itoa i) "rolled back at entry";
      entries_stay account inject (i + 1) rest
  end.

(** The rest of a step that already holds the lock: an error leaves the state. *)
Definition keeping {A} (tx : BusinessTransaction) (m : outcome balance_err (A * BusinessTransaction)) : outcome balance_err A * BusinessTransaction :=
  match m with Ok (a, tx') => (Ok a, tx') | Err e => (Err e, tx) | Panic => (Panic, tx) end.

Section commit.
Context `{B : DecimalBackend} `{CM : CaseMapping} `{CF : CaseFolding} `{SHA : Sha256}.

Definition commitDigest (plan : PostingPlan) (key : string) : string :=
  Digest (str_bytes ("balance-commit" +:+ nul +:+ pl_Digest plan +:+ nul +:+ key)).

Definition linkedPairDigest (source destination : PostingPlan) (amount : Decimal) : string :=
  Digest (str_bytes ("balance-transfer" +:+ nul +:+ pl_Digest source +:+ nul +:+ pl_Digest destination +:+ nul +:+ Decimal_String amount)).

(** [PostingReceipt.Verify]. *)
Definition PostingReceipt_Verify (receipt : PostingReceipt) (plan : PostingPlan) (key : string) : outcome balance_err unit :=
  fail_if (String.eqb (rc_Digest receipt) "" || negb (String.eqb (commitDigest plan key) (rc_Digest receipt))) (ErrCommit "posting receipt seal is broken").

(** The receipt of a plan under a key. *)
Definition receipt_of (plan : PostingPlan) (key : string) : PostingReceipt :=
  mkPostingReceipt (pl_DefinitionID plan) (Decimal_String (pl_Opening plan)) (Decimal_String (pl_Ending plan))
    (Decimal_String (pl_Remainder plan)) (Z.of_nat (length (pl_Entries plan))) (commitDigest plan key).

Definition commit_posting (tx : BusinessTransaction) (plan : PostingPlan) (key : string) (inject : Injector)
    : outcome balance_err (PostingReceipt * BusinessTransaction) :=
  _ ← fail_if (negb (PostingPlan_Verify plan)) (ErrCommit "changed plan refuses commit");
  _ ← fail_if (is_blank key) (ErrCommit "idempotency key is required");
  _ ← fail_if (length (pl_Entries plan) =? 0)%nat (ErrCommit "plan carries no entries");
  _ ← fail_if (bool_decide (is_Some (bt_transferKeyOwners tx !! key))) (ErrCommit "idempotency key is reserved by transfer");
  _ ← fail_if (bool_decide (is_Some (bt_transfers tx !! key))) (ErrCommit "idempotency key is already used by a transfer");
  match bt_receipts tx !! key with
  | Some prior =>
      _ ← fail_if (negb (String.eqb (rc_Digest prior) (commitDigest plan key))) (ErrCommit "posting idempotency key conflict");
      Ok (prior, tx)
  | None =>
      match bt_heads tx !! pl_AccountID plan with
      | None => Err (ErrCommit "account has no head")
      | Some head =>
          _ ← fail_if (negb (String.eqb head (Decimal_String (pl_Opening plan)))) (ErrCommit "stale account head");
          _ ← fail inject "leave-fact" "rolled back at the leave fact";
          _ ← entries_stay (pl_AccountID plan) inject 0 (pl_Entries plan);
          _ ← fail inject "commit" "rolled back at commit";
          let receipt := receipt_of plan key in
          Ok (receipt, mkTransaction (<[pl_AccountID plan := Decimal_String (pl_Ending plan)]> (bt_heads tx))
                         (<[key := receipt]> (bt_receipts tx)) (bt_transfers tx) (bt_transferKeyOwners tx))
      end
  end.

Definition CommitPosting (tx : BusinessTransaction) (plan : PostingPlan) (key : string) (inject : Injector)
    : outcome balance_err PostingReceipt * BusinessTransaction := keeping tx (commit_posting tx plan key inject).

(** * Transfers *)

Record TransferPlan : Type := mkTransferPlan { tp_Source : PostingPlan; tp_Destination : PostingPlan; tp_Amount : Decimal; tp_Digest : string }.

(** [TransferPlan.Verify]. *)
Definition TransferPlan_Verify (p : TransferPlan) : bool :=
  negb (String.eqb (tp_Digest p) "") && PostingPlan_Verify (tp_Source p) && PostingPlan_Verify (tp_Destination p) &&
  match pl_Entries (tp_Source p), pl_Entries (tp_Destination p) with
  | [d], [c] =>
      String.eqb (e_Kind d) Debit && String.eqb (e_Kind c) Credit && negb (String.eqb (e_AccountID d) (e_AccountID c)) &&
      Decimal_Equal (e_Amount d) (e_Amount c) && Decimal_Equal (e_Amount d) (tp_Amount p) &&
      String.eqb (tp_Digest p) (linkedPairDigest (tp_Source p) (tp_Destination p) (tp_Amount p))
  | _, _ => false
  end.

(** The keys a transfer reserves. *)
Definition leg_source (key : string) : string := key +:+ "/source".
Definition leg_destination (key : string) : string := key +:+ "/destination".
Definition reserved_keys (key : string) : list string := [key; leg_source key; leg_destination key].

(** What a linked pair must be before the lock is taken. *)
Definition linked (source destination : PostingPlan) (amount : Decimal) (key : string) : outcome balance_err (BalanceEntry * BalanceEntry) :=
  match pl_Entries source, pl_Entries destination with
  | [s], [d] =>
      _ ← fail_if (String.eqb (e_Kind s) (e_Kind d) || String.eqb (e_AccountID s) (e_AccountID d) ||
                   negb (Decimal_Equal (e_Amount s) (e_Amount d)) || negb (Decimal_Equal (e_Amount s) amount) ||
                   negb (Decimal_Equal (pl_Accepted source) amount) || negb (Decimal_Equal (pl_Accepted destination) amount))
            (ErrCommit "linked posting legs must be opposite, equal, and fully accepted");
      _ ← fail_if (negb (String.eqb (e_SourceTransactionID s) key) || negb (String.eqb (e_SourceTransactionID d) key) ||
                   negb (String.eqb (e_IdempotencyKey s) (leg_source key)) || negb (String.eqb (e_IdempotencyKey d) (leg_destination key)))
            (ErrCommit "transfer key does not match sealed leg identities");
      Ok (s, d)
  | _, _ => Err (ErrCommit "linked transfer requires one entry per leg")
  end.

(** The keys are free for the transfer. *)
Fixpoint keys_free (tx : BusinessTransaction) (key : string) (keys : list string) : outcome balance_err unit :=
  match keys with
  | [] => Ok tt
  | reserved :: rest =>
      _ ← fail_if (match bt_transferKeyOwners tx !! reserved with Some owner => negb (String.eqb owner key) | None => false end)
            (ErrCommit "transfer idempotency key or leg key is already reserved");
      _ ← fail_if (bool_decide (is_Some (bt_receipts tx !! reserved))) (ErrCommit "transfer idempotency key or leg key is already used by a posting");
      keys_free tx key rest
  end.

(** The heads of the legs are their openings. *)
Fixpoint heads_current (tx : BusinessTransaction) (legs : list PostingPlan) : outcome balance_err unit :=
  match legs with
  | [] => Ok tt
  | leg :: rest =>
      _ ← fail_if (negb (bool_decide (bt_heads tx !! pl_AccountID leg = Some (Decimal_String (pl_Opening leg)))))
            (ErrCommit "stale or missing transfer account head");
      heads_current tx rest
  end.

Definition leg_receipt (plan : PostingPlan) (key : string) : PostingReceipt :=
  mkPostingReceipt (pl_DefinitionID plan) (Decimal_String (pl_Opening plan)) (Decimal_String (pl_Ending plan))
    (Decimal_String (pl_Remainder plan)) 1 (commitDigest plan key).

Definition commit_linked_pair (tx : BusinessTransaction) (source destination : PostingPlan) (amount : Decimal) (key : string)
    : outcome balance_err (TransferReceipt * BusinessTransaction) :=
  _ ← fail_if (is_blank key || negb (PostingPlan_Verify source) || negb (PostingPlan_Verify destination))
        (ErrCommit "invalid linked posting pair or key");
  entries ← linked source destination amount key;
  let digest := linkedPairDigest source destination amount in
  _ ← keys_free tx key (reserved_keys key);
  match bt_transfers tx !! key with
  | Some prior =>
      _ ← fail_if (negb (String.eqb (tr_Digest prior) digest)) (ErrCommit "transfer idempotency key conflict");
      Ok (prior, tx)
  | None =>
      _ ← fail_if (String.eqb (pl_AccountID source) (pl_AccountID destination)) (ErrCommit "transfer accounts must differ");
      _ ← heads_current tx [source; destination];
      _ ← fail_if (negb (String.eqb (e_AccountID (fst entries)) (pl_AccountID source)) ||
                   negb (String.eqb (e_AccountID (snd entries)) (pl_AccountID destination))) (ErrCommit "transfer entries escape their accounts");
      let receipt := mkTransferReceipt (leg_receipt source (leg_source key)) (leg_receipt destination (leg_destination key)) digest in
      Ok (receipt, mkTransaction
            (<[pl_AccountID destination := Decimal_String (pl_Ending destination)]>
               (<[pl_AccountID source := Decimal_String (pl_Ending source)]> (bt_heads tx)))
            (bt_receipts tx) (<[key := receipt]> (bt_transfers tx))
            (foldl (fun owners reserved => <[reserved := key]> owners) (bt_transferKeyOwners tx) (reserved_keys key)))
  end.

Definition commitLinkedPair (tx : BusinessTransaction) (source destination : PostingPlan) (amount : Decimal) (key : string)
    : outcome balance_err TransferReceipt * BusinessTransaction := keeping tx (commit_linked_pair tx source destination amount key).

Definition CommitTransfer (tx : BusinessTransaction) (plan : TransferPlan) (key : string)
    : outcome balance_err TransferReceipt * BusinessTransaction :=
  if negb (TransferPlan_Verify plan) || is_blank key then (Err (ErrCommit "invalid transfer plan or key"), tx)
  else commitLinkedPair tx (tp_Source plan) (tp_Destination plan) (tp_Amount plan) key.

Record TransferPlanRequest : Type := mkTransferPlanRequest {
  tq_SourceAuthorized : AuthorizedBalance; tq_SourceDefinition : AccumulatorDefinition; tq_SourceExpectedHead : Z; tq_Debit : BalanceEntry;
  tq_DestinationAuthorized : AuthorizedBalance; tq_DestinationDefinition : AccumulatorDefinition; tq_DestinationExpectedHead : Z;
  tq_Credit : BalanceEntry; tq_IdempotencyKey : string
}.

Definition source_request (req : TransferPlanRequest) : PostingPlanRequest :=
  mkPlanRequest (tq_SourceAuthorized req) (tq_SourceDefinition req) (tq_SourceExpectedHead req) (tq_Debit req) [].
Definition destination_request (req : TransferPlanRequest) : PostingPlanRequest :=
  mkPlanRequest (tq_DestinationAuthorized req) (tq_DestinationDefinition req) (tq_DestinationExpectedHead req) (tq_Credit req) [].

Definition PlanTransfer (req : TransferPlanRequest) : outcome balance_err TransferPlan :=
  let debit := tq_Debit req in let credit := tq_Credit req in let key := tq_IdempotencyKey req in
  _ ← fail_if (is_blank key || String.eqb (e_AccountID debit) (e_AccountID credit) || negb (String.eqb (e_Kind debit) Debit) ||
               negb (String.eqb (e_Kind credit) Credit) || negb (Decimal_Equal (e_Amount debit) (e_Amount credit))) ErrTransferInvalid;
  _ ← fail_if (negb (String.eqb (ad_Unit (tq_SourceDefinition req)) (ad_Unit (tq_DestinationDefinition req))) ||
               negb (String.eqb (ad_Currency (tq_SourceDefinition req)) (ad_Currency (tq_DestinationDefinition req))) ||
               negb (d_scale (e_Amount debit) =? d_scale (e_Amount credit)) ||
               negb (bool_decide (d_round (e_Amount debit) = d_round (e_Amount credit)))) ErrTransferInvalid;
  _ ← fail_if (negb (String.eqb (e_SourceTransactionID debit) key) || negb (String.eqb (e_SourceTransactionID credit) key) ||
               negb (String.eqb (e_IdempotencyKey debit) (leg_source key)) || negb (String.eqb (e_IdempotencyKey credit) (leg_destination key)))
        ErrTransferInvalid;
  source ← or_reject (PlanPosting (source_request req)) ErrTransferInvalid;
  destination ← or_reject (PlanPosting (destination_request req)) ErrTransferInvalid;
  _ ← fail_if (negb (Decimal_Equal (pl_Accepted source) (e_Amount debit)) || negb (Decimal_Equal (pl_Accepted destination) (e_Amount credit)))
        ErrTransferInvalid;
  Ok (mkTransferPlan source destination (e_Amount debit) (linkedPairDigest source destination (e_Amount debit))).

End commit.

(** * The states of a transaction *)

Section transaction_facts.
Context `{B : DecimalBackend} `{CM : CaseMapping} `{CF : CaseFolding} `{SHA : Sha256}.

Inductive tx_step : BusinessTransaction -> BusinessTransaction -> Prop :=
  | step_seed tx account head : tx_step tx (BusinessTransaction_SeedHead tx account head)
  | step_post tx plan key inject : tx_step tx (snd (CommitPosting tx plan key inject))
  | step_transfer tx plan key : tx_step tx (snd (CommitTransfer tx plan key))
  | step_pair tx source destination amount key : tx_step tx (snd (commitLinkedPair tx source destination amount key)).
Definition tx_reached (tx : BusinessTransaction) : Prop := rtc tx_step NewBusinessTransaction tx.

(** Postings and transfers never share a key, and a transfer owns its own. *)
Definition tx_ok (tx : BusinessTransaction) : Prop :=
  (forall k, is_Some (bt_receipts tx !! k) -> bt_transferKeyOwners tx !! k = None) /\
  (forall k, is_Some (bt_transfers tx !! k) -> Forall (fun x => bt_transferKeyOwners tx !! x = Some k) (reserved_keys k)).

(** The failpoint lets a plan through. *)
Definition fault (inject : Injector) (step : string) : bool := match inject with None => false | Some f => f step end.
Definition steps (n : nat) : list string := ("leave-fact" :: ((fun i => "entry:" +:+ itoa (Z.of_nat i)) <$> seq 0 n) ++ ["commit"])%string.
Definition calm (inject : Injector) (plan : PostingPlan) : Prop :=
  Forall (fun step => fault inject step = false) (steps (length (pl_Entries plan))).

Definition posting_ready (tx : BusinessTransaction) (plan : PostingPlan) (key : string) : Prop :=
  PostingPlan_Verify plan = true /\ is_blank key = false /\ pl_Entries plan <> [] /\
  bt_transferKeyOwners tx !! key = None /\ bt_transfers tx !! key = None.
Definition posting_fresh (tx : BusinessTransaction) (plan : PostingPlan) (key : string) (inject : Injector) : Prop :=
  bt_receipts tx !! key = None /\ bt_heads tx !! pl_AccountID plan = Some (Decimal_String (pl_Opening plan)) /\
  Forall (fun e => e_AccountID e = pl_AccountID plan) (pl_Entries plan) /\ calm inject plan.

(** The state after a posting: one head and one receipt change. *)
Definition posted (tx : BusinessTransaction) (plan : PostingPlan) (key : string) : BusinessTransaction :=
  mkTransaction (<[pl_AccountID plan := Decimal_String (pl_Ending plan)]> (bt_heads tx))
    (<[key := receipt_of plan key]> (bt_receipts tx)) (bt_transfers tx) (bt_transferKeyOwners tx).

Lemma fail_ok inject step what : fail inject step what = Ok tt <-> fault inject step = false.
Proof. destruct inject as [f|]; cbn; [apply fail_if_ok_iff|done]. Qed.

Lemma not_some {A} (o : option A) : bool_decide (is_Some o) = false <-> o = None.
Proof. rewrite bool_decide_eq_false. destruct o; split; try done; intros []; by eexists. Qed.

Lemma entries_stay_ok account inject i es : entries_stay account inject (Z.of_nat i) es = Ok tt <->
  Forall (fun e => e_AccountID e = account) es /\
  Forall (fun step => fault inject step = false) ((fun j => "entry:" +:+ itoa (Z.of_nat j)) <$> seq i (length es)).
Proof.
  revert i. induction es as [|e es IH]; intros i; cbn [entries_stay length seq fmap list_fmap]; [done|].
  rewrite !bind_unit_ok, fail_if_ok_iff, negb_false_iff, String.eqb_eq, fail_ok, !Forall_cons.
  replace (Z.of_nat i + 1) with (Z.of_nat (S i)) by lia. rewrite IH. tauto.
Qed.

Lemma commit_posting_ok tx plan key inject r tx' : commit_posting tx plan key inject = Ok (r, tx') <->
  posting_ready tx plan key /\
  (bt_receipts tx !! key = Some r /\ rc_Digest r = commitDigest plan key /\ tx' = tx \/
   posting_fresh tx plan key inject /\ r = receipt_of plan key /\ tx' = posted tx plan key).
Proof.
  unfold commit_posting, posting_ready, posting_fresh, calm, steps.
  rewrite !bind_unit_ok, !fail_if_ok_iff, negb_false_iff, !not_some, Nat.eqb_neq, Forall_cons, Forall_app, Forall_singleton.
  assert (Hlen : length (pl_Entries plan) <> 0%nat <-> pl_Entries plan <> []) by (destruct (pl_Entries plan); cbn; split; intros; try done; lia).
  rewrite Hlen. destruct (bt_receipts tx !! key) as [prior|].
  - rewrite bind_unit_ok, fail_if_ok_iff, negb_false_iff, String.eqb_eq. naive_solver.
  - destruct (bt_heads tx !! pl_AccountID plan) as [head|]; [|naive_solver].
    rewrite !bind_unit_ok, fail_if_ok_iff, negb_false_iff, String.eqb_eq, !fail_ok, (entries_stay_ok _ _ 0). unfold posted. naive_solver.
Qed.

(** ** Linked pairs *)

(** The two legs of a transfer under a key. *)
Definition legs_match (source destination : PostingPlan) (amount : Decimal) (key : string) : Prop :=
  exists s d, pl_Entries source = [s] /\ pl_Entries destination = [d] /\
    e_Kind s <> e_Kind d /\ e_AccountID s <> e_AccountID d /\
    Forall (fun x => Decimal_Equal x amount = true) [e_Amount s; pl_Accepted source; pl_Accepted destination] /\
    Decimal_Equal (e_Amount s) (e_Amount d) = true /\
    e_SourceTransactionID s = key /\ e_SourceTransactionID d = key /\
    e_IdempotencyKey s = leg_source key /\ e_IdempotencyKey d = leg_destination key.
Definition pair_ready (tx : BusinessTransaction) (source destination : PostingPlan) (amount : Decimal) (key : string) : Prop :=
  is_blank key = false /\ PostingPlan_Verify source = true /\ PostingPlan_Verify destination = true /\ legs_match source destination amount key /\
  Forall (fun x => bt_receipts tx !! x = None /\ forall owner, bt_transferKeyOwners tx !! x = Some owner -> owner = key) (reserved_keys key).
Definition pair_fresh (tx : BusinessTransaction) (source destination : PostingPlan) (key : string) : Prop :=
  bt_transfers tx !! key = None /\ pl_AccountID source <> pl_AccountID destination /\
  Forall (fun leg => bt_heads tx !! pl_AccountID leg = Some (Decimal_String (pl_Opening leg)) /\
                     Forall (fun e => e_AccountID e = pl_AccountID leg) (pl_Entries leg)) [source; destination].

Definition pair_receipt (source destination : PostingPlan) (amount : Decimal) (key : string) : TransferReceipt :=
  mkTransferReceipt (receipt_of source (leg_source key)) (receipt_of destination (leg_destination key)) (linkedPairDigest source destination amount).
Definition owned (key : string) (owners : gmap string string) : gmap string string :=
  foldl (fun owners reserved => <[reserved := key]> owners) owners (reserved_keys key).
Definition settled (tx : BusinessTransaction) (source destination : PostingPlan) (amount : Decimal) (key : string) : BusinessTransaction :=
  mkTransaction (<[pl_AccountID destination := Decimal_String (pl_Ending destination)]>
                   (<[pl_AccountID source := Decimal_String (pl_Ending source)]> (bt_heads tx)))
    (bt_receipts tx) (<[key := pair_receipt source destination amount key]> (bt_transfers tx)) (owned key (bt_transferKeyOwners tx)).

Lemma linked_ok source destination amount key es : linked source destination amount key = Ok es ->
  legs_match source destination amount key /\ pl_Entries source = [fst es] /\ pl_Entries destination = [snd es].
Proof.
  unfold linked, legs_match. destruct (pl_Entries source) as [|s [|]], (pl_Entries destination) as [|d [|]]; try done.
  rewrite !bind_unit_ok, !fail_if_ok_iff, !orb_false_iff, !negb_false_iff, !String.eqb_neq, !String.eqb_eq. intros (H1 & H2 & [= <-]).
  destruct_and!. split; [|done]. exists s, d. split_and!; try done. by repeat constructor.
Qed.

Lemma linked_complete source destination amount key : legs_match source destination amount key ->
  exists es, linked source destination amount key = Ok es.
Proof.
  intros (s & d & Hs & Hd & H). exists (s, d). unfold linked. rewrite Hs, Hd.
  rewrite !bind_unit_ok, !fail_if_ok_iff, !orb_false_iff, !negb_false_iff, !String.eqb_neq, !String.eqb_eq.
  rewrite !Forall_cons in H. destruct_and!. by split_and!.
Qed.

Lemma keys_free_ok tx key keys : keys_free tx key keys = Ok tt <->
  Forall (fun x => bt_receipts tx !! x = None /\ forall owner, bt_transferKeyOwners tx !! x = Some owner -> owner = key) keys.
Proof.
  induction keys as [|x keys IH]; cbn [keys_free]; [done|]. rewrite !bind_unit_ok, !fail_if_ok_iff, not_some, Forall_cons, IH.
  destruct (bt_transferKeyOwners tx !! x) as [o|]; [rewrite negb_false_iff, String.eqb_eq|]; naive_solver.
Qed.

Lemma heads_current_ok tx legs : heads_current tx legs = Ok tt <->
  Forall (fun leg => bt_heads tx !! pl_AccountID leg = Some (Decimal_String (pl_Opening leg))) legs.
Proof.
  induction legs as [|leg legs IH]; cbn [heads_current]; [done|].
  by rewrite bind_unit_ok, fail_if_ok_iff, negb_false_iff, bool_decide_eq_true, Forall_cons, IH.
Qed.

Lemma commit_linked_pair_ok tx source destination amount key r tx' :
  commit_linked_pair tx source destination amount key = Ok (r, tx') <->
  pair_ready tx source destination amount key /\
  (bt_transfers tx !! key = Some r /\ tr_Digest r = linkedPairDigest source destination amount /\ tx' = tx \/
   pair_fresh tx source destination key /\ r = pair_receipt source destination amount key /\ tx' = settled tx source destination amount key).
Proof.
  unfold commit_linked_pair, pair_ready, pair_fresh.
  rewrite bind_unit_ok, fail_if_ok_iff, !orb_false_iff, !negb_false_iff, !Forall_cons, Forall_nil.
  destruct (linked source destination amount key) as [es|e|] eqn:E.
  2,3: split; [by intros [_ ?]|]; intros ((_ & _ & _ & H & _) & _); destruct (linked_complete _ _ _ _ H) as [? Hx]; congruence.
  destruct (linked_ok _ _ _ _ _ E) as (Hm & Hs & Hd). cbn [mbind outcome_bind]. rewrite bind_unit_ok, keys_free_ok.
  assert (Hr : mkTransferReceipt (leg_receipt source (leg_source key)) (leg_receipt destination (leg_destination key))
      (linkedPairDigest source destination amount) = pair_receipt source destination amount key).
  { unfold pair_receipt, receipt_of, leg_receipt. by rewrite Hs, Hd. }
  rewrite Hr, Hs, Hd, !Forall_singleton. destruct (bt_transfers tx !! key) as [prior|].
  - rewrite bind_unit_ok, fail_if_ok_iff, negb_false_iff, String.eqb_eq. naive_solver.
  - rewrite !bind_unit_ok, !fail_if_ok_iff, orb_false_iff, !negb_false_iff, !String.eqb_eq, String.eqb_neq, heads_current_ok, !Forall_cons, Forall_nil.
    unfold settled, owned. naive_solver.
Qed.

(** ** Steps *)

Lemma owned_lookup key owners x : owned key owners !! x = if decide (x ∈ reserved_keys key) then Some key else owners !! x.
Proof.
  unfold owned. generalize (reserved_keys key). intros ks. revert owners. induction ks as [|k ks IH]; intros owners; cbn [foldl]; [done|].
  rewrite IH. destruct (decide (x ∈ ks)) as [H|H].
  - by rewrite decide_True by (by apply elem_of_cons; right).
  - destruct (decide (x = k)) as [->|Hk].
    + by rewrite lookup_insert_eq, decide_True by (apply elem_of_cons; by left).
    + rewrite lookup_insert_ne, decide_False by (done || by intros [?|?]%elem_of_cons). done.
Qed.

Lemma posted_ok tx plan key inject : posting_ready tx plan key -> posting_fresh tx plan key inject -> tx_ok tx -> tx_ok (posted tx plan key).
Proof.
  intros (_ & _ & _ & Ho & _) _ [H1 H2]. split; cbn [posted bt_receipts bt_transfers bt_transferKeyOwners]; [|done].
  intros k [r Hr]. destruct (decide (k = key)) as [->|Hk]; [done|]. rewrite lookup_insert_ne in Hr by done. apply H1. by eexists.
Qed.

Lemma settled_ok tx source destination amount key : pair_ready tx source destination amount key -> tx_ok tx ->
  tx_ok (settled tx source destination amount key).
Proof.
  intros (_ & _ & _ & _ & Hfree) [H1 H2]. rewrite Forall_forall in Hfree. split; cbn [settled bt_receipts bt_transfers bt_transferKeyOwners].
  - intros k Hk. rewrite owned_lookup. destruct (decide (k ∈ reserved_keys key)) as [Hin|_]; [|by apply H1].
    destruct (Hfree k Hin) as [Hn _]. rewrite Hn in Hk. by destruct Hk.
  - intros k Hk. destruct (decide (k = key)) as [->|Hne].
    + apply Forall_forall. intros x Hx. by rewrite owned_lookup, decide_True.
    + rewrite lookup_insert_ne in Hk by done. eapply Forall_impl; [by apply H2|]. intros x Hx. cbn in Hx. rewrite owned_lookup.
      destruct (decide (x ∈ reserved_keys key)) as [Hin|_]; [|done]. destruct (Hfree x Hin) as [_ Ho]. by rewrite (Ho k Hx).
Qed.

(** What no step takes back. *)
Definition tx_extends (tx u : BusinessTransaction) : Prop :=
  bt_receipts tx ⊆ bt_receipts u /\ bt_transfers tx ⊆ bt_transfers u /\ bt_transferKeyOwners tx ⊆ bt_transferKeyOwners u.

#[global] Instance tx_extends_preorder : PreOrder tx_extends.
Proof. split; [by intros ?|]. intros ? ? ? (? & ? & ?) (? & ? & ?). by split_and!; etrans. Qed.

Lemma commit_effect tx plan key inject : tx_ok tx -> let u := snd (CommitPosting tx plan key inject) in tx_ok u /\ tx_extends tx u.
Proof.
  intros Hok. unfold CommitPosting. destruct (commit_posting tx plan key inject) as [[r u]|e|] eqn:E; cbn [keeping snd]; [|done..].
  apply commit_posting_ok in E as (Hr & [(_ & _ & ->)|(Hf & _ & ->)]); [done|]. split; [by apply (posted_ok _ _ _ inject)|].
  split_and!; [|done..]. apply insert_subseteq, Hf.
Qed.

Lemma pair_effect tx source destination amount key : tx_ok tx ->
  let u := snd (commitLinkedPair tx source destination amount key) in tx_ok u /\ tx_extends tx u.
Proof.
  intros Hok. unfold commitLinkedPair. destruct (commit_linked_pair tx source destination amount key) as [[r u]|e|] eqn:E; cbn [keeping snd]; [|done..].
  apply commit_linked_pair_ok in E as (Hr & [(_ & _ & ->)|(Hf & _ & ->)]); [done|]. split; [by apply settled_ok|].
  split_and!; [done|apply insert_subseteq, Hf|]. apply map_subseteq_spec. intros x k Hx. cbn [settled bt_transferKeyOwners]. rewrite owned_lookup.
  destruct (decide (x ∈ reserved_keys key)) as [Hin|_]; [|done]. destruct Hr as (_ & _ & _ & _ & Hfree). rewrite Forall_forall in Hfree.
  destruct (Hfree x Hin) as [_ Ho]. by rewrite (Ho k Hx).
Qed.

Lemma tx_step_effect tx u : tx_step tx u -> tx_ok tx -> tx_ok u /\ tx_extends tx u.
Proof.
  intros [? ? ?|? ? ? ?|? ? ?|? ? ? ? ?] Hok; [done|by apply commit_effect| |by apply pair_effect].
  unfold CommitTransfer. destruct (_ || _); [done|]. by apply pair_effect.
Qed.

Lemma tx_steps_effect tx u : rtc tx_step tx u -> tx_ok tx -> tx_ok u /\ tx_extends tx u.
Proof.
  induction 1 as [|tx v u Hs _ IH]; intros Hok; [done|]. destruct (tx_step_effect _ _ Hs Hok) as [Hv He]. destruct (IH Hv) as [Hu He'].
  split; [done|]. by etrans.
Qed.

Lemma tx_reached_ok tx : tx_reached tx -> tx_ok tx.
Proof. intros H. apply (tx_steps_effect _ _ H). split; intros k [r Hr]; cbn in Hr; by rewrite lookup_empty in Hr. Qed.

(** ** Keys in later states *)

Lemma commit_no_panic tx plan key inject : commit_posting tx plan key inject <> Panic.
Proof.
  assert (Hf : forall step what, fail inject step what <> Panic) by (intros; unfold fail; no_panic).
  assert (He : forall account i es, entries_stay account inject i es <> Panic) by (intros account i es; revert i; induction es; intros; cbn [entries_stay]; no_panic).
  unfold commit_posting. no_panic.
Qed.

Lemma pair_no_panic tx source destination amount key : commit_linked_pair tx source destination amount key <> Panic.
Proof.
  assert (Hl : linked source destination amount key <> Panic) by (unfold linked; no_panic).
  assert (Hk : forall keys, keys_free tx key keys <> Panic) by (induction keys; cbn [keys_free]; no_panic).
  assert (Hh : forall legs, heads_current tx legs <> Panic) by (induction legs; cbn [heads_current]; no_panic).
  unfold commit_linked_pair. no_panic.
Qed.

(** A key with a receipt answers with it, and only to the same plan. *)
Lemma receipt_known tx plan key inject r : tx_ok tx -> bt_receipts tx !! key = Some r -> rc_Digest r = commitDigest plan key ->
  PostingPlan_Verify plan = true -> is_blank key = false -> pl_Entries plan <> [] -> CommitPosting tx plan key inject = (Ok r, tx).
Proof.
  intros [H1 H2] Hr E Hv Hb Hne. assert (Ho : bt_transferKeyOwners tx !! key = None) by (apply H1; by eexists).
  assert (Ht : bt_transfers tx !! key = None).
  { destruct (bt_transfers tx !! key) as [t|] eqn:Et; [|done]. pose proof (H2 key ltac:(by eexists)) as Hk. apply Forall_cons in Hk as [Hk _]. congruence. }
  unfold CommitPosting. rewrite (proj2 (commit_posting_ok tx plan key inject r tx)); [done|]. split; [done|]. by left.
Qed.

Lemma receipt_conflicts tx plan key inject r : bt_receipts tx !! key = Some r -> rc_Digest r <> commitDigest plan key ->
  exists e, CommitPosting tx plan key inject = (Err e, tx).
Proof.
  intros Hr Hd. unfold CommitPosting. destruct (commit_posting tx plan key inject) as [[r' u]|e|] eqn:Hc; [exfalso|by exists e|by apply commit_no_panic in Hc].
  apply commit_posting_ok in Hc as (_ & [(? & ? & _)|((? & _) & _)]); congruence.
Qed.

(** A key with a posting's receipt is refused to transfers. *)
Lemma receipt_bars_pairs tx source destination amount key x r : bt_receipts tx !! x = Some r -> x ∈ reserved_keys key ->
  exists e, commitLinkedPair tx source destination amount key = (Err e, tx).
Proof.
  intros Hr Hx. unfold commitLinkedPair. destruct (commit_linked_pair tx source destination amount key) as [[t u]|e|] eqn:E;
    [exfalso|by exists e|by apply pair_no_panic in E].
  apply commit_linked_pair_ok in E as ((_ & _ & _ & _ & Hf) & _). rewrite Forall_forall in Hf. destruct (Hf x Hx) as [? _]. congruence.
Qed.

Lemma transfer_bars_postings tx plan key x inject t : tx_ok tx -> bt_transfers tx !! key = Some t -> x ∈ reserved_keys key ->
  exists e, CommitPosting tx plan x inject = (Err e, tx).
Proof.
  intros [_ H2] Ht Hx. pose proof (H2 key ltac:(by eexists)) as Hk. rewrite Forall_forall in Hk. specialize (Hk x Hx).
  unfold CommitPosting. destruct (commit_posting tx plan x inject) as [[r u]|e|] eqn:E; [exfalso|by exists e|by apply commit_no_panic in E].
  apply commit_posting_ok in E as ((_ & _ & _ & ? & _) & _). congruence.
Qed.

Lemma transfer_known tx source destination amount key t : tx_ok tx -> bt_transfers tx !! key = Some t ->
  is_blank key = false -> PostingPlan_Verify source = true -> PostingPlan_Verify destination = true -> legs_match source destination amount key ->
  tr_Digest t = linkedPairDigest source destination amount -> commit_linked_pair tx source destination amount key = Ok (t, tx).
Proof.
  intros [H1 H2] Ht Hb Hs Hd Hm E. apply commit_linked_pair_ok. split; [|by left]. do 4 (split; [done|]).
  pose proof (H2 key ltac:(by eexists)) as Hk. eapply Forall_impl; [exact Hk|]. intros x Hx. cbn in Hx. split; [|by intros o; rewrite Hx; intros [= ->]].
  destruct (bt_receipts tx !! x) as [r|] eqn:Er; [|done]. rewrite (H1 x ltac:(by eexists)) in Hx. done.
Qed.


(** In every state a transaction reaches, a linked pair that fails to
    commit changes nothing.  One that succeeds has two verified plans of one
    entry each, opposite, equal and accepted in full under the key, and either
    found its receipt or moved both heads, and only them, from the openings to
    the endings while it reserved the key and the keys of its legs.  From then
    on the same call returns the same receipt and changes nothing, and a
    posting under any reserved key is refused. *)
Theorem transfer_committed_once (tx : BusinessTransaction) (source destination : PostingPlan) (amount : Decimal) (key : string) : tx_reached tx ->
  let out := commitLinkedPair tx source destination amount key in
  fst out <> Panic /\ (forall e, fst out = Err e -> snd out = tx) /\
  (forall r, fst out = Ok r ->
     pair_ready tx source destination amount key /\ tr_Digest r = linkedPairDigest source destination amount /\
     (bt_transfers tx !! key = Some r /\ snd out = tx \/
      pair_fresh tx source destination key /\ r = pair_receipt source destination amount key /\ snd out = settled tx source destination amount key) /\
     forall v, rtc tx_step (snd out) v ->
       commitLinkedPair v source destination amount key = (Ok r, v) /\
       (forall plan x inject, x ∈ reserved_keys key -> exists e, CommitPosting v plan x inject = (Err e, v))) /\
  (pair_ready tx source destination amount key -> pair_fresh tx source destination key -> fst out = Ok (pair_receipt source destination amount key)).
Proof.
  intros Hreach%tx_reached_ok out. pose proof (pair_effect tx source destination amount key Hreach) as [Hok _].
  unfold out, commitLinkedPair in *. split; [|split; [|split]].
  - pose proof (pair_no_panic tx source destination amount key). by destruct (commit_linked_pair tx source destination amount key) as [[]| |].
  - intros e. by destruct (commit_linked_pair tx source destination amount key) as [[]| |].
  - intros r Hr. destruct (commit_linked_pair tx source destination amount key) as [[r' u]|e|] eqn:E; cbn [keeping fst snd] in *; [injection Hr as ->|done..].
    apply commit_linked_pair_ok in E as (Hready & Hcase). split; [done|].
    assert (Hd : tr_Digest r = linkedPairDigest source destination amount /\ bt_transfers u !! key = Some r).
    { destruct Hcase as [(? & ? & ->)|(_ & -> & ->)]; [done|]. split; [done|]. apply lookup_insert_eq. }
    destruct Hd as [Hd Hu]. split; [done|]. split; [destruct Hcase as [(? & _ & ?)|?]; [by left|by right]|].
    intros v Hv. apply tx_steps_effect in Hv as (Hvok & _ & Hext & _); [|done]. pose proof (lookup_weaken _ _ _ _ Hu Hext) as Hk.
    destruct Hready as (Hb & Hs & Hdv & Hm & _). split; [by rewrite (transfer_known v source destination amount key r)|].
    intros plan x inject Hx. by apply (transfer_bars_postings _ _ key _ _ r).
  - intros H1 H2. by rewrite (proj2 (commit_linked_pair_ok tx source destination amount key (pair_receipt source destination amount key)
      (settled tx source destination amount key))); [|split; [|right]].
Qed.

End transaction_facts.

(** * Transfers conserve *)

Section conservation.
Context `{B : DecimalBackend} `{L : !DecimalBackendLaws B} `{CM : CaseMapping} `{CF : CaseFolding} `{SHA : Sha256}.

(** A plan without rules that accepts its request in full. *)
Lemma full_plan req p : pp_Rules req = [] -> PlanPosting req = Ok p ->
  planned req p /\ planned_of req = requested_of req /\ 0 < requested_of req /\ ready req.
Proof.
  intros Hr E. destruct (validate_outcome req) as [Hv|Hv]; [|unfold PlanPosting in E; by rewrite Hv in E].
  destruct (plan_cases req Hv) as [(_ & p' & E' & Hp)|(_ & e & E' & _)]; [|congruence]. assert (p' = p) as -> by congruence.
  pose proof (validate_ready req Hv) as Hready. split; [done|]. split; [unfold planned_of; by rewrite Hr|]. split; [|done].
  by destruct Hready as (_ & (_ & _ & _ & _ & (_ & ?) & _) & _).
Qed.

(** One leg: its only entry, its amount and its balance. *)
Lemma leg_of req p : pp_Rules req = [] -> PlanPosting req = Ok p ->
  let q := requested_of req in let s := d_scale (e_Amount (pp_Requested req)) in
  PostingPlan_Verify p = true /\ pl_AccountID p = e_AccountID (pp_Requested req) /\ pl_Opening p = ab_Ending (pp_Authorized req) /\
  pl_Entries p = [with_accepted (pl_Accepted p) (pp_Requested req)] /\ amount (pl_Accepted p) s q /\ amt s (pl_Opening p) /\
  amount (e_Amount (pp_Requested req)) s q /\ amount (pl_Ending p) s (Decimal_signed (pl_Opening p) + direction (kind_of req) * q) /\
  (kind_of req = Debit -> 0 <= Decimal_signed (pl_Ending p)).
Proof.
  intros Hr E q s. destruct (full_plan req p Hr E) as ((Hv & (Ha & Ho & _) & Hacc & _ & _ & Hend & Hd & Hent) & Hq & Hpos & (Hopen & Hfits & Hs & _ & Hid)).
  fold s in Hs. rewrite <- Hs in *. rewrite Hq in *. fold q in Hpos, Hacc, Hend, Hent. split; [done|]. split; [congruence|]. split; [done|].
  split; [destruct Hent as [[? _]|(_ & ? & _)]; [lia|done]|]. split; [done|]. split; [by rewrite Ho|].
  split; [by destruct Hfits as (_ & _ & _ & _ & (? & _) & _)|]. split; [|done]. rewrite Ho. exact Hend.
Qed.

(** C36: A planned transfer verifies, and it conserves: at one scale, the
    source loses and the destination gains the amount, so the sum of the two
    balances stays, and the source does not fall below zero.  Its legs are
    opposite, equal and accepted in full under the key of the request, so any
    transaction whose heads are the openings and whose keys are free commits
    it whole. *)
Theorem transfer_conserves (req : TransferPlanRequest) (p : TransferPlan) : PlanTransfer req = Ok p ->
  let source := tp_Source p in let destination := tp_Destination p in let key := tq_IdempotencyKey req in
  let q := Decimal_signed (tp_Amount p) in let s := d_scale (tp_Amount p) in
  TransferPlan_Verify p = true /\ legs_match source destination (tp_Amount p) key /\ 0 < q /\
  amount (pl_Ending source) s (Decimal_signed (pl_Opening source) - q) /\ 0 <= Decimal_signed (pl_Ending source) /\
  amount (pl_Ending destination) s (Decimal_signed (pl_Opening destination) + q) /\
  Decimal_signed (pl_Ending source) + Decimal_signed (pl_Ending destination) =
    Decimal_signed (pl_Opening source) + Decimal_signed (pl_Opening destination) /\
  forall tx, Forall (fun x => bt_receipts tx !! x = None /\ bt_transferKeyOwners tx !! x = None) (reserved_keys key) -> bt_transfers tx !! key = None ->
    bt_heads tx !! pl_AccountID source = Some (Decimal_String (pl_Opening source)) ->
    bt_heads tx !! pl_AccountID destination = Some (Decimal_String (pl_Opening destination)) ->
    CommitTransfer tx p key = (Ok (pair_receipt source destination (tp_Amount p) key), settled tx source destination (tp_Amount p) key).
Proof.
  intros H source destination key q s. unfold PlanTransfer in H.
  apply bind_ok_inv in H as (u1 & H1%fail_if_ok & H). apply bind_ok_inv in H as (u2 & H2%fail_if_ok & H). apply bind_ok_inv in H as (u3 & H3%fail_if_ok & H).
  apply bind_ok_inv in H as (src & Hsrc%or_reject_ok & H). apply bind_ok_inv in H as (dst & Hdst%or_reject_ok & H).
  apply bind_ok_inv in H as (u4 & _ & H). injection H as <-. cbn [tp_Source tp_Destination tp_Amount] in *.
  rewrite !orb_false_iff, !negb_false_iff, !String.eqb_eq, !String.eqb_neq in H1. destruct H1 as ((((Hkey & Hacc) & Kd) & Kc) & Heq).
  rewrite !orb_false_iff, !negb_false_iff, !String.eqb_eq, Z.eqb_eq in H2. destruct H2 as ((_ & Hscale) & _).
  rewrite !orb_false_iff, !negb_false_iff, !String.eqb_eq in H3. destruct H3 as (((Ts & Td) & Is) & Id).
  destruct (leg_of _ _ (eq_refl : pp_Rules (source_request req) = []) Hsrc) as (Vs & As & _ & Es & (Aws & Ass & Avs) & _ & (Mws & _ & Mvs) & Hends & Hnn).
  destruct (leg_of _ _ (eq_refl : pp_Rules (destination_request req) = []) Hdst) as (Vd & Ad & _ & Ed & (Awd & Asd & Avd) & _ & (Mwd & _ & Mvd) & Hendd & _).
  destruct (full_plan _ _ (eq_refl : pp_Rules (source_request req) = []) Hsrc) as (_ & _ & Hpos & _).
  unfold kind_of, requested_of in *. cbn [source_request destination_request pp_Requested] in *. rewrite Kd in Hends, Hnn. rewrite Kc in Hendd. specialize (Hnn eq_refl).
  change (direction Debit) with (-1) in Hends. change (direction Credit) with 1 in Hendd.
  assert (Hval : Decimal_signed (e_Amount (tq_Credit req)) = Decimal_signed (e_Amount (tq_Debit req))) by (rewrite Equal_amount in Heq by done; lia).
  rewrite <- Hscale, Hval in *. fold source in Vs, As, Es, Aws, Ass, Avs, Hends, Hnn. fold destination in Vd, Ad, Ed, Awd, Asd, Avd, Hendd.
  fold s in Ass, Asd, Hends, Hendd. fold q in Avs, Avd, Hends, Hendd, Hpos.
  subst source destination. change (is_blank key = false) in Hkey.
  assert (Hm : legs_match src dst (e_Amount (tq_Debit req)) key).
  { exists (with_accepted (pl_Accepted src) (tq_Debit req)), (with_accepted (pl_Accepted dst) (tq_Credit req)).
    split; [done|]. split; [done|]. cbn [with_accepted with_RecordedAt with_movement e_Kind e_AccountID e_Amount e_SourceTransactionID e_IdempotencyKey].
    rewrite Kd, Kc. split; [discriminate|]. split; [done|].
    split; [repeat (constructor; [rewrite Equal_amount by (done || congruence); lia|]); constructor|].
    split; [rewrite Equal_amount by (done || congruence); lia|done]. }
  assert (Hver : TransferPlan_Verify (mkTransferPlan src dst (e_Amount (tq_Debit req)) (linkedPairDigest src dst (e_Amount (tq_Debit req)))) = true).
  { unfold TransferPlan_Verify. cbn [tp_Source tp_Destination tp_Amount tp_Digest]. rewrite Vs, Vd, Es, Ed, String.eqb_refl.
    cbn [with_accepted with_RecordedAt with_movement e_Kind e_AccountID e_Amount andb]. rewrite Kd, Kc, (proj2 (String.eqb_neq _ _) Hacc).
    rewrite !Equal_amount, Avs, Avd by (done || congruence). unfold q. by rewrite Z.eqb_refl. }
  split; [exact Hver|]. split; [exact Hm|]. split; [done|].
  replace (Decimal_signed (pl_Opening src) - q) with (Decimal_signed (pl_Opening src) + -1 * q) by lia. split; [done|]. split; [done|].
  replace (Decimal_signed (pl_Opening dst) + q) with (Decimal_signed (pl_Opening dst) + 1 * q) by lia. split; [done|].
  split; [destruct Hends as (_ & _ & ->), Hendd as (_ & _ & ->); lia|].
  intros tx Hfree Ht Hhs Hhd. unfold CommitTransfer. rewrite Hver, Hkey. cbn [negb orb tp_Source tp_Destination tp_Amount]. unfold commitLinkedPair.
  rewrite (proj2 (commit_linked_pair_ok tx src dst (e_Amount (tq_Debit req)) key (pair_receipt src dst (e_Amount (tq_Debit req)) key)
    (settled tx src dst (e_Amount (tq_Debit req)) key))); [done|].
  split; [split_and!; try done|].
  - eapply Forall_impl; [exact Hfree|]. intros x [? Hx]. split; [done|]. by rewrite Hx.
  - right. split; [|done]. split; [done|]. split; [congruence|].
    rewrite !Forall_cons, Forall_nil, Es, Ed, !Forall_singleton. by split_and!.
Qed.

End conservation.

(** * Concrete commits *)

Section sample_commits.
#[local] Instance sample_commit_case : CaseMapping := {| unicode_lower := fun s => s; unicode_upper := fun s => s |}.
#[local] Instance sample_commit_folding : CaseFolding := {| unicode_equal_fold := String.eqb |}.
#[local] Instance sample_commit_sha : Sha256 := {| sha256_Sum256 := fun bs => [Z.of_nat (length bs) mod 256; foldr Z.add 0 bs mod 256] |}.

(** A posting of [q] on account [a], planned on a balance. *)
Definition planned_on (balance : Z) (kind : EntryKind) (key : string) (q : Z) : PostingPlanRequest :=
  mkPlanRequest (sample_authorized "a" balance) leave_definition 0 (leave_entry "a" kind key q) [].
Definition seeded : BusinessTransaction := BusinessTransaction_SeedHead NewBusinessTransaction "a" "100.00".

Lemma seeded_reached : tx_reached seeded.
Proof. apply rtc_once. constructor. Qed.


(** A transfer of 10.00 from account [a] to account [b]. *)
Definition leg_entry (account kind leg : string) (q : Z) : BalanceEntry :=
  mkEntry account "leave" "1" "HOURS" "NONE" "worker" PeriodCalendarYear {["worker_id" := account]} kind (dec_of q 2 RoundingHalfUp)
    "ACCRUAL" "t" ("t" +:+ leg) (mkInstant true 100 0) Instant_zero_value (mkInstant true 100 0) "".
Definition sample_transfer : TransferPlanRequest :=
  mkTransferPlanRequest (sample_authorized "a" 10000) leave_definition 0 (leg_entry "a" Debit "/source" 1000)
    (sample_authorized "b" 500) leave_definition 0 (leg_entry "b" Credit "/destination" 1000) "t".
Definition seeded_pair : BusinessTransaction := BusinessTransaction_SeedHead seeded "b" "5.00".

Lemma transfer_conserves_witness :
  exists p, PlanTransfer sample_transfer = Ok p /\ BusinessTransaction_Head (snd (CommitTransfer seeded_pair p "t")) "b" = Some "15.00"%string.
Proof.
  destruct (PlanTransfer sample_transfer) as [p| |] eqn:E; [|vm_compute in E; discriminate E..].
  exists p. split; [reflexivity|]. destruct (transfer_conserves sample_transfer p E) as (_ & _ & _ & _ & _ & _ & _ & H).
  rewrite H; clear H; cbn [snd]; vm_compute in E; injection E as <-; [vm_compute; reflexivity| |vm_compute; reflexivity..].
  repeat (constructor; [split; vm_compute; reflexivity|]). constructor.
Defined.

Lemma transfer_committed_once_witness :
  exists p r, PlanTransfer sample_transfer = Ok p /\ fst (commitLinkedPair seeded_pair (tp_Source p) (tp_Destination p) (tp_Amount p) "t") = Ok r /\
    forall v, rtc tx_step (snd (commitLinkedPair seeded_pair (tp_Source p) (tp_Destination p) (tp_Amount p) "t")) v ->
      commitLinkedPair v (tp_Source p) (tp_Destination p) (tp_Amount p) "t" = (Ok r, v).
Proof.
  destruct (PlanTransfer sample_transfer) as [p| |] eqn:E; [|vm_compute in E; discriminate E..].
  assert (Hr : tx_reached seeded_pair) by (eapply rtc_r; [exact seeded_reached|constructor]).
  destruct (transfer_committed_once seeded_pair (tp_Source p) (tp_Destination p) (tp_Amount p) "t" Hr) as (_ & _ & H & _).
  destruct (fst (commitLinkedPair seeded_pair (tp_Source p) (tp_Destination p) (tp_Amount p) "t")) as [r| |] eqn:Ec;
    [|vm_compute in E; injection E as <-; vm_compute in Ec; discriminate Ec..].
  exists p, r. split; [reflexivity|]. split; [exact Ec|]. intros v Hv. destruct (H r eq_refl) as (_ & _ & _ & Hlater).
  destruct (Hlater v Hv) as [Hretry _]. exact Hretry.
Defined.

(** The head is compared by its text: a plan commits although two postings
    were committed since it was planned, once they cancel. *)
Lemma stale_plan_commits :
  exists p1 p2 p3, PlanPosting (planned_on 10000 Debit "k1" 1000) = Ok p1 /\ PlanPosting (planned_on 9000 Credit "k2" 1000) = Ok p2 /\
    PlanPosting (planned_on 10000 Debit "k3" 1000) = Ok p3 /\
    let tx1 := snd (CommitPosting seeded p1 "k1" None) in let tx2 := snd (CommitPosting tx1 p2 "k2" None) in
    fst (CommitPosting tx1 p3 "k3" None) = Err (ErrCommit "stale account head") /\ is_ok (fst (CommitPosting tx2 p3 "k3" None)) = true.
Proof.
  destruct (PlanPosting (planned_on 10000 Debit "k1" 1000)) as [p1| |] eqn:E1; [|vm_compute in E1; discriminate E1..].
  destruct (PlanPosting (planned_on 9000 Credit "k2" 1000)) as [p2| |] eqn:E2; [|vm_compute in E2; discriminate E2..].
  destruct (PlanPosting (planned_on 10000 Debit "k3" 1000)) as [p3| |] eqn:E3; [|vm_compute in E3; discriminate E3..].
  exists p1, p2, p3. do 3 (split; [reflexivity|]). vm_compute in E1, E2, E3. injection E1 as <-. injection E2 as <-. injection E3 as <-.
  split; vm_compute; reflexivity.
Qed.

End sample_commits.
