(* ===== verification/BalanceTransfer.v ===== *)
(** Moving a posted entry to another account: [Transfer] of
    [internal/domains/balance/transfer.go].

    The original is reversed in its account and reissued in another one, under
    one transaction.  The theorem relates the plans, the receipts and the two
    balances that are calculated again from the ledgers. *)

From S2P Require Import Prelude GoStrings Sorting CanonicalBytes FixedDecimal DecimalAmounts CivilTime BalanceEntries BalanceAsOf BalanceRules BalancePlans BalanceCommit.

Local Open Scope Z_scope.

Record TransferRequest : Type := mkTransferRequest {
  rq_Definition : AccumulatorDefinition; rq_Original : BalanceEntry; rq_FromLedger : list BalanceEntry; rq_FromOpening : Decimal;
  rq_Reissue : BalanceEntry; rq_ToLedger : list BalanceEntry; rq_ToOpening : Decimal; rq_Rules : list BalanceRule;
  rq_ExpectedFromHead : Z; rq_ExpectedToHead : Z; rq_RecordedAt : Instant; rq_AuthorizedAt : Instant; rq_IdempotencyKey : string
}.

Record TransferResult : Type := mkTransferResult {
  rs_Reversal : BalanceEntry; rs_ReversalPlan : PostingPlan; rs_Reissue : BalanceEntry; rs_ReissuePlan : PostingPlan;
  rs_FromReceipt : PostingReceipt; rs_ToReceipt : PostingReceipt; rs_FromBalance : AuthorizedBalance; rs_ToBalance : AuthorizedBalance;
  rs_Digest : string
}.

Definition opposite (kind : EntryKind) : EntryKind := if String.eqb kind Debit then Credit else Debit.

(** The later of the two stamps: what is known when the transfer posts. *)
Definition known_at (req : TransferRequest) : Instant :=
  if Instant_After (rq_AuthorizedAt req) (rq_RecordedAt req) then rq_AuthorizedAt req else rq_RecordedAt req.

(** [req.Reissue.copy()] under the keys of the transfer. *)
Definition reissue_of (req : TransferRequest) : BalanceEntry :=
  let e := rq_Reissue req in
  mkEntry (e_AccountID e) (e_DefinitionID e) (e_DefinitionVersion e) (e_Unit e) (e_Currency e) (e_Subject e) (e_Period e)
    (e_Dimensions e) (e_Kind e) (e_Amount e) (e_EntryType e) (rq_IdempotencyKey req) (leg_destination (rq_IdempotencyKey req))
    (e_EffectiveAt e) (e_RecordedAt e) (e_AuthorizedAt e) (e_SupersedesDigest e).

Section transfer.
Context `{B : DecimalBackend} `{CM : CaseMapping} `{CF : CaseFolding} `{SHA : Sha256}.

(** The contra-entry of the original. *)
Definition reversal_of (req : TransferRequest) : BalanceEntry :=
  let e := rq_Original req in
  mkEntry (e_AccountID e) (e_DefinitionID e) (e_DefinitionVersion e) (e_Unit e) (e_Currency e) (e_Subject e) (e_Period e)
    (e_Dimensions e) (opposite (e_Kind e)) (e_Amount e) AdjustmentEntryType (rq_IdempotencyKey req) (leg_source (rq_IdempotencyKey req))
    (e_EffectiveAt e) (rq_RecordedAt req) (rq_AuthorizedAt req) (BalanceEntry_Digest e).

Definition is_original (original e : BalanceEntry) : bool :=
  String.eqb (BalanceEntry_Digest e) (BalanceEntry_Digest original) && (Instant_Compare (e_RecordedAt e) (e_RecordedAt original) =? 0).

(** The search for the original: it is found once, and nothing supersedes it. *)
Fixpoint find_original (original : BalanceEntry) (found : bool) (ledger : list BalanceEntry) : outcome balance_err bool :=
  match ledger with
  | [] => Ok found
  | e :: rest =>
      found' ← (if is_original original e then _ ← fail_if found ErrTransferInvalid; Ok true else Ok found);
      _ ← fail_if (String.eqb (e_SupersedesDigest e) (BalanceEntry_Digest original)) ErrTransferConflict;
      find_original original found' rest
  end.

(** The balance of one leg over a ledger. *)
Definition leg_balance (known : Instant) (leg : BalanceEntry) (opening : Decimal) (ledger : list BalanceEntry) : outcome balance_err AuthorizedBalance :=
  or_reject (CalculateAuthorizedBalance (mkAsOf (e_AccountID leg) (e_EffectiveAt leg) known opening (d_scale (e_Amount leg)) (d_round (e_Amount leg))) ledger)
    ErrTransferInvalid.

(** The checks before the search. *)
Definition transfer_request_valid (req : TransferRequest) : outcome balance_err unit :=
  let original := rq_Original req in let reissue := rq_Reissue req in
  _ ← or_reject (AccumulatorDefinition_Validate (rq_Definition req)) ErrTransferInvalid;
  _ ← or_reject (BalanceEntry_Validate original (rq_Definition req)) ErrTransferInvalid;
  _ ← or_reject (BalanceEntry_Validate reissue (rq_Definition req)) ErrTransferInvalid;
  _ ← fail_if (is_blank (rq_IdempotencyKey req)) ErrTransferInvalid;
  _ ← fail_if (negb (i_set (rq_RecordedAt req)) || negb (i_set (rq_AuthorizedAt req))) ErrTransferInvalid;
  _ ← fail_if (String.eqb (e_AccountID reissue) (e_AccountID original)) ErrTransferInvalid;
  _ ← fail_if (negb (String.eqb (e_Kind reissue) (e_Kind original)) || negb (Decimal_Equal (e_Amount reissue) (e_Amount original))) ErrTransferInvalid;
  fail_if (String.eqb (e_SourceTransactionID reissue) (e_SourceTransactionID original) ||
           String.eqb (e_IdempotencyKey reissue) (e_IdempotencyKey original)) ErrTransferInvalid.

Definition transfer_ops (reversal reissue : BalanceEntry) (reversalPlan reissuePlan : PostingPlan) (from to : PostingReceipt) : list op :=
  [ WString "reversal" (BalanceEntry_Digest reversal); WString "reissue" (BalanceEntry_Digest reissue);
    WString "reversal_plan" (pl_Digest reversalPlan); WString "reissue_plan" (pl_Digest reissuePlan);
    WString "from_receipt" (rc_Digest from); WString "to_receipt" (rc_Digest to) ]%string.

Definition Transfer (req : TransferRequest) : outcome balance_err TransferResult :=
  _ ← transfer_request_valid req;
  found ← find_original (rq_Original req) false (rq_FromLedger req);
  _ ← fail_if (negb found) ErrTransferInvalid;
  _ ← fail_if (negb (contains (ad_EntryTypes (rq_Definition req)) AdjustmentEntryType)) ErrTransferInvalid;
  let reversal := reversal_of req in
  _ ← or_reject (BalanceEntry_Validate reversal (rq_Definition req)) ErrTransferInvalid;
  let reissue := reissue_of req in
  let known := known_at req in
  fromPre ← leg_balance known reversal (rq_FromOpening req) (rq_FromLedger req);
  fromPost ← leg_balance known reversal (rq_FromOpening req) (rq_FromLedger req ++ [reversal]);
  reversalPlan ← or_reject (PlanPosting (mkPlanRequest fromPre (rq_Definition req) (rq_ExpectedFromHead req) reversal [])) ErrTransferInvalid;
  toPre ← leg_balance known reissue (rq_ToOpening req) (rq_ToLedger req);
  reissuePlan ← or_reject (PlanPosting (mkPlanRequest toPre (rq_Definition req) (rq_ExpectedToHead req) reissue (rq_Rules req))) ErrTransferInvalid;
  toPost ← leg_balance known reissue (rq_ToOpening req) (rq_ToLedger req ++ [reissue]);
  let tx := BusinessTransaction_SeedHead (BusinessTransaction_SeedHead NewBusinessTransaction
              (e_AccountID (rq_Original req)) (Decimal_String (pl_Opening reversalPlan))) (e_AccountID reissue) (Decimal_String (pl_Opening reissuePlan)) in
  receipt ← or_reject (fst (commitLinkedPair tx reversalPlan reissuePlan (e_Amount reversal) (rq_IdempotencyKey req))) ErrTransferInvalid;
  digest ← or_reject (Writer_Digest (ops_run (transfer_ops reversal reissue reversalPlan reissuePlan (tr_Source receipt) (tr_Destination receipt))
                        (New "hcmnext.domains.balance.TransferResult" 1))) ErrTransferInvalid;
  Ok (mkTransferResult reversal reversalPlan reissue reissuePlan (tr_Source receipt) (tr_Destination receipt) fromPost toPost digest).

End transfer.

(** * The original *)

Section transfer_facts.
Context `{B : DecimalBackend} `{L : !DecimalBackendLaws B} `{CM : CaseMapping} `{CF : CaseFolding} `{SHA : Sha256}.

Definition originals (original : BalanceEntry) (ledger : list BalanceEntry) : list BalanceEntry :=
  filter (fun e => is_original original e = true) ledger.
Definition unsuperseded (original : BalanceEntry) (ledger : list BalanceEntry) : Prop :=
  Forall (fun e => e_SupersedesDigest e <> BalanceEntry_Digest original) ledger.

Lemma find_original_ok original found ledger out : find_original original found ledger = Ok out <->
  unsuperseded original ledger /\
  if found then originals original ledger = [] /\ out = true
  else (length (originals original ledger) <= 1)%nat /\ out = negb (length (originals original ledger) =? 0)%nat.
Proof.
  revert found. induction ledger as [|e ledger IH]; intros found; cbn [find_original].
  { unfold unsuperseded, originals. rewrite filter_nil. cbn [length Nat.eqb negb].
    destruct found; (split; [intros [= <-]|by intros (_ & _ & ->)]); (split; [constructor|]); (split; [first [done|lia]|done]). }
  unfold unsuperseded. rewrite Forall_cons. unfold originals. destruct (is_original original e) eqn:Ho.
  - rewrite filter_cons_True by done. fold (originals original ledger). destruct found; cbn [fail_if mbind outcome_bind].
    + split; [done|]. intros (_ & [=] & _).
    + rewrite bind_unit_ok, fail_if_ok_iff, String.eqb_neq, IH. cbn [length]. fold (unsuperseded original ledger).
      destruct (originals original ledger) as [|x l]; cbn; split; intros H; destruct_and!; split_and!; try done; lia.
  - rewrite filter_cons_False by congruence. fold (originals original ledger). cbn [mbind outcome_bind].
    rewrite bind_unit_ok, fail_if_ok_iff, String.eqb_neq, IH. tauto.
Qed.

(** * Balances after the legs *)

(** The request a leg's balance answers. *)
Definition leg_request (known : Instant) (leg : BalanceEntry) (opening : Decimal) : AuthorizedBalanceRequest :=
  mkAsOf (e_AccountID leg) (e_EffectiveAt leg) known opening (d_scale (e_Amount leg)) (d_round (e_Amount leg)).

(** Recalculating with the leg appended adds it exactly when it counts. *)
Lemma leg_balance_post known leg opening ledger pre post : dec_wf (e_Amount leg) -> e_Kind leg = Debit \/ e_Kind leg = Credit ->
  leg_balance known leg opening ledger = Ok pre -> leg_balance known leg opening (ledger ++ [leg]) = Ok post ->
  Decimal_signed (ab_Ending post) = Decimal_signed (ab_Ending pre) +
    (if decide (counts (leg_request known leg opening) leg) then direction (e_Kind leg) * Decimal_signed (e_Amount leg) else 0) /\
  d_scale (ab_Ending post) = d_scale (e_Amount leg) /\ ab_AccountID pre = e_AccountID leg /\
  Instant_Validate (e_EffectiveAt leg) = Ok tt.
Proof.
  intros Hw Hk H1 H2. unfold leg_balance in H1, H2. apply or_reject_ok in H1, H2. fold (leg_request known leg opening) in H1, H2.
  split; [by apply (calculate_append _ _ ledger)|]. apply calculate_exact in H1 as ((_ & He & _) & vs & _ & _ & ->), H2 as (_ & ws & _ & _ & ->). done.
Qed.

(** The reversal counts in the balance it is posted to. *)
Lemma reversal_counts req : i_set (rq_RecordedAt req) = true -> i_set (rq_AuthorizedAt req) = true ->
  Instant_Validate (e_EffectiveAt (rq_Original req)) = Ok tt ->
  counts (leg_request (known_at req) (reversal_of req) (rq_FromOpening req)) (reversal_of req).
Proof.
  intros Hr Ha [He _]%Instant_Validate_ok. by apply counts_itself.
Qed.

(** * One leg *)

Definition leg_settled (known : Instant) (leg : BalanceEntry) (opening : Decimal) (p : PostingPlan) (post : AuthorizedBalance)
    (key : string) (receipt : PostingReceipt) : Prop :=
  let q := Decimal_signed (e_Amount leg) in let s := d_scale (e_Amount leg) in
  PostingPlan_Verify p = true /\ pl_Entries p = [with_accepted (pl_Accepted p) leg] /\ amount (pl_Accepted p) s q /\
  amount (pl_Ending p) s (Decimal_signed (pl_Opening p) + direction (e_Kind leg) * q) /\
  d_scale (ab_Ending post) = s /\
  Decimal_signed (ab_Ending post) =
    Decimal_signed (if decide (counts (leg_request known leg opening) leg) then pl_Ending p else pl_Opening p) /\
  receipt = receipt_of p key /\ PostingReceipt_Verify receipt p key = Ok tt.

Lemma posting_receipt_verifies p key : PostingReceipt_Verify (receipt_of p key) p key = Ok tt.
Proof.
  unfold PostingReceipt_Verify, receipt_of. cbn [rc_Digest]. rewrite String.eqb_refl, orb_false_r.
  destruct (String.eqb_spec (commitDigest p key) "") as [E|]; [|done]. pose proof (Digest_not_blank (str_bytes ("balance-commit" +:+ nul +:+ pl_Digest p +:+ nul +:+ key))) as Hb.
  unfold commitDigest in E. by rewrite E in Hb.
Qed.

Lemma Equal_same_scale d o x : dec_wf d -> dec_wf o -> dec_wf x -> d_scale d = d_scale o -> Decimal_Equal d x = true -> Decimal_Equal o x = true ->
  Decimal_signed d = Decimal_signed o.
Proof.
  intros Hd Ho Hx E H1%Equal_values H2%Equal_values; [|done..]. rewrite E in H1.
  pose proof (pow10_pos (d_scale x) (proj1 (proj1 (dec_wf_scale _ Hx)))). nia.
Qed.

Lemma leg_settles known leg opening ledger pre post def head rules p key x : dec_wf x ->
  leg_balance known leg opening ledger = Ok pre -> leg_balance known leg opening (ledger ++ [leg]) = Ok post ->
  PlanPosting (mkPlanRequest pre def head leg rules) = Ok p -> Decimal_Equal (pl_Accepted p) x = true -> Decimal_Equal (e_Amount leg) x = true ->
  leg_settled known leg opening p post key (receipt_of p key).
Proof.
  intros Hx Hpre Hpost Hp E1 E2. set (preq := mkPlanRequest pre def head leg rules) in *.
  destruct (validate_outcome preq) as [Hv|Hv]; [|unfold PlanPosting in Hp; by rewrite Hv in Hp].
  destruct (plan_cases preq Hv) as [(_ & p' & Hp' & Hpl)|(_ & e & Hp' & _)]; [|congruence]. assert (p' = p) as -> by congruence.
  destruct (validate_ready preq Hv) as (_ & Hfits & Hs & _). cbn [preq pp_Requested pp_Authorized pp_Definition] in Hs, Hfits.
  pose proof Hfits as (_ & _ & Hk & _ & (Hw & Hpos) & _). destruct (leg_balance_post known leg opening ledger pre post Hw Hk Hpre Hpost) as (Hb & Hbs & _).
  destruct Hpl as (Hver & (_ & Hop & _) & Hacc & _ & _ & Hend & _ & Hent). cbn [preq pp_Authorized pp_Requested] in Hop, Hacc, Hend, Hent.
  rewrite <- Hs in Hacc, Hend. pose proof Hacc as (Haw & Has & Hav). unfold opening_of, kind_of in Hend. cbn [preq pp_Authorized pp_Requested] in Hend.
  assert (Hq : planned_of preq = Decimal_signed (e_Amount leg)) by (rewrite <- Hav; by apply (Equal_same_scale _ _ x)).
  rewrite Hq in *. unfold leg_settled. split; [done|]. split; [destruct Hent as [[? _]|(_ & ? & _)]; [lia|done]|]. split; [done|].
  rewrite Hop. split; [exact Hend|]. split; [done|]. split; [|split; [done|apply posting_receipt_verifies]].
  destruct Hend as (_ & _ & Hend). rewrite Hb. unfold led_to in Hend. destruct (decide _); [by rewrite Hend|by rewrite Z.add_0_r].
Qed.

(** * The transfer *)

(** The checks of a request. *)
Lemma transfer_request_facts req : transfer_request_valid req = Ok tt ->
  fits (rq_Original req) (rq_Definition req) /\ fits (rq_Reissue req) (rq_Definition req) /\ is_blank (rq_IdempotencyKey req) = false /\
  i_set (rq_RecordedAt req) = true /\ i_set (rq_AuthorizedAt req) = true /\ e_AccountID (rq_Reissue req) <> e_AccountID (rq_Original req) /\
  e_Kind (rq_Reissue req) = e_Kind (rq_Original req) /\ Decimal_Equal (e_Amount (rq_Reissue req)) (e_Amount (rq_Original req)) = true.
Proof.
  unfold transfer_request_valid. rewrite !bind_unit_ok, !or_reject_ok, !entry_valid_iff, !fail_if_ok_iff, !orb_false_iff, !negb_false_iff, !String.eqb_neq, String.eqb_eq.
  intros H. by destruct_and!.
Qed.

Lemma Transfer_inv req r : Transfer req = Ok r ->
  let known := known_at req in let key := rq_IdempotencyKey req in
  transfer_request_valid req = Ok tt /\
  (length (originals (rq_Original req) (rq_FromLedger req)) = 1%nat /\ unsuperseded (rq_Original req) (rq_FromLedger req)) /\
  rs_Reversal r = reversal_of req /\ rs_Reissue r = reissue_of req /\ fits (reversal_of req) (rq_Definition req) /\
  exists fromPre toPre receipt tx,
    leg_balance known (reversal_of req) (rq_FromOpening req) (rq_FromLedger req) = Ok fromPre /\
    leg_balance known (reversal_of req) (rq_FromOpening req) (rq_FromLedger req ++ [reversal_of req]) = Ok (rs_FromBalance r) /\
    leg_balance known (reissue_of req) (rq_ToOpening req) (rq_ToLedger req) = Ok toPre /\
    leg_balance known (reissue_of req) (rq_ToOpening req) (rq_ToLedger req ++ [reissue_of req]) = Ok (rs_ToBalance r) /\
    PlanPosting (mkPlanRequest fromPre (rq_Definition req) (rq_ExpectedFromHead req) (reversal_of req) []) = Ok (rs_ReversalPlan r) /\
    PlanPosting (mkPlanRequest toPre (rq_Definition req) (rq_ExpectedToHead req) (reissue_of req) (rq_Rules req)) = Ok (rs_ReissuePlan r) /\
    bt_transfers tx = ∅ /\ fst (commitLinkedPair tx (rs_ReversalPlan r) (rs_ReissuePlan r) (e_Amount (rq_Original req)) key) = Ok receipt /\
    rs_FromReceipt r = tr_Source receipt /\ rs_ToReceipt r = tr_Destination receipt.
Proof.
  intros H. unfold Transfer in H. apply bind_ok_inv in H as ([] & Hv & H). apply bind_ok_inv in H as (found & Hfound & H).
  apply bind_ok_inv in H as (u1 & Hf%fail_if_ok & H). apply bind_ok_inv in H as (u2 & _ & H). apply bind_ok_inv in H as (u3 & Hrev%or_reject_ok & H).
  apply bind_ok_inv in H as (fromPre & H1 & H). apply bind_ok_inv in H as (fromPost & H2 & H). apply bind_ok_inv in H as (plan1 & H3%or_reject_ok & H).
  apply bind_ok_inv in H as (toPre & H4 & H). apply bind_ok_inv in H as (plan2 & H5%or_reject_ok & H). apply bind_ok_inv in H as (toPost & H6 & H).
  apply bind_ok_inv in H as (receipt & H7%or_reject_ok & H). apply bind_ok_inv in H as (digest & _ & H). injection H as <-.
  destruct u3. apply entry_valid_iff in Hrev. apply find_original_ok in Hfound as (Hun & Hle & ->). rewrite negb_involutive in Hf. apply Nat.eqb_neq in Hf.
  cbn [rs_Reversal rs_Reissue rs_FromBalance rs_ToBalance rs_ReversalPlan rs_ReissuePlan rs_FromReceipt rs_ToReceipt].
  split; [done|]. split; [split; [lia|done]|]. do 3 (split; [done|]). exists fromPre, toPre, receipt. eexists (BusinessTransaction_SeedHead (BusinessTransaction_SeedHead NewBusinessTransaction _ _) _ _). by split_and!.
Qed.

(** A transfer never panics.  One that settles found its original exactly
    once in the source ledger, with nothing that supersedes it; its reversal
    and its reissue are posted in full by verified plans under one key, each
    balance moves by the amount, in opposite directions, and each receipt
    verifies for its plan.  The source balance calculated again from the
    ledger with the reversal is the planned ending; the destination balance is
    the planned ending when the reissue was recorded and authorized by then,
    and otherwise the opening.  With amounts of one scale the sum of the two
    balances stays.  A source ledger that holds the reversal refuses every
    later transfer of the original. *)
Theorem transfer_settles (req : TransferRequest) :
  Transfer req <> Panic /\
  forall r, Transfer req = Ok r ->
    let known := known_at req in let key := rq_IdempotencyKey req in
    (length (originals (rq_Original req) (rq_FromLedger req)) = 1%nat /\ unsuperseded (rq_Original req) (rq_FromLedger req)) /\
    leg_settled known (reversal_of req) (rq_FromOpening req) (rs_ReversalPlan r) (rs_FromBalance r) (leg_source key) (rs_FromReceipt r) /\
    leg_settled known (reissue_of req) (rq_ToOpening req) (rs_ReissuePlan r) (rs_ToBalance r) (leg_destination key) (rs_ToReceipt r) /\
    Decimal_signed (ab_Ending (rs_FromBalance r)) = Decimal_signed (pl_Ending (rs_ReversalPlan r)) /\
    (d_scale (e_Amount (rq_Reissue req)) = d_scale (e_Amount (rq_Original req)) ->
       Decimal_signed (pl_Ending (rs_ReversalPlan r)) + Decimal_signed (pl_Ending (rs_ReissuePlan r)) =
       Decimal_signed (pl_Opening (rs_ReversalPlan r)) + Decimal_signed (pl_Opening (rs_ReissuePlan r))) /\
    forall req' r', rq_Original req' = rq_Original req -> rs_Reversal r ∈ rq_FromLedger req' -> Transfer req' <> Ok r'.
Proof.
  split.
  { assert (Hb : forall known leg opening ledger, leg_balance known leg opening ledger <> Panic).
    { intros. unfold leg_balance. apply or_reject_no_panic, as_of_no_panic. }
    assert (Hp : forall preq, PlanPosting preq <> Panic) by apply plan_no_panic.
    assert (Hf : forall original ledger found, find_original original found ledger <> Panic).
    { intros original ledger. induction ledger; intros found; cbn [find_original]; no_panic. }
    pose proof definition_valid_total. pose proof entry_valid_total. pose proof pair_no_panic.
    assert (Hc : forall tx s d a k, fst (commitLinkedPair tx s d a k) <> Panic).
    { intros. unfold commitLinkedPair. pose proof (pair_no_panic tx s d a k). by destruct (commit_linked_pair tx s d a k) as [[]| |]. }
    unfold Transfer, transfer_request_valid, Writer_Digest, Writer_Bytes. no_panic. }
  intros r H known key. destruct (Transfer_inv req r H) as (Hv & Hor & Hrev & _ & Hfits & fromPre & toPre & receipt & tx & H1 & H2 & H3 & H4 & H5 & H6 & Ht & Hc & E1 & E2).
  fold known key in H1, H2, H3, H4, Hc.
  destruct (transfer_request_facts req Hv) as (Ho & Hre & _ & Hr & Ha & _ & Hkind & Heq). split; [done|].
  unfold commitLinkedPair in Hc. destruct (commit_linked_pair tx (rs_ReversalPlan r) (rs_ReissuePlan r) (e_Amount (rq_Original req)) key) as [[t u]|e|] eqn:E; cbn [keeping fst] in Hc; [|done..].
  injection Hc as ->. apply commit_linked_pair_ok in E as ((_ & _ & _ & (s & d & _ & _ & _ & _ & Hacc & _) & _) & [(Hk & _)|(_ & Hrc & _)]); [by rewrite Ht, lookup_empty in Hk|].
  rewrite E1, E2, Hrc. cbn [pair_receipt tr_Source tr_Destination]. rewrite !Forall_cons in Hacc. destruct Hacc as (_ & Ha1 & Ha2 & _).
  pose proof Ho as (_ & _ & Hk & _ & (How & _) & _). pose proof Hre as (_ & _ & _ & _ & (Hrw & _) & _).
  assert (Hself : Decimal_Equal (e_Amount (rq_Original req)) (e_Amount (rq_Original req)) = true) by (by apply Equal_values).
  pose proof (leg_settles _ _ _ _ _ _ _ _ _ _ (leg_source key) _ How H1 H2 H5 Ha1 Hself) as Hs1.
  pose proof (leg_settles _ _ _ _ _ _ _ _ _ _ (leg_destination key) _ How H3 H4 H6 Ha2 Heq) as Hs2.
  split; [exact Hs1|]. split; [exact Hs2|].
  destruct (leg_balance_post _ _ _ _ _ _ (proj1 (proj1 (proj2 (proj2 (proj2 (proj2 Hfits)))))) (proj1 (proj2 (proj2 Hfits))) H1 H2) as (_ & _ & _ & Heff).
  destruct Hs1 as (_ & _ & _ & (_ & _ & V1) & _ & B1 & _), Hs2 as (_ & _ & _ & (_ & _ & V2) & _). split; [|split].
  - rewrite B1, decide_True; [done|]. by apply reversal_counts.
  - intros Hscale. rewrite V1, V2. cbn [reversal_of reissue_of e_Kind e_Amount]. rewrite Hkind.
    rewrite (Equal_same_scale (e_Amount (rq_Reissue req)) (e_Amount (rq_Original req)) (e_Amount (rq_Original req))) by done.
    destruct Hk as [-> | ->]; change (opposite Debit) with Credit; change (opposite Credit) with Debit; change (direction Debit) with (-1); change (direction Credit) with 1; lia.
  - intros req' r' Hor' Hin H'. destruct (Transfer_inv req' r' H') as (_ & (_ & Hun) & _). unfold unsuperseded in Hun. rewrite Forall_forall in Hun.
    apply (Hun _ Hin). by rewrite Hrev, Hor'.
Qed.

End transfer_facts.

(** * Concrete transfers *)

Section sample_transfers.
#[local] Instance sample_transfer_case : CaseMapping := {| unicode_lower := fun s => s; unicode_upper := fun s => s |}.
#[local] Instance sample_transfer_folding : CaseFolding := {| unicode_equal_fold := String.eqb |}.
#[local] Instance sample_transfer_sha : Sha256 := {| sha256_Sum256 := fun bs => [Z.of_nat (length bs) mod 256; foldr Z.add 0 bs mod 256] |}.

(** Moves the accrual [k1] from account [a] to account [b]. *)
Definition moved : BalanceEntry := posted_entry Credit "k1" 800 200.
Definition move_to (reissue : BalanceEntry) : TransferRequest :=
  mkTransferRequest leave_definition moved [moved] (dec_of 0 2 RoundingHalfUp) reissue [] (dec_of 0 2 RoundingHalfUp) [] 1 0
    (mkInstant true 300 0) (mkInstant true 300 0) "move-1".
Definition recorded_reissue : BalanceEntry := with_RecordedAt (mkInstant true 250 0) (leave_entry "b" Credit "k9" 800).

Lemma transfer_settles_witness :
  exists r, Transfer (move_to recorded_reissue) = Ok r /\
    Decimal_signed (ab_Ending (rs_FromBalance r)) = 0 /\ Decimal_signed (pl_Ending (rs_ReissuePlan r)) = 800.
Proof.
  destruct (transfer_settles (move_to recorded_reissue)) as [_ H].
  destruct (Transfer (move_to recorded_reissue)) as [r| |] eqn:E; [|vm_compute in E; discriminate E..].
  exists r. split; [reflexivity|]. destruct (H r eq_refl) as (_ & (_ & _ & _ & (_ & _ & V1) & _) & (_ & _ & _ & (_ & _ & V2) & _) & B & _).
  rewrite B, V1, V2. vm_compute in E. injection E as <-. split; vm_compute; reflexivity.
Defined.

(** A reissue without a recording time is committed, and the balance that
    comes with it leaves it out. *)
Lemma unrecorded_reissue_left_out :
  exists r, Transfer (move_to (leave_entry "b" Credit "k9" 800)) = Ok r /\
    rc_EndingHead (rs_ToReceipt r) = "8.00"%string /\ Decimal_String (ab_Ending (rs_ToBalance r)) = "0.00"%string.
Proof.
  destruct (Transfer (move_to (leave_entry "b" Credit "k9" 800))) as [r| |] eqn:E; [|vm_compute in E; discriminate E..].
  exists r. split; [reflexivity|]. vm_compute in E. injection E as <-. split; vm_compute; reflexivity.
Qed.

End sample_transfers.
