(* ===== verification/BalanceLifecycle.v ===== *)
(** Expiry, carryover and rollover at the end of a period:
    [internal/domains/balance/lifecycle.go].

    [ApplyLifecycle] sums the entries of a half-open period and derives the
    entries that expire its unused value or move it to the next period.  The
    theorem says what is moved, and that deriving it again changes nothing. *)

From S2P Require Import Prelude GoStrings Sorting CanonicalBytes FixedDecimal DecimalAmounts CivilTime BalanceEntries BalanceAsOf BalanceRules.

Local Open Scope Z_scope.

Definition ExpiryEntryType : string := "BALANCE_EXPIRY".
Definition CarryoverEntryType : string := "BALANCE_CARRYOVER".
Definition RolloverEntryType : string := "BALANCE_ROLLOVER".

Definition LifecycleOperation : Type := string.
Definition LifecycleExpiry : LifecycleOperation := "EXPIRY".
Definition LifecycleCarryover : LifecycleOperation := "CARRYOVER".
Definition LifecycleRollover : LifecycleOperation := "ROLLOVER".

Record PeriodDefinition : Type := mkPeriod { pd_ID : string; pd_Version : string; pd_Kind : PeriodKind; pd_Start : Instant; pd_End : Instant }.
Record ExpiryPolicy : Type := mkExpiry { xp_ID : string; xp_Version : string; xp_Enabled : bool }.
Record CarryoverPolicy : Type := mkCarryover { cp_ID : string; cp_Version : string; cp_Enabled : bool; cp_Cap : Decimal }.
Record RolloverPolicy : Type := mkRollover { rp_ID : string; rp_Version : string; rp_Enabled : bool }.
Record BalanceLifecyclePolicy : Type := mkLifecyclePolicy { lp_Expiry : ExpiryPolicy; lp_Carryover : CarryoverPolicy; lp_Rollover : RolloverPolicy }.

Record LifecycleRequest : Type := mkLifecycle {
  lq_AccountID : string; lq_Period : PeriodDefinition; lq_Next : PeriodDefinition; lq_Template : BalanceEntry; lq_Opening : Decimal;
  lq_Scale : Z; lq_Rounding : RoundingMode; lq_Policy : BalanceLifecyclePolicy; lq_Ledger : list BalanceEntry
}.

Record LifecycleEntry : Type := mkLifecycleEntry {
  le_Entry : BalanceEntry; le_Operation : LifecycleOperation; le_Reason : string; le_PolicyID : string; le_PolicyVersion : string;
  le_SourcePeriod : PeriodDefinition; le_TargetPeriod : PeriodDefinition; le_SourceEntries : list string
}.

Record LifecycleExplanation : Type := mkExplanation {
  lx_Operation : LifecycleOperation; lx_Amount : Decimal; lx_Reason : string; lx_PolicyID : string; lx_PolicyVersion : string;
  lx_EffectiveAt : Instant; lx_SourceEntries : list string
}.

Record LifecycleResult : Type := mkLifecycleResult {
  lr_AccountID : string; lr_SourcePeriod : PeriodDefinition; lr_TargetPeriod : PeriodDefinition; lr_SourceBalance : Decimal;
  lr_Expired : Decimal; lr_Carried : Decimal; lr_Entries : list LifecycleEntry; lr_Explanation : list LifecycleExplanation; lr_Digest : string
}.

(** [PeriodDefinition.Validate]. *)
Definition PeriodDefinition_Validate (p : PeriodDefinition) : outcome balance_err unit :=
  _ ← fail_if (is_blank (pd_ID p) || is_blank (pd_Version p)) ErrPeriodInvalid;
  _ ← fail_if (negb (period_declared (pd_Kind p))) ErrPeriodInvalid;
  fail_if (negb (i_set (pd_Start p)) || negb (i_set (pd_End p)) || (0 <=? Instant_Compare (pd_Start p) (pd_End p))) ErrPeriodInvalid.

(** A policy that is enabled is named. *)
Definition policy_named (enabled : bool) (id version : string) : bool := negb (enabled && (is_blank id || is_blank version)).

(** A cap that is not valid counts as unset. *)
Definition cap_set (req : LifecycleRequest) : bool := is_ok (Decimal_Validate (cp_Cap (lp_Carryover (lq_Policy req)))).

Definition validateLifecycleRequest (req : LifecycleRequest) : outcome balance_err unit :=
  let template := lq_Template req in let policy := lq_Policy req in let cap := cp_Cap (lp_Carryover policy) in
  _ ← fail_if (is_blank (lq_AccountID req)) ErrLifecycleInvalid;
  _ ← fail_if (negb (is_ok (Decimal_Validate (lq_Opening req))) || negb (d_scale (lq_Opening req) =? lq_Scale req)) ErrLifecycleInvalid;
  _ ← fail_if (negb (RoundingMode_Valid (lq_Rounding req))) ErrLifecycleInvalid;
  _ ← PeriodDefinition_Validate (lq_Period req);
  _ ← PeriodDefinition_Validate (lq_Next req);
  _ ← fail_if (negb (String.eqb (pd_Kind (lq_Period req)) (pd_Kind (lq_Next req))) ||
               negb (Instant_Compare (pd_End (lq_Period req)) (pd_Start (lq_Next req)) =? 0)) ErrPeriodInvalid;
  _ ← fail_if (negb (String.eqb (e_AccountID template) (lq_AccountID req)) || is_blank (e_DefinitionID template) ||
               is_blank (e_DefinitionVersion template) || is_blank (e_Unit template) || is_blank (e_Subject template)) ErrLifecycleInvalid;
  _ ← fail_if (negb (String.eqb (e_Period template) (pd_Kind (lq_Period req)))) ErrLifecycleInvalid;
  _ ← fail_if (negb (policy_named (xp_Enabled (lp_Expiry policy)) (xp_ID (lp_Expiry policy)) (xp_Version (lp_Expiry policy)))) ErrLifecycleInvalid;
  _ ← fail_if (negb (policy_named (cp_Enabled (lp_Carryover policy)) (cp_ID (lp_Carryover policy)) (cp_Version (lp_Carryover policy)))) ErrLifecycleInvalid;
  _ ← fail_if (negb (policy_named (rp_Enabled (lp_Rollover policy)) (rp_ID (lp_Rollover policy)) (rp_Version (lp_Rollover policy)))) ErrLifecycleInvalid;
  fail_if (cap_set req && ((Decimal_Sign cap <? 0) || negb (d_scale cap =? lq_Scale req))) ErrLifecycleInvalid.

Definition isLifecycleEntryType (t : string) : bool :=
  String.eqb t ExpiryEntryType || String.eqb t CarryoverEntryType || String.eqb t RolloverEntryType.

Definition lifecycleBalanceEntry (template : BalanceEntry) (amount : Decimal) (kind : EntryKind) (entryType : string)
    (effectiveAt : Instant) (key : string) : BalanceEntry :=
  mkEntry (e_AccountID template) (e_DefinitionID template) (e_DefinitionVersion template) (e_Unit template) (e_Currency template)
    (e_Subject template) (e_Period template) (e_Dimensions template) kind amount entryType key key effectiveAt
    Instant_zero_value Instant_zero_value (e_SupersedesDigest template).

Definition explain (e : LifecycleEntry) : LifecycleExplanation :=
  mkExplanation (le_Operation e) (e_Amount (le_Entry e)) (le_Reason e) (le_PolicyID e) (le_PolicyVersion e) (e_EffectiveAt (le_Entry e))
    (le_SourceEntries e).

Section lifecycle.
Context `{B : DecimalBackend} `{CM : CaseMapping} `{SHA : Sha256}.

(** One turn of the loop over the ledger: the balance and the keys so far. *)
Definition sum_source (req : LifecycleRequest) (st : Decimal * list string) (source : BalanceEntry) : outcome balance_err (Decimal * list string) :=
  if negb (String.eqb (e_AccountID source) (lq_AccountID req)) || isLifecycleEntryType (e_EntryType source) then Ok st
  else
    _ ← fail_if (negb (i_set (e_EffectiveAt source))) ErrLifecycleInvalid;
    if Instant_Before (e_EffectiveAt source) (pd_Start (lq_Period req)) || negb (Instant_Before (e_EffectiveAt source) (pd_End (lq_Period req))) then Ok st
    else
      amount ← or_reject (Decimal_Quantize (e_Amount source) (lq_Scale req) (lq_Rounding req)) ErrLifecycleInvalid;
      _ ← fail_if (Decimal_Sign amount <=? 0) ErrLifecycleInvalid;
      delta ← signedContribution (e_Kind source) amount ErrLifecycleInvalid;
      balance ← or_reject (Decimal_Add (fst st) delta) ErrLifecycleInvalid;
      Ok (balance, snd st ++ [e_IdempotencyKey source]).

Fixpoint sum_sources (req : LifecycleRequest) (st : Decimal * list string) (ledger : list BalanceEntry) : outcome balance_err (Decimal * list string) :=
  match ledger with
  | [] => Ok st
  | source :: rest => st' ← sum_source req st source; sum_sources req st' rest
  end.

(** What of a balance is carried and what expires; [MustDecimal] panics. *)
Definition lifecycleAmounts (source : Decimal) (req : LifecycleRequest) : outcome balance_err (Decimal * Decimal) :=
  let policy := lq_Policy req in let cap := cp_Cap (lp_Carryover policy) in
  match MustDecimal "0" (lq_Scale req) (lq_Rounding req) with
  | Ok zero =>
      if negb (cp_Enabled (lp_Carryover policy)) && negb (rp_Enabled (lp_Rollover policy)) then
        Ok (if xp_Enabled (lp_Expiry policy) then (zero, source) else (zero, zero))
      else
        let carried := if cap_set req && (0 <? Decimal_Cmp source cap) then cap else source in
        expired ← (if xp_Enabled (lp_Expiry policy) then or_reject (Decimal_Sub source carried) ErrLifecycleInvalid else Ok zero);
        Ok (carried, expired)
  | _ => Panic
  end.

(** The entries of an expiry, and the two of a transfer. *)
Definition expiry_entries (req : LifecycleRequest) (sources : list string) (expired : Decimal) : list LifecycleEntry :=
  let policy := lp_Expiry (lq_Policy req) in
  if 0 <? Decimal_Sign expired then
    [mkLifecycleEntry (lifecycleBalanceEntry (lq_Template req) expired Debit ExpiryEntryType (pd_End (lq_Period req)) ("BAL-005:expiry:" +:+ pd_ID (lq_Period req)))
       LifecycleExpiry "UNUSED_VALUE_EXPIRED_AT_PERIOD_END" (xp_ID policy) (xp_Version policy) (lq_Period req) (lq_Next req) sources]
  else [].

Definition transfer_entries (req : LifecycleRequest) (sources : list string) (carried : Decimal) : list LifecycleEntry :=
  let policy := lq_Policy req in
  let '(op, entryType, id, version, reason) :=
    if rp_Enabled (lp_Rollover policy)
    then (LifecycleRollover, RolloverEntryType, rp_ID (lp_Rollover policy), rp_Version (lp_Rollover policy), "VALUE_ROLLED_TO_NEXT_PERIOD")
    else (LifecycleCarryover, CarryoverEntryType, cp_ID (lp_Carryover policy), cp_Version (lp_Carryover policy), "VALUE_CARRIED_TO_NEXT_PERIOD") in
  let debit := lifecycleBalanceEntry (lq_Template req) carried Debit entryType (pd_End (lq_Period req))
                 ("BAL-005:" +:+ strings_ToLower op +:+ ":debit:" +:+ pd_ID (lq_Period req)) in
  let credit := lifecycleBalanceEntry (lq_Template req) carried Credit entryType (pd_Start (lq_Next req))
                  ("BAL-005:" +:+ strings_ToLower op +:+ ":credit:" +:+ pd_ID (lq_Next req)) in
  if 0 <? Decimal_Sign carried then
    [mkLifecycleEntry debit op (reason +:+ " (source transfer)") id version (lq_Period req) (lq_Next req) sources;
     mkLifecycleEntry credit op reason id version (lq_Period req) (lq_Next req) sources]
  else [].

Definition period_ops (prefix : string) (p : PeriodDefinition) : list op :=
  [ WString (prefix +:+ ".id") (pd_ID p); WString (prefix +:+ ".version") (pd_Version p); WString (prefix +:+ ".kind") (pd_Kind p);
    WValue (prefix +:+ ".start") (Instant_Canonical (pd_Start p)); WValue (prefix +:+ ".end") (Instant_Canonical (pd_End p)) ]%string.

Definition lifecycle_ops (r : LifecycleResult) : list op :=
  [ WString "account_id" (lr_AccountID r) ] ++ period_ops "source_period" (lr_SourcePeriod r) ++ period_ops "target_period" (lr_TargetPeriod r) ++
  [ WValue "source_balance" (Decimal_Canonical (lr_SourceBalance r)); WValue "expired" (Decimal_Canonical (lr_Expired r));
    WValue "carried" (Decimal_Canonical (lr_Carried r)); WCount "entries" (Z.of_nat (length (lr_Entries r))) ]%string ++
  concat ((fun e => [ WString "entry.digest" (BalanceEntry_Digest (le_Entry e)); WString "entry.operation" (le_Operation e);
                      WString "entry.reason" (le_Reason e); WString "entry.policy_id" (le_PolicyID e);
                      WString "entry.policy_version" (le_PolicyVersion e);
                      WValue "entry.effective_at" (Instant_Canonical (e_EffectiveAt (le_Entry e)));
                      WCount "entry.sources" (Z.of_nat (length (le_SourceEntries e))) ]%string ++
                    ((fun s => WString "entry.source" s) <$> le_SourceEntries e)) <$> lr_Entries r).

Definition lifecycleDigest (r : LifecycleResult) : outcome canon_err string :=
  Writer_Digest (ops_run (lifecycle_ops r) (New "hcmnext.domains.balance.LifecycleResult" 1)).

Definition lifecycle_with_digest (d : string) (r : LifecycleResult) : LifecycleResult :=
  mkLifecycleResult (lr_AccountID r) (lr_SourcePeriod r) (lr_TargetPeriod r) (lr_SourceBalance r) (lr_Expired r) (lr_Carried r)
    (lr_Entries r) (lr_Explanation r) d.

Definition ApplyLifecycle (req : LifecycleRequest) : outcome balance_err LifecycleResult :=
  _ ← validateLifecycleRequest req;
  zero ← or_reject (NewDecimal "0" (lq_Scale req) (lq_Rounding req)) ErrLifecycleInvalid;
  st ← sum_sources req (lq_Opening req, []) (lq_Ledger req);
  let '(balance, keys) := st in
  amounts ← (if 0 <? Decimal_Sign balance then lifecycleAmounts balance req else Ok (zero, zero));
  let '(carried, expired) := amounts in
  let entries := if 0 <? Decimal_Sign balance then expiry_entries req keys expired ++ transfer_entries req keys carried else [] in
  let r := mkLifecycleResult (lq_AccountID req) (lq_Period req) (lq_Next req) balance expired carried entries (explain <$> entries) "" in
  digest ← or_reject (lifecycleDigest r) ErrLifecycleInvalid;
  Ok (lifecycle_with_digest digest r).

End lifecycle.

(** * What a period's entries sum to *)

Section lifecycle_facts.
Context `{B : DecimalBackend} `{L : !DecimalBackendLaws B} `{CM : CaseMapping} `{SHA : Sha256}.

(** The entries of the account in the period that no lifecycle generated. *)
Definition in_period (req : LifecycleRequest) (e : BalanceEntry) : Prop :=
  e_AccountID e = lq_AccountID req /\ isLifecycleEntryType (e_EntryType e) = false /\
  Instant_Before (e_EffectiveAt e) (pd_Start (lq_Period req)) = false /\ Instant_Before (e_EffectiveAt e) (pd_End (lq_Period req)) = true.
#[export] Instance in_period_dec req e : Decision (in_period req e).
Proof. unfold in_period. solve_decision. Defined.
Definition period_entries (req : LifecycleRequest) (ledger : list BalanceEntry) : list BalanceEntry := filter (in_period req) ledger.

Definition movement_of (req : LifecycleRequest) (e : BalanceEntry) : Z :=
  match Decimal_Quantize (e_Amount e) (lq_Scale req) (lq_Rounding req) with Ok d => direction (e_Kind e) * Decimal_signed d | _ => 0 end.

(** What validation establishes. *)
Definition lifecycle_ready (req : LifecycleRequest) : Prop :=
  dec_wf (lq_Opening req) /\ d_scale (lq_Opening req) = lq_Scale req /\ RoundingMode_Valid (lq_Rounding req) = true /\
  Instant_Compare (pd_Start (lq_Period req)) (pd_End (lq_Period req)) < 0 /\
  Instant_Compare (pd_End (lq_Period req)) (pd_Start (lq_Next req)) = 0 /\
  (cap_set req = true -> dec_wf (cp_Cap (lp_Carryover (lq_Policy req))) /\ d_scale (cp_Cap (lp_Carryover (lq_Policy req))) = lq_Scale req /\
     0 <= Decimal_signed (cp_Cap (lp_Carryover (lq_Policy req)))) /\
  e_AccountID (lq_Template req) = lq_AccountID req.

Lemma lifecycle_validate_ready req : validateLifecycleRequest req = Ok tt -> lifecycle_ready req.
Proof.
  unfold validateLifecycleRequest, PeriodDefinition_Validate, lifecycle_ready.
  rewrite !bind_unit_ok, !fail_if_ok_iff, !orb_false_iff, andb_false_iff, orb_false_iff, !negb_false_iff, !Z.eqb_eq, Validate_amount, !String.eqb_eq.
  intros H. destruct_and!. split_and!; try done; [lia|]. intros Hc.
  match goal with H : cap_set req = false \/ _ |- _ => destruct H as [?|[Hs Hz]] end; [congruence|].
  apply Validate_amount in Hc. rewrite Sign_amount in Hs by done. split_and!; try done; lia.
Qed.

Lemma lifecycle_scale req : lifecycle_ready req -> 0 <= lq_Scale req <= MaxScale.
Proof. intros (H & <- & _). by apply dec_wf_scale. Qed.

(** One turn of the loop. *)
Lemma sum_source_cases req balance keys e st' : sum_source req (balance, keys) e = Ok st' ->
  (~ in_period req e /\ st' = (balance, keys)) \/
  (in_period req e /\ snd st' = keys ++ [e_IdempotencyKey e] /\ movement_of req e <> 0 /\
   (dec_wf balance -> d_scale balance = lq_Scale req -> amount (fst st') (lq_Scale req) (Decimal_signed balance + movement_of req e))).
Proof.
  unfold sum_source, in_period. destruct (String.eqb_spec (e_AccountID e) (lq_AccountID req)) as [Ea|Ea]; cbn [negb orb];
    [|intros [= <-]; left; by split; [intros (? & _)|]].
  destruct (isLifecycleEntryType (e_EntryType e)); [intros [= <-]; left; by split; [intros (_ & ? & _)|]|].
  intros H. apply bind_ok_inv in H as (u1 & _ & H).
  destruct (Instant_Before (e_EffectiveAt e) (pd_Start (lq_Period req))); cbn [orb] in H; [injection H as <-; left; by split; [intros (_ & _ & ? & _)|]|].
  destruct (Instant_Before (e_EffectiveAt e) (pd_End (lq_Period req))); cbn [negb] in H; [|injection H as <-; left; by split; [intros (_ & _ & _ & ?)|]].
  apply bind_ok_inv in H as (d & Hd%or_reject_ok & H). apply bind_ok_inv in H as (u2 & Hpos%fail_if_ok & H).
  apply bind_ok_inv in H as (delta & Hdelta & H). apply bind_ok_inv in H as (b & Hb%or_reject_ok & H). injection H as <-. right.
  pose proof (Quantize_wf _ _ _ _ Hd) as (_ & Hdw & Hds & _). apply signed_direction in Hdelta as [Hk (Hxw & Hxs & Hxv)]; [|done].
  rewrite (Sign_amount d Hdw) in Hpos. unfold movement_of. rewrite Hd. split; [done|]. split; [done|].
  split; [destruct Hk as [-> | ->]; [change (direction Debit) with (-1)|change (direction Credit) with 1]; lia|].
  intros Hw Hs. cbn [fst] in *. apply Add_ok_inv in Hb as (_ & _ & _ & Hb). by rewrite Hs, Hxv in Hb.
Qed.

Lemma sum_sources_spec req ledger : forall balance keys st', amt (lq_Scale req) balance -> sum_sources req (balance, keys) ledger = Ok st' ->
  amount (fst st') (lq_Scale req) (Decimal_signed balance + total (movement_of req) (period_entries req ledger)) /\
  snd st' = keys ++ (e_IdempotencyKey <$> period_entries req ledger).
Proof.
  induction ledger as [|e ledger IH]; intros balance keys st' Hb H; cbn [sum_sources] in H.
  { injection H as <-. cbn. rewrite Z.add_0_r, app_nil_r. by split. }
  apply bind_ok_inv in H as ([b ks] & H1 & H). unfold period_entries. apply sum_source_cases in H1 as [(Hn & [= -> ->])|(Hin & Hks & _ & Hv)].
  - rewrite filter_cons_False by done. by apply IH.
  - rewrite filter_cons_True by done. cbn [fst snd] in *. destruct Hb as (Hw & Hs & _). destruct (amount_signed _ _ _ (Hv Hw Hs)) as [Hb1 Hv1].
    destruct (IH b ks st' Hb1 H) as [E1 E2]. subst ks. rewrite Hv1 in E1. cbn [total foldr fmap list_fmap]. rewrite E2, <- app_assoc.
    split; [|done]. unfold total, period_entries in *. by rewrite Z.add_assoc.
Qed.

(** Entries that a lifecycle generated are no sources. *)
Lemma sum_sources_generated req ledger es st : Forall (fun e => isLifecycleEntryType (e_EntryType e) = true) es ->
  sum_sources req st (ledger ++ es) = sum_sources req st ledger.
Proof.
  intros He. revert st. induction ledger as [|x ledger IH]; intros st; cbn [app sum_sources].
  - induction He as [|e es He _ IHe]; [done|]. cbn [sum_sources]. unfold sum_source. by rewrite He, orb_true_r.
  - destruct (sum_source req st x); cbn [mbind outcome_bind]; [apply IH|done|done].
Qed.

(** * What a balance moves *)

(** What is carried and what expires of a positive balance. *)
Definition carried_of (req : LifecycleRequest) (q : Z) : Z :=
  let policy := lq_Policy req in
  if negb (cp_Enabled (lp_Carryover policy)) && negb (rp_Enabled (lp_Rollover policy)) then 0
  else if cap_set req then Z.min q (Decimal_signed (cp_Cap (lp_Carryover policy))) else q.
Definition expired_of (req : LifecycleRequest) (q : Z) : Z := if xp_Enabled (lp_Expiry (lq_Policy req)) then q - carried_of req q else 0.

Lemma carried_range req q : lifecycle_ready req -> 0 < q -> 0 <= carried_of req q <= q.
Proof.
  intros (_ & _ & _ & _ & _ & Hcap & _) Hq. unfold carried_of. destruct (_ && _); [lia|]. destruct (cap_set req); [|lia].
  destruct (Hcap eq_refl) as (_ & _ & ?). lia.
Qed.

Lemma lifecycle_zero req : lifecycle_ready req ->
  exists zero, NewDecimal "0" (lq_Scale req) (lq_Rounding req) = Ok zero /\ amount zero (lq_Scale req) 0.
Proof.
  intros Hreq. pose proof (lifecycle_scale req Hreq) as Hs. pose proof Hreq as (_ & _ & Hm & _).
  eexists. split; [by apply NewDecimal_zero|]. apply amount_dec_of; [vm_compute; reflexivity|done..].
Qed.

Lemma lifecycleAmounts_spec req balance : lifecycle_ready req -> amt (lq_Scale req) balance -> 0 < Decimal_signed balance ->
  exists carried expired, lifecycleAmounts balance req = Ok (carried, expired) /\
    amount carried (lq_Scale req) (carried_of req (Decimal_signed balance)) /\ amount expired (lq_Scale req) (expired_of req (Decimal_signed balance)).
Proof.
  intros Hreq Hb Hpos. destruct (lifecycle_zero req Hreq) as (zero & Hz & Hzero). unfold lifecycleAmounts, MustDecimal. rewrite Hz.
  pose proof (carried_range req _ Hreq Hpos) as Hrange. unfold expired_of, carried_of in *. pose proof Hb as (Hbw & Hbs & _).
  destruct (negb _ && negb _).
  { destruct (xp_Enabled _); eexists _, _; (split; [reflexivity|]); rewrite ?Z.sub_0_r; by split. }
  pose proof Hreq as (_ & _ & _ & _ & _ & Hcap & _). set (cap := cp_Cap (lp_Carryover (lq_Policy req))) in *.
  set (carried := if cap_set req && (0 <? Decimal_Cmp balance cap) then cap else balance).
  set (q := if cap_set req then Z.min (Decimal_signed balance) (Decimal_signed cap) else Decimal_signed balance) in *.
  assert (Hc : amount carried (lq_Scale req) q).
  { unfold carried, q. destruct (cap_set req) eqn:E; cbn [andb]; [|done]. destruct (Hcap eq_refl) as (Hw & Hs & _).
    rewrite Cmp_greater_same by congruence. destruct (Z.ltb_spec (Decimal_signed cap) (Decimal_signed balance)).
    - rewrite Z.min_r by lia. by split.
    - rewrite Z.min_l by lia. by split. }
  pose proof Hc as (Hcw & Hcs & Hcv). destruct (xp_Enabled (lp_Expiry (lq_Policy req))).
  - pose proof (dec_wf_bound _ Hbw). destruct (Sub_returns balance carried) as [x Hx]; [done|done|congruence|rewrite Hcv; lia|]. rewrite Hx.
    eexists _, _. split; [reflexivity|]. split; [done|]. apply Sub_ok_inv in Hx as (_ & _ & _ & Hx). by rewrite Hbs, Hcv in Hx.
  - eexists _, _. split; [reflexivity|]. by split.
Qed.

Definition value_of (e : LifecycleEntry) : Z := direction (e_Kind (le_Entry e)) * Decimal_signed (e_Amount (le_Entry e)).
Definition debit_of (e : LifecycleEntry) : Z := if String.eqb (e_Kind (le_Entry e)) Debit then Decimal_signed (e_Amount (le_Entry e)) else 0.

(** An entry a period transition may generate. *)
Definition transition_entry (req : LifecycleRequest) (keys : list string) (e : LifecycleEntry) : Prop :=
  isLifecycleEntryType (e_EntryType (le_Entry e)) = true /\ e_AccountID (le_Entry e) = lq_AccountID req /\
  0 < Decimal_signed (e_Amount (le_Entry e)) /\ le_SourceEntries e = keys /\
  (e_Kind (le_Entry e) = Debit /\ e_EffectiveAt (le_Entry e) = pd_End (lq_Period req) \/
   e_Kind (le_Entry e) = Credit /\ e_EffectiveAt (le_Entry e) = pd_Start (lq_Next req)).

Lemma expiry_entries_spec req keys x q : lifecycle_ready req -> amount x (lq_Scale req) q -> 0 <= q ->
  Forall (transition_entry req keys) (expiry_entries req keys x) /\ total value_of (expiry_entries req keys x) = - q /\
  total debit_of (expiry_entries req keys x) = q.
Proof.
  intros (_ & _ & _ & _ & _ & _ & Hacc) (Hw & _ & Hv) Hq. unfold expiry_entries. rewrite (Sign_amount x Hw), Hv.
  destruct (Z.ltb_spec 0 (Z.sgn q)); [|cbn; split_and!; [constructor|lia..]]. split.
  - constructor; [|constructor]. split_and!; try done; [cbn; lia|by left].
  - rewrite !total_one. unfold value_of, debit_of. cbn [le_Entry lifecycleBalanceEntry e_Kind e_Amount]. rewrite Hv.
    change (direction Debit) with (-1). split; [lia|done].
Qed.

Lemma transfer_entries_spec req keys x q : lifecycle_ready req -> amount x (lq_Scale req) q -> 0 <= q ->
  Forall (transition_entry req keys) (transfer_entries req keys x) /\ total value_of (transfer_entries req keys x) = 0 /\
  total debit_of (transfer_entries req keys x) = q.
Proof.
  intros (_ & _ & _ & _ & _ & _ & Hacc) (Hw & _ & Hv) Hq. unfold transfer_entries. rewrite (Sign_amount x Hw), Hv.
  destruct (rp_Enabled _), (Z.ltb_spec 0 (Z.sgn q)); try (cbn; split_and!; [constructor|lia..]).
  all: split; [repeat (constructor; [split_and!; try done; [cbn; lia|first [by left|by right]]|]); constructor|].
  all: cbn [total foldr]; unfold value_of, debit_of; cbn [le_Entry lifecycleBalanceEntry e_Kind e_Amount]; rewrite Hv;
    change (direction Debit) with (-1); change (direction Credit) with 1; rewrite String.eqb_refl; change (String.eqb Credit Debit) with false; lia.
Qed.

(** * The transition of a period *)

Definition moves (req : LifecycleRequest) (r : LifecycleResult) : Prop :=
  let s := lq_Scale req in let q := Decimal_signed (lr_SourceBalance r) in let es := period_entries req (lq_Ledger req) in
  amount (lr_SourceBalance r) s (Decimal_signed (lq_Opening req) + total (movement_of req) es) /\
  (if 0 <? q then amount (lr_Carried r) s (carried_of req q) /\ amount (lr_Expired r) s (expired_of req q)
   else amount (lr_Carried r) s 0 /\ amount (lr_Expired r) s 0 /\ lr_Entries r = []) /\
  0 <= Decimal_signed (lr_Carried r) /\ 0 <= Decimal_signed (lr_Expired r) /\
  Decimal_signed (lr_Carried r) + Decimal_signed (lr_Expired r) <= Z.max 0 q /\
  Forall (transition_entry req (e_IdempotencyKey <$> es)) (lr_Entries r) /\
  total value_of (lr_Entries r) = - Decimal_signed (lr_Expired r) /\
  total debit_of (lr_Entries r) = Decimal_signed (lr_Carried r) + Decimal_signed (lr_Expired r) /\
  lr_Explanation r = explain <$> lr_Entries r.
Definition transition (req : LifecycleRequest) (r : LifecycleResult) : Prop := moves req r /\ lifecycleDigest r = Ok (lr_Digest r).

Lemma transition_sealed req r0 r (err : balance_err) :
  (d ← or_reject (lifecycleDigest r0) err; Ok (lifecycle_with_digest d r0)) = @Ok balance_err _ r -> moves req r0 -> transition req r.
Proof.
  intros H Hm. apply bind_ok_inv in H as (d & Hd%or_reject_ok & H). assert (r = lifecycle_with_digest d r0) as -> by congruence.
  by destruct r0.
Qed.

(** The same request over another ledger. *)
Definition over_ledger (req : LifecycleRequest) (ledger : list BalanceEntry) : LifecycleRequest :=
  mkLifecycle (lq_AccountID req) (lq_Period req) (lq_Next req) (lq_Template req) (lq_Opening req) (lq_Scale req) (lq_Rounding req)
    (lq_Policy req) ledger.

Lemma ApplyLifecycle_transition req r : ApplyLifecycle req = Ok r -> lifecycle_ready req /\ transition req r.
Proof.
  intros H. unfold ApplyLifecycle in H. apply bind_ok_inv in H as ([] & Hv & H). apply lifecycle_validate_ready in Hv as Hreq. split; [done|].
  destruct (lifecycle_zero req Hreq) as (zero & Hz & Hzero). rewrite Hz in H. cbn [or_reject map_err mbind outcome_bind] in H.
  apply bind_ok_inv in H as ([balance keys] & Hsum & H).
  assert (Hopen : amt (lq_Scale req) (lq_Opening req)) by (destruct Hreq as (? & ? & _); by split).
  apply sum_sources_spec in Hsum as [Hb Hkeys]; [|done]. cbn [fst snd app] in Hb, Hkeys. subst keys.
  set (keys := e_IdempotencyKey <$> period_entries req (lq_Ledger req)) in *. destruct (amount_signed _ _ _ Hb) as [Hbal _]. pose proof Hbal as (Hbw & _).
  rewrite (Sign_amount balance Hbw) in H. replace (0 <? Z.sgn (Decimal_signed balance)) with (0 <? Decimal_signed balance) in H by lia.
  destruct (Z.ltb_spec 0 (Decimal_signed balance)) as [Hpos|Hneg].
  - destruct (lifecycleAmounts_spec req balance Hreq Hbal Hpos) as (carried & expired & Ha & Hc & Hx). rewrite Ha in H. cbn [mbind outcome_bind] in H.
    pose proof (carried_range req _ Hreq Hpos) as Hrange. assert (Hxr : 0 <= expired_of req (Decimal_signed balance) <= Decimal_signed balance - carried_of req (Decimal_signed balance))
      by (unfold expired_of; destruct (xp_Enabled _); lia).
    destruct (expiry_entries_spec req keys expired _ Hreq Hx (proj1 Hxr)) as (X1 & X2 & X3).
    destruct (transfer_entries_spec req keys carried _ Hreq Hc (proj1 Hrange)) as (C1 & C2 & C3).
    apply (transition_sealed _ _ _ _ H). unfold moves. fold keys.
    cbn [lr_SourceBalance lr_Carried lr_Expired lr_Entries lr_Explanation]. rewrite (proj2 (Z.ltb_lt _ _) Hpos), !total_app, X2, X3, C2, C3.
    pose proof Hc as (_ & _ & ->). pose proof Hx as (_ & _ & ->).
    split; [done|]. split; [done|]. do 3 (split; [lia|]). split; [by apply Forall_app_2|]. do 2 (split; [lia|]). done.
  - apply bind_ok_inv in H as ([c x] & E & H). assert (c = zero /\ x = zero) as [-> ->] by (split; congruence).
    apply (transition_sealed _ _ _ _ H). unfold moves. fold keys. cbn [lr_SourceBalance lr_Carried lr_Expired lr_Entries lr_Explanation]. rewrite (proj2 (Z.ltb_ge _ _) Hneg).
    pose proof Hzero as (_ & _ & ->). split; [done|]. split; [done|]. do 3 (split; [lia|]). split; [constructor|done].
Qed.

Lemma sum_sources_over req l1 l2 es st : sum_sources (over_ledger req l1) st es = sum_sources (over_ledger req l2) st es.
Proof.
  revert st. induction es as [|e es IH]; intros st; cbn [sum_sources]; [done|].
  change (sum_source (over_ledger req l1) st e) with (sum_source (over_ledger req l2) st e).
  destruct (sum_source (over_ledger req l2) st e); [apply IH|done|done].
Qed.

Lemma ApplyLifecycle_generated req ledger es : Forall (fun e => isLifecycleEntryType (e_EntryType e) = true) es ->
  ApplyLifecycle (over_ledger req (ledger ++ es)) = ApplyLifecycle (over_ledger req ledger).
Proof.
  intros He. unfold ApplyLifecycle. cbn [over_ledger lq_Ledger lq_Opening lq_Scale lq_Rounding].
  rewrite sum_sources_generated, (sum_sources_over req (ledger ++ es) ledger) by done. reflexivity.
Qed.

Lemma ApplyLifecycle_no_panic req : ApplyLifecycle req <> Panic.
Proof.
  unfold ApplyLifecycle. apply bind_no_panic; [unfold validateLifecycleRequest, PeriodDefinition_Validate; no_panic|intros [] Hv].
  apply lifecycle_validate_ready in Hv as Hreq. destruct (lifecycle_zero req Hreq) as (zero & Hz & Hzero). rewrite Hz. cbn [or_reject map_err mbind outcome_bind].
  apply bind_no_panic.
  - generalize (lq_Opening req, @nil string). induction (lq_Ledger req) as [|e l IH]; intros st; cbn [sum_sources]; [done|].
    apply bind_no_panic; [|intros st' _; apply IH]. unfold sum_source. pose proof signedContribution_no_panic. no_panic.
  - intros [balance keys] Hsum. assert (Hopen : amt (lq_Scale req) (lq_Opening req)) by (destruct Hreq as (? & ? & _); by split).
    apply sum_sources_spec in Hsum as [Hb _]; [|done]. destruct (amount_signed _ _ _ Hb) as [Hbal _]. cbn [fst] in *. pose proof Hbal as (Hbw & _).
    rewrite (Sign_amount balance Hbw). apply bind_no_panic.
    + destruct (Z.ltb_spec 0 (Z.sgn (Decimal_signed balance))) as [Hp|]; [|done].
      by destruct (lifecycleAmounts_spec req balance Hreq Hbal ltac:(lia)) as (? & ? & -> & _).
    + intros [c x] _. apply bind_no_panic; [|done]. apply or_reject_no_panic. unfold lifecycleDigest, Writer_Digest, Writer_Bytes. no_panic.
Qed.

(** A period transition never panics.  Its source balance is the opening
    plus the entries of the half-open period that no transition generated;
    what is carried and what expires of a positive balance is what the
    policies say, never more than the balance, and nothing moves otherwise.
    The generated entries are positive, typed, carry the keys of their
    sources, and take the value out at the end of the period; together they
    are worth minus what expired, since the credit at the start of the next
    period balances the carried debit.  Deriving the transition again over the
    ledger with these entries appended gives the same result. *)
Theorem lifecycle_conserves (req : LifecycleRequest) :
  ApplyLifecycle req <> Panic /\
  forall r, ApplyLifecycle req = Ok r -> transition req r /\
    ApplyLifecycle (over_ledger req (lq_Ledger req ++ (le_Entry <$> lr_Entries r))) = Ok r.
Proof.
  split; [apply ApplyLifecycle_no_panic|]. intros r H. destruct (ApplyLifecycle_transition req r H) as [_ Ht]. split; [done|].
  rewrite ApplyLifecycle_generated; [by destruct req|]. destruct Ht as [(_ & _ & _ & _ & _ & Hf & _) _].
  apply Forall_fmap. eapply Forall_impl; [exact Hf|]. by intros e (? & _).
Qed.

End lifecycle_facts.

(** * A concrete period *)

Section sample_lifecycle.
#[local] Instance sample_lifecycle_case : CaseMapping := {| unicode_lower := fun s => s; unicode_upper := fun s => s |}.
#[local] Instance sample_lifecycle_sha : Sha256 := {| sha256_Sum256 := fun bs => [Z.of_nat (length bs) mod 256; foldr Z.add 0 bs mod 256] |}.

Definition sample_period (id : string) (from to : Z) : PeriodDefinition :=
  mkPeriod id "1" PeriodCalendarYear (mkInstant true from 0) (mkInstant true to 0).
Definition sample_lifecycle (cap : Z) : LifecycleRequest :=
  mkLifecycle "a" (sample_period "2025" 0 1000) (sample_period "2026" 1000 2000) (leave_entry "a" Credit "template" 1)
    (dec_of 100 2 RoundingHalfUp) 2 RoundingHalfUp
    (mkLifecyclePolicy (mkExpiry "x" "1" true) (mkCarryover "c" "1" true (dec_of cap 2 RoundingHalfUp)) (mkRollover "" "" false))
    [leave_entry "a" Credit "k1" 800; leave_entry "a" Debit "k2" 300].

Lemma lifecycle_conserves_witness :
  exists r, ApplyLifecycle (sample_lifecycle 400) = Ok r /\ Decimal_signed (lr_Carried r) = 400 /\ total value_of (lr_Entries r) = - 200.
Proof.
  destruct (lifecycle_conserves (sample_lifecycle 400)) as [_ H].
  destruct (ApplyLifecycle (sample_lifecycle 400)) as [r| |] eqn:E; [|vm_compute in E; discriminate E..].
  exists r. split; [reflexivity|]. destruct (H r eq_refl) as (((_ & _ & _ & _ & _ & _ & Hv & _) & _) & _). rewrite Hv.
  vm_compute in E. injection E as <-. split; vm_compute; reflexivity.
Defined.

End sample_lifecycle.
