(* ===== verification/BalanceReconcile.v ===== *)
(** Reconciling an observed balance: [internal/domains/balance/reconcile.go].

    The canonical derivation is authoritative; the theorem says exactly when an
    external observation matches it, and what a verdict reports. *)

From Stdlib Require Import Sorting.Permutation.
From S2P Require Import Prelude GoStrings Sorting CanonicalBytes FixedDecimal DecimalAmounts CivilTime BalanceEntries BalanceAsOf BalanceRules.

Local Open Scope Z_scope.

Definition ReconciliationVerdict : Type := string.
Definition ReconciliationMatch : ReconciliationVerdict := "MATCH".
Definition ReconciliationMismatch : ReconciliationVerdict := "MISMATCH".

Definition ReconciliationReason : Type := string.
Definition ReasonValueMatch : ReconciliationReason := "VALUE_MATCH".
Definition ReasonAccountMismatch : ReconciliationReason := "ACCOUNT_MISMATCH".
Definition ReasonPeriodMismatch : ReconciliationReason := "PERIOD_MISMATCH".
Definition ReasonAsOfMismatch : ReconciliationReason := "EFFECTIVE_AS_OF_MISMATCH".
Definition ReasonStaleObservation : ReconciliationReason := "STALE_OBSERVATION".
Definition ReasonPartialCoverage : ReconciliationReason := "PARTIAL_COVERAGE".
Definition ReasonBasisMismatch : ReconciliationReason := "BASIS_MISMATCH".
Definition ReasonValueMismatch : ReconciliationReason := "VALUE_MISMATCH".

Record ExternalBalance : Type := mkExternal {
  xb_AccountID : string; xb_Dimensions : gmap string string; xb_Period : string; xb_EffectiveAsOf : Instant; xb_BasisDigest : string;
  xb_CoveredDigests : list string; xb_Observed : Decimal; xb_ObservedAt : Instant; xb_SourceID : string
}.
Record ReconciliationRequest : Type := mkReconciliation { rn_Canonical : AuthorizedBalance; rn_Observed : ExternalBalance }.

Record BalanceDiscrepancy : Type := mkDiscrepancy {
  ds_Verdict : ReconciliationVerdict; ds_Reason : ReconciliationReason; ds_Dimensions : gmap string string; ds_Period : string;
  ds_Expected : Decimal; ds_Observed : Decimal; ds_Delta : Decimal; ds_Owner : string; ds_CanonicalDigest : string; ds_BasisDigest : string;
  ds_Digest : string
}.

(** [AuthorizedBalance.Period]: the period of the first counted entry. *)
Definition AuthorizedBalance_Period (b : AuthorizedBalance) : string :=
  match ab_Entries b, ab_Adjustments b with
  | e :: _, _ => e_Period e
  | [], e :: _ => e_Period e
  | [], [] => EmptyString
  end.

(** [m[digest]++] over a list. *)
Definition tally_digests (m : gmap string nat) (digests : list string) : gmap string nat :=
  foldl (fun m digest => <[digest := S (default O (m !! digest))]> m) m digests.

Section reconcile.
Context `{B : DecimalBackend} `{SHA : Sha256}.

Definition sameCoverage (canonical : AuthorizedBalance) (covered : list string) : bool :=
  let want := tally_digests (tally_digests ∅ (BalanceEntry_Digest <$> ab_Entries canonical)) (BalanceEntry_Digest <$> ab_Adjustments canonical) in
  let got := tally_digests ∅ covered in
  (size got =? size want)%nat && forallb (fun '(digest, count) => (default O (got !! digest) =? count)%nat) (map_to_list want).

Definition discrepancy_ops (d : BalanceDiscrepancy) : list op :=
  [ WString "verdict" (ds_Verdict d); WString "reason" (ds_Reason d); WString "period" (ds_Period d);
    WValue "expected" (Decimal_Canonical (ds_Expected d)); WValue "observed" (Decimal_Canonical (ds_Observed d));
    WValue "delta" (Decimal_Canonical (ds_Delta d)); WString "owner" (ds_Owner d); WString "canonical" (ds_CanonicalDigest d);
    WString "basis" (ds_BasisDigest d); WCount "dimensions" (Z.of_nat (size (ds_Dimensions d))) ]%string ++
  ((fun k => WString ("dimension." +:+ k) (default EmptyString (ds_Dimensions d !! k))) <$> sort_Strings (elements (dom (ds_Dimensions d)))).

(** [BalanceDiscrepancy.canonicalDigest]. *)
Definition BalanceDiscrepancy_canonicalDigest (d : BalanceDiscrepancy) : outcome canon_err string :=
  Writer_Digest (ops_run (discrepancy_ops d) (New "hcmnext.domains.balance.BalanceDiscrepancy" 1)).

(** The envelope of a request. *)
Definition reconciliation_valid (req : ReconciliationRequest) : outcome balance_err unit :=
  let canonical := rn_Canonical req in let obs := rn_Observed req in
  _ ← fail_if (is_blank (ab_Digest canonical)) ErrReconciliationInvalid;
  _ ← fail_if (negb (i_set (ab_KnownAt canonical))) ErrReconciliationInvalid;
  _ ← or_reject (Decimal_Validate (ab_Ending canonical)) ErrReconciliationInvalid;
  _ ← fail_if (is_blank (xb_AccountID obs) || is_blank (xb_Period obs) || is_blank (xb_SourceID obs)) ErrReconciliationInvalid;
  _ ← fail_if (negb (i_set (xb_EffectiveAsOf obs)) || negb (i_set (xb_ObservedAt obs))) ErrReconciliationInvalid;
  or_reject (Decimal_Validate (xb_Observed obs)) ErrReconciliationInvalid.

(** The switch: the first condition that fails names the reason. *)
Definition verdict_of (req : ReconciliationRequest) (observed : Decimal) : ReconciliationVerdict * ReconciliationReason :=
  let canonical := rn_Canonical req in let obs := rn_Observed req in
  if negb (String.eqb (xb_AccountID obs) (ab_AccountID canonical)) then (ReconciliationMismatch, ReasonAccountMismatch)
  else if negb (String.eqb (xb_Period obs) (AuthorizedBalance_Period canonical)) then (ReconciliationMismatch, ReasonPeriodMismatch)
  else if negb (Instant_Compare (xb_EffectiveAsOf obs) (ab_EffectiveAsOf canonical) =? 0) then (ReconciliationMismatch, ReasonAsOfMismatch)
  else if negb (String.eqb (xb_BasisDigest obs) (ab_Digest canonical)) then (ReconciliationMismatch, ReasonBasisMismatch)
  else if Instant_Before (xb_ObservedAt obs) (ab_KnownAt canonical) then (ReconciliationMismatch, ReasonStaleObservation)
  else if negb (sameCoverage canonical (xb_CoveredDigests obs)) then (ReconciliationMismatch, ReasonPartialCoverage)
  else if negb (Decimal_Equal observed (ab_Ending canonical)) then (ReconciliationMismatch, ReasonValueMismatch)
  else (ReconciliationMatch, ReasonValueMatch).

Definition discrepancy_with_digest (digest : string) (d : BalanceDiscrepancy) : BalanceDiscrepancy :=
  mkDiscrepancy (ds_Verdict d) (ds_Reason d) (ds_Dimensions d) (ds_Period d) (ds_Expected d) (ds_Observed d) (ds_Delta d) (ds_Owner d)
    (ds_CanonicalDigest d) (ds_BasisDigest d) digest.

Definition ReconcileExternalBalance (req : ReconciliationRequest) : outcome balance_err BalanceDiscrepancy :=
  let canonical := rn_Canonical req in let obs := rn_Observed req in let expected := ab_Ending canonical in
  _ ← reconciliation_valid req;
  observed ← or_reject (Decimal_Quantize (xb_Observed obs) (d_scale expected) (d_round expected)) ErrReconciliationInvalid;
  let '(verdict, reason) := verdict_of req observed in
  delta ← or_reject (Decimal_Sub observed expected) ErrReconciliationInvalid;
  let d := mkDiscrepancy verdict reason (xb_Dimensions obs) (xb_Period obs) expected observed delta (xb_SourceID obs)
      (ab_Digest canonical) (xb_BasisDigest obs) "" in
  digest ← or_reject (BalanceDiscrepancy_canonicalDigest d) ErrReconciliationInvalid;
  Ok (discrepancy_with_digest digest d).

End reconcile.

(** * Coverage *)

Lemma tally_lookup digests : forall m x, tally_digests m digests !! x =
  match (default O (m !! x) + count_occ String.string_dec digests x)%nat with O => m !! x | n => Some n end.
Proof.
  induction digests as [|d digests IH]; intros m x; cbn [tally_digests foldl count_occ].
  { rewrite Nat.add_0_r. destruct (m !! x) as [[|n]|]; done. }
  fold (tally_digests (<[d := S (default O (m !! d))]> m) digests). rewrite IH. destruct (String.string_dec d x) as [->|Hd].
  - rewrite lookup_insert_eq. cbn [default]. rewrite <- plus_n_Sm. cbn. done.
  - by rewrite lookup_insert_ne.
Qed.

Lemma tally_empty digests x : tally_digests ∅ digests !! x = match count_occ String.string_dec digests x with O => None | n => Some n end.
Proof. rewrite tally_lookup, lookup_empty. done. Qed.

Lemma tally_app m l1 l2 : tally_digests (tally_digests m l1) l2 = tally_digests m (l1 ++ l2).
Proof. unfold tally_digests. by rewrite foldl_app. Qed.

Section reconcile_facts.
Context `{B : DecimalBackend} `{L : !DecimalBackendLaws B} `{SHA : Sha256}.

(** The digests an observation has to cover. *)
Definition counted_digests (b : AuthorizedBalance) : list string :=
  (BalanceEntry_Digest <$> ab_Entries b) ++ (BalanceEntry_Digest <$> ab_Adjustments b).

(** The comparison of the counts is equality of the multisets. *)
Lemma sameCoverage_iff b covered : sameCoverage b covered = true <-> covered ≡ₚ counted_digests b.
Proof.
  unfold sameCoverage. rewrite tally_app. fold (counted_digests b). set (want := tally_digests ∅ (counted_digests b)). set (got := tally_digests ∅ covered).
  rewrite andb_true_iff, Nat.eqb_eq, forallb_forall, (Permutation_count_occ String.string_dec). split.
  - intros [Hsize Hall] x. assert (E : want = got).
    { apply map_subseteq_size_eq; [|lia]. apply map_subseteq_spec. intros k n Hk.
      specialize (Hall (k, n) (proj1 (list_elem_of_In _ _) (proj2 (elem_of_map_to_list want k n) Hk))). cbn in Hall. apply Nat.eqb_eq in Hall.
      unfold want in Hk. rewrite tally_empty in Hk. destruct (got !! k) as [c|]; cbn in Hall; [by subst|]. by destruct (count_occ _ _ k); [|injection Hk as <-]. }
    pose proof (f_equal (lookup x) E) as Hx. unfold want, got in Hx. rewrite !tally_empty in Hx.
    destruct (count_occ _ covered x), (count_occ _ (counted_digests b) x); congruence.
  - intros Hc. assert (E : want = got) by (apply map_eq; intros k; unfold want, got; by rewrite !tally_empty, Hc).
    rewrite E. split; [done|]. intros [k n] Hk%list_elem_of_In%elem_of_map_to_list. rewrite Hk. apply Nat.eqb_refl.
Qed.

(** * The verdict *)

Definition matches (req : ReconciliationRequest) (observed : Decimal) : Prop :=
  let canonical := rn_Canonical req in let obs := rn_Observed req in
  xb_AccountID obs = ab_AccountID canonical /\ xb_Period obs = AuthorizedBalance_Period canonical /\
  Instant_Compare (xb_EffectiveAsOf obs) (ab_EffectiveAsOf canonical) = 0 /\ xb_BasisDigest obs = ab_Digest canonical /\
  Instant_Before (xb_ObservedAt obs) (ab_KnownAt canonical) = false /\ xb_CoveredDigests obs ≡ₚ counted_digests canonical /\
  Decimal_Equal observed (ab_Ending canonical) = true.

Lemma verdict_match req observed : fst (verdict_of req observed) = ReconciliationMatch <-> matches req observed.
Proof.
  unfold verdict_of, matches. rewrite <- sameCoverage_iff, <- Z.eqb_eq, <- !String.eqb_eq.
  destruct (String.eqb (xb_AccountID _) _), (String.eqb (xb_Period _) _), (Instant_Compare _ _ =? 0), (String.eqb (xb_BasisDigest _) _),
    (Instant_Before _ _), (sameCoverage _ _), (Decimal_Equal _ _); cbn; (split; [intros H|intros (? & ? & ? & ? & ? & ? & ?)]); try done; congruence.
Qed.

Lemma verdict_values req observed : let v := fst (verdict_of req observed) in
  (v = ReconciliationMatch \/ v = ReconciliationMismatch) /\ (v = ReconciliationMatch <-> snd (verdict_of req observed) = ReasonValueMatch).
Proof. unfold verdict_of. repeat case_match; cbn; (split; [by (left + right)|done]). Qed.

(** What a discrepancy reports. *)
Definition reports (req : ReconciliationRequest) (d : BalanceDiscrepancy) : Prop :=
  let canonical := rn_Canonical req in let obs := rn_Observed req in let s := d_scale (ab_Ending canonical) in
  ds_Expected d = ab_Ending canonical /\ Decimal_Quantize (xb_Observed obs) s (d_round (ab_Ending canonical)) = Ok (ds_Observed d) /\
  amount (ds_Delta d) s (Decimal_signed (ds_Observed d) - Decimal_signed (ds_Expected d)) /\
  (ds_Verdict d, ds_Reason d) = verdict_of req (ds_Observed d) /\ ds_Owner d = xb_SourceID obs /\ is_blank (ds_Owner d) = false /\
  BalanceDiscrepancy_canonicalDigest d = Ok (ds_Digest d).

Lemma reconcile_reports req d : ReconcileExternalBalance req = Ok d -> reports req d.
Proof.
  intros H. unfold ReconcileExternalBalance in H. apply bind_ok_inv in H as ([] & Hv & H). apply bind_ok_inv in H as (observed & Hq%or_reject_ok & H).
  destruct (verdict_of req observed) as [verdict reason] eqn:Ev. apply bind_ok_inv in H as (delta & Hd%or_reject_ok & H).
  apply bind_ok_inv in H as (digest & Hdig%or_reject_ok & H).
  match type of H with Ok (discrepancy_with_digest digest ?D) = _ => assert (Hr : d = discrepancy_with_digest digest D) by congruence end. subst d.
  unfold reports. cbn [discrepancy_with_digest ds_Expected ds_Observed ds_Delta ds_Verdict ds_Reason ds_Owner ds_Digest].
  unfold reconciliation_valid in Hv. rewrite !bind_unit_ok, !fail_if_ok_iff, !orb_false_iff in Hv.
  apply Quantize_wf in Hq as Hw. destruct Hw as (_ & _ & Hs & _). apply Sub_ok_inv in Hd as (_ & _ & _ & Hd). rewrite Hs in Hd.
  split; [done|]. split; [done|]. split; [exact Hd|]. split; [done|]. split; [done|]. split; [by destruct_and!|]. exact Hdig.
Qed.

(** A reconciliation never panics.  The discrepancy it returns is sealed,
    names the source that observed as its owner, and its delta added to the
    canonical ending is the observed amount at the canonical scale.  It
    reports a match exactly when account, period, date and basis agree, the
    observation is not older than the derivation, the covered digests are the
    counted ones with their multiplicities, and the amounts are equal; so an
    observation of a derivation without counted entries never matches, since
    that derivation has no period. *)
Theorem reconciliation_decides (req : ReconciliationRequest) :
  ReconcileExternalBalance req <> Panic /\
  forall d, ReconcileExternalBalance req = Ok d ->
    reports req d /\ (ds_Verdict d = ReconciliationMatch \/ ds_Verdict d = ReconciliationMismatch) /\
    (ds_Verdict d = ReconciliationMatch <-> matches req (ds_Observed d)) /\
    (ds_Verdict d = ReconciliationMatch -> Decimal_signed (ds_Delta d) = 0) /\
    (counted_digests (rn_Canonical req) = [] -> ds_Verdict d = ReconciliationMismatch).
Proof.
  split.
  { unfold ReconcileExternalBalance, reconciliation_valid, BalanceDiscrepancy_canonicalDigest, Writer_Digest, Writer_Bytes. no_panic. }
  intros d H. pose proof (reconcile_reports req d H) as Hrep. split; [done|]. pose proof Hrep as (He & Hq & (_ & _ & Hdelta) & Hv & _).
  destruct (verdict_values req (ds_Observed d)) as [Hvals _]. pose proof (verdict_match req (ds_Observed d)) as Hm. rewrite <- Hv in Hvals, Hm. cbn [fst] in Hvals, Hm.
  unfold ReconcileExternalBalance in H. apply bind_ok_inv in H as ([] & Hvalid & _). unfold reconciliation_valid in Hvalid.
  rewrite !bind_unit_ok, !or_reject_ok, !fail_if_ok_iff, !orb_false_iff in Hvalid.
  split; [done|]. split; [done|]. split.
  - intros (_ & _ & _ & _ & _ & _ & Heq)%Hm. destruct_and!. rewrite Hdelta, He. apply Quantize_wf in Hq as (_ & Hw & Hs & _).
    rewrite Equal_amount in Heq by (done || by apply Decimal_Validate_ok). lia.
  - intros Hnil. destruct Hvals as [Hy|?]; [|done]. apply Hm in Hy as (_ & Hp & _). destruct_and!.
    assert (Hper : AuthorizedBalance_Period (rn_Canonical req) = EmptyString).
    { unfold counted_digests in Hnil. apply app_eq_nil in Hnil as [Hn1 Hn2]. unfold AuthorizedBalance_Period.
      by destruct (ab_Entries _), (ab_Adjustments _). }
    rewrite Hper in Hp. match goal with H : is_blank (xb_Period _) = false |- _ => by rewrite Hp in H end.
Qed.

End reconcile_facts.

(** * A concrete observation *)

Section sample_reconcile.
#[local] Instance sample_reconcile_folding : CaseFolding := {| unicode_equal_fold := String.eqb |}.
#[local] Instance sample_reconcile_sha : Sha256 := {| sha256_Sum256 := fun bs => [Z.of_nat (length bs) mod 256; foldr Z.add 0 bs mod 256] |}.

(** An observation of the sample ledger that reports [q]. *)
Definition sample_observation (b : AuthorizedBalance) (q : Z) : ReconciliationRequest :=
  mkReconciliation b (mkExternal "a" ∅ PeriodCalendarYear (mkInstant true 1000 0) (ab_Digest b) (counted_digests b) (dec_of q 2 RoundingHalfUp)
    (mkInstant true 2000 0) "payroll").

Lemma reconciliation_decides_witness :
  exists b d, CalculateAuthorizedBalance (sample_asof 1000 500) sample_ledger = Ok b /\
    ReconcileExternalBalance (sample_observation b 1600) = Ok d /\ ds_Reason d = ReasonValueMismatch /\
    Decimal_signed (ds_Delta d) = 100.
Proof.
  destruct (CalculateAuthorizedBalance (sample_asof 1000 500) sample_ledger) as [b| |] eqn:Eb; [|vm_compute in Eb; discriminate Eb..].
  destruct (ReconcileExternalBalance (sample_observation b 1600)) as [d| |] eqn:Ed;
    [|vm_compute in Eb; injection Eb as <-; vm_compute in Ed; discriminate Ed..].
  exists b, d. split; [reflexivity|]. split; [exact Ed|]. destruct (reconciliation_decides (sample_observation b 1600)) as [_ H].
  destruct (H d Ed) as ((_ & _ & (_ & _ & Hdelta) & _) & _). rewrite Hdelta. clear H Hdelta.
  vm_compute in Eb. injection Eb as <-. vm_compute in Ed. injection Ed as <-. split; vm_compute; reflexivity.
Defined.

End sample_reconcile.
