(* ===== verification/BalanceCorrection.v ===== *)
(** Correcting a posted entry: [internal/domains/balance/correction.go].

    A correction appends the signed difference to the ledger, orders the
    dependents of the trusted manifest by their dependencies and recalculates
    those that have an implementation. *)

From S2P Require Import Prelude GoStrings Sorting CanonicalBytes FixedDecimal DecimalAmounts CivilTime BalanceEntries BalanceAsOf BalanceRules.

Local Open Scope Z_scope.

Definition RecalculationState : Type := string.
Definition RecalculationPending : RecalculationState := "PENDING".
Definition RecalculationComplete : RecalculationState := "RECALCULATED".
Definition ReconciliationRequired : RecalculationState := "RECONCILIATION_REQUIRED".

Record CorrectionDependency : Type := mkDependency {
  cd_ID : string; cd_Owner : string; cd_Version : string; cd_DependsOn : list string; cd_State : RecalculationState
}.
Record RecalculationEvidence : Type := mkEvidence { ev_InputDigest : string; ev_Version : string; ev_Digest : string }.
Record CorrectionImpact : Type := mkImpact {
  ci_ID : string; ci_Owner : string; ci_Version : string; ci_DependsOn : list string; ci_State : RecalculationState; ci_EvidenceDigest : string
}.
Record RecalculationContext : Type := mkContext {
  rx_Definition : AccumulatorDefinition; rx_Dependent : CorrectionDependency; rx_Correction : BalanceEntry; rx_Balance : AuthorizedBalance;
  rx_Upstream : list CorrectionImpact
}.

(** A recalculator returns evidence or an error. *)
Definition DependentRecalculator : Type := RecalculationContext -> option RecalculationEvidence.

Record RetroCorrectionRequest : Type := mkCorrectionRequest {
  rc_Definition : AccumulatorDefinition; rc_Original : BalanceEntry; rc_Corrected : BalanceEntry; rc_Ledger : list BalanceEntry;
  rc_Opening : Decimal; rc_ExpectedDependencies : list CorrectionDependency; rc_Dependencies : list CorrectionDependency;
  rc_Recalculators : gmap string (option DependentRecalculator)
}.
Record RetroCorrectionResult : Type := mkCorrectionResult {
  rr_OriginalDigest : string; rr_Correction : BalanceEntry; rr_Balance : AuthorizedBalance; rr_Impacts : list CorrectionImpact;
  rr_ResultDigest : string
}.

(** * The order of the impacts *)

Definition named (d : CorrectionDependency) : bool := negb (is_blank (cd_ID d) || is_blank (cd_Owner d) || is_blank (cd_Version d)).
(** [m[id].ID != ""]. *)
Definition taken (m : gmap string CorrectionDependency) (id : string) : bool :=
  match m !! id with Some d => negb (String.eqb (cd_ID d) "") | None => false end.

(** The requested dependencies by identity. *)
Fixpoint index_requested (m : gmap string CorrectionDependency) (ds : list CorrectionDependency) : outcome balance_err (gmap string CorrectionDependency) :=
  match ds with
  | [] => Ok m
  | d :: rest =>
      _ ← fail_if (negb (named d) || taken m (cd_ID d)) ErrCorrectionInvalid;
      _ ← fail_if (negb (String.eqb (cd_State d) "") && negb (String.eqb (cd_State d) ReconciliationRequired)) ErrCorrectionInvalid;
      index_requested (<[cd_ID d := d]> m) rest
  end.

(** The trusted manifest by identity. *)
Fixpoint index_expected (m : gmap string CorrectionDependency) (ds : list CorrectionDependency) : outcome balance_err (gmap string CorrectionDependency) :=
  match ds with
  | [] => Ok m
  | d :: rest =>
      _ ← fail_if (negb (named d) || taken m (cd_ID d) || negb (String.eqb (cd_State d) "")) ErrCorrectionInvalid;
      index_expected (<[cd_ID d := d]> m) rest
  end.

Definition required_owners : list string := ["balance"; "payroll"; "tax"; "benefits"]%string.

Definition sameDependencies (a b : list string) : bool := bool_decide (sort_Strings a = sort_Strings b).

(** [st := d.State; if st == "" { st = ReconciliationRequired }]. *)
Definition impact_of (d : CorrectionDependency) : CorrectionImpact :=
  mkImpact (cd_ID d) (cd_Owner d) (cd_Version d) (sort_Strings (cd_DependsOn d))
    (if String.eqb (cd_State d) "" then ReconciliationRequired else cd_State d) "".

(** The depth-first visit: marks are 1 while a node is open and 2 when it is
    done.  Out of fuel it panics; the size of the manifest is enough. *)
Record visiting : Type := mkVisiting { vs_state : gmap string Z; vs_ordered : list CorrectionImpact }.
Definition mark (st : visiting) (id : string) : Z := default 0 (vs_state st !! id).

Fixpoint visit_each (visit : string -> visiting -> outcome balance_err visiting) (ids : list string) (st : visiting) : outcome balance_err visiting :=
  match ids with
  | [] => Ok st
  | id :: rest => st' ← visit id st; visit_each visit rest st'
  end.

Fixpoint visit (fuel : nat) (by_id : gmap string CorrectionDependency) (id : string) (st : visiting) : outcome balance_err visiting :=
  match fuel with
  | O => Panic
  | S n =>
      if mark st id =? 1 then Err ErrCorrectionInvalid
      else if mark st id =? 2 then Ok st
      else match by_id !! id with
           | None => Err ErrCorrectionInvalid
           | Some d =>
               st' ← visit_each (visit n by_id) (sort_Strings (cd_DependsOn d)) (mkVisiting (<[id := 1]> (vs_state st)) (vs_ordered st));
               Ok (mkVisiting (<[id := 2]> (vs_state st')) (vs_ordered st' ++ [impact_of d]))
           end
  end.

Section correction.
Context `{B : DecimalBackend} `{CM : CaseMapping} `{CF : CaseFolding} `{SHA : Sha256}.

Definition owner_key (d : CorrectionDependency) : string := strings_ToLower (strings_TrimSpace (cd_Owner d)).

Definition orderImpacts (expected requested : list CorrectionDependency) : outcome balance_err (list CorrectionImpact) :=
  _ ← fail_if ((length expected =? 0)%nat || negb (length requested =? length expected)%nat) ErrCorrectionInvalid;
  by_id ← index_requested ∅ requested;
  expected_by_id ← index_expected ∅ expected;
  _ ← fail_if (negb (forallb (fun owner => existsb (fun d => String.eqb (owner_key d) owner) expected) required_owners)) ErrCorrectionInvalid;
  _ ← fail_if (negb (forallb (fun '(id, d) => match expected_by_id !! id with
                                              | Some want => String.eqb (cd_Owner d) (cd_Owner want) && String.eqb (cd_Version d) (cd_Version want) &&
                                                             sameDependencies (cd_DependsOn d) (cd_DependsOn want)
                                              | None => false end) (map_to_list by_id))) ErrCorrectionInvalid;
  st ← visit_each (visit (S (size by_id)) by_id) (sort_Strings (elements (dom by_id))) (mkVisiting ∅ []);
  Ok (vs_ordered st).

(** * Recalculation *)

(** One turn of the loop over the impacts; [settled] are those before it. *)
Definition recalculate_one (req : RetroCorrectionRequest) (balance : AuthorizedBalance) (correction : BalanceEntry)
    (settled : list CorrectionImpact) (impact : CorrectionImpact) : outcome balance_err CorrectionImpact :=
  match rc_Recalculators req !! ci_ID impact with
  | Some (Some recalculate) =>
      let dependent := mkDependency (ci_ID impact) (ci_Owner impact) (ci_Version impact) (ci_DependsOn impact) "" in
      match recalculate (mkContext (rc_Definition req) dependent correction balance settled) with
      | None => Err ErrCorrectionInvalid
      | Some evidence =>
          _ ← fail_if (negb (String.eqb (ev_Version evidence) (ci_Version impact))) ErrCorrectionInvalid;
          _ ← fail_if (String.eqb (ev_InputDigest evidence) "" || negb (String.eqb (ev_InputDigest evidence) (ab_Digest balance))) ErrCorrectionInvalid;
          _ ← fail_if (is_blank (ev_Digest evidence)) ErrCorrectionInvalid;
          Ok (mkImpact (ci_ID impact) (ci_Owner impact) (ci_Version impact) (ci_DependsOn impact) RecalculationComplete (ev_Digest evidence))
      end
  | _ => Ok impact
  end.

Fixpoint recalculate_loop (req : RetroCorrectionRequest) (balance : AuthorizedBalance) (correction : BalanceEntry)
    (settled impacts : list CorrectionImpact) : outcome balance_err (list CorrectionImpact) :=
  match impacts with
  | [] => Ok settled
  | impact :: rest =>
      impact' ← recalculate_one req balance correction settled impact;
      recalculate_loop req balance correction (settled ++ [impact']) rest
  end.

Definition recalculateDependents (req : RetroCorrectionRequest) (balance : AuthorizedBalance) (correction : BalanceEntry)
    (impacts : list CorrectionImpact) : outcome balance_err (list CorrectionImpact) :=
  _ ← fail_if (negb (forallb (fun id => bool_decide (id ∈ (ci_ID <$> impacts))) (elements (dom (rc_Recalculators req))))) ErrCorrectionInvalid;
  recalculate_loop req balance correction [] impacts.

(** * The correction *)

Definition corrects (original e : BalanceEntry) : bool := String.eqb (e_SupersedesDigest e) (BalanceEntry_Digest original).
Definition same_entry (original e : BalanceEntry) : bool :=
  String.eqb (BalanceEntry_Digest e) (BalanceEntry_Digest original) && (Instant_Compare (e_RecordedAt e) (e_RecordedAt original) =? 0).

(** The loop over the ledger: the original is found once, corrected at most
    once. *)
Fixpoint find_lineage (original : BalanceEntry) (found : bool) (prior : option BalanceEntry) (ledger : list BalanceEntry)
    : outcome balance_err (bool * option BalanceEntry) :=
  match ledger with
  | [] => Ok (found, prior)
  | e :: rest =>
      found' ← (if same_entry original e then _ ← fail_if found ErrCorrectionInvalid; Ok true else Ok found);
      prior' ← (if corrects original e
                then match prior with Some _ => Err ErrCorrectionConflict | None => Ok (Some e) end else Ok prior);
      find_lineage original found' prior' rest
  end.

(** The signed difference, as a kind and a positive amount. *)
Definition correction_delta (original corrected : BalanceEntry) : outcome balance_err (EntryKind * Decimal) :=
  oldSigned ← signedContribution (e_Kind original) (e_Amount original) ErrCorrectionInvalid;
  newSigned ← signedContribution (e_Kind corrected) (e_Amount corrected) ErrCorrectionInvalid;
  delta ← or_reject (Decimal_Sub newSigned oldSigned) ErrCorrectionInvalid;
  _ ← fail_if (Decimal_IsZero delta) ErrCorrectionInvalid;
  if Decimal_Sign delta <? 0 then positive ← or_reject (Decimal_Neg delta) ErrCorrectionInvalid; Ok (Debit, positive)
  else Ok (Credit, delta).

Definition correction_of (original corrected : BalanceEntry) (kind : EntryKind) (amount : Decimal) : BalanceEntry :=
  mkEntry (e_AccountID corrected) (e_DefinitionID corrected) (e_DefinitionVersion corrected) (e_Unit corrected) (e_Currency corrected)
    (e_Subject corrected) (e_Period corrected) (e_Dimensions corrected) kind amount AdjustmentEntryType (e_SourceTransactionID corrected)
    (e_IdempotencyKey corrected) (e_EffectiveAt corrected) (e_RecordedAt corrected) (e_AuthorizedAt corrected) (BalanceEntry_Digest original).

(** The ledger after the correction: a prior correction must be the same. *)
Definition corrected_ledger (ledger : list BalanceEntry) (prior : option BalanceEntry) (correction : BalanceEntry) : outcome balance_err (list BalanceEntry) :=
  match prior with
  | Some p => _ ← fail_if (negb (String.eqb (BalanceEntry_Digest p) (BalanceEntry_Digest correction))) ErrCorrectionConflict; Ok ledger
  | None => Ok (ledger ++ [correction])
  end.

Definition correction_known (corrected : BalanceEntry) : Instant :=
  if Instant_After (e_AuthorizedAt corrected) (e_RecordedAt corrected) then e_AuthorizedAt corrected else e_RecordedAt corrected.

Definition correction_ops (originalDigest : string) (correction : BalanceEntry) (balance : AuthorizedBalance) (impacts : list CorrectionImpact) : list op :=
  [ WString "original" originalDigest; WString "correction" (BalanceEntry_Digest correction); WString "balance" (ab_Digest balance);
    WCount "impacts" (Z.of_nat (length impacts)) ]%string ++
  concat ((fun i => [ WString "impact.id" (ci_ID i); WString "impact.owner" (ci_Owner i); WString "impact.version" (ci_Version i);
                      WString "impact.state" (ci_State i); WString "impact.evidence" (ci_EvidenceDigest i);
                      WCount "impact.depends_on" (Z.of_nat (length (ci_DependsOn i))) ]%string ++
                    ((fun d => WString "impact.dependency" d) <$> ci_DependsOn i)) <$> impacts).

Definition correction_request (req : RetroCorrectionRequest) : AuthorizedBalanceRequest :=
  let corrected := rc_Corrected req in
  mkAsOf (e_AccountID corrected) (e_EffectiveAt corrected) (correction_known corrected) (rc_Opening req) (d_scale (e_Amount corrected))
    (d_round (e_Amount corrected)).

Definition ApplyRetroCorrection (req : RetroCorrectionRequest) : outcome balance_err RetroCorrectionResult :=
  let original := rc_Original req in let corrected := rc_Corrected req in
  _ ← or_reject (AccumulatorDefinition_Validate (rc_Definition req)) ErrCorrectionInvalid;
  _ ← or_reject (BalanceEntry_Validate original (rc_Definition req)) ErrCorrectionInvalid;
  _ ← or_reject (BalanceEntry_Validate corrected (rc_Definition req)) ErrCorrectionInvalid;
  _ ← fail_if (negb (String.eqb (e_AccountID original) (e_AccountID corrected)) ||
               String.eqb (BalanceEntry_Digest original) (BalanceEntry_Digest corrected)) ErrCorrectionInvalid;
  lineage ← find_lineage original false None (rc_Ledger req);
  let '(found, prior) := lineage in
  _ ← fail_if (negb found) ErrCorrectionInvalid;
  delta ← correction_delta original corrected;
  let correction := correction_of original corrected (fst delta) (snd delta) in
  _ ← fail_if (negb (contains (ad_EntryTypes (rc_Definition req)) (e_EntryType correction))) ErrCorrectionInvalid;
  ledger ← corrected_ledger (rc_Ledger req) prior correction;
  _ ← fail_if (negb (i_set (e_RecordedAt corrected)) || negb (i_set (e_AuthorizedAt corrected)) || negb (i_set (e_EffectiveAt corrected)))
        ErrCorrectionInvalid;
  _ ← or_reject (Decimal_Validate (rc_Opening req)) ErrCorrectionInvalid;
  balance ← CalculateAuthorizedBalance (correction_request req) ledger;
  impacts ← orderImpacts (rc_ExpectedDependencies req) (rc_Dependencies req);
  impacts' ← recalculateDependents req balance correction impacts;
  digest ← or_reject (Writer_Digest (ops_run (correction_ops (BalanceEntry_Digest original) correction balance impacts')
                        (New "hcmnext.domains.balance.RetroCorrectionResult" 1))) ErrCorrectionInvalid;
  Ok (mkCorrectionResult (BalanceEntry_Digest original) correction balance impacts' digest).

End correction.

(** * The visit is a topological order *)

Section visits.
Context (by_id : gmap string CorrectionDependency).
Context (Hkeys : forall id d, by_id !! id = Some d -> cd_ID d = id).

Definition needs (a b : string) : Prop := exists d, by_id !! a = Some d /\ b ∈ cd_DependsOn d.
(** A cycle, or a dependency that is not in the manifest. *)
Definition broken : Prop := (exists x, tc needs x x) \/ (exists x y, needs x y /\ by_id !! y = None).

(** Every impact comes after those it depends on. *)
Definition topological (l : list CorrectionImpact) : Prop :=
  forall l1 i l2, l = l1 ++ i :: l2 ->
    (exists d, by_id !! ci_ID i = Some d /\ i = impact_of d) /\ forall x, x ∈ ci_DependsOn i -> x ∈ ci_ID <$> l1.

Record visit_ok (st : visiting) : Prop := {
  vo_marks : forall id, mark st id = 0 \/ mark st id = 1 \/ mark st id = 2;
  vo_done : forall id, mark st id = 2 <-> id ∈ ci_ID <$> vs_ordered st;
  vo_NoDup : NoDup (ci_ID <$> vs_ordered st);
  vo_order : topological (vs_ordered st)
}.

(** What a visit leaves: the open nodes stay, done nodes stay done. *)
Definition visited (st st' : visiting) : Prop :=
  visit_ok st' /\ (forall x, mark st' x = 1 <-> mark st x = 1) /\ (forall x, mark st x = 2 -> mark st' x = 2).

Definition white (st : visiting) : nat := length (filter (fun id => mark st id <> 1) (elements (dom by_id))).

Definition visit_result (ids : list string) (st : visiting) (m : outcome balance_err visiting) : Prop :=
  match m with
  | Ok st' => visited st st' /\ Forall (fun id => mark st' id = 2) ids
  | Err e => e = ErrCorrectionInvalid /\ broken
  | Panic => False
  end.

(** Where a visit may start. *)
Definition startable (st : visiting) (id : string) : Prop :=
  (is_Some (by_id !! id) \/ exists x, needs x id) /\ forall g, mark st g = 1 -> tc needs g id.

Lemma white_le st st' : (forall x, mark st x = 1 -> mark st' x = 1) -> (white st' <= white st)%nat.
Proof. intros H. apply filter_length_le. naive_solver. Qed.

Lemma visit_each_result (f : string -> visiting -> outcome balance_err visiting) ids : forall st,
  (forall id st0, (white st0 <= white st)%nat -> visit_ok st0 -> startable st0 id -> visit_result [id] st0 (f id st0)) ->
  visit_ok st -> Forall (startable st) ids -> visit_result ids st (visit_each f ids st).
Proof.
  induction ids as [|id ids IH]; intros st Hf Hok Hst; cbn [visit_each].
  { split; [|constructor]. split; [done|]. by split. }
  apply Forall_cons in Hst as [Hid Hids]. specialize (Hf id st ltac:(lia) Hok Hid) as Hr.
  destruct (f id st) as [st1|e|]; cbn [mbind outcome_bind]; [|done|done]. destruct Hr as [(Hok1 & Hgray & Hdone) Hm]. rewrite Forall_singleton in Hm.
  assert (Hw : (white st1 <= white st)%nat) by (apply white_le; naive_solver).
  assert (IH1 : visit_result ids st1 (visit_each f ids st1)).
  { apply IH; [intros id' st0 Hw0 ? ?; apply Hf; [lia|done|done]|done|].
    eapply Forall_impl; [exact Hids|]. intros x [Hx1 Hx2]. split; [done|]. intros g Hg. by apply Hx2, Hgray. }
  destruct (visit_each f ids st1) as [st2|e|]; [|done|done]. destruct IH1 as [IH1 IH2].
  destruct IH1 as (Hok2 & Hgray2 & Hdone2). split; [split; [done|]; split|].
  - intros x. by rewrite Hgray2, Hgray.
  - intros x Hx. by apply Hdone2, Hdone.
  - constructor; [by apply Hdone2|done].
Qed.

Lemma needs_known a b : needs a b -> is_Some (by_id !! a).
Proof. intros (d & Hd & _). by eexists. Qed.

(** Opening a node that is not marked. *)
Definition opened (id : string) (st : visiting) : visiting := mkVisiting (<[id := 1]> (vs_state st)) (vs_ordered st).

Lemma mark_insert id v m l x : mark (mkVisiting (<[id := v]> m) l) x = if decide (x = id) then v else mark (mkVisiting m l) x.
Proof. unfold mark. cbn [vs_state]. destruct (decide (x = id)) as [->|]; [by rewrite lookup_insert_eq|by rewrite lookup_insert_ne]. Qed.

Lemma mark_opened id st x : mark (opened id st) x = if decide (x = id) then 1 else mark st x.
Proof. apply mark_insert. Qed.

Lemma opened_ok id st : visit_ok st -> mark st id = 0 -> visit_ok (opened id st).
Proof.
  intros [H1 H2 H3 H4] H0. constructor; [| |done..].
  - intros x. rewrite mark_opened. case_decide; [by right; left|apply H1].
  - intros x. rewrite mark_opened. case_decide as Hx; [subst x|apply H2]. split; [done|]. intros Hin. apply H2 in Hin. congruence.
Qed.

Lemma opened_white id st : is_Some (by_id !! id) -> mark st id = 0 -> (white (opened id st) < white st)%nat.
Proof.
  intros Hid H0. unfold white. assert (Hin : id ∈ elements (dom by_id)) by (by apply elem_of_elements, elem_of_dom).
  pose proof (NoDup_elements (dom by_id)) as Hnd. revert Hin Hnd. generalize (elements (dom by_id)). intros l.
  induction l as [|x l IH]; intros Hin Hnd; [by apply not_elem_of_nil in Hin|]. apply NoDup_cons in Hnd as [Hx Hnd]. rewrite !filter_cons, mark_opened.
  destruct (decide (x = id)) as [->|Hne].
  - rewrite decide_False by (intros H; by apply H). rewrite decide_True by (rewrite H0; done). cbn [length].
    assert (Hle : (length (filter (fun y => mark (opened id st) y <> 1%Z) l) <= length (filter (fun y => mark st y <> 1%Z) l))%nat); [|lia].
    apply filter_length_le. intros y. rewrite mark_opened. case_decide; [by intros []|done].
  - apply elem_of_cons in Hin as [?|Hin]; [by subst|]. specialize (IH Hin Hnd). destruct (decide (mark st x <> 1)); cbn [length]; lia.
Qed.

(** Closing a node after its dependencies. *)
Lemma closed_ok id d st st' : by_id !! id = Some d -> visit_ok st -> mark st id = 0 -> visited (opened id st) st' ->
  Forall (fun x => mark st' x = 2) (sort_Strings (cd_DependsOn d)) ->
  visited st (mkVisiting (<[id := 2]> (vs_state st')) (vs_ordered st' ++ [impact_of d])) /\
  mark (mkVisiting (<[id := 2]> (vs_state st')) (vs_ordered st' ++ [impact_of d])) id = 2.
Proof.
  intros Hd Hok H0 ([H1 H2 H3 H4] & Hgray & Hdone) Hdeps. pose proof (Hkeys id d Hd) as Hid.
  assert (Hm : forall x, mark (mkVisiting (<[id := 2]> (vs_state st')) (vs_ordered st' ++ [impact_of d])) x = if decide (x = id) then 2 else mark st' x).
  { intros x. rewrite mark_insert. by destruct st'. }
  assert (Hid1 : mark st' id = 1) by (apply Hgray; by rewrite mark_opened, decide_True).
  split; [split; [constructor|split]|by rewrite Hm, decide_True].
  - intros x. rewrite Hm. case_decide; [by right; right|apply H1].
  - intros x. rewrite Hm. cbn [vs_ordered]. rewrite fmap_app, elem_of_app, <- H2. cbn [fmap list_fmap impact_of ci_ID]. rewrite Hid, list_elem_of_singleton.
    case_decide as Hx; [subst x; split; [by right|done]|]. split; [by left|by intros [?|?]].
  - cbn [vs_ordered]. rewrite fmap_app. apply NoDup_app. split; [done|]. split; [|apply NoDup_singleton].
    intros x Hx. cbn [fmap list_fmap impact_of ci_ID]. rewrite Hid, list_elem_of_singleton. intros ->. apply H2 in Hx. congruence.
  - cbn [vs_ordered]. intros l1 i l2 E. destruct (decide (l2 = [])) as [->|Hl2].
    + apply app_inj_tail in E as [E <-]. subst l1. split; [exists d; cbn [impact_of ci_ID]; by rewrite Hid|]. cbn [impact_of ci_DependsOn].
      intros x Hx. apply H2. rewrite Forall_forall in Hdeps. by apply Hdeps.
    + destruct (exists_last Hl2) as (l3 & j & ->). rewrite app_comm_cons, app_assoc in E. apply app_inj_tail in E as [E _].
      by apply (H4 l1 i l3).
  - intros x. rewrite Hm. case_decide as Hx; [subst x; rewrite H0; split; done|]. rewrite Hgray, mark_opened. by rewrite decide_False.
  - intros x Hx. rewrite Hm. case_decide; [done|]. apply Hdone. rewrite mark_opened. by rewrite decide_False.
Qed.

Lemma order_visit_spec fuel : forall id st, (white st < fuel)%nat -> visit_ok st -> startable st id -> visit_result [id] st (visit fuel by_id id st).
Proof.
  induction fuel as [|fuel IH]; intros id st Hw Hok (Hstart & Hgray); [lia|]. cbn [visit].
  destruct (vo_marks st Hok id) as [H0|[H1|H2]].
  - rewrite H0. cbn [Z.eqb]. destruct (by_id !! id) as [d|] eqn:Hd.
    2:{ split; [done|]. right. destruct Hstart as [[? ?]|[x Hx]]; [done|]. by exists x, id. }
    pose proof (opened_white id st ltac:(by eexists) H0) as Hlt. pose proof (opened_ok id st Hok H0) as Hok1.
    assert (Hr : visit_result (sort_Strings (cd_DependsOn d)) (opened id st) (visit_each (visit fuel by_id) (sort_Strings (cd_DependsOn d)) (opened id st))).
    { apply visit_each_result; [intros id' st0 Hw0 ? ?; apply IH; [lia|done..]|done|]. apply Forall_forall. intros x Hx. rewrite elem_of_sort_Strings in Hx.
      assert (Hneed : needs id x) by (by exists d). split; [right; by exists id|]. intros g. rewrite mark_opened. case_decide as Hg.
      - intros _. subst g. by apply tc_once.
      - intros Hg1. eapply tc_r; [by apply Hgray|done]. }
    unfold opened in Hr at 2. destruct (visit_each _ _ _) as [st'|e|]; cbn [mbind outcome_bind]; [|done|done]. destruct Hr as [Hv Hdeps].
    destruct (closed_ok id d st st' Hd Hok H0 Hv Hdeps) as [Hc Hm]. split; [exact Hc|by rewrite Forall_singleton].
  - rewrite H1. cbn [Z.eqb]. split; [done|]. left. exists id. by apply Hgray.
  - rewrite H2. cbn [Z.eqb]. split; [by split|]. by rewrite Forall_singleton.
Qed.

(** The visit of the whole manifest. *)
Lemma visit_all_result : match visit_each (visit (S (size by_id)) by_id) (sort_Strings (elements (dom by_id))) (mkVisiting ∅ []) with
  | Ok st => ci_ID <$> vs_ordered st ≡ₚ elements (dom by_id) /\ topological (vs_ordered st)
  | Err e => e = ErrCorrectionInvalid /\ broken
  | Panic => False
  end.
Proof.
  set (st0 := mkVisiting ∅ []).
  assert (Hmark : forall x, mark st0 x = 0) by (intros x; unfold mark; cbn; by rewrite lookup_empty).
  assert (Hok : visit_ok st0).
  { constructor; [intros x; by left| |constructor|by intros []]. intros x. rewrite Hmark. cbn. split; [done|]. by intros ?%not_elem_of_nil. }
  assert (Hr : visit_result (sort_Strings (elements (dom by_id))) st0 (visit_each (visit (S (size by_id)) by_id) (sort_Strings (elements (dom by_id))) st0)).
  { apply visit_each_result; [|done|].
    - intros id st Hw ? ?. apply order_visit_spec; [|done..]. eapply Nat.le_lt_trans; [exact Hw|]. unfold white.
      rewrite <- size_dom. unfold size, set_size. cbn. pose proof (length_filter (fun id => mark st0 id <> 1) (elements (dom by_id))). lia.
    - apply Forall_forall. intros x Hx. rewrite elem_of_sort_Strings, elem_of_elements, elem_of_dom in Hx. split; [by left|]. intros g. by rewrite Hmark. }
  destruct (visit_each _ _ _) as [st|e|]; [|done|done]. destruct Hr as [([H1 H2 H3 H4] & Hgray & _) Hall]. split; [|done].
  apply NoDup_Permutation; [done|apply NoDup_elements|]. intros x. split.
  - intros Hx. apply list_elem_of_fmap in Hx as (i & -> & Hi). apply list_elem_of_split in Hi as (l1 & l2 & E).
    destruct (H4 _ _ _ E) as [(d & Hd & _) _]. apply elem_of_elements, elem_of_dom. by eexists.
  - intros Hx. apply H2. rewrite Forall_forall in Hall. apply Hall. by rewrite elem_of_sort_Strings.
Qed.

End visits.

(** * The manifest *)

Section manifest.
Context `{CM : CaseMapping}.

Definition keyed (m : gmap string CorrectionDependency) : Prop := forall id d, m !! id = Some d -> cd_ID d = id /\ named d = true.

Lemma named_ID d : named d = true -> cd_ID d <> "".
Proof. unfold named. intros H E. by rewrite E in H. Qed.

Lemma taken_false m d : keyed m -> named d = true -> taken m (cd_ID d) = false <-> m !! cd_ID d = None.
Proof.
  intros Hm Hd. unfold taken. destruct (m !! cd_ID d) as [d'|] eqn:E; [|done]. destruct (Hm _ _ E) as [E' _]. rewrite E'.
  split; [|done]. intros H. exfalso. apply negb_false_iff, String.eqb_eq in H. by apply (named_ID d).
Qed.

(** An index holds the dependencies it was built from, each under its own
    identity. *)
Definition indexes (m0 m : gmap string CorrectionDependency) (ds : list CorrectionDependency) : Prop :=
  keyed m /\ NoDup (cd_ID <$> ds) /\ Forall (fun d => m0 !! cd_ID d = None) ds /\
  (forall id d, m !! id = Some d <-> m0 !! id = Some d \/ d ∈ ds /\ cd_ID d = id).

Lemma indexes_step m0 d m ds : keyed m0 -> m0 !! cd_ID d = None -> indexes (<[cd_ID d := d]> m0) m ds -> indexes m0 m (d :: ds).
Proof.
  intros Hm0 Hd (H1 & H2 & H3 & H4). split; [done|]. rewrite Forall_forall in H3.
  assert (Hnew : forall x, x ∈ ds -> cd_ID x <> cd_ID d).
  { intros x Hx E. specialize (H3 x Hx). by rewrite E, lookup_insert_eq in H3. }
  split; [|split].
  - cbn. apply NoDup_cons. split; [|done]. intros (x & E & Hx)%list_elem_of_fmap. by apply (Hnew x).
  - constructor; [done|]. apply Forall_forall. intros x Hx. specialize (H3 x Hx). rewrite lookup_insert_ne in H3 by (intros E; by apply (Hnew x)). done.
  - intros id x. rewrite H4, elem_of_cons. destruct (decide (cd_ID d = id)) as [<-|Hne].
    + rewrite lookup_insert_eq, Hd. split; [intros [[= <-]|[? ?]]; [right; by split; [left|]|right; by split; [right|]]|intros [[=]|[[-> | ?] ?]]; [by left|right; by split]].
    + rewrite lookup_insert_ne by done. split; [intros [?|[? ?]]; [by left|right; by split; [right|]]|intros [?|[[-> | ?] ?]]; [by left|done|right; by split]].
Qed.

Lemma keyed_insert m d : keyed m -> named d = true -> keyed (<[cd_ID d := d]> m).
Proof. intros Hm Hd id x [[<- <-]|[_ Hx]]%lookup_insert_Some; [done|by apply Hm]. Qed.

Lemma index_requested_ok ds : forall m0 m, keyed m0 -> index_requested m0 ds = Ok m ->
  indexes m0 m ds /\ Forall (fun d => named d = true /\ (cd_State d = "" \/ cd_State d = ReconciliationRequired)) ds.
Proof.
  induction ds as [|d ds IH]; intros m0 m Hm0 H; cbn [index_requested] in H.
  { injection H as <-. split; [|constructor]. split; [done|]. split; [constructor|]. split; [constructor|].
    intros id d. split; [by left|]. intros [?|[?%not_elem_of_nil _]]; done. }
  apply bind_ok_inv in H as (u1 & [Hn Ht]%fail_if_ok%orb_false_iff & H). apply bind_ok_inv in H as (u2 & Hs%fail_if_ok%andb_false_iff & H).
  rewrite negb_false_iff in Hn. rewrite !negb_false_iff, !String.eqb_eq in Hs. apply taken_false in Ht; [|done..].
  destruct (IH _ _ (keyed_insert _ _ Hm0 Hn) H) as [Hi Hf]. split; [by apply indexes_step|by constructor].
Qed.

Lemma index_expected_ok ds : forall m0 m, keyed m0 -> index_expected m0 ds = Ok m -> indexes m0 m ds.
Proof.
  induction ds as [|d ds IH]; intros m0 m Hm0 H; cbn [index_expected] in H.
  { injection H as <-. split; [done|]. split; [constructor|]. split; [constructor|].
    intros id d. split; [by left|]. intros [?|[?%not_elem_of_nil _]]; done. }
  apply bind_ok_inv in H as (u1 & Hc%fail_if_ok & H). rewrite !orb_false_iff, !negb_false_iff in Hc. destruct Hc as [[Hn Ht] _].
  apply taken_false in Ht; [|done..]. apply indexes_step; [done..|]. by apply IH; [apply keyed_insert|].
Qed.

Lemma keyed_empty : keyed ∅.
Proof. by intros id d ?%lookup_empty_Some. Qed.

(** The trusted dependency an impact was pinned to. *)
Definition trusted (expected : list CorrectionDependency) (d : CorrectionDependency) : Prop :=
  exists want, want ∈ expected /\ cd_ID want = cd_ID d /\ cd_Owner d = cd_Owner want /\ cd_Version d = cd_Version want /\ cd_DependsOn d ≡ₚ cd_DependsOn want.

Lemma sameDependencies_true a b : sameDependencies a b = true -> a ≡ₚ b.
Proof. unfold sameDependencies. intros H%bool_decide_eq_true. by rewrite <- (sort_Strings_Permutation a), H, sort_Strings_Permutation. Qed.

Lemma index_no_panic ds : (forall m, index_requested m ds <> Panic) /\ (forall m, index_expected m ds <> Panic).
Proof. induction ds as [|d ds [IH1 IH2]]; split; intros m; cbn [index_requested index_expected]; no_panic. Qed.

(** Ordering the impacts of a correction never panics, so its recursion
    ends.  The order it returns has one impact for every requested dependent,
    pinned to a member of the trusted manifest of the same owner, version and
    dependencies, each after all it depends on and none claimed as done; the
    manifest covers the four required owners.  Every refusal is one error. *)
Theorem impacts_ordered (expected requested : list CorrectionDependency) :
  orderImpacts expected requested <> Panic /\
  (forall e, orderImpacts expected requested = Err e -> e = ErrCorrectionInvalid) /\
  forall impacts, orderImpacts expected requested = Ok impacts ->
    ci_ID <$> impacts ≡ₚ cd_ID <$> requested /\
    (forall l1 i l2, impacts = l1 ++ i :: l2 ->
       (exists d, d ∈ requested /\ trusted expected d /\ i = impact_of d /\ ci_State i = ReconciliationRequired) /\
       forall x, x ∈ ci_DependsOn i -> x ∈ ci_ID <$> l1) /\
    (forall owner, owner ∈ required_owners -> exists d, d ∈ expected /\ owner_key d = owner).
Proof.
  unfold orderImpacts. split; [|split].
  - apply bind_no_panic; [auto with panics|intros _ _]. apply bind_no_panic; [apply index_no_panic|intros by_id Hby].
    apply index_requested_ok in Hby as [Hi _]; [|apply keyed_empty]. apply bind_no_panic; [apply index_no_panic|intros eb _].
    do 2 (apply bind_no_panic; [auto with panics|intros _ _]). apply bind_no_panic; [|done].
    pose proof (visit_all_result by_id (fun id d H => proj1 (proj1 Hi id d H))) as Hv. by destruct (visit_each _ _ _).
  - intros e H. apply bind_err_inv in H as [H|(u1 & _ & H)]; [by apply fail_if_err in H|].
    assert (Hr : forall ds m e', index_requested m ds = Err e' -> e' = ErrCorrectionInvalid).
    { induction ds as [|d ds IH]; intros m e' He; cbn [index_requested] in He; [done|].
      repeat (apply bind_err_inv in He as [He|(? & _ & He)]; [by apply fail_if_err in He|]). by eapply IH. }
    assert (He : forall ds m e', index_expected m ds = Err e' -> e' = ErrCorrectionInvalid).
    { induction ds as [|d ds IH]; intros m e' He; cbn [index_expected] in He; [done|].
      apply bind_err_inv in He as [He|(? & _ & He)]; [by apply fail_if_err in He|]. by eapply IH. }
    apply bind_err_inv in H as [H|(by_id & Hby & H)]; [by apply Hr in H|]. apply index_requested_ok in Hby as [Hi _]; [|apply keyed_empty].
    apply bind_err_inv in H as [H|(eb & _ & H)]; [by apply He in H|]. do 2 (apply bind_err_inv in H as [H|(? & _ & H)]; [by apply fail_if_err in H|]).
    apply bind_err_inv in H as [H|(st & _ & [=])].
    pose proof (visit_all_result by_id (fun id d H => proj1 (proj1 Hi id d H))) as Hv. rewrite H in Hv. apply Hv.
  - intros impacts H. apply bind_ok_inv in H as (u1 & _ & H). apply bind_ok_inv in H as (by_id & Hby & H).
    apply index_requested_ok in Hby as [(Hk & Hnd & _ & Hmem) Hst]; [|apply keyed_empty]. apply bind_ok_inv in H as (eb & Heb & H).
    apply index_expected_ok in Heb as (_ & _ & _ & Hemem); [|apply keyed_empty]. apply bind_ok_inv in H as (u2 & Hown%fail_if_ok & H).
    apply bind_ok_inv in H as (u3 & Htr%fail_if_ok & H). apply bind_ok_inv in H as (st & Hv & H). injection H as <-.
    pose proof (visit_all_result by_id (fun id d H => proj1 (Hk id d H))) as Hr. rewrite Hv in Hr. destruct Hr as [Hperm Htop].
    assert (Hin : forall id d, by_id !! id = Some d <-> d ∈ requested /\ cd_ID d = id).
    { intros id d. rewrite Hmem, lookup_empty. naive_solver. }
    rewrite negb_false_iff, forallb_forall in Hown, Htr. split; [|split].
    + rewrite Hperm. apply NoDup_Permutation; [apply NoDup_elements|done|]. intros x. rewrite elem_of_elements, elem_of_dom, list_elem_of_fmap.
      split; [intros [d [Hd Hx]%Hin]; by exists d|intros (d & -> & Hd); exists d; by apply Hin].
    + intros l1 i l2 E. destruct (Htop l1 i l2 E) as [(d & Hd & Hi) Hx]. split; [|done]. pose proof Hd as [Hreq Hid]%Hin. exists d. split; [done|].
      split; [|split; [done|]].
      * specialize (Htr (ci_ID i, d) (proj1 (list_elem_of_In _ _) (proj2 (elem_of_map_to_list _ _ _) Hd))). cbn in Htr.
        destruct (eb !! ci_ID i) as [want|] eqn:Ew; [|done]. apply Hemem in Ew as [Ew|[Ew1 Ew2]]; [by rewrite lookup_empty in Ew|].
        rewrite !andb_true_iff, !String.eqb_eq in Htr. destruct Htr as [[Ho Hver] Hdeps]. exists want. split_and!; try done; [congruence|by apply sameDependencies_true].
      * rewrite Forall_forall in Hst. destruct (Hst d Hreq) as [_ Hs]. rewrite Hi. cbn [impact_of ci_State].
        destruct (String.eqb_spec (cd_State d) ""); [done|]. by destruct Hs.
    + intros owner Ho. specialize (Hown owner (proj1 (list_elem_of_In _ _) Ho)). apply existsb_exists in Hown as (d & Hd%list_elem_of_In & E%String.eqb_eq).
      by exists d.
Qed.

End manifest.

(** * What a correction does *)

Section correction_facts.
Context `{B : DecimalBackend} `{L : !DecimalBackendLaws B} `{CM : CaseMapping} `{CF : CaseFolding} `{SHA : Sha256}.

(** The entries of a ledger that are the original, and that correct it. *)
Definition occurrences (original : BalanceEntry) (ledger : list BalanceEntry) : list BalanceEntry := filter (fun e => same_entry original e = true) ledger.
Definition corrections (original : BalanceEntry) (ledger : list BalanceEntry) : list BalanceEntry := filter (fun e => corrects original e = true) ledger.

Lemma find_lineage_ok original ledger : forall found prior out, find_lineage original found prior ledger = Ok out ->
  (length (occurrences original ledger) + (if found then 1 else 0) <= 1)%nat /\
  fst out = found || negb (length (occurrences original ledger) =? 0)%nat /\
  option_list (snd out) = option_list prior ++ corrections original ledger.
Proof.
  induction ledger as [|e ledger IH]; intros found prior out H; cbn [find_lineage] in H.
  { injection H as <-. cbn. rewrite app_nil_r, orb_false_r. split; [destruct found; lia|done]. }
  apply bind_ok_inv in H as (found' & Hf & H). apply bind_ok_inv in H as (prior' & Hp & H). destruct (IH _ _ _ H) as (H1 & H2 & H3).
  unfold occurrences, corrections. rewrite !filter_cons. fold (occurrences original ledger) (corrections original ledger).
  assert (Hocc : (length (if decide (same_entry original e = true) then e :: occurrences original ledger else occurrences original ledger) + (if found then 1 else 0) <= 1)%nat /\
    found' || negb (length (occurrences original ledger) =? 0)%nat =
    found || negb (length (if decide (same_entry original e = true) then e :: occurrences original ledger else occurrences original ledger) =? 0)%nat).
  { destruct (same_entry original e); [rewrite decide_True by done|rewrite decide_False by done].
    - destruct found; cbn in Hf; [done|]. injection Hf as <-. cbn [length] in *. split; [lia|done].
    - injection Hf as <-. done. }
  destruct Hocc as [Ho1 Ho2]. split; [done|]. split; [congruence|]. rewrite H3.
  destruct (corrects original e); [rewrite decide_True by done|rewrite decide_False by done].
  - destruct prior; [done|]. injection Hp as <-. done.
  - by injection Hp as <-.
Qed.

(** The signed value of an entry. *)
Definition signed_of (e : BalanceEntry) : Z := direction (e_Kind e) * Decimal_signed (e_Amount e).

Lemma correction_delta_ok original corrected kind x : dec_wf (e_Amount original) -> dec_wf (e_Amount corrected) ->
  correction_delta original corrected = Ok (kind, x) ->
  (kind = Debit \/ kind = Credit) /\ amt (d_scale (e_Amount corrected)) x /\ 0 < Decimal_signed x /\
  direction kind * Decimal_signed x = signed_of corrected - signed_of original.
Proof.
  intros Ho Hc H. unfold correction_delta in H. apply bind_ok_inv in H as (o & H1 & H). apply bind_ok_inv in H as (n & H2 & H).
  apply signed_direction in H1 as [_ (How & Hos & Hov)], H2 as [_ (Hnw & Hns & Hnv)]; [|done..].
  apply bind_ok_inv in H as (d & Hd%or_reject_ok & H). apply Sub_ok_inv in Hd as (_ & _ & _ & (Hdw & Hds & Hdv)). rewrite Hns in Hds.
  apply bind_ok_inv in H as (u & Hz%fail_if_ok & H). unfold Decimal_IsZero in Hz. rewrite (Sign_amount d Hdw) in *.
  rewrite Hov, Hnv in Hdv. fold (signed_of corrected) (signed_of original) in Hdv.
  destruct (Z.ltb_spec (Z.sgn (Decimal_signed d)) 0) as [Hneg|Hpos].
  - rewrite Neg_amount in H by done. cbn [or_reject map_err mbind outcome_bind] in H. injection H as <- <-. split; [by left|].
    rewrite Decimal_signed_dec_of. change (direction Debit) with (-1). split; [|lia].
    destruct (dec_wf_scale _ Hdw). apply (amount_signed _ _ (- Decimal_signed d)). rewrite <- Hds. apply amount_dec_of; [|done..].
    rewrite Z.abs_opp. by apply dec_wf_bound.
  - injection H as <- <-. split; [by right|]. change (direction Credit) with 1. split; [by split|lia].
Qed.

(** Evidence binds the corrected balance and the pinned version. *)
Definition settles (req : RetroCorrectionRequest) (balance : AuthorizedBalance) (correction : BalanceEntry)
    (settled : list CorrectionImpact) (i i' : CorrectionImpact) : Prop :=
  match rc_Recalculators req !! ci_ID i with
  | Some (Some recalculate) => exists evidence,
      recalculate (mkContext (rc_Definition req) (mkDependency (ci_ID i) (ci_Owner i) (ci_Version i) (ci_DependsOn i) "") correction balance settled) = Some evidence /\
      ev_Version evidence = ci_Version i /\ ev_InputDigest evidence = ab_Digest balance /\ ab_Digest balance <> "" /\ is_blank (ev_Digest evidence) = false /\
      i' = mkImpact (ci_ID i) (ci_Owner i) (ci_Version i) (ci_DependsOn i) RecalculationComplete (ev_Digest evidence)
  | _ => i' = i
  end.

Lemma recalculate_one_ok req balance correction settled i i' :
  recalculate_one req balance correction settled i = Ok i' -> settles req balance correction settled i i'.
Proof.
  unfold recalculate_one, settles. destruct (rc_Recalculators req !! ci_ID i) as [[f|]|]; [|by intros [= <-]..].
  destruct (f _) as [evidence|]; [|done]. rewrite !bind_unit_ok, !fail_if_ok_iff, orb_false_iff, !negb_false_iff, !String.eqb_eq, String.eqb_neq.
  intros (Hv & [Hne Hd] & Hb & [= <-]). exists evidence. split_and!; try done. congruence.
Qed.

Lemma recalculate_loop_ok req balance correction impacts : forall settled out, recalculate_loop req balance correction settled impacts = Ok out ->
  exists rest, out = settled ++ rest /\ length rest = length impacts /\
    forall k i i', impacts !! k = Some i -> rest !! k = Some i' -> settles req balance correction (settled ++ take k rest) i i'.
Proof.
  induction impacts as [|i impacts IH]; intros settled out H; cbn [recalculate_loop] in H.
  { injection H as <-. exists []. by rewrite app_nil_r. }
  apply bind_ok_inv in H as (i' & Hi%recalculate_one_ok & H). destruct (IH _ _ H) as (rest & -> & Hlen & Hall).
  exists (i' :: rest). rewrite <- app_assoc. split; [done|]. split; [cbn; lia|]. intros [|k] x x' Hx Hx'; cbn in Hx, Hx'.
  - injection Hx as <-. injection Hx' as <-. cbn [take]. by rewrite app_nil_r.
  - cbn [take]. specialize (Hall k x x' Hx Hx'). by rewrite <- app_assoc in Hall.
Qed.

(** A correction found its original exactly once in the ledger and at most
    one earlier correction of it.  The entry it appends supersedes the
    original and is worth the corrected value minus the original one, as a
    positive amount of a kind; the balance it returns is the authorized
    balance of the ledger with that entry, so without an earlier correction it
    is the balance before plus the difference, and with one of the same
    content the ledger is left as it is.  The impacts are the ordered manifest;
    one is claimed as recalculated exactly when a recalculator was registered
    for it and its evidence binds this balance and the pinned version, given
    the settled impacts before it. *)
Theorem correction_settles (req : RetroCorrectionRequest) (r : RetroCorrectionResult) : ApplyRetroCorrection req = Ok r ->
  let original := rc_Original req in let corrected := rc_Corrected req in let correction := rr_Correction r in let ledger := rc_Ledger req in
  length (occurrences original ledger) = 1%nat /\ (length (corrections original ledger) <= 1)%nat /\
  rr_OriginalDigest r = BalanceEntry_Digest original /\ e_SupersedesDigest correction = BalanceEntry_Digest original /\
  0 < Decimal_signed (e_Amount correction) /\ signed_of correction = signed_of corrected - signed_of original /\
  (corrections original ledger = [] ->
     CalculateAuthorizedBalance (correction_request req) (ledger ++ [correction]) = Ok (rr_Balance r) /\
     forall pre, CalculateAuthorizedBalance (correction_request req) ledger = Ok pre ->
       Decimal_signed (ab_Ending (rr_Balance r)) = Decimal_signed (ab_Ending pre) + (signed_of corrected - signed_of original)) /\
  (forall p, corrections original ledger = [p] -> BalanceEntry_Digest p = BalanceEntry_Digest correction /\
     CalculateAuthorizedBalance (correction_request req) ledger = Ok (rr_Balance r)) /\
  (exists impacts, orderImpacts (rc_ExpectedDependencies req) (rc_Dependencies req) = Ok impacts /\
     length (rr_Impacts r) = length impacts /\
     (forall k i i', impacts !! k = Some i -> rr_Impacts r !! k = Some i' -> settles req (rr_Balance r) correction (take k (rr_Impacts r)) i i') /\
     forall id, is_Some (rc_Recalculators req !! id) -> id ∈ ci_ID <$> impacts).
Proof.
  intros H original corrected correction ledger. unfold ApplyRetroCorrection in H. fold original corrected ledger in H.
  apply bind_ok_inv in H as (u1 & _ & H). apply bind_ok_inv in H as ([] & Ho%or_reject_ok%entry_valid_iff & H).
  apply bind_ok_inv in H as ([] & Hc%or_reject_ok%entry_valid_iff & H). apply bind_ok_inv in H as (u4 & Hacc%fail_if_ok & H).
  apply bind_ok_inv in H as ([found prior] & Hl & H). apply find_lineage_ok in Hl as (Hle & Hfound & Hprior). cbn [fst snd orb] in Hfound, Hprior. change (option_list prior = corrections original ledger) in Hprior.
  apply bind_ok_inv in H as (u5 & Hf%fail_if_ok & H). apply bind_ok_inv in H as ([kind x] & Hdelta & H). cbn [fst snd] in H.
  apply bind_ok_inv in H as (u6 & _ & H). apply bind_ok_inv in H as (ledger' & Hled & H). apply bind_ok_inv in H as (u7 & Hset%fail_if_ok & H).
  apply bind_ok_inv in H as (u8 & _ & H). apply bind_ok_inv in H as (balance & Hb & H). apply bind_ok_inv in H as (impacts & Hi & H).
  apply bind_ok_inv in H as (impacts' & Hrec & H). apply bind_ok_inv in H as (digest & _ & H).
  assert (Hr : r = mkCorrectionResult (BalanceEntry_Digest original) (correction_of original corrected kind x) balance impacts' digest) by congruence.
  clear H. subst correction. rewrite Hr. cbn [rr_Correction rr_OriginalDigest rr_Balance rr_Impacts]. set (correction := correction_of original corrected kind x) in *.
  pose proof (proj1 (proj1 (proj2 (proj2 (proj2 (proj2 Ho)))))) as How. pose proof (proj1 (proj1 (proj2 (proj2 (proj2 (proj2 Hc)))))) as Hcw.
  destruct (correction_delta_ok _ _ _ _ How Hcw Hdelta) as (Hk & (Hxw & Hxs & _) & Hpos & Hval).
  rewrite Hfound, negb_involutive, Nat.eqb_neq in Hf. rewrite !orb_false_iff, !negb_false_iff in Hset. destruct Hset as [[Hs1 Hs2] Hs3].
  split; [lia|]. split; [rewrite <- Hprior; destruct prior; cbn; lia|]. do 3 (split; [done|]). split; [exact Hval|]. split; [|split].
  - intros Hnil. rewrite Hnil in Hprior. destruct prior; [done|]. cbn [corrected_ledger] in Hled. injection Hled as <-. split; [exact Hb|].
    intros pre Hpre. rewrite (calculate_append (correction_request req) correction ledger pre balance) by done. rewrite decide_True.
    + by rewrite <- Hval.
    + apply counts_itself; done.
  - intros p Hp. rewrite Hp in Hprior. destruct prior as [q|]; [|done]. injection Hprior as ->. cbn [corrected_ledger] in Hled.
    apply bind_ok_inv in Hled as (u & He%fail_if_ok & Hled). injection Hled as <-. by apply negb_false_iff, String.eqb_eq in He.
  - exists impacts. unfold recalculateDependents in Hrec. apply bind_ok_inv in Hrec as (u & Hm%fail_if_ok & Hrec).
    apply recalculate_loop_ok in Hrec as (rest & Hrest & Hlen & Hall). cbn [app] in Hrest. subst rest. split; [done|]. split; [done|]. split; [exact Hall|].
    intros id Hid. rewrite negb_false_iff, forallb_forall in Hm. specialize (Hm id (proj1 (list_elem_of_In _ _) (proj2 (elem_of_elements _ _) (proj2 (elem_of_dom _ _) Hid)))).
    by apply bool_decide_eq_true in Hm.
Qed.

End correction_facts.

(** * A concrete correction *)

Section sample_corrections.
#[local] Instance sample_correction_case : CaseMapping := {| unicode_lower := fun s => s; unicode_upper := fun s => s |}.
#[local] Instance sample_correction_folding : CaseFolding := {| unicode_equal_fold := String.eqb |}.
#[local] Instance sample_correction_sha : Sha256 := {| sha256_Sum256 := fun bs => [Z.of_nat (length bs) mod 256; foldr Z.add 0 bs mod 256] |}.

Definition manifest : list CorrectionDependency :=
  [mkDependency "pay" "payroll" "1" ["bal"] ""; mkDependency "bal" "balance" "1" [] ""; mkDependency "tax" "tax" "1" ["pay"] "";
   mkDependency "ben" "benefits" "1" ["pay"; "bal"] ""]%string.

Lemma impacts_ordered_witness :
  exists impacts, orderImpacts manifest manifest = Ok impacts /\ ci_ID <$> impacts = ["bal"; "pay"; "ben"; "tax"]%string /\
    ci_ID <$> impacts ≡ₚ cd_ID <$> manifest.
Proof.
  destruct (impacts_ordered manifest manifest) as (_ & _ & H).
  destruct (orderImpacts manifest manifest) as [impacts| |] eqn:E; [|vm_compute in E; discriminate E..].
  exists impacts. split; [reflexivity|]. destruct (H impacts eq_refl) as (Hperm & _). split; [|exact Hperm].
  vm_compute in E. injection E as <-. vm_compute. reflexivity.
Defined.

(** The recalculator of the balance; the others stay to be reconciled. *)
Definition recalculate_balance : DependentRecalculator :=
  fun ctx => Some (mkEvidence (ab_Digest (rx_Balance ctx)) (cd_Version (rx_Dependent ctx)) "sha256:done").
Definition posted_accrual : BalanceEntry := posted_entry Credit "k1" 800 200.
Definition corrected_accrual : BalanceEntry := posted_entry Credit "k1-fix" 500 400.
Definition sample_correction : RetroCorrectionRequest :=
  mkCorrectionRequest leave_definition posted_accrual corrected_accrual [posted_accrual] (dec_of 0 2 RoundingHalfUp) manifest manifest
    {["bal" := Some recalculate_balance]}.

Lemma correction_settles_witness :
  exists r, ApplyRetroCorrection sample_correction = Ok r /\ signed_of (rr_Correction r) = - 300 /\
    ci_State <$> rr_Impacts r = [RecalculationComplete; ReconciliationRequired; ReconciliationRequired; ReconciliationRequired].
Proof.
  destruct (ApplyRetroCorrection sample_correction) as [r| |] eqn:E; [|vm_compute in E; discriminate E..].
  exists r. split; [reflexivity|]. destruct (correction_settles sample_correction r E) as (_ & _ & _ & _ & _ & Hval & _). rewrite Hval.
  split; [vm_compute; reflexivity|]. vm_compute in E. injection E as <-. vm_compute. reflexivity.
Defined.

End sample_corrections.
