(* ===== verification/BalanceExplain.v ===== *)
(** Explaining a balance: [internal/domains/balance/explain.go].

    An explanation tells the whole derivation of a balance and masks the
    identity of what the caller may not see.  The theorem says that an
    explanation adds up whatever it masks, and what it masks of contributors
    and excluded entries; a lemma exhibits two lists that keep masked keys. *)

From S2P Require Import Prelude GoStrings Sorting CanonicalBytes FixedDecimal DecimalAmounts CivilTime BalanceEntries BalanceAsOf BalanceRules BalanceLifecycle BalanceCorrection.

Local Open Scope Z_scope.

Definition stateDefinitionInvalid : string := "DEFINITION_INVALID".
Definition stateMissingDimension : string := "MISSING_DIMENSION".
Definition stateMissingCorrection : string := "MISSING_CORRECTION".
Definition stateMissingRules : string := "MISSING_RULES".
Definition stateMissingLifecycle : string := "MISSING_LIFECYCLE".
Definition stateDigestMismatch : string := "DIGEST_MISMATCH".
Definition stateTotalMismatch : string := "TOTAL_MISMATCH".
Definition stateRevisionMismatch : string := "REVISION_MISMATCH".
Definition stateAccountMismatch : string := "ACCOUNT_MISMATCH".
Definition stateUnevidencedCompletion : string := "UNEVIDENCED_COMPLETION".
Definition stateInvalidImpact : string := "INVALID_IMPACT".
Definition redactedToken : string := "REDACTED".

Record ExplanationContributor : Type := mkContributor {
  xc_Digest : string; xc_Kind : EntryKind; xc_Amount : Decimal; xc_EntryType : string; xc_Adjustment : bool; xc_IdempotencyKey : string;
  xc_SourceTransactionID : string; xc_Dimensions : gmap string string; xc_SupersedesDigest : string; xc_Redacted : bool
}.

Record ExplanationRequest : Type := mkExplanationRequest {
  xq_Definition : AccumulatorDefinition; xq_Balance : AuthorizedBalance; xq_Rules : RuleApplicationResult; xq_Lifecycle : LifecycleResult;
  xq_Impacts : list CorrectionImpact; xq_CanView : option (BalanceEntry -> bool)
}.

Record BalanceExplanation : Type := mkBalanceExplanation {
  be_AccountID : string; be_DefinitionID : string; be_DefinitionVersion : string; be_Authority : Authority; be_Opening : Decimal;
  be_Contributors : list ExplanationContributor; be_Excluded : list ExcludedEntry; be_Floor : PolicyRule; be_Cap : PolicyRule;
  be_RuleDecisions : list RuleDecision; be_RuleAdjustments : list RuleAdjustment; be_RulesDigest : string; be_Expiry : PolicyRule;
  be_Rollover : PolicyRule; be_Expired : Decimal; be_Carried : Decimal; be_LifecycleEntries : list LifecycleEntry;
  be_LifecycleExposition : list LifecycleExplanation; be_LifecycleDigest : string; be_Correction : PolicyRule;
  be_CorrectionDigests : list string; be_Impacts : list CorrectionImpact; be_Ending : Decimal; be_Redacted : Z; be_Digest : string
}.

(** [BalanceEntry{Kind: kind, Amount: amount}]. *)
Definition bare_movement (kind : EntryKind) (amount : Decimal) : BalanceEntry :=
  mkEntry "" "" "" "" "" "" "" ∅ kind amount "" "" "" Instant_zero_value Instant_zero_value Instant_zero_value "".

Definition rejectExplanation (field state version : string) : balance_err := ErrExplanationRejected field state version.

(** [masked.Dimensions[k] = redactedToken] for every key. *)
Definition mask_dimensions (m : gmap string string) : gmap string string := (fun _ => redactedToken) <$> m.
Definition maskExplanationEntry (e : BalanceEntry) : BalanceEntry :=
  mkEntry (e_AccountID e) (e_DefinitionID e) (e_DefinitionVersion e) (e_Unit e) (e_Currency e) (e_Subject e) (e_Period e)
    (mask_dimensions (e_Dimensions e)) (e_Kind e) (e_Amount e) (e_EntryType e) redactedToken redactedToken (e_EffectiveAt e)
    (e_RecordedAt e) (e_AuthorizedAt e) (e_SupersedesDigest e).

Definition visible (req : ExplanationRequest) (e : BalanceEntry) : bool :=
  match xq_CanView req with None => true | Some can_view => can_view e end.

(** The keys of counted and excluded entries the caller may not see. *)
Definition denied_keys (req : ExplanationRequest) : gset string :=
  let bal := xq_Balance req in
  list_to_set (e_IdempotencyKey <$> filter (fun e => visible req e = false) (ab_Entries bal ++ ab_Adjustments bal ++ (x_Entry <$> ab_Excluded bal))).

Section explain.
Context `{B : DecimalBackend} `{CM : CaseMapping} `{CF : CaseFolding} `{SHA : Sha256}.

(** The balance after the contributions of entries, at the opening's scale
    and rounding. *)
Fixpoint run_total (scale : Z) (mode : RoundingMode) (running : Decimal) (es : list BalanceEntry) : outcome balance_err Decimal :=
  match es with
  | [] => Ok running
  | e :: rest =>
      delta ← contribution e scale mode;
      running' ← or_reject (Decimal_Add running delta) ErrBalanceRequestInvalid;
      run_total scale mode running' rest
  end.
Definition recomputed (opening : Decimal) (es : list BalanceEntry) : outcome balance_err Decimal :=
  running ← run_total (d_scale opening) (d_round opening) opening es;
  or_reject (Decimal_Quantize running (d_scale opening) (d_round opening)) ErrBalanceRequestInvalid.

(** [BalanceExplanation.Verify]. *)
Definition BalanceExplanation_Verify (x : BalanceExplanation) : bool :=
  is_ok (Decimal_Validate (be_Opening x)) &&
  match recomputed (be_Opening x) ((fun c => bare_movement (xc_Kind c) (xc_Amount c)) <$> be_Contributors x) with
  | Ok ending => Decimal_Equal ending (be_Ending x)
  | _ => false
  end.

(** One entry of the definition's revision, with exactly its dimensions. *)
Definition check_entry (def : AccumulatorDefinition) (field : string) (e : BalanceEntry) : outcome balance_err unit :=
  let missing := rejectExplanation (field +:+ ".dimensions") stateMissingDimension (ad_Version def) in
  _ ← fail_if (negb (String.eqb (e_DefinitionID e) (ad_ID def)) || negb (String.eqb (e_DefinitionVersion e) (ad_Version def)))
        (rejectExplanation (field +:+ ".definition") stateRevisionMismatch (ad_Version def));
  _ ← fail_if (negb (size (e_Dimensions e) =? length (ad_Dimensions def))%nat) missing;
  _ ← fail_if (existsb (dimension_missing e) (ad_Dimensions def)) missing;
  fail_if (negb (forallb (fun name => existsb (fun d => String.eqb (dim_Name d) name) (ad_Dimensions def)) (elements (dom (e_Dimensions e))))) missing.

Fixpoint check_entries (def : AccumulatorDefinition) (name : string) (i : Z) (es : list BalanceEntry) : outcome balance_err unit :=
  match es with
  | [] => Ok tt
  | e :: rest => _ ← check_entry def (indexed name i) e; check_entries def name (i + 1) rest
  end.

Definition checkExplanationCoherence (def : AccumulatorDefinition) (bal : AuthorizedBalance) : outcome balance_err unit :=
  _ ← check_entries def "contributors" 0 (ab_Entries bal);
  _ ← check_entries def "contributors" (Z.of_nat (length (ab_Entries bal))) (ab_Adjustments bal);
  check_entries def "excluded" 0 (x_Entry <$> ab_Excluded bal).

Definition check_impact (field version : string) (imp : CorrectionImpact) : outcome balance_err unit :=
  let member := if is_blank (ci_ID imp) then "id" else if is_blank (ci_Owner imp) then "owner" else "version" in
  _ ← fail_if (is_blank (ci_ID imp) || is_blank (ci_Owner imp) || is_blank (ci_Version imp))
        (rejectExplanation (field +:+ "." +:+ member) stateInvalidImpact version);
  if String.eqb (ci_State imp) RecalculationPending || String.eqb (ci_State imp) ReconciliationRequired then Ok tt
  else if String.eqb (ci_State imp) RecalculationComplete then
    fail_if (is_blank (ci_EvidenceDigest imp)) (rejectExplanation (field +:+ ".evidence") stateUnevidencedCompletion version)
  else Err (rejectExplanation (field +:+ ".state") stateInvalidImpact version).

Fixpoint check_impacts (version : string) (i : Z) (impacts : list CorrectionImpact) : outcome balance_err unit :=
  match impacts with
  | [] => Ok tt
  | imp :: rest => _ ← check_impact (indexed "corrections" i) version imp; check_impacts version (i + 1) rest
  end.
Definition checkExplanationImpacts (impacts : list CorrectionImpact) (version : string) : outcome balance_err unit := check_impacts version 0 impacts.

Definition checkExplanationTotal (bal : AuthorizedBalance) (version : string) : outcome balance_err unit :=
  match recomputed (ab_Opening bal) (ab_Entries bal ++ ab_Adjustments bal) with
  | Ok ending => fail_if (negb (Decimal_Equal ending (ab_Ending bal))) (rejectExplanation "ending" stateTotalMismatch version)
  | Err _ => Err (rejectExplanation "ending" stateTotalMismatch version)
  | Panic => Panic
  end.

Definition explainContributor (e : BalanceEntry) (adjustment : bool) (denied : gset string) : ExplanationContributor :=
  if bool_decide (e_IdempotencyKey e ∈ denied)
  then mkContributor (BalanceEntry_Digest e) (e_Kind e) (e_Amount e) (e_EntryType e) adjustment redactedToken redactedToken
         (mask_dimensions (e_Dimensions e)) (e_SupersedesDigest e) true
  else mkContributor (BalanceEntry_Digest e) (e_Kind e) (e_Amount e) (e_EntryType e) adjustment (e_IdempotencyKey e) (e_SourceTransactionID e)
         (e_Dimensions e) (e_SupersedesDigest e) false.

Definition mask_excluded (denied : gset string) (x : ExcludedEntry) : ExcludedEntry :=
  if bool_decide (e_IdempotencyKey (x_Entry x) ∈ denied) then mkExcluded (maskExplanationEntry (x_Entry x)) (x_Reason x) else x.
Definition mask_key (denied : gset string) (key : string) : string := if bool_decide (key ∈ denied) then redactedToken else key.
Definition mask_decision (denied : gset string) (d : RuleDecision) : RuleDecision :=
  mkDecision (mask_key denied (rd_SourceEntry d)) (rd_RuleID d) (rd_RuleVersion d) (rd_RuleKind d) (rd_Reason d) (rd_Accepted d) (rd_Rejected d)
    (rd_Overflow d) (rd_ThresholdBreached d).
Definition mask_adjustment (req : ExplanationRequest) (a : RuleAdjustment) : RuleAdjustment :=
  if visible req (rj_Entry a) then a
  else mkAdjustment (maskExplanationEntry (rj_Entry a)) (rj_RuleID a) (rj_RuleVersion a) (rj_RuleKind a) (rj_Reason a) (rj_SourceEntry a).
Definition mask_lifecycle (req : ExplanationRequest) (denied : gset string) (l : LifecycleEntry) : LifecycleEntry :=
  mkLifecycleEntry (if visible req (le_Entry l) then le_Entry l else maskExplanationEntry (le_Entry l)) (le_Operation l) (le_Reason l)
    (le_PolicyID l) (le_PolicyVersion l) (le_SourcePeriod l) (le_TargetPeriod l) (mask_key denied <$> le_SourceEntries l).

Definition explanation_ops (req : ExplanationRequest) (x : BalanceExplanation) : list op :=
  [ WString "account_id" (be_AccountID x); WString "definition_id" (be_DefinitionID x); WString "definition_version" (be_DefinitionVersion x);
    WString "authority.source_id" (au_SourceID (be_Authority x)); WString "authority.version" (au_Version (be_Authority x));
    WValue "opening" (Decimal_Canonical (be_Opening x)); WValue "ending" (Decimal_Canonical (be_Ending x));
    WString "balance" (ab_Digest (xq_Balance req)); WString "rules" (rr_Digest (xq_Rules req)); WString "lifecycle" (lr_Digest (xq_Lifecycle req));
    WCount "contributors" (Z.of_nat (length (be_Contributors x))) ]%string ++
  concat ((fun c => [ WString "contributor" (xc_Digest c); WBool "contributor.redacted" (xc_Redacted c) ]%string) <$> be_Contributors x) ++
  WCount "excluded" (Z.of_nat (length (be_Excluded x))) ::
  concat ((fun e => [ WString "excluded.digest" (BalanceEntry_Digest (x_Entry e)); WString "excluded.reason" (x_Reason e) ]%string) <$> be_Excluded x) ++
  WCount "impacts" (Z.of_nat (length (be_Impacts x))) ::
  concat ((fun i => [ WString "impact.id" (ci_ID i); WString "impact.state" (ci_State i); WString "impact.evidence" (ci_EvidenceDigest i) ]%string) <$> be_Impacts x) ++
  [ WInt "redacted" (be_Redacted x) ]%string.

Definition explanation_with_digest (digest : string) (x : BalanceExplanation) : BalanceExplanation :=
  mkBalanceExplanation (be_AccountID x) (be_DefinitionID x) (be_DefinitionVersion x) (be_Authority x) (be_Opening x) (be_Contributors x)
    (be_Excluded x) (be_Floor x) (be_Cap x) (be_RuleDecisions x) (be_RuleAdjustments x) (be_RulesDigest x) (be_Expiry x) (be_Rollover x)
    (be_Expired x) (be_Carried x) (be_LifecycleEntries x) (be_LifecycleExposition x) (be_LifecycleDigest x) (be_Correction x)
    (be_CorrectionDigests x) (be_Impacts x) (be_Ending x) (be_Redacted x) digest.

Definition buildExplanation (req : ExplanationRequest) : BalanceExplanation :=
  let bal := xq_Balance req in let def := xq_Definition req in let denied := denied_keys req in
  let contributors := ((fun e => explainContributor e false denied) <$> ab_Entries bal) ++ ((fun e => explainContributor e true denied) <$> ab_Adjustments bal) in
  let redacted := Z.of_nat (length (filter (fun c => xc_Redacted c = true) contributors))
                + Z.of_nat (length (filter (fun x => e_IdempotencyKey (x_Entry x) ∈ denied) (ab_Excluded bal))) in
  let x := mkBalanceExplanation (ab_AccountID bal) (ad_ID def) (ad_Version def) (ad_Authority def) (ab_Opening bal) contributors
      (mask_excluded denied <$> ab_Excluded bal) (ad_Floor def) (ad_Cap def) (mask_decision denied <$> rr_Decisions (xq_Rules req))
      (mask_adjustment req <$> rr_Adjustments (xq_Rules req)) (rr_Digest (xq_Rules req)) (ad_Expiry def) (ad_Rollover def)
      (lr_Expired (xq_Lifecycle req)) (lr_Carried (xq_Lifecycle req)) (mask_lifecycle req denied <$> lr_Entries (xq_Lifecycle req))
      (lr_Explanation (xq_Lifecycle req)) (lr_Digest (xq_Lifecycle req)) (ad_Correction def) (BalanceEntry_Digest <$> ab_Adjustments bal)
      (xq_Impacts req) (ab_Ending bal) redacted "" in
  explanation_with_digest (digest_or_empty (ops_run (explanation_ops req x) (New "hcmnext.domains.balance.BalanceExplanation" 1))) x.

Definition ExplainBalanceDerivation (req : ExplanationRequest) : outcome balance_err BalanceExplanation :=
  let def := xq_Definition req in let bal := xq_Balance req in
  let reject field state := rejectExplanation field state (ad_Version def) in
  _ ← map_err (fun e => match e with ErrDefinitionInvalid field => reject field stateDefinitionInvalid | _ => reject "definition"%string stateDefinitionInvalid end)
        (AccumulatorDefinition_Validate def);
  _ ← fail_if (is_blank (ab_Digest bal)) (reject "balance.digest"%string stateDigestMismatch);
  _ ← fail_if (match AuthorizedBalance_canonicalDigest bal with Ok d => negb (String.eqb d (ab_Digest bal)) | _ => true end)
        (reject "balance.digest"%string stateDigestMismatch);
  _ ← fail_if (is_blank (ab_AccountID bal)) (reject "balance.account_id" stateAccountMismatch);
  _ ← or_reject (Decimal_Validate (ab_Opening bal)) (reject "balance.opening" stateTotalMismatch);
  _ ← or_reject (Decimal_Validate (ab_Ending bal)) (reject "balance.ending" stateTotalMismatch);
  _ ← fail_if (is_blank (rr_Digest (xq_Rules req))) (reject "rules" stateMissingRules);
  _ ← fail_if (negb (String.eqb (rr_AccountID (xq_Rules req)) (ab_AccountID bal))) (reject "rules.account_id" stateAccountMismatch);
  _ ← fail_if (is_blank (lr_Digest (xq_Lifecycle req))) (reject "lifecycle" stateMissingLifecycle);
  _ ← fail_if (negb (String.eqb (lr_AccountID (xq_Lifecycle req)) (ab_AccountID bal))) (reject "lifecycle.account_id" stateAccountMismatch);
  _ ← checkExplanationCoherence def bal;
  _ ← fail_if (negb (length (ab_Adjustments bal) =? 0)%nat && (length (xq_Impacts req) =? 0)%nat) (reject "corrections" stateMissingCorrection);
  _ ← checkExplanationImpacts (xq_Impacts req) (ad_Version def);
  _ ← checkExplanationTotal bal (ad_Version def);
  Ok (buildExplanation req).

End explain.

(** * What an explanation tells *)

Section explain_facts.
Context `{B : DecimalBackend} `{L : !DecimalBackendLaws B} `{CM : CaseMapping} `{CF : CaseFolding} `{SHA : Sha256}.

(** The movements behind a balance, and all entries the request shows. *)
Definition movements (req : ExplanationRequest) : list BalanceEntry := ab_Entries (xq_Balance req) ++ ab_Adjustments (xq_Balance req).
Definition shown (req : ExplanationRequest) : list BalanceEntry := movements req ++ (x_Entry <$> ab_Excluded (xq_Balance req)).

(** A key is hidden when an entry under it may not be seen. *)
Definition hidden (req : ExplanationRequest) (key : string) : Prop :=
  exists e, e ∈ shown req /\ e_IdempotencyKey e = key /\ visible req e = false.

Lemma denied_hidden req key : key ∈ denied_keys req <-> hidden req key.
Proof.
  unfold denied_keys, hidden, shown, movements. cbv zeta. rewrite elem_of_list_to_set, list_elem_of_fmap, <- app_assoc. split.
  - intros (e & -> & [Hv He]%list_elem_of_filter). eauto.
  - intros (e & He & <- & Hv). exists e. split; [done|]. by apply list_elem_of_filter.
Qed.

(** The values of an identity are replaced, its shape stays. *)
Definition masked (m : gmap string string) : gmap string string := (fun _ => "REDACTED"%string) <$> m.

(** A contributor tells kind, amount and type of its movement, and names it by
    its digest; key, source and dimension values only when they may be seen. *)
Record tells (req : ExplanationRequest) (e : BalanceEntry) (c : ExplanationContributor) : Prop := {
  te_movement : (xc_Kind c, xc_Amount c, xc_EntryType c) = (e_Kind e, e_Amount e, e_EntryType e);
  te_digest : xc_Digest c = BalanceEntry_Digest e /\ xc_SupersedesDigest c = e_SupersedesDigest e;
  te_hidden : hidden req (e_IdempotencyKey e) ->
    xc_Redacted c = true /\ xc_IdempotencyKey c = "REDACTED"%string /\ xc_SourceTransactionID c = "REDACTED"%string /\ xc_Dimensions c = masked (e_Dimensions e);
  te_visible : ~ hidden req (e_IdempotencyKey e) ->
    xc_Redacted c = false /\ xc_IdempotencyKey c = e_IdempotencyKey e /\ xc_SourceTransactionID c = e_SourceTransactionID e /\ xc_Dimensions c = e_Dimensions e
}.

(** An excluded entry keeps its reason, kind and amount. *)
Record tells_excluded (req : ExplanationRequest) (x y : ExcludedEntry) : Prop := {
  tx_movement : (x_Reason y, e_Kind (x_Entry y), e_Amount (x_Entry y)) = (x_Reason x, e_Kind (x_Entry x), e_Amount (x_Entry x));
  tx_hidden : hidden req (e_IdempotencyKey (x_Entry x)) ->
    e_IdempotencyKey (x_Entry y) = "REDACTED"%string /\ e_SourceTransactionID (x_Entry y) = "REDACTED"%string /\
    e_Dimensions (x_Entry y) = masked (e_Dimensions (x_Entry x));
  tx_visible : ~ hidden req (e_IdempotencyKey (x_Entry x)) -> y = x
}.

Lemma explain_tells req e adjustment : tells req e (explainContributor e adjustment (denied_keys req)).
Proof. unfold explainContributor. case_bool_decide as Hd; rewrite denied_hidden in Hd; by constructor. Qed.

Lemma mask_tells req x : tells_excluded req x (mask_excluded (denied_keys req) x).
Proof. unfold mask_excluded. case_bool_decide as Hd; rewrite denied_hidden in Hd; by constructor. Qed.

Lemma contributors_tell req : Forall2 (tells req) (movements req) (be_Contributors (buildExplanation req)).
Proof.
  unfold movements, buildExplanation. cbv zeta. cbn [be_Contributors explanation_with_digest].
  apply Forall2_app; apply Forall2_fmap_r; induction (_ : list BalanceEntry); constructor; (apply explain_tells || done).
Qed.

(** Only the kind and the amount of an entry enter its contribution. *)
Lemma contribution_bare e s m : contribution (bare_movement (e_Kind e) (e_Amount e)) s m = contribution e s m.
Proof. done. Qed.

Lemma run_total_tells req s m es cs : Forall2 (tells req) es cs -> forall q,
  run_total s m q ((fun c => bare_movement (xc_Kind c) (xc_Amount c)) <$> cs) = run_total s m q es.
Proof.
  induction 1 as [|e c es cs [Hm _ _ _] _ IH]; intros q; cbn [run_total fmap list_fmap]; [done|].
  injection Hm as -> -> _. rewrite contribution_bare. destruct (contribution e s m) as [d| |]; cbn [mbind outcome_bind]; [|done..].
  destruct (or_reject _ _); cbn [mbind outcome_bind]; [apply IH|done..].
Qed.

Lemma run_total_no_panic s m es : forall q, run_total s m q es <> Panic.
Proof.
  induction es as [|e es IH]; intros q; cbn [run_total]; [done|]. apply bind_no_panic; [apply contribution_no_panic|intros d _].
  apply bind_no_panic; [auto with panics|intros; apply IH].
Qed.
Lemma recomputed_no_panic q es : recomputed q es <> Panic.
Proof. unfold recomputed. apply bind_no_panic; [apply run_total_no_panic|intros]. auto with panics. Qed.

Create HintDb refuses.

(** Refusals name a field, a state and the version. *)
Definition refuses {A} (version : string) (m : outcome balance_err A) : Prop :=
  m <> Panic /\ forall e, m = Err e -> exists field state, e = ErrExplanationRejected field state version.

Lemma refuses_ok {A} version (a : A) : refuses version (Ok a).
Proof. done. Qed.
Lemma refuses_err {A} version field state : refuses (A := A) version (Err (rejectExplanation field state version)).
Proof. split; [done|]. intros e [= <-]. by exists field, state. Qed.
Lemma refuses_fail version b field state : refuses version (fail_if b (rejectExplanation field state version)).
Proof. destruct b; [apply refuses_err|apply refuses_ok]. Qed.
Lemma refuses_reject {E A} version (m : outcome E A) field state : m <> Panic -> refuses version (or_reject m (rejectExplanation field state version)).
Proof. intros Hm. split; [by apply or_reject_no_panic|]. intros e ->%or_reject_err. by exists field, state. Qed.
Lemma refuses_bind {A A'} version (m : outcome balance_err A) (k : A -> outcome balance_err A') :
  refuses version m -> (forall a, refuses version (k a)) -> refuses version (m ≫= k).
Proof.
  intros [H1 H2] Hk. split; [apply bind_no_panic; [done|intros a _; apply Hk]|].
  intros e [He|(a & _ & He)]%bind_err_inv; [by apply H2|by apply (Hk a)].
Qed.
Hint Resolve refuses_ok refuses_err refuses_fail : refuses.

Lemma check_entries_refuses def name es : forall i, refuses (ad_Version def) (check_entries def name i es).
Proof.
  induction es as [|e es IH]; intros i; cbn [check_entries]; [auto with refuses|]. apply refuses_bind; [|intros; apply IH].
  unfold check_entry. cbv zeta. repeat (apply refuses_bind; [auto with refuses|intros ?]). auto with refuses.
Qed.

Lemma check_impacts_refuses version impacts : forall i, refuses version (check_impacts version i impacts).
Proof.
  induction impacts as [|imp rest IH]; intros i; cbn [check_impacts]; [auto with refuses|]. apply refuses_bind; [|intros; apply IH].
  unfold check_impact. cbv zeta. apply refuses_bind; [auto with refuses|intros ?]. repeat case_match; auto with refuses.
Qed.

Lemma check_total_refuses bal version : refuses version (checkExplanationTotal bal version).
Proof.
  unfold checkExplanationTotal. pose proof (recomputed_no_panic (ab_Opening bal) (ab_Entries bal ++ ab_Adjustments bal)).
  destruct (recomputed _ _); auto with refuses. done.
Qed.

Lemma explain_refuses req : refuses (ad_Version (xq_Definition req)) (ExplainBalanceDerivation req).
Proof.
  unfold ExplainBalanceDerivation. cbv zeta. apply refuses_bind; [|intros ?].
  { pose proof (definition_valid_total (xq_Definition req)). split; [by apply map_err_no_panic|]. intros e.
    destruct (AccumulatorDefinition_Validate _) as [|[]|]; cbn [map_err]; intros [= <-]; by eexists _, _. }
  repeat first [ apply refuses_bind; [|intros ?] | apply check_entries_refuses | apply check_impacts_refuses | apply check_total_refuses
               | apply refuses_reject, Validate_no_panic | solve [auto with refuses] | unfold checkExplanationCoherence, checkExplanationImpacts ].
Qed.

(** The same request from a caller who may see other entries. *)
Definition seen_by (view : option (BalanceEntry -> bool)) (req : ExplanationRequest) : ExplanationRequest :=
  mkExplanationRequest (xq_Definition req) (xq_Balance req) (xq_Rules req) (xq_Lifecycle req) (xq_Impacts req) view.

Lemma explain_built req x : ExplainBalanceDerivation req = Ok x ->
  x = buildExplanation req /\ is_ok (Decimal_Validate (ab_Opening (xq_Balance req))) = true /\
  checkExplanationTotal (xq_Balance req) (ad_Version (xq_Definition req)) = Ok tt.
Proof.
  unfold ExplainBalanceDerivation. cbv zeta. intros H. ok_inv. subst x. split; [done|].
  match goal with Ho : or_reject (Decimal_Validate (ab_Opening _)) _ = Ok _ |- _ => apply or_reject_ok in Ho; rewrite Ho end.
  split; [done|]. match goal with Ht : checkExplanationTotal _ _ = Ok ?u |- _ => by destruct u end.
Qed.

(** Explaining a balance never panics, and a refusal names a field, a state
    and the version of the definition; who asks does not decide it.  An
    explanation has one contributor for every counted entry and adjustment, in
    order, with its kind, amount and digest, and one line for every excluded
    entry with its reason; the identity behind a key is masked exactly when
    some entry under the key may not be seen.  Its ending is the balance's, and
    adding up the contributors as told gives it back. *)
Theorem explanation_faithful (req : ExplanationRequest) :
  ExplainBalanceDerivation req <> Panic /\
  (forall e, ExplainBalanceDerivation req = Err e ->
     exists field state, e = ErrExplanationRejected field state (ad_Version (xq_Definition req))) /\
  (forall view, is_ok (ExplainBalanceDerivation (seen_by view req)) = is_ok (ExplainBalanceDerivation req)) /\
  (forall x, ExplainBalanceDerivation req = Ok x ->
     Forall2 (tells req) (movements req) (be_Contributors x) /\
     Forall2 (tells_excluded req) (ab_Excluded (xq_Balance req)) (be_Excluded x) /\
     be_Ending x = ab_Ending (xq_Balance req) /\ BalanceExplanation_Verify x = true).
Proof.
  destruct (explain_refuses req) as [Hp He]. split; [exact Hp|]. split; [exact He|]. split.
  - intros view. unfold ExplainBalanceDerivation, seen_by. cbv zeta. cbn [xq_Definition xq_Balance xq_Rules xq_Lifecycle xq_Impacts].
    repeat match goal with |- context [?m ≫= _] => destruct m; cbn [mbind outcome_bind is_ok]; [|done..] end. done.
  - intros x (-> & Ho & Ht)%explain_built. pose proof (contributors_tell req) as Hc. split; [exact Hc|]. split.
    { unfold buildExplanation. cbv zeta. cbn [be_Excluded explanation_with_digest]. apply Forall2_fmap_r.
      induction (ab_Excluded _); constructor; [apply mask_tells|done]. }
    split; [done|]. unfold BalanceExplanation_Verify. change (be_Opening (buildExplanation req)) with (ab_Opening (xq_Balance req)).
    rewrite Ho. unfold recomputed. rewrite (run_total_tells req _ _ _ _ Hc). unfold checkExplanationTotal, recomputed in Ht.
    change (be_Ending (buildExplanation req)) with (ab_Ending (xq_Balance req)). unfold movements.
    match goal with H : match ?m with _ => _ end = Ok _ |- _ => destruct m as [d| |] eqn:E end; [|done..].
    apply fail_if_ok_iff, negb_false_iff in Ht. done.
Qed.

End explain_facts.

(** * A concrete explanation *)

Section sample_explain.
#[local] Instance sample_explain_case : CaseMapping := {| unicode_lower := fun s => s; unicode_upper := fun s => s |}.
#[local] Instance sample_explain_folding : CaseFolding := {| unicode_equal_fold := String.eqb |}.
#[local] Instance sample_explain_sha : Sha256 := {| sha256_Sum256 := fun bs => [Z.of_nat (length bs) mod 256; foldr Z.add 0 bs mod 256] |}.

Definition or_default {A} (a : A) (m : outcome balance_err A) : A := match m with Ok x => x | _ => a end.

Definition nothing : Decimal := dec_of 0 2 RoundingHalfUp.

(** The caller may not see the entry under the key [k1]. *)
Definition sample_explanation : ExplanationRequest :=
  mkExplanationRequest leave_definition
    (or_default (mkAuthorized "" Instant_zero_value Instant_zero_value nothing [] [] [] nothing "")
       (CalculateAuthorizedBalance (sample_asof 1000 500) sample_ledger))
    (or_default (mkApplied "" nothing nothing nothing nothing
       nothing [] [] [] [] "") (ApplyRules sample_policy policy_ledger))
    (or_default (mkLifecycleResult "" (sample_period "" 0 0) (sample_period "" 0 0) nothing nothing
       nothing [] [] "") (ApplyLifecycle (sample_lifecycle 400)))
    [] (Some (fun e => negb (String.eqb (e_IdempotencyKey e) "k1"))).

Lemma explanation_faithful_witness :
  exists x, ExplainBalanceDerivation sample_explanation = Ok x /\ BalanceExplanation_Verify x = true /\
    xc_IdempotencyKey <$> be_Contributors x = ["REDACTED"; "k2"]%string.
Proof.
  destruct (explanation_faithful sample_explanation) as (_ & _ & _ & H).
  destruct (ExplainBalanceDerivation sample_explanation) as [x| |] eqn:E; [|vm_compute in E; discriminate E..].
  exists x. destruct (H x eq_refl) as (_ & _ & _ & Hv). split; [reflexivity|]. split; [exact Hv|].
  vm_compute in E. injection E as <-. vm_compute. reflexivity.
Defined.

(** Two lists keep what the others mask: the key of the entry a rule adjusted
    for, and the keys behind a generated entry, are told to everyone. *)
Lemma explanation_names_hidden_sources :
  match ExplainBalanceDerivation sample_explanation with
  | Ok x => rj_SourceEntry <$> be_RuleAdjustments x = ["k1"]%string /\
      Forall (fun l => "k1"%string ∈ lx_SourceEntries l) (be_LifecycleExposition x) /\ be_LifecycleExposition x <> [] /\
      Forall (fun l => "REDACTED"%string ∈ le_SourceEntries l) (be_LifecycleEntries x)
  | _ => False
  end.
Proof.
  destruct (ExplainBalanceDerivation sample_explanation) as [x| |] eqn:E; [|vm_compute in E; discriminate E..].
  vm_compute in E. injection E as <-. cbn. split; [reflexivity|]. split; [repeat constructor|]. split; [done|repeat constructor].
Qed.

End sample_explain.
