(* ===== verification/TimeUnits.v ===== *)
(** Exact units of the time calculation: seconds, ten-thousandths of money and
    of factors, and 128-bit rounding division:
    [internal/domains/timecalc/units.go] and the errors of [contract.go].

    [Seconds], [Money] and [Factor] are [int64]: a [Z] whose arithmetic wraps
    where the code can overflow. *)

From S2P Require Import Prelude FixedDecimal.

Local Open Scope Z_scope.

Inductive timecalc_err : Type :=
  | ErrInvalidRuleSet | ErrInvalidRequest | ErrMethodNotAllowed | ErrOverlap | ErrOutsidePeriod
  | ErrUnknownDifferential | ErrTreatmentUndeclared | ErrRuleDisabled | ErrBelowMinimumWage
  | ErrLessFavorable | ErrArithmetic | ErrResultTampered.

#[export] Instance timecalc_err_eq_dec : EqDecision timecalc_err.
Proof. solve_decision. Defined.

Definition Hour : Z := 3600.
Definition One : Z := 10000.
Definition moneyScale : Z := 4.

(** [pow10]: one multiplication per step, in [int64]. *)
Fixpoint pow10_loop (n : nat) (p : Z) : Z :=
  match n with O => p | S n' => pow10_loop n' (to_int64 (p * 10)) end.
Definition unit_pow10 (n : Z) : Z := pow10_loop (Z.to_nat n) 1.

(** [strconv.ParseInt(s, 10, 64)]: an optional sign and digits, in range. *)
Definition parse_int64 (s : string) : option Z :=
  let '(neg, digits) :=
    match s with
    | String c rest => if Ascii.eqb c "-" then (true, rest) else if Ascii.eqb c "+" then (false, rest) else (false, s)
    | EmptyString => (false, s)
    end in
  if bool_decide (digits = "") || negb (str_forall is_digit digits) then None
  else
    let v := if (neg : bool) then - dec_value digits 0 else dec_value digits 0 in
    if (min_int64 <=? v) && (v <=? max_int64) then Some v else None.

Definition has_prefix_char (c : ascii) (s : string) : bool :=
  match s with String d _ => Ascii.eqb d c | EmptyString => false end.

Definition ParseMoney (s : string) : outcome timecalc_err Z :=
  let '(whole, frac, _) := str_cut "." s in
  if bool_decide (whole = "") || (moneyScale <? len frac) || has_prefix_char "-" s || has_prefix_char "+" s
  then Err ErrInvalidRequest
  else
    match parse_int64 whole with
    | None => Err ErrInvalidRequest
    | Some w =>
        f ← (if bool_decide (frac = "") then Ok 0
             else match parse_int64 frac with
                  | None => Err ErrInvalidRequest
                  | Some f => if f <? 0 then Err ErrInvalidRequest
                              else Ok (to_int64 (f * unit_pow10 (moneyScale - len frac)))
                  end);
        if Z.quot (max_int64 - f) (unit_pow10 moneyScale) <? w then Err ErrArithmetic
        else Ok (to_int64 (to_int64 (w * unit_pow10 moneyScale) + f))
    end.

(** [byte('0'+d)]. *)
Definition digit (d : Z) : string := String (char_of ((48 + d) mod 256)) EmptyString.

(** [strconv.AppendInt]. *)
Definition append_int (v : Z) : string := if v <? 0 then "-" +:+ dec_string (- v) else dec_string v.

Definition Money_appendTo (m : Z) : string :=
  let '(sign, u) := if m <? 0 then ("-", to_int64 (- m)) else ("", m) in
  let frac := Z.rem u (unit_pow10 moneyScale) in
  sign +:+ append_int (Z.quot u (unit_pow10 moneyScale)) +:+ "." +:+ digit (Z.quot frac 1000)
  +:+ digit (Z.rem (Z.quot frac 100) 10)
  +:+ (if negb (Z.rem frac 100 =? 0) then
         digit (Z.rem (Z.quot frac 10) 10)
         +:+ (if negb (Z.rem frac 10 =? 0) then digit (Z.rem frac 10) else "")
       else "").
Definition Money_String (m : Z) : string := Money_appendTo m.

Definition Seconds_appendTo (s : Z) : string :=
  let '(sign, v) := if s <? 0 then ("-", to_int64 (- s)) else ("", s) in
  let mm := Z.quot (Z.rem v 3600) 60 in
  let ss := Z.rem v 60 in
  sign +:+ append_int (Z.quot v 3600) +:+ ":" +:+ digit (Z.quot mm 10) +:+ digit (Z.rem mm 10)
  +:+ ":" +:+ digit (Z.quot ss 10) +:+ digit (Z.rem ss 10).

(** * Rounding division *)

(** [bits.Mul64] and [bits.Div64]. *)
Definition mul64 (a b : Z) : Z * Z := (a * b / 2 ^ 64, (a * b) mod 2 ^ 64).
Definition div64 (hi lo d : Z) : Z * Z := ((hi * 2 ^ 64 + lo) / d, (hi * 2 ^ 64 + lo) mod d).

(** The switch on the rounding mode, for a non-zero remainder: whether [q] is
    incremented. *)
Definition muldiv_increment (mode : RoundingMode) (q r d : Z) : outcome timecalc_err bool :=
  let twice := to_uint64 (2 * r) in
  match mode with
  | RoundingHalfUp | RoundingHalfAwayFromZero => Ok (d <=? twice)
  | RoundingHalfEven => Ok ((d <? twice) || ((twice =? d) && (q mod 2 =? 1)))
  | RoundingTowardZero | RoundingFloor => Ok false
  | RoundingAwayFromZero | RoundingCeiling => Ok true
  | RoundingExactRequired => Err ErrArithmetic
  | _ => Err ErrArithmetic
  end.

Definition mulDiv (a b d : Z) (mode : RoundingMode) : outcome timecalc_err Z :=
  _ ← fail_if ((a <? 0) || (b <? 0) || (d <=? 0)) ErrArithmetic;
  let '(hi, lo) := mul64 a b in
  _ ← fail_if (d <=? hi) ErrArithmetic;
  let '(q, r) := div64 hi lo d in
  q ← (if negb (r =? 0) then
         up ← muldiv_increment mode q r d;
         Ok (if (up : bool) then to_uint64 (q + 1) else q)
       else Ok q);
  _ ← fail_if (max_int64 <? q) ErrArithmetic;
  Ok q.

Definition mulChecked (a b : Z) : outcome timecalc_err Z :=
  _ ← fail_if ((a <? 0) || (b <? 0)) ErrArithmetic;
  let '(hi, lo) := mul64 a b in
  _ ← fail_if (negb (hi =? 0) || (max_int64 <? lo)) ErrArithmetic;
  Ok lo.

Definition addChecked (a b : Z) : outcome timecalc_err Z :=
  _ ← fail_if ((0 <? b) && (to_int64 (max_int64 - b) <? a) || (b <? 0) && (a <? to_int64 (min_int64 - b))) ErrArithmetic;
  Ok (to_int64 (a + b)).

(** [return Money(q * unit), err]. *)
Definition scaled (q : outcome timecalc_err Z) (unit_ : Z) : outcome timecalc_err Z :=
  match q with Ok q => Ok (to_int64 (q * unit_)) | Err e => Err e | Panic => Panic end.

Definition rateFor (numerator secs decimals : Z) (mode : RoundingMode) : outcome timecalc_err Z :=
  if secs <=? 0 then Ok 0
  else
    let unit_ := unit_pow10 (moneyScale - decimals) in
    scaled (mulDiv numerator 1 (to_int64 (secs * unit_)) mode) unit_.

Definition amountFor (rate secs decimals : Z) (mode : RoundingMode) : outcome timecalc_err Z :=
  let unit_ := unit_pow10 (moneyScale - decimals) in
  scaled (mulDiv rate secs (to_int64 (Hour * unit_)) mode) unit_.

Definition scaleRate (rate f decimals : Z) (mode : RoundingMode) : outcome timecalc_err Z :=
  let unit_ := unit_pow10 (moneyScale - decimals) in
  scaled (mulDiv rate f (to_int64 (One * unit_)) mode) unit_.

(** * Lemmas *)

Definition int64 (z : Z) : Prop := min_int64 <= z <= max_int64.

Lemma mul64_value a b : (mul64 a b).1 * 2 ^ 64 + (mul64 a b).2 = a * b.
Proof. unfold mul64. cbn [fst snd]. pose proof (Z.div_mod (a * b) (2 ^ 64)). lia. Qed.

(** Computes the mode tests of [Div] on a concrete mode. *)
Ltac eval_mode :=
  repeat match goal with
  | |- context [nearestRounding ?m] =>
      let x := eval vm_compute in (nearestRounding m) in change (nearestRounding m) with x
  | |- context [mode_is ?m ?n] => let x := eval vm_compute in (mode_is m n) in change (mode_is m n) with x
  end; cbv match.

(** Below the last 64-bit quotient, [mulDiv] rounds like the kernel's decimals. *)
Lemma mulDiv_eq a b d mode : 0 <= a -> 0 <= b -> 0 < d -> a * b / d < 2 ^ 64 - 1 -> d <= max_int64 ->
  RoundingMode_Valid mode = true -> (mode = RoundingExactRequired -> (a * b) mod d = 0) ->
  mulDiv a b d mode = if max_int64 <? round_mag mode false (a * b) d then Err ErrArithmetic
                      else Ok (round_mag mode false (a * b) d).
Proof.
  intros Ha Hb Hd Hq Hdm Hv Hex. unfold mulDiv.
  replace ((a <? 0) || (b <? 0) || (d <=? 0)) with false by lia. cbn [mbind outcome_bind fail_if].
  pose proof (mul64_value a b) as Hmul. destruct (mul64 a b) as [hi lo] eqn:Em. cbn [fst snd] in Hmul.
  assert (Hlo : 0 <= lo < 2 ^ 64).
  { unfold mul64 in Em. injection Em as <- <-. apply Z.mod_pos_bound. lia. }
  assert (Hhi : hi < d). { pose proof (Z.div_mod (a * b) d ltac:(lia)). pose proof (Z.mod_pos_bound (a * b) d Hd). nia. }
  replace (d <=? hi) with false by lia. cbn [mbind outcome_bind fail_if].
  unfold div64. rewrite Hmul. unfold round_mag.
  pose proof (Z.mod_pos_bound (a * b) d Hd) as Hr. set (q := a * b / d) in *. set (r := (a * b) mod d) in *.
  assert (Hq0 : 0 <= q) by (apply Z.div_pos; nia). clearbody q r.
  unfold max_int64 in Hdm.
  destruct (Z.eqb_spec r 0) as [->|Hr0]; cbn [negb andb mbind outcome_bind].
  { unfold fail_if. by destruct (max_int64 <? q). }
  assert (Ht : to_uint64 (2 * r) = 2 * r) by (apply to_uint64_small; lia).
  assert (Hu : to_uint64 (q + 1) = q + 1) by (apply to_uint64_small; lia).
  assert (Hodd : (q mod 2 =? 1) = Z.odd q).
  { rewrite Zmod_odd. by destruct (Z.odd q). }
  assert (Hinc : mode <> RoundingExactRequired ->
    muldiv_increment mode q r d = Ok (div_increment mode false q r d)).
  { intros Hne. unfold muldiv_increment, div_increment. rewrite Ht, Hodd, Z.shiftl_mul_pow2 by lia.
    replace (r * 2 ^ 1) with (2 * r) by lia. unfold big_cmp.
    destruct (valid_mode_cases mode Hv) as [-> | [-> | [-> | [-> | [-> | [-> | [-> | ->]]]]]]]; try done;
      eval_mode; f_equal; destruct (Z.compare_spec (2 * r) d); destruct (Z.odd q); cbn; lia. }
  destruct (decide (mode = RoundingExactRequired)) as [->|Hne]; [by specialize (Hex eq_refl)|].
  rewrite (Hinc Hne). cbn [mbind outcome_bind]. destruct (div_increment mode false q r d); rewrite ?Hu;
    cbn [mbind outcome_bind]; unfold fail_if; by destruct (max_int64 <? _).
Qed.

Lemma unit_pow10_value n : 0 <= n <= 4 -> unit_pow10 n = 10 ^ n.
Proof.
  intros H. assert (n = 0 \/ n = 1 \/ n = 2 \/ n = 3 \/ n = 4) as [-> | [-> | [-> | [-> | ->]]]] by lia; reflexivity.
Qed.

Lemma unit_range decimals : 0 <= decimals <= 4 -> 1 <= unit_pow10 (moneyScale - decimals) <= 10000.
Proof.
  intros H. rewrite unit_pow10_value by (unfold moneyScale; lia). unfold moneyScale.
  pose proof (Z.pow_le_mono_r 10 (4 - decimals) 4). pose proof (Z.pow_pos_nonneg 10 (4 - decimals)). lia.
Qed.

(** What [mulDiv] returns, in one statement over all modes. *)
Lemma mulDiv_spec a b d mode : 0 <= a -> 0 <= b -> 0 < d <= max_int64 -> a * b / d < 2 ^ 64 - 1 ->
  RoundingMode_Valid mode = true ->
  match mulDiv a b d mode with
  | Ok q => rounds mode (a * b) d q /\ 0 <= q <= max_int64
  | Err e => e = ErrArithmetic /\ forall q, rounds mode (a * b) d q -> max_int64 < q
  | Panic => False
  end.
Proof.
  intros Ha Hb Hd Hq Hv. assert (Hn : 0 <= a * b) by nia.
  destruct (decide (mode = RoundingExactRequired /\ (a * b) mod d <> 0)) as [[-> Hr]|Hex].
  - unfold mulDiv. replace ((a <? 0) || (b <? 0) || (d <=? 0)) with false by lia. cbn [mbind outcome_bind fail_if].
    pose proof (mul64_value a b) as Hmul. destruct (mul64 a b) as [hi lo]. cbn [fst snd] in Hmul.
    destruct (d <=? hi); cbn [mbind outcome_bind fail_if].
    2: unfold div64; rewrite Hmul, (proj2 (Z.eqb_neq _ _) Hr); cbn [negb mbind outcome_bind muldiv_increment].
    all: split; [done|]; intros q E; exfalso; apply Hr; unfold rounds in E; rewrite <- E; apply Z.mod_mul; lia.
  - assert (Hx : mode = RoundingExactRequired -> (a * b) mod d = 0) by (intros ->; destruct (decide ((a * b) mod d = 0)); naive_solver).
    rewrite mulDiv_eq by (done || lia).
    pose proof (round_mag_rounds mode false (a * b) d Hn ltac:(lia) Hv Hx) as HR. cbv match in HR.
    destruct (Z.ltb_spec max_int64 (round_mag mode false (a * b) d)) as [Hlt|Hle].
    + split; [done|]. intros q E. by rewrite (rounds_unique mode (a * b) d q _ ltac:(lia) E HR).
    + split; [done|]. split; [|done]. unfold round_mag. pose proof (Z.div_pos (a * b) d). case_match; lia.
Qed.

Lemma scaled_spec q unit_ n d mode : 0 < unit_ ->
  match q with
  | Ok q => rounds mode n d q /\ 0 <= q <= max_int64
  | Err e => e = ErrArithmetic /\ forall q, rounds mode n d q -> max_int64 < q
  | Panic => False
  end ->
  match scaled q unit_ with
  | Ok m => exists q, rounds mode n d q /\ 0 <= q /\ (q * unit_ <= max_int64 -> m = q * unit_)
  | Err e => e = ErrArithmetic /\ forall q, rounds mode n d q -> max_int64 < q * unit_
  | Panic => False
  end.
Proof.
  intros Hu. destruct q as [q| |]; cbn [scaled]; [|intros [-> Hq]; split; [done|]; intros q E; specialize (Hq q E); unfold max_int64 in *; nia|done].
  intros [HR Hq]. exists q. split; [done|]. split; [lia|]. intros Hm. apply to_int64_small.
  unfold min_int64. split; [nia|lia].
Qed.

(** ** Text *)

Lemma digit_eq d : 0 <= d <= 9 -> digit d = String (digit_char d) EmptyString.
Proof. intros H. unfold digit, digit_char. by rewrite Z.mod_small by lia. Qed.

Lemma is_digit_not_sign c : is_digit c = true -> Ascii.eqb c "-" = false /\ Ascii.eqb c "+" = false.
Proof.
  intros H. split; apply Ascii.eqb_neq; intros ->; vm_compute in H; discriminate.
Qed.

Lemma parse_int64_digits s : s <> "" -> str_forall is_digit s = true -> dec_value s 0 <= max_int64 ->
  parse_int64 s = Some (dec_value s 0).
Proof.
  intros Hne Hd Hm. destruct s as [|c s']; [done|]. unfold parse_int64. cbn [str_forall] in Hd.
  pose proof Hd as Hd'. apply andb_true_iff in Hd' as [Hc _]. destruct (is_digit_not_sign c Hc) as [-> ->].
  rewrite bool_decide_eq_false_2 by done. cbn [str_forall]. rewrite Hd. cbn [negb orb].
  pose proof (dec_value_bound (String c s') Hd) as Hb. unfold min_int64.
  replace (- 2 ^ 63 <=? dec_value (String c s') 0) with true by lia.
  by replace (dec_value (String c s') 0 <=? max_int64) with true by lia.
Qed.

Lemma digits_no_dot s : str_forall is_digit s = true -> str_contains "." s = false.
Proof.
  induction s as [|c s IH]; cbn; [done|]. rewrite andb_true_iff. intros [Hc Hs]. rewrite IH by done.
  rewrite orb_false_r. apply Ascii.eqb_neq. intros ->. vm_compute in Hc. discriminate.
Qed.

(** The fraction a money text shows. *)
Definition frac_text (f : Z) : string :=
  digit (Z.quot f 1000) +:+ digit (Z.rem (Z.quot f 100) 10)
  +:+ (if negb (Z.rem f 100 =? 0) then
         digit (Z.rem (Z.quot f 10) 10) +:+ (if negb (Z.rem f 10 =? 0) then digit (Z.rem f 10) else "")
       else "").

Lemma frac_text_value f : 0 <= f < 10000 ->
  frac_text f <> "" /\ str_forall is_digit (frac_text f) = true /\ 2 <= len (frac_text f) <= 4
  /\ dec_value (frac_text f) 0 * 10 ^ (4 - len (frac_text f)) = f.
Proof.
  intros H. unfold frac_text. rewrite !Z.quot_div_nonneg, !Z.rem_mod_nonneg by (try apply Z.div_pos; lia).
  assert (D1 : 0 <= f / 1000 <= 9) by div_lia. assert (D2 : 0 <= (f / 100) mod 10 <= 9) by div_lia.
  assert (D3 : 0 <= (f / 10) mod 10 <= 9) by div_lia. assert (D4 : 0 <= f mod 10 <= 9) by div_lia.
  rewrite !digit_eq by done.
  destruct (Z.eqb_spec (f mod 100) 0); [|destruct (Z.eqb_spec (f mod 10) 0)]; cbn [negb];
    unfold len; cbn [String.append str_forall String.length dec_value]; rewrite !is_digit_char, !digit_value_char by done;
    (split; [done|]); (split; [done|]); (split; [lia|]).
  - change (10 ^ (4 - Z.of_nat 2)) with 100. div_lia.
  - change (10 ^ (4 - Z.of_nat 3)) with 10. div_lia.
  - change (10 ^ (4 - Z.of_nat 4)) with 1. div_lia.
Qed.

Lemma Money_String_eq m : 0 <= m ->
  Money_String m = dec_string (m / 10000) +:+ "." +:+ frac_text (m mod 10000).
Proof.
  intros H. unfold Money_String, Money_appendTo. replace (m <? 0) with false by lia.
  change (unit_pow10 moneyScale) with 10000. rewrite Z.quot_div_nonneg, Z.rem_mod_nonneg by lia.
  unfold append_int. replace (m / 10000 <? 0) with false by (pose proof (Z.div_pos m 10000); lia). reflexivity.
Qed.

Lemma money_roundtrip m : 0 <= m <= max_int64 -> ParseMoney (Money_String m) = Ok m.
Proof.
  intros H. rewrite Money_String_eq by lia. unfold ParseMoney.
  assert (Hw : 0 <= m / 10000) by (apply Z.div_pos; lia).
  pose proof (dec_string_digits _ Hw) as Hd. pose proof (dec_string_nonempty _ Hw) as Hne.
  assert (Hf : 0 <= m mod 10000 < 10000) by (apply Z.mod_pos_bound; lia).
  destruct (frac_text_value (m mod 10000) Hf) as (Fne & Fd & Fl & Fv).
  assert (Hpre : forall c, is_digit c = false ->
    has_prefix_char c (dec_string (m / 10000) +:+ "." +:+ frac_text (m mod 10000)) = false).
  { intros c Hc. destruct (dec_string (m / 10000)) as [|x s]; [done|]. cbn [String.append has_prefix_char].
    cbn [str_forall] in Hd. apply andb_true_iff in Hd as [Hx _]. apply Ascii.eqb_neq. congruence. }
  rewrite (Hpre "-"%char eq_refl), (Hpre "+"%char eq_refl).
  change ("." +:+ frac_text (m mod 10000)) with (String "." (frac_text (m mod 10000))).
  rewrite str_cut_here by (by apply digits_no_dot).
  rewrite bool_decide_eq_false_2 by done. replace (moneyScale <? len (frac_text (m mod 10000))) with false
    by (unfold moneyScale; lia). cbn [orb].
  rewrite parse_int64_digits by (try done; rewrite dec_string_value by done; unfold max_int64 in *; div_lia).
  rewrite dec_string_value by done. rewrite bool_decide_eq_false_2 by done.
  assert (Hfv : dec_value (frac_text (m mod 10000)) 0 <= m mod 10000).
  { pose proof (Z.pow_pos_nonneg 10 (4 - len (frac_text (m mod 10000)))). pose proof (dec_value_bound _ Fd). nia. }
  rewrite parse_int64_digits by (try done; unfold max_int64; lia).
  pose proof (dec_value_bound _ Fd). replace (dec_value (frac_text (m mod 10000)) 0 <? 0) with false by lia.
  rewrite (unit_pow10_value (moneyScale - len _)) by (unfold moneyScale; lia). change moneyScale with 4. rewrite Fv.
  change (unit_pow10 4) with 10000.
  rewrite (to_int64_small (m mod 10000)) by (unfold min_int64, max_int64; lia). cbn [mbind outcome_bind].
  rewrite Z.quot_div_nonneg by (unfold max_int64; lia).
  replace ((max_int64 - m mod 10000) / 10000 <? m / 10000) with false by (unfold max_int64 in *; div_lia).
  rewrite (to_int64_small (m / 10000 * 10000)) by (unfold min_int64, max_int64 in *; div_lia).
  rewrite to_int64_small by (unfold min_int64, max_int64 in *; div_lia). f_equal. div_lia.
Qed.

(** * Properties *)

(** [mulDiv] divides once and rounds once: for non-negative operands, a
    positive 64-bit divisor and a declared mode, whenever the floor of the
    quotient is below 2^64 - 1, it returns the integer that the mode's
    definition gives for the exact rational a*b/d, and [ErrArithmetic] exactly
    when there is none or it exceeds an int64; the 128-bit product never
    overflows. *)
Theorem mul_div_rounds_once (a b d : Z) (mode : RoundingMode) :
  0 <= a -> 0 <= b -> 0 < d <= max_int64 -> a * b / d < 2 ^ 64 - 1 -> RoundingMode_Valid mode = true ->
  match mulDiv a b d mode with
  | Ok q => rounds mode (a * b) d q /\ 0 <= q <= max_int64
  | Err e => e = ErrArithmetic /\ forall q, rounds mode (a * b) d q -> max_int64 < q
  | Panic => False
  end.
Proof. apply mulDiv_spec. Qed.

Lemma mul_div_rounds_once_witness :
  mulDiv 136400 28800 3600 RoundingHalfEven = Ok 1091200 /\ rounds RoundingHalfEven (136400 * 28800) 3600 1091200.
Proof.
  split; [reflexivity|].
  exact (proj1 (mul_div_rounds_once 136400 28800 3600 RoundingHalfEven ltac:(lia) ltac:(lia)
    ltac:(unfold max_int64; lia) ltac:(reflexivity) ltac:(reflexivity))).
Defined.

(** hourly pay, scaled rates and averaged rates are rounded once to the
    declared decimals: with 0 to 4 decimals, [amountFor] gives a multiple of
    the smallest unit whose count rounds the exact rate x seconds / 3600,
    [scaleRate] one that rounds rate x factor and [rateFor] one that rounds
    numerator / seconds; they fail only when that amount exceeds an int64.
    (The bound on the quotient is what keeps [mulDiv]'s increment in range,
    and an amount past an int64 is not claimed.) *)
Theorem amounts_round_once (rate secs f decimals : Z) (mode : RoundingMode) :
  0 <= rate -> 0 < secs -> 0 <= f -> 0 <= decimals <= 4 -> secs <= 2 ^ 40 -> RoundingMode_Valid mode = true ->
  let unit_ := unit_pow10 (moneyScale - decimals) in
  let priced n d o := n / d < 2 ^ 64 - 1 ->
    match o with
    | Ok m => exists q, rounds mode n d q /\ 0 <= q /\ (q * unit_ <= max_int64 -> m = q * unit_)
    | Err e => e = ErrArithmetic /\ forall q, rounds mode n d q -> max_int64 < q * unit_
    | Panic => False
    end in
  priced (rate * secs) (3600 * unit_) (amountFor rate secs decimals mode)
  /\ priced (rate * f) (10000 * unit_) (scaleRate rate f decimals mode)
  /\ priced rate (secs * unit_) (rateFor rate secs decimals mode).
Proof.
  intros Hr Hs Hf Hd Hsm Hv unit_ priced. pose proof (unit_range decimals Hd) as Hu. fold unit_ in Hu.
  split; [|split]; intros Hq.
  - unfold amountFor, Hour. fold unit_. rewrite to_int64_small by (unfold min_int64, max_int64; lia).
    apply scaled_spec; [lia|]. apply mulDiv_spec; try done; unfold max_int64; lia.
  - unfold scaleRate, One. fold unit_. rewrite to_int64_small by (unfold min_int64, max_int64; lia).
    apply scaled_spec; [lia|]. apply mulDiv_spec; try done; unfold max_int64; lia.
  - unfold rateFor. fold unit_. replace (secs <=? 0) with false by lia.
    rewrite to_int64_small by (unfold min_int64, max_int64; nia).
    apply scaled_spec; [lia|]. pose proof (mulDiv_spec rate 1 (secs * unit_) mode) as Hspec. rewrite Z.mul_1_r in Hspec.
    apply Hspec; try done; unfold max_int64; nia.
Qed.

Lemma amounts_round_once_witness :
  exists q, rounds RoundingHalfUp (136400 * 28800) (3600 * 100) q /\ amountFor 136400 28800 2 RoundingHalfUp = Ok (q * 100).
Proof.
  pose proof (proj1 (amounts_round_once 136400 28800 15000 2 RoundingHalfUp ltac:(lia) ltac:(lia) ltac:(lia) ltac:(lia)
    ltac:(lia) ltac:(reflexivity)) ltac:(reflexivity)) as Hw.
  destruct (amountFor 136400 28800 2 RoundingHalfUp) as [m| |] eqn:E; [|vm_compute in E; discriminate E..].
  destruct Hw as (q & HR & Hq0 & Hq). exists q. split; [exact HR|].
  assert (Hb : q * 100 <= max_int64).
  { change (unit_pow10 (moneyScale - 2)) with 100 in HR.
    rewrite (rounds_unique RoundingHalfUp (136400 * 28800) (3600 * 100) q 10912 ltac:(lia) HR); [vm_compute; discriminate|].
    vm_compute. split; [discriminate | intros _; discriminate]. }
  rewrite (Hq Hb). reflexivity.
Defined.

(** a non-negative amount survives its text form: [ParseMoney] of what
    [Money.String] prints is the amount, for every int64 from 0 on. *)
Theorem money_text_roundtrip (m : Z) :
  0 <= m <= max_int64 -> ParseMoney (Money_String m) = Ok m.
Proof. apply money_roundtrip. Qed.

Lemma money_text_roundtrip_witness : ParseMoney "13.64" = Ok 136400 /\ ParseMoney (Money_String 136400) = Ok 136400.
Proof. split; [reflexivity|]. apply (money_text_roundtrip 136400). unfold max_int64. lia. Defined.

(** three inputs on which the units misbehave: [mulDiv] rounds a quotient
    just under 2^64 up to 0 and reports success, [amountFor] wraps a large
    amount into a negative one with no error, and [ParseMoney] accepts a sign
    inside the fraction. *)
Theorem unit_edge_cases :
  mulDiv 9223372036854775805 3074457345618258603 1537228672809129301 RoundingHalfUp = Ok 0
  /\ 9223372036854775805 * 3074457345618258603 / 1537228672809129301 = 2 ^ 64 - 1
  /\ (exists m, amountFor max_int64 7200 0 RoundingHalfUp = Ok m /\ m < 0)
  /\ ParseMoney "1.+5" = Ok 10500.
Proof.
  split; [vm_compute; reflexivity|]. split; [vm_compute; reflexivity|]. split; [|vm_compute; reflexivity].
  eexists. split; [vm_compute; reflexivity | reflexivity].
Qed.
