(* ===== verification/TimeRules.v ===== *)
(** Rule sets, collective-agreement overrides and requests of the time
    calculation: [internal/domains/timecalc/ruleset.go] and [input.go].

    Named Go strings ([OvertimeMethod], [Inclusion], [RateBasis], [WorkKind])
    are [string]; pointers that may be nil are options; an [error] carries its
    sentinel ([TimeUnits.timecalc_err]). *)

From S2P Require Import Prelude FixedDecimal CivilTime TimeUnits.

Local Open Scope Z_scope.

(** * Rule sets *)

Definition OvertimeNone : string := "NONE".
Definition OvertimeSingleRate : string := "SINGLE_RATE".
Definition OvertimeWeightedAverage : string := "WEIGHTED_AVERAGE".
Definition OvertimeFluctuatingWeek : string := "FLUCTUATING_WEEK".
Definition OvertimeHealthcare880 : string := "HEALTHCARE_8_80".
Definition OvertimePublicCompTime : string := "PUBLIC_COMP_TIME".
Definition OvertimePublicSafety7k : string := "PUBLIC_SAFETY_7K".
Definition OvertimePieceRateAverage : string := "PIECE_RATE_AVERAGE".

Record DailyRule : Type := mkDailyRule { OTAfter : Z; DTAfter : Z }.
Record PeriodRule : Type := mkPeriodRule { per_Days : Z; per_OTAfter : Z }.
Record SeventhDayRule : Type := mkSeventhDayRule { sev_Enabled : bool; OTUpTo : Z }.
Record AlternativeRule : Type := mkAlternativeRule {
  alt_Allowed : bool; alt_DTAfter : Z; UnscheduledDay : DailyRule
}.
Record PieceRestRule : Type := mkPieceRestRule {
  pr_Enabled : bool; RestFloor : Z; NonproductiveFloor : Z
}.
Record CompTimeRule : Type := mkCompTimeRule { ct_Enabled : bool; AccrualFactor : Z; ct_Cap : Z }.

#[export] Instance DailyRule_eq_dec : EqDecision DailyRule.
Proof. solve_decision. Defined.

Definition Include : string := "INCLUDE".
Definition Exclude : string := "EXCLUDE".
Record Treatment : Type := mkTreatment { Inclusion : string; Basis : string }.

Definition Treatment_validate (t : Treatment) : outcome timecalc_err unit :=
  _ ← fail_if (negb (bool_decide (Inclusion t = Include)) && negb (bool_decide (Inclusion t = Exclude)))
        ErrTreatmentUndeclared;
  fail_if (is_blank (Basis t)) ErrTreatmentUndeclared.

Record Window : Type := mkWindow { StartMinute : Z; EndMinute : Z }.
Record DifferentialRule : Type := mkDifferentialRule {
  Tag : string; PerHour : Z; Percent : Z; diff_Window : option Window; diff_Treatment : Treatment
}.
Record OnCallRule : Type := mkOnCallRule {
  oc_Enabled : bool; OnPremisesEngaged : bool; EngagedResponseMinutes : Z; EngagedExpectedCalls : Z;
  StandbyPerHour : Z; Standby : Treatment
}.

Definition BasisRegularRate : string := "REGULAR_RATE".
Definition BasisMinimumWage : string := "MINIMUM_WAGE".
Definition BasisShiftRate : string := "SHIFT_RATE".
Definition RateBasis_valid (b : string) : bool :=
  bool_decide (b = BasisRegularRate) || bool_decide (b = BasisMinimumWage) || bool_decide (b = BasisShiftRate).

Record ReportingRule : Type := mkReportingRule {
  rep_Enabled : bool; TriggerNum : Z; TriggerDen : Z; GuaranteeNum : Z; GuaranteeDen : Z;
  rep_Min : Z; rep_Max : Z; CapAtScheduled : bool; rep_Basis : string
}.
Record CallBackRule : Type := mkCallBackRule { cb_Enabled : bool; Minimum : Z; cb_Basis : string }.
Record SplitShiftRule : Type := mkSplitShiftRule {
  ss_Enabled : bool; GapMoreThan : Z; PremiumSeconds : Z; OffsetByExcess : bool; ss_Treatment : Treatment
}.

Record RuleSet : Type := mkRuleSet {
  rs_ID : string; Version : string; Jurisdiction : string; Citation : string;
  Methods : list string;
  Daily : DailyRule;
  Period : PeriodRule;
  SeventhDay : SeventhDayRule;
  Alternative : AlternativeRule;
  OvertimeFactor : Z;
  DoubleTimeFactor : Z;
  RateDecimals : Z;
  PayDecimals : Z;
  Rounding : RoundingMode;
  MinimumWage : Z;
  PieceRest : PieceRestRule;
  CompTime : CompTimeRule;
  Differentials : list DifferentialRule;
  OnCall : OnCallRule;
  ReportingTime : ReportingRule;
  CallBack : CallBackRule;
  SplitShift : SplitShiftRule
}.

Definition RuleSet_allows (r : RuleSet) (m : string) : bool :=
  existsb (fun have => bool_decide (have = m)) (Methods r).

(** The rule with its [ok] result: [None] is [DifferentialRule{}, false]. *)
Definition RuleSet_differential (r : RuleSet) (tag : string) : option DifferentialRule :=
  List.find (fun d => bool_decide (Tag d = tag)) (Differentials r).

Definition DailyRule_validate (d : DailyRule) : outcome timecalc_err unit :=
  fail_if ((OTAfter d <? 0) || (DTAfter d <? 0)
           || ((0 <? OTAfter d) && (0 <? DTAfter d) && (DTAfter d <=? OTAfter d))) ErrInvalidRuleSet.

Definition method_ok (r : RuleSet) (m : string) : bool :=
  if bool_decide (m = OvertimeNone) || bool_decide (m = OvertimeSingleRate)
     || bool_decide (m = OvertimeWeightedAverage) || bool_decide (m = OvertimePieceRateAverage) then true
  else if bool_decide (m = OvertimeFluctuatingWeek) then per_Days (Period r) =? 7
  else if bool_decide (m = OvertimeHealthcare880) then (per_Days (Period r) =? 14) && (0 <? OTAfter (Daily r))
  else if bool_decide (m = OvertimePublicSafety7k) then 7 <=? per_Days (Period r)
  else if bool_decide (m = OvertimePublicCompTime) then ct_Enabled (CompTime r)
  else false.

Definition RuleSet_validateMethods (r : RuleSet) : outcome timecalc_err unit :=
  _ ← fail_if (bool_decide (Methods r = [])) ErrInvalidRuleSet;
  fail_if (existsb (fun m => negb (method_ok r m)) (Methods r)) ErrInvalidRuleSet.

Definition validate_differential (seen : list string) (d : DifferentialRule) : outcome timecalc_err unit :=
  _ ← fail_if (is_blank (Tag d) || bool_decide (Tag d ∈ seen)) ErrInvalidRuleSet;
  _ ← fail_if (Bool.eqb (0 <? PerHour d) (0 <? Percent d) || (PerHour d <? 0) || (Percent d <? 0)) ErrInvalidRuleSet;
  _ ← fail_if (match diff_Window d with
               | Some w => (StartMinute w <? 0) || (1440 <=? StartMinute w) || (EndMinute w <? 0)
                           || (1440 <=? EndMinute w) || (StartMinute w =? EndMinute w)
               | None => false
               end) ErrInvalidRuleSet;
  Treatment_validate (diff_Treatment d).

Fixpoint validate_differentials (seen : list string) (ds : list DifferentialRule) : outcome timecalc_err unit :=
  match ds with
  | [] => Ok tt
  | d :: ds' => _ ← validate_differential seen d; validate_differentials (Tag d :: seen) ds'
  end.

Definition RuleSet_validatePremiums (r : RuleSet) : outcome timecalc_err unit :=
  let o := OnCall r in let p := ReportingTime r in let c := CallBack r in let s := SplitShift r in
  _ ← (if oc_Enabled o then
         _ ← fail_if ((EngagedResponseMinutes o <? 0) || (EngagedExpectedCalls o <? 0) || (StandbyPerHour o <? 0)) ErrInvalidRuleSet;
         if 0 <? StandbyPerHour o then Treatment_validate (Standby o) else Ok tt
       else Ok tt);
  needsMin ← (if rep_Enabled p then
         _ ← fail_if ((GuaranteeNum p <=? 0) || (GuaranteeDen p <=? 0) || (TriggerNum p <? 0) || (TriggerDen p <? 0)
                      || negb (Bool.eqb (0 <? TriggerDen p) (0 <? TriggerNum p))) ErrInvalidRuleSet;
         _ ← fail_if ((rep_Min p <? 0) || ((0 <? rep_Max p) && (rep_Max p <? rep_Min p)) || negb (RateBasis_valid (rep_Basis p))) ErrInvalidRuleSet;
         Ok (bool_decide (rep_Basis p = BasisMinimumWage))
       else Ok false);
  needsMin ← (if cb_Enabled c then
         _ ← fail_if ((Minimum c <=? 0) || negb (RateBasis_valid (cb_Basis c))) ErrInvalidRuleSet;
         Ok (needsMin || bool_decide (cb_Basis c = BasisMinimumWage))
       else Ok needsMin);
  needsMin ← (if ss_Enabled s then
         _ ← fail_if ((GapMoreThan s <=? 0) || (PremiumSeconds s <=? 0)) ErrInvalidRuleSet;
         _ ← Treatment_validate (ss_Treatment s);
         Ok true
       else Ok needsMin);
  fail_if (needsMin && (MinimumWage r <=? 0)) ErrInvalidRuleSet.

Definition RuleSet_Validate (r : RuleSet) : outcome timecalc_err unit :=
  _ ← fail_if (is_blank (rs_ID r) || is_blank (Version r) || is_blank (Jurisdiction r)) ErrInvalidRuleSet;
  _ ← fail_if (negb (RoundingMode_Valid (Rounding r))) ErrInvalidRuleSet;
  _ ← fail_if ((RateDecimals r <? 0) || (moneyScale <? RateDecimals r) || (PayDecimals r <? 0)
               || (moneyScale <? PayDecimals r)) ErrInvalidRuleSet;
  _ ← fail_if ((per_Days (Period r) <? 1) || (28 <? per_Days (Period r)) || (per_OTAfter (Period r) <? 0)) ErrInvalidRuleSet;
  _ ← DailyRule_validate (Daily r);
  _ ← fail_if ((OvertimeFactor r <? One) || (DoubleTimeFactor r <? OvertimeFactor r)) ErrInvalidRuleSet;
  _ ← fail_if (sev_Enabled (SeventhDay r) && (negb (Z.rem (per_Days (Period r)) 7 =? 0) || (OTUpTo (SeventhDay r) <=? 0))) ErrInvalidRuleSet;
  _ ← (if alt_Allowed (Alternative r) then
         _ ← fail_if (alt_DTAfter (Alternative r) <=? 0) ErrInvalidRuleSet;
         DailyRule_validate (UnscheduledDay (Alternative r))
       else Ok tt);
  _ ← fail_if (MinimumWage r <? 0) ErrInvalidRuleSet;
  _ ← fail_if (ct_Enabled (CompTime r) && ((AccrualFactor (CompTime r) <=? 0) || (ct_Cap (CompTime r) <=? 0))) ErrInvalidRuleSet;
  _ ← RuleSet_validateMethods r;
  _ ← validate_differentials [] (Differentials r);
  RuleSet_validatePremiums r.

(** * Overrides *)

Record Override : Type := mkOverride {
  Source : string; DailyOTAfter : Z; DailyDTAfter : Z; PeriodOTAfter : Z;
  ov_OvertimeFactor : Z; ov_DoubleTimeFactor : Z
}.

(** [lower] and [higher]: the value the base field has afterwards. *)
Definition lower (base v : Z) : outcome timecalc_err Z :=
  if v =? 0 then Ok base
  else _ ← fail_if ((v <? 0) || ((0 <? base) && (base <? v))) ErrLessFavorable; Ok v.
Definition higher (base v : Z) : outcome timecalc_err Z :=
  if v =? 0 then Ok base else _ ← fail_if (v <? base) ErrLessFavorable; Ok v.

Definition RuleSet_WithOverride (r : RuleSet) (o : Override) : outcome timecalc_err RuleSet :=
  _ ← RuleSet_Validate r;
  _ ← fail_if (is_blank (Source o)) ErrInvalidRuleSet;
  ot ← lower (OTAfter (Daily r)) (DailyOTAfter o);
  dt ← lower (DTAfter (Daily r)) (DailyDTAfter o);
  period ← lower (per_OTAfter (Period r)) (PeriodOTAfter o);
  f1 ← higher (OvertimeFactor r) (ov_OvertimeFactor o);
  f2 ← higher (DoubleTimeFactor r) (ov_DoubleTimeFactor o);
  let out := mkRuleSet (rs_ID r) (Version r +:+ "+cba:" +:+ Source o) (Jurisdiction r) (Citation r) (Methods r)
    (mkDailyRule ot dt) (mkPeriodRule (per_Days (Period r)) period) (SeventhDay r) (Alternative r) f1 f2
    (RateDecimals r) (PayDecimals r) (Rounding r) (MinimumWage r) (PieceRest r) (CompTime r) (Differentials r)
    (OnCall r) (ReportingTime r) (CallBack r) (SplitShift r) in
  _ ← RuleSet_Validate out;
  Ok out.

(** * Requests *)

Definition KindProductive : string := "PRODUCTIVE".
Definition KindNonproductive : string := "NONPRODUCTIVE".
Definition KindRest : string := "REST".

Record Interval : Type := mkWorkInterval {
  iv_ID : string; iv_AggregationKey : string; Assignment : string; iv_Start : GoTime; iv_End : GoTime;
  iv_Zone : string; iv_RateCode : string; iv_Rate : Z; Job : string; iv_Kind : string;
  iv_Differentials : list string; PieceUnits : Z; PieceEarnings : Z; CallBackID : string
}.
Record Workweek : Type := mkWorkweek {
  ww_Zone : string; StartWeekday : Z; ww_StartHour : Z; ww_StartMinute : Z
}.
Record Date : Type := mkDate { dt_Year : Z; dt_Month : Z; dt_Day : Z }.
Record EarningItem : Type := mkEarningItem {
  ei_Code : string; ei_Period : Z; ei_Amount : Z; ei_Treatment : Treatment
}.
Record ScheduledDay : Type := mkScheduledDay { sd_Day : Z; Scheduled : Z }.
Record AlternativeSchedule : Type := mkAlternativeSchedule { as_ID : string; as_Days : list ScheduledDay }.
Record Restrictions : Type := mkRestrictions { OnPremises : bool; ResponseMinutes : Z; ExpectedCalls : Z }.
Record OnCallPeriod : Type := mkOnCallPeriod {
  oc_ID : string; oc_Start : GoTime; oc_End : GoTime; oc_RateCode : string; oc_Rate : Z; oc_Restrictions : Restrictions
}.
Record ScheduledShift : Type := mkScheduledShift {
  sh_ID : string; sh_Start : GoTime; sh_End : GoTime; Reported : bool; sh_Rate : Z
}.
Record Request : Type := mkRequest {
  CalculationID : string; req_AggregationKey : string; Method : string; req_Workweek : Workweek;
  PeriodStart : Date; Days : Z; Intervals : list Interval; Earnings : list EarningItem;
  WeeklySalary : Z; req_Alternative : option AlternativeSchedule; CompTimeBefore : Z;
  req_OnCall : list OnCallPeriod; Shifts : list ScheduledShift
}.

(** [u.After(t)] of two [time.Time]. *)
Definition time_After (u t : GoTime) : bool :=
  (t_unix t <? t_unix u) || ((t_unix t =? t_unix u) && (t_nanosecond t <? t_nanosecond u)).

Definition Interval_validate (iv : Interval) (req : Request) (rules : RuleSet) : outcome timecalc_err unit :=
  _ ← fail_if (is_blank (iv_ID iv)) ErrInvalidRequest;
  _ ← fail_if (negb (bool_decide (iv_AggregationKey iv = req_AggregationKey req))) ErrInvalidRequest;
  _ ← fail_if (negb (time_After (iv_End iv) (iv_Start iv)) || negb (t_nanosecond (iv_Start iv) =? 0)
               || negb (t_nanosecond (iv_End iv) =? 0)) ErrInvalidRequest;
  _ ← fail_if (bool_decide (iv_Zone iv = "")) ErrInvalidRequest;
  _ ← fail_if (negb (bool_decide (iv_Kind iv = KindProductive)) && negb (bool_decide (iv_Kind iv = KindNonproductive))
               && negb (bool_decide (iv_Kind iv = KindRest))) ErrInvalidRequest;
  _ ← fail_if ((iv_Rate iv <? 0) || (PieceEarnings iv <? 0) || (PieceUnits iv <? 0)) ErrInvalidRequest;
  _ ← fail_if ((0 <? PieceEarnings iv) && negb (bool_decide (Method req = OvertimePieceRateAverage))) ErrInvalidRequest;
  _ ← fail_if (bool_decide (Method req = OvertimeFluctuatingWeek) && negb (iv_Rate iv =? 0)) ErrInvalidRequest;
  _ ← fail_if (negb (bool_decide (CallBackID iv = "")) && negb (cb_Enabled (CallBack rules))) ErrRuleDisabled;
  fail_if (existsb (fun tag => negb (bool_decide (is_Some (RuleSet_differential rules tag)))) (iv_Differentials iv))
    ErrUnknownDifferential.

(** The loop over the intervals, with those before the current one. *)
Fixpoint validate_intervals (req : Request) (rules : RuleSet) (before ivs : list Interval) : outcome timecalc_err unit :=
  match ivs with
  | [] => Ok tt
  | iv :: ivs' =>
      _ ← Interval_validate iv req rules;
      _ ← fail_if (existsb (fun other => bool_decide (iv_ID other = iv_ID iv)) before) ErrInvalidRequest;
      validate_intervals req rules (before ++ [iv]) ivs'
  end.

(** The single-rate loop. *)
Fixpoint single_rate (rate : Z) (ivs : list Interval) : outcome timecalc_err unit :=
  match ivs with
  | [] => Ok tt
  | iv :: ivs' =>
      _ ← fail_if (negb (rate =? 0) && negb (iv_Rate iv =? 0) && negb (iv_Rate iv =? rate)) ErrInvalidRequest;
      single_rate (Z.max rate (iv_Rate iv)) ivs'
  end.

Fixpoint validate_earnings (periods : Z) (es : list EarningItem) : outcome timecalc_err unit :=
  match es with
  | [] => Ok tt
  | e :: es' =>
      _ ← fail_if (is_blank (ei_Code e) || (ei_Amount e <=? 0) || (ei_Period e <? 0) || (periods <=? ei_Period e)) ErrInvalidRequest;
      _ ← Treatment_validate (ei_Treatment e);
      validate_earnings periods es'
  end.

Definition Request_validate (req : Request) (rules : RuleSet) : outcome timecalc_err unit :=
  _ ← fail_if (is_blank (CalculationID req) || is_blank (req_AggregationKey req)) ErrInvalidRequest;
  _ ← fail_if (negb (RuleSet_allows rules (Method req))) ErrMethodNotAllowed;
  _ ← (if Days req <=? 0 then Err ErrInvalidRequest
       else if per_Days (Period rules) =? 0 then Panic
       else fail_if (negb (Z.rem (Days req) (per_Days (Period rules)) =? 0)) ErrInvalidRequest);
  _ ← fail_if ((ww_StartHour (req_Workweek req) <? 0) || (23 <? ww_StartHour (req_Workweek req))
               || (ww_StartMinute (req_Workweek req) <? 0) || (59 <? ww_StartMinute (req_Workweek req))) ErrInvalidRequest;
  let periods := Z.quot (Days req) (per_Days (Period rules)) in
  _ ← fail_if (bool_decide (Method req = OvertimeFluctuatingWeek) && (WeeklySalary req <=? 0)) ErrInvalidRequest;
  _ ← fail_if (CompTimeBefore req <? 0) ErrInvalidRequest;
  _ ← validate_intervals req rules [] (Intervals req);
  _ ← (if bool_decide (Method req = OvertimeSingleRate) then single_rate 0 (Intervals req) else Ok tt);
  _ ← validate_earnings periods (Earnings req);
  _ ← match req_Alternative req with
      | None => Ok tt
      | Some a =>
          _ ← fail_if (negb (alt_Allowed (Alternative rules))) ErrRuleDisabled;
          fail_if (existsb (fun d => (sd_Day d <? 0) || (Days req <=? sd_Day d) || (Scheduled d <=? 0)
                                     || (alt_DTAfter (Alternative rules) <=? Scheduled d)) (as_Days a)) ErrInvalidRequest
      end;
  _ ← fail_if (negb (bool_decide (req_OnCall req = [])) && negb (oc_Enabled (OnCall rules))) ErrRuleDisabled;
  _ ← fail_if (existsb (fun o => is_blank (oc_ID o) || negb (time_After (oc_End o) (oc_Start o)) || (oc_Rate o <? 0)
                 || (ResponseMinutes (oc_Restrictions o) <? 0) || (ExpectedCalls (oc_Restrictions o) <? 0)) (req_OnCall req)) ErrInvalidRequest;
  _ ← fail_if (negb (bool_decide (Shifts req = [])) && negb (rep_Enabled (ReportingTime rules))) ErrRuleDisabled;
  fail_if (existsb (fun s => is_blank (sh_ID s) || negb (time_After (sh_End s) (sh_Start s)) || (sh_Rate s <? 0)) (Shifts req))
    ErrInvalidRequest.

(** * Lemmas *)

(** A threshold that reaches overtime no later: 0 disables a threshold. *)
Definition stricter (new base : Z) : Prop := 0 < base -> 0 < new <= base.

(** What a collective agreement may not change. *)
Definition same_terms (r r' : RuleSet) : Prop :=
  rs_ID r' = rs_ID r /\ Jurisdiction r' = Jurisdiction r /\ Citation r' = Citation r /\ Methods r' = Methods r
  /\ per_Days (Period r') = per_Days (Period r) /\ SeventhDay r' = SeventhDay r /\ Alternative r' = Alternative r
  /\ RateDecimals r' = RateDecimals r /\ PayDecimals r' = PayDecimals r /\ Rounding r' = Rounding r
  /\ MinimumWage r' = MinimumWage r /\ PieceRest r' = PieceRest r /\ CompTime r' = CompTime r
  /\ Differentials r' = Differentials r /\ OnCall r' = OnCall r /\ ReportingTime r' = ReportingTime r
  /\ CallBack r' = CallBack r /\ SplitShift r' = SplitShift r.

(** A value of the override that would take something away. *)
Definition raises (base v : Z) : Prop := v < 0 \/ 0 < base < v.
Definition reduces (base v : Z) : Prop := v <> 0 /\ v < base.
Definition less_favorable (r : RuleSet) (o : Override) : Prop :=
  raises (OTAfter (Daily r)) (DailyOTAfter o) \/ raises (DTAfter (Daily r)) (DailyDTAfter o)
  \/ raises (per_OTAfter (Period r)) (PeriodOTAfter o) \/ reduces (OvertimeFactor r) (ov_OvertimeFactor o)
  \/ reduces (DoubleTimeFactor r) (ov_DoubleTimeFactor o).

Definition given (base v : Z) : Z := if v =? 0 then base else v.

Lemma lower_cases base v :
  (lower base v = Ok (given base v) /\ ~ raises base v) \/ (lower base v = Err ErrLessFavorable /\ raises base v).
Proof.
  unfold lower, given, raises. destruct (Z.eqb_spec v 0); [left; split; [done|lia]|].
  destruct ((v <? 0) || ((0 <? base) && (base <? v))) eqn:E; cbn [fail_if mbind outcome_bind]; [right|left];
    (split; [done|]); destruct (Z.ltb_spec v 0), (Z.ltb_spec 0 base), (Z.ltb_spec base v); cbn in E; try done; lia.
Qed.

Lemma higher_cases base v :
  (higher base v = Ok (given base v) /\ ~ reduces base v) \/ (higher base v = Err ErrLessFavorable /\ reduces base v).
Proof.
  unfold higher, given, reduces. destruct (Z.eqb_spec v 0); [left; split; [done|lia]|].
  destruct (Z.ltb_spec v base); cbn [fail_if mbind outcome_bind]; [right|left]; (split; [done|lia]).
Qed.

Lemma given_stricter base v : 0 <= base -> ~ raises base v -> stricter (given base v) base /\ 0 <= given base v.
Proof. unfold given, raises, stricter. intros. destruct (Z.eqb_spec v 0); lia. Qed.

Lemma given_higher base v : ~ reduces base v -> base <= given base v.
Proof. unfold given, reduces. intros. destruct (Z.eqb_spec v 0); lia. Qed.

Lemma DailyRule_validate_ok d : DailyRule_validate d = Ok tt ->
  0 <= OTAfter d /\ 0 <= DTAfter d /\ (0 < OTAfter d -> 0 < DTAfter d -> OTAfter d < DTAfter d).
Proof.
  unfold DailyRule_validate. intros H. apply fail_if_ok in H.
  destruct (Z.ltb_spec (OTAfter d) 0), (Z.ltb_spec (DTAfter d) 0), (Z.ltb_spec 0 (OTAfter d)), (Z.ltb_spec 0 (DTAfter d)),
    (Z.leb_spec (DTAfter d) (OTAfter d)); cbn in H; try done; lia.
Qed.

(** The facts about thresholds that a validated rule set gives. *)
Record rules_ok (r : RuleSet) : Prop := mk_rules_ok {
  ok_days : 1 <= per_Days (Period r) <= 28;
  ok_period : 0 <= per_OTAfter (Period r);
  ok_daily : DailyRule_validate (Daily r) = Ok tt;
  ok_factors : One <= OvertimeFactor r <= DoubleTimeFactor r;
  ok_seventh : sev_Enabled (SeventhDay r) = true -> Z.rem (per_Days (Period r)) 7 = 0 /\ 0 < OTUpTo (SeventhDay r);
  ok_alternative : alt_Allowed (Alternative r) = true ->
    0 < alt_DTAfter (Alternative r) /\ DailyRule_validate (UnscheduledDay (Alternative r)) = Ok tt;
  ok_comp : ct_Enabled (CompTime r) = true -> 0 < AccrualFactor (CompTime r) /\ 0 < ct_Cap (CompTime r);
  ok_rounding : RoundingMode_Valid (Rounding r) = true;
  ok_decimals : 0 <= RateDecimals r <= 4 /\ 0 <= PayDecimals r <= 4;
  ok_methods : RuleSet_allows r OvertimePublicCompTime = true -> ct_Enabled (CompTime r) = true
}.

(** Turns the guards that a run passed into facts. *)
Ltac bool_inv :=
  repeat match goal with
  | H : _ || _ = false |- _ => apply orb_false_iff in H as [? ?]
  | H : true && _ = false |- _ => cbn [andb] in H
  | H : negb _ = false |- _ => apply negb_false_iff in H
  end.

Lemma RuleSet_Validate_ok r u : RuleSet_Validate r = Ok u -> rules_ok r.
Proof.
  unfold RuleSet_Validate, moneyScale. intros H. ok_inv. bool_inv. constructor; try done; try lia.
  - intros Hs. rewrite Hs in *. bool_inv. lia.
  - intros Hs. rewrite Hs in *. ok_inv. split; [lia|done].
  - intros Hs. rewrite Hs in *. bool_inv. lia.
  - intros Ha. unfold RuleSet_allows in Ha. apply existsb_exists in Ha as (m & Hm & E). apply bool_decide_eq_true in E as ->.
    unfold RuleSet_validateMethods in *. ok_inv.
    match goal with H : existsb _ (Methods r) = false |- _ => rename H into He end.
    destruct (ct_Enabled (CompTime r)) eqn:Ec; [done|]. rewrite (proj2 (existsb_exists _ _)) in He; [done|].
    exists OvertimePublicCompTime. split; [done|]. unfold method_ok. cbn. by rewrite Ec.
Qed.

(** Validation reports no other error than these, and never panics. *)
Definition rule_error (e : timecalc_err) : Prop := e = ErrInvalidRuleSet \/ e = ErrTreatmentUndeclared.
Definition only_rule_errors {A} (m : outcome timecalc_err A) : Prop :=
  match m with Ok _ => True | Err e => rule_error e | Panic => False end.

Lemma only_bind {A B} (m : outcome timecalc_err A) (k : A -> outcome timecalc_err B) :
  only_rule_errors m -> (forall a, only_rule_errors (k a)) -> only_rule_errors (m ≫= k).
Proof. destruct m; cbn; auto. Qed.

Lemma only_fail_if b : only_rule_errors (fail_if b ErrInvalidRuleSet).
Proof. destruct b; [by left | done]. Qed.

Lemma only_fail_treatment b : only_rule_errors (fail_if b ErrTreatmentUndeclared).
Proof. destruct b; [by right | done]. Qed.

Ltac only_errors :=
  repeat match goal with
  | |- only_rule_errors (_ ≫= _) => apply only_bind; [|intros ?]
  | |- only_rule_errors (fail_if _ _) => first [apply only_fail_if | apply only_fail_treatment]
  | |- only_rule_errors (Ok _) => exact I
  | |- only_rule_errors (if ?b then _ else _) => destruct b
  end.

Lemma only_treatment t : only_rule_errors (Treatment_validate t).
Proof. unfold Treatment_validate. only_errors. Qed.

Lemma only_differentials ds seen : only_rule_errors (validate_differentials seen ds).
Proof.
  revert seen. induction ds as [|d ds IH]; intros seen; [exact I|]. cbn [validate_differentials].
  apply only_bind; [|intros ?; apply IH]. unfold validate_differential. only_errors. apply only_treatment.
Qed.

Lemma only_validate r : only_rule_errors (RuleSet_Validate r).
Proof.
  unfold RuleSet_Validate, RuleSet_validateMethods, DailyRule_validate, RuleSet_validatePremiums.
  only_errors; apply only_treatment || apply only_differentials.
Qed.

(** What [WithOverride] answers. *)
Lemma WithOverride_spec (r : RuleSet) (o : Override) :
  match RuleSet_WithOverride r o with
  | Ok r' =>
      RuleSet_Validate r = Ok tt /\ RuleSet_Validate r' = Ok tt /\ same_terms r r'
      /\ Version r' = Version r +:+ "+cba:" +:+ Source o
      /\ OTAfter (Daily r') = given (OTAfter (Daily r)) (DailyOTAfter o)
      /\ DTAfter (Daily r') = given (DTAfter (Daily r)) (DailyDTAfter o)
      /\ per_OTAfter (Period r') = given (per_OTAfter (Period r)) (PeriodOTAfter o)
      /\ stricter (OTAfter (Daily r')) (OTAfter (Daily r)) /\ stricter (DTAfter (Daily r')) (DTAfter (Daily r))
      /\ stricter (per_OTAfter (Period r')) (per_OTAfter (Period r))
      /\ OvertimeFactor r <= OvertimeFactor r' /\ DoubleTimeFactor r <= DoubleTimeFactor r'
      /\ ~ less_favorable r o
  | Err e => RuleSet_Validate r = Ok tt -> is_blank (Source o) = false -> (e = ErrLessFavorable <-> less_favorable r o)
  | Panic => False
  end.
Proof.
  unfold RuleSet_WithOverride. pose proof (only_validate r) as Hr.
  destruct (RuleSet_Validate r) as [[]| |] eqn:Ev; cbn [mbind outcome_bind only_rule_errors] in *; [|intros [=]|done].
  apply RuleSet_Validate_ok in Ev as Hok. pose proof (DailyRule_validate_ok _ (ok_daily _ Hok)) as (Hot & Hdt & _).
  pose proof (ok_period _ Hok) as Hp.
  destruct (is_blank (Source o)); cbn [fail_if mbind outcome_bind]; [done|]. unfold less_favorable.
  destruct (lower_cases (OTAfter (Daily r)) (DailyOTAfter o)) as [[-> H1]|[-> H1]]; cbn [mbind outcome_bind]; [|tauto].
  destruct (lower_cases (DTAfter (Daily r)) (DailyDTAfter o)) as [[-> H2]|[-> H2]]; cbn [mbind outcome_bind]; [|tauto].
  destruct (lower_cases (per_OTAfter (Period r)) (PeriodOTAfter o)) as [[-> H3]|[-> H3]]; cbn [mbind outcome_bind]; [|tauto].
  destruct (higher_cases (OvertimeFactor r) (ov_OvertimeFactor o)) as [[-> H4]|[-> H4]]; cbn [mbind outcome_bind]; [|tauto].
  destruct (higher_cases (DoubleTimeFactor r) (ov_DoubleTimeFactor o)) as [[-> H5]|[-> H5]]; cbn [mbind outcome_bind]; [|tauto].
  match goal with |- context [RuleSet_Validate ?x] => pose proof (only_validate x) as Hx; destruct (RuleSet_Validate x) as [[]| |] eqn:Ex end;
    cbn [mbind outcome_bind only_rule_errors Daily Period OTAfter DTAfter per_OTAfter OvertimeFactor DoubleTimeFactor Version] in *;
    [|intros _ _; split; [destruct Hx as [-> | ->]; discriminate | tauto] | done].
  split; [done|]. split; [exact Ex|]. split; [repeat split|]. do 4 (split; [done|]).
  repeat split; try (apply given_stricter; assumption); try (by apply given_higher). tauto.
Qed.

(** What an accepted override gives. *)
Lemma override_facts r o r' : RuleSet_WithOverride r o = Ok r' ->
  RuleSet_Validate r = Ok tt /\ RuleSet_Validate r' = Ok tt /\ same_terms r r'
  /\ stricter (OTAfter (Daily r')) (OTAfter (Daily r)) /\ stricter (DTAfter (Daily r')) (DTAfter (Daily r))
  /\ stricter (per_OTAfter (Period r')) (per_OTAfter (Period r)).
Proof. intros E. pose proof (WithOverride_spec r o) as H. rewrite E in H. tauto. Qed.

(** * Properties *)

(** a collective-agreement override can only favour the worker.  When
    [WithOverride] succeeds, base and result both validate, every given
    threshold is no later and every given factor no lower than the base's, an
    absent (zero) value keeps the base's, and nothing else but the version
    changes.  With a valid base and a named source it answers
    [ErrLessFavorable] exactly when some given value would raise a threshold
    or reduce a factor; it never panics. *)
Theorem override_favorable (r : RuleSet) (o : Override) :
  match RuleSet_WithOverride r o with
  | Ok r' =>
      RuleSet_Validate r = Ok tt /\ RuleSet_Validate r' = Ok tt /\ same_terms r r'
      /\ Version r' = Version r +:+ "+cba:" +:+ Source o
      /\ OTAfter (Daily r') = given (OTAfter (Daily r)) (DailyOTAfter o)
      /\ DTAfter (Daily r') = given (DTAfter (Daily r)) (DailyDTAfter o)
      /\ per_OTAfter (Period r') = given (per_OTAfter (Period r)) (PeriodOTAfter o)
      /\ stricter (OTAfter (Daily r')) (OTAfter (Daily r)) /\ stricter (DTAfter (Daily r')) (DTAfter (Daily r))
      /\ stricter (per_OTAfter (Period r')) (per_OTAfter (Period r))
      /\ OvertimeFactor r <= OvertimeFactor r' /\ DoubleTimeFactor r <= DoubleTimeFactor r'
      /\ ~ less_favorable r o
  | Err e => RuleSet_Validate r = Ok tt -> is_blank (Source o) = false -> (e = ErrLessFavorable <-> less_favorable r o)
  | Panic => False
  end.
Proof. apply WithOverride_spec. Qed.
