(* ===== verification/TimeCalendar.v ===== *)
(** Worked time laid out on workdays: ordering and overlap refusal, the search
    for the workday of an instant, and the split of intervals at workday
    boundaries: [internal/domains/timecalc/calendar.go].

    Instants are Unix seconds ([int64]); every sum and difference taken here is
    between instants of one calculation period. *)

From stdpp Require Import sorting.
From S2P Require Import Prelude Sorting FixedDecimal CivilTime TimeUnits TimeRules.

Local Open Scope Z_scope.

(** [s[i]]: an index outside the slice panics. *)
Definition at_index {A} (l : list A) (i : Z) : outcome timecalc_err A :=
  if i <? 0 then Panic else match l !! Z.to_nat i with Some x => Ok x | None => Panic end.

(** The workday boundaries; the [loc] of the code only formats dates. *)
Record calendar : Type := mkCalendar { bounds : list Z; periodDays : Z }.

Definition calendar_days (c : calendar) : Z := Z.of_nat (length (bounds c)) - 1.

(** The search only asks for indexes inside the slice. *)
Definition bound_at (c : calendar) (i : Z) : Z := default 0 (bounds c !! Z.to_nat i).
Definition calendar_dayOf (c : calendar) (t : Z) : Z :=
  sort_Search (length (bounds c)) (fun i => t <? bound_at c i) - 1.

Record segment : Type := mkSegment { seg_iv : nat; seg_day : Z; seg_start : Z; seg_end : Z }.
Definition segment_secs (s : segment) : Z := seg_end s - seg_start s.

Record span : Type := mkSpan { sp_idx : nat; sp_start : Z; sp_end : Z }.

Definition spans_of (ivs : list Interval) : list span :=
  imap (fun i iv => mkSpan i (t_unix (iv_Start iv)) (t_unix (iv_End iv))) ivs.

Definition id_of (ivs : list Interval) (i : nat) : string := from_option iv_ID "" (ivs !! i).

Definition string_ltb (s t : string) : bool := match String.compare s t with Lt => true | _ => false end.

(** The [less] of [sort.Slice]. *)
Definition span_less (ivs : list Interval) (a b : span) : bool :=
  if negb (sp_start a =? sp_start b) then sp_start a <? sp_start b
  else string_ltb (id_of ivs (sp_idx a)) (id_of ivs (sp_idx b)).

(** [sort.Slice] leaves no element before a smaller one; the sort used here
    is a merge sort. *)
Definition span_le (ivs : list Interval) (a b : span) : Prop := span_less ivs b a = false.
#[export] Instance span_le_dec ivs a b : Decision (span_le ivs a b).
Proof. unfold span_le. apply _. Defined.

Fixpoint check_overlap (prev : span) (spans : list span) : bool :=
  match spans with
  | [] => false
  | s :: spans' => (sp_start s <? sp_end prev) || check_overlap s spans'
  end.

Definition orderSpans (ivs : list Interval) : outcome timecalc_err (list span) :=
  let spans := merge_sort (span_le ivs) (spans_of ivs) in
  match spans with
  | [] => Ok spans
  | s :: spans' => _ ← fail_if (check_overlap s spans') ErrOverlap; Ok spans
  end.

(** The inner loop: one segment per workday touched. *)
Fixpoint split_span (fuel : nat) (c : calendar) (sp : span) (t : Z) : outcome timecalc_err (list segment) :=
  if t <? sp_end sp then
    match fuel with
    | O => Panic
    | S n =>
        let day := calendar_dayOf c t in
        b ← at_index (bounds c) (day + 1);
        let stop := Z.min (sp_end sp) b in
        rest ← split_span n c sp stop;
        Ok (mkSegment (sp_idx sp) day t stop :: rest)
    end
  else Ok [].

Fixpoint segments_loop (c : calendar) (lo hi : Z) (spans : list span) : outcome timecalc_err (list segment) :=
  match spans with
  | [] => Ok []
  | sp :: spans' =>
      _ ← fail_if ((sp_start sp <? lo) || (hi <? sp_end sp)) ErrOutsidePeriod;
      these ← split_span (length (bounds c)) c sp (sp_start sp);
      rest ← segments_loop c lo hi spans';
      Ok (these ++ rest)
  end.

Definition calendar_segments (c : calendar) (spans : list span) : outcome timecalc_err (list segment) :=
  lo ← at_index (bounds c) 0;
  hi ← at_index (bounds c) (calendar_days c);
  segments_loop c lo hi spans.

Definition overlap (aStart aEnd bStart bEnd : Z) : Z :=
  let s := Z.max aStart bStart in let e := Z.min aEnd bEnd in
  if s <? e then e - s else 0.

(** * Lemmas *)

(** ** The workday of an instant *)

(** The boundaries never go back. *)
Definition increasing (c : calendar) : Prop :=
  bounds c <> [] /\ forall i j, 0 <= i <= j -> j <= calendar_days c -> bound_at c i <= bound_at c j.

Lemma at_index_bound c i : 0 <= i <= calendar_days c -> at_index (bounds c) i = Ok (bound_at c i).
Proof.
  unfold calendar_days, at_index, bound_at. intros H. replace (i <? 0) with false by lia.
  destruct (lookup_lt_is_Some_2 (bounds c) (Z.to_nat i)) as [x ->]; [lia|done].
Qed.

Lemma dayOf_spec c t : increasing c -> bound_at c 0 <= t < bound_at c (calendar_days c) ->
  let d := calendar_dayOf c t in
  0 <= d < calendar_days c /\ bound_at c d <= t < bound_at c (d + 1).
Proof.
  intros [Hne Hinc] Ht. unfold calendar_dayOf, sort_Search. set (f := fun i => t <? bound_at c i).
  assert (Hlen : 0 <= calendar_days c). { unfold calendar_days. destruct (bounds c); [done|]. cbn [length]. lia. }
  set (n := Z.of_nat (length (bounds c))). assert (Hn : n = calendar_days c + 1) by (unfold n, calendar_days; lia).
  destruct (search_loop_spec (length (bounds c)) f 0 n 0 n ltac:(lia) ltac:(lia) ltac:(lia) ltac:(lia)) as (R1 & R2 & R3).
  { intros a b Hab Hb. unfold f. rewrite !Z.ltb_lt. intros Ha. pose proof (Hinc a b ltac:(lia) ltac:(lia)). lia. }
  cbv zeta in *. set (r := search_loop (length (bounds c)) f 0 n) in *. clearbody r.
  assert (Hr0 : r <> 0). { intros ->. specialize (R3 ltac:(lia)). unfold f in R3. lia. }
  assert (Hrn : r < n).
  { destruct (Z.lt_ge_cases r n); [done|]. specialize (R2 (calendar_days c) ltac:(lia)). unfold f in R2. lia. }
  specialize (R3 Hrn). specialize (R2 (r - 1) ltac:(lia)). unfold f in R2, R3.
  replace (r - 1 + 1) with r by lia. lia.
Qed.

(** ** Ordering and overlap *)

#[export] Instance span_le_total ivs : Total (span_le ivs).
Proof.
  intros a b. unfold span_le, span_less. rewrite (Z.eqb_sym (sp_start b)).
  destruct (Z.eqb_spec (sp_start a) (sp_start b)) as [_|]; cbn [negb]; [|lia].
  unfold string_ltb. rewrite String.compare_antisym. destruct (String.compare _ _); cbn; auto.
Qed.

Lemma span_le_start ivs a b : span_le ivs a b -> sp_start a <= sp_start b.
Proof.
  unfold span_le, span_less. destruct (Z.eqb_spec (sp_start b) (sp_start a)) as [->|]; cbn [negb]; lia.
Qed.

(** The spans in chronological order, none reaching into the next. *)
Definition before (a b : span) : Prop := sp_end a <= sp_start b.
Definition spans_ok (l : list span) : Prop := Forall (fun s => sp_start s < sp_end s) l.

Lemma StronglySorted_pair {A} (R : A -> A -> Prop) l : StronglySorted R l ->
  forall i j x y, (i < j)%nat -> l !! i = Some x -> l !! j = Some y -> R x y.
Proof.
  induction 1 as [|z l Hl IH Hz]; intros i j x y Hij Hi Hj; [done|].
  destruct j as [|j]; [lia|]. destruct i as [|i]; cbn in *; [|by apply (IH i j x y); [lia|..]].
  simplify_eq. apply list_elem_of_lookup_2 in Hj. rewrite Forall_forall in Hz. auto.
Qed.

Lemma check_overlap_spec s l : spans_ok (s :: l) -> Sorted (fun a b => sp_start a <= sp_start b) (s :: l) ->
  if check_overlap s l
  then exists i j x y, (i < j)%nat /\ (s :: l) !! i = Some x /\ (s :: l) !! j = Some y /\ sp_start x <= sp_start y < sp_end x
  else StronglySorted before (s :: l).
Proof.
  revert s. induction l as [|s' l IH]; intros s Hok Hs; cbn [check_overlap]; [repeat constructor|].
  inversion Hok as [|? ? Hs0 Hok']; subst. inversion Hs as [|? ? Hs' Hh]; subst. inversion Hh as [|? ? Hle]; subst.
  destruct (Z.ltb_spec (sp_start s') (sp_end s)); cbn [orb].
  { exists 0%nat, 1%nat, s, s'. repeat split; [lia|done..]. }
  specialize (IH s' Hok' Hs'). destruct (check_overlap s' l).
  - destruct IH as (i & j & x & y & Hij & Hi & Hj & H'). exists (S i), (S j), x, y. repeat split; [lia|done..|lia|lia].
  - constructor; [done|]. constructor; [done|]. inversion IH as [|? ? _ Hall]; subst. inversion Hok'; subst.
    eapply Forall_impl; [exact Hall|]. unfold before. intros z Hz. cbn in *. lia.
Qed.

(** Two worked intervals share an instant. *)
Definition worked_at (iv : Interval) (t : Z) : Prop := t_unix (iv_Start iv) <= t < t_unix (iv_End iv).
Definition double_booked (ivs : list Interval) : Prop :=
  exists i j a b t, i <> j /\ ivs !! i = Some a /\ ivs !! j = Some b /\ worked_at a t /\ worked_at b t.

Definition nonempty_interval (iv : Interval) : Prop := t_unix (iv_Start iv) < t_unix (iv_End iv).

Lemma spans_of_lookup ivs k s : spans_of ivs !! k = Some s <->
  exists iv, ivs !! k = Some iv /\ s = mkSpan k (t_unix (iv_Start iv)) (t_unix (iv_End iv)).
Proof.
  unfold spans_of. rewrite list_lookup_imap, fmap_Some. done.
Qed.

Lemma elem_of_spans ivs s : s ∈ spans_of ivs <->
  exists iv, ivs !! sp_idx s = Some iv /\ s = mkSpan (sp_idx s) (t_unix (iv_Start iv)) (t_unix (iv_End iv)).
Proof.
  rewrite list_elem_of_lookup. split.
  - intros (k & Hk). apply spans_of_lookup in Hk as (iv & H & ->). cbn. eauto.
  - intros (iv & H & E). exists (sp_idx s). apply spans_of_lookup. eauto.
Qed.

Lemma NoDup_spans ivs : NoDup (spans_of ivs).
Proof.
  apply NoDup_alt. intros i j s Hi Hj. apply spans_of_lookup in Hi as (? & _ & ->).
  apply spans_of_lookup in Hj as (? & _ & [=]). done.
Qed.

Lemma orderSpans_spec ivs : Forall nonempty_interval ivs ->
  match orderSpans ivs with
  | Ok spans => spans ≡ₚ spans_of ivs /\ StronglySorted before spans /\ ~ double_booked ivs
  | Err e => e = ErrOverlap /\ double_booked ivs
  | Panic => False
  end.
Proof.
  intros Hne. unfold orderSpans.
  pose proof (merge_sort_Permutation (span_le ivs) (spans_of ivs)) as Hp.
  pose proof (Sorted_merge_sort (span_le ivs) (spans_of ivs)) as Hs.
  assert (Hst : Sorted (fun a b => sp_start a <= sp_start b) (merge_sort (span_le ivs) (spans_of ivs))).
  { clear -Hs. induction Hs as [|a l _ IH Hh]; constructor; [done|]. destruct Hh; constructor. by eapply span_le_start. }
  assert (Hok : spans_ok (merge_sort (span_le ivs) (spans_of ivs))).
  { unfold spans_ok. rewrite Hp. rewrite Forall_forall. intros s Hin. apply elem_of_spans in Hin as (iv & Hl & ->). cbn.
    rewrite Forall_forall in Hne. apply (Hne iv). by eapply list_elem_of_lookup_2. }
  clear Hs. revert Hp Hst Hok. generalize (merge_sort (span_le ivs) (spans_of ivs)). intros sp Hp Hst Hok.
  assert (Hdisj : StronglySorted before sp -> ~ double_booked ivs).
  { intros Hb (i & j & a & b & t & Hij & Ha & Hbb & Wa & Wb).
    assert (Hi : mkSpan i (t_unix (iv_Start a)) (t_unix (iv_End a)) ∈ sp) by (rewrite Hp; apply elem_of_spans; cbn; eauto).
    assert (Hj : mkSpan j (t_unix (iv_Start b)) (t_unix (iv_End b)) ∈ sp) by (rewrite Hp; apply elem_of_spans; cbn; eauto).
    apply list_elem_of_lookup in Hi as [p Hi], Hj as [q Hj]. unfold worked_at in *.
    destruct (Nat.lt_total p q) as [Hpq|[->|Hpq]]; [| |].
    - pose proof (StronglySorted_pair before sp Hb p q _ _ Hpq Hi Hj) as H. unfold before in H. cbn in H. lia.
    - rewrite Hi in Hj. injection Hj as E _ _. done.
    - pose proof (StronglySorted_pair before sp Hb q p _ _ Hpq Hj Hi) as H. unfold before in H. cbn in H. lia. }
  destruct sp as [|s l]; [split; [done|]; split; [constructor | apply Hdisj; constructor]|].
  pose proof (check_overlap_spec s l Hok Hst) as Hc. destruct (check_overlap s l); cbn [fail_if mbind outcome_bind].
  2: by auto.
  split; [done|]. destruct Hc as (i & j & x & y & Hij & Hi & Hj & H).
  assert (Hx : x ∈ spans_of ivs) by (rewrite <- Hp; by eapply list_elem_of_lookup_2).
  assert (Hy : y ∈ spans_of ivs) by (rewrite <- Hp; by eapply list_elem_of_lookup_2).
  assert (Hnd : NoDup (s :: l)) by (rewrite Hp; apply NoDup_spans).
  assert (Hxy : x <> y). { intros ->. pose proof (NoDup_lookup _ _ _ _ Hnd Hi Hj). lia. }
  unfold spans_ok in Hok. rewrite Forall_forall in Hok. pose proof (Hok y ltac:(by eapply list_elem_of_lookup_2)) as Hy0.
  apply elem_of_spans in Hx as (a & Ha & Ex), Hy as (b & Hb & Ey).
  exists (sp_idx x), (sp_idx y), a, b, (sp_start y).
  split; [intros E; apply Hxy; rewrite E, Hb in Ha; injection Ha as <-; congruence|].
  split; [done|]. split; [done|]. unfold worked_at.
  apply (f_equal sp_start) in Ex as X1, Ey as Y1. apply (f_equal sp_end) in Ex as X2, Ey as Y2. cbn in X1, Y1, X2, Y2. lia.
Qed.

Lemma increasing_sorted c : bounds c <> [] -> Sorted Z.le (bounds c) -> increasing c.
Proof.
  intros Hne Hs. apply (Sorted_StronglySorted Z.le) in Hs. split; [done|]. unfold bound_at, calendar_days. intros i j Hij Hj.
  destruct (Z.eq_dec i j) as [->|]; [lia|].
  destruct (lookup_lt_is_Some_2 (bounds c) (Z.to_nat i) ltac:(lia)) as [x Hx].
  destruct (lookup_lt_is_Some_2 (bounds c) (Z.to_nat j) ltac:(lia)) as [y Hy].
  rewrite Hx, Hy. cbn. eapply (StronglySorted_pair Z.le); [exact Hs | | exact Hx | exact Hy]. lia.
Qed.

(** ** Splitting at workday boundaries *)

(** Seconds of a list of segments on one workday. *)
Definition day_secs (segs : list segment) (d : Z) : Z :=
  foldr (fun s acc => (if seg_day s =? d then segment_secs s else 0) + acc) 0 segs.

Lemma day_secs_app l k d : day_secs (l ++ k) d = day_secs l d + day_secs k d.
Proof. unfold day_secs. induction l as [|s l IH]; cbn [app foldr]; [lia|]. rewrite IH. lia. Qed.

(** A segment lies inside its workday and inside its span. *)
Definition segment_ok (c : calendar) (s : segment) : Prop :=
  0 <= seg_day s < calendar_days c
  /\ bound_at c (seg_day s) <= seg_start s < seg_end s /\ seg_end s <= bound_at c (seg_day s + 1).
Definition segment_in (s : segment) (sp : span) : Prop :=
  seg_iv s = sp_idx sp /\ sp_start sp <= seg_start s /\ seg_end s <= sp_end sp.
Definition seg_before (a b : segment) : Prop := seg_end a <= seg_start b.

Lemma split_span_spec c sp : increasing c -> forall fuel t,
  bound_at c 0 <= t -> sp_start sp <= t -> sp_end sp <= bound_at c (calendar_days c) ->
  (t < sp_end sp -> (Z.to_nat (calendar_days c - calendar_dayOf c t) <= fuel)%nat) ->
  exists segs, split_span fuel c sp t = Ok segs
    /\ Forall (fun s => segment_ok c s /\ segment_in s sp /\ t <= seg_start s) segs /\ StronglySorted seg_before segs
    /\ forall d, 0 <= d < calendar_days c ->
         day_secs segs d = overlap t (sp_end sp) (bound_at c d) (bound_at c (d + 1)).
Proof.
  intros Hinc. induction fuel as [|n IH]; intros t Ht0 Hst Hend Hfuel; cbn [split_span];
    (destruct (Z.ltb_spec t (sp_end sp)); [|exists []; split; [done|]; split; [constructor|]; split; [constructor|];
      intros d Hd; cbn; unfold overlap; pose proof (proj2 Hinc d (d + 1) ltac:(lia) ltac:(lia)); case_match; lia]).
  all: destruct (dayOf_spec c t Hinc ltac:(lia)) as [Hd Hb]; cbv zeta in Hd, Hb; set (day := calendar_dayOf c t) in *.
  { specialize (Hfuel ltac:(lia)). lia. }
  rewrite at_index_bound by lia. cbn [mbind outcome_bind]. set (stop := Z.min (sp_end sp) (bound_at c (day + 1))).
  destruct (IH stop) as (rest & E & Hall & Hsort & Hday); [lia|lia|lia| |].
  { intros Hlt. assert (Hs : stop = bound_at c (day + 1)) by lia.
    destruct (dayOf_spec c stop Hinc ltac:(lia)) as [Hd' Hb']. cbv zeta in Hd', Hb'.
    assert (day < calendar_dayOf c stop).
    { destruct (Z.le_gt_cases (calendar_dayOf c stop) day) as [Hle|]; [|done].
      pose proof (proj2 Hinc (calendar_dayOf c stop + 1) (day + 1) ltac:(lia) ltac:(lia)). lia. }
    specialize (Hfuel ltac:(lia)). lia. }
  rewrite E. exists (mkSegment (sp_idx sp) day t stop :: rest). split; [done|]. split; [|split].
  - constructor.
    + split; [|split]; [split; [exact Hd|]|split; [done|]|]; cbn; lia.
    + eapply Forall_impl; [exact Hall|]. cbn. intros s (H1 & H2 & H3). split; [done|]. split; [done|]. lia.
  - constructor; [done|]. eapply Forall_impl; [exact Hall|]. cbn. intros s (_ & _ & H3). exact H3.
  - intros d Hdd. cbn [day_secs foldr]. change (foldr _ 0 rest) with (day_secs rest d). rewrite Hday by done. cbn [seg_day].
    unfold segment_secs, overlap. cbn [seg_start seg_end].
    pose proof (proj2 Hinc d (d + 1) ltac:(lia) ltac:(lia)) as Hdd1.
    destruct (Z.lt_total d day) as [Hc|[->|Hc]].
    + pose proof (proj2 Hinc (d + 1) day ltac:(lia) ltac:(lia)). repeat case_match; lia.
    + repeat case_match; lia.
    + pose proof (proj2 Hinc (day + 1) d ltac:(lia) ltac:(lia)). repeat case_match; lia.
Qed.

Definition span_overlaps (spans : list span) (s e : Z) : Z :=
  foldr (fun sp acc => overlap (sp_start sp) (sp_end sp) s e + acc) 0 spans.
Definition inside (c : calendar) (sp : span) : Prop :=
  bound_at c 0 <= sp_start sp /\ sp_end sp <= bound_at c (calendar_days c).

Lemma seg_before_app l k sp rest : StronglySorted seg_before l -> StronglySorted seg_before k ->
  Forall (fun s => segment_in s sp) l -> Forall (before sp) rest ->
  Forall (fun s => exists sp', sp' ∈ rest /\ segment_in s sp') k -> StronglySorted seg_before (l ++ k).
Proof.
  intros Hl Hk Hin Hb Hk'. induction Hl as [|s l Hl IH Hs]; [done|]. inversion Hin as [|? ? Hs1 Hin']; subst.
  cbn. constructor; [by apply IH|]. apply Forall_app. split; [done|]. eapply Forall_impl; [exact Hk'|]. cbn.
  intros x (sp' & Hsp' & H'). rewrite Forall_forall in Hb. specialize (Hb sp' Hsp').
  unfold seg_before, segment_in, before in *. lia.
Qed.

Lemma segments_spec c spans : increasing c -> spans_ok spans -> StronglySorted before spans ->
  match calendar_segments c spans with
  | Ok segs =>
      Forall (inside c) spans
      /\ Forall (fun s => segment_ok c s /\ exists sp, sp ∈ spans /\ segment_in s sp) segs
      /\ StronglySorted seg_before segs
      /\ forall d, 0 <= d < calendar_days c ->
           day_secs segs d = span_overlaps spans (bound_at c d) (bound_at c (d + 1))
  | Err e => e = ErrOutsidePeriod /\ Exists (fun sp => ~ inside c sp) spans
  | Panic => False
  end.
Proof.
  intros Hinc Hok Hsort. unfold calendar_segments.
  assert (Hlen : 0 <= calendar_days c). { unfold calendar_days. destruct (bounds c) eqn:E; [by destruct Hinc|]. cbn [length]. lia. }
  rewrite !at_index_bound by lia. cbn [mbind outcome_bind].
  induction Hsort as [|sp spans Hsort IH Hall]; cbn [segments_loop].
  { split; [done|]. split; [done|]. split; [constructor|done]. }
  inversion Hok as [|? ? Hsp Hok']; subst. specialize (IH Hok').
  destruct ((sp_start sp <? bound_at c 0) || (bound_at c (calendar_days c) <? sp_end sp)) eqn:Eo; cbn [fail_if mbind outcome_bind].
  { split; [done|]. left. unfold inside. lia. }
  destruct (split_span_spec c sp Hinc (length (bounds c)) (sp_start sp)) as (these & -> & H1 & H2 & H3);
    [lia|lia|lia| |].
  { intros _. pose proof (dayOf_spec c (sp_start sp) Hinc ltac:(lia)) as [Hd _]. unfold calendar_days in *. lia. }
  cbn [mbind outcome_bind]. destruct (segments_loop c _ _ spans) as [rest|e|]; [|destruct IH as [-> IH]; split; [done|by right]|done].
  cbn [mbind outcome_bind]. destruct IH as (I1 & I2 & I3 & I4). split; [constructor; [unfold inside; lia|done]|]. split; [|split].
  - apply Forall_app. split; [eapply Forall_impl; [exact H1|] | eapply Forall_impl; [exact I2|]]; cbn.
    + intros s (S1 & S2 & _). split; [done|]. exists sp. split; [by left|done].
    + intros s (S1 & sp' & S2 & S3). split; [done|]. exists sp'. split; [by right|done].
  - apply (seg_before_app these rest sp spans); [done|done| |done|].
    + eapply Forall_impl; [exact H1|]. cbn. tauto.
    + eapply Forall_impl; [exact I2|]. cbn. intros s (_ & sp' & S2 & S3). eauto.
  - intros d Hd. rewrite day_secs_app, H3, I4 by done. reflexivity.
Qed.

(** * Properties *)

(** [orderSpans] detects double booking exactly.  For non-empty intervals
    it answers [ErrOverlap] if and only if two of them share an instant, and
    otherwise returns all their spans, each once, in chronological order with
    none reaching into the next. *)
Theorem order_spans_exact (ivs : list Interval) : Forall nonempty_interval ivs ->
  match orderSpans ivs with
  | Ok spans => spans ≡ₚ spans_of ivs /\ StronglySorted before spans /\ ~ double_booked ivs
  | Err e => e = ErrOverlap /\ double_booked ivs
  | Panic => False
  end.
Proof. apply orderSpans_spec. Qed.

(** Intervals for the examples. *)
Definition example_interval (id : string) (s e : Z) : Interval :=
  mkWorkInterval id "key" "" (mkGoTime s 0) (mkGoTime e 0) "America/New_York" "" 250000 "" KindProductive [] 0 0 "".

Lemma order_spans_exact_witness :
  orderSpans [example_interval "b" 50000 60000; example_interval "a" 10000 50000]
    = Ok [mkSpan 1 10000 50000; mkSpan 0 50000 60000]
  /\ double_booked [example_interval "b" 40000 60000; example_interval "a" 10000 50000].
Proof.
  split; [vm_compute; reflexivity|].
  pose proof (order_spans_exact [example_interval "b" 40000 60000; example_interval "a" 10000 50000]
    ltac:(repeat constructor)) as H.
  destruct (orderSpans [example_interval "b" 40000 60000; example_interval "a" 10000 50000]) as [x| |] eqn:E;
    [vm_compute in E; discriminate E | exact (proj2 H) | destruct H].
Defined.

(** splitting at workday boundaries loses and invents no worked second.
    For ordered spans and boundaries that never go back, [segments] succeeds
    exactly when every span lies in the calculation period; each segment then
    lies inside its workday and inside its span, the segments are in
    chronological order without overlap, and the seconds on each workday are
    exactly what the spans cover of it.  The binary search always finds the
    workday and no index is out of range. *)
Theorem segments_tile (c : calendar) (spans : list span) : increasing c -> spans_ok spans -> StronglySorted before spans ->
  match calendar_segments c spans with
  | Ok segs =>
      Forall (inside c) spans
      /\ Forall (fun s => segment_ok c s /\ exists sp, sp ∈ spans /\ segment_in s sp) segs
      /\ StronglySorted seg_before segs
      /\ forall d, 0 <= d < calendar_days c ->
           day_secs segs d = span_overlaps spans (bound_at c d) (bound_at c (d + 1))
  | Err e => e = ErrOutsidePeriod /\ Exists (fun sp => ~ inside c sp) spans
  | Panic => False
  end.
Proof. apply segments_spec. Qed.

(** Three workdays, the second one 23 hours long. *)
Definition example_calendar : calendar := mkCalendar [0; 86400; 169200; 255600] 3.

Lemma example_increasing : increasing example_calendar.
Proof. apply increasing_sorted; [discriminate|]. cbn. repeat constructor; lia. Qed.

Lemma segments_tile_witness :
  calendar_segments example_calendar [mkSpan 0 80000 170000]
    = Ok [mkSegment 0 0 80000 86400; mkSegment 0 1 86400 169200; mkSegment 0 2 169200 170000]
  /\ day_secs [mkSegment 0 0 80000 86400; mkSegment 0 1 86400 169200; mkSegment 0 2 169200 170000] 1 = 82800.
Proof.
  assert (E : calendar_segments example_calendar [mkSpan 0 80000 170000]
    = Ok [mkSegment 0 0 80000 86400; mkSegment 0 1 86400 169200; mkSegment 0 2 169200 170000]) by (vm_compute; reflexivity).
  split; [exact E|].
  pose proof (segments_tile example_calendar [mkSpan 0 80000 170000] example_increasing
    ltac:(repeat constructor) ltac:(repeat constructor)) as H.
  rewrite E in H. destruct H as (_ & _ & _ & H). rewrite (H 1) by (vm_compute; split; [discriminate|reflexivity]).
  vm_compute. reflexivity.
Defined.
