(* ===== verification/TimeClassify.v ===== *)
(** Classification of worked time into regular, overtime and double time, and
    compensatory time: [internal/domains/timecalc/classify.go], the buckets of
    [result.go] and the classification step of [calculate.go].

    Seconds are sums of disjoint parts of one calculation period and are not
    wrapped. *)

From stdpp Require Import sorting.
From S2P Require Import Prelude FixedDecimal CivilTime TimeUnits TimeRules TimeCalendar.

Local Open Scope Z_scope.

Inductive Category : Type := Regular | Overtime | DoubleTime.
Inductive Reason : Type := ReasonNone | ReasonDaily | ReasonPeriod | ReasonSeventhDay | ReasonAlternative.

#[export] Instance Category_eq_dec : EqDecision Category.
Proof. solve_decision. Defined.
#[export] Instance Reason_eq_dec : EqDecision Reason.
Proof. solve_decision. Defined.

Record piece : Type := mkPiece {
  p_seg : nat; p_start : Z; p_secs : Z; p_cat : Category; p_reason : Reason; p_comp : bool
}.

Record dayPlan : Type := mkPlan { plan_rule : DailyRule; plan_reason : Reason; plan_seventh : bool }.
Definition zero_plan : dayPlan := mkPlan (mkDailyRule 0 0) ReasonNone false.

Definition workedAll (days : list Z) : bool := forallb (fun s => negb (s <=? 0)) days.

(** The [sched] map: a later entry for the same day replaces an earlier one. *)
Definition schedule_of (a : AlternativeSchedule) : gmap Z Z :=
  foldl (fun m d => <[sd_Day d := Scheduled d]> m) ∅ (as_Days a).

Definition plan_day (req : Request) (rules : RuleSet) (sched : option (gmap Z Z)) (worked : list Z) (d : nat) : dayPlan :=
  if bool_decide (Method req = OvertimeNone) then zero_plan
  else if sev_Enabled (SeventhDay rules) && Nat.eqb (d mod 7) 6 && workedAll (take 7 (drop (d - 6) worked))
  then mkPlan (mkDailyRule (-1) (OTUpTo (SeventhDay rules))) ReasonSeventhDay true
  else match sched with
       | Some m =>
           match m !! Z.of_nat d with
           | Some s => mkPlan (mkDailyRule s (alt_DTAfter (Alternative rules))) ReasonAlternative false
           | None => mkPlan (UnscheduledDay (Alternative rules)) ReasonAlternative false
           end
       | None =>
           if negb (bool_decide (Daily rules = mkDailyRule 0 0)) then mkPlan (Daily rules) ReasonDaily false
           else zero_plan
       end.

Definition planDays (req : Request) (rules : RuleSet) (worked : list Z) : list dayPlan :=
  let sched := schedule_of <$> req_Alternative req in
  map (plan_day req rules sched worked) (seq 0 (length worked)).

(** ** The classification loop *)

(** The variables of [classify] that the loops change. *)
Record cstate : Type := mkCState {
  cs_out : list piece; cs_dayUsed : list Z; cs_period : Z; cs_periodReg : Z
}.

(** The switch: category, reason and length of the next piece. *)
Definition band (plan : dayPlan) (periodOT used periodReg rem : Z) : Category * Reason * Z :=
  let ot := OTAfter (plan_rule plan) in let dt := DTAfter (plan_rule plan) in
  if plan_seventh plan then
    if used <? dt then (Overtime, ReasonSeventhDay, Z.min rem (dt - used)) else (DoubleTime, ReasonSeventhDay, rem)
  else if (0 <? dt) && (dt <=? used) then (DoubleTime, plan_reason plan, rem)
  else if (0 <? ot) && (ot <=? used) then
    (Overtime, plan_reason plan, if 0 <? dt then Z.min rem (dt - used) else rem)
  else
    let bandEnd := if 0 <? ot then Z.min rem (ot - used) else if 0 <? dt then Z.min rem (dt - used) else rem in
    if 0 <? periodOT then
      if periodOT <=? periodReg then (Overtime, ReasonPeriod, bandEnd)
      else (Regular, ReasonNone, Z.min bandEnd (periodOT - periodReg))
    else (Regular, ReasonNone, bandEnd).

(** [s[i] = v] at an index that was read before. *)
Definition set_index {A} (l : list A) (i : Z) (v : A) : list A := <[Z.to_nat i := v]> l.

(** The loop [for rem > 0] over one segment. *)
Fixpoint cut_segment (fuel : nat) (plan : dayPlan) (periodOT : Z) (si : nat) (day t rem : Z) (st : cstate)
    : outcome timecalc_err cstate :=
  if 0 <? rem then
    match fuel with
    | O => Panic
    | S n =>
        used ← at_index (cs_dayUsed st) day;
        let '(cat, reason, limit) := band plan periodOT used (cs_periodReg st) rem in
        let st' := mkCState (cs_out st ++ [mkPiece si t limit cat reason false])
                     (set_index (cs_dayUsed st) day (used + limit)) (cs_period st)
                     (if bool_decide (cat = Regular) then cs_periodReg st + limit else cs_periodReg st) in
        cut_segment n plan periodOT si day (t + limit) (rem - limit) st'
    end
  else Ok st.

(** A segment crosses at most three thresholds. *)
Definition piece_fuel : nat := 4.

Fixpoint classify_loop (periodLen periodOT : Z) (plans : list dayPlan) (si : nat) (segs : list segment) (st : cstate)
    : outcome timecalc_err cstate :=
  match segs with
  | [] => Ok st
  | s :: segs' =>
      if periodLen =? 0 then Panic
      else
        let p := Z.quot (seg_day s) periodLen in
        let st := if negb (p =? cs_period st) then mkCState (cs_out st) (cs_dayUsed st) p 0 else st in
        plan ← at_index plans (seg_day s);
        st ← cut_segment piece_fuel plan periodOT si (seg_day s) (seg_start s) (segment_secs s) st;
        classify_loop periodLen periodOT plans (S si) segs' st
  end.

Definition classify (req : Request) (rules : RuleSet) (segs : list segment) (plans : list dayPlan) (days : Z)
    : outcome timecalc_err (list piece) :=
  let periodOT := if bool_decide (Method req = OvertimeNone) then 0 else per_OTAfter (Period rules) in
  st ← classify_loop (per_Days (Period rules)) periodOT plans 0 segs
         (mkCState [] (replicate (Z.to_nat days) 0) (-1) 0);
  Ok (cs_out st).

(** ** Compensatory time *)

Fixpoint convert_loop (left : Z) (pieces : list piece) : list piece * Z :=
  match pieces with
  | [] => ([], 0)
  | p :: pieces' =>
      if negb (bool_decide (p_cat p = Overtime)) || (left =? 0) then
        let '(out, converted) := convert_loop left pieces' in (p :: out, converted)
      else
        let take := Z.min (p_secs p) left in
        let conv := mkPiece (p_seg p) (p_start p) take (p_cat p) (p_reason p) true in
        let '(out, converted) := convert_loop (left - take) pieces' in
        if take <? p_secs p then
          (conv :: mkPiece (p_seg p) (p_start p + take) (p_secs p - take) (p_cat p) (p_reason p) (p_comp p) :: out,
           take + converted)
        else (conv :: out, take + converted)
  end.

(** Pieces, converted overtime and accrued compensatory time. *)
Definition convertCompTime (pieces : list piece) (rules : RuleSet) (before : Z)
    : outcome timecalc_err (list piece * Z * Z) :=
  let room := ct_Cap (CompTime rules) - before in
  if room <=? 0 then Ok (pieces, 0, 0)
  else
    maxConv ← mulDiv room One (AccrualFactor (CompTime rules)) RoundingTowardZero;
    let '(out, converted) := convert_loop maxConv pieces in
    accrued ← mulDiv converted (AccrualFactor (CompTime rules)) One (Rounding rules);
    Ok (out, converted, accrued).

(** ** Buckets *)

Record Buckets : Type := mkBuckets {
  Worked : Z; b_Regular : Z; b_Overtime : Z; b_DoubleTime : Z; b_CompTime : Z
}.
Definition zero_buckets : Buckets := mkBuckets 0 0 0 0 0.

Definition Buckets_add (b : Buckets) (cat : Category) (s : Z) (comp : bool) : Buckets :=
  match cat with
  | Overtime => mkBuckets (Worked b + s) (b_Regular b) (b_Overtime b + s) (b_DoubleTime b)
                  (if comp then b_CompTime b + s else b_CompTime b)
  | DoubleTime => mkBuckets (Worked b + s) (b_Regular b) (b_Overtime b) (b_DoubleTime b + s) (b_CompTime b)
  | Regular => mkBuckets (Worked b + s) (b_Regular b + s) (b_Overtime b) (b_DoubleTime b) (b_CompTime b)
  end.

Definition Buckets_plus (b o : Buckets) : Buckets :=
  mkBuckets (Worked b + Worked o) (b_Regular b + b_Regular o) (b_Overtime b + b_Overtime o)
    (b_DoubleTime b + b_DoubleTime o) (b_CompTime b + b_CompTime o).

(** ** The classification step of the engine *)

Record CompTimeResult : Type := mkCompTimeResult {
  ConvertedOvertime : Z; Accrued : Z; BalanceBefore : Z; BalanceAfter : Z; comp_Cap : Z
}.

(** What [engine.classify] leaves in the engine; dates and the trace are text. *)
Record classified : Type := mkClassified {
  e_segs : list segment; e_plans : list dayPlan; e_pieces : list piece; e_comp : CompTimeResult;
  e_days : list Buckets; e_periods : list Buckets
}.

Fixpoint worked_loop (segs : list segment) (worked : list Z) : outcome timecalc_err (list Z) :=
  match segs with
  | [] => Ok worked
  | s :: segs' =>
      w ← at_index worked (seg_day s);
      worked_loop segs' (set_index worked (seg_day s) (w + segment_secs s))
  end.

Fixpoint bucket_loop (periodLen : Z) (segs : list segment) (pieces : list piece) (days periods : list Buckets)
    : outcome timecalc_err (list Buckets * list Buckets) :=
  match pieces with
  | [] => Ok (days, periods)
  | p :: pieces' =>
      s ← at_index segs (Z.of_nat (p_seg p));
      b ← at_index days (seg_day s);
      q ← (if periodLen =? 0 then Panic else at_index periods (Z.quot (seg_day s) periodLen));
      bucket_loop periodLen segs pieces'
        (set_index days (seg_day s) (Buckets_add b (p_cat p) (p_secs p) (p_comp p)))
        (set_index periods (Z.quot (seg_day s) periodLen) (Buckets_add q (p_cat p) (p_secs p) (p_comp p)))
  end.

(** [periods] is [len(e.periods)] as [prepare] made it. *)
Definition engine_classify (req : Request) (rules : RuleSet) (cal : calendar) (ivs : list Interval) (periods : Z)
    : outcome timecalc_err classified :=
  spans ← orderSpans ivs;
  segs ← calendar_segments cal spans;
  worked ← worked_loop segs (replicate (Z.to_nat (calendar_days cal)) 0);
  let plans := planDays req rules worked in
  pieces ← classify req rules segs plans (calendar_days cal);
  comp ← (if bool_decide (Method req = OvertimePublicCompTime) then
            converted ← convertCompTime pieces rules (CompTimeBefore req);
            let '(pieces, conv, accrued) := converted in
            Ok (pieces, mkCompTimeResult conv accrued (CompTimeBefore req) (CompTimeBefore req + accrued) (ct_Cap (CompTime rules)))
          else Ok (pieces, mkCompTimeResult 0 0 0 0 0));
  let '(pieces, comp) := comp in
  buckets ← bucket_loop (per_Days (Period rules)) segs pieces
              (replicate (Z.to_nat (calendar_days cal)) zero_buckets) (replicate (Z.to_nat periods) zero_buckets);
  let '(days, periods) := buckets in
  Ok (mkClassified segs plans pieces comp days periods).

(** * Reference definitions

    What the worker is owed, without loops: on one workday, the seconds past
    the double-time threshold, and the seconds before any daily threshold,
    which may be regular; over one period, the latter up to the period
    threshold. *)

Definition double_owed (plan : dayPlan) (w : Z) : Z :=
  if 0 <? DTAfter (plan_rule plan) then Z.max 0 (w - DTAfter (plan_rule plan)) else 0.
Definition straight_cap (plan : dayPlan) (w : Z) : Z :=
  if plan_seventh plan then 0
  else if 0 <? OTAfter (plan_rule plan) then Z.min w (OTAfter (plan_rule plan))
  else if 0 <? DTAfter (plan_rule plan) then Z.min w (DTAfter (plan_rule plan))
  else w.
Definition period_cap (periodOT x : Z) : Z := if 0 <? periodOT then Z.min x periodOT else x.

(** Thresholds as validated rules and requests give them. *)
Definition plan_ok (plan : dayPlan) : Prop :=
  if plan_seventh plan then 0 < DTAfter (plan_rule plan)
  else 0 < OTAfter (plan_rule plan) -> 0 < DTAfter (plan_rule plan) -> OTAfter (plan_rule plan) < DTAfter (plan_rule plan).

(** * Lemmas *)

Definition amount (c c' : Category) (l : Z) : Z :=
  match c, c' with
  | Regular, Regular | Overtime, Overtime | DoubleTime, DoubleTime => l
  | _, _ => 0
  end.

(** Thresholds still ahead: each piece that does not finish its segment
    passes one. *)
Definition stages (plan : dayPlan) (periodOT used reg : Z) : nat :=
  if plan_seventh plan then if used <? DTAfter (plan_rule plan) then 2 else 1
  else if (0 <? DTAfter (plan_rule plan)) && (DTAfter (plan_rule plan) <=? used) then 1
  else if (0 <? OTAfter (plan_rule plan)) && (OTAfter (plan_rule plan) <=? used) then 2
  else if (0 <? periodOT) && (periodOT <=? reg) then 3
  else 4.

Lemma stages_bound plan periodOT used reg : (1 <= stages plan periodOT used reg <= 4)%nat.
Proof. unfold stages. repeat case_match; lia. Qed.

(** Splits every integer comparison of the goal. *)
Ltac split_tests :=
  repeat match goal with
  | |- context [?a <? ?b] => destruct (Z.ltb_spec a b); cbn [andb negb amount]
  | |- context [?a <=? ?b] => destruct (Z.leb_spec a b); cbn [andb negb amount]
  end.

Lemma band_spec plan periodOT used reg rem : plan_ok plan -> 0 <= used -> 0 < rem -> 0 <= reg ->
  (0 < periodOT -> reg <= periodOT) ->
  let '(cat, _, l) := band plan periodOT used reg rem in
  0 < l <= rem
  /\ amount cat DoubleTime l = double_owed plan (used + l) - double_owed plan used
  /\ amount cat Regular l = period_cap periodOT (reg + (straight_cap plan (used + l) - straight_cap plan used)) - reg
  /\ (l < rem -> (stages plan periodOT (used + l) (reg + amount cat Regular l) < stages plan periodOT used reg)%nat).
Proof.
  unfold plan_ok, band, double_owed, straight_cap, period_cap, stages.
  destruct plan as [[ot dt] reason seventh]. cbn [plan_rule OTAfter DTAfter plan_seventh plan_reason].
  intros Hok Hu Hr Hreg Hp. destruct seventh; split_tests; try lia; cbn [amount]; repeat split; try lia; split_tests; lia.
Qed.

(** ** Sums *)

Definition psum (P : piece -> bool) (ps : list piece) : Z :=
  foldr (fun p acc => (if P p then p_secs p else 0) + acc) 0 ps.
Definition zsum (f : Z -> Z) (ds : list Z) : Z := foldr (fun d acc => f d + acc) 0 ds.

Lemma psum_app P l k : psum P (l ++ k) = psum P l + psum P k.
Proof. unfold psum. induction l as [|p l IH]; cbn [app foldr]; [lia|]. rewrite IH. lia. Qed.

Lemma psum_snoc P l p : psum P (l ++ [p]) = psum P l + (if P p then p_secs p else 0).
Proof. rewrite psum_app. cbn. lia. Qed.

Lemma zsum_ext f g ds : (forall d, d ∈ ds -> f d = g d) -> zsum f ds = zsum g ds.
Proof.
  unfold zsum. induction ds as [|d ds IH]; intros H; cbn [foldr]; [done|].
  rewrite (H d), IH; [done | intros x Hx; apply H; by right | by left].
Qed.

Lemma zsum_update f g d ds : NoDup ds -> (forall x, x <> d -> g x = f x) ->
  zsum g ds = zsum f ds + (if bool_decide (d ∈ ds) then g d - f d else 0).
Proof.
  intros Hnd Hg. induction Hnd as [|x ds Hx Hnd IH]; [done|]. unfold zsum in *. cbn [foldr]. rewrite IH.
  destruct (decide (x = d)) as [->|Hne].
  - rewrite (bool_decide_eq_true_2 (d ∈ d :: ds)) by by left. rewrite bool_decide_eq_false_2 by done. lia.
  - rewrite (Hg x Hne). rewrite (bool_decide_ext (d ∈ x :: ds) (d ∈ ds)) by set_solver. lia.
Qed.

Lemma zsum_le f g ds : (forall d, d ∈ ds -> f d <= g d) -> zsum f ds <= zsum g ds.
Proof.
  unfold zsum. induction ds as [|d ds IH]; intros H; cbn [foldr]; [done|].
  specialize (H d ltac:(by left)) as Hd. specialize (IH ltac:(intros x Hx; apply H; by right)). lia.
Qed.

Lemma zsum_zero f ds : (forall d, d ∈ ds -> f d = 0) -> zsum f ds = 0.
Proof.
  unfold zsum. induction ds as [|d ds IH]; intros H; cbn [foldr]; [done|].
  rewrite (H d ltac:(by left)), IH; [done|]. intros x Hx. apply H. by right.
Qed.

Lemma at_index_ok {A} (l : list A) (i : Z) d : 0 <= i < Z.of_nat (length l) ->
  at_index l i = Ok (default d (l !! Z.to_nat i)).
Proof.
  intros H. unfold at_index. replace (i <? 0) with false by lia.
  destruct (lookup_lt_is_Some_2 l (Z.to_nat i)) as [x ->]; [lia|done].
Qed.

Lemma set_index_lookup {A} (l : list A) i j v d : 0 <= i < Z.of_nat (length l) -> 0 <= j ->
  default d (set_index l i v !! Z.to_nat j) = if i =? j then v else default d (l !! Z.to_nat j).
Proof.
  intros Hi Hj. unfold set_index. destruct (Z.eqb_spec i j) as [<-|Hne].
  - rewrite list_lookup_insert_eq by lia. done.
  - rewrite list_lookup_insert_ne by lia. done.
Qed.

Lemma period_cap_step periodOT x d : 0 <= d ->
  period_cap periodOT (period_cap periodOT x + d) = period_cap periodOT (x + d).
Proof. unfold period_cap. destruct (Z.ltb_spec 0 periodOT); lia. Qed.

Lemma straight_cap_mono plan u l : 0 <= l -> straight_cap plan u <= straight_cap plan (u + l).
Proof. intros H. unfold straight_cap. repeat case_match; lia. Qed.

Lemma straight_cap_zero plan : straight_cap plan 0 = 0.
Proof. unfold straight_cap. repeat case_match; lia. Qed.

(** ** The loop invariant *)

Section Loop.
Context (L periodOT n : Z) (plans : list dayPlan) (all : list segment).
Context (HL : 0 < L) (Hplans : Z.of_nat (length plans) = n) (Hok : Forall plan_ok plans).

Definition used_at (st : cstate) (d : Z) : Z := default 0 (cs_dayUsed st !! Z.to_nat d).
Definition plan_at (d : Z) : dayPlan := default zero_plan (plans !! Z.to_nat d).
Definition piece_day (p : piece) : Z := from_option seg_day (-1) (all !! p_seg p).
Definition on_day (d : Z) (p : piece) : bool := piece_day p =? d.
Definition in_period (q : Z) (p : piece) : bool := Z.quot (piece_day p) L =? q.
Definition is_cat (c : Category) (p : piece) : bool := bool_decide (p_cat p = c).
Definition days_of (q : Z) : list Z := seqZ (q * L) L.
Definition straight (f : Z -> Z) (q : Z) : Z := zsum (fun d => straight_cap (plan_at d) (f d)) (days_of q).

(** What the loop has done: the buckets so far are those owed for the time
    so far. *)
Record accounted (st : cstate) : Prop := mk_accounted {
  ac_len : Z.of_nat (length (cs_dayUsed st)) = n;
  ac_used : forall d, 0 <= d < n -> 0 <= used_at st d /\ psum (on_day d) (cs_out st) = used_at st d;
  ac_double : forall d, 0 <= d < n ->
    psum (fun p => on_day d p && is_cat DoubleTime p) (cs_out st) = double_owed (plan_at d) (used_at st d);
  ac_regular : forall q, 0 <= q ->
    psum (fun p => in_period q p && is_cat Regular p) (cs_out st) = period_cap periodOT (straight (used_at st) q);
  ac_period : -1 <= cs_period st;
  ac_current : cs_periodReg st = if cs_period st =? -1 then 0 else period_cap periodOT (straight (used_at st) (cs_period st));
  ac_later : forall d, 0 <= d -> cs_period st < Z.quot d L -> used_at st d = 0
}.

(** The pieces so far are parts of their segments, in time order, and end by [t]. *)
Definition piece_ok (p : piece) : Prop :=
  exists s, all !! p_seg p = Some s /\ seg_start s <= p_start p /\ 0 < p_secs p
    /\ p_start p + p_secs p <= seg_end s /\ p_comp p = false.
Definition piece_before (a b : piece) : Prop := p_start a + p_secs a <= p_start b.
Definition laid_out (out : list piece) (t : Z) : Prop :=
  Forall piece_ok out /\ StronglySorted piece_before out /\ Forall (fun p => p_start p + p_secs p <= t) out.

Lemma plan_at_ok d : plan_ok (plan_at d).
Proof.
  unfold plan_at. destruct (plans !! Z.to_nat d) eqn:E; cbn; [|unfold plan_ok, zero_plan; cbn; lia].
  rewrite Forall_forall in Hok. apply Hok. by eapply list_elem_of_lookup_2.
Qed.

Lemma elem_of_days_of d q : 0 <= q -> d ∈ days_of q <-> 0 <= d /\ Z.quot d L = q.
Proof using HL.
  intros Hq. clear -HL Hq. unfold days_of. rewrite elem_of_seqZ. split; intros H.
  - assert (0 <= d) by nia. split; [done|]. rewrite Z.quot_div_nonneg by lia.
    symmetry. apply (Z.div_unique_pos d L q (d - q * L)); lia.
  - destruct H as [Hd H]. rewrite Z.quot_div_nonneg in H by lia. pose proof (Z.div_mod d L). pose proof (Z.mod_pos_bound d L). nia.
Qed.

Lemma straight_nonneg f q : (forall d, 0 <= d -> 0 <= f d) -> 0 <= q -> 0 <= straight f q.
Proof.
  intros Hf Hq. unfold straight. rewrite <- (zsum_zero (fun _ => 0) (days_of q)) by done.
  apply zsum_le. intros d Hd. apply elem_of_days_of in Hd as [Hd _]; [|done].
  pose proof (straight_cap_mono (plan_at d) 0 (f d) (Hf d Hd)) as H. rewrite straight_cap_zero in H. done.
Qed.

(** Working [l] more seconds on day [d]. *)
Lemma straight_update f g d q : 0 <= q -> 0 <= d -> (forall x, x <> d -> g x = f x) ->
  straight g q = straight f q
    + (if Z.quot d L =? q then straight_cap (plan_at d) (g d) - straight_cap (plan_at d) (f d) else 0).
Proof.
  intros Hq Hd Hg. unfold straight.
  rewrite (zsum_update (fun x => straight_cap (plan_at x) (f x)) (fun x => straight_cap (plan_at x) (g x)) d);
    [|apply NoDup_seqZ | intros x Hx; by rewrite Hg].
  f_equal. rewrite (bool_decide_ext (d ∈ days_of q) (Z.quot d L = q)) by (rewrite elem_of_days_of by done; tauto).
  case_bool_decide; destruct (Z.eqb_spec (Z.quot d L) q); tauto || done.
Qed.

(** One more piece: [st'] is [st] after a piece of [l] seconds of category
    [cat] in segment [si]. *)
Definition with_piece (st : cstate) (si : nat) (day t l : Z) (cat : Category) (reason : Reason) : cstate :=
  mkCState (cs_out st ++ [mkPiece si t l cat reason false])
    (set_index (cs_dayUsed st) day (used_at st day + l)) (cs_period st)
    (if bool_decide (cat = Regular) then cs_periodReg st + l else cs_periodReg st).

Lemma with_piece_used st si day t l cat reason d : Z.of_nat (length (cs_dayUsed st)) = n -> 0 <= day < n -> 0 <= d ->
  used_at (with_piece st si day t l cat reason) d = if day =? d then used_at st day + l else used_at st d.
Proof. intros Hlen Hd Hd'. unfold used_at at 1, with_piece. cbn [cs_dayUsed]. apply set_index_lookup; lia. Qed.

Lemma straight_with_piece st si day t l cat reason q : Z.of_nat (length (cs_dayUsed st)) = n -> 0 <= day < n -> 0 <= q ->
  straight (used_at (with_piece st si day t l cat reason)) q = straight (used_at st) q
    + (if Z.quot day L =? q then straight_cap (plan_at day) (used_at st day + l) - straight_cap (plan_at day) (used_at st day) else 0).
Proof.
  intros Hlen Hd Hq. set (f := fun d => if day =? d then used_at st day + l else used_at st d).
  transitivity (straight f q).
  - apply zsum_ext. intros d Hdd. apply elem_of_days_of in Hdd as [Hd0 _]; [|done]. by rewrite with_piece_used.
  - rewrite (straight_update (used_at st) f day q Hq ltac:(lia)); [|intros x Hx; unfold f; by replace (day =? x) with false by lia].
    unfold f. by rewrite Z.eqb_refl.
Qed.

Lemma amount_eq cat c l : (if bool_decide (cat = c) then l else 0) = amount cat c l.
Proof. destruct cat, c; reflexivity. Qed.

Lemma used_nonneg st d : accounted st -> 0 <= d -> 0 <= used_at st d.
Proof.
  intros [Hlen Hu _ _ _ _ _] Hd. destruct (Z.lt_ge_cases d n); [by apply Hu|].
  unfold used_at. rewrite lookup_ge_None_2 by lia. done.
Qed.

Lemma accounted_step st si s t l cat reason rem : accounted st ->
  all !! si = Some s -> 0 <= seg_day s < n -> cs_period st = Z.quot (seg_day s) L ->
  band (plan_at (seg_day s)) periodOT (used_at st (seg_day s)) (cs_periodReg st) rem = (cat, reason, l) -> 0 < rem ->
  accounted (with_piece st si (seg_day s) t l cat reason) /\ 0 < l <= rem
  /\ (l < rem -> (stages (plan_at (seg_day s)) periodOT (used_at st (seg_day s) + l)
                    (cs_periodReg (with_piece st si (seg_day s) t l cat reason))
                  < stages (plan_at (seg_day s)) periodOT (used_at st (seg_day s)) (cs_periodReg st))%nat).
Proof.
  intros Hac Hsi Hd Hp Hb Hrem. pose proof (used_nonneg st) as Hun. destruct Hac as [Hlen Hu Hdt Hr Hper Hcur Hlat] eqn:Ehac.
  clear Ehac. set (day := seg_day s) in *. assert (Hq0 : 0 <= Z.quot day L) by (apply Z.quot_pos; lia).
  assert (Hcur' : cs_periodReg st = period_cap periodOT (straight (used_at st) (cs_period st))).
  { rewrite Hcur. by replace (cs_period st =? -1) with false by lia. }
  pose proof (straight_nonneg (used_at st) (cs_period st) ltac:(intros; by apply Hun) ltac:(lia)) as Hsn.
  assert (Hreg0 : 0 <= cs_periodReg st /\ (0 < periodOT -> cs_periodReg st <= periodOT)).
  { rewrite Hcur'. unfold period_cap. destruct (Z.ltb_spec 0 periodOT); lia. }
  pose proof (band_spec (plan_at day) periodOT (used_at st day) (cs_periodReg st) rem (plan_at_ok day)
    (proj1 (Hu day Hd)) Hrem (proj1 Hreg0) (proj2 Hreg0)) as HB.
  rewrite Hb in HB. destruct HB as (Hl & HD & HR & HS).
  set (st' := with_piece st si day t l cat reason).
  assert (Hused : forall d, 0 <= d -> used_at st' d = if day =? d then used_at st day + l else used_at st d)
    by (intros d Hd'; by apply with_piece_used).
  assert (Hreg' : cs_periodReg st' = cs_periodReg st + amount cat Regular l).
  { unfold st', with_piece. cbn [cs_periodReg]. rewrite <- amount_eq. destruct (bool_decide _); lia. }
  set (p := mkPiece si t l cat reason false).
  assert (Hpd : piece_day p = day) by (unfold piece_day; cbn; by rewrite Hsi).
  assert (Hout : cs_out st' = cs_out st ++ [p]) by reflexivity.
  pose proof (straight_cap_mono (plan_at day) (used_at st day) l ltac:(lia)) as Hmono.
  pose proof (fun q Hq => straight_with_piece st si day t l cat reason q Hlen Hd Hq) as Hstr. fold st' in Hstr.
  split; [|split; [done|]].
  2: { intros Hlt. rewrite Hreg'. by apply HS. }
  constructor.
  - unfold st', with_piece. cbn [cs_dayUsed]. unfold set_index. by rewrite length_insert.
  - intros d Hd'. rewrite Hused by lia. rewrite Hout, psum_snoc. unfold on_day at 2. rewrite Hpd.
    specialize (Hu d Hd'). destruct (Z.eqb_spec day d) as [<-|]; cbn [p_secs p]; lia.
  - intros d Hd'. rewrite Hused by lia. rewrite Hout, psum_snoc, (Hdt d Hd'). unfold on_day, is_cat. rewrite Hpd.
    cbn [p_cat p_secs p]. destruct (Z.eqb_spec day d) as [<-|]; cbn [andb]; [|lia]. rewrite amount_eq. lia.
  - intros q Hq. rewrite Hout, psum_snoc, (Hr q Hq), (Hstr q Hq). unfold in_period, is_cat. rewrite Hpd. cbn [p_cat p_secs p].
    destruct (Z.eqb_spec (Z.quot day L) q) as [<-|]; cbn [andb]; [|by rewrite !Z.add_0_r]. rewrite amount_eq, HR, Hcur', Hp.
    rewrite period_cap_step by lia. lia.
  - done.
  - change (cs_period st') with (cs_period st). rewrite Hreg', HR, Hcur', (Hstr (cs_period st)) by lia.
    replace (cs_period st =? -1) with false by lia. replace (Z.quot day L =? cs_period st) with true by lia.
    rewrite period_cap_step by lia. lia.
  - intros d Hd' Hlt. change (cs_period st') with (cs_period st) in Hlt. rewrite Hused by done.
    destruct (Z.eqb_spec day d) as [<-|]; [lia|]. by apply Hlat.
Qed.

Lemma laid_out_step out si s t l cat reason : laid_out out t ->
  all !! si = Some s -> seg_start s <= t -> 0 < l -> t + l <= seg_end s ->
  laid_out (out ++ [mkPiece si t l cat reason false]) (t + l).
Proof.
  intros (H1 & H2 & H3) Hs Ht Hl He. split; [|split].
  - apply Forall_app. split; [done|]. constructor; [|done]. exists s. cbn. auto.
  - clear H1. induction H2 as [|p out H2 IH Hp]; cbn; [by repeat constructor|]. inversion H3; subst.
    constructor; [by apply IH|]. apply Forall_app. split; [done|]. constructor; [|done]. done.
  - apply Forall_app. split; [eapply Forall_impl; [exact H3|]; cbn; lia|]. constructor; [cbn; lia|done].
Qed.

Lemma cut_segment_spec si s fuel t rem st : all !! si = Some s -> 0 <= seg_day s < n ->
  cs_period st = Z.quot (seg_day s) L -> accounted st -> laid_out (cs_out st) t ->
  seg_start s <= t -> 0 <= rem -> t + rem = seg_end s ->
  (0 < rem -> (stages (plan_at (seg_day s)) periodOT (used_at st (seg_day s)) (cs_periodReg st) <= fuel)%nat) ->
  exists st', cut_segment fuel (plan_at (seg_day s)) periodOT si (seg_day s) t rem st = Ok st'
    /\ accounted st' /\ laid_out (cs_out st') (seg_end s) /\ cs_period st' = cs_period st
    /\ forall d, 0 <= d -> used_at st' d = if seg_day s =? d then used_at st d + rem else used_at st d.
Proof.
  intros Hsi Hd. revert t rem st. induction fuel as [|f IH]; intros t rem st Hper Hac Hlo Hst Hrem Hend Hfuel; cbn [cut_segment];
    (destruct (Z.ltb_spec 0 rem) as [Hpos|Hz]; [|assert (rem = 0) as -> by lia; exists st; split; [done|]; split; [done|];
      split; [replace (seg_end s) with t by lia; done|]; split; [done|]; intros d _; destruct (_ =? _); lia]).
  { specialize (Hfuel Hpos). pose proof (stages_bound (plan_at (seg_day s)) periodOT (used_at st (seg_day s)) (cs_periodReg st)). lia. }
  rewrite (at_index_ok _ _ 0) by (rewrite (ac_len _ Hac); done). fold (used_at st (seg_day s)). cbn [mbind outcome_bind].
  destruct (band (plan_at (seg_day s)) periodOT (used_at st (seg_day s)) (cs_periodReg st) rem) as [[cat reason] l] eqn:Eb.
  destruct (accounted_step st si s t l cat reason rem Hac Hsi Hd Hper Eb Hpos) as (Hac' & Hl & Hst').
  fold (with_piece st si (seg_day s) t l cat reason). set (st1 := with_piece st si (seg_day s) t l cat reason) in *.
  assert (Hu1 : forall d, 0 <= d -> used_at st1 d = if seg_day s =? d then used_at st (seg_day s) + l else used_at st d).
  { intros d Hd'. apply with_piece_used; [apply (ac_len _ Hac)|done|done]. }
  destruct (IH (t + l) (rem - l) st1) as (st' & -> & A1 & A2 & A3 & A4); try done; try lia.
  - apply laid_out_step with s; [done|done|done|lia|lia].
  - intros Hlt. specialize (Hst' ltac:(lia)). rewrite Hu1, Z.eqb_refl by lia. specialize (Hfuel Hpos). lia.
  - exists st'. split; [done|]. split; [done|]. split; [done|]. split; [done|]. intros d Hd'. rewrite A4, Hu1 by done.
    destruct (Z.eqb_spec (seg_day s) d) as [<-|]; lia.
Qed.

(** Entering a later period starts its counter at zero. *)
Lemma accounted_period st p : accounted st -> cs_period st < p -> accounted (mkCState (cs_out st) (cs_dayUsed st) p 0).
Proof.
  intros [Hlen Hu Hdt Hr Hper Hcur Hlat] Hp. constructor; try done; cbn [cs_period]; [lia| |].
  - replace (p =? -1) with false by lia. cbn [cs_periodReg]. unfold straight. rewrite zsum_zero; [unfold period_cap; destruct (Z.ltb_spec 0 periodOT); lia|].
    intros d Hd. apply elem_of_days_of in Hd as [Hd Hq]; [|lia].
    change (used_at (mkCState (cs_out st) (cs_dayUsed st) p 0) d) with (used_at st d).
    rewrite Hlat by lia. apply straight_cap_zero.
  - intros d Hd Hlt. apply Hlat; lia.
Qed.

Lemma laid_out_later out t t' : laid_out out t -> t <= t' -> laid_out out t'.
Proof.
  intros (H1 & H2 & H3) Ht. split; [done|]. split; [done|]. eapply Forall_impl; [exact H3|]. cbn. lia.
Qed.

Definition seg_le (a b : segment) : Prop := seg_day a <= seg_day b /\ seg_before a b.
Definition seg_on (s : segment) : Prop := 0 <= seg_day s < n /\ seg_start s < seg_end s.

Lemma classify_loop_spec segs : forall pre st t, all = pre ++ segs -> Forall seg_on segs -> StronglySorted seg_le segs ->
  accounted st -> laid_out (cs_out st) t ->
  Forall (fun s => t <= seg_start s /\ cs_period st <= Z.quot (seg_day s) L) segs ->
  exists st' t', classify_loop L periodOT plans (length pre) segs st = Ok st' /\ accounted st' /\ laid_out (cs_out st') t'
    /\ forall d, 0 <= d -> used_at st' d = used_at st d + day_secs segs d.
Proof.
  induction segs as [|s segs IH]; intros pre st t Hall Hon Hs Hac Hlo Hnext; cbn [classify_loop].
  { exists st, t. split; [done|]. split; [done|]. split; [done|]. intros d _. cbn. lia. }
  replace (L =? 0) with false by lia. inversion Hon as [|? ? [Hd Hlt] Hon']; subst. inversion Hs as [|? ? Hs' Hle]; subst.
  inversion Hnext as [|? ? [Ht Hp] Hnext']; subst. set (day := seg_day s) in *.
  set (st0 := if negb (Z.quot day L =? cs_period st) then mkCState (cs_out st) (cs_dayUsed st) (Z.quot day L) 0 else st).
  assert (H0 : accounted st0 /\ cs_period st0 = Z.quot day L /\ cs_out st0 = cs_out st /\ cs_dayUsed st0 = cs_dayUsed st).
  { unfold st0. destruct (Z.eqb_spec (Z.quot day L) (cs_period st)); cbn [negb]; [done|].
    split; [|done]. apply accounted_period; [done|lia]. }
  destruct H0 as (Hac0 & Hp0 & Ho0 & Hu0). rewrite (at_index_ok plans day zero_plan) by lia. cbn [mbind outcome_bind].
  fold (plan_at day).
  assert (Hlook : all !! length pre = Some s) by (rewrite Hall, lookup_app_r, Nat.sub_diag by lia; done).
  destruct (cut_segment_spec (length pre) s piece_fuel (seg_start s) (segment_secs s) st0) as (st1 & E & A1 & A2 & A3 & A4);
    try done; unfold segment_secs; try lia.
  { rewrite Ho0. by eapply laid_out_later. }
  { intros _. apply stages_bound. }
  unfold segment_secs in E. fold day in E. rewrite E. cbn [mbind outcome_bind].
  assert (Eq : all = (pre ++ [s]) ++ segs) by (by rewrite Hall, <- app_assoc).
  destruct (IH (pre ++ [s]) st1 (seg_end s)) as (st' & t' & E' & B1 & B2 & B3); try done.
  { rewrite Forall_forall in Hle |- *. intros x Hx. destruct (Hle x Hx) as [Hx1 Hx2]. unfold seg_before in Hx2.
    split; [done|]. rewrite A3, Hp0. apply Z.quot_le_mono; lia. }
  rewrite length_app in E'. cbn [length] in E'. rewrite Nat.add_1_r in E'. exists st', t'.
  split; [done|]. split; [done|]. split; [done|]. intros d Hd0. rewrite B3, A4 by done.
  cbn [day_secs foldr]. fold (day_secs segs d). fold day. unfold segment_secs.
  assert (used_at st0 d = used_at st d) as -> by (unfold used_at; by rewrite Hu0).
  destruct (day =? d); lia.
Qed.

Definition worked_list (segs : list segment) : list Z := map (day_secs segs) (seqZ 0 n).

Lemma accounted_start : 0 <= n -> accounted (mkCState [] (replicate (Z.to_nat n) 0) (-1) 0).
Proof.
  intros Hn. assert (Hu : forall d, used_at (mkCState [] (replicate (Z.to_nat n) 0) (-1) 0) d = 0).
  { intros d. unfold used_at. cbn [cs_dayUsed]. destruct (replicate _ _ !! _) eqn:E; [|done].
    apply lookup_replicate in E as [-> _]. done. }
  constructor; cbn [cs_out cs_period cs_periodReg cs_dayUsed]; try done.
  - rewrite length_replicate. lia.
  - intros d _. rewrite Hu. split; [lia|done].
  - intros d _. rewrite Hu. unfold double_owed. cbn. destruct (Z.ltb_spec 0 (DTAfter (plan_rule (plan_at d)))); lia.
  - intros q Hq. cbn. unfold straight. rewrite zsum_zero; [unfold period_cap; destruct (Z.ltb_spec 0 periodOT); lia|].
    intros d _. rewrite Hu. apply straight_cap_zero.
Qed.

(** The pieces are those owed for the whole day and period. *)
Record classified_ok (out : list piece) : Prop := mk_classified_ok {
  cl_pieces : Forall piece_ok out;
  cl_sorted : StronglySorted piece_before out;
  cl_day : forall d, 0 <= d < n -> psum (on_day d) out = day_secs all d;
  cl_double : forall d, 0 <= d < n ->
    psum (fun p => on_day d p && is_cat DoubleTime p) out = double_owed (plan_at d) (day_secs all d);
  cl_regular : forall q, 0 <= q ->
    psum (fun p => in_period q p && is_cat Regular p) out = period_cap periodOT (straight (day_secs all) q)
}.

Lemma first_segment segs : Forall seg_on segs -> StronglySorted seg_le segs ->
  Forall (fun s => match segs with [] => 0 | s :: _ => seg_start s end <= seg_start s /\ -1 <= Z.quot (seg_day s) L) segs.
Proof.
  intros Hon Hs. destruct Hs as [|s l Hl Hle]; [done|]. inversion Hon as [|? ? [Hd Hlt] Hon']; subst.
  assert (Hq : forall x, seg_on x -> -1 <= Z.quot (seg_day x) L) by (intros x [Hx _]; pose proof (Z.quot_pos (seg_day x) L); lia).
  constructor; [split; [lia|by apply Hq]|]. rewrite Forall_forall in Hle, Hon' |- *. intros x Hx.
  destruct (Hle x Hx) as [_ Hb]. unfold seg_before in Hb. split; [lia|]. by apply Hq, Hon'.
Qed.

Lemma classify_loop_classified : 0 <= n -> Forall seg_on all -> StronglySorted seg_le all ->
  exists st, classify_loop L periodOT plans 0 all (mkCState [] (replicate (Z.to_nat n) 0) (-1) 0) = Ok st
    /\ classified_ok (cs_out st).
Proof.
  intros Hn Hon Hs.
  set (t0 := match all with [] => 0 | s :: _ => seg_start s end).
  destruct (classify_loop_spec all [] _ t0 eq_refl Hon Hs (accounted_start Hn)) as (st & t' & E & A1 & (A2 & A3 & _) & A4).
  { repeat constructor. }
  { by apply first_segment. }
  cbn [length] in E. exists st. split; [done|].
  assert (Hu : forall d, 0 <= d -> used_at st d = day_secs all d).
  { intros d Hd. rewrite A4 by done. unfold used_at. cbn [cs_dayUsed]. destruct (replicate _ _ !! _) eqn:Er; cbn; [|lia].
    apply lookup_replicate in Er as [-> _]. lia. }
  constructor; try done.
  - intros d Hd. rewrite <- Hu by lia. by apply (ac_used _ A1).
  - intros d Hd. rewrite <- Hu by lia. by apply (ac_double _ A1).
  - intros q Hq. rewrite (ac_regular _ A1 q Hq). f_equal. apply zsum_ext. intros d Hd.
    apply elem_of_days_of in Hd as [Hd _]; [|done]. by rewrite Hu.
Qed.
End Loop.

(** ** Workdays and plans *)

Lemma worked_loop_spec segs : forall w, Forall (fun s => 0 <= seg_day s < Z.of_nat (length w)) segs ->
  exists w', worked_loop segs w = Ok w' /\ length w' = length w
    /\ forall d, 0 <= d -> default 0 (w' !! Z.to_nat d) = default 0 (w !! Z.to_nat d) + (if d <? Z.of_nat (length w) then day_secs segs d else 0).
Proof.
  induction segs as [|s segs IH]; intros w Hon; cbn [worked_loop].
  { exists w. split; [done|]. split; [done|]. intros d Hd. cbn. case_match; lia. }
  inversion Hon as [|? ? Hd Hon']; subst. rewrite (at_index_ok w _ 0) by done. cbn [mbind outcome_bind].
  destruct (IH (set_index w (seg_day s) (default 0 (w !! Z.to_nat (seg_day s)) + segment_secs s))) as (w' & E & Hl & Hw).
  { unfold set_index. by rewrite length_insert. }
  unfold set_index in Hl. rewrite length_insert in Hl. exists w'. split; [exact E|]. split; [done|].
  intros d Hd0. rewrite Hw by done. rewrite set_index_lookup by done. unfold set_index. rewrite length_insert.
  cbn [day_secs foldr]. fold (day_secs segs d).
  destruct (Z.ltb_spec d (Z.of_nat (length w))), (Z.eqb_spec (seg_day s) d) as [<-|]; lia.
Qed.

Lemma worked_loop_value segs n : 0 <= n -> Forall (fun s => 0 <= seg_day s < n) segs ->
  worked_loop segs (replicate (Z.to_nat n) 0) = Ok (worked_list n segs).
Proof.
  intros Hn Hon. destruct (worked_loop_spec segs (replicate (Z.to_nat n) 0)) as (w' & E & Hl & Hw).
  { rewrite length_replicate, Z2Nat.id by lia. done. }
  rewrite length_replicate in *. rewrite E. f_equal. apply list_eq. intros i. unfold worked_list. rewrite list_lookup_fmap.
  destruct (Nat.lt_ge_cases i (Z.to_nat n)) as [Hi|Hi].
  - assert (Hin : Z.of_nat i < n) by (clear -Hn Hi; lia).
    destruct (lookup_lt_is_Some_2 w' i ltac:(lia)) as [x Hx]. specialize (Hw (Z.of_nat i) ltac:(lia)). rewrite Nat2Z.id, Hx in Hw.
    rewrite lookup_replicate_2 in Hw by done. cbn [default] in Hw. rewrite Z2Nat.id in Hw by done. rewrite (proj2 (Z.ltb_lt _ _) Hin) in Hw. unfold id in Hw.
    rewrite Hx, lookup_seqZ_lt by done. cbn. by rewrite Hw, !Z.add_0_l.
  - rewrite lookup_ge_None_2, lookup_seqZ_ge by lia. done.
Qed.

Lemma planDays_length req rules worked : length (planDays req rules worked) = length worked.
Proof. unfold planDays. by rewrite length_map, length_seq. Qed.

Lemma schedule_of_elem a d s : schedule_of a !! d = Some s -> exists x, x ∈ as_Days a /\ Scheduled x = s.
Proof.
  unfold schedule_of. revert d s. induction (as_Days a) as [|x l IH] using rev_ind; intros d s; [done|].
  rewrite foldl_app. cbn. destruct (decide (sd_Day x = d)) as [->|Hne].
  - rewrite lookup_insert_eq. intros [= <-]. exists x. split; [set_solver|done].
  - rewrite lookup_insert_ne by done. intros H. destruct (IH _ _ H) as (y & Hy & E). exists y. split; [set_solver|done].
Qed.

(** The part of a validated request the classification depends on. *)
Definition schedule_ok (req : Request) (rules : RuleSet) : Prop :=
  match req_Alternative req with
  | None => True
  | Some a => alt_Allowed (Alternative rules) = true
      /\ Forall (fun d => 0 < Scheduled d < alt_DTAfter (Alternative rules)) (as_Days a)
  end.

Lemma Request_validate_ok req rules u : Request_validate req rules = Ok u ->
  schedule_ok req rules /\ 0 < Days req /\ Z.rem (Days req) (per_Days (Period rules)) = 0 /\ 0 <= CompTimeBefore req
  /\ RuleSet_allows rules (Method req) = true.
Proof.
  unfold Request_validate. intros H. ok_inv.
  match goal with H : (if Days req <=? 0 then _ else _) = Ok _ |- _ => rename H into Hd end.
  destruct (Z.leb_spec (Days req) 0); [discriminate Hd|]. destruct (_ =? 0); [discriminate Hd|]. ok_inv. bool_inv.
  split; [|split; [lia|split; [lia|split; [lia|done]]]]. unfold schedule_ok.
  destruct (req_Alternative req) as [a|]; [|done]. ok_inv. bool_inv. split; [done|].
  match goal with H : existsb _ (as_Days a) = false |- _ => apply existsb_false in H; eapply Forall_impl; [exact H|] end.
  cbn. intros d Hdd. bool_inv. lia.
Qed.

Lemma plan_day_ok req rules worked d : rules_ok rules -> schedule_ok req rules ->
  plan_ok (plan_day req rules (schedule_of <$> req_Alternative req) worked d).
Proof.
  intros Hr Hs. unfold plan_day, plan_ok. case_bool_decide; [cbn; lia|].
  destruct (sev_Enabled (SeventhDay rules) && _ && _) eqn:Es.
  { apply andb_true_iff in Es as [Es _]. apply andb_true_iff in Es as [Es _]. cbn. by apply (ok_seventh _ Hr). }
  unfold schedule_ok in Hs. destruct (req_Alternative req) as [a|]; cbn [fmap option_fmap option_map].
  - destruct Hs as [Ha Hf]. destruct (schedule_of a !! Z.of_nat d) as [s|] eqn:El; cbn.
    + apply schedule_of_elem in El as (x & Hx & <-). rewrite Forall_forall in Hf. specialize (Hf x Hx). lia.
    + by apply DailyRule_validate_ok, (ok_alternative _ Hr).
  - destruct (negb _); cbn; [|lia]. by apply DailyRule_validate_ok, ok_daily.
Qed.

Lemma planDays_ok req rules worked : rules_ok rules -> schedule_ok req rules -> Forall plan_ok (planDays req rules worked).
Proof.
  intros Hr Hs. unfold planDays. apply Forall_fmap, Forall_true. intros d. by apply plan_day_ok.
Qed.

(** ** Compensatory time *)

(** A test that does not look at the length, the start or the conversion. *)
Definition keeps (P : piece -> bool) : Prop :=
  forall i t l c r k t' l' k', P (mkPiece i t l c r k) = P (mkPiece i t' l' c r k').
Definition converted_piece (p : piece) : bool := is_cat Overtime p && p_comp p.

Lemma convert_loop_keeps P pieces : keeps P -> forall left, 0 <= left ->
  psum P (convert_loop left pieces).1 = psum P pieces.
Proof.
  intros HP. induction pieces as [|p pieces IH]; intros left Hl; cbn [convert_loop]; [done|].
  destruct (negb _ || _).
  - specialize (IH left Hl). destruct (convert_loop left pieces) as [out cv].
    cbn [fst psum foldr] in *. fold (psum P out) in *. fold (psum P pieces) in *. by rewrite IH.
  - specialize (IH (left - Z.min (p_secs p) left) ltac:(lia)). destruct (convert_loop _ pieces) as [out cv].
    cbn [fst] in IH. destruct p as [i t l c r k]. cbn [p_seg p_start p_secs p_cat p_reason p_comp] in *.
    pose proof (HP i t (Z.min l left) c r true t l k) as H1.
    pose proof (HP i (t + Z.min l left) (l - Z.min l left) c r k t l k) as H2.
    destruct (Z.ltb_spec (Z.min l left) l); cbn [fst psum foldr p_secs]; fold (psum P out); fold (psum P pieces);
      rewrite IH; destruct (P (mkPiece i t l c r k)); try rewrite H1; try rewrite H2; lia.
Qed.

Lemma convert_loop_amount pieces : Forall (fun p => 0 < p_secs p /\ p_comp p = false) pieces -> forall left, 0 <= left ->
  (convert_loop left pieces).2 = Z.min left (psum (is_cat Overtime) pieces)
  /\ psum converted_piece (convert_loop left pieces).1 = Z.min left (psum (is_cat Overtime) pieces)
  /\ 0 <= psum (is_cat Overtime) pieces.
Proof.
  induction 1 as [|p pieces [Hp Hc] Hall IH]; intros left Hl; cbn [convert_loop]; [cbn; lia|].
  assert (Ht : psum (is_cat Overtime) (p :: pieces)
    = (if bool_decide (p_cat p = Overtime) then p_secs p else 0) + psum (is_cat Overtime) pieces) by reflexivity.
  rewrite Ht. clear Ht.
  destruct (bool_decide (p_cat p = Overtime)) eqn:Ec; cbn [negb orb].
  - destruct (Z.eqb_spec left 0) as [->|Hne].
    + destruct (IH 0 ltac:(lia)) as (I1 & I2 & I3). destruct (convert_loop 0 pieces) as [out cv]. cbn [fst snd] in *.
      split; [lia|]. split; [|lia].
      cbn [psum foldr]. fold (psum converted_piece out). unfold converted_piece at 1. rewrite Hc, andb_false_r. lia.
    + destruct (IH (left - Z.min (p_secs p) left) ltac:(lia)) as (I1 & I2 & I3).
      destruct (convert_loop _ pieces) as [out cv]. cbn [fst snd] in *.
      assert (Hcv : forall i t l r, converted_piece (mkPiece i t l (p_cat p) r true) = true).
      { intros. unfold converted_piece, is_cat. cbn [p_cat p_comp]. by rewrite Ec. }
      assert (Hcf : forall i t l r, converted_piece (mkPiece i t l (p_cat p) r (p_comp p)) = false).
      { intros. unfold converted_piece. cbn [p_comp]. by rewrite Hc, andb_false_r. }
      destruct (Z.ltb_spec (Z.min (p_secs p) left) (p_secs p)); cbn [fst snd psum foldr]; rewrite ?Hcv, ?Hcf;
        fold (psum converted_piece out); cbn [p_secs]; lia.
  - destruct (IH left Hl) as (I1 & I2 & I3). destruct (convert_loop left pieces) as [out cv]. cbn [fst snd] in *.
    split; [lia|]. split; [|lia]. cbn [psum foldr]. fold (psum converted_piece out).
    assert (converted_piece p = false) as -> by (unfold converted_piece, is_cat; by rewrite Ec). lia.
Qed.

Lemma rounds_upper mode n d q k : 0 < d -> rounds mode n d q -> 0 <= n <= k * d -> 0 <= q <= k.
Proof.
  intros Hd HR Hn. unfold rounds in HR. destruct mode; try done; try nia.
Qed.

Lemma mulDiv_toward_zero a b d q : 0 <= a -> 0 <= b -> 0 < d <= max_int64 -> a * b / d < 2 ^ 64 - 1 ->
  mulDiv a b d RoundingTowardZero = Ok q -> 0 <= q /\ q * d <= a * b < (q + 1) * d.
Proof.
  intros Ha Hb Hd Hq E. pose proof (mulDiv_spec a b d RoundingTowardZero Ha Hb Hd Hq eq_refl) as H. rewrite E in H.
  destruct H as [HR Hr]. unfold rounds in HR. nia.
Qed.

Lemma convertCompTime_spec rules pieces carried : ct_Cap (CompTime rules) <= 2 ^ 50 ->
  0 < AccrualFactor (CompTime rules) <= max_int64 -> RoundingMode_Valid (Rounding rules) = true -> 0 <= carried ->
  Forall (fun p => 0 < p_secs p /\ p_comp p = false) pieces ->
  let room := Z.max 0 (ct_Cap (CompTime rules) - carried) in let factor := AccrualFactor (CompTime rules) in
  match convertCompTime pieces rules carried with
  | Ok (out, conv, accrued) =>
      psum converted_piece out = conv /\ 0 <= conv <= psum (is_cat Overtime) pieces
      /\ conv * factor <= room * One /\ (conv = psum (is_cat Overtime) pieces \/ room * One < (conv + 1) * factor)
      /\ 0 <= accrued <= room /\ rounds (Rounding rules) (conv * factor) One accrued
      /\ forall P, keeps P -> psum P out = psum P pieces
  | Err e => e = ErrArithmetic
  | Panic => False
  end.
Proof.
  intros Hcap Hf Hm Hb Hp room factor. pose proof (convert_loop_amount pieces Hp) as Hconv.
  unfold convertCompTime. unfold One. destruct (Z.leb_spec (ct_Cap (CompTime rules) - carried) 0) as [Hz|Hpos].
  - destruct (Hconv 0 ltac:(lia)) as (_ & _ & H0). assert (room = 0) as -> by lia.
    assert (H2 : psum converted_piece pieces = 0).
    { clear -Hp. induction Hp as [|p l [_ Hc] _ IH]; [done|]. cbn [psum foldr]. fold (psum converted_piece l). rewrite IH.
      unfold converted_piece. by rewrite Hc, andb_false_r. }
    split; [done|]. split; [lia|]. split; [lia|]. split; [right; lia|]. split; [lia|]. split; [|done].
    replace (0 * factor) with 0 by lia. destruct (Rounding rules); vm_compute in Hm; try discriminate Hm; cbn; lia.
  - assert (Hroom : room = ct_Cap (CompTime rules) - carried) by lia. rewrite <- Hroom. fold factor. fold factor in Hf.
    assert (Hdiv : forall a, 0 <= a <= room * 10000 -> a / factor < 2 ^ 64 - 1).
    { intros a Ha. pose proof (Z.div_le_upper_bound a factor (room * 10000)). nia. }
    pose proof (mulDiv_spec room 10000 factor RoundingTowardZero ltac:(lia) ltac:(lia) Hf (Hdiv (room * 10000) ltac:(lia)) eq_refl) as HM.
    destruct (mulDiv room 10000 factor RoundingTowardZero) as [left|e|] eqn:EM; cbn [mbind outcome_bind]; [|tauto|done].
    apply mulDiv_toward_zero in EM as (Hl0 & Hl); [|lia|lia|done|apply Hdiv; lia].
    destruct (Hconv left Hl0) as (C1 & C2 & C3).
    pose proof (fun P HP => convert_loop_keeps P pieces HP left Hl0) as HK.
    destruct (convert_loop left pieces) as [out conv]. cbn [fst snd] in *.
    assert (Hcf : conv * factor <= room * 10000) by nia.
    assert (Hq : conv * factor / 10000 < 2 ^ 64 - 1).
    { pose proof (Z.div_le_upper_bound (conv * factor) 10000 room). lia. }
    pose proof (mulDiv_spec conv factor 10000 (Rounding rules) ltac:(lia) ltac:(lia) ltac:(unfold max_int64; lia) Hq Hm) as HA.
    destruct (mulDiv conv factor 10000 (Rounding rules)) as [acc|e|]; cbn [mbind outcome_bind]; [|tauto|done].
    destruct HA as [HR Hacc]. pose proof (rounds_upper (Rounding rules) (conv * factor) 10000 acc room ltac:(lia) HR ltac:(nia)).
    split; [lia|]. split; [lia|]. split; [done|]. split; [nia|]. split; [lia|]. split; [done|]. exact HK.
Qed.

(** ** Buckets *)

Definition bucket_at (l : list Buckets) (d : Z) : Buckets := default zero_buckets (l !! Z.to_nat d).

Definition bucket_fold (P : piece -> bool) (ps : list piece) (b : Buckets) : Buckets :=
  foldl (fun b p => if P p then Buckets_add b (p_cat p) (p_secs p) (p_comp p) else b) b ps.

Lemma psum_cons P p ps : psum P (p :: ps) = (if P p then p_secs p else 0) + psum P ps.
Proof. reflexivity. Qed.

(** Computes the tests on a concrete piece. *)
Ltac eval_tests :=
  repeat match goal with
  | |- context [is_cat ?a ?b] => let x := eval vm_compute in (is_cat a b) in change (is_cat a b) with x
  | |- context [converted_piece ?b] => let x := eval vm_compute in (converted_piece b) in change (converted_piece b) with x
  end.

Lemma bucket_fold_fields P ps b : let r := bucket_fold P ps b in
  Worked r = Worked b + psum P ps
  /\ b_Regular r = b_Regular b + psum (fun p => P p && is_cat Regular p) ps
  /\ b_Overtime r = b_Overtime b + psum (fun p => P p && is_cat Overtime p) ps
  /\ b_DoubleTime r = b_DoubleTime b + psum (fun p => P p && is_cat DoubleTime p) ps
  /\ b_CompTime r = b_CompTime b + psum (fun p => P p && converted_piece p) ps.
Proof.
  revert b. induction ps as [|p ps IH]; intros b; [cbn; lia|]. cbn [bucket_fold foldl].
  fold (bucket_fold P ps (if P p then Buckets_add b (p_cat p) (p_secs p) (p_comp p) else b)).
  cbv zeta. specialize (IH (if P p then Buckets_add b (p_cat p) (p_secs p) (p_comp p) else b)). cbv zeta in IH.
  destruct IH as (-> & -> & -> & -> & ->). rewrite !psum_cons.
  destruct (P p); cbn [andb]; [|lia]. destruct p as [i t l c r k]. cbn [p_cat p_secs p_comp].
  destruct c, k; eval_tests; cbn [Buckets_add Worked b_Regular b_Overtime b_DoubleTime b_CompTime]; lia.
Qed.

Lemma bucket_at_set l i j v : 0 <= i < Z.of_nat (length l) -> 0 <= j ->
  bucket_at (set_index l i v) j = if i =? j then v else bucket_at l j.
Proof. intros Hi Hj. unfold bucket_at. by apply set_index_lookup. Qed.

Lemma at_index_nat {A} (l : list A) (i : nat) :
  at_index l (Z.of_nat i) = match l !! i with Some x => Ok x | None => Panic end.
Proof. unfold at_index. rewrite (proj2 (Z.ltb_ge (Z.of_nat i) 0)), Nat2Z.id by lia. done. Qed.

Lemma bucket_loop_spec L segs pieces : 0 < L -> forall days periods,
  Forall (fun p => exists s, segs !! p_seg p = Some s /\ 0 <= seg_day s < Z.of_nat (length days)
                             /\ Z.quot (seg_day s) L < Z.of_nat (length periods)) pieces ->
  exists ds qs, bucket_loop L segs pieces days periods = Ok (ds, qs)
    /\ length ds = length days /\ length qs = length periods
    /\ (forall d, 0 <= d -> bucket_at ds d = bucket_fold (on_day segs d) pieces (bucket_at days d))
    /\ (forall q, 0 <= q -> bucket_at qs q = bucket_fold (in_period L segs q) pieces (bucket_at periods q)).
Proof.
  intros HL. induction pieces as [|p pieces IH]; intros days periods Hall; cbn [bucket_loop].
  { exists days, periods. done. }
  inversion Hall as [|? ? (s & Hs & Hd & Hq) Hall']; subst.
  assert (Hq0 : 0 <= Z.quot (seg_day s) L) by (apply Z.quot_pos; lia).
  assert (Hpd : piece_day segs p = seg_day s) by (unfold piece_day; by rewrite Hs).
  rewrite at_index_nat, Hs. cbn [mbind outcome_bind].
  rewrite (at_index_ok days _ zero_buckets) by done. cbn [mbind outcome_bind]. replace (L =? 0) with false by lia.
  rewrite (at_index_ok periods _ zero_buckets) by done. cbn [mbind outcome_bind].
  fold (bucket_at days (seg_day s)). fold (bucket_at periods (Z.quot (seg_day s) L)).
  match goal with |- context [bucket_loop L segs pieces ?x ?y] => destruct (IH x y) as (ds & qs & -> & L1 & L2 & B1 & B2) end.
  { unfold set_index. rewrite !length_insert. exact Hall'. }
  unfold set_index in L1, L2. rewrite length_insert in L1, L2. exists ds, qs. split; [done|]. split; [done|]. split; [done|].
  split; [intros d Hd0; rewrite B1 by done | intros q Hq1; rewrite B2 by done];
    rewrite bucket_at_set by done; cbn [bucket_fold foldl];
    [change (on_day segs d p) with (piece_day segs p =? d) | change (in_period L segs q p) with (Z.quot (piece_day segs p) L =? q)];
    rewrite Hpd; [destruct (Z.eqb_spec (seg_day s) d) as [<-|] | destruct (Z.eqb_spec (Z.quot (seg_day s) L) q) as [<-|]]; done.
Qed.

(** ** The engine step *)

Lemma zsum_plus f g ds : zsum (fun d => f d + g d) ds = zsum f ds + zsum g ds.
Proof. unfold zsum. induction ds as [|d ds IH]; cbn [foldr]; [done|]. rewrite IH. lia. Qed.

Lemma psum_ext P Q ps : (forall p, P p = Q p) -> psum P ps = psum Q ps.
Proof. intros H. induction ps as [|p ps IH]; [done|]. by rewrite !psum_cons, H, IH. Qed.

(** The seconds of a period are those of its days. *)
Lemma psum_period L segs Q q ps : 0 < L -> 0 <= q -> Forall (fun p => 0 <= piece_day segs p) ps ->
  psum (fun p => in_period L segs q p && Q p) ps = zsum (fun d => psum (fun p => on_day segs d p && Q p) ps) (days_of L q).
Proof.
  intros HL Hq. induction 1 as [|p ps Hp Hall IH]; [transitivity 0; [done | symmetry; by apply zsum_zero]|].
  rewrite psum_cons, IH. unfold in_period at 1.
  rewrite (zsum_ext (fun d => psum (fun p => on_day segs d p && Q p) (p :: ps)) (fun d => (if on_day segs d p && Q p then p_secs p else 0) + psum (fun p => on_day segs d p && Q p) ps))
    by (intros; apply psum_cons).
  rewrite zsum_plus. f_equal. destruct (Q p); cbn [andb]; rewrite ?andb_true_r, ?andb_false_r.
  - rewrite (zsum_update (fun _ => 0) _ (piece_day segs p)); [|apply NoDup_seqZ | intros x Hx; unfold on_day; rewrite andb_true_r; by replace (_ =? x) with false by lia].
    rewrite zsum_zero by done. unfold on_day.
    rewrite (bool_decide_ext (piece_day segs p ∈ days_of L q) (Z.quot (piece_day segs p) L = q)) by (rewrite elem_of_days_of by done; tauto).
    rewrite Z.eqb_refl. cbn [andb]. case_bool_decide; destruct (Z.eqb_spec (Z.quot (piece_day segs p) L) q); lia.
  - symmetry. apply zsum_zero. intros d _. by rewrite andb_false_r.
Qed.

Lemma piece_amounts p : p_secs p = (if is_cat Regular p then p_secs p else 0) + (if is_cat Overtime p then p_secs p else 0)
  + (if is_cat DoubleTime p then p_secs p else 0).
Proof. destruct p as [i t l c r k]. destruct c; eval_tests; cbn [p_secs]; lia. Qed.

Lemma psum_split P ps : psum P ps = psum (fun p => P p && is_cat Regular p) ps + psum (fun p => P p && is_cat Overtime p) ps
  + psum (fun p => P p && is_cat DoubleTime p) ps.
Proof.
  induction ps as [|p ps IH]; [done|]. rewrite !psum_cons, IH. pose proof (piece_amounts p).
  destruct (P p); cbn [andb]; lia.
Qed.

Lemma psum_le P Q ps : (forall p, P p = true -> Q p = true) -> Forall (fun p => 0 <= p_secs p) ps ->
  0 <= psum P ps <= psum Q ps.
Proof.
  intros HPQ. induction 1 as [|p ps Hp Hall IH]; [cbn; lia|]. rewrite !psum_cons. specialize (HPQ p).
  destruct (P p); [rewrite HPQ by done|destruct (Q p)]; lia.
Qed.

Lemma convert_loop_forall (R : nat -> Prop) pieces : Forall (fun p => R (p_seg p) /\ 0 < p_secs p) pieces -> forall left, 0 <= left ->
  Forall (fun p => R (p_seg p) /\ 0 <= p_secs p) (convert_loop left pieces).1.
Proof.
  induction 1 as [|p pieces [Hr Hp] Hall IH]; intros left Hl; cbn [convert_loop]; [constructor|].
  destruct (negb _ || _).
  - specialize (IH left Hl). destruct (convert_loop left pieces). cbn in *. constructor; [|done]. split; [done|lia].
  - specialize (IH (left - Z.min (p_secs p) left) ltac:(lia)). destruct (convert_loop _ pieces). cbn [fst] in *.
    destruct (Z.ltb_spec (Z.min (p_secs p) left) (p_secs p)); repeat constructor; cbn; try done; lia.
Qed.

Lemma span_overlaps_perm l k s e : l ≡ₚ k -> span_overlaps l s e = span_overlaps k s e.
Proof. unfold span_overlaps. induction 1; cbn; lia. Qed.

(** Ordered segments are on workdays in order. *)
Lemma segments_seg_le c segs : increasing c -> Forall (segment_ok c) segs -> StronglySorted seg_before segs -> StronglySorted seg_le segs.
Proof.
  intros Hinc Hok. induction 1 as [|s l Hs IH Hb]; [constructor|]. inversion Hok as [|? ? (D1 & D2 & D3) Hok']; subst.
  constructor; [by apply IH|]. rewrite Forall_forall in Hb, Hok' |- *. intros x Hx. specialize (Hb x Hx).
  destruct (Hok' x Hx) as (E1 & E2 & E3). split; [|done]. unfold seg_before in Hb.
  destruct (Z.le_gt_cases (seg_day s) (seg_day x)) as [|Hgt]; [done|].
  pose proof (proj2 Hinc (seg_day x + 1) (seg_day s) ltac:(lia) ltac:(lia)). lia.
Qed.

(** Worked seconds of a workday, from the intervals alone. *)
Definition worked_on (cal : calendar) (ivs : list Interval) (d : Z) : Z :=
  span_overlaps (spans_of ivs) (bound_at cal d) (bound_at cal (d + 1)).

Lemma calendar_days_nonneg cal : increasing cal -> 0 <= calendar_days cal.
Proof. intros [Hne _]. unfold calendar_days. destruct (bounds cal); [done|]. cbn [length]. lia. Qed.

Lemma lay_out_spec cal ivs : increasing cal -> Forall nonempty_interval ivs ->
  match orderSpans ivs ≫= calendar_segments cal with
  | Ok segs => ~ double_booked ivs /\ Forall (inside cal) (spans_of ivs)
      /\ Forall (seg_on (calendar_days cal)) segs /\ StronglySorted seg_le segs
      /\ Forall (fun s => is_Some (ivs !! seg_iv s)) segs
      /\ forall d, 0 <= d < calendar_days cal -> day_secs segs d = worked_on cal ivs d
  | Err e => (e = ErrOverlap /\ double_booked ivs) \/ (e = ErrOutsidePeriod /\ Exists (fun sp => ~ inside cal sp) (spans_of ivs))
  | Panic => False
  end.
Proof.
  intros Hinc Hne. pose proof (orderSpans_spec ivs Hne) as HO. destruct (orderSpans ivs) as [spans|e|]; cbn [mbind outcome_bind]; [|auto|done].
  destruct HO as (Hp & Hs & Hnd).
  assert (Hok : spans_ok spans).
  { unfold spans_ok. rewrite Hp, Forall_forall. intros s Hin. apply elem_of_spans in Hin as (iv & Hl & ->). cbn.
    rewrite Forall_forall in Hne. apply (Hne iv). by eapply list_elem_of_lookup_2. }
  pose proof (segments_spec cal spans Hinc Hok Hs) as HS. destruct (calendar_segments cal spans) as [segs|e|]; [|right|done].
  - destruct HS as (H1 & H2 & H3 & H4). split; [done|]. split; [by rewrite <- Hp|].
    assert (Hso : Forall (segment_ok cal) segs) by (eapply Forall_impl; [exact H2|]; cbn; tauto).
    split; [eapply Forall_impl; [exact Hso|]; intros s (D1 & D2 & _); split; [done|lia]|].
    split; [by eapply segments_seg_le|]. split.
    { eapply Forall_impl; [exact H2|]. cbn. intros s (_ & sp & Hin & Hiv & _). rewrite Hp in Hin.
      apply elem_of_spans in Hin as (iv & Hl & _). rewrite Hiv. eauto. }
    intros d Hd. rewrite H4 by done. unfold worked_on. by apply span_overlaps_perm.
  - destruct HS as [-> HS]. split; [done|]. by rewrite <- Hp.
Qed.

(** What a classification must say about the worked time. *)
Definition period_threshold (req : Request) (rules : RuleSet) : Z :=
  if bool_decide (Method req = OvertimeNone) then 0 else per_OTAfter (Period rules).
Definition plans_for (req : Request) (rules : RuleSet) (cal : calendar) (ivs : list Interval) : list dayPlan :=
  planDays req rules (map (worked_on cal ivs) (seqZ 0 (calendar_days cal))).
Definition balanced (b : Buckets) : Prop :=
  Worked b = b_Regular b + b_Overtime b + b_DoubleTime b /\ 0 <= b_CompTime b <= b_Overtime b
  /\ 0 <= b_Regular b /\ 0 <= b_DoubleTime b.

Record owed (req : Request) (rules : RuleSet) (cal : calendar) (ivs : list Interval) (r : classified) : Prop := mk_owed {
  ow_plans : e_plans r = plans_for req rules cal ivs;
  ow_days : forall d, 0 <= d < calendar_days cal ->
    let b := bucket_at (e_days r) d in
    Worked b = worked_on cal ivs d /\ b_DoubleTime b = double_owed (plan_at (e_plans r) d) (worked_on cal ivs d) /\ balanced b;
  ow_periods : forall q, 0 <= q < Z.quot (calendar_days cal) (per_Days (Period rules)) ->
    let b := bucket_at (e_periods r) q in let days := days_of (per_Days (Period rules)) q in
    Worked b = zsum (worked_on cal ivs) days
    /\ b_Regular b = period_cap (period_threshold req rules)
                       (zsum (fun d => straight_cap (plan_at (e_plans r) d) (worked_on cal ivs d)) days)
    /\ b_DoubleTime b = zsum (fun d => double_owed (plan_at (e_plans r) d) (worked_on cal ivs d)) days
    /\ balanced b
}.

(** Every piece has a day and a period, and the buckets are the sums over
    their pieces. *)
Lemma bucket_total segs out L n : 0 < L -> 0 <= n -> Z.rem n L = 0 -> Forall (seg_on n) segs ->
  Forall (fun p => is_Some (segs !! p_seg p) /\ 0 <= p_secs p) out ->
  exists days periods, bucket_loop L segs out (replicate (Z.to_nat n) zero_buckets)
      (replicate (Z.to_nat (Z.quot n L)) zero_buckets) = Ok (days, periods)
    /\ length days = Z.to_nat n /\ length periods = Z.to_nat (Z.quot n L)
    /\ (forall d, 0 <= d -> bucket_at days d = bucket_fold (on_day segs d) out zero_buckets)
    /\ (forall q, 0 <= q -> bucket_at periods q = bucket_fold (in_period L segs q) out zero_buckets).
Proof.
  intros HL Hn Hrem Hon Hout. destruct (bucket_loop_spec L segs out HL (replicate (Z.to_nat n) zero_buckets)
    (replicate (Z.to_nat (Z.quot n L)) zero_buckets)) as (ds & qs & E & N1 & N2 & B1 & B2).
  - eapply Forall_impl; [exact Hout|]. cbn. intros p [[s Hs] _]. exists s. rewrite !length_replicate. split; [done|].
    rewrite Forall_forall in Hon. destruct (Hon s ltac:(by eapply list_elem_of_lookup_2)) as [Hd _]. split; [lia|].
    assert (Hnq : n = Z.quot n L * L) by (pose proof (Z.quot_rem' n L); lia).
    rewrite Z.quot_div_nonneg by lia. assert (seg_day s / L < Z.quot n L) by (apply Z.div_lt_upper_bound; lia). lia.
  - assert (Hz : forall k i, bucket_at (replicate k zero_buckets) i = zero_buckets).
    { intros k i. unfold bucket_at. destruct (replicate _ _ !! _) eqn:Er; [|done]. by apply lookup_replicate in Er as [-> _]. }
    rewrite !length_replicate in *. exists ds, qs. split; [done|]. split; [done|]. split; [done|].
    split; [intros d Hd; by rewrite B1, Hz | intros q Hq; by rewrite B2, Hz].
Qed.

Lemma balanced_fold P ps : Forall (fun p => 0 <= p_secs p) ps -> balanced (bucket_fold P ps zero_buckets).
Proof.
  intros Hpos. destruct (bucket_fold_fields P ps zero_buckets) as (F1 & F2 & F3 & F4 & F5). cbv zeta in *.
  pose proof (psum_split P ps). unfold balanced. rewrite F1, F2, F3, F4, F5.
  cbn [Worked b_Regular b_Overtime b_DoubleTime b_CompTime zero_buckets].
  pose proof (psum_le (fun p => P p && converted_piece p) (fun p => P p && is_cat Overtime p) ps
    ltac:(intros p; unfold converted_piece; rewrite !andb_true_iff; tauto) Hpos).
  pose proof (psum_le (fun p => P p && is_cat Regular p) (fun p => P p && is_cat Regular p) ps ltac:(done) Hpos).
  pose proof (psum_le (fun p => P p && is_cat DoubleTime p) (fun p => P p && is_cat DoubleTime p) ps ltac:(done) Hpos). lia.
Qed.

(** The days of a period are workdays. *)
Lemma days_of_range L n q d : 1 <= L -> 0 <= n -> Z.rem n L = 0 -> 0 <= q < Z.quot n L -> d ∈ days_of L q -> 0 <= d < n.
Proof.
  intros HL Hn Hrem Hq Hd. unfold days_of in Hd. apply elem_of_seqZ in Hd.
  assert (Hnq : n = Z.quot n L * L) by (pose proof (Z.quot_rem' n L); lia). nia.
Qed.

(** The buckets of pieces that are classified right and perhaps converted. *)
Lemma owed_buckets req rules cal ivs segs comp pieces out days periods : rules_ok rules ->
  let n := calendar_days cal in let L := per_Days (Period rules) in
  0 <= n -> Z.rem n L = 0 -> Forall (seg_on n) segs -> (forall d, 0 <= d < n -> day_secs segs d = worked_on cal ivs d) ->
  classified_ok L (period_threshold req rules) n (plans_for req rules cal ivs) segs pieces ->
  (forall P, keeps P -> psum P out = psum P pieces) ->
  Forall (fun p => is_Some (segs !! p_seg p) /\ 0 <= p_secs p) out ->
  bucket_loop L segs out (replicate (Z.to_nat n) zero_buckets) (replicate (Z.to_nat (Z.quot n L)) zero_buckets) = Ok (days, periods) ->
  owed req rules cal ivs (mkClassified segs (plans_for req rules cal ivs) out comp days periods).
Proof.
  intros Hr n L Hn Hrem Hon Hday Hcl Hkeep Hout E. pose proof (ok_days _ Hr) as HL. fold L in HL.
  assert (Hpos : Forall (fun p => 0 <= p_secs p) out) by (eapply Forall_impl; [exact Hout|]; cbn; tauto).
  destruct (bucket_total segs out L n ltac:(lia) Hn Hrem Hon Hout) as (ds & qs & E' & _ & _ & B1 & B2).
  rewrite E in E'. injection E' as <- <-.
  assert (Hpd : Forall (fun p => 0 <= piece_day segs p) out).
  { eapply Forall_impl; [exact Hout|]. cbn. intros p [[s Hs] _]. unfold piece_day. rewrite Hs. cbn.
    rewrite Forall_forall in Hon. apply (Hon s). by eapply list_elem_of_lookup_2. }
  assert (Hk : forall d c, keeps (fun p => on_day segs d p && is_cat c p)) by done.
  assert (Hk' : forall d, keeps (on_day segs d)) by done.
  assert (Hkq : forall q c, keeps (fun p => in_period L segs q p && is_cat c p)) by done.
  constructor; cbn [e_plans e_days e_periods]; [done| |].
  - intros d Hd. rewrite B1 by lia. split; [|split; [|by apply balanced_fold]];
      destruct (bucket_fold_fields (on_day segs d) out zero_buckets) as (F1 & _ & _ & F4 & _); cbv zeta in *.
    + rewrite F1. cbn [Worked zero_buckets]. rewrite (Hkeep _ (Hk' d)).
      rewrite <- Hday by done. apply (cl_day _ _ _ _ _ _ Hcl d Hd).
    + rewrite F4. cbn [b_DoubleTime zero_buckets]. rewrite (Hkeep _ (Hk d DoubleTime)).
      rewrite <- Hday by done. apply (cl_double _ _ _ _ _ _ Hcl d Hd).
  - intros q Hq. fold n L in Hq |- *. rewrite B2 by lia.
    destruct (bucket_fold_fields (in_period L segs q) out zero_buckets) as (F1 & F2 & _ & F4 & _). cbv zeta in *.
    pose proof (fun d => days_of_range L n q d ltac:(lia) Hn Hrem Hq) as Hin.
    split; [|split; [|split; [|by apply balanced_fold]]].
    + rewrite F1. cbn [Worked zero_buckets]. rewrite (psum_ext _ (fun p => in_period L segs q p && true)) by (intros; by rewrite andb_true_r).
      rewrite psum_period by (done || lia). apply zsum_ext. intros d Hd. rewrite <- Hday by auto.
      rewrite <- (cl_day _ _ _ _ _ _ Hcl d) by auto. rewrite (psum_ext _ (on_day segs d)) by (intros; by rewrite andb_true_r).
      apply (Hkeep _ (Hk' d)).
    + rewrite F2. cbn [b_Regular zero_buckets]. rewrite (Hkeep _ (Hkq q Regular)).
      transitivity (period_cap (period_threshold req rules) (straight L (plans_for req rules cal ivs) (day_secs segs) q)).
      * apply (cl_regular _ _ _ _ _ _ Hcl). lia.
      * f_equal. apply zsum_ext. intros d Hd. by rewrite Hday by auto.
    + rewrite F4. cbn [b_DoubleTime zero_buckets]. rewrite psum_period by (done || lia). apply zsum_ext. intros d Hd.
      rewrite (Hkeep _ (Hk d DoubleTime)). rewrite <- Hday by auto. apply (cl_double _ _ _ _ _ _ Hcl). auto.
Qed.

(** The compensatory time of a result. *)
Definition comp_owed (req : Request) (rules : RuleSet) (cal : calendar) (ivs : list Interval) (c : CompTimeResult) : Prop :=
  if bool_decide (Method req = OvertimePublicCompTime) then
    0 <= ConvertedOvertime c /\ 0 <= Accrued c /\ BalanceBefore c = CompTimeBefore req
    /\ BalanceAfter c = BalanceBefore c + Accrued c /\ BalanceAfter c <= Z.max (CompTimeBefore req) (ct_Cap (CompTime rules))
  else c = mkCompTimeResult 0 0 0 0 0.

Definition refusal (req : Request) (cal : calendar) (ivs : list Interval) (e : timecalc_err) : Prop :=
  (e = ErrOverlap /\ double_booked ivs) \/ (e = ErrOutsidePeriod /\ Exists (fun sp => ~ inside cal sp) (spans_of ivs))
  \/ (e = ErrArithmetic /\ Method req = OvertimePublicCompTime).

(** The inputs [Calculate] hands to the classification step, with a cap and an
    accrual factor that stay in range. *)
Record engine_input (req : Request) (rules : RuleSet) (cal : calendar) (ivs : list Interval) : Prop := mk_engine_input {
  in_rules : RuleSet_Validate rules = Ok tt;
  in_request : Request_validate req rules = Ok tt;
  in_increasing : increasing cal;
  in_days : calendar_days cal = Days req;
  in_intervals : Forall nonempty_interval ivs;
  in_cap : ct_Cap (CompTime rules) <= 2 ^ 50;
  in_factor : AccrualFactor (CompTime rules) <= max_int64
}.

Lemma classified_pieces_ok L periodOT n plans segs pieces : classified_ok L periodOT n plans segs pieces ->
  Forall (fun p => is_Some (segs !! p_seg p) /\ 0 < p_secs p) pieces /\ Forall (fun p => 0 < p_secs p /\ p_comp p = false) pieces.
Proof.
  intros Hcl. split; eapply Forall_impl; try exact (cl_pieces _ _ _ _ _ _ Hcl); cbn; intros p (s & H1 & H2 & H3 & H4 & H5);
    [split; [by rewrite H1|done] | done].
Qed.

Lemma mulDiv_nonneg a b d mode q : mulDiv a b d mode = Ok q -> 0 <= q.
Proof.
  unfold mulDiv. intros H. apply bind_ok_inv in H as (u & H1 & H). apply fail_if_ok in H1. bool_inv.
  pose proof (mul64_value a b) as Hm. destruct (mul64 a b) as [hi lo]. cbn [fst snd] in Hm.
  apply bind_ok_inv in H as (u' & H4 & H). unfold div64 in H. rewrite Hm in H.
  assert (Hq : 0 <= a * b / d) by (apply Z.div_pos; nia). clear u u' Hm H4. ok_inv. subst.
  destruct (negb _); ok_inv; subst; [|done].
  match goal with |- 0 <= (if ?up then _ else _) => destruct up; [|done] end.
  pose proof (Z.mod_pos_bound (a * b / d + 1) (2 ^ 64)). unfold to_uint64. lia.
Qed.

(** Where the parts of a classification lie. *)
Record placed (req : Request) (rules : RuleSet) (cal : calendar) (ivs : list Interval) (r : classified) : Prop := mk_placed {
  pl_segs : Forall (fun s => 0 <= seg_day s < calendar_days cal /\ is_Some (ivs !! seg_iv s)) (e_segs r);
  pl_pieces : Forall (fun p => is_Some (e_segs r !! p_seg p) /\ 0 <= p_secs p) (e_pieces r);
  pl_days : length (e_days r) = Z.to_nat (calendar_days cal);
  pl_periods : length (e_periods r) = Z.to_nat (Z.quot (calendar_days cal) (per_Days (Period rules)));
  pl_comp : Method req <> OvertimePublicCompTime -> Forall (fun p => p_comp p = false) (e_pieces r)
}.

Lemma engine_spec req rules cal ivs : engine_input req rules cal ivs ->
  match engine_classify req rules cal ivs (Z.quot (Days req) (per_Days (Period rules))) with
  | Ok r => placed req rules cal ivs r /\ owed req rules cal ivs r /\ comp_owed req rules cal ivs (e_comp r)
      /\ ~ double_booked ivs /\ Forall (inside cal) (spans_of ivs)
  | Err e => refusal req cal ivs e
  | Panic => False
  end.
Proof.
  intros [Hv Hreq Hinc Hdays Hne Hcap Hfac]. apply RuleSet_Validate_ok in Hv as Hr.
  apply Request_validate_ok in Hreq as (Hsch & Hd0 & Hrem & Hbal & Hallow). rewrite <- Hdays in *.
  pose proof (calendar_days_nonneg cal Hinc) as Hn. pose proof (ok_days _ Hr) as HL.
  pose proof (lay_out_spec cal ivs Hinc Hne) as HLO. unfold engine_classify, refusal.
  destruct (orderSpans ivs) as [spans|e|]; cbn [mbind outcome_bind] in *; [|tauto|done].
  destruct (calendar_segments cal spans) as [segs|e|]; cbn [mbind outcome_bind] in *; [|tauto|done].
  destruct HLO as (Hnd & Hins & Hon & Hsort & Hiv & Hday).
  assert (Hseg : Forall (fun s => 0 <= seg_day s < calendar_days cal /\ is_Some (ivs !! seg_iv s)) segs).
  { apply Forall_and. split; [|exact Hiv]. eapply Forall_impl; [exact Hon|]. intros s [Hs _]. exact Hs. }
  rewrite worked_loop_value by (done || (eapply Forall_impl; [exact Hon|]; intros s [Hs _]; exact Hs)). cbn [mbind outcome_bind].
  assert (Hpl : planDays req rules (worked_list (calendar_days cal) segs) = plans_for req rules cal ivs).
  { unfold plans_for, worked_list. f_equal. apply map_ext_in. intros d Hd. apply list_elem_of_In, elem_of_seqZ in Hd.
    apply Hday. lia. }
  rewrite Hpl. unfold classify. fold (period_threshold req rules).
  destruct (classify_loop_classified (per_Days (Period rules)) (period_threshold req rules) (calendar_days cal)
    (plans_for req rules cal ivs) segs) as (st & -> & Hcl); [lia| |by apply planDays_ok|done|done|done|].
  { unfold plans_for. rewrite planDays_length, length_map, length_seqZ. lia. }
  cbn [mbind outcome_bind]. destruct (classified_pieces_ok _ _ _ _ _ _ Hcl) as [Hp1 Hp2]. unfold comp_owed.
  case_bool_decide as Hm.
  - pose proof (ok_methods _ Hr ltac:(by rewrite <- Hm)) as Hct. destruct (ok_comp _ Hr Hct) as [Hf0 Hc0].
    pose proof (convertCompTime_spec rules (cs_out st) (CompTimeBefore req) Hcap ltac:(lia) (ok_rounding _ Hr) Hbal Hp2) as HC.
    destruct (convertCompTime (cs_out st) rules (CompTimeBefore req)) as [[[out conv] acc]|e|] eqn:EC; cbn [mbind outcome_bind]; [|tauto|done].
    destruct HC as (C1 & C2 & C3 & C4 & C5 & C6 & C7).
    assert (Hout : Forall (fun p => is_Some (segs !! p_seg p) /\ 0 <= p_secs p) out).
    { unfold convertCompTime in EC. destruct (_ <=? 0).
      - injection EC as <- _ _. eapply Forall_impl; [exact Hp1|]. cbn. intros p [? ?]. split; [done|lia].
      - apply bind_ok_inv in EC as (mx & Emx & EC).
        apply mulDiv_nonneg in Emx.
        pose proof (convert_loop_forall (fun i => is_Some (segs !! i)) (cs_out st) Hp1 mx Emx) as Hfa.
        destruct (convert_loop mx (cs_out st)) as [o2 c2]. cbn [fst] in Hfa. ok_inv. by subst. }
    destruct (bucket_total segs out (per_Days (Period rules)) (calendar_days cal)) as (days & periods & EB & N1 & N2 & _); try done; [lia|].
    rewrite EB. cbn [mbind outcome_bind]. split; [constructor; try done|]. split; [by eapply owed_buckets|]. split; [|done]. cbn. lia.
  - cbn [mbind outcome_bind].
    assert (Hout : Forall (fun p => is_Some (segs !! p_seg p) /\ 0 <= p_secs p) (cs_out st)).
    { eapply Forall_impl; [exact Hp1|]. cbn. intros p [? ?]. split; [done|lia]. }
    destruct (bucket_total segs (cs_out st) (per_Days (Period rules)) (calendar_days cal)) as (days & periods & EB & N1 & N2 & _); try done; [lia|].
    rewrite EB. cbn [mbind outcome_bind]. split; [constructor; try done; intros _; eapply Forall_impl; [exact Hp2|]; cbn; tauto|]. split; [by eapply owed_buckets|]. split; [done|done].
Qed.

(** ** Overrides *)

Lemma Interval_validate_same iv req r r' : same_terms r r' -> Interval_validate iv req r' = Interval_validate iv req r.
Proof.
  intros H. unfold same_terms in H. destruct r, r'. cbn in H.
  repeat match goal with H : _ /\ _ |- _ => destruct H as [? H] end. subst. reflexivity.
Qed.

Lemma validate_intervals_same req r r' ivs : same_terms r r' -> forall seen,
  validate_intervals req r' seen ivs = validate_intervals req r seen ivs.
Proof.
  intros H. induction ivs as [|iv ivs IH]; intros seen; cbn [validate_intervals]; [done|].
  rewrite (Interval_validate_same iv req r r' H). destruct (Interval_validate iv req r); cbn [mbind outcome_bind]; [|done..].
  destruct (fail_if _ _); cbn [mbind outcome_bind]; [apply IH|done..].
Qed.

Lemma Request_validate_same req r r' : same_terms r r' -> Request_validate req r' = Request_validate req r.
Proof.
  intros H. unfold Request_validate. rewrite (validate_intervals_same req r r' (Intervals req) H). unfold RuleSet_allows.
  unfold same_terms in H. repeat match goal with H : _ /\ _ |- _ => destruct H as [? H] end.
  repeat match goal with H : ?f r' = ?f r |- _ => rewrite H; clear H | H : ?f (?g r') = ?f (?g r) |- _ => rewrite H; clear H end.
  reflexivity.
Qed.

(** More overtime, no less double time. *)
Definition plan_favours (p' p : dayPlan) : Prop :=
  forall w, 0 <= w -> double_owed p w <= double_owed p' w /\ straight_cap p' w <= straight_cap p w.

Lemma daily_favours d d' reason reason' : DailyRule_validate d = Ok tt -> DailyRule_validate d' = Ok tt ->
  stricter (OTAfter d') (OTAfter d) -> stricter (DTAfter d') (DTAfter d) ->
  plan_favours (mkPlan d' reason' false) (mkPlan d reason false).
Proof.
  intros H H' H1 H2 w Hw. apply DailyRule_validate_ok in H as (A1 & A2 & A3), H' as (B1 & B2 & B3).
  unfold stricter, double_owed, straight_cap in *. cbn [plan_rule plan_seventh]. split_tests; lia.
Qed.

Lemma plan_favours_refl p : plan_favours p p.
Proof. intros w Hw. lia. Qed.

Lemma plan_day_favours req r r' sched worked d : rules_ok r -> rules_ok r' -> same_terms r r' ->
  stricter (OTAfter (Daily r')) (OTAfter (Daily r)) -> stricter (DTAfter (Daily r')) (DTAfter (Daily r)) ->
  plan_favours (plan_day req r' sched worked d) (plan_day req r sched worked d).
Proof.
  intros Hr Hr' Hs H1 H2. unfold plan_day.
  assert (SeventhDay r' = SeventhDay r /\ Alternative r' = Alternative r) as [-> ->] by (unfold same_terms in Hs; tauto).
  case_bool_decide; [apply plan_favours_refl|]. destruct (_ && _); [apply plan_favours_refl|].
  destruct sched as [m|]; [destruct (m !! Z.of_nat d); apply plan_favours_refl|].
  assert (Hz : forall x : RuleSet, rules_ok x -> (if negb (bool_decide (Daily x = mkDailyRule 0 0)) then mkPlan (Daily x) ReasonDaily false else zero_plan)
    = mkPlan (Daily x) (if bool_decide (Daily x = mkDailyRule 0 0) then ReasonNone else ReasonDaily) false).
  { intros x _. case_bool_decide as E; cbn; [by rewrite E|done]. }
  rewrite !Hz by done. apply daily_favours; try done; by apply ok_daily.
Qed.

Lemma plan_at_planDays req rules worked d : 0 <= d < Z.of_nat (length worked) ->
  plan_at (planDays req rules worked) d = plan_day req rules (schedule_of <$> req_Alternative req) worked (Z.to_nat d).
Proof.
  intros Hd. unfold plan_at, planDays. rewrite list_lookup_fmap, lookup_seq_lt by lia. done.
Qed.

Lemma plans_favour req r r' cal ivs d : rules_ok r -> rules_ok r' -> same_terms r r' ->
  stricter (OTAfter (Daily r')) (OTAfter (Daily r)) -> stricter (DTAfter (Daily r')) (DTAfter (Daily r)) ->
  0 <= d < calendar_days cal -> plan_favours (plan_at (plans_for req r' cal ivs) d) (plan_at (plans_for req r cal ivs) d).
Proof.
  intros. unfold plans_for. rewrite !plan_at_planDays by (rewrite length_map, length_seqZ; lia). by apply plan_day_favours.
Qed.

Lemma period_cap_favours p p' x x' : stricter p' p -> 0 <= p -> 0 <= p' -> x' <= x -> period_cap p' x' <= period_cap p x.
Proof. unfold stricter, period_cap. intros. split_tests; lia. Qed.

Lemma overlap_nonneg a b c d : 0 <= overlap a b c d.
Proof. unfold overlap. split_tests; lia. Qed.

Lemma worked_on_nonneg cal ivs d : 0 <= worked_on cal ivs d.
Proof.
  unfold worked_on, span_overlaps. induction (spans_of ivs) as [|sp l IH]; cbn [foldr]; [lia|].
  pose proof (overlap_nonneg (sp_start sp) (sp_end sp) (bound_at cal d) (bound_at cal (d + 1))). lia.
Qed.

(** What an override can do to a result. *)
Definition more_favorable (L n : Z) (x y : classified) : Prop :=
  (forall d, 0 <= d < n -> Worked (bucket_at (e_days y) d) = Worked (bucket_at (e_days x) d)
     /\ b_DoubleTime (bucket_at (e_days x) d) <= b_DoubleTime (bucket_at (e_days y) d))
  /\ (forall q, 0 <= q < Z.quot n L -> Worked (bucket_at (e_periods y) q) = Worked (bucket_at (e_periods x) q)
     /\ b_Regular (bucket_at (e_periods y) q) <= b_Regular (bucket_at (e_periods x) q)
     /\ b_DoubleTime (bucket_at (e_periods x) q) <= b_DoubleTime (bucket_at (e_periods y) q)).

Lemma owed_favours req r r' cal ivs x y : rules_ok r -> rules_ok r' -> same_terms r r' ->
  stricter (OTAfter (Daily r')) (OTAfter (Daily r)) -> stricter (DTAfter (Daily r')) (DTAfter (Daily r)) ->
  stricter (per_OTAfter (Period r')) (per_OTAfter (Period r)) -> Z.rem (calendar_days cal) (per_Days (Period r)) = 0 ->
  0 <= calendar_days cal ->
  owed req r cal ivs x -> owed req r' cal ivs y -> more_favorable (per_Days (Period r)) (calendar_days cal) x y.
Proof.
  intros Hr Hr' Hs H1 H2 H3 Hrem Hn [X1 X2 X3] [Y1 Y2 Y3]. pose proof (ok_days _ Hr) as HL.
  assert (HLe : per_Days (Period r') = per_Days (Period r)) by (unfold same_terms in Hs; tauto).
  rewrite HLe in Y3. set (L := per_Days (Period r)) in *. cbv zeta in X2, X3, Y2, Y3.
  pose proof (fun d Hd => plans_favour req r r' cal ivs d Hr Hr' Hs H1 H2 Hd) as Hf. rewrite <- X1, <- Y1 in Hf.
  pose proof (worked_on_nonneg cal ivs) as Hw.
  assert (Hpd : forall q, 0 <= q < Z.quot (calendar_days cal) L -> forall d, d ∈ days_of L q -> 0 <= d < calendar_days cal)
    by (intros q Hq d; apply days_of_range; done || lia).
  split.
  - intros d Hd. destruct (X2 d Hd) as (A1 & A2 & _), (Y2 d Hd) as (B1 & B2 & _). rewrite A1, A2, B1, B2. split; [done|].
    by apply (Hf d Hd).
  - intros q Hq. destruct (X3 q Hq) as (A1 & A2 & A3 & _), (Y3 q Hq) as (B1 & B2 & B3 & _).
    rewrite A1, A2, A3, B1, B2, B3. split; [done|]. split.
    + apply period_cap_favours.
      * unfold period_threshold. case_bool_decide; [unfold stricter; lia|done].
      * unfold period_threshold. case_bool_decide; [lia|]. by apply ok_period.
      * unfold period_threshold. case_bool_decide; [lia|]. by apply ok_period.
      * apply zsum_le. intros d Hd. apply (Hf d (Hpd q Hq d Hd)). apply Hw.
    + apply zsum_le. intros d Hd. apply (Hf d (Hpd q Hq d Hd)). apply Hw.
Qed.

Lemma refusal_excludes req cal ivs e : Method req <> OvertimePublicCompTime -> refusal req cal ivs e ->
  ~ double_booked ivs -> Forall (inside cal) (spans_of ivs) -> False.
Proof.
  intros Hm [[_ H]|[[_ H]|[_ H]]] Hnd Hin; [by apply Hnd | | by apply Hm].
  apply Exists_exists in H as (sp & Hsp & H). rewrite Forall_forall in Hin. by apply H, Hin.
Qed.

(** * Properties *)

(** C11: the buckets are exactly the hours the law counts.  For a validated rule
    set and request, workday boundaries that never go back and non-empty
    intervals, the classification step either refuses, for the reason it
    names, or: each workday's worked seconds are what the intervals cover of
    it, its double time is what exceeds the day's double-time threshold; each
    period's regular time is the sum over its days of the time before any
    daily threshold (none on a seventh day), cut at the period threshold, so
    no second is counted toward both daily and period overtime; every bucket
    adds up, and everything else is overtime.  The splitting loop needs at
    most four pieces per segment and no index is ever out of range.  (The cap
    and the accrual factor of compensatory time are bounded to keep its
    128-bit division in range.) *)
Theorem classification_exact (req : Request) (rules : RuleSet) (cal : calendar) (ivs : list Interval) :
  engine_input req rules cal ivs ->
  match engine_classify req rules cal ivs (Z.quot (Days req) (per_Days (Period rules))) with
  | Ok r => owed req rules cal ivs r /\ comp_owed req rules cal ivs (e_comp r)
      /\ ~ double_booked ivs /\ Forall (inside cal) (spans_of ivs)
  | Err e => refusal req cal ivs e
  | Panic => False
  end.
Proof. intros H. pose proof (engine_spec req rules cal ivs H) as E. destruct (engine_classify _ _ _ _ _); tauto. Qed.

Definition no_treatment : Treatment := mkTreatment "" "".
Definition example_rules : RuleSet :=
  mkRuleSet "us-ca" "2026.1" "US-CA" "Labor Code 510" [OvertimeSingleRate; OvertimePublicCompTime]
    (mkDailyRule 28800 43200) (mkPeriodRule 7 144000) (mkSeventhDayRule true 28800) (mkAlternativeRule false 0 (mkDailyRule 0 0))
    15000 20000 4 2 RoundingHalfUp 160000 (mkPieceRestRule false 0 0) (mkCompTimeRule true 15000 864000) []
    (mkOnCallRule false false 0 0 0 no_treatment) (mkReportingRule false 0 0 0 0 0 0 false "") (mkCallBackRule false 0 "")
    (mkSplitShiftRule false 0 0 false no_treatment).
Definition week : calendar := mkCalendar (map (fun d => d * 86400) (seqZ 0 8)) 7.
Definition shift (id : string) (day from hours : Z) : Interval :=
  example_interval id (day * 86400 + from * 3600) (day * 86400 + (from + hours) * 3600).
(** Six days, one of 14 hours; 56 hours in the week. *)
Definition example_shifts : list Interval :=
  [shift "a" 0 8 14; shift "b" 1 8 9; shift "c" 2 8 8; shift "d" 3 8 8; shift "e" 4 8 9; shift "f" 5 8 8].
Definition example_request (method : string) : Request :=
  mkRequest "calc-1" "key" method (mkWorkweek "America/New_York" 0 0 0) (mkDate 2026 3 1) 7 example_shifts [] 0 None 0 [] [].

Lemma example_input method : method = OvertimeSingleRate \/ method = OvertimePublicCompTime ->
  engine_input (example_request method) example_rules week example_shifts.
Proof.
  intros [-> | ->]; (constructor; [vm_compute; reflexivity | vm_compute; reflexivity | | reflexivity
    | repeat constructor | vm_compute; discriminate | vm_compute; discriminate]);
    (apply increasing_sorted; [discriminate|]; vm_compute bounds; repeat constructor; discriminate).
Qed.

Lemma classification_exact_witness :
  exists r, engine_classify (example_request OvertimeSingleRate) example_rules week example_shifts 1 = Ok r
    /\ bucket_at (e_days r) 0 = mkBuckets 50400 28800 14400 7200 0
    /\ bucket_at (e_periods r) 0 = mkBuckets 201600 144000 50400 7200 0
    /\ owed (example_request OvertimeSingleRate) example_rules week example_shifts r.
Proof.
  pose proof (classification_exact (example_request OvertimeSingleRate) example_rules week example_shifts
    (example_input _ (or_introl eq_refl))) as H.
  change (Z.quot _ _) with 1 in H.
  destruct (engine_classify (example_request OvertimeSingleRate) example_rules week example_shifts 1) as [r| |] eqn:E;
    [|vm_compute in E; discriminate E..].
  exists r. split; [reflexivity|]. destruct H as [H _]. split; [|split; [|exact H]]; clear H; vm_compute in E; injection E as <-; reflexivity.
Defined.

(** compensatory time converts as much overtime as the cap allows and no
    more.  The conversion marks [conv] seconds of overtime pieces, never more
    than there are; they accrue [conv] times the factor, rounded once, and the
    balance never passes the cap; either all overtime was converted or one
    more second would have passed it.  No second is lost: every bucket sum that
    ignores the conversion mark is unchanged. *)
Theorem comp_time_capped (rules : RuleSet) (pieces : list piece) (carried : Z) :
  ct_Cap (CompTime rules) <= 2 ^ 50 -> 0 < AccrualFactor (CompTime rules) <= max_int64 ->
  RoundingMode_Valid (Rounding rules) = true -> 0 <= carried ->
  Forall (fun p => 0 < p_secs p /\ p_comp p = false) pieces ->
  let room := Z.max 0 (ct_Cap (CompTime rules) - carried) in let factor := AccrualFactor (CompTime rules) in
  match convertCompTime pieces rules carried with
  | Ok (out, conv, accrued) =>
      psum converted_piece out = conv /\ 0 <= conv <= psum (is_cat Overtime) pieces
      /\ conv * factor <= room * One /\ (conv = psum (is_cat Overtime) pieces \/ room * One < (conv + 1) * factor)
      /\ 0 <= accrued <= room /\ rounds (Rounding rules) (conv * factor) One accrued
      /\ forall P, keeps P -> psum P out = psum P pieces
  | Err e => e = ErrArithmetic
  | Panic => False
  end.
Proof. apply convertCompTime_spec. Qed.

(** 9,000 seconds below the cap: 6,000 of the 14,400 overtime seconds convert. *)
Lemma comp_time_capped_witness :
  convertCompTime [mkPiece 0 0 28800 Regular ReasonNone false; mkPiece 0 28800 14400 Overtime ReasonDaily false] example_rules 855000
    = Ok ([mkPiece 0 0 28800 Regular ReasonNone false; mkPiece 0 28800 6000 Overtime ReasonDaily true;
           mkPiece 0 34800 8400 Overtime ReasonDaily false], 6000, 9000)
  /\ rounds RoundingHalfUp (6000 * 15000) One 9000.
Proof.
  assert (E : convertCompTime [mkPiece 0 0 28800 Regular ReasonNone false; mkPiece 0 28800 14400 Overtime ReasonDaily false] example_rules 855000
    = Ok ([mkPiece 0 0 28800 Regular ReasonNone false; mkPiece 0 28800 6000 Overtime ReasonDaily true;
           mkPiece 0 34800 8400 Overtime ReasonDaily false], 6000, 9000)) by (vm_compute; reflexivity).
  split; [exact E|].
  pose proof (comp_time_capped example_rules
    [mkPiece 0 0 28800 Regular ReasonNone false; mkPiece 0 28800 14400 Overtime ReasonDaily false] 855000
    ltac:(vm_compute; discriminate) ltac:(split; [reflexivity | vm_compute; discriminate]) ltac:(reflexivity)
    ltac:(lia) ltac:(repeat constructor)) as H.
  cbv zeta in H. rewrite E in H. destruct H as (_ & _ & _ & _ & _ & H & _). exact H.
Defined.

(** C30: an accepted collective-agreement override never lowers the premium
    hours of a period.  For any request that both rule sets classify, the
    overridden classification counts the same worked time on every workday and
    period, at least as much double time on each, and at most as much regular
    time in each period (a single workday may have more); and unless
    compensatory time is converted, the override never turns a success into a
    refusal or back. *)
Theorem override_never_reduces_premium (r r' : RuleSet) (o : Override) (req : Request) (cal : calendar) (ivs : list Interval) :
  RuleSet_WithOverride r o = Ok r' -> engine_input req r cal ivs ->
  let periods := Z.quot (Days req) (per_Days (Period r)) in
  (forall x y, engine_classify req r cal ivs periods = Ok x -> engine_classify req r' cal ivs periods = Ok y ->
     more_favorable (per_Days (Period r)) (calendar_days cal) x y)
  /\ (Method req <> OvertimePublicCompTime ->
      is_ok (engine_classify req r' cal ivs periods) = is_ok (engine_classify req r cal ivs periods)).
Proof.
  intros Ho Hin periods. destruct (override_facts r o r' Ho) as (Hv & Hv' & Hs & H1 & H2 & H3).
  assert (Hin' : engine_input req r' cal ivs).
  { destruct Hin as [A1 A2 A3 A4 A5 A6 A7]. assert (Hc : CompTime r' = CompTime r) by (unfold same_terms in Hs; tauto).
    constructor; rewrite ?Hc; try done. by rewrite (Request_validate_same req r r' Hs). }
  pose proof (engine_spec req r cal ivs Hin) as E. pose proof (engine_spec req r' cal ivs Hin') as E'.
  assert (HL : per_Days (Period r') = per_Days (Period r)) by (unfold same_terms in Hs; tauto).
  rewrite HL in E'. fold periods in E, E'.
  pose proof (calendar_days_nonneg cal (in_increasing _ _ _ _ Hin)) as Hn.
  assert (Hrem : Z.rem (calendar_days cal) (per_Days (Period r)) = 0).
  { rewrite (in_days _ _ _ _ Hin). by destruct (Request_validate_ok _ _ _ (in_request _ _ _ _ Hin)) as (_ & _ & ? & _). }
  split.
  - intros x y Ex Ey. rewrite Ex in E. rewrite Ey in E'.
    apply (owed_favours req r r' cal ivs); try done; by eapply RuleSet_Validate_ok || apply E || apply E'.
  - intros Hm. pose proof (refusal_excludes req cal ivs) as Hx.
    destruct (engine_classify req r cal ivs periods) as [x|e|], (engine_classify req r' cal ivs periods) as [y|e'|]; try done; exfalso.
    + eapply Hx; [exact Hm | apply E'|apply E|apply E].
    + eapply Hx; [exact Hm | apply E|apply E'|apply E'].
Qed.

Definition example_override : Override := mkOverride "art-14" 25200 0 129600 0 25000.

Lemma override_never_reduces_premium_witness :
  exists r' x y, RuleSet_WithOverride example_rules example_override = Ok r'
    /\ engine_classify (example_request OvertimeSingleRate) example_rules week example_shifts 1 = Ok x
    /\ engine_classify (example_request OvertimeSingleRate) r' week example_shifts 1 = Ok y
    /\ b_Regular (bucket_at (e_periods y) 0) = 129600 /\ more_favorable 7 7 x y.
Proof.
  destruct (RuleSet_WithOverride example_rules example_override) as [r'| |] eqn:Er; [|vm_compute in Er; discriminate Er..].
  destruct (engine_classify (example_request OvertimeSingleRate) example_rules week example_shifts 1) as [x| |] eqn:Ex;
    [|vm_compute in Ex; discriminate Ex..].
  assert (Er2 := Er). vm_compute in Er2. injection Er2 as Er2.
  destruct (engine_classify (example_request OvertimeSingleRate) r' week example_shifts 1) as [y| |] eqn:Ey;
    [|rewrite <- Er2 in Ey; vm_compute in Ey; discriminate Ey..].
  exists r', x, y. split; [reflexivity|]. split; [reflexivity|]. split; [exact Ey|]. split.
  - rewrite <- Er2 in Ey. vm_compute in Ey. injection Ey as <-. reflexivity.
  - pose proof (override_never_reduces_premium example_rules r' example_override (example_request OvertimeSingleRate) week example_shifts
      Er (example_input _ (or_introl eq_refl))) as [H _].
    exact (H x y Ex Ey).
Defined.
