(* ===== verification/TimeZones.v ===== *)
(** The zones of a time calculation: workday boundaries from local wall-clock
    times, and the part of a span inside a daily local window:
    [newCalendar] and [windowOverlap] of [internal/domains/timecalc/calendar.go].

    [time.LoadLocation] and the zone data are the class [Tzdb] of [Intervals];
    a location is its name, so the cache [zones] of the code is left out. *)

From S2P Require Import Prelude CivilTime Intervals Zoned TimeUnits TimeRules TimeCalendar.

Local Open Scope Z_scope.

Section Zones.
  Context {tz : Tzdb}.

Definition zones_load (name : string) : outcome timecalc_err string :=
  _ ← fail_if (negb (LoadLocation name) || bool_decide (name = "") || bool_decide (name = "Local")) ErrInvalidRequest;
  Ok name.

(** [time.Date(y, m, d, hour, minute, 0, 0, loc).Unix()]: months and days past
    their range carry over. *)
Definition time_Date (y m d hour minute : Z) (loc : string) : Z :=
  date_in loc (days_of_civil (y + (m - 1) / 12) ((m - 1) mod 12 + 1) d * 86400 + hour * 3600 + minute * 60).

(** [time.Unix(t, 0).In(loc)]: its day number and civil date. *)
Definition local_day (loc : string) (t : Z) : Z := (t + zs_offset (tz_lookup loc t)) / 86400.
Definition local_date (loc : string) (t : Z) : Z * Z * Z := civil_of_days (local_day loc t).

(** [Weekday] of a day number, Sunday being 0. *)
Definition weekday (day : Z) : Z := (day + 4) mod 7.

Definition newCalendar (req : Request) (periodLen : Z) : outcome timecalc_err calendar :=
  loc ← zones_load (ww_Zone (req_Workweek req));
  let w := req_Workweek req in let d := PeriodStart req in
  let first := time_Date (dt_Year d) (dt_Month d) (dt_Day d) (ww_StartHour w) (ww_StartMinute w) loc in
  _ ← fail_if (negb (bool_decide (local_date loc first = (dt_Year d, dt_Month d, dt_Day d)))) ErrInvalidRequest;
  _ ← fail_if (negb (weekday (local_day loc first) =? StartWeekday w)) ErrInvalidRequest;
  Ok (mkCalendar (map (fun i => time_Date (dt_Year d) (dt_Month d) (dt_Day d + i) (ww_StartHour w) (ww_StartMinute w) loc)
                    (seqZ 0 (Days req + 1))) periodLen).

(** [time.Unix(c.bounds[day], 0).In(c.loc).Format("2006-01-02")]. *)
Definition date_text (loc : string) (t : Z) : string :=
  let '(y, m, d) := local_date loc t in
  (if y <? 0 then "-" +:+ pad 4 (- y) else pad 4 y) +:+ "-" +:+ pad 2 m +:+ "-" +:+ pad 2 d.
Definition calendar_dateOf (loc : string) (c : calendar) (day : Z) : outcome timecalc_err string :=
  t ← at_index (bounds c) day; Ok (date_text loc t).

(** The loop of [windowOverlap], from day [i] on. *)
Fixpoint window_loop (fuel : nat) (s e : Z) (loc : string) (w : Window) (y m d i total : Z) : outcome timecalc_err Z :=
  match fuel with
  | O => Panic
  | S n =>
      let ws := time_Date y m (d + i) (Z.quot (StartMinute w) 60) (Z.rem (StartMinute w) 60) loc in
      if e <=? ws then Ok total
      else
        let endDay := if EndMinute w <=? StartMinute w then d + i + 1 else d + i in
        let we := time_Date y m endDay (Z.quot (EndMinute w) 60) (Z.rem (EndMinute w) 60) loc in
        window_loop n s e loc w y m d (i + 1) (to_int64 (total + overlap s e ws we))
  end.

(** One turn per day of the span and six more. *)
Definition window_fuel (s e : Z) : nat := Z.to_nat ((e - s) / 86400 + 6).

Definition windowOverlap (s e : Z) (loc : string) (w : Window) : outcome timecalc_err Z :=
  let '(y, m, d) := local_date loc s in
  window_loop (window_fuel s e) s e loc w y m d (-1) 0.

End Zones.

(** * Zones whose offsets stay within a day, and within a day of each other *)

Section Sane.
  Context {tz : Tzdb}.

Record zone_sane (loc : string) : Prop := {
  zn_bound : forall u, Z.abs (zs_offset (tz_lookup loc u)) <= 86400;
  zn_spread : forall u v, Z.abs (zs_offset (tz_lookup loc u) - zs_offset (tz_lookup loc v)) <= 86400
}.

Lemma date_in_offset loc unix : exists v, date_in loc unix = unix - zs_offset (tz_lookup loc v).
Proof.
  unfold date_in. destruct (Z.eqb_spec (zs_offset (tz_lookup loc unix)) 0) as [E|]; [exists unix; lia|].
  destruct (_ || _); eexists; reflexivity.
Qed.

(** The boundaries of a period: one more than its days, never going back. *)
Lemma newCalendar_ok req L c : newCalendar req L = Ok c -> 0 < Days req -> zone_sane (ww_Zone (req_Workweek req)) ->
  increasing c /\ calendar_days c = Days req /\ periodDays c = L
  /\ forall i, 0 <= i < Days req -> bound_at c (i + 1) - bound_at c i <= 172800.
Proof.
  unfold newCalendar, zones_load. intros H0 Hd [Hb Hs]. ok_inv. subst.
  assert (Hlen : length (seqZ 0 (Days req + 1)) = Z.to_nat (Days req + 1)) by apply length_seqZ.
  set (loc := ww_Zone (req_Workweek req)) in *. set (c := mkCalendar _ _).
  assert (Hval : exists w, forall i, 0 <= i <= Days req -> exists v, bound_at c i = w + i * 86400 - zs_offset (tz_lookup loc v)).
  { set (d := PeriodStart req). exists (days_of_civil (dt_Year d + (dt_Month d - 1) / 12) ((dt_Month d - 1) mod 12 + 1) (dt_Day d) * 86400
      + ww_StartHour (req_Workweek req) * 3600 + ww_StartMinute (req_Workweek req) * 60).
    intros i Hi. unfold bound_at. cbn [bounds c]. rewrite list_lookup_fmap, (proj2 (lookup_seqZ 0 (Days req + 1) (Z.to_nat i) i)) by lia. cbn. unfold time_Date.
    rewrite days_of_civil_day. fold d. match goal with |- context [date_in loc ?x] => destruct (date_in_offset loc x) as [v ->] end.
    exists v. lia. }
  destruct Hval as [w Hval].
  assert (Hdays : calendar_days c = Days req) by (unfold calendar_days; cbn [bounds c]; rewrite length_map, Hlen; lia).
  split; [|split; [done|split; [done|]]].
  - split. { cbn [bounds c]. intros E. apply (f_equal length) in E. rewrite length_map, Hlen in E. cbn in E. lia. }
    rewrite Hdays. intros i j Hij Hj. destruct (Z.eq_dec i j) as [->|]; [lia|].
    destruct (Hval i ltac:(lia)) as [u ->], (Hval j ltac:(lia)) as [v ->]. specialize (Hs u v). lia.
  - intros i Hi. destruct (Hval i ltac:(lia)) as [u ->], (Hval (i + 1) ltac:(lia)) as [v ->]. specialize (Hs u v). lia.
Qed.

(** ** The window loop *)

Lemma local_day_near loc s : zone_sane loc -> Z.abs (local_day loc s * 86400 - s) < 2 * 86400.
Proof. intros [Hb _]. unfold local_day. specialize (Hb s). div_lia. Qed.

Lemma local_date_day loc s y m d : local_date loc s = (y, m, d) ->
  days_of_civil (y + (m - 1) / 12) ((m - 1) mod 12 + 1) d = local_day loc s.
Proof.
  unfold local_date. intros E. pose proof (civil_of_days_correct (local_day loc s)) as Hc. rewrite E in Hc.
  destruct Hc as [[Hm _] Hday]. replace ((m - 1) / 12) with 0 by div_lia. replace ((m - 1) mod 12 + 1) with m by div_lia.
  by rewrite Z.add_0_r.
Qed.

(** The loop leaves before its fuel runs out. *)
Lemma window_loop_total fuel s e loc w y m d i total : zone_sane loc -> 0 <= StartMinute w ->
  local_date loc s = (y, m, d) -> (e - s) / 86400 + 5 - i <= Z.of_nat fuel -> 0 < Z.of_nat fuel ->
  exists v, window_loop fuel s e loc w y m d i total = Ok v.
Proof.
  intros Hz Hw Hd. revert i total. induction fuel as [|n IH]; intros i total Hf Hpos; [lia|]. cbn [window_loop].
  destruct (Z.leb_spec e (time_Date y m (d + i) (Z.quot (StartMinute w) 60) (Z.rem (StartMinute w) 60) loc)) as [|Hlt]; [eauto|].
  apply IH; [lia|]. destruct n; [|lia]. exfalso. unfold time_Date in Hlt.
  rewrite days_of_civil_day, (local_date_day loc s) in Hlt by done.
  match type of Hlt with date_in _ ?x < _ => destruct (date_in_offset loc x) as [v E]; rewrite E in Hlt end.
  pose proof (local_day_near loc s Hz). pose proof (zn_bound _ Hz v).
  assert (0 <= Z.quot (StartMinute w) 60 /\ 0 <= Z.rem (StartMinute w) 60) as [? ?] by (split; [apply Z.quot_pos; lia | apply Z.rem_bound_pos; lia]).
  assert ((e - s) / 86400 + 4 <= i) by lia. pose proof (Z.div_mod (e - s) 86400 ltac:(lia)).
  pose proof (Z.mod_pos_bound (e - s) 86400 ltac:(lia)). lia.
Qed.

Lemma windowOverlap_total s e loc w : zone_sane loc -> 0 <= StartMinute w -> s <= e ->
  exists v, windowOverlap s e loc w = Ok v.
Proof.
  intros Hz Hw Hse. unfold windowOverlap, window_fuel. destruct (local_date loc s) as [[y m] d] eqn:E.
  pose proof (Z.div_pos (e - s) 86400 ltac:(lia) ltac:(lia)). apply window_loop_total; try done; lia.
Qed.

(** ** What the loop counts *)

(** The seconds of [[s, s + n)] that satisfy [P]. *)
Fixpoint count_seconds (P : Z -> bool) (s : Z) (n : nat) : Z :=
  match n with
  | O => 0
  | S k => (if P s then 1 else 0) + count_seconds P (s + 1) k
  end.

Definition seconds_in (P : Z -> bool) (s e : Z) : Z := count_seconds P s (Z.to_nat (e - s)).

Lemma count_app P n : forall s k, count_seconds P s (n + k) = count_seconds P s n + count_seconds P (s + Z.of_nat n) k.
Proof.
  induction n as [|n IH]; intros s k; cbn [count_seconds Nat.add]; [by rewrite Z.add_0_r|].
  rewrite IH. replace (s + 1 + Z.of_nat n) with (s + Z.of_nat (S n)) by lia. lia.
Qed.

Lemma seconds_split P s u e : s <= u <= e -> seconds_in P s e = seconds_in P s u + seconds_in P u e.
Proof.
  intros H. unfold seconds_in. replace (Z.to_nat (e - s)) with (Z.to_nat (u - s) + Z.to_nat (e - u))%nat by lia.
  rewrite count_app. do 2 f_equal. lia.
Qed.

Lemma seconds_empty P s e : e <= s -> seconds_in P s e = 0.
Proof. intros H. unfold seconds_in. by replace (Z.to_nat (e - s)) with 0%nat by lia. Qed.

Lemma seconds_bound P s e : s <= e -> 0 <= seconds_in P s e <= e - s.
Proof.
  intros H. unfold seconds_in. assert (forall n s, 0 <= count_seconds P s n <= Z.of_nat n) as Hc.
  { induction n as [|n IH]; intros u; cbn [count_seconds]; [lia|]. specialize (IH (u + 1)). destruct (P u); lia. }
  specialize (Hc (Z.to_nat (e - s)) s). lia.
Qed.

(** Where [P] holds before [m] and not from [m] on, the count is a length. *)
Lemma seconds_prefix P m e : forall s, (forall t, s <= t < e -> P t = (t <? m)) ->
  seconds_in P s e = Z.max 0 (Z.min e m - s).
Proof.
  intros s. unfold seconds_in. remember (Z.to_nat (e - s)) as n eqn:En. revert s En.
  induction n as [|n IH]; intros s En HP; cbn [count_seconds]; [lia|].
  rewrite (IH (s + 1)) by (lia || (intros; apply HP; lia)). rewrite HP by lia. destruct (Z.ltb_spec s m); lia.
Qed.

Lemma seconds_ext P Q s e : (forall t, s <= t < e -> P t = Q t) -> seconds_in P s e = seconds_in Q s e.
Proof.
  unfold seconds_in. remember (Z.to_nat (e - s)) as n eqn:En. revert s En. induction n as [|n IH]; intros s En H; cbn [count_seconds]; [done|].
  rewrite H by lia. f_equal. apply IH; [lia|]. intros t Ht. apply H. lia.
Qed.

(** Seconds of two conditions that exclude each other. *)
Lemma seconds_or P Q s e : (forall t, P t = true -> Q t = false) -> seconds_in (fun t => P t || Q t) s e = seconds_in P s e + seconds_in Q s e.
Proof.
  intros H. unfold seconds_in. generalize (Z.to_nat (e - s)). intros n. revert s. induction n as [|n IH]; intros s; cbn [count_seconds]; [done|].
  rewrite IH. specialize (H s). destruct (P s), (Q s); cbn; [by specialize (H eq_refl)|lia..].
Qed.

(** Seconds inside a window. *)
Lemma seconds_window P u v s e : seconds_in (fun t => P t && ((u <=? t) && (t <? v))) s e = seconds_in P (Z.max u s) (Z.min v e).
Proof.
  destruct (Z.le_gt_cases e s) as [|Hse].
  { rewrite !seconds_empty by lia. done. }
  destruct (Z.le_gt_cases (Z.min v e) (Z.max u s)) as [Hno|Hin].
  { rewrite (seconds_empty P) by done. rewrite (seconds_ext _ (fun _ => false)).
    - rewrite (seconds_prefix _ s); [lia|]. intros t Ht. lia.
    - intros t Ht. destruct (P t); [cbn|done]. lia. }
  rewrite (seconds_split _ s (Z.max u s) e), (seconds_split _ (Z.max u s) (Z.min v e) e) by lia.
  rewrite (seconds_ext _ (fun _ => false) s (Z.max u s)) by (intros t Ht; destruct (P t); [cbn; lia|done]).
  rewrite (seconds_ext _ (fun _ => false) (Z.min v e) e) by (intros t Ht; destruct (P t); [cbn; lia|done]).
  rewrite (seconds_ext _ P (Z.max u s) (Z.min v e)) by (intros t Ht; destruct (P t); [cbn; lia|done]).
  rewrite (seconds_prefix (fun _ => false) s (Z.max u s)), (seconds_prefix (fun _ => false) (Z.min v e) e) by (intros; lia). lia.
Qed.

(** A second is in the window by the minute of its local day; a window that
    ends at or before its start wraps past midnight. *)
Definition in_window (w : Window) (minute : Z) : bool :=
  if StartMinute w <? EndMinute w then (StartMinute w <=? minute) && (minute <? EndMinute w)
  else (StartMinute w <=? minute) || (minute <? EndMinute w).
Definition window_second (off : Z) (w : Window) (t : Z) : bool := in_window w ((t + off) mod 86400 / 60).
Definition window_length (w : Window) : Z :=
  60 * (EndMinute w - StartMinute w + (if EndMinute w <=? StartMinute w then 1440 else 0)).

Definition window_ok (w : Window) : Prop := 0 <= StartMinute w < 1440 /\ 0 <= EndMinute w < 1440.

(** One day's turn of the window, counted from its start. *)
Lemma window_day off w k t : window_ok w -> let a := k * 86400 - off + StartMinute w * 60 in
  a <= t < a + 86400 -> window_second off w t = (t <? a + window_length w).
Proof.
  intros [Hs He] a Ht. unfold window_second, in_window, window_length. subst a.
  set (x := t + off) in *. assert (Hx : x = t + off) by done.
  assert (x / 86400 = k \/ x / 86400 = k + 1) as [Hk|Hk] by div_lia;
  destruct (Z.ltb_spec (StartMinute w) (EndMinute w)), (Z.leb_spec (EndMinute w) (StartMinute w)); try lia;
  pose proof (Z.div_mod x 86400 ltac:(lia)) as Hdm; rewrite Hk in Hdm;
  pose proof (Z.mod_pos_bound x 86400 ltac:(lia)); set (r := x mod 86400) in *; clearbody r;
  pose proof (Z.div_mod r 60 ltac:(lia)); pose proof (Z.mod_pos_bound r 60 ltac:(lia)); clear Hk; lia.
Qed.

(** An offset that does not change from four days before a span to four days
    after it. *)
Definition steady (loc : string) (off s e : Z) : Prop :=
  -86400 <= off <= 86400 /\ forall u, s - 345600 <= u <= e + 345600 -> zs_offset (tz_lookup loc u) = off.

Lemma steady_date loc off s e x : steady loc off s e -> s - 259200 <= x - off <= e + 259200 -> date_in loc x = x - off.
Proof.
  intros [Hb Ho] Hx. unfold date_in. rewrite Ho by lia. destruct (Z.eqb_spec off 0); [lia|]. destruct (_ || _); [|done].
  rewrite Ho by lia. done.
Qed.

Lemma window_loop_count fuel s e loc w off y m d i total v : steady loc off s e ->
  window_ok w -> local_date loc s = (y, m, d) -> s <= e -> e - s <= max_int64 ->
  let a := (local_day loc s + i) * 86400 - off + StartMinute w * 60 in
  s - 259200 <= a <= e + 86400 -> total = seconds_in (window_second off w) s (Z.max s (Z.min e a)) ->
  window_loop fuel s e loc w y m d i total = Ok v -> v = seconds_in (window_second off w) s e.
Proof.
  intros Ho Hw Hd Hse Hbig. pose proof Hw as [Hs He].
  assert (Hq : forall k, 0 <= k -> Z.quot k 60 * 3600 + Z.rem k 60 * 60 = k * 60).
  { intros k Hk. pose proof (Z.quot_rem' k 60). lia. }
  revert i total. induction fuel as [|n IH]; intros i total a Ha Ht; cbn [window_loop]; [done|].
  assert (Hdate : forall k minute, 0 <= minute -> s - 259200 <= (local_day loc s + k) * 86400 - off + minute * 60 <= e + 259200 ->
    time_Date y m (d + k) (Z.quot minute 60) (Z.rem minute 60) loc = (local_day loc s + k) * 86400 - off + minute * 60).
  { intros k minute Hm Hr. unfold time_Date. specialize (Hq minute Hm). rewrite days_of_civil_day, (local_date_day loc s) by done.
    rewrite (steady_date loc off s e) by (done || lia). lia. }
  rewrite Hdate by lia. fold a. destruct (Z.leb_spec e a) as [Hea|Hae].
  { intros [= <-]. rewrite Ht. f_equal. lia. }
  replace (if EndMinute w <=? StartMinute w then d + i + 1 else d + i)
    with (d + (i + (if EndMinute w <=? StartMinute w then 1 else 0))) by (destruct (_ <=? _); lia).
  assert (Hwe : (local_day loc s + (i + (if EndMinute w <=? StartMinute w then 1 else 0))) * 86400 - off + EndMinute w * 60 = a + window_length w).
  { unfold a, window_length. destruct (EndMinute w <=? StartMinute w); lia. }
  assert (Hlen : 0 < window_length w <= 86400) by (unfold window_length; destruct (Z.leb_spec (EndMinute w) (StartMinute w)); lia).
  rewrite Hdate, Hwe by lia.
  apply IH; set (a' := (local_day loc s + (i + 1)) * 86400 - off + StartMinute w * 60);
    assert (Ha' : a' = a + 86400) by (unfold a', a; lia); [lia|].
  set (lo := Z.max s (Z.min e a)) in *. set (hi := Z.max s (Z.min e a')).
  assert (Hpart : seconds_in (window_second off w) lo hi = overlap s e a (a + window_length w)).
  { destruct (Z.le_gt_cases hi lo); [rewrite seconds_empty by done; unfold overlap; destruct (Z.ltb_spec (Z.max s a) (Z.min e (a + window_length w))); lia|].
    rewrite (seconds_prefix _ (a + window_length w)).
    - unfold overlap. destruct (Z.ltb_spec (Z.max s a) (Z.min e (a + window_length w))); lia.
    - intros t Ht'. apply (window_day off w (local_day loc s + i) t Hw). fold a. lia. }
  rewrite (seconds_split _ s lo hi) by lia. rewrite <- Ht, Hpart. apply to_int64_small.
  pose proof (seconds_bound (window_second off w) s lo ltac:(lia)). pose proof (seconds_bound (window_second off w) lo hi ltac:(lia)).
  unfold min_int64. rewrite <- Hpart. lia.
Qed.

Lemma windowOverlap_count s e loc w off v : steady loc off s e -> window_ok w ->
  s <= e -> e - s <= max_int64 -> windowOverlap s e loc w = Ok v -> v = seconds_in (window_second off w) s e.
Proof.
  intros Ho Hw Hse Hbig. unfold windowOverlap. destruct (local_date loc s) as [[y m] d] eqn:E.
  assert (Ha : s - 259200 <= (local_day loc s + -1) * 86400 - off + StartMinute w * 60 <= s).
  { destruct Hw as [Hs _]. unfold local_day. rewrite (proj2 Ho) by lia. destruct Ho as [Hb _]. div_lia. }
  eapply window_loop_count; try done; [lia|].
  rewrite Z.max_l by lia. by rewrite seconds_empty.
Qed.

End Sane.
