(* ===== verification/TimeResult.v ===== *)
(** The result of a time calculation: pay lines, periods, days and the trace,
    its canonical text with the digest over it, and the recheck of both:
    [internal/domains/timecalc/result.go] and the decimals of [units.go].
    SHA-256 is the class [Sha256]. *)

From S2P Require Import Prelude FixedDecimal CanonicalBytes TimeUnits TimeRules TimeClassify.

Local Open Scope Z_scope.

(** [a + b] of two [int64]. *)
Definition add64 (a b : Z) : Z := to_int64 (a + b).

Definition contractVersion : Z := 1.

(** [LineKind] is a Go string. *)
Definition LineStraightTime : string := "STRAIGHT_TIME".
Definition LineSalary : string := "SALARY".
Definition LinePiece : string := "PIECE_EARNINGS".
Definition LineNonproductive : string := "NONPRODUCTIVE_226_2".
Definition LineRest : string := "REST_226_2".
Definition LineDifferential : string := "DIFFERENTIAL".
Definition LineEarning : string := "EARNING".
Definition LineStandby : string := "ON_CALL_STANDBY".
Definition LineSplitShift : string := "SPLIT_SHIFT".
Definition LineOvertime : string := "OVERTIME_PREMIUM".
Definition LineDoubleTime : string := "DOUBLE_TIME_PREMIUM".
Definition LineReporting : string := "REPORTING_TIME".
Definition LineCallBack : string := "CALL_BACK".

Record PayLine : Type := mkPayLine {
  pl_Period : Z; pl_Kind : string; pl_Code : string; pl_Seconds : Z; pl_Rate : Z; pl_Amount : Z;
  pl_InRegularRate : bool; pl_Rule : string
}.
Record DayResult : Type := mkDayResult { dr_Day : Z; dr_Date : string; dr_Rule : Reason; dr_Buckets : Buckets }.
Record PeriodResult : Type := mkPeriodResult {
  pr_Index : Z; pr_StartDate : string; pr_Buckets : Buckets; pr_RegularRate : Z; pr_Lines : list PayLine
}.
Record TraceEntry : Type := mkTraceEntry { te_Rule : string; te_Params : string }.

Record Result : Type := mkResult {
  r_CalculationID : string; r_RuleSetID : string; r_RuleSetVersion : string; r_Jurisdiction : string; r_Method : string;
  r_Days : list DayResult; r_Periods : list PeriodResult; r_Totals : Buckets; r_PremiumSeconds : Z; r_GrossPay : Z;
  r_CompTime : CompTimeResult; r_Trace : list TraceEntry; r_Digest : string
}.

#[export] Instance Buckets_eq_dec : EqDecision Buckets.
Proof. solve_decision. Defined.
#[export] Instance PayLine_eq_dec : EqDecision PayLine.
Proof. solve_decision. Defined.

Definition Reason_String (r : Reason) : string :=
  match r with
  | ReasonDaily => "DAILY"
  | ReasonPeriod => "PERIOD"
  | ReasonSeventhDay => "SEVENTH_DAY"
  | ReasonAlternative => "ALTERNATIVE_SCHEDULE"
  | ReasonNone => "NONE"
  end.

(** [strings.TrimRight(s, "0")] and [strings.TrimSuffix(s, ".")]. *)
Fixpoint trim_right (c : ascii) (s : string) : string :=
  match s with
  | EmptyString => EmptyString
  | String d s' =>
      match trim_right c s' with
      | EmptyString => if Ascii.eqb d c then EmptyString else String d EmptyString
      | r => String d r
      end
  end.
Fixpoint trim_suffix (c : ascii) (s : string) : string :=
  match s with
  | EmptyString => EmptyString
  | String d EmptyString => if Ascii.eqb d c then EmptyString else s
  | String d s' => String d (trim_suffix c s')
  end.
Definition Factor_String (f : Z) : string := trim_suffix "." (trim_right "0" (Money_String f)).

Definition FormatBool (b : bool) : string := if b then "true" else "false".
Definition newline : string := String (char_of 10) EmptyString.

(** * The canonical text *)

(** [str], [dur], [amt] and [bk] of [appendRender] append to the text; the text
    of a list of parts is their concatenation. *)
Definition concat_text (l : list string) : string := foldr String.append EmptyString l.

Definition buckets_text (x : Buckets) : string :=
  " worked=" +:+ Seconds_appendTo (Worked x) +:+ " regular=" +:+ Seconds_appendTo (b_Regular x)
  +:+ " overtime=" +:+ Seconds_appendTo (b_Overtime x) +:+ " double_time=" +:+ Seconds_appendTo (b_DoubleTime x)
  +:+ " comp_time=" +:+ Seconds_appendTo (b_CompTime x).

Definition day_text (d : DayResult) : string :=
  if Worked (dr_Buckets d) =? 0 then ""
  else "day " +:+ append_int (dr_Day d) +:+ " " +:+ dr_Date d +:+ " rule=" +:+ Reason_String (dr_Rule d)
       +:+ buckets_text (dr_Buckets d) +:+ newline.

Definition line_text (l : PayLine) : string :=
  "  line " +:+ pl_Kind l +:+ " code=" +:+ pl_Code l +:+ " hours=" +:+ Seconds_appendTo (pl_Seconds l)
  +:+ " rate=" +:+ Money_appendTo (pl_Rate l) +:+ " amount=" +:+ Money_appendTo (pl_Amount l)
  +:+ " in_regular_rate=" +:+ FormatBool (pl_InRegularRate l) +:+ " rule=" +:+ pl_Rule l +:+ newline.

Definition period_text (p : PeriodResult) : string :=
  "period " +:+ append_int (pr_Index p) +:+ " " +:+ pr_StartDate p +:+ buckets_text (pr_Buckets p)
  +:+ " regular_rate=" +:+ Money_appendTo (pr_RegularRate p) +:+ newline +:+ concat_text (map line_text (pr_Lines p)).

Definition trace_text (t : TraceEntry) : string := "trace " +:+ te_Rule t +:+ " " +:+ te_Params t +:+ newline.

Definition Result_Render (r : Result) : string :=
  "timecalc v" +:+ append_int contractVersion +:+ newline
  +:+ "calculation " +:+ r_CalculationID r +:+ " ruleset=" +:+ r_RuleSetID r +:+ "/" +:+ r_RuleSetVersion r
  +:+ " jurisdiction=" +:+ r_Jurisdiction r +:+ " method=" +:+ r_Method r +:+ newline
  +:+ concat_text (map day_text (r_Days r)) +:+ concat_text (map period_text (r_Periods r))
  +:+ "totals" +:+ buckets_text (r_Totals r) +:+ " premium_hours=" +:+ Seconds_appendTo (r_PremiumSeconds r)
  +:+ " gross=" +:+ Money_appendTo (r_GrossPay r) +:+ newline
  +:+ "comp_time converted=" +:+ Seconds_appendTo (ConvertedOvertime (r_CompTime r))
  +:+ " accrued=" +:+ Seconds_appendTo (Accrued (r_CompTime r))
  +:+ " before=" +:+ Seconds_appendTo (BalanceBefore (r_CompTime r))
  +:+ " after=" +:+ Seconds_appendTo (BalanceAfter (r_CompTime r))
  +:+ " cap=" +:+ Seconds_appendTo (comp_Cap (r_CompTime r)) +:+ newline
  +:+ concat_text (map trace_text (r_Trace r)).

Definition Result_digest `{Sha256} (r : Result) : string :=
  hex_EncodeToString (sha256_Sum256 (str_bytes (Result_Render r))).

(** * The recheck *)

(** [Buckets.plus] on the [int64] fields. *)
Definition plus64 (b o : Buckets) : Buckets :=
  mkBuckets (add64 (Worked b) (Worked o)) (add64 (b_Regular b) (b_Regular o)) (add64 (b_Overtime b) (b_Overtime o))
    (add64 (b_DoubleTime b) (b_DoubleTime o)) (add64 (b_CompTime b) (b_CompTime o)).

(** [gross += l.Amount] over the lines of a period. *)
Definition add_amounts (gross : Z) (lines : list PayLine) : Z := foldl (fun g l => add64 g (pl_Amount l)) gross lines.

Fixpoint validate_periods (ps : list PeriodResult) (totals : Buckets) (gross : Z) : outcome timecalc_err (Buckets * Z) :=
  match ps with
  | [] => Ok (totals, gross)
  | p :: ps' =>
      let b := pr_Buckets p in
      _ ← fail_if (negb (Worked b =? add64 (add64 (b_Regular b) (b_Overtime b)) (b_DoubleTime b))
                   || (b_Overtime b <? b_CompTime b)) ErrResultTampered;
      validate_periods ps' (plus64 totals b) (add_amounts gross (pr_Lines p))
  end.

Definition Result_Validate `{Sha256} (r : Result) : outcome timecalc_err unit :=
  sums ← validate_periods (r_Periods r) zero_buckets 0;
  let '(totals, gross) := sums in
  _ ← fail_if (negb (bool_decide (totals = r_Totals r))) ErrResultTampered;
  _ ← fail_if (negb (gross =? r_GrossPay r)) ErrResultTampered;
  fail_if (negb (bool_decide (r_Digest r = Result_digest r))) ErrResultTampered.

(** * Decimals *)

Definition HoursDecimal (s scale : Z) (mode : RoundingMode) : outcome values_err Decimal :=
  num ← NewDecimal (append_int s) 0 mode;
  hour ← MustDecimal "3600" 0 mode;
  Decimal_Div num hour scale mode.

Definition ToDecimal `{DecimalBackend} (m scale : Z) (mode : RoundingMode) : outcome values_err Decimal :=
  d ← NewDecimal (Money_String m) moneyScale mode;
  Decimal_Quantize d scale mode.

Record WageHours : Type := mkWageHours { wh_Regular : Decimal; wh_Overtime : Decimal; wh_DoubleTime : Decimal }.

Definition Result_WageHours (r : Result) (scale : Z) (mode : RoundingMode) : outcome values_err WageHours :=
  reg ← HoursDecimal (b_Regular (r_Totals r)) scale mode;
  ot ← HoursDecimal (to_int64 (b_Overtime (r_Totals r) - b_CompTime (r_Totals r))) scale mode;
  dt ← HoursDecimal (b_DoubleTime (r_Totals r)) scale mode;
  Ok (mkWageHours reg ot dt).
