(* ===== verification/TimePay.v ===== *)
(** Pay lines of a time calculation: straight-time pay, differentials, fixed
    amounts, the regular rate of each overtime period and its premiums:
    [internal/domains/timecalc/pay.go] and the [engine] of [calculate.go].

    An [engine] is passed from step to step; the pointers of [periods] are
    elements of a list that is read and written by index, where an index past
    the end panics.  Sums of money and of paid seconds wrap as [int64]. *)

From S2P Require Import Prelude FixedDecimal CivilTime Intervals Zoned TimeUnits TimeRules TimeCalendar TimeClassify TimeZones TimeResult.

Local Open Scope Z_scope.

(** * The working state *)

(** [byReason] is an array over two enumerations. *)
Record periodState : Type := mkPeriodState {
  ps_res : PeriodResult; rrNum : Z; ps_straight : list PayLine; ps_fixed : list PayLine; restSecs : Z;
  byReason : Reason -> Category -> Z
}.

Definition periodIndex (ps : periodState) : Z := pr_Index (ps_res ps).

Record engine : Type := mkEngine {
  eng_ivs : list Interval; eng_segs : list segment; eng_pieces : list piece; eng_plans : list dayPlan;
  eng_periods : list periodState; eng_days : list DayResult; dayEarn : list Z; standby : list Z; premium : Z;
  eng_comp : CompTimeResult; trace : list TraceEntry
}.

Definition with_periods (e : engine) (ps : list periodState) : engine :=
  mkEngine (eng_ivs e) (eng_segs e) (eng_pieces e) (eng_plans e) ps (eng_days e) (dayEarn e) (standby e) (premium e)
    (eng_comp e) (trace e).
Definition with_dayEarn (e : engine) (d : list Z) : engine :=
  mkEngine (eng_ivs e) (eng_segs e) (eng_pieces e) (eng_plans e) (eng_periods e) (eng_days e) d (standby e) (premium e)
    (eng_comp e) (trace e).
Definition with_premium (e : engine) (p : Z) : engine :=
  mkEngine (eng_ivs e) (eng_segs e) (eng_pieces e) (eng_plans e) (eng_periods e) (eng_days e) (dayEarn e) (standby e) p
    (eng_comp e) (trace e).
Definition with_trace (e : engine) (t : list TraceEntry) : engine :=
  mkEngine (eng_ivs e) (eng_segs e) (eng_pieces e) (eng_plans e) (eng_periods e) (eng_days e) (dayEarn e) (standby e)
    (premium e) (eng_comp e) t.
Definition with_oncall (e : engine) (ivs : list Interval) (st : list Z) : engine :=
  mkEngine ivs (eng_segs e) (eng_pieces e) (eng_plans e) (eng_periods e) (eng_days e) (dayEarn e) st (premium e)
    (eng_comp e) (trace e).
Definition with_classified (e : engine) (segs : list segment) (pieces : list piece) (plans : list dayPlan)
    (ps : list periodState) (days : list DayResult) (comp : CompTimeResult) : engine :=
  mkEngine (eng_ivs e) segs pieces plans ps days (dayEarn e) (standby e) (premium e) comp (trace e).

(** [ps := e.periods[i]], changed by [f] and written back; [f] also returns a
    value. *)
Definition update_period {A} (e : engine) (i : Z) (f : periodState -> outcome timecalc_err (periodState * A))
    : outcome timecalc_err (engine * A) :=
  ps ← at_index (eng_periods e) i;
  out ← f ps;
  let '(ps, a) := out in
  Ok (with_periods e (set_index (eng_periods e) i ps), a).

(** [e.dayEarn[day] += n]. *)
Definition add_earned (e : engine) (day n : Z) : outcome timecalc_err engine :=
  v ← at_index (dayEarn e) day;
  Ok (with_dayEarn e (set_index (dayEarn e) day (add64 v n))).

(** * One period *)

Definition with_res (ps : periodState) (r : PeriodResult) : periodState :=
  mkPeriodState r (rrNum ps) (ps_straight ps) (ps_fixed ps) (restSecs ps) (byReason ps).
Definition with_rrNum (ps : periodState) (n : Z) : periodState :=
  mkPeriodState (ps_res ps) n (ps_straight ps) (ps_fixed ps) (restSecs ps) (byReason ps).
Definition with_straight (ps : periodState) (l : list PayLine) : periodState :=
  mkPeriodState (ps_res ps) (rrNum ps) l (ps_fixed ps) (restSecs ps) (byReason ps).
Definition with_fixed (ps : periodState) (l : list PayLine) : periodState :=
  mkPeriodState (ps_res ps) (rrNum ps) (ps_straight ps) l (restSecs ps) (byReason ps).
Definition with_rest (ps : periodState) (n : Z) : periodState :=
  mkPeriodState (ps_res ps) (rrNum ps) (ps_straight ps) (ps_fixed ps) n (byReason ps).

Definition count_reason (ps : periodState) (r : Reason) (c : Category) (secs : Z) : periodState :=
  mkPeriodState (ps_res ps) (rrNum ps) (ps_straight ps) (ps_fixed ps) (restSecs ps)
    (fun r' c' => if bool_decide (r' = r) && bool_decide (c' = c) then add64 (byReason ps r' c') secs else byReason ps r' c').

(** The loop of [addTimed]: seconds join the first line of the same kind, code
    and rate, and a new line goes to the end. *)
Fixpoint add_seconds (kind code : string) (rate secs : Z) (new : PayLine) (lines : list PayLine) : list PayLine :=
  match lines with
  | [] => [new]
  | l :: lines' =>
      if bool_decide (pl_Kind l = kind) && bool_decide (pl_Code l = code) && (pl_Rate l =? rate)
      then mkPayLine (pl_Period l) (pl_Kind l) (pl_Code l) (add64 (pl_Seconds l) secs) (pl_Rate l) (pl_Amount l)
             (pl_InRegularRate l) (pl_Rule l) :: lines'
      else l :: add_seconds kind code rate secs new lines'
  end.

Definition addTimed (ps : periodState) (kind code : string) (rate secs : Z) (inRR : bool) (rule : string) : periodState :=
  with_straight ps (add_seconds kind code rate secs (mkPayLine (periodIndex ps) kind code secs rate 0 inRR rule) (ps_straight ps)).

Definition include (ps : periodState) (amount : Z) : outcome timecalc_err periodState :=
  n ← mulChecked amount Hour;
  sum ← addChecked (rrNum ps) n;
  Ok (with_rrNum ps sum).

Definition includeTimed (ps : periodState) (rate secs : Z) : outcome timecalc_err (periodState * Z) :=
  n ← mulChecked rate secs;
  sum ← addChecked (rrNum ps) n;
  Ok (with_rrNum ps sum, n).

(** * The steps *)

Section Steps.
  Context {tz : Tzdb} (req : Request) (rules : RuleSet) (cal : calendar).

Definition ruleID (name : string) : string := rs_ID rules +:+ ":" +:+ name.

Definition note (e : engine) (rule params : string) : engine :=
  with_trace e (trace e ++ [mkTraceEntry (ruleID rule) params]).

Definition is_method (m : string) : bool := bool_decide (Method req = m).

Definition straightRate (iv : Interval) : string * Z :=
  if is_method OvertimeFluctuatingWeek then (LineStraightTime, 0)
  else if is_method OvertimePieceRateAverage && pr_Enabled (PieceRest rules) && bool_decide (iv_Kind iv = KindRest)
  then (LineRest, 0)
  else if is_method OvertimePieceRateAverage && pr_Enabled (PieceRest rules) && bool_decide (iv_Kind iv = KindNonproductive)
  then (LineNonproductive, Z.max (iv_Rate iv) (NonproductiveFloor (PieceRest rules)))
  else (LineStraightTime, iv_Rate iv).

(** The zero value of a differential rule. *)
Definition zero_differential : DifferentialRule := mkDifferentialRule "" 0 0 None (mkTreatment "" "").

Definition engine_differential (e : engine) (period day : Z) (p : piece) (iv : Interval) (tag : string)
    : outcome timecalc_err engine :=
  let d := default zero_differential (RuleSet_differential rules tag) in
  secs ← match diff_Window d with
         | Some w => windowOverlap (p_start p) (p_start p + p_secs p) (iv_Zone iv) w
         | None => Ok (p_secs p)
         end;
  rate ← (if 0 <? Percent d then scaleRate (iv_Rate iv) (Percent d) (RateDecimals rules) (Rounding rules)
          else Ok (PerHour d));
  if (secs =? 0) || (rate =? 0) then Ok e
  else
    let inRR := bool_decide (Inclusion (diff_Treatment d) = Include) in
    out ← update_period e period (fun ps =>
            let ps := addTimed ps LineDifferential tag rate secs inRR (ruleID ("DIFFERENTIAL:" +:+ tag)) in
            if inRR then includeTimed ps rate secs else n ← mulChecked rate secs; Ok (ps, n));
    let '(e, n) := out in
    add_earned e day n.

Fixpoint differentials_loop (period day : Z) (p : piece) (iv : Interval) (tags : list string) (e : engine)
    : outcome timecalc_err engine :=
  match tags with
  | [] => Ok e
  | tag :: tags' => e ← engine_differential e period day p iv tag; differentials_loop period day p iv tags' e
  end.

(** The body of the loop of [accumulate]. *)
Definition accumulate_piece (e : engine) (p : piece) : outcome timecalc_err engine :=
  s ← at_index (eng_segs e) (Z.of_nat (p_seg p));
  iv ← at_index (eng_ivs e) (Z.of_nat (seg_iv s));
  period ← (if per_Days (Period rules) =? 0 then Panic else Ok (Z.quot (seg_day s) (per_Days (Period rules))));
  let '(kind, rate) := straightRate iv in
  if bool_decide (kind = LineRest) then
    out ← update_period e period (fun ps =>
            let ps := count_reason ps (p_reason p) (p_cat p) (p_secs p) in
            Ok (with_rest ps (add64 (restSecs ps) (p_secs p)), tt));
    Ok out.1
  else
    out ← update_period e period (fun ps =>
            let ps := count_reason ps (p_reason p) (p_cat p) (p_secs p) in
            timed ← includeTimed ps rate (p_secs p);
            let '(ps, n) := timed in
            Ok (if (0 <? rate) && negb (p_comp p)
                then addTimed ps kind (iv_RateCode iv) rate (p_secs p) true
                       (ruleID (if bool_decide (kind = LineNonproductive) then "LC_226_2_NONPRODUCTIVE" else "STRAIGHT_TIME"))
                else ps, n));
    let '(e, n) := out in
    e ← add_earned e (seg_day s) n;
    differentials_loop period (seg_day s) p iv (iv_Differentials iv) e.

Fixpoint accumulate_loop (ps : list piece) (e : engine) : outcome timecalc_err engine :=
  match ps with
  | [] => Ok e
  | p :: ps' => e ← accumulate_piece e p; accumulate_loop ps' e
  end.

Definition accumulate (e : engine) : outcome timecalc_err engine := accumulate_loop (eng_pieces e) e.

(** ** Fixed amounts *)

(** The first loop of [fixedAmounts]: piece earnings by period. *)
Fixpoint piece_loop (ivs : list Interval) (earned : list Z) : outcome timecalc_err (list Z) :=
  match ivs with
  | [] => Ok earned
  | iv :: ivs' =>
      if PieceEarnings iv =? 0 then piece_loop ivs' earned
      else
        let L := per_Days (Period rules) in
        p ← (if L =? 0 then Panic else Ok (Z.quot (calendar_dayOf cal (t_unix (iv_Start iv))) L));
        _ ← fail_if (negb (Z.quot (calendar_dayOf cal (to_int64 (t_unix (iv_End iv) - 1))) L =? p)) ErrInvalidRequest;
        v ← at_index earned p;
        piece_loop ivs' (set_index earned p (add64 v (PieceEarnings iv)))
  end.

(** The [less] of [sort.SliceStable], and the stable sort as an insertion sort. *)
Definition earning_less (a b : EarningItem) : bool :=
  if negb (ei_Period a =? ei_Period b) then ei_Period a <? ei_Period b
  else if negb (bool_decide (ei_Code a = ei_Code b)) then String.ltb (ei_Code a) (ei_Code b)
  else ei_Amount a <? ei_Amount b.
Fixpoint insert_earning (x : EarningItem) (l : list EarningItem) : list EarningItem :=
  match l with
  | [] => [x]
  | y :: l' => if earning_less y x then y :: insert_earning x l' else x :: y :: l'
  end.
Definition sort_earnings (l : list EarningItem) : list EarningItem := foldr insert_earning [] l.

Definition addFixed (ps : periodState) (kind code : string) (secs rate amount : Z) (inRR : bool) (rule : string)
    : outcome timecalc_err periodState :=
  let ps := with_fixed ps (ps_fixed ps ++ [mkPayLine (periodIndex ps) kind code secs rate amount inRR (ruleID rule)]) in
  if inRR then include ps amount else Ok ps.

(** [e.addFixed] on the period [i]. *)
Definition add_fixed_at (e : engine) (i : Z) (kind code : string) (secs rate amount : Z) (inRR : bool) (rule : string)
    : outcome timecalc_err engine :=
  out ← update_period e i (fun ps => ps ← addFixed ps kind code secs rate amount inRR rule; Ok (ps, tt));
  Ok out.1.

Definition earning_params (i : Z) (it : EarningItem) : string :=
  "period=" +:+ append_int i +:+ " code=" +:+ ei_Code it +:+ " amount=" +:+ Money_String (ei_Amount it)
  +:+ " inclusion=" +:+ Inclusion (ei_Treatment it) +:+ " basis=" +:+ Basis (ei_Treatment it).

Fixpoint earnings_loop (i : Z) (items : list EarningItem) (e : engine) : outcome timecalc_err engine :=
  match items with
  | [] => Ok e
  | it :: items' =>
      if negb (ei_Period it =? i) then earnings_loop i items' e
      else
        e ← add_fixed_at e i LineEarning (ei_Code it) 0 0 (ei_Amount it)
              (bool_decide (Inclusion (ei_Treatment it) = Include)) ("EARNING:" +:+ ei_Code it);
        earnings_loop i items' (note e "EARNING" (earning_params i it))
  end.

(** The body of the second loop: salary, piece earnings, items and standby. *)
Definition fixed_period (earned : list Z) (items : list EarningItem) (i : Z) (e : engine) : outcome timecalc_err engine :=
  ps ← at_index (eng_periods e) i;
  e ← (if is_method OvertimeFluctuatingWeek
       then add_fixed_at e i LineSalary "WEEKLY_SALARY" (Worked (pr_Buckets (ps_res ps))) 0 (WeeklySalary req) true "FWW_SALARY_778_114"
       else Ok e);
  pay ← at_index earned i;
  e ← (if 0 <? pay then add_fixed_at e i LinePiece "PIECE" 0 0 pay true "PIECE_RATE_778_111" else Ok e);
  e ← earnings_loop i items e;
  secs ← at_index (standby e) i;
  if (0 <? secs) && (0 <? StandbyPerHour (OnCall rules)) then
    amount ← amountFor (StandbyPerHour (OnCall rules)) secs (PayDecimals rules) (Rounding rules);
    add_fixed_at e i LineStandby "STANDBY" secs (StandbyPerHour (OnCall rules)) amount
      (bool_decide (Inclusion (Standby (OnCall rules)) = Include)) "ON_CALL_STANDBY"
  else Ok e.

Fixpoint fixed_loop (earned : list Z) (items : list EarningItem) (idx : list Z) (e : engine) : outcome timecalc_err engine :=
  match idx with
  | [] => Ok e
  | i :: idx' => e ← fixed_period earned items i e; fixed_loop earned items idx' e
  end.

Definition period_indexes (e : engine) : list Z := seqZ 0 (Z.of_nat (length (eng_periods e))).

Definition fixedAmounts (e : engine) : outcome timecalc_err engine :=
  earned ← piece_loop (eng_ivs e) (replicate (length (eng_periods e)) 0);
  fixed_loop earned (sort_earnings (Earnings req)) (period_indexes e) e.

(** ** The regular rate and the premiums of a period *)

Definition rateRule : string :=
  if is_method OvertimeFluctuatingWeek then "REGULAR_RATE_FWW_778_114"
  else if is_method OvertimePieceRateAverage then "REGULAR_RATE_PIECE_778_111"
  else if is_method OvertimeSingleRate then "REGULAR_RATE_SINGLE"
  else "REGULAR_RATE_WEIGHTED_778_115".

(** Rest time priced at the average rate: the period with the rest pay in its
    numerator, the line, and the text of the note. *)
Definition rest_pay (ps : periodState) : outcome timecalc_err (periodState * list PayLine * list string) :=
  if 0 <? restSecs ps then
    avg ← rateFor (rrNum ps) (to_int64 (Worked (pr_Buckets (ps_res ps)) - restSecs ps)) (RateDecimals rules) (Rounding rules);
    let rate := Z.max avg (RestFloor (PieceRest rules)) in
    amount ← amountFor rate (restSecs ps) (PayDecimals rules) (Rounding rules);
    timed ← includeTimed ps rate (restSecs ps);
    Ok (timed.1, [mkPayLine (periodIndex ps) LineRest "REST" (restSecs ps) rate amount true (ruleID "LC_226_2_REST")],
        ["period=" +:+ append_int (periodIndex ps) +:+ " average_rate=" +:+ Money_String avg
         +:+ " floor=" +:+ Money_String (RestFloor (PieceRest rules)) +:+ " rate=" +:+ Money_String rate
         +:+ " hours=" +:+ Seconds_appendTo (restSecs ps)])
  else Ok (ps, [], []).

(** One entry of the table of premiums. *)
Definition premium_line (ps : periodState) (rr : Z) (kind : string) (secs factor : Z) : outcome timecalc_err (list PayLine) :=
  if secs =? 0 then Ok []
  else
    rate ← scaleRate rr (to_int64 (factor - One)) (RateDecimals rules) (Rounding rules);
    amount ← amountFor rate secs (PayDecimals rules) (Rounding rules);
    Ok [mkPayLine (periodIndex ps) kind kind secs rate amount false (ruleID kind)].

Definition premium_lines (ps : periodState) (rr : Z) : outcome timecalc_err (list PayLine) :=
  if is_method OvertimeNone then Ok []
  else
    let b := pr_Buckets (ps_res ps) in
    ot ← premium_line ps rr LineOvertime (to_int64 (b_Overtime b - b_CompTime b)) (OvertimeFactor rules);
    dt ← premium_line ps rr LineDoubleTime (b_DoubleTime b) (DoubleTimeFactor rules);
    Ok (ot ++ dt).

(** The straight-time lines with their amounts. *)
Fixpoint price_lines (lines : list PayLine) : outcome timecalc_err (list PayLine) :=
  match lines with
  | [] => Ok []
  | l :: lines' =>
      amount ← amountFor (pl_Rate l) (pl_Seconds l) (PayDecimals rules) (Rounding rules);
      rest ← price_lines lines';
      Ok (mkPayLine (pl_Period l) (pl_Kind l) (pl_Code l) (pl_Seconds l) (pl_Rate l) amount (pl_InRegularRate l) (pl_Rule l) :: rest)
  end.

Definition classify_params (ps : periodState) : string :=
  let br r c := Seconds_appendTo (byReason ps r c) in
  "period=" +:+ append_int (periodIndex ps) +:+ " daily_ot=" +:+ br ReasonDaily Overtime
  +:+ " daily_dt=" +:+ br ReasonDaily DoubleTime +:+ " period_ot=" +:+ br ReasonPeriod Overtime
  +:+ " seventh_day_ot=" +:+ br ReasonSeventhDay Overtime +:+ " seventh_day_dt=" +:+ br ReasonSeventhDay DoubleTime
  +:+ " alternative_ot=" +:+ br ReasonAlternative Overtime +:+ " alternative_dt=" +:+ br ReasonAlternative DoubleTime.

(** The body of the loop of [regularRate]: the period with its rate and lines,
    and its notes. *)
Definition price_period (ps : periodState) : outcome timecalc_err (periodState * list TraceEntry) :=
  let worked := Worked (pr_Buckets (ps_res ps)) in
  rested ← rest_pay ps;
  let '(ps, rest, rest_note) := rested in
  rr ← rateFor (rrNum ps) worked (RateDecimals rules) (Rounding rules);
  earnings ← rateFor (rrNum ps) Hour moneyScale (Rounding rules);
  _ ← fail_if (is_method OvertimeFluctuatingWeek && (0 <? MinimumWage rules) && (0 <? worked) && (rr <? MinimumWage rules))
        ErrBelowMinimumWage;
  prem ← premium_lines ps rr;
  straight ← price_lines (ps_straight ps);
  Ok (with_res ps (mkPeriodResult (periodIndex ps) (pr_StartDate (ps_res ps)) (pr_Buckets (ps_res ps)) rr
                     (straight ++ ps_fixed ps ++ rest ++ prem)),
      map (mkTraceEntry (ruleID "LC_226_2_REST")) rest_note
      ++ [mkTraceEntry (ruleID "CLASSIFY") (classify_params ps);
          mkTraceEntry (ruleID rateRule)
            ("period=" +:+ append_int (periodIndex ps) +:+ " included_earnings=" +:+ Money_String earnings
             +:+ " hours=" +:+ Seconds_appendTo worked +:+ " regular_rate=" +:+ Money_String rr)]).

Fixpoint price_loop (idx : list Z) (e : engine) : outcome timecalc_err engine :=
  match idx with
  | [] => Ok e
  | i :: idx' =>
      out ← update_period e i price_period;
      let '(e, notes) := out in
      price_loop idx' (with_trace e (trace e ++ notes))
  end.

Definition regularRate (e : engine) : outcome timecalc_err engine := price_loop (period_indexes e) e.

End Steps.
