(* ===== verification/TimePremium.v ===== *)
(** Schedule-dependent premiums of a time calculation: on-call time, the
    split-shift premium, reporting-time and call-back guarantees:
    [internal/domains/timecalc/premium.go]. *)

From stdpp Require Import sorting.
From S2P Require Import Prelude Sorting FixedDecimal CivilTime Intervals TimeUnits TimeRules TimeCalendar TimeClassify TimeZones TimeResult TimePay.

Local Open Scope Z_scope.

(** * On-call time *)

(** [OnCallRule.classify]: engaged to wait, and the criterion. *)
Definition OnCallRule_classify (r : OnCallRule) (rs : Restrictions) : bool * string :=
  if OnPremisesEngaged r && OnPremises rs then (true, "on_premises")
  else if (0 <? EngagedResponseMinutes r) && (0 <? ResponseMinutes rs) && (ResponseMinutes rs <=? EngagedResponseMinutes r)
  then (true, "response_minutes=" +:+ append_int (ResponseMinutes rs) +:+ "<=" +:+ append_int (EngagedResponseMinutes r))
  else if (0 <? EngagedExpectedCalls r) && (EngagedExpectedCalls r <=? ExpectedCalls rs)
  then (true, "expected_calls=" +:+ append_int (ExpectedCalls rs) +:+ ">=" +:+ append_int (EngagedExpectedCalls r))
  else (false, "free_to_use_time").

(** The loop of [unworked]; the [idx] of the spans made is 0. *)
Fixpoint unworked_loop (cur e : Z) (worked : list span) : list span :=
  match worked with
  | [] => if cur <? e then [mkSpan 0 cur e] else []
  | w :: worked' =>
      if (sp_end w <=? cur) || (e <=? sp_start w) then unworked_loop cur e worked'
      else if cur <? sp_start w then mkSpan 0 cur (sp_start w) :: unworked_loop (Z.max cur (sp_end w)) e worked'
      else unworked_loop (Z.max cur (sp_end w)) e worked'
  end.
Definition unworked (s e : Z) (worked : list span) : list span := unworked_loop s e worked.

(** The [less] of [sort.Slice] over on-call periods and shifts: by start, then
    by identifier.  The sort used here is a merge sort. *)
Definition start_less {A} (start : A -> GoTime) (id : A -> string) (a b : A) : bool :=
  if negb (bool_decide (t_unix (start a) = t_unix (start b)) && bool_decide (t_nanosecond (start a) = t_nanosecond (start b)))
  then time_After (start b) (start a)
  else String.ltb (id a) (id b).
Definition start_le {A} (start : A -> GoTime) (id : A -> string) (a b : A) : Prop := start_less start id b a = false.
#[export] Instance start_le_dec {A} (start : A -> GoTime) (id : A -> string) (a b : A) : Decision (start_le start id a b).
Proof. unfold start_le. apply _. Defined.

Section Premiums.
  Context {tz : Tzdb} (req : Request) (rules : RuleSet) (cal : calendar).

Definition period_len : Z := per_Days (Period rules).
Definition note_for : engine -> string -> string -> engine := note rules.

(** [engagedIntervals]: the intervals appended for the free parts. *)
Definition engaged_interval (o : OnCallPeriod) (code kind : string) (rate : Z) (i : nat) (g : span) : Interval :=
  mkWorkInterval ("oncall:" +:+ oc_ID o +:+ ":" +:+ dec_string (Z.of_nat i)) (req_AggregationKey req) ""
    (mkGoTime (sp_start g) 0) (mkGoTime (sp_end g) 0) (ww_Zone (req_Workweek req)) code rate "" kind [] 0 0 "".

Definition engagedIntervals (o : OnCallPeriod) (free : list span) : outcome timecalc_err (list Interval) :=
  let rate := if is_method req OvertimeFluctuatingWeek then 0 else oc_Rate o in
  let kind := if is_method req OvertimePieceRateAverage then KindNonproductive else KindProductive in
  _ ← fail_if ((rate =? 0) && negb (is_method req OvertimeFluctuatingWeek) && negb (bool_decide (free = []))) ErrInvalidRequest;
  let code := if bool_decide (oc_RateCode o = "") then "ON_CALL" else oc_RateCode o in
  Ok (imap (engaged_interval o code kind rate) free).

(** The loop over one free part: its seconds, period by period. *)
Fixpoint standby_loop (fuel : nat) (t stop : Z) (st : list Z) : outcome timecalc_err (list Z) :=
  if t <? stop then
    match fuel with
    | O => Panic
    | S n =>
        p ← (if period_len =? 0 then Panic else Ok (Z.quot (calendar_dayOf cal t) period_len));
        b ← at_index (bounds cal) ((p + 1) * period_len);
        v ← at_index st p;
        standby_loop n (Z.min stop b) stop (set_index st p (add64 v (to_int64 (Z.min stop b - t))))
    end
  else Ok st.

Fixpoint standby_parts (free : list span) (st : list Z) : outcome timecalc_err (list Z) :=
  match free with
  | [] => Ok st
  | g :: free' => st ← standby_loop (length (bounds cal)) (sp_start g) (sp_end g) st; standby_parts free' st
  end.

Definition free_seconds (free : list span) : Z := foldl (fun acc g => add64 acc (to_int64 (sp_end g - sp_start g))) 0 free.

Definition oncall_params (o : OnCallPeriod) (engaged : bool) (why : string) (secs : Z) : string :=
  "id=" +:+ oc_ID o +:+ " state=" +:+ (if engaged then "ENGAGED_TO_WAIT" else "WAITING_TO_BE_ENGAGED")
  +:+ " criterion=" +:+ why +:+ " unworked_hours=" +:+ Seconds_appendTo secs.

(** The body of the loop of [onCall]. *)
Definition oncall_period (lo hi : Z) (worked : list span) (o : OnCallPeriod) (e : engine) : outcome timecalc_err engine :=
  let s := t_unix (oc_Start o) in let stop := t_unix (oc_End o) in
  _ ← fail_if ((s <? lo) || (hi <? stop)) ErrOutsidePeriod;
  let '(engaged, why) := OnCallRule_classify (OnCall rules) (oc_Restrictions o) in
  let free := unworked s stop worked in
  e ← (if (engaged : bool) then
         more ← engagedIntervals o free; Ok (with_oncall e (eng_ivs e ++ more) (standby e))
       else st ← standby_parts free (standby e); Ok (with_oncall e (eng_ivs e) st));
  Ok (note_for e "ON_CALL" (oncall_params o engaged why (free_seconds free))).

Fixpoint oncall_loop (lo hi : Z) (worked : list span) (os : list OnCallPeriod) (e : engine) : outcome timecalc_err engine :=
  match os with
  | [] => Ok e
  | o :: os' => e ← oncall_period lo hi worked o e; oncall_loop lo hi worked os' e
  end.

Definition onCall (e : engine) : outcome timecalc_err engine :=
  let e := with_oncall e (Intervals req) (standby e) in
  if bool_decide (req_OnCall req = []) then Ok e
  else
    worked ← orderSpans (Intervals req);
    lo ← at_index (bounds cal) 0;
    hi ← at_index (bounds cal) (calendar_days cal);
    oncall_loop lo hi worked (merge_sort (start_le oc_Start oc_ID) (req_OnCall req)) e.

(** * The split-shift premium *)

(** The inner loop: the largest gap to the segment before, and the segments
    past this workday. *)
Fixpoint day_gap (day prev gap : Z) (segs : list segment) : Z * list segment :=
  match segs with
  | [] => (gap, [])
  | s :: segs' =>
      if seg_day s =? day then day_gap day (seg_end s) (Z.max gap (seg_start s - prev)) segs' else (gap, segs)
  end.

Definition split_premium (worked_secs earned : Z) : outcome timecalc_err Z :=
  let r := SplitShift rules in
  full ← amountFor (MinimumWage rules) (PremiumSeconds r) (PayDecimals rules) (Rounding rules);
  if OffsetByExcess r then
    need ← mulChecked (MinimumWage rules) (add64 worked_secs (PremiumSeconds r));
    let short := to_int64 (need - earned) in
    if 0 <? short then
      let unit_ := unit_pow10 (moneyScale - PayDecimals rules) in
      q ← mulDiv short 1 (to_int64 (Hour * unit_)) (Rounding rules);
      Ok (Z.min full (to_int64 (q * unit_)))
    else Ok 0
  else Ok full.

Definition split_params (day : DayResult) (gap amount : Z) : string :=
  "day=" +:+ append_int (dr_Day day) +:+ " date=" +:+ dr_Date day +:+ " gap=" +:+ Seconds_appendTo gap
  +:+ " gap_more_than=" +:+ Seconds_appendTo (GapMoreThan (SplitShift rules))
  +:+ " minimum_wage=" +:+ Money_String (MinimumWage rules)
  +:+ " offset_by_excess=" +:+ FormatBool (OffsetByExcess (SplitShift rules)) +:+ " premium=" +:+ Money_String amount.

(** The body of the loop for one workday with the gap found. *)
Definition split_day (day gap : Z) (e : engine) : outcome timecalc_err engine :=
  if gap <=? GapMoreThan (SplitShift rules) then Ok e
  else
    d ← at_index (eng_days e) day;
    earned ← at_index (dayEarn e) day;
    amount ← split_premium (Worked (dr_Buckets d)) earned;
    let e := note_for e "SPLIT_SHIFT" (split_params d gap amount) in
    if amount =? 0 then Ok e
    else
      period ← (if period_len =? 0 then Panic else Ok (Z.quot day period_len));
      add_fixed_at rules e period LineSplitShift (dr_Date d) (PremiumSeconds (SplitShift rules)) (MinimumWage rules) amount
        (bool_decide (Inclusion (ss_Treatment (SplitShift rules)) = Include)) "SPLIT_SHIFT".

Fixpoint split_loop (fuel : nat) (segs : list segment) (e : engine) : outcome timecalc_err engine :=
  match segs with
  | [] => Ok e
  | s :: segs' =>
      match fuel with
      | O => Panic
      | S n =>
          let '(gap, rest) := day_gap (seg_day s) (seg_end s) 0 segs' in
          e ← split_day (seg_day s) gap e;
          split_loop n rest e
      end
  end.

Definition splitShift (e : engine) : outcome timecalc_err engine :=
  if ss_Enabled (SplitShift rules) then split_loop (length (eng_segs e)) (eng_segs e) e else Ok e.

(** * Guarantees *)

Definition guaranteeRate (e : engine) (basis : string) (period shiftRate : Z) : outcome timecalc_err Z :=
  if bool_decide (basis = BasisRegularRate) then ps ← at_index (eng_periods e) period; Ok (pr_RegularRate (ps_res ps))
  else if bool_decide (basis = BasisMinimumWage) then Ok (MinimumWage rules)
  else _ ← fail_if (shiftRate <=? 0) ErrInvalidRequest; Ok shiftRate.

Definition addGuarantee (e : engine) (kind code : string) (period secs rate : Z) (rule : string) : outcome timecalc_err engine :=
  amount ← amountFor rate secs (PayDecimals rules) (Rounding rules);
  out ← update_period e period (fun ps =>
          let r := ps_res ps in
          Ok (with_res ps (mkPeriodResult (pr_Index r) (pr_StartDate r) (pr_Buckets r) (pr_RegularRate r)
                (pr_Lines r ++ [mkPayLine period kind code secs rate amount false (ruleID rules rule)])), tt));
  Ok (with_premium out.1 (add64 (premium out.1) secs)).

Definition workedWithin (ivs : list Interval) (s e : Z) : Z :=
  foldl (fun total iv => add64 total (overlap s e (t_unix (iv_Start iv)) (t_unix (iv_End iv)))) 0 ivs.

Definition periodOf (t : Z) : outcome timecalc_err Z :=
  lo ← at_index (bounds cal) 0;
  hi ← at_index (bounds cal) (calendar_days cal);
  _ ← fail_if ((t <? lo) || (hi <=? t)) ErrOutsidePeriod;
  if period_len =? 0 then Panic else Ok (Z.quot (calendar_dayOf cal t) period_len).

(** ** Reporting time *)

(** What a reported shift of [sched] seconds guarantees, and the threshold
    below which the guarantee applies. *)
Definition shift_guarantee (sched : Z) : outcome timecalc_err (Z * Z) :=
  let r := ReportingTime rules in
  g ← mulDiv sched (GuaranteeNum r) (GuaranteeDen r) (Rounding rules);
  let guarantee := Z.max g (rep_Min r) in
  let guarantee := if 0 <? rep_Max r then Z.min guarantee (rep_Max r) else guarantee in
  let guarantee := if CapAtScheduled r then Z.min guarantee sched else guarantee in
  threshold ← (if 0 <? TriggerDen r then mulDiv sched (TriggerNum r) (TriggerDen r) (Rounding rules) else Ok guarantee);
  Ok (guarantee, threshold).

Definition shift_owed (worked guarantee threshold : Z) : Z :=
  if (worked <? threshold) && (worked <? guarantee) then to_int64 (guarantee - worked) else 0.

Definition shift_params (id : string) (sched worked guarantee threshold owed : Z) : string :=
  "shift=" +:+ id +:+ " scheduled=" +:+ Seconds_appendTo sched +:+ " worked=" +:+ Seconds_appendTo worked
  +:+ " trigger_below=" +:+ Seconds_appendTo threshold +:+ " guarantee=" +:+ Seconds_appendTo guarantee
  +:+ " basis=" +:+ rep_Basis (ReportingTime rules) +:+ " premium_hours=" +:+ Seconds_appendTo owed.

Definition reporting_shift (sh : ScheduledShift) (e : engine) : outcome timecalc_err engine :=
  let s := t_unix (sh_Start sh) in let stop := t_unix (sh_End sh) in
  period ← periodOf s;
  if negb (Reported sh) then Ok (note_for e "REPORTING_TIME" ("shift=" +:+ sh_ID sh +:+ " reported=false"))
  else
    let sched := to_int64 (stop - s) in
    let worked := workedWithin (eng_ivs e) s stop in
    gt ← shift_guarantee sched;
    let '(guarantee, threshold) := gt in
    let owed := shift_owed worked guarantee threshold in
    let e := note_for e "REPORTING_TIME" (shift_params (sh_ID sh) sched worked guarantee threshold owed) in
    if owed =? 0 then Ok e
    else
      rate ← guaranteeRate e (rep_Basis (ReportingTime rules)) period (sh_Rate sh);
      addGuarantee e LineReporting (sh_ID sh) period owed rate "REPORTING_TIME".

Fixpoint reporting_loop (shs : list ScheduledShift) (e : engine) : outcome timecalc_err engine :=
  match shs with
  | [] => Ok e
  | sh :: shs' => e ← reporting_shift sh e; reporting_loop shs' e
  end.

Definition reportingTime (e : engine) : outcome timecalc_err engine :=
  reporting_loop (merge_sort (start_le sh_Start sh_ID) (Shifts req)) e.

(** ** Call backs *)

Record call_event : Type := mkCallEvent { ev_id : string; ev_first : Interval; ev_worked : Z }.

(** The event of an interval's identifier, made when it is the first one;
    events have distinct identifiers. *)
Fixpoint add_event (iv : Interval) (events : list call_event) : list call_event :=
  let secs := to_int64 (t_unix (iv_End iv) - t_unix (iv_Start iv)) in
  match events with
  | [] => [mkCallEvent (CallBackID iv) iv (add64 0 secs)]
  | ev :: events' =>
      if bool_decide (ev_id ev = CallBackID iv) then
        mkCallEvent (ev_id ev) (if time_After (iv_Start (ev_first ev)) (iv_Start iv) then iv else ev_first ev)
          (add64 (ev_worked ev) secs) :: events'
      else ev :: add_event iv events'
  end.

Definition call_events (ivs : list Interval) : list call_event :=
  foldl (fun evs iv => if bool_decide (CallBackID iv = "") then evs else add_event iv evs) [] ivs.

Definition call_params (ev : call_event) (owed : Z) : string :=
  "id=" +:+ ev_id ev +:+ " worked=" +:+ Seconds_appendTo (ev_worked ev) +:+ " minimum=" +:+ Seconds_appendTo (Minimum (CallBack rules))
  +:+ " basis=" +:+ cb_Basis (CallBack rules) +:+ " premium_hours=" +:+ Seconds_appendTo owed.

Definition call_back_event (ev : call_event) (e : engine) : outcome timecalc_err engine :=
  let owed := Z.max 0 (to_int64 (Minimum (CallBack rules) - ev_worked ev)) in
  let e := note_for e "CALL_BACK" (call_params ev owed) in
  if owed =? 0 then Ok e
  else
    period ← periodOf (t_unix (iv_Start (ev_first ev)));
    rate ← guaranteeRate e (cb_Basis (CallBack rules)) period (iv_Rate (ev_first ev));
    addGuarantee e LineCallBack (ev_id ev) period owed rate "CALL_BACK".

Fixpoint call_loop (evs : list call_event) (e : engine) : outcome timecalc_err engine :=
  match evs with
  | [] => Ok e
  | ev :: evs' => e ← call_back_event ev e; call_loop evs' e
  end.

Definition callBack (e : engine) : outcome timecalc_err engine :=
  if cb_Enabled (CallBack rules) then call_loop (sort_by ev_id (call_events (Intervals req))) e else Ok e.

End Premiums.
