(* ===== verification/TimeCalculate.v ===== *)
(** A whole time calculation, from the request to its result:
    [internal/domains/timecalc/calculate.go].  The steps are those of
    [TimeClassify], [TimePay] and [TimePremium], in the order of the code. *)

From S2P Require Import Prelude FixedDecimal CanonicalBytes CivilTime Intervals Zoned TimeUnits TimeRules TimeCalendar TimeClassify TimeZones TimeResult TimePay TimePremium.

Local Open Scope Z_scope.

(** [time.Weekday.String]. *)
Definition weekday_names : list string :=
  ["Sunday"; "Monday"; "Tuesday"; "Wednesday"; "Thursday"; "Friday"; "Saturday"].
Definition weekday_text (d : Z) : string :=
  if d <? 0 then "%!Weekday(" +:+ append_int d +:+ ")"
  else match weekday_names !! Z.to_nat d with Some n => n | None => "%!Weekday(" +:+ append_int d +:+ ")" end.

Definition two (v : Z) : string := digit (Z.quot v 10) +:+ digit (Z.rem v 10).

Section Calculation.
  Context {tz : Tzdb} (req : Request) (rules : RuleSet).

(** ** The first step *)

Definition new_period (i : Z) (date : string) : periodState :=
  mkPeriodState (mkPeriodResult i date zero_buckets 0 []) 0 [] [] 0 (fun _ _ => 0).

Fixpoint load_zones (ivs : list Interval) : outcome timecalc_err unit :=
  match ivs with
  | [] => Ok tt
  | iv :: ivs' => _ ← zones_load (iv_Zone iv); load_zones ivs'
  end.

Fixpoint make_periods (cal : calendar) (idx : list Z) : outcome timecalc_err (list periodState) :=
  match idx with
  | [] => Ok []
  | i :: idx' =>
      date ← calendar_dateOf (ww_Zone (req_Workweek req)) cal (i * per_Days (Period rules));
      rest ← make_periods cal idx';
      Ok (new_period i date :: rest)
  end.

Definition calendar_params (cal : calendar) (start : string) : string :=
  "zone=" +:+ ww_Zone (req_Workweek req) +:+ " start=" +:+ start
  +:+ " workweek_start=" +:+ weekday_text (StartWeekday (req_Workweek req))
  +:+ " at=" +:+ two (ww_StartHour (req_Workweek req)) +:+ ":" +:+ two (ww_StartMinute (req_Workweek req))
  +:+ " days=" +:+ append_int (calendar_days cal).
Definition threshold_params : string :=
  "daily_ot_after=" +:+ Seconds_appendTo (OTAfter (Daily rules)) +:+ " daily_dt_after=" +:+ Seconds_appendTo (DTAfter (Daily rules))
  +:+ " period_days=" +:+ append_int (per_Days (Period rules)) +:+ " period_ot_after=" +:+ Seconds_appendTo (per_OTAfter (Period rules))
  +:+ " ot_factor=" +:+ Factor_String (OvertimeFactor rules) +:+ " dt_factor=" +:+ Factor_String (DoubleTimeFactor rules)
  +:+ " rate_decimals=" +:+ append_int (RateDecimals rules) +:+ " pay_decimals=" +:+ append_int (PayDecimals rules)
  +:+ " rounding=" +:+ RoundingMode_String (Rounding rules).

Definition prepare : outcome timecalc_err (calendar * engine) :=
  cal ← newCalendar req (per_Days (Period rules));
  _ ← load_zones (Intervals req);
  n ← (if per_Days (Period rules) =? 0 then Panic else Ok (Z.quot (calendar_days cal) (per_Days (Period rules))));
  periods ← make_periods cal (seqZ 0 n);
  start ← calendar_dateOf (ww_Zone (req_Workweek req)) cal 0;
  let e := mkEngine [] [] [] [] periods [] (replicate (Z.to_nat (calendar_days cal)) 0) (replicate (Z.to_nat n) 0) 0
             (mkCompTimeResult 0 0 0 0 0) [] in
  let e := note rules e "RULESET" ("version=" +:+ Version rules +:+ " jurisdiction=" +:+ Jurisdiction rules +:+ " citation=" +:+ Citation rules) in
  let e := note rules e "METHOD" ("method=" +:+ Method req +:+ " aggregation_key=" +:+ req_AggregationKey req) in
  let e := note rules e "CALENDAR" (calendar_params cal start) in
  Ok (cal, note rules e "THRESHOLDS" threshold_params).

(** ** The classification step: [engine_classify], its days and its notes *)

Definition with_buckets (ps : periodState) (b : Buckets) : periodState :=
  with_res ps (mkPeriodResult (periodIndex ps) (pr_StartDate (ps_res ps)) b (pr_RegularRate (ps_res ps)) (pr_Lines (ps_res ps))).

Fixpoint make_days (cal : calendar) (plans : list dayPlan) (buckets : list Buckets) (d : Z) : outcome timecalc_err (list DayResult) :=
  match buckets with
  | [] => Ok []
  | b :: buckets' =>
      date ← calendar_dateOf (ww_Zone (req_Workweek req)) cal d;
      plan ← at_index plans d;
      rest ← make_days cal plans buckets' (d + 1);
      Ok (mkDayResult d date (plan_reason plan) b :: rest)
  end.

Definition alternative_notes : list TraceEntry :=
  match req_Alternative req with
  | Some a => [mkTraceEntry (ruleID rules "ALTERNATIVE_SCHEDULE")
      ("id=" +:+ as_ID a +:+ " dt_after=" +:+ Seconds_appendTo (alt_DTAfter (Alternative rules))
       +:+ " unscheduled_ot_after=" +:+ Seconds_appendTo (OTAfter (UnscheduledDay (Alternative rules))))]
  | None => []
  end.
Definition comp_notes (c : CompTimeResult) : list TraceEntry :=
  if is_method req OvertimePublicCompTime then
    [mkTraceEntry (ruleID rules "COMP_TIME_7O")
      ("factor=" +:+ Factor_String (AccrualFactor (CompTime rules)) +:+ " cap=" +:+ Seconds_appendTo (ct_Cap (CompTime rules))
       +:+ " before=" +:+ Seconds_appendTo (CompTimeBefore req) +:+ " converted_overtime=" +:+ Seconds_appendTo (ConvertedOvertime c)
       +:+ " accrued=" +:+ Seconds_appendTo (Accrued c))]
  else [].
Definition seventh_note (d : DayResult) : list TraceEntry :=
  if bool_decide (dr_Rule d = ReasonSeventhDay) && (0 <? Worked (dr_Buckets d)) then
    [mkTraceEntry (ruleID rules "SEVENTH_DAY")
      ("day=" +:+ append_int (dr_Day d) +:+ " date=" +:+ dr_Date d +:+ " ot_up_to=" +:+ Seconds_appendTo (OTUpTo (SeventhDay rules))
       +:+ " overtime=" +:+ Seconds_appendTo (b_Overtime (dr_Buckets d)) +:+ " double_time=" +:+ Seconds_appendTo (b_DoubleTime (dr_Buckets d)))]
  else [].

Definition classify_step (cal : calendar) (e : engine) : outcome timecalc_err engine :=
  c ← engine_classify req rules cal (eng_ivs e) (Z.of_nat (length (eng_periods e)));
  days ← make_days cal (e_plans c) (e_days c) 0;
  let e := with_classified e (e_segs c) (e_pieces c) (e_plans c) (zip_with with_buckets (eng_periods e) (e_periods c)) days (e_comp c) in
  Ok (with_trace e (trace e ++ alternative_notes ++ comp_notes (e_comp c) ++ concat (map seventh_note days))).

(** ** The result *)

Context {sha : Sha256}.

Definition sum_periods (ps : list PeriodResult) : Buckets * Z :=
  foldl (fun acc p => (plus64 acc.1 (pr_Buckets p), add_amounts acc.2 (pr_Lines p))) (zero_buckets, 0) ps.

Definition engine_result (e : engine) : Result :=
  let periods := map ps_res (eng_periods e) in
  let '(totals, gross) := sum_periods periods in
  let r := mkResult (CalculationID req) (rs_ID rules) (Version rules) (Jurisdiction rules) (Method req) (eng_days e) periods
             totals (premium e) gross (eng_comp e) (trace e) "" in
  mkResult (r_CalculationID r) (r_RuleSetID r) (r_RuleSetVersion r) (r_Jurisdiction r) (r_Method r) (r_Days r) (r_Periods r)
    (r_Totals r) (r_PremiumSeconds r) (r_GrossPay r) (r_CompTime r) (r_Trace r) (Result_digest r).

Definition Calculate : outcome timecalc_err Result :=
  _ ← RuleSet_Validate rules;
  _ ← Request_validate req rules;
  prepared ← prepare;
  let '(cal, e) := prepared in
  e ← onCall req rules cal e;
  e ← classify_step cal e;
  e ← accumulate req rules e;
  e ← fixedAmounts req rules cal e;
  e ← splitShift rules e;
  e ← regularRate req rules e;
  e ← reportingTime req rules cal e;
  e ← callBack req rules cal e;
  Ok (engine_result e).

End Calculation.
