(* ===== verification/TimeGolden.v ===== *)
(** Concrete calculations: the fixtures of the package's tests, whose rendering
    is pinned byte for byte in [internal/domains/timecalc/testdata]. *)

From S2P Require Import Prelude FixedDecimal CanonicalBytes CivilTime Intervals TimeUnits TimeRules TimeCalendar TimeClassify TimeZones TimeResult TimePay TimePremium TimeCalculate.

Local Open Scope Z_scope.

(** Los Angeles in January 2026; a stand-in for SHA-256. *)
Definition la : string := "America/Los_Angeles".
#[local] Instance winter : Tzdb := {|
  LoadLocation := fun id => bool_decide (id = la);
  tz_lookup := fun _ _ => mkZoneSpan (-28800) min_int64 max_int64
|}.
#[local] Instance stand_in : Sha256 := {| sha256_Sum256 := fun bs => bs |}.

(** Day [n] after 5 January 2026, at a minute of the local day. *)
Definition moment (n minute : Z) : GoTime := mkGoTime ((20458 + n) * 86400 + minute * 60 + 28800) 0.
Definition dollars (cents : Z) : Z := cents * 100.

Definition base (id jurisdiction citation : string) (methods : list string) : RuleSet :=
  mkRuleSet id "2026.1" jurisdiction citation methods (mkDailyRule 0 0) (mkPeriodRule 7 144000) (mkSeventhDayRule false 0)
    (mkAlternativeRule false 0 (mkDailyRule 0 0)) 15000 20000 2 2 RoundingHalfUp (dollars 725) (mkPieceRestRule false 0 0)
    (mkCompTimeRule false 0 0) [] (mkOnCallRule false false 0 0 0 (mkTreatment "" "")) (mkReportingRule false 0 0 0 0 0 0 false "")
    (mkCallBackRule false 0 "") (mkSplitShiftRule false 0 0 false (mkTreatment "" "")).

Definition night : DifferentialRule :=
  mkDifferentialRule "NIGHT" (dollars 200) 0 (Some (mkWindow 1320 360)) (mkTreatment Include "29 CFR 778.207(b)").

Definition fedFLSA : RuleSet :=
  let r := base "US-FLSA" "US" "29 USC 207; 29 CFR 778"
    [OvertimeNone; OvertimeSingleRate; OvertimeWeightedAverage; OvertimeFluctuatingWeek; OvertimePieceRateAverage] in
  mkRuleSet (rs_ID r) (Version r) (Jurisdiction r) (Citation r) (Methods r) (Daily r) (Period r) (SeventhDay r) (Alternative r)
    (OvertimeFactor r) (DoubleTimeFactor r) (RateDecimals r) (PayDecimals r) (Rounding r) (MinimumWage r) (PieceRest r) (CompTime r)
    [night] (mkOnCallRule true true 15 4 (dollars 300) (mkTreatment Include "29 CFR 778.223"))
    (ReportingTime r) (CallBack r) (SplitShift r).

Definition california : RuleSet :=
  let r := base "US-CA" "US-CA" "Cal. Lab. Code 510, 226.2; IWC wage orders 3, 5"
    [OvertimeSingleRate; OvertimeWeightedAverage; OvertimePieceRateAverage] in
  mkRuleSet (rs_ID r) (Version r) (Jurisdiction r) (Citation r) (Methods r) (mkDailyRule 28800 43200) (Period r)
    (mkSeventhDayRule true 28800) (mkAlternativeRule true 43200 (mkDailyRule 28800 43200))
    (OvertimeFactor r) (DoubleTimeFactor r) (RateDecimals r) (PayDecimals r) (Rounding r) (dollars 1690)
    (mkPieceRestRule true (dollars 1690) (dollars 1690)) (CompTime r)
    [night; mkDifferentialRule "LOC_SF" 0 500 None (mkTreatment Include "29 CFR 778.207(b)")]
    (mkOnCallRule true true 15 0 0 (mkTreatment "" ""))
    (mkReportingRule true 1 2 1 2 7200 14400 false BasisRegularRate) (mkCallBackRule true 7200 BasisRegularRate)
    (mkSplitShiftRule true 3600 3600 true (mkTreatment Include "IWC wage order 4(C); fixture decision")).

Definition time_request (method : string) (days : Z) (ivs : list Interval) (salary : Z) (oncall : list OnCallPeriod)
    (shifts : list ScheduledShift) : Request :=
  mkRequest "calc-1" "worker-1" method (mkWorkweek la 1 0 0) (mkDate 2026 1 5) days ivs [] salary None 0 oncall shifts.

(** An interval of [minutes] from a minute of day [n]. *)
Definition stint (id code : string) (rate : Z) (kind : string) (tags : list string) (piece_pay : Z) (call : string) (n from minutes : Z) : Interval :=
  mkWorkInterval id "worker-1" "a1" (moment n from) (moment n (from + minutes)) la code rate "" kind tags 0 piece_pay call.
Definition day_stint (id : string) (tags : list string) (n hours : Z) : Interval :=
  stint id "BASE" (dollars 2000) KindProductive tags 0 "" n 420 (hours * 60).

Definition seventh_day : Request :=
  time_request OvertimeSingleRate 7 [day_stint "d2026-01-05" [] 0 8; day_stint "d2026-01-06" [] 1 8; day_stint "d2026-01-07" [] 2 8; day_stint "d2026-01-08" [] 3 8; day_stint "d2026-01-09" [] 4 8; day_stint "d2026-01-10" [] 5 8; day_stint "d2026-01-11" [] 6 10] 0 [] [].

Definition seventh_day_text : string := concat_text (map (fun l => l +:+ newline) [
  "timecalc v1";
  "calculation calc-1 ruleset=US-CA/2026.1 jurisdiction=US-CA method=SINGLE_RATE";
  "day 0 2026-01-05 rule=DAILY worked=8:00:00 regular=8:00:00 overtime=0:00:00 double_time=0:00:00 comp_time=0:00:00";
  "day 1 2026-01-06 rule=DAILY worked=8:00:00 regular=8:00:00 overtime=0:00:00 double_time=0:00:00 comp_time=0:00:00";
  "day 2 2026-01-07 rule=DAILY worked=8:00:00 regular=8:00:00 overtime=0:00:00 double_time=0:00:00 comp_time=0:00:00";
  "day 3 2026-01-08 rule=DAILY worked=8:00:00 regular=8:00:00 overtime=0:00:00 double_time=0:00:00 comp_time=0:00:00";
  "day 4 2026-01-09 rule=DAILY worked=8:00:00 regular=8:00:00 overtime=0:00:00 double_time=0:00:00 comp_time=0:00:00";
  "day 5 2026-01-10 rule=DAILY worked=8:00:00 regular=0:00:00 overtime=8:00:00 double_time=0:00:00 comp_time=0:00:00";
  "day 6 2026-01-11 rule=SEVENTH_DAY worked=10:00:00 regular=0:00:00 overtime=8:00:00 double_time=2:00:00 comp_time=0:00:00";
  "period 0 2026-01-05 worked=58:00:00 regular=40:00:00 overtime=16:00:00 double_time=2:00:00 comp_time=0:00:00 regular_rate=20.00";
  "  line STRAIGHT_TIME code=BASE hours=58:00:00 rate=20.00 amount=1160.00 in_regular_rate=true rule=US-CA:STRAIGHT_TIME";
  "  line OVERTIME_PREMIUM code=OVERTIME_PREMIUM hours=16:00:00 rate=10.00 amount=160.00 in_regular_rate=false rule=US-CA:OVERTIME_PREMIUM";
  "  line DOUBLE_TIME_PREMIUM code=DOUBLE_TIME_PREMIUM hours=2:00:00 rate=20.00 amount=40.00 in_regular_rate=false rule=US-CA:DOUBLE_TIME_PREMIUM";
  "totals worked=58:00:00 regular=40:00:00 overtime=16:00:00 double_time=2:00:00 comp_time=0:00:00 premium_hours=0:00:00 gross=1360.00";
  "comp_time converted=0:00:00 accrued=0:00:00 before=0:00:00 after=0:00:00 cap=0:00:00";
  "trace US-CA:RULESET version=2026.1 jurisdiction=US-CA citation=Cal. Lab. Code 510, 226.2; IWC wage orders 3, 5";
  "trace US-CA:METHOD method=SINGLE_RATE aggregation_key=worker-1";
  "trace US-CA:CALENDAR zone=America/Los_Angeles start=2026-01-05 workweek_start=Monday at=00:00 days=7";
  "trace US-CA:THRESHOLDS daily_ot_after=8:00:00 daily_dt_after=12:00:00 period_days=7 period_ot_after=40:00:00 ot_factor=1.5 dt_factor=2 rate_decimals=2 pay_decimals=2 rounding=HALF_UP";
  "trace US-CA:SEVENTH_DAY day=6 date=2026-01-11 ot_up_to=8:00:00 overtime=8:00:00 double_time=2:00:00";
  "trace US-CA:CLASSIFY period=0 daily_ot=0:00:00 daily_dt=0:00:00 period_ot=8:00:00 seventh_day_ot=8:00:00 seventh_day_dt=2:00:00 alternative_ot=0:00:00 alternative_dt=0:00:00";
  "trace US-CA:REGULAR_RATE_SINGLE period=0 included_earnings=1160.00 hours=58:00:00 regular_rate=20.00"]).

(** Six eight-hour days and a seventh of ten hours. *)
Example seventh_day_rendered : (r ← Calculate seventh_day california; Ok (Result_Render r)) = Ok seventh_day_text.
Proof. vm_compute. reflexivity. Qed.

Definition fluctuating_month : Request :=
  time_request OvertimeFluctuatingWeek 28 [
    stint "fww-2026-01-05" "SALARY" 0 KindProductive [] 0 "" 0 420 480;
    stint "fww-2026-01-06" "SALARY" 0 KindProductive [] 0 "" 1 420 480;
    stint "fww-2026-01-07" "SALARY" 0 KindProductive [] 0 "" 2 420 480;
    stint "fww-2026-01-08" "SALARY" 0 KindProductive [] 0 "" 3 420 480;
    stint "fww-2026-01-09" "SALARY" 0 KindProductive [] 0 "" 4 420 330;
    stint "fww-2026-01-12" "SALARY" 0 KindProductive [] 0 "" 7 420 540;
    stint "fww-2026-01-13" "SALARY" 0 KindProductive [] 0 "" 8 420 540;
    stint "fww-2026-01-14" "SALARY" 0 KindProductive [] 0 "" 9 420 540;
    stint "fww-2026-01-15" "SALARY" 0 KindProductive [] 0 "" 10 420 540;
    stint "fww-2026-01-16" "SALARY" 0 KindProductive [] 0 "" 11 420 480;
    stint "fww-2026-01-19" "SALARY" 0 KindProductive [] 0 "" 14 420 600;
    stint "fww-2026-01-20" "SALARY" 0 KindProductive [] 0 "" 15 420 600;
    stint "fww-2026-01-21" "SALARY" 0 KindProductive [] 0 "" 16 420 600;
    stint "fww-2026-01-22" "SALARY" 0 KindProductive [] 0 "" 17 420 600;
    stint "fww-2026-01-23" "SALARY" 0 KindProductive [] 0 "" 18 420 600;
    stint "fww-2026-01-26" "SALARY" 0 KindProductive [] 0 "" 21 420 600;
    stint "fww-2026-01-27" "SALARY" 0 KindProductive [] 0 "" 22 420 600;
    stint "fww-2026-01-28" "SALARY" 0 KindProductive [] 0 "" 23 420 600;
    stint "fww-2026-01-29" "SALARY" 0 KindProductive [] 0 "" 24 420 600;
    stint "fww-2026-01-30" "SALARY" 0 KindProductive [] 0 "" 25 420 480] (dollars 60000) [] [].

Definition fluctuating_month_text : string := concat_text (map (fun l => l +:+ newline) [
  "timecalc v1";
  "calculation calc-1 ruleset=US-FLSA/2026.1 jurisdiction=US method=FLUCTUATING_WEEK";
  "day 0 2026-01-05 rule=NONE worked=8:00:00 regular=8:00:00 overtime=0:00:00 double_time=0:00:00 comp_time=0:00:00";
  "day 1 2026-01-06 rule=NONE worked=8:00:00 regular=8:00:00 overtime=0:00:00 double_time=0:00:00 comp_time=0:00:00";
  "day 2 2026-01-07 rule=NONE worked=8:00:00 regular=8:00:00 overtime=0:00:00 double_time=0:00:00 comp_time=0:00:00";
  "day 3 2026-01-08 rule=NONE worked=8:00:00 regular=8:00:00 overtime=0:00:00 double_time=0:00:00 comp_time=0:00:00";
  "day 4 2026-01-09 rule=NONE worked=5:30:00 regular=5:30:00 overtime=0:00:00 double_time=0:00:00 comp_time=0:00:00";
  "day 7 2026-01-12 rule=NONE worked=9:00:00 regular=9:00:00 overtime=0:00:00 double_time=0:00:00 comp_time=0:00:00";
  "day 8 2026-01-13 rule=NONE worked=9:00:00 regular=9:00:00 overtime=0:00:00 double_time=0:00:00 comp_time=0:00:00";
  "day 9 2026-01-14 rule=NONE worked=9:00:00 regular=9:00:00 overtime=0:00:00 double_time=0:00:00 comp_time=0:00:00";
  "day 10 2026-01-15 rule=NONE worked=9:00:00 regular=9:00:00 overtime=0:00:00 double_time=0:00:00 comp_time=0:00:00";
  "day 11 2026-01-16 rule=NONE worked=8:00:00 regular=4:00:00 overtime=4:00:00 double_time=0:00:00 comp_time=0:00:00";
  "day 14 2026-01-19 rule=NONE worked=10:00:00 regular=10:00:00 overtime=0:00:00 double_time=0:00:00 comp_time=0:00:00";
  "day 15 2026-01-20 rule=NONE worked=10:00:00 regular=10:00:00 overtime=0:00:00 double_time=0:00:00 comp_time=0:00:00";
  "day 16 2026-01-21 rule=NONE worked=10:00:00 regular=10:00:00 overtime=0:00:00 double_time=0:00:00 comp_time=0:00:00";
  "day 17 2026-01-22 rule=NONE worked=10:00:00 regular=10:00:00 overtime=0:00:00 double_time=0:00:00 comp_time=0:00:00";
  "day 18 2026-01-23 rule=NONE worked=10:00:00 regular=0:00:00 overtime=10:00:00 double_time=0:00:00 comp_time=0:00:00";
  "day 21 2026-01-26 rule=NONE worked=10:00:00 regular=10:00:00 overtime=0:00:00 double_time=0:00:00 comp_time=0:00:00";
  "day 22 2026-01-27 rule=NONE worked=10:00:00 regular=10:00:00 overtime=0:00:00 double_time=0:00:00 comp_time=0:00:00";
  "day 23 2026-01-28 rule=NONE worked=10:00:00 regular=10:00:00 overtime=0:00:00 double_time=0:00:00 comp_time=0:00:00";
  "day 24 2026-01-29 rule=NONE worked=10:00:00 regular=10:00:00 overtime=0:00:00 double_time=0:00:00 comp_time=0:00:00";
  "day 25 2026-01-30 rule=NONE worked=8:00:00 regular=0:00:00 overtime=8:00:00 double_time=0:00:00 comp_time=0:00:00";
  "period 0 2026-01-05 worked=37:30:00 regular=37:30:00 overtime=0:00:00 double_time=0:00:00 comp_time=0:00:00 regular_rate=16.00";
  "  line SALARY code=WEEKLY_SALARY hours=37:30:00 rate=0.00 amount=600.00 in_regular_rate=true rule=US-FLSA:FWW_SALARY_778_114";
  "period 1 2026-01-12 worked=44:00:00 regular=40:00:00 overtime=4:00:00 double_time=0:00:00 comp_time=0:00:00 regular_rate=13.64";
  "  line SALARY code=WEEKLY_SALARY hours=44:00:00 rate=0.00 amount=600.00 in_regular_rate=true rule=US-FLSA:FWW_SALARY_778_114";
  "  line OVERTIME_PREMIUM code=OVERTIME_PREMIUM hours=4:00:00 rate=6.82 amount=27.28 in_regular_rate=false rule=US-FLSA:OVERTIME_PREMIUM";
  "period 2 2026-01-19 worked=50:00:00 regular=40:00:00 overtime=10:00:00 double_time=0:00:00 comp_time=0:00:00 regular_rate=12.00";
  "  line SALARY code=WEEKLY_SALARY hours=50:00:00 rate=0.00 amount=600.00 in_regular_rate=true rule=US-FLSA:FWW_SALARY_778_114";
  "  line OVERTIME_PREMIUM code=OVERTIME_PREMIUM hours=10:00:00 rate=6.00 amount=60.00 in_regular_rate=false rule=US-FLSA:OVERTIME_PREMIUM";
  "period 3 2026-01-26 worked=48:00:00 regular=40:00:00 overtime=8:00:00 double_time=0:00:00 comp_time=0:00:00 regular_rate=12.50";
  "  line SALARY code=WEEKLY_SALARY hours=48:00:00 rate=0.00 amount=600.00 in_regular_rate=true rule=US-FLSA:FWW_SALARY_778_114";
  "  line OVERTIME_PREMIUM code=OVERTIME_PREMIUM hours=8:00:00 rate=6.25 amount=50.00 in_regular_rate=false rule=US-FLSA:OVERTIME_PREMIUM";
  "totals worked=179:30:00 regular=157:30:00 overtime=22:00:00 double_time=0:00:00 comp_time=0:00:00 premium_hours=0:00:00 gross=2537.28";
  "comp_time converted=0:00:00 accrued=0:00:00 before=0:00:00 after=0:00:00 cap=0:00:00";
  "trace US-FLSA:RULESET version=2026.1 jurisdiction=US citation=29 USC 207; 29 CFR 778";
  "trace US-FLSA:METHOD method=FLUCTUATING_WEEK aggregation_key=worker-1";
  "trace US-FLSA:CALENDAR zone=America/Los_Angeles start=2026-01-05 workweek_start=Monday at=00:00 days=28";
  "trace US-FLSA:THRESHOLDS daily_ot_after=0:00:00 daily_dt_after=0:00:00 period_days=7 period_ot_after=40:00:00 ot_factor=1.5 dt_factor=2 rate_decimals=2 pay_decimals=2 rounding=HALF_UP";
  "trace US-FLSA:CLASSIFY period=0 daily_ot=0:00:00 daily_dt=0:00:00 period_ot=0:00:00 seventh_day_ot=0:00:00 seventh_day_dt=0:00:00 alternative_ot=0:00:00 alternative_dt=0:00:00";
  "trace US-FLSA:REGULAR_RATE_FWW_778_114 period=0 included_earnings=600.00 hours=37:30:00 regular_rate=16.00";
  "trace US-FLSA:CLASSIFY period=1 daily_ot=0:00:00 daily_dt=0:00:00 period_ot=4:00:00 seventh_day_ot=0:00:00 seventh_day_dt=0:00:00 alternative_ot=0:00:00 alternative_dt=0:00:00";
  "trace US-FLSA:REGULAR_RATE_FWW_778_114 period=1 included_earnings=600.00 hours=44:00:00 regular_rate=13.64";
  "trace US-FLSA:CLASSIFY period=2 daily_ot=0:00:00 daily_dt=0:00:00 period_ot=10:00:00 seventh_day_ot=0:00:00 seventh_day_dt=0:00:00 alternative_ot=0:00:00 alternative_dt=0:00:00";
  "trace US-FLSA:REGULAR_RATE_FWW_778_114 period=2 included_earnings=600.00 hours=50:00:00 regular_rate=12.00";
  "trace US-FLSA:CLASSIFY period=3 daily_ot=0:00:00 daily_dt=0:00:00 period_ot=8:00:00 seventh_day_ot=0:00:00 seventh_day_dt=0:00:00 alternative_ot=0:00:00 alternative_dt=0:00:00";
  "trace US-FLSA:REGULAR_RATE_FWW_778_114 period=3 included_earnings=600.00 hours=48:00:00 regular_rate=12.50"]).

(** 29 CFR 778.114(b): a salary of 600 for weeks of 37.5, 44, 50 and 48 hours. *)
Example fluctuating_month_rendered : (r ← Calculate fluctuating_month fedFLSA; Ok (Result_Render r)) = Ok fluctuating_month_text.
Proof. vm_compute. reflexivity. Qed.

Definition piece_week : Request :=
  time_request OvertimePieceRateAverage 7 [
    stint "p2026-01-05" "PIECE" 0 KindProductive [] (dollars 9820) "" 0 420 600;
    stint "p2026-01-06" "PIECE" 0 KindProductive [] (dollars 9820) "" 1 420 600;
    stint "p2026-01-07" "PIECE" 0 KindProductive [] (dollars 9820) "" 2 420 600;
    stint "p2026-01-08" "PIECE" 0 KindProductive [] (dollars 9820) "" 3 420 600;
    stint "p2026-01-09" "PIECE" 0 KindProductive [] (dollars 9820) "" 4 420 360;
    stint "wait" "WAITING" (dollars 800) KindNonproductive [] 0 "" 5 420 240] 0 [] [].

Definition piece_week_text : string := concat_text (map (fun l => l +:+ newline) [
  "timecalc v1";
  "calculation calc-1 ruleset=US-FLSA/2026.1 jurisdiction=US method=PIECE_RATE_AVERAGE";
  "day 0 2026-01-05 rule=NONE worked=10:00:00 regular=10:00:00 overtime=0:00:00 double_time=0:00:00 comp_time=0:00:00";
  "day 1 2026-01-06 rule=NONE worked=10:00:00 regular=10:00:00 overtime=0:00:00 double_time=0:00:00 comp_time=0:00:00";
  "day 2 2026-01-07 rule=NONE worked=10:00:00 regular=10:00:00 overtime=0:00:00 double_time=0:00:00 comp_time=0:00:00";
  "day 3 2026-01-08 rule=NONE worked=10:00:00 regular=10:00:00 overtime=0:00:00 double_time=0:00:00 comp_time=0:00:00";
  "day 4 2026-01-09 rule=NONE worked=6:00:00 regular=0:00:00 overtime=6:00:00 double_time=0:00:00 comp_time=0:00:00";
  "day 5 2026-01-10 rule=NONE worked=4:00:00 regular=0:00:00 overtime=4:00:00 double_time=0:00:00 comp_time=0:00:00";
  "period 0 2026-01-05 worked=50:00:00 regular=40:00:00 overtime=10:00:00 double_time=0:00:00 comp_time=0:00:00 regular_rate=10.46";
  "  line STRAIGHT_TIME code=WAITING hours=4:00:00 rate=8.00 amount=32.00 in_regular_rate=true rule=US-FLSA:STRAIGHT_TIME";
  "  line PIECE_EARNINGS code=PIECE hours=0:00:00 rate=0.00 amount=491.00 in_regular_rate=true rule=US-FLSA:PIECE_RATE_778_111";
  "  line OVERTIME_PREMIUM code=OVERTIME_PREMIUM hours=10:00:00 rate=5.23 amount=52.30 in_regular_rate=false rule=US-FLSA:OVERTIME_PREMIUM";
  "totals worked=50:00:00 regular=40:00:00 overtime=10:00:00 double_time=0:00:00 comp_time=0:00:00 premium_hours=0:00:00 gross=575.30";
  "comp_time converted=0:00:00 accrued=0:00:00 before=0:00:00 after=0:00:00 cap=0:00:00";
  "trace US-FLSA:RULESET version=2026.1 jurisdiction=US citation=29 USC 207; 29 CFR 778";
  "trace US-FLSA:METHOD method=PIECE_RATE_AVERAGE aggregation_key=worker-1";
  "trace US-FLSA:CALENDAR zone=America/Los_Angeles start=2026-01-05 workweek_start=Monday at=00:00 days=7";
  "trace US-FLSA:THRESHOLDS daily_ot_after=0:00:00 daily_dt_after=0:00:00 period_days=7 period_ot_after=40:00:00 ot_factor=1.5 dt_factor=2 rate_decimals=2 pay_decimals=2 rounding=HALF_UP";
  "trace US-FLSA:CLASSIFY period=0 daily_ot=0:00:00 daily_dt=0:00:00 period_ot=10:00:00 seventh_day_ot=0:00:00 seventh_day_dt=0:00:00 alternative_ot=0:00:00 alternative_dt=0:00:00";
  "trace US-FLSA:REGULAR_RATE_PIECE_778_111 period=0 included_earnings=523.00 hours=50:00:00 regular_rate=10.46"]).

(** 29 CFR 778.111(a): piece earnings of 491 for 46 hours and four hours of waiting. *)
Example piece_week_rendered : (r ← Calculate piece_week fedFLSA; Ok (Result_Render r)) = Ok piece_week_text.
Proof. vm_compute. reflexivity. Qed.

Definition two_rate_week : Request :=
  time_request OvertimeWeightedAverage 7 [
    stint "d2026-01-05" "CASHIER" (dollars 1500) KindProductive [] 0 "" 0 420 600;
    stint "d2026-01-06" "CASHIER" (dollars 1500) KindProductive [] 0 "" 1 420 600;
    stint "d2026-01-07" "CASHIER" (dollars 1500) KindProductive [] 0 "" 2 420 600;
    stint "stock-1" "STOCK" (dollars 2000) KindProductive [] 0 "" 3 420 480;
    stint "stock-2" "STOCK" (dollars 2000) KindProductive [] 0 "" 4 420 420] 0 [] [].

Definition two_rate_week_text : string := concat_text (map (fun l => l +:+ newline) [
  "timecalc v1";
  "calculation calc-1 ruleset=US-FLSA/2026.1 jurisdiction=US method=WEIGHTED_AVERAGE";
  "day 0 2026-01-05 rule=NONE worked=10:00:00 regular=10:00:00 overtime=0:00:00 double_time=0:00:00 comp_time=0:00:00";
  "day 1 2026-01-06 rule=NONE worked=10:00:00 regular=10:00:00 overtime=0:00:00 double_time=0:00:00 comp_time=0:00:00";
  "day 2 2026-01-07 rule=NONE worked=10:00:00 regular=10:00:00 overtime=0:00:00 double_time=0:00:00 comp_time=0:00:00";
  "day 3 2026-01-08 rule=NONE worked=8:00:00 regular=8:00:00 overtime=0:00:00 double_time=0:00:00 comp_time=0:00:00";
  "day 4 2026-01-09 rule=NONE worked=7:00:00 regular=2:00:00 overtime=5:00:00 double_time=0:00:00 comp_time=0:00:00";
  "period 0 2026-01-05 worked=45:00:00 regular=40:00:00 overtime=5:00:00 double_time=0:00:00 comp_time=0:00:00 regular_rate=16.67";
  "  line STRAIGHT_TIME code=CASHIER hours=30:00:00 rate=15.00 amount=450.00 in_regular_rate=true rule=US-FLSA:STRAIGHT_TIME";
  "  line STRAIGHT_TIME code=STOCK hours=15:00:00 rate=20.00 amount=300.00 in_regular_rate=true rule=US-FLSA:STRAIGHT_TIME";
  "  line OVERTIME_PREMIUM code=OVERTIME_PREMIUM hours=5:00:00 rate=8.34 amount=41.70 in_regular_rate=false rule=US-FLSA:OVERTIME_PREMIUM";
  "totals worked=45:00:00 regular=40:00:00 overtime=5:00:00 double_time=0:00:00 comp_time=0:00:00 premium_hours=0:00:00 gross=791.70";
  "comp_time converted=0:00:00 accrued=0:00:00 before=0:00:00 after=0:00:00 cap=0:00:00";
  "trace US-FLSA:RULESET version=2026.1 jurisdiction=US citation=29 USC 207; 29 CFR 778";
  "trace US-FLSA:METHOD method=WEIGHTED_AVERAGE aggregation_key=worker-1";
  "trace US-FLSA:CALENDAR zone=America/Los_Angeles start=2026-01-05 workweek_start=Monday at=00:00 days=7";
  "trace US-FLSA:THRESHOLDS daily_ot_after=0:00:00 daily_dt_after=0:00:00 period_days=7 period_ot_after=40:00:00 ot_factor=1.5 dt_factor=2 rate_decimals=2 pay_decimals=2 rounding=HALF_UP";
  "trace US-FLSA:CLASSIFY period=0 daily_ot=0:00:00 daily_dt=0:00:00 period_ot=5:00:00 seventh_day_ot=0:00:00 seventh_day_dt=0:00:00 alternative_ot=0:00:00 alternative_dt=0:00:00";
  "trace US-FLSA:REGULAR_RATE_WEIGHTED_778_115 period=0 included_earnings=750.00 hours=45:00:00 regular_rate=16.67"]).

(** 29 CFR 778.115: two rates, one weighted average. *)
Example two_rate_week_rendered : (r ← Calculate two_rate_week fedFLSA; Ok (Result_Render r)) = Ok two_rate_week_text.
Proof. vm_compute. reflexivity. Qed.

Definition premium_week : Request :=
  time_request OvertimeWeightedAverage 7 [
    day_stint "d2026-01-05" [] 0 8;
    day_stint "d2026-01-06" ["LOC_SF"] 1 8;
    day_stint "d2026-01-07" [] 2 8;
    day_stint "d2026-01-08" [] 3 8;
    stint "fri-am" "R16.90" (dollars 1690) KindProductive [] 0 "" 4 360 240;
    stint "fri-pm" "R16.90" (dollars 1690) KindProductive ["NIGHT"] 0 "" 4 900 480;
    stint "sat" "R20.00" (dollars 2000) KindProductive [] 0 "" 5 540 60;
    stint "cb" "R20.00" (dollars 2000) KindProductive [] 0 "wed-callback" 2 1260 45] 0
    [mkOnCallPeriod "sun-site" (moment 6 480) (moment 6 660) "ON_CALL" (dollars 1800) (mkRestrictions true 0 0);
     mkOnCallPeriod "sun-home" (moment 6 720) (moment 6 1200) "ON_CALL" (dollars 1800) (mkRestrictions false 45 0)]
    [mkScheduledShift "sat-shift" (moment 5 540) (moment 5 1020) true 0].

Definition premium_week_text : string := concat_text (map (fun l => l +:+ newline) [
  "timecalc v1";
  "calculation calc-1 ruleset=US-CA/2026.1 jurisdiction=US-CA method=WEIGHTED_AVERAGE";
  "day 0 2026-01-05 rule=DAILY worked=8:00:00 regular=8:00:00 overtime=0:00:00 double_time=0:00:00 comp_time=0:00:00";
  "day 1 2026-01-06 rule=DAILY worked=8:00:00 regular=8:00:00 overtime=0:00:00 double_time=0:00:00 comp_time=0:00:00";
  "day 2 2026-01-07 rule=DAILY worked=8:45:00 regular=8:00:00 overtime=0:45:00 double_time=0:00:00 comp_time=0:00:00";
  "day 3 2026-01-08 rule=DAILY worked=8:00:00 regular=8:00:00 overtime=0:00:00 double_time=0:00:00 comp_time=0:00:00";
  "day 4 2026-01-09 rule=DAILY worked=12:00:00 regular=8:00:00 overtime=4:00:00 double_time=0:00:00 comp_time=0:00:00";
  "day 5 2026-01-10 rule=DAILY worked=1:00:00 regular=0:00:00 overtime=1:00:00 double_time=0:00:00 comp_time=0:00:00";
  "day 6 2026-01-11 rule=SEVENTH_DAY worked=3:00:00 regular=0:00:00 overtime=3:00:00 double_time=0:00:00 comp_time=0:00:00";
  "period 0 2026-01-05 worked=48:45:00 regular=40:00:00 overtime=8:45:00 double_time=0:00:00 comp_time=0:00:00 regular_rate=19.62";
  "  line STRAIGHT_TIME code=BASE hours=32:00:00 rate=20.00 amount=640.00 in_regular_rate=true rule=US-CA:STRAIGHT_TIME";
  "  line DIFFERENTIAL code=LOC_SF hours=8:00:00 rate=1.00 amount=8.00 in_regular_rate=true rule=US-CA:DIFFERENTIAL:LOC_SF";
  "  line STRAIGHT_TIME code=R20.00 hours=1:45:00 rate=20.00 amount=35.00 in_regular_rate=true rule=US-CA:STRAIGHT_TIME";
  "  line STRAIGHT_TIME code=R16.90 hours=12:00:00 rate=16.90 amount=202.80 in_regular_rate=true rule=US-CA:STRAIGHT_TIME";
  "  line DIFFERENTIAL code=NIGHT hours=1:00:00 rate=2.00 amount=2.00 in_regular_rate=true rule=US-CA:DIFFERENTIAL:NIGHT";
  "  line STRAIGHT_TIME code=ON_CALL hours=3:00:00 rate=18.00 amount=54.00 in_regular_rate=true rule=US-CA:STRAIGHT_TIME";
  "  line SPLIT_SHIFT code=2026-01-09 hours=1:00:00 rate=16.90 amount=14.90 in_regular_rate=true rule=US-CA:SPLIT_SHIFT";
  "  line OVERTIME_PREMIUM code=OVERTIME_PREMIUM hours=8:45:00 rate=9.81 amount=85.84 in_regular_rate=false rule=US-CA:OVERTIME_PREMIUM";
  "  line REPORTING_TIME code=sat-shift hours=3:00:00 rate=19.62 amount=58.86 in_regular_rate=false rule=US-CA:REPORTING_TIME";
  "  line CALL_BACK code=wed-callback hours=1:15:00 rate=19.62 amount=24.53 in_regular_rate=false rule=US-CA:CALL_BACK";
  "totals worked=48:45:00 regular=40:00:00 overtime=8:45:00 double_time=0:00:00 comp_time=0:00:00 premium_hours=4:15:00 gross=1125.93";
  "comp_time converted=0:00:00 accrued=0:00:00 before=0:00:00 after=0:00:00 cap=0:00:00";
  "trace US-CA:RULESET version=2026.1 jurisdiction=US-CA citation=Cal. Lab. Code 510, 226.2; IWC wage orders 3, 5";
  "trace US-CA:METHOD method=WEIGHTED_AVERAGE aggregation_key=worker-1";
  "trace US-CA:CALENDAR zone=America/Los_Angeles start=2026-01-05 workweek_start=Monday at=00:00 days=7";
  "trace US-CA:THRESHOLDS daily_ot_after=8:00:00 daily_dt_after=12:00:00 period_days=7 period_ot_after=40:00:00 ot_factor=1.5 dt_factor=2 rate_decimals=2 pay_decimals=2 rounding=HALF_UP";
  "trace US-CA:ON_CALL id=sun-site state=ENGAGED_TO_WAIT criterion=on_premises unworked_hours=3:00:00";
  "trace US-CA:ON_CALL id=sun-home state=WAITING_TO_BE_ENGAGED criterion=free_to_use_time unworked_hours=8:00:00";
  "trace US-CA:SEVENTH_DAY day=6 date=2026-01-11 ot_up_to=8:00:00 overtime=3:00:00 double_time=0:00:00";
  "trace US-CA:SPLIT_SHIFT day=2 date=2026-01-07 gap=6:00:00 gap_more_than=1:00:00 minimum_wage=16.90 offset_by_excess=true premium=0.00";
  "trace US-CA:SPLIT_SHIFT day=4 date=2026-01-09 gap=5:00:00 gap_more_than=1:00:00 minimum_wage=16.90 offset_by_excess=true premium=14.90";
  "trace US-CA:CLASSIFY period=0 daily_ot=4:45:00 daily_dt=0:00:00 period_ot=1:00:00 seventh_day_ot=3:00:00 seventh_day_dt=0:00:00 alternative_ot=0:00:00 alternative_dt=0:00:00";
  "trace US-CA:REGULAR_RATE_WEIGHTED_778_115 period=0 included_earnings=956.70 hours=48:45:00 regular_rate=19.62";
  "trace US-CA:REPORTING_TIME shift=sat-shift scheduled=8:00:00 worked=1:00:00 trigger_below=4:00:00 guarantee=4:00:00 basis=REGULAR_RATE premium_hours=3:00:00";
  "trace US-CA:CALL_BACK id=wed-callback worked=0:45:00 minimum=2:00:00 basis=REGULAR_RATE premium_hours=1:15:00"]).

(** Every premium in one week. *)
Example premium_week_rendered : (r ← Calculate premium_week california; Ok (Result_Render r)) = Ok premium_week_text.
Proof. vm_compute. reflexivity. Qed.
