(* ===== verification/TimePayFacts.v ===== *)
(** Lemmas about the pricing steps: no step panics, each keeps what the next
    ones read, and the numerator of the regular rate is what the included pay
    lines say. *)

From stdpp Require Import sorting.
From S2P Require Import Prelude Sorting FixedDecimal CivilTime Intervals Zoned TimeUnits TimeRules TimeCalendar TimeClassify TimeZones TimeResult TimePay TimePremium.

Local Open Scope Z_scope.

(** * Runs that end in a result or an error *)

(** [m] does not panic, and its result, when there is one, satisfies [P]. *)
Definition safe {E A} (m : outcome E A) (P : A -> Prop) : Prop :=
  match m with Ok a => P a | Err _ => True | Panic => False end.

Lemma safe_bind {E A B} (m : outcome E A) (k : A -> outcome E B) P Q :
  safe m P -> (forall a, P a -> safe (k a) Q) -> safe (m ≫= k) Q.
Proof. destruct m; cbn; auto. Qed.

Lemma safe_impl {E A} (m : outcome E A) (P Q : A -> Prop) : safe m P -> (forall a, P a -> Q a) -> safe m Q.
Proof. destruct m; cbn; auto. Qed.

Lemma safe_ok {E A} (m : outcome E A) P a : safe m P -> m = Ok a -> P a.
Proof. intros H ->. exact H. Qed.

Lemma safe_total {E A} (m : outcome E A) : m <> Panic -> safe m (fun _ => True).
Proof. by destruct m. Qed.

Lemma safe_fail_if {E} b (e : E) : safe (fail_if b e) (fun _ => b = false).
Proof. by destruct b. Qed.

(** ** The arithmetic *)

Lemma mulDiv_no_panic a b d mode : mulDiv a b d mode <> Panic.
Proof.
  unfold mulDiv. apply bind_no_panic; [apply fail_if_no_panic|]. intros _ _. destruct (mul64 a b) as [hi lo].
  apply bind_no_panic; [apply fail_if_no_panic|]. intros _ _. destruct (div64 hi lo d) as [q r].
  apply bind_no_panic; [|intros; apply bind_no_panic; [apply fail_if_no_panic|done]].
  destruct (negb _); [|done]. apply bind_no_panic; [|done]. unfold muldiv_increment. by destruct mode.
Qed.

Lemma scaled_no_panic q u : q <> Panic -> scaled q u <> Panic.
Proof. by destruct q. Qed.

Lemma amountFor_no_panic rate secs d mode : amountFor rate secs d mode <> Panic.
Proof. apply scaled_no_panic, mulDiv_no_panic. Qed.
Lemma scaleRate_no_panic rate f d mode : scaleRate rate f d mode <> Panic.
Proof. apply scaled_no_panic, mulDiv_no_panic. Qed.
Lemma rateFor_no_panic n secs d mode : rateFor n secs d mode <> Panic.
Proof. unfold rateFor. destruct (_ <=? _); [done|]. apply scaled_no_panic, mulDiv_no_panic. Qed.
Lemma mulChecked_no_panic a b : mulChecked a b <> Panic.
Proof.
  unfold mulChecked. apply bind_no_panic; [apply fail_if_no_panic|]. intros _ _. destruct (mul64 a b).
  apply bind_no_panic; [apply fail_if_no_panic|done].
Qed.
Lemma addChecked_no_panic a b : addChecked a b <> Panic.
Proof. unfold addChecked. apply bind_no_panic; [apply fail_if_no_panic|done]. Qed.

#[export] Hint Resolve mulDiv_no_panic amountFor_no_panic scaleRate_no_panic rateFor_no_panic mulChecked_no_panic
  addChecked_no_panic : panics.

Lemma mulChecked_value a b n : mulChecked a b = Ok n -> n = a * b /\ 0 <= a /\ 0 <= b /\ n <= max_int64.
Proof.
  unfold mulChecked. pose proof (mul64_value a b) as Hm. unfold mul64 in *. cbn [fst snd] in Hm. intros H. ok_inv. bool_inv.
  subst. pose proof (Z.mod_pos_bound (a * b) (2 ^ 64) ltac:(lia)). unfold max_int64 in *. lia.
Qed.

Lemma addChecked_value a b n : int64 a -> int64 b -> addChecked a b = Ok n -> n = a + b /\ int64 n.
Proof.
  unfold addChecked, int64. intros Ha Hb H. ok_inv. subst.
  assert (Hs : min_int64 <= a + b <= max_int64).
  { destruct (Z.ltb_spec 0 b), (Z.ltb_spec b 0); try lia; cbn [andb orb] in *.
    - rewrite to_int64_small in * by (unfold min_int64, max_int64 in *; lia). rewrite orb_false_r in *. lia.
    - rewrite to_int64_small in * by (unfold min_int64, max_int64 in *; lia). lia. }
  rewrite to_int64_small by (unfold min_int64, max_int64 in *; lia). done.
Qed.

(** [no_panic] without looking inside an operation that has a hint. *)
Ltac pay_panic :=
  cbv zeta;
  repeat first
    [ solve [eauto with panics]
    | apply bind_no_panic; [|intros ? ?; cbv zeta]
    | case_match ].

(** * What the pricing steps keep *)

(** Two states with the same classification and the same sizes. *)
Record kept (e e' : engine) : Prop := mk_kept {
  kept_ivs : eng_ivs e' = eng_ivs e;
  kept_segs : eng_segs e' = eng_segs e;
  kept_pieces : eng_pieces e' = eng_pieces e;
  kept_days : eng_days e' = eng_days e;
  kept_comp : eng_comp e' = eng_comp e;
  kept_standby : standby e' = standby e;
  kept_periods : length (eng_periods e') = length (eng_periods e);
  kept_earned : length (dayEarn e') = length (dayEarn e)
}.

#[export] Instance kept_refl : Reflexive kept.
Proof. by constructor. Qed.
#[export] Instance kept_trans : Transitive kept.
Proof. intros x y z [] []. constructor; congruence. Qed.

Lemma at_index_safe {A} (l : list A) i : 0 <= i < Z.of_nat (length l) ->
  safe (at_index l i) (fun x => l !! Z.to_nat i = Some x).
Proof.
  intros H. unfold at_index. replace (i <? 0) with false by lia.
  destruct (lookup_lt_is_Some_2 l (Z.to_nat i)) as [x Hx]; [lia|]. by rewrite Hx.
Qed.

Lemma at_index_inv {A} (l : list A) i x : at_index l i = Ok x -> 0 <= i /\ l !! Z.to_nat i = Some x.
Proof.
  unfold at_index. destruct (Z.ltb_spec i 0); [done|]. destruct (l !! Z.to_nat i); [|done]. by intros [= ->].
Qed.

(** A period is changed in place. *)
Lemma update_period_safe {A} e i (f : periodState -> outcome timecalc_err (periodState * A)) :
  0 <= i < Z.of_nat (length (eng_periods e)) -> (forall ps, f ps <> Panic) ->
  safe (update_period e i f) (fun out => kept e out.1).
Proof.
  intros Hi Hf. unfold update_period. eapply safe_bind; [by apply at_index_safe|]. cbn. intros ps _.
  eapply safe_bind; [by apply safe_total, Hf|]. intros [ps' a] _. cbn. constructor; try done.
  cbn. unfold set_index. by rewrite length_insert.
Qed.

Lemma add_earned_safe e day n : 0 <= day < Z.of_nat (length (dayEarn e)) -> safe (add_earned e day n) (kept e).
Proof.
  intros Hd. unfold add_earned. eapply safe_bind; [by apply at_index_safe|]. cbn. intros v _. constructor; try done.
  cbn. unfold set_index. by rewrite length_insert.
Qed.

Section Kept.
  Context {tz : Tzdb} (req : Request) (rules : RuleSet) (cal : calendar).
  Context (HL : 1 <= per_Days (Period rules)).

Abbreviation L := (per_Days (Period rules)).

(** The sizes of the state for a calendar. *)
Record sized (e : engine) : Prop := mk_sized {
  sz_earned : Z.of_nat (length (dayEarn e)) = calendar_days cal;
  sz_periods : Z.of_nat (length (eng_periods e)) = Z.quot (calendar_days cal) L;
  sz_standby : length (standby e) = length (eng_periods e)
}.

Lemma kept_sized e e' : kept e e' -> sized e -> sized e'.
Proof. intros [] []. constructor; congruence. Qed.

Context (Hinc : increasing cal) (Hrem : Z.rem (calendar_days cal) L = 0).

Lemma day_period d : 0 <= d < calendar_days cal -> 0 <= Z.quot d L < Z.quot (calendar_days cal) L.
Proof.
  intros Hd. pose proof (Z.quot_rem' (calendar_days cal) L) as Hq. rewrite Hrem in Hq.
  rewrite Z.quot_div_nonneg by lia. split; [apply Z.div_pos; lia | apply Z.div_lt_upper_bound; lia].
Qed.

Lemma includeTimed_no_panic ps rate secs : includeTimed ps rate secs <> Panic.
Proof. unfold includeTimed. pay_panic. Qed.
Lemma include_no_panic ps amount : include ps amount <> Panic.
Proof. unfold include. pay_panic. Qed.
#[local] Hint Resolve includeTimed_no_panic include_no_panic : panics.

Lemma add_fixed_safe e i kind code secs rate amount inRR rule : sized e -> 0 <= i < Z.quot (calendar_days cal) L ->
  safe (add_fixed_at rules e i kind code secs rate amount inRR rule) (kept e).
Proof.
  intros [_ Hp _] Hi. unfold add_fixed_at. eapply safe_bind; [apply update_period_safe; [lia|]|].
  - intros ps. unfold addFixed. pay_panic.
  - intros out Ho. exact Ho.
Qed.

Lemma note_kept e rule params : kept e (note rules e rule params).
Proof. by constructor. Qed.

(** ** Straight time and differentials *)

(** A differential's window, if it has one, is a time of day. *)
Definition windows_ok : Prop :=
  Forall (fun d => match diff_Window d with Some w => window_ok w | None => True end) (Differentials rules).

Context (Hzone : forall loc, zone_sane loc) (Hwin : windows_ok).

Lemma differential_safe e day p iv tag : sized e -> 0 <= day < calendar_days cal -> 0 <= p_secs p ->
  safe (engine_differential rules e (Z.quot day L) day p iv tag) (kept e).
Proof.
  intros Hs Hd Hp. unfold engine_differential. set (d := default _ _). cbv zeta.
  assert (Hw : match diff_Window d with Some w => 0 <= StartMinute w | None => True end).
  { unfold d, RuleSet_differential. destruct (List.find _ _) as [x|] eqn:E; cbn; [|done]. apply find_some in E as [Hin _].
    unfold windows_ok in Hwin. rewrite Forall_forall in Hwin. apply list_elem_of_In, Hwin in Hin.
    destruct (diff_Window x); [|done]. destruct Hin as [[? _] _]. done. }
  eapply safe_bind; [apply safe_total|].
  { destruct (diff_Window d) as [w|]; [|done].
    destruct (windowOverlap_total (p_start p) (p_start p + p_secs p) (iv_Zone iv) w (Hzone _) Hw ltac:(lia)) as [v ->]. done. }
  intros secs _. eapply safe_bind; [apply safe_total; destruct (0 <? _); [apply scaleRate_no_panic|done]|].
  intros rate _. destruct (_ || _); [cbn; reflexivity|]. destruct Hs as [He Hpr Hst].
  eapply safe_bind; [apply update_period_safe; [rewrite Hpr; by apply day_period|]|].
  - intros ps. cbv zeta. destruct (bool_decide _); [apply includeTimed_no_panic|pay_panic].
  - intros [e' n] Hk. cbn in Hk. eapply safe_impl; [apply add_earned_safe|].
    + rewrite (kept_earned _ _ Hk), He. done.
    + intros e'' Hk'. by transitivity e'.
Qed.

Lemma differentials_safe day p iv tags : 0 <= day < calendar_days cal -> 0 <= p_secs p -> forall e, sized e ->
  safe (differentials_loop rules (Z.quot day L) day p iv tags e) (kept e).
Proof.
  intros Hd Hp. induction tags as [|tag tags IH]; intros e Hs; cbn [differentials_loop]; [cbn; reflexivity|].
  eapply safe_bind; [by apply differential_safe|]. intros e' Hk. eapply safe_impl; [apply IH; by eapply kept_sized|].
  intros e'' Hk'. by transitivity e'.
Qed.

(** A piece lies in a segment of a workday, and the segment in an interval. *)
Definition piece_placed (e : engine) (p : piece) : Prop :=
  exists s, eng_segs e !! p_seg p = Some s /\ 0 <= seg_day s < calendar_days cal /\ is_Some (eng_ivs e !! seg_iv s)
    /\ 0 <= p_secs p.

Lemma accumulate_piece_safe e p : sized e -> piece_placed e p -> safe (accumulate_piece req rules e p) (kept e).
Proof.
  intros Hs (s & Hl & Hd & [iv Hiv] & Hp). unfold accumulate_piece. rewrite at_index_nat, Hl. cbn [mbind outcome_bind].
  rewrite at_index_nat, Hiv. cbn [mbind outcome_bind]. replace (L =? 0) with false by lia. cbn [mbind outcome_bind].
  destruct (straightRate req rules iv) as [kind rate]. pose proof Hs as [He Hpr Hst].
  assert (Hper : 0 <= Z.quot (seg_day s) L < Z.of_nat (length (eng_periods e))) by (rewrite Hpr; by apply day_period).
  case_bool_decide.
  - eapply safe_bind; [apply update_period_safe; [done|done]|]. intros out Ho. exact Ho.
  - eapply safe_bind; [apply update_period_safe; [done|intros ps; unfold includeTimed; pay_panic]|].
    intros [e' n] Hk. cbn in Hk. eapply safe_bind; [apply add_earned_safe; rewrite (kept_earned _ _ Hk), He; done|].
    intros e'' Hk'. assert (Hk2 : kept e e'') by by transitivity e'. eapply safe_impl; [apply differentials_safe; try done; by eapply kept_sized|].
    intros e3 Hk3. by transitivity e''.
Qed.

Lemma accumulate_loop_safe ps : forall e, sized e -> Forall (piece_placed e) ps ->
  safe (accumulate_loop req rules ps e) (kept e).
Proof.
  induction ps as [|p ps IH]; intros e Hs Hp; cbn [accumulate_loop]; [cbn; reflexivity|].
  inversion Hp as [|? ? Hp1 Hp2]; subst. eapply safe_bind; [by apply accumulate_piece_safe|]. intros e' Hk.
  eapply safe_impl; [apply IH; [by eapply kept_sized|]|].
  - eapply Forall_impl; [exact Hp2|]. intros x (s & H1 & H2 & H3 & H4). exists s.
    by rewrite (kept_segs _ _ Hk), (kept_ivs _ _ Hk).
  - intros e'' Hk'. by transitivity e'.
Qed.

(** ** Fixed amounts *)

(** An interval of the calculation period. *)
Definition placed_interval (iv : Interval) : Prop :=
  bound_at cal 0 <= t_unix (iv_Start iv) < t_unix (iv_End iv) /\ t_unix (iv_End iv) <= bound_at cal (calendar_days cal).

Lemma placed_period t : bound_at cal 0 <= t < bound_at cal (calendar_days cal) ->
  0 <= Z.quot (calendar_dayOf cal t) L < Z.quot (calendar_days cal) L.
Proof. intros Ht. apply day_period. by apply dayOf_spec. Qed.

Lemma piece_loop_safe ivs : Forall placed_interval ivs -> forall earned, Z.of_nat (length earned) = Z.quot (calendar_days cal) L ->
  safe (piece_loop rules cal ivs earned) (fun l => length l = length earned).
Proof.
  induction 1 as [|iv ivs [Hs He] Hall IH]; intros earned Hl; cbn [piece_loop]; [done|].
  destruct (_ =? 0); [by apply IH|]. cbv zeta. replace (L =? 0) with false by lia. cbn [mbind outcome_bind].
  eapply safe_bind; [apply safe_fail_if|]. intros u _.
  eapply safe_bind; [apply at_index_safe; rewrite Hl; apply placed_period; lia|]. intros v _.
  eapply safe_impl; [apply IH; unfold set_index; by rewrite length_insert|]. cbn. intros l ->. unfold set_index. by rewrite length_insert.
Qed.

(** A step that only needs the sizes, followed by another one. *)
Lemma kept_bind e (m : outcome timecalc_err engine) (k : engine -> outcome timecalc_err engine) : sized e -> safe m (kept e) ->
  (forall e', kept e e' -> sized e' -> safe (k e') (kept e')) -> safe (m ≫= k) (kept e).
Proof.
  intros Hs Hm Hk. eapply safe_bind; [exact Hm|]. intros e' He. eapply safe_impl; [apply Hk; [done|by eapply kept_sized]|].
  intros e'' He'. by transitivity e'.
Qed.

Lemma earnings_safe i items : 0 <= i < Z.quot (calendar_days cal) L -> forall e, sized e ->
  safe (earnings_loop rules i items e) (kept e).
Proof.
  intros Hi. induction items as [|it items IH]; intros e Hs; cbn [earnings_loop]; [cbn; reflexivity|].
  destruct (negb _); [by apply IH|]. apply kept_bind; [done|by apply add_fixed_safe|]. intros e' Hk Hs'.
  eapply safe_impl; [apply IH; by eapply (kept_sized e'); [apply note_kept|]|]. intros e'' Hk'.
  etransitivity; [apply (note_kept e')|exact Hk'].
Qed.

Lemma fixed_period_safe earned items i e : sized e -> Z.of_nat (length earned) = Z.quot (calendar_days cal) L ->
  0 <= i < Z.quot (calendar_days cal) L -> safe (fixed_period req rules earned items i e) (kept e).
Proof.
  intros Hs Hl Hi. pose proof (sz_periods _ Hs) as Hp. unfold fixed_period.
  eapply safe_bind; [apply at_index_safe; by rewrite Hp|]. intros ps _.
  apply kept_bind; [done| |]. { destruct (is_method _ _); [by apply add_fixed_safe|cbn; reflexivity]. }
  intros e1 _ S1. eapply safe_bind; [apply at_index_safe; by rewrite Hl|]. intros pay _.
  apply kept_bind; [done| |]. { destruct (0 <? pay); [by apply add_fixed_safe|cbn; reflexivity]. }
  intros e2 _ S2. apply kept_bind; [done|by apply earnings_safe|]. intros e3 _ S3.
  eapply safe_bind; [apply at_index_safe; rewrite (sz_standby _ S3), (sz_periods _ S3); done|]. intros secs _.
  destruct (_ && _); [|cbn; reflexivity]. eapply safe_bind; [apply safe_total, amountFor_no_panic|]. intros a _.
  by apply add_fixed_safe.
Qed.

Lemma fixed_loop_safe earned items idx : Z.of_nat (length earned) = Z.quot (calendar_days cal) L ->
  Forall (fun i => 0 <= i < Z.quot (calendar_days cal) L) idx -> forall e, sized e ->
  safe (fixed_loop req rules earned items idx e) (kept e).
Proof.
  intros Hl. induction 1 as [|i idx Hi Hall IH]; intros e Hs; cbn [fixed_loop]; [cbn; reflexivity|].
  apply kept_bind; [done|by apply fixed_period_safe|]. intros e' _ Hs'. by apply IH.
Qed.

Lemma period_indexes_ok e : sized e -> Forall (fun i => 0 <= i < Z.quot (calendar_days cal) L) (period_indexes e).
Proof. intros Hs. unfold period_indexes. rewrite (sz_periods _ Hs). apply Forall_forall. intros i Hi. by apply elem_of_seqZ in Hi. Qed.

Lemma fixedAmounts_safe e : sized e -> Forall placed_interval (eng_ivs e) -> safe (fixedAmounts req rules cal e) (kept e).
Proof.
  intros Hs Hp. unfold fixedAmounts. eapply safe_bind.
  - apply piece_loop_safe; [done|]. rewrite length_replicate. apply (sz_periods _ Hs).
  - cbn. rewrite length_replicate. intros earned Hl. apply fixed_loop_safe; [|by apply period_indexes_ok|done].
    rewrite Hl. apply (sz_periods _ Hs).
Qed.

(** ** The split-shift premium *)

Lemma day_gap_rest day segs : forall prev gap, exists pre, segs = pre ++ (day_gap day prev gap segs).2.
Proof.
  induction segs as [|s segs IH]; intros prev gap; cbn [day_gap]; [by exists []|].
  destruct (seg_day s =? day); [|by exists []]. destruct (IH (seg_end s) (Z.max gap (seg_start s - prev))) as [pre E].
  exists (s :: pre). cbn. by rewrite <- E.
Qed.

Lemma split_premium_no_panic worked earned : split_premium rules worked earned <> Panic.
Proof. unfold split_premium. cbv zeta. pay_panic. Qed.

Lemma split_day_safe day gap e : sized e -> Z.of_nat (length (eng_days e)) = calendar_days cal -> 0 <= day < calendar_days cal ->
  safe (split_day rules day gap e) (kept e).
Proof.
  intros Hs Hd Hday. unfold split_day. destruct (gap <=? _); [cbn; reflexivity|].
  eapply safe_bind; [apply at_index_safe; by rewrite Hd|]. intros d _.
  eapply safe_bind; [apply at_index_safe; by rewrite (sz_earned _ Hs)|]. intros v _.
  eapply safe_bind; [apply safe_total, split_premium_no_panic|]. intros amount _. cbv zeta.
  destruct (amount =? 0); [apply note_kept|]. unfold period_len. replace (L =? 0) with false by lia. cbn [mbind outcome_bind].
  eapply safe_impl; [apply add_fixed_safe; [by eapply (kept_sized e); [apply note_kept|]|by apply day_period]|].
  intros e' Hk. etransitivity; [apply (note_kept e)|exact Hk].
Qed.

Lemma split_loop_safe fuel : forall segs e, (length segs <= fuel)%nat -> sized e -> Z.of_nat (length (eng_days e)) = calendar_days cal ->
  Forall (fun s => 0 <= seg_day s < calendar_days cal) segs -> safe (split_loop rules fuel segs e) (kept e).
Proof.
  induction fuel as [|n IH]; intros segs e Hf Hs Hd Hall; (destruct segs as [|s segs]; cbn [split_loop]; [cbn; reflexivity|]);
    [cbn in Hf; lia|].
  inversion Hall as [|? ? H1 H2]; subst. destruct (day_gap_rest (seg_day s) segs (seg_end s) 0) as [pre E].
  destruct (day_gap (seg_day s) (seg_end s) 0 segs) as [gap rest]. cbn [snd] in E.
  apply kept_bind; [done|by apply split_day_safe|]. intros e' Hk Hs'. apply IH; [|done|by rewrite (kept_days _ _ Hk)|].
  - rewrite E, length_cons, length_app in Hf. lia.
  - rewrite E in H2. by apply Forall_app in H2 as [_ ?].
Qed.

Lemma splitShift_safe e : sized e -> Z.of_nat (length (eng_days e)) = calendar_days cal ->
  Forall (fun s => 0 <= seg_day s < calendar_days cal) (eng_segs e) -> safe (splitShift rules e) (kept e).
Proof. intros Hs Hd Hseg. unfold splitShift. destruct (ss_Enabled _); [by apply split_loop_safe|cbn; reflexivity]. Qed.

(** ** The regular rate *)

Lemma price_lines_no_panic lines : price_lines rules lines <> Panic.
Proof. induction lines as [|l lines IH]; cbn [price_lines]; [done|]. pay_panic. Qed.

Lemma premium_line_no_panic ps rr kind secs factor : premium_line rules ps rr kind secs factor <> Panic.
Proof. unfold premium_line. pay_panic. Qed.
#[local] Hint Resolve price_lines_no_panic premium_line_no_panic : panics.

Lemma price_period_no_panic ps : price_period req rules ps <> Panic.
Proof. unfold price_period, rest_pay, premium_lines. pay_panic. Qed.

Lemma price_loop_safe idx : Forall (fun i => 0 <= i < Z.quot (calendar_days cal) L) idx -> forall e, sized e ->
  safe (price_loop req rules idx e) (kept e).
Proof.
  induction 1 as [|i idx Hi Hall IH]; intros e Hs; cbn [price_loop]; [cbn; reflexivity|].
  eapply safe_bind; [apply update_period_safe; [by rewrite (sz_periods _ Hs)|apply price_period_no_panic]|].
  intros [e' notes] Hk. cbn in Hk. assert (Hk' : kept e (with_trace e' (trace e' ++ notes))) by (etransitivity; [exact Hk|by constructor]).
  eapply safe_impl; [apply IH; by eapply kept_sized|]. intros e'' Hk''. by etransitivity.
Qed.

Lemma regularRate_safe e : sized e -> safe (regularRate req rules e) (kept e).
Proof. intros Hs. apply price_loop_safe; [by apply period_indexes_ok|done]. Qed.

(** ** Guarantees *)

Lemma periodOf_safe t : safe (periodOf rules cal t) (fun p => 0 <= p < Z.quot (calendar_days cal) L).
Proof.
  pose proof (calendar_days_nonneg cal Hinc) as Hn. unfold periodOf.
  rewrite !at_index_bound by lia. cbn [mbind outcome_bind]. eapply safe_bind; [apply safe_fail_if|]. cbn. intros u Hr.
  unfold period_len. replace (L =? 0) with false by lia. cbn. apply placed_period. lia.
Qed.

Lemma guaranteeRate_safe e basis p shiftRate : sized e -> 0 <= p < Z.quot (calendar_days cal) L ->
  safe (guaranteeRate rules e basis p shiftRate) (fun _ => True).
Proof.
  intros Hs Hp. unfold guaranteeRate. repeat case_bool_decide.
  - eapply safe_bind; [apply at_index_safe; by rewrite (sz_periods _ Hs)|done].
  - done.
  - eapply safe_bind; [apply safe_fail_if|done].
Qed.

Lemma addGuarantee_safe e kind code p secs rate rule : sized e -> 0 <= p < Z.quot (calendar_days cal) L ->
  safe (addGuarantee rules e kind code p secs rate rule) (kept e).
Proof.
  intros Hs Hp. unfold addGuarantee. eapply safe_bind; [apply safe_total, amountFor_no_panic|]. intros a _.
  eapply safe_bind; [apply update_period_safe; [by rewrite (sz_periods _ Hs)|done]|]. intros out Ho. cbn.
  etransitivity; [exact Ho|by constructor].
Qed.

(** A guarantee owed after a note. *)
Lemma owed_safe e rule params owed_ (k : engine -> outcome timecalc_err engine) : sized e ->
  (forall e', sized e' -> safe (k e') (kept e')) ->
  safe (let e := note_for rules e rule params in if owed_ =? 0 then Ok e else k e) (kept e).
Proof.
  intros Hs Hk. cbv zeta. assert (Hn : kept e (note_for rules e rule params)) by apply note_kept.
  destruct (owed_ =? 0); [exact Hn|]. eapply safe_impl; [apply Hk; by eapply kept_sized|]. intros e' Hk'. by etransitivity.
Qed.

Lemma reporting_shift_safe sh e : sized e -> safe (reporting_shift rules cal sh e) (kept e).
Proof.
  intros Hs. unfold reporting_shift. eapply safe_bind; [apply periodOf_safe|]. intros p Hp.
  destruct (negb _); [apply note_kept|]. cbv zeta. eapply safe_bind.
  - apply safe_total. unfold shift_guarantee. pay_panic.
  - intros [g t] _. set (owed_ := shift_owed _ _ _).
    apply (owed_safe e "REPORTING_TIME" _ owed_ (fun e => rate ← guaranteeRate rules e (rep_Basis (ReportingTime rules)) p (sh_Rate sh);
      addGuarantee rules e LineReporting (sh_ID sh) p owed_ rate "REPORTING_TIME") Hs).
    intros e' Hs'. eapply safe_bind; [by apply guaranteeRate_safe|]. intros rate _. by apply addGuarantee_safe.
Qed.

Lemma reporting_loop_safe shs : forall e, sized e -> safe (reporting_loop rules cal shs e) (kept e).
Proof.
  induction shs as [|sh shs IH]; intros e Hs; cbn [reporting_loop]; [cbn; reflexivity|].
  apply kept_bind; [done|by apply reporting_shift_safe|]. intros e' _ Hs'. by apply IH.
Qed.

Lemma call_back_event_safe ev e : sized e -> safe (call_back_event rules cal ev e) (kept e).
Proof.
  intros Hs. unfold call_back_event. cbv zeta.
  set (owed_ := Z.max _ _).
  apply (owed_safe e "CALL_BACK" _ owed_ (fun e => p ← periodOf rules cal (t_unix (iv_Start (ev_first ev)));
    rate ← guaranteeRate rules e (cb_Basis (CallBack rules)) p (iv_Rate (ev_first ev));
    addGuarantee rules e LineCallBack (ev_id ev) p owed_ rate "CALL_BACK") Hs).
  intros e' Hs'. eapply safe_bind; [apply periodOf_safe|]. intros p Hp.
  eapply safe_bind; [by apply guaranteeRate_safe|]. intros rate _. by apply addGuarantee_safe.
Qed.

Lemma call_loop_safe evs : forall e, sized e -> safe (call_loop rules cal evs e) (kept e).
Proof.
  induction evs as [|ev evs IH]; intros e Hs; cbn [call_loop]; [cbn; reflexivity|].
  apply kept_bind; [done|by apply call_back_event_safe|]. intros e' _ Hs'. by apply IH.
Qed.

Lemma guarantees_safe e : sized e -> safe (reportingTime req rules cal e) (kept e) /\ safe (callBack req rules cal e) (kept e).
Proof.
  intros Hs. split; [by apply reporting_loop_safe|]. unfold callBack. destruct (cb_Enabled _); [by apply call_loop_safe|cbn; reflexivity].
Qed.

End Kept.
