(* ===== verification/TimeCalcFacts.v ===== *)
(** Lemmas about a whole calculation: on-call time, the classification step,
    and the run of all steps, which ends in a result or an error. *)

From stdpp Require Import sorting.
From S2P Require Import Prelude Sorting FixedDecimal CanonicalBytes CivilTime Intervals Zoned TimeUnits TimeRules TimeCalendar TimeClassify TimeZones TimeResult TimePay TimePremium TimeCalculate TimePayFacts.

Local Open Scope Z_scope.

(** * On-call time *)

Definition span_has (g : span) (t : Z) : Prop := sp_start g <= t < sp_end g.
Definition covered (spans : list span) (t : Z) : Prop := Exists (fun g => span_has g t) spans.

Lemma covered_cons g l t : covered (g :: l) t <-> span_has g t \/ covered l t.
Proof. unfold covered. by rewrite Exists_cons. Qed.

Lemma covered_after s l t : Forall (before s) l -> covered l t -> sp_end s <= t.
Proof.
  unfold covered, span_has, before. rewrite Forall_forall, Exists_exists. intros H (g & Hg & Ht). specialize (H g Hg). lia.
Qed.

(** The free parts: non-empty, in order, inside the period, and together
    exactly the time of the period that no worked span covers. *)
Lemma unworked_spec worked : forall cur e, spans_ok worked -> StronglySorted before worked ->
  let out := unworked_loop cur e worked in
  Forall (fun g => cur <= sp_start g /\ sp_start g < sp_end g /\ sp_end g <= e) out /\ StronglySorted before out
  /\ forall t, covered out t <-> cur <= t < e /\ ~ covered worked t.
Proof.
  induction worked as [|w worked IH]; intros cur e Hok Hs; cbn [unworked_loop].
  { cbv zeta. destruct (Z.ltb_spec cur e); (split; [repeat constructor; cbn; lia|]; split; [repeat constructor|]).
    - intros t. rewrite covered_cons. unfold span_has, covered. cbn. rewrite !Exists_nil. lia.
    - intros t. unfold covered. rewrite !Exists_nil. lia. }
  inversion Hok as [|? ? Hw Hok']; subst. inversion Hs as [|? ? Hs' Hb]; subst.
  destruct (Z.leb_spec (sp_end w) cur) as [H1|H1]; cbn [orb].
  { destruct (IH cur e Hok' Hs') as (I1 & I2 & I3). split; [done|]. split; [done|]. intros t. rewrite I3, covered_cons. unfold span_has.
    split; intros [Ht Hn]; (split; [done|]); [intros [?|?]; [lia|tauto] | tauto]. }
  destruct (Z.leb_spec e (sp_start w)) as [H2|H2].
  { destruct (IH cur e Hok' Hs') as (I1 & I2 & I3). split; [done|]. split; [done|]. intros t. rewrite I3, covered_cons. unfold span_has.
    split; intros [Ht Hn]; (split; [done|]); [intros [?|?]; [lia|tauto] | tauto]. }
  rewrite Z.max_r by lia. destruct (IH (sp_end w) e Hok' Hs') as (I1 & I2 & I3).
  assert (Hcov : forall t, covered worked t -> sp_end w <= t) by (intros t; by apply covered_after).
  destruct (Z.ltb_spec cur (sp_start w)) as [H3|H3].
  - split; [|split].
    + constructor; [cbn; lia|]. eapply Forall_impl; [exact I1|]. cbn. intros g Hg. lia.
    + constructor; [done|]. eapply Forall_impl; [exact I1|]. unfold before. cbn. intros g Hg. lia.
    + intros t. rewrite !covered_cons, I3. specialize (Hcov t). unfold span_has in *. cbn. split.
      * intros [Ht|Ht]; (split; [lia|]); intros [?|?]; [lia| |lia|tauto]. specialize (Hcov ltac:(done)). lia.
      * intros [Ht Hn]. destruct (Z.lt_ge_cases t (sp_start w)); [left; lia|]. right. split; [|tauto].
        destruct (Z.lt_ge_cases t (sp_end w)); [|lia]. exfalso. apply Hn. left. lia.
  - split; [|split; [done|]].
    + eapply Forall_impl; [exact I1|]. cbn. intros g Hg. lia.
    + intros t. rewrite !covered_cons, I3. specialize (Hcov t). unfold span_has in *. split.
      * intros [Ht Hn]. split; [lia|]. intros [?|?]; [lia|tauto].
      * intros [Ht Hn]. split; [|tauto]. destruct (Z.lt_ge_cases t (sp_end w)); [|lia]. exfalso. apply Hn. left. lia.
Qed.

Lemma to_int64_add a b : to_int64 (to_int64 a + b) = to_int64 (a + b).
Proof.
  unfold to_int64. replace ((a + 2 ^ 63) mod 2 ^ 64 - 2 ^ 63 + b + 2 ^ 63) with ((a + 2 ^ 63) mod 2 ^ 64 + b) by lia.
  rewrite Z.add_mod_idemp_l by lia. do 2 f_equal. lia.
Qed.

Lemma to_int64_range z : int64 (to_int64 z).
Proof. unfold to_int64, int64, min_int64, max_int64. pose proof (Z.mod_pos_bound (z + 2 ^ 63) (2 ^ 64) ltac:(lia)). lia. Qed.

Lemma to_int64_add_r a b : to_int64 (a + to_int64 b) = to_int64 (a + b).
Proof. rewrite Z.add_comm, to_int64_add. f_equal. lia. Qed.

Section OnCall.
  Context {tz : Tzdb} (req : Request) (rules : RuleSet) (cal : calendar).
  Context (HL : 1 <= per_Days (Period rules)) (Hinc : increasing cal) (Hrem : Z.rem (calendar_days cal) (per_Days (Period rules)) = 0).

Abbreviation L := (per_Days (Period rules)).

(** The seconds of a span in an overtime period. *)
Definition in_period_of (g : span) (q : Z) : Z :=
  overlap (sp_start g) (sp_end g) (bound_at cal (q * L)) (bound_at cal ((q + 1) * L)).

Lemma quot_days : calendar_days cal = Z.quot (calendar_days cal) L * L.
Proof. pose proof (Z.quot_rem' (calendar_days cal) L). lia. Qed.

Lemma standby_loop_spec stop : forall fuel t st, bound_at cal 0 <= t -> stop <= bound_at cal (calendar_days cal) ->
  Z.of_nat (length st) = Z.quot (calendar_days cal) L ->
  (t < stop -> (Z.to_nat (calendar_days cal - calendar_dayOf cal t) <= fuel)%nat) ->
  exists st', standby_loop rules cal fuel t stop st = Ok st' /\ length st' = length st
    /\ forall q, 0 <= q < Z.quot (calendar_days cal) L -> int64 (default 0 (st !! Z.to_nat q)) ->
         default 0 (st' !! Z.to_nat q) = to_int64 (default 0 (st !! Z.to_nat q)
           + overlap t stop (bound_at cal (q * L)) (bound_at cal ((q + 1) * L))).
Proof.
  pose proof quot_days as HD. pose proof (calendar_days_nonneg cal Hinc) as Hn. pose proof Hinc as [_ Hmono].
  assert (Hm : forall i j, 0 <= i <= j -> j <= Z.quot (calendar_days cal) L -> bound_at cal (i * L) <= bound_at cal (j * L)).
  { intros i j Hij Hj. apply Hmono; nia. }
  induction fuel as [|n IH]; intros t st Ht Hstop Hlen Hfuel; cbn [standby_loop];
    (destruct (Z.ltb_spec t stop) as [Hlt|Hge]; [|exists st; split; [done|]; split; [done|]; intros q Hq Hi;
       pose proof (Hm q (q + 1) ltac:(lia) ltac:(lia));
       replace (overlap t stop _ _) with 0 by (unfold overlap; case_match; lia); rewrite Z.add_0_r; symmetry; by apply to_int64_small]).
  all: destruct (dayOf_spec cal t Hinc ltac:(lia)) as [Hd Hb]; cbv zeta in Hd, Hb; set (day := calendar_dayOf cal t) in *.
  { specialize (Hfuel Hlt). lia. }
  unfold period_len. replace (L =? 0) with false by lia. cbn [mbind outcome_bind]. rewrite Z.quot_div_nonneg by lia. set (p := day / L).
  assert (Hp : p * L <= day < (p + 1) * L) by (pose proof (Z.div_mod day L ltac:(lia)); pose proof (Z.mod_pos_bound day L ltac:(lia)); unfold p; lia).
  assert (Hpq : 0 <= p < Z.quot (calendar_days cal) L) by nia.
  rewrite at_index_bound by nia. cbn [mbind outcome_bind]. rewrite (at_index_ok st p 0) by lia. cbn [mbind outcome_bind].
  set (next := Z.min stop (bound_at cal ((p + 1) * L))).
  pose proof (Hmono (p * L) day ltac:(nia) ltac:(lia)) as Hlow. pose proof (Hmono (day + 1) ((p + 1) * L) ltac:(lia) ltac:(nia)) as Hhigh.
  destruct (IH next (set_index st p (add64 (default 0 (st !! Z.to_nat p)) (to_int64 (next - t))))) as (st' & E & Hl & Hv).
  - lia.
  - done.
  - unfold set_index. by rewrite length_insert.
  - intros Hlt'. assert (Hn' : next = bound_at cal ((p + 1) * L)) by lia.
    destruct (dayOf_spec cal next Hinc ltac:(lia)) as [Hd' Hb']. cbv zeta in Hd', Hb'.
    assert (day < calendar_dayOf cal next).
    { destruct (Z.le_gt_cases (calendar_dayOf cal next) day) as [Hle|]; [|done].
      pose proof (Hmono (calendar_dayOf cal next + 1) (day + 1) ltac:(lia) ltac:(lia)). lia. }
    specialize (Hfuel Hlt). lia.
  - exists st'. unfold set_index in Hl. rewrite length_insert in Hl. split; [exact E|]. split; [done|].
    intros q Hq Hi. rewrite Hv; [|done|rewrite set_index_lookup by lia; destruct (p =? q); [apply to_int64_range|done]].
    rewrite set_index_lookup by lia. destruct (Z.eqb_spec p q) as [<-|Hne].
    + unfold add64. rewrite !to_int64_add_r, to_int64_add. f_equal. unfold overlap. repeat case_match; lia.
    + do 2 f_equal. unfold overlap. destruct (Z.lt_total p q) as [Hc|[Hc|Hc]]; [|lia|].
      * pose proof (Hm (p + 1) q ltac:(lia) ltac:(lia)). repeat case_match; lia.
      * pose proof (Hm (q + 1) p ltac:(lia) ltac:(lia)). repeat case_match; lia.
Qed.

(** Sums over spans and over on-call periods. *)
Definition spans_in (free : list span) (q : Z) : Z := foldr (fun g acc => in_period_of g q + acc) 0 free.

Definition inside_span (g : span) : Prop := bound_at cal 0 <= sp_start g /\ sp_end g <= bound_at cal (calendar_days cal).

Definition standby_at (st : list Z) (q : Z) : Z := default 0 (st !! Z.to_nat q).
Definition standby_ok (st : list Z) : Prop := Z.of_nat (length st) = Z.quot (calendar_days cal) L
  /\ forall q, 0 <= q < Z.quot (calendar_days cal) L -> int64 (standby_at st q).

Lemma standby_parts_spec free : Forall inside_span free -> forall st, standby_ok st ->
  exists st', standby_parts rules cal free st = Ok st' /\ standby_ok st'
    /\ forall q, 0 <= q < Z.quot (calendar_days cal) L -> standby_at st' q = to_int64 (standby_at st q + spans_in free q).
Proof.
  induction 1 as [|g free [Hg1 Hg2] Hall IH]; intros st [Hl Hi]; cbn [standby_parts].
  { exists st. split; [done|]. split; [done|]. intros q Hq. cbn. rewrite Z.add_0_r. symmetry. by apply to_int64_small, Hi. }
  destruct (standby_loop_spec (sp_end g) (length (bounds cal)) (sp_start g) st Hg1 Hg2 Hl) as (st1 & -> & Hl1 & Hv1).
  { intros Hlt. pose proof (dayOf_spec cal (sp_start g) Hinc ltac:(lia)) as [Hd _]. unfold calendar_days in *. lia. }
  cbn [mbind outcome_bind]. destruct (IH st1) as (st' & E & Hok & Hv).
  { split; [lia|]. intros q Hq. unfold standby_at. rewrite Hv1 by (done || by apply Hi). apply to_int64_range. }
  exists st'. split; [done|]. split; [done|]. intros q Hq. rewrite Hv by done. unfold standby_at at 1. rewrite Hv1 by (done || by apply Hi).
  cbn [spans_in foldr]. fold (spans_in free q). fold (standby_at st q). rewrite to_int64_add. f_equal. unfold in_period_of. lia.
Qed.

(** ** One on-call period, and all of them *)

Definition engaged (o : OnCallPeriod) : bool := (OnCallRule_classify (OnCall rules) (oc_Restrictions o)).1.
Definition free_of (worked : list span) (o : OnCallPeriod) : list span :=
  unworked (t_unix (oc_Start o)) (t_unix (oc_End o)) worked.
Definition standby_of (worked : list span) (os : list OnCallPeriod) (q : Z) : Z :=
  foldr (fun o acc => (if engaged o then 0 else spans_in (free_of worked o) q) + acc) 0 os.

(** An engaged interval: non-empty, in the calculation period, without
    differentials, piece earnings or a call back. *)
Definition plain_interval (iv : Interval) : Prop :=
  placed_interval cal iv /\ iv_Differentials iv = [] /\ PieceEarnings iv = 0 /\ CallBackID iv = "".

(** What [onCall] may change. *)
Record on_called (worked : list span) (os : list OnCallPeriod) (e e' : engine) : Prop := mk_on_called {
  onc_ivs : exists more, eng_ivs e' = eng_ivs e ++ more /\ Forall plain_interval more
    /\ forall t, Exists (fun iv => worked_at iv t) more <-> Exists (fun o => engaged o = true /\ covered (free_of worked o) t) os;
  onc_standby : standby_ok (standby e')
    /\ forall q, 0 <= q < Z.quot (calendar_days cal) L -> standby_at (standby e') q = to_int64 (standby_at (standby e) q + standby_of worked os q);
  onc_inside : Forall (fun o => bound_at cal 0 <= t_unix (oc_Start o) /\ t_unix (oc_End o) <= bound_at cal (calendar_days cal)) os;
  onc_periods : eng_periods e' = eng_periods e;
  onc_earned : dayEarn e' = dayEarn e;
  onc_premium : premium e' = premium e
}.

Lemma standby_same e st : standby_ok st -> standby e = st ->
  forall q, 0 <= q < Z.quot (calendar_days cal) L -> standby_at st q = to_int64 (standby_at (standby e) q + 0).
Proof. intros [_ Hi] -> q Hq. rewrite Z.add_0_r. symmetry. by apply to_int64_small, Hi. Qed.

Lemma engaged_worked o code kind rate free t :
  Exists (fun iv => worked_at iv t) (imap (engaged_interval req o code kind rate) free) <-> covered free t.
Proof.
  unfold covered. rewrite !Exists_exists. split.
  - intros (iv & Hin & Ht). apply elem_of_lookup_imap in Hin as (i & g & -> & Hg). exists g. split; [by eapply list_elem_of_lookup_2|exact Ht].
  - intros (g & Hin & Ht). apply list_elem_of_lookup in Hin as [i Hg]. exists (engaged_interval req o code kind rate i g).
    split; [apply elem_of_lookup_imap; eauto|exact Ht].
Qed.

Lemma oncall_period_safe worked o e : spans_ok worked -> StronglySorted before worked -> standby_ok (standby e) ->
  safe (oncall_period req rules cal (bound_at cal 0) (bound_at cal (calendar_days cal)) worked o e) (on_called worked [o] e).
Proof.
  intros Hok Hs Hst. unfold oncall_period. eapply safe_bind; [apply safe_fail_if|]. cbn. intros u Hin.
  destruct (unworked_spec worked (t_unix (oc_Start o)) (t_unix (oc_End o)) Hok Hs) as (U1 & U2 & U3). cbv zeta in *.
  fold (unworked (t_unix (oc_Start o)) (t_unix (oc_End o)) worked) in *. fold (free_of worked o) in *.
  assert (Hfree : Forall (fun g => bound_at cal 0 <= sp_start g /\ sp_start g < sp_end g /\ sp_end g <= bound_at cal (calendar_days cal)) (free_of worked o)).
  { eapply Forall_impl; [exact U1|]. cbn. intros g Hg. lia. }
  destruct (OnCallRule_classify (OnCall rules) (oc_Restrictions o)) as [eng why] eqn:Ec.
  assert (He : engaged o = eng) by (unfold engaged; by rewrite Ec).
  assert (Hstep : forall ivs st (e' := note_for rules (with_oncall e ivs st) "ON_CALL" (oncall_params o eng why (free_seconds (free_of worked o)))),
    (exists more, ivs = eng_ivs e ++ more /\ Forall plain_interval more
      /\ forall t, Exists (fun iv => worked_at iv t) more <-> eng = true /\ covered (free_of worked o) t) ->
    standby_ok st -> (forall q, 0 <= q < Z.quot (calendar_days cal) L -> standby_at st q = to_int64 (standby_at (standby e) q + (if eng then 0 else spans_in (free_of worked o) q))) ->
    on_called worked [o] e e').
  { intros ivs st e' Hi Hok' Hv. constructor; try done; cbn [standby eng_ivs note_for note with_trace with_oncall e'].
    - destruct Hi as (more & -> & Hm & Ht). exists more. split; [done|]. split; [done|]. intros t. rewrite Ht, Exists_cons, Exists_nil, He. tauto.
    - split; [done|]. intros q Hq. rewrite Hv by done. cbn [standby_of foldr]. rewrite He. f_equal. lia.
    - constructor; [lia|constructor]. }
  destruct eng.
  - unfold engagedIntervals. cbv zeta. destruct (_ && _ && _); cbn [fail_if mbind outcome_bind]; [exact I|]. cbn.
    apply Hstep; [|done|by apply standby_same].
    eexists. split; [done|]. split; [|intros t; rewrite engaged_worked; tauto].
    apply Forall_forall. intros iv Hin'. apply elem_of_lookup_imap in Hin' as (i & g & -> & Hg).
    rewrite Forall_forall in Hfree. specialize (Hfree g ltac:(by eapply list_elem_of_lookup_2)). unfold plain_interval, placed_interval. cbn.
    split; [lia|]. done.
  - destruct (standby_parts_spec (free_of worked o)) with (st := standby e) as (st' & -> & Hok' & Hv); [|done|].
    { eapply Forall_impl; [exact Hfree|]. unfold inside_span. cbn. intros g Hg. lia. }
    cbn. apply Hstep; [|done|done]. exists []. rewrite app_nil_r. split; [done|]. split; [done|]. intros t. rewrite Exists_nil. split; [done|by intros []].
Qed.

Lemma standby_of_app worked os1 os2 q : standby_of worked (os1 ++ os2) q = standby_of worked os1 q + standby_of worked os2 q.
Proof. unfold standby_of. induction os1 as [|o os1 IH]; cbn [app foldr]; lia. Qed.

Lemma on_called_app worked os1 os2 e1 e2 e3 : on_called worked os1 e1 e2 -> on_called worked os2 e2 e3 -> on_called worked (os1 ++ os2) e1 e3.
Proof.
  intros [(m1 & I1 & P1 & T1) [S1 V1] F1 A1 B1 C1] [(m2 & I2 & P2 & T2) [S2 V2] F2 A2 B2 C2]. constructor; try congruence.
  - exists (m1 ++ m2). rewrite I2, I1, app_assoc. split; [done|]. split; [by apply Forall_app|]. intros t. by rewrite !Exists_app, T1, T2.
  - split; [done|]. intros q Hq. rewrite V2, V1, to_int64_add by done. f_equal. rewrite <- Z.add_assoc. f_equal.
    symmetry. apply standby_of_app.
  - by apply Forall_app.
Qed.

Lemma oncall_loop_safe worked os : spans_ok worked -> StronglySorted before worked -> forall e, standby_ok (standby e) ->
  safe (oncall_loop req rules cal (bound_at cal 0) (bound_at cal (calendar_days cal)) worked os e) (on_called worked os e).
Proof.
  intros Hok Hs. induction os as [|o os IH]; intros e Hst; cbn [oncall_loop].
  - cbn. constructor; try done.
    + exists []. rewrite app_nil_r. split; [done|]. split; [done|]. intros t. by rewrite !Exists_nil.
    + split; [done|]. intros q Hq. cbn. by apply standby_same.
  - eapply safe_bind; [by apply oncall_period_safe|]. intros e1 H1. eapply safe_impl; [apply IH; apply (onc_standby _ _ _ _ H1)|].
    intros e2 H2. exact (on_called_app worked [o] os e e1 e2 H1 H2).
Qed.

(** [onCall]: the request's intervals and the engaged ones; the free seconds of
    waiting periods, by overtime period. *)
Lemma onCall_safe e : Forall nonempty_interval (Intervals req) -> standby_ok (standby e) ->
  safe (onCall req rules cal e) (fun e' => exists worked,
    on_called worked (merge_sort (start_le oc_Start oc_ID) (req_OnCall req)) (with_oncall e (Intervals req) (standby e)) e'
    /\ (req_OnCall req <> [] -> worked ≡ₚ spans_of (Intervals req)) /\ spans_ok worked /\ StronglySorted before worked).
Proof.
  intros Hne Hst. unfold onCall. case_bool_decide as Ho.
  - cbn. exists []. rewrite Ho. split; [|by repeat constructor]. constructor; try done; cbn.
    + exists []. rewrite app_nil_r. split; [done|]. split; [done|]. intros t. by rewrite !Exists_nil.
    + split; [done|]. intros q Hq. by apply standby_same.
  - pose proof (orderSpans_spec (Intervals req) Hne) as HO. destruct (orderSpans (Intervals req)) as [worked| |]; cbn [mbind outcome_bind]; [|done|done].
    destruct HO as (Hp & Hs & _). pose proof (calendar_days_nonneg cal Hinc) as Hn.
    assert (Hok : spans_ok worked).
    { unfold spans_ok. rewrite Hp, Forall_forall. intros s Hin. apply elem_of_spans in Hin as (iv & Hl & ->). cbn.
      rewrite Forall_forall in Hne. apply (Hne iv). by eapply list_elem_of_lookup_2. }
    rewrite !at_index_bound by lia. cbn [mbind outcome_bind]. eapply safe_impl; [by apply oncall_loop_safe|].
    intros e' He'. exists worked. done.
Qed.

End OnCall.

(** * What validation gives *)

Lemma validate_intervals_inv req rules ivs : forall before u, validate_intervals req rules before ivs = Ok u ->
  Forall (fun iv => Interval_validate iv req rules = Ok tt) ivs.
Proof.
  induction ivs as [|iv ivs IH]; intros before_ u H; cbn [validate_intervals] in H; [done|]. ok_inv. constructor; [done|by eapply IH].
Qed.

Lemma Interval_validate_nonempty iv req rules : Interval_validate iv req rules = Ok tt -> nonempty_interval iv.
Proof.
  unfold Interval_validate, nonempty_interval, time_After. intros H. ok_inv. bool_inv.
  destruct (Z.ltb_spec (t_unix (iv_Start iv)) (t_unix (iv_End iv))); [done|]. cbn [orb] in *.
  repeat match goal with H : (_ =? _) = true |- _ => apply Z.eqb_eq in H end. rewrite andb_true_iff in *. lia.
Qed.

Lemma Request_validate_intervals req rules u : Request_validate req rules = Ok u ->
  Forall (fun iv => Interval_validate iv req rules = Ok tt) (Intervals req).
Proof. unfold Request_validate. intros H. ok_inv. eapply validate_intervals_inv. eassumption. Qed.

Lemma validate_differentials_windows ds : forall seen u, validate_differentials seen ds = Ok u ->
  Forall (fun d => match diff_Window d with Some w => window_ok w | None => True end) ds.
Proof.
  induction ds as [|d ds IH]; intros seen u H; cbn [validate_differentials] in H; [done|]. ok_inv. constructor; [|by eapply IH].
  unfold validate_differential in *. ok_inv. destruct (diff_Window d) as [w|]; [|done]. unfold window_ok. bool_inv. lia.
Qed.

Lemma RuleSet_Validate_windows rules u : RuleSet_Validate rules = Ok u -> windows_ok rules.
Proof. unfold RuleSet_Validate. intros H. ok_inv. eapply validate_differentials_windows. eassumption. Qed.

(** * The whole run *)

Section Run.
  Context {tz : Tzdb} (req : Request) (rules : RuleSet).

(** The inputs of a calculation whose arithmetic stays in range: zones as the
    database has them, and the bounds of [engine_input]. *)
Record calculation_input : Prop := mk_calculation_input {
  ci_zones : forall loc, zone_sane loc;
  ci_cap : ct_Cap (CompTime rules) <= 2 ^ 50;
  ci_factor : AccrualFactor (CompTime rules) <= max_int64
}.

Context (Hin : calculation_input) (Hv : RuleSet_Validate rules = Ok tt) (Hreq : Request_validate req rules = Ok tt).

Abbreviation L := (per_Days (Period rules)).

Record calendar_ok (cal : calendar) : Prop := mk_calendar_ok {
  co_increasing : increasing cal;
  co_days : calendar_days cal = Days req;
  co_rem : Z.rem (calendar_days cal) L = 0;
  co_len : 1 <= L;
  co_pos : 0 < Days req;
  co_length : forall i, 0 <= i < Days req -> bound_at cal (i + 1) - bound_at cal i <= 172800
}.

Lemma calendar_made cal : newCalendar req L = Ok cal -> calendar_ok cal.
Proof.
  intros E. apply RuleSet_Validate_ok in Hv as Hr. apply Request_validate_ok in Hreq as (_ & Hd0 & Hrem & _ & _).
  destruct (newCalendar_ok req L cal E Hd0 (ci_zones Hin _)) as (Hi & Hd & _ & Hl). pose proof (ok_days _ Hr).
  constructor; rewrite ?Hd; try done; lia.
Qed.

Lemma load_zones_no_panic ivs : load_zones ivs <> Panic.
Proof. induction ivs as [|iv ivs IH]; cbn [load_zones]; [done|]. unfold zones_load. pay_panic. Qed.

Lemma make_periods_safe cal idx : calendar_ok cal -> Forall (fun i => 0 <= i < Z.quot (calendar_days cal) L) idx ->
  safe (make_periods req rules cal idx) (fun ps => ps = map (fun p => new_period (pr_Index (ps_res p)) (pr_StartDate (ps_res p))) ps
    /\ map periodIndex ps = idx).
Proof.
  intros [Hi Hd Hrem HL Hpos Hlong] Hall. pose proof (quot_days rules cal Hrem) as HD. induction Hall as [|i idx Hi' Hall IH]; cbn [make_periods]; [done|].
  unfold calendar_dateOf. rewrite at_index_bound by nia. cbn [mbind outcome_bind]. eapply safe_bind; [exact IH|]. cbn.
  intros ps [E1 E2]. rewrite E2. split; [by rewrite <- E1|done].
Qed.

Lemma prepare_safe : safe (prepare req rules) (fun out => calendar_ok out.1 /\ sized rules out.1 out.2
  /\ standby_ok rules out.1 (standby out.2) /\ (forall q, standby_at (standby out.2) q = 0)
  /\ eng_periods out.2 = map (fun p => new_period (pr_Index (ps_res p)) (pr_StartDate (ps_res p))) (eng_periods out.2)
  /\ map periodIndex (eng_periods out.2) = seqZ 0 (Z.quot (calendar_days out.1) L)
  /\ dayEarn out.2 = replicate (Z.to_nat (calendar_days out.1)) 0 /\ premium out.2 = 0).
Proof.
  unfold prepare. destruct (newCalendar req L) as [cal| |] eqn:Ec; cbn [mbind outcome_bind]; [|done|].
  2: { exfalso. revert Ec. unfold newCalendar, zones_load. cbv zeta. pay_panic. }
  pose proof (calendar_made cal Ec) as Hco. pose proof Hco as [Hi Hd Hrem HL Hpos Hlong].
  eapply safe_bind; [apply safe_total, load_zones_no_panic|]. intros u _. replace (L =? 0) with false by lia. cbn [mbind outcome_bind].
  eapply safe_bind; [apply make_periods_safe; [done|]|].
  { apply Forall_forall. intros i Hi'. by apply elem_of_seqZ in Hi'. }
  cbn beta. intros ps [E1 E2]. unfold calendar_dateOf. rewrite at_index_bound by lia. cbn [mbind outcome_bind safe fst snd].
  assert (Hq : 0 <= Z.quot (calendar_days cal) L) by (apply Z.quot_pos; lia).
  assert (Hlp : length ps = Z.to_nat (Z.quot (calendar_days cal) L)).
  { apply (f_equal length) in E2. by rewrite length_map, length_seqZ in E2. }
  assert (Hz : forall k i, standby_at (replicate k 0) i = 0).
  { intros k i. unfold standby_at. destruct (replicate _ _ !! _) eqn:Er; [|done]. by apply lookup_replicate in Er as [-> _]. }
  split; [done|]. split; [constructor; cbn; rewrite ?length_replicate; lia|]. split; [|by split; [intros q; apply Hz|]].
  split; cbn; [rewrite length_replicate; lia|]. intros q _. rewrite Hz. unfold int64, min_int64, max_int64. lia.
Qed.

(** ** The classification step *)

(** The state the pricing steps start from. *)
Record ready (cal : calendar) (e : engine) : Prop := mk_ready {
  rd_sized : sized rules cal e;
  rd_ivs : Forall (placed_interval cal) (eng_ivs e);
  rd_pieces : Forall (piece_placed cal e) (eng_pieces e);
  rd_segs : Forall (fun s => 0 <= seg_day s < calendar_days cal) (eng_segs e);
  rd_days : Z.of_nat (length (eng_days e)) = calendar_days cal
}.

Lemma kept_ready cal e e' : kept e e' -> ready cal e -> ready cal e'.
Proof.
  intros Hk [H1 H2 H3 H4 H5]. constructor; rewrite ?(kept_ivs _ _ Hk), ?(kept_pieces _ _ Hk), ?(kept_segs _ _ Hk), ?(kept_days _ _ Hk); try done.
  - by eapply kept_sized.
  - eapply Forall_impl; [exact H3|]. intros p (s & A & B). exists s. by rewrite (kept_segs _ _ Hk), (kept_ivs _ _ Hk).
Qed.

(** The days of a classification, with their dates and rules. *)
Lemma make_days_safe cal plans buckets : increasing cal -> Z.of_nat (length plans) = calendar_days cal -> forall d, 0 <= d ->
  d + Z.of_nat (length buckets) = calendar_days cal -> safe (make_days req cal plans buckets d)
    (fun days => map dr_Buckets days = buckets).
Proof.
  intros Hi Hp. induction buckets as [|b buckets IH]; intros d Hd Hl; cbn [make_days]; [done|]. rewrite length_cons in Hl.
  unfold calendar_dateOf. rewrite at_index_bound by lia. cbn [mbind outcome_bind].
  eapply safe_bind; [apply at_index_safe; lia|]. intros plan _. eapply safe_bind; [apply IH; lia|]. cbn. by intros days ->.
Qed.

Lemma classify_input cal ivs : calendar_ok cal -> Forall nonempty_interval ivs -> engine_input req rules cal ivs.
Proof. intros [] Hne. destruct Hin. by constructor. Qed.

Lemma placed_spans cal ivs : Forall nonempty_interval ivs -> Forall (inside cal) (spans_of ivs) -> Forall (placed_interval cal) ivs.
Proof.
  intros Hne Hs. rewrite Forall_forall in Hne. rewrite Forall_forall in Hs. apply Forall_forall. intros iv Hiv. apply list_elem_of_lookup in Hiv as [i Hi].
  specialize (Hs (mkSpan i (t_unix (iv_Start iv)) (t_unix (iv_End iv)))). destruct Hs as [A B].
  { apply elem_of_spans. exists iv. done. }
  specialize (Hne iv ltac:(by eapply list_elem_of_lookup_2)). unfold nonempty_interval in Hne. cbn in A, B. split; lia.
Qed.

(** ** Bounds on worked time *)

Lemma span_overlaps_bound a b : a <= b -> forall l lo, spans_ok l -> StronglySorted before l -> Forall (fun s => lo <= sp_start s) l ->
  0 <= span_overlaps l a b <= Z.max 0 (b - Z.max a lo).
Proof.
  intros Hab. induction l as [|s l IH]; intros lo Hok Hs Hlo; cbn [span_overlaps foldr]; [lia|]. fold (span_overlaps l a b).
  inversion Hok as [|? ? Hs1 Hok']; subst. inversion Hs as [|? ? Hs' Hb]; subst. inversion Hlo as [|? ? Hl1 Hlo']; subst.
  specialize (IH (sp_end s) Hok' Hs' Hb). unfold overlap. case_match; lia.
Qed.

(** A workday holds at most its length, a period at most that of its days. *)
Lemma worked_on_bound cal ivs d : calendar_ok cal -> Forall nonempty_interval ivs -> ~ double_booked ivs -> 0 <= d < calendar_days cal ->
  0 <= worked_on cal ivs d <= 172800.
Proof.
  intros Hco Hne Hnd Hd. pose proof (orderSpans_spec ivs Hne) as HO. destruct (orderSpans ivs) as [spans|e|]; [|by destruct HO|done].
  destruct HO as (Hp & Hs & _). unfold worked_on. rewrite <- (span_overlaps_perm _ _ _ _ Hp).
  pose proof (proj2 (co_increasing _ Hco) d (d + 1) ltac:(lia) ltac:(lia)). pose proof (co_length _ Hco d ltac:(rewrite <- (co_days _ Hco); lia)).
  assert (Hok : spans_ok spans).
  { unfold spans_ok. rewrite Hp, Forall_forall. intros s Hin'. apply elem_of_spans in Hin' as (iv & Hl & ->). cbn.
    rewrite Forall_forall in Hne. apply (Hne iv). by eapply list_elem_of_lookup_2. }
  destruct Hs as [|s l Hs Hb]; [cbn; lia|].
  pose proof (span_overlaps_bound (bound_at cal d) (bound_at cal (d + 1)) ltac:(lia) (s :: l) (sp_start s) Hok ltac:(by constructor)) as Hx.
  assert (Forall (fun x => sp_start s <= sp_start x) (s :: l)) as Hlo.
  { constructor; [lia|]. inversion Hok as [|? ? Hs1 _]; subst. eapply Forall_impl; [exact Hb|]. unfold before. intros x Hx'. lia. }
  specialize (Hx Hlo). lia.
Qed.

Lemma zsum_bound f k ds : (forall d, d ∈ ds -> 0 <= f d <= k) -> 0 <= zsum f ds <= k * Z.of_nat (length ds).
Proof.
  intros H. induction ds as [|d ds IH]; [cbn; lia|]. rewrite length_cons. unfold zsum in *. cbn [foldr].
  specialize (IH ltac:(intros; apply H; by right)). specialize (H d ltac:(by left)). lia.
Qed.

Lemma period_worked_bound cal ivs c q : calendar_ok cal -> Forall nonempty_interval ivs -> ~ double_booked ivs ->
  owed req rules cal ivs c -> 0 <= q < Z.quot (calendar_days cal) L -> 0 <= Worked (bucket_at (e_periods c) q) <= 172800 * 28.
Proof.
  intros Hco Hne Hnd How Hq. destruct (ow_periods _ _ _ _ _ How q Hq) as [-> _]. pose proof Hco as [Hi Hd Hrem HL Hpos Hlong].
  apply RuleSet_Validate_ok in Hv as Hr. pose proof (ok_days _ Hr).
  pose proof (zsum_bound (worked_on cal ivs) 172800 (days_of L q)) as Hz.
  assert (length (days_of L q) = Z.to_nat L) as El by (unfold days_of; apply length_seqZ). rewrite El in Hz.
  destruct Hz as [? ?]; [|lia]. intros d Hdin. apply worked_on_bound; try done.
  apply (days_of_range L (calendar_days cal) q d); try done; lia.
Qed.

(** What the step adds to the state. *)
Record classified_state (cal : calendar) (e e' : engine) : Prop := mk_classified_state {
  cst_ready : ready cal e';
  cst_ivs : eng_ivs e' = eng_ivs e;
  cst_standby : standby e' = standby e;
  cst_earned : dayEarn e' = dayEarn e;
  cst_premium : premium e' = premium e;
  cst_result : exists c, engine_classify req rules cal (eng_ivs e) (Z.quot (calendar_days cal) L) = Ok c
    /\ placed req rules cal (eng_ivs e) c /\ owed req rules cal (eng_ivs e) c /\ comp_owed req rules cal (eng_ivs e) (e_comp c)
    /\ ~ double_booked (eng_ivs e)
    /\ eng_segs e' = e_segs c /\ eng_pieces e' = e_pieces c /\ eng_comp e' = e_comp c
    /\ map dr_Buckets (eng_days e') = e_days c
    /\ eng_periods e' = zip_with with_buckets (eng_periods e) (e_periods c)
}.

Lemma classify_step_safe cal e : calendar_ok cal -> sized rules cal e -> Forall nonempty_interval (eng_ivs e) ->
  safe (classify_step req rules cal e) (classified_state cal e).
Proof.
  intros Hco Hs Hne. pose proof Hco as [Hi Hd Hrem HL Hpos Hlong]. unfold classify_step. rewrite (sz_periods _ _ _ Hs).
  pose proof (engine_spec req rules cal (eng_ivs e) (classify_input cal _ Hco Hne)) as HE. rewrite <- Hd in HE.
  destruct (engine_classify req rules cal (eng_ivs e) _) as [c| |] eqn:Ec; cbn [mbind outcome_bind]; [|done|done].
  destruct HE as (Hpl & How & Hcomp & Hnd & Hins). pose proof Hpl as [P1 P2 P3 P4 _].
  assert (Hplans : Z.of_nat (length (e_plans c)) = calendar_days cal).
  { rewrite (ow_plans _ _ _ _ _ How). unfold plans_for. rewrite planDays_length, length_map, length_seqZ. lia. }
  eapply safe_bind; [apply (make_days_safe cal); try done; lia|]. cbn beta. intros days Hdays. cbn [safe].
  assert (Hld : Z.of_nat (length days) = calendar_days cal). { apply (f_equal length) in Hdays. rewrite length_map in Hdays. lia. }
  assert (Hlp : length (zip_with with_buckets (eng_periods e) (e_periods c)) = length (eng_periods e)).
  { rewrite length_zip_with. pose proof (sz_periods _ _ _ Hs). lia. }
  constructor; try done.
  - constructor; cbn.
    + destruct Hs as [S1 S2 S3]. constructor; cbn; congruence.
    + by apply placed_spans.
    + eapply Forall_impl; [exact P2|]. intros p [[s Hp] Hp0]. exists s. cbn. split; [done|].
      rewrite Forall_forall in P1. destruct (P1 s ltac:(by eapply list_elem_of_lookup_2)) as [? ?]. done.
    + eapply Forall_impl; [exact P1|]. cbn. tauto.
    + done.
  - exists c. done.
Qed.

(** ** Every step *)

(** The intermediate states of a calculation. *)
Record run_stages (cal : calendar) (e0 e1 e2 e3 e4 e5 e6 e7 e8 : engine) : Prop := mk_run_stages {
  st_prepare : prepare req rules = Ok (cal, e0);
  st_oncall : onCall req rules cal e0 = Ok e1;
  st_classify : classify_step req rules cal e1 = Ok e2;
  st_accumulate : accumulate req rules e2 = Ok e3;
  st_fixed : fixedAmounts req rules cal e3 = Ok e4;
  st_split : splitShift rules e4 = Ok e5;
  st_rate : regularRate req rules e5 = Ok e6;
  st_reporting : reportingTime req rules cal e6 = Ok e7;
  st_callback : callBack req rules cal e7 = Ok e8
}.

(** The state the pricing steps end in, when the result is made. *)
Lemma nonempty_oncall cal worked os e e1 : Forall nonempty_interval (eng_ivs e) -> on_called rules cal worked os e e1 ->
  Forall nonempty_interval (eng_ivs e1).
Proof.
  intros Hne [(more & -> & Hm & _) _ _ _ _ _]. apply Forall_app. split; [done|]. eapply Forall_impl; [exact Hm|].
  intros iv [[? ?] _]. unfold nonempty_interval. lia.
Qed.

Lemma sized_oncall cal worked os e e1 : sized rules cal e -> on_called rules cal worked os e e1 -> sized rules cal e1.
Proof.
  intros [S1 S2 S3] [_ [[Hl _] _] _ Hp He _]. constructor; rewrite ?Hp, ?He; [done|done|lia].
Qed.

Lemma intervals_nonempty : Forall nonempty_interval (Intervals req).
Proof.
  eapply Forall_impl; [eapply Request_validate_intervals; exact Hreq|]. intros iv. apply Interval_validate_nonempty.
Qed.

End Run.
