(* ===== verification/TimePayLines.v ===== *)
(** What the pay lines of a period say: the numerator of its regular rate is
    the sum of the included lines, through every pricing step. *)

From S2P Require Import Prelude FixedDecimal CivilTime Intervals TimeUnits TimeRules TimeCalendar TimeClassify TimeZones TimeResult TimePay TimePremium TimeCalculate TimePayFacts TimeCalcFacts.

Local Open Scope Z_scope.

(** * The value of lines *)

(** Money-seconds of a timed line and of a fixed amount that count toward the
    regular rate. *)
Definition timed_value (l : PayLine) : Z := if pl_InRegularRate l then pl_Rate l * pl_Seconds l else 0.
Definition fixed_value (l : PayLine) : Z := if pl_InRegularRate l then pl_Amount l * Hour else 0.
Definition sum_lines (f : PayLine -> Z) (ls : list PayLine) : Z := foldr (fun l acc => f l + acc) 0 ls.

Lemma sum_lines_app f l k : sum_lines f (l ++ k) = sum_lines f l + sum_lines f k.
Proof. unfold sum_lines. induction l as [|x l IH]; cbn [app foldr]; lia. Qed.

Lemma sum_lines_nonneg f ls : Forall (fun l => 0 <= f l) ls -> 0 <= sum_lines f ls.
Proof. induction 1 as [|l ls Hl _ IH]; cbn; [done|]. fold (sum_lines f ls). lia. Qed.

Section Lines.
  Context {tz : Tzdb} (req : Request) (rules : RuleSet) (cal : calendar).

(** Whether a tag's differential is included. *)
Definition tag_included (tag : string) : bool :=
  bool_decide (Inclusion (diff_Treatment (default zero_differential (RuleSet_differential rules tag))) = Include).

(** A line of straight time or of a differential, before it is priced. *)
Record timed_line (idx : Z) (l : PayLine) : Prop := mk_timed_line {
  tl_period : pl_Period l = idx;
  tl_rate : 0 <= pl_Rate l;
  tl_included : pl_InRegularRate l = if bool_decide (pl_Kind l = LineDifferential) then tag_included (pl_Code l) else true;
  tl_kind : pl_Kind l = LineStraightTime \/ pl_Kind l = LineNonproductive \/ pl_Kind l = LineDifferential;
  tl_seconds : pl_InRegularRate l = true -> 0 < pl_Rate l /\ 0 <= pl_Seconds l
}.

(** A fixed amount. *)
Record fixed_line (idx : Z) (l : PayLine) : Prop := mk_fixed_line {
  fl_period : pl_Period l = idx;
  fl_kind : pl_Kind l ∈ [LineSalary; LinePiece; LineEarning; LineStandby; LineSplitShift];
  fl_amount : pl_InRegularRate l = true -> 0 <= pl_Amount l
}.

(** Without compensatory time every worked hour is paid. *)
Definition all_paid : Prop := Method req <> OvertimePublicCompTime.

(** The invariant of a period until it is priced: the numerator is at least
    the included lines, and exactly those when every hour is paid. *)
Record accrued (ps : periodState) : Prop := mk_accrued {
  ac_timed : Forall (timed_line (periodIndex ps)) (ps_straight ps);
  ac_fixed : Forall (fixed_line (periodIndex ps)) (ps_fixed ps);
  ac_least : sum_lines timed_value (ps_straight ps) + sum_lines fixed_value (ps_fixed ps) <= rrNum ps;
  ac_sum : all_paid -> rrNum ps = sum_lines timed_value (ps_straight ps) + sum_lines fixed_value (ps_fixed ps);
  ac_range : 0 <= rrNum ps <= max_int64
}.

Lemma timed_value_nonneg idx l : timed_line idx l -> 0 <= timed_value l.
Proof. intros [_ Hr _ _ Hs]. unfold timed_value. destruct (pl_InRegularRate l); [|lia]. specialize (Hs eq_refl). nia. Qed.
Lemma fixed_value_nonneg idx l : fixed_line idx l -> 0 <= fixed_value l.
Proof. intros [_ _ Ha]. unfold fixed_value, Hour. destruct (pl_InRegularRate l); [|lia]. specialize (Ha eq_refl). lia. Qed.

Lemma accrued_sums ps : accrued ps -> 0 <= sum_lines timed_value (ps_straight ps) /\ 0 <= sum_lines fixed_value (ps_fixed ps).
Proof.
  intros [Ht Hf _ _ _]. split; apply sum_lines_nonneg; eapply Forall_impl; try eassumption; intros l.
  - apply timed_value_nonneg.
  - apply fixed_value_nonneg.
Qed.

(** Seconds that join a line, or a new line, add their value. *)
Lemma add_seconds_sum idx kind code rate secs inRR rule lines : Forall (timed_line idx) lines ->
  (kind = LineStraightTime \/ kind = LineNonproductive \/ kind = LineDifferential) ->
  inRR = (if bool_decide (kind = LineDifferential) then tag_included code else true) -> 0 < rate -> 0 <= secs ->
  (inRR = true -> sum_lines timed_value lines + rate * secs <= max_int64) ->
  let lines' := add_seconds kind code rate secs (mkPayLine idx kind code secs rate 0 inRR rule) lines in
  Forall (timed_line idx) lines' /\ sum_lines timed_value lines' = sum_lines timed_value lines + (if inRR then rate * secs else 0).
Proof.
  intros Hall Hk HinRR Hr Hs. induction Hall as [|l lines Hl Hall IH]; intros Hmax; cbn [add_seconds].
  { split; [|unfold sum_lines, timed_value; cbn; destruct inRR; lia]. constructor; [|constructor]. constructor; cbn; try done; lia. }
  pose proof (timed_value_nonneg _ _ Hl) as Hv. pose proof (sum_lines_nonneg timed_value lines) as Hrest.
  assert (0 <= sum_lines timed_value lines) as Hr0 by (apply Hrest; eapply Forall_impl; [exact Hall|]; intros x; apply timed_value_nonneg).
  cbn [sum_lines foldr] in Hmax. fold (sum_lines timed_value lines) in Hmax.
  destruct (bool_decide (pl_Kind l = kind)) eqn:E1; cbn [andb].
  1: destruct (bool_decide (pl_Code l = code)) eqn:E2; cbn [andb].
  1: destruct (Z.eqb_spec (pl_Rate l) rate) as [E3|E3].
  2-4: destruct IH as [I1 I2]; [intros E; specialize (Hmax E); lia|]; split; [by constructor|]; cbn [sum_lines foldr];
    fold (sum_lines timed_value lines); fold (sum_lines timed_value (add_seconds kind code rate secs (mkPayLine idx kind code secs rate 0 inRR rule) lines));
    rewrite I2; lia.
  apply bool_decide_eq_true in E1, E2. destruct Hl as [A B C D F].
  assert (Hin : pl_InRegularRate l = inRR) by (rewrite C, E1, E2; done).
  split.
  - constructor; [|done]. constructor; cbn; try done. intros Hi. destruct (F Hi) as [F1 F2]. split; [done|].
    rewrite Hin in Hi. specialize (Hmax Hi). unfold timed_value in Hmax at 1. rewrite Hin, Hi, E3 in Hmax.
    unfold add64. rewrite to_int64_small; [lia|]. unfold min_int64, max_int64 in *. nia.
  - cbn [sum_lines foldr]. fold (sum_lines timed_value lines). unfold timed_value at 1 3. cbn [pl_InRegularRate pl_Rate pl_Seconds].
    rewrite Hin. destruct inRR; [|lia]. specialize (Hmax eq_refl). unfold timed_value in Hmax at 1. rewrite Hin, E3 in Hmax.
    destruct (F Hin) as [F1 F2]. unfold add64. rewrite to_int64_small by (unfold min_int64, max_int64 in *; nia). rewrite E3. lia.
Qed.

(** ** Changes of one period *)

Lemma includeTimed_inv ps rate secs ps' n : accrued ps -> includeTimed ps rate secs = Ok (ps', n) ->
  n = rate * secs /\ 0 <= rate /\ 0 <= secs /\ ps' = with_rrNum ps (rrNum ps + n) /\ rrNum ps + n <= max_int64.
Proof.
  intros [_ _ _ _ Hr] H. unfold includeTimed in H. apply bind_ok_inv in H as (m & Hm & H). apply bind_ok_inv in H as (s & Hs & H).
  injection H as <- <-. apply mulChecked_value in Hm as (-> & H1 & H2 & H3).
  apply addChecked_value in Hs as [-> Hs]; [|unfold int64, min_int64, max_int64 in *; nia|unfold int64, min_int64, max_int64 in *; nia].
  unfold int64 in Hs. repeat split; try done; lia.
Qed.

(** Straight time: the numerator and the line grow together. *)
Lemma accrued_straight ps kind rate secs code comp rule ps' n : accrued ps ->
  (kind = LineStraightTime \/ kind = LineNonproductive) -> (all_paid -> comp = false) -> includeTimed ps rate secs = Ok (ps', n) ->
  accrued (if (0 <? rate) && negb comp then addTimed ps' kind code rate secs true rule else ps').
Proof.
  intros Ha Hk Hc H. pose proof (accrued_sums ps Ha) as [Hn1 Hn2].
  apply includeTimed_inv in H as (-> & H1 & H2 & -> & H3); [|done]. destruct Ha as [A B C C' D].
  destruct (Z.ltb_spec 0 rate); [destruct comp|]; cbn [andb negb].
  - constructor; cbn [rrNum ps_straight ps_fixed with_rrNum]; try done; [nia|intros Hp; by specialize (Hc Hp)|nia].
  - destruct (add_seconds_sum (periodIndex ps) kind code rate secs true rule (ps_straight ps) A) as [L1 L2]; try done; [tauto|..].
    { destruct Hk as [-> | ->]; reflexivity. }
    { intros _. lia. }
    constructor; cbn [rrNum ps_straight ps_fixed addTimed with_straight with_rrNum]; [exact L1|exact B| | |lia];
      change (periodIndex (with_rrNum ps _)) with (periodIndex ps); rewrite L2; [lia|]. intros Hp. rewrite (C' Hp). lia.
  - constructor; cbn [rrNum ps_straight ps_fixed with_rrNum]; try done; [nia| |lia]. intros Hp. rewrite (C' Hp). nia.
Qed.

Lemma accrued_differential ps rate secs tag rule ps' n : accrued ps -> secs <> 0 -> rate <> 0 ->
  (let ps := addTimed ps LineDifferential tag rate secs (tag_included tag) rule in
   if tag_included tag then includeTimed ps rate secs else n ← mulChecked rate secs; Ok (ps, n)) = Ok (ps', n) ->
  accrued ps' /\ n = rate * secs /\ 0 <= n.
Proof.
  intros Ha Hs Hr. pose proof (accrued_sums ps Ha) as [Hn1 Hn2]. cbv zeta. destruct Ha as [A B C C' D].
  assert (Hadd : forall inRR, inRR = tag_included tag -> 0 <= rate -> 0 <= secs -> (inRR = true -> rrNum ps + rate * secs <= max_int64) ->
    let lines := ps_straight (addTimed ps LineDifferential tag rate secs inRR rule) in
    Forall (timed_line (periodIndex ps)) lines /\ sum_lines timed_value lines = sum_lines timed_value (ps_straight ps) + (if inRR then rate * secs else 0)).
  { intros inRR E H1 H2 H3. apply add_seconds_sum; try done; [tauto|lia|]. intros Hi. specialize (H3 Hi). lia. }
  destruct (tag_included tag) eqn:Et; intros H.
  - unfold includeTimed in H. apply bind_ok_inv in H as (m & Hm & H). apply bind_ok_inv in H as (s & Hsum & H).
    injection H as <- <-. apply mulChecked_value in Hm as (-> & H1 & H2 & H3). cbn [rrNum addTimed with_straight] in Hsum.
    apply addChecked_value in Hsum as [-> Hi]; [|unfold int64, min_int64, max_int64 in *; nia|unfold int64, min_int64, max_int64 in *; nia].
    destruct (Hadd true eq_refl H1 H2) as [L1 L2]; [unfold int64 in Hi; lia|]. split; [|split; [done|nia]].
    constructor; cbn [ps_straight ps_fixed rrNum with_rrNum addTimed with_straight] in *; [exact L1|exact B| | |unfold int64 in Hi; nia];
      cbn in L2; rewrite L2; [lia|]. intros Hp. rewrite (C' Hp). lia.
  - apply bind_ok_inv in H as (m & Hm & H). injection H as <- <-. apply mulChecked_value in Hm as (-> & H1 & H2 & H3).
    destruct (Hadd false eq_refl H1 H2) as [L1 L2]; [done|]. split; [|split; [done|nia]].
    constructor; cbn [ps_straight ps_fixed rrNum addTimed with_straight] in *; [exact L1|exact B| | |done];
      cbn in L2; rewrite L2; [lia|]. intros Hp. rewrite (C' Hp). lia.
Qed.

Lemma accrued_fixed ps kind code secs rate amount inRR rule ps' : accrued ps ->
  kind ∈ [LineSalary; LinePiece; LineEarning; LineStandby; LineSplitShift] ->
  addFixed rules ps kind code secs rate amount inRR rule = Ok ps' -> accrued ps'.
Proof.
  intros [A B C C' D] Hk. unfold addFixed. cbv zeta. set (l := mkPayLine _ _ _ _ _ _ _ _).
  assert (Hsum : sum_lines fixed_value (ps_fixed ps ++ [l]) = sum_lines fixed_value (ps_fixed ps) + (if inRR then amount * Hour else 0)).
  { rewrite sum_lines_app. unfold sum_lines at 2. cbn [foldr]. unfold fixed_value at 2. cbn [pl_InRegularRate pl_Amount l]. lia. }
  assert (Hl : (inRR = true -> 0 <= amount) -> Forall (fixed_line (periodIndex ps)) (ps_fixed ps ++ [l])).
  { intros Ha. apply Forall_app. split; [done|]. apply Forall_singleton. by constructor. }
  destruct inRR.
  - unfold include. intros H. apply bind_ok_inv in H as (n & Hn & H). apply bind_ok_inv in H as (s & Hs & H). injection H as <-.
    apply mulChecked_value in Hn as (-> & H1 & H2 & H3). cbn [rrNum with_fixed] in Hs.
    apply addChecked_value in Hs as [-> Hi]; [|unfold int64, min_int64, max_int64, Hour in *; nia|unfold int64, min_int64, max_int64, Hour in *; nia].
    constructor; cbn [rrNum ps_straight ps_fixed with_fixed with_rrNum]; [done|by apply Hl| | |unfold int64, Hour in *; nia]; rewrite Hsum; [lia|].
    intros Hp. rewrite (C' Hp). lia.
  - intros [= <-]. constructor; cbn [rrNum ps_straight ps_fixed with_fixed with_rrNum]; [done|by apply Hl| | |done]; rewrite Hsum; [lia|].
    intros Hp. rewrite (C' Hp). lia.
Qed.

Lemma addFixed_res ps kind code secs rate amount inRR rule ps' : addFixed rules ps kind code secs rate amount inRR rule = Ok ps' ->
  ps_res ps' = ps_res ps.
Proof.
  unfold addFixed, include. cbv zeta. destruct inRR; [|by intros [= <-]]. intros H. apply bind_ok_inv in H as (n & _ & H).
  apply bind_ok_inv in H as (m & _ & H). by injection H as <-.
Qed.

Lemma includeTimed_res ps rate secs ps' n : includeTimed ps rate secs = Ok (ps', n) -> ps_res ps' = ps_res ps.
Proof.
  unfold includeTimed. intros H. apply bind_ok_inv in H as (m & _ & H). apply bind_ok_inv in H as (s & _ & H). by injection H as <- _.
Qed.

(** ** All periods *)

Definition all_accrued (e : engine) : Prop := Forall accrued (eng_periods e).

(** A step that keeps the invariant and what is published of the periods. *)
Definition accruing (e e' : engine) : Prop :=
  all_accrued e -> all_accrued e' /\ map ps_res (eng_periods e') = map ps_res (eng_periods e).

#[export] Instance accruing_refl : Reflexive accruing.
Proof. by intros e. Qed.
#[export] Instance accruing_trans : Transitive accruing.
Proof. intros x y z Hxy Hyz Hx. destruct (Hxy Hx) as [Hy E]. destruct (Hyz Hy) as [Hz E']. split; [done|congruence]. Qed.

Lemma update_accruing {A} e i (f : periodState -> outcome timecalc_err (periodState * A)) (e' : engine) (a : A) :
  (forall ps ps' a, accrued ps -> f ps = Ok (ps', a) -> accrued ps' /\ ps_res ps' = ps_res ps) ->
  update_period e i f = Ok (e', a) -> accruing e e'.
Proof.
  intros Hf H Ha. unfold update_period in H. apply bind_ok_inv in H as (ps & Hps & H). apply bind_ok_inv in H as ([ps' a'] & Hp & H).
  injection H as <- <-. apply at_index_inv in Hps as [_ Hps]. unfold all_accrued in *. cbn. unfold set_index.
  destruct (Hf ps ps' a') as [H1 H2]; [|exact Hp|].
  { rewrite Forall_forall in Ha. apply Ha. by eapply list_elem_of_lookup_2. }
  split; [by apply Forall_insert|]. change (map ps_res) with (fmap (M:=list) ps_res). rewrite list_fmap_insert, H2.
  apply list_insert_id. by rewrite list_lookup_fmap, Hps.
Qed.

Lemma add_earned_accruing e day n e' : add_earned e day n = Ok e' -> accruing e e'.
Proof. intros H Ha. unfold add_earned in H. apply bind_ok_inv in H as (v & _ & H). by injection H as <-. Qed.

Lemma note_accruing e rule params : accruing e (note rules e rule params).
Proof. by intros Ha. Qed.

Lemma differential_accruing e period day p iv tag e' : engine_differential rules e period day p iv tag = Ok e' -> accruing e e'.
Proof.
  intros H. unfold engine_differential in H. cbv zeta in H. apply bind_ok_inv in H as (secs & _ & H). apply bind_ok_inv in H as (rate & _ & H).
  destruct (Z.eqb_spec secs 0) as [|Hs], (Z.eqb_spec rate 0) as [|Hr]; cbn [orb] in H; try (by injection H as <-).
  apply bind_ok_inv in H as ([e1 n] & H1 & H). transitivity e1; [|by eapply add_earned_accruing]. eapply update_accruing; [|exact H1].
  intros ps ps' a Hps Hf. split; [apply (accrued_differential ps rate secs tag _ ps' a Hps Hs Hr Hf)|].
  fold (tag_included tag) in Hf. cbv zeta in Hf. destruct (tag_included tag); [by apply includeTimed_res in Hf|].
  apply bind_ok_inv in Hf as (m & _ & Hf). by injection Hf as <- _.
Qed.

Lemma differentials_accruing period day p iv tags : forall e e', differentials_loop rules period day p iv tags e = Ok e' -> accruing e e'.
Proof.
  induction tags as [|tag tags IH]; intros e e' H; cbn [differentials_loop] in H; [by injection H as <-|].
  apply bind_ok_inv in H as (e1 & H1 & H). transitivity e1; [by eapply differential_accruing|by apply IH].
Qed.

Lemma straightRate_kind iv : (straightRate req rules iv).1 = LineStraightTime \/ (straightRate req rules iv).1 = LineNonproductive
  \/ (straightRate req rules iv).1 = LineRest.
Proof. unfold straightRate. repeat case_match; cbn; tauto. Qed.

Lemma count_reason_accrued ps r c secs : accrued ps -> accrued (count_reason ps r c secs).
Proof. intros []. by constructor. Qed.

Lemma accumulate_piece_accruing e p e' : (all_paid -> p_comp p = false) -> accumulate_piece req rules e p = Ok e' -> accruing e e'.
Proof.
  intros Hc H. unfold accumulate_piece in H. apply bind_ok_inv in H as (s & _ & H). apply bind_ok_inv in H as (iv & _ & H).
  apply bind_ok_inv in H as (period & _ & H). pose proof (straightRate_kind iv) as Hk. destruct (straightRate req rules iv) as [kind rate].
  cbn [fst] in Hk. case_bool_decide as Hrest.
  - apply bind_ok_inv in H as ([e1 u] & H1 & H). injection H as <-. cbn. eapply update_accruing; [|exact H1].
    intros ps ps' a Hps Hf. cbv zeta in Hf. injection Hf as <- _.
    destruct (count_reason_accrued ps (p_reason p) (p_cat p) (p_secs p) Hps). by split; [constructor|].
  - apply bind_ok_inv in H as ([e1 n] & H1 & H). apply bind_ok_inv in H as (e2 & H2 & H). transitivity e2; [|by eapply differentials_accruing].
    transitivity e1; [|by eapply add_earned_accruing]. eapply update_accruing; [|exact H1]. intros ps ps' a Hps Hf. cbv zeta in Hf.
    apply bind_ok_inv in Hf as ([ps1 m] & Hi & Hf). injection Hf as <- _. split.
    + eapply accrued_straight; [|tauto|exact Hc|exact Hi]. by apply count_reason_accrued.
    + apply includeTimed_res in Hi. by destruct (_ && _).
Qed.

Lemma accumulate_accruing pieces : Forall (fun p => all_paid -> p_comp p = false) pieces -> forall e e',
  accumulate_loop req rules pieces e = Ok e' -> accruing e e'.
Proof.
  induction 1 as [|p ps Hp Hall IH]; intros e e' H; cbn [accumulate_loop] in H; [by injection H as <-|].
  apply bind_ok_inv in H as (e1 & H1 & H). transitivity e1; [by eapply accumulate_piece_accruing|by apply IH].
Qed.

(** ** Fixed amounts and the split-shift premium *)

Definition fixed_kinds : list string := [LineSalary; LinePiece; LineEarning; LineStandby; LineSplitShift].

Lemma add_fixed_accruing e i kind code secs rate amount inRR rule e' : kind ∈ fixed_kinds ->
  add_fixed_at rules e i kind code secs rate amount inRR rule = Ok e' -> accruing e e'.
Proof.
  intros Hk H. unfold add_fixed_at in H. apply bind_ok_inv in H as ([e1 u] & H1 & H). injection H as <-. cbn.
  eapply update_accruing; [|exact H1]. intros ps ps' a Hps Hf. apply bind_ok_inv in Hf as (ps1 & Hf & Hr). injection Hr as <- _.
  split; [by eapply accrued_fixed|by eapply addFixed_res].
Qed.

Lemma fixed_if b e i kind code secs rate amount inRR rule e' : kind ∈ fixed_kinds ->
  (if b : bool then add_fixed_at rules e i kind code secs rate amount inRR rule else Ok e) = Ok e' -> accruing e e'.
Proof. intros Hk H. destruct b; [by eapply add_fixed_accruing|by injection H as <-]. Qed.

Lemma earnings_accruing i items : forall e e', earnings_loop rules i items e = Ok e' -> accruing e e'.
Proof.
  induction items as [|it items IH]; intros e e' H; cbn [earnings_loop] in H; [by injection H as <-|].
  destruct (negb _); [by apply IH|]. apply bind_ok_inv in H as (e1 & H1 & H). apply add_fixed_accruing in H1; [|by vm_compute; set_solver].
  transitivity e1; [done|]. transitivity (note rules e1 "EARNING" (earning_params i it)); [apply note_accruing|by apply IH].
Qed.

Lemma fixed_period_accruing earned items i e e' : fixed_period req rules earned items i e = Ok e' -> accruing e e'.
Proof.
  unfold fixed_period. intros H. apply bind_ok_inv in H as (ps & _ & H). apply bind_ok_inv in H as (e1 & H1 & H).
  apply bind_ok_inv in H as (pay & _ & H). apply bind_ok_inv in H as (e2 & H2 & H). apply bind_ok_inv in H as (e3 & H3 & H).
  apply bind_ok_inv in H as (secs & _ & H). apply fixed_if in H1; [|set_solver]. apply fixed_if in H2; [|set_solver].
  apply earnings_accruing in H3. transitivity e1; [done|]. transitivity e2; [done|]. transitivity e3; [done|].
  destruct (_ && _); [|by injection H as <-]. apply bind_ok_inv in H as (a & _ & H). apply add_fixed_accruing in H; [done|set_solver].
Qed.

Lemma fixedAmounts_accruing e e' : fixedAmounts req rules cal e = Ok e' -> accruing e e'.
Proof.
  unfold fixedAmounts. intros H. apply bind_ok_inv in H as (earned & _ & H). revert H. generalize (period_indexes e). intros idx.
  revert e. induction idx as [|i idx IH]; intros e H; cbn [fixed_loop] in H; [by injection H as <-|].
  apply bind_ok_inv in H as (e1 & H1 & H). transitivity e1; [by eapply fixed_period_accruing|by apply IH].
Qed.

Lemma splitShift_accruing e e' : splitShift rules e = Ok e' -> accruing e e'.
Proof.
  unfold splitShift. destruct (ss_Enabled _); [|by intros [= <-]]. generalize (length (eng_segs e)). intros n. generalize (eng_segs e).
  revert e. induction n as [|n IH]; intros e segs H; (destruct segs as [|s segs]; cbn [split_loop] in H; [by injection H as <-|]); [done|].
  destruct (day_gap _ _ _ _) as [gap rest]. apply bind_ok_inv in H as (e1 & H1 & H). transitivity e1; [|by eapply IH].
  unfold split_day in H1. destruct (gap <=? _); [by injection H1 as <-|]. apply bind_ok_inv in H1 as (d & _ & H1).
  apply bind_ok_inv in H1 as (v & _ & H1). apply bind_ok_inv in H1 as (amount & _ & H1). cbv zeta in H1.
  destruct (amount =? 0); [by injection H1 as <-|]. apply bind_ok_inv in H1 as (p & _ & H1). apply add_fixed_accruing in H1; [|set_solver].
  etransitivity; [apply note_accruing|exact H1].
Qed.

(** ** Published periods *)

(** An amount is the rate times the hours, rounded to the declared decimals. *)
Definition priced (l : PayLine) : Prop :=
  amountFor (pl_Rate l) (pl_Seconds l) (PayDecimals rules) (Rounding rules) = Ok (pl_Amount l).

(** A premium: the regular rate times what the factor adds, for the hours. *)
Definition premium_of (idx rr : Z) (kind : string) (secs factor : Z) (ls : list PayLine) : Prop :=
  if secs =? 0 then ls = []
  else exists l, ls = [l] /\ pl_Period l = idx /\ pl_Kind l = kind /\ pl_Seconds l = secs /\ pl_InRegularRate l = false
    /\ scaleRate rr (to_int64 (factor - One)) (RateDecimals rules) (Rounding rules) = Ok (pl_Rate l) /\ priced l.

(** Rest time at the average rate of the other included pay, or the floor. *)
Definition rest_of (idx num worked : Z) (ls : list PayLine) : Prop :=
  ls = [] \/ exists l avg, ls = [l] /\ pl_Period l = idx /\ pl_Kind l = LineRest /\ pl_InRegularRate l = true
    /\ 0 < pl_Seconds l /\ 0 <= pl_Rate l
    /\ rateFor num (to_int64 (worked - pl_Seconds l)) (RateDecimals rules) (Rounding rules) = Ok avg
    /\ pl_Rate l = Z.max avg (RestFloor (PieceRest rules)) /\ priced l.

(** A guarantee for time not worked. *)
Definition guarantee_line (idx : Z) (l : PayLine) : Prop :=
  pl_Period l = idx /\ (pl_Kind l = LineReporting \/ pl_Kind l = LineCallBack) /\ pl_InRegularRate l = false /\ priced l.

(** The regular rate: included pay over hours worked, rounded once. *)
Definition averages (num worked rr : Z) : Prop :=
  if worked <=? 0 then rr = 0
  else let unit_ := unit_pow10 (moneyScale - RateDecimals rules) in
    exists k, rounds (Rounding rules) num (worked * unit_) k /\ 0 <= k /\ (k * unit_ <= max_int64 -> rr = k * unit_).

(** The lines of a published period explain its regular rate and premiums. *)
Record explained (p : PeriodResult) : Prop := mk_explained {
  ex_lines : exists timed fixed rest ot dt guarantees,
    pr_Lines p = timed ++ fixed ++ rest ++ ot ++ dt ++ guarantees
    /\ Forall (fun l => timed_line (pr_Index p) l /\ priced l) timed
    /\ Forall (fixed_line (pr_Index p)) fixed
    /\ (exists num, sum_lines timed_value timed + sum_lines fixed_value fixed <= num
        /\ (all_paid -> num = sum_lines timed_value timed + sum_lines fixed_value fixed)
        /\ rest_of (pr_Index p) num (Worked (pr_Buckets p)) rest
        /\ averages (num + sum_lines timed_value rest) (Worked (pr_Buckets p)) (pr_RegularRate p))
    /\ (if is_method req OvertimeNone then ot = [] /\ dt = []
        else premium_of (pr_Index p) (pr_RegularRate p) LineOvertime
               (b_Overtime (pr_Buckets p) - b_CompTime (pr_Buckets p)) (OvertimeFactor rules) ot
             /\ premium_of (pr_Index p) (pr_RegularRate p) LineDoubleTime (b_DoubleTime (pr_Buckets p)) (DoubleTimeFactor rules) dt)
    /\ Forall (guarantee_line (pr_Index p)) guarantees;
  ex_minimum : is_method req OvertimeFluctuatingWeek = true -> 0 < MinimumWage rules -> 0 < Worked (pr_Buckets p) ->
    MinimumWage rules <= pr_RegularRate p
}.

Lemma price_lines_spec idx lines : Forall (timed_line idx) lines -> forall out, price_lines rules lines = Ok out ->
  Forall (fun l => timed_line idx l /\ priced l) out /\ sum_lines timed_value out = sum_lines timed_value lines.
Proof.
  induction 1 as [|l lines [A B C D F] Hall IH]; intros out H; cbn [price_lines] in H; [by injection H as <-|].
  apply bind_ok_inv in H as (a & Ha & H). apply bind_ok_inv in H as (rest & Hr & H). injection H as <-.
  destruct (IH rest Hr) as [I1 I2]. split.
  - constructor; [|done]. split; [by constructor|exact Ha].
  - unfold sum_lines in *. cbn [foldr]. rewrite I2. reflexivity.
Qed.

Lemma premium_line_spec ps rr kind secs factor ls : premium_line rules ps rr kind secs factor = Ok ls ->
  premium_of (periodIndex ps) rr kind secs factor ls.
Proof.
  unfold premium_line, premium_of. destruct (secs =? 0); [by intros [= <-]|]. intros H. apply bind_ok_inv in H as (rate & Hr & H).
  apply bind_ok_inv in H as (a & Ha & H). injection H as <-. eexists. by repeat split.
Qed.

Lemma rateFor_averages num worked rr : 0 <= num <= max_int64 -> worked <= 172800 * 28 -> RoundingMode_Valid (Rounding rules) = true ->
  0 <= RateDecimals rules <= 4 -> rateFor num worked (RateDecimals rules) (Rounding rules) = Ok rr -> averages num worked rr.
Proof.
  intros Hn Hw Hv Hd. unfold rateFor, averages. destruct (Z.leb_spec worked 0); [by intros [= <-]|]. cbv zeta.
  pose proof (unit_range _ Hd) as Hu. set (unit_ := unit_pow10 _) in *. intros H0.
  assert (Hwu : 0 < worked * unit_ <= max_int64) by (unfold max_int64; nia).
  rewrite to_int64_small in H0 by (unfold min_int64; lia).
  assert (Hq : num * 1 / (worked * unit_) < 2 ^ 64 - 1).
  { pose proof (Z.div_le_upper_bound (num * 1) (worked * unit_) max_int64 ltac:(lia)). unfold max_int64 in *. nia. }
  pose proof (mulDiv_spec num 1 (worked * unit_) (Rounding rules) ltac:(lia) ltac:(lia) Hwu Hq Hv) as HS.
  pose proof (scaled_spec (mulDiv num 1 (worked * unit_) (Rounding rules)) unit_ (num * 1) (worked * unit_) (Rounding rules) ltac:(lia) HS) as HX.
  rewrite H0 in HX. by rewrite Z.mul_1_r in HX.
Qed.

(** The bounds a period's buckets stay in. *)
Definition small_buckets (b : Buckets) : Prop := balanced b /\ Worked b <= 172800 * 28.

Lemma price_period_explained ps ps' notes : rules_ok rules -> accrued ps -> small_buckets (pr_Buckets (ps_res ps)) ->
  price_period req rules ps = Ok (ps', notes) -> explained (ps_res ps') /\ pr_Index (ps_res ps') = periodIndex ps
  /\ pr_Buckets (ps_res ps') = pr_Buckets (ps_res ps).
Proof.
  intros Hr Ha [Hb Hw] H. pose proof (accrued_sums ps Ha) as [Hn1 Hn2]. destruct Ha as [A B C C' D]. destruct Hb as (B1 & B2 & B3 & B4).
  destruct (ok_decimals _ Hr) as [Hrd Hpd]. pose proof (ok_rounding _ Hr) as Hrv.
  unfold price_period in H. cbv zeta in H. apply bind_ok_inv in H as ([[ps1 rest] rnote] & Hrest & H).
  apply bind_ok_inv in H as (rr & Hrr & H). apply bind_ok_inv in H as (earn & _ & H).
  apply bind_ok_inv in H as (u & Hmin & H). apply fail_if_ok in Hmin. apply bind_ok_inv in H as (prem & Hprem & H).
  apply bind_ok_inv in H as (straight & Hst & H). injection H as <- _. cbn [with_res ps_res].
  assert (Hrp : rest_of (periodIndex ps) (rrNum ps) (Worked (pr_Buckets (ps_res ps))) rest
    /\ rrNum ps1 = rrNum ps + sum_lines timed_value rest /\ 0 <= rrNum ps1 <= max_int64
    /\ ps_res ps1 = ps_res ps /\ ps_straight ps1 = ps_straight ps /\ ps_fixed ps1 = ps_fixed ps).
  { unfold rest_pay in Hrest. destruct (Z.ltb_spec 0 (restSecs ps)) as [Hrs|].
    - apply bind_ok_inv in Hrest as (avg & Havg & Hrest). cbv zeta in Hrest. apply bind_ok_inv in Hrest as (a & Hamt & Hrest).
      apply bind_ok_inv in Hrest as ([ps2 n] & Hi & Hrest). injection Hrest as <- <- _. cbn [fst].
      apply includeTimed_inv in Hi as (-> & H1 & H2 & -> & H3); [|by constructor].
      split; [right; eexists _, avg; repeat split; try done|].
      unfold sum_lines, timed_value. cbn. split; [lia|]. split; [nia|done].
    - injection Hrest as <- <- _. split; [by left|]. cbn. split; [lia|done]. }
  destruct Hrp as (R1 & R2 & R3 & R4 & R5 & R6). assert (Hidx : periodIndex ps1 = periodIndex ps) by (unfold periodIndex; by rewrite R4).
  rewrite R4, R5 in *. rewrite R6, Hidx. destruct (price_lines_spec (periodIndex ps) _ A straight Hst) as [P1 P2].
  split; [|done]. constructor; cbn [pr_Lines pr_Index pr_Buckets pr_RegularRate].
  - assert (Hpr : exists ot dt, prem = ot ++ dt /\ (if is_method req OvertimeNone then ot = [] /\ dt = []
        else premium_of (periodIndex ps) rr LineOvertime (b_Overtime (pr_Buckets (ps_res ps)) - b_CompTime (pr_Buckets (ps_res ps))) (OvertimeFactor rules) ot
             /\ premium_of (periodIndex ps) rr LineDoubleTime (b_DoubleTime (pr_Buckets (ps_res ps))) (DoubleTimeFactor rules) dt)).
    { unfold premium_lines in Hprem. destruct (is_method req OvertimeNone); [injection Hprem as <-; by exists [], []|]. cbv zeta in Hprem. rewrite R4 in Hprem.
      apply bind_ok_inv in Hprem as (ot & Hot & Hprem). apply bind_ok_inv in Hprem as (dt & Hdt & Hprem). injection Hprem as <-.
      exists ot, dt. split; [done|]. apply premium_line_spec in Hot, Hdt. rewrite Hidx in *.
      rewrite to_int64_small in Hot by (unfold min_int64, max_int64; lia). done. }
    destruct Hpr as (ot & dt & -> & Hpr). exists straight, (ps_fixed ps), rest, ot, dt, [].
    split; [by rewrite app_nil_r|]. split; [done|]. split; [done|]. rewrite P2. split; [|done].
    exists (rrNum ps). split; [done|]. split; [done|]. split; [done|]. rewrite <- R2. by apply rateFor_averages.
  - intros Hm H1 H2. rewrite Hm in Hmin. cbn [andb] in Hmin. lia.
Qed.

(** ** The loop over the periods *)

(** Periods still to be priced, and priced ones, at their own index. *)
Definition waiting (i : nat) (ps : periodState) : Prop :=
  accrued ps /\ small_buckets (pr_Buckets (ps_res ps)) /\ periodIndex ps = Z.of_nat i.
Definition published (i : nat) (ps : periodState) : Prop :=
  explained (ps_res ps) /\ periodIndex ps = Z.of_nat i.
Definition pricing (idx : list Z) (e : engine) : Prop :=
  forall i ps, eng_periods e !! i = Some ps -> if bool_decide (Z.of_nat i ∈ idx) then waiting i ps else published i ps.

(** The buckets of the periods, and the state around them. *)
Definition same_buckets (e e' : engine) : Prop :=
  map (fun ps => pr_Buckets (ps_res ps)) (eng_periods e') = map (fun ps => pr_Buckets (ps_res ps)) (eng_periods e).

Lemma update_buckets {A} e i (f : periodState -> outcome timecalc_err (periodState * A)) (e' : engine) (a : A) :
  update_period e i f = Ok (e', a) ->
  exists ps ps', 0 <= i /\ eng_periods e !! Z.to_nat i = Some ps /\ f ps = Ok (ps', a)
    /\ e' = with_periods e (<[Z.to_nat i := ps']> (eng_periods e))
    /\ (pr_Buckets (ps_res ps') = pr_Buckets (ps_res ps) -> same_buckets e e').
Proof.
  unfold update_period. intros H. apply bind_ok_inv in H as (ps & Hps & H). apply bind_ok_inv in H as ([ps' a'] & Hp & H).
  injection H as <- <-. apply at_index_inv in Hps as [Hi Hps]. exists ps, ps'. repeat split; try done.
  intros Hb. unfold same_buckets. cbn. unfold set_index.
  change (map (fun ps => pr_Buckets (ps_res ps))) with (fmap (M:=list) (fun ps => pr_Buckets (ps_res ps))).
  rewrite list_fmap_insert, Hb. apply list_insert_id. by rewrite list_lookup_fmap, Hps.
Qed.

Lemma price_loop_published idx : rules_ok rules -> NoDup idx -> forall e e', pricing idx e -> price_loop req rules idx e = Ok e' ->
  pricing [] e' /\ same_buckets e e'.
Proof.
  intros Hr. induction 1 as [|i idx Hi Hnd IH]; intros e e' Hp H; cbn [price_loop] in H; [by injection H as <-|].
  apply bind_ok_inv in H as ([e1 notes] & H1 & H). apply update_buckets in H1 as (ps & ps' & Hi0 & Hps & Hf & -> & Hsame).
  pose proof (Hp _ _ Hps) as Hw. rewrite Z2Nat.id in Hw by done. rewrite bool_decide_eq_true_2 in Hw by (by left).
  destruct Hw as (Ha & Hs & Hidx). destruct (price_period_explained ps ps' notes Hr Ha Hs Hf) as (E1 & E2 & E3).
  destruct (IH (with_trace (with_periods e (<[Z.to_nat i := ps']> (eng_periods e))) (trace e ++ notes)) e') as [I1 I2]; [|exact H|].
  - intros j ps2 Hj. cbn in Hj. apply list_lookup_insert_Some in Hj as [(<- & <- & _)|(Hne & Hj)].
    + rewrite Z2Nat.id by done. rewrite bool_decide_eq_false_2 by done. split; [done|]. unfold periodIndex in *. lia.
    + specialize (Hp _ _ Hj). destruct (bool_decide (Z.of_nat j ∈ idx)) eqn:Hin.
      * apply bool_decide_eq_true in Hin. by rewrite bool_decide_eq_true_2 in Hp by (by right).
      * apply bool_decide_eq_false in Hin. rewrite bool_decide_eq_false_2 in Hp; [done|]. intros [E|?]%elem_of_cons; [|done]. apply Hne. lia.
  - split; [done|]. unfold same_buckets in *. rewrite I2. cbn. by apply Hsame.
Qed.

(** ** Guarantees *)

Lemma explained_guarantee p l : explained p -> guarantee_line (pr_Index p) l ->
  explained (mkPeriodResult (pr_Index p) (pr_StartDate p) (pr_Buckets p) (pr_RegularRate p) (pr_Lines p ++ [l])).
Proof.
  intros [(timed & fixed & rest & ot & dt & gs & E & H1 & H2 & H3 & H4 & H5) Hm] Hg. constructor; [|exact Hm].
  exists timed, fixed, rest, ot, dt, (gs ++ [l]). cbn. split; [by rewrite E, <- !app_assoc|]. split; [done|]. split; [done|].
  split; [done|]. split; [done|]. apply Forall_app. split; [done|]. by apply Forall_singleton.
Qed.

Lemma addGuarantee_published e kind code p secs rate rule e' : kind = LineReporting \/ kind = LineCallBack ->
  pricing [] e -> addGuarantee rules e kind code p secs rate rule = Ok e' -> pricing [] e' /\ same_buckets e e'.
Proof.
  intros Hk Hp H. unfold addGuarantee in H. apply bind_ok_inv in H as (a & Ha & H). apply bind_ok_inv in H as ([e1 u] & H1 & H).
  injection H as <-. cbn [fst]. apply update_buckets in H1 as (ps & ps' & Hi0 & Hps & Hf & -> & Hsame). injection Hf as <- _.
  split; [|by apply Hsame]. intros j ps2 Hj. cbn in Hj. rewrite bool_decide_eq_false_2 by set_solver.
  pose proof (Hp _ _ Hps) as Hpub. rewrite bool_decide_eq_false_2 in Hpub by set_solver. destruct Hpub as [Hex Hidx].
  apply list_lookup_insert_Some in Hj as [(<- & <- & _)|(Hne & Hj)].
  - split; [|exact Hidx]. cbn. apply explained_guarantee; [done|]. unfold periodIndex in Hidx. rewrite Z2Nat.id in Hidx by done.
    split; [cbn; lia|done].
  - specialize (Hp _ _ Hj). by rewrite bool_decide_eq_false_2 in Hp by set_solver.
Qed.

(** A step that only adds guarantees. *)
Definition guaranteeing (e e' : engine) : Prop := pricing [] e -> pricing [] e' /\ same_buckets e e'.

#[export] Instance guaranteeing_refl : Reflexive guaranteeing.
Proof. by intros e. Qed.
#[export] Instance guaranteeing_trans : Transitive guaranteeing.
Proof. intros x y z Hxy Hyz Hx. destruct (Hxy Hx) as [Hy E]. destruct (Hyz Hy) as [Hz E']. split; [done|]. unfold same_buckets in *. congruence. Qed.

Lemma note_guaranteeing e rule params : guaranteeing e (note_for rules e rule params).
Proof. by intros H. Qed.

Lemma reporting_loop_guarantees shs : forall e e', reporting_loop rules cal shs e = Ok e' -> guaranteeing e e'.
Proof.
  induction shs as [|sh shs IH]; intros e e' H; cbn [reporting_loop] in H; [by injection H as <-|].
  apply bind_ok_inv in H as (e1 & H1 & H). transitivity e1; [|by apply IH]. unfold reporting_shift in H1. cbv zeta in H1.
  apply bind_ok_inv in H1 as (p & _ & H1). destruct (negb _); [injection H1 as <-; apply note_guaranteeing|].
  apply bind_ok_inv in H1 as ([g t] & _ & H1). destruct (_ =? 0); [injection H1 as <-; apply note_guaranteeing|].
  apply bind_ok_inv in H1 as (rate & _ & H1). etransitivity; [apply note_guaranteeing|]. intros Hp. eapply addGuarantee_published; [|exact Hp|exact H1]. by left.
Qed.

Lemma call_loop_guarantees evs : forall e e', call_loop rules cal evs e = Ok e' -> guaranteeing e e'.
Proof.
  induction evs as [|ev evs IH]; intros e e' H; cbn [call_loop] in H; [by injection H as <-|].
  apply bind_ok_inv in H as (e1 & H1 & H). transitivity e1; [|by apply IH]. unfold call_back_event in H1. cbv zeta in H1.
  destruct (_ =? 0); [injection H1 as <-; apply note_guaranteeing|]. apply bind_ok_inv in H1 as (p & _ & H1).
  apply bind_ok_inv in H1 as (rate & _ & H1). etransitivity; [apply note_guaranteeing|]. intros Hp. eapply addGuarantee_published; [|exact Hp|exact H1]. by right.
Qed.

Lemma guarantees_guaranteeing e e' e'' : reportingTime req rules cal e = Ok e' -> callBack req rules cal e' = Ok e'' -> guaranteeing e e''.
Proof.
  intros H1 H2. transitivity e'; [by eapply reporting_loop_guarantees|]. unfold callBack in H2.
  destruct (cb_Enabled _); [by eapply call_loop_guarantees|by injection H2 as <-].
Qed.
End Lines.
