(* ===== verification/TimeSound.v ===== *)
(** A whole calculation is sound: it ends in a result or an error, the result
    passes its own recheck, its buckets are the hours the law counts, its lines
    are priced by their rates, and on-call time is counted exactly. *)

From stdpp Require Import sorting.
From S2P Require Import Prelude Sorting FixedDecimal CanonicalBytes CivilTime Intervals Zoned TimeUnits TimeRules TimeCalendar TimeClassify TimeZones TimeResult TimePay TimePremium TimeCalculate TimePayFacts TimeCalcFacts TimePayLines TimeGolden.

Local Open Scope Z_scope.

(** * Validation ends *)

Lemma Treatment_validate_no_panic t : Treatment_validate t <> Panic.
Proof. unfold Treatment_validate. pay_panic. Qed.
Lemma DailyRule_validate_no_panic d : DailyRule_validate d <> Panic.
Proof. unfold DailyRule_validate. pay_panic. Qed.
#[local] Hint Resolve Treatment_validate_no_panic DailyRule_validate_no_panic : panics.

Lemma validate_differentials_no_panic ds : forall seen, validate_differentials seen ds <> Panic.
Proof.
  induction ds as [|d ds IH]; intros seen; cbn [validate_differentials]; [done|].
  apply bind_no_panic; [|intros; apply IH]. unfold validate_differential. pay_panic.
Qed.
Lemma validate_methods_no_panic r : RuleSet_validateMethods r <> Panic.
Proof. unfold RuleSet_validateMethods. pay_panic. Qed.
Lemma validate_premiums_no_panic r : RuleSet_validatePremiums r <> Panic.
Proof. unfold RuleSet_validatePremiums. pay_panic. Qed.
#[local] Hint Resolve validate_differentials_no_panic validate_methods_no_panic validate_premiums_no_panic : panics.

Lemma RuleSet_Validate_no_panic r : RuleSet_Validate r <> Panic.
Proof. unfold RuleSet_Validate. pay_panic. Qed.

Lemma validate_intervals_no_panic req rules ivs : forall before, validate_intervals req rules before ivs <> Panic.
Proof.
  induction ivs as [|iv ivs IH]; intros before_; cbn [validate_intervals]; [done|].
  apply bind_no_panic; [unfold Interval_validate; pay_panic|]. intros u _. apply bind_no_panic; [pay_panic|]. intros v _. apply IH.
Qed.
Lemma single_rate_no_panic ivs : forall rate, single_rate rate ivs <> Panic.
Proof. induction ivs as [|iv ivs IH]; intros rate; cbn [single_rate]; [done|]. apply bind_no_panic; [pay_panic|]. intros u _. apply IH. Qed.
Lemma validate_earnings_no_panic n es : validate_earnings n es <> Panic.
Proof. induction es as [|e es IH]; cbn [validate_earnings]; [done|]. pay_panic. Qed.
#[local] Hint Resolve validate_intervals_no_panic single_rate_no_panic validate_earnings_no_panic : panics.

Lemma Request_validate_no_panic req rules : per_Days (Period rules) <> 0 -> Request_validate req rules <> Panic.
Proof. intros H. unfold Request_validate. replace (per_Days (Period rules) =? 0) with false by lia. pay_panic. Qed.

(** * The recheck of a result *)

Lemma validate_periods_sums ps : Forall (fun p => small_buckets (pr_Buckets p)) ps -> forall b g,
  validate_periods ps b g = Ok (foldl (fun acc p => (plus64 acc.1 (pr_Buckets p), add_amounts acc.2 (pr_Lines p))) (b, g) ps).
Proof.
  induction 1 as [|p ps [(B1 & B2 & B3 & B4) Hw] _ IH]; intros b g; cbn [validate_periods foldl]; [done|].
  unfold add64. rewrite to_int64_add, to_int64_small by (unfold min_int64, max_int64; lia).
  replace (Worked (pr_Buckets p) =? _) with true by lia. replace (b_Overtime (pr_Buckets p) <? _) with false by lia. apply IH.
Qed.

Section Sound.
  Context {tz : Tzdb} {sha : Sha256} (req : Request) (rules : RuleSet).

Lemma engine_result_valid e : Forall (fun ps => small_buckets (pr_Buckets (ps_res ps))) (eng_periods e) ->
  Result_Validate (engine_result req rules e) = Ok tt.
Proof.
  intros Hs. unfold engine_result. destruct (sum_periods _) as [totals gross] eqn:Es. unfold Result_Validate. cbn [r_Periods r_Totals r_GrossPay r_Digest].
  rewrite validate_periods_sums by (by apply Forall_map). unfold sum_periods in Es. rewrite Es. cbn [mbind outcome_bind].
  rewrite bool_decide_eq_true_2, Z.eqb_refl by done. cbn [negb fail_if mbind outcome_bind]. by rewrite bool_decide_eq_true_2.
Qed.

(** * Every step in order *)

Lemma safe_bind_eq {E A B} (m : outcome E A) (k : A -> outcome E B) P Q :
  safe m P -> (forall a, m = Ok a -> P a -> safe (k a) Q) -> safe (m ≫= k) Q.
Proof. destruct m; cbn; auto. Qed.

(** What the classification hands to the pricing. *)
Definition classified_periods (cal : calendar) (e : engine) (c : classified) : Prop :=
  pricing req rules (seqZ 0 (Z.quot (calendar_days cal) (per_Days (Period rules)))) e
  /\ map (fun ps => pr_Buckets (ps_res ps)) (eng_periods e) = e_periods c.

(** The result of a run, in terms of the hours worked. *)
Record run_result (cal : calendar) (c : classified) (e : engine) : Prop := mk_run_result {
  run_pricing : pricing req rules [] e;
  run_buckets : map (fun ps => pr_Buckets (ps_res ps)) (eng_periods e) = e_periods c;
  run_days : map dr_Buckets (eng_days e) = e_days c;
  run_comp : eng_comp e = e_comp c;
  run_small : Forall small_buckets (e_periods c)
}.

Context (Hin : calculation_input rules) (Hv : RuleSet_Validate rules = Ok tt) (Hreq : Request_validate req rules = Ok tt).
Abbreviation L := (per_Days (Period rules)).

Lemma zip_buckets ps bs : length ps = length bs -> map (fun ps => pr_Buckets (ps_res ps)) (zip_with with_buckets ps bs) = bs.
Proof. revert bs. induction ps as [|p ps IH]; intros [|b bs] H; cbn in *; try done. f_equal. apply IH. lia. Qed.

Lemma small_periods cal ivs c : calendar_ok req rules cal -> Forall nonempty_interval ivs -> ~ double_booked ivs ->
  owed req rules cal ivs c -> length (e_periods c) = Z.to_nat (Z.quot (calendar_days cal) L) -> Forall small_buckets (e_periods c).
Proof.
  intros Hco Hne Hnd How Hl. apply Forall_lookup_2. intros i b Hb. pose proof (lookup_lt_Some _ _ _ Hb) as Hi.
  assert (Hq : 0 <= Z.of_nat i < Z.quot (calendar_days cal) L) by lia.
  assert (Eb : bucket_at (e_periods c) (Z.of_nat i) = b) by (unfold bucket_at; rewrite Nat2Z.id, Hb; done).
  split; [|rewrite <- Eb; eapply period_worked_bound; eassumption]. rewrite <- Eb. apply (ow_periods _ _ _ _ _ How _ Hq).
Qed.

(** The new periods of the first step are priced at nothing yet. *)
Lemma fresh_waiting cal (e e1 e2 : engine) : calendar_ok req rules cal ->
  eng_periods e = map (fun p => new_period (pr_Index (ps_res p)) (pr_StartDate (ps_res p))) (eng_periods e) ->
  map periodIndex (eng_periods e) = seqZ 0 (Z.quot (calendar_days cal) L) -> sized rules cal e -> eng_periods e1 = eng_periods e ->
  forall c, eng_periods e2 = zip_with with_buckets (eng_periods e1) (e_periods c) -> length (e_periods c) = Z.to_nat (Z.quot (calendar_days cal) L) ->
  all_accrued req rules e2 /\ map (fun ps => pr_Buckets (ps_res ps)) (eng_periods e2) = e_periods c
    /\ map periodIndex (eng_periods e2) = seqZ 0 (Z.quot (calendar_days cal) L).
Proof.
  intros Hco Hnew Hidx Hs E1 c E2 Hl. assert (Hlen : length (eng_periods e) = length (e_periods c)).
  { pose proof (sz_periods _ _ _ Hs). lia. }
  rewrite E2, E1. split; [|split; [by apply zip_buckets|]].
  - unfold all_accrued. rewrite E2, E1, Hnew. apply Forall_lookup_2. intros i ps Hps.
    apply lookup_zip_with_Some in Hps as (x & b & -> & Hx & Hb). apply list_lookup_fmap_Some_1 in Hx as (p & -> & Hp).
    constructor; cbn; try constructor; try done; lia.
  - rewrite <- Hidx. clear -Hlen. revert Hlen. generalize (e_periods c). induction (eng_periods e) as [|p ps IH]; intros [|b bs] H; cbn in *; try done.
    f_equal. apply IH. lia.
Qed.

(** ** The intervals a calculation classifies *)

(** Time on call that nobody works. *)
Definition engaged_only (t : Z) : Prop :=
  Exists (fun o => engaged rules o = true /\ t_unix (oc_Start o) <= t < t_unix (oc_End o)) (req_OnCall req)
  /\ ~ Exists (fun iv => worked_at iv t) (Intervals req).

(** The request's intervals, and intervals that hold exactly the engaged
    on-call time outside them. *)
Record counted (cal : calendar) (ivs : list Interval) : Prop := mk_counted {
  cnt_ivs : exists more, ivs = Intervals req ++ more /\ Forall (plain_interval cal) more
    /\ forall t, Exists (fun iv => worked_at iv t) more <-> engaged_only t
}.

Lemma covered_spans ivs t : covered (spans_of ivs) t <-> Exists (fun iv => worked_at iv t) ivs.
Proof.
  unfold covered. rewrite !Exists_exists. split.
  - intros (s & Hs & Ht). apply elem_of_spans in Hs as (iv & Hl & E). exists iv. rewrite E in Ht. split; [by eapply list_elem_of_lookup_2|exact Ht].
  - intros (iv & Hi & Ht). apply list_elem_of_lookup in Hi as [i Hi]. exists (mkSpan i (t_unix (iv_Start iv)) (t_unix (iv_End iv))).
    split; [apply elem_of_spans; by exists iv|exact Ht].
Qed.

Lemma on_called_counted cal e e' worked : eng_ivs e = Intervals req ->
  on_called rules cal worked (merge_sort (start_le oc_Start oc_ID) (req_OnCall req)) e e' ->
  (req_OnCall req <> [] -> worked ≡ₚ spans_of (Intervals req)) -> spans_ok worked -> StronglySorted before worked ->
  counted cal (eng_ivs e').
Proof.
  intros E [(more & Hm & Hp & Ht) _ _ _ _ _] Hperm Hok Hs. constructor. exists more. rewrite Hm, E. split; [done|]. split; [done|].
  intros t. rewrite Ht. clear Ht. unfold engaged_only. destruct (decide (req_OnCall req = [])) as [Hn|Hn].
  { rewrite Hn. cbn. rewrite !Exists_nil. tauto. }
  rewrite <- covered_spans.
  assert (Hc : forall o, covered (free_of worked o) t <-> t_unix (oc_Start o) <= t < t_unix (oc_End o) /\ ~ covered (spans_of (Intervals req)) t).
  { intros o. unfold free_of, unworked. destruct (unworked_spec worked (t_unix (oc_Start o)) (t_unix (oc_End o)) Hok Hs) as (_ & _ & U).
    rewrite U. unfold covered at 1. by rewrite (Hperm Hn). }
  rewrite (Exists_exists _ (merge_sort _ _)). setoid_rewrite (merge_sort_Permutation _ (req_OnCall req)). split.
  - intros (o & Hin' & He & Hf). apply Hc in Hf as [Hf Hnw]. split; [|done]. apply Exists_exists. by exists o.
  - intros [Hex Hnw]. apply Exists_exists in Hex as (o & Hin' & He & Ho). exists o. rewrite Hc. done.
Qed.

(** ** The run *)

(** A result with the classification and the run behind it. *)
Record calculated (r : Result) : Prop := mk_calculated {
  cal_run : exists cal ivs c e, newCalendar req L = Ok cal /\ calendar_ok req rules cal /\ counted cal ivs
    /\ engine_classify req rules cal ivs (Z.quot (calendar_days cal) L) = Ok c
    /\ owed req rules cal ivs c /\ comp_owed req rules cal ivs (e_comp c)
    /\ run_result cal c e /\ r = engine_result req rules e
}.

Lemma pricing_start cal e : all_accrued req rules e -> Forall small_buckets (map (fun ps => pr_Buckets (ps_res ps)) (eng_periods e)) ->
  map periodIndex (eng_periods e) = seqZ 0 (Z.quot (calendar_days cal) L) ->
  pricing req rules (seqZ 0 (Z.quot (calendar_days cal) L)) e.
Proof.
  intros Ha Hs Hi i ps Hps. assert (Hidx : periodIndex ps = Z.of_nat i /\ Z.of_nat i < Z.quot (calendar_days cal) L).
  { apply (f_equal (fun l => l !! i)) in Hi. rewrite list_lookup_fmap, Hps in Hi. cbn in Hi. symmetry in Hi. apply lookup_seqZ in Hi. lia. }
  rewrite bool_decide_eq_true_2 by (apply elem_of_seqZ; lia). split; [|split; [|tauto]].
  - unfold all_accrued in Ha. rewrite Forall_forall in Ha. apply Ha. by eapply list_elem_of_lookup_2.
  - rewrite Forall_map, Forall_forall in Hs. apply Hs. by eapply list_elem_of_lookup_2.
Qed.

(** The pricing steps, from a classified state. *)
Lemma pricing_steps_safe cal e c : calendar_ok req rules cal -> ready rules cal e -> all_accrued req rules e ->
  Forall (fun p => all_paid req -> p_comp p = false) (eng_pieces e) ->
  map (fun ps => pr_Buckets (ps_res ps)) (eng_periods e) = e_periods c -> map dr_Buckets (eng_days e) = e_days c -> eng_comp e = e_comp c ->
  map periodIndex (eng_periods e) = seqZ 0 (Z.quot (calendar_days cal) L) -> Forall small_buckets (e_periods c) ->
  safe (e ← accumulate req rules e; e ← fixedAmounts req rules cal e; e ← splitShift rules e; e ← regularRate req rules e;
        e ← reportingTime req rules cal e; callBack req rules cal e) (run_result cal c).
Proof.
  intros Hco Hrd Hacc Hcomp Hb Hd Hc Hidx Hsmall. pose proof Hco as [Hi Hd' Hrem HL Hpos Hlong]. pose proof Hin as [Hz _ _].
  apply RuleSet_Validate_windows in Hv as Hw. apply RuleSet_Validate_ok in Hv as Hr.
  eapply safe_bind_eq; [eapply (accumulate_loop_safe req rules cal HL Hrem Hz Hw); [exact (rd_sized _ _ _ Hrd)|exact (rd_pieces _ _ _ Hrd)]|].
  intros e1 R1 K1. pose proof (kept_ready _ _ _ _ K1 Hrd) as D1. apply (accumulate_accruing req rules) in R1; [|done].
  eapply safe_bind_eq; [eapply (fixedAmounts_safe req rules cal HL Hi Hrem); [exact (rd_sized _ _ _ D1)|exact (rd_ivs _ _ _ D1)]|].
  intros e2 R2 K2. pose proof (kept_ready _ _ _ _ K2 D1) as D2. apply fixedAmounts_accruing in R2.
  eapply safe_bind_eq; [eapply (splitShift_safe rules cal HL Hrem); [exact (rd_sized _ _ _ D2)|exact (rd_days _ _ _ D2)|exact (rd_segs _ _ _ D2)]|].
  intros e3 R3 K3. pose proof (kept_ready _ _ _ _ K3 D2) as D3. apply (splitShift_accruing req) in R3.
  assert (HA : accruing req rules e e3) by (do 2 (etransitivity; [eassumption|]); done). destruct (HA Hacc) as [A3 E3].
  assert (K : kept e e3) by (do 2 (etransitivity; [eassumption|]); done).
  assert (Eb : map (fun ps => pr_Buckets (ps_res ps)) (eng_periods e3) = e_periods c).
  { rewrite <- Hb. rewrite <- (map_map ps_res pr_Buckets), E3. by rewrite map_map. }
  assert (Ei : map periodIndex (eng_periods e3) = seqZ 0 (Z.quot (calendar_days cal) L)).
  { rewrite <- Hidx. unfold periodIndex. rewrite <- (map_map ps_res pr_Index), E3. by rewrite map_map. }
  assert (Hp3 : pricing req rules (seqZ 0 (Z.quot (calendar_days cal) L)) e3) by (apply pricing_start; [done|by rewrite Eb|done]).
  eapply safe_bind_eq; [apply (regularRate_safe req rules cal); exact (rd_sized _ _ _ D3)|].
  intros e4 R4 K4. pose proof (kept_ready _ _ _ _ K4 D3) as D4. unfold regularRate, period_indexes in R4.
  rewrite (sz_periods _ _ _ (rd_sized _ _ _ D3)) in R4. apply (price_loop_published req rules) in R4 as [P4 B4]; [|done|apply NoDup_seqZ|done].
  eapply safe_bind_eq; [apply (guarantees_safe req rules cal HL Hi Hrem e4); exact (rd_sized _ _ _ D4)|].
  intros e5 R5 K5. pose proof (kept_ready _ _ _ _ K5 D4) as D5.
  pose proof (proj2 (guarantees_safe req rules cal HL Hi Hrem e5 (rd_sized _ _ _ D5))) as S6.
  destruct (callBack req rules cal e5) as [e6| |] eqn:R6; cbn [safe] in *; [|done|done].
  destruct (guarantees_guaranteeing req rules cal e4 e5 e6 R5 R6 P4) as [P6 B6].
  assert (K' : kept e e6) by (do 2 (etransitivity; [eassumption|]); by etransitivity).
  constructor; [done| | | |done].
  - unfold same_buckets in *. congruence.
  - by rewrite (kept_days _ _ K').
  - by rewrite (kept_comp _ _ K').
Qed.

Lemma bind_assoc {E A B C} (m : outcome E A) (f : A -> outcome E B) (g : B -> outcome E C) :
  (x ← m; (y ← f x; g y)) = (y ← (x ← m; f x); g y).
Proof. by destruct m. Qed.

Lemma calculate_safe : safe (Calculate req rules) calculated.
Proof.
  unfold Calculate. rewrite Hv, Hreq. cbn [mbind outcome_bind].
  eapply safe_bind_eq; [by apply prepare_safe|]. intros [cal e0] R0 (Hco & S0 & St0 & _ & Hnew & Hidx & _ & _). cbn [fst snd] in *.
  pose proof Hco as [Hi Hd Hrem HL Hpos Hlong].
  eapply safe_bind_eq; [by apply onCall_safe; [..|eapply intervals_nonempty|]|]. cbn beta. intros e1 R1 (worked & Hon & Hperm & Hok & Hs).
  eapply safe_bind_eq; [apply (classify_step_safe req rules Hin Hv Hreq cal e1 Hco)|].
  { eapply sized_oncall; [|exact Hon]. destruct S0. by constructor. }
  { eapply nonempty_oncall; [|exact Hon]. cbn. by eapply intervals_nonempty. }
  intros e2 R2 [D2 I2 _ _ _ (c & Hc & Hpl & How & Hco' & Hnd & Hsegs & Hpieces & Hcomp & Hdays & Hper)].
  assert (Hne : Forall nonempty_interval (eng_ivs e1)) by (eapply nonempty_oncall; [|exact Hon]; cbn; by eapply intervals_nonempty).
  assert (Hsmall : Forall small_buckets (e_periods c)) by (eapply small_periods; try done; apply (pl_periods _ _ _ _ _ Hpl)).
  destruct (fresh_waiting cal e0 e1 e2 Hco Hnew Hidx S0 (onc_periods _ _ _ _ _ _ Hon) c Hper (pl_periods _ _ _ _ _ Hpl)) as (A2 & B2 & X2).
  rewrite !bind_assoc. eapply safe_bind; [rewrite <- !bind_assoc; apply (pricing_steps_safe cal e2 c); try done|].
  { rewrite Hpieces. eapply Forall_impl; [|]. 2: { intros p Hp. exact Hp. }
    apply Forall_forall. intros p Hp Hall. pose proof (pl_comp _ _ _ _ _ Hpl Hall) as Hf. rewrite Forall_forall in Hf. by apply Hf. }
  intros e6 Hr. cbn [safe]. constructor. exists cal, (eng_ivs e1), c, e6.
  split. { unfold prepare in R0. apply bind_ok_inv in R0 as (cal' & Hcal & R0). ok_inv. by simplify_eq. }
  split; [done|]. split; [by apply (on_called_counted cal (with_oncall e0 (Intervals req) (standby e0)) e1 worked)|].
  split; [done|]. split; [done|]. split; [done|]. by split.
Qed.

End Sound.

(** * On-call time *)

Section OnCallExact.
  Context {tz : Tzdb} (req : Request) (rules : RuleSet) (cal : calendar).

(** A second that no interval of the request covers. *)
Definition idle (t : Z) : bool :=
  negb (existsb (fun iv => (t_unix (iv_Start iv) <=? t) && (t <? t_unix (iv_End iv))) (Intervals req)).

(** The idle seconds of an on-call period in an overtime period, and those of
    every period whose waiting is not work. *)
Definition idle_in (o : OnCallPeriod) (q : Z) : Z :=
  seconds_in idle (Z.max (t_unix (oc_Start o)) (bound_at cal (q * per_Days (Period rules))))
    (Z.min (t_unix (oc_End o)) (bound_at cal ((q + 1) * per_Days (Period rules)))).
Definition standby_owed (q : Z) : Z :=
  foldr (fun o acc => (if engaged rules o then 0 else idle_in o q) + acc) 0 (req_OnCall req).

(** On-call periods that do not overlap. *)
Definition apart (o p : OnCallPeriod) : Prop := t_unix (oc_End o) <= t_unix (oc_Start p) \/ t_unix (oc_End p) <= t_unix (oc_Start o).
(** A second of waiting that is not work. *)
Definition waiting_at (os : list OnCallPeriod) (t : Z) : bool :=
  existsb (fun o => negb (engaged rules o) && ((t_unix (oc_Start o) <=? t) && (t <? t_unix (oc_End o)))) os.
(** The idle seconds of an overtime period in which the worker waits. *)
Definition idle_waiting (q : Z) : Z :=
  seconds_in (fun t => idle t && waiting_at (req_OnCall req) t) (bound_at cal (q * per_Days (Period rules))) (bound_at cal ((q + 1) * per_Days (Period rules))).

(** Periods that do not overlap are counted once. *)
Lemma standby_owed_once q : ForallOrdPairs apart (req_OnCall req) -> standby_owed q = idle_waiting q.
Proof.
  unfold standby_owed, idle_waiting. induction 1 as [|o os Ho _ IH]; cbn [foldr].
  { rewrite (seconds_ext _ (fun _ => false)) by (intros; cbn; apply andb_false_r).
    rewrite (seconds_prefix _ (bound_at cal (q * per_Days (Period rules)))); [lia|]. intros t Ht. lia. }
  rewrite IH. clear IH. destruct (engaged rules o) eqn:Ee.
  { rewrite Z.add_0_l. apply seconds_ext. intros t _. cbn [waiting_at existsb]. rewrite Ee. done. }
  unfold idle_in. rewrite <- (seconds_window idle). rewrite <- seconds_or.
  - apply seconds_ext. intros t _. cbn [waiting_at existsb]. rewrite Ee. cbn [negb andb]. fold (waiting_at os t).
    destruct (idle t), (_ && _), (waiting_at os t); done.
  - intros t H. apply andb_true_iff in H as [_ H]. destruct (waiting_at os t) eqn:Ew; [|apply andb_false_r]. exfalso.
    unfold waiting_at in Ew. apply existsb_exists in Ew as (p & Hp & Ep). rewrite Forall_forall in Ho. apply list_elem_of_In in Hp.
    destruct (Ho p Hp); lia.
Qed.

Lemma idle_spec t : idle t = true <-> ~ covered (spans_of (Intervals req)) t.
Proof.
  rewrite covered_spans. unfold idle. rewrite negb_true_iff, <- not_true_iff_false, existsb_exists, Exists_exists.
  apply not_iff_compat. unfold worked_at. split; intros (iv & Hi & Ht); exists iv; (split; [by apply list_elem_of_In|]); lia.
Qed.

(** The overlaps of ordered spans with a window count the seconds they cover. *)
Lemma overlaps_seconds P b : forall l a, spans_ok l -> StronglySorted before l ->
  (forall t, a <= t < b -> P t = true <-> covered l t) ->
  foldr (fun g acc => overlap (sp_start g) (sp_end g) a b + acc) 0 l = seconds_in P a b.
Proof.
  induction l as [|g l IH]; intros a Hok Hs HP; cbn [foldr].
  { destruct (Z.le_gt_cases b a); [by rewrite seconds_empty|]. rewrite (seconds_prefix _ a); [lia|]. intros t Ht. specialize (HP t Ht).
    unfold covered in HP. rewrite Exists_nil in HP. destruct (P t); [tauto|lia]. }
  inversion Hok as [|? ? Hg Hok']; subst. inversion Hs as [|? ? Hs' Hb]; subst.
  assert (Hov : forall m, (m = a \/ sp_end g = m \/ (b <= m /\ b <= sp_end g)) -> a <= m ->
    foldr (fun g acc => overlap (sp_start g) (sp_end g) a b + acc) 0 l = foldr (fun g acc => overlap (sp_start g) (sp_end g) m b + acc) 0 l).
  { intros m Hm Ham. clear -Hb Hm Ham. induction Hb as [|x l Hx Hb IH]; cbn [foldr]; [done|]. rewrite IH. f_equal. unfold before in Hx.
    unfold overlap. repeat case_match; lia. }
  destruct (Z.le_gt_cases b a) as [Hba|Hab].
  { rewrite seconds_empty by done. rewrite (IH a Hok' Hs') by lia. rewrite seconds_empty by done. unfold overlap. case_match; lia. }
  set (m1 := Z.max a (Z.min b (sp_start g))). set (m2 := Z.max a (Z.min b (sp_end g))).
  rewrite (seconds_split P a m1 b), (seconds_split P m1 m2 b) by lia. rewrite (Hov m2) by lia. rewrite (IH m2 Hok' Hs').
  2: { intros t Ht. rewrite HP, covered_cons by lia. unfold span_has. split; [intros [?|?]; [lia|done]|by right]. }
  rewrite (seconds_prefix P a m1 a), (seconds_prefix P m2 m2 m1); [unfold overlap; case_match; lia|..].
  - intros t Ht. replace (t <? m2) with true by lia. apply HP; [lia|]. apply covered_cons. left. unfold span_has. lia.
  - intros t Ht. replace (t <? a) with false by lia. apply not_true_iff_false. rewrite HP, covered_cons by lia. unfold span_has.
    intros [?|Hc]; [lia|]. pose proof (covered_after g l t Hb Hc). lia.
Qed.

Lemma idle_free worked o q : worked ≡ₚ spans_of (Intervals req) -> spans_ok worked -> StronglySorted before worked ->
  spans_in rules cal (free_of worked o) q = idle_in o q.
Proof.
  intros Hp Hok Hs. unfold spans_in, in_period_of, idle_in, free_of, unworked.
  destruct (unworked_spec worked (t_unix (oc_Start o)) (t_unix (oc_End o)) Hok Hs) as (U1 & U2 & U3). cbv zeta in *.
  set (free := unworked_loop _ _ worked) in *.
  rewrite <- (overlaps_seconds idle _ free); [|eapply Forall_impl; [exact U1|]; cbn; lia|done|].
  - clear -U1. induction U1 as [|g l Hg Hl IH]; cbn [foldr]; [done|]. rewrite IH. f_equal. unfold overlap. repeat case_match; lia.
  - intros t Ht. rewrite idle_spec, U3. unfold covered at 2. rewrite Hp. fold (covered (spans_of (Intervals req)) t). intuition lia.
Qed.

End OnCallExact.

(** * Properties *)

Lemma sum_permutation {A} (f : A -> Z) l k : l ≡ₚ k -> foldr (fun o acc => f o + acc) 0 l = foldr (fun o acc => f o + acc) 0 k.
Proof. induction 1; cbn [foldr]; lia. Qed.

Lemma standby_of_owed {tz : Tzdb} req rules cal worked q : worked ≡ₚ spans_of (Intervals req) -> spans_ok worked -> StronglySorted before worked ->
  forall os, standby_of rules cal worked os q = foldr (fun o acc => (if engaged rules o then 0 else idle_in req rules cal o q) + acc) 0 os.
Proof.
  intros Hp Hok Hs os. unfold standby_of. induction os as [|o os IH]; cbn [foldr]; [done|]. rewrite IH. f_equal.
  destruct (engaged rules o); [done|]. by apply idle_free.
Qed.

(** Why [onCall] refuses a request. *)
Definition oncall_refused (req : Request) (rules : RuleSet) (cal : calendar) (x : timecalc_err) : Prop :=
  (x = ErrOverlap /\ double_booked (Intervals req))
  \/ (x = ErrOutsidePeriod /\ Exists (fun o => t_unix (oc_Start o) < bound_at cal 0 \/ bound_at cal (calendar_days cal) < t_unix (oc_End o)) (req_OnCall req))
  \/ (x = ErrInvalidRequest /\ Exists (fun o => engaged rules o = true /\ oc_Rate o = 0) (req_OnCall req)).

Lemma at_index_not_err {A} (l : list A) i (x : timecalc_err) : at_index l i <> Err x.
Proof. unfold at_index. repeat case_match; done. Qed.

Lemma standby_parts_not_err rules cal free : forall st x, standby_parts rules cal free st <> Err x.
Proof.
  assert (Hl : forall fuel t stop st x, standby_loop rules cal fuel t stop st <> Err x).
  { induction fuel as [|n IH]; intros t stop st x; cbn [standby_loop]; (destruct (t <? stop); [|done]); [done|].
    intros [H|(p & _ & H)]%bind_err_inv; [by destruct (_ =? 0)|]. apply bind_err_inv in H as [H|(b & _ & H)]; [by apply at_index_not_err in H|].
    apply bind_err_inv in H as [H|(v & _ & H)]; [by apply at_index_not_err in H|]. by apply IH in H. }
  induction free as [|g free IH]; intros st x; cbn [standby_parts]; [done|]. intros [H|(st' & _ & H)]%bind_err_inv; [by apply Hl in H|by apply IH in H].
Qed.

Lemma oncall_loop_err {tz : Tzdb} req rules cal lo hi worked x : forall os e, oncall_loop req rules cal lo hi worked os e = Err x ->
  (x = ErrOutsidePeriod /\ Exists (fun o => t_unix (oc_Start o) < lo \/ hi < t_unix (oc_End o)) os)
  \/ (x = ErrInvalidRequest /\ Exists (fun o => engaged rules o = true /\ oc_Rate o = 0) os).
Proof.
  induction os as [|o os IH]; intros e H; cbn [oncall_loop] in H; [done|]. apply bind_err_inv in H as [H|(e1 & _ & H)].
  2: { destruct (IH e1 H) as [[? ?]|[? ?]]; [left|right]; (split; [done|by right]). }
  unfold oncall_period in H. apply bind_err_inv in H as [H|(u & _ & H)].
  { destruct (_ || _) eqn:Eb in H; [|done]. injection H as <-. left. split; [done|]. left. lia. }
  destruct (OnCallRule_classify (OnCall rules) (oc_Restrictions o)) as [eng why] eqn:Ec. apply bind_err_inv in H as [H|(e1 & _ & H)]; [|done].
  destruct eng.
  - apply bind_err_inv in H as [H|(more & _ & H)]; [|done]. unfold engagedIntervals in H. cbv zeta in H.
    apply bind_err_inv in H as [H|(v & _ & H)]; [|done]. destruct (_ && _ && _) eqn:Eb in H; [|done]. injection H as <-.
    right. split; [done|]. left. split; [unfold engaged; by rewrite Ec|]. destruct (is_method req OvertimeFluctuatingWeek); [by rewrite andb_false_r in Eb|].
    apply andb_true_iff in Eb as [Eb _]. apply andb_true_iff in Eb as [Eb _]. by apply Z.eqb_eq.
  - apply bind_err_inv in H as [H|(st & _ & H)]; [by apply standby_parts_not_err in H|done].
Qed.

Lemma onCall_err {tz : Tzdb} req rules cal e x : Forall nonempty_interval (Intervals req) -> onCall req rules cal e = Err x -> oncall_refused req rules cal x.
Proof.
  intros Hne. unfold onCall, oncall_refused. case_bool_decide; [done|]. pose proof (orderSpans_spec (Intervals req) Hne) as HO.
  intros [H1|(worked & H1 & Hr)]%bind_err_inv; [rewrite H1 in HO; by left|]. right.
  apply bind_err_inv in Hr as [Hr|(lo & H2 & Hr)]; [by apply at_index_not_err in Hr|].
  apply bind_err_inv in Hr as [Hr|(hi & H3 & Hr)]; [by apply at_index_not_err in Hr|].
  apply at_index_inv in H2 as [_ H2], H3 as [_ H3]. apply oncall_loop_err in Hr. unfold bound_at. rewrite H2, H3. cbn [default].
  rewrite !Exists_exists in Hr. setoid_rewrite (merge_sort_Permutation _ (req_OnCall req)) in Hr. by rewrite !Exists_exists.
Qed.

Lemma run_calculated {tz : Tzdb} {sha : Sha256} req rules r : calculation_input rules -> Calculate req rules = Ok r -> calculated req rules r.
Proof.
  intros Hin E. pose proof E as E'. unfold Calculate in E'. apply bind_ok_inv in E' as ([] & Hv & E'). apply bind_ok_inv in E' as ([] & Hreq & _).
  exact (safe_ok _ _ _ (calculate_safe req rules Hin Hv Hreq) E).
Qed.

Lemma calculate_no_panic {tz : Tzdb} {sha : Sha256} req rules : calculation_input rules -> Calculate req rules <> Panic.
Proof.
  intros Hin. destruct (RuleSet_Validate rules) as [[]| |] eqn:Hv.
  2: { unfold Calculate. by rewrite Hv. }
  2: { by apply RuleSet_Validate_no_panic in Hv. }
  destruct (Request_validate req rules) as [[]| |] eqn:Hreq.
  2: { unfold Calculate. by rewrite Hv, Hreq. }
  2: { apply RuleSet_Validate_ok in Hv as Hr. pose proof (ok_days _ Hr). by apply Request_validate_no_panic in Hreq; [|lia]. }
  pose proof (calculate_safe req rules Hin Hv Hreq) as Hs. intros E. by rewrite E in Hs.
Qed.

(** Los Angeles in winter keeps its zones within a day. *)
Lemma winter_sane loc : @zone_sane winter loc.
Proof. split; intros; cbn; lia. Qed.

Lemma winter_input rules : ct_Cap (CompTime rules) <= 2 ^ 50 -> AccrualFactor (CompTime rules) <= max_int64 -> @calculation_input winter rules.
Proof. intros. constructor; [apply winter_sane|done|done]. Qed.

(** C3: a calculation is total and its result stands.  With zones whose offsets
    stay within a day and a compensatory-time rule in range, [Calculate] never
    panics on any request and rule set, whatever their numbers; a result it
    returns passes its own recheck [Validate], and its day and period buckets
    are the hours the law counts ([owed], [comp_owed]) on the request's
    intervals together with the on-call time that counts as work. *)
Theorem calculation_sound {tz : Tzdb} {sha : Sha256} (req : Request) (rules : RuleSet) : calculation_input rules ->
  match Calculate req rules with
  | Ok r => Result_Validate r = Ok tt
      /\ exists cal ivs c, newCalendar req (per_Days (Period rules)) = Ok cal /\ counted req rules cal ivs
           /\ owed req rules cal ivs c /\ comp_owed req rules cal ivs (r_CompTime r)
           /\ map dr_Buckets (r_Days r) = e_days c /\ map pr_Buckets (r_Periods r) = e_periods c
  | Err _ => True
  | Panic => False
  end.
Proof.
  intros Hin. destruct (Calculate req rules) as [r| |] eqn:E; [|done|by apply (calculate_no_panic req rules Hin)].
  destruct (run_calculated req rules r Hin E) as [(cal & ivs & c & e & H1 & H2 & H3 & _ & H4 & H5 & [P B D C S] & ->)].
  split.
  - apply engine_result_valid. rewrite <- B in S. by rewrite Forall_map in S.
  - exists cal, ivs, c. unfold engine_result. destruct (sum_periods _). cbn [r_CompTime r_Days r_Periods]. rewrite C, D, map_map. done.
Qed.

Lemma calculation_sound_witness :
  @calculation_input winter california
  /\ exists r, @Calculate winter premium_week california stand_in = Ok r /\ @Result_Validate stand_in r = Ok tt.
Proof.
  assert (H : @calculation_input winter california) by (apply winter_input; vm_compute; discriminate). split; [exact H|].
  pose proof (@calculation_sound winter stand_in premium_week california H) as HS.
  destruct (@Calculate winter premium_week california stand_in) as [r|e|] eqn:E; [|exfalso; revert E; vm_compute; discriminate|destruct HS].
  exists r. split; [reflexivity|exact (proj1 HS)].
Defined.

(** what the pay lines say of the regular rate (rest pay and guarantees
    may be absent, and under compensatory time the lines are only a part of
    what the rate divides).  Every line of straight time,
    differential, rest, premium and guarantee is its rate times its hours,
    rounded once; a period's regular rate is the included lines divided by
    the hours worked, rounded once; overtime and double time are paid at what
    their factor adds to that rate; rest at the average of the other included
    pay or the floor; and a fluctuating week is never paid below the minimum
    wage. *)
Theorem calculation_explained {tz : Tzdb} {sha : Sha256} (req : Request) (rules : RuleSet) (r : Result) :
  calculation_input rules -> Calculate req rules = Ok r -> Forall (explained req rules) (r_Periods r).
Proof.
  intros Hin E. destruct (run_calculated req rules r Hin E) as [(cal & ivs & c & e & _ & _ & _ & _ & _ & _ & [P B D C S] & ->)].
  unfold engine_result. destruct (sum_periods _). cbn [r_Periods]. apply Forall_map, Forall_lookup_2. intros i ps Hps.
  specialize (P i ps Hps). rewrite bool_decide_eq_false_2 in P by set_solver. apply P.
Qed.

Lemma calculation_explained_witness :
  exists r, @Calculate winter piece_week fedFLSA stand_in = Ok r /\ Forall (explained piece_week fedFLSA) (r_Periods r).
Proof.
  assert (H : @calculation_input winter fedFLSA) by (apply winter_input; vm_compute; discriminate).
  destruct (@Calculate winter piece_week fedFLSA stand_in) as [r|e|] eqn:E;
    [|exfalso; revert E; vm_compute; discriminate|exfalso; revert E; vm_compute; discriminate].
  exists r. split; [reflexivity|exact (@calculation_explained winter stand_in piece_week fedFLSA r H E)].
Defined.

(** An overtime period is short. *)
Lemma period_length req rules cal q : rules_ok rules -> calendar_ok req rules cal -> 0 <= q < Z.quot (calendar_days cal) (per_Days (Period rules)) ->
  0 <= bound_at cal ((q + 1) * per_Days (Period rules)) - bound_at cal (q * per_Days (Period rules)) <= 172800 * 28.
Proof.
  intros Hr [Hinc Hd Hrem HL _ Hlong] Hq. pose proof (ok_days _ Hr) as Hdays.
  assert (Hn : calendar_days cal = per_Days (Period rules) * Z.quot (calendar_days cal) (per_Days (Period rules))).
  { rewrite <- (Z.add_0_r (_ * _)), <- Hrem. apply Z.quot_rem'. }
  set (lo := q * per_Days (Period rules)).
  assert (Hstep : forall n : nat, lo + Z.of_nat n <= calendar_days cal -> 0 <= bound_at cal (lo + Z.of_nat n) - bound_at cal lo <= 172800 * Z.of_nat n).
  { induction n as [|n IH]; intros Hle; [rewrite Z.add_0_r; lia|].
    pose proof (Hlong (lo + Z.of_nat n)) as H1. pose proof (proj2 Hinc (lo + Z.of_nat n) (lo + Z.of_nat n + 1)) as H2.
    replace (lo + Z.of_nat (S n)) with (lo + Z.of_nat n + 1) by lia. nia. }
  specialize (Hstep (Z.to_nat (per_Days (Period rules)))). rewrite Z2Nat.id in Hstep by lia.
  replace ((q + 1) * per_Days (Period rules)) with (lo + per_Days (Period rules)) by lia. nia.
Qed.

(** C31: on-call time is counted exactly.  After [onCall] the intervals are the
    request's and intervals that hold precisely the seconds of engaged on-call
    periods in which nobody works.  When the on-call periods of the request do
    not overlap, the standby time of an overtime period is its number of
    seconds in which the worker waits in an on-call period that is not work,
    and no interval of the request covers them.  The step refuses only
    double-booked work, an on-call period outside the calculation, or engaged
    time without a rate. *)
Theorem oncall_exact {tz : Tzdb} (req : Request) (rules : RuleSet) (cal : calendar) (e : engine) :
  calculation_input rules -> RuleSet_Validate rules = Ok tt -> Request_validate req rules = Ok tt -> prepare req rules = Ok (cal, e) ->
  match onCall req rules cal e with
  | Ok e' => counted req rules cal (eng_ivs e')
      /\ (ForallOrdPairs apart (req_OnCall req) ->
          forall q, 0 <= q < Z.quot (Days req) (per_Days (Period rules)) -> standby_at (standby e') q = idle_waiting req rules cal q)
  | Err x => oncall_refused req rules cal x
  | Panic => False
  end.
Proof.
  intros Hin Hv Hreq Hp. pose proof (prepare_safe req rules Hin Hv Hreq) as HP. rewrite Hp in HP.
  destruct HP as (Hco & S0 & St0 & Hz & _). cbn [fst snd] in *. pose proof Hco as [Hi Hd Hrem HL Hpos Hlong].
  pose proof (onCall_safe req rules cal HL Hi Hrem e (intervals_nonempty req rules Hreq) St0) as HS.
  destruct (onCall req rules cal e) as [e'|x|] eqn:E; cbn [safe] in HS; [|by apply (onCall_err req rules cal e) in E; [|apply (intervals_nonempty req rules Hreq)]|done]. destruct HS as (worked & Hon & Hperm & Hok & Hs).
  split; [by apply (on_called_counted req rules cal (with_oncall e (Intervals req) (standby e)) e' worked)|].
  intros Hap q Hq. rewrite <- Hd in Hq. destruct Hon as [_ [_ V] _ _ _ _]. rewrite (V q Hq). cbn [standby with_oncall]. rewrite Hz.
  rewrite <- standby_owed_once by done. rewrite <- (to_int64_small (standby_owed req rules cal q)).
  - f_equal. unfold standby_owed. destruct (decide (req_OnCall req = [])) as [Hn|Hn]; [by rewrite Hn|].
    rewrite (standby_of_owed req rules cal worked q (Hperm Hn) Hok Hs). rewrite Z.add_0_l.
    apply sum_permutation, merge_sort_Permutation.
  - rewrite standby_owed_once by done. apply RuleSet_Validate_ok in Hv as Hr. pose proof (period_length req rules cal q Hr Hco Hq) as Hb.
    unfold idle_waiting. match goal with |- context [seconds_in ?P ?u ?v] => pose proof (seconds_bound P u v ltac:(lia)) end.
    unfold min_int64, max_int64. lia.
Qed.

Lemma oncall_exact_witness :
  exists cal e e', @prepare winter premium_week california = Ok (cal, e) /\ onCall premium_week california cal e = Ok e'
  /\ counted premium_week california cal (eng_ivs e') /\ standby_at (standby e') 0 = idle_waiting premium_week california cal 0.
Proof.
  assert (H : @calculation_input winter california) by (apply winter_input; vm_compute; discriminate).
  destruct (@prepare winter premium_week california) as [[cal e]|x|] eqn:E;
    [|exfalso; revert E; vm_compute; discriminate|exfalso; revert E; vm_compute; discriminate].
  pose proof (@oncall_exact winter premium_week california cal e H ltac:(vm_compute; reflexivity) ltac:(vm_compute; reflexivity) E) as HS.
  destruct (onCall premium_week california cal e) as [e'|x|] eqn:Eo;
    [|exfalso; clear HS; vm_compute in E; injection E as <- <-; vm_compute in Eo; discriminate..].
  exists cal, e, e'. split; [reflexivity|]. split; [exact Eo|]. destruct HS as [Hc HS]. split; [exact Hc|]. apply HS.
  - apply FOP_cons; [apply Forall_cons; split; [left; vm_compute; discriminate|apply Forall_nil; exact I]|].
    apply FOP_cons; [apply Forall_nil; exact I|apply FOP_nil].
  - split; [discriminate|vm_compute; reflexivity].
Defined.

(** a night differential counts every second of its window.  In a zone
    whose offset is steady around the span, [windowOverlap] ends and returns
    exactly the seconds of the span whose local minute lies in the daily
    window, windows that wrap past midnight included. *)
Theorem window_exact {tz : Tzdb} (s e : Z) (loc : string) (w : Window) (off : Z) :
  zone_sane loc -> steady loc off s e -> window_ok w -> s <= e -> e - s <= max_int64 ->
  windowOverlap s e loc w = Ok (seconds_in (window_second off w) s e).
Proof.
  intros Hz Hst Hw Hse Hbig. destruct (windowOverlap_total s e loc w Hz ltac:(destruct Hw; lia) Hse) as [v E]. rewrite E. f_equal.
  by apply (windowOverlap_count s e loc w off).
Qed.

(** A shift from 21:00 to 07:00 holds the eight hours from 22:00 to 06:00. *)
Lemma window_exact_witness :
  let s := 20458 * 86400 + 1260 * 60 + 28800 in let w := mkWindow 1320 360 in
  @windowOverlap winter s (s + 36000) la w = Ok (seconds_in (window_second (-28800) w) s (s + 36000))
  /\ seconds_in (window_second (-28800) w) s (s + 36000) = 28800.
Proof.
  cbv zeta. split; [|vm_compute; reflexivity].
  apply (@window_exact winter _ _ la (mkWindow 1320 360) (-28800)).
  - apply winter_sane.
  - split; [lia|]. reflexivity.
  - split; cbn; lia.
  - lia.
  - unfold max_int64. lia.
Defined.
