(* ===== verification/TimeOrder.v ===== *)
(** The result of a calculation does not depend on the order of the request's
    intervals: every step maps the state of a run to the state of the run on
    the reordered intervals, which differs only in the interval list and in
    the interval a segment points to. *)

From stdpp Require Import sorting.
From S2P Require Import Prelude Sorting FixedDecimal CanonicalBytes CivilTime Intervals Zoned TimeUnits TimeRules TimeCalendar TimeClassify TimeZones TimeResult TimePay TimePremium TimeCalculate TimePayFacts TimeCalcFacts TimePayLines TimeGolden TimeSound.

Local Open Scope Z_scope.

(** * Intervals in another order *)

Lemma double_booked_perm ivs ivs' : ivs ≡ₚ ivs' -> double_booked ivs' -> double_booked ivs.
Proof.
  intros Hp (i & j & a & b & t & Hij & Ha & Hb & Wa & Wb). apply Permutation_sym, Permutation_inj in Hp as (_ & f & Hf & Hl).
  exists (f i), (f j), a, b, t. rewrite <- !Hl. split; [|done]. intros E. by apply Hij, Hf.
Qed.

Lemma nonempty_perm ivs ivs' : ivs ≡ₚ ivs' -> Forall nonempty_interval ivs -> Forall nonempty_interval ivs'.
Proof. by intros ->. Qed.

(** Distinct intervals start at distinct instants. *)
Lemma starts_distinct ivs : Forall nonempty_interval ivs -> ~ double_booked ivs -> NoDup (map (fun iv => t_unix (iv_Start iv)) ivs).
Proof.
  intros Hne Hnd. apply NoDup_alt. intros i j t Hi Hj. rewrite list_lookup_fmap in Hi, Hj.
  apply fmap_Some in Hi as (a & Ha & Ea), Hj as (b & Hb & Eb). destruct (decide (i = j)) as [|Hij]; [done|]. exfalso. apply Hnd.
  rewrite Forall_forall in Hne. pose proof (Hne a ltac:(by eapply list_elem_of_lookup_2)). pose proof (Hne b ltac:(by eapply list_elem_of_lookup_2)).
  unfold nonempty_interval in *. exists i, j, a, b, t. unfold worked_at. repeat split; (done || lia).
Qed.

(** ** The same spans, pointing into the reordered list *)

Definition option_before (a b : option Interval) : Prop :=
  match a, b with Some x, Some y => t_unix (iv_End x) <= t_unix (iv_Start y) | _, _ => False end.

Lemma spans_intervals ivs : map (fun s => ivs !! sp_idx s) (spans_of ivs) = map Some ivs.
Proof.
  apply list_eq. intros i. change (map (fun s => ivs !! sp_idx s)) with (fmap (M:=list) (fun s => ivs !! sp_idx s)).
  change (map Some ivs) with (Some <$> ivs). rewrite !list_lookup_fmap.
  destruct (spans_of ivs !! i) as [s|] eqn:E.
  - apply spans_of_lookup in E as (iv & Hl & ->). cbn. by rewrite Hl.
  - cbn. unfold spans_of in E. rewrite list_lookup_imap in E. by destruct (ivs !! i).
Qed.

Lemma ordered_intervals ivs spans : spans ≡ₚ spans_of ivs -> StronglySorted before spans ->
  StronglySorted option_before (map (fun s => ivs !! sp_idx s) spans) /\ map (fun s => ivs !! sp_idx s) spans ≡ₚ map Some ivs.
Proof.
  intros Hp Hs. split; [|rewrite <- spans_intervals; by apply Permutation_map].
  assert (Hall : Forall (fun s => exists iv, ivs !! sp_idx s = Some iv /\ s = mkSpan (sp_idx s) (t_unix (iv_Start iv)) (t_unix (iv_End iv))) spans).
  { apply Forall_forall. intros s Hin. rewrite Hp in Hin. by apply elem_of_spans in Hin. }
  clear Hp. induction Hs as [|s l Hs IH Hb]; cbn [map]; [constructor|]. inversion Hall as [|? ? H1 H2]; subst. constructor; [by apply IH|].
  apply Forall_map. rewrite Forall_forall in Hb, H2. apply Forall_forall. intros x Hx. specialize (Hb x Hx). destruct (H2 x Hx) as (b & Eb & Xb), H1 as (a & Ea & Xa).
  rewrite Ea, Eb. cbn. unfold before in Hb. rewrite Xa, Xb in Hb. done.
Qed.

Section Linked.
  Context (ivs ivs' : list Interval).

Definition span_link (s s' : span) : Prop :=
  ivs !! sp_idx s = ivs' !! sp_idx s' /\ sp_start s = sp_start s' /\ sp_end s = sp_end s'.

Lemma order_linked spans : ivs ≡ₚ ivs' -> Forall nonempty_interval ivs -> orderSpans ivs = Ok spans ->
  exists spans', orderSpans ivs' = Ok spans' /\ Forall2 span_link spans spans' /\ ~ double_booked ivs.
Proof.
  intros Hp Hne E. pose proof (nonempty_perm _ _ Hp Hne) as Hne'. pose proof (orderSpans_spec ivs Hne) as H1. pose proof (orderSpans_spec ivs' Hne') as H2.
  rewrite E in H1. destruct H1 as (P1 & S1 & Hnd). destruct (orderSpans ivs') as [spans'| |]; [|destruct H2 as [_ H2]; by apply double_booked_perm with (ivs := ivs) in H2|done].
  destruct H2 as (P2 & S2 & _). exists spans'. split; [done|]. split; [|done].
  destruct (ordered_intervals ivs spans P1 S1) as [O1 Q1], (ordered_intervals ivs' spans' P2 S2) as [O2 Q2].
  assert (Heq : map (fun s => ivs !! sp_idx s) spans = map (fun s => ivs' !! sp_idx s) spans').
  { apply (StronglySorted_unique_strong option_before); [|done|done|].
    - intros x y Hx Hy Hxy Hyx. destruct x as [a|], y as [b|]; try done. cbn in *. exfalso.
      rewrite Q1 in Hx. rewrite Q2 in Hy. apply list_elem_of_fmap in Hx as (? & [= <-] & Hx), Hy as (? & [= <-] & Hy).
      rewrite Forall_forall in Hne. rewrite Forall_forall in Hne'. specialize (Hne _ Hx). specialize (Hne' _ Hy). unfold nonempty_interval in *. lia.
    - rewrite Q1, Q2. by apply Permutation_map. }
  assert (A1 : Forall (fun s => exists iv, ivs !! sp_idx s = Some iv /\ sp_start s = t_unix (iv_Start iv) /\ sp_end s = t_unix (iv_End iv)) spans).
  { apply Forall_forall. intros s Hin. rewrite P1 in Hin. apply elem_of_spans in Hin as (iv & Hl & Es). exists iv. rewrite Es at 2 3. done. }
  assert (A2 : Forall (fun s => exists iv, ivs' !! sp_idx s = Some iv /\ sp_start s = t_unix (iv_Start iv) /\ sp_end s = t_unix (iv_End iv)) spans').
  { apply Forall_forall. intros s Hin. rewrite P2 in Hin. apply elem_of_spans in Hin as (iv & Hl & Es). exists iv. rewrite Es at 2 3. done. }
  clear -Heq A1 A2. revert spans' Heq A2. induction A1 as [|s l (iv & E1 & E2 & E3) A1 IH]; intros [|s' l'] Heq A2; cbn in Heq; try done.
  injection Heq as Hs Hl. inversion A2 as [|? ? (iv' & F1 & F2 & F3) A2']; subst. constructor; [|by apply IH].
  split; [done|]. rewrite E1, F1 in Hs. injection Hs as <-. split; congruence.
Qed.

Definition seg_link (s s' : segment) : Prop :=
  ivs !! seg_iv s = ivs' !! seg_iv s' /\ seg_day s = seg_day s' /\ seg_start s = seg_start s' /\ seg_end s = seg_end s'.

Lemma split_linked c fuel : forall sp sp' t l, span_link sp sp' -> split_span fuel c sp t = Ok l ->
  exists l', split_span fuel c sp' t = Ok l' /\ Forall2 seg_link l l'.
Proof.
  induction fuel as [|n IH]; intros sp sp' t l (E1 & E2 & E3) H; cbn [split_span] in *; rewrite <- E3;
    (destruct (t <? sp_end sp); [|injection H as <-; by exists []]); [done|].
  apply bind_ok_inv in H as (b & Hb & H). apply bind_ok_inv in H as (rest & Hr & H). injection H as <-. rewrite Hb. cbn [mbind outcome_bind].
  destruct (IH sp sp' _ rest ltac:(done) Hr) as (rest' & -> & Hl). cbn [mbind outcome_bind]. eexists. split; [done|]. by constructor.
Qed.

Lemma segments_linked c spans spans' segs : Forall2 span_link spans spans' -> calendar_segments c spans = Ok segs ->
  exists segs', calendar_segments c spans' = Ok segs' /\ Forall2 seg_link segs segs'.
Proof.
  intros Hl H. unfold calendar_segments in *. apply bind_ok_inv in H as (lo & Hlo & H). apply bind_ok_inv in H as (hi & Hhi & H).
  rewrite Hlo, Hhi. cbn [mbind outcome_bind]. clear Hlo Hhi. revert segs H. induction Hl as [|sp sp' l l' Hsp Hl IH]; intros segs H; cbn [segments_loop] in *.
  { injection H as <-. by exists []. }
  pose proof Hsp as (_ & E2 & E3). rewrite <- E2, <- E3. apply bind_ok_inv in H as (u & -> & H). cbn [mbind outcome_bind].
  apply bind_ok_inv in H as (these & Ht & H). apply bind_ok_inv in H as (rest & Hr & H). injection H as <-.
  destruct (split_linked c _ sp sp' _ these Hsp Ht) as (these' & -> & L1). destruct (IH rest Hr) as (rest' & -> & L2). cbn [mbind outcome_bind].
  eexists. split; [done|]. by apply Forall2_app.
Qed.

(** What the classification reads of a segment. *)
Lemma worked_linked segs segs' : Forall2 seg_link segs segs' -> forall worked, worked_loop segs' worked = worked_loop segs worked.
Proof.
  induction 1 as [|s s' l l' (_ & E1 & E2 & E3) Hl IH]; intros worked; cbn [worked_loop]; [done|]. unfold segment_secs. rewrite E1, E2, E3.
  destruct (at_index worked _); cbn [mbind outcome_bind]; auto.
Qed.

Lemma classify_linked periodLen periodOT plans segs segs' : Forall2 seg_link segs segs' -> forall si st,
  classify_loop periodLen periodOT plans si segs' st = classify_loop periodLen periodOT plans si segs st.
Proof.
  induction 1 as [|s s' l l' (_ & E1 & E2 & E3) Hl IH]; intros si st; cbn [classify_loop]; [done|]. unfold segment_secs. rewrite E1, E2, E3.
  destruct (periodLen =? 0); [done|]. cbv zeta. destruct (at_index plans _); cbn [mbind outcome_bind]; try done.
  destruct (cut_segment _ _ _ _ _ _ _ _); cbn [mbind outcome_bind]; try done.
Qed.

Lemma at_index_linked segs segs' i s : Forall2 seg_link segs segs' -> at_index segs i = Ok s -> exists s', at_index segs' i = Ok s' /\ seg_link s s'.
Proof.
  intros Hl Hs. apply at_index_inv in Hs as [Hi Hs]. destruct (Forall2_lookup_l _ _ _ _ _ Hl Hs) as (s' & Hs' & Hlink). exists s'. split; [|done].
  unfold at_index. replace (i <? 0) with false by lia. by rewrite Hs'.
Qed.

Lemma buckets_linked periodLen segs segs' pieces : Forall2 seg_link segs segs' -> forall days periods out,
  bucket_loop periodLen segs pieces days periods = Ok out -> bucket_loop periodLen segs' pieces days periods = Ok out.
Proof.
  intros Hl. induction pieces as [|p pieces IH]; intros days periods out H; cbn [bucket_loop] in *; [done|].
  apply bind_ok_inv in H as (s & Hs & H). destruct (at_index_linked _ _ _ _ Hl Hs) as (s' & -> & (_ & E1 & _ & _)). cbn [mbind outcome_bind].
  rewrite <- E1. apply bind_ok_inv in H as (b & -> & H). cbn [mbind outcome_bind]. apply bind_ok_inv in H as (q & -> & H). cbn [mbind outcome_bind].
  by apply IH.
Qed.

Lemma gap_linked segs segs' : Forall2 seg_link segs segs' -> forall day prev gap,
  (day_gap day prev gap segs).1 = (day_gap day prev gap segs').1 /\ Forall2 seg_link (day_gap day prev gap segs).2 (day_gap day prev gap segs').2.
Proof.
  induction 1 as [|s s' l l' Hs Hl IH]; intros day prev gap; cbn [day_gap]; [by split; [|constructor]|].
  pose proof Hs as (_ & E1 & E2 & E3). rewrite <- E1, <- E2, <- E3. destruct (seg_day s =? day); [by apply IH|]. split; [done|by constructor].
Qed.

(** ** The classification of reordered intervals *)

Lemma engine_classify_linked req req' rules cal n c : ivs ≡ₚ ivs' -> Forall nonempty_interval ivs ->
  Method req' = Method req -> req_Alternative req' = req_Alternative req -> CompTimeBefore req' = CompTimeBefore req ->
  engine_classify req rules cal ivs n = Ok c ->
  exists segs', Forall2 seg_link (e_segs c) segs'
    /\ engine_classify req' rules cal ivs' n = Ok (mkClassified segs' (e_plans c) (e_pieces c) (e_comp c) (e_days c) (e_periods c)).
Proof.
  intros Hp Hne Hm Ha Hb H. unfold engine_classify in *. apply bind_ok_inv in H as (spans & Hs & H).
  destruct (order_linked spans Hp Hne Hs) as (spans' & -> & L1 & _). cbn [mbind outcome_bind].
  apply bind_ok_inv in H as (segs & Hseg & H). destruct (segments_linked cal spans spans' segs L1 Hseg) as (segs' & -> & L2). cbn [mbind outcome_bind].
  rewrite (worked_linked segs segs' L2). apply bind_ok_inv in H as (worked & -> & H). cbn [mbind outcome_bind]. cbv zeta in *.
  assert (Hpd : forall worked, planDays req' rules worked = planDays req rules worked) by (intros w; unfold planDays; rewrite Ha; apply map_ext; intros d; unfold plan_day; by rewrite Hm).
  unfold classify in *. rewrite Hm, Hb, Hpd, (classify_linked _ _ _ segs segs' L2).
  apply bind_ok_inv in H as (pieces & -> & H). cbn [mbind outcome_bind]. apply bind_ok_inv in H as ([pieces2 comp] & -> & H). cbn [mbind outcome_bind].
  apply bind_ok_inv in H as ([days periods] & Hbk & H). injection H as <-. cbn [e_segs e_plans e_pieces e_comp e_days e_periods].
  rewrite (buckets_linked _ segs segs' pieces2 L2 _ _ _ Hbk). cbn [mbind outcome_bind]. exists segs'. done.
Qed.

End Linked.

(** * The engine on reordered intervals *)

Definition reorder (req : Request) (l : list Interval) : Request :=
  mkRequest (CalculationID req) (req_AggregationKey req) (Method req) (req_Workweek req) (PeriodStart req) (Days req) l (Earnings req)
    (WeeklySalary req) (req_Alternative req) (CompTimeBefore req) (req_OnCall req) (Shifts req).

Section Moved.
  Context {tz : Tzdb} (req : Request) (l' : list Interval) (rules : RuleSet) (cal : calendar).
  Context (ivs ivs' : list Interval) (segs segs' : list segment) (Hlink : Forall2 (seg_link ivs ivs') segs segs').

Definition moved (e : engine) : engine :=
  mkEngine ivs' segs' (eng_pieces e) (eng_plans e) (eng_periods e) (eng_days e) (dayEarn e) (standby e) (premium e) (eng_comp e) (trace e).
Definition home (e : engine) : Prop := eng_ivs e = ivs /\ eng_segs e = segs.

(** A run on the reordered state that ends where the first run ends. *)
Definition follow (m m' : outcome timecalc_err engine) : Prop := forall e, m = Ok e -> home e /\ m' = Ok (moved e).
Definition follow2 {A} (m m' : outcome timecalc_err (engine * A)) : Prop := forall e a, m = Ok (e, a) -> home e /\ m' = Ok (moved e, a).

Lemma follow_ok e : home e -> follow (Ok e) (Ok (moved e)).
Proof. intros H e1 [= <-]. done. Qed.

Lemma follow_bind m m' k k' : follow m m' -> (forall e, home e -> follow (k e) (k' (moved e))) -> follow (m ≫= k) (m' ≫= k').
Proof. intros Hm Hk e H. apply bind_ok_inv in H as (e1 & H1 & H). destruct (Hm e1 H1) as [Hh ->]. exact (Hk e1 Hh e H). Qed.

Lemma follow2_bind {A} (m m' : outcome timecalc_err (engine * A)) k k' : follow2 m m' ->
  (forall e a, home e -> follow (k (e, a)) (k' (moved e, a))) -> follow (m ≫= k) (m' ≫= k').
Proof. intros Hm Hk e H. apply bind_ok_inv in H as ([e1 a] & H1 & H). destruct (Hm e1 a H1) as [Hh ->]. exact (Hk e1 a Hh e H). Qed.

Lemma follow_value {A} (m m' : outcome timecalc_err A) k k' : (forall a, m = Ok a -> m' = Ok a) ->
  (forall a, follow (k a) (k' a)) -> follow (m ≫= k) (m' ≫= k').
Proof. intros Hm Hk e H. apply bind_ok_inv in H as (a & H1 & H). rewrite (Hm a H1). exact (Hk a e H). Qed.

Lemma update_follow {A} e i (f : periodState -> outcome timecalc_err (periodState * A)) : home e ->
  follow2 (update_period e i f) (update_period (moved e) i f).
Proof.
  intros Hh e1 a H. unfold update_period in *. cbn [eng_periods moved]. apply bind_ok_inv in H as (ps & -> & H). cbn [mbind outcome_bind].
  apply bind_ok_inv in H as ([ps' a'] & -> & H). injection H as <- <-. done.
Qed.

Lemma earned_follow e day n : home e -> follow (add_earned e day n) (add_earned (moved e) day n).
Proof. intros Hh e1 H. unfold add_earned in *. cbn [dayEarn moved]. apply bind_ok_inv in H as (v & -> & H). injection H as <-. done. Qed.

Lemma fixed_follow e i kind code secs rate amount inRR rule : home e ->
  follow (add_fixed_at rules e i kind code secs rate amount inRR rule) (add_fixed_at rules (moved e) i kind code secs rate amount inRR rule).
Proof. intros Hh. eapply follow2_bind; [by apply update_follow|]. intros e1 [] H1. by apply follow_ok. Qed.

Lemma if_follow (b : bool) m m' e : (follow m m') -> home e -> follow (if b then m else Ok e) (if b then m' else Ok (moved e)).
Proof. intros Hm Hh. destruct b; [done|by apply follow_ok]. Qed.

(** ** The pricing steps *)

Lemma differential_follow e period day p iv tag : home e ->
  follow (engine_differential rules e period day p iv tag) (engine_differential rules (moved e) period day p iv tag).
Proof.
  intros Hh. unfold engine_differential. cbv zeta. apply follow_value; [done|]. intros secs. apply follow_value; [done|]. intros rate.
  destruct (_ || _); [by apply follow_ok|]. eapply follow2_bind; [by apply update_follow|]. intros e1 n H1. by apply earned_follow.
Qed.

Lemma differentials_follow period day p iv tags : forall e, home e ->
  follow (differentials_loop rules period day p iv tags e) (differentials_loop rules period day p iv tags (moved e)).
Proof.
  induction tags as [|tag tags IH]; intros e Hh; cbn [differentials_loop]; [by apply follow_ok|].
  eapply follow_bind; [by apply differential_follow|exact IH].
Qed.

Lemma accumulate_follow pieces : forall e, home e -> follow (accumulate_loop req rules pieces e) (accumulate_loop req rules pieces (moved e)).
Proof.
  induction pieces as [|p pieces IH]; intros e Hh; cbn [accumulate_loop]; [by apply follow_ok|]. eapply follow_bind; [|exact IH].
  clear IH. intros e1 H. unfold accumulate_piece in *. destruct Hh as [Hi Hs]. rewrite Hi, Hs in H. cbn [eng_ivs eng_segs moved].
  apply bind_ok_inv in H as (s & Hseg & H). destruct (at_index_linked _ _ _ _ _ _ Hlink Hseg) as (s' & -> & (E1 & E2 & E3 & E4)). cbn [mbind outcome_bind].
  apply bind_ok_inv in H as (iv & Hiv & H). rewrite at_index_nat in Hiv |- *. rewrite <- E1, <- E2.
  destruct (ivs !! seg_iv s) as [iv'|]; [|done]. injection Hiv as ->. cbn [mbind outcome_bind]. revert e1 H. fold (follow).
  match goal with |- forall e1, ?m = Ok e1 -> home e1 /\ ?m' = Ok (moved e1) => change (follow m m') end.
  apply follow_value; [done|]. intros period. destruct (straightRate req rules iv) as [kind rate].
  assert (Hh : home e) by done. destruct (bool_decide _).
  - eapply follow2_bind; [by apply update_follow|]. intros e2 [] H2. by apply follow_ok.
  - eapply follow2_bind; [by apply update_follow|]. intros e2 n H2. eapply follow_bind; [by apply earned_follow|]. intros e3 H3.
    by apply differentials_follow.
Qed.

Lemma earnings_follow i items : forall e, home e -> follow (earnings_loop rules i items e) (earnings_loop rules i items (moved e)).
Proof.
  induction items as [|it items IH]; intros e Hh; cbn [earnings_loop]; [by apply follow_ok|]. destruct (negb _); [by apply IH|].
  eapply follow_bind; [by apply fixed_follow|]. intros e1 H1. exact (IH (note rules e1 "EARNING" (earning_params i it)) H1).
Qed.

Lemma fixed_period_follow earned items i e : home e -> follow (fixed_period req rules earned items i e) (fixed_period req rules earned items i (moved e)).
Proof.
  intros Hh. unfold fixed_period. apply follow_value; [done|]. intros ps. eapply follow_bind; [apply if_follow; [by apply fixed_follow|done]|].
  intros e1 H1. apply follow_value; [done|]. intros pay. eapply follow_bind; [apply if_follow; [by apply fixed_follow|done]|].
  intros e2 H2. eapply follow_bind; [by apply earnings_follow|]. intros e3 H3. apply follow_value; [done|]. intros secs.
  destruct (_ && _); [|by apply follow_ok]. apply follow_value; [done|]. intros a. by apply fixed_follow.
Qed.

Lemma fixed_loop_follow earned items idx : forall e, home e -> follow (fixed_loop req rules earned items idx e) (fixed_loop req rules earned items idx (moved e)).
Proof.
  induction idx as [|i idx IH]; intros e Hh; cbn [fixed_loop]; [by apply follow_ok|].
  eapply follow_bind; [by apply fixed_period_follow|exact IH].
Qed.

Lemma split_day_follow day gap e : home e -> follow (split_day rules day gap e) (split_day rules day gap (moved e)).
Proof.
  intros Hh. unfold split_day. destruct (gap <=? _); [by apply follow_ok|]. apply follow_value; [done|]. intros d.
  apply follow_value; [done|]. intros v. apply follow_value; [done|]. intros a. cbv zeta.
  destruct (a =? 0); [exact (follow_ok (note_for rules e "SPLIT_SHIFT" (split_params rules d gap a)) Hh)|]. apply follow_value; [done|]. intros p.
  exact (fixed_follow (note_for rules e "SPLIT_SHIFT" (split_params rules d gap a)) _ _ _ _ _ _ _ _ Hh).
Qed.

Lemma split_loop_follow fuel : forall k k' e, Forall2 (seg_link ivs ivs') k k' -> home e -> follow (split_loop rules fuel k e) (split_loop rules fuel k' (moved e)).
Proof.
  induction fuel as [|n IH]; intros k k' e Hk Hh; (destruct Hk as [|s s' k k' Hs Hk]; cbn [split_loop]; [by apply follow_ok|]); [done|].
  pose proof Hs as (_ & E1 & E2 & E3). rewrite <- E1, <- E3. destruct (gap_linked _ _ _ _ Hk (seg_day s) (seg_end s) 0) as [G1 G2].
  destruct (day_gap _ _ _ k) as [gap rest], (day_gap _ _ _ k') as [gap' rest']. cbn [fst snd] in G1, G2. subst gap'.
  eapply follow_bind; [by apply split_day_follow|]. intros e1 H1. by apply IH.
Qed.

Lemma splitShift_follow e : home e -> follow (splitShift rules e) (splitShift rules (moved e)).
Proof.
  intros Hh. unfold splitShift. destruct (ss_Enabled _); [|by apply follow_ok]. cbn [eng_segs moved]. rewrite (proj2 Hh).
  rewrite <- (Forall2_length _ _ _ Hlink). by apply split_loop_follow.
Qed.

Lemma price_follow idx : forall e, home e -> follow (price_loop req rules idx e) (price_loop req rules idx (moved e)).
Proof.
  induction idx as [|i idx IH]; intros e Hh; cbn [price_loop]; [by apply follow_ok|].
  eapply follow2_bind; [by apply update_follow|]. intros e1 notes H1. exact (IH (with_trace e1 (trace e1 ++ notes)) H1).
Qed.

(** ** Guarantees *)

Lemma guarantee_follow e kind code p secs rate rule : home e ->
  follow (addGuarantee rules e kind code p secs rate rule) (addGuarantee rules (moved e) kind code p secs rate rule).
Proof.
  intros Hh. unfold addGuarantee. apply follow_value; [done|]. intros a. eapply follow2_bind; [by apply update_follow|]. intros e1 [] H1.
  exact (follow_ok (with_premium e1 (add64 (premium e1) secs)) H1).
Qed.

Lemma reporting_follow shs : (forall s t, workedWithin ivs' s t = workedWithin ivs s t) -> forall e, home e ->
  follow (reporting_loop rules cal shs e) (reporting_loop rules cal shs (moved e)).
Proof.
  intros Hw. induction shs as [|sh shs IH]; intros e Hh; cbn [reporting_loop]; [by apply follow_ok|]. eapply follow_bind; [|exact IH]. clear IH.
  unfold reporting_shift. cbv zeta. cbn [eng_ivs moved]. rewrite Hw, (proj1 Hh). apply follow_value; [done|]. intros p.
  destruct (negb _); [by apply (follow_ok (note_for rules e _ _))|]. apply follow_value; [done|]. intros [g t].
  match goal with |- follow (if _ then Ok ?e1 else _) _ => assert (H1 : home e1) by exact Hh end.
  destruct (_ =? 0); [by apply (follow_ok (note_for rules e _ _))|]. apply follow_value; [done|]. intros rate.
  by apply (guarantee_follow (note_for rules e _ _)).
Qed.

Lemma call_loop_follow evs : forall e, home e -> follow (call_loop rules cal evs e) (call_loop rules cal evs (moved e)).
Proof.
  induction evs as [|ev evs IH]; intros e Hh; cbn [call_loop]; [by apply follow_ok|]. eapply follow_bind; [|exact IH]. clear IH.
  unfold call_back_event. cbv zeta. destruct (_ =? 0); [by apply (follow_ok (note_for rules e _ _))|]. apply follow_value; [done|]. intros p.
  apply follow_value; [done|]. intros rate. by apply (guarantee_follow (note_for rules e _ _)).
Qed.

End Moved.

(** * Sums and events over reordered intervals *)

Lemma add64_swap x a b : add64 (add64 x a) b = add64 (add64 x b) a.
Proof. unfold add64. rewrite !to_int64_add. f_equal. lia. Qed.

Lemma workedWithin_perm l l' : l ≡ₚ l' -> forall s t, workedWithin l' s t = workedWithin l s t.
Proof.
  intros Hp s t. unfold workedWithin. generalize 0. induction Hp as [|x l k Hp IH|x y l|l k m Hp1 IH1 Hp2 IH2]; intros z; cbn [foldl]; [done|by apply IH| |].
  - by rewrite add64_swap.
  - by rewrite IH2, IH1.
Qed.

Lemma set_index_comm {A} (l : list A) i j a b : 0 <= i -> 0 <= j -> i <> j -> set_index (set_index l i a) j b = set_index (set_index l j b) i a.
Proof. intros. unfold set_index. apply list_insert_insert_ne. lia. Qed.

Lemma at_set_index {A} (l : list A) i j v w : at_index l i = Ok w -> 0 <= j -> at_index (set_index l i v) j = if i =? j then Ok v else at_index l j.
Proof.
  intros Hi Hj. apply at_index_inv in Hi as [Hi Hl]. unfold at_index, set_index. replace (j <? 0) with false by lia.
  destruct (Z.eqb_spec i j) as [<-|Hne]; [by rewrite list_lookup_insert_eq by (by eapply lookup_lt_Some)|].
  by rewrite list_lookup_insert_ne by lia.
Qed.

(** One turn of the loop over piece earnings. *)
Definition piece_step (rules : RuleSet) (cal : calendar) (iv : Interval) (earned : list Z) : outcome timecalc_err (list Z) :=
  if PieceEarnings iv =? 0 then Ok earned
  else
    let L := per_Days (Period rules) in
    p ← (if L =? 0 then Panic else Ok (Z.quot (calendar_dayOf cal (t_unix (iv_Start iv))) L));
    _ ← fail_if (negb (Z.quot (calendar_dayOf cal (to_int64 (t_unix (iv_End iv) - 1))) L =? p)) ErrInvalidRequest;
    v ← at_index earned p;
    Ok (set_index earned p (add64 v (PieceEarnings iv))).

Lemma piece_loop_step rules cal iv l earned : piece_loop rules cal (iv :: l) earned = (e ← piece_step rules cal iv earned; piece_loop rules cal l e).
Proof.
  cbn [piece_loop]. unfold piece_step. destruct (_ =? 0); [done|]. cbv zeta. destruct (per_Days _ =? 0); [done|]. cbn [mbind outcome_bind].
  destruct (fail_if _ _); cbn [mbind outcome_bind]; try done. by destruct (at_index earned _).
Qed.

Lemma piece_step_swap rules cal x y earned e : (e ← piece_step rules cal x earned; piece_step rules cal y e) = Ok e ->
  (e ← piece_step rules cal y earned; piece_step rules cal x e) = Ok e.
Proof.
  unfold piece_step. destruct (PieceEarnings x =? 0); [destruct (PieceEarnings y =? 0); [done|]|destruct (PieceEarnings y =? 0)].
  1,2: cbn [mbind outcome_bind]; cbv zeta; intros H; repeat (apply bind_ok_inv in H as (? & -> & H); cbn [mbind outcome_bind]); done.
  cbv zeta. destruct (per_Days (Period rules) =? 0); [done|]. cbn [mbind outcome_bind]. set (p := Z.quot (calendar_dayOf cal (t_unix (iv_Start x))) _).
  set (q := Z.quot (calendar_dayOf cal (t_unix (iv_Start y))) _). intros H. apply bind_ok_inv in H as (e1 & H1 & H).
  apply bind_ok_inv in H1 as (u & -> & H1). apply bind_ok_inv in H1 as (v & Hv & H1). injection H1 as <-.
  apply bind_ok_inv in H as (u' & -> & H). apply bind_ok_inv in H as (w & Hw & H). injection H as <-. cbn [mbind outcome_bind].
  assert (Hp : 0 <= p) by (by apply at_index_inv in Hv as [? _]). assert (Hq : 0 <= q) by (by apply at_index_inv in Hw as [? _]).
  rewrite (at_set_index _ _ _ _ _ Hv Hq) in Hw. destruct (Z.eqb_spec p q) as [E|Hne].
  - injection Hw as <-. rewrite <- E, Hv. cbn [mbind outcome_bind]. rewrite (at_set_index _ _ _ _ _ Hv Hp), Z.eqb_refl. cbn [mbind outcome_bind].
    unfold set_index. rewrite !list_insert_insert_eq. by rewrite add64_swap.
  - rewrite Hw. cbn [mbind outcome_bind]. rewrite (at_set_index _ _ _ _ _ Hw Hp). replace (q =? p) with false by lia. rewrite Hv. cbn [mbind outcome_bind].
    by rewrite set_index_comm.
Qed.

Lemma piece_loop_perm rules cal l l' : l ≡ₚ l' -> forall earned e, piece_loop rules cal l earned = Ok e -> piece_loop rules cal l' earned = Ok e.
Proof.
  induction 1 as [|x l k Hp IH|x y l|l k m Hp1 IH1 Hp2 IH2]; intros earned e; [done| | |by auto].
  - rewrite !piece_loop_step. intros H. apply bind_ok_inv in H as (e1 & -> & H). by apply IH.
  - rewrite !piece_loop_step. intros H. apply bind_ok_inv in H as (e1 & H1 & H). rewrite piece_loop_step in H. apply bind_ok_inv in H as (e2 & H2 & H).
    pose proof (piece_step_swap rules cal y x earned e2) as Hs. rewrite H1 in Hs. cbn [mbind outcome_bind] in Hs. specialize (Hs H2).
    apply bind_ok_inv in Hs as (e3 & -> & Hs). cbn [mbind outcome_bind]. rewrite piece_loop_step, Hs. done.
Qed.

(** ** Call-back events *)

Definition call_secs (iv : Interval) : Z := to_int64 (t_unix (iv_End iv) - t_unix (iv_Start iv)).
Definition join_event (iv : Interval) (o : option call_event) : option call_event :=
  Some match o with
       | None => mkCallEvent (CallBackID iv) iv (add64 0 (call_secs iv))
       | Some ev => mkCallEvent (ev_id ev) (if time_After (iv_Start (ev_first ev)) (iv_Start iv) then iv else ev_first ev)
                      (add64 (ev_worked ev) (call_secs iv))
       end.
Definition event_of (id : string) (evs : list call_event) : option call_event := snd <$> list_find (fun ev => ev_id ev = id) evs.

Lemma event_cons id ev evs : event_of id (ev :: evs) = if decide (ev_id ev = id) then Some ev else event_of id evs.
Proof. unfold event_of. cbn. destruct (decide (ev_id ev = id)); [done|]. by destruct (list_find _ evs) as [[]|]. Qed.

Lemma event_id id evs ev : event_of id evs = Some ev -> ev_id ev = id /\ ev ∈ evs.
Proof.
  induction evs as [|x evs IH]; [done|]. rewrite event_cons. destruct (decide _); [intros [= <-]; split; [done|left]|].
  intros H. destruct (IH H). split; [done|by right].
Qed.

Lemma add_event_of iv evs id : event_of id (add_event iv evs) =
  if decide (id = CallBackID iv) then join_event iv (event_of id evs) else event_of id evs.
Proof.
  induction evs as [|ev evs IH]; cbn [add_event].
  - rewrite event_cons. cbn. destruct (decide (CallBackID iv = id)), (decide (id = CallBackID iv)); congruence || done.
  - case_bool_decide as Hid.
    + rewrite !event_cons. cbn [ev_id]. destruct (decide (ev_id ev = id)) as [E|Hne].
      * rewrite decide_True by congruence. done.
      * by rewrite decide_False by congruence.
    + rewrite !event_cons, IH. destruct (decide (ev_id ev = id)) as [E|Hne]; [by rewrite decide_False by congruence|done].
Qed.

Lemma add_event_ids iv evs : ev_id <$> add_event iv evs = (ev_id <$> evs) ++ (if decide (CallBackID iv ∈ ev_id <$> evs) then [] else [CallBackID iv]).
Proof.
  induction evs as [|ev evs IH]; cbn [add_event fmap list_fmap]; [by rewrite decide_False by set_solver|]. case_bool_decide as Hid.
  - cbn. rewrite decide_True by set_solver. by rewrite app_nil_r.
  - cbn. fold (ev_id <$> add_event iv evs). rewrite IH. cbn. f_equal. f_equal. destruct (decide (CallBackID iv ∈ ev_id <$> evs)).
    + by rewrite decide_True by set_solver.
    + by rewrite decide_False by set_solver.
Qed.

Lemma add_event_NoDup iv evs : NoDup (ev_id <$> evs) -> NoDup (ev_id <$> add_event iv evs).
Proof.
  intros H. rewrite add_event_ids. destruct (decide _); [by rewrite app_nil_r|]. apply NoDup_app. split; [done|]. split; [set_solver|apply NoDup_singleton].
Qed.

Definition add_call (evs : list call_event) (iv : Interval) : list call_event := if bool_decide (CallBackID iv = "") then evs else add_event iv evs.

Lemma calls_NoDup l : forall evs, NoDup (ev_id <$> evs) -> NoDup (ev_id <$> foldl add_call evs l).
Proof.
  induction l as [|iv l IH]; intros evs H; cbn [foldl]; [done|]. apply IH. unfold add_call. case_bool_decide; [done|by apply add_event_NoDup].
Qed.

Lemma calls_of l : forall evs id, event_of id (foldl add_call evs l) =
  foldl (fun o iv => if decide (id = CallBackID iv /\ CallBackID iv <> "") then join_event iv o else o) (event_of id evs) l.
Proof.
  induction l as [|iv l IH]; intros evs id; cbn [foldl]; [done|]. rewrite IH. f_equal. unfold add_call. case_bool_decide.
  - by rewrite decide_False by tauto.
  - rewrite add_event_of. destruct (decide (id = CallBackID iv)); [by rewrite decide_True by tauto|by rewrite decide_False by tauto].
Qed.

Lemma join_swap x y o : CallBackID x = CallBackID y -> t_unix (iv_Start x) <> t_unix (iv_Start y) -> join_event y (join_event x o) = join_event x (join_event y o).
Proof.
  intros Hid Hne. unfold join_event. destruct o as [ev|]; cbn [ev_id ev_first ev_worked]; f_equal; f_equal; try done; try apply add64_swap.
  2: destruct (time_After (iv_Start x) (iv_Start y)) eqn:?, (time_After (iv_Start y) (iv_Start x)) eqn:?; try done; exfalso; unfold time_After in *; lia.
  destruct (time_After (iv_Start (ev_first ev)) (iv_Start x)) eqn:Ex, (time_After (iv_Start (ev_first ev)) (iv_Start y)) eqn:Ey; rewrite ?Ex, ?Ey;
    try done; destruct (time_After (iv_Start x) (iv_Start y)) eqn:?, (time_After (iv_Start y) (iv_Start x)) eqn:?; try done; exfalso; unfold time_After in *; lia.
Qed.

Lemma calls_perm id l l' : l ≡ₚ l' -> NoDup (map (fun iv => t_unix (iv_Start iv)) l) -> forall o,
  foldl (fun o iv => if decide (id = CallBackID iv /\ CallBackID iv <> "") then join_event iv o else o) o l =
  foldl (fun o iv => if decide (id = CallBackID iv /\ CallBackID iv <> "") then join_event iv o else o) o l'.
Proof.
  induction 1 as [|x l k Hp IH|x y l|l k m Hp1 IH1 Hp2 IH2]; intros Hnd o; cbn [foldl]; [done|apply IH; by inversion Hnd| |].
  - f_equal. destruct (decide (id = CallBackID x /\ _)) as [[E1 N1]|], (decide (id = CallBackID y /\ _)) as [[E2 N2]|]; try done.
    apply join_swap; [congruence|]. cbn in Hnd. inversion Hnd as [|? ? Hn]; subst. set_solver.
  - rewrite IH1 by done. apply IH2. by rewrite <- Hp1.
Qed.

Lemma call_events_perm l l' : l ≡ₚ l' -> NoDup (map (fun iv => t_unix (iv_Start iv)) l) ->
  sort_by ev_id (call_events l') = sort_by ev_id (call_events l).
Proof.
  intros Hp Hnd. assert (H1 : NoDup (ev_id <$> call_events l)) by (apply (calls_NoDup l []); constructor).
  assert (H2 : NoDup (ev_id <$> call_events l')) by (apply (calls_NoDup l' []); constructor). symmetry. apply sort_by_canonical; [done|].
  apply NoDup_Permutation; [by eapply NoDup_fmap_1|by eapply NoDup_fmap_1|].
  assert (Hof : forall id, event_of id (call_events l) = event_of id (call_events l')).
  { intros id. change (call_events l) with (foldl add_call [] l). change (call_events l') with (foldl add_call [] l'). rewrite !calls_of. by apply calls_perm. }
  assert (Hin : forall evs ev, NoDup (ev_id <$> evs) -> ev ∈ evs <-> event_of (ev_id ev) evs = Some ev).
  { intros evs ev Hd. split; [|intros H; apply (event_id _ _ _ H)]. induction evs as [|x evs IH]; [by intros ?%not_elem_of_nil|].
    cbn in Hd. apply NoDup_cons in Hd as [Hx Hd]. rewrite event_cons. intros [->|Hi]%elem_of_cons; [by rewrite decide_True|].
    rewrite decide_False; [by apply IH|]. intros E. apply Hx. rewrite E. by apply list_elem_of_fmap_2. }
  intros ev. by rewrite !Hin, Hof.
Qed.

(** * Validation of reordered intervals *)

Lemma validate_intervals_iff req rules l : forall before_, validate_intervals req rules before_ l = Ok tt <->
  Forall (fun iv => Interval_validate iv req rules = Ok tt) l /\ NoDup (map iv_ID l) /\ Forall (fun iv => iv_ID iv ∉ map iv_ID before_) l.
Proof.
  induction l as [|iv l IH]; intros before_; cbn [validate_intervals map].
  { split; [|done]. intros _. split; [constructor|]. split; [constructor|constructor]. }
  assert (Hex : existsb (fun other => bool_decide (iv_ID other = iv_ID iv)) before_ = false <-> iv_ID iv ∉ map iv_ID before_).
  { rewrite <- not_true_iff_false, existsb_exists. apply not_iff_compat. rewrite list_elem_of_fmap. split.
    - intros (x & Hx & E). apply bool_decide_eq_true in E. exists x. split; [done|by apply list_elem_of_In].
    - intros (x & E & Hx). exists x. split; [by apply list_elem_of_In|]. by apply bool_decide_eq_true_2. }
  rewrite Forall_cons, NoDup_cons, Forall_cons. split.
  - intros H. apply bind_ok_inv in H as ([] & H1 & H). apply bind_ok_inv in H as ([] & H2 & H). apply fail_if_ok, Hex in H2.
    apply IH in H as (I1 & I2 & I3). rewrite Forall_forall in I3. setoid_rewrite map_app in I3. cbn in I3.
    split; [done|]. split; [split; [|done]|split; [done|]].
    + intros Hin. apply list_elem_of_fmap in Hin as (x & E & Hx). apply (I3 x Hx). set_solver.
    + apply Forall_forall. intros x Hx. specialize (I3 x Hx). set_solver.
  - intros ([H1 I1] & [H2 I2] & [H3 I3]). rewrite H1. cbn [mbind outcome_bind]. rewrite (proj2 Hex H3). cbn [fail_if mbind outcome_bind]. apply IH.
    split; [done|]. split; [done|]. rewrite map_app. cbn. rewrite Forall_forall in I3 |- *. intros x Hx. specialize (I3 x Hx).
    intros [?|E%list_elem_of_singleton]%elem_of_app; [done|]. apply H2. rewrite <- E. by apply list_elem_of_fmap_2.
Qed.

Lemma single_rate_iff l : Forall (fun iv => 0 <= iv_Rate iv) l -> forall rate, 0 <= rate ->
  single_rate rate l = Ok tt <-> exists k, (rate = 0 \/ rate = k) /\ Forall (fun iv => iv_Rate iv = 0 \/ iv_Rate iv = k) l.
Proof.
  induction 1 as [|iv l Hiv Hl IH]; intros rate Hr; cbn [single_rate]; [split; [intros _; exists rate; split; [by right|constructor]|done]|].
  split.
  - intros H. apply bind_ok_inv in H as ([] & H1 & H). apply fail_if_ok in H1. apply IH in H as (k & Hk & Hall); [|lia].
    destruct (Z.eqb_spec rate 0), (Z.eqb_spec (iv_Rate iv) 0), (Z.eqb_spec (iv_Rate iv) rate); cbn in H1; try done; exists (if decide (Z.max rate (iv_Rate iv) = 0) then k else Z.max rate (iv_Rate iv));
      destruct (decide (Z.max rate (iv_Rate iv) = 0)); (split; [lia|]); constructor; try lia; try done; destruct Hk as [?|<-]; try lia; done.
  - intros (k & Hk & Hall). inversion Hall as [|? ? H1 H2]; subst. replace (_ && _ && _) with false; [cbn [fail_if mbind outcome_bind]|].
    + apply IH; [lia|]. exists k. split; [lia|done].
    + destruct (Z.eqb_spec rate 0), (Z.eqb_spec (iv_Rate iv) 0), (Z.eqb_spec (iv_Rate iv) rate); try done; lia.
Qed.

Lemma Interval_validate_rate iv req rules : Interval_validate iv req rules = Ok tt -> 0 <= iv_Rate iv.
Proof. unfold Interval_validate. intros H. ok_inv. bool_inv. lia. Qed.

Lemma Forall_reordered {A} (P : A -> Prop) l l' : l ≡ₚ l' -> Forall P l -> Forall P l'.
Proof. by intros ->. Qed.

Lemma Request_validate_perm req rules l' : Intervals req ≡ₚ l' -> Request_validate req rules = Ok tt -> Request_validate (reorder req l') rules = Ok tt.
Proof.
  intros Hp H. unfold Request_validate in *. cbn [reorder CalculationID req_AggregationKey Method req_Workweek PeriodStart Days Intervals Earnings
    WeeklySalary req_Alternative CompTimeBefore req_OnCall Shifts].
  do 6 (apply bind_ok_inv in H as ([] & -> & H); cbn [mbind outcome_bind]; cbv zeta in * ).
  apply bind_ok_inv in H as ([] & Hv & H). apply validate_intervals_iff in Hv as (V1 & V2 & V3).
  assert (Hv' : validate_intervals (reorder req l') rules [] l' = Ok tt).
  { apply validate_intervals_iff. split; [exact (Forall_reordered _ _ _ Hp V1)|]. split; [|exact (Forall_reordered _ _ _ Hp V3)].
    by rewrite <- (Permutation_map iv_ID Hp). }
  rewrite Hv'. cbn [mbind outcome_bind]. apply bind_ok_inv in H as ([] & Hs & H).
  assert (Hr : Forall (fun iv => 0 <= iv_Rate iv) (Intervals req)) by (eapply Forall_impl; [exact V1|]; intros iv; apply Interval_validate_rate).
  assert (Hs' : (if bool_decide (Method req = OvertimeSingleRate) then single_rate 0 l' else Ok tt) = Ok tt).
  { destruct (bool_decide (Method req = OvertimeSingleRate)); [|done]. apply (single_rate_iff _ Hr) in Hs as (k & Hk & Hall); [|done]. apply (single_rate_iff l'); [exact (Forall_reordered _ _ _ Hp Hr)|done|]. exists k. split; [done|exact (Forall_reordered _ _ _ Hp Hall)]. }
  rewrite Hs'. exact H.
Qed.

Section Whole.
  Context {tz : Tzdb} {sha : Sha256} (req : Request) (rules : RuleSet) (l' : list Interval) (Hp : Intervals req ≡ₚ l').
Abbreviation req' := (reorder req l').

Lemma load_zones_iff l : load_zones l = Ok tt <-> Forall (fun iv => exists z, zones_load (iv_Zone iv) = Ok z) l.
Proof.
  induction l as [|iv l IH]; cbn [load_zones]; [split; [intros _; constructor|done]|]. rewrite Forall_cons, <- IH. split.
  - intros H. apply bind_ok_inv in H as (z & H1 & H). by split; [exists z|].
  - intros [[z ->] H]. done.
Qed.

Lemma prepare_perm out : prepare req rules = Ok out -> prepare req' rules = Ok out.
Proof.
  intros H. unfold prepare in *. apply bind_ok_inv in H as (cal & Hc & H). change (newCalendar req' (per_Days (Period rules))) with (newCalendar req (per_Days (Period rules))).
  rewrite Hc. cbn [mbind outcome_bind]. apply bind_ok_inv in H as ([] & Hz & H). cbn [reorder Intervals]. apply load_zones_iff in Hz. rewrite Hp in Hz.
  apply load_zones_iff in Hz. rewrite Hz. cbn [mbind outcome_bind]. exact H.
Qed.

(** ** On-call time *)

Lemma unworked_linked l k k' : Forall2 (span_link l l') k k' -> forall s e, unworked_loop s e k' = unworked_loop s e k.
Proof.
  induction 1 as [|w w' k k' (_ & E2 & E3) Hk IH]; intros s e; cbn [unworked_loop]; [done|]. rewrite E2, E3. by rewrite !IH.
Qed.

Lemma oncall_loop_moved cal lo hi worked worked' : (forall s e, unworked_loop s e worked' = unworked_loop s e worked) -> forall os e e1,
  oncall_loop req rules cal lo hi worked os e = Ok e1 ->
  exists more, eng_ivs e1 = eng_ivs e ++ more
    /\ forall base_, oncall_loop req' rules cal lo hi worked' os (with_oncall e base_ (standby e)) = Ok (with_oncall e1 (base_ ++ more) (standby e1)).
Proof.
  intros Hw. induction os as [|o os IH]; intros e e1 H; cbn [oncall_loop] in H |- *.
  { injection H as <-. exists []. rewrite app_nil_r. split; [done|]. intros base_. by rewrite app_nil_r. }
  apply bind_ok_inv in H as (e2 & H2 & H). destruct (IH e2 e1 H) as (more & E1 & HM). clear IH H.
  assert (Hone : exists m1, eng_ivs e2 = eng_ivs e ++ m1 /\ forall base_, oncall_period req' rules cal lo hi worked' o (with_oncall e base_ (standby e)) = Ok (with_oncall e2 (base_ ++ m1) (standby e2))).
  { unfold oncall_period in *. cbv zeta in *. unfold unworked in *. rewrite Hw. apply bind_ok_inv in H2 as (u & -> & H2). cbn [mbind outcome_bind].
    destruct (OnCallRule_classify _ _) as [eng why]. apply bind_ok_inv in H2 as (e3 & H3 & H2). injection H2 as <-. destruct eng.
    - apply bind_ok_inv in H3 as (m1 & Hm & H3). injection H3 as <-. exists m1. split; [done|]. intros base_.
      change (engagedIntervals req' o) with (engagedIntervals req o). rewrite Hm. done.
    - apply bind_ok_inv in H3 as (st & Hst & H3). injection H3 as <-. exists []. cbn. rewrite app_nil_r. split; [done|]. intros base_.
      rewrite Hst. cbn. by rewrite app_nil_r. }
  destruct Hone as (m1 & F1 & HM1). exists (m1 ++ more). split; [by rewrite E1, F1, app_assoc|]. intros base_. rewrite HM1. cbn [mbind outcome_bind].
  rewrite app_assoc. rewrite <- HM. done.
Qed.

Lemma onCall_moved cal e e1 : Forall nonempty_interval (Intervals req) -> onCall req rules cal e = Ok e1 ->
  exists more, eng_ivs e1 = Intervals req ++ more /\ onCall req' rules cal e = Ok (with_oncall e1 (l' ++ more) (standby e1)).
Proof.
  intros Hne H. unfold onCall in *. cbn [reorder req_OnCall Intervals]. case_bool_decide.
  { injection H as <-. exists []. rewrite !app_nil_r. done. }
  apply bind_ok_inv in H as (worked & Hw & H). destruct (order_linked (Intervals req) l' worked Hp Hne Hw) as (worked' & -> & Hl & _). cbn [mbind outcome_bind].
  apply bind_ok_inv in H as (lo & -> & H). cbn [mbind outcome_bind]. apply bind_ok_inv in H as (hi & -> & H). cbn [mbind outcome_bind].
  destruct (oncall_loop_moved cal lo hi worked worked' (unworked_linked _ _ _ Hl) _ _ _ H) as (more & E & HM). exists more. split; [exact E|]. exact (HM l').
Qed.

(** ** Classification *)

Lemma classify_step_moved cal e e2 more : Forall nonempty_interval (eng_ivs e) -> eng_ivs e = Intervals req ++ more -> classify_step req rules cal e = Ok e2 ->
  exists segs', Forall2 (seg_link (eng_ivs e) (l' ++ more)) (eng_segs e2) segs'
    /\ classify_step req' rules cal (with_oncall e (l' ++ more) (standby e)) = Ok (moved (l' ++ more) segs' e2) /\ eng_ivs e2 = eng_ivs e.
Proof.
  intros Hne Ei H. unfold classify_step in *. apply bind_ok_inv in H as (c & Hc & H).
  assert (Hp' : eng_ivs e ≡ₚ l' ++ more) by (rewrite Ei; by apply Permutation_app_tail).
  destruct (engine_classify_linked (eng_ivs e) (l' ++ more) req req' rules cal _ c Hp' Hne eq_refl eq_refl eq_refl Hc) as (segs' & Hl & Hc').
  cbn [eng_ivs eng_periods with_oncall]. rewrite Hc'. cbn [mbind outcome_bind e_plans e_days e_segs e_pieces e_comp e_periods].
  change (make_days req' cal) with (make_days req cal). apply bind_ok_inv in H as (days & Hd & H). rewrite Hd. cbn [mbind outcome_bind]. injection H as <-.
  exists segs'. done.
Qed.

Lemma pricing_moved cal e r more segs' : Forall2 (seg_link (eng_ivs e) (l' ++ more)) (eng_segs e) segs' -> eng_ivs e = Intervals req ++ more ->
  NoDup (map (fun iv => t_unix (iv_Start iv)) (Intervals req)) ->
  (e ← accumulate req rules e; e ← fixedAmounts req rules cal e; e ← splitShift rules e; e ← regularRate req rules e;
   e ← reportingTime req rules cal e; e ← callBack req rules cal e; Ok (engine_result req rules e)) = Ok r ->
  (e ← accumulate req' rules (moved (l' ++ more) segs' e); e ← fixedAmounts req' rules cal e; e ← splitShift rules e; e ← regularRate req' rules e;
   e ← reportingTime req' rules cal e; e ← callBack req' rules cal e; Ok (engine_result req' rules e)) = Ok r.
Proof.
  intros Hl Ei Hnd H. assert (Hp' : eng_ivs e ≡ₚ l' ++ more) by (rewrite Ei; by apply Permutation_app_tail).
  set (ivs := eng_ivs e) in *. set (segs := eng_segs e) in *. assert (Hh : home ivs segs e) by done.
  apply bind_ok_inv in H as (e1 & H1 & H). apply (accumulate_follow req rules ivs (l' ++ more) segs segs' Hl) in H1 as [A1 B1]; [|done].
  change (accumulate req' rules (moved (l' ++ more) segs' e)) with (accumulate_loop req rules (eng_pieces e) (moved (l' ++ more) segs' e)). rewrite B1. cbn [mbind outcome_bind].
  apply bind_ok_inv in H as (e2 & H2 & H). unfold fixedAmounts in H2 |- *. apply bind_ok_inv in H2 as (earned & Hpl & H2). rewrite (proj1 A1) in Hpl.
  cbn [eng_ivs eng_periods moved]. rewrite (piece_loop_perm rules cal _ _ Hp' _ _ Hpl). cbn [mbind outcome_bind].
  apply (fixed_loop_follow req rules ivs (l' ++ more) segs segs') in H2 as [A2 B2]; [|done].
  change (fixed_loop req' rules) with (fixed_loop req rules). change (Earnings req') with (Earnings req).
  change (period_indexes (moved (l' ++ more) segs' e1)) with (period_indexes e1). rewrite B2. cbn [mbind outcome_bind].
  apply bind_ok_inv in H as (e3 & H3 & H). apply (splitShift_follow rules ivs (l' ++ more) segs segs' Hl) in H3 as [A3 B3]; [|done]. rewrite B3. cbn [mbind outcome_bind].
  apply bind_ok_inv in H as (e4 & H4 & H). apply (price_follow req rules ivs (l' ++ more) segs segs') in H4 as [A4 B4]; [|done].
  change (regularRate req' rules (moved (l' ++ more) segs' e3)) with (price_loop req rules (period_indexes e3) (moved (l' ++ more) segs' e3)). rewrite B4. cbn [mbind outcome_bind].
  apply bind_ok_inv in H as (e5 & H5 & H). apply (reporting_follow rules cal ivs (l' ++ more) segs segs') in H5 as [A5 B5]; [|by apply workedWithin_perm|done].
  change (reportingTime req' rules cal) with (reportingTime req rules cal). unfold reportingTime at 1. rewrite B5. cbn [mbind outcome_bind].
  apply bind_ok_inv in H as (e6 & H6 & H). injection H as <-. unfold callBack in *. change (Intervals req') with l'. rewrite (call_events_perm (Intervals req) l' Hp Hnd).
  destruct (cb_Enabled _).
  - apply (call_loop_follow rules cal ivs (l' ++ more) segs segs') in H6 as [A6 B6]; [|done]. rewrite B6. done.
  - injection H6 as <-. done.
Qed.

Lemma calculate_moved r : calculation_input rules -> Calculate req rules = Ok r -> Calculate req' rules = Ok r.
Proof.
  intros Hin H. unfold Calculate in *. apply bind_ok_inv in H as ([] & Hv & H). rewrite Hv. cbn [mbind outcome_bind].
  apply bind_ok_inv in H as ([] & Hreq & H). rewrite (Request_validate_perm req rules l' Hp Hreq). cbn [mbind outcome_bind].
  apply bind_ok_inv in H as ([cal e0] & H0 & H). rewrite (prepare_perm _ H0). cbn [mbind outcome_bind].
  pose proof (prepare_safe req rules Hin Hv Hreq) as HP. rewrite H0 in HP. destruct HP as (Hco & S0 & St0 & _). cbn [fst snd] in *. pose proof Hco as [Hi Hd Hrem HL Hpos Hlong].
  pose proof (intervals_nonempty req rules Hreq) as Hne. apply bind_ok_inv in H as (e1 & H1 & H).
  pose proof (onCall_safe req rules cal HL Hi Hrem e0 Hne St0) as HS. rewrite H1 in HS. destruct HS as (worked & Hon & _).
  assert (Hne1 : Forall nonempty_interval (eng_ivs e1)) by (by eapply nonempty_oncall; [|exact Hon]).
  destruct (onCall_moved cal e0 e1 Hne H1) as (more & Em & ->). cbn [mbind outcome_bind].
  apply bind_ok_inv in H as (e2 & H2 & H). pose proof (classify_step_safe req rules Hin Hv Hreq cal e1 Hco) as HC. rewrite H2 in HC.
  destruct HC as [_ _ _ _ _ (c & _ & _ & _ & _ & Hnd & _)]; [eapply sized_oncall; [|exact Hon]; destruct S0; by constructor|done|].
  destruct (classify_step_moved cal e1 e2 more Hne1 Em H2) as (segs' & Hl & -> & Ei). cbn [mbind outcome_bind].
  rewrite <- Ei in Hl. apply (pricing_moved cal e2 r more segs' Hl); [congruence| |exact H]. apply starts_distinct; [done|].
  intros (i & j & a & b & t & Hij & Ha & Hb & Hw). apply Hnd. rewrite Em. exists i, j, a, b, t. repeat split; try done; try (by apply lookup_app_l_Some); apply Hw.
Qed.

End Whole.

(** * Properties *)

(** C14: a result does not depend on the order in which the intervals are
    given: whenever [Calculate] succeeds, it returns the same result, byte for
    byte and with the same digest, for every permutation of the request's
    intervals. *)
Theorem calculation_order {tz : Tzdb} {sha : Sha256} (req : Request) (rules : RuleSet) (l' : list Interval) (r : Result) :
  calculation_input rules -> Intervals req ≡ₚ l' -> Calculate req rules = Ok r -> Calculate (reorder req l') rules = Ok r.
Proof. intros Hin Hp H. by apply calculate_moved. Qed.

Lemma calculation_order_witness :
  exists r, @Calculate winter premium_week california stand_in = Ok r
  /\ @Calculate winter (reorder premium_week (reverse (Intervals premium_week))) california stand_in = Ok r.
Proof.
  assert (H : @calculation_input winter california) by (apply winter_input; vm_compute; discriminate).
  destruct (@Calculate winter premium_week california stand_in) as [r|e|] eqn:E;
    [|exfalso; revert E; vm_compute; discriminate|exfalso; revert E; vm_compute; discriminate].
  exists r. split; [reflexivity|]. apply (@calculation_order winter stand_in premium_week california _ r H); [|exact E].
  symmetry. apply reverse_Permutation.
Defined.

(** ** Edges *)

(** Fixed earnings of a period, excluded from the regular rate. *)
Definition bonus (code basis : string) (amount : Z) : EarningItem := mkEarningItem code 0 amount (mkTreatment Exclude basis).
Definition with_earnings (req : Request) (es : list EarningItem) : Request :=
  mkRequest (CalculationID req) (req_AggregationKey req) (Method req) (req_Workweek req) (PeriodStart req) (Days req) (Intervals req) es
    (WeeklySalary req) (req_Alternative req) (CompTimeBefore req) (req_OnCall req) (Shifts req).
Definition with_time (req : Request) (ivs : list Interval) (oncall : list OnCallPeriod) : Request :=
  mkRequest (CalculationID req) (req_AggregationKey req) (Method req) (req_Workweek req) (PeriodStart req) (Days req) ivs (Earnings req)
    (WeeklySalary req) (req_Alternative req) (CompTimeBefore req) oncall (Shifts req).

Definition gross_of (m : outcome timecalc_err Result) : option Z := match m with Ok r => Some (r_GrossPay r) | _ => None end.
Definition result_digest_of (m : outcome timecalc_err Result) : option string := match m with Ok r => Some (r_Digest r) | _ => None end.

(** Piece earnings of half the range each, in two intervals. *)
Definition big_pieces : list Interval :=
  [stint "p1" "PIECE" 0 KindProductive [] (2 ^ 62) "" 0 480 60; stint "p2" "PIECE" 0 KindProductive [] (2 ^ 62) "" 1 480 60].
(** A waiting period of two hours, twice over the same hours. *)
Definition waiting_call (id : string) : OnCallPeriod := mkOnCallPeriod id (moment 0 1200) (moment 0 1320) "" 0 (mkRestrictions false 0 0).

(** where the sums of a calculation give way.  Piece earnings and excluded
    earnings are added without the overflow check of included pay: two of them
    past the range make the piece pay disappear, and a negative gross pay that
    [Validate] accepts; two earnings that differ only in their legal basis are
    listed, and digested, in the order they were given; and two waiting
    periods over the same two hours are both paid. *)
Theorem calculation_edges :
  let calc req := @Calculate winter req fedFLSA stand_in in
  let week := seventh_day in
  gross_of (calc (with_time piece_week big_pieces [])) = Some 0
  /\ gross_of (calc (with_earnings week [bonus "A" "778.211" (2 ^ 62); bonus "B" "778.211" (2 ^ 62)])) = Some (to_int64 (2 ^ 63 + 13400000))
  /\ result_digest_of (calc (with_earnings week [bonus "A" "778.211" 10000; bonus "A" "778.212" 10000]))
     <> result_digest_of (calc (with_earnings week [bonus "A" "778.212" 10000; bonus "A" "778.211" 10000]))
  /\ gross_of (calc (with_time week [] [waiting_call "w1"])) = Some 60000
  /\ gross_of (calc (with_time week [] [waiting_call "w1"; waiting_call "w2"])) = Some 120000.
Proof. vm_compute. repeat split; (reflexivity || discriminate). Qed.
