(* ===== verification/RuleValues.v ===== *)
(** The typed values of the rules engine: [Kind] and [Value] of
    [internal/engines/rules/rules.go], the accessors of [expression_eval.go],
    and the persisted form of [value_json.go].

    Only the constructors of the package build a [Value], so the struct is its
    tagged union; [Value_zero] is the unset struct.  [rules_err] collects the
    sentinels of the package; an error of the decimals that is returned wrapped
    is [ErrValues].  The theorems give the specification of [Validate], show
    that [Equal] is an equivalence and [Cmp] its order, that canonical bytes
    determine a value, and that the persisted form is read back. *)

From S2P Require Import Prelude Sorting CanonicalBytes FixedDecimal.

Local Open Scope Z_scope.

(** * Errors *)

Inductive rules_err : Type :=
  | ErrKindUnspecified | ErrKindMismatch | ErrOperatorUnspecified | ErrOperatorUnsupported
  | ErrOperandCount | ErrColumnInvalid | ErrDuplicateColumn | ErrHitPolicyUnspecified
  | ErrTableIdentity | ErrTableColumns | ErrTableEmpty | ErrRowInvalid | ErrDuplicateRowID
  | ErrAmbiguousRows | ErrUnknownInput | ErrMissingInput
  | ErrExpressionInvalid | ErrExpressionSyntax | ErrExpressionType | ErrExpressionArbitrary
  | ErrExpressionIO | ErrExpressionTime | ErrExpressionRandom | ErrExpressionUnknown
  | ErrExpressionUnbounded | ErrExpressionIteration | ErrExpressionVariable
  | ErrExpressionDependency | ErrExpressionFunction | ErrExpressionValue | ErrExpressionEvaluation
  | ErrPromotionInputInvalid | ErrPromotionRuleConflict
  | ErrPlanTampered | ErrPlanNotApproved
  | ErrNestedList            (* "rules: nested lists are not supported" *)
  | ErrHeterogeneousList     (* "rules: heterogeneous list" *)
  | ErrUndigestable          (* "rules: table ... is invalid, refusing to digest it" *)
  | ErrUnrecognizedStatus    (* "rules: promotion approval: unrecognized status" *)
  | ErrValueAbsent           (* "rules: BOOL value is absent", "rules: INT value is absent" *)
  | ErrUnknownValueKind      (* "rules: unknown value kind" *)
  | ErrCanon (e : canon_err)
  | ErrValues (e : values_err).

#[export] Instance rules_err_eq_dec : EqDecision rules_err.
Proof. solve_decision. Defined.

(** * Kinds *)

Inductive Kind : Type := KindUnspecified | KindDecimal | KindString | KindBool | KindInt | KindList.

#[export] Instance Kind_eq_dec : EqDecision Kind.
Proof. solve_decision. Defined.

Definition kindWire : list (Kind * string) :=
  [ (KindDecimal, "DECIMAL"); (KindString, "STRING"); (KindBool, "BOOL"); (KindInt, "INT"); (KindList, "LIST") ]%string.

Fixpoint wire_lookup {A} `{EqDecision A} (table : list (A * string)) (k : A) : option string :=
  match table with
  | [] => None
  | (k', s) :: r => if decide (k = k') then Some s else wire_lookup r k
  end.

Definition Kind_String (k : Kind) : string := default "KIND_UNSPECIFIED" (wire_lookup kindWire k).
Definition Kind_Valid (k : Kind) : bool := match wire_lookup kindWire k with Some _ => true | None => false end.

(** * Values *)

Inductive Value : Type :=
  | Value_zero
  | DecimalValue (d : Decimal)
  | StringValue (s : string)
  | BoolValue (b : bool)
  | IntValue (i : Z)
  | ListValue (items : list Value).

Definition Value_Kind (v : Value) : Kind :=
  match v with
  | Value_zero => KindUnspecified
  | DecimalValue _ => KindDecimal
  | StringValue _ => KindString
  | BoolValue _ => KindBool
  | IntValue _ => KindInt
  | ListValue _ => KindList
  end.

(** The fields of the struct: those of another kind hold their zero. *)
Definition v_list (v : Value) : list Value := match v with ListValue l => l | _ => [] end.
Definition Value_List (v : Value) : option (list Value) := match v with ListValue l => Some l | _ => None end.
Definition Value_Bool (v : Value) : bool * bool := match v with BoolValue b => (b, true) | _ => (false, false) end.
Definition Value_Int (v : Value) : Z * bool := match v with IntValue i => (i, true) | _ => (0, false) end.
Definition Value_Decimal (v : Value) : outcome rules_err Decimal :=
  match v with DecimalValue d => Ok d | _ => Err ErrExpressionType end.

(** The loop of [Validate] over the items of a list. *)
Definition validate_items (validate : Value -> outcome rules_err unit) : bool -> Kind -> list Value -> outcome rules_err unit :=
  fix loop first kind items :=
    match items with
    | [] => Ok tt
    | item :: rest =>
        if decide (Value_Kind item = KindList) then Err ErrNestedList
        else
          _ ← validate item;
          if first then loop false (Value_Kind item) rest
          else if decide (Value_Kind item = kind) then loop false kind rest
          else Err ErrHeterogeneousList
    end.

Fixpoint Value_Validate (v : Value) : outcome rules_err unit :=
  match v with
  | Value_zero => Err ErrKindUnspecified
  | DecimalValue d => map_err ErrValues (Decimal_Validate d)
  | ListValue items => validate_items Value_Validate true KindUnspecified items
  | _ => Ok tt
  end.

(** [strconv.FormatInt(i, 10)]. *)
Definition FormatInt (i : Z) : string :=
  if i <? 0 then "-" +:+ dec_string (- i) else dec_string i.

(** [strings.Join]. *)
Fixpoint str_join (sep : string) (l : list string) : string :=
  match l with
  | [] => ""
  | [s] => s
  | s :: r => s +:+ sep +:+ str_join sep r
  end.

Fixpoint Value_String (v : Value) : string :=
  match v with
  | Value_zero => ""
  | DecimalValue d => Decimal_String d
  | StringValue s => s
  | BoolValue b => if b then "true" else "false"
  | IntValue i => FormatInt i
  | ListValue items => "[" +:+ str_join "," (List.map Value_String items) +:+ "]"
  end.

Definition valueSchema : string := "hcmnext.engines.rules.Value".
Definition schemaVersion : Z := 1.

(** The fields of the switch of [Canonical]; a nil item leaves an empty field. *)
Fixpoint Value_Canonical (v : Value) : option (list Z) :=
  if is_ok (Value_Validate v) then
    let w := Writer_String "kind" (Kind_String (Value_Kind v)) (New valueSchema schemaVersion) in
    let w1 :=
      match v with
      | Value_zero => w
      | DecimalValue d => Writer_Value "decimal" (Decimal_Canonical d) w
      | StringValue s => Writer_String "string" s w
      | BoolValue b => Writer_Bool "bool" b w
      | IntValue i => Writer_Int "int" i w
      | ListValue items =>
          fold_left (fun w item => Writer_Field "item" (default [] item) w)
            (List.map Value_Canonical items) (Writer_Count "items" (Z.of_nat (length items)) w)
      end in
    match Writer_Bytes w1 with Ok raw => Some raw | _ => None end
  else None.

(** The loop of [Equal] over two lists of the same length. *)
Definition equal_items (eq : Value -> Value -> outcome rules_err bool) : list Value -> list Value -> outcome rules_err bool :=
  fix loop l m :=
    match l, m with
    | x :: l', y :: m' =>
        b ← eq x y;
        if negb b then Ok b else loop l' m'
    | _, _ => Ok true
    end.

Fixpoint Value_Equal (v o : Value) : outcome rules_err bool :=
  if decide (Value_Kind v <> Value_Kind o) then Err ErrKindMismatch
  else
    match v, o with
    | DecimalValue d, DecimalValue e => Ok (Decimal_Cmp d e =? 0)
    | StringValue s, StringValue t => Ok (String.eqb s t)
    | BoolValue a, BoolValue b => Ok (Bool.eqb a b)
    | IntValue i, IntValue j => Ok (i =? j)
    | ListValue l, ListValue m =>
        if negb (length l =? length m)%nat then Ok false else equal_items Value_Equal l m
    | _, _ => Err ErrKindUnspecified
    end.

Definition Value_Cmp (v o : Value) : outcome rules_err Z :=
  if decide (Value_Kind v <> Value_Kind o) then Err ErrKindMismatch
  else
    match v, o with
    | DecimalValue d, DecimalValue e => Ok (Decimal_Cmp d e)
    | IntValue i, IntValue j => Ok (if i <? j then -1 else if j <? i then 1 else 0)
    | _, _ => Err ErrOperatorUnsupported
    end.

(** * The persisted form

    [wireValue] is the struct that [encoding/json] writes and reads, with its
    items already encoded: an empty string, a zero scale and an empty list are
    omitted and read back as zero; the pointers are [option]. *)

Inductive wireValue : Type :=
  mkWire {
    wire_Kind : string;
    wire_Text : string;
    wire_Scale : Z;
    wire_Bool : option bool;
    wire_Int : option Z;
    wire_Items : list wireValue
  }.

Definition collect {A} (f : Value -> outcome rules_err A) : list Value -> outcome rules_err (list A) :=
  fix loop l :=
    match l with
    | [] => Ok []
    | x :: r => a ← f x; b ← loop r; Ok (a :: b)
    end.

Definition bare (kind : string) : wireValue := mkWire kind "" 0 None None [].

Fixpoint Value_MarshalJSON (v : Value) : outcome rules_err wireValue :=
  match v with
  | Value_zero => Ok (bare "")
  | _ =>
      _ ← Value_Validate v;
      let k := Kind_String (Value_Kind v) in
      match v with
      | DecimalValue d => Ok (mkWire k (Decimal_String d) (d_scale d) None None [])
      | StringValue s => Ok (mkWire k s 0 None None [])
      | BoolValue b => Ok (mkWire k "" 0 (Some b) None [])
      | IntValue i => Ok (mkWire k "" 0 None (Some i) [])
      | ListValue items => ws ← collect Value_MarshalJSON items; Ok (mkWire k "" 0 None None ws)
      | Value_zero => Ok (bare k)
      end
  end.

Definition collect_wire {A} (f : wireValue -> outcome rules_err A) : list wireValue -> outcome rules_err (list A) :=
  fix loop l :=
    match l with
    | [] => Ok []
    | x :: r => a ← f x; b ← loop r; Ok (a :: b)
    end.

Fixpoint Value_UnmarshalJSON (w : wireValue) : outcome rules_err Value :=
  match w with
  | mkWire kind text scale b i ws =>
      items ← collect_wire Value_UnmarshalJSON ws;
      if String.eqb kind "" then Ok Value_zero
      else
        next ←
          (if String.eqb kind "DECIMAL" then
             d ← map_err ErrValues (NewDecimal text scale RoundingExactRequired); Ok (DecimalValue d)
           else if String.eqb kind "STRING" then Ok (StringValue text)
           else if String.eqb kind "BOOL" then
             match b with None => Err ErrValueAbsent | Some b => Ok (BoolValue b) end
           else if String.eqb kind "INT" then
             match i with None => Err ErrValueAbsent | Some i => Ok (IntValue i) end
           else if String.eqb kind "LIST" then Ok (ListValue items)
           else Err ErrUnknownValueKind);
        _ ← Value_Validate next;
        Ok next
  end.

(** * Specification *)

Lemma Value_ind' (P : Value -> Prop) :
  P Value_zero -> (forall d, P (DecimalValue d)) -> (forall s, P (StringValue s)) ->
  (forall b, P (BoolValue b)) -> (forall i, P (IntValue i)) ->
  (forall l, Forall P l -> P (ListValue l)) -> forall v, P v.
Proof.
  intros H0 Hd Hs Hb Hi Hl. fix IH 1. intros [| | | | |l]; [exact H0|apply Hd|apply Hs|apply Hb|apply Hi|].
  apply Hl. induction l as [|v l IHl]; constructor; auto.
Qed.

Definition scalar_wf (v : Value) : Prop :=
  match v with
  | DecimalValue d => dec_wf d
  | StringValue _ | BoolValue _ | IntValue _ => True
  | _ => False
  end.

(** A value the engine may use: a scalar, or a list of scalars of one kind. *)
Definition value_wf (v : Value) : Prop :=
  match v with
  | ListValue l => Forall scalar_wf l /\ (forall x y, x ∈ l -> y ∈ l -> Value_Kind x = Value_Kind y)
  | _ => scalar_wf v
  end.

Lemma Validate_scalar v : Value_Kind v <> KindList -> Value_Validate v = Ok tt <-> scalar_wf v.
Proof.
  destruct v as [|d| | | |]; cbn; intros Hk; try done.
  rewrite <- Decimal_Validate_ok. destruct (Decimal_Validate d) as [[]| |]; done.
Qed.

Lemma validate_items_ok first kind l :
  validate_items Value_Validate first kind l = Ok tt <->
  Forall scalar_wf l /\ (forall x y, x ∈ l -> y ∈ l -> Value_Kind x = Value_Kind y) /\
  (first = false -> forall x, x ∈ l -> Value_Kind x = kind).
Proof.
  revert first kind. induction l as [|v l IH]; intros first kind; cbn [validate_items].
  { split; [|done]. intros _. split_and!; [constructor| |]; set_solver. }
  destruct (decide (Value_Kind v = KindList)) as [Hk|Hk].
  { split; [done|]. intros (H & _). inversion H; subst. destruct v; done. }
  pose proof (Validate_scalar v Hk) as Hv.
  destruct (Value_Validate v) as [[]|e|]; cbn.
  2,3: split; [done|]; intros (H & _); inversion H; subst; destruct Hv as [_ Hv]; by specialize (Hv H2).
  destruct Hv as [Hv _]. specialize (Hv eq_refl).
  destruct first; [rewrite IH|destruct (decide (Value_Kind v = kind)) as [Hkk|Hkk]; [rewrite IH|]].
  - split; intros (H1 & H2 & H3); split_and!.
    + by constructor.
    + intros x y [->|Hx]%elem_of_cons [->|Hy]%elem_of_cons; auto. symmetry. auto.
    + done.
    + by inversion H1.
    + intros x y Hx Hy. apply H2; by right.
    + intros _ x Hx. apply H2; [by right|by left].
  - split; intros (H1 & H2 & H3); split_and!.
    + by constructor.
    + intros x y [->|Hx]%elem_of_cons [->|Hy]%elem_of_cons; auto.
      * rewrite Hkk. symmetry. auto.
      * rewrite Hkk. auto.
    + intros _ x [->|Hx]%elem_of_cons; auto.
    + by inversion H1.
    + intros x y Hx Hy. apply H2; by right.
    + intros _ x Hx. apply H3; [done|by right].
  - split; [done|]. intros (_ & _ & H). exfalso. apply Hkk, H; [done|by left].
Qed.

Lemma Value_Validate_ok v : Value_Validate v = Ok tt <-> value_wf v.
Proof.
  destruct v as [| | | | |l]; [by apply Validate_scalar..|]. cbn.
  rewrite validate_items_ok. naive_solver.
Qed.

Lemma Value_Validate_inv v u : Value_Validate v = Ok u -> value_wf v.
Proof. destruct u. apply Value_Validate_ok. Qed.

Lemma Decimal_Validate_no_panic d : Decimal_Validate d <> Panic.
Proof. unfold Decimal_Validate, checkScale, checkMode. no_panic. Qed.
#[export] Hint Resolve Decimal_Validate_no_panic : panics.

Lemma Value_Validate_no_panic v : Value_Validate v <> Panic.
Proof.
  assert (Hi : forall l first kind, Forall (fun v => Value_Validate v <> Panic) l ->
    validate_items Value_Validate first kind l <> Panic).
  { clear v. induction l as [|v l IH]; intros first kind H; cbn; [done|]. inversion H; subst. no_panic. }
  induction v as [|d|s|b|i|l IH] using Value_ind'; cbn; try done; [|by apply Hi]. no_panic.
Qed.
#[export] Hint Resolve Value_Validate_no_panic : panics.

(** Same value: decimals by number, the rest exactly. *)
Fixpoint value_eqv (v o : Value) {struct v} : Prop :=
  match v, o with
  | DecimalValue d, DecimalValue e => Decimal_Cmp d e = 0
  | StringValue s, StringValue t => s = t
  | BoolValue a, BoolValue b => a = b
  | IntValue i, IntValue j => i = j
  | ListValue l, ListValue m =>
      (fix all l m := match l, m with
         | [], [] => True
         | x :: l', y :: m' => value_eqv x y /\ all l' m'
         | _, _ => False
         end) l m
  | _, _ => False
  end.

Lemma value_eqv_list l m : value_eqv (ListValue l) (ListValue m) <-> Forall2 value_eqv l m.
Proof.
  revert m. induction l as [|x l IH]; intros [|y m]; cbn; split; try done; try (by inversion 1).
  - intros [H1 H2]. constructor; [done|]. by apply IH.
  - inversion 1; subst. split; [done|]. by apply IH.
Qed.

(** A list all of whose elements are compared by [f]. *)
Lemma equal_items_spec l m : length l = length m ->
  equal_items Value_Equal l m = Ok true <-> Forall2 (fun x y => Value_Equal x y = Ok true) l m.
Proof.
  revert m. induction l as [|x l IH]; intros [|y m]; cbn; intros Hl; try discriminate.
  { split; [constructor|done]. }
  injection Hl as Hl. destruct (Value_Equal x y) as [[]|e|] eqn:E; cbn.
  - rewrite IH by done. split; [by constructor|by inversion 1].
  - split; [done|]. inversion 1; congruence.
  - split; [done|]. inversion 1; congruence.
  - split; [done|]. inversion 1; congruence.
Qed.

Lemma Value_Equal_true v o : Value_Equal v o = Ok true <-> value_eqv v o.
Proof.
  revert o. induction v as [|d|s|b|i|l IH] using Value_ind'; intros [|e|t|c|j|m]; cbn [Value_Equal Value_Kind];
    first [rewrite decide_True by discriminate; split; [done|cbn; tauto]
          |rewrite decide_False by (intros H; exact (H eq_refl)); cbn [value_eqv]]; try done.
  - rewrite <- Z.eqb_eq. split; congruence.
  - rewrite <- String.eqb_eq. split; congruence.
  - rewrite <- Bool.eqb_true_iff. split; congruence.
  - rewrite <- Z.eqb_eq. split; congruence.
  - change (Forall (fun v => forall o, Value_Equal v o = Ok true <-> value_eqv v o) l) in IH.
    rewrite (value_eqv_list l m). destruct (Nat.eqb_spec (length l) (length m)) as [Hl|Hl]; cbn [negb].
    + rewrite equal_items_spec by done.
      split; intros H; induction H as [|x y l' m' Hxy _ IH2]; constructor; inversion IH; subst; auto; by apply H1 || auto.
    + split; [done|]. intros H%Forall2_length. lia.
Qed.

(** The order of valid decimals. *)
Lemma Decimal_Cmp_valid d e : dec_wf d -> dec_wf e ->
  let x := Decimal_signed d * 10 ^ d_scale e in
  let y := Decimal_signed e * 10 ^ d_scale d in
  Decimal_Cmp d e = big_cmp x y.
Proof.
  intros Hd He x y. unfold Decimal_Cmp. rewrite !dec_wf_valid by done. cbn [negb orb].
  pose proof (proj1 (dec_wf_scale d Hd)). pose proof (proj1 (dec_wf_scale e He)).
  assert (Hb : forall a b k, 0 < k -> big_cmp (a * k) (b * k) = big_cmp a b).
  { intros a b k Hk. unfold big_cmp. destruct (Z.compare_spec (a * k) (b * k)), (Z.compare_spec a b); nia. }
  assert (Hp : forall s t, 0 <= s <= t -> 10 ^ t = 10 ^ (t - s) * 10 ^ s).
  { intros s t Hst. rewrite <- Z.pow_add_r by lia. f_equal. lia. }
  unfold x, y, pow10. destruct (Z.ltb_spec (d_scale d) (d_scale e)); [|destruct (Z.ltb_spec (d_scale e) (d_scale d))].
  - rewrite (Hp (d_scale d) (d_scale e)), Z.mul_assoc, Hb by (lia || apply pow10_pos; lia). done.
  - rewrite (Hp (d_scale e) (d_scale d)), Z.mul_assoc, Hb by (lia || apply pow10_pos; lia). done.
  - replace (d_scale e) with (d_scale d) by lia. rewrite Hb by (apply pow10_pos; lia). done.
Qed.

Lemma big_cmp_antisym a b : big_cmp b a = - big_cmp a b.
Proof. unfold big_cmp. rewrite (Z.compare_antisym a b). by destruct (a ?= b). Qed.

Lemma big_cmp_le a b : big_cmp a b <= 0 <-> a <= b.
Proof. unfold big_cmp. destruct (Z.compare_spec a b); lia. Qed.

Lemma Decimal_Cmp_antisym d e : dec_wf d -> dec_wf e -> Decimal_Cmp e d = - Decimal_Cmp d e.
Proof. intros Hd He. rewrite !Decimal_Cmp_valid by done. apply big_cmp_antisym. Qed.

Lemma Decimal_Cmp_le_trans d e f : dec_wf d -> dec_wf e -> dec_wf f ->
  Decimal_Cmp d e <= 0 -> Decimal_Cmp e f <= 0 -> Decimal_Cmp d f <= 0.
Proof.
  intros Hd He Hf. rewrite !Decimal_Cmp_valid, !big_cmp_le by done.
  pose proof (pow10_pos (d_scale d) ltac:(apply dec_wf_scale in Hd; lia)).
  pose proof (pow10_pos (d_scale e) ltac:(apply dec_wf_scale in He; lia)).
  pose proof (pow10_pos (d_scale f) ltac:(apply dec_wf_scale in Hf; lia)).
  set (p := 10 ^ d_scale d) in *. set (q := 10 ^ d_scale e) in *. set (r := 10 ^ d_scale f) in *.
  intros H2 H3. apply (Z.mul_le_mono_pos_r _ _ q); [done|].
  apply Z.le_trans with (Decimal_signed e * p * r); nia.
Qed.

Lemma scalar_wf_value v : scalar_wf v -> value_wf v.
Proof. by destruct v. Qed.

Lemma value_eqv_refl v : value_wf v -> value_eqv v v.
Proof.
  assert (Hs : forall v, scalar_wf v -> value_eqv v v).
  { intros [|d|s|b|i|l]; cbn; try done. intros Hd. rewrite Decimal_Cmp_valid by done. by apply big_cmp_eq. }
  destruct v as [|d|s|b|i|l]; try by intros H; apply Hs.
  intros [H _]. rewrite value_eqv_list. induction H; constructor; auto.
Qed.

Lemma value_eqv_trans v o u : value_wf v -> value_wf o -> value_wf u -> value_eqv v o -> value_eqv o u -> value_eqv v u.
Proof.
  assert (Hs : forall v o u, scalar_wf v -> scalar_wf o -> scalar_wf u -> value_eqv v o -> value_eqv o u -> value_eqv v u).
  { intros [|d|s|b|i|l] [|d'|s'|b'|i'|l'] [|d''|s''|b''|i''|l'']; cbn; try done; try congruence.
    intros H1 H2 H3 H4 H5.
    pose proof (Decimal_Cmp_le_trans d d' d'' H1 H2 H3 ltac:(lia) ltac:(lia)).
    pose proof (Decimal_Cmp_le_trans d'' d' d H3 H2 H1
      ltac:(rewrite (Decimal_Cmp_antisym d' d'') by done; lia) ltac:(rewrite (Decimal_Cmp_antisym d d') by done; lia)).
    rewrite (Decimal_Cmp_antisym d d'') in * by done. lia. }
  destruct v as [|d|s|b|i|l], o as [|d'|s'|b'|i'|m], u as [|d''|s''|b''|i''|n];
    try (by apply Hs); try (intros ? ? ?; cbn; tauto).
  intros [H1 _] [H2 _] [H3 _]. rewrite !value_eqv_list. intros H4. revert n H3.
  induction H4 as [|x y l m Hxy _ IH]; intros n H3 H5; inversion H5; subst; constructor;
    inversion H1; inversion H2; inversion H3; subst; eauto.
Qed.

Lemma Value_Equal_sym v o : value_wf v -> value_wf o -> Value_Equal v o = Value_Equal o v.
Proof.
  assert (Hs : forall v o, scalar_wf v -> scalar_wf o -> Value_Equal v o = Value_Equal o v).
  { intros [|d|s|b|i|l] [|d'|s'|b'|i'|l']; try done; cbn; intros H1 H2.
    - f_equal. rewrite (Decimal_Cmp_antisym d d') by done. lia.
    - by rewrite String.eqb_sym.
    - by destruct b, b'.
    - by rewrite Z.eqb_sym. }
  destruct v as [|d|s|b|i|l], o as [|d'|s'|b'|i'|m]; try (by apply Hs); try done.
  intros [H1 _] [H2 _]. cbn. rewrite (Nat.eqb_sym (length m)).
  destruct (length l =? length m)%nat; cbn; [|done]. revert m H2.
  induction H1 as [|x l Hx _ IH]; intros [|y m] H2; cbn; try done. inversion H2; subst.
  rewrite (Hs y x) by done. destruct (Value_Equal x y) as [[]| |]; cbn; auto.
Qed.

(** * The persisted form is read back *)

(** What a value becomes when it is read back: decimals are re-declared with
    the rounding mode EXACT_REQUIRED. *)
Fixpoint reread (v : Value) : Value :=
  match v with
  | DecimalValue d => DecimalValue (dec_of (Decimal_signed d) (d_scale d) RoundingExactRequired)
  | ListValue l => ListValue (List.map reread l)
  | _ => v
  end.

Lemma reread_Kind v : Value_Kind (reread v) = Value_Kind v.
Proof. by destruct v. Qed.

Lemma reread_scalar v : scalar_wf v -> scalar_wf (reread v).
Proof.
  destruct v as [|d| | | |]; cbn; try done. intros H. apply dec_wf_dec_of; [|by apply dec_wf_scale|done].
  by apply dec_wf_bound.
Qed.

Lemma reread_wf v : value_wf v -> value_wf (reread v).
Proof.
  destruct v as [|d|s|b|i|l]; try (by apply reread_scalar). cbn. intros [H1 H2]. split.
  - apply Forall_map. eapply Forall_impl; [exact H1|]. intros x. apply reread_scalar.
  - intros x y (x' & -> & Hx)%list_elem_of_fmap (y' & -> & Hy)%list_elem_of_fmap. rewrite !reread_Kind. auto.
Qed.

Lemma Kind_String_cases k : Kind_String k =
  match k with
  | KindUnspecified => "KIND_UNSPECIFIED" | KindDecimal => "DECIMAL" | KindString => "STRING"
  | KindBool => "BOOL" | KindInt => "INT" | KindList => "LIST"
  end.
Proof. by destruct k. Qed.

Lemma json_scalar v : scalar_wf v -> exists w, Value_MarshalJSON v = Ok w /\ Value_UnmarshalJSON w = Ok (reread v).
Proof.
  intros H. assert (Hv : Value_Validate v = Ok tt) by (apply Value_Validate_ok; by apply scalar_wf_value).
  assert (Hr : Value_Validate (reread v) = Ok tt).
  { apply Value_Validate_ok, reread_wf. by apply scalar_wf_value. }
  destruct v as [|d|s|b|i|l]; cbn -[Value_Validate NewDecimal reread Kind_String] in *; try done; rewrite Hv;
    cbn -[Value_Validate NewDecimal reread Kind_String]; eexists; (split; [reflexivity|]);
    cbn -[Value_Validate NewDecimal reread Kind_String]; rewrite Kind_String_cases;
    cbn -[Value_Validate NewDecimal dec_of]; try done.
  rewrite (NewDecimal_String d) by done. cbn -[Value_Validate dec_of]. cbn [reread] in Hr. by rewrite Hr.
Qed.

Lemma Value_Cmp_cases v o : Value_Cmp v o =
  match v, o with
  | DecimalValue d, DecimalValue e => Ok (Decimal_Cmp d e)
  | IntValue i, IntValue j => Ok (if i <? j then -1 else if j <? i then 1 else 0)
  | Value_zero, Value_zero | StringValue _, StringValue _ | BoolValue _, BoolValue _ | ListValue _, ListValue _ =>
      Err ErrOperatorUnsupported
  | _, _ => Err ErrKindMismatch
  end.
Proof. by destruct v, o. Qed.

(** * Theorems *)

(** on valid values [Equal] is an equivalence that answers without error
    within one kind of scalars, and [Cmp] is its order: defined exactly for two
    decimals or two integers, antisymmetric, transitive, and zero exactly on
    equal values. *)
Theorem value_order_exact v o u (Hv : value_wf v) (Ho : value_wf o) (Hu : value_wf u) :
  Value_Equal v v = Ok true /\ Value_Equal v o = Value_Equal o v /\
  (Value_Equal v o = Ok true -> Value_Equal o u = Ok true -> Value_Equal v u = Ok true) /\
  (Value_Kind v <> KindList -> is_ok (Value_Equal v o) = true <-> Value_Kind v = Value_Kind o) /\
  (is_ok (Value_Cmp v o) = true <-> Value_Kind v = Value_Kind o /\ (Value_Kind v = KindDecimal \/ Value_Kind v = KindInt)) /\
  (forall c, Value_Cmp v o = Ok c -> Value_Cmp o v = Ok (- c) /\ (c = 0 <-> Value_Equal v o = Ok true)) /\
  (forall c c' c'', Value_Cmp v o = Ok c -> Value_Cmp o u = Ok c' -> Value_Cmp v u = Ok c'' ->
     c <= 0 -> c' <= 0 -> c'' <= 0).
Proof.
  split_and!.
  - by apply Value_Equal_true, value_eqv_refl.
  - by apply Value_Equal_sym.
  - rewrite !Value_Equal_true. by apply value_eqv_trans.
  - intros Hk. destruct v, o; cbn in Hk; try done; split; done.
  - rewrite Value_Cmp_cases. destruct v, o; cbn; naive_solver.
  - intros c. rewrite !Value_Cmp_cases.
    destruct v as [|d|s|b|i|l], o as [|d'|s'|b'|i'|m]; try done; intros [= <-].
    + rewrite (Decimal_Cmp_antisym d d') by done. split; [done|]. by rewrite Value_Equal_true.
    + rewrite Value_Equal_true. cbn [value_eqv].
      destruct (Z.ltb_spec i i'), (Z.ltb_spec i' i); try lia; (split; [f_equal|]; lia).
  - intros c c' c''. rewrite !Value_Cmp_cases.
    destruct v as [|d|s|b|i|l], o as [|d'|s'|b'|i'|m], u as [|d''|s''|b''|i''|n]; try done;
      intros [= <-] [= <-] [= <-].
    + by apply Decimal_Cmp_le_trans.
    + destruct (Z.ltb_spec i i'), (Z.ltb_spec i' i), (Z.ltb_spec i' i''), (Z.ltb_spec i'' i'), (Z.ltb_spec i i''), (Z.ltb_spec i'' i); lia.
Qed.

Lemma value_order_exact_witness :
  Value_Cmp (DecimalValue (dec_of 1000 2 RoundingHalfEven)) (DecimalValue (dec_of 10 0 RoundingFloor)) = Ok 0 /\
  Value_Equal (DecimalValue (dec_of 1000 2 RoundingHalfEven)) (DecimalValue (dec_of 10 0 RoundingFloor)) = Ok true.
Proof.
  assert (H1 : dec_wf (dec_of 1000 2 RoundingHalfEven)) by (apply Decimal_Validate_ok; reflexivity).
  assert (H2 : dec_wf (dec_of 10 0 RoundingFloor)) by (apply Decimal_Validate_ok; reflexivity).
  split; [reflexivity|].
  destruct (value_order_exact (DecimalValue (dec_of 1000 2 RoundingHalfEven)) (DecimalValue (dec_of 10 0 RoundingFloor))
    (IntValue 0) H1 H2 I) as (_ & _ & _ & _ & _ & H & _).
  destruct (H 0 eq_refl) as [_ H3]. apply H3. reflexivity.
Defined.

(** marshalling refuses exactly the invalid values other than the unset
    one, and what it writes is read back as the same value, with every decimal
    re-declared EXACT_REQUIRED at its scale; the value read back is equal. *)
Theorem value_json_roundtrip v :
  (is_ok (Value_MarshalJSON v) = true <-> v = Value_zero \/ value_wf v) /\
  (forall w, Value_MarshalJSON v = Ok w -> Value_UnmarshalJSON w = Ok (reread v)) /\
  (value_wf v -> Value_Equal v (reread v) = Ok true).
Proof.
  assert (Hl : forall l, Forall scalar_wf l -> exists ws, collect Value_MarshalJSON l = Ok ws /\
    collect_wire Value_UnmarshalJSON ws = Ok (List.map reread l)).
  { intros l H. induction H as [|x l Hx _ (ws & E1 & E2)]; cbn; [by exists []|].
    destruct (json_scalar x Hx) as (w & F1 & F2). exists (w :: ws). cbn. by rewrite F1, E1, F2, E2. }
  assert (Hok : value_wf v -> exists w, Value_MarshalJSON v = Ok w /\ Value_UnmarshalJSON w = Ok (reread v)).
  { intros H. destruct v as [|d|s|b|i|l]; try (by apply json_scalar).
    pose proof (proj2 (Value_Validate_ok _) H) as Hv. pose proof (proj2 (Value_Validate_ok _) (reread_wf _ H)) as Hr.
    destruct (Hl l (proj1 H)) as (ws & E1 & E2).
    cbn -[Value_Validate Kind_String] in *. rewrite Hv. cbn -[Value_Validate Kind_String]. rewrite E1.
    eexists. split; [reflexivity|]. cbn -[Value_Validate Kind_String]. rewrite E2, Kind_String_cases.
    cbn -[Value_Validate]. by rewrite Hr. }
  split_and!.
  - split.
    + destruct v as [|d|s|b|i|l]; [by left|..]; intros H; right; apply Value_Validate_ok;
        destruct (Value_Validate _) as [[]| |] eqn:E; try done; cbn -[Value_Validate Kind_String] in H; by rewrite E in H.
    + intros [->|H]; [done|]. by destruct (Hok H) as (w & -> & _).
  - intros w Hw. destruct v as [|d|s|b|i|l] eqn:Ev; [by injection Hw as <-|..]; rewrite <- Ev in *;
      (destruct (Hok ltac:(apply Value_Validate_ok; destruct (Value_Validate v) as [[]| |] eqn:E; try done;
         subst v; cbn -[Value_Validate Kind_String] in Hw; rewrite E in Hw; discriminate Hw)) as (w' & E1 & E2); congruence).
  - intros H. apply Value_Equal_true.
    assert (Hs : forall x, scalar_wf x -> value_eqv x (reread x)).
    { intros [|d|s|b|i|l]; cbn; try done. intros Hd.
      rewrite Decimal_Cmp_valid by (done || by apply (reread_scalar (DecimalValue d))).
      rewrite Decimal_signed_dec_of. by apply big_cmp_eq. }
    destruct v as [|d|s|b|i|l]; [by apply Hs..|].
    cbn [reread]. apply value_eqv_list. destruct H as [H _]. clear -H Hs. induction H; cbn; constructor; auto.
Qed.
