(* ===== verification/DecisionTables.v ===== *)
(** Decision tables: [internal/engines/rules/rules.go] from [Column] on.

    A table is validated ([Table_Validate]), encoded ([Table_Canonical]) and
    evaluated ([Evaluate]) against a map of typed inputs.  The theorems show
    that validation accepts exactly the publishable tables, that evaluation of
    a published table never fails on well-typed inputs and returns exactly the
    rows whose conditions hold under the hit policy, and where the text
    signatures of conditions confuse different tables. *)

From S2P Require Import Prelude Sorting CanonicalBytes FixedDecimal RuleValues.

Local Open Scope Z_scope.

(** * Columns and conditions *)

Record Column : Type := mkColumn { col_Name : string; col_Kind : Kind }.

Definition Column_Validate (c : Column) : outcome rules_err unit :=
  _ ← fail_if (String.eqb (col_Name c) "") ErrColumnInvalid;
  _ ← fail_if (negb (Kind_Valid (col_Kind c))) ErrColumnInvalid;
  fail_if (bool_decide (col_Kind c = KindList)) ErrColumnInvalid.

(** [Operator] and [HitPolicy] are [uint8]s; the last constructor is any value
    past the declared constants. *)
Inductive Operator : Type :=
  | OpUnspecified | OpAny | OpEqual | OpNotEqual | OpLessThan | OpLessOrEqual
  | OpGreaterThan | OpGreaterOrEqual | OpIn | OpNotIn | OpBetween
  | OpUndeclared (v : Z).

#[export] Instance Operator_eq_dec : EqDecision Operator.
Proof. solve_decision. Defined.

Definition operatorWire : list (Operator * string) :=
  [ (OpAny, "ANY"); (OpEqual, "EQUAL"); (OpNotEqual, "NOT_EQUAL"); (OpLessThan, "LESS_THAN");
    (OpLessOrEqual, "LESS_OR_EQUAL"); (OpGreaterThan, "GREATER_THAN"); (OpGreaterOrEqual, "GREATER_OR_EQUAL");
    (OpIn, "IN"); (OpNotIn, "NOT_IN"); (OpBetween, "BETWEEN") ]%string.

Definition Operator_String (o : Operator) : string := default "OPERATOR_UNSPECIFIED" (wire_lookup operatorWire o).
Definition Operator_Valid (o : Operator) : bool :=
  match wire_lookup operatorWire o with Some _ => true | None => false end.

Definition orderingOps (o : Operator) : bool :=
  match o with
  | OpLessThan | OpLessOrEqual | OpGreaterThan | OpGreaterOrEqual | OpBetween => true
  | _ => false
  end.

Record Condition : Type := mkCondition {
  cond_Op : Operator;
  cond_Operand : Value;
  cond_Operands : list Value;
  cond_Low : Value;
  cond_High : Value
}.

Definition on_operand (op : Operator) (v : Value) : Condition := mkCondition op v [] Value_zero Value_zero.
Definition Any : Condition := on_operand OpAny Value_zero.
Definition Equal (v : Value) : Condition := on_operand OpEqual v.
Definition NotEqual (v : Value) : Condition := on_operand OpNotEqual v.
Definition LessThan (v : Value) : Condition := on_operand OpLessThan v.
Definition LessOrEqual (v : Value) : Condition := on_operand OpLessOrEqual v.
Definition GreaterThan (v : Value) : Condition := on_operand OpGreaterThan v.
Definition GreaterOrEqual (v : Value) : Condition := on_operand OpGreaterOrEqual v.
Definition In (vs : list Value) : Condition := mkCondition OpIn Value_zero vs Value_zero Value_zero.
Definition NotIn (vs : list Value) : Condition := mkCondition OpNotIn Value_zero vs Value_zero Value_zero.
Definition Between (low high : Value) : Condition := mkCondition OpBetween Value_zero [] low high.

Definition checkOperand (col : Column) (v : Value) : outcome rules_err unit :=
  _ ← Value_Validate v;
  fail_if (bool_decide (Value_Kind v <> col_Kind col)) ErrKindMismatch.

Fixpoint checkOperands (col : Column) (vs : list Value) : outcome rules_err unit :=
  match vs with
  | [] => Ok tt
  | v :: r => _ ← checkOperand col v; checkOperands col r
  end.

Definition Condition_Validate (c : Condition) (col : Column) : outcome rules_err unit :=
  _ ← Column_Validate col;
  _ ← fail_if (negb (Operator_Valid (cond_Op c))) ErrOperatorUnspecified;
  if decide (cond_Op c = OpAny) then Ok tt
  else
    _ ← match cond_Op c with
        | OpEqual | OpNotEqual | OpLessThan | OpLessOrEqual | OpGreaterThan | OpGreaterOrEqual =>
            checkOperand col (cond_Operand c)
        | OpIn | OpNotIn =>
            _ ← fail_if (length (cond_Operands c) =? 0)%nat ErrOperandCount;
            checkOperands col (cond_Operands c)
        | OpBetween =>
            _ ← checkOperand col (cond_Low c);
            checkOperand col (cond_High c)
        | _ => Ok tt
        end;
    fail_if (orderingOps (cond_Op c) && bool_decide (col_Kind col <> KindDecimal) && bool_decide (col_Kind col <> KindInt))
      ErrOperatorUnsupported.

(** The loops of IN and NOT_IN: the first equal operand decides. *)
Fixpoint match_any (input : Value) (vs : list Value) : outcome rules_err bool :=
  match vs with
  | [] => Ok false
  | o :: r => eq ← Value_Equal input o; if (eq : bool) then Ok true else match_any input r
  end.

Definition match_cmp (input operand : Value) (p : Z -> bool) : outcome rules_err bool :=
  cmp ← Value_Cmp input operand; Ok (p cmp).

Definition Condition_Match (c : Condition) (input : Value) : outcome rules_err bool :=
  match cond_Op c with
  | OpAny => Ok true
  | OpEqual => Value_Equal input (cond_Operand c)
  | OpNotEqual => eq ← Value_Equal input (cond_Operand c); Ok (negb eq)
  | OpLessThan => match_cmp input (cond_Operand c) (fun cmp => cmp <? 0)
  | OpLessOrEqual => match_cmp input (cond_Operand c) (fun cmp => cmp <=? 0)
  | OpGreaterThan => match_cmp input (cond_Operand c) (fun cmp => 0 <? cmp)
  | OpGreaterOrEqual => match_cmp input (cond_Operand c) (fun cmp => 0 <=? cmp)
  | OpIn => match_any input (cond_Operands c)
  | OpNotIn => found ← match_any input (cond_Operands c); Ok (negb found)
  | OpBetween =>
      low ← Value_Cmp input (cond_Low c);
      high ← Value_Cmp input (cond_High c);
      Ok ((0 <=? low) && (high <=? 0))
  | OpUnspecified | OpUndeclared _ => Err ErrOperatorUnspecified
  end.

Definition Condition_signature (c : Condition) : string :=
  match cond_Op c with
  | OpAny => "ANY"
  | OpIn | OpNotIn =>
      Operator_String (cond_Op c) +:+ "(" +:+ str_join "," (Value_String <$> cond_Operands c) +:+ ")"
  | OpBetween =>
      Operator_String (cond_Op c) +:+ "(" +:+ Value_String (cond_Low c) +:+ "," +:+ Value_String (cond_High c) +:+ ")"
  | _ => Operator_String (cond_Op c) +:+ "(" +:+ Value_String (cond_Operand c) +:+ ")"
  end.

(** * Tables *)

Inductive HitPolicy : Type :=
  | HitPolicyUnspecified | HitPolicyFirst | HitPolicyUnique | HitPolicyCollect
  | HitPolicyUndeclared (v : Z).

#[export] Instance HitPolicy_eq_dec : EqDecision HitPolicy.
Proof. solve_decision. Defined.

Definition hitPolicyWire : list (HitPolicy * string) :=
  [ (HitPolicyFirst, "FIRST"); (HitPolicyUnique, "UNIQUE"); (HitPolicyCollect, "COLLECT") ]%string.
Definition HitPolicy_String (h : HitPolicy) : string := default "HIT_POLICY_UNSPECIFIED" (wire_lookup hitPolicyWire h).
Definition HitPolicy_Valid (h : HitPolicy) : bool :=
  match wire_lookup hitPolicyWire h with Some _ => true | None => false end.

Record Row : Type := mkRow { row_ID : string; row_Conditions : list Condition; row_Outputs : list Value }.

Record Table : Type := mkTable {
  t_ID : string;
  t_Version : string;
  t_Inputs : list Column;
  t_Outputs : list Column;
  t_HitPolicy : HitPolicy;
  t_Rows : list Row
}.

Fixpoint validateColumns_loop (seen : gset string) (cols : list Column) : outcome rules_err unit :=
  match cols with
  | [] => Ok tt
  | c :: r =>
      _ ← Column_Validate c;
      _ ← fail_if (bool_decide (col_Name c ∈ seen)) ErrDuplicateColumn;
      validateColumns_loop ({[col_Name c]} ∪ seen) r
  end.
Definition validateColumns (cols : list Column) : outcome rules_err unit := validateColumns_loop ∅ cols.

(** The loop over the conditions of a row, whose number has been checked; it
    leaves their signatures. *)
Fixpoint validate_conditions (cols : list Column) (conds : list Condition) : outcome rules_err (list string) :=
  match conds with
  | [] => Ok []
  | cond :: conds' =>
      match cols with
      | [] => Panic
      | col :: cols' =>
          _ ← Condition_Validate cond col;
          sig ← validate_conditions cols' conds';
          Ok (Condition_signature cond :: sig)
      end
  end.

Fixpoint validate_outputs (cols : list Column) (outs : list Value) : outcome rules_err unit :=
  match outs with
  | [] => Ok tt
  | out :: outs' =>
      match cols with
      | [] => Panic
      | col :: cols' =>
          _ ← Value_Validate out;
          _ ← fail_if (bool_decide (Value_Kind out <> col_Kind col)) ErrKindMismatch;
          validate_outputs cols' outs'
      end
  end.

Fixpoint validate_rows (t : Table) (rowIDs signatures : gset string) (rows : list Row) : outcome rules_err unit :=
  match rows with
  | [] => Ok tt
  | row :: rest =>
      _ ← fail_if (String.eqb (row_ID row) "") ErrRowInvalid;
      _ ← fail_if (bool_decide (row_ID row ∈ rowIDs)) ErrDuplicateRowID;
      _ ← fail_if (negb (length (row_Conditions row) =? length (t_Inputs t))%nat) ErrRowInvalid;
      sig ← validate_conditions (t_Inputs t) (row_Conditions row);
      _ ← fail_if (negb (length (row_Outputs row) =? length (t_Outputs t))%nat) ErrRowInvalid;
      _ ← validate_outputs (t_Outputs t) (row_Outputs row);
      if decide (t_HitPolicy t = HitPolicyCollect)
      then validate_rows t ({[row_ID row]} ∪ rowIDs) signatures rest
      else
        let key := str_join "|" sig in
        _ ← fail_if (bool_decide (key ∈ signatures)) ErrAmbiguousRows;
        validate_rows t ({[row_ID row]} ∪ rowIDs) ({[key]} ∪ signatures) rest
  end.

Definition Table_Validate (t : Table) : outcome rules_err unit :=
  _ ← fail_if (String.eqb (t_ID t) "" || String.eqb (t_Version t) "") ErrTableIdentity;
  _ ← fail_if ((length (t_Inputs t) =? 0)%nat || (length (t_Outputs t) =? 0)%nat) ErrTableColumns;
  _ ← fail_if (negb (HitPolicy_Valid (t_HitPolicy t))) ErrHitPolicyUnspecified;
  _ ← validateColumns (t_Inputs t);
  _ ← validateColumns (t_Outputs t);
  _ ← fail_if (length (t_Rows t) =? 0)%nat ErrTableEmpty;
  validate_rows t ∅ ∅ (t_Rows t).

Definition tableSchema : string := "hcmnext.engines.rules.Table".

(** The writes of [Canonical], in order. *)
Definition column_ops (prefix : string) (c : Column) : list op :=
  [WString (prefix +:+ ".name") (col_Name c); WString (prefix +:+ ".kind") (Kind_String (col_Kind c))].
Definition row_ops (r : Row) : list op :=
  WString "row.id" (row_ID r) ::
  ((fun c => WString "row.condition" (Condition_signature c)) <$> row_Conditions r) ++
  ((fun o => WString "row.output" (Value_String o)) <$> row_Outputs r).
Definition table_ops (t : Table) : list op :=
  [WString "id" (t_ID t); WString "version" (t_Version t);
   WString "hit_policy" (HitPolicy_String (t_HitPolicy t));
   WCount "inputs" (Z.of_nat (length (t_Inputs t)))] ++
  mjoin (column_ops "input" <$> t_Inputs t) ++
  WCount "outputs" (Z.of_nat (length (t_Outputs t))) ::
  mjoin (column_ops "output" <$> t_Outputs t) ++
  WCount "rows" (Z.of_nat (length (t_Rows t))) ::
  mjoin (row_ops <$> t_Rows t).

Definition Table_Canonical (t : Table) : option (list Z) :=
  if is_ok (Table_Validate t) then
    match Writer_Bytes (ops_run (table_ops t) (New tableSchema schemaVersion)) with
    | Ok raw => Some raw
    | _ => None
    end
  else None.

Definition Table_Digest `{Sha256} (t : Table) : outcome rules_err string :=
  match Table_Canonical t with
  | None => Err ErrUndigestable
  | Some raw => Ok (Digest raw)
  end.

Definition Compile (table : Table) : outcome rules_err Table := _ ← Table_Validate table; Ok table.

(** * Evaluation *)

Inductive Status : Type := StatusUnspecified | StatusMatched | StatusUnknown | StatusConflict.

#[export] Instance Status_eq_dec : EqDecision Status.
Proof. solve_decision. Defined.

Record Match : Type := mkMatch { m_RowID : string; m_Outputs : list Value }.
Record ColumnTrace : Type := mkColumnTrace {
  ct_Column : string; ct_Operator : string; ct_Condition : string; ct_Input : string; ct_Matched : bool }.
Record RowTrace : Type := mkRowTrace { rt_RowID : string; rt_Matched : bool; rt_Columns : list ColumnTrace }.
Record Result : Type := mkResult {
  r_TableID : string;
  r_TableVersion : string;
  r_TableDigest : string;
  r_Status : Status;
  r_MatchedRowIDs : list string;
  r_Matches : list Match;
  r_Trace : list RowTrace
}.

(** The first loop of [Evaluate]: one checked value per declared column. *)
Fixpoint order_inputs (inputs : gmap string Value) (cols : list Column) : outcome rules_err (list Value) :=
  match cols with
  | [] => Ok []
  | col :: r =>
      match inputs !! col_Name col with
      | None => Err ErrMissingInput
      | Some v =>
          _ ← Value_Validate v;
          _ ← fail_if (bool_decide (Value_Kind v <> col_Kind col)) ErrKindMismatch;
          rest ← order_inputs inputs r;
          Ok (v :: rest)
      end
  end.

Definition undeclared_input (inputs : gmap string Value) (cols : list Column) : bool :=
  negb (size inputs =? length cols)%nat &&
  existsb (fun name => negb (existsb (fun col => String.eqb (col_Name col) name) cols)) (map_to_list inputs).*1.

(** The inner loop: every condition of the row is tested and traced. *)
Fixpoint eval_conditions (cols : list Column) (ordered : list Value) (conds : list Condition)
    : outcome rules_err (list ColumnTrace) :=
  match conds with
  | [] => Ok []
  | cond :: conds' =>
      match ordered, cols with
      | v :: ordered', col :: cols' =>
          ok ← Condition_Match cond v;
          rest ← eval_conditions cols' ordered' conds';
          Ok (mkColumnTrace (col_Name col) (Operator_String (cond_Op cond)) (Condition_signature cond)
                (Value_String v) ok :: rest)
      | _, _ => Panic
      end
  end.

Definition row_trace (t : Table) (ordered : list Value) (row : Row) : outcome rules_err RowTrace :=
  cts ← eval_conditions (t_Inputs t) ordered (row_Conditions row);
  Ok (mkRowTrace (row_ID row) (forallb ct_Matched cts) cts).

(** The outer loop, with the slices it appends to. *)
Fixpoint eval_rows (t : Table) (ordered : list Value) (rows : list Row)
    (ids : list string) (matches : list Match) (trace : list RowTrace)
    : outcome rules_err (list string * list Match * list RowTrace) :=
  match rows with
  | [] => Ok (ids, matches, trace)
  | row :: rest =>
      rt ← row_trace t ordered row;
      let trace' := trace ++ [rt] in
      if rt_Matched rt then
        let ids' := ids ++ [row_ID row] in
        let matches' := matches ++ [mkMatch (row_ID row) (row_Outputs row)] in
        if decide (t_HitPolicy t = HitPolicyFirst) then Ok (ids', matches', trace')
        else eval_rows t ordered rest ids' matches' trace'
      else eval_rows t ordered rest ids matches trace'
  end.

Definition status_of (h : HitPolicy) (matches : list Match) : Status :=
  match h with
  | HitPolicyFirst | HitPolicyCollect => if (length matches =? 0)%nat then StatusUnknown else StatusMatched
  | HitPolicyUnique =>
      match length matches with O => StatusUnknown | S O => StatusMatched | _ => StatusConflict end
  | _ => StatusUnspecified
  end.

Definition Evaluate `{Sha256} (table : Table) (inputs : gmap string Value) : outcome rules_err Result :=
  _ ← Table_Validate table;
  ordered ← order_inputs inputs (t_Inputs table);
  _ ← fail_if (undeclared_input inputs (t_Inputs table)) ErrUnknownInput;
  digest ← Table_Digest table;
  '(ids, matches, trace) ← eval_rows table ordered (t_Rows table) [] [] [];
  Ok (mkResult (t_ID table) (t_Version table) digest (status_of (t_HitPolicy table) matches) ids matches trace).

(** * Specification *)

Definition numeric (k : Kind) : Prop := k = KindDecimal \/ k = KindInt.

Definition col_ok (c : Column) : Prop :=
  col_Name c <> "" /\ col_Kind c <> KindUnspecified /\ col_Kind c <> KindList.

Definition operand_ok (col : Column) (v : Value) : Prop := value_wf v /\ Value_Kind v = col_Kind col.

(** A condition that may stand in a row under the column. *)
Definition cond_ok (col : Column) (c : Condition) : Prop :=
  match cond_Op c with
  | OpAny => True
  | OpEqual | OpNotEqual => operand_ok col (cond_Operand c)
  | OpLessThan | OpLessOrEqual | OpGreaterThan | OpGreaterOrEqual =>
      operand_ok col (cond_Operand c) /\ numeric (col_Kind col)
  | OpIn | OpNotIn => cond_Operands c <> [] /\ Forall (operand_ok col) (cond_Operands c)
  | OpBetween => operand_ok col (cond_Low c) /\ operand_ok col (cond_High c) /\ numeric (col_Kind col)
  | _ => False
  end.

Definition compares (v o : Value) (P : Z -> Prop) : Prop := exists c, Value_Cmp v o = Ok c /\ P c.

(** What a condition says of a value. *)
Definition cond_holds (c : Condition) (v : Value) : Prop :=
  match cond_Op c with
  | OpAny => True
  | OpEqual => value_eqv v (cond_Operand c)
  | OpNotEqual => ~ value_eqv v (cond_Operand c)
  | OpLessThan => compares v (cond_Operand c) (fun z => z < 0)
  | OpLessOrEqual => compares v (cond_Operand c) (fun z => z <= 0)
  | OpGreaterThan => compares v (cond_Operand c) (fun z => 0 < z)
  | OpGreaterOrEqual => compares v (cond_Operand c) (fun z => 0 <= z)
  | OpIn => exists o, o ∈ cond_Operands c /\ value_eqv v o
  | OpNotIn => ~ exists o, o ∈ cond_Operands c /\ value_eqv v o
  | OpBetween => compares v (cond_Low c) (fun z => 0 <= z) /\ compares v (cond_High c) (fun z => z <= 0)
  | _ => False
  end.

Definition row_signature (r : Row) : string := str_join "|" (Condition_signature <$> row_Conditions r).

Record row_ok (t : Table) (r : Row) : Prop := {
  row_ok_id : row_ID r <> "";
  row_ok_conditions : Forall2 cond_ok (t_Inputs t) (row_Conditions r);
  row_ok_outputs : Forall2 operand_ok (t_Outputs t) (row_Outputs r)
}.

(** A table whose columns and rows are well formed. *)
Record typed_table (t : Table) : Prop := {
  pub_identity : t_ID t <> "" /\ t_Version t <> "";
  pub_columns : t_Inputs t <> [] /\ t_Outputs t <> [];
  pub_policy : t_HitPolicy t = HitPolicyFirst \/ t_HitPolicy t = HitPolicyUnique \/ t_HitPolicy t = HitPolicyCollect;
  pub_inputs : Forall col_ok (t_Inputs t) /\ NoDup (col_Name <$> t_Inputs t);
  pub_outputs : Forall col_ok (t_Outputs t) /\ NoDup (col_Name <$> t_Outputs t);
  pub_nonempty : t_Rows t <> [];
  pub_rows : Forall (row_ok t) (t_Rows t) /\ NoDup (row_ID <$> t_Rows t)
}.

(** What [Validate] accepts: it compares rows by the texts of their conditions. *)
Record publishable (t : Table) : Prop := {
  pub_typed : typed_table t;
  pub_distinct : t_HitPolicy t <> HitPolicyCollect -> NoDup (row_signature <$> t_Rows t)
}.

(** The operands of a condition, as they are written. *)
Definition operand_texts (c : Condition) : list string :=
  match cond_Op c with
  | OpAny => []
  | OpIn | OpNotIn => Value_String <$> cond_Operands c
  | OpBetween => [Value_String (cond_Low c); Value_String (cond_High c)]
  | _ => [Value_String (cond_Operand c)]
  end.

(** Two rows declare the same conditions: in every column the same operator
    with the same operands. *)
Definition same_condition (c d : Condition) : Prop := cond_Op c = cond_Op d /\ operand_texts c = operand_texts d.
Definition same_conditions (r s : Row) : Prop := Forall2 same_condition (row_Conditions r) (row_Conditions s).

(** No two rows of a table declare the same conditions. *)
Definition distinct_rows (t : Table) : Prop :=
  forall i j r s, t_Rows t !! i = Some r -> t_Rows t !! j = Some s -> same_conditions r s -> i = j.

(** No operand is written with a comma or a bar. *)
Definition plain_text (s : string) : Prop := str_contains "," s = false /\ str_contains "|" s = false.
Definition plain_table (t : Table) : Prop :=
  forall r c s, r ∈ t_Rows t -> c ∈ row_Conditions r -> s ∈ operand_texts c -> plain_text s.

(** The inputs a table can be evaluated on: one well-typed value per column and
    nothing else. *)
Definition inputs_fit (t : Table) (inputs : gmap string Value) : Prop :=
  Forall (fun col => exists v, inputs !! col_Name col = Some v /\ operand_ok col v) (t_Inputs t) /\
  (forall name, is_Some (inputs !! name) -> name ∈ col_Name <$> t_Inputs t).

(** The decision of a row: every condition holds of the input of its column. *)
Definition row_holds (t : Table) (inputs : gmap string Value) (r : Row) : Prop :=
  Forall2 (fun col c => exists v, inputs !! col_Name col = Some v /\ cond_holds c v) (t_Inputs t) (row_Conditions r).

Definition row_test (t : Table) (inputs : gmap string Value) (r : Row) : bool :=
  forallb (fun p =>
    match inputs !! col_Name p.1 with
    | Some v => match Condition_Match p.2 v with Ok b => b | _ => false end
    | None => false
    end) (zip (t_Inputs t) (row_Conditions r)).

(** * Validation *)

Lemma bind_ok_iff {E A} (m : outcome E unit) (k : unit -> outcome E A) b :
  (m ≫= k) = Ok b <-> m = Ok tt /\ k tt = Ok b.
Proof. destruct m as [[]| |]; cbn; naive_solver. Qed.

Lemma Column_Validate_ok c : Column_Validate c = Ok tt <-> col_ok c.
Proof.
  unfold Column_Validate, col_ok. rewrite !bind_ok_iff, !fail_if_ok_iff.
  rewrite String.eqb_neq, bool_decide_eq_false. destruct (col_Kind c); vm_compute; naive_solver.
Qed.

Lemma checkOperand_ok col v : checkOperand col v = Ok tt <-> operand_ok col v.
Proof.
  unfold checkOperand, operand_ok. rewrite bind_ok_iff, fail_if_ok_iff, Value_Validate_ok.
  destruct (bool_decide_reflect (Value_Kind v <> col_Kind col)); destruct (decide (Value_Kind v = col_Kind col)); naive_solver.
Qed.

Lemma checkOperands_ok col vs : checkOperands col vs = Ok tt <-> Forall (operand_ok col) vs.
Proof.
  induction vs as [|v vs IH]; cbn; [split; [constructor|done]|].
  rewrite bind_ok_iff, checkOperand_ok, IH. symmetry. apply Forall_cons.
Qed.

Lemma ordering_ok (o : Operator) (k : Kind) :
  fail_if (orderingOps o && bool_decide (k <> KindDecimal) && bool_decide (k <> KindInt)) ErrOperatorUnsupported = Ok tt
  <-> orderingOps o = false \/ numeric k.
Proof.
  rewrite fail_if_ok_iff. unfold numeric. destruct (orderingOps o), k; vm_compute; naive_solver.
Qed.

Lemma Condition_Validate_ok col c : Condition_Validate c col = Ok tt <-> col_ok col /\ cond_ok col c.
Proof.
  unfold Condition_Validate, cond_ok. rewrite !bind_ok_iff, Column_Validate_ok, fail_if_ok_iff.
  set (tail := fail_if (orderingOps _ && _ && _) _).
  assert (Ht : tail = Ok tt <-> orderingOps (cond_Op c) = false \/ numeric (col_Kind col)) by apply ordering_ok.
  clearbody tail.
  destruct (cond_Op c); first [rewrite decide_True by done|rewrite decide_False by discriminate];
    cbn [orderingOps] in Ht; rewrite ?bind_ok_iff, ?checkOperand_ok, ?checkOperands_ok, ?Ht, ?fail_if_ok_iff, ?Nat.eqb_neq;
    try (replace (negb (Operator_Valid _)) with false by reflexivity);
    try (replace (negb (Operator_Valid _)) with true by reflexivity); try naive_solver.
  all: assert (Hlen : length (cond_Operands c) <> 0%nat <-> cond_Operands c <> []) by
    (destruct (cond_Operands c); split; intros; try done; cbn; lia); naive_solver.
Qed.

Lemma HitPolicy_Valid_iff h :
  HitPolicy_Valid h = true <-> h = HitPolicyFirst \/ h = HitPolicyUnique \/ h = HitPolicyCollect.
Proof. destruct h; vm_compute; naive_solver. Qed.

Lemma validateColumns_loop_ok seen cols : validateColumns_loop seen cols = Ok tt <->
  Forall col_ok cols /\ NoDup (col_Name <$> cols) /\ (forall c, c ∈ cols -> col_Name c ∉ seen).
Proof.
  revert seen. induction cols as [|c cols IH]; intros seen; cbn.
  { split; [|done]. intros _. split_and!; [constructor|constructor|set_solver]. }
  rewrite !bind_ok_iff, Column_Validate_ok, fail_if_ok_iff, bool_decide_eq_false, IH, Forall_cons, NoDup_cons.
  rewrite list_elem_of_fmap. split.
  - intros (H1 & H2 & H3 & H4 & H5). split_and!; try done.
    + intros (y & E & Hy). apply (H5 y Hy). rewrite E. set_solver.
    + intros x [->|Hx]%elem_of_cons; [done|]. specialize (H5 x Hx). set_solver.
  - intros ((H1 & H2) & (H3 & H4) & H5). split_and!; try done.
    + apply H5. by left.
    + intros x Hx. specialize (H5 x ltac:(by right)).
      assert (col_Name x <> col_Name c) by (intros E; apply H3; by exists x). set_solver.
Qed.

Lemma validateColumns_ok cols : validateColumns cols = Ok tt <-> Forall col_ok cols /\ NoDup (col_Name <$> cols).
Proof. unfold validateColumns. rewrite validateColumns_loop_ok. set_solver. Qed.

Lemma validate_conditions_ok cols conds sig : Forall col_ok cols -> length conds = length cols ->
  validate_conditions cols conds = Ok sig <-> Forall2 cond_ok cols conds /\ sig = Condition_signature <$> conds.
Proof.
  intros Hc. revert conds sig. induction Hc as [|col cols Hcol _ IH]; intros [|c conds] sig Hl; try discriminate Hl; cbn.
  { split; [intros [= <-]; by split|by intros [_ ->]]. }
  injection Hl as Hl. split.
  - intros H. apply bind_ok_iff in H as [H1 H2]. apply Condition_Validate_ok in H1 as [_ H1].
    apply bind_ok_inv in H2 as (s & H2 & H3). apply IH in H2 as [H2 ->]; [|done]. injection H3 as <-.
    split; [by constructor|done].
  - intros [H ->]. inversion H; subst. apply bind_ok_iff. split; [by apply Condition_Validate_ok|].
    rewrite (proj2 (IH conds (Condition_signature <$> conds) Hl)); [done|by split].
Qed.

Lemma validate_conditions_err cols conds : Forall col_ok cols -> length conds = length cols ->
  validate_conditions cols conds <> Panic.
Proof.
  intros Hc. revert conds. induction Hc as [|col cols Hcol _ IH]; intros [|c conds] Hl; try discriminate Hl; cbn; [done|].
  injection Hl as Hl. apply bind_no_panic.
  - unfold Condition_Validate, Column_Validate, checkOperand.
    assert (Hop : forall vs, checkOperands col vs <> Panic).
    { clear. induction vs; cbn; unfold checkOperand; no_panic. }
    no_panic; apply Hop.
  - intros _ _. specialize (IH conds Hl). no_panic.
Qed.

Lemma validate_outputs_ok cols outs : length outs = length cols ->
  validate_outputs cols outs = Ok tt <-> Forall2 operand_ok cols outs.
Proof.
  revert outs. induction cols as [|col cols IH]; intros [|o outs] Hl; try discriminate Hl; cbn; [split; constructor|].
  injection Hl as Hl. rewrite !bind_ok_iff, Value_Validate_ok, fail_if_ok_iff, bool_decide_eq_false, IH by done.
  unfold operand_ok. split.
  - intros (H1 & H2 & H3). constructor; [|done]. split; [done|]. by destruct (decide (Value_Kind o = col_Kind col)).
  - inversion 1 as [|? ? ? ? [H1 H2] H3]; subst. split_and!; [done|congruence|done].
Qed.

Lemma validate_outputs_no_panic cols outs : length outs = length cols -> validate_outputs cols outs <> Panic.
Proof.
  revert outs. induction cols as [|col cols IH]; intros [|o outs] Hl; try discriminate Hl; cbn; [done|].
  injection Hl as Hl. specialize (IH outs Hl). no_panic.
Qed.

(** A row alone, without its uniqueness. *)
Lemma row_checks_ok t row sig : Forall col_ok (t_Inputs t) ->
  (fail_if (String.eqb (row_ID row) "") ErrRowInvalid = Ok tt /\
   fail_if (negb (length (row_Conditions row) =? length (t_Inputs t))%nat) ErrRowInvalid = Ok tt /\
   validate_conditions (t_Inputs t) (row_Conditions row) = Ok sig /\
   fail_if (negb (length (row_Outputs row) =? length (t_Outputs t))%nat) ErrRowInvalid = Ok tt /\
   validate_outputs (t_Outputs t) (row_Outputs row) = Ok tt) <->
  row_ok t row /\ sig = Condition_signature <$> row_Conditions row.
Proof.
  intros Hc. rewrite !fail_if_ok_iff, !negb_false_iff, !Nat.eqb_eq, String.eqb_neq. split.
  - intros (H1 & H2 & H3 & H4 & H5). apply validate_conditions_ok in H3 as [H3 ->]; [|done..].
    apply validate_outputs_ok in H5; [|done]. by split.
  - intros [[H1 H2 H3] ->]. pose proof (Forall2_length _ _ _ H2). pose proof (Forall2_length _ _ _ H3).
    split_and!; try done. + by apply validate_conditions_ok. + by apply validate_outputs_ok.
Qed.

Lemma validate_rows_ok t ids sigs rows : Forall col_ok (t_Inputs t) ->
  validate_rows t ids sigs rows = Ok tt <->
  Forall (row_ok t) rows /\ NoDup (row_ID <$> rows) /\ (forall r, r ∈ rows -> row_ID r ∉ ids) /\
  (t_HitPolicy t <> HitPolicyCollect ->
     NoDup (row_signature <$> rows) /\ (forall r, r ∈ rows -> row_signature r ∉ sigs)).
Proof.
  intros Hc. revert ids sigs. induction rows as [|row rows IH]; intros ids sigs; cbn.
  { split; [|done]. intros _. split_and!; [constructor|constructor|set_solver|]. intros _. split; [constructor|set_solver]. }
  rewrite !Forall_cons, !NoDup_cons, !list_elem_of_fmap. split.
  - intros H. apply bind_ok_iff in H as [H1 H]. apply bind_ok_iff in H as [H2 H]. apply bind_ok_iff in H as [H3 H].
    apply bind_ok_inv in H as (sig & H4 & H). apply bind_ok_iff in H as [H5 H]. apply bind_ok_iff in H as [H6 H].
    destruct (proj1 (row_checks_ok t row sig Hc) (conj H1 (conj H3 (conj H4 (conj H5 H6))))) as [Hrow ->].
    apply fail_if_ok_iff, bool_decide_eq_false in H2.
    destruct (decide (t_HitPolicy t = HitPolicyCollect)) as [E|E].
    + apply IH in H as (G1 & G2 & G3 & _). split_and!; try done.
      * intros (r & E2 & Hr). apply (G3 r Hr). rewrite E2. set_solver.
      * intros r [->|Hr]%elem_of_cons; [done|]. specialize (G3 r Hr). set_solver.
    + apply bind_ok_iff in H as [H7 H]. apply fail_if_ok_iff, bool_decide_eq_false in H7.
      apply IH in H as (G1 & G2 & G3 & G4). destruct (G4 E) as [G5 G6]. split_and!; try done.
      * intros (r & E2 & Hr). apply (G3 r Hr). rewrite E2. set_solver.
      * intros r [->|Hr]%elem_of_cons; [done|]. specialize (G3 r Hr). set_solver.
      * intros _. split; [split; [|done]|].
        -- intros (r & E2 & Hr). apply (G6 r Hr). rewrite <- E2. set_solver.
        -- intros r [->|Hr]%elem_of_cons; [done|]. specialize (G6 r Hr). set_solver.
  - intros ([Hrow G1] & [Hn G2] & G3 & G4).
    destruct (proj2 (row_checks_ok t row _ Hc) (conj Hrow eq_refl)) as (H1 & H3 & H4 & H5 & H6).
    rewrite H1, H3. cbn. rewrite H4. cbn. rewrite H5, H6. cbn.
    rewrite (bool_decide_false (row_ID row ∈ ids)) by (apply G3; by left). cbn.
    assert (G3' : forall r, r ∈ rows -> row_ID r ∉ ({[row_ID row]} ∪ ids : gset string)).
    { intros r Hr. specialize (G3 r ltac:(by right)). assert (row_ID r <> row_ID row) by (intros E; apply Hn; by exists r). set_solver. }
    destruct (decide (t_HitPolicy t = HitPolicyCollect)) as [E|E]; [by apply IH|].
    destruct (G4 E) as [[Hs G5] G6].
    change (str_join "|" (Condition_signature <$> row_Conditions row)) with (row_signature row).
    rewrite (bool_decide_false (row_signature row ∈ sigs)) by (apply G6; by left). cbn.
    apply IH. split_and!; try done. intros _. split; [done|]. intros r Hr. specialize (G6 r ltac:(by right)).
    assert (row_signature r <> row_signature row) by (intros E2; apply Hs; by exists r). set_solver.
Qed.

Lemma Table_Validate_ok t : Table_Validate t = Ok tt <-> publishable t.
Proof.
  unfold Table_Validate. rewrite !bind_ok_iff, !fail_if_ok_iff, !orb_false_iff, !String.eqb_neq, !Nat.eqb_neq,
    negb_false_iff, HitPolicy_Valid_iff, !validateColumns_ok.
  assert (Hl : forall {A} (l : list A), length l <> 0%nat <-> l <> []) by (intros A [|]; cbn; naive_solver lia).
  rewrite !Hl. split.
  - intros (H1 & H2 & H3 & H4 & H5 & H6 & H7). apply validate_rows_ok in H7 as (G1 & G2 & _ & G3); [|tauto].
    split; [by split|]. intros E. by apply G3.
  - intros [[H1 H2 H3 H4 H5 H6 [H7 H8]] H9]. split_and!; try tauto.
    apply validate_rows_ok; [tauto|]. split_and!; [done|done|set_solver|]. intros E. split; [auto|set_solver].
Qed.

Lemma Column_Validate_no_panic c : Column_Validate c <> Panic.
Proof. unfold Column_Validate. no_panic. Qed.

Lemma validateColumns_no_panic cols : validateColumns cols <> Panic.
Proof.
  unfold validateColumns. generalize (∅ : gset string). induction cols as [|c cols IH]; intros seen; cbn; [done|].
  apply bind_no_panic; [apply Column_Validate_no_panic|]. intros _ _. no_panic.
Qed.

Lemma validate_rows_no_panic t ids sigs rows : Forall col_ok (t_Inputs t) -> validate_rows t ids sigs rows <> Panic.
Proof.
  intros Hc. revert ids sigs. induction rows as [|row rows IH]; intros ids sigs; cbn; [done|].
  apply bind_no_panic; [auto with panics|intros ? _]. apply bind_no_panic; [auto with panics|intros ? _].
  apply bind_no_panic; [auto with panics|]. intros [] H1. apply fail_if_ok_iff, negb_false_iff, Nat.eqb_eq in H1.
  apply bind_no_panic; [by apply validate_conditions_err|intros sig _].
  apply bind_no_panic; [auto with panics|]. intros [] H2. apply fail_if_ok_iff, negb_false_iff, Nat.eqb_eq in H2.
  apply bind_no_panic; [by apply validate_outputs_no_panic|intros _ _]. no_panic.
Qed.

Lemma Table_Validate_no_panic t : Table_Validate t <> Panic.
Proof.
  unfold Table_Validate. do 3 (apply bind_no_panic; [auto with panics|intros ? _]).
  apply bind_no_panic; [apply validateColumns_no_panic|]. intros [] H%validateColumns_ok.
  apply bind_no_panic; [apply validateColumns_no_panic|intros ? _].
  apply bind_no_panic; [auto with panics|intros ? _]. apply validate_rows_no_panic. tauto.
Qed.
#[export] Hint Resolve Table_Validate_no_panic : panics.

(** * Matching *)

Lemma Value_Equal_same_kind col v o : col_ok col -> operand_ok col v -> operand_ok col o ->
  exists b, Value_Equal v o = Ok b /\ (b = true <-> value_eqv v o).
Proof.
  intros (_ & Hu & Hl) [Hv Hk] [Ho Hk2]. rewrite <- Hk in Hk2, Hu, Hl.
  assert (H : is_ok (Value_Equal v o) = true) by (destruct v, o; try discriminate Hk2; try done; by destruct Hl).
  apply is_ok_true in H as [b E]. exists b. split; [done|].
  rewrite <- Value_Equal_true, E. split; congruence.
Qed.

Lemma match_any_spec col v os : col_ok col -> operand_ok col v -> Forall (operand_ok col) os ->
  exists b, match_any v os = Ok b /\ (b = true <-> exists o, o ∈ os /\ value_eqv v o).
Proof.
  intros Hc Hv. induction 1 as [|o os Ho _ (b & E & Hb)]; cbn.
  { exists false. split; [done|]. split; [done|]. intros (o & Ho & _). by apply elem_of_nil in Ho. }
  destruct (Value_Equal_same_kind col v o Hc Hv Ho) as (eq & -> & Heq). cbn. destruct eq.
  - exists true. split; [done|]. split; [|done]. intros _. exists o. split; [by left|by apply Heq].
  - exists b. split; [done|]. rewrite Hb. split.
    + intros (x & Hx & H). exists x. split; [by right|done].
    + intros (x & [->|Hx]%elem_of_cons & H); [by apply Heq in H|by exists x].
Qed.

Lemma Value_Cmp_numeric col v o : operand_ok col v -> operand_ok col o -> numeric (col_Kind col) ->
  exists c, Value_Cmp v o = Ok c.
Proof.
  intros [_ Hk] [_ Hk2] Hn. rewrite Value_Cmp_cases. rewrite <- Hk in *.
  destruct v, o; try discriminate Hk2; cbn in Hn; unfold numeric in Hn; eauto; destruct Hn; discriminate.
Qed.

Lemma match_cmp_spec col v o (p : Z -> bool) (P : Z -> Prop) : (forall z, p z = true <-> P z) ->
  operand_ok col v -> operand_ok col o -> numeric (col_Kind col) ->
  exists b, match_cmp v o p = Ok b /\ (b = true <-> compares v o P).
Proof.
  intros Hp Hv Ho Hn. destruct (Value_Cmp_numeric col v o Hv Ho Hn) as [c E].
  exists (p c). unfold match_cmp, compares. rewrite E. cbn. split; [done|]. rewrite Hp.
  split; [by exists c|]. by intros (? & [= <-] & ?).
Qed.

(** A condition that passed validation decides every value of its column. *)
Lemma Condition_Match_spec col c v : col_ok col -> cond_ok col c -> operand_ok col v ->
  exists b, Condition_Match c v = Ok b /\ (b = true <-> cond_holds c v).
Proof.
  intros Hc Hok Hv. unfold cond_ok, cond_holds, Condition_Match in *. destruct (cond_Op c); try done.
  - by exists true.
  - by apply (Value_Equal_same_kind col).
  - destruct (Value_Equal_same_kind col v _ Hc Hv Hok) as (b & -> & Hb). exists (negb b). split; [done|].
    rewrite <- Hb. destruct b; naive_solver.
  - destruct Hok. apply (match_cmp_spec col); try done. intros. lia.
  - destruct Hok. apply (match_cmp_spec col); try done. intros. lia.
  - destruct Hok. apply (match_cmp_spec col); try done. intros. lia.
  - destruct Hok. apply (match_cmp_spec col); try done. intros. lia.
  - destruct Hok. by apply (match_any_spec col).
  - destruct Hok as [_ Hok]. destruct (match_any_spec col v _ Hc Hv Hok) as (b & -> & Hb). exists (negb b).
    split; [done|]. rewrite <- Hb. destruct b; naive_solver.
  - destruct Hok as (H1 & H2 & H3).
    destruct (Value_Cmp_numeric col v _ Hv H1 H3) as [lo E1], (Value_Cmp_numeric col v _ Hv H2 H3) as [hi E2].
    rewrite E1, E2. cbn. eexists. split; [done|]. unfold compares. rewrite E1, E2, andb_true_iff, !Z.leb_le.
    naive_solver.
Qed.

(** * Inputs *)

Lemma order_inputs_ok inputs cols vs : order_inputs inputs cols = Ok vs <->
  Forall2 (fun col v => inputs !! col_Name col = Some v /\ operand_ok col v) cols vs.
Proof.
  revert vs. induction cols as [|col cols IH]; intros vs; cbn.
  { split; [intros [= <-]; constructor|by inversion 1]. }
  destruct (inputs !! col_Name col) as [v|] eqn:E.
  - split.
    + intros H. apply bind_ok_iff in H as [H1 H]. apply bind_ok_iff in H as [H2 H].
      apply bind_ok_inv in H as (r & H3 & H4). injection H4 as <-. apply IH in H3. constructor; [|done]. split; [done|].
      apply Value_Validate_ok in H1. apply fail_if_ok_iff, bool_decide_eq_false in H2. split; [done|].
      by destruct (decide (Value_Kind v = col_Kind col)).
    + inversion 1 as [|? w ? vs' [E2 [H1 H2]] H3]; subst. rewrite E in E2. injection E2 as <-.
      rewrite (proj2 (Value_Validate_ok v) H1). cbn. rewrite bool_decide_false by (intros H4; by apply H4). cbn.
      by rewrite (proj2 (IH vs') H3).
  - split; [done|]. inversion 1; naive_solver.
Qed.

Lemma order_inputs_no_panic inputs cols : order_inputs inputs cols <> Panic.
Proof. induction cols as [|col cols IH]; cbn; no_panic. Qed.

Lemma undeclared_input_false inputs cols : NoDup (col_Name <$> cols) ->
  Forall (fun col => is_Some (inputs !! col_Name col)) cols ->
  undeclared_input inputs cols = false <-> (forall name, is_Some (inputs !! name) -> name ∈ col_Name <$> cols).
Proof.
  intros Hnd Hall. unfold undeclared_input.
  assert (Hsub : list_to_set (col_Name <$> cols) ⊆@{gset string} dom inputs).
  { intros n. rewrite elem_of_list_to_set, list_elem_of_fmap. intros (c & -> & Hc).
    apply elem_of_dom. by eapply Forall_forall in Hall. }
  assert (Hsize : size (list_to_set (C := gset string) (col_Name <$> cols)) = length cols).
  { rewrite size_list_to_set by done. apply length_fmap. }
  rewrite andb_false_iff, negb_false_iff, Nat.eqb_eq. split.
  - intros [H|H] n Hn.
    + apply elem_of_dom in Hn. rewrite <- size_dom, <- Hsize in H.
      pose proof (set_subseteq_size_eq _ _ Hsub ltac:(lia)) as He. rewrite <- He in Hn. by apply elem_of_list_to_set in Hn.
    + destruct (decide (n ∈ col_Name <$> cols)) as [|Hno]; [done|]. exfalso.
      apply Bool.not_true_iff_false in H. apply H. apply existsb_exists. exists n. split.
      * destruct Hn as [v Hv]. apply list_elem_of_In, list_elem_of_fmap. exists (n, v). split; [done|]. by apply elem_of_map_to_list.
      * apply negb_true_iff, Bool.not_true_iff_false. rewrite existsb_exists. intros (c & Hc & E%String.eqb_eq).
        apply Hno, list_elem_of_fmap. exists c. split; [done|]. by apply list_elem_of_In.
  - intros H. left. rewrite <- size_dom, <- Hsize. f_equal. apply set_eq. intros n. rewrite elem_of_dom. split; [|].
    + intros Hn. apply elem_of_list_to_set. auto.
    + intros Hn. apply elem_of_dom. by apply Hsub.
Qed.

(** * Evaluation *)

(** The rows the policy looks at, and those among them that it returns. *)
Fixpoint upto_first {A} (p : A -> bool) (l : list A) : list A :=
  match l with [] => [] | x :: r => if p x then [x] else x :: upto_first p r end.

Definition visited (t : Table) (inputs : gmap string Value) : list Row :=
  if decide (t_HitPolicy t = HitPolicyFirst) then upto_first (row_test t inputs) (t_Rows t) else t_Rows t.

Definition hits (t : Table) (inputs : gmap string Value) : list Row :=
  filter (fun r => row_test t inputs r = true) (visited t inputs).

Definition as_match (r : Row) : Match := mkMatch (row_ID r) (row_Outputs r).

Section evaluation.
Context (t : Table) (inputs : gmap string Value) (ordered : list Value).
Hypothesis Hpub : publishable t.
Hypothesis Hord : order_inputs inputs (t_Inputs t) = Ok ordered.

Lemma eval_conditions_spec cols vs conds :
  Forall col_ok cols -> Forall2 (fun col v => inputs !! col_Name col = Some v /\ operand_ok col v) cols vs ->
  Forall2 cond_ok cols conds ->
  exists cts, eval_conditions cols vs conds = Ok cts /\
    forallb ct_Matched cts = forallb (fun p =>
      match inputs !! col_Name p.1 with
      | Some v => match Condition_Match p.2 v with Ok b => b | _ => false end
      | None => false
      end) (zip cols conds) /\
    (forallb ct_Matched cts = true <->
       Forall2 (fun col c => exists v, inputs !! col_Name col = Some v /\ cond_holds c v) cols conds).
Proof using.
  intros Hc Hv. revert conds. induction Hv as [|col v cols vs [E Hv] _ IH]; intros conds Hcond; inversion Hcond as [|? c ? conds' Hc1 Hc2]; subst; cbn.
  { exists []. split_and!; [done|done|]. split; [constructor|done]. }
  inversion Hc as [|? ? Hc3 Hc4]; subst.
  destruct (Condition_Match_spec col c v Hc3 Hc1 Hv) as (b & E2 & Hb).
  destruct (IH Hc4 conds' Hc2) as (cts & E3 & E4 & E5).
  rewrite E2. cbn. rewrite E3. cbn. eexists. split; [done|]. cbn. rewrite E, E2, E4. split; [done|].
  rewrite andb_true_iff, Hb, <- E4, E5. split.
  - intros [H1 H2]. constructor; [|done]. by exists v.
  - inversion 1 as [|? ? ? ? (w & E6 & H1) H2]; subst. rewrite E in E6. injection E6 as <-. done.
Qed.

Lemma row_trace_spec r : row_ok t r -> exists cts, row_trace t ordered r = Ok (mkRowTrace (row_ID r) (row_test t inputs r) cts) /\
  (row_test t inputs r = true <-> row_holds t inputs r).
Proof using Hpub Hord.
  intros [_ H2 _]. unfold row_trace, row_test, row_holds.
  destruct (eval_conditions_spec (t_Inputs t) ordered (row_Conditions r)) as (cts & E1 & E2 & E3); [apply Hpub|by apply order_inputs_ok|done|].
  exists cts. rewrite E1, <- E2. done.
Qed.

Lemma eval_rows_spec rows ids ms tr : Forall (row_ok t) rows ->
  let vis := if decide (t_HitPolicy t = HitPolicyFirst) then upto_first (row_test t inputs) rows else rows in
  let sel := filter (fun r => row_test t inputs r = true) vis in
  exists rts, eval_rows t ordered rows ids ms tr = Ok (ids ++ (row_ID <$> sel), ms ++ (as_match <$> sel), tr ++ rts) /\
    rt_RowID <$> rts = row_ID <$> vis /\ rt_Matched <$> rts = row_test t inputs <$> vis.
Proof using Hpub Hord.
  intros Hrows. revert ids ms tr. induction Hrows as [|r rows Hr _ IH]; intros ids ms tr; cbn zeta.
  { exists []. case_decide; cbn; rewrite !app_nil_r; done. }
  cbn [eval_rows upto_first]. destruct (row_trace_spec r Hr) as (cts & -> & _). cbn [mbind outcome_bind rt_Matched].
  cbn zeta in IH. destruct (row_test t inputs r) eqn:Er.
  - destruct (decide (t_HitPolicy t = HitPolicyFirst)) as [Ef|Ef].
    + exists [mkRowTrace (row_ID r) true cts]. rewrite filter_cons_True, filter_nil by done. cbn. by rewrite Er.
    + destruct (IH (ids ++ [row_ID r]) (ms ++ [mkMatch (row_ID r) (row_Outputs r)]) (tr ++ [mkRowTrace (row_ID r) true cts]))
        as (rts & E1 & E2 & E3).
      exists (mkRowTrace (row_ID r) true cts :: rts). rewrite E1, filter_cons_True by done.
      rewrite <- !app_assoc. cbn. by rewrite E2, E3, Er.
  - destruct (IH ids ms (tr ++ [mkRowTrace (row_ID r) false cts])) as (rts & E1 & E2 & E3).
    exists (mkRowTrace (row_ID r) false cts :: rts). rewrite E1, <- app_assoc. cbn [app].
    destruct (decide (t_HitPolicy t = HitPolicyFirst)) as [Ef|Ef];
      rewrite filter_cons_False by congruence; cbn; by rewrite E2, E3, Er.
Qed.
End evaluation.

(** The writes of a table never lack a tag. *)
Lemma ops_tagged os : Forall (fun o => match o with WString tag _ | WCount tag _ => tag <> "" | _ => False end) os ->
  ops_fields os <> None.
Proof.
  induction 1 as [|o os Ho _ IH]; cbn; [done|].
  destruct (ops_fields os) as [fs|]; [|done]. destruct o; try done; cbn in *; unfold tagged.
  - destruct (String.eqb_spec tag ""); done.
  - by destruct tag.
Qed.

Lemma table_ops_tagged t :
  Forall (fun o => match o with WString tag _ | WCount tag _ => tag <> "" | _ => False end) (table_ops t).
Proof.
  assert (Hc : forall p cs, Forall (fun o => match o with WString tag _ | WCount tag _ => tag <> "" | _ => False end)
      (mjoin (column_ops p <$> cs))).
  { intros p cs. induction cs as [|c cs IH]; cbn; [constructor|]. repeat (constructor; [by destruct p|]). done. }
  unfold table_ops. repeat apply Forall_app_2 || (constructor; [done|]) || apply Hc || constructor.
  induction (t_Rows t) as [|r rs IH]; cbn; [constructor|]. constructor; [done|].
  apply Forall_app_2; [|done]. apply Forall_app_2; apply Forall_fmap, Forall_forall; intros; done.
Qed.

Lemma ops_no_err os w : w_err w = None ->
  Forall (fun o => match o with WString tag _ | WCount tag _ => tag <> "" | _ => False end) os ->
  w_err (ops_run os w) = None.
Proof.
  intros Hw Hos. unfold ops_run. revert w Hw. induction Hos as [|o os Ho _ IH]; intros w Hw; cbn; [done|].
  apply IH. destruct o; try done; cbn; unfold Writer_String, Writer_Count, Writer_Int, Writer_Field; rewrite Hw.
  - by destruct (String.eqb_spec tag "").
  - destruct (String.eqb_spec (tag +:+ "#") ""); [by destruct tag|done].
Qed.

Lemma Table_Canonical_publishable t : publishable t -> exists raw, Table_Canonical t = Some raw.
Proof.
  intros H%Table_Validate_ok. unfold Table_Canonical, Writer_Bytes. rewrite H. cbn [is_ok].
  rewrite (ops_no_err (table_ops t) (New tableSchema schemaVersion) eq_refl (table_ops_tagged t)). eauto.
Qed.

Section engine.
Context {SHA : Sha256}.

Lemma Table_Digest_publishable t : publishable t -> exists d, Table_Digest t = Ok d.
Proof. intros Hp. unfold Table_Digest. destruct (Table_Canonical_publishable t Hp) as [raw ->]. eauto. Qed.

Lemma order_inputs_fit t inputs : inputs_fit t inputs -> exists vs, order_inputs inputs (t_Inputs t) = Ok vs.
Proof.
  intros [Hin _]. induction Hin as [|col cols (v & E & Hv) _ (vs & IH)]; [by exists []|].
  exists (v :: vs). apply order_inputs_ok. constructor; [done|]. by apply order_inputs_ok.
Qed.

Lemma fit_present t inputs : inputs_fit t inputs -> Forall (fun col => is_Some (inputs !! col_Name col)) (t_Inputs t).
Proof. intros [H1 _]. eapply Forall_impl; [exact H1|]. intros col (v & E & _). by exists v. Qed.

(** Evaluation of a published table on inputs that fit. *)
Lemma Evaluate_fit t inputs : publishable t -> inputs_fit t inputs ->
  exists d rts, Table_Digest t = Ok d /\
    Evaluate t inputs = Ok (mkResult (t_ID t) (t_Version t) d (status_of (t_HitPolicy t) (as_match <$> hits t inputs))
      (row_ID <$> hits t inputs) (as_match <$> hits t inputs) rts) /\
    rt_RowID <$> rts = row_ID <$> visited t inputs /\ rt_Matched <$> rts = row_test t inputs <$> visited t inputs.
Proof.
  intros Hp Hfit. pose proof (fit_present t inputs Hfit) as Hpres. 
  destruct (order_inputs_fit t inputs Hfit) as [vs Hvs]. destruct Hfit as [Hin Hnames].
  destruct (Table_Digest_publishable t Hp) as [d Hd].
  destruct (eval_rows_spec t inputs vs Hp Hvs (t_Rows t) [] [] []) as (rts & E1 & E2 & E3); [apply Hp|].
  exists d, rts. unfold Evaluate. rewrite (proj2 (Table_Validate_ok t) Hp). cbn [mbind outcome_bind].
  rewrite Hvs. cbn [mbind outcome_bind].
  rewrite (proj2 (undeclared_input_false inputs (t_Inputs t) (proj2 (pub_inputs t (pub_typed t Hp))) Hpres) Hnames). cbn [fail_if mbind outcome_bind].
  rewrite Hd. cbn [mbind outcome_bind]. rewrite E1. done.
Qed.

Lemma Evaluate_ok_inv t inputs r : Evaluate t inputs = Ok r -> publishable t /\ inputs_fit t inputs.
Proof.
  unfold Evaluate. intros H0. apply bind_ok_iff in H0 as [H1 H0]. apply Table_Validate_ok in H1.
  apply bind_ok_inv in H0 as (vs & H2 & H0). apply bind_ok_iff in H0 as [H3 _].
  apply order_inputs_ok in H2. apply fail_if_ok_iff in H3. split; [done|].
  assert (Hin : Forall (fun col => exists v, inputs !! col_Name col = Some v /\ operand_ok col v) (t_Inputs t)).
  { clear H3. induction H2; constructor; eauto. }
  split; [done|]. apply (undeclared_input_false inputs (t_Inputs t)); [apply H1| |done].
  eapply Forall_impl; [exact Hin|]. intros col (v & E & _). by exists v.
Qed.

Lemma upto_first_sub {A} (p : A -> bool) l x : x ∈ upto_first p l -> x ∈ l.
Proof. induction l as [|y l IH]; cbn; [done|]. destruct (p y); set_solver. Qed.

Lemma upto_first_one {A} (p : A -> bool) l : (length (filter (fun x => p x = true) (upto_first p l)) <= 1)%nat.
Proof.
  induction l as [|y l IH]; cbn [upto_first]; [cbn; lia|]. destruct (p y) eqn:E.
  - rewrite filter_cons_True by done. cbn. lia.
  - by rewrite filter_cons_False by congruence.
Qed.

Lemma upto_first_hit {A} (p : A -> bool) l x : x ∈ l -> p x = true -> filter (fun x => p x = true) (upto_first p l) <> [].
Proof.
  intros Hx Hp. induction l as [|y l IH]; [by apply elem_of_nil in Hx|]. cbn [upto_first]. destruct (p y) eqn:E.
  - by rewrite filter_cons_True.
  - rewrite filter_cons_False by congruence. apply IH. apply elem_of_cons in Hx as [->|]; [congruence|done].
Qed.

Lemma upto_first_find {A} (p : A -> bool) l :
  filter (fun x => p x = true) (upto_first p l) = match List.find p l with Some x => [x] | None => [] end.
Proof.
  induction l as [|y l IH]; cbn [upto_first List.find]; [done|]. destruct (p y) eqn:E.
  - by rewrite filter_cons_True.
  - by rewrite filter_cons_False by congruence.
Qed.

Lemma hits_first t inputs : t_HitPolicy t = HitPolicyFirst ->
  hits t inputs = match List.find (row_test t inputs) (t_Rows t) with Some r => [r] | None => [] end.
Proof. intros H. unfold hits, visited. rewrite decide_True by done. apply upto_first_find. Qed.

Lemma visited_sub t inputs row : row ∈ visited t inputs -> row ∈ t_Rows t.
Proof. unfold visited. case_decide; [apply upto_first_sub|done]. Qed.

Lemma row_test_holds t inputs row : publishable t -> inputs_fit t inputs -> row ∈ t_Rows t ->
  row_test t inputs row = true <-> row_holds t inputs row.
Proof.
  intros Hp Hfit Hrow. destruct (order_inputs_fit t inputs Hfit) as [vs Hvs].
  destruct (row_trace_spec t inputs vs Hp Hvs row) as (cts & _ & Hrt); [|done].
  pose proof (proj1 (pub_rows t (pub_typed t Hp))) as Hr. rewrite Forall_forall in Hr. auto.
Qed.

Lemma hits_spec t inputs row : publishable t -> inputs_fit t inputs ->
  row ∈ hits t inputs <-> row ∈ visited t inputs /\ row_holds t inputs row.
Proof.
  intros Hp Hf. unfold hits. rewrite list_elem_of_filter. split.
  - intros [H1 H2]. split; [done|]. apply row_test_holds; [done..|by eapply visited_sub|done].
  - intros [H1 H2]. split; [|done]. apply row_test_holds; [done..|by eapply visited_sub|done].
Qed.

Lemma status_of_spec t hs : publishable t ->
  let s := status_of (t_HitPolicy t) (as_match <$> hs) in
  (s = StatusUnknown <-> hs = []) /\
  (s = StatusConflict <-> t_HitPolicy t = HitPolicyUnique /\ (1 < length hs)%nat) /\ s <> StatusUnspecified.
Proof.
  intros Hp. destruct (pub_policy t (pub_typed t Hp)) as [E|[E|E]]; rewrite E; cbn zeta; unfold status_of; rewrite length_fmap;
    destruct hs as [|h1 [|h2 hs]]; cbn; split_and!; try done; naive_solver lia.
Qed.

(** * Signatures *)

(** Joined texts without the separator are split back. *)
Lemma split_join sep l : l <> [] -> Forall (fun s => str_contains sep s = false) l -> str_split sep (str_join (String sep EmptyString) l) = l.
Proof.
  intros Hne Hl. induction Hl as [|s l Hs Hl IH]; [done|]. destruct l as [|t l]; [by apply str_split_none|].
  cbn [str_join]. cbn [append]. rewrite str_split_app by done. f_equal. by apply IH.
Qed.

Lemma join_inj sep l k : l <> [] -> k <> [] -> Forall (fun s => str_contains sep s = false) l -> Forall (fun s => str_contains sep s = false) k ->
  str_join (String sep EmptyString) l = str_join (String sep EmptyString) k -> l = k.
Proof. intros Hl Hk Fl Fk E. rewrite <- (split_join sep l Hl Fl), <- (split_join sep k Hk Fk). by rewrite E. Qed.

Lemma join_contains c sep l : c <> sep -> Forall (fun s => str_contains c s = false) l -> str_contains c (str_join (String sep EmptyString) l) = false.
Proof.
  intros Hc. induction 1 as [|s l Hs Hl IH]; [done|]. destruct l as [|t l]; [done|].
  cbn [str_join]. cbn [append]. rewrite str_contains_app. rewrite Hs. cbn [str_contains orb].
  rewrite (proj2 (Ascii.eqb_neq sep c)) by done. exact IH.
Qed.

Lemma closed_inj s t : (s +:+ ")") = (t +:+ ")") -> s = t.
Proof.
  revert t. induction s as [|c s IH]; intros [|d t]; cbn; intros E; [done| | |injection E as <- E; by rewrite (IH t E)].
  - injection E as <- E. by destruct t.
  - injection E as -> E. by destruct s.
Qed.

(** The operands in a signature. *)
Definition signature_args (c : Condition) : string := str_join "," (operand_texts c).

Lemma signature_shape col c : cond_ok col c ->
  Condition_signature c = match cond_Op c with OpAny => "ANY" | _ => Operator_String (cond_Op c) +:+ String "(" (signature_args c +:+ ")") end.
Proof.
  unfold cond_ok, Condition_signature, signature_args, operand_texts. destruct (cond_Op c); try done; intros _; cbn [str_join append];
    by rewrite ?append_assoc.
Qed.

Lemma Operator_String_plain o : str_contains "(" (Operator_String o) = false /\ str_contains "|" (Operator_String o) = false.
Proof. by destruct o. Qed.

Lemma Operator_String_inj o p : Operator_Valid o = true -> Operator_Valid p = true -> Operator_String o = Operator_String p -> o = p.
Proof. destruct o, p; cbn; intros H1 H2 H3; try done; discriminate. Qed.

Lemma cond_ok_valid col c : cond_ok col c -> Operator_Valid (cond_Op c) = true.
Proof. unfold cond_ok. by destruct (cond_Op c). Qed.

Lemma cond_ok_args col c : cond_ok col c -> cond_Op c <> OpAny -> operand_texts c <> [].
Proof.
  unfold cond_ok, operand_texts. destruct (cond_Op c); try done.
  all: intros [H _] _ E; apply H; by apply fmap_nil_inv in E.
Qed.

(** Plain conditions have one signature exactly when they are the same. *)
Lemma signature_iff col c d : cond_ok col c -> cond_ok col d -> Forall plain_text (operand_texts c) -> Forall plain_text (operand_texts d) ->
  Condition_signature c = Condition_signature d <-> same_condition c d.
Proof.
  intros Hc Hd Pc Pd. rewrite (signature_shape col c Hc), (signature_shape col d Hd). pose proof (cond_ok_valid col c Hc) as Vc. pose proof (cond_ok_valid col d Hd) as Vd.
  unfold same_condition. split.
  - assert (Hany : forall x y, cond_Op x <> OpAny -> Operator_String (cond_Op x) +:+ String "(" y <> "ANY").
    { intros x y _ E. apply (f_equal (str_contains "(")) in E. rewrite str_contains_app in E. cbn in E. by rewrite orb_true_r in E. }
    destruct (decide (cond_Op c = OpAny)) as [Ec|Ec], (decide (cond_Op d = OpAny)) as [Ed|Ed].
    + intros _. unfold operand_texts. by rewrite Ec, Ed.
    + rewrite Ec. intros E. destruct (Hany d (signature_args d +:+ ")") Ed). destruct (cond_Op d); done.
    + rewrite Ed. intros E. destruct (Hany c (signature_args c +:+ ")") Ec). destruct (cond_Op c); done.
    + intros E. assert (E' : (Operator_String (cond_Op c) +:+ String "(" (signature_args c +:+ ")")) = (Operator_String (cond_Op d) +:+ String "(" (signature_args d +:+ ")"))).
      { destruct (cond_Op c), (cond_Op d); done. }
      apply (f_equal (str_cut "(")) in E'. rewrite !str_cut_here in E' by apply Operator_String_plain. injection E' as Eop Eargs.
      split; [by apply Operator_String_inj|]. apply closed_inj in Eargs. apply (join_inj ","); [by eapply cond_ok_args|by eapply cond_ok_args| | |exact Eargs].
      all: eapply Forall_impl; [eassumption|]; intros s [? _]; done.
  - unfold signature_args. intros [-> ->]. done.
Qed.

Lemma signature_no_bar col c : cond_ok col c -> Forall plain_text (operand_texts c) -> str_contains "|" (Condition_signature c) = false.
Proof.
  intros Hc Pc. rewrite (signature_shape col c Hc).
  assert (Ha : str_contains "|" (Operator_String (cond_Op c) +:+ String "(" (signature_args c +:+ ")")) = false).
  { rewrite str_contains_app, (proj2 (Operator_String_plain _)). cbn [orb str_contains]. rewrite str_contains_app. unfold signature_args.
    rewrite join_contains; [done|done|]. eapply Forall_impl; [exact Pc|]. by intros s [_ ?]. }
  by destruct (cond_Op c).
Qed.

Lemma row_signature_iff t r s : t_Inputs t <> [] -> row_ok t r -> row_ok t s ->
  (forall c, c ∈ row_Conditions r -> Forall plain_text (operand_texts c)) -> (forall c, c ∈ row_Conditions s -> Forall plain_text (operand_texts c)) ->
  row_signature r = row_signature s <-> same_conditions r s.
Proof.
  intros Hne [_ Hr _] [_ Hs _] Pr Ps. unfold row_signature, same_conditions.
  assert (Hbar : forall cols cs, Forall2 cond_ok cols cs -> (forall c, c ∈ cs -> Forall plain_text (operand_texts c)) ->
    Forall (fun s => str_contains "|" s = false) (Condition_signature <$> cs)).
  { induction 1 as [|col c cols cs Hc _ IH]; intros Hp; cbn; constructor; [eapply signature_no_bar; [exact Hc|apply Hp; left]|].
    apply IH. intros x Hx. apply Hp. by right. }
  assert (Hmap : (Condition_signature <$> row_Conditions r) = (Condition_signature <$> row_Conditions s) <->
    Forall2 same_condition (row_Conditions r) (row_Conditions s)).
  { clear Hne Hbar. revert Hs Ps Pr. generalize (row_Conditions s). induction Hr as [|col c cols cs Hc _ IH]; intros ds Hs Ps Pr; inversion Hs; subst; cbn.
    { split; [constructor|done]. }
    match goal with Hd : cond_ok col ?d, Hds : Forall2 cond_ok cols ?ds |- _ => rename Hd into Hcd, Hds into Hrest end.
    rewrite Forall2_cons, <- (signature_iff col), <- IH; [|done|intros x Hx; apply Ps; by right|intros x Hx; apply Pr; by right|done|done|apply Pr; left|apply Ps; left].
    split; [by intros [= -> ->]|by intros [-> ->]]. }
  rewrite <- Hmap. split; [|by intros ->]. apply join_inj; [| |by eapply Hbar|by eapply Hbar].
  - intros E%fmap_nil_inv. rewrite E in Hr. by inversion Hr.
  - intros E%fmap_nil_inv. rewrite E in Hs. by inversion Hs.
Qed.

(** For plain tables the comparison of texts is the comparison of conditions. *)
Lemma publishable_plain t : plain_table t ->
  publishable t <-> typed_table t /\ (t_HitPolicy t <> HitPolicyCollect -> distinct_rows t).
Proof.
  intros Hp. assert (Hsig : typed_table t -> forall i j r s, t_Rows t !! i = Some r -> t_Rows t !! j = Some s ->
    row_signature r = row_signature s <-> same_conditions r s).
  { intros Ht i j r s Hi Hj. apply list_elem_of_lookup_2 in Hi, Hj. pose proof (proj1 (pub_rows _ Ht)) as Hall. rewrite Forall_forall in Hall.
    apply (row_signature_iff t); [apply (pub_columns _ Ht)|by apply Hall|by apply Hall|..]; intros c Hc; apply Forall_forall; intros x Hx;
      first [exact (Hp _ _ _ Hi Hc Hx)|exact (Hp _ _ _ Hj Hc Hx)]. }
  split.
  - intros [Ht Hd]. split; [done|]. intros Hh i j r s Hi Hj Hsame. specialize (Hd Hh). rewrite NoDup_alt in Hd.
    apply (Hd i j (row_signature r)); rewrite list_lookup_fmap, ?Hi, ?Hj; [done|]. cbn. f_equal. symmetry. by apply (Hsig Ht i j).
  - intros [Ht Hd]. constructor; [done|]. intros Hh. specialize (Hd Hh). apply NoDup_alt. intros i j x Hi Hj.
    apply list_lookup_fmap_Some_1 in Hi as (r & -> & Hi), Hj as (s & E & Hj). eapply Hd; [exact Hi|exact Hj|]. by apply (Hsig Ht i j).
Qed.

(** * Theorems *)

(** [Validate] accepts exactly the publishable tables: identified,
    with well-formed columns of distinct names, a declared hit policy and at
    least one row, every row typed by the columns and uniquely named, and,
    unless the policy is COLLECT, with pairwise different signatures. *)
Theorem table_validate_exact t : (Table_Validate t = Ok tt <-> publishable t) /\ Table_Validate t <> Panic.
Proof. split; [apply Table_Validate_ok|apply Table_Validate_no_panic]. Qed.

(** C38: evaluation never panics.  On a table whose operands are written
    without commas and bars it succeeds exactly when the table is well typed,
    no two rows of a FIRST or UNIQUE table declare the same operators with the
    same operands, and the inputs hold one well-typed value per column and
    nothing else.  On every table it returns, in table order, the rows it
    visited whose conditions all hold: under FIRST the rows
    up to the first hit, otherwise all; the trace covers exactly the visited
    rows.  The status is UNKNOWN without a hit, CONFLICT exactly when the
    policy is UNIQUE and several rows hit, and MATCHED otherwise. *)
Theorem evaluate_exact t inputs :
  (plain_table t ->
     is_ok (Evaluate t inputs) = true <->
     typed_table t /\ (t_HitPolicy t <> HitPolicyCollect -> distinct_rows t) /\ inputs_fit t inputs) /\
  Evaluate t inputs <> Panic /\
  (forall r, Evaluate t inputs = Ok r ->
     r_MatchedRowIDs r = row_ID <$> hits t inputs /\ r_Matches r = as_match <$> hits t inputs /\
     rt_RowID <$> r_Trace r = row_ID <$> visited t inputs /\
     (forall row, row ∈ hits t inputs <-> row ∈ visited t inputs /\ row_holds t inputs row) /\
     (t_HitPolicy t = HitPolicyFirst -> (length (hits t inputs) <= 1)%nat /\
        forall row, row ∈ t_Rows t -> row_holds t inputs row -> hits t inputs <> []) /\
     (r_Status r = StatusUnknown <-> hits t inputs = []) /\
     (r_Status r = StatusConflict <-> t_HitPolicy t = HitPolicyUnique /\ (1 < length (hits t inputs))%nat) /\
     r_Status r <> StatusUnspecified).
Proof.
  split_and!.
  - intros Hplain. pose proof (publishable_plain t Hplain) as Hpub. rewrite is_ok_true.
    split; [intros [r Hr]; apply Evaluate_ok_inv in Hr as [?%Hpub ?]; tauto|].
    intros (Ht & Hd & Hf). assert (Hp : publishable t) by tauto. destruct (Evaluate_fit t inputs Hp Hf) as (d & rts & _ & E & _). eauto.
  - unfold Evaluate. apply bind_no_panic; [auto with panics|]. intros [] Hv%Table_Validate_ok.
    apply bind_no_panic; [apply order_inputs_no_panic|]. intros vs Hvs.
    apply bind_no_panic; [auto with panics|intros _ _].
    destruct (Table_Digest_publishable t Hv) as [d ->]. cbn [mbind outcome_bind].
    destruct (eval_rows_spec t inputs vs Hv Hvs (t_Rows t) [] [] []) as (rts & -> & _); [apply Hv|done].
  - intros r Hr. destruct (Evaluate_ok_inv t inputs r Hr) as [Hp Hf].
    destruct (Evaluate_fit t inputs Hp Hf) as (d & rts & _ & E & E2 & E3). rewrite E in Hr. injection Hr as <-.
    cbn [r_MatchedRowIDs r_Matches r_Trace r_Status].
    destruct (status_of_spec t (hits t inputs) Hp) as (S1 & S2 & S3).
    split_and!; try done.
    + intros row. by apply hits_spec.
    + intros Ef. unfold hits, visited. rewrite decide_True by done. split; [apply upto_first_one|].
      intros row Hrow Hh. apply (upto_first_hit _ _ row Hrow). by apply row_test_holds.
Qed.

(** Two tables whose rows differ in one condition: membership in one string
    with a comma, or in its two halves. *)
Definition in_table (vs : list (list Value)) : Table :=
  mkTable "t" "1" [mkColumn "x" KindString] [mkColumn "y" KindBool] HitPolicyUnique
    (imap (fun i v => mkRow (dec_string (Z.of_nat i)) [In v] [BoolValue true]) vs).
Definition one_text : list Value := [StringValue "a,b"].
Definition two_texts : list Value := [StringValue "a"; StringValue "b"].

(** the text signature of conditions does not tell them apart.  Two
    published tables of one identity that decide the input a differently have
    the same canonical bytes, hence the same digest, although [Canonical]
    promises that any difference in the rows changes the bytes; and a table
    with both rows, whose conditions no value meets at once, is refused as
    declaring identical conditions. *)
Theorem signature_collisions :
  publishable (in_table [one_text]) /\ publishable (in_table [two_texts]) /\
  Table_Canonical (in_table [one_text]) = Table_Canonical (in_table [two_texts]) /\
  (exists r, Evaluate (in_table [one_text]) {["x" := StringValue "a"]} = Ok r /\ r_Status r = StatusUnknown) /\
  (exists r, Evaluate (in_table [two_texts]) {["x" := StringValue "a"]} = Ok r /\ r_Status r = StatusMatched) /\
  Table_Validate (in_table [one_text; two_texts]) = Err ErrAmbiguousRows /\
  (forall v, ~ (cond_holds (In one_text) v /\ cond_holds (In two_texts) v)).
Proof.
  split_and!.
  - apply Table_Validate_ok. vm_compute. reflexivity.
  - apply Table_Validate_ok. vm_compute. reflexivity.
  - vm_compute. reflexivity.
  - eexists. split; [vm_compute; reflexivity|reflexivity].
  - eexists. split; [vm_compute; reflexivity|reflexivity].
  - vm_compute. reflexivity.
  - intros v [(o & Ho & H1) (o' & Ho' & H2)]. cbn in Ho, Ho'.
    apply list_elem_of_singleton in Ho as ->. destruct v; try done. cbn in H1. subst s.
    apply elem_of_cons in Ho' as [->|[->|Ho']%elem_of_cons]; [discriminate H2..|by apply elem_of_nil in Ho'].
Qed.
End engine.

(** * A concrete table *)

Section sample_table.
#[local] Instance sample_table_sha : Sha256 := {| sha256_Sum256 := fun bs => [Z.of_nat (length bs) mod 256; foldr Z.add 0 bs mod 256] |}.

Lemma evaluate_exact_witness :
  let t := in_table [[StringValue "a"]; [StringValue "b"]] in let inputs := {["x" := StringValue "b"]} : gmap string Value in
  plain_table t /\ distinct_rows t /\ exists r, Evaluate t inputs = Ok r /\ r_MatchedRowIDs r = row_ID <$> hits t inputs.
Proof.
  intros t inputs. assert (Hp : plain_table t).
  { intros r c s Hr Hc Hs. cbn in Hr. repeat (apply elem_of_cons in Hr as [->|Hr]; [cbn in Hc; apply list_elem_of_singleton in Hc as ->; cbn in Hs;
      apply list_elem_of_singleton in Hs as ->; split; reflexivity|]). by apply elem_of_nil in Hr. }
  destruct (evaluate_exact t inputs) as (H1 & _ & H2).
  destruct (Evaluate t inputs) as [r| |] eqn:E; [|vm_compute in E; discriminate E..].
  destruct (H1 Hp) as [Hok _]. destruct (Hok eq_refl) as (_ & Hd & _). split; [exact Hp|].
  split; [apply Hd; discriminate|]. exists r. split; [reflexivity|]. destruct (H2 r eq_refl) as [H _]. exact H.
Defined.

End sample_table.
