(* ===== verification/PromotionRules.v ===== *)
(** The promotion approval rule: [internal/engines/rules/promotion.go] and its
    re-evaluation before execution, [reevaluate.go].

    The reference table is a decision table like any other; its theorem gives
    the tier as a closed form of the four factors.  [ReevaluatePromotionApproval]
    compares an approved plan with the current table and inputs; its theorem
    says exactly when it confirms, asks for re-approval, or invalidates. *)

From S2P Require Import Prelude CanonicalBytes FixedDecimal RuleValues DecisionTables.

Local Open Scope Z_scope.

(** * The reference table *)

Definition PromotionApprovalTableID : string := "hcmnext.rules.promotion_approval_threshold".
Definition PromotionApprovalTableVersion : string := "2026.1".
Definition PromotionWorkflowThresholdTableVersion : string := "2026.2".

Definition ColumnIncreasePercent : string := "increase_percent".
Definition ColumnBandPosition : string := "band_position".
Definition ColumnBudgetAuthority : string := "budget_authority".
Definition ColumnGradeChange : string := "grade_change".
Definition IncreasePercentScale : Z := 4.

Definition BandPosition : Type := string.
Definition BandPositionBelowMinimum : BandPosition := "BELOW_MINIMUM".
Definition BandPositionInBand : BandPosition := "IN_BAND".
Definition BandPositionAboveMaximum : BandPosition := "ABOVE_MAXIMUM".
Definition BandPositionUnknown : BandPosition := "UNKNOWN".
Definition bandPositionWire : list BandPosition :=
  [BandPositionBelowMinimum; BandPositionInBand; BandPositionAboveMaximum; BandPositionUnknown].
Definition BandPosition_Valid (p : BandPosition) : bool := bool_decide (p ∈ bandPositionWire).

Definition BudgetAuthority : Type := string.
Definition BudgetAuthoritySufficient : BudgetAuthority := "SUFFICIENT".
Definition BudgetAuthorityInsufficient : BudgetAuthority := "INSUFFICIENT".
Definition BudgetAuthorityUnknown : BudgetAuthority := "UNKNOWN".
Definition budgetAuthorityWire : list BudgetAuthority :=
  [BudgetAuthoritySufficient; BudgetAuthorityInsufficient; BudgetAuthorityUnknown].
Definition BudgetAuthority_Valid (b : BudgetAuthority) : bool := bool_decide (b ∈ budgetAuthorityWire).

Definition ApprovalTier : Type := string.
Definition ApprovalTierUnspecified : ApprovalTier := "".
Definition ApprovalTierStandard : ApprovalTier := "STANDARD".
Definition ApprovalTierFinanceRequired : ApprovalTier := "FINANCE_REQUIRED".
Definition ApprovalTierExecutiveRequired : ApprovalTier := "EXECUTIVE_REQUIRED".
Definition ApprovalTierUnknownBlocked : ApprovalTier := "UNKNOWN_BLOCKED".

Definition rowUnknownBudget : string := "unknown-budget-authority".
Definition rowUnknownBandPosition : string := "unknown-band-position".
Definition rowInsufficientBudget : string := "insufficient-budget-authority".
Definition rowGradeChangeAboveMax : string := "grade-change-above-band-maximum".
Definition rowLargeRaise : string := "increase-exceeds-executive-threshold".
Definition rowRaiseOverThreshold : string := "increase-exceeds-finance-threshold".
Definition rowAboveMaximum : string := "resulting-pay-above-band-maximum".
Definition rowGradeChange : string := "grade-change-standard".
Definition rowOtherwise : string := "otherwise-standard".

(** A package-level [MustDecimal]: the zero decimal stands for the panic of
    package initialization, which does not happen. *)
Definition must (text : string) (scale : Z) (mode : RoundingMode) : Decimal :=
  match MustDecimal text scale mode with Ok d => d | _ => Decimal_zero_value end.
Definition financeThreshold : Decimal := must "10.0000" IncreasePercentScale RoundingHalfEven.
Definition executiveThreshold : Decimal := must "20.0000" IncreasePercentScale RoundingHalfEven.

Definition PromotionApprovalThresholdTable : Table :=
  mkTable PromotionApprovalTableID PromotionApprovalTableVersion
    [ mkColumn ColumnIncreasePercent KindDecimal;
      mkColumn ColumnBandPosition KindString;
      mkColumn ColumnBudgetAuthority KindString;
      mkColumn ColumnGradeChange KindBool ]
    [ mkColumn "approval_tier" KindString ]
    HitPolicyFirst
    [ mkRow rowUnknownBudget
        [Any; Any; Equal (StringValue BudgetAuthorityUnknown); Any]
        [StringValue ApprovalTierUnknownBlocked];
      mkRow rowUnknownBandPosition
        [Any; Equal (StringValue BandPositionUnknown); Any; Any]
        [StringValue ApprovalTierUnknownBlocked];
      mkRow rowInsufficientBudget
        [Any; Any; Equal (StringValue BudgetAuthorityInsufficient); Any]
        [StringValue ApprovalTierFinanceRequired];
      mkRow rowGradeChangeAboveMax
        [Any; Equal (StringValue BandPositionAboveMaximum); Any; Equal (BoolValue true)]
        [StringValue ApprovalTierExecutiveRequired];
      mkRow rowLargeRaise
        [GreaterThan (DecimalValue executiveThreshold); Any; Any; Any]
        [StringValue ApprovalTierExecutiveRequired];
      mkRow rowRaiseOverThreshold
        [GreaterThan (DecimalValue financeThreshold); Any; Any; Any]
        [StringValue ApprovalTierFinanceRequired];
      mkRow rowAboveMaximum
        [Any; Equal (StringValue BandPositionAboveMaximum); Any; Any]
        [StringValue ApprovalTierFinanceRequired];
      mkRow rowGradeChange
        [Any; Any; Any; Equal (BoolValue true)]
        [StringValue ApprovalTierFinanceRequired];
      mkRow rowOtherwise
        [Any; Any; Any; Any]
        [StringValue ApprovalTierStandard] ].

(** The loop that appends the route to each row; a row without outputs panics. *)
Definition workflow_row (row : Row) : outcome rules_err Row :=
  match row_Outputs row with
  | [] => Panic
  | out :: _ =>
      let tier := Value_String out in
      let route :=
        if String.eqb tier ApprovalTierStandard then "WITHIN_THRESHOLD"
        else if String.eqb tier ApprovalTierUnknownBlocked then "UNKNOWN"
        else "EXCEEDS_THRESHOLD" in
      Ok (mkRow (row_ID row) (row_Conditions row) (row_Outputs row ++ [StringValue route]))
  end.

Fixpoint workflow_rows (rows : list Row) : outcome rules_err (list Row) :=
  match rows with
  | [] => Ok []
  | r :: rest => r' ← workflow_row r; rest' ← workflow_rows rest; Ok (r' :: rest')
  end.

Definition PromotionWorkflowThresholdTable : outcome rules_err Table :=
  let table := PromotionApprovalThresholdTable in
  rows ← workflow_rows (t_Rows table);
  Ok (mkTable (t_ID table) PromotionWorkflowThresholdTableVersion (t_Inputs table)
        (t_Outputs table ++ [mkColumn "route_key" KindString]) (t_HitPolicy table) rows).

(** * Evaluation *)

Record PromotionApprovalInput : Type := mkPromotionApprovalInput {
  IncreasePercent : Decimal;
  pi_BandPosition : BandPosition;
  pi_BudgetAuthority : BudgetAuthority;
  GradeChange : bool
}.

Definition PromotionApprovalInput_Validate (i : PromotionApprovalInput) : outcome rules_err unit :=
  _ ← map_err (fun _ => ErrPromotionInputInvalid) (Decimal_Validate (IncreasePercent i));
  _ ← fail_if (negb (BandPosition_Valid (pi_BandPosition i))) ErrPromotionInputInvalid;
  fail_if (negb (BudgetAuthority_Valid (pi_BudgetAuthority i))) ErrPromotionInputInvalid.

Definition PromotionApprovalInput_values (i : PromotionApprovalInput) : gmap string Value :=
  {[ ColumnIncreasePercent := DecimalValue (IncreasePercent i);
     ColumnBandPosition := StringValue (pi_BandPosition i);
     ColumnBudgetAuthority := StringValue (pi_BudgetAuthority i);
     ColumnGradeChange := BoolValue (GradeChange i) ]}.

Record PromotionApprovalDecision : Type := mkDecision {
  pd_Tier : ApprovalTier;
  pd_MatchedRowID : string;
  pd_TableID : string;
  pd_TableVersion : string;
  pd_TableDigest : string;
  pd_Trace : list RowTrace
}.

Definition EvaluatePromotionApproval `{Sha256} (table : Table) (i : PromotionApprovalInput)
    : outcome rules_err PromotionApprovalDecision :=
  _ ← PromotionApprovalInput_Validate i;
  result ← Evaluate table (PromotionApprovalInput_values i);
  let decision tier row := mkDecision tier row (r_TableID result) (r_TableVersion result) (r_TableDigest result) (r_Trace result) in
  match r_Status result with
  | StatusMatched =>
      match r_Matches result with
      | m :: _ =>
          match m_Outputs m with
          | out :: _ => Ok (decision (Value_String out) (m_RowID m))
          | [] => Panic
          end
      | [] => Panic
      end
  | StatusUnknown => Ok (decision ApprovalTierUnknownBlocked "")
  | StatusConflict => Err ErrPromotionRuleConflict
  | StatusUnspecified => Err ErrUnrecognizedStatus
  end.

(** * Re-evaluation *)

Definition VerdictConfirmed : string := "CONFIRMED".
Definition VerdictReapprovalRequired : string := "REAPPROVAL_REQUIRED".
Definition VerdictInvalidated : string := "INVALIDATED".

Record ApprovedPlan : Type := mkApprovedPlan {
  ap_Input : PromotionApprovalInput;
  ap_InputDigest : string;
  ap_Tier : ApprovalTier;
  ap_MatchedRowID : string;
  ap_TableID : string;
  ap_TableVersion : string;
  ap_TableDigest : string;
  ap_ApprovalDigest : string
}.

Record Reevaluation : Type := mkReevaluation {
  re_Verdict : string;
  re_Tier : ApprovalTier;
  re_MatchedRowID : string;
  re_OriginalTableID : string;
  re_OriginalTableVer : string;
  re_OriginalTableDigest : string;
  re_CurrentTableID : string;
  re_CurrentTableVer : string;
  re_CurrentTableDigest : string;
  re_MovedInput : bool;
  re_MovedTable : bool;
  re_Evidence : string
}.

(** [strings.Join(parts, "\x00")] as bytes. *)
Definition input_bytes (i : PromotionApprovalInput) : list Z :=
  str_bytes "promotion-input" ++ [0] ++ default [] (Decimal_Canonical (IncreasePercent i)) ++ [0] ++
  str_bytes (pi_BandPosition i) ++ [0] ++ str_bytes (pi_BudgetAuthority i) ++ [0] ++
  str_bytes (if GradeChange i then "true" else "false").

Definition inputDigest `{Sha256} (i : PromotionApprovalInput) : outcome rules_err string :=
  _ ← PromotionApprovalInput_Validate i;
  Ok ("sha256:" +:+ hex_EncodeToString (sha256_Sum256 (input_bytes i))).

Definition InputDigest `{Sha256} (i : PromotionApprovalInput) : outcome rules_err string := inputDigest i.

Definition NewApprovedPlan `{Sha256} (table : Table) (i : PromotionApprovalInput) (approvalDigest : string)
    : outcome rules_err ApprovedPlan :=
  _ ← fail_if (is_blank approvalDigest) ErrPlanNotApproved;
  decision ← EvaluatePromotionApproval table i;
  digest ← inputDigest i;
  Ok (mkApprovedPlan i digest (pd_Tier decision) (pd_MatchedRowID decision) (pd_TableID decision)
        (pd_TableVersion decision) (pd_TableDigest decision) approvalDigest).

Definition ReevaluatePromotionApproval `{Sha256} (table : Table) (approved : ApprovedPlan)
    (current : PromotionApprovalInput) : outcome rules_err Reevaluation :=
  _ ← fail_if (String.eqb (ap_ApprovalDigest approved) "") ErrPlanNotApproved;
  reproduced ← inputDigest (ap_Input approved);
  _ ← fail_if (negb (String.eqb reproduced (ap_InputDigest approved))) ErrPlanTampered;
  currentDigest ← inputDigest current;
  decision ← EvaluatePromotionApproval table current;
  let movedInput := negb (String.eqb currentDigest (ap_InputDigest approved)) in
  let verdict :=
    if String.eqb (pd_Tier decision) ApprovalTierUnknownBlocked then VerdictInvalidated
    else if negb (String.eqb (pd_Tier decision) (ap_Tier approved))
            || negb (String.eqb (pd_MatchedRowID decision) (ap_MatchedRowID approved)) then VerdictInvalidated
    else if movedInput then VerdictReapprovalRequired
    else VerdictConfirmed in
  Ok (mkReevaluation verdict (pd_Tier decision) (pd_MatchedRowID decision)
        (ap_TableID approved) (ap_TableVersion approved) (ap_TableDigest approved)
        (pd_TableID decision) (pd_TableVersion decision) (pd_TableDigest decision)
        movedInput (negb (String.eqb (pd_TableDigest decision) (ap_TableDigest approved)))
        (ap_ApprovalDigest approved)).

(** * The closed form of the reference table *)

Definition exceeds (p : Decimal) (percent : Z) : Prop := percent * 10 ^ d_scale p < Decimal_signed p.
#[export] Instance exceeds_dec p n : Decision (exceeds p n).
Proof. unfold exceeds. apply _. Defined.

(** The tier and the row that gives it. *)
Definition reference_decision (i : PromotionApprovalInput) : ApprovalTier * string :=
  if decide (pi_BudgetAuthority i = BudgetAuthorityUnknown) then (ApprovalTierUnknownBlocked, rowUnknownBudget)
  else if decide (pi_BandPosition i = BandPositionUnknown) then (ApprovalTierUnknownBlocked, rowUnknownBandPosition)
  else if decide (pi_BudgetAuthority i = BudgetAuthorityInsufficient) then (ApprovalTierFinanceRequired, rowInsufficientBudget)
  else if decide (pi_BandPosition i = BandPositionAboveMaximum /\ GradeChange i = true)
       then (ApprovalTierExecutiveRequired, rowGradeChangeAboveMax)
  else if decide (exceeds (IncreasePercent i) 20) then (ApprovalTierExecutiveRequired, rowLargeRaise)
  else if decide (exceeds (IncreasePercent i) 10) then (ApprovalTierFinanceRequired, rowRaiseOverThreshold)
  else if decide (pi_BandPosition i = BandPositionAboveMaximum) then (ApprovalTierFinanceRequired, rowAboveMaximum)
  else if decide (GradeChange i = true) then (ApprovalTierFinanceRequired, rowGradeChange)
  else (ApprovalTierStandard, rowOtherwise).

Definition input_ok (i : PromotionApprovalInput) : Prop :=
  dec_wf (IncreasePercent i) /\ pi_BandPosition i ∈ bandPositionWire /\ pi_BudgetAuthority i ∈ budgetAuthorityWire.

(** * Lemmas *)

Lemma exceeds_mono p : exceeds p 20 -> exceeds p 10.
Proof. unfold exceeds. pose proof (Z.pow_nonneg 10 (d_scale p) ltac:(lia)). lia. Qed.

Lemma input_Validate_ok i : PromotionApprovalInput_Validate i = Ok tt <-> input_ok i.
Proof.
  unfold PromotionApprovalInput_Validate, input_ok, BandPosition_Valid, BudgetAuthority_Valid.
  rewrite !bind_ok_iff, !fail_if_ok_iff, !negb_false_iff, !bool_decide_eq_true, <- Decimal_Validate_ok.
  destruct (Decimal_Validate (IncreasePercent i)) as [[]| |]; cbn; naive_solver.
Qed.

Lemma input_Validate_cases i : PromotionApprovalInput_Validate i = Ok tt \/ PromotionApprovalInput_Validate i = Err ErrPromotionInputInvalid.
Proof.
  unfold PromotionApprovalInput_Validate, BandPosition_Valid, BudgetAuthority_Valid.
  pose proof (Decimal_Validate_no_panic (IncreasePercent i)) as Hp.
  destruct (Decimal_Validate (IncreasePercent i)) as [[]| |]; cbn; [|by right|done].
  repeat destruct (bool_decide _); cbn; tauto.
Qed.

Lemma values_lookup i :
  PromotionApprovalInput_values i !! ColumnIncreasePercent = Some (DecimalValue (IncreasePercent i)) /\
  PromotionApprovalInput_values i !! ColumnBandPosition = Some (StringValue (pi_BandPosition i)) /\
  PromotionApprovalInput_values i !! ColumnBudgetAuthority = Some (StringValue (pi_BudgetAuthority i)) /\
  PromotionApprovalInput_values i !! ColumnGradeChange = Some (BoolValue (GradeChange i)).
Proof. unfold PromotionApprovalInput_values. split_and!; by simplify_map_eq. Qed.

Lemma values_names i name : is_Some (PromotionApprovalInput_values i !! name) ->
  name ∈ [ColumnIncreasePercent; ColumnBandPosition; ColumnBudgetAuthority; ColumnGradeChange].
Proof.
  unfold PromotionApprovalInput_values. intros [v Hv].
  repeat (apply lookup_insert_Some in Hv as [[<- _]|[_ Hv]]; [set_solver|]).
  apply lookup_singleton_Some in Hv as [<- _]. set_solver.
Qed.

Lemma values_fit i t : input_ok i -> t_Inputs t = t_Inputs PromotionApprovalThresholdTable ->
  inputs_fit t (PromotionApprovalInput_values i).
Proof.
  intros (Hd & _) Ht. destruct (values_lookup i) as (H1 & H2 & H3 & H4). unfold inputs_fit. rewrite Ht. split.
  - repeat (constructor; [eexists; split; [eassumption|by split]|]). constructor.
  - intros name H. apply values_names in H. done.
Qed.

Lemma threshold_exceeds p thr percent : dec_wf p -> thr = dec_of (percent * 10 ^ 4) 4 RoundingHalfEven -> dec_wf thr ->
  (0 <? Decimal_Cmp p thr) = bool_decide (exceeds p percent).
Proof.
  intros Hp -> Ht. rewrite Decimal_Cmp_valid by done. rewrite Decimal_signed_dec_of. cbn [d_scale dec_of].
  unfold exceeds. apply eq_bool_prop_intro. rewrite bool_decide_spec, !Is_true_true, Z.ltb_lt.
  pose proof (pow10_pos (d_scale p) ltac:(apply dec_wf_scale in Hp; lia)).
  unfold big_cmp. destruct (Z.compare_spec (Decimal_signed p * 10 ^ 4) (percent * 10 ^ 4 * 10 ^ d_scale p)); split; intros; nia.
Qed.

Lemma match_equal_string s t : Condition_Match (Equal (StringValue s)) (StringValue t) = Ok (String.eqb t s).
Proof. reflexivity. Qed.
Lemma match_equal_bool b c : Condition_Match (Equal (BoolValue b)) (BoolValue c) = Ok (Bool.eqb c b).
Proof. reflexivity. Qed.
Lemma match_greater d e : Condition_Match (GreaterThan (DecimalValue d)) (DecimalValue e) = Ok (0 <? Decimal_Cmp e d).
Proof. reflexivity. Qed.
Lemma match_any_value v : Condition_Match Any v = Ok true.
Proof. reflexivity. Qed.

Lemma test_row t i id c1 c2 c3 c4 b1 b2 b3 b4 outs : t_Inputs t = t_Inputs PromotionApprovalThresholdTable ->
  Condition_Match c1 (DecimalValue (IncreasePercent i)) = Ok b1 ->
  Condition_Match c2 (StringValue (pi_BandPosition i)) = Ok b2 ->
  Condition_Match c3 (StringValue (pi_BudgetAuthority i)) = Ok b3 ->
  Condition_Match c4 (BoolValue (GradeChange i)) = Ok b4 ->
  row_test t (PromotionApprovalInput_values i) (mkRow id [c1; c2; c3; c4] outs) = b1 && (b2 && (b3 && (b4 && true))).
Proof.
  intros Ht E1 E2 E3 E4. destruct (values_lookup i) as (H1 & H2 & H3 & H4). unfold row_test. rewrite Ht.
  cbn [t_Inputs PromotionApprovalThresholdTable row_Conditions zip zip_with forallb fst snd col_Name].
  rewrite H1, H2, H3, H4, E1, E2, E3, E4. done.
Qed.

Lemma reference_publishable : publishable PromotionApprovalThresholdTable.
Proof. apply Table_Validate_ok. vm_compute. reflexivity. Qed.

Lemma thresholds_value : financeThreshold = dec_of (10 * 10 ^ 4) 4 RoundingHalfEven /\
  executiveThreshold = dec_of (20 * 10 ^ 4) 4 RoundingHalfEven /\ dec_wf financeThreshold /\ dec_wf executiveThreshold.
Proof. split_and!; [vm_compute; reflexivity..| |]; apply Decimal_Validate_ok; vm_compute; reflexivity. Qed.

(** A table with the columns, conditions and row names of the reference finds
    the reference row. *)
Definition same_conditions (t : Table) : Prop :=
  t_Inputs t = t_Inputs PromotionApprovalThresholdTable /\
  (fun r => (row_ID r, row_Conditions r)) <$> t_Rows t =
  (fun r => (row_ID r, row_Conditions r)) <$> t_Rows PromotionApprovalThresholdTable.

Lemma find_fmap {A B} (f : A -> B) (p : A -> bool) (q : B -> bool) l : (forall x, p x = q (f x)) ->
  f <$> List.find p l = List.find q (f <$> l).
Proof. intros H. induction l as [|x l IH]; cbn; [done|]. rewrite <- H. by destruct (p x). Qed.

(** The test of a row depends on its conditions only. *)
Definition test_conditions (i : PromotionApprovalInput) (p : string * list Condition) : bool :=
  row_test PromotionApprovalThresholdTable (PromotionApprovalInput_values i) (mkRow p.1 p.2 []).

Lemma reference_find i : input_ok i ->
  fst <$> List.find (test_conditions i) ((fun r => (row_ID r, row_Conditions r)) <$> t_Rows PromotionApprovalThresholdTable)
  = Some (reference_decision i).2.
Proof.
  intros (Hd & _). destruct thresholds_value as (Ef & Ee & Hf & He).
  assert (T : forall id c1 c2 c3 c4 b1 b2 b3 b4,
    Condition_Match c1 (DecimalValue (IncreasePercent i)) = Ok b1 ->
    Condition_Match c2 (StringValue (pi_BandPosition i)) = Ok b2 ->
    Condition_Match c3 (StringValue (pi_BudgetAuthority i)) = Ok b3 ->
    Condition_Match c4 (BoolValue (GradeChange i)) = Ok b4 ->
    test_conditions i (id, [c1; c2; c3; c4]) = b1 && (b2 && (b3 && (b4 && true)))).
  { intros. by apply test_row. }
  cbn [t_Rows PromotionApprovalThresholdTable fmap list_fmap row_ID row_Conditions List.find].
  erewrite !T by first [apply match_any_value|apply match_equal_string|apply match_equal_bool|apply match_greater].
  rewrite (threshold_exceeds _ _ 20 Hd Ee He), (threshold_exceeds _ _ 10 Hd Ef Hf).
  cbn [andb]. rewrite !andb_true_r. unfold reference_decision.
  destruct (String.eqb_spec (pi_BudgetAuthority i) BudgetAuthorityUnknown); [by rewrite decide_True|rewrite decide_False by done].
  destruct (String.eqb_spec (pi_BandPosition i) BandPositionUnknown); [by rewrite decide_True|rewrite decide_False by done].
  destruct (String.eqb_spec (pi_BudgetAuthority i) BudgetAuthorityInsufficient); [by rewrite decide_True|rewrite decide_False by done].
  destruct (String.eqb_spec (pi_BandPosition i) BandPositionAboveMaximum) as [Eb|Eb], (GradeChange i); cbn [andb Bool.eqb];
    [by rewrite decide_True|rewrite decide_False by naive_solver..];
    (destruct (decide (exceeds (IncreasePercent i) 20)) as [E20|E20];
      [by rewrite bool_decide_true|rewrite bool_decide_false by done]);
    (destruct (decide (exceeds (IncreasePercent i) 10)) as [E10|E10];
      [by rewrite bool_decide_true|rewrite bool_decide_false by done]).
  - by rewrite decide_True.
  - rewrite decide_False by done. by rewrite decide_True.
  - rewrite decide_False by done. by rewrite decide_False.
Qed.


(** A table that decides like the reference: same columns, conditions, row
    names, policy and first outputs. *)
Definition tier_of_row (r : Row) : ApprovalTier * string := (Value_String (hd Value_zero (row_Outputs r)), row_ID r).

Record decides_like_reference (t : Table) : Prop := {
  dr_publishable : publishable t;
  dr_policy : t_HitPolicy t = HitPolicyFirst;
  dr_conditions : same_conditions t;
  dr_tiers : tier_of_row <$> t_Rows t = tier_of_row <$> t_Rows PromotionApprovalThresholdTable
}.

Lemma reference_pair i : reference_decision i ∈ tier_of_row <$> t_Rows PromotionApprovalThresholdTable.
Proof. unfold reference_decision. repeat case_decide; vm_compute; repeat constructor. Qed.

Lemma reference_hit t i : decides_like_reference t -> input_ok i ->
  exists r, hits t (PromotionApprovalInput_values i) = [r] /\ tier_of_row r = reference_decision i /\ row_Outputs r <> [].
Proof.
  intros [Hp Hf [Hin Hrows] Ht] Hi. rewrite hits_first by done.
  pose proof (find_fmap (fun r => (row_ID r, row_Conditions r)) (row_test t (PromotionApprovalInput_values i)) (test_conditions i)
    (t_Rows t)) as Hfind.
  rewrite Hrows in Hfind. pose proof (reference_find i Hi) as Href.
  rewrite <- Hfind in Href by (intros x; unfold test_conditions, row_test; by rewrite Hin).
  destruct (List.find _ (t_Rows t)) as [r|] eqn:E; [|done]. cbn in Href. injection Href as Hid.
  exists r. split; [done|]. apply List.find_some in E as [Hr _]. apply list_elem_of_In in Hr.
  destruct (pub_rows t (pub_typed t Hp)) as [Hok Hnd]. split.
  - pose proof (reference_pair i) as Hpair. rewrite <- Ht in Hpair.
    apply list_elem_of_fmap in Hpair as (r' & E & Hr').
    assert (Hid' : row_ID r' = row_ID r) by (rewrite Hid, E; done).
    rewrite E. f_equal. symmetry.
    apply list_elem_of_lookup in Hr as [n Hn], Hr' as [n' Hn'].
    assert (n = n') as ->; [|congruence].
    eapply (NoDup_lookup _ n n' _ Hnd); rewrite list_lookup_fmap; [by rewrite Hn|by rewrite Hn', <- Hid'].
  - rewrite Forall_forall in Hok. destruct (Hok r Hr) as [_ _ Ho]. destruct (row_Outputs r); [|done].
    inversion Ho as [Hnil|]. by destruct (proj2 (pub_columns t (pub_typed t Hp))).
Qed.

Lemma reference_decides : decides_like_reference PromotionApprovalThresholdTable.
Proof. split; [apply reference_publishable|done|by split|done]. Qed.

Lemma workflow_decides : exists t, PromotionWorkflowThresholdTable = Ok t /\ decides_like_reference t.
Proof.
  eexists. split; [vm_compute; reflexivity|]. split; [|done|by split|done].
  apply Table_Validate_ok. vm_compute. reflexivity.
Qed.

(** * The input digest *)

(** The same facts: the same number at the same scale, and the same rest. *)
Definition same_input (i j : PromotionApprovalInput) : Prop :=
  Decimal_signed (IncreasePercent i) = Decimal_signed (IncreasePercent j) /\
  d_scale (IncreasePercent i) = d_scale (IncreasePercent j) /\
  pi_BandPosition i = pi_BandPosition j /\ pi_BudgetAuthority i = pi_BudgetAuthority j /\ GradeChange i = GradeChange j.

Lemma zero_ends s t r1 r2 : Forall (fun b => b <> 0) (str_bytes s) -> Forall (fun b => b <> 0) (str_bytes t) ->
  str_bytes s ++ [0] ++ r1 = str_bytes t ++ [0] ++ r2 -> s = t /\ r1 = r2.
Proof.
  revert t. induction s as [|c s IH]; intros [|d t] Hs Ht; cbn; intros H; apply cons_eq_inv in H as [H1 H2].
  - done.
  - cbn in Ht. inversion Ht. lia.
  - cbn in Hs. inversion Hs. lia.
  - cbn in Hs, Ht. inversion Hs; inversion Ht; subst. apply byte_of_inj in H1 as ->.
    apply IH in H2 as [-> ->]; done.
Qed.

Lemma wire_nonzero s : s ∈ bandPositionWire ++ budgetAuthorityWire -> Forall (fun b => b <> 0) (str_bytes s).
Proof.
  intros H. repeat (apply elem_of_cons in H as [->|H]; [repeat (constructor; [discriminate|]); constructor|]).
  by apply elem_of_nil in H.
Qed.

Lemma Decimal_Canonical_same d e : dec_wf d -> dec_wf e -> Decimal_signed d = Decimal_signed e -> d_scale d = d_scale e ->
  Decimal_Canonical d = Decimal_Canonical e.
Proof.
  intros Hd He Hv Hs. unfold Decimal_Canonical. rewrite !dec_wf_valid by done.
  destruct Hd as (a & sa & ma & -> & _), He as (b & sb & mb & -> & _).
  rewrite !Decimal_signed_dec_of in Hv. rewrite !Decimal_Sign_dec_of. cbn in Hs. by subst.
Qed.

(** The bytes that are hashed determine the input. *)
Lemma input_bytes_exact i j : input_ok i -> input_ok j -> input_bytes i = input_bytes j <-> same_input i j.
Proof.
  intros (Hd & Hb & Hg) (Hd' & Hb' & Hg'). unfold input_bytes, same_input. split.
  - intros H. apply app_inv_head in H. apply app_inv_head in H.
    destruct (Decimal_Canonical_some _ Hd) as [c Hc], (Decimal_Canonical_some _ Hd') as [c' Hc'].
    rewrite Hc, Hc' in H. destruct (Decimal_Canonical_prefix _ _ _ _ _ _ Hc Hc' H) as (H1 & H2 & H3).
    apply app_inv_head in H3. apply zero_ends in H3 as [H4 H3]; [|apply wire_nonzero, elem_of_app; by left..].
    apply zero_ends in H3 as [H5 H3]; [|apply wire_nonzero, elem_of_app; by right..].
    split_and!; [done..|]. destruct (GradeChange i), (GradeChange j); done.
  - intros (H1 & H2 & H3 & H4 & H5). by rewrite (Decimal_Canonical_same _ _ Hd Hd' H1 H2), H3, H4, H5.
Qed.

Section promotion.
Context {SHA : Sha256}.

Lemma EvaluatePromotionApproval_reference t i : decides_like_reference t -> input_ok i ->
  exists d, EvaluatePromotionApproval t i = Ok d /\ (pd_Tier d, pd_MatchedRowID d) = reference_decision i /\
    pd_TableID d = t_ID t /\ pd_TableVersion d = t_Version t /\ Table_Digest t = Ok (pd_TableDigest d).
Proof.
  intros Hd Hi. destruct (reference_hit t i Hd Hi) as (r & Eh & Et & Ho). destruct Hd as [Hp Hf [Hin _] _].
  destruct (Evaluate_fit t (PromotionApprovalInput_values i) Hp (values_fit i t Hi Hin)) as (dg & rts & E1 & E2 & _).
  unfold EvaluatePromotionApproval. rewrite (proj2 (input_Validate_ok i) Hi). cbn [mbind outcome_bind].
  rewrite E2, Hf, Eh. cbn [mbind outcome_bind r_Status status_of fmap list_fmap length Nat.eqb r_Matches as_match m_Outputs].
  unfold tier_of_row in Et. destruct (row_Outputs r) as [|out outs]; [done|]. eexists. split; [reflexivity|]. cbn. done.
Qed.

(** on every valid input the reference table, in its 2026.1 form and in
    the 2026.2 form with workflow routes, gives the tier and row of the closed
    form: an unresolved fact blocks, missing budget asks for finance, a grade
    change above the band or a raise over twenty percent for an executive, a
    raise over ten percent, pay above the band or a grade change for finance,
    and only the rest is standard; both thresholds are exclusive and compare
    the number, whatever its scale.  An invalid input is refused as such, and
    STANDARD is never given to an input with an unresolved fact. *)
Theorem promotion_tier_exact i :
  (input_ok i -> exists d w dw, EvaluatePromotionApproval PromotionApprovalThresholdTable i = Ok d /\
     (pd_Tier d, pd_MatchedRowID d) = reference_decision i /\
     PromotionWorkflowThresholdTable = Ok w /\ EvaluatePromotionApproval w i = Ok dw /\
     (pd_Tier dw, pd_MatchedRowID dw) = reference_decision i) /\
  (~ input_ok i -> forall t, EvaluatePromotionApproval t i = Err ErrPromotionInputInvalid) /\
  ((reference_decision i).1 = ApprovalTierStandard <->
     pi_BudgetAuthority i <> BudgetAuthorityUnknown /\ pi_BudgetAuthority i <> BudgetAuthorityInsufficient /\
     pi_BandPosition i <> BandPositionUnknown /\ pi_BandPosition i <> BandPositionAboveMaximum /\
     GradeChange i = false /\ ~ exceeds (IncreasePercent i) 10).
Proof.
  split_and!.
  - intros Hi. destruct workflow_decides as (w & Ew & Hw).
    destruct (EvaluatePromotionApproval_reference _ i reference_decides Hi) as (d & E1 & E2 & _).
    destruct (EvaluatePromotionApproval_reference _ i Hw Hi) as (dw & E3 & E4 & _). eauto 10.
  - intros Hi t. unfold EvaluatePromotionApproval. destruct (input_Validate_cases i) as [E| ->]; [|done].
    by apply input_Validate_ok in E.
  - pose proof (exceeds_mono (IncreasePercent i)) as Hmono. unfold reference_decision.
    destruct (decide (pi_BudgetAuthority i = BudgetAuthorityUnknown)) as [|H1]; [cbn; split; [discriminate|tauto]|].
    destruct (decide (pi_BandPosition i = BandPositionUnknown)) as [|H2]; [cbn; split; [discriminate|tauto]|].
    destruct (decide (pi_BudgetAuthority i = BudgetAuthorityInsufficient)) as [|H3]; [cbn; split; [discriminate|tauto]|].
    destruct (decide (pi_BandPosition i = BandPositionAboveMaximum /\ GradeChange i = true)) as [|H4]; [cbn; split; [discriminate|tauto]|].
    destruct (decide (exceeds (IncreasePercent i) 20)); [cbn; split; [discriminate|tauto]|].
    destruct (decide (exceeds (IncreasePercent i) 10)); [cbn; split; [discriminate|tauto]|].
    destruct (decide (pi_BandPosition i = BandPositionAboveMaximum)); [cbn; split; [discriminate|tauto]|].
    destruct (decide (GradeChange i = true)) as [|H5]; [cbn; split; [discriminate|intros (_ & _ & _ & _ & H5 & _); congruence]|].
    apply Bool.not_true_iff_false in H5. cbn. tauto.
Qed.

Lemma inputDigest_ok i d : inputDigest i = Ok d <-> input_ok i /\ d = Digest (input_bytes i).
Proof.
  unfold inputDigest. rewrite bind_ok_iff, input_Validate_ok. split; intros [H1 H2]; (split; [done|]).
  - injection H2 as <-. done.
  - by subst.
Qed.

Lemma NewApprovedPlan_ok table i dg p : NewApprovedPlan table i dg = Ok p ->
  is_blank dg = false /\ input_ok i /\ exists d, EvaluatePromotionApproval table i = Ok d /\
  p = mkApprovedPlan i (Digest (input_bytes i)) (pd_Tier d) (pd_MatchedRowID d) (pd_TableID d) (pd_TableVersion d)
        (pd_TableDigest d) dg.
Proof.
  unfold NewApprovedPlan. intros H. apply bind_ok_iff in H as [H1 H]. apply bind_ok_inv in H as (d & H2 & H).
  apply bind_ok_inv in H as (g & H3 & H). apply inputDigest_ok in H3 as [H3 ->]. injection H as <-.
  apply fail_if_ok_iff in H1. eauto 10.
Qed.

(** an approved plan is re-evaluated without error exactly when the current
    table and inputs can be evaluated.  It is invalidated exactly when the
    current answer is blocked or differs from the approved one in tier or row;
    otherwise it is confirmed exactly when the inputs are the approved ones and
    needs re-approval when any of them moved.  The verdict cites the approved
    and the current table.  A plan whose stored input was changed is refused.
    SHA-256 is assumed not to collide on the inputs compared. *)
Theorem reevaluation_exact table i dg p table' cur
    (Hp : NewApprovedPlan table i dg = Ok p)
    (Hcol : forall j, Digest (input_bytes j) = Digest (input_bytes i) -> input_bytes j = input_bytes i) :
  (is_ok (ReevaluatePromotionApproval table' p cur) = is_ok (EvaluatePromotionApproval table' cur)) /\
  (forall r d, ReevaluatePromotionApproval table' p cur = Ok r -> EvaluatePromotionApproval table' cur = Ok d ->
     let settled := pd_Tier d <> ApprovalTierUnknownBlocked /\ pd_Tier d = ap_Tier p /\ pd_MatchedRowID d = ap_MatchedRowID p in
     (re_Verdict r = VerdictInvalidated <-> ~ settled) /\
     (re_Verdict r = VerdictConfirmed <-> settled /\ same_input i cur) /\
     (re_Verdict r = VerdictReapprovalRequired <-> settled /\ ~ same_input i cur) /\
     re_OriginalTableDigest r = ap_TableDigest p /\ re_CurrentTableDigest r = pd_TableDigest d /\ re_Evidence r = dg) /\
  (forall j, input_ok j -> ~ same_input i j ->
     ReevaluatePromotionApproval table'
       (mkApprovedPlan j (ap_InputDigest p) (ap_Tier p) (ap_MatchedRowID p) (ap_TableID p) (ap_TableVersion p)
          (ap_TableDigest p) (ap_ApprovalDigest p)) cur = Err ErrPlanTampered).
Proof.
  apply NewApprovedPlan_ok in Hp as (Hb & Hi & d0 & E0 & ->).
  assert (Hdg : (dg =? "")%string = false) by (destruct dg; [discriminate Hb|done]).
  assert (Hself : inputDigest i = Ok (Digest (input_bytes i))) by (by apply inputDigest_ok).
  split_and!.
  - unfold ReevaluatePromotionApproval. cbn [ap_ApprovalDigest ap_Input ap_InputDigest]. rewrite Hdg. cbn [fail_if mbind outcome_bind].
    rewrite Hself. cbn [mbind outcome_bind]. rewrite String.eqb_refl. cbn [negb fail_if mbind outcome_bind].
    destruct (inputDigest cur) as [g|e|] eqn:Eg; cbn [mbind outcome_bind].
    + by destruct (EvaluatePromotionApproval table' cur).
    + unfold inputDigest in Eg. unfold EvaluatePromotionApproval.
      destruct (input_Validate_cases cur) as [E|E]; rewrite E in *; [discriminate Eg|done].
    + unfold inputDigest in Eg. destruct (input_Validate_cases cur) as [E|E]; rewrite E in Eg; discriminate Eg.
  - intros r d Hr Hd. unfold ReevaluatePromotionApproval in Hr. cbn [ap_ApprovalDigest ap_Input ap_InputDigest] in Hr.
    rewrite Hdg in Hr. cbn [fail_if mbind outcome_bind] in Hr. rewrite Hself in Hr. cbn [mbind outcome_bind] in Hr.
    rewrite String.eqb_refl in Hr. cbn [negb fail_if mbind outcome_bind] in Hr.
    apply bind_ok_inv in Hr as (g & Hg & Hr). apply inputDigest_ok in Hg as [Hcur ->]. rewrite Hd in Hr. cbn [mbind outcome_bind] in Hr.
    assert (Hsame : (Digest (input_bytes cur) =? Digest (input_bytes i))%string = true <-> same_input i cur).
    { rewrite String.eqb_eq. rewrite <- (input_bytes_exact i cur Hi Hcur). split; [intros H; symmetry; by apply Hcol|by intros ->]. }
    revert Hr Hsame. generalize (Digest (input_bytes cur)), (Digest (input_bytes i)). intros gc gi Hr Hsame.
    injection Hr as <-. cbn [re_Verdict ap_Tier ap_InputDigest ap_MatchedRowID re_OriginalTableDigest re_CurrentTableDigest re_Evidence ap_TableDigest ap_ApprovalDigest].
    assert (Hs : {same_input i cur} + {~ same_input i cur}).
    { destruct (gc =? gi)%string; [left; by apply Hsame|right; intros H; by apply Hsame in H]. }
    assert (Hmoved : (gc =? gi)%string = if Hs then true else false).
    { destruct Hs as [H|H]; [by apply Hsame|]. apply Bool.not_true_iff_false. by rewrite Hsame. }
    rewrite Hmoved. clear Hmoved Hsame.
    destruct (String.eqb_spec (pd_Tier d) ApprovalTierUnknownBlocked), (String.eqb_spec (pd_Tier d) (pd_Tier d0)),
      (String.eqb_spec (pd_MatchedRowID d) (pd_MatchedRowID d0)), Hs; cbn [negb orb];
      (split_and!; [split; [discriminate || tauto|reflexivity || tauto]..|done|done|done]).
  - intros j Hj Hne. unfold ReevaluatePromotionApproval. cbn [ap_ApprovalDigest ap_Input ap_InputDigest]. rewrite Hdg.
    cbn [fail_if mbind outcome_bind]. assert (Hdj : inputDigest j = Ok (Digest (input_bytes j))) by (by apply inputDigest_ok). rewrite Hdj. cbn [mbind outcome_bind].
    destruct (String.eqb_spec (Digest (input_bytes j)) (Digest (input_bytes i))) as [E|]; [|done].
    exfalso. apply Hne. apply (input_bytes_exact i j Hi Hj). symmetry. by apply Hcol.
Qed.
End promotion.

(** A concrete approval: five percent, in band, funded. *)
Definition sample_input : PromotionApprovalInput :=
  mkPromotionApprovalInput (dec_of 50000 4 RoundingHalfEven) BandPositionInBand BudgetAuthoritySufficient false.
(** A digest function that tells this input from all others. *)
Definition sample_sha : Sha256 :=
  {| sha256_Sum256 := fun bs => if decide (bs = input_bytes sample_input) then [1] else [0] |}.

Lemma sample_no_collision j : @Digest sample_sha (input_bytes j) = @Digest sample_sha (input_bytes sample_input) ->
  input_bytes j = input_bytes sample_input.
Proof.
  unfold Digest. cbn [sha256_Sum256 sample_sha]. rewrite (decide_True (P := input_bytes sample_input = _)) by done.
  destruct (decide (input_bytes j = input_bytes sample_input)); [done|].
  intros H. exfalso. revert H. vm_compute. discriminate.
Qed.

Lemma promotion_tier_exact_witness : exists d,
  @EvaluatePromotionApproval sample_sha PromotionApprovalThresholdTable sample_input = Ok d /\
  (pd_Tier d, pd_MatchedRowID d) = (ApprovalTierStandard, rowOtherwise).
Proof.
  destruct (@promotion_tier_exact sample_sha sample_input) as [H _].
  destruct H as (d & w & dw & E1 & E2 & _).
  - split; [apply Decimal_Validate_ok; reflexivity|split; vm_compute; repeat constructor].
  - exists d. split; [exact E1|]. rewrite E2. vm_compute. reflexivity.
Defined.

Lemma reevaluation_exact_witness : exists p r,
  @NewApprovedPlan sample_sha PromotionApprovalThresholdTable sample_input "approved" = Ok p /\
  @ReevaluatePromotionApproval sample_sha PromotionApprovalThresholdTable p sample_input = Ok r /\
  re_Verdict r = VerdictConfirmed.
Proof.
  eexists _, _. split; [vm_compute; reflexivity|]. split; [vm_compute; reflexivity|].
  destruct (@reevaluation_exact sample_sha PromotionApprovalThresholdTable sample_input "approved" _
    PromotionApprovalThresholdTable sample_input ltac:(vm_compute; reflexivity) sample_no_collision) as (_ & H & _).
  destruct (H _ _ ltac:(vm_compute; reflexivity) ltac:(vm_compute; reflexivity)) as (_ & H1 & _).
  apply H1. split; [split; [discriminate|split; reflexivity]|repeat split].
Defined.
