(* ===== verification/Expression.v ===== *)
(** The expression language of the rules engine: the tree, the function
    library and the compiler.  [internal/engines/rules/expression.go] (types,
    tree, IR, digests), [expression_library.go] and [expression_compile.go].

    A [uint8] enumeration has a last constructor for the values past its
    declared constants.  [lower] threads the compiler's state through a tree,
    also past errors, as the code does.  Costs and indices are [Z]: they are
    bounded by the limits whenever compilation succeeds.  Case mapping outside
    ASCII is the class [CaseMapping]. *)

From stdpp Require Import sorting.
From S2P Require Import Prelude GoStrings Sorting CanonicalBytes FixedDecimal CivilTime RuleValues.

Local Open Scope Z_scope.

(** * Types, operators, trees *)

Inductive ExpressionType : Type :=
  | ExpressionTypeUnspecified | ExpressionTypeBool | ExpressionTypeInt | ExpressionTypeDecimal
  | ExpressionTypeString | ExpressionTypeDate | ExpressionTypeList | ExpressionTypeUnknown
  | ExpressionTypeUndeclared (v : Z).

#[export] Instance ExpressionType_eq_dec : EqDecision ExpressionType.
Proof. solve_decision. Defined.

Definition expressionTypeWire : list (ExpressionType * string) :=
  [ (ExpressionTypeBool, "BOOL"); (ExpressionTypeInt, "INT"); (ExpressionTypeDecimal, "DECIMAL");
    (ExpressionTypeString, "STRING"); (ExpressionTypeDate, "LOCAL_DATE"); (ExpressionTypeList, "LIST");
    (ExpressionTypeUnknown, "UNKNOWN") ]%string.
Definition ExpressionType_String (t : ExpressionType) : string := default "TYPE_UNSPECIFIED" (wire_lookup expressionTypeWire t).
Definition ExpressionType_Valid (t : ExpressionType) : bool :=
  match wire_lookup expressionTypeWire t with Some _ => true | None => false end.

Inductive UnknownSemantics : Type :=
  | UnknownSemanticsUnspecified | UnknownSemanticsPropagate | UnknownSemanticsReject | UnknownSemanticsUndeclared (v : Z).

#[export] Instance UnknownSemantics_eq_dec : EqDecision UnknownSemantics.
Proof. solve_decision. Defined.

Definition UnknownSemantics_String (s : UnknownSemantics) : string :=
  match s with
  | UnknownSemanticsPropagate => "PROPAGATE"
  | UnknownSemanticsReject => "REJECT"
  | _ => "UNKNOWN_SEMANTICS_UNSPECIFIED"
  end.
Definition UnknownSemantics_Valid (s : UnknownSemantics) : bool :=
  bool_decide (s = UnknownSemanticsPropagate) || bool_decide (s = UnknownSemanticsReject).

Inductive ExprKind : Type :=
  | ExprKindUnspecified | ExprKindLiteral | ExprKindVariable | ExprKindUnary | ExprKindBinary
  | ExprKindCall | ExprKindIterate | ExprKindUnknown | ExprKindUndeclared (v : Z).

Inductive UnaryOp : Type := UnaryOpUnspecified | UnaryOpNot | UnaryOpNegate | UnaryOpUndeclared (v : Z).

Definition UnaryOp_String (o : UnaryOp) : string :=
  match o with UnaryOpNot => "NOT" | UnaryOpNegate => "NEGATE" | _ => "UNARY_UNSPECIFIED" end.

Inductive BinaryOp : Type :=
  | BinaryOpUnspecified | BinaryOpAnd | BinaryOpOr | BinaryOpEqual | BinaryOpNotEqual | BinaryOpLess
  | BinaryOpLessOrEqual | BinaryOpGreater | BinaryOpGreaterOrEqual | BinaryOpAdd | BinaryOpSubtract
  | BinaryOpMultiply | BinaryOpDivide | BinaryOpUndeclared (v : Z).

Definition BinaryOp_String (o : BinaryOp) : string :=
  match o with
  | BinaryOpAnd => "AND" | BinaryOpOr => "OR" | BinaryOpEqual => "EQUAL" | BinaryOpNotEqual => "NOT_EQUAL"
  | BinaryOpLess => "LESS" | BinaryOpLessOrEqual => "LESS_OR_EQUAL" | BinaryOpGreater => "GREATER"
  | BinaryOpGreaterOrEqual => "GREATER_OR_EQUAL" | BinaryOpAdd => "ADD" | BinaryOpSubtract => "SUBTRACT"
  | BinaryOpMultiply => "MULTIPLY" | BinaryOpDivide => "DIVIDE" | _ => "BINARY_UNSPECIFIED"
  end.

Inductive IterationOp : Type := IterationOpUnspecified | IterationOpAll | IterationOpAny | IterationOpUndeclared (v : Z).

Definition IterationOp_String (o : IterationOp) : string :=
  match o with IterationOpAll => "ALL" | IterationOpAny => "ANY" | _ => "ITERATION_UNSPECIFIED" end.
Definition IterationOp_declared (o : IterationOp) : bool :=
  match o with IterationOpAll | IterationOpAny => true | _ => false end.

Inductive Expr : Type :=
  mkExpr {
    e_Kind : ExprKind;
    e_Type : ExpressionType;
    e_Name : string;
    e_Function : string;
    e_Value : Value;
    e_Unary : UnaryOp;
    e_Binary : BinaryOp;
    e_Iteration : IterationOp;
    e_IterationBound : Z;
    e_Children : list Expr
  }.

Definition valueExpressionType (v : Value) : ExpressionType :=
  match Value_Kind v with
  | KindBool => ExpressionTypeBool
  | KindInt => ExpressionTypeInt
  | KindDecimal => ExpressionTypeDecimal
  | KindString => ExpressionTypeString
  | KindList => ExpressionTypeList
  | KindUnspecified => ExpressionTypeUnspecified
  end.

(** The constructors set the fields they name and leave the rest zero. *)
Definition Literal (v : Value) : Expr :=
  mkExpr ExprKindLiteral (valueExpressionType v) "" "" v UnaryOpUnspecified BinaryOpUnspecified IterationOpUnspecified 0 [].
Definition BoolLiteral (b : bool) : Expr := Literal (BoolValue b).
Definition IntLiteral (i : Z) : Expr := Literal (IntValue i).
Definition DecimalLiteral (d : Decimal) : Expr := Literal (DecimalValue d).
Definition StringLiteral (s : string) : Expr := Literal (StringValue s).
Definition DateLiteral (s : string) : Expr :=
  mkExpr ExprKindLiteral ExpressionTypeDate "" "" (StringValue s) UnaryOpUnspecified BinaryOpUnspecified IterationOpUnspecified 0 [].
Definition Variable_ (name : string) (t : ExpressionType) : Expr :=
  mkExpr ExprKindVariable t name "" Value_zero UnaryOpUnspecified BinaryOpUnspecified IterationOpUnspecified 0 [].
Definition Unary (o : UnaryOp) (child : Expr) : Expr :=
  mkExpr ExprKindUnary ExpressionTypeUnspecified "" "" Value_zero o BinaryOpUnspecified IterationOpUnspecified 0 [child].
Definition Binary (o : BinaryOp) (left right : Expr) : Expr :=
  mkExpr ExprKindBinary ExpressionTypeUnspecified "" "" Value_zero UnaryOpUnspecified o IterationOpUnspecified 0 [left; right].
Definition Call (f : string) (args : list Expr) : Expr :=
  mkExpr ExprKindCall ExpressionTypeUnspecified "" f Value_zero UnaryOpUnspecified BinaryOpUnspecified IterationOpUnspecified 0 args.
Definition Iterate (o : IterationOp) (collection predicate : Expr) (bound : Z) : Expr :=
  mkExpr ExprKindIterate ExpressionTypeUnspecified "" "" Value_zero UnaryOpUnspecified BinaryOpUnspecified o bound [collection; predicate].
Definition Unknown : Expr :=
  mkExpr ExprKindUnknown ExpressionTypeUnknown "" "" Value_zero UnaryOpUnspecified BinaryOpUnspecified IterationOpUnspecified 0 [].

Record Input : Type := mkInput { in_Name : string; in_Type : ExpressionType; in_ElementType : ExpressionType }.
Record Dependency : Type := mkDependency { dep_Name : string; dep_Version : string; dep_Digest : string }.
Record Expression : Type := mkExpression {
  x_Root : Expr;
  x_Inputs : list Input;
  x_Dependencies : list Dependency;
  x_Version : string;
  x_UnknownSemantics : UnknownSemantics
}.

Record CostLimit : Type := mkCostLimit { MaxNodes : Z; MaxDepth : Z; MaxIterations : Z; MaxCost : Z }.
Definition DefaultCostLimit : CostLimit := mkCostLimit 256 32 256 1024.
Record Cost : Type := mkCost { c_Nodes : Z; c_Depth : Z; c_Iterations : Z; c_Total : Z }.

#[export] Instance Cost_eq_dec : EqDecision Cost.
Proof. solve_decision. Defined.

Inductive Opcode : Type :=
  | OpcodeLiteral | OpcodeVariable | OpcodeUnary | OpcodeBinary | OpcodeCall | OpcodeIterate | OpcodeUnknown
  | OpcodeUndeclared (v : Z).

(** The number behind the constant. *)
Definition Opcode_int (o : Opcode) : Z :=
  match o with
  | OpcodeLiteral => 1 | OpcodeVariable => 2 | OpcodeUnary => 3 | OpcodeBinary => 4 | OpcodeCall => 5
  | OpcodeIterate => 6 | OpcodeUnknown => 7 | OpcodeUndeclared v => v
  end.

Record IRNode : Type := mkIRNode {
  n_Opcode : Opcode;
  n_Type : ExpressionType;
  n_ElementType : ExpressionType;
  n_Name : string;
  n_Function : string;
  n_FunctionVersion : string;
  n_FunctionCost : Z;
  n_Value : Value;
  n_Unary : UnaryOp;
  n_Binary : BinaryOp;
  n_Iteration : IterationOp;
  n_IterationBound : Z;
  n_Children : list Z
}.

Record IR : Type := mkIR { ir_Nodes : list IRNode; ir_Root : Z }.

Record CompiledExpression : Type := mkCompiled {
  ce_IR : IR;
  ce_Inputs : list Input;
  ce_Dependencies : list Dependency;
  ce_Version : string;
  ce_FunctionLibraryVersion : string;
  ce_FunctionLibraryDigest : string;
  ce_UnknownSemantics : UnknownSemantics;
  ce_DependencyDigest : string;
  ce_Digest : string;
  ce_Cost : Cost;
  ce_Limits : CostLimit
}.

Definition dependencyLess (a b : Dependency) : bool :=
  if negb (String.eqb (dep_Name a) (dep_Name b)) then String.ltb (dep_Name a) (dep_Name b)
  else if negb (String.eqb (dep_Version a) (dep_Version b)) then String.ltb (dep_Version a) (dep_Version b)
  else String.ltb (dep_Digest a) (dep_Digest b).

Definition dep_le (a b : Dependency) : Prop := dependencyLess b a = false.
#[export] Instance dep_le_dec : RelDecision dep_le.
Proof. intros a b. unfold dep_le. apply _. Defined.
Definition sort_dependencies (deps : list Dependency) : list Dependency := merge_sort dep_le deps.
Definition sort_inputs (inputs : list Input) : list Input := sort_by in_Name inputs.

(** * The function library *)

Definition ExpressionVersion : Z := 2.
Definition ExpressionLibraryVersion : string := "1".
Definition MaxPinnedCalendarDates : Z := 256.

Record FunctionSignature : Type := mkSignature {
  sig_Arguments : list ExpressionType; sig_Result : ExpressionType; sig_ListElement : Z }.
Record FunctionEntry : Type := mkEntry {
  fe_Name : string; fe_Version : string; fe_Signature : FunctionSignature;
  fe_Cost : Z; fe_PerElementCost : Z; fe_operation : string }.
Record ExpressionFunctionLibrary : Type := mkLibrary {
  lib_version : string; lib_entries : gmap string FunctionEntry; lib_digest : string }.

Definition builtin_entries : list FunctionEntry :=
  let S := ExpressionTypeString in let D := ExpressionTypeDate in
  [ mkEntry "lower" "1" (mkSignature [S] S (-1)) 1 1 "lower";
    mkEntry "upper" "1" (mkSignature [S] S (-1)) 1 1 "upper";
    mkEntry "contains" "1" (mkSignature [S; S] ExpressionTypeBool (-1)) 1 1 "contains";
    mkEntry "starts_with" "1" (mkSignature [S; S] ExpressionTypeBool (-1)) 1 1 "starts_with";
    mkEntry "ends_with" "1" (mkSignature [S; S] ExpressionTypeBool (-1)) 1 1 "ends_with";
    mkEntry "abs" "1" (mkSignature [ExpressionTypeUnknown] ExpressionTypeUnknown (-1)) 1 0 "abs";
    mkEntry "len" "1" (mkSignature [ExpressionTypeUnknown] ExpressionTypeInt (-1)) 1 0 "len";
    mkEntry "list_contains" "1" (mkSignature [ExpressionTypeList; ExpressionTypeUnknown] ExpressionTypeBool 0) 1 1 "list_contains";
    mkEntry "interval_overlaps" "1" (mkSignature [D; D; D; D] ExpressionTypeBool (-1)) 2 0 "interval_overlaps";
    mkEntry "business_day_diff" "1" (mkSignature [D; D; S; S; S; ExpressionTypeList] ExpressionTypeInt 5) 2 1 "business_day_diff" ].

Definition ExpressionFunctionLibrary_Entries (l : ExpressionFunctionLibrary) : list FunctionEntry :=
  omap (fun name => lib_entries l !! name) (sort_Strings (map_to_list (lib_entries l)).*1).

Definition entry_ops (e : FunctionEntry) : list op :=
  [ WString "name" (fe_Name e); WString "entry.version" (fe_Version e);
    WString "result" (ExpressionType_String (sig_Result (fe_Signature e)));
    WInt "cost" (fe_Cost e); WInt "per_element_cost" (fe_PerElementCost e);
    WInt "list_element" (sig_ListElement (fe_Signature e));
    WCount "arguments" (Z.of_nat (length (sig_Arguments (fe_Signature e)))) ] ++
  ((fun arg => WString "argument" (ExpressionType_String arg)) <$> sig_Arguments (fe_Signature e)).

Definition library_ops (l : ExpressionFunctionLibrary) : list op :=
  WString "version" (lib_version l) ::
  WCount "entries" (Z.of_nat (length (ExpressionFunctionLibrary_Entries l))) ::
  mjoin (entry_ops <$> ExpressionFunctionLibrary_Entries l).

Section compiler.
Context {SHA : Sha256} {CM : CaseMapping}.

Definition digest_of (schema : string) (version : Z) (os : list op) : outcome rules_err string :=
  map_err ErrCanon (Writer_Digest (ops_run os (New schema version))).

Definition computeDigest (l : ExpressionFunctionLibrary) : outcome rules_err string :=
  digest_of "hcmnext.engines.rules.ExpressionFunctionLibrary" 1 (library_ops l).

Definition builtinExpressionLibrary : ExpressionFunctionLibrary :=
  let byName := list_to_map ((fun e => (fe_Name e, e)) <$> builtin_entries) in
  let lib := mkLibrary ExpressionLibraryVersion byName "" in
  mkLibrary ExpressionLibraryVersion byName (match computeDigest lib with Ok d => d | _ => "" end).
Definition DefaultExpressionFunctionLibrary : ExpressionFunctionLibrary := builtinExpressionLibrary.

Definition library_entry (l : ExpressionFunctionLibrary) (name : string) : option FunctionEntry :=
  lib_entries l !! strings_ToLower name.

Definition validateLibrary (l : ExpressionFunctionLibrary) : outcome rules_err unit :=
  _ ← fail_if (String.eqb (lib_version l) "" || (size (lib_entries l) =? 0)%nat) ErrExpressionInvalid;
  digest ← computeDigest l;
  fail_if (negb (String.eqb digest (lib_digest l))) ErrExpressionInvalid.

(** * Lowering *)

Record compilerState : Type := mkState {
  cs_env : gmap string Input;
  cs_limit : CostLimit;
  cs_library : ExpressionFunctionLibrary;
  cs_dependencies : list Dependency;
  cs_nodes : list IRNode;
  cs_cost : Cost;
  cs_functionCost : Z
}.

Definition with_env (f : gmap string Input -> gmap string Input) (s : compilerState) : compilerState :=
  mkState (f (cs_env s)) (cs_limit s) (cs_library s) (cs_dependencies s) (cs_nodes s) (cs_cost s) (cs_functionCost s).
Definition with_cost (f : Cost -> Cost) (s : compilerState) : compilerState :=
  mkState (cs_env s) (cs_limit s) (cs_library s) (cs_dependencies s) (cs_nodes s) (f (cs_cost s)) (cs_functionCost s).
Definition add_function_cost (c : Z) (s : compilerState) : compilerState :=
  mkState (cs_env s) (cs_limit s) (cs_library s) (cs_dependencies s) (cs_nodes s) (cs_cost s) (cs_functionCost s + c).
Definition add_node (n : IRNode) (s : compilerState) : compilerState :=
  mkState (cs_env s) (cs_limit s) (cs_library s) (cs_dependencies s) (cs_nodes s ++ [n]) (cs_cost s) (cs_functionCost s).

Definition isNumber (t : ExpressionType) : bool :=
  match t with ExpressionTypeInt | ExpressionTypeDecimal => true | _ => false end.
Definition type_is (t u : ExpressionType) : bool := bool_decide (t = u).

(** The two categories of a forbidden name. *)
Definition forbiddenCallError (name : string) : rules_err :=
  let lower := strings_ToLower name in
  if existsb (fun w => has_sub w lower) ["http"; "net"; "file"; "read"; "write"; "db"; "fetch"]%string
  then ErrExpressionIO else ErrExpressionArbitrary.

Definition comparison (o : BinaryOp) : bool :=
  match o with
  | BinaryOpEqual | BinaryOpNotEqual | BinaryOpLess | BinaryOpLessOrEqual | BinaryOpGreater | BinaryOpGreaterOrEqual => true
  | _ => false
  end.
Definition equality (o : BinaryOp) : bool := match o with BinaryOpEqual | BinaryOpNotEqual => true | _ => false end.

Definition numericType (left right : ExpressionType) : outcome rules_err ExpressionType :=
  if negb (isNumber left) || negb (isNumber right) then Err ErrExpressionType
  else if type_is left ExpressionTypeDecimal || type_is right ExpressionTypeDecimal then Ok ExpressionTypeDecimal
  else Ok ExpressionTypeInt.

Definition binaryType (o : BinaryOp) (left right : ExpressionType) : outcome rules_err ExpressionType :=
  if type_is left ExpressionTypeUnknown || type_is right ExpressionTypeUnknown then
    match o with
    | BinaryOpAnd | BinaryOpOr | BinaryOpEqual | BinaryOpNotEqual | BinaryOpLess | BinaryOpLessOrEqual
    | BinaryOpGreater | BinaryOpGreaterOrEqual => Ok ExpressionTypeBool
    | _ => if type_is left ExpressionTypeUnknown then Ok right else Ok left
    end
  else
    match o with
    | BinaryOpAnd | BinaryOpOr =>
        if negb (type_is left ExpressionTypeBool) || negb (type_is right ExpressionTypeBool)
        then Err ErrExpressionType else Ok ExpressionTypeBool
    | BinaryOpEqual | BinaryOpNotEqual | BinaryOpLess | BinaryOpLessOrEqual | BinaryOpGreater | BinaryOpGreaterOrEqual =>
        if negb (type_is left right) || (negb (equality o) && type_is left ExpressionTypeBool)
        then Err ErrExpressionType else Ok ExpressionTypeBool
    | BinaryOpAdd =>
        if type_is left ExpressionTypeString && type_is right ExpressionTypeString then Ok ExpressionTypeString
        else numericType left right
    | BinaryOpSubtract | BinaryOpMultiply | BinaryOpDivide => numericType left right
    | _ => Err ErrExpressionInvalid
    end.

(** [nodes[i]]: an index out of range panics. *)
Definition node_at (nodes : list IRNode) (i : Z) : outcome rules_err IRNode :=
  if i <? 0 then Panic else match nodes !! Z.to_nat i with Some n => Ok n | None => Panic end.

Fixpoint nodes_at (nodes : list IRNode) (is_ : list Z) : outcome rules_err (list IRNode) :=
  match is_ with
  | [] => Ok []
  | i :: r => n ← node_at nodes i; rest ← nodes_at nodes r; Ok (n :: rest)
  end.

(** The argument types against the declared ones, whose number agrees. *)
Fixpoint check_arguments (want got : list ExpressionType) : outcome rules_err unit :=
  match want, got with
  | w :: want', g :: got' =>
      if type_is w ExpressionTypeUnknown then check_arguments want' got'
      else
        _ ← fail_if (negb (type_is g w) && negb (type_is g ExpressionTypeUnknown)) ErrExpressionType;
        check_arguments want' got'
  | [], _ => Ok tt
  | _ :: _, [] => Panic
  end.

Definition string_literal (n : IRNode) : bool :=
  match n_Opcode n with OpcodeLiteral => bool_decide (Value_Kind (n_Value n) = KindString) | _ => false end.

Definition pinned_calendar (deps : list Dependency) (ref version digest : string) : bool :=
  existsb (fun dep => String.eqb (dep_Name dep) ("calendar." +:+ ref) && String.eqb (dep_Version dep) version
                      && String.eqb (dep_Digest dep) digest) deps.

(** The guards on names, in the order of the switch. *)
Definition forbidden_function (name : string) : outcome rules_err unit :=
  let lower := strings_ToLower name in
  let has w := has_sub w lower in
  if existsb has ["read"; "write"; "file"; "http"; "net"; "db"; "fetch"; "reflect"]%string
  then Err (forbiddenCallError name)
  else if existsb (String.eqb lower) ["now"; "today"; "timestamp"; "clock"; "current_time"]%string
  then Err ErrExpressionTime
  else if has "random" || String.eqb lower "rand" || String.eqb lower "uuid" then Err ErrExpressionRandom
  else fail_if (existsb has ["exec"; "eval"; "script"; "code"]%string) ErrExpressionArbitrary.

(** The switch on the operation of the entry; [args] are the argument nodes. *)
Definition operation_type (deps : list Dependency) (entry : FunctionEntry) (args : list IRNode)
    : outcome rules_err ExpressionType :=
  let result := sig_Result (fe_Signature entry) in
  let op := fe_operation entry in
  if String.eqb op "abs" then
    match args with
    | a :: _ =>
        _ ← fail_if (negb (isNumber (n_Type a)) && negb (type_is (n_Type a) ExpressionTypeUnknown)) ErrExpressionType;
        Ok (n_Type a)
    | [] => Panic
    end
  else if String.eqb op "len" then
    match args with
    | a :: _ =>
        _ ← fail_if (negb (type_is (n_Type a) ExpressionTypeString) && negb (type_is (n_Type a) ExpressionTypeList)
                     && negb (type_is (n_Type a) ExpressionTypeUnknown)) ErrExpressionType;
        Ok result
    | [] => Panic
    end
  else if String.eqb op "list_contains" then
    match args with
    | a :: b :: _ =>
        _ ← fail_if (negb (type_is (n_Type a) ExpressionTypeList) && negb (type_is (n_Type a) ExpressionTypeUnknown)) ErrExpressionType;
        _ ← fail_if (ExpressionType_Valid (n_ElementType a) && negb (type_is (n_Type b) (n_ElementType a))
                     && negb (type_is (n_Type b) ExpressionTypeUnknown)) ErrExpressionType;
        Ok result
    | _ => Panic
    end
  else if String.eqb op "business_day_diff" then
    match args with
    | _ :: _ :: a2 :: a3 :: a4 :: a5 :: _ =>
        _ ← fail_if (negb (string_literal a2) || negb (string_literal a3) || negb (string_literal a4)) ErrExpressionDependency;
        let calendarRef := Value_String (n_Value a2) in
        let calendarVersion := Value_String (n_Value a3) in
        let calendarDigest := Value_String (n_Value a4) in
        _ ← fail_if (String.eqb calendarRef "" || String.eqb calendarVersion "" || String.eqb calendarDigest ""
                     || (256 <? len calendarRef) || (128 <? len calendarVersion)) ErrExpressionDependency;
        _ ← fail_if (negb (type_is (n_Type a5) ExpressionTypeList) && negb (type_is (n_Type a5) ExpressionTypeUnknown)) ErrExpressionType;
        _ ← fail_if (negb (type_is (n_ElementType a5) ExpressionTypeUnspecified) && negb (type_is (n_ElementType a5) ExpressionTypeDate)) ErrExpressionType;
        _ ← fail_if (negb (pinned_calendar deps calendarRef calendarVersion calendarDigest)) ErrExpressionDependency;
        Ok result
    | _ => Panic
    end
  else Ok result.

Definition callType (library : ExpressionFunctionLibrary) (deps : list Dependency) (name : string) (indexes : list Z)
    (nodes : list IRNode) : outcome rules_err (FunctionEntry * ExpressionType) :=
  _ ← forbidden_function name;
  match library_entry library (strings_ToLower name) with
  | None => Err ErrExpressionFunction
  | Some entry =>
      _ ← fail_if (negb (length indexes =? length (sig_Arguments (fe_Signature entry)))%nat) ErrExpressionFunction;
      args ← nodes_at nodes indexes;
      _ ← check_arguments (sig_Arguments (fe_Signature entry)) (n_Type <$> args);
      result ← operation_type deps entry args;
      Ok (entry, result)
  end.

(** What a case of the switch leaves: the node without its type, and the type. *)
Definition lowered : Type := outcome rules_err (IRNode * ExpressionType).

Definition literal_type (t : ExpressionType) (v : Value) : outcome rules_err ExpressionType :=
  if type_is t ExpressionTypeDate then
    _ ← fail_if (negb (bool_decide (Value_Kind v = KindString))) ErrExpressionType;
    _ ← map_err (fun _ => ErrExpressionValue) (ParseLocalDate (Value_String v));
    _ ← Value_Validate v;
    Ok ExpressionTypeDate
  else
    _ ← fail_if (bool_decide (Value_Kind v = KindList)) ErrExpressionType;
    _ ← Value_Validate v;
    Ok (valueExpressionType v).

Definition variable_type (s : compilerState) (t : ExpressionType) (name : string) : outcome rules_err (ExpressionType * ExpressionType) :=
  if str_contains "." name then Err (forbiddenCallError name)
  else match cs_env s !! name with
       | None => Err ErrExpressionVariable
       | Some input =>
           _ ← fail_if (negb (type_is t ExpressionTypeUnspecified) && negb (type_is t (in_Type input))) ErrExpressionType;
           Ok (in_Type input, in_ElementType input)
       end.

Definition unary_type (o : UnaryOp) (childType : ExpressionType) : outcome rules_err ExpressionType :=
  match o with
  | UnaryOpNot =>
      _ ← fail_if (negb (type_is childType ExpressionTypeBool) && negb (type_is childType ExpressionTypeUnknown)) ErrExpressionType;
      Ok ExpressionTypeBool
  | UnaryOpNegate =>
      _ ← fail_if (negb (isNumber childType) && negb (type_is childType ExpressionTypeUnknown)) ErrExpressionType;
      Ok childType
  | _ => Err ErrExpressionInvalid
  end.

(** The last checks of [lower]; the node is appended. *)
Definition finish (t : ExpressionType) (s : compilerState) (r : lowered)
    : compilerState * outcome rules_err (Z * ExpressionType) :=
  match r with
  | Ok (n, typ) =>
      if negb (type_is t ExpressionTypeUnspecified) && negb (type_is t typ) && negb (type_is typ ExpressionTypeUnknown)
      then (s, Err ErrExpressionType)
      else
        let n' := mkIRNode (n_Opcode n) typ (n_ElementType n) (n_Name n) (n_Function n) (n_FunctionVersion n)
                    (n_FunctionCost n) (n_Value n) (n_Unary n) (n_Binary n) (n_Iteration n) (n_IterationBound n) (n_Children n) in
        (add_node n' s, Ok (Z.of_nat (length (cs_nodes s)), typ))
  | Err e => (s, Err e)
  | Panic => (s, Panic)
  end.

(** The loop over the arguments of a call: all are lowered, the first error is kept. *)
Definition lower_args (low : Expr -> compilerState -> compilerState * outcome rules_err (Z * ExpressionType))
    : list Expr -> compilerState -> compilerState * outcome rules_err (list Z) :=
  fix loop children s :=
    match children with
    | [] => (s, Ok [])
    | child :: rest =>
        let '(s1, r1) := low child s in
        let '(s2, r2) := loop rest s1 in
        (s2, '(i, _) ← r1; is_ ← r2; Ok (i :: is_))
    end.

Fixpoint lower (e : Expr) (depth : Z) (s0 : compilerState) {struct e} : compilerState * outcome rules_err (Z * ExpressionType) :=
  match e with
  | mkExpr kind typ0 name fn value un bin iter bound children =>
      let node op elem function version cost kids :=
        mkIRNode op typ0 elem name function version cost value un bin iter bound kids in
      let plain op kids := node op ExpressionTypeUnspecified fn "" 0 kids in
      if MaxDepth (cs_limit s0) <? depth then (s0, Err ErrExpressionUnbounded)
      else
        let s1 := with_cost (fun c => mkCost (c_Nodes c) (Z.max (c_Depth c) depth) (c_Iterations c) (c_Total c)) s0 in
        if MaxNodes (cs_limit s1) <=? c_Nodes (cs_cost s1) then (s1, Err ErrExpressionUnbounded)
        else
          let s := with_cost (fun c => mkCost (c_Nodes c + 1) (c_Depth c) (c_Iterations c) (c_Total c)) s1 in
          match kind with
          | ExprKindUnspecified => (s, Err ErrExpressionInvalid)
          | ExprKindLiteral =>
              finish typ0 s (typ ← literal_type typ0 value; Ok (plain OpcodeLiteral [], typ))
          | ExprKindVariable =>
              finish typ0 s ('(typ, elem) ← variable_type s typ0 name; Ok (node OpcodeVariable elem fn "" 0 [], typ))
          | ExprKindUnknown => finish typ0 s (Ok (plain OpcodeUnknown [], ExpressionTypeUnknown))
          | ExprKindUnary =>
              match children with
              | [c] =>
                  let '(s1, r) := lower c (depth + 1) s in
                  finish typ0 s1 ('(child, childType) ← r; typ ← unary_type un childType; Ok (plain OpcodeUnary [child], typ))
              | _ => (s, Err ErrExpressionInvalid)
              end
          | ExprKindBinary =>
              match children with
              | [l; r] =>
                  let '(s1, rl) := lower l (depth + 1) s in
                  let '(s2, rr) := lower r (depth + 1) s1 in
                  finish typ0 s2 ('(li, lt) ← rl; '(ri, rt) ← rr; typ ← binaryType bin lt rt;
                                  Ok (plain OpcodeBinary [li; ri], typ))
              | _ => (s, Err ErrExpressionInvalid)
              end
          | ExprKindCall =>
              let '(s1, r) := lower_args (fun c => lower c (depth + 1)) children s in
              match (is_ ← r; '(entry, typ) ← callType (cs_library s1) (cs_dependencies s1) fn is_ (cs_nodes s1); Ok (is_, entry, typ)) with
              | Ok (is_, entry, typ) =>
                  finish typ0 (add_function_cost (fe_Cost entry) s1)
                    (Ok (node OpcodeCall ExpressionTypeUnspecified (fe_Name entry) (fe_Version entry) (fe_Cost entry) is_, typ))
              | Err err => (s1, Err err)
              | Panic => (s1, Panic)
              end
          | ExprKindIterate =>
              let err0 := if IterationOp_declared iter then None else Some ErrExpressionInvalid in
              let err1 := if (bound <=? 0) || (MaxIterations (cs_limit s) <? bound) then Some ErrExpressionIteration else err0 in
              match children with
              | [coll; pred] =>
                  let '(s1, rc) := lower coll (depth + 1) s in
                  let previousItem := cs_env s1 !! "$item" in
                  let s2 :=
                    match rc with
                    | Ok (c, ct) =>
                        if type_is ct ExpressionTypeList then
                          match node_at (cs_nodes s1) c with
                          | Ok n => with_env (<["$item" := mkInput "$item" (n_ElementType n) ExpressionTypeUnspecified]>) s1
                          | _ => s1
                          end
                        else s1
                    | _ => s1
                    end in
                  let '(s3, rp) := lower pred (depth + 1) s2 in
                  let s4 := with_env (fun env => match previousItem with
                                                 | Some i => <["$item" := i]> env
                                                 | None => delete "$item" env
                                                 end) s3 in
                  let r :=
                    '(collection, ct) ← rc;
                    '(predicate, pt) ← rp;
                    _ ← fail_if (negb (type_is ct ExpressionTypeList)) ErrExpressionType;
                    n ← node_at (cs_nodes s4) collection;
                    _ ← fail_if (type_is (n_ElementType n) ExpressionTypeUnspecified) ErrExpressionType;
                    _ ← fail_if (negb (type_is pt ExpressionTypeBool) && negb (type_is pt ExpressionTypeUnknown)) ErrExpressionType;
                    _ ← match err1 with Some e => Err e | None => Ok tt end;
                    Ok (plain OpcodeIterate [collection; predicate], ExpressionTypeBool) in
                  if MaxIterations (cs_limit s4) - c_Iterations (cs_cost s4) <? bound then (s4, Err ErrExpressionUnbounded)
                  else
                    finish typ0 (with_cost (fun c => mkCost (c_Nodes c) (c_Depth c) (c_Iterations c + bound) (c_Total c)) s4) r
              | _ => (s, Err ErrExpressionInvalid)
              end
          | ExprKindUndeclared _ => (s, Err ErrExpressionInvalid)
          end
  end.

(** * Compilation *)

Definition dependenciesDigest (deps : list Dependency) : outcome rules_err string :=
  digest_of "hcmnext.engines.rules.ExpressionDependencies" ExpressionVersion
    (WCount "dependencies" (Z.of_nat (length deps)) ::
     mjoin ((fun d => [WString "name" (dep_Name d); WString "version" (dep_Version d); WString "digest" (dep_Digest d)]) <$> deps)).

Definition input_ops (i : Input) : list op :=
  [ WString "input.name" (in_Name i); WString "input.type" (ExpressionType_String (in_Type i));
    WString "input.element_type" (ExpressionType_String (in_ElementType i)) ].
Definition dependency_ops (d : Dependency) : list op :=
  [ WString "dependency.name" (dep_Name d); WString "dependency.version" (dep_Version d); WString "dependency.digest" (dep_Digest d) ].
Definition node_ops (n : IRNode) : list op :=
  [ WInt "opcode" (Opcode_int (n_Opcode n)); WString "type" (ExpressionType_String (n_Type n));
    WString "element_type" (ExpressionType_String (n_ElementType n)); WString "name" (n_Name n);
    WString "function" (n_Function n); WString "function_version" (n_FunctionVersion n);
    WInt "function_cost" (n_FunctionCost n); WString "unary" (UnaryOp_String (n_Unary n));
    WString "binary" (BinaryOp_String (n_Binary n)); WString "iteration" (IterationOp_String (n_Iteration n));
    WInt "bound" (n_IterationBound n) ] ++
  (match n_Opcode n with OpcodeLiteral => [WValue "value" (Value_Canonical (n_Value n))] | _ => [] end) ++
  WCount "children" (Z.of_nat (length (n_Children n))) ::
  ((fun c => WInt "child" c) <$> n_Children n).
Definition cost_ops (c : Cost) (l : CostLimit) : list op :=
  [ WInt "cost.nodes" (c_Nodes c); WInt "cost.depth" (c_Depth c); WInt "cost.iterations" (c_Iterations c); WInt "cost.total" (c_Total c);
    WInt "limits.nodes" (MaxNodes l); WInt "limits.depth" (MaxDepth l); WInt "limits.iterations" (MaxIterations l); WInt "limits.cost" (MaxCost l) ].

Definition compiledDigest (version : string) (semantics : UnknownSemantics) (inputs : list Input) (deps : list Dependency)
    (depDigest libraryVersion libraryDigest : string) (ir : IR) (cost : Cost) (limits : CostLimit) : outcome rules_err string :=
  map_err (fun _ => ErrExpressionInvalid)
    (digest_of "hcmnext.engines.rules.CompiledExpression" ExpressionVersion
      ([ WString "version" version; WString "unknown_semantics" (UnknownSemantics_String semantics);
         WString "dependency_digest" depDigest; WString "function_library_version" libraryVersion;
         WString "function_library_digest" libraryDigest; WCount "inputs" (Z.of_nat (length inputs)) ] ++
       mjoin (input_ops <$> inputs) ++
       WCount "dependencies" (Z.of_nat (length deps)) :: mjoin (dependency_ops <$> deps) ++
       WInt "root" (ir_Root ir) :: WCount "nodes" (Z.of_nat (length (ir_Nodes ir))) :: mjoin (node_ops <$> ir_Nodes ir) ++
       cost_ops cost limits)).

Definition input_invalid (i : Input) : bool :=
  String.eqb (in_Name i) "" || (256 <? len (in_Name i)) || negb (ExpressionType_Valid (in_Type i))
  || (type_is (in_Type i) ExpressionTypeList && negb (ExpressionType_Valid (in_ElementType i)))
  || (negb (type_is (in_Type i) ExpressionTypeList) && negb (type_is (in_ElementType i) ExpressionTypeUnspecified)).

Definition dependency_invalid (d : Dependency) : bool :=
  String.eqb (dep_Name d) "" || String.eqb (dep_Version d) "" || String.eqb (dep_Digest d) ""
  || (256 <? len (dep_Name d)) || (128 <? len (dep_Version d)) || (256 <? len (dep_Digest d)).

(** The declared inputs as a map: an invalid or repeated declaration is an error. *)
Fixpoint declare_inputs (env : gmap string Input) (inputs : list Input) : outcome rules_err (gmap string Input) :=
  match inputs with
  | [] => Ok env
  | i :: r =>
      _ ← fail_if (input_invalid i) ErrExpressionInvalid;
      _ ← fail_if (match env !! in_Name i with Some _ => true | None => false end) ErrExpressionInvalid;
      declare_inputs (<[in_Name i := i]> env) r
  end.

Definition limits_positive (l : CostLimit) : bool :=
  (0 <? MaxNodes l) && (0 <? MaxDepth l) && (0 <? MaxIterations l) && (0 <? MaxCost l).

(** [limits] is the variadic argument. *)
Definition CompileExpressionWithLibrary (expr : Expression) (library : ExpressionFunctionLibrary) (limits : list CostLimit)
    : outcome rules_err CompiledExpression :=
  _ ← validateLibrary library;
  limit ← match limits with
          | [] => Ok DefaultCostLimit
          | [l] => Ok l
          | _ => Err ErrExpressionInvalid
          end;
  _ ← fail_if (negb (limits_positive limit)) ErrExpressionUnbounded;
  _ ← fail_if (String.eqb (x_Version expr) "") ErrExpressionInvalid;
  _ ← fail_if (negb (UnknownSemantics_Valid (x_UnknownSemantics expr))) ErrExpressionUnknown;
  _ ← fail_if (MaxCost limit <? Z.of_nat (length (x_Inputs expr)) + Z.of_nat (length (x_Dependencies expr))) ErrExpressionUnbounded;
  env ← declare_inputs ∅ (x_Inputs expr);
  let deps := sort_dependencies (x_Dependencies expr) in
  _ ← fail_if (existsb dependency_invalid deps) ErrExpressionDependency;
  depDigest ← dependenciesDigest deps;
  let '(state, r) := lower (x_Root expr) 1 (mkState env limit library deps [] (mkCost 0 0 0 0) 0) in
  '(root, typ) ← r;
  _ ← fail_if ((root <? 0) || negb (ExpressionType_Valid typ)) ErrExpressionType;
  let total := c_Nodes (cs_cost state) + c_Iterations (cs_cost state) + cs_functionCost state
               + Z.of_nat (length (x_Inputs expr)) + Z.of_nat (length deps) in
  let cost := mkCost (c_Nodes (cs_cost state)) (c_Depth (cs_cost state)) (c_Iterations (cs_cost state)) total in
  _ ← fail_if (MaxCost limit <? total) ErrExpressionUnbounded;
  let inputs := sort_inputs (x_Inputs expr) in
  let ir := mkIR (cs_nodes state) root in
  digest ← compiledDigest (x_Version expr) (x_UnknownSemantics expr) inputs deps depDigest (lib_version library)
             (lib_digest library) ir cost limit;
  Ok (mkCompiled ir inputs deps (x_Version expr) (lib_version library) (lib_digest library) (x_UnknownSemantics expr)
        depDigest digest cost limit).

Definition CompileExpression (expr : Expression) (limits : list CostLimit) : outcome rules_err CompiledExpression :=
  CompileExpressionWithLibrary expr DefaultExpressionFunctionLibrary limits.

(** * Validation of a compiled artifact *)

Definition nodes_depth (depths : list Z) (i : Z) (children : list Z) : outcome rules_err Z :=
  (fix loop depth cs :=
     match cs with
     | [] => Ok depth
     | child :: r =>
         _ ← fail_if ((child <? 0) || (i <=? child)) ErrExpressionInvalid;
         match depths !! Z.to_nat child with
         | Some d => loop (if depth <? d + 1 then d + 1 else depth) r
         | None => Panic
         end
     end) 1 children.

(** The loop over the nodes: depths, iteration and function costs so far. *)
Fixpoint validate_nodes (library : ExpressionFunctionLibrary) (deps : list Dependency) (limits : CostLimit) (all : list IRNode)
    (nodes : list IRNode) (i : Z) (depths : list Z) (iterationCost functionCost : Z)
    : outcome rules_err (list Z * Z * Z) :=
  match nodes with
  | [] => Ok (depths, iterationCost, functionCost)
  | node :: rest =>
      depth ← nodes_depth depths i (n_Children node);
      _ ← fail_if (MaxDepth limits <? depth) ErrExpressionUnbounded;
      '(ic, fc) ←
        match n_Opcode node with
        | OpcodeCall =>
            '(entry, result) ← callType library deps (n_Function node) (n_Children node) all;
            _ ← fail_if (negb (String.eqb (n_Function node) (fe_Name entry)) || negb (String.eqb (n_FunctionVersion node) (fe_Version entry))
                         || negb (n_FunctionCost node =? fe_Cost entry)) ErrExpressionFunction;
            _ ← fail_if (negb (type_is (n_Type node) result) && negb (type_is result ExpressionTypeUnknown)) ErrExpressionInvalid;
            Ok (iterationCost, functionCost + fe_Cost entry)
        | OpcodeIterate =>
            _ ← fail_if (negb (length (n_Children node) =? 2)%nat || (n_IterationBound node <=? 0)
                         || (MaxIterations limits <? n_IterationBound node)) ErrExpressionUnbounded;
            _ ← fail_if (negb (IterationOp_declared (n_Iteration node))) ErrExpressionInvalid;
            _ ← fail_if (existsb (fun c => i <=? c) (n_Children node)) ErrExpressionInvalid;
            _ ← fail_if (MaxIterations limits - iterationCost <? n_IterationBound node) ErrExpressionUnbounded;
            Ok (iterationCost + n_IterationBound node, functionCost)
        | OpcodeLiteral | OpcodeVariable | OpcodeUnary | OpcodeBinary | OpcodeUnknown => Ok (iterationCost, functionCost)
        | OpcodeUndeclared _ => Err ErrExpressionInvalid
        end;
      _ ← fail_if (negb (ExpressionType_Valid (n_Type node))) ErrExpressionInvalid;
      validate_nodes library deps limits all rest (i + 1) (depths ++ [depth]) ic fc
  end.

Definition validateCompiledArtifact (c : CompiledExpression) (library : ExpressionFunctionLibrary) : outcome rules_err unit :=
  let ir := ce_IR c in
  let limits := ce_Limits c in
  let n := Z.of_nat (length (ir_Nodes ir)) in
  _ ← fail_if (String.eqb (ce_Digest c) "" || (ir_Root ir <? 0) || (n <=? ir_Root ir)
               || negb (UnknownSemantics_Valid (ce_UnknownSemantics c)) || String.eqb (ce_Version c) "") ErrExpressionInvalid;
  _ ← fail_if (negb (String.eqb (ce_FunctionLibraryVersion c) (lib_version library))
               || negb (String.eqb (ce_FunctionLibraryDigest c) (lib_digest library))) ErrExpressionFunction;
  _ ← fail_if (negb (limits_positive limits)
               || (MaxCost limits <? Z.of_nat (length (ce_Inputs c)) + Z.of_nat (length (ce_Dependencies c)))) ErrExpressionUnbounded;
  let inputs := sort_inputs (ce_Inputs c) in
  _ ← declare_inputs ∅ inputs;
  let deps := sort_dependencies (ce_Dependencies c) in
  _ ← fail_if (existsb dependency_invalid deps) ErrExpressionInvalid;
  depDigest ← dependenciesDigest deps;
  _ ← fail_if (negb (String.eqb depDigest (ce_DependencyDigest c))) ErrExpressionInvalid;
  _ ← fail_if (MaxNodes limits <? n) ErrExpressionUnbounded;
  '(depths, iterationCost, functionCost) ← validate_nodes library deps limits (ir_Nodes ir) (ir_Nodes ir) 0 [] 0 0;
  match depths !! Z.to_nat (ir_Root ir) with
  | None => Panic
  | Some depth =>
      let total := n + iterationCost + functionCost + Z.of_nat (length inputs) + Z.of_nat (length deps) in
      _ ← fail_if (negb (bool_decide (ce_Cost c = mkCost n depth iterationCost total))) ErrExpressionInvalid;
      _ ← fail_if (MaxCost limits <? total) ErrExpressionUnbounded;
      digest ← compiledDigest (ce_Version c) (ce_UnknownSemantics c) inputs deps depDigest (ce_FunctionLibraryVersion c)
                 (ce_FunctionLibraryDigest c) ir (ce_Cost c) limits;
      fail_if (negb (String.eqb digest (ce_Digest c))) ErrExpressionInvalid
  end.
End compiler.
