(* ===== verification/ExpressionEval.v ===== *)
(** The evaluator of compiled expressions:
    [internal/engines/rules/expression_eval.go] and the calendar digest of
    [expression_library.go].

    [evaluateNode] walks the IR by index, with its cache, its trace and its
    running cost as state.  Its fuel is the recursion depth: children of a
    validated IR point backwards, so one more than the index is enough, and
    running out stands for the stack overflow of a cyclic IR ([Panic]). *)

From S2P Require Import Prelude GoStrings Sorting CanonicalBytes FixedDecimal CivilTime RuleValues Expression.

Local Open Scope Z_scope.

(** * Runtime values *)

Inductive EvalState : Type := EvalStateUnspecified | EvalStatePresent | EvalStateUnknown.

(** [runtimeValue{state: Present, value: v}] and [runtimeValue{state: Unknown}]. *)
Inductive runtimeValue : Type := Present (v : Value) | NotKnown.

#[export] Instance EvalState_eq_dec : EqDecision EvalState.
Proof. solve_decision. Defined.

Definition rv_state (r : runtimeValue) : EvalState := match r with Present _ => EvalStatePresent | NotKnown => EvalStateUnknown end.

Record EvaluationStep : Type := mkStep {
  st_Index : Z; st_Opcode : Opcode; st_Type : ExpressionType; st_State : EvalState }.

Record ExpressionResult : Type := mkExpressionResult {
  er_State : EvalState;
  er_Type : ExpressionType;
  er_Value : Value;
  er_Digest : string;
  er_Steps : list EvaluationStep
}.

Definition runtimeValueMatches (typ : ExpressionType) (v : Value) : bool :=
  match typ with
  | ExpressionTypeBool => bool_decide (Value_Kind v = KindBool)
  | ExpressionTypeInt => bool_decide (Value_Kind v = KindInt)
  | ExpressionTypeDecimal => bool_decide (Value_Kind v = KindDecimal)
  | ExpressionTypeString => bool_decide (Value_Kind v = KindString)
  | ExpressionTypeDate => bool_decide (Value_Kind v = KindString) && is_ok (ParseLocalDate (Value_String v))
  | ExpressionTypeList => bool_decide (Value_Kind v = KindList)
  | _ => false
  end.

Definition negateRuntime (v : Value) : outcome rules_err runtimeValue :=
  match v with
  | IntValue i => Ok (Present (IntValue (to_int64 (- i))))
  | DecimalValue d => nd ← map_err ErrValues (Decimal_Neg d); Ok (Present (DecimalValue nd))
  | _ => Err ErrExpressionType
  end.

Fixpoint adjacent_equal (l : list string) : bool :=
  match l with
  | a :: (b :: _) as r => String.eqb a b || adjacent_equal r
  | _ => false
  end.

Section evaluator.
Context {SHA : Sha256} {CM : CaseMapping} {DB : DecimalBackend}.

(** * Operators *)

Definition compareRuntime (left right : Value) : outcome rules_err Z :=
  if decide (Value_Kind left <> Value_Kind right) then Err ErrExpressionType
  else if decide (Value_Kind left = KindString) then
    if String.ltb (Value_String left) (Value_String right) then Ok (-1)
    else if String.ltb (Value_String right) (Value_String left) then Ok 1
    else Ok 0
  else Value_Cmp left right.

Definition decimal_result (r : outcome values_err Decimal) : outcome rules_err runtimeValue :=
  d ← map_err (fun _ => ErrExpressionEvaluation) r; Ok (Present (DecimalValue d)).

Definition arithmeticRuntime (o : BinaryOp) (l r : Value) : outcome rules_err runtimeValue :=
  match l, r with
  | StringValue s, StringValue t =>
      match o with BinaryOpAdd => Ok (Present (StringValue (s +:+ t))) | _ => Err ErrExpressionType end
  | IntValue li, IntValue ri =>
      match o with
      | BinaryOpAdd => Ok (Present (IntValue (to_int64 (li + ri))))
      | BinaryOpSubtract => Ok (Present (IntValue (to_int64 (li - ri))))
      | BinaryOpMultiply => Ok (Present (IntValue (to_int64 (li * ri))))
      | BinaryOpDivide =>
          if ri =? 0 then Err ErrExpressionEvaluation else Ok (Present (IntValue (to_int64 (Z.quot li ri))))
      | _ => Err ErrExpressionType
      end
  | DecimalValue ld, DecimalValue rd =>
      let scale := if d_scale ld <? d_scale rd then d_scale rd else d_scale ld in
      match o with
      | BinaryOpAdd =>
          _ ← fail_if (negb (d_scale ld =? d_scale rd)) ErrExpressionType; decimal_result (Decimal_Add ld rd)
      | BinaryOpSubtract =>
          _ ← fail_if (negb (d_scale ld =? d_scale rd)) ErrExpressionType; decimal_result (Decimal_Sub ld rd)
      | BinaryOpMultiply => decimal_result (Decimal_Mul ld rd scale RoundingHalfEven)
      | BinaryOpDivide => decimal_result (Decimal_Div ld rd scale RoundingHalfEven)
      | _ => Ok (Present (DecimalValue Decimal_zero_value))
      end
  | _, _ => Err ErrExpressionType
  end.

Definition evaluateLogic (o : BinaryOp) (left right : runtimeValue) : outcome rules_err runtimeValue :=
  match left, right with
  | Present l, Present r =>
      let '(lb, lok) := Value_Bool l in
      let '(rb, rok) := Value_Bool r in
      if negb lok || negb rok then Err ErrExpressionType
      else match o with
           | BinaryOpAnd => Ok (Present (BoolValue (lb && rb)))
           | _ => Ok (Present (BoolValue (lb || rb)))
           end
  | _, Present r =>
      let '(rb, ok) := Value_Bool r in
      match o with
      | BinaryOpAnd => if ok && negb rb then Ok (Present (BoolValue false)) else Ok NotKnown
      | BinaryOpOr => if ok && rb then Ok (Present (BoolValue true)) else Ok NotKnown
      | _ => Ok NotKnown
      end
  | _, _ => Ok NotKnown
  end.

Definition comparison_match (o : BinaryOp) (cmp : Z) : bool :=
  match o with
  | BinaryOpEqual => cmp =? 0
  | BinaryOpNotEqual => negb (cmp =? 0)
  | BinaryOpLess => cmp <? 0
  | BinaryOpLessOrEqual => cmp <=? 0
  | BinaryOpGreater => 0 <? cmp
  | BinaryOpGreaterOrEqual => 0 <=? cmp
  | _ => false
  end.

Definition evaluateBinary (o : BinaryOp) (left right : runtimeValue) : outcome rules_err runtimeValue :=
  match o with
  | BinaryOpAnd | BinaryOpOr => evaluateLogic o left right
  | _ =>
      match left, right with
      | Present l, Present r =>
          if comparison o then cmp ← compareRuntime l r; Ok (Present (BoolValue (comparison_match o cmp)))
          else match o with
               | BinaryOpAdd | BinaryOpSubtract | BinaryOpMultiply | BinaryOpDivide => arithmeticRuntime o l r
               | _ => Err ErrExpressionEvaluation
               end
      | _, _ => Ok NotKnown
      end
  end.

(** The left operand alone decides [&&] on false and [||] on true. *)
Definition short_circuit (o : BinaryOp) (left : runtimeValue) : option runtimeValue :=
  match o, left with
  | BinaryOpAnd, Present l => if negb (Value_Bool l).1 then Some (Present (BoolValue false)) else None
  | BinaryOpOr, Present l => if (Value_Bool l).1 then Some (Present (BoolValue true)) else None
  | _, _ => None
  end.

Definition evaluateUnary (o : UnaryOp) (child : runtimeValue) : outcome rules_err runtimeValue :=
  match child with
  | NotKnown => Ok NotKnown
  | Present v =>
      match o with
      | UnaryOpNot =>
          let '(b, ok) := Value_Bool v in
          if ok : bool then Ok (Present (BoolValue (negb b))) else Err ErrExpressionType
      | UnaryOpNegate => negateRuntime v
      | _ => Err ErrExpressionEvaluation
      end
  end.

(** * Calls *)

(** [add] of [functionDynamicCost]: saturating at the largest [int]. *)
Definition sat_add (a b : Z) : Z := if max_int64 - a <? b then max_int64 else a + b.

Definition list_contains_cost (perElement : Z) (search : Value) (items : list Value) : Z :=
  fold_left (fun cost item =>
    let c1 := if decide (Value_Kind item = KindString) then sat_add perElement (len (Value_String item)) else perElement in
    let c2 := if decide (Value_Kind search = KindString) then sat_add c1 (len (Value_String search)) else c1 in
    sat_add cost c2) items 0.

(** [for n := len(list); n > 1; n >>= 1 { levels++ }]. *)
Definition halvings (n : nat) : Z := Z.log2 (Z.of_nat n).

(** The arguments are present; an argument that is missing panics. *)
Definition functionDynamicCost (entry : FunctionEntry) (args : list Value) : outcome rules_err Z :=
  let per := fe_PerElementCost entry in
  let op := fe_operation entry in
  if per =? 0 then Ok 0
  else if String.eqb op "lower" || String.eqb op "upper" then
    match args with a :: _ => Ok (len (Value_String a) * per) | [] => Panic end
  else if String.eqb op "contains" || String.eqb op "starts_with" || String.eqb op "ends_with" then
    match args with a :: b :: _ => Ok (sat_add (len (Value_String a)) (len (Value_String b))) | _ => Panic end
  else if String.eqb op "list_contains" then
    match args with
    | a :: rest =>
        match v_list a, rest with
        | [], _ => Ok 0
        | items, b :: _ => Ok (list_contains_cost per b items)
        | _, [] => Panic
        end
    | [] => Panic
    end
  else if String.eqb op "business_day_diff" then
    match args with
    | _ :: _ :: _ :: _ :: _ :: a5 :: _ =>
        let count := Z.of_nat (length (v_list a5)) in
        let levels := halvings (length (v_list a5)) in
        if max_int64 / per <? count then Ok max_int64
        else if negb (levels =? 0) && (max_int64 / levels <? count) then Ok max_int64
        else Ok (count * levels)
    | _ => Panic
    end
  else Ok 0.

(** [BusinessCalendarSnapshotDigest]. *)
Definition BusinessCalendarSnapshotDigest (ref version : string) (workingDates : list string) : outcome rules_err string :=
  _ ← fail_if (String.eqb ref "" || String.eqb version "" || (256 <? len ref) || (128 <? len version)
               || negb (is_trimmed ref) || negb (is_trimmed version)) ErrExpressionDependency;
  _ ← fail_if (MaxPinnedCalendarDates <? Z.of_nat (length workingDates)) ErrExpressionUnbounded;
  _ ← fail_if (existsb (fun date => match ParseLocalDate date with
                                    | Ok d => negb (String.eqb (LocalDate_String d) date)
                                    | _ => true
                                    end) workingDates) ErrExpressionValue;
  let dates := sort_Strings workingDates in
  _ ← fail_if (adjacent_equal dates) ErrExpressionValue;
  digest_of "hcmnext.engines.rules.BusinessCalendarSnapshot" 1
    (WString "ref" ref :: WString "version" version :: WCount "working_dates" (Z.of_nat (length dates)) ::
     ((fun date => WString "working_date" date) <$> dates)).

Fixpoint contains_value (search : Value) (items : list Value) : outcome rules_err bool :=
  match items with
  | [] => Ok false
  | item :: r => found ← Value_Equal item search; if (found : bool) then Ok true else contains_value search r
  end.

Definition parse_date (v : Value) : outcome rules_err LocalDate :=
  map_err (fun _ => ErrExpressionValue) (ParseLocalDate (Value_String v)).

Fixpoint parse_dates (vs : list string) : outcome rules_err (list LocalDate) :=
  match vs with
  | [] => Ok []
  | v :: r => d ← map_err (fun _ => ErrExpressionValue) (ParseLocalDate v); ds ← parse_dates r; Ok (d :: ds)
  end.

(** The signed count of working dates in the half-open span after the earlier bound. *)
Definition count_dates (start end_ : LocalDate) (ds : list LocalDate) : Z :=
  fold_left (fun count d =>
    let c1 := if (LocalDate_Compare start end_ <? 0) && (0 <? LocalDate_Compare d start) && (LocalDate_Compare d end_ <=? 0)
              then count + 1 else count in
    if (0 <? LocalDate_Compare start end_) && (0 <? LocalDate_Compare d end_) && (LocalDate_Compare d start <=? 0)
    then c1 - 1 else c1) ds 0.

Definition call_text (lower : string) (args : list Value) : outcome rules_err runtimeValue :=
  match args with
  | [StringValue text] =>
      Ok (Present (StringValue (if String.eqb lower "lower" then strings_ToLower text else strings_ToUpper text)))
  | _ => Err ErrExpressionType
  end.

Definition call_match (lower : string) (args : list Value) : outcome rules_err runtimeValue :=
  match args with
  | [StringValue a; StringValue b] =>
      Ok (Present (BoolValue
        (if String.eqb lower "contains" then has_sub b a
         else if String.eqb lower "starts_with" then has_prefix b a
         else has_suffix b a)))
  | _ => Err ErrExpressionType
  end.

Definition call_len (args : list Value) : outcome rules_err runtimeValue :=
  match args with
  | [ListValue l] => Ok (Present (IntValue (Z.of_nat (length l))))
  | [StringValue s] => Ok (Present (IntValue (len s)))
  | _ => Err ErrExpressionType
  end.

Definition call_list_contains (maxList : Z) (args : list Value) : outcome rules_err runtimeValue :=
  match args with
  | [ListValue l; search] =>
      _ ← fail_if (maxList <? Z.of_nat (length l)) ErrExpressionUnbounded;
      found ← contains_value search l;
      Ok (Present (BoolValue found))
  | _ => Err ErrExpressionType
  end.

Definition call_interval_overlaps (args : list Value) : outcome rules_err runtimeValue :=
  match args with
  | [a0; a1; a2; a3] =>
      d0 ← parse_date a0; d1 ← parse_date a1; d2 ← parse_date a2; d3 ← parse_date a3;
      _ ← fail_if ((0 <=? LocalDate_Compare d0 d1) || (0 <=? LocalDate_Compare d2 d3)) ErrExpressionValue;
      Ok (Present (BoolValue ((LocalDate_Compare d0 d3 <? 0) && (LocalDate_Compare d2 d1 <? 0))))
  | _ => Err ErrExpressionType
  end.

Definition call_business_day_diff (maxList : Z) (deps : list Dependency) (args : list Value) : outcome rules_err runtimeValue :=
  match args with
  | [a0; a1; a2; a3; a4; ListValue days] =>
      start ← parse_date a0;
      end_ ← parse_date a1;
      let ref := Value_String a2 in
      let version := Value_String a3 in
      let digest := Value_String a4 in
      _ ← fail_if (negb (pinned_calendar deps ref version digest)) ErrExpressionDependency;
      _ ← fail_if (maxList <? Z.of_nat (length days)) ErrExpressionUnbounded;
      let dateStrings := Value_String <$> days in
      actual ← BusinessCalendarSnapshotDigest ref version dateStrings;
      _ ← fail_if (negb (String.eqb actual digest)) ErrExpressionDependency;
      ds ← parse_dates dateStrings;
      Ok (Present (IntValue (count_dates start end_ ds)))
  | _ => Err ErrExpressionType
  end.

Definition call_abs (args : list Value) : outcome rules_err runtimeValue :=
  match args with
  | [IntValue i] => Ok (Present (IntValue (if i <? 0 then to_int64 (- i) else i)))
  | [a] =>
      d ← Value_Decimal a;
      out ← map_err ErrValues (Decimal_Abs d);
      Ok (Present (DecimalValue out))
  | _ => Err ErrExpressionType
  end.

Fixpoint present_all (args : list runtimeValue) : option (list Value) :=
  match args with
  | [] => Some []
  | Present v :: r => vs ← present_all r; Some (v :: vs)
  | NotKnown :: _ => None
  end.

(** The function applied to present arguments, after its cost is charged. *)
Definition call_function (name : string) (maxList : Z) (deps : list Dependency) (args : list Value) : outcome rules_err runtimeValue :=
  let lower := strings_ToLower name in
  if String.eqb lower "lower" || String.eqb lower "upper" then call_text lower args
  else if String.eqb lower "contains" || String.eqb lower "starts_with" || String.eqb lower "ends_with" then call_match lower args
  else if String.eqb lower "len" then call_len args
  else if String.eqb lower "list_contains" then call_list_contains maxList args
  else if String.eqb lower "interval_overlaps" then call_interval_overlaps args
  else if String.eqb lower "business_day_diff" then call_business_day_diff maxList deps args
  else if String.eqb lower "abs" then call_abs args
  else Err ErrExpressionFunction.

(** [evaluateCall]: the result and the running cost it leaves. *)
Definition evaluateCall (name : string) (args : list runtimeValue) (cost maxCost maxList : Z) (deps : list Dependency)
    : outcome rules_err (runtimeValue * Z) :=
  match present_all args with
  | None => Ok (NotKnown, cost)
  | Some vs =>
      match library_entry DefaultExpressionFunctionLibrary (strings_ToLower name) with
      | None => Err ErrExpressionFunction
      | Some entry =>
          dynamicCost ← functionDynamicCost entry vs;
          _ ← fail_if (maxCost - cost <? dynamicCost) ErrExpressionUnbounded;
          r ← call_function name maxList deps vs;
          Ok (r, cost + dynamicCost)
      end
  end.

(** * Nodes *)

Record estate : Type := mkEstate {
  es_cache : gmap Z runtimeValue;
  es_steps : list EvaluationStep;
  es_cost : Z
}.

(** What [evaluateNode] is passed unchanged. *)
Record program : Type := mkProgram {
  pg_IR : IR;
  pg_maxCost : Z;
  pg_maxList : Z;
  pg_dependencies : list Dependency
}.

Definition child_at (n : IRNode) (k : nat) : outcome rules_err Z :=
  match n_Children n !! k with Some i => Ok i | None => Panic end.

(** [cache[index] = result; *steps = append(...)]. *)
Definition record_step (index : Z) (n : IRNode) (r : runtimeValue) (st : estate) : runtimeValue * estate :=
  (r, mkEstate (<[index := r]> (es_cache st))
        (es_steps st ++ [mkStep index (n_Opcode n) (n_Type n) (rv_state r)]) (es_cost st)).

Definition eval_variable (inputs : gmap string Value) (inputTypes : gmap string Input) (name : string)
    : outcome rules_err runtimeValue :=
  match inputTypes !! name with
  | None => Err ErrExpressionVariable
  | Some input =>
      match inputs !! name with
      | None => Ok NotKnown
      | Some v =>
          _ ← map_err (fun _ => ErrExpressionEvaluation) (Value_Validate v);
          _ ← fail_if (negb (runtimeValueMatches (in_Type input) v)) ErrExpressionType;
          Ok (Present v)
      end
  end.

(** The loop over the arguments of a call. *)
Definition eval_args (ev : Z -> estate -> outcome rules_err (runtimeValue * estate))
    : list Z -> estate -> outcome rules_err (list runtimeValue * estate) :=
  fix loop children st :=
    match children with
    | [] => Ok ([], st)
    | c :: rest =>
        '(r, st1) ← ev c st;
        '(rs, st2) ← loop rest st1;
        Ok (r :: rs, st2)
    end.

(** The loop over the items of an iteration: [ev] evaluates the predicate on
    one item with a fresh cache. *)
Definition eval_items (ev : Value -> estate -> outcome rules_err (runtimeValue * estate)) (o : IterationOp)
    : list Value -> runtimeValue -> estate -> outcome rules_err (runtimeValue * estate) :=
  fix loop items result st :=
    match items with
    | [] => Ok (result, st)
    | item :: rest =>
        '(predicate, st1) ← ev item (mkEstate ∅ (es_steps st) (es_cost st));
        let st2 := mkEstate (es_cache st) (es_steps st1) (es_cost st1) in
        match predicate with
        | NotKnown => Ok (NotKnown, st2)
        | Present v =>
            let b := (Value_Bool v).1 in
            match o with
            | IterationOpAny => if b then Ok (Present (BoolValue true), st2) else loop rest result st2
            | IterationOpAll => if negb b then Ok (Present (BoolValue false), st2) else loop rest result st2
            | _ => loop rest result st2
            end
        end
    end.

Definition iteration_start (o : IterationOp) : runtimeValue :=
  Present (BoolValue (match o with IterationOpAll => true | _ => false end)).

Fixpoint evaluateNode (fuel : nat) (p : program) (inputs : gmap string Value) (inputTypes : gmap string Input)
    (index : Z) (st : estate) : outcome rules_err (runtimeValue * estate) :=
  match fuel with
  | O => Panic
  | S fuel =>
      match es_cache st !! index with
      | Some v => Ok (v, st)
      | None =>
          n ← node_at (ir_Nodes (pg_IR p)) index;
          let ev := evaluateNode fuel p inputs inputTypes in
          match n_Opcode n with
          | OpcodeLiteral => Ok (record_step index n (Present (n_Value n)) st)
          | OpcodeUnknown => Ok (record_step index n NotKnown st)
          | OpcodeVariable =>
              r ← eval_variable inputs inputTypes (n_Name n);
              Ok (record_step index n r st)
          | OpcodeUnary =>
              c ← child_at n 0;
              '(child, st1) ← ev c st;
              r ← evaluateUnary (n_Unary n) child;
              Ok (record_step index n r st1)
          | OpcodeBinary =>
              c0 ← child_at n 0;
              '(lv, st1) ← ev c0 st;
              match short_circuit (n_Binary n) lv with
              | Some r => Ok (record_step index n r st1)
              | None =>
                  c1 ← child_at n 1;
                  '(rv, st2) ← ev c1 st1;
                  r ← evaluateBinary (n_Binary n) lv rv;
                  Ok (record_step index n r st2)
              end
          | OpcodeCall =>
              '(args, st1) ← eval_args ev (n_Children n) st;
              '(r, cost) ← evaluateCall (n_Function n) args (es_cost st1) (pg_maxCost p) (pg_maxList p) (pg_dependencies p);
              Ok (record_step index n r (mkEstate (es_cache st1) (es_steps st1) cost))
          | OpcodeIterate =>
              c0 ← child_at n 0;
              '(collection, st1) ← ev c0 st;
              match collection with
              | NotKnown => Ok (record_step index n NotKnown st1)
              | Present v =>
                  _ ← fail_if (negb (bool_decide (Value_Kind v = KindList)) || (n_IterationBound n <? Z.of_nat (length (v_list v))))
                        ErrExpressionUnbounded;
                  '(r, st2) ←
                    eval_items (fun item st' =>
                      cn ← node_at (ir_Nodes (pg_IR p)) c0;
                      c1 ← child_at n 1;
                      evaluateNode fuel p (<["$item" := item]> inputs)
                        (<["$item" := mkInput "$item" (n_ElementType cn) ExpressionTypeUnspecified]> inputTypes) c1 st')
                      (n_Iteration n) (v_list v) (iteration_start (n_Iteration n)) st1;
                  Ok (record_step index n r st2)
              end
          | OpcodeUndeclared _ => Err ErrExpressionEvaluation
          end
      end
  end.

(** * Evaluation *)

(** The declared inputs by name: a later declaration replaces an earlier one. *)
Definition input_types (inputs : list Input) : gmap string Input :=
  fold_left (fun m i => <[in_Name i := i]> m) inputs ∅.

(** The two preflight loops, over the declared names in order. *)
Fixpoint preflight_cost (limits : CostLimit) (inputs : gmap string Value) (names : list string) (cost : Z) : outcome rules_err Z :=
  match names with
  | [] => Ok cost
  | name :: rest =>
      match inputs !! name with
      | Some (ListValue l) =>
          let n := Z.of_nat (length l) in
          _ ← fail_if (MaxIterations limits <? n) ErrExpressionUnbounded;
          _ ← fail_if (MaxCost limits - cost <? n) ErrExpressionUnbounded;
          preflight_cost limits inputs rest (cost + n)
      | _ => preflight_cost limits inputs rest cost
      end
  end.

Fixpoint preflight_values (inputs : gmap string Value) (types : gmap string Input) (names : list string) : outcome rules_err unit :=
  match names with
  | [] => Ok tt
  | name :: rest =>
      match inputs !! name with
      | None => preflight_values inputs types rest
      | Some v =>
          _ ← map_err (fun _ => ErrExpressionEvaluation) (Value_Validate v);
          _ ← match v with
              | ListValue l =>
                  fail_if (negb (forallb (runtimeValueMatches
                    (match types !! name with Some i => in_ElementType i | None => ExpressionTypeUnspecified end)) l)) ErrExpressionType
              | _ => Ok tt
              end;
          preflight_values inputs types rest
      end
  end.

Definition CompiledExpression_Evaluate (c : CompiledExpression) (inputs : gmap string Value) : outcome rules_err ExpressionResult :=
  _ ← validateCompiledArtifact c DefaultExpressionFunctionLibrary;
  let types := input_types (ce_Inputs c) in
  let names := sort_Strings (map_to_list types).*1 in
  cost ← preflight_cost (ce_Limits c) inputs names (c_Total (ce_Cost c));
  _ ← preflight_values inputs types names;
  let p := mkProgram (ce_IR c) (MaxCost (ce_Limits c)) (MaxIterations (ce_Limits c)) (ce_Dependencies c) in
  '(v, st) ← evaluateNode (S (length (ir_Nodes (ce_IR c)))) p inputs types (ir_Root (ce_IR c)) (mkEstate ∅ [] cost);
  root ← node_at (ir_Nodes (ce_IR c)) (ir_Root (ce_IR c));
  match v with
  | NotKnown =>
      _ ← fail_if (bool_decide (ce_UnknownSemantics c = UnknownSemanticsReject)) ErrExpressionUnknown;
      Ok (mkExpressionResult EvalStateUnknown (n_Type root) Value_zero (ce_Digest c) (es_steps st))
  | Present w => Ok (mkExpressionResult EvalStatePresent (n_Type root) w (ce_Digest c) (es_steps st))
  end.

Definition EvaluateExpression (expr : Expression) (inputs : gmap string Value) (limits : list CostLimit)
    : outcome rules_err ExpressionResult :=
  compiled ← CompileExpression expr limits;
  CompiledExpression_Evaluate compiled inputs.

End evaluator.
