(* ===== verification/ExpressionParse.v ===== *)
(** The text form of rule expressions: the lexer, the parser and the canonical
    encodings of [internal/engines/rules/expression.go].

    The lexer classifies bytes as the runes they are numerically; a string
    token goes through [strconv.Unquote], written out below.  The parser's
    state is the list of tokens it has not consumed; [current] on an empty list
    is the index panic.  Fuel bounds the recursion and the loops; the number of
    tokens is enough. *)

From S2P Require Import Prelude GoStrings Sorting CanonicalBytes FixedDecimal CivilTime RuleValues Expression.

Local Open Scope Z_scope.

(** * [strconv.Unquote] of a double-quoted text *)

Definition quote_char : ascii := char_of 34.
Definition backslash : ascii := char_of 92.
Definition newline : ascii := char_of 10.

Definition str1 (b : Z) : string := String (char_of b) EmptyString.

Definition unhex (c : ascii) : option Z :=
  if is_digit c then Some (byte_of c - 48)
  else if in_range "a" "f" c then Some (byte_of c - 87)
  else if in_range "A" "F" c then Some (byte_of c - 55)
  else None.

(** [n] hexadecimal digits. *)
Fixpoint read_hex (n : nat) (v : Z) (s : string) : option (Z * string) :=
  match n, s with
  | O, _ => Some (v, s)
  | S n', String c r => x ← unhex c; read_hex n' (v * 16 + x) r
  | S _, EmptyString => None
  end.

Definition octal (c : ascii) : option Z := if in_range "0" "7" c then Some (byte_of c - 48) else None.

Definition valid_rune (v : Z) : bool := ((0 <=? v) && (v <? 55296)) || ((57343 <? v) && (v <=? 1114111)).

(** [utf8.AppendRune]. *)
Definition encode_rune (v : Z) : string :=
  if v <? 128 then str1 v
  else if v <? 2048 then str1 (192 + v / 64) +:+ str1 (128 + v mod 64)
  else if v <? 65536 then str1 (224 + v / 4096) +:+ str1 (128 + v / 64 mod 64) +:+ str1 (128 + v mod 64)
  else str1 (240 + v / 262144) +:+ str1 (128 + v / 4096 mod 64) +:+ str1 (128 + v / 64 mod 64) +:+ str1 (128 + v mod 64).

Definition continuation (c : ascii) : bool := in_range (char_of 128) (char_of 191) c.
Definition within (lo hi : Z) (c : ascii) : bool := (lo <=? byte_of c) && (byte_of c <=? hi).

(** The bytes of the UTF-8 sequence [s] starts with; [None] when it is invalid,
    which [utf8.DecodeRuneInString] reads as one byte U+FFFD. *)
Definition utf8_prefix (s : string) : option string :=
  match s with
  | EmptyString => None
  | String a r =>
      if within 194 223 a then
        match r with
        | String b _ => if continuation b then Some (String a (String b EmptyString)) else None
        | _ => None
        end
      else if within 224 239 a then
        match r with
        | String b (String c _) =>
            if within (if byte_of a =? 224 then 160 else 128) (if byte_of a =? 237 then 159 else 191) b && continuation c
            then Some (String a (String b (String c EmptyString))) else None
        | _ => None
        end
      else if within 240 244 a then
        match r with
        | String b (String c (String d _)) =>
            if within (if byte_of a =? 240 then 144 else 128) (if byte_of a =? 244 then 143 else 191) b && continuation c && continuation d
            then Some (String a (String b (String c (String d EmptyString)))) else None
        | _ => None
        end
      else None
  end.

(** [UnquoteChar] and what the loop appends for it: the bytes and the rest. *)
Definition unquote_char (s : string) : option (string * string) :=
  match s with
  | EmptyString => None
  | String c r =>
      if 128 <=? byte_of c then
        match utf8_prefix s with
        | Some bytes => Some (bytes, str_drop (String.length bytes) s)
        | None => Some (encode_rune 65533, r)
        end
      else if negb (Ascii.eqb c backslash) then Some (String c EmptyString, r)
      else
        match r with
        | EmptyString => None
        | String e r' =>
            if Ascii.eqb e "a" then Some (str1 7, r') else if Ascii.eqb e "b" then Some (str1 8, r')
            else if Ascii.eqb e "f" then Some (str1 12, r') else if Ascii.eqb e "n" then Some (str1 10, r')
            else if Ascii.eqb e "r" then Some (str1 13, r') else if Ascii.eqb e "t" then Some (str1 9, r')
            else if Ascii.eqb e "v" then Some (str1 11, r')
            else if Ascii.eqb e "x" then '(v, r2) ← read_hex 2 0 r'; Some (str1 v, r2)
            else if Ascii.eqb e "u" then '(v, r2) ← read_hex 4 0 r'; if valid_rune v then Some (encode_rune v, r2) else None
            else if Ascii.eqb e "U" then '(v, r2) ← read_hex 8 0 r'; if valid_rune v then Some (encode_rune v, r2) else None
            else if in_range "0" "7" e then
              match r' with
              | String f (String g r2) =>
                  x ← octal f; y ← octal g;
                  let v := ((byte_of e - 48) * 8 + x) * 8 + y in
                  if 255 <? v then None else Some (str1 v, r2)
              | _ => None
              end
            else if Ascii.eqb e backslash then Some (String backslash EmptyString, r')
            else if Ascii.eqb e quote_char then Some (String quote_char EmptyString, r')
            else None
        end
  end.

(** The text between the quotes and after the closing one. *)
Fixpoint unquote_loop (fuel : nat) (s acc : string) : option (string * string) :=
  match fuel, s with
  | _, EmptyString => None
  | O, _ => None
  | S fuel, String c r =>
      if Ascii.eqb c quote_char then Some (acc, r)
      else if Ascii.eqb c newline then None
      else '(out, rest) ← unquote_char s; unquote_loop fuel rest (acc +:+ out)
  end.

Definition strconv_Unquote (text : string) : option string :=
  match text with
  | String c r =>
      if Ascii.eqb c quote_char then
        '(out, rest) ← unquote_loop (S (String.length r)) r EmptyString;
        if String.eqb rest "" then Some out else None
      else None
  | EmptyString => None
  end.

(** [strings.ReplaceAll] of a double quote by an escaped one. *)
Fixpoint escape_quotes (s : string) : string :=
  match s with
  | EmptyString => EmptyString
  | String c r => if Ascii.eqb c quote_char then String backslash (String quote_char (escape_quotes r)) else String c (escape_quotes r)
  end.

(** * The lexer *)

Record expressionToken : Type := mkToken { tok_kind : string; tok_text : string; tok_pos : Z }.

(** [unicode.IsSpace], [IsLetter] and [IsDigit] of a byte taken as a rune. *)
Definition rune_space (c : ascii) : bool :=
  let b := byte_of c in ((9 <=? b) && (b <=? 13)) || (b =? 32) || (b =? 133) || (b =? 160).
Definition rune_letter (c : ascii) : bool :=
  let b := byte_of c in
  is_upper c || is_lower c || (b =? 170) || (b =? 181) || (b =? 186)
  || ((192 <=? b) && negb (b =? 215) && negb (b =? 247)).

Fixpoint str_span (p : ascii -> bool) (s : string) : string * string :=
  match s with
  | EmptyString => (EmptyString, EmptyString)
  | String c r => if p c then let '(a, b) := str_span p r in (String c a, b) else (EmptyString, s)
  end.

Definition ident_char (c : ascii) : bool := rune_letter c || is_digit c || Ascii.eqb c "_" || Ascii.eqb c ".".

(** The body of a string up to its closing quote, and what follows. *)
Fixpoint scan_string (quote : ascii) (escaped : bool) (s : string) : option (string * string) :=
  match s with
  | EmptyString => None
  | String c r =>
      if negb escaped && Ascii.eqb c quote then Some (EmptyString, r)
      else '(body, rest) ← scan_string quote (negb escaped && Ascii.eqb c backslash) r; Some (String c body, rest)
  end.

Definition two_char_ops : list string := ["&&"; "||"; "=="; "!="; "<="; ">="]%string.
Definition one_char_ops : string := "()+-*/!<>,".

Definition scan_number (s : string) : string * string :=
  let '(whole, r) := str_span is_digit s in
  match r with
  | String c r' =>
      if Ascii.eqb c "." then let '(frac, r2) := str_span is_digit r' in (whole +:+ String c frac, r2) else (whole, r)
  | EmptyString => (whole, r)
  end.

(** One turn of the loop at a byte that is no space: the token without its position. *)
Definition lex_one (c : ascii) (r : string) : outcome rules_err (string * string * string) :=
  let s := String c r in
  if rune_letter c || Ascii.eqb c "_" then
    let '(a, b) := str_span ident_char r in Ok ("ident", String c a, b)%string
  else if is_digit c then let '(a, b) := scan_number s in Ok ("number", a, b)%string
  else if Ascii.eqb c quote_char || Ascii.eqb c "'" then
    match scan_string c false r with
    | None => Err ErrExpressionSyntax
    | Some (body, rest) =>
        let inner := if Ascii.eqb c "'" then escape_quotes body else body in
        match strconv_Unquote (String quote_char (inner +:+ String quote_char EmptyString)) with
        | Some value => Ok ("string"%string, value, rest)
        | None => Err ErrExpressionSyntax
        end
    end
  else
    match List.find (fun op => has_prefix op s) two_char_ops with
    | Some op => Ok ("op"%string, op, str_drop (String.length op) s)
    | None => if str_contains c one_char_ops then Ok ("op"%string, String c EmptyString, r) else Err ErrExpressionSyntax
    end.

Fixpoint lex_loop (fuel : nat) (source : string) (size : Z) : outcome rules_err (list expressionToken) :=
  match fuel, source with
  | _, EmptyString => Ok [mkToken "eof" "" size]
  | O, _ => Panic
  | S fuel, String c r =>
      if rune_space c then lex_loop fuel r size
      else
        '(kind, text, rest) ← lex_one c r;
        tokens ← lex_loop fuel rest size;
        Ok (mkToken kind text (size - len source) :: tokens)
  end.

Definition expressionLexer_lex (source : string) : outcome rules_err (list expressionToken) :=
  lex_loop (String.length source) source (len source).

(** * The parser *)

Definition parsed : Type := outcome rules_err (Expr * list expressionToken).

Definition current (ts : list expressionToken) : outcome rules_err expressionToken :=
  match ts with t :: _ => Ok t | [] => Panic end.
(** [p.take(text)]: the tokens left when the current one has this text. *)
Definition take_token (text : string) (ts : list expressionToken) : outcome rules_err (option (list expressionToken)) :=
  t ← current ts; Ok (if String.eqb (tok_text t) text then Some (tail ts) else None).

Definition operators := list (string * BinaryOp).
Definition or_ops : operators := [("||", BinaryOpOr)]%string.
Definition and_ops : operators := [("&&", BinaryOpAnd)]%string.
Definition compare_ops : operators :=
  [("==", BinaryOpEqual); ("!=", BinaryOpNotEqual); ("<", BinaryOpLess); ("<=", BinaryOpLessOrEqual);
   (">", BinaryOpGreater); (">=", BinaryOpGreaterOrEqual)]%string.
Definition add_ops : operators := [("+", BinaryOpAdd); ("-", BinaryOpSubtract)]%string.
Definition multiply_ops : operators := [("*", BinaryOpMultiply); ("/", BinaryOpDivide)]%string.

Fixpoint find_op (ops : operators) (text : string) : option BinaryOp :=
  match ops with [] => None | (t, o) :: r => if String.eqb t text then Some o else find_op r text end.

(** The loop of [parseBinary]. *)
Fixpoint binary_loop (fuel : nat) (ops : operators) (next : list expressionToken -> parsed) (lhs : Expr) (ts : list expressionToken) : parsed :=
  match fuel with
  | O => Panic
  | S fuel =>
      t ← current ts;
      match find_op ops (tok_text t) with
      | None => Ok (lhs, ts)
      | Some op => '(rhs, ts') ← next (tail ts); binary_loop fuel ops next (Binary op lhs rhs) ts'
      end
  end.

Definition parseBinary (fuel : nat) (next : list expressionToken -> parsed) (ops : operators) (ts : list expressionToken) : parsed :=
  '(lhs, ts') ← next ts; binary_loop fuel ops next lhs ts'.

Section levels.
Context (fuel : nat) (parseUnary : list expressionToken -> parsed).
Definition parseMultiply : list expressionToken -> parsed := parseBinary fuel parseUnary multiply_ops.
Definition parseAdd : list expressionToken -> parsed := parseBinary fuel parseMultiply add_ops.
Definition parseCompare : list expressionToken -> parsed := parseBinary fuel parseAdd compare_ops.
Definition parseAnd : list expressionToken -> parsed := parseBinary fuel parseCompare and_ops.
Definition parseOr : list expressionToken -> parsed := parseBinary fuel parseAnd or_ops.
End levels.

(** The arguments of a call after its opening parenthesis. *)
Fixpoint parse_args (fuel : nat) (parseOr : list expressionToken -> parsed) (args : list Expr) (ts : list expressionToken)
    : outcome rules_err (list Expr * list expressionToken) :=
  match fuel with
  | O => Panic
  | S fuel =>
      '(arg, ts1) ← parseOr ts;
      let args' := args ++ [arg] in
      closed ← take_token ")" ts1;
      match closed with
      | Some ts2 => Ok (args', ts2)
      | None =>
          comma ← take_token "," ts1;
          match comma with
          | Some ts2 => parse_args fuel parseOr args' ts2
          | None => Err ErrExpressionSyntax
          end
      end
  end.

Fixpoint before_point (s : string) : Z :=
  match s with EmptyString => 0 | String c r => if Ascii.eqb c "." then 0 else 1 + before_point r end.

Definition parse_number (text : string) : outcome rules_err Expr :=
  if str_contains "." text then
    d ← map_err (fun _ => ErrExpressionValue) (NewDecimal text (to_int32 (len text - before_point text - 1)) RoundingHalfEven);
    Ok (DecimalLiteral d)
  else
    (* [strconv.ParseInt] of a run of digits *)
    let v := dec_value text 0 in
    if max_int64 <? v then Err ErrExpressionValue else Ok (IntLiteral v).

Definition parsePrimary (fuel : nat) (parseOr : list expressionToken -> parsed) (ts : list expressionToken) : parsed :=
  t ← current ts;
  open ← take_token "(" ts;
  match open with
  | Some ts1 =>
      '(e, ts2) ← parseOr ts1;
      closed ← take_token ")" ts2;
      match closed with Some ts3 => Ok (e, ts3) | None => Err ErrExpressionSyntax end
  | None =>
      let ts1 := tail ts in
      let kind := tok_kind t in
      let text := tok_text t in
      if String.eqb kind "number" then e ← parse_number text; Ok (e, ts1)
      else if String.eqb kind "string" then Ok (StringLiteral text, ts1)
      else if String.eqb kind "ident" then
        if String.eqb text "true" then Ok (BoolLiteral true, ts1)
        else if String.eqb text "false" then Ok (BoolLiteral false, ts1)
        else if String.eqb text "null" then Ok (Unknown, ts1)
        else
          call ← take_token "(" ts1;
          match call with
          | Some ts2 =>
              empty ← take_token ")" ts2;
              match empty with
              | Some ts3 => Ok (Call text [], ts3)
              | None => '(args, ts3) ← parse_args fuel parseOr [] ts2; Ok (Call text args, ts3)
              end
          | None => Ok (Variable_ text ExpressionTypeUnspecified, ts1)
          end
      else Err ErrExpressionSyntax
  end.

Fixpoint parseUnary (fuel : nat) (ts : list expressionToken) : parsed :=
  match fuel with
  | O => Panic
  | S fuel =>
      not ← take_token "!" ts;
      match not with
      | Some ts1 => '(child, ts2) ← parseUnary fuel ts1; Ok (Unary UnaryOpNot child, ts2)
      | None =>
          minus ← take_token "-" ts;
          match minus with
          | Some ts1 => '(child, ts2) ← parseUnary fuel ts1; Ok (Unary UnaryOpNegate child, ts2)
          | None => parsePrimary fuel (parseOr fuel (parseUnary fuel)) ts
          end
      end
  end.

Definition expressionParser_parse (ts : list expressionToken) : outcome rules_err Expr :=
  t ← current ts;
  _ ← fail_if (String.eqb (tok_kind t) "eof") ErrExpressionSyntax;
  let fuel := length ts in
  '(e, ts') ← parseOr fuel (parseUnary fuel) ts;
  t' ← current ts';
  if String.eqb (tok_kind t') "eof" then Ok e else Err ErrExpressionSyntax.

Definition Parse (source : string) : outcome rules_err Expression :=
  tokens ← expressionLexer_lex source;
  root ← expressionParser_parse tokens;
  Ok (mkExpression root [] [] "1" UnknownSemanticsUnspecified).

Definition ParseExpression (source : string) : outcome rules_err Expression := Parse source.

Definition ParseWithInputs (source : string) (inputs : list Input) : outcome rules_err Expression :=
  expr ← Parse source;
  Ok (mkExpression (x_Root expr) inputs (x_Dependencies expr) (x_Version expr) (x_UnknownSemantics expr)).

Definition ParseTyped (source : string) (inputs : gmap string ExpressionType) : outcome rules_err Expression :=
  let names := sort_Strings (map_to_list inputs).*1 in
  ParseWithInputs source (omap (fun name => t ← inputs !! name; Some (mkInput name t ExpressionTypeUnspecified)) names).

(** * Canonical encodings *)

Definition ExprKind_int (k : ExprKind) : Z :=
  match k with
  | ExprKindUnspecified => 0 | ExprKindLiteral => 1 | ExprKindVariable => 2 | ExprKindUnary => 3 | ExprKindBinary => 4
  | ExprKindCall => 5 | ExprKindIterate => 6 | ExprKindUnknown => 7 | ExprKindUndeclared v => v
  end.

Fixpoint writeExprCanonical (e : Expr) : list op :=
  match e with
  | mkExpr kind typ name fn value un bin iter bound children =>
      [ WString "node.kind" (FormatInt (ExprKind_int kind)); WString "node.type" (ExpressionType_String typ);
        WString "node.name" name; WString "node.function" fn; WString "node.unary" (UnaryOp_String un);
        WString "node.binary" (BinaryOp_String bin); WString "node.iteration" (IterationOp_String iter); WInt "node.bound" bound ] ++
      (match kind with ExprKindLiteral => [WValue "node.value" (Value_Canonical value)] | _ => [] end) ++
      WCount "node.children" (Z.of_nat (length children)) :: concat (List.map writeExprCanonical children)
  end.

Definition expressionCanonical (expr : Expression) : outcome canon_err (list Z) :=
  let inputs := sort_inputs (x_Inputs expr) in
  let deps := sort_dependencies (x_Dependencies expr) in
  Writer_Bytes (ops_run
    ([ WString "version" (x_Version expr); WString "unknown_semantics" (UnknownSemantics_String (x_UnknownSemantics expr));
       WCount "inputs" (Z.of_nat (length inputs)) ] ++ mjoin (input_ops <$> inputs) ++
     WCount "dependencies" (Z.of_nat (length deps)) :: mjoin (dependency_ops <$> deps) ++ writeExprCanonical (x_Root expr))
    (New "hcmnext.engines.rules.Expression" ExpressionVersion)).

(** [None] is nil. *)
Definition Expression_Canonical (expr : Expression) : option (list Z) :=
  match expressionCanonical expr with Ok raw => Some raw | _ => None end.

Definition Opcode_String (o : Opcode) : string :=
  match o with
  | OpcodeLiteral => "LITERAL" | OpcodeVariable => "VARIABLE" | OpcodeUnary => "UNARY" | OpcodeBinary => "BINARY"
  | OpcodeCall => "CALL" | OpcodeIterate => "ITERATE" | OpcodeUnknown => "UNKNOWN" | OpcodeUndeclared _ => "OPCODE_UNSPECIFIED"
  end.

Fixpoint ir_parts (i : Z) (nodes : list IRNode) : list string :=
  match nodes with
  | [] => []
  | n :: r =>
      str_join ":" [FormatInt i; Opcode_String (n_Opcode n); ExpressionType_String (n_Type n); n_Name n;
                    (match n_Opcode n with OpcodeLiteral => Value_String (n_Value n) | _ => "" end);
                    "[" +:+ str_join "," (FormatInt <$> n_Children n) +:+ "]"] :: ir_parts (i + 1) r
  end%string.

Definition IR_Canonical (ir : IR) : string :=
  "root=" +:+ FormatInt (ir_Root ir) +:+ " nodes=" +:+ str_join ";" (ir_parts 0 (ir_Nodes ir)).
