(* ===== verification/ExpressionGrammar.v ===== *)
(** The expression grammar as a syntax tree with a reference printer, and the
    parser of [ExpressionParse] against it: printing a tree with the fewest
    parentheses its precedences and left associativity allow, and parsing the
    tokens, gives the tree; every parse is such a tree; parsing never panics. *)

From S2P Require Import Prelude GoStrings Sorting CanonicalBytes FixedDecimal CivilTime RuleValues Expression ExpressionParse.

Local Open Scope Z_scope.

(** * Reference syntax *)

Inductive term : Type :=
  | TInt (v : Z)
  | TDec (unscaled scale : Z)
  | TStr (s : string)
  | TBool (b : bool)
  | TNull
  | TVar (name : string)
  | TNot (t : term)
  | TNeg (t : term)
  | TBin (o : BinaryOp) (a b : term)
  | TCall (f : string) (args : list term).

Section term_ind.
Variable P : term -> Prop.
Hypothesis atom : forall t,
  match t with TNot _ | TNeg _ | TBin _ _ _ | TCall _ _ => False | _ => True end -> P t.
Hypothesis not_ : forall t, P t -> P (TNot t).
Hypothesis neg_ : forall t, P t -> P (TNeg t).
Hypothesis bin_ : forall o a b, P a -> P b -> P (TBin o a b).
Hypothesis call_ : forall f args, Forall P args -> P (TCall f args).
Fixpoint term_rect' (t : term) : P t :=
  match t with
  | TNot t => not_ t (term_rect' t)
  | TNeg t => neg_ t (term_rect' t)
  | TBin o a b => bin_ o a b (term_rect' a) (term_rect' b)
  | TCall f args => call_ f args ((fix go ts := match ts return Forall P ts with
                                   | [] => Forall_nil_2 P
                                   | t :: r => Forall_cons_2 P t r (term_rect' t) (go r)
                                   end) args)
  | t => atom t I
  end.
End term_ind.

(** The expression a tree stands for. *)
Fixpoint embed (t : term) : Expr :=
  match t with
  | TInt v => IntLiteral v
  | TDec u s => DecimalLiteral (dec_of u s RoundingHalfEven)
  | TStr s => StringLiteral s
  | TBool b => BoolLiteral b
  | TNull => Unknown
  | TVar x => Variable_ x ExpressionTypeUnspecified
  | TNot t => Unary UnaryOpNot (embed t)
  | TNeg t => Unary UnaryOpNegate (embed t)
  | TBin o a b => Binary o (embed a) (embed b)
  | TCall f args => Call f (List.map embed args)
  end.

(** How loosely an operator binds, and its text: the parser's five binary levels. *)
Definition loose (o : BinaryOp) : nat :=
  match o with
  | BinaryOpOr => 5
  | BinaryOpAnd => 4
  | BinaryOpEqual | BinaryOpNotEqual | BinaryOpLess | BinaryOpLessOrEqual | BinaryOpGreater | BinaryOpGreaterOrEqual => 3
  | BinaryOpAdd | BinaryOpSubtract => 2
  | BinaryOpMultiply | BinaryOpDivide => 1
  | _ => 0
  end%nat.
Definition op_text (o : BinaryOp) : string :=
  match o with
  | BinaryOpOr => "||" | BinaryOpAnd => "&&" | BinaryOpEqual => "==" | BinaryOpNotEqual => "!=" | BinaryOpLess => "<"
  | BinaryOpLessOrEqual => "<=" | BinaryOpGreater => ">" | BinaryOpGreaterOrEqual => ">=" | BinaryOpAdd => "+"
  | BinaryOpSubtract => "-" | BinaryOpMultiply => "*" | BinaryOpDivide => "/" | _ => ""
  end%string.

Definition ops_at (n : nat) : operators :=
  match n with 5 => or_ops | 4 => and_ops | 3 => compare_ops | 2 => add_ops | 1 => multiply_ops | _ => [] end%nat.

(** A token is shown by its kind and its text. *)
Definition shape : Type := string * string.
Definition op_shape (text : string) : shape := ("op"%string, text).
Definition parens (ks : list shape) : list shape := op_shape "(" :: ks ++ [op_shape ")"].

(** A first argument that starts with the text of a closing parenthesis would end the call. *)
Definition guarded (kss : list (list shape)) : list (list shape) :=
  match kss with
  | (((_, text) :: _) as ks) :: r => if String.eqb text ")" then parens ks :: r else kss
  | _ => kss
  end.

Fixpoint commas (kss : list (list shape)) : list shape :=
  match kss with
  | [] => []
  | [ks] => ks
  | ks :: r => ks ++ op_shape "," :: commas r
  end.

(** The tokens of a tree in a place that admits operators up to looseness [n]. *)
Fixpoint show (n : nat) (t : term) : list shape :=
  match t with
  | TInt v => [("number"%string, dec_string v)]
  | TDec u s => [("number"%string, formatFixed u false s)]
  | TStr s => [("string"%string, s)]
  | TBool b => [("ident"%string, (if b then "true" else "false")%string)]
  | TNull => [("ident"%string, "null"%string)]
  | TVar x => [("ident"%string, x)]
  | TNot t => op_shape "!" :: show 0 t
  | TNeg t => op_shape "-" :: show 0 t
  | TBin o a b =>
      let body := show (loose o) a ++ op_shape (op_text o) :: show (pred (loose o)) b in
      if (loose o <=? n)%nat then body else parens body
  | TCall f args => ("ident"%string, f) :: op_shape "(" :: commas (guarded (List.map (show 5) args)) ++ [op_shape ")"]
  end.

(** Identifiers that are no keyword, and the trees the grammar can express. *)
Definition ident (s : string) : bool :=
  match s with
  | EmptyString => false
  | String c r => (rune_letter c || Ascii.eqb c "_") && str_forall ident_char r
  end.
Definition keyword (s : string) : bool := existsb (String.eqb s) ["true"; "false"; "null"]%string.
Definition name_ok (s : string) : bool := ident s && negb (keyword s).
(** The texts [parseUnary] and [parsePrimary] take before they look at the kind. *)
Definition taken_first : list string := ["!"; "-"; "("]%string.

Fixpoint term_wf (t : term) : bool :=
  match t with
  | TInt v => (0 <=? v) && (v <=? max_int64)
  | TDec u s => (0 <=? u) && (u <? 10 ^ MaxPrecision) && (1 <=? s) && (s <=? MaxScale)
  | TStr s => negb (existsb (String.eqb s) taken_first)
  | TBool _ | TNull => true
  | TVar x => name_ok x
  | TNot t | TNeg t => term_wf t
  | TBin o a b => negb (loose o =? 0)%nat && term_wf a && term_wf b
  | TCall f args => name_ok f && forallb term_wf args
  end.

(** Tokens placed one blank apart from byte [p] on; strings are written
    quoted with every byte escaped. *)
Definition hex_digit (d : Z) : ascii := char_of (if d <? 10 then 48 + d else 87 + d).
Definition hex_escape (c : ascii) : string :=
  String backslash (String "x" (String (hex_digit (byte_of c / 16)) (String (hex_digit (byte_of c mod 16)) EmptyString))).
Fixpoint hex_text (s : string) : string :=
  match s with EmptyString => EmptyString | String c r => hex_escape c +:+ hex_text r end.
Definition written (k : shape) : string :=
  if String.eqb k.1 "string" then String quote_char (hex_text k.2 +:+ str1 34) else k.2.

Fixpoint place (p : Z) (ks : list shape) : list expressionToken :=
  match ks with
  | [] => []
  | k :: r => mkToken k.1 k.2 p :: place (p + len (written k) + 1) r
  end.
Fixpoint layout (ks : list shape) : string :=
  match ks with [] => EmptyString | k :: r => written k +:+ String " " (layout r) end.

(** The source text of a tree. *)
Definition print (t : term) : string := layout (show 5 t).

(** * Levels *)

(** The parser of the places that admit looseness [n]; [levels_parseOr] says what it is. *)
Fixpoint level (fuel n : nat) (ts : list expressionToken) : parsed :=
  match n with
  | O => parseUnary fuel ts
  | S m => parseBinary fuel (level fuel m) (ops_at n) ts
  end.

Lemma levels_parseOr fuel ts : level fuel 5 ts = parseOr fuel (parseUnary fuel) ts.
Proof. reflexivity. Qed.

Definition width (ks : list shape) : Z := fold_right (fun k n => len (written k) + 1 + n) 0 ks.

Lemma place_app p ks ls : place p (ks ++ ls) = place p ks ++ place (p + width ks) ls.
Proof.
  revert p. induction ks as [|k ks IH]; intros p; cbn [app place width fold_right].
  - by rewrite Z.add_0_r.
  - rewrite IH. do 2 f_equal. fold (width ks). f_equal. lia.
Qed.

Lemma place_length p ks : length (place p ks) = length ks.
Proof. revert p. induction ks as [|k ks IH]; intros p; cbn; [done | by rewrite IH]. Qed.

(** The first token of what follows an expression at looseness [n]. *)
Definition head_ok (n : nat) (ts : list expressionToken) : Prop :=
  match ts with
  | [] => False
  | t :: _ => tok_text t <> "("%string /\ forall m, (m <= n)%nat -> find_op (ops_at m) (tok_text t) = None
  end.

Lemma head_ok_le n m ts : head_ok n ts -> (m <= n)%nat -> head_ok m ts.
Proof. destruct ts; cbn; [done|]. intros [? H] Hm. split; [done|]. intros k Hk. apply H. lia. Qed.

(** The tokens [ks] read as [e] at looseness [n]; [opened] leaves the loop of the level running. *)
Definition closed (n : nat) (ks : list shape) (e : Expr) : Prop :=
  forall fuel p rest, (length ks + length rest <= fuel)%nat -> head_ok n rest ->
    level fuel n (place p ks ++ rest) = Ok (e, rest).
Definition opened (n : nat) (ks : list shape) (e : Expr) : Prop :=
  forall fuel p rest, (length ks + length rest <= fuel)%nat -> head_ok n rest ->
    exists k, (length rest <= k)%nat /\
      level fuel (S n) (place p ks ++ rest) = binary_loop k (ops_at (S n)) (level fuel n) e rest.

Lemma closed_opened n ks e : closed n ks e -> opened n ks e.
Proof.
  intros H fuel p rest Hf Hh. exists fuel. split; [lia|].
  cbn [level]. unfold parseBinary. by rewrite (H fuel p rest Hf Hh).
Qed.

Lemma loop_stops k ops next e ts : (length ts <= k)%nat ->
  match ts with [] => False | t :: _ => find_op ops (tok_text t) = None end ->
  binary_loop k ops next e ts = Ok (e, ts).
Proof.
  destruct ts as [|t ts]; [done|]. destruct k as [|k]; cbn [length]; [lia|].
  intros _ Ht. cbn. by rewrite Ht.
Qed.

Lemma opened_closed n ks e : opened n ks e -> closed (S n) ks e.
Proof.
  intros H fuel p rest Hf Hh. destruct (H fuel p rest Hf) as (k & Hk & ->).
  { apply (head_ok_le (S n)); [done | lia]. }
  apply loop_stops; [done|]. destruct rest; [done|]. by apply Hh.
Qed.

Lemma closed_le n m ks e : closed n ks e -> (n <= m)%nat -> closed m ks e.
Proof. intros H. induction 1; [done|]. by apply opened_closed, closed_opened. Qed.

Lemma opened_bin n ka kb text o a b :
  opened n ka a -> closed n kb b -> find_op (ops_at (S n)) text = Some o ->
  text <> "("%string -> (forall m, (m <= n)%nat -> find_op (ops_at m) text = None) ->
  opened n (ka ++ op_shape text :: kb) (Binary o a b).
Proof.
  intros Ha Hb Ho Ht Hm fuel p rest Hf Hh. rewrite length_app in Hf. cbn [length] in Hf.
  rewrite place_app. cbn [place]. rewrite <- app_assoc. cbn [app].
  destruct (Ha fuel p (mkToken "op" text (p + width ka) :: place (p + width ka + len (written (op_shape text)) + 1) kb ++ rest))
    as (k & Hk & E); [cbn [length]; rewrite length_app, place_length; lia | by split |].
  cbn [length] in Hk. rewrite length_app, place_length in Hk.
  change (op_shape text).1 with "op"%string. change (op_shape text).2 with text. rewrite E. destruct k as [|k]; [lia|].
  exists k. split; [lia|]. cbn [binary_loop current tok_text mbind outcome_bind tail]. rewrite Ho.
  rewrite (Hb fuel _ rest) by (done || lia). done.
Qed.

(** * The forms of [parseUnary] *)

Lemma take_hit text t ts : tok_text t = text -> take_token text (t :: ts) = Ok (Some ts).
Proof. intros E. unfold take_token. cbn. by rewrite E, String.eqb_refl. Qed.

Lemma take_miss text t ts : tok_text t <> text -> take_token text (t :: ts) = Ok None.
Proof. intros E. unfold take_token. cbn. by rewrite (proj2 (String.eqb_neq _ _) E). Qed.

(** One [take] of the parser at a known token. *)
Ltac take_step :=
  match goal with
  | |- (take_token ?x _ ≫= _) = _ => first [rewrite (take_hit x) by done | rewrite (take_miss x) by (cbn in *; naive_solver)]
  end; cbn [mbind outcome_bind].

Lemma closed_not ks e : closed 0 ks e -> closed 0 (op_shape "!" :: ks) (Unary UnaryOpNot e).
Proof.
  intros H [|fuel] p rest Hf Hh; cbn [length] in Hf; [lia|].
  cbn [level parseUnary place app fst snd op_shape]. take_step.
  unfold closed in H. cbn [level] in H. by rewrite H by (exact Hh || lia).
Qed.

Lemma closed_neg ks e : closed 0 ks e -> closed 0 (op_shape "-" :: ks) (Unary UnaryOpNegate e).
Proof.
  intros H [|fuel] p rest Hf Hh; cbn [length] in Hf; [lia|].
  cbn [level parseUnary place app fst snd op_shape]. take_step.
  take_step.
  unfold closed in H. cbn [level] in H. by rewrite H by (exact Hh || lia).
Qed.

Lemma closed_primary k ks e : ~ In k.2 ["!"; "-"]%string ->
  (forall fuel p rest, (length ks + length rest <= fuel)%nat -> head_ok 0 rest ->
     parsePrimary fuel (level fuel 5) (mkToken k.1 k.2 p :: place (p + len (written k) + 1) ks ++ rest) = Ok (e, rest)) ->
  closed 0 (k :: ks) e.
Proof.
  intros Hk H [|fuel] p rest Hf Hh; cbn [length] in Hf; [lia|].
  cbn [level parseUnary place app].
  take_step.
  take_step.
  apply (H fuel p rest); [lia | done].
Qed.

Lemma head_ok_close n ts p : (n <= 5)%nat -> head_ok n (mkToken "op" ")" p :: ts).
Proof. intros Hn. split; [done|]. intros m Hm. do 6 (destruct m as [|m]; [done|]). lia. Qed.

Lemma head_ok_comma n ts p : (n <= 5)%nat -> head_ok n (mkToken "op" "," p :: ts).
Proof. intros Hn. split; [done|]. intros m Hm. do 6 (destruct m as [|m]; [done|]). lia. Qed.

Lemma closed_parens ks e : closed 5 ks e -> closed 0 (parens ks) e.
Proof.
  intros H. apply closed_primary; [cbn; intuition congruence|]. intros fuel p rest Hf Hh.
  rewrite length_app in Hf. cbn [length] in Hf.
  unfold parsePrimary. cbn [current mbind outcome_bind]. take_step.
  rewrite place_app, <- app_assoc. cbn [place app fst snd op_shape].
  rewrite H; [|cbn [length]; lia | by apply head_ok_close]. cbn [mbind outcome_bind].
  by take_step.
Qed.

Lemma closed_number text e : text <> "("%string -> ~ In text ["!"; "-"]%string -> parse_number text = Ok e ->
  closed 0 [("number"%string, text)] e.
Proof.
  intros Hp Hu He. apply closed_primary; [done|]. intros fuel p rest Hf Hh.
  unfold parsePrimary. cbn [current mbind outcome_bind fst snd place app]. take_step.
  cbn [mbind outcome_bind tok_kind tok_text tail String.eqb Ascii.eqb Bool.eqb]. by rewrite He.
Qed.

Lemma closed_string s : ~ In s taken_first -> closed 0 [("string"%string, s)] (StringLiteral s).
Proof.
  intros Hs. apply closed_primary; [unfold taken_first in Hs; cbn in *; tauto|]. intros fuel p rest Hf Hh.
  unfold parsePrimary. cbn [current mbind outcome_bind fst snd place app].
  by take_step.
Qed.

Lemma closed_bool (b : bool) : closed 0 [("ident"%string, if b then "true" else "false")%string] (BoolLiteral b).
Proof. apply closed_primary; [destruct b; cbn; intuition congruence|]. intros fuel p rest Hf Hh. by destruct b. Qed.

Lemma closed_null : closed 0 [("ident", "null")]%string Unknown.
Proof. apply closed_primary; [cbn; intuition congruence|]. done. Qed.

Lemma name_ok_text x : name_ok x = true ->
  ~ In x ["!"; "-"; "("; ")"; "true"; "false"; "null"]%string.
Proof.
  intros H Hin. cbn in Hin.
  repeat match goal with H : _ \/ _ |- _ => destruct H end; subst; done.
Qed.

Lemma closed_var x : name_ok x = true -> closed 0 [("ident"%string, x)] (Variable_ x ExpressionTypeUnspecified).
Proof.
  intros Hx. pose proof (name_ok_text x Hx) as Hn. cbn [In] in Hn.
  apply closed_primary; [cbn; tauto|]. intros fuel p rest Hf Hh.
  unfold parsePrimary. cbn [current mbind outcome_bind fst snd place app]. take_step.
  cbn [tok_kind tok_text tail String.eqb Ascii.eqb Bool.eqb].
  rewrite !(proj2 (String.eqb_neq _ _)) by (intros ->; tauto).
  destruct rest as [|t rest]; [done|]. destruct Hh as [Hp _]. by take_step.
Qed.

(** What [parse_args] appends for the arguments shown with commas. *)
Lemma args_parsed kss es : Forall2 (closed 5) kss es -> kss <> [] ->
  forall fuel k p acc rest, (length (commas kss) + S (length rest) <= fuel)%nat -> (length kss <= k)%nat ->
    parse_args k (level fuel 5) acc (place p (commas kss ++ [op_shape ")"]) ++ rest) = Ok (acc ++ es, rest).
Proof.
  induction 1 as [|ks e kss es He Hes IH]; [done|]. intros _ fuel k p acc rest Hf Hk.
  destruct k as [|k]; [cbn in Hk; lia|]. cbn [parse_args]. destruct Hes as [|ks' e' kss es He' Hes].
  - cbn [commas] in *. rewrite place_app, <- app_assoc. cbn [place app fst snd op_shape].
    rewrite He; [|cbn [length]; lia | by apply head_ok_close]. cbn [mbind outcome_bind]. by take_step.
  - change (commas (ks :: ks' :: kss)) with (ks ++ op_shape "," :: commas (ks' :: kss)) in *.
    rewrite length_app in Hf. cbn [length] in Hf, Hk.
    rewrite <- app_assoc, place_app, <- app_assoc. cbn [place app].
    change (op_shape ",").1 with "op"%string. change (op_shape ",").2 with ","%string.
    rewrite He; [|cbn [length]; rewrite length_app, place_length, length_app; cbn [length]; lia | by apply head_ok_comma].
    cbn [mbind outcome_bind]. take_step. take_step.
    rewrite IH; [|done | lia | cbn [length]; lia]. by rewrite <- app_assoc.
Qed.

Definition opens (ks : list shape) : Prop := match ks with [] => False | k :: _ => k.2 <> ")"%string end.

Lemma opens_app ks ls : opens ks -> opens (ks ++ ls).
Proof. by destruct ks. Qed.

(** Guarding leaves the arguments as they read. *)
Lemma guarded_closed kss es : Forall2 (closed 5) kss es -> Forall2 (closed 5) (guarded kss) es.
Proof.
  destruct 1 as [|ks e kss es He Hes]; [constructor|]. destruct ks as [|[kind text] ks]; [by constructor|].
  cbn [guarded]. destruct (String.eqb text ")"); (constructor; [|exact Hes]); [|exact He].
  apply (closed_le 0); [apply closed_parens; exact He | lia].
Qed.

Lemma commas_length kss : (length kss <= S (length (commas kss)))%nat.
Proof.
  induction kss as [|ks [|ks' kss] IH]; [cbn; lia | cbn [commas length]; lia |].
  change (commas (ks :: ks' :: kss)) with (ks ++ op_shape "," :: commas (ks' :: kss)).
  rewrite length_app. cbn [length] in *. lia.
Qed.

Lemma guarded_opens kss : Forall (fun ks => ks <> []) kss -> kss <> [] -> opens (commas (guarded kss)).
Proof.
  intros H Hne. destruct kss as [|ks kss]; [done|]. inversion H as [|? ? Hk Hks]; subst.
  destruct ks as [|[kind text] ks]; [done|]. cbn [guarded].
  destruct (String.eqb_spec text ")"); destruct kss; done.
Qed.

Lemma guarded_nil kss : guarded kss = [] -> kss = [].
Proof. destruct kss as [|[|[kind text] ks] kss]; [done | done |]. cbn. by destruct (String.eqb text ")"). Qed.

Lemma closed_call f kss es : name_ok f = true -> Forall2 (closed 5) kss es -> Forall (fun ks => ks <> []) kss ->
  closed 0 (("ident"%string, f) :: op_shape "(" :: commas (guarded kss) ++ [op_shape ")"]) (Call f es).
Proof.
  intros Hx Hes Ho. pose proof (name_ok_text f Hx) as Hn. cbn [In] in Hn.
  apply closed_primary; [cbn; tauto|]. intros fuel p rest Hf Hh.
  cbn [length] in Hf. rewrite length_app in Hf. cbn [length] in Hf.
  unfold parsePrimary. cbn [current mbind outcome_bind fst snd place app op_shape]. take_step.
  cbn [tok_kind tok_text tail String.eqb Ascii.eqb Bool.eqb].
  rewrite !(proj2 (String.eqb_neq f _)) by (intros ->; tauto). take_step.
  pose proof (commas_length (guarded kss)) as Hl. apply guarded_closed in Hes as Hg.
  destruct (decide (guarded kss = [])) as [E|Hne].
  { rewrite E in *. inversion Hg; subst. cbn [commas app place fst snd]. by take_step. }
  assert (Hc : opens (commas (guarded kss))) by (apply guarded_opens; [done | intros ->; done]).
  assert (Hm : forall q ls, take_token ")" (place q (commas (guarded kss) ++ ls) ++ rest) = Ok None).
  { intros q ls. destruct (commas (guarded kss)) as [|k ks]; [done|]. cbn [place app]. by apply take_miss. }
  rewrite Hm. cbn [mbind outcome_bind]. by rewrite (args_parsed (guarded kss) es) by (done || lia).
Qed.

Lemma show_nonempty n t : show n t <> [].
Proof.
  destruct t; try done. cbn [show]. destruct (_ <=? _)%nat; [|done]. by destruct (show _ t1).
Qed.

(** * The tree the tokens of a tree give *)

Definition shown (t : term) : Prop := forall n, (n <= 5)%nat -> closed n (show n t) (embed t).

Lemma show_opened t n : (n < 5)%nat -> shown t -> match t with TBin o _ _ => loose o <> S n | _ => True end ->
  opened n (show (S n) t) (embed t).
Proof.
  intros Hn Ht Ho. assert (show (S n) t = show n t) as ->; [|apply closed_opened, Ht; lia].
  destruct t; try done. cbn [show].
  destruct (Nat.leb_spec (loose o) (S n)), (Nat.leb_spec (loose o) n); done || lia.
Qed.

Lemma op_found o : loose o <> O ->
  find_op (ops_at (loose o)) (op_text o) = Some o /\ (op_text o <> "(")%string /\
  (forall m, (m < loose o)%nat -> find_op (ops_at m) (op_text o) = None).
Proof.
  intros Ho. destruct o; try done; (split; [done|]; split; [done|]); intros m Hm; cbn [loose] in Hm;
    do 6 (destruct m as [|m]; [done || lia|]); lia.
Qed.

(** [shown] with the level of an operator tree left open. *)
Definition shown_open (t : term) : Prop := shown t /\ forall n, (n < 5)%nat -> opened n (show (S n) t) (embed t).

Lemma shown_bin o a b : loose o <> O -> shown_open a -> shown_open b -> shown_open (TBin o a b).
Proof.
  intros Ho Ha Hb. destruct (op_found o Ho) as (Hfo & Hp & Hm).
  assert (Hl : (loose o <= 5)%nat) by (destruct o; cbn; lia).
  destruct (loose o) as [|l] eqn:El; [done|].
  assert (Hbody : opened l (show (S l) a ++ op_shape (op_text o) :: show l b) (embed (TBin o a b))).
  { apply opened_bin; [apply Ha; lia | apply Hb; lia | done | done |]. intros m Hml. apply Hm. lia. }
  assert (Hsh : forall n, show n (TBin o a b) =
    if (S l <=? n)%nat then show (S l) a ++ op_shape (op_text o) :: show l b
    else parens (show (S l) a ++ op_shape (op_text o) :: show l b)) by (intros n; cbn [show]; by rewrite El).
  assert (Hcl : shown (TBin o a b)).
  { intros n Hn. rewrite Hsh. destruct (Nat.leb_spec (S l) n).
    - apply (closed_le (S l)); [by apply opened_closed | done].
    - apply (closed_le 0); [|lia]. apply closed_parens. apply (closed_le (S l)); [by apply opened_closed | lia]. }
  split; [done|]. intros n Hn. destruct (decide (l = n)) as [->|Hne].
  - rewrite Hsh, Nat.leb_refl. done.
  - apply show_opened; [done | done |]. rewrite El. congruence.
Qed.

Lemma shown_atom t : (forall n, show n t = show 0 t) -> match t with TBin _ _ _ => False | _ => True end ->
  closed 0 (show 0 t) (embed t) -> shown_open t.
Proof.
  intros Hs Hb H. assert (Hc : shown t) by (intros n Hn; rewrite Hs; apply (closed_le 0); [done | lia]).
  split; [done|]. intros n Hn. apply show_opened; [done | done | by destruct t].
Qed.

(** * Number tokens *)

Lemma digits_first i : i <> EmptyString -> str_forall is_digit i = true ->
  exists c r, i = String c r /\ is_digit c = true.
Proof. destruct i as [|c r]; [done|]. cbn. rewrite andb_true_iff. intros _ [? _]. eauto. Qed.

Lemma digit_text c r : is_digit c = true -> ~ In (String c r) taken_first.
Proof. intros Hc Hin. cbn in Hin. repeat destruct Hin as [Hin|Hin]; try done; by injection Hin as <- _. Qed.

Lemma parse_int_text v : 0 <= v <= max_int64 -> parse_number (dec_string v) = Ok (IntLiteral v).
Proof.
  intros Hv. unfold parse_number. rewrite digits_contain by (done || apply dec_string_digits; lia).
  rewrite dec_string_value by lia. by rewrite (proj2 (Z.ltb_ge _ _)) by lia.
Qed.

Lemma before_point_digits i f : str_forall is_digit i = true -> before_point (i +:+ String "." f) = len i.
Proof.
  induction i as [|c i IH]; cbn [str_forall String.append before_point].
  - done.
  - rewrite andb_true_iff. intros [Hc Hi]. rewrite (digit_neq c "." Hc eq_refl), IH by done.
    unfold len. cbn [String.length]. lia.
Qed.

Lemma contains_app c s t : str_contains c (s +:+ String c t) = true.
Proof. induction s as [|a s IH]; cbn; [by rewrite Ascii.eqb_refl | rewrite IH; by destruct (Ascii.eqb c a), (Ascii.eqb a c)]. Qed.

(** A number token with a point reads at the scale its fraction has. *)
Lemma parse_number_point i f : str_forall is_digit i = true ->
  parse_number (i +:+ String "." f) =
    (d ← map_err (fun _ => ErrExpressionValue) (NewDecimal (i +:+ String "." f) (to_int32 (len f)) RoundingHalfEven);
     Ok (DecimalLiteral d)).
Proof.
  intros Hi. unfold parse_number. rewrite contains_app, before_point_digits, len_append by done.
  replace (len i + len (String "." f) - len i - 1) with (len f); [done|]. unfold len. cbn [String.length]. lia.
Qed.

Lemma parse_decimal_text u s : 0 <= u < 10 ^ MaxPrecision -> 1 <= s <= MaxScale ->
  parse_number (formatFixed u false s) = Ok (DecimalLiteral (dec_of u s RoundingHalfEven)).
Proof.
  intros Hu Hs. destruct (formatFixed_plain u false s) as (i & f & -> & Hp & Hv & Hl); [lia | lia |].
  cbn [sign_text andb String.append]. pose proof Hp as (Hne & Hi & Hf).
  assert (Hpt : plain_text i f = (i +:+ String "." f)).
  { unfold plain_text. destruct f; [|done]. unfold len in Hl. cbn in Hl. lia. }
  rewrite Hpt, parse_number_point, Hl, to_int32_small by (done || (unfold MaxScale in Hs; lia)).
  rewrite <- Hpt. change (plain_text i f) with (sign_text false +:+ plain_text i f).
  rewrite NewDecimal_plain by (done || lia || (unfold MaxScale in *; lia)). cbv zeta. cbn [andb].
  rewrite Hv, Hl, Z.sub_diag, Z.mul_1_r. by rewrite (proj2 (Z.ltb_lt _ _)) by lia.
Qed.

Lemma number_shown text e c r : text = String c r -> is_digit c = true -> parse_number text = Ok e ->
  closed 0 [("number"%string, text)] e.
Proof.
  intros -> Hc He. pose proof (digit_text c r Hc) as Hn. unfold taken_first in Hn. cbn [In] in Hn.
  apply closed_number; [intros E; apply Hn; auto | cbn [In]; tauto | done].
Qed.

Lemma int_shown v : 0 <= v <= max_int64 ->
  closed 0 (show 0 (TInt v)) (embed (TInt v)).
Proof.
  intros Hv. destruct (digits_first (dec_string v)) as (c & r & E & Hc);
    [apply dec_string_nonempty; lia | apply dec_string_digits; lia |].
  by apply (number_shown _ _ c r), parse_int_text.
Qed.

Lemma decimal_shown u s : 0 <= u < 10 ^ MaxPrecision -> 1 <= s <= MaxScale ->
  closed 0 (show 0 (TDec u s)) (embed (TDec u s)).
Proof.
  intros Hu Hs. destruct (formatFixed_plain u false s) as (i & f & E & (Hne & Hi & _) & _); [lia | lia |].
  destruct (digits_first i Hne Hi) as (c & r & -> & Hc).
  by apply (number_shown _ _ c (r +:+ match f with EmptyString => "" | _ => String "." f end)), parse_decimal_text.
Qed.

Lemma not_in_existsb s l : existsb (String.eqb s) l = false -> ~ In s l.
Proof.
  intros H Hin. apply not_true_iff_false in H. apply H, existsb_exists. exists s. by rewrite String.eqb_refl.
Qed.

(** Every tree the grammar can express is what its tokens read as. *)
Lemma terms_shown t : term_wf t = true -> shown_open t.
Proof.
  induction t as [t Ha | t IH | t IH | o a b IHa IHb | f args IH] using term_rect'; cbn [term_wf]; intros Hwf.
  - apply shown_atom; [by destruct t | by destruct t |].
    destruct t; try done; cbn [term_wf] in Hwf; rewrite ?andb_true_iff, ?Z.leb_le, ?Z.ltb_lt in Hwf.
    + by apply int_shown.
    + apply decimal_shown; tauto.
    + apply negb_true_iff, not_in_existsb in Hwf. by apply closed_string.
    + apply closed_bool.
    + apply closed_null.
    + by apply closed_var.
  - apply shown_atom; [done | done |]. apply closed_not, IH; [done | lia].
  - apply shown_atom; [done | done |]. apply closed_neg, IH; [done | lia].
  - rewrite !andb_true_iff, negb_true_iff, Nat.eqb_neq in Hwf. destruct Hwf as [[Ho Hwa] Hwb].
    apply shown_bin; [done | by apply IHa | by apply IHb].
  - apply andb_true_iff in Hwf as [Hf Hargs]. apply shown_atom; [done | done |]. cbn [show embed].
    rewrite forallb_forall in Hargs. rewrite List.Forall_forall in IH.
    apply closed_call; [done | |].
    + assert (HF : Forall (fun t => closed 5 (show 5 t) (embed t)) args)
        by (apply List.Forall_forall; intros t Ht; apply (IH t Ht (Hargs t Ht)); lia).
      clear -HF. induction HF; constructor; done.
    + apply List.Forall_map, List.Forall_forall. intros t Ht. apply show_nonempty.
Qed.

(** * What the lexer produces *)

Definition number_text (s : string) : Prop :=
  exists i f, i <> EmptyString /\ str_forall is_digit i = true /\ str_forall is_digit f = true /\
    (s = i \/ s = (i +:+ String "." f)).

Definition op_texts : list string :=
  ["&&"; "||"; "=="; "!="; "<="; ">="; "("; ")"; "+"; "-"; "*"; "/"; "!"; "<"; ">"; ","]%string.

(** The tokens that lex back from their written form. *)
Definition lexable (k : shape) : Prop :=
  (k.1 = "ident"%string /\ ident k.2 = true) \/ (k.1 = "number"%string /\ number_text k.2) \/
  k.1 = "string"%string \/ (k.1 = "op"%string /\ In k.2 op_texts).

Lemma lexable_op text : In text op_texts -> lexable (op_shape text).
Proof. intros H. do 3 right. done. Qed.

Lemma lexable_name x : name_ok x = true -> lexable ("ident"%string, x).
Proof. intros H. apply andb_true_iff in H as [H _]. by left. Qed.

Lemma parens_lexable ks : Forall lexable ks -> Forall lexable (parens ks).
Proof.
  intros H. constructor; [apply lexable_op; cbn; tauto|]. apply Forall_app_2; [done|].
  constructor; [apply lexable_op; cbn; tauto | constructor].
Qed.

Lemma commas_lexable kss : Forall (Forall lexable) kss -> Forall lexable (commas (guarded kss)).
Proof.
  intros H. assert (Hg : Forall (Forall lexable) (guarded kss)).
  { destruct H as [|ks kss Hk Hks]; [constructor|]. destruct ks as [|[kind text] ks]; [by constructor|].
    cbn [guarded]. destruct (String.eqb text ")"); constructor; try done. by apply parens_lexable. }
  induction Hg as [|ks kss' Hk Hks IH]; [constructor|]. destruct kss' as [|ks' kss']; [done|].
  change (commas (ks :: ks' :: kss')) with (ks ++ op_shape "," :: commas (ks' :: kss')).
  apply Forall_app_2; [done|]. constructor; [apply lexable_op; cbn; tauto | done].
Qed.

Lemma show_lexable t : term_wf t = true -> forall n, Forall lexable (show n t).
Proof.
  induction t as [t Ha | t IH | t IH | o a b IHa IHb | f args IH] using term_rect'; cbn [term_wf]; intros Hwf n.
  - destruct t; try done; cbn [show]; (constructor; [|constructor]); cbn [term_wf] in Hwf;
      rewrite ?andb_true_iff, ?Z.leb_le, ?Z.ltb_lt in Hwf.
    + right; left. split; [done|]. exists (dec_string v), EmptyString.
      split; [apply dec_string_nonempty; lia|]. split; [apply dec_string_digits; lia|]. split; [done | by left].
    + right; left. split; [done|]. destruct (formatFixed_plain unscaled false scale) as (i & f & E & (Hne & Hi & Hf) & _ & Hl); [lia | lia |].
      exists i, f. cbn [snd]. rewrite E. split; [done|]. split; [done|]. split; [done|]. right.
      unfold plain_text. destruct f; [unfold len in Hl; cbn in Hl; lia | done].
    + right; right; by left.
    + left. by destruct b.
    + by left.
    + by apply lexable_name.
  - constructor; [apply lexable_op; cbn; tauto | by apply IH].
  - constructor; [apply lexable_op; cbn; tauto | by apply IH].
  - rewrite !andb_true_iff, negb_true_iff, Nat.eqb_neq in Hwf. destruct Hwf as [[Ho Hwa] Hwb]. cbn [show].
    assert (H : Forall lexable (show (loose o) a ++ op_shape (op_text o) :: show (pred (loose o)) b)).
    { apply Forall_app_2; [by apply IHa|]. constructor; [apply lexable_op; destruct o; cbn; tauto || done | by apply IHb]. }
    destruct (_ <=? _)%nat; [done | by apply parens_lexable].
  - apply andb_true_iff in Hwf as [Hf Hargs]. cbn [show]. rewrite forallb_forall in Hargs. rewrite List.Forall_forall in IH.
    constructor; [by apply lexable_name|]. constructor; [apply lexable_op; cbn; tauto|].
    apply Forall_app_2; [|constructor; [apply lexable_op; cbn; tauto | constructor]].
    apply commas_lexable, List.Forall_map, List.Forall_forall. intros t Ht. by apply IH, Hargs.
Qed.

Lemma lexable_kind k : lexable k -> k.1 <> "eof"%string.
Proof. intros [[-> _]|[[-> _]|[->|[-> _]]]]; done. Qed.

(** Parsing the tokens of a tree, up to the end-of-input token, gives the tree. *)
Lemma parse_shown t p q : term_wf t = true ->
  expressionParser_parse (place p (show 5 t) ++ [mkToken "eof" "" q]) = Ok (embed t).
Proof.
  intros Hwf. destruct (terms_shown t Hwf) as [Hc _]. specialize (Hc 5%nat (le_n 5)).
  pose proof (show_lexable t Hwf 5) as Hl. pose proof (show_nonempty 5 t) as Hne.
  set (ks := show 5 t) in *. unfold expressionParser_parse. rewrite <- levels_parseOr.
  rewrite Hc; [|rewrite length_app, place_length; done |].
  - destruct ks as [|k ks]; [done|]. inversion Hl; subst. cbn [place app current mbind outcome_bind tok_kind].
    rewrite (proj2 (String.eqb_neq k.1 "eof")) by (by apply lexable_kind). done.
  - split; [done|]. intros m Hm. do 6 (destruct m as [|m]; [done|]). lia.
Qed.

(** The largest source the decimal parser's scale, an [int32], is sure to hold. *)
Definition source_limit : Z := 2 ^ 31.

Section parses.
(** [huge] stands for the sources over the limit. *)
Context (huge : Prop).

Definition tok_ok (t : expressionToken) : Prop :=
  (tok_kind t = "ident"%string /\ ident (tok_text t) = true \/
   tok_kind t = "number"%string /\ number_text (tok_text t) /\ (len (tok_text t) < source_limit \/ huge) \/
   tok_kind t = "string"%string \/ tok_kind t = "op"%string).

Inductive tokens_ok : list expressionToken -> Prop :=
  | tokens_eof p : tokens_ok [mkToken "eof" "" p]
  | tokens_cons t ts : tok_ok t -> tokens_ok ts -> tokens_ok (t :: ts).

(** A result of a parser on [n] tokens. *)
Definition grammatical (e : Expr) : Prop := exists t, term_wf t = true /\ e = embed t.
Definition fine (n : nat) (r : parsed) : Prop :=
  match r with
  | Ok (e, ts) => grammatical e /\ tokens_ok ts /\ (length ts < n)%nat
  | Err _ => True
  | Panic => huge
  end.

Lemma decimal_empty_fraction i s : i <> EmptyString -> str_forall is_digit i = true ->
  exists e, NewDecimal (i +:+ ".") s RoundingHalfEven = Err e.
Proof.
  intros Hne Hi. unfold NewDecimal.
  destruct (checkScale s) as [[]|e|] eqn:Es; [|eauto | unfold checkScale, fail_if in Es; by destruct (_ || _)].
  cbn [mbind outcome_bind]. change (checkMode RoundingHalfEven) with (@Ok values_err unit tt). cbn [mbind outcome_bind].
  destruct (digits_first i Hne Hi) as (c & r & -> & Hc). unfold parseFixedText.
  cbn [String.append]. rewrite digit_no_minus by done.
  destruct (existsb _ _); [eauto|]. cbn [String.eqb].
  change (String c (r +:+ ".")) with (String c r +:+ String "." "").
  rewrite str_cut_here by (apply digits_contain; done). cbn. eauto.
Qed.

Lemma number_fine s : number_text s -> (len s < source_limit \/ huge) ->
  match parse_number s with Ok e => grammatical e | Err _ => True | Panic => huge end.
Proof.
  intros (i & f & Hne & Hi & Hf & [->| ->]) Hl.
  - unfold parse_number. rewrite digits_contain by done. pose proof (dec_value_bound i Hi).
    destruct (Z.ltb_spec max_int64 (dec_value i 0)); [done|].
    exists (TInt (dec_value i 0)). split; [|done]. cbn. rewrite andb_true_iff, !Z.leb_le. lia.
  - rewrite parse_number_point by done. destruct f as [|c f].
    { destruct (decimal_empty_fraction i (to_int32 (len "")) Hne Hi) as [e ->]. done. }
    set (g := String c f) in *. assert (Hp : plain_digits i g) by done.
    change (i +:+ String "." g) with (sign_text false +:+ plain_text i g).
    assert (1 <= len g) by (unfold g, len; cbn [String.length]; lia).
    destruct (checkScale (to_int32 (len g))) as [u|e|] eqn:Es;
      [|by unfold NewDecimal; rewrite Es | unfold checkScale, fail_if in Es; by destruct (_ || _)].
    apply checkScale_inv in Es. destruct (Z.le_gt_cases (len g) (to_int32 (len g))) as [Hle|Hgt].
    + rewrite NewDecimal_plain by done. cbv zeta. cbn [andb].
      pose proof (dec_value_bound (i +:+ g)) as Hb. rewrite str_forall_app, Hi, Hf in Hb. specialize (Hb eq_refl).
      set (v := dec_value (i +:+ g) 0 * _). assert (0 <= v) by (apply Z.mul_nonneg_nonneg; [lia | apply Z.pow_nonneg; lia]).
      destruct (Z.ltb_spec v (10 ^ MaxPrecision)); [|done].
      exists (TDec v (to_int32 (len g))). split; [|done].
      cbn [term_wf]. rewrite !andb_true_iff, !Z.leb_le, Z.ltb_lt. lia.
    + unfold NewDecimal. rewrite (proj2 (checkScale_ok _) Es).
      change (checkMode RoundingHalfEven) with (@Ok values_err unit tt). cbn [mbind outcome_bind].
      rewrite (parse_plain false i g Hp). cbn [mbind outcome_bind]. rewrite Z.ltb_irrefl.
      unfold go_repeat. rewrite (proj2 (Z.ltb_lt _ _)) by lia. cbn [mbind outcome_bind map_err].
      destruct Hl as [Hl|]; [|done]. rewrite len_append in Hl. pose proof (len_nonneg i).
      change (len (String "." g)) with (len (String "." g)) in Hl.
      assert (len (String "." g) = 1 + len g) by (unfold len; cbn [String.length]; lia).
      rewrite to_int32_small in Hgt by (unfold source_limit in Hl; lia). lia.
Qed.
End parses.

Section sound.
Context (huge : Prop).
Local Abbreviation tokens_ok := (tokens_ok huge).
Local Abbreviation fine := (fine huge).

Lemma tokens_current ts : tokens_ok ts -> exists t r, ts = t :: r /\
  (tok_ok huge t /\ tokens_ok r \/ tok_kind t = "eof"%string /\ tok_text t = ""%string /\ r = []).
Proof. intros [p|t r Ht Hr]; eauto 10. Qed.

(** What [take] leaves, and what it says of the current token when it does not take. *)
Lemma take_fine text ts : text <> ""%string -> tokens_ok ts ->
  (exists t r, ts = t :: r /\ take_token text ts = Ok (Some r) /\ tokens_ok r) \/
  (exists t r, ts = t :: r /\ take_token text ts = Ok None /\ tok_text t <> text).
Proof.
  intros Hne H. destruct (tokens_current ts H) as (t & r & -> & Ht).
  destruct (decide (tok_text t = text)) as [E|E].
  - left. exists t, r. split; [done|]. split; [by apply take_hit|]. destruct Ht as [[_ ?]|(_ & E' & _)]; [done | congruence].
  - right. exists t, r. split; [done|]. split; [by apply take_miss | done].
Qed.

Lemma fine_bind n m (r : parsed) (k : Expr * list expressionToken -> parsed) :
  fine m r -> (forall e ts, grammatical e -> tokens_ok ts -> (length ts < m)%nat -> fine n (k (e, ts))) -> fine n (r ≫= k).
Proof. destruct r as [[e ts]|e|]; cbn; [|done..]. intros (He & Hts & Hl) H. by apply H. Qed.

Lemma grammatical_unary o e : (o = UnaryOpNot \/ o = UnaryOpNegate) -> grammatical e -> grammatical (Unary o e).
Proof. intros [-> | ->] (t & Ht & ->); [by exists (TNot t) | by exists (TNeg t)]. Qed.

Lemma grammatical_binary o a b : loose o <> O -> grammatical a -> grammatical b -> grammatical (Binary o a b).
Proof.
  intros Ho (t & Ht & ->) (u & Hu & ->). exists (TBin o t u). split; [|done]. cbn [term_wf].
  rewrite Ht, Hu, (proj2 (Nat.eqb_neq _ _) Ho). done.
Qed.

Lemma grammatical_call f es : name_ok f = true -> Forall grammatical es -> grammatical (Call f es).
Proof.
  intros Hf Hes. assert (exists ts, forallb term_wf ts = true /\ es = List.map embed ts) as (ts & Hts & ->).
  { induction Hes as [|e es (t & Ht & ->) _ (ts & Hts & ->)]; [by exists []|].
    exists (t :: ts). cbn. by rewrite Ht, Hts. }
  exists (TCall f ts). cbn [term_wf embed]. by rewrite Hf, Hts.
Qed.

Lemma find_op_loose n text o : find_op (ops_at n) text = Some o -> loose o <> O.
Proof.
  do 6 (destruct n as [|n]; [cbn -[String.eqb]; repeat (destruct (String.eqb _ _); [by intros [= <-]|]); done|]). done.
Qed.

Lemma loop_fine n k (next : list expressionToken -> parsed) b e ts :
  (forall ts, tokens_ok ts -> (length ts <= b)%nat -> fine (length ts) (next ts)) ->
  (length ts <= k)%nat -> (length ts <= b)%nat -> grammatical e -> tokens_ok ts ->
  forall m, (length ts < m)%nat -> fine m (binary_loop k (ops_at n) next e ts).
Proof.
  intros Hn. revert e ts. induction k as [|k IH]; intros e ts Hk Hb He Hts m Hm.
  - destruct (tokens_current ts Hts) as (t & r & -> & _). cbn in Hk. lia.
  - cbn [binary_loop]. destruct (tokens_current ts Hts) as (t & r & -> & Ht). cbn [current mbind outcome_bind length tail] in *.
    destruct (find_op (ops_at n) (tok_text t)) as [o|] eqn:Eo; [|done].
    destruct Ht as [[_ Hr]|(_ & Et & _)].
    + apply (fine_bind _ (length r)); [apply Hn; [done | lia]|]. intros e' ts' He' Hts' Hl.
      apply IH; [lia | lia | apply grammatical_binary; [by eapply find_op_loose | done | done] | done | lia].
    + rewrite Et in Eo. by do 6 (destruct n as [|n]; [done|]).
Qed.

Lemma fine_le n m r : fine n r -> (n <= m)%nat -> fine m r.
Proof. destruct r as [[e ts]| |]; cbn; [|done..]. intros (He & Hts & Hl) H. split; [done|]. split; [done | lia]. Qed.

Lemma level_fine fuel n : (forall ts, tokens_ok ts -> (length ts <= fuel)%nat -> fine (length ts) (parseUnary fuel ts)) ->
  forall ts, tokens_ok ts -> (length ts <= fuel)%nat -> fine (length ts) (level fuel n ts).
Proof.
  intros Hu. induction n as [|n IH]; [done|]. intros ts Hts Hl. cbn [level]. unfold parseBinary.
  apply (fine_bind _ (length ts)); [by apply IH|]. intros e ts' He Hts' Hl'.
  apply (loop_fine _ _ _ fuel); [done | lia | lia | done | done | lia].
Qed.

Lemma args_fine (next : list expressionToken -> parsed) b k acc ts m :
  (forall ts, tokens_ok ts -> (length ts <= b)%nat -> fine (length ts) (next ts)) ->
  tokens_ok ts -> (length ts <= b)%nat -> (length ts <= k)%nat -> (length ts < m)%nat -> Forall grammatical acc ->
  match parse_args k next acc ts with
  | Ok (es, ts') => Forall grammatical es /\ tokens_ok ts' /\ (length ts' < m)%nat
  | Err _ => True
  | Panic => huge
  end.
Proof.
  intros Hn. revert acc ts. induction k as [|k IH]; intros acc ts Hts Hb Hk Hm Hacc.
  - destruct (tokens_current ts Hts) as (t & r & -> & _). cbn in Hk. lia.
  - cbn [parse_args]. pose proof (Hn ts Hts Hb) as H. destruct (next ts) as [[e ts1]|e|]; cbn [mbind outcome_bind]; [|done..].
    destruct H as (He & Hts1 & Hl). assert (Hacc' : Forall grammatical (acc ++ [e])) by (apply Forall_app_2; [done | by constructor]).
    destruct (take_fine ")" ts1) as [(t & r & -> & -> & Hr)|(t & r & E & -> & _)]; [done | done | |].
    + cbn [mbind outcome_bind]. cbn [length] in Hl. split; [done|]. split; [done | lia].
    + cbn [mbind outcome_bind].
      destruct (take_fine "," ts1) as [(t' & r' & -> & -> & Hr)|(t' & r' & _ & -> & _)]; [done | done | | done].
      cbn [mbind outcome_bind]. cbn [length] in Hl. apply IH; [done | lia | lia | lia | done].
Qed.

Lemma ident_name x : ident x = true -> x <> "true"%string -> x <> "false"%string -> x <> "null"%string -> name_ok x = true.
Proof.
  intros Hx H1 H2 H3. unfold name_ok, keyword. cbn [existsb]. rewrite Hx, !(proj2 (String.eqb_neq x _)) by done. done.
Qed.

Lemma primary_fine fuel ts : (forall ts, tokens_ok ts -> (length ts <= fuel)%nat -> fine (length ts) (level fuel 5 ts)) ->
  tokens_ok ts -> (length ts <= S fuel)%nat ->
  match ts with t :: _ => tok_text t <> "!"%string /\ tok_text t <> "-"%string | [] => True end ->
  fine (length ts) (parsePrimary fuel (level fuel 5) ts).
Proof.
  intros Hn Hts Hl Hh. destruct (tokens_current ts Hts) as (t & r & -> & Ht). unfold parsePrimary.
  cbn [current mbind outcome_bind length tail] in *.
  destruct (take_fine "(" (t :: r)) as [(t0 & r0 & E & -> & Hr)|(t0 & r0 & E & -> & Hne)]; [done | done | |];
    apply cons_eq_inv in E as [<- <-]; cbn [mbind outcome_bind].
  - apply (fine_bind _ (length r)); [apply Hn; [done | lia]|]. intros e ts2 He Hts2 Hl2.
    destruct (take_fine ")" ts2) as [(t3 & ts3 & -> & -> & Hts3)|(t3 & ts3 & _ & -> & _)]; [done | done | | done].
    cbn [mbind outcome_bind length] in *. split; [done|]. split; [done | lia].
  - destruct Ht as [[Ht Hr]|(-> & _ & _)]; [|done].
    destruct Ht as [[-> Hid]|[(-> & Hnum & Hlim)|[-> | ->]]]; cbn [String.eqb Ascii.eqb Bool.eqb].
    + destruct (String.eqb_spec (tok_text t) "true"); [split; [by exists (TBool true) | split; [done | lia]]|].
      destruct (String.eqb_spec (tok_text t) "false"); [split; [by exists (TBool false) | split; [done | lia]]|].
      destruct (String.eqb_spec (tok_text t) "null"); [split; [by exists TNull | split; [done | lia]]|].
      assert (Hx : name_ok (tok_text t) = true) by (by apply ident_name).
      destruct (take_fine "(" r) as [(t1 & r1 & -> & -> & Hr1)|(t1 & r1 & _ & -> & _)]; [done | done | |]; cbn [mbind outcome_bind length] in *.
      * destruct (take_fine ")" r1) as [(t2 & r2 & -> & -> & Hr2)|(t2 & r2 & _ & -> & _)]; [done | done | |]; cbn [mbind outcome_bind length] in *.
        -- split; [by apply grammatical_call|]. split; [done | lia].
        -- pose proof (args_fine (level fuel 5) fuel fuel [] r1 (S (length r1)) Hn Hr1
             ltac:(lia) ltac:(lia) ltac:(lia) (Forall_nil_2 _)) as Ha.
           destruct (parse_args _ _ _ _) as [[es ts']|e|]; cbn [mbind outcome_bind]; [|done..].
           destruct Ha as (Hes & Hts' & Hl'). split; [by apply grammatical_call|]. split; [done | lia].
      * split; [by exists (TVar (tok_text t))|]. split; [done | lia].
    + pose proof (number_fine huge (tok_text t) Hnum Hlim) as H.
      destruct (parse_number (tok_text t)) as [e|e|]; cbn [mbind outcome_bind]; [|done..]. split; [done|]. split; [done | lia].
    + split; [|split; [done | lia]]. exists (TStr (tok_text t)). split; [|done]. cbn [term_wf taken_first existsb].
      rewrite !(proj2 (String.eqb_neq (tok_text t) _)) by tauto. done.
    + done.
Qed.

Lemma unary_fine fuel ts : tokens_ok ts -> (length ts <= fuel)%nat -> fine (length ts) (parseUnary fuel ts).
Proof.
  revert ts. induction fuel as [|fuel IH]; intros ts Hts Hl; destruct (tokens_current ts Hts) as (t & r & -> & Ht);
    cbn [length] in *; [lia|]. cbn [parseUnary].
  destruct (take_fine "!" (t :: r)) as [(t0 & r0 & E & -> & Hr)|(t0 & r0 & E & -> & Hn)]; [done | done | |];
    apply cons_eq_inv in E as [<- <-]; cbn [mbind outcome_bind].
  { apply (fine_bind _ (length r)); [apply IH; [done | lia]|]. intros e ts2 He Hts2 Hl2.
    split; [apply grammatical_unary; auto | split; [done | lia]]. }
  destruct (take_fine "-" (t :: r)) as [(t0 & r0 & E & -> & Hr)|(t0 & r0 & E & -> & Hm)]; [done | done | |];
    apply cons_eq_inv in E as [<- <-]; cbn [mbind outcome_bind].
  { apply (fine_bind _ (length r)); [apply IH; [done | lia]|]. intros e ts2 He Hts2 Hl2.
    split; [apply grammatical_unary; auto | split; [done | lia]]. }
  apply (primary_fine fuel (t :: r)); [|done | cbn [length]; lia | done].
  intros ts' Hts' Hl'. by apply level_fine.
Qed.

(** Whatever tokens the lexer makes, the parse is a tree of the grammar, an
    error, or - on a source over the limit only - a panic. *)
Lemma parse_fine ts : tokens_ok ts ->
  match expressionParser_parse ts with Ok e => grammatical e | Err _ => True | Panic => huge end.
Proof.
  intros Hts. destruct (tokens_current ts Hts) as (t & r & E & _). unfold expressionParser_parse.
  assert (Hc : current ts = Ok t) by (by rewrite E). rewrite Hc. cbn [mbind outcome_bind]. destruct (String.eqb (tok_kind t) "eof"); [done|]. cbn [fail_if mbind outcome_bind].
  rewrite <- levels_parseOr. clear E.
  pose proof (level_fine (length ts) 5 (unary_fine (length ts)) ts Hts (le_n _)) as H.
  destruct (level _ _ _) as [[e ts']|e|]; cbn [mbind outcome_bind]; [|done..]. destruct H as (He & Hts' & _).
  destruct (tokens_current ts' Hts') as (t' & r' & -> & _). cbn [current mbind outcome_bind].
  by destruct (String.eqb (tok_kind t') "eof").
Qed.
End sound.
