(* ===== verification/ExpressionLexing.v ===== *)
(** The lexer of [ExpressionParse]: its tokens are well formed and it never
    panics; the written form of a tree lexes back to the tree's tokens. *)

From S2P Require Import Prelude GoStrings Sorting CanonicalBytes FixedDecimal CivilTime RuleValues Expression ExpressionParse ExpressionGrammar.

Local Open Scope Z_scope.

Lemma str_span_spec p s a b : str_span p s = (a, b) -> s = (a +:+ b) /\ str_forall p a = true.
Proof.
  revert a b. induction s as [|c s IH]; intros a b; cbn [str_span]; [by intros [= <- <-]|].
  destruct (p c) eqn:Hc; [|by intros [= <- <-]]. destruct (str_span p s) as [a' b'].
  intros [= <- <-]. destruct (IH a' b' eq_refl) as [-> Ha]. cbn. by rewrite Hc, Ha.
Qed.

Lemma str_span_app p a c r : str_forall p a = true -> p c = false -> str_span p (a +:+ String c r) = (a, String c r).
Proof.
  intros Ha Hc. induction a as [|d a IH]; cbn [String.append str_span str_forall] in *; [by rewrite Hc|].
  apply andb_true_iff in Ha as [Hd Ha]. by rewrite Hd, (IH Ha).
Qed.

Lemma append_length_le a b : (String.length b <= String.length (a +:+ b))%nat.
Proof. rewrite append_length. lia. Qed.

Lemma scan_string_rest q e s body rest : scan_string q e s = Some (body, rest) -> (String.length rest < String.length s)%nat.
Proof.
  revert e body. induction s as [|c s IH]; intros e body; cbn [scan_string]; [done|].
  destruct (negb e && Ascii.eqb c q); [intros [= _ <-]; cbn; lia|].
  destruct (scan_string q _ s) as [[b r]|] eqn:E; cbn; [|done]. intros [= _ <-]. apply IH in E. lia.
Qed.

(** * Well-formed tokens *)

Section sound.
Context (huge : Prop).

Lemma scan_number_spec c r a b : is_digit c = true -> scan_number (String c r) = (a, b) ->
  number_text a /\ String c r = (a +:+ b) /\ (String.length b <= String.length r)%nat.
Proof.
  intros Hc. unfold scan_number. cbn [str_span]. rewrite Hc.
  destruct (str_span is_digit r) as [i s] eqn:E. apply str_span_spec in E as [-> Hi].
  assert (Hd : str_forall is_digit (String c i) = true) by (cbn; by rewrite Hc, Hi).
  destruct s as [|d s].
  { intros [= <- <-]. split; [|split; [done | apply append_length_le]].
    exists (String c i), EmptyString. do 3 (split; [done|]). by left. }
  destruct (Ascii.eqb_spec d "."); [subst d | intros [= <- <-]].
  - destruct (str_span is_digit s) as [f s2] eqn:E. apply str_span_spec in E as [-> Hf]. intros [= <- <-].
    split; [|split].
    + exists (String c i), f. do 3 (split; [done|]). by right.
    + cbn [String.append]. by rewrite append_assoc.
    + rewrite append_length. cbn [String.length]. rewrite append_length. lia.
  - split; [|split; [done | apply append_length_le]].
    exists (String c i), EmptyString. do 3 (split; [done|]). by left.
Qed.

(** One token: its text is no longer than the source and the rest is shorter. *)
Lemma lex_one_fine c r : (len (String c r) < source_limit \/ huge) ->
  match lex_one c r with
  | Ok (kind, text, rest) => (forall p, tok_ok huge (mkToken kind text p)) /\ (String.length rest <= String.length r)%nat
  | Err _ => True
  | Panic => False
  end.
Proof.
  intros Hlim. unfold lex_one. destruct (rune_letter c || Ascii.eqb c "_") eqn:Hl.
  { destruct (str_span ident_char r) as [a b] eqn:E. apply str_span_spec in E as [-> Ha].
    split; [|apply append_length_le]. intros p. left. split; [done|]. cbn [tok_text ident]. by rewrite Hl, Ha. }
  destruct (is_digit c) eqn:Hd.
  { destruct (scan_number (String c r)) as [a b] eqn:E. apply (scan_number_spec c r a b Hd) in E as (Hn & E & Hb).
    split; [|done]. intros p. right; left. split; [done|]. split; [done|]. cbn [tok_text].
    rewrite E, len_append in Hlim. pose proof (len_nonneg b). destruct Hlim; [left; lia | by right]. }
  destruct (Ascii.eqb c quote_char || Ascii.eqb c "'").
  { destruct (scan_string c false r) as [[body rest]|] eqn:E; [|done]. apply scan_string_rest in E.
    destruct (strconv_Unquote _); [|done]. split; [|lia]. intros p. right; right; by left. }
  destruct (List.find _ two_char_ops) as [op|] eqn:E.
  { split; [intros p; do 3 right; done|]. apply List.find_some in E as [Hin _].
    rewrite str_drop_length. cbn [String.length].
    cbn in Hin. repeat destruct Hin as [<-|Hin]; cbn [String.length]; lia || done. }
  destruct (str_contains c one_char_ops); [|done]. split; [|lia]. intros p. do 3 right. done.
Qed.

Lemma lex_loop_fine fuel source size : (String.length source <= fuel)%nat -> (len source < source_limit \/ huge) ->
  match lex_loop fuel source size with Ok ts => tokens_ok huge ts | Err _ => True | Panic => False end.
Proof.
  revert source. induction fuel as [|fuel IH]; intros source Hf Hlim.
  - destruct source; [constructor | cbn in Hf; lia].
  - destruct source as [|c r]; [constructor|]. cbn [lex_loop String.length] in *.
    assert (Hr : forall s, (String.length s <= String.length r)%nat -> len s < source_limit \/ huge).
    { intros s Hs. unfold len in *. cbn [String.length] in Hlim. destruct Hlim; [left; lia | by right]. }
    destruct (rune_space c); [apply IH; [lia | by apply Hr]|].
    pose proof (lex_one_fine c r Hlim) as H. destruct (lex_one c r) as [[[kind text] rest]|e|]; cbn [mbind outcome_bind]; [|done..].
    destruct H as [Hk Hl]. pose proof (IH rest ltac:(lia) (Hr rest Hl)) as H.
    destruct (lex_loop fuel rest size); cbn [mbind outcome_bind]; [|done..]. by constructor.
Qed.
End sound.

(** * The written form of a token lexes back *)

Lemma ident_char_space : ident_char " " = false.
Proof. reflexivity. Qed.

Lemma unhex_digit d : 0 <= d < 16 -> unhex (hex_digit d) = Some d.
Proof.
  intros Hd. assert (H : d = Z.of_nat (Z.to_nat d)) by lia. rewrite H.
  assert (Hn : (Z.to_nat d < 16)%nat) by lia. revert Hn. generalize (Z.to_nat d) as n. intros n Hn.
  do 16 (destruct n as [|n]; [reflexivity|]). lia.
Qed.

(** An escaped byte, scanned and unquoted. *)
Lemma scan_hex s rest : scan_string quote_char false (hex_text s +:+ String quote_char rest) = Some (hex_text s, rest).
Proof.
  induction s as [|c s IH]; [done|]. cbn [hex_text]. unfold hex_escape at 1. cbn [String.append].
  assert (Hd : forall d, 0 <= d < 16 -> Ascii.eqb (hex_digit d) quote_char = false /\ Ascii.eqb (hex_digit d) backslash = false).
  { intros d Hd. assert (H : d = Z.of_nat (Z.to_nat d)) by lia. rewrite H.
    assert (Hn : (Z.to_nat d < 16)%nat) by lia. revert Hn. generalize (Z.to_nat d) as n. intros n Hn.
    do 16 (destruct n as [|n]; [done|]). lia. }
  pose proof (byte_of_range c) as Hb.
  destruct (Hd (byte_of c / 16)) as [Hq1 Hs1]; [div_lia|]. destruct (Hd (byte_of c mod 16)) as [Hq2 Hs2]; [div_lia|].
  cbn [scan_string negb andb]. change (Ascii.eqb backslash quote_char) with false. change (Ascii.eqb backslash backslash) with true.
  change (Ascii.eqb "x" quote_char) with false. change (Ascii.eqb "x" backslash) with false.
  cbn [negb andb]. rewrite Hq1, Hs1, Hq2, Hs2. cbn [negb andb].
  rewrite IH. reflexivity.
Qed.

Lemma unquote_hex fuel s acc : (4 * String.length s < fuel)%nat ->
  unquote_loop fuel (hex_text s +:+ str1 34) acc = Some (acc +:+ s, EmptyString).
Proof.
  revert fuel acc. induction s as [|c s IH]; intros [|fuel] acc Hf; cbn [String.length] in Hf; try lia.
  - by rewrite append_nil_r.
  - cbn [hex_text]. unfold hex_escape at 1. cbn [String.append unquote_loop].
    change (Ascii.eqb backslash quote_char) with false. change (Ascii.eqb backslash newline) with false.
    pose proof (byte_of_range c) as Hb.
    assert (Hu : forall r, unquote_char (String backslash (String "x" (String (hex_digit (byte_of c / 16)) (String (hex_digit (byte_of c mod 16)) r))))
                 = Some (str1 (byte_of c), r)).
    { intros r. unfold unquote_char. change (128 <=? byte_of backslash) with false. change (Ascii.eqb backslash backslash) with true.
      cbn [negb Ascii.eqb Bool.eqb]. cbn [read_hex]. rewrite !unhex_digit by div_lia. cbn [mbind option_bind].
      cbn [mbind option_bind read_hex]. do 3 f_equal. div_lia. }
    rewrite Hu. cbn [mbind option_bind]. rewrite IH by lia. unfold str1. rewrite char_of_byte_of.
    by rewrite append_assoc.
Qed.

Definition class_of (c : ascii) : bool := rune_letter c || Ascii.eqb c "_".

Lemma digit_class c : is_digit c = true ->
  class_of c = false /\ rune_space c = false.
Proof.
  intros Hc. apply is_digit_range in Hc. unfold digit_value in Hc.
  unfold class_of, rune_letter, rune_space, is_upper, is_lower, in_range.
  change (byte_of "A") with 65. change (byte_of "Z") with 90. change (byte_of "a") with 97. change (byte_of "z") with 122.
  assert (Ascii.eqb c "_" = false) as -> by (destruct (Ascii.eqb_spec c "_") as [->|]; [change (byte_of "_") with 95 in Hc; lia | done]).
  split; repeat match goal with
    | |- context [?a <=? ?b] => first [destruct (Z.leb_spec a b); [lia|] | destruct (Z.leb_spec a b); [|lia]]
    | |- context [?a =? ?b] => destruct (Z.eqb_spec a b); [lia|]
    end; cbn; try done; try lia.
Qed.

Lemma class_space c : class_of c = true -> rune_space c = false.
Proof.
  unfold class_of, rune_letter, rune_space, is_upper, is_lower, in_range. intros H.
  destruct (Ascii.eqb_spec c "_") as [E|_]; [by rewrite E|].
  change (byte_of "A") with 65 in H. change (byte_of "Z") with 90 in H. change (byte_of "a") with 97 in H. change (byte_of "z") with 122 in H.
  rewrite !orb_false_iff, andb_false_iff, !Z.eqb_neq, !Z.leb_gt.
  rewrite orb_false_r, !orb_true_iff, !andb_true_iff, !Z.leb_le, !Z.eqb_eq in H. lia.
Qed.

Lemma lex_ident c a rest : class_of c = true -> str_forall ident_char a = true ->
  lex_one c (a +:+ String " " rest) = Ok ("ident"%string, String c a, String " " rest).
Proof.
  intros Hc Ha. unfold lex_one. fold (class_of c). by rewrite Hc, str_span_app.
Qed.

Lemma lex_number c a rest : is_digit c = true -> number_text (String c a) ->
  lex_one c (a +:+ String " " rest) = Ok ("number"%string, String c a, String " " rest).
Proof.
  intros Hc (i & f & Hne & Hi & Hf & E). unfold lex_one. fold (class_of c).
  destruct (digit_class c Hc) as [-> _]. rewrite Hc. unfold scan_number.
  change (String c (a +:+ String " " rest)) with (String c a +:+ String " " rest). destruct E as [E|E]; rewrite E.
  - rewrite str_span_app by done. done.
  - rewrite append_assoc. cbn [String.append]. rewrite str_span_app by done. cbn [Ascii.eqb Bool.eqb].
    by rewrite str_span_app by done.
Qed.

Lemma lex_string s rest : lex_one quote_char (hex_text s +:+ str1 34 +:+ String " " rest) = Ok ("string"%string, s, String " " rest).
Proof.
  unfold lex_one. change (rune_letter quote_char || Ascii.eqb quote_char "_") with false. change (is_digit quote_char) with false.
  change (Ascii.eqb quote_char quote_char || Ascii.eqb quote_char "'") with true. change (Ascii.eqb quote_char "'") with false.
  cbv iota. change (str1 34 +:+ String " " rest) with (String quote_char (String " " rest)). rewrite scan_hex.
  unfold strconv_Unquote. change (Ascii.eqb quote_char quote_char) with true. cbv iota.
  change (hex_text s +:+ String quote_char "") with (hex_text s +:+ str1 34).
  rewrite unquote_hex; [done|]. rewrite append_length.
  assert (String.length (hex_text s) = (4 * String.length s)%nat) as ->; [|lia].
  induction s as [|c s IH]; [done|]. cbn [hex_text]. rewrite append_length, IH. cbn [hex_escape String.length]. lia.
Qed.

Lemma lex_op text rest : In text op_texts -> exists c r,
  text = String c r /\ rune_space c = false /\ lex_one c (r +:+ String " " rest) = Ok ("op"%string, text, String " " rest).
Proof.
  intros H. cbn in H. repeat destruct H as [<-|H]; try done;
    (eexists _, _; split; [reflexivity|]; split; reflexivity).
Qed.

(** A written token, followed by a blank, lexes to itself. *)
Lemma lex_written k rest : lexable k -> exists c r,
  written k = String c r /\ rune_space c = false /\
  lex_one c (r +:+ String " " rest) = Ok (k.1, k.2, String " " rest).
Proof.
  destruct k as [kind text]. unfold lexable, written. cbn [fst snd].
  intros [[-> H]|[[-> H]|[->|[-> H]]]]; cbn [String.eqb Ascii.eqb Bool.eqb].
  - destruct text as [|c r]; [done|]. cbn in H. apply andb_true_iff in H as [Hc Hr]. exists c, r.
    split; [done|]. split; [by apply class_space | by apply lex_ident].
  - pose proof H as (i & f & Hne & Hi & Hf & E). destruct (digits_first i Hne Hi) as (c & r & -> & Hc).
    assert (exists a, text = String c a) as [a ->] by (destruct E as [-> | ->]; cbn; eauto).
    exists c, a. split; [done|]. split; [by apply digit_class | by apply lex_number].
  - exists quote_char, (hex_text text +:+ str1 34). split; [done|]. split; [done|].
    rewrite append_assoc. apply lex_string.
  - destruct (lex_op text rest H) as (c & r & -> & Hs & E). exists c, r. done.
Qed.

Lemma lex_layout ks : Forall lexable ks -> forall fuel size, (String.length (layout ks) <= fuel)%nat ->
  lex_loop fuel (layout ks) size = Ok (place (size - len (layout ks)) ks ++ [mkToken "eof" "" size]).
Proof.
  induction 1 as [|k ks Hk Hks IH]; intros fuel size Hf; [by destruct fuel|].
  cbn [layout place] in *. rewrite append_length in Hf. cbn [String.length] in Hf.
  destruct (lex_written k (layout ks) Hk) as (c & r & E & Hs & Hl). rewrite E in *. cbn [String.length] in Hf.
  destruct fuel as [|[|fuel]]; [lia | lia |].
  change (String c r +:+ String " " (layout ks)) with (String c (r +:+ String " " (layout ks))).
  change (lex_loop (S (S fuel)) (String c (r +:+ String " " (layout ks))) size) with
    (if rune_space c then lex_loop (S fuel) (r +:+ String " " (layout ks)) size
     else '(kind, text, rest) ← lex_one c (r +:+ String " " (layout ks));
          tokens ← lex_loop (S fuel) rest size; Ok (mkToken kind text (size - len (String c (r +:+ String " " (layout ks)))) :: tokens)).
  rewrite Hs, Hl. cbn [mbind outcome_bind].
  change (lex_loop (S fuel) (String " " (layout ks)) size) with (lex_loop fuel (layout ks) size).
  rewrite IH by lia. cbn [mbind outcome_bind app]. do 4 f_equal.
  change (String c (r +:+ String " " (layout ks))) with (String c r +:+ String " " (layout ks)).
  rewrite len_append. unfold len. cbn [String.length]. lia.
Qed.
