(* ===== verification/ExpressionText.v ===== *)
(** Expression source text end to end: printing and parsing a tree, the shape
    of every parse, totality, and the texts the parser reads unexpectedly. *)

From S2P Require Import Prelude GoStrings Sorting CanonicalBytes FixedDecimal CivilTime RuleValues Expression ExpressionParse ExpressionGrammar ExpressionLexing.

Local Open Scope Z_scope.

(** What [Parse] makes of a root. *)
Definition bare (e : Expr) : Expression := mkExpression e [] [] "1" UnknownSemanticsUnspecified.

Lemma parse_text_print t : term_wf t = true -> Parse (print t) = Ok (bare (embed t)).
Proof.
  intros Hwf. unfold Parse, expressionLexer_lex, print.
  rewrite lex_layout by (done || by apply show_lexable). cbn [mbind outcome_bind].
  by rewrite parse_shown.
Qed.

Lemma parse_shape s (huge : Prop) : (len s < source_limit \/ huge) ->
  match Parse s with
  | Ok x => exists t, term_wf t = true /\ x = bare (embed t)
  | Err _ => True
  | Panic => huge
  end.
Proof.
  intros Hl. unfold Parse, expressionLexer_lex.
  pose proof (lex_loop_fine huge (String.length s) s (len s) (le_n _) Hl) as H.
  destruct (lex_loop _ _ _) as [ts|e|]; cbn [mbind outcome_bind]; [|done..].
  pose proof (parse_fine huge ts H) as Hp.
  destruct (expressionParser_parse ts) as [e|e|]; cbn [mbind outcome_bind]; [|done..].
  destruct Hp as (t & Ht & ->). by exists t.
Qed.

(** C26: the parser implements the expression grammar.  A tree printed with the
    fewest parentheses its operators' precedences and their left associativity
    allow - [||] loosest, then [&&], the comparisons, [+ -], [* /] and the
    unary operators - with its names, decimal numbers and escaped strings one
    blank apart, lexes and parses back to exactly that tree. *)
Theorem expression_parse_print t : term_wf t = true ->
  Parse (print t) = Ok (mkExpression (embed t) [] [] "1" UnknownSemanticsUnspecified).
Proof. intros Hwf. exact (parse_text_print t Hwf). Qed.

Definition sample : term :=
  TBin BinaryOpOr
    (TBin BinaryOpAnd (TBin BinaryOpLess (TBin BinaryOpSubtract (TVar "pay.base") (TBin BinaryOpSubtract (TInt 1) (TDec 250 2))) (TInt 7)) (TNot (TBool true)))
    (TCall "contains" [TStr "a"; TBin BinaryOpMultiply (TBin BinaryOpAdd (TInt 1) (TInt 2)) (TNeg (TVar "x"))]).

Lemma expression_parse_print_witness :
  print sample = ("pay.base - ( 1 - 2.50 ) < 7 && ! true || contains ( " +:+ str1 34 +:+ "\x61" +:+ str1 34 +:+ " , ( 1 + 2 ) * - x ) ")%string
  /\ Parse (print sample) = Ok (mkExpression (embed sample) [] [] "1" UnknownSemanticsUnspecified).
Proof. split; [reflexivity | apply (expression_parse_print sample); reflexivity]. Defined.

(** a parse is never outside the grammar and has a normal text: whatever
    source parses, to any expression, that expression is a tree of the grammar -
    names that are no keywords, integers of 64 bits, decimals of the scale they
    were written with - and the text printed from that tree parses to the same
    expression. *)
Theorem expression_normal_text s x : Parse s = Ok x ->
  exists t, term_wf t = true /\ x_Root x = embed t /\ Parse (print t) = Ok x.
Proof.
  intros H. pose proof (parse_shape s True (or_intror I)) as Hs. rewrite H in Hs.
  destruct Hs as (t & Ht & ->). exists t. split; [done|]. split; [done|]. by apply parse_text_print.
Qed.

Lemma expression_normal_text_witness :
  exists x t, Parse "a+b*c=='it'&&!(d)" = Ok x /\ term_wf t = true /\ x_Root x = embed t /\ Parse (print t) = Ok x.
Proof.
  eexists. destruct (expression_normal_text "a+b*c=='it'&&!(d)" _ eq_refl) as (t & H).
  exists t. split; [reflexivity | exact H].
Defined.

(** the lexer and the parser end and never panic on a source of fewer than
    2^31 bytes: each of the loops consumes a token or a byte, no token is read
    past the end of input, and the scale of a decimal, taken from the length of
    its fraction, fits the [int32] it is converted to. *)
Theorem expression_parse_total s : len s < 2 ^ 31 -> Parse s <> Panic.
Proof.
  intros Hl E. pose proof (parse_shape s False (or_introl Hl)) as H. by rewrite E in H.
Qed.

Lemma expression_parse_total_witness : len "f((1)," < 2 ^ 31 /\ Parse "f((1)," <> Panic.
Proof. split; [reflexivity | apply (expression_parse_total "f((1),"); reflexivity]. Defined.

(** texts the parser reads differently from what their tokens say.  A
    string literal whose value is an operator's text is taken for that operator
    ([a '&&' b] is a conjunction, [lower('(')] and [f(')')] are syntax errors
    while [f((')'))] is a call); an escaped apostrophe is scanned but refused;
    the least [int64] has no literal; a comparison chain associates to the
    left; bytes are classified one by one, so of the two-byte letters e with
    acute accent is refused, e with circumflex is a name, and a with grave
    accent is a one-byte name followed by a blank. *)
Theorem expression_text_edge_cases :
  Parse "a '&&' b" = Ok (bare (embed (TBin BinaryOpAnd (TVar "a") (TVar "b")))) /\
  Parse "lower('(')" = Err ErrExpressionSyntax /\
  Parse "f(')')" = Err ErrExpressionSyntax /\
  Parse "f((')'))" = Ok (bare (embed (TCall "f" [TStr ")"]))) /\
  Parse "'it\'s'" = Err ErrExpressionSyntax /\
  Parse "-9223372036854775808" = Err ErrExpressionValue /\
  Parse "a < b < c" = Ok (bare (embed (TBin BinaryOpLess (TBin BinaryOpLess (TVar "a") (TVar "b")) (TVar "c")))) /\
  Parse (str1 195 +:+ str1 169) = Err ErrExpressionSyntax /\
  Parse (str1 195 +:+ str1 170) = Ok (bare (embed (TVar (str1 195 +:+ str1 170)))) /\
  Parse (str1 195 +:+ str1 160) = Ok (bare (embed (TVar (str1 195)))).
Proof. repeat split. Qed.
