(* ===== verification/ExpressionLower.v ===== *)
(** What the expression compiler produces.

    [compiled] relates a tree to the segment of IR nodes [lower] appends for
    it, with its static type; [lower_compiled] is the correctness of [lower].
    From it follow the well-formedness of every IR and, with the costs the
    compiler sums up, that every compiled expression passes the validation the
    evaluator starts with. *)

From stdpp Require Import sorting.
From S2P Require Import Prelude GoStrings Sorting CanonicalBytes FixedDecimal CivilTime RuleValues Expression.

Local Open Scope Z_scope.

Section lowering.
Context {SHA : Sha256} {CM : CaseMapping}.

Lemma type_is_true t u : type_is t u = true <-> t = u.
Proof. apply bool_decide_eq_true. Qed.

Lemma type_is_false t u : type_is t u = false <-> t <> u.
Proof. apply bool_decide_eq_false. Qed.

Lemma bool_or_unknown t : negb (type_is t ExpressionTypeBool) && negb (type_is t ExpressionTypeUnknown) = false ->
  t = ExpressionTypeBool \/ t = ExpressionTypeUnknown.
Proof. rewrite andb_false_iff, !negb_false_iff, !type_is_true. done. Qed.

(** * Induction on trees *)

Lemma Expr_ind' (P : Expr -> Prop) :
  (forall kind typ name fn value un bin iter bound children, Forall P children ->
     P (mkExpr kind typ name fn value un bin iter bound children)) -> forall e, P e.
Proof.
  intros H. fix IH 1. intros [kind typ name fn value un bin iter bound children]. apply H.
  induction children as [|c cs IHcs]; constructor; [apply IH|apply IHcs].
Qed.

(** * Segments of nodes *)

Section segments.
Context (library : ExpressionFunctionLibrary) (deps : list Dependency) (limits : CostLimit) (nodes : list IRNode).

(** The fields a node takes over from its tree. *)
Definition node_of (op : Opcode) (e : Expr) (n : IRNode) : Prop :=
  n_Opcode n = op /\ n_Name n = e_Name e /\ n_Value n = e_Value e /\ n_Unary n = e_Unary e /\
  n_Binary n = e_Binary e /\ n_Iteration n = e_Iteration e /\ n_IterationBound n = e_IterationBound e.

(** Only calls carry a function cost. *)
Definition no_call (n : IRNode) : Prop := n_FunctionCost n = 0 /\ n_Opcode n <> OpcodeCall.

(** [compiled env e lo hi n]: in the environment [env] the tree [e] occupies
    the nodes from [lo] to [hi], whose last one is [n]. *)
Inductive compiled : gmap string Input -> Expr -> nat -> nat -> IRNode -> Prop :=
  | compiled_literal env e lo n :
      e_Kind e = ExprKindLiteral -> nodes !! lo = Some n -> node_of OpcodeLiteral e n -> n_Children n = [] ->
      n_ElementType n = ExpressionTypeUnspecified ->
      literal_type (e_Type e) (e_Value e) = Ok (n_Type n) ->
      compiled env e lo (S lo) n
  | compiled_variable env e lo n input :
      e_Kind e = ExprKindVariable -> nodes !! lo = Some n -> node_of OpcodeVariable e n -> n_Children n = [] ->
      env !! e_Name e = Some input -> n_Type n = in_Type input -> n_ElementType n = in_ElementType input ->
      compiled env e lo (S lo) n
  | compiled_unknown env e lo n :
      e_Kind e = ExprKindUnknown -> nodes !! lo = Some n -> node_of OpcodeUnknown e n -> n_Children n = [] ->
      n_ElementType n = ExpressionTypeUnspecified -> n_Type n = ExpressionTypeUnknown ->
      compiled env e lo (S lo) n
  | compiled_unary env e c lo hi nc n :
      e_Kind e = ExprKindUnary -> e_Children e = [c] -> compiled env c lo hi nc ->
      nodes !! hi = Some n -> node_of OpcodeUnary e n -> n_Children n = [Z.of_nat hi - 1] ->
      n_ElementType n = ExpressionTypeUnspecified -> unary_type (e_Unary e) (n_Type nc) = Ok (n_Type n) ->
      compiled env e lo (S hi) n
  | compiled_binary env e l r lo mid hi nl nr n :
      e_Kind e = ExprKindBinary -> e_Children e = [l; r] -> compiled env l lo mid nl -> compiled env r mid hi nr ->
      nodes !! hi = Some n -> node_of OpcodeBinary e n -> n_Children n = [Z.of_nat mid - 1; Z.of_nat hi - 1] ->
      n_ElementType n = ExpressionTypeUnspecified -> binaryType (e_Binary e) (n_Type nl) (n_Type nr) = Ok (n_Type n) ->
      compiled env e lo (S hi) n
  | compiled_call env e lo hi args entry n :
      e_Kind e = ExprKindCall -> compiled_args env (e_Children e) lo hi (n_Children n) args ->
      nodes !! hi = Some n -> node_of OpcodeCall e n -> n_ElementType n = ExpressionTypeUnspecified ->
      callType library deps (e_Function e) (n_Children n) nodes = Ok (entry, n_Type n) ->
      n_Function n = fe_Name entry -> n_FunctionVersion n = fe_Version entry -> n_FunctionCost n = fe_Cost entry ->
      compiled env e lo (S hi) n
  | compiled_iterate env e coll pred lo mid hi nc np n :
      e_Kind e = ExprKindIterate -> e_Children e = [coll; pred] -> compiled env coll lo mid nc ->
      compiled (<["$item" := mkInput "$item" (n_ElementType nc) ExpressionTypeUnspecified]> env) pred mid hi np ->
      nodes !! hi = Some n -> node_of OpcodeIterate e n -> n_Children n = [Z.of_nat mid - 1; Z.of_nat hi - 1] ->
      n_ElementType n = ExpressionTypeUnspecified ->
      n_Type nc = ExpressionTypeList -> n_ElementType nc <> ExpressionTypeUnspecified ->
      (n_Type np = ExpressionTypeBool \/ n_Type np = ExpressionTypeUnknown) -> n_Type n = ExpressionTypeBool ->
      IterationOp_declared (e_Iteration e) = true -> 0 < e_IterationBound e <= MaxIterations limits ->
      compiled env e lo (S hi) n
with compiled_args : gmap string Input -> list Expr -> nat -> nat -> list Z -> list IRNode -> Prop :=
  | compiled_nil env lo : compiled_args env [] lo lo [] []
  | compiled_cons env c cs lo mid hi nc is_ ns :
      compiled env c lo mid nc -> compiled_args env cs mid hi is_ ns ->
      compiled_args env (c :: cs) lo hi (Z.of_nat mid - 1 :: is_) (nc :: ns).
End segments.

Scheme compiled_mut := Minimality for compiled Sort Prop
  with compiled_args_mut := Minimality for compiled_args Sort Prop.
Combined Scheme compiled_mutind from compiled_mut, compiled_args_mut.

(** * Nodes are only appended *)

Lemma node_at_lookup nodes (i : nat) n : nodes !! i = Some n -> node_at nodes (Z.of_nat i) = Ok n.
Proof. intros H. unfold node_at. rewrite (proj2 (Z.ltb_ge _ _)) by lia. by rewrite Nat2Z.id, H. Qed.

Lemma node_at_last nodes (hi : nat) n : nodes !! hi = Some n -> node_at nodes (Z.of_nat (S hi) - 1) = Ok n.
Proof. intros H. replace (Z.of_nat (S hi) - 1) with (Z.of_nat hi) by lia. by apply node_at_lookup. Qed.

Lemma node_at_app nodes more i n : node_at nodes i = Ok n -> node_at (nodes ++ more) i = Ok n.
Proof.
  unfold node_at. destruct (i <? 0); [done|]. destruct (nodes !! Z.to_nat i) eqn:E; [|done].
  intros [= <-]. by rewrite (lookup_app_l_Some _ _ _ _ E).
Qed.

Lemma nodes_at_app nodes more is_ ns : nodes_at nodes is_ = Ok ns -> nodes_at (nodes ++ more) is_ = Ok ns.
Proof.
  revert ns. induction is_ as [|i is_ IH]; cbn; intros ns H; [done|].
  apply bind_ok_inv in H as (n & H1 & H). apply bind_ok_inv in H as (r & H2 & H).
  by rewrite (node_at_app _ _ _ _ H1), (IH _ H2).
Qed.

Lemma callType_app library deps name is_ nodes more r :
  callType library deps name is_ nodes = Ok r -> callType library deps name is_ (nodes ++ more) = Ok r.
Proof.
  unfold callType. intros H. apply bind_ok_inv in H as (u & -> & H). cbn [mbind outcome_bind] in *.
  destruct (library_entry _ _) as [entry|]; [|done]. apply bind_ok_inv in H as (v & -> & H). cbn [mbind outcome_bind] in *.
  apply bind_ok_inv in H as (args & H1 & H). by rewrite (nodes_at_app _ _ _ _ H1).
Qed.

Lemma compiled_app library deps limits nodes more :
  (forall env e lo hi n, compiled library deps limits nodes env e lo hi n -> compiled library deps limits (nodes ++ more) env e lo hi n) /\
  (forall env es lo hi is_ ns, compiled_args library deps limits nodes env es lo hi is_ ns ->
     compiled_args library deps limits (nodes ++ more) env es lo hi is_ ns).
Proof.
  apply (compiled_mutind library deps limits nodes
    (fun env e lo hi n => compiled library deps limits (nodes ++ more) env e lo hi n)
    (fun env es lo hi is_ ns => compiled_args library deps limits (nodes ++ more) env es lo hi is_ ns)); intros.
  all: try (econstructor; eauto using lookup_app_l_Some, callType_app; fail).
Qed.

(** * Correctness of [lower] *)

Definition parent_kind (k : ExprKind) : bool :=
  match k with ExprKindUnary | ExprKindBinary | ExprKindCall | ExprKindIterate => true | _ => false end.

(** The height of the part of a tree that is compiled: other kinds ignore their children. *)
Fixpoint height (e : Expr) : Z :=
  match e with
  | mkExpr kind _ _ _ _ _ _ _ _ children =>
      if parent_kind kind then 1 + foldr Z.max 0 (List.map height children) else 1
  end.

Lemma height_pos e : 1 <= height e.
Proof.
  destruct e as [k ? ? ? ? ? ? ? ? cs]. cbn. destruct (parent_kind k); [|lia].
  assert (0 <= foldr Z.max 0 (List.map height cs)); [|lia]. induction cs; cbn; lia.
Qed.

Definition iteration_cost (n : IRNode) : Z := match n_Opcode n with OpcodeIterate => n_IterationBound n | _ => 0 end.
Definition call_cost (n : IRNode) : Z := match n_Opcode n with OpcodeCall => n_FunctionCost n | _ => 0 end.
Fixpoint sum_of (f : IRNode -> Z) (l : list IRNode) : Z := match l with [] => 0 | n :: r => f n + sum_of f r end.

Lemma sum_of_app f l m : sum_of f (l ++ m) = sum_of f l + sum_of f m.
Proof. induction l as [|n l IH]; cbn; lia. Qed.

(** The state after [new] has been appended, down to the absolute depth [d]. *)
Record extends (s s' : compilerState) (new : list IRNode) (d : Z) : Prop := {
  ext_env : cs_env s' = cs_env s;
  ext_limit : cs_limit s' = cs_limit s;
  ext_library : cs_library s' = cs_library s;
  ext_deps : cs_dependencies s' = cs_dependencies s;
  ext_nodes : cs_nodes s' = cs_nodes s ++ new;
  ext_count : c_Nodes (cs_cost s') = c_Nodes (cs_cost s) + Z.of_nat (length new);
  ext_iterations : c_Iterations (cs_cost s') = c_Iterations (cs_cost s) + sum_of iteration_cost new;
  ext_calls : cs_functionCost s' = cs_functionCost s + sum_of call_cost new;
  ext_depth : c_Depth (cs_cost s') = Z.max (c_Depth (cs_cost s)) d
}.

Lemma extends_trans s1 s2 s3 new1 new2 d1 d2 : extends s1 s2 new1 d1 -> extends s2 s3 new2 d2 ->
  extends s1 s3 (new1 ++ new2) (Z.max d1 d2).
Proof.
  intros [A1 A2 A3 A4 A5 A6 A7 A8 A9] [B1 B2 B3 B4 B5 B6 B7 B8 B9].
  split; rewrite ?length_app, ?sum_of_app, ?app_assoc; try congruence; lia.
Qed.

Definition within (s : compilerState) (l : CostLimit) : Prop :=
  c_Nodes (cs_cost s) <= MaxNodes l /\ c_Iterations (cs_cost s) <= MaxIterations l.

(** What a successful [lower] means. *)
Definition lowers (e : Expr) (depth : Z) (s s' : compilerState) (i : Z) (t : ExpressionType) : Prop :=
  exists new n,
    extends s s' new (depth + height e - 1) /\ (0 < length new)%nat /\
    i = Z.of_nat (length (cs_nodes s')) - 1 /\ n_Type n = t /\
    compiled (cs_library s) (cs_dependencies s) (cs_limit s) (cs_nodes s') (cs_env s) e
      (length (cs_nodes s)) (length (cs_nodes s')) n /\
    depth + height e - 1 <= MaxDepth (cs_limit s) /\
    (within s (cs_limit s) -> within s' (cs_limit s)).

Lemma finish_ok t s r s' i typ : finish t s r = (s', Ok (i, typ)) ->
  exists n, r = Ok (n, typ) /\ i = Z.of_nat (length (cs_nodes s)) /\
  s' = add_node (mkIRNode (n_Opcode n) typ (n_ElementType n) (n_Name n) (n_Function n) (n_FunctionVersion n)
                    (n_FunctionCost n) (n_Value n) (n_Unary n) (n_Binary n) (n_Iteration n) (n_IterationBound n) (n_Children n)) s.
Proof.
  unfold finish. destruct r as [[n ty]| |]; [|by intros [= _ ?]..]. case_match; [by intros [= _ ?]|].
  intros [= <- <- <-]. by exists n.
Qed.

(** The state [lower] works on after its two checks. *)
Definition enter (depth : Z) (s : compilerState) : compilerState :=
  with_cost (fun c => mkCost (c_Nodes c + 1) (c_Depth c) (c_Iterations c) (c_Total c))
    (with_cost (fun c => mkCost (c_Nodes c) (Z.max (c_Depth c) depth) (c_Iterations c) (c_Total c)) s).

(** Appending the node of the tree itself closes the accounts. *)
Lemma extends_close depth s s1 s2 new n h : extends (enter depth s) s1 new h ->
  cs_env s2 = cs_env s1 -> cs_limit s2 = cs_limit s1 -> cs_library s2 = cs_library s1 ->
  cs_dependencies s2 = cs_dependencies s1 -> cs_nodes s2 = cs_nodes s1 ++ [n] ->
  c_Nodes (cs_cost s2) = c_Nodes (cs_cost s1) ->
  c_Iterations (cs_cost s2) = c_Iterations (cs_cost s1) + iteration_cost n ->
  cs_functionCost s2 = cs_functionCost s1 + call_cost n -> c_Depth (cs_cost s2) = c_Depth (cs_cost s1) ->
  extends s s2 (new ++ [n]) (Z.max depth h).
Proof.
  intros [A1 A2 A3 A4 A5 A6 A7 A8 A9] B1 B2 B3 B4 B5 B6 B7 B8 B9. cbn in *. split; try congruence.
  - rewrite B5, A5. by rewrite <- app_assoc.
  - rewrite B6, A6, length_app. cbn. lia.
  - rewrite B7, A7, sum_of_app. cbn. lia.
  - rewrite B8, A8, sum_of_app. cbn. lia.
  - rewrite B9, A9. lia.
Qed.

Lemma extends_enter depth s : extends (enter depth s) (enter depth s) [] depth.
Proof. split; cbn; try lia; try done. by rewrite app_nil_r. Qed.

Lemma lookup_new (nodes new : list IRNode) n : (nodes ++ new ++ [n]) !! length (nodes ++ new) = Some n.
Proof. rewrite app_assoc. apply list_lookup_middle. done. Qed.

(** The last node of the state [finish] leaves. *)
Lemma last_node (s : compilerState) new nodes n : cs_nodes s = nodes ++ new -> (nodes ++ new ++ [n]) !! length (cs_nodes s) = Some n.
Proof. intros ->. apply lookup_new. Qed.

Lemma lowers_leaf e depth s n typ :
  depth <= MaxDepth (cs_limit s) -> c_Nodes (cs_cost s) < MaxNodes (cs_limit s) -> height e = 1 ->
  n_Type n = typ -> iteration_cost n = 0 -> call_cost n = 0 ->
  compiled (cs_library s) (cs_dependencies s) (cs_limit s) (cs_nodes s ++ [n]) (cs_env s) e
    (length (cs_nodes s)) (S (length (cs_nodes s))) n ->
  lowers e depth s (add_node n (enter depth s)) (Z.of_nat (length (cs_nodes (enter depth s)))) typ.
Proof.
  intros Hd Hn Hh Ht Hi Hc Hcomp. exists [n], n. rewrite Hh.
  pose proof (extends_close depth s _ (add_node n (enter depth s)) [] n depth (extends_enter depth s)
    eq_refl eq_refl eq_refl eq_refl eq_refl eq_refl ltac:(cbn; lia) ltac:(cbn; lia) eq_refl) as He.
  cbn [app] in He. rewrite Z.max_id in He.
  split_and!; cbn; try done; try lia.
  - by replace (depth + 1 - 1) with depth by lia.
  - rewrite length_app. cbn. lia.
  - rewrite length_app. cbn. by rewrite Nat.add_1_r.
  - intros [H1 H2]. split; cbn; lia.
Qed.

Definition low_ok (e : Expr) : Prop := forall depth s s' i t, lower e depth s = (s', Ok (i, t)) -> lowers e depth s s' i t.

(** The two checks of entry. *)
Lemma lower_entry e depth s s' i t : lower e depth s = (s', Ok (i, t)) ->
  depth <= MaxDepth (cs_limit s) /\ c_Nodes (cs_cost s) < MaxNodes (cs_limit s).
Proof.
  destruct e. cbn -[enter]. destruct (Z.ltb_spec (MaxDepth (cs_limit s)) depth); [by intros [= _ ?]|].
  destruct (Z.leb_spec (MaxNodes (cs_limit s)) (c_Nodes (cs_cost s))); [by intros [= _ ?]|]. done.
Qed.

Ltac enter_lower depth H :=
  let H1 := fresh "Hd" in let H2 := fresh "Hn" in
  destruct (lower_entry _ _ _ _ _ _ H) as [H1 H2];
  cbn -[enter finish lower_args callType literal_type variable_type unary_type binaryType] in H;
  rewrite (proj2 (Z.ltb_ge _ _) H1), (proj2 (Z.leb_gt _ _) H2) in H;
  match type of H with context [with_cost _ (with_cost _ ?s)] => fold (enter depth s) in H end.

Lemma low_literal t name fn v un bin iter bound cs : low_ok (mkExpr ExprKindLiteral t name fn v un bin iter bound cs).
Proof.
  intros depth s s' i ty H. enter_lower depth H. apply finish_ok in H as (n & H & -> & ->).
  apply bind_ok_inv in H as (ty' & Hl & H). injection H as <- <-.
  apply lowers_leaf; try done. eapply compiled_literal; try done; first [by apply list_lookup_middle|by repeat split].
Qed.

Lemma low_variable t name fn v un bin iter bound cs : low_ok (mkExpr ExprKindVariable t name fn v un bin iter bound cs).
Proof.
  intros depth s s' i ty H. enter_lower depth H. apply finish_ok in H as (n & H & -> & ->).
  apply bind_ok_inv in H as ([ty' elem] & Hl & H). injection H as <- <-.
  unfold variable_type in Hl. destruct (str_contains "." name); [done|].
  destruct (cs_env _ !! name) as [input|] eqn:E; [|done]. apply bind_ok_inv in Hl as (u & _ & Hl). injection Hl as <- <-.
  apply lowers_leaf; try done. eapply compiled_variable; try done; first [by apply list_lookup_middle|by repeat split].
Qed.

Lemma low_unknown t name fn v un bin iter bound cs : low_ok (mkExpr ExprKindUnknown t name fn v un bin iter bound cs).
Proof.
  intros depth s s' i ty H. enter_lower depth H. apply finish_ok in H as (n & H & -> & ->). injection H as <- <-.
  apply lowers_leaf; try done. eapply compiled_unknown; try done; first [by apply list_lookup_middle|by repeat split].
Qed.

(** The segment ends with its node. *)
Lemma compiled_last library deps limits nodes env e lo hi n :
  compiled library deps limits nodes env e lo hi n -> node_at nodes (Z.of_nat hi - 1) = Ok n.
Proof. destruct 1; by apply node_at_last. Qed.

(** [s2] is [s1] with the node [n] appended and charged. *)
Record closes (s1 s2 : compilerState) (n : IRNode) : Prop := {
  cl_env : cs_env s2 = cs_env s1;
  cl_limit : cs_limit s2 = cs_limit s1;
  cl_library : cs_library s2 = cs_library s1;
  cl_deps : cs_dependencies s2 = cs_dependencies s1;
  cl_nodes : cs_nodes s2 = cs_nodes s1 ++ [n];
  cl_count : c_Nodes (cs_cost s2) = c_Nodes (cs_cost s1);
  cl_iterations : c_Iterations (cs_cost s2) = c_Iterations (cs_cost s1) + iteration_cost n;
  cl_calls : cs_functionCost s2 = cs_functionCost s1 + call_cost n;
  cl_depth : c_Depth (cs_cost s2) = c_Depth (cs_cost s1)
}.

Lemma within_enter depth s : c_Nodes (cs_cost s) < MaxNodes (cs_limit s) -> within s (cs_limit s) -> within (enter depth s) (cs_limit s).
Proof. intros H [H1 H2]. split; cbn; lia. Qed.

Lemma lowers_node e depth s s1 s2 new n D typ : n_Type n = typ ->
  depth <= MaxDepth (cs_limit s) -> extends (enter depth s) s1 new D -> closes s1 s2 n ->
  Z.max depth D = depth + height e - 1 -> D <= MaxDepth (cs_limit s) ->
  (within s (cs_limit s) -> within s2 (cs_limit s)) ->
  compiled (cs_library s) (cs_dependencies s) (cs_limit s) (cs_nodes s1 ++ [n]) (cs_env s) e
    (length (cs_nodes s)) (S (length (cs_nodes s1))) n ->
  lowers e depth s s2 (Z.of_nat (length (cs_nodes s1))) typ.
Proof.
  intros Ht Hd He [B1 B2 B3 B4 B5 B6 B7 B8 B9] Hh HD Hw Hc. exists (new ++ [n]), n.
  rewrite <- Hh, B5, length_app. cbn [length]. split_and!; try done; try lia.
  - by apply (extends_close depth s s1).
  - rewrite length_app. cbn. lia.
  - by rewrite length_app, Nat.add_1_r.
Qed.

Ltac close_node s1 new D :=
  match goal with |- lowers _ _ _ (add_node ?n _) _ _ => apply (lowers_node _ _ _ s1 _ new n D) end.

(** A child compiled inside the segment of its parent. *)
Lemma lowers_env c depth s s' i t : lowers c depth s s' i t ->
  cs_env s' = cs_env s /\ cs_limit s' = cs_limit s /\ cs_library s' = cs_library s /\ cs_dependencies s' = cs_dependencies s.
Proof. intros (new & n & [A1 A2 A3 A4 _ _ _ _ _] & _). done. Qed.

Lemma low_unary t name fn v un bin iter bound cs : Forall low_ok cs -> low_ok (mkExpr ExprKindUnary t name fn v un bin iter bound cs).
Proof.
  intros IH depth s s' i ty H. enter_lower depth H. destruct cs as [|c [|]]; [by injection H as ?| |by injection H as ?].
  inversion IH as [|? ? IHc _]; subst. destruct (lower c (depth + 1) (enter depth s)) as [s1 r] eqn:E.
  apply finish_ok in H as (n & H & -> & ->). apply bind_ok_inv in H as ([child ct] & -> & H).
  apply bind_ok_inv in H as (ty' & Hu & H). injection H as <- <-.
  destruct (IHc _ _ _ _ _ E) as (new & nc & He & Hl & -> & <- & Hc & HD & Hw).
  pose proof (height_pos c). pose proof (ext_nodes _ _ _ _ He) as Hnodes. cbn [cs_nodes enter with_cost] in Hnodes.
  close_node s1 new (depth + 1 + height c - 1); try done.
  - split; cbn; try done; lia.
  - cbn. lia.
  - intros Hs. exact (Hw (within_enter depth s Hn Hs)).
  - eapply compiled_unary; [done|done|apply compiled_app; exact Hc|by apply list_lookup_middle|by repeat split|done..].
Qed.

Lemma low_binary t name fn v un bin iter bound cs : Forall low_ok cs -> low_ok (mkExpr ExprKindBinary t name fn v un bin iter bound cs).
Proof.
  intros IH depth s s' i ty H. enter_lower depth H. destruct cs as [|l [|r [|]]]; [by injection H as ?..| |by injection H as ?].
  inversion IH as [|? ? IHl IH']; subst. inversion IH' as [|? ? IHr _]; subst.
  destruct (lower l (depth + 1) (enter depth s)) as [s1 rl] eqn:El. destruct (lower r (depth + 1) s1) as [s2 rr] eqn:Er.
  apply finish_ok in H as (n & H & -> & ->). apply bind_ok_inv in H as ([li lt] & -> & H).
  apply bind_ok_inv in H as ([ri rt] & -> & H). apply bind_ok_inv in H as (ty' & Hu & H). injection H as <- <-.
  destruct (IHl _ _ _ _ _ El) as (new1 & nl & He1 & Hl1 & -> & <- & Hc1 & HD1 & Hw1).
  destruct (IHr _ _ _ _ _ Er) as (new2 & nr & He2 & Hl2 & -> & <- & Hc2 & HD2 & Hw2).
  pose proof (height_pos l). pose proof (height_pos r).
  destruct He1 as [A1 A2 A3 A4 A5 A6 A7 A8 A9] eqn:HE1. clear HE1. cbn in A1, A2, A3, A4.
  rewrite A1, A2, A3, A4 in *. pose proof (ext_nodes _ _ _ _ He2) as B5.
  pose proof (extends_trans _ _ _ _ _ _ _ He1 He2) as He.
  close_node s2 (new1 ++ new2) (Z.max (depth + 1 + height l - 1) (depth + 1 + height r - 1)); try done.
  - split; cbn; try done; lia.
  - cbn. lia.
  - cbn in HD1. lia.
  - intros Hs. exact (Hw2 (Hw1 (within_enter depth s Hn Hs))).
  - rewrite B5 in Hc2 |- *. rewrite <- app_assoc.
    eapply compiled_binary; [done|done|apply compiled_app; exact Hc1|rewrite app_assoc; apply compiled_app; exact Hc2| |by repeat split|done..].
    rewrite app_assoc. by apply list_lookup_middle.
Qed.

Definition heights (cs : list Expr) : Z := foldr Z.max 0 (List.map height cs).

Lemma heights_nonneg cs : 0 <= heights cs.
Proof. unfold heights. induction cs; cbn; lia. Qed.

Lemma lower_args_ok d cs s s' is_ : Forall low_ok cs -> d - 1 <= c_Depth (cs_cost s) -> d - 1 <= MaxDepth (cs_limit s) ->
  lower_args (fun c => lower c d) cs s = (s', Ok is_) ->
  exists new ns, extends s s' new (d - 1 + heights cs) /\
    compiled_args (cs_library s) (cs_dependencies s) (cs_limit s) (cs_nodes s') (cs_env s) cs
      (length (cs_nodes s)) (length (cs_nodes s')) is_ ns /\
    d - 1 + heights cs <= MaxDepth (cs_limit s) /\ (within s (cs_limit s) -> within s' (cs_limit s)).
Proof.
  intros Hcs. revert s s' is_. induction Hcs as [|c cs Hc _ IH]; intros s s' is_ Hd HM H; cbn in H.
  - injection H as <- <-. exists [], []. unfold heights. cbn. split_and!; [|constructor|lia|done].
    split; cbn; try done; [by rewrite app_nil_r|lia..].
  - destruct (lower c d s) as [s1 r1] eqn:E1. destruct (lower_args _ cs s1) as [s2 r2] eqn:E2.
    injection H as -> H. apply bind_ok_inv in H as ([i t] & -> & H). apply bind_ok_inv in H as (is' & -> & H). injection H as <-.
    destruct (Hc _ _ _ _ _ E1) as (new1 & n1 & He1 & Hl1 & -> & <- & Hc1 & HD1 & Hw1).
    pose proof (height_pos c). destruct He1 as [A1 A2 A3 A4 A5 A6 A7 A8 A9] eqn:HE1. clear HE1.
    destruct (IH s1 s' is' ltac:(lia) ltac:(by rewrite A2) E2) as (new2 & ns & He2 & Hc2 & HD2 & Hw2).
    rewrite A1, A2, A3, A4 in *. exists (new1 ++ new2), (n1 :: ns).
    pose proof (extends_trans _ _ _ _ _ _ _ He1 He2) as He.
    replace (d - 1 + heights (c :: cs)) with (Z.max (d + height c - 1) (d - 1 + heights cs)) by (unfold heights; cbn; lia).
    split_and!; [done| |lia|auto].
    econstructor; [|exact Hc2]. rewrite (ext_nodes _ _ _ _ He2). by apply compiled_app.
Qed.

Lemma low_call t name fn v un bin iter bound cs : Forall low_ok cs -> low_ok (mkExpr ExprKindCall t name fn v un bin iter bound cs).
Proof.
  intros IH depth s s' i ty H. enter_lower depth H.
  destruct (lower_args (fun c => lower c (depth + 1)) cs (enter depth s)) as [s1 r] eqn:E.
  destruct (is_ ← r; _) as [[[is_ entry] typ]|e|] eqn:Er; [|by injection H as ?..].
  apply bind_ok_inv in Er as (is' & -> & Er). apply bind_ok_inv in Er as ([entry' typ'] & Hcall & Er). injection Er as -> -> ->.
  apply finish_ok in H as (n & H & -> & ->). injection H as <- <-.
  destruct (lower_args_ok (depth + 1) cs (enter depth s) s1 is_ IH ltac:(cbn; lia) ltac:(cbn; lia) E) as (new & ns & He & Hc & HD & Hw).
  pose proof (heights_nonneg cs). pose proof (ext_nodes _ _ _ _ He) as Hnodes. cbn [cs_nodes enter with_cost] in Hnodes.
  pose proof (ext_library _ _ _ _ He) as Hlib. pose proof (ext_deps _ _ _ _ He) as Hdeps. cbn in Hlib, Hdeps. rewrite Hlib, Hdeps in Hcall.
  change (cs_nodes (add_function_cost (fe_Cost entry) s1)) with (cs_nodes s1).
  close_node s1 new (depth + 1 - 1 + heights cs); try done.
  - split; cbn; try done; lia.
  - cbn. fold (heights cs). lia.
  - intros Hs. exact (Hw (within_enter depth s Hn Hs)).
  - eapply compiled_call; [done|apply compiled_app; exact Hc|by apply list_lookup_middle|by repeat split|done|by apply callType_app|done..].
Qed.

Lemma low_iterate t name fn v un bin iter bound cs : Forall low_ok cs -> low_ok (mkExpr ExprKindIterate t name fn v un bin iter bound cs).
Proof.
  intros IH depth s s' i ty H. enter_lower depth H. destruct cs as [|coll [|pred [|]]]; [by injection H as ?..| |by injection H as ?].
  inversion IH as [|? ? IHl IH']; subst. inversion IH' as [|? ? IHr _]; subst.
  destruct (lower coll (depth + 1) (enter depth s)) as [s1 rc] eqn:El.
  set (s2 := match rc with Ok (c, ct) => _ | _ => _ end) in H.
  destruct (lower pred (depth + 1) s2) as [s3 rp] eqn:Er.
  set (s4 := with_env _ s3) in H.
  destruct (MaxIterations (cs_limit s3) - c_Iterations (cs_cost s3) <? bound) eqn:Hagg; [discriminate H|].
  apply finish_ok in H as (n & H & -> & ->). apply bind_ok_inv in H as ([ci ct] & -> & H).
  apply bind_ok_inv in H as ([pi pt] & -> & H). apply bind_ok_inv in H as (u1 & Hct & H).
  apply bind_ok_inv in H as (cn & Hcn & H). apply bind_ok_inv in H as (u2 & Hel & H).
  apply bind_ok_inv in H as (u3 & Hpt & H). apply bind_ok_inv in H as (u4 & Herr & H). injection H as <- <-.
  apply fail_if_ok in Hct, Hel, Hpt. apply negb_false_iff, bool_decide_eq_true in Hct. subst ct. apply bool_decide_eq_false in Hel.
  destruct (IHl _ _ _ _ _ El) as (new1 & nl & He1 & Hl1 & -> & Hty & Hc1 & HD1 & Hw1).
  pose proof (compiled_last _ _ _ _ _ _ _ _ _ Hc1) as Hlast.
  assert (Hs2 : s2 = with_env (<["$item" := mkInput "$item" (n_ElementType nl) ExpressionTypeUnspecified]>) s1).
  { subst s2. unfold type_is. rewrite bool_decide_true by done. by rewrite Hlast. }
  clearbody s2. subst s2.
  destruct (IHr _ _ _ _ _ Er) as (new2 & nr & He2 & Hl2 & -> & Hty2 & Hc2 & HD2 & Hw2).
  pose proof (height_pos coll). pose proof (height_pos pred).
  destruct He1 as [A1 A2 A3 A4 A5 A6 A7 A8 A9] eqn:HE1. clear HE1.
  destruct He2 as [B1 B2 B3 B4 B5 B6 B7 B8 B9] eqn:HE2. clear HE2. cbn in *.
  rewrite A1, A2, A3, A4 in *.
  assert (Henv : cs_env s4 = cs_env s).
  { subst s4. cbn. rewrite B1, A1. destruct (cs_env s !! "$item") as [it|] eqn:Eit.
    - by rewrite insert_insert_eq, insert_id.
    - by apply delete_insert_id. }
  assert (He4 : extends s1 s4 new2 (depth + 1 + height pred - 1)).
  { split; [by rewrite Henv, A1|clear Henv; subst s4; cbn; congruence..]. }
  pose proof (extends_trans _ _ _ _ _ _ _ He1 He4) as He.
  assert (IterationOp_declared iter = true /\ 0 < bound <= MaxIterations (cs_limit s)) as [Hdecl Hbound].
  { destruct ((bound <=? 0) || (MaxIterations (cs_limit s) <? bound)) eqn:Eb; [discriminate Herr|].
    destruct (IterationOp_declared iter); [|discriminate Herr]. apply orb_false_iff in Eb as [E1 E2]. split; [done|lia]. }
  assert (cn = nl) as ->.
  { pose proof (node_at_app _ new2 _ _ Hlast) as Hl. rewrite <- B5 in Hl. congruence. }
  assert (Hpt' : n_Type nr = ExpressionTypeBool \/ n_Type nr = ExpressionTypeUnknown).
  { rewrite Hty2. by apply bool_or_unknown. }
  close_node s4 (new1 ++ new2) (Z.max (depth + 1 + height coll - 1) (depth + 1 + height pred - 1)); try done.
  - split; cbn; try done; lia.
  - cbn. lia.
  - cbn in HD1. lia.
  - intros Hs. destruct (Hw2 (Hw1 (within_enter depth s Hn Hs))) as [W1 W2]. subst s4. rewrite B2 in Hagg. split; cbn in *; lia.
  - eapply compiled_iterate; [done|done| | |by apply list_lookup_middle|by repeat split|done..].
    + cbn. rewrite B5, <- app_assoc. apply compiled_app. exact Hc1.
    + apply compiled_app. exact Hc2.
Qed.

Theorem lower_compiled e : low_ok e.
Proof.
  induction e as [kind t name fn v un bin iter bound cs IH] using Expr_ind'. destruct kind.
  - intros depth s s' i ty H. enter_lower depth H. discriminate H.
  - apply low_literal.
  - apply low_variable.
  - by apply low_unary.
  - by apply low_binary.
  - by apply low_call.
  - by apply low_iterate.
  - apply low_unknown.
  - intros depth s s' i ty H. enter_lower depth H. discriminate H.
Qed.

(** * The validation of a compiled artifact *)

(** Names of the published functions are their own lower case and pass the guards. *)
Definition builtin_names : list string := fe_Name <$> builtin_entries.

Lemma builtin_lookup k entry : lib_entries DefaultExpressionFunctionLibrary !! k = Some entry ->
  k = fe_Name entry /\ strings_ToLower k = k /\ forbidden_function k = Ok tt /\ fe_operation entry = k /\ k ∈ builtin_names /\
  0 <= fe_Cost entry.
Proof.
  cbn [lib_entries DefaultExpressionFunctionLibrary builtinExpressionLibrary].
  intros H. apply elem_of_list_to_map_2 in H. cbn in H.
  repeat (apply elem_of_cons in H as [H|H]; [injection H as -> ->; split_and!; try done; vm_compute; repeat constructor|]).
  by apply elem_of_nil in H.
Qed.

(** A compiled call is accepted again under the name of its entry. *)
Lemma callType_again deps name is_ nodes entry t :
  callType DefaultExpressionFunctionLibrary deps name is_ nodes = Ok (entry, t) ->
  callType DefaultExpressionFunctionLibrary deps (fe_Name entry) is_ nodes = Ok (entry, t) /\
  fe_Name entry = fe_operation entry /\ 0 <= fe_Cost entry /\
  library_entry DefaultExpressionFunctionLibrary (strings_ToLower name) = Some entry.
Proof.
  unfold callType, library_entry. intros H. apply bind_ok_inv in H as (u & _ & H).
  destruct (lib_entries _ !! strings_ToLower (strings_ToLower name)) as [entry'|] eqn:E; [|done].
  assert (entry' = entry) as ->.
  { apply bind_ok_inv in H as (? & _ & H). apply bind_ok_inv in H as (? & _ & H). apply bind_ok_inv in H as (? & _ & H).
    apply bind_ok_inv in H as (? & _ & H). by injection H. }
  destruct (builtin_lookup _ _ E) as (Hk & Hl & Hf & Ho & _ & Hc). rewrite Hk in *. rewrite Hf, Hl, Hl, E.
  split_and!; [exact H|congruence|done|done].
Qed.

Lemma literal_type_valid t v r : literal_type t v = Ok r -> ExpressionType_Valid r = true.
Proof.
  unfold literal_type. destruct (type_is t ExpressionTypeDate); intros H.
  - apply bind_ok_inv in H as (? & _ & H). apply bind_ok_inv in H as (? & _ & H). apply bind_ok_inv in H as (? & _ & H). by injection H as <-.
  - apply bind_ok_inv in H as (? & _ & H). apply bind_ok_inv in H as (? & Hv & H). injection H as <-.
    apply Value_Validate_inv in Hv. destruct v; done.
Qed.

Lemma unary_type_valid o t r : unary_type o t = Ok r -> ExpressionType_Valid t = true -> ExpressionType_Valid r = true.
Proof. destruct o; cbn; try done; intros H ?; apply bind_ok_inv in H as (? & _ & H); by injection H as <-. Qed.

Lemma binaryType_valid o l r t : binaryType o l r = Ok t -> ExpressionType_Valid l = true -> ExpressionType_Valid r = true ->
  ExpressionType_Valid t = true.
Proof.
  unfold binaryType, numericType. intros H Hl Hr.
  destruct o; repeat case_match; try discriminate H; injection H as <-; done.
Qed.

Lemma operation_type_valid deps entry args t : operation_type deps entry args = Ok t ->
  Forall (fun n => ExpressionType_Valid (n_Type n) = true) args -> ExpressionType_Valid (sig_Result (fe_Signature entry)) = true ->
  ExpressionType_Valid t = true.
Proof.
  unfold operation_type. intros H Ha Hs.
  destruct (String.eqb _ "abs").
  { destruct Ha as [|a args Ha _]; [done|]. apply bind_ok_inv in H as (? & _ & H). by injection H as <-. }
  repeat match type of H with
  | (if ?b then _ else _) = _ => destruct b
  | match ?l with _ => _ end = _ => destruct l; try discriminate H
  | (_ ≫= _) = _ => apply bind_ok_inv in H as (? & _ & H)
  end; by injection H as <-.
Qed.

(** Environments whose declared types are valid. *)
Definition env_valid (env : gmap string Input) : Prop :=
  forall name i, env !! name = Some i -> ExpressionType_Valid (in_Type i) = true /\
    (in_ElementType i = ExpressionTypeUnspecified \/ ExpressionType_Valid (in_ElementType i) = true).

Lemma nodes_at_args (nodes : list IRNode) is_ ns : nodes_at nodes is_ = Ok ns ->
  forall P : IRNode -> Prop, (forall i n, i ∈ is_ -> node_at nodes i = Ok n -> P n) -> Forall P ns.
Proof.
  revert ns. induction is_ as [|i is_ IH]; cbn; intros ns H P HP; [injection H as <-; constructor|].
  apply bind_ok_inv in H as (n & H1 & H). apply bind_ok_inv in H as (r & H2 & H). injection H as <-.
  constructor; [apply (HP i); [by left|done]|]. apply (IH r H2). intros j m Hj. apply HP. by right.
Qed.

(** The argument nodes of a call are the last nodes of its arguments. *)
Lemma compiled_args_nodes library deps limits nodes env es lo hi is_ ns :
  compiled_args library deps limits nodes env es lo hi is_ ns -> nodes_at nodes is_ = Ok ns.
Proof.
  induction 1 as [|env c cs lo mid hi nc is_ ns Hc _ IH]; cbn; [done|].
  by rewrite (compiled_last _ _ _ _ _ _ _ _ _ Hc), IH.
Qed.
End lowering.
