(* ===== verification/ExpressionArtifact.v ===== *)
(** Every compiled expression passes the validation its evaluation starts with.

    [node_ok] is what a segment of nodes guarantees; [validate_segment] runs
    the validation loop over the segment of a tree, [sort_dependencies_id] and
    [declare_inputs_Permutation] make the sorted declarations of the artifact
    acceptable again. *)

From stdpp Require Import sorting.
From S2P Require Import Prelude GoStrings Sorting CanonicalBytes FixedDecimal CivilTime RuleValues Expression ExpressionLower.

Local Open Scope Z_scope.

Section artifact.
Context {SHA : Sha256} {CM : CaseMapping}.
Abbreviation library := DefaultExpressionFunctionLibrary.

(** * Types of compiled nodes *)

Definition node_ok (n : IRNode) : Prop :=
  ExpressionType_Valid (n_Type n) = true /\
  (n_ElementType n = ExpressionTypeUnspecified \/ ExpressionType_Valid (n_ElementType n) = true) /\
  0 <= iteration_cost n /\ 0 <= call_cost n.

Lemma call_entry deps name is_ nodes entry t : callType library deps name is_ nodes = Ok (entry, t) ->
  library_entry library (strings_ToLower name) = Some entry /\
  exists args, nodes_at nodes is_ = Ok args /\ operation_type deps entry args = Ok t /\
    check_arguments (sig_Arguments (fe_Signature entry)) (n_Type <$> args) = Ok tt /\
    length is_ = length (sig_Arguments (fe_Signature entry)).
Proof.
  unfold callType. intros H. apply bind_ok_inv in H as (u & _ & H).
  destruct (library_entry library (strings_ToLower name)) as [e|] eqn:E; [|done].
  apply bind_ok_inv in H as (u1 & Hl & H). apply bind_ok_inv in H as (args & Ha & H).
  apply bind_ok_inv in H as ([] & Hc & H). apply bind_ok_inv in H as (r & Ho & H). injection H as -> ->.
  split; [done|]. exists args. apply fail_if_ok, negb_false_iff, Nat.eqb_eq in Hl. by split_and!.
Qed.

Lemma entry_result k entry : lib_entries library !! k = Some entry -> ExpressionType_Valid (sig_Result (fe_Signature entry)) = true.
Proof.
  cbn [lib_entries DefaultExpressionFunctionLibrary builtinExpressionLibrary].
  intros H. apply elem_of_list_to_map_2 in H. cbn in H.
  repeat (apply elem_of_cons in H as [H|H]; [by injection H as -> ->|]). by apply elem_of_nil in H.
Qed.

Lemma env_valid_item env t : env_valid env -> ExpressionType_Valid t = true ->
  env_valid (<["$item" := mkInput "$item" t ExpressionTypeUnspecified]> env).
Proof.
  intros H Ht name i [[<- <-]|[_ Hi]]%lookup_insert_Some; [cbn; by split; [|left]|by apply (H name)].
Qed.

Lemma compiled_node_ok deps limits nodes :
  (forall env e lo hi n, compiled library deps limits nodes env e lo hi n -> env_valid env -> node_ok n) /\
  (forall env es lo hi is_ ns, compiled_args library deps limits nodes env es lo hi is_ ns -> env_valid env -> Forall node_ok ns).
Proof.
  apply (compiled_mutind library deps limits nodes (fun env _ _ _ n => env_valid env -> node_ok n)
    (fun env _ _ _ _ ns => env_valid env -> Forall node_ok ns)); try (by constructor); unfold node_of.
  - intros env e lo n _ _ (Ho & _) _ He Ht _. unfold node_ok, iteration_cost, call_cost. rewrite Ho, He.
    split_and!; [by eapply literal_type_valid|by left|done..].
  - intros env e lo n input _ _ (Ho & _) _ Hi Ht He Hv. destruct (Hv _ _ Hi). unfold node_ok, iteration_cost, call_cost.
    rewrite Ho, He, Ht. done.
  - intros env e lo n _ _ (Ho & _) _ He Ht _. unfold node_ok, iteration_cost, call_cost. rewrite Ho, He, Ht. by split_and!; [|left|..].
  - intros env e c lo hi nc n _ _ _ IH _ (Ho & _) _ He Ht Hv. unfold node_ok, iteration_cost, call_cost. rewrite Ho, He.
    split_and!; [|by left|done..]. eapply unary_type_valid; [done|]. apply IH, Hv.
  - intros env e l r lo mid hi nl nr n _ _ _ IHl _ IHr _ (Ho & _) _ He Ht Hv. unfold node_ok, iteration_cost, call_cost. rewrite Ho, He.
    split_and!; [|by left|done..]. eapply binaryType_valid; [done|apply IHl, Hv|apply IHr, Hv].
  - intros env e lo hi args entry n _ Ha IH _ (Ho & _) He Hc _ _ Hcost Hv. unfold node_ok, iteration_cost, call_cost. rewrite Ho, He, Hcost.
    destruct (callType_again _ _ _ _ _ _ Hc) as (_ & _ & Hge & Hent). destruct (call_entry _ _ _ _ _ _ Hc) as (_ & args' & Hargs & Hop & _).
    rewrite (compiled_args_nodes _ _ _ _ _ _ _ _ _ _ Ha) in Hargs. injection Hargs as <-.
    split_and!; [|by left|done..]. eapply operation_type_valid; [done| |by eapply entry_result].
    eapply Forall_impl; [apply IH, Hv|]. by intros x (? & _).
  - intros env e coll pred lo mid hi nc np n _ _ _ IHc _ IHp _ (Ho & _ & _ & _ & _ & _ & Hb) _ He Hl Hel _ Ht _ Hbound Hv.
    unfold node_ok, iteration_cost, call_cost. rewrite Ho, He, Ht, Hb. split_and!; [done|by left|lia|done].
  - intros env c cs lo mid hi nc is_ ns _ IHc _ IHcs Hv. constructor; [apply IHc, Hv|apply IHcs, Hv].
Qed.

(** * The loop of the validation *)

Lemma nodes_depth_spec depths i cs ds : Forall2 (fun c d => 0 <= c < i /\ depths !! Z.to_nat c = Some d) cs ds ->
  nodes_depth depths i cs = Ok (foldr Z.max 1 (List.map (Z.add 1) ds)).
Proof.
  intros H. unfold nodes_depth. match goal with |- ?f 1 cs = _ => set (loop := f) end.
  assert (G : forall acc, loop acc cs = Ok (foldr Z.max acc (List.map (Z.add 1) ds))); [|apply G].
  induction H as [|c d cs ds [Hc Hd] H IH]; intros acc; [done|]. cbn [List.map foldr]. cbn. fold loop.
  rewrite (proj2 (Z.ltb_ge c 0)), (proj2 (Z.leb_gt i c)), Hd by lia. cbn.
  destruct (Z.ltb_spec acc (d + 1)); rewrite IH; f_equal; clear -H0; induction ds; cbn in *; lia.
Qed.

Section segment.
Context (deps : list Dependency) (limits : CostLimit) (nodes : list IRNode).

Definition sum_upto (f : IRNode -> Z) (k : nat) : Z := sum_of f (take k nodes).

(** The loop standing at node [k]: its sums are those of the nodes before. *)
Definition validate_at (k : nat) (depths : list Z) : outcome rules_err (list Z * Z * Z) :=
  validate_nodes library deps limits nodes (drop k nodes) (Z.of_nat k) depths (sum_upto iteration_cost k) (sum_upto call_cost k).

Lemma sum_upto_S f k n : nodes !! k = Some n -> sum_upto f (S k) = sum_upto f k + f n.
Proof. intros H. unfold sum_upto. rewrite (take_S_r _ _ _ H), sum_of_app. cbn. lia. Qed.

(** The checks of one node, besides its depth. *)
Definition node_accepted (k : nat) (n : IRNode) : Prop :=
  match n_Opcode n with
  | OpcodeCall =>
      exists entry, callType library deps (n_Function n) (n_Children n) nodes = Ok (entry, n_Type n) /\
        n_Function n = fe_Name entry /\ n_FunctionVersion n = fe_Version entry /\ n_FunctionCost n = fe_Cost entry
  | OpcodeIterate =>
      length (n_Children n) = 2%nat /\ 0 < n_IterationBound n <= MaxIterations limits /\ IterationOp_declared (n_Iteration n) = true /\
      Forall (fun c => c < Z.of_nat k) (n_Children n) /\ sum_upto iteration_cost (S k) <= MaxIterations limits
  | OpcodeUndeclared _ => False
  | _ => True
  end.

Lemma validate_step k n depths ds : nodes !! k = Some n -> node_ok n -> node_accepted k n ->
  Forall2 (fun c d => 0 <= c < Z.of_nat k /\ depths !! Z.to_nat c = Some d) (n_Children n) ds ->
  foldr Z.max 1 (List.map (Z.add 1) ds) <= MaxDepth limits ->
  validate_at k depths = validate_at (S k) (depths ++ [foldr Z.max 1 (List.map (Z.add 1) ds)]).
Proof.
  intros Hk (Hv & _) Ha Hds HD. unfold validate_at. rewrite !(sum_upto_S _ _ _ Hk), (drop_S _ _ _ Hk).
  cbn [validate_nodes]. rewrite (nodes_depth_spec _ _ _ _ Hds). cbn [mbind outcome_bind].
  rewrite (proj2 (Z.ltb_ge _ _) HD). cbn [fail_if mbind outcome_bind]. rewrite Hv. cbn [negb].
  replace (Z.of_nat (S k)) with (Z.of_nat k + 1) by lia. unfold node_accepted in Ha. rewrite (sum_upto_S _ _ _ Hk) in Ha.
  pose proof (eq_refl : iteration_cost n = match n_Opcode n with OpcodeIterate => n_IterationBound n | _ => 0 end) as Ei.
  pose proof (eq_refl : call_cost n = match n_Opcode n with OpcodeCall => n_FunctionCost n | _ => 0 end) as Ec.
  destruct (n_Opcode n); rewrite Ei, Ec in *; rewrite ?Z.add_0_r; cbn [mbind outcome_bind fail_if]; try done.
  - destruct Ha as (entry & -> & Hf & Hver & Hc). cbn [mbind outcome_bind]. rewrite Hf, Hver, Hc, !String.eqb_refl, Z.eqb_refl.
    unfold type_is. rewrite bool_decide_true by done. done.
  - destruct Ha as (-> & Hb & -> & Hch & Hs).
    rewrite (proj2 (Z.leb_gt (n_IterationBound n) 0)), (proj2 (Z.ltb_ge (MaxIterations limits) _)) by lia.
    cbn [Nat.eqb negb orb fail_if mbind outcome_bind].
    assert (existsb (fun c => Z.of_nat k <=? c) (n_Children n) = false) as ->.
    { clear -Hch. induction Hch as [|c cs Hc _ IH]; [done|]. cbn [existsb]. by rewrite (proj2 (Z.leb_gt _ _)). }
    cbn [fail_if mbind outcome_bind]. by rewrite (proj2 (Z.ltb_ge _ _)) by lia.
Qed.

Lemma height_eq e : height e = if parent_kind (e_Kind e) then 1 + heights (e_Children e) else 1.
Proof. by destruct e. Qed.

(** The children of a node stand before it, at the depths of their trees. *)
Definition children_at (k : nat) (depths : list Z) (cs : list Z) (es : list Expr) : Prop :=
  Forall2 (fun c d => 0 <= c < Z.of_nat k /\ depths !! Z.to_nat c = Some d) cs (List.map height es).

Lemma validate_node k n depths es : nodes !! k = Some n -> node_ok n -> node_accepted k n ->
  children_at k depths (n_Children n) es -> 1 + heights es <= MaxDepth limits ->
  validate_at k depths = validate_at (S k) (depths ++ [1 + heights es]).
Proof.
  intros Hk Hn Ha Hc HD.
  assert (foldr Z.max 1 (List.map (Z.add 1) (List.map height es)) = 1 + heights es) as E.
  { unfold heights. clear. induction es; cbn in *; lia. }
  rewrite <- E in *. by apply (validate_step _ n).
Qed.

(** What the loop does on a segment. *)
Definition segment_valid (lo hi : nat) (Q : list Z -> Prop) : Prop :=
  forall depths, length depths = lo -> exists ds, length (depths ++ ds) = hi /\ Q (depths ++ ds) /\
    validate_at lo depths = validate_at hi (depths ++ ds).

Lemma segment_nil lo (Q : list Z -> Prop) : (forall ds, Q ds) -> segment_valid lo lo Q.
Proof. intros HQ depths H. exists []. rewrite app_nil_r. by split_and!. Qed.

Lemma segment_app lo mid hi Q R : segment_valid lo mid Q -> segment_valid mid hi R ->
  segment_valid lo hi (fun ds => Q (take mid ds) /\ R ds).
Proof.
  intros H1 H2 depths Hd. destruct (H1 depths Hd) as (ds1 & Hl1 & HQ & E1). destruct (H2 _ Hl1) as (ds2 & Hl2 & HR & E2).
  exists (ds1 ++ ds2). rewrite app_assoc. split_and!; [done| |done|by rewrite E1].
  by rewrite <- Hl1, take_app_length.
Qed.

Lemma segment_impl lo hi (Q R : list Z -> Prop) : (forall ds, length ds = hi -> Q ds -> R ds) -> segment_valid lo hi Q -> segment_valid lo hi R.
Proof. intros HQR H depths Hd. destruct (H depths Hd) as (ds & Hl & HQ & E). exists ds. auto. Qed.

(** A segment ends with the node of its tree. *)
Definition ends_at (hi : nat) (e : Expr) (ds : list Z) : Prop := ds !! (hi - 1)%nat = Some (height e).

Lemma segment_node lo hi n es e Q : segment_valid lo hi Q -> nodes !! hi = Some n -> node_ok n -> node_accepted hi n ->
  (forall ds, length ds = hi -> Q ds -> children_at hi ds (n_Children n) es) -> height e = 1 + heights es -> height e <= MaxDepth limits ->
  segment_valid lo (S hi) (ends_at (S hi) e).
Proof.
  intros H Hk Hn Ha Hc He HD depths Hd. destruct (H depths Hd) as (ds & Hl & HQ & E).
  exists (ds ++ [height e]). rewrite app_assoc. unfold ends_at. split_and!.
  - rewrite length_app, Hl. cbn. lia.
  - replace (S hi - 1)%nat with hi by lia. by apply list_lookup_middle.
  - rewrite E, He. apply (validate_node _ n); eauto. lia.
Qed.

Lemma child_at_depth hi c ds k e : ends_at c e ds -> (0 < c <= k)%nat -> hi = Z.of_nat c - 1 ->
  0 <= hi < Z.of_nat k /\ ds !! Z.to_nat hi = Some (height e).
Proof. unfold ends_at. intros H Hk ->. split; [lia|]. by replace (Z.to_nat (Z.of_nat c - 1)) with (c - 1)%nat by lia. Qed.

Lemma ends_at_take mid c e ds : ends_at c e (take mid ds) -> ends_at c e ds.
Proof. unfold ends_at. rewrite lookup_take_Some. tauto. Qed.

Lemma height_le_heights e es : e ∈ es -> height e <= heights es.
Proof. unfold heights. induction 1; cbn; lia. Qed.

(** The bounds the compiler has checked, over all nodes. *)
Context (Hbudget : forall k, sum_upto iteration_cost k <= MaxIterations limits).

Definition args_at (hi : nat) (is_ : list Z) (es : list Expr) (ds : list Z) : Prop := children_at hi ds is_ es.

Lemma children_at_take mid k ds is_ es : (mid <= k)%nat -> children_at mid (take mid ds) is_ es -> children_at k ds is_ es.
Proof. intros Hk H. eapply Forall2_impl; [exact H|]. intros c d [Hc Hl]. split; [lia|]. by apply lookup_take_Some in Hl as [? _]. Qed.

Lemma segment_leaf lo n e : parent_kind (e_Kind e) = false -> nodes !! lo = Some n -> n_Children n = [] ->
  node_ok n -> node_accepted lo n -> height e <= MaxDepth limits -> (lo < S lo)%nat /\ segment_valid lo (S lo) (ends_at (S lo) e).
Proof.
  intros Hk Hn Hc Hok Ha HD. split; [lia|].
  apply (segment_node lo lo n [] e (fun _ => True)); try done; [by apply segment_nil|intros; rewrite Hc; constructor|by rewrite height_eq, Hk].
Qed.

(** The node of a tree with two children. *)
Lemma segment_two lo mid hi n e l r : e_Children e = [l; r] -> parent_kind (e_Kind e) = true ->
  (height l <= MaxDepth limits -> (lo < mid)%nat /\ segment_valid lo mid (ends_at mid l)) ->
  (height r <= MaxDepth limits -> (mid < hi)%nat /\ segment_valid mid hi (ends_at hi r)) ->
  nodes !! hi = Some n -> n_Children n = [Z.of_nat mid - 1; Z.of_nat hi - 1] -> node_ok n ->
  ((mid < hi)%nat -> node_accepted hi n) -> height e <= MaxDepth limits ->
  (lo < S hi)%nat /\ segment_valid lo (S hi) (ends_at (S hi) e).
Proof.
  intros Hcs Hk Hl Hr Hn Hc Hok Ha HD. pose proof (height_eq e) as He. rewrite Hk, Hcs in He.
  unfold heights in He. cbn in He. destruct Hl as [Hlo Hl]; [lia|]. destruct Hr as [Hhi Hr]; [lia|]. split; [lia|].
  apply (segment_node lo hi n [l; r] e _ (segment_app _ _ _ _ _ Hl Hr)); auto. intros ds _ [H1 H2]. rewrite Hc.
  apply ends_at_take in H1. constructor; [by apply (child_at_depth _ mid); try lia|].
  constructor; [by apply (child_at_depth _ hi); try lia|constructor].
Qed.

Lemma validate_segment :
  (forall env e lo hi n, compiled library deps limits nodes env e lo hi n ->
     env_valid env -> height e <= MaxDepth limits -> (lo < hi)%nat /\ segment_valid lo hi (ends_at hi e)) /\
  (forall env es lo hi is_ ns, compiled_args library deps limits nodes env es lo hi is_ ns ->
     env_valid env -> heights es <= MaxDepth limits -> (lo <= hi)%nat /\ segment_valid lo hi (args_at hi is_ es)).
Proof.
  pose proof (proj1 (compiled_node_ok deps limits nodes)) as Hok.
  apply (compiled_mutind library deps limits nodes
    (fun env e lo hi n => env_valid env -> height e <= MaxDepth limits -> (lo < hi)%nat /\ segment_valid lo hi (ends_at hi e))
    (fun env es lo hi is_ ns => env_valid env -> heights es <= MaxDepth limits -> (lo <= hi)%nat /\ segment_valid lo hi (args_at hi is_ es))).
  - intros env e lo n Hk Hn Hnode Hc He Ht Hv HD. pose proof Hnode as (Ho & _).
    apply (segment_leaf lo n); [by rewrite Hk|done|done|by eapply Hok; [by constructor|]|unfold node_accepted; by rewrite Ho|done].
  - intros env e lo n input Hk Hn Hnode Hc Hi Ht He Hv HD. pose proof Hnode as (Ho & _).
    apply (segment_leaf lo n); [by rewrite Hk|done|done|by eapply Hok; [by econstructor|]|unfold node_accepted; by rewrite Ho|done].
  - intros env e lo n Hk Hn Hnode Hc He Ht Hv HD. pose proof Hnode as (Ho & _).
    apply (segment_leaf lo n); [by rewrite Hk|done|done|by eapply Hok; [by eapply compiled_unknown|]|unfold node_accepted; by rewrite Ho|done].
  - intros env e c lo hi nc n Hk Hcs Hcomp IH Hn Hnode Hc He Ht Hv HD. pose proof Hnode as (Ho & _).
    pose proof (height_eq e) as Hh. rewrite Hk, Hcs in Hh. unfold heights in Hh. cbn in Hh.
    destruct (IH Hv ltac:(lia)) as [Hlo Hseg]. split; [lia|].
    apply (segment_node lo hi n [c] e _ Hseg); [done|by eapply Hok; [by eapply compiled_unary|]|unfold node_accepted; by rewrite Ho| |done|done].
    intros ds _ Hd. rewrite Hc. constructor; [by apply (child_at_depth _ hi); try lia|constructor].
  - intros env e l r lo mid hi nl nr n Hk Hcs Hcl IHl Hcr IHr Hn Hnode Hc He Ht Hv HD. pose proof Hnode as (Ho & _).
    apply (segment_two lo mid hi n e l r); auto; [by rewrite Hk|by eapply Hok; [by eapply compiled_binary|]|].
    unfold node_accepted. by rewrite Ho.
  - intros env e lo hi args entry n Hk Hargs IH Hn Hnode He Hct Hf Hver Hcost Hv HD. pose proof Hnode as (Ho & _).
    pose proof (height_eq e) as Hh. rewrite Hk in Hh. cbn in Hh.
    destruct (IH Hv ltac:(lia)) as [Hlo Hseg]. split; [lia|].
    apply (segment_node lo hi n (e_Children e) e _ Hseg); [done|by eapply Hok; [by eapply compiled_call|]| |by intros|done|done].
    unfold node_accepted. rewrite Ho. exists entry. rewrite Hf. by destruct (callType_again _ _ _ _ _ _ Hct) as (? & _).
  - intros env e coll pred lo mid hi nc np n Hk Hcs Hcc IHc Hcp IHp Hn Hnode Hc He Hl Hel Hp Ht Hit Hb Hv HD.
    pose proof Hnode as (Ho & _ & _ & _ & _ & Hni & Hnb).
    assert (env_valid (<["$item" := mkInput "$item" (n_ElementType nc) ExpressionTypeUnspecified]> env)) as Hv'.
    { apply env_valid_item; [done|]. destruct (Hok _ _ _ _ _ Hcc Hv) as (_ & [?|?] & _); done. }
    apply (segment_two lo mid hi n e coll pred); auto; [by rewrite Hk|by eapply Hok; [by eapply compiled_iterate|]|].
    intros Hmid. unfold node_accepted. rewrite Ho, Hc, Hni, Hnb. split_and!; try done; [lia|lia|by repeat constructor; lia].
  - intros env lo Hv _. split; [done|]. apply segment_nil. intros ds. constructor.
  - intros env c cs lo mid hi nc is_ ns Hcc IHc Hcs IHcs Hv HD.
    unfold heights in HD. cbn in HD. fold (heights cs) in HD.
    destruct (IHc Hv ltac:(lia)) as [Hlo H1]. destruct (IHcs Hv ltac:(lia)) as [Hhi H2]. split; [lia|].
    refine (segment_impl _ _ _ _ _ (segment_app _ _ _ _ _ H1 H2)). intros ds Hds [Hd1 Hd2]. apply ends_at_take in Hd1.
    constructor; [by apply (child_at_depth _ mid); try lia|exact Hd2].
Qed.
End segment.

(** * All nodes of a compiled tree *)

Lemma compiled_all_ok deps limits nodes :
  (forall env e lo hi n, compiled library deps limits nodes env e lo hi n -> env_valid env ->
     (lo < hi)%nat /\ forall k, (lo <= k < hi)%nat -> exists m, nodes !! k = Some m /\ node_ok m) /\
  (forall env es lo hi is_ ns, compiled_args library deps limits nodes env es lo hi is_ ns -> env_valid env ->
     (lo <= hi)%nat /\ forall k, (lo <= k < hi)%nat -> exists m, nodes !! k = Some m /\ node_ok m).
Proof.
  pose proof (proj1 (compiled_node_ok deps limits nodes)) as Hok.
  pose (seg := fun lo hi : nat => forall k, (lo <= k < hi)%nat -> exists m, nodes !! k = Some m /\ node_ok m).
  assert (Happ : forall lo mid hi, seg lo mid -> seg mid hi -> seg lo hi).
  { intros lo mid hi H1 H2 k Hk. destruct (decide (k < mid)%nat); [apply H1|apply H2]; lia. }
  assert (Hone : forall k n, nodes !! k = Some n -> node_ok n -> seg k (S k)).
  { intros k n Hn Ho j Hj. replace j with k by lia. eauto. }
  apply (compiled_mutind library deps limits nodes
    (fun env e lo hi n => env_valid env -> (lo < hi)%nat /\ seg lo hi)
    (fun env es lo hi is_ ns => env_valid env -> (lo <= hi)%nat /\ seg lo hi)).
  - intros env e lo n ? Hn ? ? ? ? Hv. split; [lia|]. eapply Hone; [done|]. eapply Hok; [by eapply compiled_literal|done].
  - intros env e lo n input ? Hn ? ? ? ? ? Hv. split; [lia|]. eapply Hone; [done|]. eapply Hok; [by eapply compiled_variable|done].
  - intros env e lo n ? Hn ? ? ? ? Hv. split; [lia|]. eapply Hone; [done|]. eapply Hok; [by eapply compiled_unknown|done].
  - intros env e c lo hi nc n ? ? ? IH Hn ? ? ? ? Hv. destruct (IH Hv) as [? Hs]. split; [lia|]. eapply Happ; [exact Hs|].
    eapply Hone; [done|]. eapply Hok; [by eapply compiled_unary|done].
  - intros env e l r lo mid hi nl nr n ? ? ? IHl ? IHr Hn ? ? ? ? Hv. destruct (IHl Hv) as [? Hs]. destruct (IHr Hv) as [? Hs'].
    split; [lia|]. eapply Happ; [exact Hs|]. eapply Happ; [exact Hs'|]. eapply Hone; [done|]. eapply Hok; [by eapply compiled_binary|done].
  - intros env e lo hi args entry n ? ? IH Hn ? ? ? ? ? ? Hv. destruct (IH Hv) as [? Hs]. split; [lia|]. eapply Happ; [exact Hs|].
    eapply Hone; [done|]. eapply Hok; [by eapply compiled_call|done].
  - intros env e coll pred lo mid hi nc np n ? ? Hc IHc ? IHp Hn ? ? ? ? ? ? ? ? ? Hv. destruct (IHc Hv) as [? Hs].
    destruct (Hok _ _ _ _ _ Hc Hv) as (_ & Hel & _). destruct IHp as [? Hs']; [apply env_valid_item; [done|by destruct Hel]|].
    split; [lia|]. eapply Happ; [exact Hs|]. eapply Happ; [exact Hs'|]. eapply Hone; [done|]. eapply Hok; [by eapply compiled_iterate|done].
  - intros env lo Hv. split; [done|]. intros k Hk. lia.
  - intros env c cs lo mid hi nc is_ ns ? IHc ? IHcs Hv. destruct (IHc Hv) as [? Hs]. destruct (IHcs Hv) as [? Hs']. split; [lia|]. eauto.
Qed.

Lemma sum_of_prefix f nodes k : Forall (fun n => 0 <= f n) nodes -> sum_of f (take k nodes) <= sum_of f nodes.
Proof.
  intros H. rewrite <- (take_drop k nodes) at 2. rewrite sum_of_app.
  assert (0 <= sum_of f (drop k nodes)); [|lia]. apply (Forall_drop _ k) in H. induction H; cbn; lia.
Qed.

(** * The declarations *)

Lemma declare_inputs_inv l : forall env env', declare_inputs env l = Ok env' ->
  Forall (fun i => input_invalid i = false) l /\ NoDup (in_Name <$> l) /\ (forall i, i ∈ l -> env !! in_Name i = None) /\
  (forall k i, env' !! k = Some i <-> env !! k = Some i \/ (i ∈ l /\ in_Name i = k)).
Proof.
  induction l as [|x l IH]; cbn [declare_inputs]; intros env env' H.
  - injection H as <-. split_and!; [constructor|constructor|by intros i ?%elem_of_nil|].
    intros k i. split; [by left|]. by intros [?|[?%elem_of_nil _]].
  - apply bind_ok_inv in H as (? & Hi%fail_if_ok & H). apply bind_ok_inv in H as (? & Hx%fail_if_ok & H).
    destruct (IH _ _ H) as (Hf & Hd & Hn & Hl). destruct (env !! in_Name x) eqn:Ex; [done|].
    assert (Hne : forall i, i ∈ l -> in_Name i <> in_Name x).
    { intros i Hil E. specialize (Hn i Hil). by rewrite E, lookup_insert_eq in Hn. }
    split_and!; [by constructor| | |].
    + cbn. constructor; [|done]. intros (i & E & Hil)%list_elem_of_fmap. by apply (Hne i Hil).
    + intros i [->|Hil]%elem_of_cons; [done|]. specialize (Hn i Hil). rewrite lookup_insert_ne in Hn; [done|]. intros E. by apply (Hne i Hil).
    + intros k i. rewrite Hl, lookup_insert_Some, elem_of_cons. split.
      * intros [[[<- <-]|[? ?]]|[? ?]]; auto.
      * intros [Hk|[[->|?] <-]]; [|by left; left|by right]. left. right. split; [|done]. intros <-. by rewrite Ex in Hk.
Qed.

Lemma declare_inputs_ok l : forall env, Forall (fun i => input_invalid i = false) l -> NoDup (in_Name <$> l) ->
  (forall i, i ∈ l -> env !! in_Name i = None) -> exists env', declare_inputs env l = Ok env'.
Proof.
  induction l as [|x l IH]; intros env Hf Hd Hn; cbn [declare_inputs]; [by exists env|].
  inversion Hf as [|? ? Hx Hf']; subst. inversion Hd as [|? ? Hnx Hd']; subst.
  rewrite Hx, (Hn x) by (by left). cbn [fail_if mbind outcome_bind].
  apply IH; [done|done|]. intros i Hi. rewrite lookup_insert_ne; [apply Hn; by right|].
  intros E. apply Hnx. rewrite E. by apply list_elem_of_fmap_2.
Qed.

Lemma declare_inputs_Permutation l l' env env' : l ≡ₚ l' -> declare_inputs env l = Ok env' -> declare_inputs env l' = Ok env'.
Proof.
  intros HP H. destruct (declare_inputs_inv _ _ _ H) as (Hf & Hd & Hn & Hl).
  destruct (declare_inputs_ok l' env) as [env2 H2].
  - by rewrite <- HP.
  - by rewrite <- HP.
  - intros i. rewrite <- HP. apply Hn.
  - destruct (declare_inputs_inv _ _ _ H2) as (_ & _ & _ & Hl2). rewrite H2. f_equal. apply map_eq. intros k.
    apply option_eq. intros i. by rewrite Hl, Hl2, HP.
Qed.

Lemma sort_inputs_id l env env' : declare_inputs env l = Ok env' -> sort_inputs (sort_inputs l) = sort_inputs l.
Proof.
  intros H. destruct (declare_inputs_inv _ _ _ H) as (_ & Hd & _). unfold sort_inputs.
  apply sort_by_id; [by rewrite sort_by_Permutation|apply sort_by_sorted].
Qed.

(** * The order of dependencies *)

Lemma dep_le_lex a b : dep_le a b <->
  (dep_Name a <> dep_Name b /\ String.le (dep_Name a) (dep_Name b)) \/
  (dep_Name a = dep_Name b /\
    ((dep_Version a <> dep_Version b /\ String.le (dep_Version a) (dep_Version b)) \/
     (dep_Version a = dep_Version b /\ String.le (dep_Digest a) (dep_Digest b)))).
Proof.
  unfold dep_le, dependencyLess.
  destruct (String.eqb_spec (dep_Name b) (dep_Name a)) as [->|Hn]; cbn [negb].
  - destruct (String.eqb_spec (dep_Version b) (dep_Version a)) as [->|Hv]; cbn [negb]; rewrite string_ltb_ge; naive_solver.
  - rewrite string_ltb_ge. naive_solver.
Qed.

#[export] Instance dep_le_total : Total dep_le.
Proof.
  intros a b. rewrite !dep_le_lex.
  destruct (decide (dep_Name a = dep_Name b)) as [->|]; [|destruct (total String.le (dep_Name a) (dep_Name b)); naive_solver].
  destruct (decide (dep_Version a = dep_Version b)) as [->|]; [|destruct (total String.le (dep_Version a) (dep_Version b)); naive_solver].
  destruct (total String.le (dep_Digest a) (dep_Digest b)); naive_solver.
Qed.

#[export] Instance dep_le_antisymm : AntiSymm (=) dep_le.
Proof.
  intros [n v d] [n' v' d']. rewrite !dep_le_lex. cbn. intros H1 H2.
  assert (n = n') as ->. { destruct H1 as [[? ?]|[? ?]], H2 as [[? ?]|[? ?]]; try done; by apply (anti_symm String.le). }
  destruct H1 as [[? ?]|[_ H1]], H2 as [[? ?]|[_ H2]]; try done.
  assert (v = v') as ->. { destruct H1 as [[? ?]|[? ?]], H2 as [[? ?]|[? ?]]; try done; by apply (anti_symm String.le). }
  destruct H1 as [[? ?]|[_ H1]], H2 as [[? ?]|[_ H2]]; try done. f_equal. by apply (anti_symm String.le).
Qed.

(** Composing two lexicographic steps. *)
Lemma lex_trans (x y z : string) (P Q R : Prop) : (P -> Q -> R) ->
  (x <> y /\ String.le x y) \/ (x = y /\ P) -> (y <> z /\ String.le y z) \/ (y = z /\ Q) -> (x <> z /\ String.le x z) \/ (x = z /\ R).
Proof.
  intros HR [[Hn Hl]|[-> Hp]] [[Hn' Hl']|[<- Hq]]; auto.
  left. split; [|by trans y]. intros ->. apply Hn. by apply (anti_symm String.le).
Qed.

#[export] Instance dep_le_trans : Transitive dep_le.
Proof.
  intros a b c. rewrite !dep_le_lex. apply lex_trans. apply lex_trans. apply transitivity.
Qed.

Lemma sort_dependencies_id l : sort_dependencies (sort_dependencies l) = sort_dependencies l.
Proof.
  unfold sort_dependencies. apply (StronglySorted_unique dep_le); [apply StronglySorted_merge_sort; apply _..|].
  apply merge_sort_Permutation.
Qed.

(** * What a successful compilation says *)

Record compilation (expr : Expression) (c : CompiledExpression) (env : gmap string Input) (n : IRNode) : Prop := {
  cp_env : declare_inputs ∅ (x_Inputs expr) = Ok env;
  cp_tree : compiled library (ce_Dependencies c) (ce_Limits c) (ir_Nodes (ce_IR c)) env (x_Root expr) 0 (length (ir_Nodes (ce_IR c))) n;
  cp_some : (0 < length (ir_Nodes (ce_IR c)))%nat;
  cp_root : ir_Root (ce_IR c) = Z.of_nat (length (ir_Nodes (ce_IR c))) - 1;
  cp_inputs : ce_Inputs c = sort_inputs (x_Inputs expr);
  cp_deps : ce_Dependencies c = sort_dependencies (x_Dependencies expr);
  cp_height : height (x_Root expr) <= MaxDepth (ce_Limits c);
  cp_nodes : Z.of_nat (length (ir_Nodes (ce_IR c))) <= MaxNodes (ce_Limits c);
  cp_iterations : sum_of iteration_cost (ir_Nodes (ce_IR c)) <= MaxIterations (ce_Limits c);
  cp_cost : ce_Cost c = mkCost (Z.of_nat (length (ir_Nodes (ce_IR c)))) (height (x_Root expr)) (sum_of iteration_cost (ir_Nodes (ce_IR c)))
    (Z.of_nat (length (ir_Nodes (ce_IR c))) + sum_of iteration_cost (ir_Nodes (ce_IR c)) + sum_of call_cost (ir_Nodes (ce_IR c))
     + Z.of_nat (length (ce_Inputs c)) + Z.of_nat (length (ce_Dependencies c)));
  cp_total : c_Total (ce_Cost c) <= MaxCost (ce_Limits c);
  cp_limits : limits_positive (ce_Limits c) = true;
  cp_declared : Z.of_nat (length (ce_Inputs c)) + Z.of_nat (length (ce_Dependencies c)) <= MaxCost (ce_Limits c);
  cp_version : ce_Version c <> "";
  cp_unknown : UnknownSemantics_Valid (ce_UnknownSemantics c) = true;
  cp_library : ce_FunctionLibraryVersion c = lib_version library /\ ce_FunctionLibraryDigest c = lib_digest library;
  cp_dep_ok : existsb dependency_invalid (ce_Dependencies c) = false;
  cp_dep_digest : dependenciesDigest (ce_Dependencies c) = Ok (ce_DependencyDigest c);
  cp_digest : compiledDigest (ce_Version c) (ce_UnknownSemantics c) (ce_Inputs c) (ce_Dependencies c) (ce_DependencyDigest c)
    (ce_FunctionLibraryVersion c) (ce_FunctionLibraryDigest c) (ce_IR c) (ce_Cost c) (ce_Limits c) = Ok (ce_Digest c)
}.

Lemma sort_inputs_length l : length (sort_inputs l) = length l.
Proof. unfold sort_inputs. by rewrite sort_by_Permutation. Qed.

Lemma sort_dependencies_length l : length (sort_dependencies l) = length l.
Proof. unfold sort_dependencies. by rewrite merge_sort_Permutation. Qed.

Lemma ok_inj {E A} (a b : A) : @Ok E A a = Ok b -> a = b.
Proof. congruence. Qed.

Lemma compile_inv expr limits c : CompileExpression expr limits = Ok c ->
  exists env n, compilation expr c env n /\ ce_UnknownSemantics c = x_UnknownSemantics expr /\
    ce_Limits c = (match limits with [l] => l | _ => DefaultCostLimit end).
Proof.
  unfold CompileExpression, CompileExpressionWithLibrary. intros H.
  apply bind_ok_inv in H as (? & _ & H). apply bind_ok_inv in H as (limit & Hlimit & H).
  apply bind_ok_inv in H as (? & Hpos%fail_if_ok%negb_false_iff & H). apply bind_ok_inv in H as (? & Hver%fail_if_ok & H).
  apply bind_ok_inv in H as (? & Hunk%fail_if_ok%negb_false_iff & H). apply bind_ok_inv in H as (? & Hdecl%fail_if_ok%Z.ltb_ge & H).
  apply bind_ok_inv in H as (env & Henv & H). apply bind_ok_inv in H as (? & Hdeps%fail_if_ok & H).
  apply bind_ok_inv in H as (depDigest & Hdig & H).
  destruct (lower _ _ _) as [state r] eqn:El. apply bind_ok_inv in H as ([root typ] & -> & H).
  apply bind_ok_inv in H as (? & _ & H). apply bind_ok_inv in H as (? & Htot%fail_if_ok%Z.ltb_ge & H).
  apply bind_ok_inv in H as (digest & Hd & H). apply ok_inj in H. subst c.
  destruct (lower_compiled _ _ _ _ _ _ El) as (new & n & [E1 E2 E3 E4 E5 E6 E7 E8 E9] & Hnew & Hroot & _ & Hcomp & HD & Hw).
  cbn in E1, E2, E3, E4, E5, E6, E7, E8, E9, HD, Hw, Hcomp. rewrite E5 in *. pose proof (height_pos (x_Root expr)).
  destruct Hw as [W1 W2]. { apply andb_true_iff in Hpos as [Hpos _]. repeat (apply andb_true_iff in Hpos as [Hpos ?]). split; cbn; lia. }
  rewrite E6 in W1. rewrite E7 in W2. cbn in W1, W2.
  exists env, n. split; [|split; [done|]].
  2: { cbn. destruct limits as [|? [|]]; try done; by apply ok_inj in Hlimit. }
  split; cbn; rewrite ?E5, ?sort_inputs_length; try done; try lia.
  - rewrite E6, E7, E8, E9, sort_dependencies_length. cbn. f_equal; lia.
  - rewrite sort_dependencies_length. lia.
  - by apply String.eqb_neq.
Qed.

Lemma env_declared inputs env : declare_inputs ∅ inputs = Ok env -> env_valid env.
Proof.
  intros H. destruct (declare_inputs_inv _ _ _ H) as (Hf & _ & _ & Hl). intros k i Hi. apply Hl in Hi as [Hi|[Hi _]]; [done|].
  rewrite Forall_forall in Hf. specialize (Hf i Hi). unfold input_invalid in Hf.
  repeat (apply orb_false_iff in Hf as [Hf ?]). apply negb_false_iff in H2. split; [done|].
  destruct (type_is (in_Type i) ExpressionTypeList); cbn in *.
  - right. by apply negb_false_iff.
  - left. by apply negb_false_iff, type_is_true in H0.
Qed.

Lemma digest_nonempty schema v os d : digest_of schema v os = Ok d -> d <> "".
Proof.
  unfold digest_of, Writer_Digest. destruct (Writer_Bytes _); cbn; try done. by intros [= <-].
Qed.

(** * The artifact passes its validation *)

Lemma validate_compiled expr c env n : compilation expr c env n ->
  exists ds, validate_nodes library (ce_Dependencies c) (ce_Limits c) (ir_Nodes (ce_IR c)) (ir_Nodes (ce_IR c)) 0 [] 0 0
    = Ok (ds, sum_of iteration_cost (ir_Nodes (ce_IR c)), sum_of call_cost (ir_Nodes (ce_IR c))) /\
  ds !! Z.to_nat (ir_Root (ce_IR c)) = Some (height (x_Root expr)).
Proof.
  intros Hc. pose proof (env_declared _ _ (cp_env _ _ _ _ Hc)) as Hv. pose proof (cp_tree _ _ _ _ Hc) as Ht.
  pose proof (cp_iterations _ _ _ _ Hc) as Hit. set (nodes := ir_Nodes (ce_IR c)) in *.
  destruct (proj1 (compiled_all_ok _ _ _) _ _ _ _ _ Ht Hv) as [Hlen Hall].
  assert (Hbudget : forall k, sum_upto nodes iteration_cost k <= MaxIterations (ce_Limits c)).
  { intros k. transitivity (sum_of iteration_cost nodes); [|done]. apply sum_of_prefix, Forall_lookup. intros j m Hj.
    destruct (Hall j) as (m' & Hm & Ho); [apply lookup_lt_Some in Hj; lia|]. rewrite Hj in Hm. injection Hm as <-. apply Ho. }
  destruct (proj1 (validate_segment _ _ _ Hbudget) _ _ _ _ _ Ht Hv (cp_height _ _ _ _ Hc)) as [_ Hseg].
  destruct (Hseg [] eq_refl) as (ds & Hds & Hend & E). exists ds. cbn in Hds, Hend.
  unfold validate_at, sum_upto in E. rewrite drop_all, !firstn_all in E. cbn in E. split; [exact E|].
  unfold ends_at in Hend. rewrite (cp_root _ _ _ _ Hc). fold nodes. rewrite <- Hend. f_equal. lia.
Qed.

Lemma compilation_valid expr c env n : compilation expr c env n -> validateCompiledArtifact c library = Ok tt.
Proof.
  intros Hc. destruct (validate_compiled _ _ _ _ Hc) as (ds & Hval & Hroot).
  pose proof (cp_root _ _ _ _ Hc) as Hr. pose proof (cp_some _ _ _ _ Hc) as Hs. pose proof (cp_nodes _ _ _ _ Hc) as Hn.
  pose proof (cp_total _ _ _ _ Hc) as Htot. pose proof (cp_declared _ _ _ _ Hc) as Hdecl. destruct (cp_library _ _ _ _ Hc) as [Hl1 Hl2].
  pose proof (cp_digest _ _ _ _ Hc) as Hdig.
  assert (Hd0 : ce_Digest c <> "").
  { apply map_err_ok in Hdig. by eapply digest_nonempty. }
  unfold validateCompiledArtifact.
  rewrite (proj2 (String.eqb_neq _ _) Hd0), (proj2 (Z.ltb_ge (ir_Root _) 0)), (proj2 (Z.leb_gt _ (ir_Root _))), (cp_unknown _ _ _ _ Hc),
    (proj2 (String.eqb_neq _ _) (cp_version _ _ _ _ Hc)) by lia. cbn [orb negb fail_if mbind outcome_bind].
  rewrite Hl1, Hl2, !String.eqb_refl. cbn [orb negb fail_if mbind outcome_bind].
  rewrite (cp_limits _ _ _ _ Hc), (proj2 (Z.ltb_ge _ _) Hdecl). cbn [orb negb fail_if mbind outcome_bind].
  pose proof (cp_inputs _ _ _ _ Hc) as Hin. pose proof (cp_deps _ _ _ _ Hc) as Hdp.
  assert (sort_inputs (ce_Inputs c) = ce_Inputs c) as ->.
  { rewrite Hin. eapply sort_inputs_id. apply (cp_env _ _ _ _ Hc). }
  assert (sort_dependencies (ce_Dependencies c) = ce_Dependencies c) as ->.
  { rewrite Hdp. apply sort_dependencies_id. }
  assert (declare_inputs ∅ (ce_Inputs c) = Ok env) as ->.
  { rewrite Hin. eapply declare_inputs_Permutation; [symmetry; apply sort_by_Permutation|apply (cp_env _ _ _ _ Hc)]. }
  cbn [mbind outcome_bind]. rewrite (cp_dep_ok _ _ _ _ Hc). cbn [fail_if mbind outcome_bind].
  rewrite (cp_dep_digest _ _ _ _ Hc). cbn [mbind outcome_bind]. rewrite String.eqb_refl. cbn [negb fail_if mbind outcome_bind].
  rewrite (proj2 (Z.ltb_ge _ _) Hn). cbn [fail_if mbind outcome_bind]. rewrite Hval. cbn [mbind outcome_bind]. rewrite Hroot.
  rewrite bool_decide_true by (by rewrite (cp_cost _ _ _ _ Hc)). cbn [negb fail_if mbind outcome_bind].
  rewrite (cp_cost _ _ _ _ Hc) in Htot. cbn in Htot. rewrite (proj2 (Z.ltb_ge _ _)) by exact Htot. cbn [fail_if mbind outcome_bind].
  rewrite <- Hl1, <- Hl2, Hdig. cbn [mbind outcome_bind]. by rewrite String.eqb_refl.
Qed.
End artifact.
