(* ===== verification/ExpressionTree.v ===== *)
(** What a compiled expression computes: the meaning of its tree.

    [evalTree] evaluates a tree directly, with the cost as its only state.
    [node_agrees] shows that [evaluateNode] on the compiled nodes computes it,
    whatever the cache and the trace hold, and [evaluate_tree] that so does the
    evaluation of a whole artifact. *)

From stdpp Require Import sorting.
From S2P Require Import Prelude GoStrings Sorting CanonicalBytes FixedDecimal CivilTime RuleValues Expression ExpressionEval ExpressionLower ExpressionArtifact.

Local Open Scope Z_scope.

Section tree.
Context {SHA : Sha256} {CM : CaseMapping} {DB : DecimalBackend}.
Abbreviation library := DefaultExpressionFunctionLibrary.

(** * The semantics of trees *)

(** The published name of a function, under which a call is evaluated. *)
Definition published_name (fn : string) : string :=
  match library_entry library (strings_ToLower fn) with Some entry => fe_Name entry | None => fn end.

(** The declared element type of a collection; only variables have one. *)
Definition element_type (env : gmap string Input) (e : Expr) : ExpressionType :=
  match e_Kind e with
  | ExprKindVariable => match env !! e_Name e with Some i => in_ElementType i | None => ExpressionTypeUnspecified end
  | _ => ExpressionTypeUnspecified
  end.

Definition item_env (env : gmap string Input) (coll : Expr) : gmap string Input :=
  <["$item" := mkInput "$item" (element_type env coll) ExpressionTypeUnspecified]> env.

(** Arguments from left to right, each one's cost passed to the next. *)
Definition tree_args (ev : Expr -> Z -> outcome rules_err (runtimeValue * Z)) : list Expr -> Z -> outcome rules_err (list runtimeValue * Z) :=
  fix loop es cost :=
    match es with
    | [] => Ok ([], cost)
    | e :: rest => '(r, c1) ← ev e cost; '(rs, c2) ← loop rest c1; Ok (r :: rs, c2)
    end.

(** The items in order, up to the first that decides or is not known. *)
Definition tree_items (ev : Value -> Z -> outcome rules_err (runtimeValue * Z)) (o : IterationOp)
    : list Value -> runtimeValue -> Z -> outcome rules_err (runtimeValue * Z) :=
  fix loop items result cost :=
    match items with
    | [] => Ok (result, cost)
    | item :: rest =>
        '(predicate, c) ← ev item cost;
        match predicate with
        | NotKnown => Ok (NotKnown, c)
        | Present v =>
            match o with
            | IterationOpAny => if (Value_Bool v).1 then Ok (Present (BoolValue true), c) else loop rest result c
            | IterationOpAll => if negb (Value_Bool v).1 then Ok (Present (BoolValue false), c) else loop rest result c
            | _ => loop rest result c
            end
        end
    end.

Section semantics.
Context (maxCost maxList : Z) (deps : list Dependency).

Fixpoint evalTree (env : gmap string Input) (inputs : gmap string Value) (e : Expr) (cost : Z) {struct e}
    : outcome rules_err (runtimeValue * Z) :=
  match e with
  | mkExpr kind _ name fn value un bin iter bound children =>
      match kind with
      | ExprKindLiteral => Ok (Present value, cost)
      | ExprKindVariable => r ← eval_variable inputs env name; Ok (r, cost)
      | ExprKindUnknown => Ok (NotKnown, cost)
      | ExprKindUnary =>
          match children with
          | [c] => '(v, k) ← evalTree env inputs c cost; r ← evaluateUnary un v; Ok (r, k)
          | _ => Panic
          end
      | ExprKindBinary =>
          match children with
          | [l; r] =>
              '(lv, k) ← evalTree env inputs l cost;
              match short_circuit bin lv with
              | Some v => Ok (v, k)
              | None => '(rv, k2) ← evalTree env inputs r k; v ← evaluateBinary bin lv rv; Ok (v, k2)
              end
          | _ => Panic
          end
      | ExprKindCall =>
          '(args, k) ← tree_args (evalTree env inputs) children cost;
          evaluateCall (published_name fn) args k maxCost maxList deps
      | ExprKindIterate =>
          match children with
          | [coll; pred] =>
              '(cv, k) ← evalTree env inputs coll cost;
              match cv with
              | NotKnown => Ok (NotKnown, k)
              | Present v =>
                  _ ← fail_if (negb (bool_decide (Value_Kind v = KindList)) || (bound <? Z.of_nat (length (v_list v)))) ErrExpressionUnbounded;
                  tree_items (fun item => evalTree (item_env env coll) (<["$item" := item]> inputs) pred) iter
                    (v_list v) (iteration_start iter) k
              end
          | _ => Panic
          end
      | ExprKindUnspecified | ExprKindUndeclared _ => Panic
      end
  end.

(** * Agreement of the two evaluators *)

Definition frame (lo hi : nat) (st st' : estate) : Prop :=
  forall j, j < Z.of_nat lo \/ Z.of_nat hi <= j -> es_cache st' !! j = es_cache st !! j.

(** The same answer, the same cost, and nothing cached outside the segment. *)
Definition agrees {A} (lo hi : nat) (st : estate) (t : outcome rules_err (A * Z)) (m : outcome rules_err (A * estate)) : Prop :=
  match t with
  | Ok (r, k) => exists st', m = Ok (r, st') /\ es_cost st' = k /\ frame lo hi st st'
  | Err x => m = Err x
  | Panic => m = Panic
  end.

Lemma frame_refl lo hi st : frame lo hi st st.
Proof. by intros j _. Qed.

Lemma frame_trans lo mid hi lo' st1 st2 st3 : (lo <= lo')%nat -> (lo <= mid <= hi)%nat ->
  frame lo mid st1 st2 -> frame lo' hi st2 st3 -> frame lo hi st1 st3.
Proof. intros H1 H2 F1 F2 j Hj. rewrite F2, F1 by lia. done. Qed.

(** Sequencing: the second part starts where the first one left the cache. *)
Lemma agrees_bind {A B} lo mid lo' hi st (t : outcome rules_err (A * Z)) m (k1 : A * Z -> outcome rules_err (B * Z)) k2 :
  (lo <= lo')%nat -> (lo <= mid <= hi)%nat -> agrees lo mid st t m ->
  (forall r st1, frame lo mid st st1 -> agrees lo' hi st1 (k1 (r, es_cost st1)) (k2 (r, st1))) ->
  agrees lo hi st (t ≫= k1) (m ≫= k2).
Proof.
  intros H1 H2 H Hk. destruct t as [[r k]| |]; cbn in H; [|by rewrite H..].
  destruct H as (st1 & -> & <- & Hf). cbn [mbind outcome_bind]. specialize (Hk r st1 Hf). unfold agrees in *.
  destruct (k1 _) as [[r2 k3]| |]; try done. destruct Hk as (st2 & ? & ? & Hf2). exists st2. split_and!; [done|done|].
  by eapply frame_trans.
Qed.

(** A step that leaves the state alone. *)
Lemma agrees_pure {A B} lo hi st (m : outcome rules_err B) (k1 : B -> outcome rules_err (A * Z)) k2 :
  (forall b, m = Ok b -> agrees lo hi st (k1 b) (k2 b)) -> agrees lo hi st (m ≫= k1) (m ≫= k2).
Proof. destruct m as [b| |]; cbn; auto. Qed.

Lemma agrees_record lo hi n r st : (lo <= hi)%nat ->
  agrees lo (S hi) st (Ok (r, es_cost st)) (Ok (record_step (Z.of_nat hi) n r st)).
Proof.
  intros H. eexists. split; [done|]. split; [done|]. intros j Hj. cbn. apply lookup_insert_ne. lia.
Qed.

(** Nothing of the segment is cached yet. *)
Definition fresh (lo hi : nat) (st : estate) : Prop := forall j, Z.of_nat lo <= j < Z.of_nat hi -> es_cache st !! j = None.

Lemma fresh_sub lo hi lo' hi' st : (lo <= lo')%nat -> (hi' <= hi)%nat -> fresh lo hi st -> fresh lo' hi' st.
Proof. intros H1 H2 H j Hj. apply H. lia. Qed.

Lemma fresh_frame lo mid hi st st1 : (lo <= mid)%nat -> frame lo mid st st1 -> fresh lo hi st -> fresh mid hi st1.
Proof. intros H Hf Hs j Hj. rewrite Hf by lia. apply Hs. lia. Qed.

Section program.
Context (limits : CostLimit) (ir : IR).
Abbreviation nodes := (ir_Nodes ir).
Abbreviation prog := (mkProgram ir maxCost maxList deps).

(** What [evaluateNode] does at a node that is not cached. *)
Definition node_step (fuel : nat) (inputs : gmap string Value) (types : gmap string Input) (index : Z) (n : IRNode) (st : estate)
    : outcome rules_err (runtimeValue * estate) :=
  let ev := evaluateNode fuel prog inputs types in
  match n_Opcode n with
  | OpcodeLiteral => Ok (record_step index n (Present (n_Value n)) st)
  | OpcodeUnknown => Ok (record_step index n NotKnown st)
  | OpcodeVariable => r ← eval_variable inputs types (n_Name n); Ok (record_step index n r st)
  | OpcodeUnary =>
      c ← child_at n 0; '(child, st1) ← ev c st; r ← evaluateUnary (n_Unary n) child; Ok (record_step index n r st1)
  | OpcodeBinary =>
      c0 ← child_at n 0;
      '(lv, st1) ← ev c0 st;
      match short_circuit (n_Binary n) lv with
      | Some r => Ok (record_step index n r st1)
      | None => c1 ← child_at n 1; '(rv, st2) ← ev c1 st1; r ← evaluateBinary (n_Binary n) lv rv; Ok (record_step index n r st2)
      end
  | OpcodeCall =>
      '(args, st1) ← eval_args ev (n_Children n) st;
      '(r, cost) ← evaluateCall (n_Function n) args (es_cost st1) maxCost maxList deps;
      Ok (record_step index n r (mkEstate (es_cache st1) (es_steps st1) cost))
  | OpcodeIterate =>
      c0 ← child_at n 0;
      '(collection, st1) ← ev c0 st;
      match collection with
      | NotKnown => Ok (record_step index n NotKnown st1)
      | Present v =>
          _ ← fail_if (negb (bool_decide (Value_Kind v = KindList)) || (n_IterationBound n <? Z.of_nat (length (v_list v)))) ErrExpressionUnbounded;
          '(r, st2) ←
            eval_items (fun item st' =>
              cn ← node_at nodes c0; c1 ← child_at n 1;
              evaluateNode fuel prog (<["$item" := item]> inputs)
                (<["$item" := mkInput "$item" (n_ElementType cn) ExpressionTypeUnspecified]> types) c1 st')
              (n_Iteration n) (v_list v) (iteration_start (n_Iteration n)) st1;
          Ok (record_step index n r st2)
      end
  | OpcodeUndeclared _ => Err ErrExpressionEvaluation
  end.

Lemma evaluateNode_step fuel inputs types i n st : es_cache st !! i = None -> node_at nodes i = Ok n ->
  evaluateNode (S fuel) prog inputs types i st = node_step fuel inputs types i n st.
Proof. intros Hc Hn. cbn [evaluateNode]. rewrite Hc. cbn [pg_IR]. by rewrite Hn. Qed.

Lemma agrees_items lo hi tev ev o items : forall result st,
  (forall item st0, es_cache st0 = ∅ -> agrees lo hi st0 (tev item (es_cost st0)) (ev item st0)) ->
  agrees lo hi st (tree_items tev o items result (es_cost st)) (eval_items ev o items result st).
Proof.
  intros result st H. revert st. induction items as [|item items IH]; intros st.
  { exists st. split_and!; [done|done|apply frame_refl]. }
  cbn [tree_items eval_items].
  pose proof (H item (mkEstate ∅ (es_steps st) (es_cost st))) as Hi. specialize (Hi eq_refl). cbn [es_cost] in Hi. unfold agrees in Hi.
  destruct (tev item (es_cost st)) as [[r k]|x|]; [|by rewrite Hi..].
  destruct Hi as (st1 & -> & <- & _). cbn [mbind outcome_bind].
  set (st2 := mkEstate (es_cache st) (es_steps st1) (es_cost st1)).
  assert (Hrec : agrees lo hi st (tree_items tev o items result (es_cost st1)) (eval_items ev o items result st2)) by exact (IH st2).
  destruct r as [v|]; [|exists st2; split_and!; [done|done|by intros j _]].
  destruct o; try exact Hrec; destruct (Value_Bool v).1; cbn [negb]; try exact Hrec;
    (exists st2; split_and!; [done|done|by intros j _]).
Qed.

(** ** The node of each kind of tree *)

Lemma child_at_cons n c cs k : n_Children n = c :: cs -> child_at n 0 = Ok c /\ (cs = k :: tail cs -> child_at n 1 = Ok k).
Proof. unfold child_at. intros ->. split; [done|]. by intros ->. Qed.

Lemma agrees_call lo hi n args st1 : (lo <= hi)%nat ->
  agrees lo (S hi) st1 (evaluateCall (n_Function n) args (es_cost st1) maxCost maxList deps)
    ('(r, cost) ← evaluateCall (n_Function n) args (es_cost st1) maxCost maxList deps;
     Ok (record_step (Z.of_nat hi) n r (mkEstate (es_cache st1) (es_steps st1) cost))).
Proof.
  intros H. destruct (evaluateCall _ _ _ _ _ _) as [[r c]| |]; [|done..].
  destruct (agrees_record lo hi n r (mkEstate (es_cache st1) (es_steps st1) c) H) as (st2 & ? & ? & ?).
  exists st2. by split_and!.
Qed.

(** The published name is the one the node carries. *)
Lemma published_call is_ ns fn entry t : callType library deps fn is_ ns = Ok (entry, t) -> published_name fn = fe_Name entry.
Proof. intros H. unfold published_name. by destruct (call_entry _ _ _ _ _ _ H) as [-> _]. Qed.

(** A collection's node carries its declared element type. *)
Lemma compiled_element env e lo hi n : compiled library deps limits nodes env e lo hi n -> n_ElementType n = element_type env e.
Proof.
  unfold element_type. inversion 1; subst;
    match goal with Hk : e_Kind _ = _ |- _ => rewrite Hk end; try done.
  match goal with Hi : env !! _ = Some _ |- _ => by rewrite Hi end.
Qed.

Lemma agrees_ret {A} (t : outcome rules_err (A * Z)) : ('(r, k) ← t; Ok (r, k)) = t.
Proof. by destruct t as [[]| |]. Qed.

Definition evaluates (env : gmap string Input) (e : Expr) (lo hi : nat) : Prop :=
  forall fuel inputs st, (hi <= fuel)%nat -> fresh lo hi st ->
    agrees lo hi st (evalTree env inputs e (es_cost st)) (evaluateNode fuel prog inputs env (Z.of_nat hi - 1) st).

Definition evaluates_args (env : gmap string Input) (es : list Expr) (lo hi : nat) (is_ : list Z) : Prop :=
  forall fuel inputs st, (hi <= fuel)%nat -> fresh lo hi st ->
    agrees lo hi st (tree_args (evalTree env inputs) es (es_cost st)) (eval_args (evaluateNode fuel prog inputs env) is_ st).

(** The last node of a segment is evaluated by its own step. *)
Lemma evaluates_step env e lo hi n : (lo <= hi)%nat -> nodes !! hi = Some n ->
  (forall fuel inputs st, (hi <= fuel)%nat -> fresh lo (S hi) st ->
     agrees lo (S hi) st (evalTree env inputs e (es_cost st)) (node_step fuel inputs env (Z.of_nat hi) n st)) ->
  evaluates env e lo (S hi).
Proof.
  intros Hl Hn H fuel inputs st Hf Hs. replace (Z.of_nat (S hi) - 1) with (Z.of_nat hi) by lia.
  destruct fuel as [|fuel]; [lia|]. rewrite (evaluateNode_step fuel inputs env _ n).
  - apply H; [lia|done].
  - apply Hs. lia.
  - by apply node_at_lookup.
Qed.

Lemma node_agrees :
  (forall env e lo hi n, compiled library deps limits nodes env e lo hi n -> (lo < hi)%nat /\ evaluates env e lo hi) /\
  (forall env es lo hi is_ ns, compiled_args library deps limits nodes env es lo hi is_ ns -> (lo <= hi)%nat /\ evaluates_args env es lo hi is_).
Proof.
  apply (compiled_mutind library deps limits nodes (fun env e lo hi _ => (lo < hi)%nat /\ evaluates env e lo hi)
    (fun env es lo hi is_ _ => (lo <= hi)%nat /\ evaluates_args env es lo hi is_)).
  - intros env [] lo n Hk Hn (Ho & _ & Hv & _) _ _ _. cbn in Hk, Hv. subst. split; [lia|].
    apply (evaluates_step _ _ _ _ n); [done..|]. intros fuel inputs st _ _. unfold node_step. rewrite Ho. by apply agrees_record.
  - intros env [] lo n input Hk Hn (Ho & Hname & _) _ Hi _ _. cbn in Hk, Hname. subst. split; [lia|].
    apply (evaluates_step _ _ _ _ n); [done..|]. intros fuel inputs st _ _. unfold node_step. rewrite Ho. cbn [evalTree].
    apply agrees_pure. intros r _. by apply agrees_record.
  - intros env [] lo n Hk Hn (Ho & _) _ _ _. cbn in Hk. subst. split; [lia|].
    apply (evaluates_step _ _ _ _ n); [done..|]. intros fuel inputs st _ _. unfold node_step. rewrite Ho. by apply agrees_record.
  - intros env [] c lo hi nc n Hk Hcs _ [Hlo IH] Hn (Ho & _ & _ & Hu & _) Hc _ _. cbn in Hk, Hcs, Hu. subst. split; [lia|].
    apply (evaluates_step _ _ _ _ n); [lia|done|]. intros fuel inputs st Hf Hs. unfold node_step, child_at. rewrite Ho, Hc.
    apply (agrees_bind lo hi lo (S hi)); [done|lia|apply IH; [lia|by apply (fresh_sub lo (S hi)); [..|exact Hs]; lia]|].
    intros r st1 Hfr. apply agrees_pure. intros v _. apply agrees_record. lia.
  - intros env [] l r lo mid hi nl nr n Hk Hcs _ [Hlo IHl] _ [Hhi IHr] Hn (Ho & _ & _ & _ & Hb & _) Hc _ _. cbn in Hk, Hcs, Hb. subst.
    split; [lia|]. apply (evaluates_step _ _ _ _ n); [lia|done|]. intros fuel inputs st Hf Hs. unfold node_step, child_at. rewrite Ho, Hc.
    apply (agrees_bind lo mid mid (S hi)); [lia|lia|apply IHl; [lia|by apply (fresh_sub lo (S hi)); [..|exact Hs]; lia]|].
    intros lv st1 Hf1. destruct (short_circuit _ lv) as [v|]; [apply agrees_record; lia|].
    apply (agrees_bind mid hi mid (S hi)); [lia|lia| |].
    + apply IHr; [lia|]. apply (fresh_frame lo mid hi st); [lia|done|]. by apply (fresh_sub lo (S hi)); [..|exact Hs]; lia.
    + intros rv st2 Hf2. apply agrees_pure. intros v _. apply agrees_record. lia.
  - intros env [] lo hi args entry n Hk _ [Hlo IH] Hn (Ho & _) _ Hct Hfn _ _. cbn in Hk, Hct, IH. subst. split; [lia|].
    apply (evaluates_step _ _ _ _ n); [lia|done|]. intros fuel inputs st Hf Hs. unfold node_step. rewrite Ho.
    cbn [evalTree]. rewrite (published_call _ _ _ _ _ Hct), <- Hfn.
    apply (agrees_bind lo hi lo (S hi)); [done|lia|apply IH; [lia|by apply (fresh_sub lo (S hi)); [..|exact Hs]; lia]|].
    intros rs st1 _. apply agrees_call. lia.
  - intros env [] coll pred lo mid hi nc np n Hk Hcs Hcc [Hlo IHc] _ [Hhi IHp] Hn (Ho & _ & _ & _ & _ & Hit & Hb) Hc _ _ _ _ _ _ _.
    cbn in Hk, Hcs, Hit, Hb. subst. split; [lia|].
    apply (evaluates_step _ _ _ _ n); [lia|done|]. intros fuel inputs st Hf Hs. unfold node_step, child_at. rewrite Ho, Hc.
    cbn [evalTree lookup list_lookup mbind outcome_bind].
    apply (agrees_bind lo mid mid (S hi)); [lia|lia|apply IHc; [lia|by apply (fresh_sub lo (S hi)); [..|exact Hs]; lia]|].
    intros [v|] st1 Hf1; [|apply agrees_record; lia]. apply agrees_pure. intros _ _.
    rewrite <- (agrees_ret (tree_items _ _ _ _ _)).
    apply (agrees_bind mid hi mid (S hi)); [lia|lia| |].
    + apply agrees_items. intros item st0 Hst0. rewrite (compiled_last _ _ _ _ _ _ _ _ _ Hcc). cbn [mbind outcome_bind].
      rewrite (compiled_element _ _ _ _ _ Hcc) in *. apply (IHp fuel (<["$item" := item]> inputs) st0); [lia|]. intros j _. by rewrite Hst0.
    + intros r st2 _. apply agrees_record. lia.
  - intros env lo. split; [done|]. intros fuel inputs st _ _. exists st. by split_and!.
  - intros env c cs lo mid hi nc is_ ns Hcc [Hlo IHc] _ [Hhi IHcs]. split; [lia|]. intros fuel inputs st Hf Hs.
    cbn [tree_args eval_args].
    apply (agrees_bind lo mid mid hi); [lia|lia|apply IHc; [lia|by apply (fresh_sub lo hi); [..|exact Hs]; lia]|].
    intros r st1 Hf1. apply (agrees_bind mid hi mid hi); [lia|lia|apply IHcs; [lia|]|].
    + by apply (fresh_frame lo mid hi st); [lia|..].
    + intros rs st2 _. exists st2. split_and!; [done|done|apply frame_refl].
Qed.
End program.
End semantics.

(** * The evaluation of an artifact *)

Lemma declare_inputs_env l : forall m env, declare_inputs m l = Ok env -> fold_left (fun m i => <[in_Name i := i]> m) l m = env.
Proof.
  induction l as [|i l IH]; cbn; intros m env H; [by injection H|].
  apply bind_ok_inv in H as (? & _ & H). apply bind_ok_inv in H as (? & _ & H). by apply IH.
Qed.

Lemma compilation_types expr c env n : compilation expr c env n -> input_types (ce_Inputs c) = env.
Proof.
  intros H. apply declare_inputs_env. rewrite (cp_inputs _ _ _ _ H).
  eapply declare_inputs_Permutation; [symmetry; apply sort_by_Permutation|apply (cp_env _ _ _ _ H)].
Qed.

(** The declared names, in the order the checks visit them. *)
Definition declared_names (types : gmap string Input) : list string := sort_Strings (map_to_list types).*1.

(** Evaluation as the language means it: the checks on the inputs, then the
    value of the tree within the artifact's limits. *)
Definition evaluate_reference (e : Expr) (c : CompiledExpression) (inputs : gmap string Value) : outcome rules_err (EvalState * Value) :=
  let types := input_types (ce_Inputs c) in
  cost ← preflight_cost (ce_Limits c) inputs (declared_names types) (c_Total (ce_Cost c));
  _ ← preflight_values inputs types (declared_names types);
  '(v, _) ← evalTree (MaxCost (ce_Limits c)) (MaxIterations (ce_Limits c)) (ce_Dependencies c) types inputs e cost;
  match v with
  | NotKnown => _ ← fail_if (bool_decide (ce_UnknownSemantics c = UnknownSemanticsReject)) ErrExpressionUnknown; Ok (EvalStateUnknown, Value_zero)
  | Present w => Ok (EvalStatePresent, w)
  end.

(** The evaluation without its trace. *)
Definition answer (r : outcome rules_err ExpressionResult) : outcome rules_err (EvalState * Value) :=
  r ← r; Ok (er_State r, er_Value r).

Lemma compilation_root expr c env n : compilation expr c env n -> node_at (ir_Nodes (ce_IR c)) (ir_Root (ce_IR c)) = Ok n.
Proof. intros H. rewrite (cp_root _ _ _ _ H). eapply compiled_last, cp_tree, H. Qed.

Lemma evaluate_tree expr c env n inputs : compilation expr c env n ->
  answer (CompiledExpression_Evaluate c inputs) = evaluate_reference (x_Root expr) c inputs /\
  (forall r, CompiledExpression_Evaluate c inputs = Ok r -> er_Type r = n_Type n /\ er_Digest r = ce_Digest c).
Proof.
  intros H. pose proof (compilation_types _ _ _ _ H) as Ht. pose proof (compilation_root _ _ _ _ H) as Hr.
  unfold CompiledExpression_Evaluate, evaluate_reference, declared_names. rewrite (compilation_valid _ _ _ _ H), Ht, Hr. cbn [mbind outcome_bind].
  destruct (preflight_cost _ _ _ _) as [cost| |]; cbn [mbind outcome_bind]; [|by split..].
  destruct (preflight_values _ _ _) as [[]| |]; cbn [mbind outcome_bind]; [|by split..].
  destruct (proj1 (node_agrees (MaxCost (ce_Limits c)) (MaxIterations (ce_Limits c)) (ce_Dependencies c) (ce_Limits c) (ce_IR c)) _ _ _ _ _ (cp_tree _ _ _ _ H)) as [_ Hev].
  specialize (Hev (S (length (ir_Nodes (ce_IR c)))) inputs (mkEstate ∅ [] cost) ltac:(lia) ltac:(done)).
  rewrite <- (cp_root _ _ _ _ H) in Hev. cbn [es_cost] in Hev. unfold agrees in Hev.
  destruct (evalTree _ _ _ _ _ _ _) as [[v k]| |]; [|by rewrite Hev; split..].
  destruct Hev as (st & -> & _). cbn [mbind outcome_bind].
  destruct v as [w|]; [|destruct (bool_decide _)]; cbn; (split; [done|]); intros r [= <-]; done.
Qed.
End tree.
