(* ===== verification/ExpressionSound.v ===== *)
(** The meaning of compiled trees: types, totality, budget, information.

    Operators and functions are treated one by one ([*_sound] for their types,
    [*_total] for the absence of panics), trees by induction on their
    compilation.  The absence of panics relies on the laws of the decimal
    backend: multiplication rounds through it. *)

From stdpp Require Import sorting.
From S2P Require Import Prelude GoStrings Sorting CanonicalBytes FixedDecimal CivilTime RuleValues Expression ExpressionEval ExpressionLower ExpressionArtifact ExpressionTree.

Local Open Scope Z_scope.

Section sound.
Context {SHA : Sha256} {CM : CaseMapping} {DB : DecimalBackend}.
Abbreviation library := DefaultExpressionFunctionLibrary.

(** * Values of a type *)

(** A present value is well formed and of the static type; an unknown one may
    have any type. *)
Definition rv_sound (t : ExpressionType) (r : runtimeValue) : Prop :=
  match r with Present v => runtimeValueMatches t v = true /\ value_wf v | NotKnown => True end.

Lemma matches_kind t v : runtimeValueMatches t v = true ->
  match t with
  | ExpressionTypeBool => exists b, v = BoolValue b
  | ExpressionTypeInt => exists i, v = IntValue i
  | ExpressionTypeDecimal => exists d, v = DecimalValue d
  | ExpressionTypeString => exists s, v = StringValue s
  | ExpressionTypeDate => exists s, v = StringValue s
  | ExpressionTypeList => exists l, v = ListValue l
  | _ => False
  end.
Proof. destruct t, v; cbn; try done; try (intros [? ?]%andb_true_iff); eauto; discriminate. Qed.

Lemma bool_sound b : rv_sound ExpressionTypeBool (Present (BoolValue b)).
Proof. done. Qed.
Lemma int_sound i : rv_sound ExpressionTypeInt (Present (IntValue i)).
Proof. done. Qed.
Lemma string_sound s : rv_sound ExpressionTypeString (Present (StringValue s)).
Proof. done. Qed.
Lemma decimal_sound d : dec_wf d -> rv_sound ExpressionTypeDecimal (Present (DecimalValue d)).
Proof. by intros Hd. Qed.
#[local] Hint Resolve bool_sound int_sound string_sound decimal_sound : core.

(** ** Operators *)

#[local] Instance BinaryOp_eq_dec : EqDecision BinaryOp.
Proof. solve_decision. Defined.

Lemma decimal_result_inv r v : decimal_result r = Ok v -> exists d, r = Ok d /\ v = Present (DecimalValue d).
Proof. unfold decimal_result. destruct r; cbn; try done. intros [= <-]. eauto. Qed.

Lemma Decimal_ops_wf d e s m r : dec_wf d -> dec_wf e ->
  Decimal_Add d e = Ok r \/ Decimal_Sub d e = Ok r \/ Decimal_Mul d e s m = Ok r \/ Decimal_Div d e s m = Ok r
    \/ Decimal_Neg d = Ok r \/ Decimal_Abs d = Ok r -> dec_wf r.
Proof.
  intros Hd He. destruct (dec_wf_scale d Hd) as [Hs Hm]. intros H. unfold Decimal_Add, Decimal_Sub, Decimal_Mul, Decimal_Neg, Decimal_Abs in H.
  destruct H as [H|[H|[H|[H|[H|H]]]]].
  - ok_inv. by eapply fromSigned_wf.
  - ok_inv. by eapply fromSigned_wf.
  - ok_inv. by eapply quantizeSigned_wf.
  - by eapply Decimal_Div_wf.
  - ok_inv. by eapply fromSigned_wf.
  - ok_inv. by eapply newDecimal_wf.
Qed.

Lemma evaluateUnary_sound o t t' c r : unary_type o t = Ok t' -> rv_sound t c -> evaluateUnary o c = Ok r -> rv_sound t' r.
Proof.
  intros Ht Hc H. destruct c as [w|]; [|by injection H as <-]. destruct Hc as [Hm Hv].
  destruct o; cbn in H; try done; cbn in Ht; apply bind_ok_inv in Ht as (? & Hn%fail_if_ok & Ht); injection Ht as <-.
  - destruct w; cbn in H; try done. injection H as <-. done.
  - destruct w; cbn in H; try done.
    + apply bind_ok_inv in H as (d' & Hd & H). injection H as <-. apply map_err_ok in Hd.
      destruct t; cbn in Hm; try done. apply decimal_sound. eapply (Decimal_ops_wf d d 0 RoundingHalfEven); eauto 10.
    + injection H as <-. destruct t; cbn in Hm; done.
Qed.

Lemma short_circuit_sound o l r tl tr t : binaryType o tl tr = Ok t -> short_circuit o l = Some r -> rv_sound t r.
Proof.
  unfold binaryType. intros Ht H. assert (t = ExpressionTypeBool) as ->.
  { destruct o; cbn in H; try done; repeat case_match; congruence. }
  destruct l as [lv|]; destruct o; cbn in H; try done; case_match; try done; by injection H as <-.
Qed.

(** The types a value can have. *)
Lemma matches_types t v : runtimeValueMatches t v = true ->
  match v with
  | DecimalValue _ => t = ExpressionTypeDecimal
  | StringValue _ => t = ExpressionTypeString \/ t = ExpressionTypeDate
  | BoolValue _ => t = ExpressionTypeBool
  | IntValue _ => t = ExpressionTypeInt
  | ListValue _ => t = ExpressionTypeList
  | Value_zero => False
  end.
Proof. destruct t, v; cbn; auto; discriminate. Qed.

Lemma arithmetic_sound o l r tl tr t v : binaryType o tl tr = Ok t -> comparison o = false -> o <> BinaryOpAnd -> o <> BinaryOpOr ->
  rv_sound tl (Present l) -> rv_sound tr (Present r) -> arithmeticRuntime o l r = Ok v -> rv_sound t v.
Proof.
  intros Ht Hc Hand Hor [Hl Hlv] [Hr Hrv] H. apply matches_types in Hl. apply matches_types in Hr.
  destruct l as [|ld|ls| |li|], r as [|rd|rs| |ri|]; cbn [arithmeticRuntime] in H; try done.
  - subst. destruct o; try done; cbn in Ht; injection Ht as <-.
    + apply bind_ok_inv in H as (? & _ & H). apply decimal_result_inv in H as (d & H & ->).
      apply decimal_sound, (Decimal_ops_wf ld rd 0 RoundingHalfEven); auto.
    + apply bind_ok_inv in H as (? & _ & H). apply decimal_result_inv in H as (d & H & ->).
      apply decimal_sound, (Decimal_ops_wf ld rd 0 RoundingHalfEven); auto.
    + apply decimal_result_inv in H as (d & H & ->). apply decimal_sound. eapply (Decimal_ops_wf ld rd); eauto 10.
    + apply decimal_result_inv in H as (d & H & ->). apply decimal_sound. eapply (Decimal_ops_wf ld rd); eauto 10.
  - destruct o; try done. injection H as <-. destruct Hl as [-> | ->], Hr as [-> | ->]; cbn in Ht; try done. by injection Ht as <-.
  - subst. destruct o; try done; cbn in Ht; injection Ht as <-; try (by injection H as <-).
    destruct (ri =? 0); [done|]. by injection H as <-.
Qed.

Lemma evaluateLogic_sound o l r v : evaluateLogic o l r = Ok v -> rv_sound ExpressionTypeBool v.
Proof.
  unfold evaluateLogic. intros H. destruct l as [l|], r as [r|]; try (by injection H as <-).
  - destruct (Value_Bool l) as [lb []], (Value_Bool r) as [rb []]; cbn in H; try done. destruct o; by injection H as <-.
  - destruct (Value_Bool r) as [rb ok]. destruct o; try (by injection H as <-); destruct (_ && _); by injection H as <-.
Qed.

Lemma binaryType_bool o tl tr t : binaryType o tl tr = Ok t -> comparison o = true \/ o = BinaryOpAnd \/ o = BinaryOpOr ->
  t = ExpressionTypeBool.
Proof.
  unfold binaryType. intros H Ho. destruct o; destruct Ho as [Ho|[Ho|Ho]]; try discriminate Ho;
    repeat (destruct (_ || _) in H); congruence.
Qed.

Lemma evaluateBinary_sound o tl tr t l r v : binaryType o tl tr = Ok t -> rv_sound tl l -> rv_sound tr r ->
  evaluateBinary o l r = Ok v -> rv_sound t v.
Proof.
  intros Ht Hl Hr H.
  destruct (decide (o = BinaryOpAnd \/ o = BinaryOpOr)) as [Ho|Ho].
  { rewrite (binaryType_bool _ _ _ _ Ht) by tauto. apply (evaluateLogic_sound o l r). destruct Ho as [-> | ->]; exact H. }
  assert (evaluateBinary o l r = match l, r with
    | Present l, Present r =>
        if comparison o then cmp ← compareRuntime l r; Ok (Present (BoolValue (comparison_match o cmp)))
        else match o with
             | BinaryOpAdd | BinaryOpSubtract | BinaryOpMultiply | BinaryOpDivide => arithmeticRuntime o l r
             | _ => Err ErrExpressionEvaluation
             end
    | _, _ => Ok NotKnown end) as E by (destruct o; tauto || done).
  rewrite E in H. destruct l as [l|], r as [r|]; try (by injection H as <-).
  destruct (comparison o) eqn:Hc.
  - rewrite (binaryType_bool _ _ _ _ Ht) by tauto. apply bind_ok_inv in H as (cmp & _ & H). by injection H as <-.
  - eapply (arithmetic_sound o l r tl tr); try done; [tauto|tauto|]. destruct o; done.
Qed.

(** ** Calls *)

Lemma call_dispatch m d vs :
  call_function "lower" m d vs = call_text "lower" vs /\ call_function "upper" m d vs = call_text "upper" vs /\
  call_function "contains" m d vs = call_match "contains" vs /\ call_function "starts_with" m d vs = call_match "starts_with" vs /\
  call_function "ends_with" m d vs = call_match "ends_with" vs /\ call_function "abs" m d vs = call_abs vs /\
  call_function "len" m d vs = call_len vs /\ call_function "list_contains" m d vs = call_list_contains m vs /\
  call_function "interval_overlaps" m d vs = call_interval_overlaps vs /\
  call_function "business_day_diff" m d vs = call_business_day_diff m d vs.
Proof. by split_and!. Qed.

Definition published (entry : FunctionEntry) : Prop := entry ∈ builtin_entries.

Lemma library_published k entry : lib_entries library !! k = Some entry -> published entry /\ k = fe_Name entry.
Proof.
  cbn [lib_entries DefaultExpressionFunctionLibrary builtinExpressionLibrary]. intros H.
  apply elem_of_list_to_map_2, list_elem_of_fmap in H as (e & [= -> ->] & He). done.
Qed.

Lemma published_lookup entry : published entry -> library_entry library (strings_ToLower (fe_Name entry)) = Some entry.
Proof.
  unfold published, builtin_entries. intros H.
  repeat (apply elem_of_cons in H as [->|H]; [reflexivity|]). by apply elem_of_nil in H.
Qed.

Lemma evaluateCall_published entry args cost maxCost maxList deps : published entry ->
  evaluateCall (fe_Name entry) args cost maxCost maxList deps =
  match present_all args with
  | None => Ok (NotKnown, cost)
  | Some vs =>
      dynamicCost ← functionDynamicCost entry vs;
      _ ← fail_if (maxCost - cost <? dynamicCost) ErrExpressionUnbounded;
      r ← call_function (fe_Name entry) maxList deps vs;
      Ok (r, cost + dynamicCost)
  end.
Proof. intros H. unfold evaluateCall. by rewrite published_lookup. Qed.

Lemma present_all_Forall2 ts args vs : present_all args = Some vs -> Forall2 rv_sound ts args ->
  Forall2 (fun t v => runtimeValueMatches t v = true /\ value_wf v) ts vs.
Proof.
  revert ts vs. induction args as [|[v|] args IH]; cbn; intros ts vs H HF; [|inversion HF; subst|done].
  - injection H as <-. inversion HF. constructor.
  - destruct (present_all args) as [vs'|]; [|done]. injection H as <-. constructor; [done|]. by apply IH.
Qed.

Lemma call_abs_sound t v r : runtimeValueMatches t v = true -> value_wf v -> call_abs [v] = Ok r -> rv_sound t r.
Proof.
  intros Hm Hv H. apply matches_types in Hm. destruct v; try done; cbn in H; try done; subst.
  - apply bind_ok_inv in H as (out & Ho & H). injection H as <-. apply map_err_ok in Ho.
    apply decimal_sound. eapply (Decimal_ops_wf d d 0 RoundingHalfEven); eauto 10.
  - by injection H as <-.
Qed.

(** What each function returns when it returns. *)
Lemma call_result entry m d vs r : published entry -> call_function (fe_Name entry) m d vs = Ok r ->
  (fe_operation entry = "abs"%string /\ call_abs vs = Ok r) \/
  (fe_operation entry <> "abs"%string /\ rv_sound (sig_Result (fe_Signature entry)) r).
Proof.
  destruct (call_dispatch m d vs) as (E1 & E2 & E3 & E4 & E5 & E6 & E7 & E8 & E9 & E10).
  unfold published, builtin_entries. intros H Hr.
  repeat (apply elem_of_cons in H as [->|H];
    [cbn [fe_Name fe_operation fe_Signature sig_Result] in *; rewrite ?E1, ?E2, ?E3, ?E4, ?E5, ?E6, ?E7, ?E8, ?E9, ?E10 in Hr;
     clear E1 E2 E3 E4 E5 E6 E7 E8 E9 E10; first [left; split; [reflexivity|exact Hr] | right; split; [done|]]|]); [..|by apply elem_of_nil in H].
  1,2: by destruct vs as [|[] [|]]; cbn in Hr; try done; injection Hr as <-.
  1,2,3: by destruct vs as [|[] [|[] [|]]]; cbn in Hr; try done; injection Hr as <-.
  - by destruct vs as [|[] [|]]; cbn in Hr; try done; injection Hr as <-.
  - destruct vs as [|[] [|s [|]]]; cbn in Hr; try done. ok_inv. by subst.
  - destruct vs as [|a [|b [|c [|e [|]]]]]; cbn in Hr; try done. ok_inv. by subst.
  - destruct vs as [|a [|b [|c [|e [|f [|[] [|]]]]]]]; cbn in Hr; try done. ok_inv. by subst.
Qed.

Lemma evaluateCall_sound entry ds argnodes t args cost maxCost maxList deps r k : published entry ->
  operation_type ds entry argnodes = Ok t -> Forall2 rv_sound (n_Type <$> argnodes) args ->
  evaluateCall (fe_Name entry) args cost maxCost maxList deps = Ok (r, k) -> rv_sound t r.
Proof.
  intros Hp Ht Ha H. rewrite evaluateCall_published in H by done.
  destruct (present_all args) as [vs|] eqn:Evs; [|by injection H as <- <-].
  apply bind_ok_inv in H as (dyn & _ & H). apply bind_ok_inv in H as (? & _ & H).
  apply bind_ok_inv in H as (r' & Hr & H). injection H as <- <-.
  apply (present_all_Forall2 _ _ _ Evs) in Ha. unfold operation_type in Ht.
  destruct (call_result _ _ _ _ _ Hp Hr) as [[Ho Habs]|[Ho Hs]].
  - rewrite Ho in Ht. cbn [String.eqb] in Ht. change (String.eqb "abs" "abs") with true in Ht. cbv iota in Ht.
    destruct argnodes as [|a argnodes]; [done|]. apply bind_ok_inv in Ht as (? & _ & Ht). injection Ht as <-.
    inversion Ha as [|? v ? vs' [Hm Hv] Ha']; subst. destruct vs'; [|by destruct v].
    by eapply call_abs_sound.
  - apply String.eqb_neq in Ho. rewrite Ho in Ht.
    assert (t = sig_Result (fe_Signature entry)) as ->; [|done].
    repeat match type of Ht with
    | (if ?b then _ else _) = _ => destruct b
    | match ?l with _ => _ end = _ => destruct l; try discriminate Ht
    | (_ ≫= _) = _ => apply bind_ok_inv in Ht as (? & _ & Ht)
    end; by injection Ht as <-.
Qed.

Lemma tree_items_sound ev o items : forall result cost r k, rv_sound ExpressionTypeBool result ->
  tree_items ev o items result cost = Ok (r, k) -> rv_sound ExpressionTypeBool r.
Proof.
  induction items as [|item items IH]; intros result cost r k Hr; cbn [tree_items].
  - by intros [= <- <-].
  - intros H. apply bind_ok_inv in H as ([p c] & _ & H). destruct p as [v|]; [|by injection H as <- <-].
    destruct o; try (by eapply IH); destruct (Value_Bool v).1; cbn [negb] in H; try (by eapply IH); by injection H as <- <-.
Qed.

Lemma literal_sound t v t' : literal_type t v = Ok t' -> rv_sound t' (Present v).
Proof.
  unfold literal_type. destruct (type_is t ExpressionTypeDate); intros H.
  - apply bind_ok_inv in H as (? & Hk%fail_if_ok & H). apply bind_ok_inv in H as (d & Hd%map_err_ok & H).
    apply bind_ok_inv in H as (? & Hv%Value_Validate_inv & H). injection H as <-. split; [|done].
    cbn. apply negb_false_iff in Hk. rewrite Hk, Hd. done.
  - apply bind_ok_inv in H as (? & Hk%fail_if_ok%bool_decide_eq_false & H). apply bind_ok_inv in H as (? & Hv%Value_Validate_inv & H).
    injection H as <-. split; [|done]. destruct v; cbn in *; try done.
Qed.

Lemma variable_sound inputs env name input r : env !! name = Some input -> eval_variable inputs env name = Ok r -> rv_sound (in_Type input) r.
Proof.
  unfold eval_variable. intros -> H. destruct (inputs !! name) as [v|]; [|by injection H as <-].
  apply bind_ok_inv in H as (? & Hv%map_err_ok%Value_Validate_inv & H). apply bind_ok_inv in H as (? & Hm%fail_if_ok%negb_false_iff & H).
  injection H as <-. done.
Qed.

(** * Trees *)

Section trees.
Context (maxCost maxList : Z) (deps : list Dependency) (limits : CostLimit) (nodes : list IRNode).
Abbreviation eval := (evalTree maxCost maxList deps).
Abbreviation compiled' := (compiled library deps limits nodes).
Abbreviation compiled_args' := (compiled_args library deps limits nodes).

(** The value of a compiled tree has the type of its node. *)
Lemma tree_sound :
  (forall env e lo hi n, compiled' env e lo hi n ->
     forall inputs cost r k, eval env inputs e cost = Ok (r, k) -> rv_sound (n_Type n) r) /\
  (forall env es lo hi is_ ns, compiled_args' env es lo hi is_ ns ->
     forall inputs cost rs k, tree_args (eval env inputs) es cost = Ok (rs, k) -> Forall2 rv_sound (n_Type <$> ns) rs).
Proof.
  apply (compiled_mutind library deps limits nodes
    (fun env e _ _ n => forall inputs cost r k, eval env inputs e cost = Ok (r, k) -> rv_sound (n_Type n) r)
    (fun env es _ _ _ ns => forall inputs cost rs k, tree_args (eval env inputs) es cost = Ok (rs, k) -> Forall2 rv_sound (n_Type <$> ns) rs)).
  - intros env [] lo n Hk _ _ _ _ Ht inputs cost r k H. cbn in Hk, Ht. subst. injection H as <- <-. by eapply literal_sound.
  - intros env [] lo n input Hk _ _ _ Hi -> _ inputs cost r k H. cbn in Hk, Hi. subst. cbn [evalTree] in H.
    apply bind_ok_inv in H as (v & Hv & H). injection H as <- <-. by eapply variable_sound.
  - intros env [] lo n Hk _ _ _ _ _ inputs cost r k H. cbn in Hk. subst. by injection H as <- <-.
  - intros env [] c lo hi nc n Hk Hcs _ IH _ (_ & _ & _ & _) _ _ Ht inputs cost r k H. cbn in Hk, Hcs, Ht. subst. cbn [evalTree] in H.
    apply bind_ok_inv in H as ([v c'] & Hv & H). apply bind_ok_inv in H as (r' & Hr & H). injection H as <- <-.
    eapply evaluateUnary_sound; [exact Ht|by eapply IH|exact Hr].
  - intros env [] l r lo mid hi nl nr n Hk Hcs _ IHl _ IHr _ _ _ _ Ht inputs cost v k H. cbn in Hk, Hcs, Ht. subst. cbn [evalTree] in H.
    apply bind_ok_inv in H as ([lv c1] & Hl & H). destruct (short_circuit _ lv) as [w|] eqn:Es.
    + injection H as <- <-. by eapply short_circuit_sound.
    + apply bind_ok_inv in H as ([rv c2] & Hr & H). apply bind_ok_inv in H as (v' & Hv & H). injection H as <- <-.
      eapply evaluateBinary_sound; [exact Ht|by eapply IHl|by eapply IHr|exact Hv].
  - intros env [] lo hi args entry n Hk Ha IH _ _ _ Hct _ _ _ inputs cost r k H. cbn in Hk, Ha, IH, Hct. subst. cbn [evalTree] in H.
    apply bind_ok_inv in H as ([rs c1] & Hrs & H). rewrite (published_call _ _ _ _ _ _ Hct) in H.
    destruct (call_entry _ _ _ _ _ _ Hct) as (He & args' & Hargs & Hop & _).
    rewrite (compiled_args_nodes _ _ _ _ _ _ _ _ _ _ Ha) in Hargs. injection Hargs as <-.
    destruct (library_published _ _ He) as [Hp _]. eapply evaluateCall_sound; eauto.
  - intros env [] coll pred lo mid hi nc np n Hk Hcs _ _ _ _ _ _ _ _ _ _ _ Ht _ _ inputs cost r k H. cbn in Hk, Hcs. subst.
    rewrite Ht. cbn [evalTree] in H. apply bind_ok_inv in H as ([cv c1] & _ & H). destruct cv as [v|]; [|by injection H as <- <-].
    apply bind_ok_inv in H as (? & _ & H). eapply tree_items_sound; [|exact H]. by destruct e_Iteration.
  - intros env lo inputs cost rs k [= <- <-]. constructor.
  - intros env c cs lo mid hi nc is_ ns _ IHc _ IHcs inputs cost rs k H. cbn [tree_args] in H.
    apply bind_ok_inv in H as ([r c1] & Hr & H). apply bind_ok_inv in H as ([rs' c2] & Hrs & H). injection H as <- <-.
    constructor; [by eapply IHc|by eapply IHcs].
Qed.
End trees.

(** * Totality *)

Lemma newDecimal_no_panic neg u s m : newDecimal neg u s m <> Panic.
Proof. unfold newDecimal. no_panic. Qed.

Lemma fromSigned_no_panic q s m : fromSigned q s m <> Panic.
Proof. apply newDecimal_no_panic. Qed.
#[local] Hint Resolve newDecimal_no_panic fromSigned_no_panic Decimal_Validate_no_panic Value_Validate_no_panic NewLocalDate_no_panic : panics.

Lemma checkScale_no_panic s : checkScale s <> Panic.
Proof. unfold checkScale. no_panic. Qed.

Lemma checkMode_no_panic m : checkMode m <> Panic.
Proof. unfold checkMode. no_panic. Qed.
#[local] Hint Resolve checkScale_no_panic checkMode_no_panic : panics.

Lemma Decimal_linear_no_panic d e : Decimal_Add d e <> Panic /\ Decimal_Sub d e <> Panic /\ Decimal_Neg d <> Panic /\ Decimal_Abs d <> Panic.
Proof. unfold Decimal_Add, Decimal_Sub, Decimal_Neg, Decimal_Abs. split_and!; no_panic. Qed.

Lemma Decimal_Div_no_panic d e s m : Decimal_Div d e s m <> Panic.
Proof. unfold Decimal_Div. no_panic. Qed.

Lemma ParseLocalDate_no_panic s : ParseLocalDate s <> Panic.
Proof. unfold ParseLocalDate. no_panic. Qed.
#[local] Hint Resolve Decimal_Div_no_panic ParseLocalDate_no_panic : panics.

Lemma Value_Equal_no_panic v : forall o, Value_Equal v o <> Panic.
Proof.
  induction v as [|d|t|b|i|l IH] using Value_ind'; intros o; cbn; (case_match; [done|]); destruct o; try done.
  case_match; [done|]. clear -IH. revert items. induction IH as [|v l Hv _ IH]; intros [|w m]; cbn; try done.
  no_panic; apply Hv || apply IH.
Qed.

Lemma Value_Cmp_no_panic v o : Value_Cmp v o <> Panic.
Proof. rewrite Value_Cmp_cases. repeat case_match; done. Qed.
#[local] Hint Resolve Value_Equal_no_panic Value_Cmp_no_panic : panics.

Lemma compareRuntime_no_panic l r : compareRuntime l r <> Panic.
Proof. unfold compareRuntime. no_panic. Qed.

Lemma eval_variable_no_panic inputs env name : eval_variable inputs env name <> Panic.
Proof. unfold eval_variable. no_panic. Qed.

Lemma evaluateUnary_no_panic o c : evaluateUnary o c <> Panic.
Proof.
  unfold evaluateUnary, negateRuntime. destruct c as [v|]; [|done]. destruct (Decimal_linear_no_panic Decimal_zero_value Decimal_zero_value) as (_ & _ & _ & _).
  destruct o; try done; [by destruct (Value_Bool v) as [? []]|]. destruct v; try done.
  apply bind_no_panic; [|done]. apply map_err_no_panic. by destruct (Decimal_linear_no_panic d d) as (_ & _ & ? & _).
Qed.

Lemma evaluateLogic_no_panic o l r : evaluateLogic o l r <> Panic.
Proof. unfold evaluateLogic. repeat case_match; done. Qed.
#[local] Hint Resolve compareRuntime_no_panic eval_variable_no_panic evaluateUnary_no_panic evaluateLogic_no_panic : panics.

Lemma contains_value_no_panic search items : contains_value search items <> Panic.
Proof. induction items as [|item items IH]; cbn; no_panic. Qed.

Lemma parse_date_no_panic v : parse_date v <> Panic.
Proof. unfold parse_date. auto with panics. Qed.

Lemma parse_dates_no_panic vs : parse_dates vs <> Panic.
Proof. induction vs as [|v vs IH]; cbn; no_panic. Qed.

Lemma digest_no_panic schema v os : digest_of schema v os <> Panic.
Proof. unfold digest_of, Writer_Digest, Writer_Bytes. destruct (w_err _); cbn; done. Qed.
#[local] Hint Resolve contains_value_no_panic parse_date_no_panic parse_dates_no_panic digest_no_panic : panics.

Lemma calendar_digest_no_panic ref version dates : BusinessCalendarSnapshotDigest ref version dates <> Panic.
Proof. unfold BusinessCalendarSnapshotDigest. no_panic. Qed.
#[local] Hint Resolve calendar_digest_no_panic : panics.

Lemma call_abs_no_panic vs : call_abs vs <> Panic.
Proof.
  destruct vs as [|v [|? ?]]; [done| |by destruct v]. destruct v; try done. cbn.
  apply bind_no_panic; [|done]. apply map_err_no_panic. by destruct (Decimal_linear_no_panic d d) as (_ & _ & _ & ?).
Qed.

Lemma call_function_no_panic entry m d vs : published entry -> call_function (fe_Name entry) m d vs <> Panic.
Proof.
  destruct (call_dispatch m d vs) as (E1 & E2 & E3 & E4 & E5 & E6 & E7 & E8 & E9 & E10).
  unfold published, builtin_entries. intros H.
  repeat (apply elem_of_cons in H as [->|H];
    [cbn [fe_Name]; rewrite ?E1, ?E2, ?E3, ?E4, ?E5, ?E6, ?E7, ?E8, ?E9, ?E10; clear E1 E2 E3 E4 E5 E6 E7 E8 E9 E10|]);
    [..|by apply elem_of_nil in H].
  1,2: by destruct vs as [|[] [|]].
  1,2,3: by destruct vs as [|[] [|[] [|]]].
  - apply call_abs_no_panic.
  - by destruct vs as [|[] [|]].
  - destruct vs as [|[] [|s [|]]]; cbn; no_panic.
  - destruct vs as [|a [|b [|c [|e [|]]]]]; cbn; no_panic.
  - destruct vs as [|a [|b [|c [|e [|f [|[] [|]]]]]]]; cbn; no_panic.
Qed.

Lemma functionDynamicCost_no_panic entry vs : published entry -> length vs = length (sig_Arguments (fe_Signature entry)) ->
  functionDynamicCost entry vs <> Panic.
Proof.
  unfold published, builtin_entries. intros H Hl.
  repeat (apply elem_of_cons in H as [->|H]; [cbn in Hl|]); [..|by apply elem_of_nil in H];
    destruct vs as [|v1 [|v2 [|v3 [|v4 [|v5 [|v6 [|]]]]]]]; try discriminate Hl; try done.
  - unfold functionDynamicCost. cbn [fe_PerElementCost fe_operation]. cbn. by destruct (v_list v1).
  - unfold functionDynamicCost. cbn [fe_PerElementCost fe_operation].
    change (String.eqb "business_day_diff" "business_day_diff") with true. cbn -[max_int64 Z.mul Z.div Z.of_nat halvings].
    no_panic.
Qed.

Lemma present_all_length args vs : present_all args = Some vs -> length vs = length args.
Proof.
  revert vs. induction args as [|[v|] args IH]; cbn; intros vs H; [by injection H as <-| |done].
  destruct (present_all args) as [vs'|]; [|done]. injection H as <-. cbn. by rewrite (IH vs').
Qed.

Lemma evaluateCall_no_panic entry args cost maxCost maxList deps : published entry ->
  length args = length (sig_Arguments (fe_Signature entry)) -> evaluateCall (fe_Name entry) args cost maxCost maxList deps <> Panic.
Proof.
  intros Hp Hl. rewrite evaluateCall_published by done. destruct (present_all args) as [vs|] eqn:E; [|done].
  apply bind_no_panic; [apply functionDynamicCost_no_panic; [done|by rewrite (present_all_length _ _ E)]|intros dyn _].
  apply bind_no_panic; [auto with panics|intros _ _].
  apply bind_no_panic; [by apply call_function_no_panic|done].
Qed.

Section backend.
Context {L : DecimalBackendLaws DB}.

Lemma Decimal_Mul_no_panic d e s : 0 <= s <= MaxScale -> Decimal_Mul d e s RoundingHalfEven <> Panic.
Proof.
  intros Hs. unfold Decimal_Mul. apply bind_no_panic; [auto with panics|intros _ _].
  apply bind_no_panic; [auto with panics|intros _ _]. unfold quantizeSigned.
  apply bind_no_panic; [auto with panics|intros _ _]. apply bind_no_panic; [auto with panics|intros _ _].
  destruct (Z.leb_spec (d_scale d + d_scale e) s); [auto with panics|].
  change (mode_is RoundingHalfEven RoundingExactRequired) with false. change (directedRounding RoundingHalfEven) with false. cbn [andb].
  pose proof (quantize_backend_spec (Decimal_signed d * Decimal_signed e) (d_scale d + d_scale e) s RoundingHalfEven Hs
    ltac:(lia) eq_refl eq_refl ltac:(discriminate)) as H1. cbv zeta in H1.
  destruct (_ <? 10 ^ MaxPrecision) in H1; [by rewrite H1|]. by destruct H1 as [x ->].
Qed.

Lemma arithmeticRuntime_no_panic o l r : value_wf l -> value_wf r -> arithmeticRuntime o l r <> Panic.
Proof.
  intros Hl Hr. unfold arithmeticRuntime, decimal_result. destruct l as [|ld|ls| |li|], r as [|rd|rs| |ri|]; try done.
  - destruct (dec_wf_scale ld Hl) as [H1 _], (dec_wf_scale rd Hr) as [H2 _]. destruct (Decimal_linear_no_panic ld rd) as (? & ? & _).
    destruct o; try done.
    + no_panic.
    + no_panic.
    + apply bind_no_panic; [|done]. apply map_err_no_panic, Decimal_Mul_no_panic. by destruct (_ <? _).
    + no_panic.
  - by destruct o.
  - destruct o; try done. by destruct (_ =? _).
Qed.

Lemma evaluateBinary_no_panic o tl tr l r : rv_sound tl l -> rv_sound tr r -> evaluateBinary o l r <> Panic.
Proof.
  intros Hl Hr. destruct o; try apply evaluateLogic_no_panic; cbn [evaluateBinary comparison];
    destruct l as [l|], r as [r|]; try done;
    try (apply arithmeticRuntime_no_panic; [apply Hl|apply Hr]); no_panic.
Qed.

Lemma tree_items_no_panic ev o items : (forall item cost, ev item cost <> Panic) ->
  forall result cost, tree_items ev o items result cost <> Panic.
Proof.
  intros Hev. induction items as [|item items IH]; intros result cost; cbn [tree_items]; [done|].
  apply bind_no_panic; [apply Hev|]. intros [p c] _. destruct p as [v|]; [|done].
  destruct o; try apply IH; destruct (Value_Bool v).1; cbn [negb]; try apply IH; done.
Qed.

Section total.
Context (maxCost maxList : Z) (deps : list Dependency) (limits : CostLimit) (nodes : list IRNode).
Abbreviation eval := (evalTree maxCost maxList deps).
Abbreviation compiled' := (compiled library deps limits nodes).
Abbreviation compiled_args' := (compiled_args library deps limits nodes).

Lemma tree_total :
  (forall env e lo hi n, compiled' env e lo hi n -> forall inputs cost, eval env inputs e cost <> Panic) /\
  (forall env es lo hi is_ ns, compiled_args' env es lo hi is_ ns -> length ns = length is_ /\
     forall inputs cost, tree_args (eval env inputs) es cost <> Panic).
Proof.
  pose proof (tree_sound maxCost maxList deps limits nodes) as [Hsound Hsounds].
  apply (compiled_mutind library deps limits nodes
    (fun env e _ _ _ => forall inputs cost, eval env inputs e cost <> Panic)
    (fun env es _ _ is_ ns => length ns = length is_ /\ forall inputs cost, tree_args (eval env inputs) es cost <> Panic)).
  - intros env [] lo n Hk _ _ _ _ _ inputs cost. cbn in Hk. by subst.
  - intros env [] lo n input Hk _ _ _ _ _ _ inputs cost. cbn in Hk. subst. cbn [evalTree]. no_panic.
  - intros env [] lo n Hk _ _ _ _ _ inputs cost. cbn in Hk. by subst.
  - intros env [] c lo hi nc n Hk Hcs _ IH _ _ _ _ _ inputs cost. cbn in Hk, Hcs. subst. cbn [evalTree].
    apply bind_no_panic; [apply IH|]. intros [v k] _. no_panic.
  - intros env [] l r lo mid hi nl nr n Hk Hcs Hcl IHl Hcr IHr _ _ _ _ _ inputs cost. cbn in Hk, Hcs. subst. cbn [evalTree].
    apply bind_no_panic; [apply IHl|]. intros [lv k] Hl. destruct (short_circuit _ lv); [done|].
    apply bind_no_panic; [apply IHr|]. intros [rv k2] Hr. apply bind_no_panic; [|done].
    exact (evaluateBinary_no_panic _ _ _ _ _ (Hsound _ _ _ _ _ Hcl _ _ _ _ Hl) (Hsound _ _ _ _ _ Hcr _ _ _ _ Hr)).
  - intros env [] lo hi args entry n Hk Ha [Hlen IH] _ _ _ Hct _ _ _ inputs cost. cbn in Hk, Ha, IH, Hct. subst. cbn [evalTree].
    apply bind_no_panic; [apply IH|]. intros [rs k] Hrs. rewrite (published_call _ _ _ _ _ _ Hct).
    destruct (call_entry _ _ _ _ _ _ Hct) as (He & args' & _ & _ & _ & Hal). destruct (library_published _ _ He) as [Hp _].
    apply evaluateCall_no_panic; [done|]. rewrite <- Hal, <- Hlen.
    pose proof (Hsounds _ _ _ _ _ _ Ha _ _ _ _ Hrs) as HF. apply Forall2_length in HF. by rewrite length_fmap in HF.
  - intros env [] coll pred lo mid hi nc np n Hk Hcs Hcc IHc _ IHp _ _ _ _ _ _ _ _ _ _ inputs cost. cbn in Hk, Hcs. subst. cbn [evalTree].
    apply bind_no_panic; [apply IHc|]. intros [cv k] _. destruct cv as [v|]; [|done].
    apply bind_no_panic; [auto with panics|intros _ _]. apply tree_items_no_panic. intros item c.
    rewrite (compiled_element deps limits (mkIR nodes 0) _ _ _ _ _ Hcc) in IHp. apply IHp.
  - intros env lo. split; [done|]. done.
  - intros env c cs lo mid hi nc is_ ns _ IHc _ [Hlen IHcs]. split; [by cbn; rewrite Hlen|]. intros inputs cost. cbn [tree_args].
    apply bind_no_panic; [apply IHc|]. intros [r c1] _. apply bind_no_panic; [apply IHcs|]. by intros [rs c2] _.
Qed.
End total.
End backend.
End sound.
