(* ===== verification/ExpressionFacts.v ===== *)
(** What evaluation may spend and what its answer may depend on.

    [tree_budget]: an evaluation never spends more than its limit.
    [tree_monotone]: more facts never change a known answer.
    [tree_known]: an answer is unknown only for a missing fact.
    The theorems of the expression language are collected here. *)

From stdpp Require Import sorting.
From S2P Require Import Prelude GoStrings Sorting CanonicalBytes FixedDecimal CivilTime RuleValues Expression ExpressionEval ExpressionLower ExpressionArtifact ExpressionTree ExpressionSound.

Local Open Scope Z_scope.

Section facts.
Context {SHA : Sha256} {CM : CaseMapping} {DB : DecimalBackend}.
Abbreviation library := DefaultExpressionFunctionLibrary.

(** Inverts the steps of an evaluation that succeeded. *)
Ltac steps H :=
  repeat match type of H with
  | (_ ≫= _) = Ok _ =>
      let x := fresh "x" in let E := fresh "E" in apply bind_ok_inv in H as (x & E & H); cbv beta iota in H
  | Ok _ = Ok _ => injection H as H; try subst
  end.

(** * The budget *)

Lemma sat_add_nonneg a b : 0 <= a <= max_int64 -> 0 <= b -> 0 <= sat_add a b <= max_int64.
Proof. unfold sat_add. intros H1 H2. destruct (Z.ltb_spec (max_int64 - a) b); unfold max_int64 in *; lia. Qed.

Lemma list_contains_cost_nonneg search items : 0 <= list_contains_cost 1 search items.
Proof.
  unfold list_contains_cost. enough (forall c, 0 <= c <= max_int64 -> 0 <= fold_left (fun cost item =>
    let c1 := if decide (Value_Kind item = KindString) then sat_add 1 (len (Value_String item)) else 1 in
    let c2 := if decide (Value_Kind search = KindString) then sat_add c1 (len (Value_String search)) else c1 in
    sat_add cost c2) items c) as G by (apply G; by vm_compute).
  induction items as [|item items IH]; intros c Hc; cbn [fold_left]; [lia|]. apply IH. apply sat_add_nonneg; [done|].
  assert (H1 : 0 <= 1 <= max_int64) by by vm_compute. cbv zeta.
  assert (H2 : 0 <= (if decide (Value_Kind item = KindString) then sat_add 1 (len (Value_String item)) else 1) <= max_int64).
  { destruct (decide (Value_Kind item = KindString)); [apply sat_add_nonneg; [done|apply len_nonneg]|done]. }
  destruct (decide (Value_Kind search = KindString)); [apply sat_add_nonneg; [exact H2|apply len_nonneg]|apply H2].
Qed.

Lemma functionDynamicCost_nonneg entry vs k : published entry -> functionDynamicCost entry vs = Ok k -> 0 <= k.
Proof.
  unfold published, builtin_entries. intros H Hk.
  repeat (apply elem_of_cons in H as [->|H]; [unfold functionDynamicCost in Hk; cbn -[max_int64 Z.mul Z.div Z.of_nat halvings list_contains_cost] in Hk|]);
    [..|by apply elem_of_nil in H]; try (by injection Hk as <-).
  1,2: destruct vs as [|v vs]; [done|]; injection Hk as <-; pose proof (len_nonneg (Value_String v)); lia.
  1,2,3: destruct vs as [|v [|w vs]]; try done; injection Hk as <-; unfold sat_add;
    pose proof (len_nonneg (Value_String v)); pose proof (len_nonneg (Value_String w)); destruct (_ <? _); unfold max_int64; lia.
  - destruct vs as [|v vs]; [done|]. destruct (v_list v) as [|x l]; [by injection Hk as <-|]. destruct vs as [|w vs]; [done|].
    injection Hk as <-. apply list_contains_cost_nonneg.
  - destruct vs as [|v1 [|v2 [|v3 [|v4 [|v5 [|v6 vs]]]]]]; try done.
    assert (0 <= halvings (length (v_list v6))) by apply Z.log2_nonneg.
    repeat case_match; injection Hk as <-; unfold max_int64; try lia; try done.
Qed.

Section eval.
Context (maxCost maxList : Z) (deps : list Dependency).
Abbreviation eval := (evalTree maxCost maxList deps).

(** Spending only grows and stays within the limit. *)
Definition spends {A} (cost : Z) (m : outcome rules_err (A * Z)) : Prop :=
  forall r k, m = Ok (r, k) -> cost <= k <= maxCost.

Lemma evaluateCall_budget name args cost : cost <= maxCost -> spends cost (evaluateCall name args cost maxCost maxList deps).
Proof.
  intros Hc r k H. unfold evaluateCall in H. destruct (present_all args) as [vs|]; [|injection H as _ <-; lia].
  destruct (library_entry _ _) as [entry|] eqn:E; [|done]. destruct (library_published _ _ E) as [Hp _].
  apply bind_ok_inv in H as (dyn & Hd & H). apply bind_ok_inv in H as (? & Hl%fail_if_ok%Z.ltb_ge & H).
  apply bind_ok_inv in H as (v & _ & H). injection H as _ <-. apply functionDynamicCost_nonneg in Hd; [lia|done].
Qed.

Lemma tree_items_budget ev o items : (forall item cost, cost <= maxCost -> spends cost (ev item cost)) ->
  forall result cost, cost <= maxCost -> spends cost (tree_items ev o items result cost).
Proof.
  intros Hev. induction items as [|item items IH]; intros result cost Hc r k H; cbn [tree_items] in H.
  - injection H as _ <-. lia.
  - apply bind_ok_inv in H as ([p c] & Hp & H). apply (Hev item cost Hc) in Hp as Hpc.
    assert (G : forall res, tree_items ev o items res c = Ok (r, k) -> cost <= k <= maxCost).
    { intros res Hr. apply IH in Hr; lia. }
    destruct p as [v|]; [|injection H as _ <-; lia].
    destruct o; try (by eapply G); destruct (Value_Bool v).1; cbn [negb] in H; try (by eapply G); injection H as _ <-; lia.
Qed.

Lemma tree_budget e : forall env inputs cost, cost <= maxCost -> spends cost (eval env inputs e cost).
Proof.
  induction e as [kind t name fn v un bin iter bound cs IH] using Expr_ind'. intros env inputs cost Hc r k H.
  destruct kind; cbn [evalTree] in H; try done.
  - injection H as _ <-. lia.
  - apply bind_ok_inv in H as (w & _ & H). injection H as _ <-. lia.
  - destruct cs as [|c [|]]; try done. inversion IH as [|? ? IHc _]; subst.
    apply bind_ok_inv in H as ([w k1] & Hw & H). apply bind_ok_inv in H as (w' & _ & H). injection H as _ <-. by eapply IHc.
  - destruct cs as [|l [|r' [|]]]; try done. inversion IH as [|? ? IHl IH']; subst. inversion IH' as [|? ? IHr _]; subst.
    apply bind_ok_inv in H as ([w k1] & Hw & H). apply (IHl env inputs cost Hc) in Hw.
    destruct (short_circuit _ w); [injection H as _ <-; lia|].
    apply bind_ok_inv in H as ([w2 k2] & Hw2 & H). apply IHr in Hw2; [|lia].
    apply bind_ok_inv in H as (w' & _ & H). injection H as _ <-. lia.
  - apply bind_ok_inv in H as ([rs k1] & Hrs & H).
    assert (cost <= k1 <= maxCost) as Hk1; [|apply evaluateCall_budget in H; lia].
    clear H. revert cost Hc rs k1 Hrs. induction IH as [|c cs IHc _ IHcs]; intros cost Hc rs k1 H; cbn [tree_args] in H.
    + injection H as _ <-. lia.
    + apply bind_ok_inv in H as ([w k2] & Hw & H). apply IHc in Hw; [|done].
      apply bind_ok_inv in H as ([ws k3] & Hws & H). injection H as _ <-. apply IHcs in Hws; lia.
  - destruct cs as [|coll [|pred [|]]]; try done. inversion IH as [|? ? IHc IH']; subst. inversion IH' as [|? ? IHp _]; subst.
    apply bind_ok_inv in H as ([w k1] & Hw & H). apply (IHc env inputs cost Hc) in Hw.
    destruct w as [w|]; [|injection H as _ <-; lia]. apply bind_ok_inv in H as (? & _ & H).
    eapply tree_items_budget in H; [lia| |lia]. intros item c Hc'. by apply IHp.
  - injection H as _ <-. lia.
Qed.

(** * More facts *)

(** [rv_le r r']: [r'] says at least what [r] says. *)
Definition rv_le (r r' : runtimeValue) : Prop := r = NotKnown \/ r = r'.

Lemma evaluateUnary_le o c c' r r' : rv_le c c' -> evaluateUnary o c = Ok r -> evaluateUnary o c' = Ok r' -> rv_le r r'.
Proof. intros [-> | ->] H H'; [left; by injection H|right; congruence]. Qed.

(** Both operators that can answer from one side agree with the full answer. *)
Lemma binary_le o l l' r v v' : rv_le l l' -> evaluateBinary o l r = Ok v -> short_circuit o l = None ->
  (short_circuit o l' = Some v' \/ exists r', short_circuit o l' = None /\ rv_le r r' /\ evaluateBinary o l' r' = Ok v') -> rv_le v v'.
Proof.
  intros Hl Hv Hs Hv'. destruct r as [r|].
  2:{ left. destruct Hl as [-> | ->]; [destruct o; cbn in Hv; congruence|]. destruct o, l' as [l'|]; cbn in Hv; congruence. }
  assert (Hv2 : short_circuit o l' = Some v' \/ (short_circuit o l' = None /\ evaluateBinary o l' (Present r) = Ok v')).
  { destruct Hv' as [?|(r' & ? & [?|<-] & ?)]; [by left|discriminate|by right]. }
  clear Hv'. destruct Hl as [-> | ->]; [|right; destruct Hv2 as [?|[_ ?]]; congruence].
  destruct o; try (left; cbn in Hv; congruence); cbn in Hv; destruct r as [| | |rb| |]; cbn in Hv; try (left; congruence);
    destruct rb; cbn in Hv; try (left; congruence); right; injection Hv as <-;
    (destruct l' as [l'|]; [|destruct Hv2 as [Hv2|[_ Hv2]]; cbn in Hv2; congruence]);
    destruct l' as [| | |lb| |]; cbn in Hv2; try (destruct Hv2 as [?|[_ ?]]; congruence);
    destruct lb; cbn in Hv2; destruct Hv2 as [?|[_ ?]]; congruence.
Qed.

Lemma present_all_le args args' : Forall2 rv_le args args' -> present_all args = None \/ args = args'.
Proof.
  induction 1 as [|a a' args args' [-> | ->] _ IH]; [by right|by left|].
  destruct IH as [IH| ->]; [|by right]. left. destruct a' as [v|]; cbn; [by rewrite IH|done].
Qed.

Lemma evaluateCall_le name args args' cost cost' r k r' k' : Forall2 rv_le args args' ->
  evaluateCall name args cost maxCost maxList deps = Ok (r, k) -> evaluateCall name args' cost' maxCost maxList deps = Ok (r', k') -> rv_le r r'.
Proof.
  intros Ha H H'. unfold evaluateCall in H, H'. destruct (present_all_le _ _ Ha) as [E| ->].
  { rewrite E in H. left. by injection H. }
  destruct (present_all args') as [vs|]; [|left; by injection H].
  destruct (library_entry _ _) as [entry|]; [|done].
  apply bind_ok_inv in H as (? & _ & H). apply bind_ok_inv in H as (? & _ & H). apply bind_ok_inv in H as (v & Hv & H). injection H as <- _.
  apply bind_ok_inv in H' as (? & _ & H'). apply bind_ok_inv in H' as (? & _ & H'). apply bind_ok_inv in H' as (v' & Hv' & H'). injection H' as <- _.
  right. congruence.
Qed.

Lemma tree_items_le ev ev' o items :
  (forall item c c' r k r' k', ev item c = Ok (r, k) -> ev' item c' = Ok (r', k') -> rv_le r r') ->
  forall result cost cost' r k r' k', tree_items ev o items result cost = Ok (r, k) -> tree_items ev' o items result cost' = Ok (r', k') -> rv_le r r'.
Proof.
  intros Hev. induction items as [|item items IH]; intros result cost cost' r k r' k' H H'; cbn [tree_items] in H, H'.
  - right. congruence.
  - apply bind_ok_inv in H as ([p c] & Hp & H). apply bind_ok_inv in H' as ([p' c'] & Hp' & H').
    destruct (Hev _ _ _ _ _ _ _ Hp Hp') as [-> | ->]; [left; by injection H|].
    destruct p' as [v|]; [|left; by injection H].
    destruct o; try (by eapply IH); destruct (Value_Bool v).1; cbn [negb] in H, H'; try (by eapply IH); right; congruence.
Qed.

Lemma tree_monotone e : forall env inputs inputs' cost cost' r k r' k', inputs ⊆ inputs' ->
  eval env inputs e cost = Ok (r, k) -> eval env inputs' e cost' = Ok (r', k') -> rv_le r r'.
Proof.
  induction e as [kind t name fn v un bin iter bound cs IH] using Expr_ind'. intros env inputs inputs' cost cost' r k r' k' Hin H H'.
  destruct kind; cbn [evalTree] in H, H'; try done.
  - right. congruence.
  - apply bind_ok_inv in H as (w & Hw & H). apply bind_ok_inv in H' as (w' & Hw' & H'). injection H as <- _. injection H' as <- _.
    unfold eval_variable in Hw, Hw'. destruct (env !! name); [|done].
    destruct (inputs !! name) as [x|] eqn:E; [|left; by injection Hw]. rewrite (lookup_weaken _ _ _ _ E Hin) in Hw'. right. congruence.
  - destruct cs as [|c [|]]; try done. inversion IH as [|? ? IHc _]; subst.
    apply bind_ok_inv in H as ([w k1] & Hw & H). apply bind_ok_inv in H as (z & Hz & H). injection H as <- _.
    apply bind_ok_inv in H' as ([w' k1'] & Hw' & H'). apply bind_ok_inv in H' as (z' & Hz' & H'). injection H' as <- _.
    eapply evaluateUnary_le; [by eapply IHc|done|done].
  - destruct cs as [|l [|r0 [|]]]; try done. inversion IH as [|? ? IHl IH']; subst. inversion IH' as [|? ? IHr _]; subst.
    apply bind_ok_inv in H as ([lv k1] & Hl & H). apply bind_ok_inv in H' as ([lv' k1'] & Hl' & H').
    pose proof (IHl _ _ _ _ _ _ _ _ _ Hin Hl Hl') as Hle. destruct (short_circuit bin lv) as [w|] eqn:Es.
    + injection H as <- _. destruct Hle as [-> | ->]; [by destruct bin|]. rewrite Es in H'. right. congruence.
    + apply bind_ok_inv in H as ([rv k2] & Hr & H). apply bind_ok_inv in H as (z & Hz & H). injection H as <- _.
      destruct (short_circuit bin lv') as [w'|] eqn:Es'.
      * injection H' as <- _. eapply (binary_le bin lv lv' rv); try done. by left.
      * apply bind_ok_inv in H' as ([rv' k2'] & Hr' & H'). apply bind_ok_inv in H' as (z' & Hz' & H'). injection H' as <- _.
        eapply (binary_le bin lv lv' rv); try done. right. exists rv'. split_and!; [done|by eapply IHr|done].
  - apply bind_ok_inv in H as ([rs k1] & Hrs & H). apply bind_ok_inv in H' as ([rs' k1'] & Hrs' & H').
    eapply evaluateCall_le; [|exact H|exact H']. clear H H'. revert cost cost' rs k1 rs' k1' Hrs Hrs'.
    induction IH as [|c cs IHc _ IHcs]; intros cost cost' rs k1 rs' k1' H H'; cbn [tree_args] in H, H'.
    + injection H as <- _. injection H' as <- _. constructor.
    + apply bind_ok_inv in H as ([w k2] & Hw & H). apply bind_ok_inv in H as ([ws k3] & Hws & H). injection H as <- _.
      apply bind_ok_inv in H' as ([w' k2'] & Hw' & H'). apply bind_ok_inv in H' as ([ws' k3'] & Hws' & H'). injection H' as <- _.
      constructor; [by eapply IHc|by eapply IHcs].
  - destruct cs as [|coll [|pred [|]]]; try done. inversion IH as [|? ? IHc IH']; subst. inversion IH' as [|? ? IHp _]; subst.
    apply bind_ok_inv in H as ([w k1] & Hw & H). apply bind_ok_inv in H' as ([w' k1'] & Hw' & H').
    destruct (IHc _ _ _ _ _ _ _ _ _ Hin Hw Hw') as [-> | ->]; [left; by injection H|].
    destruct w' as [w'|]; [|left; by injection H]. apply bind_ok_inv in H as (? & _ & H). apply bind_ok_inv in H' as (? & _ & H').
    eapply tree_items_le; [|exact H|exact H']. cbv beta. intros item c c' p kp p' kp' Hp Hp'.
    eapply (IHp _ (<["$item" := item]> inputs) (<["$item" := item]> inputs')); [by apply insert_mono|done|done].
  - left. by injection H.
Qed.

(** * Enough facts *)

Fixpoint no_unknown (e : Expr) : bool :=
  match e with
  | mkExpr ExprKindUnknown _ _ _ _ _ _ _ _ _ => false
  | mkExpr _ _ _ _ _ _ _ _ _ cs => forallb no_unknown cs
  end.

Lemma call_function_present name m d vs r : call_function name m d vs = Ok r -> r <> NotKnown.
Proof.
  unfold call_function, call_text, call_match, call_len, call_list_contains, call_interval_overlaps, call_business_day_diff, call_abs.
  intros H ->. repeat case_match; try discriminate H; steps H; discriminate H.
Qed.

Lemma evaluateBinary_present o l r v : evaluateBinary o (Present l) (Present r) = Ok v -> v <> NotKnown.
Proof.
  intros H ->. destruct o; cbn in H; try discriminate H; unfold decimal_result in H; repeat case_match; try discriminate H; steps H;
    unfold arithmeticRuntime, decimal_result in H; repeat case_match; try discriminate H; steps H; discriminate H.
Qed.

Lemma evaluateUnary_present o v r : evaluateUnary o (Present v) = Ok r -> r <> NotKnown.
Proof.
  intros H ->. destruct o; cbn in H; try discriminate H; unfold negateRuntime in H; repeat case_match; try discriminate H; steps H; discriminate H.
Qed.

Lemma present_all_known args : Forall (fun r => r <> NotKnown) args -> present_all args <> None.
Proof. induction 1 as [|[v|] args Hv _ IH]; cbn; [done| |done]. by destruct (present_all args). Qed.

Lemma tree_items_known ev o items : (forall item c r k, ev item c = Ok (r, k) -> r <> NotKnown) ->
  forall result cost r k, result <> NotKnown -> tree_items ev o items result cost = Ok (r, k) -> r <> NotKnown.
Proof.
  intros Hev. induction items as [|item items IH]; intros result cost r k Hr H; cbn [tree_items] in H.
  - by injection H as <- _.
  - apply bind_ok_inv in H as ([p c] & Hp & H). apply Hev in Hp. destruct p as [v|]; [|done].
    destruct o; try (by eapply (IH result)); destruct (Value_Bool v).1; cbn [negb] in H; try (by eapply (IH result)); by injection H as <- _.
Qed.

Lemma tree_known e : forall env inputs cost r k, no_unknown e = true -> (forall x, is_Some (env !! x) -> is_Some (inputs !! x)) ->
  eval env inputs e cost = Ok (r, k) -> r <> NotKnown.
Proof.
  induction e as [kind t name fn v un bin iter bound cs IH] using Expr_ind'. intros env inputs cost r k Hu Hin H.
  assert (Hcs : kind <> ExprKindUnknown -> Forall (fun c => no_unknown c = true) cs).
  { intros Hk. apply Forall_forall. intros c Hc. destruct kind; try done; eapply forallb_forall; try exact Hu; by apply list_elem_of_In. }
  destruct kind; cbn [evalTree] in H; try done.
  - by injection H as <- _.
  - apply bind_ok_inv in H as (w & Hw & H). injection H as <- _. unfold eval_variable in Hw.
    destruct (env !! name) eqn:E; [|done]. destruct (Hin name) as [x Hx]; [by rewrite E|]. rewrite Hx in Hw.
    apply bind_ok_inv in Hw as (? & _ & Hw). apply bind_ok_inv in Hw as (? & _ & Hw). by injection Hw as <-.
  - destruct cs as [|c [|]]; try done. inversion IH as [|? ? IHc _]; subst. specialize (Hcs ltac:(done)). inversion Hcs; subst.
    apply bind_ok_inv in H as ([w k1] & Hw & H). apply bind_ok_inv in H as (z & Hz & H). injection H as <- _.
    apply IHc in Hw; [|done..]. destruct w as [w|]; [|done]. by eapply evaluateUnary_present.
  - destruct cs as [|l [|r0 [|]]]; try done. inversion IH as [|? ? IHl IH']; subst. inversion IH' as [|? ? IHr _]; subst.
    specialize (Hcs ltac:(done)). inversion Hcs as [|? ? Hul Hcs']; subst. inversion Hcs' as [|? ? Hur _]; subst.
    apply bind_ok_inv in H as ([lv k1] & Hl & H). apply IHl in Hl; [|done..]. destruct lv as [lv|]; [|done].
    destruct (short_circuit bin (Present lv)) as [w|] eqn:Es.
    + injection H as <- _. destruct bin; cbn in Es; try done; case_match; congruence.
    + apply bind_ok_inv in H as ([rv k2] & Hr & H). apply IHr in Hr; [|done..]. destruct rv as [rv|]; [|done].
      apply bind_ok_inv in H as (z & Hz & H). injection H as <- _. by eapply evaluateBinary_present.
  - apply bind_ok_inv in H as ([rs k1] & Hrs & H).
    assert (Hknown : Forall (fun r => r <> NotKnown) rs).
    { specialize (Hcs ltac:(done)). clear Hu H. revert cost rs k1 Hrs. induction IH as [|c cs IHc _ IHcs]; intros cost rs k1 H; cbn [tree_args] in H.
      - injection H as <- _. constructor.
      - inversion Hcs; subst. apply bind_ok_inv in H as ([w k2] & Hw & H). apply bind_ok_inv in H as ([ws k3] & Hws & H). injection H as <- _.
        constructor; [by eapply IHc|by eapply IHcs]. }
    apply present_all_known in Hknown. unfold evaluateCall in H. destruct (present_all rs) as [vs|]; [|done].
    destruct (library_entry _ _); [|done]. apply bind_ok_inv in H as (? & _ & H). apply bind_ok_inv in H as (? & _ & H).
    apply bind_ok_inv in H as (w & Hw & H). injection H as <- _. by eapply call_function_present.
  - destruct cs as [|coll [|pred [|]]]; try done. inversion IH as [|? ? IHc IH']; subst. inversion IH' as [|? ? IHp _]; subst.
    specialize (Hcs ltac:(done)). inversion Hcs as [|? ? Huc Hcs']; subst. inversion Hcs' as [|? ? Hup _]; subst.
    apply bind_ok_inv in H as ([w k1] & Hw & H). apply IHc in Hw; [|done..]. destruct w as [w|]; [|done].
    apply bind_ok_inv in H as (? & _ & H). refine (tree_items_known _ _ _ _ _ _ _ _ _ H); [|by destruct iter].
    intros item c p kp Hp. eapply IHp; [done| |exact Hp]. intros y. unfold item_env.
    destruct (decide (y = "$item")) as [->|]; [rewrite !lookup_insert_eq; eauto|rewrite !lookup_insert_ne by done; apply Hin].
Qed.
End eval.

(** * Theorems *)

Lemma preflight_cost_bounds limits inputs names cost k : cost <= MaxCost limits -> preflight_cost limits inputs names cost = Ok k ->
  cost <= k <= MaxCost limits.
Proof.
  revert cost. induction names as [|name names IH]; intros cost Hc H; cbn [preflight_cost] in H; [injection H as <-; lia|].
  destruct (inputs !! name) as [[]|]; try (by apply IH).
  apply bind_ok_inv in H as (? & _ & H). apply bind_ok_inv in H as (? & Hl%fail_if_ok%Z.ltb_ge & H). apply IH in H; lia.
Qed.

Lemma preflight_no_panic limits inputs types names cost :
  preflight_cost limits inputs names cost <> Panic /\ preflight_values inputs types names <> Panic.
Proof.
  split.
  - revert cost. induction names as [|name names IH]; intros cost; cbn [preflight_cost]; [done|].
    destruct (inputs !! name) as [[]|]; try apply IH. no_panic.
  - induction names as [|name names IH]; cbn [preflight_values]; [done|]. destruct (inputs !! name) as [v|]; [|done].
    apply bind_no_panic; [auto with panics|intros _ _]. apply bind_no_panic; [destruct v; auto with panics|done].
Qed.

(** every expression that compiles passes the validation its evaluation
    starts with, and its published cost is that of its tree: one node per
    lowered tree node, the height of the tree as depth, and every summand
    within the limits it was compiled under. *)
Theorem compiled_artifact_accepted expr limits c (H : CompileExpression expr limits = Ok c) :
  validateCompiledArtifact c library = Ok tt /\
  c_Nodes (ce_Cost c) = Z.of_nat (length (ir_Nodes (ce_IR c))) /\ c_Nodes (ce_Cost c) <= MaxNodes (ce_Limits c) /\
  c_Depth (ce_Cost c) = height (x_Root expr) /\ c_Depth (ce_Cost c) <= MaxDepth (ce_Limits c) /\
  c_Iterations (ce_Cost c) <= MaxIterations (ce_Limits c) /\ c_Total (ce_Cost c) <= MaxCost (ce_Limits c).
Proof.
  destruct (compile_inv _ _ _ H) as (env & n & Hc & _). clear H. pose proof (compilation_valid _ _ _ _ Hc).
  pose proof (cp_height _ _ _ _ Hc). pose proof (cp_nodes _ _ _ _ Hc). pose proof (cp_iterations _ _ _ _ Hc). pose proof (cp_total _ _ _ _ Hc).
  rewrite (cp_cost _ _ _ _ Hc) in *. cbn [c_Nodes c_Depth c_Iterations c_Total] in *. split_and!; first [assumption|reflexivity].
Qed.

(** C24: evaluating an expression gives what its tree means: [evalTree] on the
    declared inputs after the two checks on them, whatever nodes, cache and
    trace the compiled program goes through; the errors agree too. *)
Theorem evaluation_refines_tree expr inputs limits :
  answer (EvaluateExpression expr inputs limits) =
  (c ← CompileExpression expr limits; evaluate_reference (x_Root expr) c inputs).
Proof.
  unfold EvaluateExpression. destruct (CompileExpression expr limits) as [c| |] eqn:E; [|done..].
  destruct (compile_inv _ _ _ E) as (env & n & Hc & _). cbn [mbind outcome_bind].
  apply (proj1 (evaluate_tree expr c env n inputs Hc)).
Qed.

(** C25: the evaluation of a compiled expression ends without a panic on every
    input; a present answer is a valid value of the type the result carries,
    and an unknown one is only returned under PROPAGATE. *)
Theorem compiled_evaluation_sound {L : DecimalBackendLaws DB} expr limits c inputs (H : CompileExpression expr limits = Ok c) :
  CompiledExpression_Evaluate c inputs <> Panic /\
  (forall r, CompiledExpression_Evaluate c inputs = Ok r ->
     (er_State r = EvalStatePresent /\ runtimeValueMatches (er_Type r) (er_Value r) = true /\ Value_Validate (er_Value r) = Ok tt) \/
     (er_State r = EvalStateUnknown /\ er_Value r = Value_zero /\ ce_UnknownSemantics c = UnknownSemanticsPropagate)).
Proof.
  destruct (compile_inv _ _ _ H) as (env & n & Hc & _). clear H. destruct (evaluate_tree _ _ _ _ inputs Hc) as [Ha Ht].
  pose proof (cp_tree _ _ _ _ Hc) as Htree. pose proof (compilation_types _ _ _ _ Hc) as Hin.
  unfold evaluate_reference in Ha. rewrite Hin in Ha. split.
  - intros E. rewrite E in Ha. cbn in Ha. symmetry in Ha. revert Ha.
    apply bind_no_panic; [by apply preflight_no_panic|intros cost _]. apply bind_no_panic; [by apply (preflight_no_panic (ce_Limits c) _ _ _ 0)|intros _ _].
    apply bind_no_panic; [by eapply (proj1 (tree_total _ _ _ _ _)), Htree|]. intros [[w|] k] _; [done|]. no_panic.
  - intros r Hr. destruct (Ht r Hr) as [-> _]. rewrite Hr in Ha. cbn in Ha. symmetry in Ha.
    apply bind_ok_inv in Ha as (cost & _ & Ha). apply bind_ok_inv in Ha as (? & _ & Ha). apply bind_ok_inv in Ha as ([w k] & Hw & Ha).
    pose proof (proj1 (tree_sound _ _ _ _ _) _ _ _ _ _ Htree _ _ _ _ Hw) as Hs. destruct w as [w|].
    + injection Ha as Hst Hv. rewrite <- Hst, <- Hv. left. destruct Hs. split_and!; [done|done|by apply Value_Validate_ok].
    + apply bind_ok_inv in Ha as (? & Hrej%fail_if_ok%bool_decide_eq_false & Ha). injection Ha as Hst Hv. rewrite <- Hst, <- Hv.
      right. split_and!; [done|done|]. pose proof (cp_unknown _ _ _ _ Hc) as Hu. unfold UnknownSemantics_Valid in Hu.
      apply orb_true_iff in Hu as [Hu|Hu]; by apply bool_decide_eq_true in Hu.
Qed.

(** facts that arrive later never change a known answer: if a compiled
    expression answers with a value, then on more inputs it gives the same
    value or an error; and it answers UNKNOWN only if a declared input is
    missing or the tree contains UNKNOWN. *)
Theorem known_answers_stable expr limits c inputs inputs' r r' (H : CompileExpression expr limits = Ok c)
    (Hin : inputs ⊆ inputs') (Hr : CompiledExpression_Evaluate c inputs = Ok r) (Hr' : CompiledExpression_Evaluate c inputs' = Ok r') :
  (er_State r = EvalStatePresent -> er_State r' = EvalStatePresent /\ er_Value r' = er_Value r) /\
  (er_State r = EvalStateUnknown -> no_unknown (x_Root expr) = true -> exists i, i ∈ x_Inputs expr /\ inputs !! in_Name i = None).
Proof.
  destruct (compile_inv _ _ _ H) as (env & n & Hc & _). clear H.
  destruct (evaluate_tree _ _ _ _ inputs Hc) as [Ha _]. destruct (evaluate_tree _ _ _ _ inputs' Hc) as [Ha' _].
  rewrite Hr in Ha. rewrite Hr' in Ha'. unfold evaluate_reference in Ha, Ha'. cbn in Ha, Ha'. symmetry in Ha, Ha'.
  rewrite (compilation_types _ _ _ _ Hc) in Ha, Ha'.
  apply bind_ok_inv in Ha as (cost & _ & Ha). apply bind_ok_inv in Ha as (? & _ & Ha). apply bind_ok_inv in Ha as ([w k] & Hw & Ha).
  apply bind_ok_inv in Ha' as (cost' & _ & Ha'). apply bind_ok_inv in Ha' as (? & _ & Ha'). apply bind_ok_inv in Ha' as ([w' k'] & Hw' & Ha').
  split.
  - intros Hst. destruct w as [w|]; [|apply bind_ok_inv in Ha as (? & _ & Ha); injection Ha; congruence].
    destruct (tree_monotone _ _ _ _ _ _ _ _ _ _ _ _ _ Hin Hw Hw') as [?|<-]; [done|]. split; congruence.
  - intros Hst Hu. destruct w as [w|]; [injection Ha; congruence|].
    destruct (decide (Forall (fun i => is_Some (inputs !! in_Name i)) (x_Inputs expr))) as [Hall|Hnot].
    + exfalso. refine (tree_known _ _ _ _ _ _ _ _ _ Hu _ Hw eq_refl). intros y [i Hy].
      apply (declare_inputs_inv _ _ _ (cp_env _ _ _ _ Hc)) in Hy as [Hy|[Hy <-]]; [done|]. rewrite Forall_forall in Hall. by apply Hall.
    + apply not_Forall_Exists in Hnot; [|intros i; apply _]. apply Exists_exists in Hnot as (i & Hi & Hn). exists i. split; [done|].
      by apply eq_None_not_Some.
Qed.

(** the running cost of an evaluation starts at the published cost and the
    lengths of the lists it is given, only grows, and never passes the limit
    of the artifact. *)
Theorem evaluation_within_budget expr limits c inputs cost v st (H : CompileExpression expr limits = Ok c)
    (Hp : preflight_cost (ce_Limits c) inputs (declared_names (input_types (ce_Inputs c))) (c_Total (ce_Cost c)) = Ok cost)
    (He : evaluateNode (S (length (ir_Nodes (ce_IR c)))) (mkProgram (ce_IR c) (MaxCost (ce_Limits c)) (MaxIterations (ce_Limits c)) (ce_Dependencies c))
            inputs (input_types (ce_Inputs c)) (ir_Root (ce_IR c)) (mkEstate ∅ [] cost) = Ok (v, st)) :
  c_Total (ce_Cost c) <= cost <= es_cost st /\ es_cost st <= MaxCost (ce_Limits c).
Proof.
  destruct (compile_inv _ _ _ H) as (env & n & Hc & _). clear H. pose proof (cp_total _ _ _ _ Hc) as Ht.
  apply preflight_cost_bounds in Hp; [|done]. rewrite (compilation_types _ _ _ _ Hc) in He.
  destruct (proj1 (node_agrees (MaxCost (ce_Limits c)) (MaxIterations (ce_Limits c)) (ce_Dependencies c) (ce_Limits c) (ce_IR c)) _ _ _ _ _ (cp_tree _ _ _ _ Hc)) as [_ Hev].
  specialize (Hev (S (length (ir_Nodes (ce_IR c)))) inputs (mkEstate ∅ [] cost) ltac:(lia) ltac:(done)).
  rewrite <- (cp_root _ _ _ _ Hc), He in Hev. cbn [es_cost] in Hev.
  destruct (evalTree _ _ _ _ _ _ _) as [[w k]| |] eqn:E; [|done..]. destruct Hev as (st' & [= <- <-] & Hk & _).
  apply tree_budget in E; [|lia]. lia.
Qed.
End facts.
