(* ===== verification/ExpressionExamples.v ===== *)
(** Concrete expressions: the theorems of [ExpressionFacts] applied, and inputs
    on which compiler and evaluator depart from their documentation. *)

From S2P Require Import Prelude GoStrings Sorting CanonicalBytes FixedDecimal CivilTime RuleValues Expression ExpressionEval ExpressionLower ExpressionArtifact ExpressionTree ExpressionSound ExpressionFacts.

Local Open Scope Z_scope.

(** A digest for the examples: the length of the bytes and their sum. *)
#[local] Instance example_sha : Sha256 := {| sha256_Sum256 := fun bs => [Z.of_nat (length bs) mod 256; foldr Z.add 0 bs mod 256] |}.
(** Case mapping outside ASCII is not used. *)
#[local] Instance example_case : CaseMapping := {| unicode_lower := fun s => s; unicode_upper := fun s => s |}.

Abbreviation library := DefaultExpressionFunctionLibrary.

Definition propagate (root : Expr) (inputs : list Input) : Expression := mkExpression root inputs [] "1" UnknownSemanticsPropagate.
Definition scalar (name : string) (t : ExpressionType) : Input := mkInput name t ExpressionTypeUnspecified.
Definition int_list (name : string) : Input := mkInput name ExpressionTypeList ExpressionTypeInt.
Definition var (name : string) : Expr := Variable_ name ExpressionTypeUnspecified.

(** [days >= 5 && any item of levels: item == 3]. *)
Definition sample : Expression :=
  propagate (Binary BinaryOpAnd (Binary BinaryOpGreaterOrEqual (var "days") (IntLiteral 5))
               (Iterate IterationOpAny (var "levels") (Binary BinaryOpEqual (var "$item") (IntLiteral 3)) 4))
    [scalar "days" ExpressionTypeInt; int_list "levels"].

Definition or_zero {A} (z : A) (m : outcome rules_err A) : A := match m with Ok a => a | _ => z end.
Definition no_artifact : CompiledExpression :=
  mkCompiled (mkIR [] 0) [] [] "" "" "" UnknownSemanticsUnspecified "" "" (mkCost 0 0 0 0) DefaultCostLimit.
Definition sample_artifact : CompiledExpression := Eval vm_compute in or_zero no_artifact (CompileExpression sample []).

Lemma sample_compiles : CompileExpression sample [] = Ok sample_artifact.
Proof. vm_compute. reflexivity. Qed.

Definition days_only : gmap string Value := {[ "days" := IntValue 2 ]}.
Definition both : gmap string Value := <["levels" := ListValue [IntValue 1; IntValue 3]]> days_only.
Definition levels_only : gmap string Value := {[ "levels" := ListValue [IntValue 1; IntValue 3] ]}.

Lemma compiled_artifact_accepted_witness :
  validateCompiledArtifact sample_artifact library = Ok tt /\ c_Depth (ce_Cost sample_artifact) = 4.
Proof.
  pose proof (compiled_artifact_accepted sample [] sample_artifact sample_compiles) as H.
  split; [exact (proj1 H)|]. vm_compute. reflexivity.
Defined.

Lemma compiled_evaluation_sound_witness :
  CompiledExpression_Evaluate sample_artifact both <> Panic /\ is_ok (CompiledExpression_Evaluate sample_artifact both) = true.
Proof.
  split; [|vm_compute; reflexivity]. exact (proj1 (compiled_evaluation_sound sample [] sample_artifact both sample_compiles)).
Defined.

Definition answer_of (inputs : gmap string Value) : ExpressionResult :=
  or_zero (mkExpressionResult EvalStateUnspecified ExpressionTypeUnspecified Value_zero "" []) (CompiledExpression_Evaluate sample_artifact inputs).

Lemma known_answers_stable_witness :
  er_State (answer_of both) = EvalStatePresent /\ er_Value (answer_of both) = BoolValue false /\
  er_State (answer_of levels_only) = EvalStateUnknown.
Proof.
  assert (Hin : days_only ⊆ both) by (apply insert_subseteq; reflexivity).
  assert (Hr : CompiledExpression_Evaluate sample_artifact days_only = Ok (answer_of days_only)) by (vm_compute; reflexivity).
  assert (Hr' : CompiledExpression_Evaluate sample_artifact both = Ok (answer_of both)) by (vm_compute; reflexivity).
  assert (Hp : er_State (answer_of days_only) = EvalStatePresent) by (vm_compute; reflexivity).
  destruct (proj1 (known_answers_stable sample [] sample_artifact days_only both _ _ sample_compiles Hin Hr Hr') Hp) as [H1 H2].
  split; [exact H1|]. split; [exact H2|]. vm_compute. reflexivity.
Defined.

Definition sample_run : runtimeValue * estate :=
  or_zero (NotKnown, mkEstate ∅ [] 0)
    (evaluateNode (S (length (ir_Nodes (ce_IR sample_artifact))))
       (mkProgram (ce_IR sample_artifact) (MaxCost (ce_Limits sample_artifact)) (MaxIterations (ce_Limits sample_artifact)) (ce_Dependencies sample_artifact))
       both (input_types (ce_Inputs sample_artifact)) (ir_Root (ce_IR sample_artifact)) (mkEstate ∅ [] 17)).

Lemma evaluation_within_budget_witness : es_cost sample_run.2 <= 1024.
Proof.
  apply (evaluation_within_budget sample [] sample_artifact both 17 sample_run.1 sample_run.2 sample_compiles);
    vm_compute; reflexivity.
Defined.

(** * Edge cases *)

Definition compiles_to (e : Expression) (inputs : gmap string Value) : outcome rules_err (EvalState * Value) := answer (EvaluateExpression e inputs []).

(** Equality of two booleans, and a sum of an INT and a DECIMAL. *)
Definition flag_equals : Expression := propagate (Binary BinaryOpEqual (var "flag") (BoolLiteral true)) [scalar "flag" ExpressionTypeBool].
Definition mixed_sum (d : Decimal) : Expression := propagate (Binary BinaryOpAdd (IntLiteral 1) (DecimalLiteral d)) [].
Definition one_half : Decimal := mkDecimal true false (Some 5) 1 RoundingHalfEven.

(** A conjunction whose left side is a number. *)
Definition number_and_unknown : Expression := propagate (Binary BinaryOpAnd (IntLiteral 5) Unknown) [].

(** [any item of levels: item == 1 || known]. *)
Definition any_one_or_known : Expression :=
  propagate (Iterate IterationOpAny (var "levels") (Binary BinaryOpOr (Binary BinaryOpEqual (var "$item") (IntLiteral 1)) (var "known")) 4)
    [int_list "levels"; scalar "known" ExpressionTypeBool].
Definition levels_are (l : list Z) : gmap string Value := {[ "levels" := ListValue (IntValue <$> l) ]}.

(** [days >= 5 || known] under REJECT. *)
Definition rejecting : Expression :=
  mkExpression (Binary BinaryOpOr (Binary BinaryOpGreaterOrEqual (var "days") (IntLiteral 5)) (var "known"))
    [scalar "days" ExpressionTypeInt; scalar "known" ExpressionTypeBool] [] "1" UnknownSemanticsReject.

Definition next_int : Expression := propagate (Binary BinaryOpAdd (var "n") (IntLiteral 1)) [scalar "n" ExpressionTypeInt].

(** Two nested iterations over [n] items each. *)
Definition nested (bound : Z) : Expression :=
  propagate (Iterate IterationOpAll (var "levels")
    (Iterate IterationOpAll (var "levels") (Binary BinaryOpGreater (var "$item") (IntLiteral 0)) bound) bound) [int_list "levels"].
Definition tight : CostLimit := mkCostLimit 16 8 64 100.
Definition steps_of (e : Expression) (inputs : gmap string Value) (limit : CostLimit) : Z :=
  match EvaluateExpression e inputs [limit] with Ok r => Z.of_nat (length (er_Steps r)) | _ => -1 end.

(** An artifact whose only node is a negation without an operand, with the
    digests its fields have. *)
Definition bare_node : IRNode :=
  mkIRNode OpcodeUnary ExpressionTypeInt ExpressionTypeUnspecified "" "" "" 0 Value_zero UnaryOpNegate BinaryOpUnspecified IterationOpUnspecified 0 [].
Definition bare_artifact : CompiledExpression :=
  let deps := or_zero "" (dependenciesDigest []) in
  let ir := mkIR [bare_node] 0 in
  let cost := mkCost 1 1 0 1 in
  let digest := or_zero "" (compiledDigest "1" UnknownSemanticsPropagate [] [] deps (lib_version library) (lib_digest library) ir cost DefaultCostLimit) in
  mkCompiled ir [] [] "1" (lib_version library) (lib_digest library) UnknownSemanticsPropagate deps digest cost DefaultCostLimit.

(** edge cases of the expression language.  Equality of booleans compiles
    and always fails at run time, as does arithmetic on an INT and a DECIMAL;
    a number may stand on the left of [&&] and counts as false; the answer of
    ANY depends on the order of the items once one of them is UNKNOWN; REJECT
    lets an unknown input pass when the other operand decides; INT addition
    wraps; nested iterations take more steps than MaxCost; and a validated
    artifact can make the evaluation panic. *)
Theorem expression_edge_cases :
  is_ok (CompileExpression flag_equals []) = true /\ is_ok (CompileExpression (mixed_sum one_half) []) = true /\
  compiles_to flag_equals {[ "flag" := BoolValue true ]} = Err ErrOperatorUnsupported /\
  compiles_to (mixed_sum one_half) ∅ = Err ErrExpressionType /\
  compiles_to number_and_unknown ∅ = Ok (EvalStatePresent, BoolValue false) /\
  compiles_to any_one_or_known (levels_are [1; 2]) = Ok (EvalStatePresent, BoolValue true) /\
  compiles_to any_one_or_known (levels_are [2; 1]) = Ok (EvalStateUnknown, Value_zero) /\
  compiles_to rejecting {[ "days" := IntValue 7 ]} = Ok (EvalStatePresent, BoolValue true) /\
  compiles_to next_int {[ "n" := IntValue max_int64 ]} = Ok (EvalStatePresent, IntValue min_int64) /\
  MaxCost tight < steps_of (nested 10) (levels_are [1; 2; 3; 4; 5; 6; 7; 8; 9; 10]) tight /\
  validateCompiledArtifact bare_artifact library = Ok tt /\ CompiledExpression_Evaluate bare_artifact ∅ = Panic.
Proof. split_and!; vm_compute; reflexivity. Qed.
