(* ===== verification/LeaseTable.v ===== *)
(** The durable half of execution leases: the table [workflow_lease] of
    [migrations/00026_workflow_scheduling_state.sql] and the statements
    [LeaseStore] of [internal/data/runtimestate/scheduling.go] runs on it.

    A table is the list of its rows in the order of insertion.  Each statement
    is a function on tables written from its SQL text; an insertion or update
    that violates a constraint of the migration is the error [db_err] and
    changes nothing, as the transaction is aborted.  UUIDs are their canonical
    texts.  Instants are nanoseconds since Go's zero time, which is 0; the
    column type keeps fewer digits, and what the driver stores of an instant is
    the class [TimestampCodec]. *)

From S2P Require Import Prelude.

Local Open Scope Z_scope.

(** What a [timestamptz] column gives back for an instant written to it. *)
Class TimestampCodec : Type := { stored : Z -> Z }.
Class TimestampLaws (TS : TimestampCodec) : Prop := {
  stored_mono a b : a <= b -> stored a <= stored b;
  stored_le a : stored a <= a;
  stored_idem a : stored (stored a) = stored a
}.

(** Microseconds, truncated: the resolution of the column. *)
Definition micros : TimestampCodec := {| stored := fun t => t - t mod 1000 |}.
#[export] Instance micros_laws : TimestampLaws micros.
Proof. constructor; unfold micros, stored; intros; div_lia. Qed.

Definition nil_uuid : string := "00000000-0000-0000-0000-000000000000".

(** * Rows *)

Definition LeaseWorkflowInstance : string := "WORKFLOW_INSTANCE".
Definition LeaseNodeExecution : string := "NODE_EXECUTION".
Definition LeaseWorkItem : string := "WORK_ITEM".
Definition LeaseQueue : string := "QUEUE".

Definition LeaseHeld : string := "HELD".
Definition LeaseReleased : string := "RELEASED".
Definition LeaseExpired : string := "EXPIRED".
Definition LeaseRevoked : string := "REVOKED".

Definition leaseKinds (kind : string) : bool :=
  existsb (String.eqb kind) [LeaseWorkflowInstance; LeaseNodeExecution; LeaseWorkItem; LeaseQueue].

Record Lease : Type := mkLease {
  l_TenantID : string;
  l_LeaseID : string;
  l_ResourceKind : string;
  l_ResourceID : string;
  l_State : string;
  l_FenceToken : Z;
  l_HolderID : string;
  l_AcquiredAt : Z;
  l_ExpiresAt : Z;
  l_HeartbeatAt : Z;
  l_Version : Z
}.

(** A row has one more column, [released_at]. *)
Record lease_row : Type := mkRow { row_lease : Lease; row_released : option Z }.
Abbreviation lease_table := (list lease_row).

#[export] Instance Lease_eq_dec : EqDecision Lease.
Proof. solve_decision. Defined.
#[export] Instance lease_row_eq_dec : EqDecision lease_row.
Proof. solve_decision. Defined.

(** A resource of a tenant: the key of the uniqueness rules. *)
Definition resource_key : Type := string * string * string.
Definition key_of (r : lease_row) : resource_key :=
  (l_TenantID (row_lease r), l_ResourceKind (row_lease r), l_ResourceID (row_lease r)).
Definition row_id (r : lease_row) : string * string := (l_TenantID (row_lease r), l_LeaseID (row_lease r)).
Definition row_held (r : lease_row) : bool := String.eqb (l_State (row_lease r)) LeaseHeld.
Definition row_token (r : lease_row) : Z := l_FenceToken (row_lease r).

Definition with_settled (state : string) (at_ : Z) (r : lease_row) : lease_row :=
  let l := row_lease r in
  mkRow (mkLease (l_TenantID l) (l_LeaseID l) (l_ResourceKind l) (l_ResourceID l) state (l_FenceToken l) (l_HolderID l)
           (l_AcquiredAt l) (l_ExpiresAt l) (l_HeartbeatAt l) (l_Version l + 1)) (Some at_).
Definition with_heartbeat (at_ expires : Z) (r : lease_row) : lease_row :=
  let l := row_lease r in
  mkRow (mkLease (l_TenantID l) (l_LeaseID l) (l_ResourceKind l) (l_ResourceID l) (l_State l) (l_FenceToken l) (l_HolderID l)
           (l_AcquiredAt l) expires at_ (l_Version l + 1)) (row_released r).

(** * Constraints *)

Inductive db_err : Type := DbCheck | DbPrimaryKey | DbFenceUnique | DbOneHolder.

(** The domain [semantic_key]: not blank, no blanks around it. *)
Definition starts_blank (s : string) : bool := match s with String c _ => Ascii.eqb c " " | EmptyString => false end.
Fixpoint ends_blank (s : string) : bool :=
  match s with EmptyString => false | String c EmptyString => Ascii.eqb c " " | String _ r => ends_blank r end.
Definition semantic_key (s : string) : bool := negb (String.eqb s "") && negb (starts_blank s) && negb (ends_blank s).

(** The column types and the [CHECK]s of one row. *)
Definition row_checks (r : lease_row) : bool :=
  let l := row_lease r in
  semantic_key (l_ResourceID l) && semantic_key (l_HolderID l)
  && leaseKinds (l_ResourceKind l)
  && existsb (String.eqb (l_State l)) [LeaseHeld; LeaseReleased; LeaseExpired; LeaseRevoked]
  && (1 <=? l_FenceToken l) && (l_FenceToken l <=? max_int64)
  && (l_AcquiredAt l <? l_ExpiresAt l)
  && Bool.eqb (row_held r) (match row_released r with None => true | Some _ => false end)
  && (1 <=? l_Version l) && (l_Version l <=? max_int64).

Definition same_id (r s : lease_row) : bool := bool_decide (row_id r = row_id s).
Definition same_fence (r s : lease_row) : bool := bool_decide (key_of r = key_of s) && (row_token r =? row_token s).
Definition same_held (r s : lease_row) : bool := bool_decide (key_of r = key_of s) && row_held r && row_held s.

(** [INSERT]. *)
Definition insert_row (r : lease_row) (t : lease_table) : outcome db_err lease_table :=
  _ ← fail_if (negb (row_checks r)) DbCheck;
  _ ← fail_if (existsb (same_id r) t) DbPrimaryKey;
  _ ← fail_if (existsb (same_fence r) t) DbFenceUnique;
  _ ← fail_if (existsb (same_held r) t) DbOneHolder;
  Ok (t ++ [r]).

(** [UPDATE ... SET f WHERE p]: the number of rows affected and the new table.
    The updates below set no column of a key and never set the state to HELD,
    so only the checks of a row can fail. *)
Definition update_rows (p : lease_row -> bool) (f : lease_row -> lease_row) (t : lease_table) : outcome db_err (Z * lease_table) :=
  if forallb (fun r => negb (p r) || row_checks (f r)) t
  then Ok (Z.of_nat (length (List.filter p t)), (fun r => if p r then f r else r) <$> t)
  else Err DbCheck.

(** * LeaseStore *)

Inductive rs_err : Type := RsInvalid | RsNotFound | RsLeaseHeld | RsFenceStale | RsDb (e : db_err).

Section store.
Context {TS : TimestampCodec}.

(** The [SELECT] of [Current] and [currentQuery]; the lock of [FOR UPDATE] is
    accounted for by the steps of [LeaseSteps]. *)
Definition LeaseStore_currentQuery (tenant kind id : string) (t : lease_table) : outcome rs_err Lease :=
  match List.find (fun r => bool_decide (key_of r = (tenant, kind, id)) && row_held r) t with
  | Some r =>
      let l := row_lease r in
      Ok (mkLease (l_TenantID l) (l_LeaseID l) (l_ResourceKind l) (l_ResourceID l) (l_State l) (to_uint64 (l_FenceToken l)) (l_HolderID l)
            (l_AcquiredAt l) (l_ExpiresAt l) (l_HeartbeatAt l) (to_uint64 (l_Version l)))
  | None => Err RsNotFound
  end.
Definition LeaseStore_Current := LeaseStore_currentQuery.
Definition LeaseStore_CurrentForUpdate := LeaseStore_currentQuery.

Definition resource_rows (tenant kind id : string) (t : lease_table) : lease_table :=
  List.filter (fun r => bool_decide (key_of r = (tenant, kind, id))) t.

(** [coalesce(max(fence_token), 0)], then one past it in 64 bits. *)
Definition highest_token (rows : lease_table) : Z := fold_right Z.max 0 (row_token <$> rows).
Definition LeaseStore_nextFence (tenant kind id : string) (t : lease_table) : Z :=
  to_uint64 (to_uint64 (highest_token (resource_rows tenant kind id t)) + 1).

(** [Acquire] up to its last read. *)
Definition acquire_read (inp : Lease) (now : Z) (t : lease_table) : outcome rs_err (option Lease) :=
  _ ← fail_if (negb (leaseKinds (l_ResourceKind inp))) RsInvalid;
  _ ← fail_if (String.eqb (l_ResourceID inp) "" || String.eqb (l_HolderID inp) "") RsInvalid;
  _ ← fail_if ((l_AcquiredAt inp =? 0) || negb (l_AcquiredAt inp <? l_ExpiresAt inp)) RsInvalid;
  _ ← fail_if (now =? 0) RsInvalid;
  match LeaseStore_Current (l_TenantID inp) (l_ResourceKind inp) (l_ResourceID inp) t with
  | Ok current => if now <? l_ExpiresAt current then Err RsLeaseHeld else Ok (Some current)
  | Err RsNotFound => Ok None
  | Err e => Err e
  | Panic => Panic
  end.

Definition db {A} (m : outcome db_err A) : outcome rs_err A := map_err RsDb m.

(** The writes of [Acquire]: retire the lapsed row, mint the token, insert. *)
Definition acquire_write (inp : Lease) (now : Z) (current : option Lease) (t : lease_table) : outcome rs_err (Lease * lease_table) :=
  '(_, t1) ← match current with
             | Some c => db (update_rows (fun r => bool_decide (row_id r = (l_TenantID inp, l_LeaseID c)))
                                         (with_settled LeaseExpired (stored now)) t)
             | None => Ok (0, t)
             end;
  let next := LeaseStore_nextFence (l_TenantID inp) (l_ResourceKind inp) (l_ResourceID inp) t1 in
  let heartbeat := if l_HeartbeatAt inp =? 0 then l_AcquiredAt inp else l_HeartbeatAt inp in
  let row := mkRow (mkLease (l_TenantID inp) (l_LeaseID inp) (l_ResourceKind inp) (l_ResourceID inp) LeaseHeld (to_int64 next) (l_HolderID inp)
                      (stored (l_AcquiredAt inp)) (stored (l_ExpiresAt inp)) (stored heartbeat) 1) None in
  t2 ← db (insert_row row t1);
  Ok (mkLease (l_TenantID inp) (l_LeaseID inp) (l_ResourceKind inp) (l_ResourceID inp) LeaseHeld next (l_HolderID inp)
        (l_AcquiredAt inp) (l_ExpiresAt inp) heartbeat 1, t2).

Definition LeaseStore_Acquire (inp : Lease) (now : Z) (t : lease_table) : outcome rs_err (Lease * lease_table) :=
  current ← acquire_read inp now t; acquire_write inp now current t.

Definition fenced_row (tenant lease : string) (token : Z) (r : lease_row) : bool :=
  bool_decide (row_id r = (tenant, lease)) && (row_token r =? to_int64 token) && row_held r.

Definition LeaseStore_Heartbeat (tenant lease : string) (token at_ newExpiry : Z) (t : lease_table) : outcome rs_err lease_table :=
  _ ← fail_if (token =? 0) RsInvalid;
  _ ← fail_if ((at_ =? 0) || negb (at_ <? newExpiry)) RsInvalid;
  '(affected, t') ← db (update_rows (fenced_row tenant lease token) (with_heartbeat (stored at_) (stored newExpiry)) t);
  if affected =? 0 then Err RsFenceStale else Ok t'.

Definition LeaseStore_settle (tenant lease : string) (token : Z) (next : string) (at_ : Z) (t : lease_table) : outcome rs_err lease_table :=
  _ ← fail_if (at_ =? 0) RsInvalid;
  '(affected, t') ← db (update_rows (fenced_row tenant lease token) (with_settled next (stored at_)) t);
  if affected =? 0 then Err RsFenceStale else Ok t'.
Definition LeaseStore_Release (tenant lease : string) (token at_ : Z) (t : lease_table) := LeaseStore_settle tenant lease token LeaseReleased at_ t.
Definition LeaseStore_Expire (tenant lease : string) (token at_ : Z) (t : lease_table) := LeaseStore_settle tenant lease token LeaseExpired at_ t.

(** [ORDER BY fence_token]. *)
Fixpoint insert_by_token (r : lease_row) (rows : lease_table) : lease_table :=
  match rows with
  | [] => [r]
  | s :: rest => if row_token r <=? row_token s then r :: rows else s :: insert_by_token r rest
  end.
Fixpoint order_by_token (rows : lease_table) : lease_table :=
  match rows with [] => [] | r :: rest => insert_by_token r (order_by_token rest) end.
Definition LeaseStore_History (tenant kind id : string) (t : lease_table) : list Lease :=
  (fun r => let l := row_lease r in
    mkLease (l_TenantID l) (l_LeaseID l) (l_ResourceKind l) (l_ResourceID l) (l_State l) (to_uint64 (l_FenceToken l)) (l_HolderID l)
      (l_AcquiredAt l) (l_ExpiresAt l) (l_HeartbeatAt l) (to_uint64 (l_Version l)))
    <$> order_by_token (resource_rows tenant kind id t).
End store.
