(* ===== verification/LeaseManager.v ===== *)
(** Execution leases and fencing: [internal/workflow/lease] over the table of
    [LeaseTable], and [AdvanceFenced] of [internal/workflow/runtime/fenced.go].

    A method of [Manager] is a function from the table to its result and the
    new table; an error leaves the table as it was, since a refusal writes
    nothing and a failed statement aborts the caller's transaction.  A failure
    of the connection is not modelled.  The digest of an evidence record (JSON
    and SHA-256) and the text of an instant are the class [LeaseText]; the
    advancement itself is a parameter of [AdvanceFenced]. *)

From S2P Require Import Prelude LeaseTable.

Local Open Scope Z_scope.

(** * Refusals *)

Inductive lease_sentinel : Type := ErrInvalid | ErrHeld | ErrLeaseLost | ErrFenceStale | ErrLeaseLive | ErrStorage.

Definition CodeInvalid : string := "INVALID_LEASE_REQUEST".
Definition CodeLeaseHeld : string := "LEASE_HELD".
Definition CodeLeaseLost : string := "LEASE_LOST".
Definition CodeFenceStale : string := "FENCE_STALE".
Definition CodeFenceForeign : string := "FENCE_FOREIGN".
Definition CodeLeaseLive : string := "LEASE_LIVE".
Definition CodeStorageFailed : string := "STORAGE_FAILED".

Record Resource : Type := mkResource { Kind : string; ID : string }.
Record Identity : Type := mkIdentity { WorkloadRef : string; InstanceRef : string }.

#[export] Instance Resource_eq_dec : EqDecision Resource.
Proof. solve_decision. Defined.
#[export] Instance Identity_eq_dec : EqDecision Identity.
Proof. solve_decision. Defined.

(** [lease.Error]; its detail text is not modelled. *)
Record lease_error : Type := mkLeaseError {
  le_Code : string;
  le_Resource : Resource;
  le_HolderID : string;
  le_sentinel : lease_sentinel
}.

Definition refuse (code : string) (sentinel : lease_sentinel) (res : Resource) (holder : string) : lease_error :=
  mkLeaseError code res holder sentinel.
Definition wrapStorage (res : Resource) (holder : string) : lease_error := refuse CodeStorageFailed ErrStorage res holder.
Definition invalid (res : Resource) (holder : string) : lease_error := refuse CodeInvalid ErrInvalid res holder.

(** * Identity *)

Definition Resource_validate (r : Resource) : outcome lease_error unit :=
  if negb (existsb (String.eqb (Kind r)) [LeaseWorkflowInstance; LeaseNodeExecution; LeaseWorkItem; LeaseQueue]) then Err (invalid r "")
  else fail_if (is_blank (ID r) || negb (is_trimmed (ID r))) (invalid r "").

Definition holderSeparator : ascii := "#".
Definition workloadScheme : string := "workload:".

Definition HolderID (i : Identity) : string := WorkloadRef i +:+ String holderSeparator (InstanceRef i).

Definition Identity_validate (i : Identity) (res : Resource) : outcome lease_error unit :=
  if is_blank (WorkloadRef i) then Err (invalid res "")
  else match cut_prefix workloadScheme (WorkloadRef i) with
  | None => Err (invalid res (WorkloadRef i))
  | Some name =>
      if is_blank name then Err (invalid res (WorkloadRef i))
      else if is_blank (InstanceRef i) then Err (invalid res (WorkloadRef i))
      else if str_contains holderSeparator (WorkloadRef i) || str_contains holderSeparator (InstanceRef i) then Err (invalid res (WorkloadRef i))
      else fail_if (negb (is_trimmed (WorkloadRef i)) || negb (is_trimmed (InstanceRef i))) (invalid res (WorkloadRef i))
  end.

(** [ParseHolder]; its own error carries the sentinel [ErrInvalid]. *)
Definition ParseHolder (holderID : string) : outcome lease_error Identity :=
  let '(workload, instance_, ok) := str_cut holderSeparator holderID in
  if negb ok then Err (invalid (mkResource "" "") "")
  else
    let id := mkIdentity workload instance_ in
    _ ← Identity_validate id (mkResource LeaseWorkflowInstance "unknown");
    Ok id.

(** * Fences, grants, evidence *)

Record Fence : Type := mkFence { f_TenantID : string; f_Resource : Resource; f_LeaseID : string; f_Holder : Identity; f_Token : Z }.

Definition Fence_Validate (f : Fence) : outcome lease_error unit :=
  let refused := invalid (f_Resource f) (HolderID (f_Holder f)) in
  _ ← fail_if (String.eqb (f_TenantID f) nil_uuid) refused;
  _ ← Resource_validate (f_Resource f);
  _ ← fail_if (String.eqb (f_LeaseID f) nil_uuid) refused;
  _ ← Identity_validate (f_Holder f) (f_Resource f);
  fail_if (f_Token f =? 0) refused.

Inductive TransitionKind : Type :=
  | TransitionAcquired | TransitionTakenOver | TransitionRenewed | TransitionReleased | TransitionExpired
  | TransitionRevoked | TransitionVerified | TransitionRefused.

Record Evidence : Type := mkEvidence {
  ev_Kind : TransitionKind;
  ev_TenantID : string;
  ev_LeaseID : string;
  ev_Resource : Resource;
  ev_HolderID : string;
  ev_Token : Z;
  ev_PriorToken : Z;
  ev_At : Z;
  ev_Reason : string;
  ev_digest : string
}.

(** [time.Format(RFC3339Nano)], and [canonicalDigest] of an evidence record's fields. *)
Class LeaseText : Type := {
  rfc3339 : Z -> string;
  evidence_digest : TransitionKind -> string -> string -> Resource -> string -> Z -> Z -> Z -> string -> string
}.

Record Grant : Type := mkGrant { g_Fence : Fence; g_AcquiredAt : Z; g_ExpiresAt : Z; g_Version : Z; g_Evidence : Evidence }.
(** [Held] has the fields of [Grant]. *)
Definition Held : Type := Grant.
Record Observation : Type := mkObservation { o_Held : bool; o_Expired : bool; o_HolderID : string; o_LeaseID : string; o_Token : Z; o_ExpiresAt : Z }.
Record AcquireRequest : Type := mkAcquireRequest {
  r_TenantID : string; r_Resource : Resource; r_Holder : Identity; r_Now : Z; r_TTL : Z; r_LeaseID : string
}.

Definition AcquireRequest_validate (r : AcquireRequest) : outcome lease_error unit :=
  let refused := invalid (r_Resource r) (HolderID (r_Holder r)) in
  _ ← fail_if (String.eqb (r_TenantID r) nil_uuid) refused;
  _ ← Resource_validate (r_Resource r);
  _ ← Identity_validate (r_Holder r) (r_Resource r);
  _ ← fail_if (r_Now r =? 0) refused;
  fail_if (r_TTL r <=? 0) refused.

(** [runtimestate.Lease{}]. *)
Definition no_lease : Lease := mkLease nil_uuid nil_uuid "" "" "" 0 "" 0 0 0 0.

Section manager.
Context {TS : TimestampCodec} {LT : LeaseText}.

Definition newEvidence (kind : TransitionKind) (tenant lease : string) (res : Resource) (holder : string) (token prior at_ : Z) (reason : string) : Evidence :=
  mkEvidence kind tenant lease res holder token prior at_ reason (evidence_digest kind tenant lease res holder token prior at_ reason).

(** * Manager *)

(** The error of a refused acquire; the two uniqueness rules named by their
    constraint mean a racer. *)
Definition acquireError (req : AcquireRequest) (e : rs_err) : lease_error :=
  let res := r_Resource req in
  let holder := HolderID (r_Holder req) in
  match e with
  | RsLeaseHeld => refuse CodeLeaseHeld ErrHeld res holder
  | RsDb DbOneHolder | RsDb DbFenceUnique => refuse CodeLeaseHeld ErrHeld res holder
  | RsInvalid => invalid res holder
  | _ => wrapStorage res holder
  end.

Definition acquire_input (req : AcquireRequest) (fresh : string) : Lease :=
  mkLease (r_TenantID req) (if String.eqb (r_LeaseID req) nil_uuid then fresh else r_LeaseID req)
    (Kind (r_Resource req)) (ID (r_Resource req)) "" 0 (HolderID (r_Holder req)) (r_Now req) (r_Now req + r_TTL req) (r_Now req) 0.

(** The read of the live lease under the advisory lock. *)
Definition acquire_prior (req : AcquireRequest) (t : lease_table) : outcome lease_error Lease :=
  match LeaseStore_Current (r_TenantID req) (Kind (r_Resource req)) (ID (r_Resource req)) t with
  | Ok prior => Ok prior
  | Err RsNotFound => Ok no_lease
  | Err _ => Err (wrapStorage (r_Resource req) (HolderID (r_Holder req)))
  | Panic => Panic
  end.

Definition acquire_grant (req : AcquireRequest) (prior held : Lease) : Grant :=
  let taken := negb (l_FenceToken prior =? 0) in
  let kind := if taken then TransitionTakenOver else TransitionAcquired in
  let reason := if taken then "previous holder " +:+ l_HolderID prior +:+ " lapsed at " +:+ rfc3339 (l_ExpiresAt prior) else "" in
  let priorToken := if 1 <? l_FenceToken held then l_FenceToken held - 1 else 0 in
  let fence := mkFence (r_TenantID req) (r_Resource req) (l_LeaseID held) (r_Holder req) (l_FenceToken held) in
  mkGrant fence (l_AcquiredAt held) (l_ExpiresAt held) (l_Version held)
    (newEvidence kind (r_TenantID req) (l_LeaseID held) (r_Resource req) (HolderID (r_Holder req)) (l_FenceToken held) priorToken
       (l_AcquiredAt held) reason).

(** [fresh] is the id [uuid.New] would mint. *)
Definition Manager_Acquire (req : AcquireRequest) (fresh : string) (t : lease_table) : outcome lease_error (Grant * lease_table) :=
  _ ← AcquireRequest_validate req;
  prior ← acquire_prior req t;
  '(held, t') ← map_err (acquireError req) (LeaseStore_Acquire (acquire_input req fresh) (r_Now req) t);
  Ok (acquire_grant req prior held, t').

Definition lost (f : Fence) : lease_error := refuse CodeLeaseLost ErrLeaseLost (f_Resource f) (HolderID (f_Holder f)).
Definition stale (f : Fence) : lease_error := refuse CodeFenceStale ErrFenceStale (f_Resource f) (HolderID (f_Holder f)).
Definition foreign (f : Fence) : lease_error := refuse CodeFenceForeign ErrFenceStale (f_Resource f) (HolderID (f_Holder f)).

Definition Manager_verify (f : Fence) (now : Z) (t : lease_table) : outcome lease_error Lease :=
  let holder := HolderID (f_Holder f) in
  match LeaseStore_CurrentForUpdate (f_TenantID f) (Kind (f_Resource f)) (ID (f_Resource f)) t with
  | Err RsNotFound => Err (lost f)
  | Err _ => Err (wrapStorage (f_Resource f) holder)
  | Panic => Panic
  | Ok current =>
      if f_Token f <? l_FenceToken current then Err (stale f)
      else if negb (l_FenceToken current =? f_Token f) || negb (String.eqb (l_LeaseID current) (f_LeaseID f))
              || negb (String.eqb (l_HolderID current) holder) then Err (foreign f)
      else if negb (now =? 0) && negb (now <? l_ExpiresAt current) then Err (lost f)
      else Ok current
  end.

Definition settleError (f : Fence) (e : rs_err) : lease_error :=
  match e with
  | RsFenceStale => stale f
  | RsInvalid => invalid (f_Resource f) (HolderID (f_Holder f))
  | _ => wrapStorage (f_Resource f) (HolderID (f_Holder f))
  end.

Definition fence_evidence (kind : TransitionKind) (f : Fence) (at_ : Z) : Evidence :=
  newEvidence kind (f_TenantID f) (f_LeaseID f) (f_Resource f) (HolderID (f_Holder f)) (f_Token f) (f_Token f) at_ "".

Definition Manager_Renew (f : Fence) (now ttl : Z) (t : lease_table) : outcome lease_error (Grant * lease_table) :=
  _ ← Fence_Validate f;
  _ ← fail_if (now =? 0) (invalid (f_Resource f) (HolderID (f_Holder f)));
  _ ← fail_if (ttl <=? 0) (invalid (f_Resource f) (HolderID (f_Holder f)));
  current ← Manager_verify f now t;
  let expires := now + ttl in
  t' ← map_err (settleError f) (LeaseStore_Heartbeat (f_TenantID f) (f_LeaseID f) (f_Token f) now expires t);
  Ok (mkGrant f (l_AcquiredAt current) expires (to_uint64 (l_Version current + 1)) (fence_evidence TransitionRenewed f now), t').

Definition Manager_Release (f : Fence) (now : Z) (t : lease_table) : outcome lease_error (Evidence * lease_table) :=
  _ ← Fence_Validate f;
  _ ← fail_if (now =? 0) (invalid (f_Resource f) (HolderID (f_Holder f)));
  _ ← Manager_verify f 0 t;
  t' ← map_err (settleError f) (LeaseStore_Release (f_TenantID f) (f_LeaseID f) (f_Token f) now t);
  Ok (fence_evidence TransitionReleased f now, t').

Definition Manager_Expire (tenant : string) (res : Resource) (now : Z) (t : lease_table) : outcome lease_error (Evidence * lease_table) :=
  _ ← fail_if (String.eqb tenant nil_uuid) (invalid res "");
  _ ← Resource_validate res;
  _ ← fail_if (now =? 0) (invalid res "");
  match LeaseStore_CurrentForUpdate tenant (Kind res) (ID res) t with
  | Err RsNotFound => Err (refuse CodeLeaseLost ErrLeaseLost res "")
  | Err _ => Err (wrapStorage res "")
  | Panic => Panic
  | Ok current =>
      if now <? l_ExpiresAt current then Err (refuse CodeLeaseLive ErrLeaseLive res (l_HolderID current))
      else
        t' ← map_err (fun _ => wrapStorage res (l_HolderID current)) (LeaseStore_Expire tenant (l_LeaseID current) (l_FenceToken current) now t);
        Ok (newEvidence TransitionExpired tenant (l_LeaseID current) res (l_HolderID current) (l_FenceToken current) (l_FenceToken current) now
              ("observed lapsed: expired at " +:+ rfc3339 (l_ExpiresAt current)), t')
  end.

Definition Manager_Observe (tenant : string) (res : Resource) (now : Z) (t : lease_table) : outcome lease_error Observation :=
  _ ← fail_if (String.eqb tenant nil_uuid) (invalid res "");
  _ ← Resource_validate res;
  _ ← fail_if (now =? 0) (invalid res "");
  match LeaseStore_Current tenant (Kind res) (ID res) t with
  | Err RsNotFound => Ok (mkObservation false false "" nil_uuid 0 0)
  | Err _ => Err (wrapStorage res "")
  | Panic => Panic
  | Ok current => Ok (mkObservation true (negb (now <? l_ExpiresAt current)) (l_HolderID current) (l_LeaseID current) (l_FenceToken current) (l_ExpiresAt current))
  end.

Definition Manager_Verify (f : Fence) (now : Z) (t : lease_table) : outcome lease_error Held :=
  _ ← Fence_Validate f;
  current ← Manager_verify f now t;
  let at_ := if now =? 0 then l_HeartbeatAt current else now in
  Ok (mkGrant f (l_AcquiredAt current) (l_ExpiresAt current) (l_Version current) (fence_evidence TransitionVerified f at_)).

Definition closingTransition (state : string) : option TransitionKind :=
  if String.eqb state LeaseReleased then Some TransitionReleased
  else if String.eqb state LeaseExpired then Some TransitionExpired
  else if String.eqb state LeaseRevoked then Some TransitionRevoked
  else None.

Definition closingInstant (row : Lease) : Z := if String.eqb (l_State row) LeaseExpired then l_ExpiresAt row else l_HeartbeatAt row.

Fixpoint history_loop (tenant : string) (res : Resource) (prior : Z) (rows : list Lease) : list Evidence :=
  match rows with
  | [] => []
  | row :: r =>
      newEvidence TransitionAcquired tenant (l_LeaseID row) res (l_HolderID row) (l_FenceToken row) prior (l_AcquiredAt row) "" ::
      (match closingTransition (l_State row) with
       | Some closed => [newEvidence closed tenant (l_LeaseID row) res (l_HolderID row) (l_FenceToken row) (l_FenceToken row) (closingInstant row) ""]
       | None => []
       end) ++ history_loop tenant res (l_FenceToken row) r
  end.

Definition Manager_History (tenant : string) (res : Resource) (t : lease_table) : outcome lease_error (list Evidence) :=
  _ ← fail_if (String.eqb tenant nil_uuid) (invalid res "");
  _ ← Resource_validate res;
  Ok (history_loop tenant res 0 (LeaseStore_History tenant (Kind res) (ID res) t)).

(** * The fenced advancement *)

(** [runtime.Fence]. *)
Record RuntimeFence : Type := mkRuntimeFence {
  rf_ResourceKind : string; rf_ResourceID : string; rf_LeaseID : string; rf_HolderID : string; rf_Token : Z; rf_At : Z
}.

Definition Fence_RuntimeFence (f : Fence) (at_ : Z) : RuntimeFence :=
  mkRuntimeFence (Kind (f_Resource f)) (ID (f_Resource f)) (f_LeaseID f) (HolderID (f_Holder f)) (f_Token f) at_.

Definition Fenced_VerifyFence (tenant : string) (f : RuntimeFence) (t : lease_table) : outcome lease_error unit :=
  holder ← ParseHolder (rf_HolderID f);
  _ ← Manager_Verify (mkFence tenant (mkResource (rf_ResourceKind f) (rf_ResourceID f)) (rf_LeaseID f) holder (rf_Token f)) (rf_At f) t;
  Ok tt.

(** The runtime's own refusals, and the errors of the advancement [E]. *)
Inductive fenced_err (E : Type) : Type :=
  | CodeFenceRequired
  | CodeFenceRefused (cause : option lease_error)
  | AdvanceFailed (e : E).
#[global] Arguments CodeFenceRequired {E}.
#[global] Arguments CodeFenceRefused {E} cause.
#[global] Arguments AdvanceFailed {E} e.

Definition ValidateForInstance {E} (f : RuntimeFence) (instance_ : string) : outcome (fenced_err E) unit :=
  if String.eqb instance_ nil_uuid then Err CodeFenceRequired
  else if String.eqb (rf_ResourceKind f) "" || String.eqb (rf_ResourceID f) "" then Err CodeFenceRequired
  else if String.eqb (rf_LeaseID f) nil_uuid then Err CodeFenceRequired
  else if String.eqb (rf_HolderID f) "" then Err CodeFenceRequired
  else if rf_Token f =? 0 then Err CodeFenceRequired
  else if rf_At f =? 0 then Err CodeFenceRequired
  else fail_if (negb (String.eqb (rf_ResourceKind f) LeaseWorkflowInstance) || negb (String.eqb (rf_ResourceID f) instance_)) (CodeFenceRefused None).

(** [FenceVerifier]. *)
Definition FenceVerifier : Type := string -> RuntimeFence -> lease_table -> outcome lease_error unit.

(** [AdvanceFenced]; a nil verifier is [None], [S] is what the advancement
    reads and writes, [advance] the function [Advance]. *)
Definition AdvanceFenced {S E R} (verifier : option FenceVerifier) (advance : S -> outcome E (R * S)) (tenant instance_ : string)
    (f : RuntimeFence) (t : lease_table) (s : S) : outcome (fenced_err E) (R * S) :=
  match verifier with
  | None => Err CodeFenceRequired
  | Some verify =>
      _ ← ValidateForInstance f instance_;
      _ ← map_err (fun e => CodeFenceRefused (Some e)) (verify tenant f t);
      map_err AdvanceFailed (advance s)
  end.
End manager.
