(* ===== verification/LeaseSteps.v ===== *)
(** Transactions on the lease table as steps, and what every table they can
    reach satisfies.

    The writers of the table are the methods of [Manager].  [Renew], [Release]
    and [Expire] read the live row under its lock, so each is one step.
    [Acquire] runs under an advisory lock of its resource but reads the live
    row without a lock: the steps [step_lock], [step_read] and [step_write] let
    every other transaction run between its reads and its writes.  Its writes
    are one step, since after them (or after reading that nobody holds the
    resource) no other writer of that resource's rows can proceed. *)

From S2P Require Import Prelude LeaseTable LeaseManager.

Local Open Scope Z_scope.

(** * Steps *)

Record pending : Type := mkPending { p_req : AcquireRequest; p_fresh : string; p_prior : Lease; p_read : option (option Lease) }.
Record world : Type := mkWorld { w_table : lease_table; w_pending : gmap resource_key pending }.

Definition req_key (req : AcquireRequest) : resource_key := (r_TenantID req, Kind (r_Resource req), ID (r_Resource req)).

Section steps.
Context {TS : TimestampCodec} {LT : LeaseText}.

Inductive lease_step : world -> world -> Prop :=
  | step_lock t P req fresh prior :
      AcquireRequest_validate req = Ok tt -> P !! req_key req = None -> acquire_prior req t = Ok prior ->
      lease_step (mkWorld t P) (mkWorld t (<[req_key req := mkPending req fresh prior None]> P))
  | step_read t P k p cur :
      P !! k = Some p -> p_read p = None ->
      acquire_read (acquire_input (p_req p) (p_fresh p)) (r_Now (p_req p)) t = Ok cur ->
      lease_step (mkWorld t P) (mkWorld t (<[k := mkPending (p_req p) (p_fresh p) (p_prior p) (Some cur)]> P))
  | step_write t P k p cur held t' :
      P !! k = Some p -> p_read p = Some cur ->
      acquire_write (acquire_input (p_req p) (p_fresh p)) (r_Now (p_req p)) cur t = Ok (held, t') ->
      lease_step (mkWorld t P) (mkWorld t' (delete k P))
  | step_abort t P k : lease_step (mkWorld t P) (mkWorld t (delete k P))
  | step_renew t P f now ttl g t' : Manager_Renew f now ttl t = Ok (g, t') -> lease_step (mkWorld t P) (mkWorld t' P)
  | step_release t P f now e t' : Manager_Release f now t = Ok (e, t') -> lease_step (mkWorld t P) (mkWorld t' P)
  | step_expire t P tenant res now e t' : Manager_Expire tenant res now t = Ok (e, t') -> lease_step (mkWorld t P) (mkWorld t' P).

Definition empty_world : world := mkWorld [] ∅.
Definition reachable (w : world) : Prop := rtc lease_step empty_world w.

(** * Well-formed tables *)

Definition rows_of (k : resource_key) (t : lease_table) : lease_table := resource_rows k.1.1 k.1.2 k.2 t.

(** The rows of one resource: tokens count from 1, and only the last row can be held. *)
Definition chain (rows : lease_table) : Prop :=
  forall i r, rows !! i = Some r -> row_token r = Z.of_nat i + 1 /\ (row_held r = true -> S i = length rows).

Record table_ok (t : lease_table) : Prop := {
  ok_rows : Forall (fun r => row_checks r = true) t;
  ok_ids : NoDup (row_id <$> t);
  ok_chain k : chain (rows_of k t)
}.

(** What a running acquire has read still bounds who can hold the resource. *)
Definition pending_ok (t : lease_table) (k : resource_key) (p : pending) : Prop :=
  k = req_key (p_req p) /\
  match p_read p with
  | None => True
  | Some None => forall r, In r t -> key_of r = k -> row_held r = false
  | Some (Some c) =>
      (exists r, In r t /\ key_of r = k /\ row_id r = (r_TenantID (p_req p), l_LeaseID c)) /\
      (forall r, In r t -> key_of r = k -> row_held r = true -> row_id r = (r_TenantID (p_req p), l_LeaseID c))
  end.

Record world_ok (w : world) : Prop := {
  world_table : table_ok (w_table w);
  world_pending k p : w_pending w !! k = Some p -> pending_ok (w_table w) k p
}.

(** A row of one table and what it has become in a later one. *)
Record same_claim (r r' : lease_row) : Prop := {
  claim_id : row_id r' = row_id r;
  claim_key : key_of r' = key_of r;
  claim_token : row_token r' = row_token r;
  claim_holder : l_HolderID (row_lease r') = l_HolderID (row_lease r);
  claim_acquired : l_AcquiredAt (row_lease r') = l_AcquiredAt (row_lease r);
  claim_held : row_held r' = true -> row_held r = true
}.

Definition extends (t t' : lease_table) : Prop :=
  forall k i r, rows_of k t !! i = Some r -> exists r', rows_of k t' !! i = Some r' /\ same_claim r r'.

(** * Updates *)

Lemma key_split k : (k.1.1, k.1.2, k.2) = k :> resource_key.
Proof. by destruct k as [[? ?] ?]. Qed.

Lemma rows_of_in k t r : In r (rows_of k t) <-> In r t /\ key_of r = k.
Proof. unfold rows_of, resource_rows. rewrite List.filter_In, key_split, bool_decide_eq_true. done. Qed.

Lemma update_rows_inv p f t n t' : update_rows p f t = Ok (n, t') ->
  t' = (fun r => if p r then f r else r) <$> t /\ n = Z.of_nat (length (List.filter p t)) /\
  (forall r, In r t -> p r = true -> row_checks (f r) = true).
Proof.
  unfold update_rows. destruct (forallb _ t) eqn:E; [|done]. intros [= <- <-]. split; [done|]. split; [done|].
  intros r Hr Hp. rewrite forallb_forall in E. specialize (E r Hr). by rewrite Hp in E.
Qed.

Lemma same_claim_refl r : same_claim r r.
Proof. by constructor. Qed.

Lemma same_claim_settled state at_ r : state <> LeaseHeld -> same_claim r (with_settled state at_ r).
Proof. intros H. constructor; try done. unfold row_held. cbn. intros E. by apply String.eqb_eq in E. Qed.

Lemma same_claim_heartbeat at_ expires r : same_claim r (with_heartbeat at_ expires r).
Proof. by constructor. Qed.

Lemma same_claim_trans r s u : same_claim r s -> same_claim s u -> same_claim r u.
Proof. intros [] []. constructor; try congruence. auto. Qed.

Lemma rows_of_map k (g : lease_row -> lease_row) t : (forall r, In r t -> key_of (g r) = key_of r) -> rows_of k (g <$> t) = g <$> rows_of k t.
Proof.
  intros Hg. unfold rows_of, resource_rows. induction t as [|r t IH]; [done|].
  cbn [fmap list_fmap List.filter]. rewrite (Hg r) by (by left). rewrite IH by (intros; apply Hg; by right).
  by destruct (bool_decide _).
Qed.

Lemma rows_of_app k t u : rows_of k (t ++ u) = rows_of k t ++ rows_of k u.
Proof. apply List.filter_app. Qed.

Lemma lookup_in {A} (l : list A) i x : l !! i = Some x -> In x l.
Proof. intros H. by apply list_elem_of_In, (list_elem_of_lookup_2 _ i). Qed.

Lemma in_lookup {A} (l : list A) x : In x l -> exists i, l !! i = Some x.
Proof. intros H. by apply list_elem_of_lookup_1, list_elem_of_In. Qed.

Lemma extends_refl t : extends t t.
Proof. intros k i r Hi. exists r. split; [done | apply same_claim_refl]. Qed.

Lemma rows_extend_trans t u v : extends t u -> extends u v -> extends t v.
Proof.
  intros Htu Huv k i r Hi. destruct (Htu k i r Hi) as (r' & Hi' & Hc). destruct (Huv k i r' Hi') as (r'' & Hi'' & Hc').
  exists r''. split; [done | by apply (same_claim_trans r r')].
Qed.

Lemma extends_map (g : lease_row -> lease_row) t : (forall r, In r t -> same_claim r (g r)) -> extends t (g <$> t).
Proof.
  intros Hg k i r Hi. rewrite rows_of_map by (intros; by apply Hg). exists (g r).
  split; [by apply list_lookup_fmap_Some_2|]. apply Hg. by apply (rows_of_in k t), (lookup_in _ i).
Qed.

Lemma extends_app t u : extends t (t ++ u).
Proof.
  intros k i r Hi. exists r. split; [|apply same_claim_refl]. rewrite rows_of_app. by apply lookup_app_l_Some.
Qed.

(** Rows that stay the same claims, with their checks, keep the table well formed. *)
Lemma table_ok_map (g : lease_row -> lease_row) t : table_ok t -> (forall r, In r t -> same_claim r (g r)) ->
  (forall r, In r t -> row_checks (g r) = true) -> table_ok (g <$> t).
Proof.
  intros [Hr Hi Hc] Hg Hk. constructor.
  - apply List.Forall_forall. intros r Hin. apply List.in_map_iff in Hin as (r0 & <- & Hin). by apply Hk.
  - rewrite <- list_fmap_compose. rewrite (list_fmap_ext _ row_id); [done|].
    intros i r Hlr. cbn. apply Hg. by apply (lookup_in _ i).
  - intros k i r Hlr. rewrite rows_of_map in * by (intros; by apply Hg).
    apply list_lookup_fmap_Some_1 in Hlr as (r0 & -> & Hl0). destruct (Hc k i r0 Hl0) as [Ht Hl].
    assert (Hin : In r0 t) by (by apply (rows_of_in k t), (lookup_in _ i)). pose proof (Hg r0 Hin) as [].
    rewrite length_fmap. split; [congruence | auto].
Qed.

Lemma updated_ok p f t n t' : (forall r, same_claim r (f r)) -> table_ok t -> update_rows p f t = Ok (n, t') ->
  table_ok t' /\ extends t t'.
Proof.
  intros Hf Hok H. apply update_rows_inv in H as (-> & _ & Hk). split.
  - apply table_ok_map; [done | intros r Hr; destruct (p r); [apply Hf | apply same_claim_refl] |].
    intros r Hr. destruct (p r) eqn:E; [by apply Hk|]. destruct Hok as [Hr0 _ _]. rewrite List.Forall_forall in Hr0. by apply Hr0.
  - apply extends_map. intros r Hr. destruct (p r); [apply Hf | apply same_claim_refl].
Qed.

(** * Reads *)

Lemma held_unique t r r' : table_ok t -> In r t -> In r' t -> key_of r = key_of r' ->
  row_held r = true -> row_held r' = true -> r = r'.
Proof.
  intros [_ _ Hc] Hr Hr' Hk Hh Hh'.
  destruct (in_lookup (rows_of (key_of r) t) r) as [i Hi]; [by apply rows_of_in|].
  destruct (in_lookup (rows_of (key_of r) t) r') as [j Hj]; [by apply rows_of_in|].
  destruct (Hc _ _ _ Hi) as [_ H1], (Hc _ _ _ Hj) as [_ H2]. specialize (H1 Hh). specialize (H2 Hh').
  assert (i = j) as <- by lia. congruence.
Qed.

Lemma row_bounds r : row_checks r = true -> 1 <= row_token r <= max_int64 /\ 1 <= l_Version (row_lease r) <= max_int64.
Proof.
  unfold row_checks, row_token. rewrite !andb_true_iff, !Z.leb_le. lia.
Qed.

(** The live row of a resource, when there is one, is its last, and is what the reads return. *)
Lemma current_spec t k : table_ok t ->
  match LeaseStore_currentQuery k.1.1 k.1.2 k.2 t with
  | Ok l => exists r, In r t /\ key_of r = k /\ row_held r = true /\ l = row_lease r /\ row_token r = Z.of_nat (length (rows_of k t))
  | Err RsNotFound => forall r, In r t -> key_of r = k -> row_held r = false
  | _ => False
  end.
Proof.
  intros Hok. unfold LeaseStore_currentQuery. rewrite key_split. destruct (List.find _ t) as [r|] eqn:E.
  - apply List.find_some in E as [Hin E]. apply andb_true_iff in E as [Hk Hh]. apply bool_decide_eq_true in Hk.
    exists r. split; [done|]. split; [done|]. split; [done|]. pose proof (ok_rows t Hok) as Hr. rewrite List.Forall_forall in Hr.
    destruct (row_bounds r (Hr r Hin)) as [Ht Hv]. unfold row_token, max_int64 in *.
    rewrite !to_uint64_small by lia. split; [by destruct r as [[]]|].
    destruct (in_lookup (rows_of k t) r) as [i Hi]; [by apply rows_of_in|].
    destruct (ok_chain t Hok k i r Hi) as [H1 H2]. specialize (H2 Hh). unfold row_token in H1. lia.
  - intros r Hr Hk. pose proof (List.find_none _ _ E r Hr) as H. cbn in H. rewrite bool_decide_eq_true_2 in H by done. done.
Qed.

Lemma highest_chain rows : chain rows -> highest_token rows = Z.of_nat (length rows).
Proof.
  intros Hc. assert (H : forall i r, rows !! i = Some r -> row_token r = Z.of_nat i + 1) by (intros i r Hi; by apply Hc).
  clear Hc. unfold highest_token. induction rows as [|r rows IH] using rev_ind; [done|].
  rewrite fmap_app, fold_right_app, length_app. cbn [fmap list_fmap fold_right length].
  assert (Hr : row_token r = Z.of_nat (length rows) + 1) by (apply H; by apply list_lookup_middle).
  assert (IH' := IH ltac:(intros i s Hi; apply H; by apply lookup_app_l_Some)).
  assert (Hm : forall l m, fold_right Z.max (Z.max m 0) l = Z.max m (fold_right Z.max 0 l)).
  { intros l m. induction l as [|x l IHl]; cbn; [done|]. rewrite IHl. lia. }
  rewrite Hm, IH', Hr. lia.
Qed.

Lemma chain_bound t k : table_ok t -> Z.of_nat (length (rows_of k t)) <= max_int64.
Proof.
  intros Hok. destruct (rows_of k t) as [|r0 rows] eqn:E using rev_ind; [done|]. clear IHrows.
  assert (Hl : rows_of k t !! length rows = Some r0) by (rewrite E; by apply list_lookup_middle).
  destruct (ok_chain t Hok k _ _ Hl) as [Ht _].
  pose proof (ok_rows t Hok) as Hr. rewrite List.Forall_forall in Hr.
  destruct (row_bounds r0) as [Hb _]; [apply Hr; by apply (rows_of_in k t), (lookup_in _ (length rows))|].
  rewrite length_app. cbn [length]. lia.
Qed.

(** The token minted is one past the number of leases the resource has had. *)
Lemma next_fence t k : table_ok t -> LeaseStore_nextFence k.1.1 k.1.2 k.2 t = Z.of_nat (length (rows_of k t)) + 1.
Proof.
  intros Hok. unfold LeaseStore_nextFence. fold (rows_of k t). rewrite (highest_chain _ (ok_chain t Hok k)).
  pose proof (chain_bound t k Hok). unfold max_int64 in *. rewrite (to_uint64_small (Z.of_nat _)) by lia. by rewrite to_uint64_small by lia.
Qed.

(** * Inserting *)

Lemma insert_row_inv r t t' : insert_row r t = Ok t' ->
  t' = t ++ [r] /\ row_checks r = true /\ ~ row_id r ∈ row_id <$> t.
Proof.
  unfold insert_row. intros H. ok_inv. subst t'. split; [done|]. apply negb_false_iff in Hok. split; [done|].
  intros Hin. apply not_true_iff_false in Hok0. apply Hok0, existsb_exists.
  apply list_elem_of_fmap in Hin as (s & Hs & Hin). exists s. split; [by apply list_elem_of_In|].
  unfold same_id. by apply bool_decide_eq_true_2.
Qed.

Lemma table_ok_insert t r : table_ok t -> row_checks r = true -> ~ row_id r ∈ row_id <$> t ->
  row_token r = Z.of_nat (length (rows_of (key_of r) t)) + 1 ->
  (forall s, In s t -> key_of s = key_of r -> row_held s = false) -> table_ok (t ++ [r]).
Proof.
  intros Hok Hk Hid Htok Hfree. destruct Hok as [Hr Hi Hc]. constructor.
  - apply Forall_app_2; [done | by constructor].
  - rewrite fmap_app. apply NoDup_app. split; [done|]. split; [|cbn; apply NoDup_singleton].
    intros x Hx Hx'. apply list_elem_of_singleton in Hx' as ->. done.
  - intros k i s Hl. rewrite rows_of_app in Hl |- *.
    assert (Hone : rows_of k [r] = if bool_decide (key_of r = k) then [r] else []).
    { unfold rows_of, resource_rows. cbn [List.filter]. by rewrite key_split. }
    rewrite Hone in Hl |- *. case_bool_decide as E; [subst k|by rewrite app_nil_r in *; apply Hc].
    rewrite length_app. cbn [length]. apply lookup_app_Some in Hl as [Hl|[Hge Hl]].
    + destruct (Hc _ _ _ Hl) as [Ht _]. split; [done|]. intros Hh. exfalso.
      assert (Hin : In s (rows_of (key_of r) t)) by (by apply (lookup_in _ i)). apply rows_of_in in Hin as [Hin Hks].
      rewrite (Hfree s Hin Hks) in Hh. done.
    + destruct (i - length (rows_of (key_of r) t))%nat as [|n] eqn:En; [|done]. injection Hl as <-.
      assert (i = length (rows_of (key_of r) t)) as -> by lia. split; [done | lia].
Qed.

(** * The writes of an acquire *)

Definition acquired_row (inp : Lease) (token : Z) : lease_row :=
  mkRow (mkLease (l_TenantID inp) (l_LeaseID inp) (l_ResourceKind inp) (l_ResourceID inp) LeaseHeld token (l_HolderID inp)
           (stored (l_AcquiredAt inp)) (stored (l_ExpiresAt inp)) (stored (if l_HeartbeatAt inp =? 0 then l_AcquiredAt inp else l_HeartbeatAt inp)) 1) None.

Definition retire (inp : Lease) (now : Z) (current : option Lease) (t : lease_table) : lease_table :=
  match current with
  | Some c => (fun r => if bool_decide (row_id r = (l_TenantID inp, l_LeaseID c)) then with_settled LeaseExpired (stored now) r else r) <$> t
  | None => t
  end.

Definition inp_key (inp : Lease) : resource_key := (l_TenantID inp, l_ResourceKind inp, l_ResourceID inp).

(** What the acquire has read of its resource is still good enough to write. *)
Definition read_ok (t : lease_table) (inp : Lease) (cur : option Lease) : Prop :=
  match cur with
  | None => forall r, In r t -> key_of r = inp_key inp -> row_held r = false
  | Some c =>
      (exists r, In r t /\ key_of r = inp_key inp /\ row_id r = (l_TenantID inp, l_LeaseID c)) /\
      (forall r, In r t -> key_of r = inp_key inp -> row_held r = true -> row_id r = (l_TenantID inp, l_LeaseID c))
  end.

Lemma settled_not_held state at_ r : state <> LeaseHeld -> row_held (with_settled state at_ r) = false.
Proof. intros H. by apply String.eqb_neq. Qed.

Lemma retire_claims inp now cur t : extends t (retire inp now cur t).
Proof.
  destruct cur as [c|]; [|apply extends_refl]. apply extends_map. intros r Hr.
  case_bool_decide; [by apply same_claim_settled | apply same_claim_refl].
Qed.

Lemma retire_free inp now cur t : read_ok t inp cur ->
  forall s, In s (retire inp now cur t) -> key_of s = inp_key inp -> row_held s = false.
Proof.
  destruct cur as [c|]; cbn [read_ok retire]; [|auto]. intros [_ H] s Hs Hk.
  apply List.in_map_iff in Hs as (r & <- & Hr). case_bool_decide as E; [by apply settled_not_held|].
  destruct (row_held r) eqn:Eh; [|done]. destruct E. by apply H.
Qed.

Lemma acquire_write_inv inp now cur t held t' : table_ok t -> read_ok t inp cur ->
  acquire_write inp now cur t = Ok (held, t') ->
  let n := Z.of_nat (length (rows_of (inp_key inp) t)) in
  let t1 := retire inp now cur t in
  table_ok t1 /\ table_ok t' /\ extends t t' /\ t' = t1 ++ [acquired_row inp (n + 1)] /\ n < max_int64 /\
  held = mkLease (l_TenantID inp) (l_LeaseID inp) (l_ResourceKind inp) (l_ResourceID inp) LeaseHeld (n + 1) (l_HolderID inp)
           (l_AcquiredAt inp) (l_ExpiresAt inp) (if l_HeartbeatAt inp =? 0 then l_AcquiredAt inp else l_HeartbeatAt inp) 1.
Proof.
  intros Hok Hread H n t1. unfold acquire_write in H.
  assert (Ht1 : exists a, (match cur with
      | Some c => db (update_rows (fun r => bool_decide (row_id r = (l_TenantID inp, l_LeaseID c))) (with_settled LeaseExpired (stored now)) t)
      | None => Ok (0, t) end) = Ok (a, t1) /\ table_ok t1).
  { destruct cur as [c|]; [|by exists 0]. unfold db in *.
    destruct (update_rows _ _ t) as [[a u]|e|] eqn:E; cbn [map_err mbind outcome_bind] in H; [|done..].
    exists a. pose proof (updated_ok _ _ _ _ _ (fun r => same_claim_settled LeaseExpired (stored now) r ltac:(done)) Hok E) as [Hu _].
    apply update_rows_inv in E as (-> & _ & _). done. }
  destruct Ht1 as (a & E & Hok1). rewrite E in H. clear E. cbn [mbind outcome_bind] in H.
  change (LeaseStore_nextFence _ _ _ t1) with (LeaseStore_nextFence (inp_key inp).1.1 (inp_key inp).1.2 (inp_key inp).2 t1) in H.
  rewrite (next_fence t1 (inp_key inp) Hok1) in H.
  assert (Hn : length (rows_of (inp_key inp) t1) = length (rows_of (inp_key inp) t)).
  { unfold t1, retire. destruct cur as [c|]; [|done]. rewrite rows_of_map; [by rewrite length_fmap|].
    intros r Hr. by case_bool_decide. }
  rewrite Hn in H. fold n in H. unfold db in H.
  destruct (insert_row _ t1) as [t2|e|] eqn:E; cbn [map_err mbind outcome_bind] in H; [|done..]. injection H as <- <-.
  apply insert_row_inv in E as (-> & Hck & Hid). pose proof (row_bounds _ Hck) as [Hb _]. unfold row_token in Hb. cbn in Hb.
  assert (Hlt : n < max_int64).
  { pose proof (chain_bound t (inp_key inp) Hok) as Hc. fold n in Hc. destruct (Z.eq_dec n max_int64) as [En|]; [|lia].
    rewrite En in Hb. assert (to_int64 (max_int64 + 1) < 0) by reflexivity. lia. }
  assert (Hti : to_int64 (n + 1) = n + 1) by (apply to_int64_small; unfold min_int64; lia). rewrite Hti in *.
  split; [done|]. split; [|split; [|split; [done | split; [done | done]]]].
  - apply table_ok_insert; [done | done | done | |].
    + change (key_of _) with (inp_key inp). rewrite Hn. done.
    + exact (retire_free inp now cur t Hread).
  - apply (rows_extend_trans _ t1); [apply retire_claims | apply extends_app].
Qed.

(** * The steps keep tables well formed *)

(** The table after an update: the same claims, row by row. *)
Definition maps (t t' : lease_table) : Prop :=
  exists g, t' = g <$> t /\ forall r, In r t -> same_claim r (g r).

Lemma update_maps p f t n t' : (forall r, same_claim r (f r)) -> update_rows p f t = Ok (n, t') -> maps t t'.
Proof.
  intros Hf H. apply update_rows_inv in H as (-> & _ & _). exists (fun r => if p r then f r else r). split; [done|].
  intros r _. destruct (p r); [apply Hf | apply same_claim_refl].
Qed.

Lemma settle_inv tenant lease token next at_ t t' : next <> LeaseHeld -> table_ok t ->
  LeaseStore_settle tenant lease token next at_ t = Ok t' -> table_ok t' /\ maps t t'.
Proof.
  intros Hn Hok. unfold LeaseStore_settle, db. intros H. ok_inv.
  destruct (update_rows _ _ t) as [[n u]|e|] eqn:E; cbn [map_err] in Hok1; [|done..]. injection Hok1 as <-.
  destruct (n =? 0); [done|]. injection H as <-.
  assert (Hf : forall r, same_claim r (with_settled next (stored at_) r)) by (intros r; by apply same_claim_settled).
  split; [by apply (updated_ok _ _ _ _ _ Hf Hok E) | by apply (update_maps _ _ _ _ _ Hf E)].
Qed.

Lemma heartbeat_inv tenant lease token at_ expires t t' : table_ok t ->
  LeaseStore_Heartbeat tenant lease token at_ expires t = Ok t' -> table_ok t' /\ maps t t'.
Proof.
  intros Hok. unfold LeaseStore_Heartbeat, db. intros H. ok_inv.
  destruct (update_rows _ _ t) as [[n u]|e|] eqn:E; cbn [map_err] in Hok2; [|done..]. injection Hok2 as <-.
  destruct (n =? 0); [done|]. injection H as <-.
  assert (Hf : forall r, same_claim r (with_heartbeat (stored at_) (stored expires) r)) by (intros r; apply same_claim_heartbeat).
  split; [by apply (updated_ok _ _ _ _ _ Hf Hok E) | by apply (update_maps _ _ _ _ _ Hf E)].
Qed.

Lemma renew_inv f now ttl t g t' : table_ok t -> Manager_Renew f now ttl t = Ok (g, t') -> table_ok t' /\ maps t t'.
Proof.
  intros Hok. unfold Manager_Renew. intros H. ok_inv. simplify_eq. match goal with Hs : map_err _ _ = Ok _ |- _ => apply map_err_ok in Hs; by apply heartbeat_inv in Hs end.
Qed.

Lemma release_inv f now t e t' : table_ok t -> Manager_Release f now t = Ok (e, t') -> table_ok t' /\ maps t t'.
Proof.
  intros Hok. unfold Manager_Release. intros H. ok_inv. simplify_eq. match goal with Hs : map_err _ _ = Ok _ |- _ => apply map_err_ok in Hs; by apply settle_inv in Hs end.
Qed.

Lemma expire_inv tenant res now t e t' : table_ok t -> Manager_Expire tenant res now t = Ok (e, t') -> table_ok t' /\ maps t t'.
Proof.
  intros Hok. unfold Manager_Expire. intros H. ok_inv.
  destruct (LeaseStore_CurrentForUpdate _ _ _ _) as [c|[]|]; try done. destruct (now <? l_ExpiresAt c); [done|].
  ok_inv. simplify_eq. match goal with Hs : map_err _ _ = Ok _ |- _ => apply map_err_ok in Hs; by apply settle_inv in Hs end.
Qed.

Lemma maps_extends t t' : maps t t' -> extends t t'.
Proof. intros (g & -> & Hg). by apply extends_map. Qed.

Lemma read_ok_maps t t' inp cur : maps t t' -> read_ok t inp cur -> read_ok t' inp cur.
Proof.
  intros (g & -> & Hg). destruct cur as [c|]; cbn [read_ok].
  - intros [(r & Hr & Hk & Hid) H]. split.
    + exists (g r). destruct (Hg r Hr) as []. split; [by apply List.in_map|]. split; congruence.
    + intros s Hs Hks Hh. apply List.in_map_iff in Hs as (r0 & <- & Hr0). destruct (Hg r0 Hr0) as [].
      rewrite claim_id0. apply H; [done | congruence | auto].
  - intros H s Hs Hks. apply List.in_map_iff in Hs as (r0 & <- & Hr0). destruct (Hg r0 Hr0) as [].
    destruct (row_held (g r0)) eqn:E; [|done]. rewrite <- (H r0 Hr0) by congruence. symmetry. auto.
Qed.

Lemma read_ok_app t r inp cur : key_of r <> inp_key inp -> read_ok t inp cur -> read_ok (t ++ [r]) inp cur.
Proof.
  intros Hk. destruct cur as [c|]; cbn [read_ok].
  - intros [(r0 & Hr & Hk0 & Hid) H]. split; [exists r0; split; [apply in_or_app; by left | done]|].
    intros s Hs Hks Hh. apply in_app_or in Hs as [Hs|[<-|[]]]; [by apply H | done].
  - intros H s Hs Hks. apply in_app_or in Hs as [Hs|[<-|[]]]; [by apply H | done].
Qed.

Lemma acquire_read_ok t inp now cur : table_ok t -> acquire_read inp now t = Ok cur -> read_ok t inp cur.
Proof.
  intros Hok. unfold acquire_read. intros H. ok_inv. pose proof (current_spec t (inp_key inp) Hok) as Hc.
  unfold LeaseStore_Current in H. cbn [inp_key fst snd] in Hc.
  destruct (LeaseStore_currentQuery _ _ _ t) as [c|[]|]; try done.
  - destruct (now <? l_ExpiresAt c); [done|]. injection H as <-. destruct Hc as (r & Hr & Hk & Hh & -> & _).
    assert (Hid : row_id r = (l_TenantID inp, l_LeaseID (row_lease r))) by (unfold key_of, inp_key in Hk; unfold row_id; congruence).
    split; [by exists r|]. intros s Hs Hks Hhs. by rewrite (held_unique t s r) by (done || congruence).
  - injection H as <-. exact Hc.
Qed.

Lemma pending_read_ok t k p : pending_ok t k p <->
  k = req_key (p_req p) /\ match p_read p with None => True | Some cur => read_ok t (acquire_input (p_req p) (p_fresh p)) cur end.
Proof.
  unfold pending_ok. split; intros [-> H]; (split; [done|]); destruct (p_read p) as [[c|]|]; done.
Qed.

Lemma pending_maps t t' k p : maps t t' -> pending_ok t k p -> pending_ok t' k p.
Proof.
  intros Hm. rewrite !pending_read_ok. intros [-> H]. split; [done|]. destruct (p_read p); [|done]. by apply (read_ok_maps t).
Qed.

Lemma world_maps t t' P : world_ok (mkWorld t P) -> table_ok t' /\ maps t t' -> world_ok (mkWorld t' P) /\ extends t t'.
Proof.
  intros [Ht Hp] [Ht' Hm]. split; [|by apply maps_extends]. constructor; [done|].
  intros k p Hk. by apply (pending_maps t), Hp.
Qed.

Lemma step_world w w' : lease_step w w' -> world_ok w -> world_ok w' /\ extends (w_table w) (w_table w').
Proof.
  intros Hs Hw. destruct Hw as [Ht Hp]. destruct Hs as
    [t P req fresh prior Hv Hn Hpr | t P k p cur Hk Hr Ha | t P k p cur held t' Hk Hr Ha | t P k
    | t P f now ttl g t' H | t P f now e t' H | t P tenant res now e t' H]; cbn [w_table w_pending] in *.
  - split; [|apply extends_refl]. constructor; [done|]. cbn [w_pending w_table]. intros k p. rewrite lookup_insert_Some.
    intros [[<- <-]|[_ Hk]]; [by split | by apply Hp].
  - split; [|apply extends_refl]. constructor; [done|]. cbn [w_pending w_table]. intros k' p'. rewrite lookup_insert_Some.
    intros [[<- <-]|[_ Hk']]; [|by apply Hp]. apply pending_read_ok. cbn [p_req p_read p_fresh].
    destruct (Hp k p Hk) as [-> _]. split; [done|]. by apply (acquire_read_ok _ _ (r_Now (p_req p))).
  - destruct (proj1 (pending_read_ok t k p) (Hp k p Hk)) as [Ek Hread]. rewrite Hr in Hread.
    destruct (acquire_write_inv _ _ _ _ _ _ Ht Hread Ha) as (Ht1 & Ht' & Hext & E & _ & _).
    split; [|done]. constructor; [done|]. cbn [w_pending w_table]. intros k' p'. rewrite lookup_delete_Some. intros [Hne Hk'].
    apply pending_read_ok. destruct (proj1 (pending_read_ok t k' p') (Hp k' p' Hk')) as [Ek' H']. split; [done|].
    destruct (p_read p') as [cur'|]; [|done]. rewrite E. apply read_ok_app; [cbn; subst k k'; done|].
    apply (read_ok_maps t); [|done]. unfold retire. destruct cur as [c|]; [|exists id; split; [by rewrite list_fmap_id | by constructor]].
    eexists. split; [done|]. intros r _. cbn. case_bool_decide; [by apply same_claim_settled | apply same_claim_refl].
  - split; [|apply extends_refl]. constructor; [done|]. cbn [w_pending w_table]. intros k' p'. rewrite lookup_delete_Some. intros [_ ?]. by apply Hp.
  - apply (world_maps t t' P); [by constructor | by apply (renew_inv f now ttl t g)].
  - apply (world_maps t t' P); [by constructor | by apply (release_inv f now t e)].
  - apply (world_maps t t' P); [by constructor | by apply (expire_inv tenant res now t e)].
Qed.

Lemma steps_world w w' : rtc lease_step w w' -> world_ok w -> world_ok w' /\ extends (w_table w) (w_table w').
Proof.
  induction 1 as [w|w v u Hs _ IH]; intros Hw; [split; [done | apply extends_refl]|].
  destruct (step_world _ _ Hs Hw) as [Hv E]. destruct (IH Hv) as [Hu E']. split; [done | by apply (rows_extend_trans _ (w_table v))].
Qed.

Lemma empty_ok : world_ok empty_world.
Proof. constructor; [split; [apply Forall_nil_2 | apply NoDup_nil_2 | intros k i r; done] | intros k p; cbn; by rewrite lookup_empty]. Qed.

Lemma reachable_ok w : reachable w -> world_ok w.
Proof. intros H. by apply (steps_world _ _ H), empty_ok. Qed.

Lemma reachable_rtc w w' : reachable w -> rtc lease_step w w' -> reachable w'.
Proof. intros H H'. unfold reachable in *. by etrans. Qed.

(** An acquire that no other transaction interrupts is a run of its steps. *)
Lemma acquire_is_run t P req fresh g t' : P !! req_key req = None -> Manager_Acquire req fresh t = Ok (g, t') ->
  rtc lease_step (mkWorld t P) (mkWorld t' P).
Proof.
  intros HP. unfold Manager_Acquire. intros H. ok_inv.
  match goal with p : Lease * list lease_row |- _ => destruct p as [held t1]; injection H as <- -> end.
  match goal with Hs : map_err _ _ = Ok _ |- _ => apply map_err_ok in Hs; unfold LeaseStore_Acquire in Hs; ok_inv end.
  eapply rtc_l; [by apply (step_lock t P req fresh)|]. eapply rtc_l; [eapply step_read; [by rewrite lookup_insert_eq | done | done]|].
  eapply rtc_l; [eapply step_write; [by rewrite lookup_insert_eq | done | done]|].
  rewrite insert_insert_eq, delete_insert_id by done. apply rtc_refl.
Qed.
End steps.
