(* ===== verification/LeaseFacts.v ===== *)
(** What leases and fences promise: the theorems about every table the
    transactions of [LeaseSteps] can reach. *)

From S2P Require Import Prelude LeaseTable LeaseManager LeaseSteps.

Local Open Scope Z_scope.

Definition fence_key (f : Fence) : resource_key := (f_TenantID f, Kind (f_Resource f), ID (f_Resource f)).

(** The row a fence names, as the last and only held row of its resource. *)
Record names (f : Fence) (t : lease_table) (r : lease_row) : Prop := {
  names_last : last (rows_of (fence_key f) t) = Some r;
  names_held : row_held r = true;
  names_token : row_token r = f_Token f;
  names_lease : l_LeaseID (row_lease r) = f_LeaseID f;
  names_holder : l_HolderID (row_lease r) = HolderID (f_Holder f)
}.

(** * Identities *)

Lemma cut_holder i res : Identity_validate i res = Ok tt ->
  str_cut holderSeparator (HolderID i) = (WorkloadRef i, InstanceRef i, true).
Proof.
  unfold Identity_validate. destruct (is_blank _); [done|]. destruct (cut_prefix _ _); [|done].
  destruct (is_blank _); [done|]. destruct (is_blank _); [done|].
  destruct (str_contains holderSeparator (WorkloadRef i)) eqn:E; [done|]. intros _.
  unfold HolderID. by apply str_cut_here.
Qed.

Lemma Identity_validate_res i res res' : Identity_validate i res = Ok tt -> Identity_validate i res' = Ok tt.
Proof.
  unfold Identity_validate. destruct (is_blank _); [done|]. destruct (cut_prefix _ _); [|done].
  destruct (is_blank _); [done|]. destruct (is_blank _); [done|]. destruct (_ || _); [done|]. by destruct (_ || _).
Qed.

Lemma parse_holder_id i res : Identity_validate i res = Ok tt -> ParseHolder (HolderID i) = Ok i.
Proof.
  intros H. unfold ParseHolder. rewrite (cut_holder i res H). cbn [negb]. destruct i as [workload instance_].
  cbn [WorkloadRef InstanceRef]. by rewrite (Identity_validate_res _ _ _ H).
Qed.

Lemma str_cut_true sep s a b : str_cut sep s = (a, b, true) -> s = (a +:+ String sep b).
Proof.
  revert a b. induction s as [|c s IH]; intros a b; cbn [str_cut]; [done|].
  destruct (Ascii.eqb_spec c sep) as [->|Hne]; [by intros [= <- <-]|].
  destruct (str_cut sep s) as [[a' b'] ok]. intros [= <- <- ->]. by rewrite (IH a' b' eq_refl).
Qed.

Lemma parse_holder_inv s i : ParseHolder s = Ok i ->
  s = HolderID i /\ Identity_validate i (mkResource LeaseWorkflowInstance "unknown") = Ok tt.
Proof.
  unfold ParseHolder. destruct (str_cut holderSeparator s) as [[a b] ok] eqn:E. destruct ok; cbn [negb]; [|done].
  intros H. ok_inv. subst i. apply str_cut_true in E. done.
Qed.

Lemma holder_inj i j res res' : Identity_validate i res = Ok tt -> Identity_validate j res' = Ok tt -> HolderID i = HolderID j -> i = j.
Proof. intros Hi Hj E. apply parse_holder_id in Hi, Hj. congruence. Qed.

Section facts.
Context {TS : TimestampCodec} {LT : LeaseText}.

(** * Verification *)

Lemma held_last t r : table_ok t -> In r t -> row_held r = true -> last (rows_of (key_of r) t) = Some r.
Proof.
  intros Hok Hr Hh. destruct (in_lookup (rows_of (key_of r) t) r) as [i Hi]; [by apply rows_of_in|].
  destruct (ok_chain t Hok _ i r Hi) as [_ Hl]. specialize (Hl Hh). rewrite last_lookup, <- Hl. done.
Qed.

Lemma last_held t k r : table_ok t -> last (rows_of k t) = Some r ->
  In r t /\ key_of r = k /\ row_token r = Z.of_nat (length (rows_of k t)).
Proof.
  intros Hok Hl. rewrite last_lookup in Hl. pose proof (lookup_in _ _ _ Hl) as Hin. apply rows_of_in in Hin as [Hin Hk].
  split; [done|]. split; [done|]. destruct (ok_chain t Hok k _ r Hl) as [Ht _]. rewrite Ht.
  apply lookup_lt_Some in Hl. lia.
Qed.

(** The live row of a resource, if any. *)
Definition live (k : resource_key) (t : lease_table) : option lease_row :=
  match last (rows_of k t) with Some r => if row_held r then Some r else None | None => None end.

Lemma live_current t k : table_ok t ->
  LeaseStore_currentQuery k.1.1 k.1.2 k.2 t = match live k t with Some r => Ok (row_lease r) | None => Err RsNotFound end.
Proof.
  intros Hok. pose proof (current_spec t k Hok) as H. unfold live. destruct (LeaseStore_currentQuery _ _ _ t) as [l|e|]; [| |done].
  - destruct H as (r & Hr & Hk & Hh & -> & _). subst k. by rewrite (held_last t r Hok Hr Hh), Hh.
  - destruct e; try done. destruct (last (rows_of k t)) as [r|] eqn:E; [|done].
    destruct (last_held t k r Hok E) as (Hr & Hk & _). by rewrite (H r Hr Hk).
Qed.

Lemma live_in t k r : table_ok t -> live k t = Some r ->
  In r t /\ key_of r = k /\ row_held r = true /\ row_token r = Z.of_nat (length (rows_of k t)).
Proof.
  intros Hok. unfold live. destruct (last _) as [s|] eqn:E; [|done]. destruct (row_held s) eqn:Hh; [|done]. intros [= ->].
  destruct (last_held t k r Hok E) as (? & ? & ?). done.
Qed.

Lemma verify_current f now t : table_ok t -> Manager_verify f now t =
  match live (fence_key f) t with
  | None => Err (lost f)
  | Some r =>
      let c := row_lease r in
      if f_Token f <? l_FenceToken c then Err (stale f)
      else if negb (l_FenceToken c =? f_Token f) || negb (String.eqb (l_LeaseID c) (f_LeaseID f)) || negb (String.eqb (l_HolderID c) (HolderID (f_Holder f)))
      then Err (foreign f)
      else if negb (now =? 0) && negb (now <? l_ExpiresAt c) then Err (lost f)
      else Ok c
  end.
Proof.
  intros Hok. unfold Manager_verify, LeaseStore_CurrentForUpdate.
  change (LeaseStore_currentQuery (f_TenantID f) _ _ t) with (LeaseStore_currentQuery (fence_key f).1.1 (fence_key f).1.2 (fence_key f).2 t).
  rewrite (live_current t _ Hok). by destruct (live _ t).
Qed.

Lemma verify_names f now t c : table_ok t -> Manager_verify f now t = Ok c ->
  exists r, c = row_lease r /\ names f t r /\ live (fence_key f) t = Some r /\ (now = 0 \/ now < l_ExpiresAt c).
Proof.
  intros Hok. rewrite verify_current by done. destruct (live _ t) as [r|] eqn:E; [|done]. cbv zeta.
  destruct (_ <? _); [done|]. destruct (_ || _) eqn:En; [done|]. destruct (_ && _) eqn:Et; [done|]. intros [= <-].
  rewrite !orb_false_iff, !negb_false_iff, Z.eqb_eq, !String.eqb_eq in En. destruct En as [[Ht Hl] Hh].
  exists r. split; [done|]. destruct (live_in t _ r Hok E) as (Hr & Hk & Hheld & _).
  split; [|split; [done|]].
  - constructor; try done. rewrite <- Hk. by apply held_last.
  - apply andb_false_iff in Et as [Et|Et]; [left; by apply negb_false_iff, Z.eqb_eq in Et | right; by apply negb_false_iff, Z.ltb_lt in Et].
Qed.

Lemma verified_names f now t h : table_ok t -> Manager_Verify f now t = Ok h ->
  Fence_Validate f = Ok tt /\ exists r, names f t r /\ live (fence_key f) t = Some r /\ (now = 0 \/ now < l_ExpiresAt (row_lease r)).
Proof.
  intros Hok. unfold Manager_Verify. intros H. ok_inv. split; [done|].
  match goal with Hv : Manager_verify _ _ _ = Ok _ |- _ => apply (verify_names f now t _ Hok) in Hv as (r & -> & Hn & Hl & Hw) end.
  by exists r.
Qed.

Lemma Fence_Validate_holder f : Fence_Validate f = Ok tt -> Identity_validate (f_Holder f) (f_Resource f) = Ok tt.
Proof. unfold Fence_Validate. intros H. ok_inv. done. Qed.

(** * Tokens only grow *)

Lemma extends_length t t' k : extends t t' -> (length (rows_of k t) <= length (rows_of k t'))%nat.
Proof.
  intros He. destruct (rows_of k t) as [|r rows] eqn:E using rev_ind; [cbn; lia|]. clear IHrows.
  assert (Hl : rows_of k t !! length rows = Some r) by (rewrite E; by apply list_lookup_middle).
  destruct (He k _ r Hl) as (r' & Hl' & _). apply lookup_lt_Some in Hl'. rewrite length_app. cbn [length]. lia.
Qed.

Lemma named_token f t r : table_ok t -> names f t r -> f_Token f = Z.of_nat (length (rows_of (fence_key f) t)).
Proof. intros Hok [Hl _ Ht _ _]. destruct (last_held t _ r Hok Hl) as (_ & _ & E). congruence. Qed.

(** A token that is behind, or whose row is settled, is refused from then on. *)
Lemma verify_behind f now t : table_ok t -> (f_Token f < Z.of_nat (length (rows_of (fence_key f) t)) \/ live (fence_key f) t = None) ->
  Manager_verify f now t = Err (stale f) \/ Manager_verify f now t = Err (lost f).
Proof.
  intros Hok H. rewrite verify_current by done. destruct (live _ t) as [r|] eqn:E; [|by right].
  destruct H as [H|H]; [|done]. destruct (live_in t _ r Hok E) as (_ & _ & _ & Ht). unfold row_token in Ht.
  cbv zeta. rewrite (proj2 (Z.ltb_lt _ _)) by lia. by left.
Qed.

Lemma settled_later t t' k n : extends t t' -> table_ok t -> table_ok t' -> length (rows_of k t) = n -> live k t = None ->
  length (rows_of k t') = n -> live k t' = None.
Proof.
  intros He Hok Hok' Hn Hl Hn'. unfold live in *. destruct (last (rows_of k t')) as [r'|] eqn:E'; [|done].
  destruct (row_held r') eqn:Hh; [|done]. exfalso. rewrite last_lookup, Hn' in E'.
  assert (Hlt : (pred n < length (rows_of k t))%nat) by (apply lookup_lt_Some in E'; lia).
  apply lookup_lt_is_Some in Hlt as [r Hr]. destruct (He k _ r Hr) as (r2 & Hr2 & Hc). rewrite Hr2 in E'. injection E' as ->.
  rewrite last_lookup, Hn, Hr in Hl. destruct Hc as []. by rewrite claim_held in Hl.
Qed.

Lemma identity_total i res : Identity_validate i res <> Panic.
Proof. unfold Identity_validate. no_panic. Qed.
Lemma resource_total r : Resource_validate r <> Panic.
Proof. unfold Resource_validate. no_panic. Qed.
Hint Resolve identity_total resource_total : panics.

Lemma fence_total f : Fence_Validate f <> Panic.
Proof. unfold Fence_Validate. no_panic. Qed.

Lemma verify_total f now t : table_ok t -> Manager_verify f now t <> Panic.
Proof. intros Hok. rewrite verify_current by done. cbv zeta. repeat (case_match; try done). Qed.
Hint Resolve fence_total verify_total : panics.

Lemma fenced_total tenant f t : table_ok t -> Fenced_VerifyFence tenant f t <> Panic.
Proof. intros Hok. unfold Fenced_VerifyFence, ParseHolder, Manager_Verify. no_panic. Qed.

(** * Theorems: the table and the fences *)

(** C5: the table keeps exclusive, numbered claims through every interleaving
    of the transactions, acquires whose reads are overtaken included: lease ids
    are unique, the tokens of a resource count its leases from 1 in order, and
    at most one row of a resource is held, which is its last. *)
Theorem lease_table_invariant w : reachable w ->
  NoDup (row_id <$> w_table w) /\
  forall k, row_token <$> rows_of k (w_table w) = Z.of_nat <$> seq 1 (length (rows_of k (w_table w))) /\
    forall r, In r (w_table w) -> key_of r = k -> row_held r = true -> last (rows_of k (w_table w)) = Some r.
Proof.
  intros Hw. apply reachable_ok in Hw as [Hok _]. split; [apply Hok|]. intros k. split.
  - apply list_eq. intros i. rewrite !list_lookup_fmap. destruct (rows_of k (w_table w) !! i) as [r|] eqn:E.
    + rewrite lookup_seq_lt by (by apply lookup_lt_Some in E). cbn. f_equal. destruct (ok_chain _ Hok k i r E) as [-> _]. lia.
    + by rewrite lookup_seq_ge by (by apply lookup_ge_None in E).
  - intros r Hr <- Hh. by apply held_last.
Qed.

(** C6: fencing.  Of two fences for one resource that are accepted, the later
    one never carries a smaller token, and equal tokens are the same lease in
    the hands of the same holder - at one moment, two accepted fences are the
    same claim. *)
Theorem accepted_fences_ordered w w' f f' now now' h h' : reachable w -> rtc lease_step w w' ->
  fence_key f = fence_key f' ->
  Manager_Verify f now (w_table w) = Ok h -> Manager_Verify f' now' (w_table w') = Ok h' ->
  f_Token f <= f_Token f' /\ (f_Token f = f_Token f' -> f_LeaseID f = f_LeaseID f' /\ f_Holder f = f_Holder f').
Proof.
  intros Hw Hs Hk Hv Hv'. destruct (steps_world _ _ Hs (reachable_ok _ Hw)) as [[Hok' _] He].
  pose proof (world_table _ (reachable_ok _ Hw)) as Hok.
  destruct (verified_names _ _ _ _ Hok Hv) as (Hf & r & Hn & _). destruct (verified_names _ _ _ _ Hok' Hv') as (Hf' & r' & Hn' & _).
  pose proof (named_token f _ r Hok Hn) as Ht. pose proof (named_token f' _ r' Hok' Hn') as Ht'.
  pose proof (extends_length _ _ (fence_key f) He) as Hl. rewrite <- Hk in Ht'. split; [lia|]. intros Eq.
  assert (Hlen : length (rows_of (fence_key f) (w_table w')) = length (rows_of (fence_key f) (w_table w))) by lia.
  destruct Hn as [Hlast _ _ Hid Hh], Hn' as [Hlast' _ _ Hid' Hh']. rewrite <- Hk in Hlast'. rewrite last_lookup in Hlast, Hlast'.
  destruct (He _ _ _ Hlast) as (r2 & Hr2 & Hc). rewrite Hlen, Hr2 in Hlast'. injection Hlast' as ->.
  destruct Hc as [Cid _ _ Ch _ _]. unfold row_id in Cid. split; [congruence|].
  apply (holder_inj _ _ _ _ (Fence_Validate_holder f Hf) (Fence_Validate_holder f' Hf')). congruence.
Qed.

(** C7: a superseded holder is refused for ever.  Once a later token has been
    issued for its resource, or its own row has been settled, a fence is
    answered FENCE_STALE or LEASE_LOST in every later state, at every instant
    and whatever lease or holder it names. *)
Theorem superseded_fence_refused w w' f r now : reachable w -> rtc lease_step w w' -> Fence_Validate f = Ok tt ->
  In r (w_table w) -> key_of r = fence_key f ->
  f_Token f < row_token r \/ (row_token r = f_Token f /\ row_held r = false) ->
  Manager_Verify f now (w_table w') = Err (stale f) \/ Manager_Verify f now (w_table w') = Err (lost f).
Proof.
  intros Hw Hs Hf Hr Hk Hb. destruct (steps_world _ _ Hs (reachable_ok _ Hw)) as [[Hok' _] He].
  pose proof (world_table _ (reachable_ok _ Hw)) as Hok.
  assert (H : Manager_verify f now (w_table w') = Err (stale f) \/ Manager_verify f now (w_table w') = Err (lost f)).
  { destruct (in_lookup (rows_of (fence_key f) (w_table w)) r) as [i Hi]; [by apply rows_of_in|].
    destruct (ok_chain _ Hok _ _ _ Hi) as [Ht _]. destruct (He _ _ _ Hi) as (s & Hsi & Hc). pose proof (lookup_lt_Some _ _ _ Hsi) as Hlt.
    apply verify_behind; [done|]. destruct Hb as [Hb|[Et Hh]]; [left; lia|].
    destruct (Z.lt_ge_cases (f_Token f) (Z.of_nat (length (rows_of (fence_key f) (w_table w'))))) as [|Hge]; [by left|right].
    unfold live. rewrite last_lookup. replace (pred (length _)) with i by lia. rewrite Hsi. destruct Hc as [_ _ _ _ _ Ch].
    destruct (row_held s); [by rewrite Ch in Hh | done]. }
  unfold Manager_Verify. rewrite Hf. cbn [mbind outcome_bind]. destruct H as [-> | ->]; [by left | by right].
Qed.

(** Holder ids are read back exactly: a text parses to an identity exactly
    when that identity is valid and renders to the text. *)
Theorem holder_id_roundtrip s i : ParseHolder s = Ok i <->
  s = HolderID i /\ Identity_validate i (mkResource LeaseWorkflowInstance "unknown") = Ok tt.
Proof.
  split; [apply parse_holder_inv|]. intros [-> H]. by apply (parse_holder_id _ (mkResource LeaseWorkflowInstance "unknown")).
Qed.

(** ** The fenced advancement *)

(** A fence that protects an instance: complete, bound to the instance, and
    naming the live row of its lease, which has not lapsed at the fence's
    instant. *)
Record protects (tenant instance_ : string) (f : RuntimeFence) (t : lease_table) : Prop := {
  pt_tenant : tenant <> nil_uuid;
  pt_instance : instance_ <> nil_uuid /\ is_blank instance_ = false /\ is_trimmed instance_ = true;
  pt_bound : rf_ResourceKind f = LeaseWorkflowInstance /\ rf_ResourceID f = instance_;
  pt_complete : rf_LeaseID f <> nil_uuid /\ rf_At f <> 0;
  pt_row : exists i row, ParseHolder (rf_HolderID f) = Ok i /\
    names (mkFence tenant (mkResource LeaseWorkflowInstance instance_) (rf_LeaseID f) i (rf_Token f)) t row /\
    rf_At f < l_ExpiresAt (row_lease row)
}.

Lemma Identity_validate_any i r r' : Identity_validate i r = Ok tt -> Identity_validate i r' = Ok tt.
Proof.
  unfold Identity_validate. destruct (is_blank _); [done|]. destruct (cut_prefix _ _); [|done]. destruct (is_blank _); [done|].
  destruct (is_blank _); [done|]. destruct (_ || _); [done|]. by rewrite !fail_if_ok_iff.
Qed.

Lemma verify_named f now t r : table_ok t -> names f t r -> now < l_ExpiresAt (row_lease r) -> Manager_verify f now t = Ok (row_lease r).
Proof.
  intros Hok Hn Hw. rewrite verify_current by done. destruct Hn as [Hl Hh Ht Hi Ho]. unfold live. rewrite Hl, Hh. cbv zeta.
  unfold row_token in Ht. rewrite Ht, Hi, Ho, Z.ltb_irrefl, Z.eqb_refl, !String.eqb_refl. cbn [negb orb].
  rewrite (proj2 (Z.ltb_lt _ _) Hw). cbn [negb]. by rewrite andb_false_r.
Qed.

Lemma ValidateForInstance_ok {E} f instance_ : @ValidateForInstance E f instance_ = Ok tt <->
  instance_ <> nil_uuid /\ (rf_ResourceKind f = LeaseWorkflowInstance /\ rf_ResourceID f = instance_) /\ instance_ <> "" /\
  rf_LeaseID f <> nil_uuid /\ rf_HolderID f <> "" /\ rf_Token f <> 0 /\ rf_At f <> 0.
Proof.
  unfold ValidateForInstance. rewrite !if_err_ok, fail_if_ok_iff, !orb_false_iff, !negb_false_iff, !String.eqb_eq, !String.eqb_neq, !Z.eqb_neq.
  split.
  - intros (? & [? Hid] & ? & ? & ? & ? & ? & Ei). rewrite Ei in Hid. by split_and!.
  - intros (? & [-> ->] & ? & ? & ? & ? & ?). by split_and!.
Qed.

Lemma Resource_validate_instance id : Resource_validate (mkResource LeaseWorkflowInstance id) = Ok tt <-> is_blank id = false /\ is_trimmed id = true.
Proof. unfold Resource_validate. cbn [Kind ID existsb]. rewrite String.eqb_refl. cbn [orb negb]. by rewrite fail_if_ok_iff, orb_false_iff, negb_false_iff. Qed.

(** What [AdvanceFenced] checks before the advancement, for any error type. *)
Definition fence_checks {E} (tenant instance_ : string) (f : RuntimeFence) (t : lease_table) : outcome (fenced_err E) unit :=
  _ ← ValidateForInstance f instance_; map_err (fun e => CodeFenceRefused (Some e)) (Fenced_VerifyFence tenant f t).

Lemma fence_checks_ok {E} tenant instance_ f t : table_ok t -> @fence_checks E tenant instance_ f t = Ok tt <-> protects tenant instance_ f t.
Proof.
  intros Hok. unfold fence_checks. rewrite bind_unit_ok, ValidateForInstance_ok. split.
  - intros ((Hi & [Hk Hid] & _ & Hl & _ & _ & Hat) & Hv%map_err_ok). unfold Fenced_VerifyFence in Hv. ok_inv. rewrite Hk, Hid in *.
    match goal with Hv : Manager_Verify _ _ _ = Ok _ |- _ => apply (verified_names _ _ _ _ Hok) in Hv as (Hf & row & Hn & _ & Hw) end.
    unfold Fence_Validate in Hf. rewrite !bind_unit_ok, fail_if_ok_iff, String.eqb_neq in Hf. destruct Hf as (Ht & Hr%Resource_validate_instance & _).
    constructor; try done. destruct Hw as [?|Hw]; [done|]. by eexists _, row.
  - intros [Ht (Hi & Hr) [Hk Hid] [Hl Hat] (i & row & Hp & Hn & Hw)]. pose proof (named_token _ _ _ Hok Hn) as Htok. cbn [f_Token] in Htok.
    assert (Hpos : rf_Token f <> 0).
    { destruct Hn as [Hlast _ _ _ _]. rewrite Htok. destruct (rows_of _ t); [done|]. cbn [length]. lia. }
    apply parse_holder_inv in Hp as Hp'. destruct Hp' as [Eh Hiv]. split.
    + split_and!; try done; [by intros ->; destruct Hr|]. intros E0. rewrite E0 in Hp. by vm_compute in Hp.
    + unfold Fenced_VerifyFence. rewrite Hp. cbn [mbind outcome_bind]. rewrite Hk, Hid. unfold Manager_Verify.
      assert (Hf : Fence_Validate (mkFence tenant (mkResource LeaseWorkflowInstance instance_) (rf_LeaseID f) i (rf_Token f)) = Ok tt).
      { unfold Fence_Validate. cbn [f_TenantID f_Resource f_LeaseID f_Holder f_Token].
        rewrite !bind_unit_ok, !fail_if_ok_iff, !String.eqb_neq, Z.eqb_neq. split_and!; try done; [by apply Resource_validate_instance|].
        by eapply Identity_validate_any. }
      rewrite Hf. cbn [mbind outcome_bind]. by rewrite (verify_named _ _ _ row).
Qed.

(** A refusal before the advancement, in any error type. *)
Definition refusal {E} (e : fenced_err Empty_set) : fenced_err E :=
  match e with CodeFenceRequired => CodeFenceRequired | CodeFenceRefused c => CodeFenceRefused c | AdvanceFailed x => match x with end end.

Lemma AdvanceFenced_checks {St E R} (advance : St -> outcome E (R * St)) tenant instance_ f t s : table_ok t ->
  AdvanceFenced (Some Fenced_VerifyFence) advance tenant instance_ f t s =
    match @fence_checks Empty_set tenant instance_ f t with Ok _ => map_err AdvanceFailed (advance s) | Err e => Err (refusal e) | Panic => Panic end.
Proof.
  intros Hok. unfold AdvanceFenced, fence_checks, ValidateForInstance. do 6 (case_match; [done|]). destruct (negb _ || _); [done|].
  cbn [fail_if mbind outcome_bind]. by destruct (Fenced_VerifyFence tenant f t).
Qed.

(** C23: the fenced advancement is guarded, exactly.  With the lease verifier,
    and over any table the lease transactions reach, it is the advancement
    itself (its errors marked) when the fence protects the instance: complete,
    bound to it, and naming the tenant's live lease row on it - lease id,
    holder and token - before its expiry.  With any other fence it is one and
    the same refusal for every advancement, which is therefore never called;
    so it is without a verifier. *)
Theorem advance_fenced_guarded w tenant instance_ f : reachable w ->
  (protects tenant instance_ f (w_table w) ->
     forall (St E R : Type) (advance : St -> outcome E (R * St)) s,
       AdvanceFenced (Some Fenced_VerifyFence) advance tenant instance_ f (w_table w) s = map_err AdvanceFailed (advance s)) /\
  (~ protects tenant instance_ f (w_table w) ->
     exists e, forall (St E R : Type) (advance : St -> outcome E (R * St)) s,
       AdvanceFenced (Some Fenced_VerifyFence) advance tenant instance_ f (w_table w) s = Err (refusal e)) /\
  (forall (St E R : Type) (advance : St -> outcome E (R * St)) s,
     AdvanceFenced None advance tenant instance_ f (w_table w) s = Err CodeFenceRequired).
Proof.
  intros Hw. pose proof (world_table _ (reachable_ok _ Hw)) as Hok. split; [|split; [|done]].
  - intros Hp St E R advance s. rewrite AdvanceFenced_checks by done. by rewrite (proj2 (fence_checks_ok _ _ _ _ Hok) Hp).
  - intros Hp. destruct (@fence_checks Empty_set tenant instance_ f (w_table w)) as [[]|e|] eqn:Ec.
    + by apply fence_checks_ok in Ec.
    + exists e. intros St E R advance s. rewrite AdvanceFenced_checks by done. by rewrite Ec.
    + exfalso. revert Ec. unfold fence_checks. apply bind_no_panic; [unfold ValidateForInstance; no_panic|]. intros _ _.
      apply map_err_no_panic, fenced_total, Hok.
Qed.
End facts.
