(* ===== verification/LeaseHistory.v ===== *)
(** Acquiring, and the history the rows tell: the exact behaviour of
    [Manager.Acquire], what [Manager.History] reconstructs, and the runs where
    leases depart from their documentation. *)

From S2P Require Import Prelude LeaseTable LeaseManager LeaseSteps LeaseFacts.

Local Open Scope Z_scope.

(** * Texts that fit the column *)

Lemma starts_blank_space s : starts_with_space s = false -> starts_blank s = false.
Proof.
  destruct s as [|c s]; [done|]. unfold starts_blank. destruct (Ascii.eqb_spec c " ") as [->|]; [|done].
  unfold starts_with_space. cbn [str_bytes]. by destruct (str_bytes s) as [|? [|? ?]].
Qed.

Lemma ends_blank_snoc s c : ends_blank (s +:+ String c "") = Ascii.eqb c " ".
Proof. induction s as [|d s IH]; cbn [String.append ends_blank]; [done|]. destruct s; cbn [String.append] in *; done. Qed.

Lemma string_snoc s : s = EmptyString \/ exists r c, s = (r +:+ String c "").
Proof.
  induction s as [|c s [->|(r & d & ->)]]; [by left | right; by exists EmptyString, c | right; by exists (String c r), d].
Qed.

Lemma ends_blank_space s : ends_with_space s = false -> ends_blank s = false.
Proof.
  destruct (string_snoc s) as [->|(r & c & ->)]; [done|]. rewrite ends_blank_snoc. destruct (Ascii.eqb_spec c " ") as [->|]; [|done].
  unfold ends_with_space. rewrite str_bytes_app, rev_app_distr. cbn [str_bytes rev app].
  by destruct (rev (str_bytes r)) as [|? [|? ?]].
Qed.

Lemma trimmed_blanks s : is_trimmed s = true -> starts_blank s = false /\ ends_blank s = false.
Proof.
  unfold is_trimmed. rewrite andb_true_iff, !negb_true_iff. intros [? ?].
  split; [by apply starts_blank_space | by apply ends_blank_space].
Qed.

Lemma resource_key_text res : Resource_validate res = Ok tt -> leaseKinds (Kind res) = true /\ semantic_key (ID res) = true.
Proof.
  unfold Resource_validate, leaseKinds. destruct (existsb _ _); cbn [negb]; [|done]. intros H. apply fail_if_ok in H.
  apply orb_false_iff in H as [Hb Ht]. apply negb_false_iff in Ht. split; [done|]. unfold semantic_key.
  destruct (trimmed_blanks _ Ht) as [-> ->]. by destruct (ID res).
Qed.

Lemma holder_key_text i res : Identity_validate i res = Ok tt -> semantic_key (HolderID i) = true.
Proof.
  unfold Identity_validate. destruct (is_blank _); [done|]. destruct (cut_prefix _ _) as [n|] eqn:E; [|done].
  destruct (is_blank _); [done|]. destruct (is_blank _) eqn:Eb; [done|]. destruct (_ || _); [done|]. intros H. apply fail_if_ok in H.
  apply orb_false_iff in H as [Hw Hi]. apply negb_false_iff in Hw, Hi.
  destruct (trimmed_blanks _ Hw) as [Hs _], (trimmed_blanks _ Hi) as [_ He].
  unfold semantic_key, HolderID. destruct (WorkloadRef i) as [|c w]; [done|]. destruct (InstanceRef i) as [|d r]; [done|].
  cbn [String.append String.eqb starts_blank] in *. rewrite Hs. cbn [negb andb].
  destruct (string_snoc (String d r)) as [|(u & x & Eu)]; [done|]. rewrite Eu in *. rewrite ends_blank_snoc in He.
  change (String c (w +:+ String holderSeparator (u +:+ String x ""))) with (String c w +:+ (String holderSeparator u +:+ String x "")).
  by rewrite <- append_assoc, ends_blank_snoc, He.
Qed.

Section history.
Context {TS : TimestampCodec} {LT : LeaseText}.

(** * Acquiring *)

(** The rows an acquire of [req] needs room for: its lease id is new, its
    window is not lost to the resolution of the column, and neither the token
    nor the version of the row it retires has run out. *)
Record storable (req : AcquireRequest) (fresh : string) (t : lease_table) : Prop := {
  st_id : ~ (r_TenantID req, l_LeaseID (acquire_input req fresh)) ∈ row_id <$> t;
  st_window : stored (r_Now req) < stored (r_Now req + r_TTL req);
  st_token : Z.of_nat (length (rows_of (req_key req) t)) < max_int64;
  st_version r : live (req_key req) t = Some r -> l_Version (row_lease r) < max_int64
}.

Lemma id_unique t r s : table_ok t -> In r t -> In s t -> row_id r = row_id s -> r = s.
Proof.
  intros [_ Hn _] Hr Hs E. apply in_lookup in Hr as [i Hi], Hs as [j Hj].
  assert (i = j) as <-; [|congruence]. apply (NoDup_lookup (row_id <$> t) i j (row_id r) Hn).
  - by apply list_lookup_fmap_Some_2.
  - rewrite E. by apply list_lookup_fmap_Some_2.
Qed.

Lemma settled_checks st at_ r : st = LeaseReleased \/ st = LeaseExpired -> row_checks r = true ->
  row_checks (with_settled st at_ r) = (l_Version (row_lease r) <? max_int64).
Proof.
  intros Hst H. apply eq_true_iff_eq. rewrite Z.ltb_lt. revert H. unfold row_checks. rewrite !andb_true_iff, !Z.leb_le.
  destruct Hst as [-> | ->]; cbn; intros H; (split; [lia|]); intros Hv; repeat split; try apply H; try done; lia.
Qed.

Lemma acquired_checks req fresh token : AcquireRequest_validate req = Ok tt ->
  row_checks (acquired_row (acquire_input req fresh) token) =
    (1 <=? token) && (token <=? max_int64) && (stored (r_Now req) <? stored (r_Now req + r_TTL req)).
Proof.
  unfold AcquireRequest_validate. intros H. ok_inv.
  match goal with Hr : Resource_validate _ = Ok _, Hi : Identity_validate _ _ = Ok _ |- _ =>
    destruct (resource_key_text _ Hr) as [Hk Hs]; pose proof (holder_key_text _ _ Hi) as Hh end.
  unfold row_checks. cbn -[leaseKinds semantic_key max_int64 Z.leb Z.ltb]. rewrite Hk, Hs, Hh. cbn -[max_int64 Z.leb Z.ltb]. by destruct (1 <=? token), (token <=? max_int64), (_ <? _).
Qed.

Lemma no_same_fence t r : table_ok t -> row_token r = Z.of_nat (length (rows_of (key_of r) t)) + 1 -> existsb (same_fence r) t = false.
Proof.
  intros Hok Ht. apply not_true_iff_false. rewrite existsb_exists. intros (s & Hs & E). unfold same_fence in E.
  apply andb_true_iff in E as [Ek Et]. apply bool_decide_eq_true in Ek. apply Z.eqb_eq in Et.
  destruct (in_lookup (rows_of (key_of r) t) s) as [i Hi]; [by apply rows_of_in|].
  destruct (ok_chain t Hok _ _ _ Hi) as [Hti _]. apply lookup_lt_Some in Hi. lia.
Qed.

Lemma no_same_held t r : (forall s, In s t -> key_of s = key_of r -> row_held s = false) -> existsb (same_held r) t = false.
Proof.
  intros H. apply not_true_iff_false. rewrite existsb_exists. intros (s & Hs & E). unfold same_held in E.
  rewrite !andb_true_iff in E. destruct E as [[Ek _] Eh]. apply bool_decide_eq_true in Ek. by rewrite (H s Hs) in Eh.
Qed.

Lemma retire_ids inp now cur t : row_id <$> retire inp now cur t = row_id <$> t.
Proof.
  destruct cur as [c|]; [|done]. cbn [retire]. rewrite <- list_fmap_compose. apply list_fmap_ext. intros i r _. cbn. by case_bool_decide.
Qed.

(** The row the read found is the live one. *)
Lemma read_live req fresh t cur : table_ok t -> acquire_read (acquire_input req fresh) (r_Now req) t = Ok cur ->
  cur = row_lease <$> live (req_key req) t /\ forall r, live (req_key req) t = Some r -> l_ExpiresAt (row_lease r) <= r_Now req.
Proof.
  intros Hok. unfold acquire_read. intros H. ok_inv. unfold LeaseStore_Current in H.
  change (LeaseStore_currentQuery _ _ _ t) with (LeaseStore_currentQuery (req_key req).1.1 (req_key req).1.2 (req_key req).2 t) in H.
  rewrite (live_current t _ Hok) in H. destruct (live _ t) as [r|]; [|by simplify_eq].
  destruct (Z.ltb_spec (r_Now req) (l_ExpiresAt (row_lease r))); [done|]. simplify_eq. split; [done|]. by intros ? [= <-].
Qed.

Lemma retire_table t req cur : table_ok t -> cur = row_lease <$> live (req_key req) t ->
  (forall r, live (req_key req) t = Some r -> l_Version (row_lease r) < max_int64) <->
  match cur with
  | Some c => is_ok (update_rows (fun r => bool_decide (row_id r = (r_TenantID req, l_LeaseID c))) (with_settled LeaseExpired (stored (r_Now req))) t) = true
  | None => True
  end.
Proof.
  intros Hok ->. destruct (live (req_key req) t) as [r|] eqn:El; cbn [fmap option_fmap option_map]; [|by split].
  destruct (live_in t _ r Hok El) as (Hr & Hk & _ & _). pose proof (ok_rows t Hok) as Hck. rewrite List.Forall_forall in Hck.
  assert (Hid : row_id r = (r_TenantID req, l_LeaseID (row_lease r))) by (unfold key_of, req_key in Hk; unfold row_id; congruence).
  unfold update_rows. split.
  - intros H. rewrite (proj2 (forallb_forall _ _)); [done|]. intros s Hs. case_bool_decide as E; [|done].
    rewrite (id_unique t s r Hok Hs Hr) by congruence. cbn [negb orb]. rewrite settled_checks by (auto using Hck). by apply Z.ltb_lt, H.
  - intros H r' [= <-]. destruct (forallb _ t) eqn:Ef; [|done]. rewrite forallb_forall in Ef. specialize (Ef r Hr).
    rewrite bool_decide_eq_true_2, settled_checks in Ef by (done || auto using Hck). by apply Z.ltb_lt.
Qed.

(** Retiring the lapsed row fails only when its version has run out. *)
Lemma retire_step t req fresh cur : table_ok t -> cur = row_lease <$> live (req_key req) t ->
  let inp := acquire_input req fresh in
  let m := match cur with
    | Some c => db (update_rows (fun r => bool_decide (row_id r = (l_TenantID inp, l_LeaseID c))) (with_settled LeaseExpired (stored (r_Now req))) t)
    | None => Ok (0, t)
    end in
  m = Err (RsDb DbCheck) /\ ~ storable req fresh t \/
  exists a, m = Ok (a, retire inp (r_Now req) cur t) /\ table_ok (retire inp (r_Now req) cur t) /\
    forall r, live (req_key req) t = Some r -> l_Version (row_lease r) < max_int64.
Proof.
  intros Hok Ecur inp. pose proof (retire_table t req cur Hok Ecur) as Hret.
  destruct cur as [c|]; cbv zeta; [|right; exists 0; by rewrite Hret]. change (l_TenantID inp) with (r_TenantID req).
  unfold db. destruct (update_rows _ _ t) as [[a u]|e|] eqn:E.
  - right. exists a. pose proof (updated_ok _ _ _ _ _ (fun r => same_claim_settled LeaseExpired (stored (r_Now req)) r ltac:(done)) Hok E) as [Hu _].
    apply update_rows_inv in E as (-> & _ & _). split; [done|]. split; [done|]. by apply Hret.
  - left. split; [unfold update_rows in E; destruct (forallb _ _); [done | by injection E as <-]|].
    intros [_ _ _ Hver]. apply Hret in Hver. done.
  - unfold update_rows in E. by destruct (forallb _ _).
Qed.

Lemma retire_length t req inp cur : length (rows_of (req_key req) (retire inp (r_Now req) cur t)) = length (rows_of (req_key req) t).
Proof.
  unfold retire. destruct cur as [c|]; [|done]. rewrite rows_of_map; [by rewrite length_fmap|]. intros r Hr. by case_bool_decide.
Qed.

Lemma minted_token n : 0 <= n <= max_int64 -> (1 <=? to_int64 (n + 1)) && (to_int64 (n + 1) <=? max_int64) = (n <? max_int64).
Proof.
  intros Hn. destruct (Z.ltb_spec n max_int64).
  - rewrite to_int64_small by (unfold min_int64; lia). rewrite !(proj2 (Z.leb_le _ _)) by lia. done.
  - assert (n = max_int64) as -> by lia. done.
Qed.

(** The writes of an acquire that has read a free or lapsed resource. *)
Lemma acquire_write_exact t req fresh cur : table_ok t -> AcquireRequest_validate req = Ok tt ->
  acquire_read (acquire_input req fresh) (r_Now req) t = Ok cur ->
  match acquire_write (acquire_input req fresh) (r_Now req) cur t with
  | Ok _ => storable req fresh t
  | Err e => ~ storable req fresh t /\ (e = RsDb DbCheck \/ e = RsDb DbPrimaryKey)
  | Panic => False
  end.
Proof.
  intros Hok Hv Hread. destruct (read_live req fresh t cur Hok Hread) as [Ecur _].
  pose proof (acquire_read_ok t _ _ _ Hok Hread) as Hro. pose proof (retire_step t req fresh cur Hok Ecur) as E1.
  set (inp := acquire_input req fresh) in *. unfold acquire_write. cbv zeta in E1.
  destruct E1 as [[-> Hno]|(a & -> & Hok1 & Hver)]; cbn [mbind outcome_bind]; [split; [done | by left]|].
  pose proof (retire_length t req inp cur) as Hn. pose proof (retire_ids inp (r_Now req) cur t) as Hids.
  pose proof (retire_free inp (r_Now req) cur t Hro) as Hfree. set (t1 := retire inp (r_Now req) cur t) in *.
  change (LeaseStore_nextFence _ _ _ t1) with (LeaseStore_nextFence (req_key req).1.1 (req_key req).1.2 (req_key req).2 t1).
  rewrite (next_fence t1 (req_key req) Hok1), Hn. set (n := Z.of_nat (length (rows_of (req_key req) t))).
  pose proof (chain_bound t (req_key req) Hok) as Hmax. fold n in Hmax.
  unfold insert_row, db. change (mkRow _ None) with (acquired_row inp (to_int64 (n + 1))).
  rewrite (acquired_checks req fresh _ Hv), (minted_token n) by lia.
  destruct (Z.ltb_spec n max_int64) as [Hlt|Hge]; [|split; [intros []; fold n in st_token0; lia | by left]].
  destruct (Z.ltb_spec (stored (r_Now req)) (stored (r_Now req + r_TTL req))) as [Hw|Hw]; [|split; [intros []; lia | by left]].
  cbn [negb fail_if mbind outcome_bind map_err andb].
  destruct (existsb (same_id _) t1) eqn:Eid; cbn [fail_if mbind outcome_bind map_err].
  - split; [|by right]. intros [Hid _ _ _]. apply Hid. apply existsb_exists in Eid as (s & Hs & E). apply bool_decide_eq_true in E.
    rewrite <- Hids. apply list_elem_of_fmap. exists s. split; [exact E | by apply list_elem_of_In].
  - rewrite to_int64_small by (unfold min_int64; lia).
    rewrite no_same_fence by (done || (change (key_of (acquired_row inp (n + 1))) with (req_key req); rewrite Hn; reflexivity)).
    rewrite no_same_held by exact Hfree. cbn [fail_if mbind outcome_bind map_err].
    constructor; [|done|done|done]. intros Hin. apply not_true_iff_false in Eid. apply Eid, existsb_exists.
    rewrite <- Hids in Hin. apply list_elem_of_fmap in Hin as (s & E & Hs). exists s.
    split; [by apply list_elem_of_In|]. by apply bool_decide_eq_true_2.
Qed.

(** The rows of the other resources are untouched. *)
Lemma acquire_other_rows t req fresh cur token k : table_ok t -> cur = row_lease <$> live (req_key req) t -> k <> req_key req ->
  rows_of k (retire (acquire_input req fresh) (r_Now req) cur t ++ [acquired_row (acquire_input req fresh) token]) = rows_of k t.
Proof.
  intros Hok -> Hk. rewrite rows_of_app. unfold rows_of at 2, resource_rows. cbn [List.filter]. rewrite key_split.
  rewrite bool_decide_eq_false_2 by (intros E; apply Hk; by rewrite <- E). rewrite app_nil_r.
  destruct (live (req_key req) t) as [r|] eqn:El; [|done]. cbn [fmap option_fmap option_map retire].
  rewrite rows_of_map by (intros s _; by case_bool_decide). destruct (live_in t _ r Hok El) as (Hr & Hkr & _ & _).
  transitivity (id <$> rows_of k t); [|by rewrite list_fmap_id]. apply list_fmap_ext. intros i s Hs.
  apply lookup_in, rows_of_in in Hs as [Hs Hks]. case_bool_decide as E; [|done]. exfalso. apply Hk. rewrite <- Hks, <- Hkr. f_equal.
  apply (id_unique t); try done. rewrite E. unfold key_of, req_key in Hkr. unfold row_id, acquire_input. cbn. congruence.
Qed.

Lemma acquire_read_spec t req fresh : table_ok t -> AcquireRequest_validate req = Ok tt ->
  acquire_read (acquire_input req fresh) (r_Now req) t =
    match live (req_key req) t with
    | Some r => if r_Now req <? l_ExpiresAt (row_lease r) then Err RsLeaseHeld else Ok (Some (row_lease r))
    | None => Ok None
    end.
Proof.
  intros Hok. unfold AcquireRequest_validate. intros H. ok_inv.
  match goal with Hr : Resource_validate _ = Ok _ |- _ => destruct (resource_key_text _ Hr) as [Hk Hs] end.
  unfold acquire_read. cbn [l_ResourceKind l_ResourceID l_HolderID l_AcquiredAt l_ExpiresAt l_TenantID acquire_input].
  rewrite Hk. cbn [negb fail_if mbind outcome_bind].
  assert (String.eqb (ID (r_Resource req)) "" = false) as -> by (revert Hs; unfold semantic_key; destruct (String.eqb (ID (r_Resource req)) ""); [cbn; discriminate | reflexivity]).
  assert (String.eqb (HolderID (r_Holder req)) "" = false) as -> by (unfold HolderID; destruct (WorkloadRef (r_Holder req)); reflexivity).
  cbn [orb fail_if mbind outcome_bind].
  match goal with Hn : (r_Now req =? 0) = false, Ht : (r_TTL req <=? 0) = false |- _ => rewrite Hn; apply Z.leb_gt in Ht end.
  rewrite (proj2 (Z.ltb_lt _ _)) by lia. cbn [orb negb fail_if mbind outcome_bind].
  unfold LeaseStore_Current.
  change (LeaseStore_currentQuery _ _ _ t) with (LeaseStore_currentQuery (req_key req).1.1 (req_key req).1.2 (req_key req).2 t).
  rewrite (live_current t _ Hok). by destruct (live _ t).
Qed.

(** What a successful acquire leaves. *)
Lemma acquired_names t req fresh cur held t' : table_ok t -> cur = row_lease <$> live (req_key req) t ->
  acquire_read (acquire_input req fresh) (r_Now req) t = Ok cur ->
  acquire_write (acquire_input req fresh) (r_Now req) cur t = Ok (held, t') ->
  l_FenceToken held = Z.of_nat (length (rows_of (req_key req) t)) + 1 /\
  (forall prior, exists row, live (req_key req) t' = Some row /\ names (g_Fence (acquire_grant req prior held)) t' row) /\
  (forall k, k <> req_key req -> rows_of k t' = rows_of k t).
Proof.
  intros Hok Ecur Hread Hwr.
  destruct (acquire_write_inv _ _ _ _ _ _ Hok (acquire_read_ok _ _ _ _ Hok Hread) Hwr) as (_ & Hok' & _ & -> & _ & ->).
  change (inp_key (acquire_input req fresh)) with (req_key req) in *. set (n := Z.of_nat _) in *.
  split; [done|]. split; [|intros k Hk; by apply acquire_other_rows].
  intros prior. set (row := acquired_row _ _). exists row.
  assert (Hlast : last (rows_of (req_key req) (retire (acquire_input req fresh) (r_Now req) cur t ++ [row])) = Some row).
  { rewrite rows_of_app. unfold rows_of at 2, resource_rows. cbn [List.filter]. rewrite key_split.
    rewrite bool_decide_eq_true_2 by done. by rewrite last_snoc. }
  split; [unfold live; by rewrite Hlast|]. by constructor.
Qed.

Lemma grant_evidence req prior held n : 0 <= n -> l_FenceToken held = n + 1 ->
  f_Token (g_Fence (acquire_grant req prior held)) = n + 1 /\ ev_PriorToken (g_Evidence (acquire_grant req prior held)) = n /\
  (ev_Kind (g_Evidence (acquire_grant req prior held)) = TransitionTakenOver <-> l_FenceToken prior <> 0).
Proof.
  intros Hn Ht. split; [done|]. unfold acquire_grant. cbn [g_Evidence newEvidence ev_PriorToken ev_Kind]. rewrite Ht.
  split; [destruct (Z.ltb_spec 1 (n + 1)); lia|]. by destruct (Z.eqb_spec (l_FenceToken prior) 0).
Qed.

(** C22: Acquire, exactly.  A valid request is refused with LEASE_HELD exactly
    when the resource is held past the request's instant; otherwise it succeeds
    exactly when the new row can be stored, mints the token after the number of
    leases the resource has had, says TAKEN_OVER exactly when it retired a
    lapsed holder, leaves the new lease as the only live one of its resource
    and touches no other resource. *)
Theorem acquire_exact w req fresh : reachable w -> AcquireRequest_validate req = Ok tt ->
  let t := w_table w in
  let n := Z.of_nat (length (rows_of (req_key req) t)) in
  match Manager_Acquire req fresh t with
  | Ok (g, t') =>
      (forall r, live (req_key req) t = Some r -> l_ExpiresAt (row_lease r) <= r_Now req) /\ storable req fresh t /\
      f_Token (g_Fence g) = n + 1 /\ ev_PriorToken (g_Evidence g) = n /\
      (ev_Kind (g_Evidence g) = TransitionTakenOver <-> live (req_key req) t <> None) /\
      (exists row, live (req_key req) t' = Some row /\ names (g_Fence g) t' row /\ f_Holder (g_Fence g) = r_Holder req) /\
      (forall k, k <> req_key req -> rows_of k t' = rows_of k t)
  | Err e =>
      (e = refuse CodeLeaseHeld ErrHeld (r_Resource req) (HolderID (r_Holder req)) /\
       exists r, live (req_key req) t = Some r /\ r_Now req < l_ExpiresAt (row_lease r)) \/
      (e = wrapStorage (r_Resource req) (HolderID (r_Holder req)) /\ ~ storable req fresh t)
  | Panic => False
  end.
Proof.
  intros Hw Hv t n. pose proof (world_table _ (reachable_ok _ Hw)) as Hok. fold t in Hok.
  unfold Manager_Acquire. rewrite Hv. cbn [mbind outcome_bind]. unfold acquire_prior, LeaseStore_Current.
  change (LeaseStore_currentQuery _ _ _ t) with (LeaseStore_currentQuery (req_key req).1.1 (req_key req).1.2 (req_key req).2 t).
  rewrite (live_current t _ Hok). unfold LeaseStore_Acquire.
  pose proof (acquire_read_spec t req fresh Hok Hv) as Hread.
  pose proof (acquire_write_exact t req fresh) as Hexact. pose proof (acquired_names t req fresh) as Hnames.
  destruct (live (req_key req) t) as [r|] eqn:El; cbn [mbind outcome_bind] in *.
  - destruct (Z.ltb_spec (r_Now req) (l_ExpiresAt (row_lease r))) as [Hlt|Hge]; rewrite Hread; cbn [mbind outcome_bind map_err].
    { left. split; [done|]. by exists r. }
    specialize (Hexact _ Hok Hv Hread). destruct (acquire_write _ _ _ t) as [[held t']|e|] eqn:Ew; cbn [map_err mbind outcome_bind]; [| |done].
    2: { destruct Hexact as [Hno [-> | ->]]; by right. }
    destruct (Hnames _ held t' Hok eq_refl Hread Ew) as (Ht & Hrow & Hother).
    destruct (live_in t _ r Hok El) as (Hr & _ & _ & Htok). pose proof (ok_rows t Hok) as Hck. rewrite List.Forall_forall in Hck.
    destruct (row_bounds r (Hck r Hr)) as [Hb _]. unfold row_token in Hb, Htok.
    destruct (grant_evidence req (row_lease r) held n ltac:(lia) Ht) as (Hf & Hp & Hkind).
    split; [by intros ? [= <-]|]. split; [done|]. split; [done|]. split; [done|]. split; [rewrite Hkind; split; [done | lia]|].
    split; [|done]. destruct (Hrow (row_lease r)) as (row & Hl & Hn). by exists row.
  - rewrite Hread. cbn [mbind outcome_bind]. specialize (Hexact _ Hok Hv Hread).
    destruct (acquire_write _ _ _ t) as [[held t']|e|] eqn:Ew; cbn [map_err mbind outcome_bind]; [| |done].
    2: { destruct Hexact as [Hno [-> | ->]]; by right. }
    destruct (Hnames _ held t' Hok eq_refl Hread Ew) as (Ht & Hrow & Hother).
    destruct (grant_evidence req no_lease held n ltac:(lia) Ht) as (Hf & Hp & Hkind).
    split; [done|]. split; [done|]. split; [done|]. split; [done|]. split; [rewrite Hkind; by split|].
    split; [|done]. destruct (Hrow no_lease) as (row & Hl & Hn). by exists row.
Qed.

(** * History *)

(** What one row tells: the lease was taken, after the token before its own,
    and, when it is settled, how it ended. *)
Definition row_evidence (tenant : string) (res : Resource) (r : lease_row) : list Evidence :=
  let l := row_lease r in
  newEvidence TransitionAcquired tenant (l_LeaseID l) res (l_HolderID l) (l_FenceToken l) (l_FenceToken l - 1) (l_AcquiredAt l) "" ::
  match closingTransition (l_State l) with
  | Some closed => [newEvidence closed tenant (l_LeaseID l) res (l_HolderID l) (l_FenceToken l) (l_FenceToken l) (closingInstant l) ""]
  | None => []
  end.

Lemma ordered_rows m rows : (forall i r, rows !! i = Some r -> row_token r = m + Z.of_nat i + 1) -> order_by_token rows = rows.
Proof.
  revert m. induction rows as [|r rows IH]; intros m H; [done|]. cbn [order_by_token].
  rewrite (IH (m + 1)) by (intros i s Hi; rewrite (H (S i) s Hi); lia).
  destruct rows as [|s rows]; [done|]. cbn [insert_by_token].
  pose proof (H 0%nat r eq_refl). pose proof (H 1%nat s eq_refl). by rewrite (proj2 (Z.leb_le _ _)) by lia.
Qed.

Lemma history_rows tenant res m rows : (forall i r, rows !! i = Some r -> row_token r = m + Z.of_nat i + 1) ->
  history_loop tenant res m (row_lease <$> rows) = mjoin (row_evidence tenant res <$> rows).
Proof.
  revert m. induction rows as [|r rows IH]; intros m H; [done|]. cbn [fmap list_fmap history_loop mjoin list_join].
  pose proof (H 0%nat r eq_refl) as H0. unfold row_token in H0.
  assert (E : l_FenceToken (row_lease r) = m + 1) by lia.
  rewrite (IH (l_FenceToken (row_lease r))) by (intros i s Hi; rewrite (H (S i) s Hi); lia).
  unfold row_evidence at 2. cbn [app]. rewrite E. by replace (m + 1 - 1) with m by lia.
Qed.

Lemma stored_rows t k : table_ok t ->
  LeaseStore_History k.1.1 k.1.2 k.2 t = row_lease <$> rows_of k t.
Proof.
  intros Hok. unfold LeaseStore_History. fold (rows_of k t). rewrite (ordered_rows 0 (rows_of k t)) by (intros i r Hi; destruct (ok_chain t Hok k i r Hi); lia).
  apply list_fmap_ext. intros i r Hi. apply lookup_in, rows_of_in in Hi as [Hi _].
  pose proof (ok_rows t Hok) as Hck. rewrite List.Forall_forall in Hck. destruct (row_bounds r (Hck r Hi)) as [Ht Hv].
  unfold row_token, max_int64 in *. rewrite !to_uint64_small by lia. by destruct r as [[]].
Qed.

Lemma history_of t tenant res : table_ok t -> tenant <> nil_uuid -> Resource_validate res = Ok tt ->
  Manager_History tenant res t = Ok (mjoin (row_evidence tenant res <$> rows_of (tenant, Kind res, ID res) t)).
Proof.
  intros Hok Ht Hr. unfold Manager_History. rewrite (proj2 (String.eqb_neq _ _) Ht), Hr. cbn [fail_if mbind outcome_bind].
  f_equal. change (LeaseStore_History tenant (Kind res) (ID res) t) with (LeaseStore_History (tenant, Kind res, ID res).1.1 (tenant, Kind res, ID res).1.2 (tenant, Kind res, ID res).2 t).
  rewrite (stored_rows t _ Hok). apply history_rows. intros i r Hi. destruct (ok_chain t Hok _ i r Hi). lia.
Qed.

(** the rows alone tell who held a resource.  The evidence of an acquire -
    lease, resource, holder, token and the token it superseded - is in the
    history of every later state, reported as ACQUIRED at the instant the row
    stores; the openings of a history are exactly the leases of the resource,
    in the order of their tokens, and a lease is closed in it exactly when its
    row is settled. *)
Theorem history_reconstructs w w1 w' req fresh g t' : reachable w -> reachable w1 -> rtc lease_step w1 w' ->
  Manager_Acquire req fresh (w_table w) = Ok (g, t') -> w_table w1 = t' ->
  let res := r_Resource req in
  Manager_History (r_TenantID req) res (w_table w') =
    Ok (mjoin (row_evidence (r_TenantID req) res <$> rows_of (req_key req) (w_table w'))) /\
  exists e, In e (mjoin (row_evidence (r_TenantID req) res <$> rows_of (req_key req) (w_table w'))) /\
    ev_Kind e = TransitionAcquired /\ ev_LeaseID e = ev_LeaseID (g_Evidence g) /\ ev_HolderID e = ev_HolderID (g_Evidence g) /\
    ev_Token e = ev_Token (g_Evidence g) /\ ev_PriorToken e = ev_PriorToken (g_Evidence g) /\ ev_At e = stored (ev_At (g_Evidence g)).
Proof.
  intros Hw Hw1 Hs HA <-. destruct (steps_world _ _ Hs (reachable_ok _ Hw1)) as [[Hok' _] He]. cbv zeta.
  pose proof (world_table _ (reachable_ok _ Hw)) as Hok. unfold Manager_Acquire in HA. ok_inv. simplify_eq.
  match goal with Hv : AcquireRequest_validate _ = Ok tt |- _ => pose proof Hv as Hval; unfold AcquireRequest_validate in Hv; ok_inv end.
  split.
  { apply history_of; [done | by apply String.eqb_neq | done]. }
  match goal with Hm : map_err _ (LeaseStore_Acquire _ _ _) = Ok _ |- _ => apply map_err_ok in Hm; unfold LeaseStore_Acquire in Hm; ok_inv end.
  match goal with p : Lease * list lease_row |- _ => destruct p as [held t1]; injection HA as <- -> end.
  match goal with Hrd : acquire_read _ _ _ = Ok _, Hwr : acquire_write _ _ _ _ = Ok _ |- _ => rename Hrd into Hread; rename Hwr into Hwrite end.
  destruct (acquire_write_inv _ _ _ _ _ _ Hok (acquire_read_ok _ _ _ _ Hok Hread) Hwrite) as (_ & _ & _ & Et & _ & Eheld).
  change (inp_key (acquire_input req fresh)) with (req_key req) in *. set (n := Z.of_nat _) in *.
  set (row := acquired_row (acquire_input req fresh) (n + 1)) in *.
  assert (Hi : exists i, rows_of (req_key req) (w_table w1) !! i = Some row).
  { apply in_lookup. rewrite Et. apply rows_of_in. split; [apply in_or_app; right; by left | done]. }
  destruct Hi as [i Hi]. destruct (He _ _ _ Hi) as (r' & Hi' & [Cid Ckey Ct Ch Ca _]). unfold row_id in Cid. unfold row_token in Ct.
  eexists. split.
  { apply list_elem_of_In, list_elem_of_join. exists (row_evidence (r_TenantID req) (r_Resource req) r').
    split; [left | apply list_elem_of_fmap; exists r'; split; [done | by apply list_elem_of_lookup_2 in Hi']]. }
  destruct (grant_evidence req a0 held n) as (_ & Hp & _); [lia | by rewrite Eheld |].
  cbn [newEvidence ev_Kind ev_LeaseID ev_HolderID ev_Token ev_PriorToken ev_At]. rewrite Ct, Ca, Ch, Hp.
  injection Cid as _ ->. rewrite Eheld. cbn. repeat split; try done; lia.
Qed.

(** * Renewing, releasing, expiring *)

(** The table in which the row [r] has become [r']. *)
Definition replace_row (r r' : lease_row) (t : lease_table) : lease_table := (fun s => if bool_decide (s = r) then r' else s) <$> t.

Lemma fenced_update tenant lease token r g t : table_ok t -> In r t -> row_held r = true ->
  row_id r = (tenant, lease) -> row_token r = token ->
  if row_checks (g r) then exists n, n <> 0 /\ update_rows (fenced_row tenant lease token) g t = Ok (n, replace_row r (g r) t)
  else update_rows (fenced_row tenant lease token) g t = Err DbCheck.
Proof.
  intros Hok Hr Hh Hid Ht. pose proof (ok_rows t Hok) as Hck. rewrite List.Forall_forall in Hck.
  destruct (row_bounds r (Hck r Hr)) as [Hb _].
  assert (Hp : forall s, In s t -> fenced_row tenant lease token s = bool_decide (s = r)).
  { intros s Hs. unfold fenced_row. rewrite to_int64_small by (unfold min_int64; lia). rewrite <- Hid, <- Ht.
    case_bool_decide as E; [rewrite (id_unique t s r Hok Hs Hr E), Z.eqb_refl, Hh, bool_decide_eq_true_2 by done; done|].
    rewrite bool_decide_eq_false_2 by congruence. done. }
  unfold update_rows. destruct (row_checks (g r)) eqn:Eg.
  - rewrite (proj2 (forallb_forall _ _)).
    2: { intros s Hs. rewrite (Hp s Hs). case_bool_decide as E; [by rewrite E, Eg | done]. }
    eexists. split; [|do 2 f_equal; apply list_fmap_ext; intros i s Hs; rewrite (Hp s) by (by apply (lookup_in _ i)); by case_bool_decide; subst].
    assert (Hin : In r (List.filter (fenced_row tenant lease token) t)).
    { apply List.filter_In. split; [done|]. rewrite (Hp r Hr). by apply bool_decide_eq_true_2. }
    destruct (List.filter _ t); [done | cbn [length]; lia].
  - destruct (forallb _ t) eqn:Ef; [|done]. rewrite forallb_forall in Ef. specialize (Ef r Hr).
    rewrite (Hp r Hr), bool_decide_eq_true_2, Eg in Ef by done. done.
Qed.

Lemma replace_live t r r' : table_ok t -> In r t -> row_held r = true -> key_of r' = key_of r ->
  last (rows_of (key_of r) (replace_row r r' t)) = Some r'.
Proof.
  intros Hok Hr Hh Hk. unfold replace_row. rewrite rows_of_map by (intros s _; by case_bool_decide; subst).
  rewrite fmap_last, (held_last t r Hok Hr Hh). cbn. by rewrite bool_decide_eq_true_2.
Qed.

Lemma names_in f t r : table_ok t -> names f t r -> In r t /\ key_of r = fence_key f /\ row_id r = (f_TenantID f, f_LeaseID f).
Proof.
  intros Hok [Hl Hh Ht Hid _]. destruct (last_held t _ r Hok Hl) as (Hr & Hk & _). split; [done|]. split; [done|].
  unfold key_of, fence_key in Hk. unfold row_id. congruence.
Qed.

(** A settle of the live row of a resource. *)
Lemma settle_live tenant k r st now t : table_ok t -> live k t = Some r -> k.1.1 = tenant -> st = LeaseReleased \/ st = LeaseExpired -> now <> 0 ->
  match LeaseStore_settle tenant (l_LeaseID (row_lease r)) (l_FenceToken (row_lease r)) st now t with
  | Ok t' => t' = replace_row r (with_settled st (stored now) r) t /\ live k t' = None
  | Err e => e = RsDb DbCheck /\ l_Version (row_lease r) = max_int64
  | Panic => False
  end.
Proof.
  intros Hok Hl <- Hst Hnow. destruct (live_in t k r Hok Hl) as (Hr & Hk & Hh & _).
  assert (Hid : row_id r = (k.1.1, l_LeaseID (row_lease r))) by (by rewrite <- Hk).
  pose proof (ok_rows t Hok) as Hck. rewrite List.Forall_forall in Hck. pose proof (Hck r Hr) as Hcr.
  pose proof (fenced_update k.1.1 (l_LeaseID (row_lease r)) (l_FenceToken (row_lease r)) r (with_settled st (stored now)) t Hok Hr Hh Hid eq_refl) as H.
  rewrite (settled_checks st _ r Hst Hcr) in H. unfold LeaseStore_settle, db.
  rewrite (proj2 (Z.eqb_neq now 0) Hnow). cbn [fail_if mbind outcome_bind].
  destruct (Z.ltb_spec (l_Version (row_lease r)) max_int64) as [Hlt|Hge].
  - destruct H as (n & Hn & ->). cbn [map_err mbind outcome_bind]. rewrite (proj2 (Z.eqb_neq n 0) Hn). split; [done|].
    unfold live. rewrite <- Hk. rewrite replace_live by done. rewrite settled_not_held; [done|]. by destruct Hst as [-> | ->].
  - rewrite H. cbn [map_err mbind outcome_bind]. split; [done|]. destruct (row_bounds r Hcr) as [_ Hv]. lia.
Qed.

Lemma renew_spec f now ttl t : table_ok t -> Fence_Validate f = Ok tt -> now <> 0 -> 0 < ttl ->
  match Manager_Renew f now ttl t with
  | Ok (g, t') => exists r, names f t r /\ now < l_ExpiresAt (row_lease r) /\ g_Fence g = f /\ g_ExpiresAt g = now + ttl /\
      t' = replace_row r (with_heartbeat (stored now) (stored (now + ttl)) r) t /\
      live (fence_key f) t' = Some (with_heartbeat (stored now) (stored (now + ttl)) r)
  | Err e => Manager_verify f now t = Err e \/
      (e = wrapStorage (f_Resource f) (HolderID (f_Holder f)) /\ exists r, names f t r /\
        row_checks (with_heartbeat (stored now) (stored (now + ttl)) r) = false)
  | Panic => False
  end.
Proof.
  intros Hok Hf Hnow Httl. unfold Manager_Renew. rewrite Hf, (proj2 (Z.eqb_neq now 0) Hnow), (proj2 (Z.leb_gt ttl 0) Httl).
  cbn [fail_if mbind outcome_bind]. pose proof (verify_total f now t Hok) as Hnp.
  destruct (Manager_verify f now t) as [c|e|] eqn:Ev; cbn [mbind outcome_bind]; [|by left|done].
  destruct (verify_names f now t c Hok Ev) as (r & -> & Hn & Hl & Hw). destruct (names_in f t r Hok Hn) as (Hr & Hk & Hid).
  pose proof (fenced_update (f_TenantID f) (f_LeaseID f) (f_Token f) r (with_heartbeat (stored now) (stored (now + ttl))) t Hok Hr (names_held _ _ _ Hn) Hid (names_token _ _ _ Hn)) as H.
  unfold LeaseStore_Heartbeat, db.
  assert (Ht0 : (f_Token f =? 0) = false) by (unfold Fence_Validate in Hf; ok_inv; done).
  rewrite Ht0, (proj2 (Z.eqb_neq now 0) Hnow), (proj2 (Z.ltb_lt now (now + ttl))) by lia. cbn [orb negb fail_if mbind outcome_bind].
  destruct (row_checks (with_heartbeat (stored now) (stored (now + ttl)) r)) eqn:Ec.
  - destruct H as (n & Hn0 & ->). cbn [map_err mbind outcome_bind]. rewrite (proj2 (Z.eqb_neq n 0) Hn0). cbn [map_err mbind outcome_bind].
    exists r. split; [done|]. split; [by destruct Hw|]. split; [done|]. split; [done|]. split; [done|].
    unfold live. rewrite <- Hk, replace_live by (done || apply Hn). change (row_held (with_heartbeat _ _ r)) with (row_held r). by rewrite (names_held _ _ _ Hn).
  - rewrite H. cbn [map_err mbind outcome_bind]. right. split; [done|]. by exists r.
Qed.

Lemma release_spec f now t : table_ok t -> Fence_Validate f = Ok tt -> now <> 0 ->
  match Manager_Release f now t with
  | Ok (_, t') => exists r, names f t r /\ t' = replace_row r (with_settled LeaseReleased (stored now) r) t /\ live (fence_key f) t' = None
  | Err e => Manager_verify f 0 t = Err e \/
      (e = wrapStorage (f_Resource f) (HolderID (f_Holder f)) /\ exists r, names f t r /\ l_Version (row_lease r) = max_int64)
  | Panic => False
  end.
Proof.
  intros Hok Hf Hnow. unfold Manager_Release. rewrite Hf, (proj2 (Z.eqb_neq now 0) Hnow). cbn [fail_if mbind outcome_bind].
  pose proof (verify_total f 0 t Hok) as Hnp.
  destruct (Manager_verify f 0 t) as [c|e|] eqn:Ev; cbn [mbind outcome_bind]; [|by left|done].
  destruct (verify_names f 0 t c Hok Ev) as (r & -> & Hn & Hl & _).
  pose proof (settle_live (f_TenantID f) (fence_key f) r LeaseReleased now t Hok Hl eq_refl (or_introl eq_refl) Hnow) as H.
  pose proof Hn as [_ _ Ht Hid _]. unfold row_token in Ht. rewrite Ht, Hid in H. unfold LeaseStore_Release.
  destruct (LeaseStore_settle _ _ _ _ _ t) as [t'|e|]; cbn [map_err mbind outcome_bind]; [| |done].
  - destruct H as [-> Hlive]. by exists r.
  - destruct H as [-> Hv]. right. split; [done|]. by exists r.
Qed.

Lemma expire_spec f now t : table_ok t -> Fence_Validate f = Ok tt -> now <> 0 ->
  match Manager_Expire (f_TenantID f) (f_Resource f) now t with
  | Ok (_, t') => exists r, live (fence_key f) t = Some r /\ l_ExpiresAt (row_lease r) <= now /\
      t' = replace_row r (with_settled LeaseExpired (stored now) r) t /\ live (fence_key f) t' = None
  | Err e => (e = refuse CodeLeaseLost ErrLeaseLost (f_Resource f) "" /\ live (fence_key f) t = None) \/
      exists r, live (fence_key f) t = Some r /\
        (e = refuse CodeLeaseLive ErrLeaseLive (f_Resource f) (l_HolderID (row_lease r)) /\ now < l_ExpiresAt (row_lease r) \/
         e = wrapStorage (f_Resource f) (l_HolderID (row_lease r)) /\ l_Version (row_lease r) = max_int64)
  | Panic => False
  end.
Proof.
  intros Hok Hf Hnow. unfold Fence_Validate in Hf. ok_inv. unfold Manager_Expire.
  match goal with Ht : (f_TenantID f =? nil_uuid)%string = false, Hr : Resource_validate _ = Ok _ |- _ => rewrite Ht, Hr end.
  rewrite (proj2 (Z.eqb_neq now 0) Hnow). cbn [fail_if mbind outcome_bind].
  unfold LeaseStore_CurrentForUpdate.
  change (LeaseStore_currentQuery _ _ _ t) with (LeaseStore_currentQuery (fence_key f).1.1 (fence_key f).1.2 (fence_key f).2 t).
  rewrite (live_current t _ Hok). destruct (live (fence_key f) t) as [r|] eqn:El; [|by left].
  destruct (Z.ltb_spec now (l_ExpiresAt (row_lease r))) as [Hlt|Hge]; [right; exists r; split; [done | by left]|].
  pose proof (settle_live (f_TenantID f) (fence_key f) r LeaseExpired now t Hok El eq_refl (or_intror eq_refl) Hnow) as H.
  unfold LeaseStore_Expire. destruct (LeaseStore_settle _ _ _ _ _ t) as [t'|e|]; cbn [map_err mbind outcome_bind]; [| |done].
  - destruct H as [-> Hlive]. by exists r.
  - destruct H as [-> Hv]. right. exists r. split; [done | by right].
Qed.

(** what a holder can do to its lease, exactly.  Renew and Release act
    exactly on an accepted fence (Release at any instant), unless the row
    cannot be stored; Renew moves only the window of the lease it names and
    leaves it live, Release settles it, after which nobody holds the resource;
    Expire settles exactly a lapsed lease.  No other row changes. *)
Theorem holder_operations_exact w f now ttl : reachable w -> Fence_Validate f = Ok tt -> now <> 0 -> 0 < ttl ->
  let t := w_table w in
  match Manager_Renew f now ttl t with
  | Ok (g, t') => exists r, names f t r /\ now < l_ExpiresAt (row_lease r) /\ g_Fence g = f /\ g_ExpiresAt g = now + ttl /\
      t' = replace_row r (with_heartbeat (stored now) (stored (now + ttl)) r) t /\
      live (fence_key f) t' = Some (with_heartbeat (stored now) (stored (now + ttl)) r)
  | Err e => Manager_verify f now t = Err e \/
      (e = wrapStorage (f_Resource f) (HolderID (f_Holder f)) /\ exists r, names f t r /\
        row_checks (with_heartbeat (stored now) (stored (now + ttl)) r) = false)
  | Panic => False
  end /\
  match Manager_Release f now t with
  | Ok (_, t') => exists r, names f t r /\ t' = replace_row r (with_settled LeaseReleased (stored now) r) t /\ live (fence_key f) t' = None
  | Err e => Manager_verify f 0 t = Err e \/
      (e = wrapStorage (f_Resource f) (HolderID (f_Holder f)) /\ exists r, names f t r /\ l_Version (row_lease r) = max_int64)
  | Panic => False
  end /\
  match Manager_Expire (f_TenantID f) (f_Resource f) now t with
  | Ok (_, t') => exists r, live (fence_key f) t = Some r /\ l_ExpiresAt (row_lease r) <= now /\
      t' = replace_row r (with_settled LeaseExpired (stored now) r) t /\ live (fence_key f) t' = None
  | Err e => (e = refuse CodeLeaseLost ErrLeaseLost (f_Resource f) "" /\ live (fence_key f) t = None) \/
      exists r, live (fence_key f) t = Some r /\
        (e = refuse CodeLeaseLive ErrLeaseLive (f_Resource f) (l_HolderID (row_lease r)) /\ now < l_ExpiresAt (row_lease r) \/
         e = wrapStorage (f_Resource f) (l_HolderID (row_lease r)) /\ l_Version (row_lease r) = max_int64)
  | Panic => False
  end.
Proof.
  intros Hw Hf Hnow Httl t. pose proof (world_table _ (reachable_ok _ Hw)) as Hok.
  split; [by apply renew_spec|]. split; [by apply release_spec | by apply expire_spec].
Qed.
End history.
