(* ===== verification/LeaseExamples.v ===== *)
(** Concrete leases: two replicas of a workload competing for one workflow
    instance, the witnesses of the lease theorems, and the runs on which leases
    depart from their documentation. *)

From S2P Require Import Prelude LeaseTable LeaseManager LeaseSteps LeaseFacts LeaseHistory.

Local Open Scope Z_scope.

(** Columns of microseconds; the texts are not looked at. *)
Definition text_model : LeaseText := {| rfc3339 := fun _ => ""; evidence_digest := fun _ _ _ _ _ _ _ _ _ => "" |}.
#[local] Existing Instance micros.
#[local] Existing Instance text_model.

Definition tenant : string := "11111111-1111-1111-1111-111111111111".
Definition instance : string := "22222222-2222-2222-2222-222222222222".
Definition res : Resource := mkResource LeaseWorkflowInstance instance.
Definition alice : Identity := mkIdentity "workload:runtime" "replica-a".
Definition bob : Identity := mkIdentity "workload:runtime" "replica-b".
Definition second : Z := 1000000000.
Definition noon : Z := 63000000000 * second.

Definition ask (who : Identity) (now : Z) (id : string) : AcquireRequest := mkAcquireRequest tenant res who now (60 * second) id.
Definition req_a : AcquireRequest := ask alice noon "aaaaaaaa-aaaa-aaaa-aaaa-aaaaaaaaaaaa".
Definition req_b : AcquireRequest := ask bob (noon + 61 * second) "bbbbbbbb-bbbb-bbbb-bbbb-bbbbbbbbbbbb".

Definition after {A} (m : outcome lease_error (A * lease_table)) (t : lease_table) : lease_table := match m with Ok (_, t') => t' | _ => t end.
Definition table_a : lease_table := after (Manager_Acquire req_a "" []) [].
Definition table_b : lease_table := after (Manager_Acquire req_b "" table_a) table_a.
Definition fence_a : Fence := mkFence tenant res (r_LeaseID req_a) alice 1.
Definition fence_b : Fence := mkFence tenant res (r_LeaseID req_b) bob 2.

(** A successful result. *)
Definition got {A} (m : outcome lease_error A) (d : A) : A := match m with Ok a => a | _ => d end.

Definition no_grant : Grant := mkGrant fence_a 0 0 0 (mkEvidence TransitionRefused "" "" res "" 0 0 0 "" "").
Definition grant_a : Grant := (got (Manager_Acquire req_a "" []) (no_grant, [])).1.
Definition grant_b : Grant := (got (Manager_Acquire req_b "" table_a) (no_grant, [])).1.

Lemma run_a : Manager_Acquire req_a "" [] = Ok (grant_a, table_a).
Proof. vm_compute. reflexivity. Qed.
Lemma run_b : Manager_Acquire req_b "" table_a = Ok (grant_b, table_b).
Proof. vm_compute. reflexivity. Qed.

Definition world_a : world := mkWorld table_a ∅.
Definition world_b : world := mkWorld table_b ∅.
Lemma reach_a : reachable world_a.
Proof. apply (acquire_is_run [] ∅ req_a "" grant_a table_a); [apply lookup_empty | exact run_a]. Qed.
Lemma steps_b : rtc lease_step world_a world_b.
Proof. apply (acquire_is_run table_a ∅ req_b "" grant_b table_b); [apply lookup_empty | exact run_b]. Qed.
Lemma reach_b : reachable world_b.
Proof. exact (reachable_rtc _ _ reach_a steps_b). Qed.

Lemma lease_table_invariant_witness : reachable world_b /\
  (NoDup (row_id <$> table_b) /\
   forall k, row_token <$> rows_of k table_b = Z.of_nat <$> seq 1 (length (rows_of k table_b)) /\
     forall r, In r table_b -> key_of r = k -> row_held r = true -> last (rows_of k table_b) = Some r).
Proof. split; [exact reach_b | exact (lease_table_invariant world_b reach_b)]. Defined.

Definition verified_a : Held := got (Manager_Verify fence_a (noon + second) table_a) no_grant.
Definition verified_b : Held := got (Manager_Verify fence_b (noon + 62 * second) table_b) no_grant.

Lemma accepted_fences_ordered_witness :
  Manager_Verify fence_a (noon + second) table_a = Ok verified_a /\ Manager_Verify fence_b (noon + 62 * second) table_b = Ok verified_b /\
  f_Token fence_a <= f_Token fence_b.
Proof.
  assert (Ha : Manager_Verify fence_a (noon + second) table_a = Ok verified_a) by (vm_compute; reflexivity).
  assert (Hb : Manager_Verify fence_b (noon + 62 * second) table_b = Ok verified_b) by (vm_compute; reflexivity).
  split; [exact Ha|]. split; [exact Hb|].
  apply (accepted_fences_ordered world_a world_b fence_a fence_b (noon + second) (noon + 62 * second) verified_a verified_b reach_a steps_b eq_refl Ha Hb).
Defined.

Definition no_row : lease_row := mkRow no_lease None.
Definition row_b : lease_row := nth 1 table_b no_row.

Lemma superseded_fence_refused_witness : In row_b table_b /\
  (Manager_Verify fence_a (noon + second) table_b = Err (stale fence_a) \/ Manager_Verify fence_a (noon + second) table_b = Err (lost fence_a)).
Proof.
  assert (Hin : In row_b table_b) by (apply nth_In; vm_compute; repeat constructor).
  split; [exact Hin|].
  apply (superseded_fence_refused world_b world_b fence_a row_b (noon + second) reach_b (rtc_refl _ _) ltac:(vm_compute; reflexivity) Hin ltac:(vm_compute; reflexivity)).
  left. vm_compute. reflexivity.
Defined.

Lemma acquire_exact_witness : Manager_Acquire req_b "" table_a = Ok (grant_b, table_b) /\
  f_Token (g_Fence grant_b) = 2 /\ ev_PriorToken (g_Evidence grant_b) = 1.
Proof.
  pose proof (acquire_exact world_a req_b "" reach_a ltac:(vm_compute; reflexivity)) as H. cbv zeta in H.
  change (w_table world_a) with table_a in H. rewrite run_b in H. destruct H as (_ & _ & Ht & Hp & _).
  split; [exact run_b|]. split; [exact Ht | exact Hp].
Defined.

Definition renewed_a : Grant * lease_table := got (Manager_Renew fence_a (noon + second) (60 * second) table_a) (no_grant, []).

Lemma holder_operations_exact_witness :
  Manager_Renew fence_a (noon + second) (60 * second) table_a = Ok renewed_a /\ exists r, names fence_a table_a r /\
    live (fence_key fence_a) renewed_a.2 = Some (with_heartbeat (stored (noon + second)) (stored (noon + second + 60 * second)) r).
Proof.
  assert (E : Manager_Renew fence_a (noon + second) (60 * second) table_a = Ok renewed_a) by (vm_compute; reflexivity).
  destruct (holder_operations_exact world_a fence_a (noon + second) (60 * second) reach_a ltac:(vm_compute; reflexivity) ltac:(vm_compute; discriminate) ltac:(vm_compute; reflexivity)) as [H _].
  change (w_table world_a) with table_a in H. rewrite E in H. split; [exact E|].
  destruct renewed_a as [g t']. destruct H as (r & Hn & _ & _ & _ & _ & Hl). exists r. split; [exact Hn | exact Hl].
Defined.

Lemma advance_fenced_guarded_witness :
  AdvanceFenced (Some Fenced_VerifyFence) (fun s : Z => @Ok unit (Z * Z) (s, s + 1)) tenant instance
    (Fence_RuntimeFence fence_a (noon + second)) table_a 7 = Ok (7, 8).
Proof.
  destruct (advance_fenced_guarded world_a tenant instance (Fence_RuntimeFence fence_a (noon + second)) reach_a) as [H _].
  change (w_table world_a) with table_a in H. rewrite H; [reflexivity|]. clear H. constructor.
  - vm_compute. discriminate.
  - split; [vm_compute; discriminate|]. split; vm_compute; reflexivity.
  - split; vm_compute; reflexivity.
  - split; vm_compute; discriminate.
  - eexists _, (nth 0 table_a no_row). split; [vm_compute; reflexivity|]. split; [|vm_compute; reflexivity].
    constructor; vm_compute; reflexivity.
Defined.

Lemma history_reconstructs_witness : Manager_Acquire req_a "" [] = Ok (grant_a, table_a) /\
  exists e, In e (mjoin (row_evidence tenant res <$> rows_of (req_key req_a) table_b)) /\ ev_Kind e = TransitionAcquired /\ ev_Token e = ev_Token (g_Evidence grant_a).
Proof.
  destruct (history_reconstructs empty_world world_a world_b req_a "" grant_a table_a (rtc_refl _ _) reach_a steps_b run_a eq_refl)
    as (_ & e & Hin & Hk & _ & _ & Ht & _).
  split; [exact run_a|]. exists e. split; [exact Hin|]. split; [exact Hk | exact Ht].
Defined.

(** * Departures *)

(** Bob asks when Alice's lease has lapsed, and reads the live row. *)
Definition pending_b : pending := mkPending req_b "" (row_lease (nth 0 table_a no_row)) (Some (Some (row_lease (nth 0 table_a no_row)))).
Definition world_read : world := mkWorld table_a (<[req_key req_b := pending_b]> ∅).

Lemma reach_read : reachable world_read.
Proof.
  eapply reachable_rtc; [exact reach_a|]. eapply rtc_l.
  { apply (step_lock table_a ∅ req_b "" (row_lease (nth 0 table_a no_row))); [vm_compute; reflexivity | apply lookup_empty | vm_compute; reflexivity]. }
  eapply rtc_l.
  { eapply (step_read table_a _ (req_key req_b) _ (Some (row_lease (nth 0 table_a no_row)))); [apply lookup_insert_eq | reflexivity | vm_compute; reflexivity]. }
  cbn [p_req p_fresh p_prior]. rewrite insert_insert_eq. apply rtc_refl.
Qed.

(** Alice, whose clock is behind, renews before Bob writes. *)
Definition late_renewal : Grant * lease_table := got (Manager_Renew fence_a (noon + 59 * second) (60 * second) table_a) (no_grant, []).
Definition overtaken : Lease * lease_table :=
  match acquire_write (acquire_input req_b "") (r_Now req_b) (Some (row_lease (nth 0 table_a no_row))) late_renewal.2 with Ok r => r | _ => (no_lease, []) end.

(** The release of Alice's lease, half a minute after she took it. *)
Definition release_a : Evidence * lease_table := got (Manager_Release fence_a (noon + 30 * second)  table_a) (g_Evidence no_grant, []).
Definition history_a : list Evidence := got (Manager_History tenant res release_a.2) [].

(** leases depart from their documentation in these runs.
    A renewal that lands between the read and the writes of an acquire is
    granted and then expired: the acquirer takes a lease that is live by its
    own clock, which the documentation answers with ErrHeld, and the renewed
    holder is refused although its grant has not run out.
    The record of a release is not the one the history reconstructs: the live
    record carries the instant of the release, the history the last heartbeat,
    so the two have different content.
    A lease shorter than the resolution of the column is a storage failure,
    not an invalid request. *)
Theorem lease_divergences :
  (reachable world_read /\
   Manager_Renew fence_a (noon + 59 * second) (60 * second) table_a = Ok late_renewal /\
   rtc lease_step (mkWorld late_renewal.2 (w_pending world_read)) (mkWorld overtaken.2 ∅) /\
   l_HolderID overtaken.1 = HolderID bob /\ r_Now req_b < g_ExpiresAt late_renewal.1 /\
   Manager_Verify fence_a (r_Now req_b) overtaken.2 = Err (stale fence_a)) /\
  (Manager_Release fence_a (noon + 30 * second) table_a = Ok release_a /\
   Manager_History tenant res release_a.2 = Ok history_a /\
   (forall e, In e history_a -> ev_Kind e = TransitionReleased -> ev_At e = noon) /\
   ev_At release_a.1 = noon + 30 * second) /\
  Manager_Acquire (mkAcquireRequest tenant res alice noon 999 (r_LeaseID req_a)) "" [] = Err (wrapStorage res (HolderID alice)).
Proof.
  split; [|split].
  - split; [exact reach_read|]. split; [vm_compute; reflexivity|]. split.
    { eapply rtc_l; [|apply rtc_refl]. assert (E : ∅ = delete (req_key req_b) (w_pending world_read)) by (cbn; rewrite delete_insert_id; [done | apply lookup_empty]).
      rewrite E. eapply (step_write _ _ _ pending_b _ overtaken.1); [apply lookup_insert_eq | reflexivity | vm_compute; reflexivity]. }
    vm_compute. done.
  - split; [vm_compute; reflexivity|]. split; [vm_compute; reflexivity|]. split; [|vm_compute; reflexivity].
    apply (proj1 (List.Forall_forall (fun e => ev_Kind e = TransitionReleased -> ev_At e = noon) history_a)).
    vm_compute. constructor; [discriminate | constructor; [reflexivity | constructor]].
  - vm_compute. reflexivity.
Qed.
